(* ===== verification/_CoqProject ===== *)
-Q . S2P
Prelude.v
Maps.v
Float64.v
Ratio.v
GoTime.v
TimeText.v
Text.v
Strs.v
PodSec.v
Data.v
Fingerprint.v
Seal.v
Fields.v
Observe.v
Format.v
Score.v
ClusterScore.v
Population.v
Detect.v
SmallFleet.v
Drift.v
Rules.v
Notify.v
Findings.v
Finders.v
Capacity.v
FindHealth.v
FindSecurity.v
FindCluster.v
Generate.v
Compare.v
Build.v
Profile.v
Cohort.v
Explain.v
MisCohort.v
ScanDiff.v
Recurrence.v
Brief.v
Trend.v
Forecast.v
Cost.v
Pipeline.v
WhatIf.v
Scan.v
Payload.v
NodeHealth.v
Inventory.v
Rbac.v
Certs.v
WorkloadCov.v
Events.v
Objects.v
Metrics.v
Reports.v
Deprecated.v
Geo.v
WorkloadSec.v
ImageAudit.v
Baseline.v
Admission.v
RateLimit.v
Keys.v
Auth.v
Alerts.v
Acks.v
Emit.v
Remediate.v
Cache.v
Stream.v
Duration.v
Controller.v
Store.v
Migrate.v
Copy.v
Fanout.v
ScanServer.v
Handlers.v
Routes.v
History.v
