(* ===== verification/Prelude.v ===== *)
(** * Fleetsweeper

    Fleetsweeper scans a fleet of Kubernetes clusters and reports how the clusters
    differ. A scanner reads lists of objects from one cluster and returns a payload
    with a state; [report.Build] compares the payloads of all clusters section by
    section, detects outliers, generates findings, scores the fleet, groups findings
    into incidents and writes a summary. Reports of several scans are compared with
    each other (diff, persistence, drift). A server runs scans, keeps them in a store behind
    keys and scopes, notifies webhooks and takes alerts; a controller runs the scans that
    resources in a cluster ask for. An admission webhook judges new pods by a
    baseline computed from stored scans, a rate limiter guards the server, and reports
    are sealed into signed archives.

    ** How the parts meet

    [Scan.Finish] turns the reads of one scanner run into a state ([ok], [degraded],
    [errored], [unavailable]) and a payload. [Build.build_sections] puts the payloads of
    the runs that saw anything into sections; the scanner generators read them
    through [Observe.clusterView] and [observe], so what was not measured cannot be taken for
    a zero, while populations ([Population]) and the vulnerability rule read the payloads of
    the sections directly. [Pipeline.Build] composes the report in the order of the source:
    sections, populations, outliers ([Detect] or [SmallFleet], by fleet size), cohort
    norms ([Explain]), the capacity correlator, the finding generators ([Generate]), the
    removal of restated facts ([Findings.dropRedundant]), mis-cohort findings, incidents,
    health rows, the score and the brief. [Pipeline.report_backed] follows scan results
    through all of it.

    ** Files, and the code they model

    Shared: [Prelude] (tactics, the hint database [fleet], three-way comparisons as the
    class [CmpOrder], sorting, option and list lemmas), [Maps] (maps a loop fills),
    [Float64] and [Ratio] (Go's float64 on the Standard Library's [SpecFloat], quotients
    against thresholds, and sums that stay exact), [GoTime]
    (instants, durations and RFC 3339), [Text] (internal/util/text.go), [Strs] (package
    strings, and runes), [Format] (fmt and strconv verbs on exact binary64 values),
    [Duration] and [TimeText] (package time's parsing and printing), [Finders] (type
    assertions on payloads).

    Data: [Data] (the structs of internal/report and internal/scanner), [Fields]
    (fields.go, severity.go), [Rules] (rules.go), [Fingerprint] (internal/util: SHA-256 and
    the finding identity).

    Scanners: [Scan] (errors.go, paging.go, topn.go, registry.go), [PodSec]
    (internal/podsec), [NodeHealth], [Inventory] (namespace, networkpolicy, quota,
    security), [WorkloadSec], [ImageAudit],
    [Payload] (what the scanners and their generators share), [Rbac] (rbac, rbacaudit),
    [Certs] (certs, admission), [WorkloadCov] (workloadcoverage), [Events], [Objects]
    (clusterinfo, crd, ingress, service, version, resources), [Metrics], [Reports]
    (vulnerabilities, policyreportingest), [Deprecated] (deprecatedapis), [Geo] (geo and its
    table of regions).

    The report: [Build] and [Compare] (report.go, compare.go), [Observe], [Population] and
    [Detect] (outlier.go, distribution.go), [SmallFleet], [Profile] and [Cohort]
    (internal/cohort), [Explain] (explain.go, cohorts.go), [MisCohort], [Capacity],
    [FindHealth], [FindSecurity], [FindCluster] (findings_*.go),
    [Generate] and [Findings] (findings.go), [Score] and [ClusterScore], [Recurrence]
    (persistence.go, incident.go), [Brief], [Pipeline] ([Build]).

    Over several scans: [ScanDiff] (internal/compare), [Drift] (drift.go),
    [Trend] (trend.go, changepoint.go, trend_findings.go), [Forecast] (forecast.go),
    [WhatIf] (whatif.go: the report rebuilt with one value moved to the norm).

    Services: [Baseline] and [Admission] (internal/admission), [RateLimit]
    (internal/server/ratelimit.go), [Seal] (internal/seal),
    [Cost] (internal/cost), [Keys] and [Auth] (apikeys.go, sessions, auth.go), [Notify]
    (internal/webhooks, slack.go), [Alerts] and [Acks] (the inbound webhooks, alerts and
    acknowledgements), [Emit] (fleet drift objects and policy reports), [Remediate]
    (internal/remediate), [Cache] (the reports a server keeps), [Stream] (the event bus),
    [Fanout] (the pools of scans and connections), [ScanServer] (scans as processes over
    mutex, trigger flag, slots and store), [Handlers] (the endpoints of the tables),
    [Controller] (the reconciler of scan resources), [Routes] (the table of endpoints, the
    muxes and the Go client), [History] (the commands over stored scans, and the endpoints
    that rebuild reports)

    Storage: [Store] (internal/store: the tables and their operations, statement failures
    included), [Migrate] (the migrations of both dialects and their runner), [Copy] (the
    copy from one store to another).

    A definition has the name of the Go function it models; a struct is a record whose
    fields carry a prefix. A loop over clusters is [flat_map], a fold or an [omap]; a loop
    that changes several variables is a fold over their tuple.

    ** What the theorems show

    - The chain from reads to report: [Scan.finish_decides], [Scan.listall_reads_all],
      [sections_faithful], [observe_sound], [published_findings_grounded],
      [report_backed]. A failed read never becomes a measurement, every published finding
      rests on a run that saw something or is of a class the theorem lists with its own
      ground, and partial runs are marked except by the rules those theorems name.
    - What is flagged: [numeric_outlier_iff], [set_outlier_iff],
      [string_outlier_minority], [majority_numeric_unique], [degraded_lower_bound],
      [wrong_cohort_exact], [norms_only_explain], [capacity_observed],
      [version_marks_exact], [findings_name_nodes], [psa_finding_exact].
    - Nothing is lost: [dropRedundant_keeps_facts], [compare_faithful],
      [diff_partitions], [ledger_rows], [persistence_counts], [audit_accounts].
    - Independence of Go's map order: [detect_order_free], [version_marks_exact],
      [assign_partition] (a partition for every order). A map range is an arbitrary
      arrangement of the entries, given as an argument with a hypothesis that it is a
      permutation.
    - Bounds: [fleet_score_range], [auto_cohorts_bounded], [grants_within_budget],
      [sanitize_shape].
    - The services: [denied_iff], [fails_open], [checks_match_scans],
      [failed_reads_excluded], [eviction_harmless], [sealed_bundle_verifies],
      [verified_bundle_unaltered], [archive_read_exactly], [fingerprint_message_inj].
    - The scanners: [rbac_findings_exact], [cert_findings_exact], [webhook_findings_exact],
      [coverage_findings_exact], [event_finding_exact], [platform_drift_exact],
      [deprecated_finding_exact], [policy_tallies_exact], [top_images_worst],
      [metrics_never_invented], [placement_sound] follow the objects a scanner read
      through its payload to what the generators say of them.
    - The series: [flat_history_silent], [change_point_best], [history_order_free],
      [forecast_in_band]; what-if and cost: [fix_applied], [cost_accounts].
    - Storage: [store_consistent], [saved_scan_reads_back], [scan_saved_whole],
      [pruned_exactly], [scans_listed], [groups_refine_sets] (the tables implement a map of
      sets), [migrations_apply_once] and [migrations_finish] (several processes on one
      database), [dialects_agree], [copy_complete].
    - The server as processes: [every_scan_recorded], [scans_end], [scans_exclusive],
      [scans_finish], [completed_scan_kept], [cache_transparent], [events_delivered],
      [bus_never_panics]. An interleaving is a list of steps, each the code between two
      points where another goroutine may run.
    - Who may do what: [served_is_authentic], [anonymous_reads_end], [revoked_forever],
      [issued_key_resolves], [session_cookie_sound], [scope_exact], [writes_in_scope],
      [triggers_authorized], [acks_need_scope], [alerts_served_in_scope].
    - What reaches others: [accepted_is_notified], [notified_apart], [slack_posts_new],
      [alerts_stored], [drift_objects_exact], [policy_objects_exact],
      [remediation_ordered], [client_reaches_handler].
    - Over stored scans: [what_changed_exact], [drift_window_exact], [retention_exact],
      [drift_reads_newest], [timeline_exact].
    - The controller: [scans_paced], [woken_when_due], [retry_delay_exact],
      [outcome_written], [scans_accounted].

    ** Fuel and bounds

    [show_float] searches at most 17 digits, which determine a binary64 value;
    [point_below] halves at most 400 times; [restate_depth] is 5, the longest chain of
    the registry (a lemma of [Fields]); [find_root] is given the number of ids, more than
    any chain of merges has; [fold_small] the number of groups, each step removing one;
    [list_loop] counts the calls of a list read, and [listall_reads_all] shows that
    enough calls give the result; [trim_runes] the length of the text. Counts are [nat]
    or [Z] and the theorems that turn them into floats bound them: [max_population] is
    2^40, [max_checked] 4096, [max_rpm] 2^40, and [exact_int] 2^53, below which int to
    float64 conversion is exact.

    ** Assumptions of the model

    - float64 operations round once each, as on amd64; a target that fuses multiply and
      add may differ in the last bit.
    - A payload is decoded JSON with distinct keys in each object. encoding/json, YAML,
      tar, gzip, net/http and the Kubernetes client are parameters or their decoded
      values are arguments; a Kubernetes object is a record of the fields that are read.
    - Sorts that Go does not promise to be stable are modelled by a stable sort where
      the comparator leaves no ties, and by an arbitrary arrangement otherwise.
    - Case folding and the quoting verb are written out for ASCII.
    - A call that holds a lock is one step.

    ** Not modelled

    What only calls a library: the listeners and the decoding of bodies (net/http), the SQL
    drivers below the statements, client-go and controller-runtime below the calls the
    reconciler makes, leader election, the Cobra commands and their printing, HTML
    templates, OpenTelemetry, registry probing; their behaviour is that of the library.
    Left out by choice: the demonstration data and most commands, which print what others
    compute. [Timestamp] and [Categories]
    of a report are left out, as nothing reads them.
*)

From Stdlib Require Import ZArith Lia String Ascii Sorting.Sorted.
From stdpp Require Import base gmap strings list sorting.

(** ** Scope, hint database and tactics of the development *)

Declare Scope fleet_scope.
Delimit Scope fleet_scope with fleet.

Create HintDb fleet discriminated.

(** Split every conjunction of the goal and of the hypotheses. *)
Ltac split_all :=
  repeat match goal with
  | H : _ /\ _ |- _ => destruct H
  | |- _ /\ _ => split
  end.

(** Case analysis on the innermost [match] of the goal, remembering its equation. *)
Ltac break_match :=
  match goal with
  | |- context [ match ?x with _ => _ end ] =>
      lazymatch x with
      | context [ match _ with _ => _ end ] => fail
      | _ => let E := fresh "E" in destruct x eqn:E
      end
  end.

(** The same in a hypothesis. *)
Ltac break_match_in H :=
  match type of H with
  | context [ match ?x with _ => _ end ] =>
      lazymatch x with
      | context [ match _ with _ => _ end ] => fail
      | _ => let E := fresh "E" in destruct x eqn:E
      end
  end.

(** ** Comparison functions and the order laws they obey *)

(** A three-way comparison is a total preorder: the contract every comparator of
    the source's sorts has to meet for the sort to be meaningful. *)
Class CmpOrder {A} (c : A -> A -> comparison) : Prop := {
  cmp_refl : forall x, c x x = Eq;
  cmp_anti : forall x y, c y x = CompOpp (c x y);
  cmp_trans : forall x y z, c x y <> Gt -> c y z <> Gt -> c x z <> Gt
}.

(** Comparators whose equivalence is equality. *)
Class CmpAntisym {A} (c : A -> A -> comparison) : Prop :=
  cmp_eq : forall x y, c x y = Eq -> x = y.

(** [cmp_then r d]: the result [r] of an earlier key, or [d] when it ties. It is
    the shape of [cmp.Or] and of the [if a.k != b.k { return a.k < b.k }] chains. *)
Definition cmp_then (r d : comparison) : comparison :=
  match r with Eq => d | _ => r end.

Definition cmp_on {A B} (f : A -> B) (c : B -> B -> comparison) (x y : A) : comparison :=
  c (f x) (f y).

Definition cmp_rev {A} (c : A -> A -> comparison) (x y : A) : comparison := c y x.

Definition cmp_lex {A} (c d : A -> A -> comparison) (x y : A) : comparison :=
  cmp_then (c x y) (d x y).

Definition less_of {A} (c : A -> A -> comparison) (x y : A) : bool :=
  match c x y with Lt => true | _ => false end.

Section CmpLaws.
Context {A : Type} (c : A -> A -> comparison) `{!CmpOrder c}.

Lemma cmp_eq_sym x y : c x y = Eq -> c y x = Eq.
Proof. intros H. rewrite (cmp_anti (c:=c) x y), H. done. Qed.

Lemma cmp_gt_lt x y : c x y = Gt <-> c y x = Lt.
Proof. rewrite (cmp_anti (c:=c) x y). destruct (c x y); simpl; split; congruence. Qed.

Lemma cmp_eq_l x y z : c x y = Eq -> c x z = c y z.
Proof.
  intros H. pose proof (cmp_eq_sym _ _ H) as H'.
  pose proof (cmp_trans (c:=c) x y z) as T1. pose proof (cmp_trans (c:=c) y x z) as T2.
  pose proof (cmp_trans (c:=c) z x y) as T3. pose proof (cmp_trans (c:=c) z y x) as T4.
  rewrite (cmp_anti (c:=c) x z), (cmp_anti (c:=c) y z) in T3, T4.
  rewrite ?H, ?H' in *.
  destruct (c x z), (c y z); simpl in *; try done; exfalso; naive_solver.
Qed.

Lemma cmp_lt_trans x y z : c x y = Lt -> c y z = Lt -> c x z = Lt.
Proof.
  intros H1 H2. destruct (c x z) eqn:E; [|done|].
  - rewrite (cmp_eq_l _ _ _ E) in H1.
    rewrite (cmp_anti y z), H2 in H1. done.
  - exfalso. apply (cmp_trans (c:=c) x y z); rewrite ?H1, ?H2; done.
Qed.
End CmpLaws.

#[export] Instance cmp_on_order {A B} (f : A -> B) c `{!CmpOrder c} : CmpOrder (cmp_on f c).
Proof.
  split; unfold cmp_on; intros.
  - apply cmp_refl.
  - apply cmp_anti.
  - eapply cmp_trans; eauto.
Qed.

#[export] Instance cmp_rev_order {A} (c : A -> A -> comparison) `{!CmpOrder c} :
  CmpOrder (cmp_rev c).
Proof.
  split; unfold cmp_rev; intros.
  - apply cmp_refl.
  - apply cmp_anti.
  - eapply cmp_trans; eauto.
Qed.

#[export] Instance cmp_lex_order {A} (c d : A -> A -> comparison)
  `{!CmpOrder c} `{!CmpOrder d} : CmpOrder (cmp_lex c d).
Proof.
  split; unfold cmp_lex, cmp_then.
  - intros x. rewrite !cmp_refl. done.
  - intros x y. rewrite (cmp_anti (c:=c) x y), (cmp_anti (c:=d) x y).
    destruct (c x y); done.
  - intros x y z Hxy Hyz.
    destruct (c x y) eqn:Exy; [| |done].
    + rewrite (cmp_eq_l c _ _ _ Exy). destruct (c y z); [|done|done].
      eapply cmp_trans; eauto.
    + destruct (c y z) eqn:Eyz; [| |done].
      * apply (cmp_eq_sym c) in Eyz.
        rewrite (cmp_anti (c:=c) z x), (cmp_eq_l c _ _ x Eyz), (cmp_anti (c:=c) x y), Exy. done.
      * rewrite (cmp_lt_trans c _ _ _ Exy Eyz). done.
Qed.

#[export] Instance Zcompare_order : CmpOrder Z.compare.
Proof.
  split.
  - apply Z.compare_refl.
  - intros. apply Z.compare_antisym.
  - intros x y z. rewrite <- !Z.le_lteq || idtac.
    change (x <= y -> y <= z -> x <= z)%Z. lia.
Qed.

#[export] Instance Natcompare_order : CmpOrder Nat.compare.
Proof.
  split.
  - apply Nat.compare_refl.
  - intros. apply Nat.compare_antisym.
  - intros x y z. rewrite <- !Nat.compare_le_iff || rewrite !Nat.compare_le_iff. lia.
Qed.

(** Go compares strings bytewise: [String.compare] is that order. *)
Lemma ascii_compare_N a b : Ascii.compare a b = N.compare (N_of_ascii a) (N_of_ascii b).
Proof. done. Qed.

#[export] Instance string_compare_order : CmpOrder String.compare.
Proof.
  assert (Hrefl : forall x, String.compare x x = Eq).
  { intros x. pose proof (String.compare_antisym x x) as H. by destruct (String.compare x x). }
  split; [exact Hrefl| |].
  - intros x y. apply String.compare_antisym.
  - induction x as [|a x IH]; intros [|b y] [|d z] H1 H2; simpl in *; try done.
    rewrite !ascii_compare_N in *.
    destruct (N.compare_spec (N_of_ascii a) (N_of_ascii b));
    destruct (N.compare_spec (N_of_ascii b) (N_of_ascii d)); try done;
    destruct (N.compare_spec (N_of_ascii a) (N_of_ascii d)); try done; try lia.
    eapply IH; eauto.
Qed.

#[export] Instance string_compare_antisym : CmpAntisym String.compare.
Proof. intros x y. apply String.compare_eq_iff. Qed.

Definition str_ltb (a b : string) : bool :=
  match String.compare a b with Lt => true | _ => false end.

#[export] Typeclasses Opaque cmp_on cmp_rev cmp_lex cmp_then.

(** ** Sorting

    [sort.Slice], [sort.SliceStable], [sort.Strings] and [slices.SortStableFunc]
    are all modelled by one stable insertion sort over the comparator's [less].
    The unstable [sort.Slice] may order ties differently; where it is used the
    development proves that the order of ties cannot be seen, or states results
    up to permutation. *)
Section Sort.
Context {A : Type} (less : A -> A -> bool).

Fixpoint sort_insert (x : A) (l : list A) : list A :=
  match l with
  | [] => [x]
  | y :: l' => if less y x then y :: sort_insert x l' else x :: y :: l'
  end.

Fixpoint isort (l : list A) : list A :=
  match l with
  | [] => []
  | x :: l' => sort_insert x (isort l')
  end.

Lemma sort_insert_perm x l : sort_insert x l ≡ₚ x :: l.
Proof.
  induction l as [|y l IH]; simpl; [done|].
  destruct (less y x); [|done]. rewrite IH. constructor.
Qed.

Lemma isort_perm l : isort l ≡ₚ l.
Proof.
  induction l as [|x l IH]; simpl; [done|]. rewrite sort_insert_perm, IH. done.
Qed.

Lemma isort_elem_of x l : x ∈ isort l <-> x ∈ l.
Proof. rewrite isort_perm. done. Qed.

Lemma isort_length l : length (isort l) = length l.
Proof. rewrite isort_perm. done. Qed.

(** A list no [less] pair contradicts is left alone. *)
Lemma isort_id l :
  StronglySorted (fun a b => less b a = false) l -> isort l = l.
Proof.
  induction 1 as [|x l Hs IH Hx]; simpl; [done|]. rewrite IH.
  destruct l as [|y l]; [done|]. simpl. inversion Hx; subst.
  rewrite H1. done.
Qed.
End Sort.

Lemma StronglySorted_mono {A} (R S : A -> A -> Prop) (l : list A) :
  (forall x y, R x y -> S x y) -> StronglySorted R l -> StronglySorted S l.
Proof.
  intros HRS. induction 1 as [|x l _ IH Hx]; constructor; [done|].
  eapply Forall_impl; [exact Hx|]. intros y. apply HRS.
Qed.

Lemma StronglySorted_map {A B} (g : A -> B) (R : A -> A -> Prop) (S : B -> B -> Prop) (l : list A) :
  (forall x y, R x y -> S (g x) (g y)) -> StronglySorted R l -> StronglySorted S (map g l).
Proof.
  intros HRS. induction 1 as [|x l _ IH Hx]; simpl; constructor; [done|].
  apply Forall_map. eapply Forall_impl; [exact Hx|]. intros y. apply HRS.
Qed.

Section SortOrder.
Context {A : Type} (c : A -> A -> comparison) `{!CmpOrder c}.

(** The order a sort by [c] establishes. *)
Definition cmp_le (x y : A) : Prop := c x y <> Gt.

Lemma less_of_false x y : less_of c y x = false <-> cmp_le x y.
Proof.
  unfold less_of, cmp_le. rewrite (cmp_anti (c:=c) x y).
  destruct (c x y); simpl; split; congruence.
Qed.

Lemma cmp_le_total x y : cmp_le x y \/ cmp_le y x.
Proof.
  unfold cmp_le. rewrite (cmp_anti (c:=c) x y). destruct (c x y); simpl; naive_solver.
Qed.

#[export] Instance cmp_le_trans : Transitive cmp_le.
Proof. intros x y z. apply cmp_trans. Qed.

#[export] Instance cmp_le_refl : Reflexive cmp_le.
Proof. intros x. unfold cmp_le. rewrite cmp_refl. done. Qed.

Lemma sort_insert_sorted x l :
  StronglySorted cmp_le l -> StronglySorted cmp_le (sort_insert (less_of c) x l).
Proof.
  induction 1 as [|y l Hs IH Hy]; simpl; [repeat constructor|].
  destruct (less_of c y x) eqn:E.
  - constructor; [done|]. rewrite sort_insert_perm.
    constructor; [|done]. unfold less_of, cmp_le in *. destruct (c y x); done.
  - apply less_of_false in E. constructor; [by constructor|].
    constructor; [done|]. eapply Forall_impl; [exact Hy|].
    intros z Hz. by transitivity y.
Qed.

Lemma isort_sorted l : StronglySorted cmp_le (isort (less_of c) l).
Proof. induction l; simpl; [constructor|]. by apply sort_insert_sorted. Qed.

(** Ties keep their order. *)
Lemma isort_stable (p : A -> bool) l : (forall x y, p x = true -> p y = true -> c x y = Eq) ->
  List.filter p (isort (less_of c) l) = List.filter p l.
Proof.
  intros Hp.
  assert (Hins : forall x l, List.filter p (sort_insert (less_of c) x l) = List.filter p (x :: l)).
  { intros x l'. induction l' as [|y l' IH]; [done|]. cbn [sort_insert]. destruct (less_of c y x) eqn:E; [|done].
    simpl in *. rewrite IH. destruct (p x) eqn:Ex, (p y) eqn:Ey; try done.
    unfold less_of in E. by rewrite (Hp y x Ey Ex) in E. }
  induction l as [|x l IH]; [done|]. simpl isort. rewrite Hins. simpl. by rewrite IH.
Qed.

Lemma isort_idemp l : isort (less_of c) (isort (less_of c) l) = isort (less_of c) l.
Proof.
  apply isort_id. eapply StronglySorted_mono; [|apply isort_sorted].
  intros x y. apply less_of_false.
Qed.
End SortOrder.

(** Two sorted arrangements of the same elements agree when ties are equal
    elements, so the result of the sort does not depend on the order the
    elements were met in: how map iteration order is erased. *)
Lemma sorted_unique {A} (c : A -> A -> comparison) `{!CmpOrder c} (l1 l2 : list A) :
  (forall x y, x ∈ l1 -> y ∈ l1 -> c x y = Eq -> x = y) ->
  StronglySorted (cmp_le c) l1 -> StronglySorted (cmp_le c) l2 -> l1 ≡ₚ l2 -> l1 = l2.
Proof.
  intros Heq H1. revert l2 Heq. induction H1 as [|x l1 Hs IH Hx]; intros l2 Heq H2 Hp.
  { by apply Permutation_nil_l in Hp. }
  destruct H2 as [|y l2 Hs2 Hy].
  { by apply Permutation_nil_r in Hp. }
  assert (x = y) as ->.
  { apply Heq; [set_solver| |].
    - rewrite Hp. set_solver.
    - assert (cmp_le c x y) as Hxy.
      { assert (y ∈ x :: l1) as Hin by (rewrite Hp; set_solver).
        apply elem_of_cons in Hin as [->|Hin]; [apply cmp_le_refl; done|].
        rewrite Forall_forall in Hx. by apply Hx. }
      assert (cmp_le c y x) as Hyx.
      { assert (x ∈ y :: l2) as Hin by (rewrite <- Hp; set_solver).
        apply elem_of_cons in Hin as [->|Hin]; [apply cmp_le_refl; done|].
        rewrite Forall_forall in Hy. by apply Hy. }
      unfold cmp_le in *. rewrite (cmp_anti (c:=c) x y) in Hyx.
      destruct (c x y); simpl in *; done. }
  f_equal. apply IH; [|done|].
  - intros; apply Heq; set_solver.
  - by apply Permutation_cons_inv in Hp.
Qed.

Lemma isort_perm_eq {A} (c : A -> A -> comparison) `{!CmpOrder c} (l1 l2 : list A) :
  (forall x y, x ∈ l1 -> y ∈ l1 -> c x y = Eq -> x = y) ->
  l1 ≡ₚ l2 -> isort (less_of c) l1 = isort (less_of c) l2.
Proof.
  intros Heq Hp. apply (sorted_unique c); try apply isort_sorted; try done.
  - intros x y Hx Hy. apply Heq; by apply (isort_elem_of (less_of c)).
  - rewrite !isort_perm. done.
Qed.

(** [sort.Strings]. *)
Definition sort_strings (l : list string) : list string := isort (less_of String.compare) l.

Lemma sort_strings_perm l : sort_strings l ≡ₚ l.
Proof. apply isort_perm. Qed.

Lemma sort_strings_perm_eq l1 l2 : l1 ≡ₚ l2 -> sort_strings l1 = sort_strings l2.
Proof.
  intros Hp. unfold sort_strings. eapply isort_perm_eq; [exact _| |exact Hp].
  intros x y _ _. apply string_compare_antisym.
Qed.

Lemma sort_strings_elem_of x l : x ∈ sort_strings l <-> x ∈ l.
Proof. apply isort_elem_of. Qed.

Lemma sort_strings_NoDup l : NoDup l -> NoDup (sort_strings l).
Proof. rewrite sort_strings_perm. done. Qed.

(** ** Joining texts *)

Lemma append_assoc (a b c : string) : ((a ++ b) ++ c = a ++ b ++ c)%string.
Proof. induction a as [|x a IH]; [done|exact (f_equal (String x) IH)]. Qed.

Lemma str_length_app (a b : string) : String.length (a ++ b) = (String.length a + String.length b)%nat.
Proof. induction a as [|c a IH]; [done|exact (f_equal S IH)]. Qed.

(** ** Lists *)

Lemma filter_disjoint {A} (p q : A -> bool) l : (forall x, q x = true -> p x = false) ->
  length (List.filter p l) + length (List.filter q l) + length (List.filter (fun x => negb (p x || q x)) l) =
  length l.
Proof.
  intros H. induction l as [|x l IH]; simpl; [done|]. specialize (H x).
  destruct (p x), (q x); simpl; naive_solver lia.
Qed.

Lemma filter_none {A} (p : A -> bool) l : length (List.filter p l) = 0 <-> forall x, x ∈ l -> p x = false.
Proof.
  induction l as [|x l IH]; simpl; [split; [set_solver|done]|].
  destruct (p x) eqn:E; simpl; split.
  - done.
  - intros H. rewrite H in E; [done|set_solver].
  - intros H y. rewrite elem_of_cons. intros [->|Hy]; [done|]. by apply IH.
  - intros H. apply IH. set_solver.
Qed.

Lemma filter_map_comm {A B} (g : A -> B) (p : B -> bool) (l : list A) :
  List.filter p (map g l) = map g (List.filter (fun x => p (g x)) l).
Proof. induction l as [|x l IH]; simpl; [done|]. destruct (p (g x)); simpl; by rewrite IH. Qed.

Lemma NoDup_filter_bool {A} (p : A -> bool) (l : list A) : NoDup l -> NoDup (List.filter p l).
Proof. rewrite !NoDup_ListNoDup. apply List.NoDup_filter. Qed.

Lemma flat_map_NoDup {A B} (g : A -> list B) (l : list A) : NoDup l -> (forall a, NoDup (g a)) ->
  (forall a b x, a ∈ l -> b ∈ l -> x ∈ g a -> x ∈ g b -> a = b) -> NoDup (flat_map g l).
Proof.
  intros Hl Hg. induction Hl as [|a l Ha Hl IH]; intros Hdis; simpl; [constructor|].
  apply NoDup_app. split; [apply Hg|]. split.
  - intros x Hx Hx'. apply list_elem_of_In, in_flat_map in Hx' as (b & Hb & Hxb).
    apply list_elem_of_In in Hb, Hxb. assert (a = b) as -> by (eapply Hdis; set_solver). done.
  - apply IH. intros. eapply Hdis; set_solver.
Qed.

Lemma NoDup_map_inj {A B} (g : A -> B) l x y : NoDup (map g l) -> x ∈ l -> y ∈ l -> g x = g y -> x = y.
Proof.
  induction l as [|z l IH]; simpl; [by intros _ ?%elem_of_nil|].
  intros [Hz Hn]%NoDup_cons [->|Hx]%elem_of_cons [->|Hy]%elem_of_cons Heq; [done| | |by apply IH];
    exfalso; apply Hz; apply list_elem_of_fmap; eauto.
Qed.

Lemma NoDup_fst_inv {A B} (l : list (A * B)) x a b :
  NoDup (map fst l) -> (x, a) ∈ l -> (x, b) ∈ l -> a = b.
Proof.
  induction l as [|[y c] l IH]; simpl; [by intros _ ?%elem_of_nil|].
  intros [Hy Hn]%NoDup_cons [E1|H1]%elem_of_cons [E2|H2]%elem_of_cons; simplify_eq; auto;
    exfalso; apply Hy, list_elem_of_fmap; by eexists (_, _).
Qed.

(** ** Machine integers

    Go's [int] and [int64] are 64-bit two's complement. *)
Definition int64_min : Z := (- 2 ^ 63)%Z.
Definition int64_max : Z := (2 ^ 63 - 1)%Z.
Definition wrap64 (z : Z) : Z := ((z + 2 ^ 63) mod 2 ^ 64 - 2 ^ 63)%Z.
Definition int64_ok (z : Z) : Prop := (int64_min <= z <= int64_max)%Z.

Lemma wrap64_ok z : int64_ok (wrap64 z).
Proof. unfold int64_ok, wrap64, int64_min, int64_max. pose proof (Z.mod_pos_bound (z + 2 ^ 63) (2 ^ 64)). lia. Qed.

Lemma wrap64_id z : int64_ok z -> wrap64 z = z.
Proof.
  unfold int64_ok, wrap64, int64_min, int64_max. intros.
  rewrite Z.mod_small; lia.
Qed.

(** ** Text *)

Definition digit_ascii (n : nat) : ascii := ascii_of_nat (48 + n).

(** [strconv.Itoa] and the [%d] verb. The fuel is the number of binary digits,
    which bounds the number of decimal ones. *)
Fixpoint dec_digits (fuel : nat) (n : N) (acc : string) : string :=
  match fuel with
  | O => acc
  | S fuel' =>
      let acc' := String (digit_ascii (N.to_nat (n mod 10))) acc in
      if (n <? 10)%N then acc' else dec_digits fuel' (n / 10) acc'
  end.

Definition N_to_dec (n : N) : string := dec_digits (S (N.to_nat (N.size n))) n "".

Definition itoa (z : Z) : string :=
  match z with
  | Zneg p => String "-" (N_to_dec (Npos p))
  | _ => N_to_dec (Z.to_N z)
  end.

Example itoa_ex : map itoa [0; 7; 10; 1234567890; -42]%Z = ["0"; "7"; "10"; "1234567890"; "-42"].
Proof. reflexivity. Qed.

(** [strings.Join]. *)
Fixpoint join (sep : string) (l : list string) : string :=
  match l with
  | [] => ""
  | [x] => x
  | x :: l' => (x ++ sep ++ join sep l')%string
  end.
