(* ===== verification/Maps.v ===== *)
(** * Maps that loops fill

    Go code fills a map in a loop and ranges over it later: the last value of a key
    stays, or the values of a key are collected. Lemmas on both, and on permuted
    lists, that the components share. *)

From Stdlib Require Import Lia.
From stdpp Require Import base gmap strings list sets.
From S2P Require Import Prelude.

Local Open Scope nat_scope.

(** A Go map filled by a loop: the last value of each key stays. *)
Definition last_of {K A} `{Countable K} (entries : list (K * A)) : gmap K A :=
  fold_left (fun m e => <[fst e := snd e]> m) entries ∅.

Lemma last_of_some {K A} `{Countable K} (l : list (K * A)) k a : last_of l !! k = Some a -> (k, a) ∈ l.
Proof.
  unfold last_of. enough (forall m : gmap K A, fold_left (fun m e => <[fst e := snd e]> m) l m !! k = Some a ->
    (k, a) ∈ l \/ m !! k = Some a) as Hm by (intros E; by destruct (Hm _ E)).
  induction l as [|[k' a'] l IH]; intros m Hk; simpl in *; [by right|].
  apply IH in Hk as [Hk|Hk]; [left; by right|]. apply lookup_insert_Some in Hk as [[-> ->]|[_ Hk]]; [left; left|by right].
Qed.

(** Values filed under a key, in order of arrival. *)
Definition file_under {K} `{Countable K} {A} (l : list (K * A)) : gmap K (list A) :=
  fold_left (fun m ka => <[fst ka := default [] (m !! fst ka) ++ [snd ka]]> m) l ∅.

Section FileUnder.
Context {K A : Type} `{Countable K}.

Lemma file_under_snoc (l : list (K * A)) k a :
  file_under (l ++ [(k, a)]) = <[k := default [] (file_under l !! k) ++ [a]]> (file_under l).
Proof. unfold file_under. by rewrite fold_left_app. Qed.

(** A key holds its values in order, and only keys that occur are there. *)
Lemma file_under_lookup (l : list (K * A)) k :
  file_under l !! k =
  match omap (fun ka => if decide (fst ka = k) then Some (snd ka) else None) l with [] => None | vs => Some vs end.
Proof.
  induction l as [|[k' a] l IH] using rev_ind; [apply lookup_empty|].
  rewrite file_under_snoc, omap_app. simpl. destruct (decide (k' = k)) as [->|Hne].
  - rewrite lookup_insert_eq, IH. destruct (omap _ l) as [|v vs]; done.
  - rewrite lookup_insert_ne, IH, app_nil_r by done. done.
Qed.

Lemma file_under_perm (l : list (K * A)) : concat (map snd (map_to_list (file_under l))) ≡ₚ map snd l.
Proof.
  induction l as [|[k a] l IH] using rev_ind; [done|].
  rewrite file_under_snoc, map_app. simpl. rewrite <- IH. set (m := file_under l). clearbody m. clear IH.
  destruct (m !! k) as [vs|] eqn:E; simpl.
  - rewrite <- (insert_delete_id m k vs E) at 2. rewrite <- insert_delete_eq.
    rewrite !map_to_list_insert by apply lookup_delete_eq. simpl.
    rewrite <- !app_assoc. apply Permutation_app_head. rewrite Permutation_app_comm. done.
  - rewrite map_to_list_insert by done. simpl. apply Permutation_cons_append.
Qed.

Lemma file_under_dom (l : list (K * A)) : dom (file_under l) = list_to_set (C := gset K) (map fst l).
Proof.
  induction l as [|[k a] l IH] using rev_ind; [apply dom_empty_L|].
  rewrite file_under_snoc, dom_insert_L, IH, map_app, list_to_set_app_L. simpl. set_solver.
Qed.

Lemma file_under_nonempty (l : list (K * A)) k vs : file_under l !! k = Some vs -> vs <> [].
Proof. rewrite file_under_lookup. destruct (omap _ l); [done|congruence]. Qed.
End FileUnder.

(** ** Permuted lists *)

Lemma concat_map_perm {A B} (f g : A -> list B) (l : list A) : (forall a, f a ≡ₚ g a) ->
  concat (map f l) ≡ₚ concat (map g l).
Proof. intros H. induction l; simpl; [done|]. by f_equiv. Qed.

Lemma concat_perm {A} (l1 l2 : list (list A)) : l1 ≡ₚ l2 -> concat l1 ≡ₚ concat l2.
Proof.
  induction 1; simpl; [done|by f_equiv| |by etrans]. rewrite !app_assoc. f_equiv. apply Permutation_app_comm.
Qed.

Lemma Permutation_filter {A} (p : A -> bool) (l1 l2 : list A) : l1 ≡ₚ l2 -> List.filter p l1 ≡ₚ List.filter p l2.
Proof.
  induction 1; simpl; repeat match goal with |- context [if ?b then _ else _] => destruct b end; try done.
  - by f_equiv.
  - by apply Permutation_swap.
  - by etrans.
Qed.

Lemma filter_split_perm {A} (p : A -> bool) (l : list A) :
  List.filter (fun x => negb (p x)) l ++ List.filter p l ≡ₚ l.
Proof.
  induction l as [|x l IH]; [done|]. simpl. destruct (p x); simpl; [|by f_equiv].
  rewrite <- Permutation_middle. by f_equiv.
Qed.


(** Where each key has one value, the map holds every entry. *)
Lemma last_of_iff {K A} `{Countable K} (l : list (K * A)) (g : K -> A) k a :
  (forall k a, (k, a) ∈ l -> a = g k) -> last_of l !! k = Some a <-> (k, a) ∈ l.
Proof.
  intros Hg. split; [apply last_of_some|]. unfold last_of. revert Hg.
  induction l as [|[k' a'] l IH] using rev_ind; intros Hg Hin; [by apply not_elem_of_nil in Hin|].
  rewrite fold_left_app. cbn [fold_left fst snd]. destruct (decide (k' = k)) as [->|Hne].
  - rewrite lookup_insert_eq. f_equal. rewrite (Hg k a Hin). apply Hg, elem_of_app. right. by left.
  - rewrite lookup_insert_ne by done. apply IH.
    + intros k0 a0 H0. apply Hg, elem_of_app. by left.
    + apply elem_of_app in Hin as [?|[= <- <-]%list_elem_of_singleton]; done.
Qed.

(** ** Counting

    [counts[key(x)]++] for every [x] that has a key. *)
Definition count_by {A K} `{Countable K} (key : A -> option K) (l : list A) : gmap K nat :=
  fold_left (fun counts x =>
    match key x with Some k => <[k := S (default 0 (counts !! k))]> counts | None => counts end) l ∅.

Definition has_key {A K} `{Countable K} (key : A -> option K) (k : K) (x : A) : bool := bool_decide (key x = Some k).

Definition keyed {A K} `{Countable K} (key : A -> option K) (k : K) (l : list A) : nat :=
  length (List.filter (has_key key k) l).

Section CountBy.
Context {A K : Type} `{Countable K} (key : A -> option K).

Lemma count_by_lookup (l : list A) k : count_by key l !! k = if keyed key k l =? 0 then None else Some (keyed key k l).
Proof.
  unfold count_by, keyed. induction l as [|x l IH] using rev_ind; [cbn [fold_left]; by rewrite lookup_empty|].
  rewrite fold_left_app, List.filter_app, length_app. cbn [fold_left List.filter].
  set (n := length (List.filter (has_key key k) l)) in *. assert (Hx : has_key key k x = bool_decide (key x = Some k)) by done.
  rewrite Hx. destruct (key x) as [k'|]; [|rewrite bool_decide_eq_false_2 by done; cbn [length]; by rewrite Nat.add_0_r].
  destruct (decide (k' = k)) as [->|Hne].
  - rewrite lookup_insert_eq, bool_decide_eq_true_2, IH by done. cbn [length].
    rewrite Nat.add_1_r. by destruct n.
  - rewrite lookup_insert_ne, IH, bool_decide_eq_false_2 by (done || congruence). cbn [length]. by rewrite Nat.add_0_r.
Qed.

Lemma count_by_some (l : list A) k n : count_by key l !! k = Some n <-> n = keyed key k l /\ 0 < n.
Proof.
  rewrite count_by_lookup. destruct (Nat.eqb_spec (keyed key k l) 0); split; [done|lia| |].
  - intros [= <-]. lia.
  - intros [-> _]. done.
Qed.

Lemma count_by_perm (l l' : list A) : l ≡ₚ l' -> count_by key l = count_by key l'.
Proof.
  intros Hp. apply map_eq. intros k. rewrite !count_by_lookup. unfold keyed.
  by rewrite (Permutation_length (Permutation_filter (has_key key k) l l' Hp)).
Qed.

Lemma keyed_perm (l l' : list A) k : l ≡ₚ l' -> keyed key k l = keyed key k l'.
Proof. intros Hp. unfold keyed. by rewrite (Permutation_length (Permutation_filter (has_key key k) l l' Hp)). Qed.

Lemma keyed_pos (l : list A) k : 0 < keyed key k l <-> exists x, x ∈ l /\ key x = Some k.
Proof.
  unfold keyed. split.
  - destruct (List.filter _ _) as [|x f] eqn:E; cbn [length]; [lia|intros _].
    assert (Hx : In x (List.filter (has_key key k) l)) by (rewrite E; by left).
    apply filter_In in Hx as [Hx Hk]. exists x. split; [by apply list_elem_of_In|]. by apply bool_decide_eq_true in Hk.
  - intros (x & Hx & Hk). assert (Hin : In x (List.filter (has_key key k) l)).
    { apply filter_In. split; [by apply list_elem_of_In|]. by apply bool_decide_eq_true. }
    destruct (List.filter _ _); [done|cbn; lia].
Qed.

Lemma count_by_entries (entries : list (K * nat)) (l : list A) : entries ≡ₚ map_to_list (count_by key l) ->
  NoDup entries.*1 /\ forall k n, (k, n) ∈ entries <-> n = keyed key k l /\ 0 < n.
Proof.
  intros Hp. split; [rewrite Hp; apply NoDup_fst_map_to_list|]. intros k n.
  by rewrite Hp, elem_of_map_to_list, count_by_some.
Qed.
End CountBy.

(** A table with one entry per listed key. *)
Lemma table_lookup {K V} `{Countable K} (f : K -> V) l acc (c : K) :
  fold_left (fun out c => <[c := f c]> out) l acc !! c =
  if bool_decide (c ∈ l) then Some (f c) else (acc : gmap K V) !! c.
Proof.
  revert acc. induction l as [|x l IH]; intros acc; cbn [fold_left]; [by rewrite bool_decide_eq_false_2 by apply not_elem_of_nil|].
  rewrite IH. destruct (decide (c ∈ l)) as [Hl|Hl].
  { by rewrite !bool_decide_eq_true_2 by (done || by apply list_elem_of_further). }
  rewrite (bool_decide_eq_false_2 (c ∈ l)) by done. destruct (decide (c = x)) as [->|Hne].
  - by rewrite lookup_insert_eq, bool_decide_eq_true_2 by apply list_elem_of_here.
  - rewrite lookup_insert_ne by done. rewrite bool_decide_eq_false_2; [done|]. by rewrite elem_of_cons; intros [?|?].
Qed.

(** First occurrences, in order: the [seen] map of the source. *)
Fixpoint dedup (seen : gset string) (l : list string) : list string :=
  match l with
  | [] => []
  | c :: l' => if bool_decide (c ∈ seen) then dedup seen l' else c :: dedup ({[c]} ∪ seen) l'
  end.

Lemma dedup_spec seen l : NoDup (dedup seen l) /\ forall c, c ∈ dedup seen l <-> c ∈ l /\ c ∉ seen.
Proof.
  revert seen. induction l as [|x l IH]; intros seen; simpl; [split; [constructor|set_solver]|].
  case_bool_decide as Hx.
  - destruct (IH seen) as [H1 H2]. split; [done|]. intros c. rewrite H2, elem_of_cons. naive_solver.
  - destruct (IH ({[x]} ∪ seen)) as [H1 H2]. split.
    + constructor; [|done]. rewrite H2. set_solver.
    + intros c. rewrite elem_of_cons, elem_of_cons, H2. destruct (decide (c = x)); set_solver.
Qed.

(** ** Groups *)

Lemma omap_map {A B C} (f : B -> option C) (g : A -> B) (l : list A) : omap f (map g l) = omap (fun a => f (g a)) l.
Proof. induction l as [|x l IH]; [done|]. csimpl. by rewrite IH. Qed.

(** A map whose entry under a key is folded over the items of that key. *)
Section Grouped.
Context {W V : Type} (key : W -> string) (init : W -> V) (step : V -> W -> V) (none : V).

Definition grouped (items : list W) : gmap string V :=
  fold_left (fun m w => <[key w := step (default (init w) (m !! key w)) w]> m) items ∅.

Definition group (l : list W) : V := match l with [] => none | w :: _ => fold_left step l (init w) end.

Definition of_key (k : string) (items : list W) : list W := List.filter (fun w => String.eqb (key w) k) items.

Lemma grouped_lookup items k : grouped items !! k = match of_key k items with [] => None | l => Some (group l) end.
Proof.
  unfold grouped. induction items as [|w items IH] using rev_ind; [done|]. rewrite fold_left_app. cbn [fold_left].
  set (m := fold_left _ items ∅) in *. clearbody m. unfold of_key in *. rewrite List.filter_app. cbn [List.filter].
  destruct (String.eqb_spec (key w) k) as [<-|Hne].
  - rewrite lookup_insert_eq, IH. destruct (List.filter _ items) as [|x l]; cbn [app group]; [done|].
    f_equal. cbn [default from_option]. unfold id. by rewrite app_comm_cons, fold_left_app.
  - rewrite app_nil_r. by rewrite lookup_insert_ne.
Qed.

Lemma grouped_files items : grouped items = group <$> file_under (map (fun w => (key w, w)) items).
Proof.
  apply map_eq. intros k. rewrite grouped_lookup, lookup_fmap, file_under_lookup.
  assert (omap (fun ka => if decide (fst ka = k) then Some (snd ka) else None) (map (fun w => (key w, w)) items) = of_key k items) as H.
  { rewrite omap_map. change (omap (fun w => if decide (key w = k) then Some w else None) items = of_key k items).
    unfold of_key. induction items as [|w items IH]; [done|]. csimpl. rewrite IH.
    by destruct (decide (key w = k)) as [->|Hne]; [rewrite String.eqb_refl|rewrite (proj2 (String.eqb_neq _ _) Hne)]. }
  rewrite H. by destruct (of_key k items).
Qed.

(** A count that every item adds to is spread over the groups. *)
Lemma grouped_total (measure : V -> nat) (weight : W -> nat) items :
  (forall w, measure (init w) = 0%nat) -> (forall v w, measure (step v w) = (measure v + weight w)%nat) ->
  sum_list_with measure (map snd (map_to_list (grouped items))) = sum_list_with weight items.
Proof.
  intros Hi Hs.
  assert (Hfold : forall l v, measure (fold_left step l v) = (measure v + sum_list_with weight l)%nat).
  { induction l as [|w l IH]; intros v; cbn [fold_left sum_list_with]; [lia|]. rewrite IH, Hs. lia. }
  rewrite grouped_files, map_to_list_fmap.
  change (prod_map id group <$> map_to_list (file_under (map (fun w => (key w, w)) items)))
    with (map (prod_map id group) (map_to_list (file_under (map (fun w => (key w, w)) items)))).
  rewrite map_map. pose proof (file_under_perm (map (fun w => (key w, w)) items)) as Hp.
  rewrite map_map, map_id in Hp. rewrite <- Hp at 2. clear Hp.
  assert (Hne : Forall (fun kl => snd kl <> []) (map_to_list (file_under (map (fun w => (key w, w)) items)))).
  { apply List.Forall_forall. intros [k l] Hk%list_elem_of_In%elem_of_map_to_list. cbn. by eapply file_under_nonempty. }
  induction Hne as [|[k l] groups Hl Hg IH]; [done|]. cbn [map concat sum_list_with snd prod_map] in *.
  rewrite sum_list_with_app, <- IH. f_equal. destruct l as [|w l]; [done|]. cbn [group]. rewrite Hfold, Hi. done.
Qed.
End Grouped.
