(* ===== verification/Float64.v ===== *)
(** * Go's [float64]

    A [float64] is an IEEE 754 binary64 value. The Standard Library's [SpecFloat]
    gives the correctly rounded operations as plain computable functions (no
    axioms), so every number below is the number the program computes on a target
    that does not fuse multiplications and additions. This file names the
    operations the way Go does, adds the pieces of package math the source calls,
    and proves the facts the components use: comparison agrees with the exact
    value, and rounding never crosses a representable bound. *)

From Stdlib Require Import ZArith Lia SpecFloat String.
From stdpp Require Import base list sorting.
From S2P Require Import Prelude.

Local Open Scope Z_scope.

(** ** Data and operations *)

Abbreviation float64 := spec_float.

Definition prec : Z := 53.
Definition emax : Z := 1024.

Definition f_add : float64 -> float64 -> float64 := SFadd prec emax.
Definition f_sub : float64 -> float64 -> float64 := SFsub prec emax.
Definition f_mul : float64 -> float64 -> float64 := SFmul prec emax.
Definition f_div : float64 -> float64 -> float64 := SFdiv prec emax.
Definition f_sqrt : float64 -> float64 := SFsqrt prec emax.
Definition f_abs : float64 -> float64 := SFabs.
Definition f_neg : float64 -> float64 := SFopp.

Definition f_eqb : float64 -> float64 -> bool := SFeqb.
Definition f_ltb : float64 -> float64 -> bool := SFltb.
Definition f_leb : float64 -> float64 -> bool := SFleb.

Declare Scope f64_scope.
Delimit Scope f64_scope with f64.
Bind Scope f64_scope with spec_float.
Infix "+" := f_add : f64_scope.
Infix "-" := f_sub : f64_scope.
Infix "*" := f_mul : f64_scope.
Infix "/" := f_div : f64_scope.
Infix "=?" := f_eqb : f64_scope.
Infix "<?" := f_ltb : f64_scope.
Infix "<=?" := f_leb : f64_scope.

(** [float64(n)] for an integer [n]. *)
Definition f_of_Z (z : Z) : float64 := binary_normalize prec emax z 0 false.

(** A decimal constant [n / d] of the source: both parts are exactly
    representable, and a correctly rounded quotient of exact operands is the
    constant Go's compiler stores. *)
Definition f_const (n d : Z) : float64 := f_div (f_of_Z n) (f_of_Z d).

Definition f_zero : float64 := S754_zero false.
Definition f_inf (neg : bool) : float64 := S754_infinity neg.
Definition MaxFloat64 : float64 := S754_finite false 9007199254740991 971.

Definition f_is_nan (x : float64) : bool := match x with S754_nan => true | _ => false end.
Definition f_is_inf (x : float64) : bool := match x with S754_infinity _ => true | _ => false end.

Definition f_sign (x : float64) : bool :=
  match x with
  | S754_zero s | S754_infinity s | S754_finite s _ _ => s
  | S754_nan => false
  end.

(** [math.Copysign] on a value that is not NaN. *)
Definition f_copysign (x y : float64) : float64 :=
  match x with
  | S754_zero _ => S754_zero (f_sign y)
  | S754_infinity _ => S754_infinity (f_sign y)
  | S754_finite _ m e => S754_finite (f_sign y) m e
  | S754_nan => S754_nan
  end.

(** [math.Max], [math.Min] and the builtin [max] and [min] on floats: NaN is
    contagious, infinities win or lose, and positive zero is above negative. *)
Definition f_max (x y : float64) : float64 :=
  match x, y with
  | S754_infinity false, _ | _, S754_infinity false => S754_infinity false
  | S754_nan, _ | _, S754_nan => S754_nan
  | S754_zero sx, S754_zero sy => S754_zero (sx && sy)
  | _, _ => if f_ltb y x then x else y
  end.

Definition f_min (x y : float64) : float64 :=
  match x, y with
  | S754_infinity true, _ | _, S754_infinity true => S754_infinity true
  | S754_nan, _ | _, S754_nan => S754_nan
  | S754_zero sx, S754_zero sy => S754_zero (sx || sy)
  | _, _ => if f_ltb x y then x else y
  end.

(** The magnitude of a finite value, truncated, rounded half up, and rounded up
    to an integer. *)
Definition mag_trunc (m : positive) (e : Z) : Z := Z.shiftl (Zpos m) e.
Definition mag_exact (m : positive) (e : Z) : bool := Z.shiftl (mag_trunc m e) (- e) =? Zpos m.
Definition mag_round (m : positive) (e : Z) : Z :=
  if 0 <=? e then Zpos m else Z.shiftr (Zpos m + Z.shiftl 1 (- e - 1)) (- e).
Definition mag_ceil (m : positive) (e : Z) : Z :=
  if 0 <=? e then mag_trunc m e
  else if mag_exact m e then mag_trunc m e else mag_trunc m e + 1.

Definition f_of_sZ (s : bool) (z : Z) : float64 :=
  match z with
  | Z0 => S754_zero s
  | _ => if s then f_neg (f_of_Z z) else f_of_Z z
  end.

(** [math.Trunc], [math.Round] (half away from zero) and [math.Ceil]. *)
Definition f_trunc (x : float64) : float64 :=
  match x with
  | S754_finite s m e => if 0 <=? e then x else f_of_sZ s (mag_trunc m e)
  | _ => x
  end.

Definition f_round (x : float64) : float64 :=
  match x with
  | S754_finite s m e => if 0 <=? e then x else f_of_sZ s (mag_round m e)
  | _ => x
  end.

Definition f_ceil (x : float64) : float64 :=
  match x with
  | S754_finite s m e =>
      if 0 <=? e then x
      else if s then f_of_sZ s (mag_trunc m e) else f_of_sZ s (mag_ceil m e)
  | _ => x
  end.

(** The conversion [int(x)]: truncation towards zero. The result on NaN and on
    values outside the range of [int] is implementation-defined in Go; this is
    the amd64 result. *)
Definition f_to_int (x : float64) : Z :=
  match x with
  | S754_finite s m e =>
      let z := if s then - mag_trunc m e else mag_trunc m e in
      if (int64_min <=? z) && (z <=? int64_max) then z else int64_min
  | S754_zero _ => 0
  | _ => int64_min
  end.

(** Sum of a list, left to right from zero, the source's [s += x] loops. *)
Definition f_sum (l : list float64) : float64 := fold_left f_add l f_zero.

Example f_consts :
  (f_const 7 2, f_of_Z 100, f_round (f_const 5 2), f_to_int (f_const (-7) 2))
  = (S754_finite false 7881299347898368 (-51), S754_finite false 7036874417766400 (-46),
     S754_finite false 6755399441055744 (-51), -3).
Proof. vm_compute. reflexivity. Qed.

(** [math.Abs(0.6745 * (4 - 2) / 1)] computed as the program does. *)
Example f_z : f_mul (f_const 6745 10000) (f_of_Z 2) = S754_finite false 6075355897322799 (-52).
Proof. vm_compute. reflexivity. Qed.

(** ** Exact values

    Every finite binary64 value is an integer multiple of [2^-1074]; [f_val] is
    that integer. *)
Definition emin1074 : Z := -1074.

Definition f_valid (x : float64) : bool := valid_binary prec emax x.
Definition f_finite (x : float64) : bool :=
  match x with S754_zero _ => true | S754_finite _ _ _ => f_valid x | _ => false end.

Definition f_val (x : float64) : Z :=
  match x with
  | S754_finite s m e => (if s then -1 else 1) * (Zpos m * 2 ^ (e + 1074))
  | _ => 0
  end.

Lemma digits2_pos_log2 p : Zpos (digits2_pos p) = Z.log2 (Zpos p) + 1.
Proof.
  induction p as [p IH|p IH|]; [| |done]; simpl digits2_pos; rewrite Pos2Z.inj_succ, IH.
  - rewrite (Pos2Z.inj_xI p), Z.log2_succ_double by lia. lia.
  - rewrite (Pos2Z.inj_xO p), Z.log2_double by lia. lia.
Qed.

Lemma digits2_bounds p : 2 ^ (Zpos (digits2_pos p) - 1) <= Zpos p < 2 ^ Zpos (digits2_pos p).
Proof.
  rewrite digits2_pos_log2. pose proof (Z.log2_spec (Zpos p)).
  replace (Z.log2 (Zpos p) + 1 - 1) with (Z.log2 (Zpos p)) by lia.
  rewrite <- Z.add_1_r in *. lia.
Qed.

Lemma bounded_spec m e :
  bounded prec emax m e = true <->
  e = Z.max (Zpos (digits2_pos m) + e - 53) (-1074) /\ e <= 971.
Proof.
  unfold bounded, canonical_mantissa, fexp, SpecFloat.emin, prec, emax.
  rewrite andb_true_iff, Z.eqb_eq, Z.leb_le. lia.
Qed.

(** On canonical values the exponent-first comparison of the representation is
    the comparison of the exact values. *)
Lemma canonical_lt m1 e1 m2 e2 :
  bounded prec emax m1 e1 = true -> bounded prec emax m2 e2 = true ->
  e1 < e2 -> Zpos m1 * 2 ^ (e1 + 1074) < Zpos m2 * 2 ^ (e2 + 1074).
Proof.
  rewrite !bounded_spec. intros [H1 _] [H2 _] Hlt.
  pose proof (digits2_bounds m1) as [_ B1]. pose proof (digits2_bounds m2) as [B2 _].
  set (d1 := Zpos (digits2_pos m1)) in *. set (d2 := Zpos (digits2_pos m2)) in *.
  assert (0 < d1) by (subst d1; lia). assert (0 < d2) by (subst d2; lia).
  apply Z.lt_le_trans with (2 ^ d1 * 2 ^ (e1 + 1074)).
  { apply Z.mul_lt_mono_pos_r; [apply Z.pow_pos_nonneg|]; lia. }
  apply Z.le_trans with (2 ^ (d2 - 1) * 2 ^ (e2 + 1074)).
  2: { apply Z.mul_le_mono_nonneg_r; [apply Z.pow_nonneg; lia|done]. }
  rewrite <- !Z.pow_add_r by lia. apply Z.pow_le_mono_r; lia.
Qed.

Lemma pos_mul_compare m1 m2 k : 0 <= k ->
  Z.compare (Zpos m1 * 2 ^ k) (Zpos m2 * 2 ^ k) = Pos.compare m1 m2.
Proof.
  intros Hk. rewrite <- Zmult_compare_compat_r; [done|].
  apply Z.lt_gt, Z.pow_pos_nonneg; lia.
Qed.

Lemma canonical_compare m1 e1 m2 e2 :
  bounded prec emax m1 e1 = true -> bounded prec emax m2 e2 = true ->
  Z.compare (Zpos m1 * 2 ^ (e1 + 1074)) (Zpos m2 * 2 ^ (e2 + 1074)) =
  match Z.compare e1 e2 with Eq => Pos.compare m1 m2 | c => c end.
Proof.
  intros B1 B2. destruct (Z.compare_spec e1 e2) as [->|Hlt|Hgt].
  - apply pos_mul_compare. apply bounded_spec in B2. lia.
  - apply Z.compare_lt_iff. by apply canonical_lt.
  - apply Z.compare_gt_iff. by apply canonical_lt.
Qed.

(** Comparison of finite values is comparison of exact values. *)
Lemma f_compare_val x y :
  f_finite x = true -> f_finite y = true -> SFcompare x y = Some (Z.compare (f_val x) (f_val y)).
Proof.
  assert (Hpos : forall m e, bounded prec emax m e = true -> 0 < Zpos m * 2 ^ (e + 1074)).
  { intros m e B. apply bounded_spec in B.
    apply Z.mul_pos_pos; [lia|apply Z.pow_pos_nonneg; lia]. }
  destruct x as [sx|sx| |sx mx ex], y as [sy|sy| |sy my ey]; try done; intros Bx By.
  - simpl in By. pose proof (Hpos _ _ By). unfold SFcompare, f_val.
    destruct sy; f_equal; symmetry; [apply Z.compare_gt_iff|apply Z.compare_lt_iff]; lia.
  - simpl in Bx. pose proof (Hpos _ _ Bx). unfold SFcompare, f_val.
    destruct sx; f_equal; symmetry; [apply Z.compare_lt_iff|apply Z.compare_gt_iff]; lia.
  - simpl in Bx, By. pose proof (Hpos _ _ Bx). pose proof (Hpos _ _ By).
    pose proof (canonical_compare _ _ _ _ Bx By) as HC.
    unfold SFcompare, f_val. f_equal.
    destruct sx, sy; symmetry.
    + set (a := Zpos mx * 2 ^ (ex + 1074)) in *. set (b := Zpos my * 2 ^ (ey + 1074)) in *.
      assert (Z.compare (-1 * a) (-1 * b) = CompOpp (Z.compare a b)) as ->.
      { rewrite <- Z.compare_antisym. destruct (Z.compare_spec b a);
          [apply Z.compare_eq_iff|apply Z.compare_lt_iff|apply Z.compare_gt_iff]; lia. }
      rewrite HC. unfold Pos.compare. by destruct (Z.compare ex ey).
    + apply Z.compare_lt_iff; lia.
    + apply Z.compare_gt_iff; lia.
    + rewrite !Z.mul_1_l, HC. done.
Qed.

(** ** Rounding

    [round_finish] is the value [r * 2^e'] after the last carry: what
    [binary_round_aux] returns once the significand has been rounded to [r]. *)
Definition round_finish (s : bool) (r e' : Z) : float64 :=
  match r with
  | Zpos p =>
      if r =? 2 ^ 53
      then if e' + 1 <=? 971 then S754_finite s 4503599627370496 (e' + 1) else S754_infinity s
      else if e' <=? 971 then S754_finite s p e' else S754_infinity s
  | _ => S754_zero s
  end.

Lemma iter_pos_nat {A} (f : A -> A) n x : SpecFloat.iter_pos f n x = Nat.iter (Pos.to_nat n) f x.
Proof.
  revert x. induction n as [n IH|n IH|]; intros x; cbn [SpecFloat.iter_pos]; [| |done];
    rewrite !IH, <- Nat.iter_add.
  - rewrite Pos2Nat.inj_xI. change (f x) with (Nat.iter 1 f x).
    rewrite <- Nat.iter_add. f_equal. lia.
  - rewrite Pos2Nat.inj_xO. f_equal. lia.
Qed.

Lemma shr_1_spec mrs : 0 <= shr_m mrs ->
  shr_m (shr_1 mrs) = shr_m mrs / 2 /\
  shr_r (shr_1 mrs) = Z.odd (shr_m mrs) /\ shr_s (shr_1 mrs) = shr_r mrs || shr_s mrs.
Proof.
  destruct mrs as [m r s]; simpl. intros Hm.
  destruct m as [|[p|p|]|]; simpl; try (split_all; done); try lia.
  - split_all; [|done|done]. rewrite (Pos2Z.inj_xI p). apply Z.div_unique with 1; lia.
  - split_all; [|done|done]. rewrite (Pos2Z.inj_xO p). apply Z.div_unique with 0; lia.
Qed.

(** Shifting right by [n]: the quotient, and a record that is exact iff nothing
    was lost. *)
Definition rec_exact (mrs : shr_record) : bool := negb (shr_r mrs) && negb (shr_s mrs).

Lemma shr_iter_spec n mrs : 0 <= shr_m mrs ->
  let out := Nat.iter n shr_1 mrs in
  shr_m out = shr_m mrs / 2 ^ Z.of_nat n /\
  (rec_exact out = true <-> rec_exact mrs = true /\ (2 ^ Z.of_nat n | shr_m mrs)).
Proof.
  intros Hm. induction n as [|n [IH1 IH2]]; cbn zeta.
  { rewrite Z.div_1_r. split; [done|]. split; [|tauto]. intros H. split; [done|]. apply Z.divide_1_l. }
  change (Nat.iter (S n) shr_1 mrs) with (shr_1 (Nat.iter n shr_1 mrs)).
  set (mid := Nat.iter n shr_1 mrs) in *.
  assert (0 <= shr_m mid) as Hmid by (rewrite IH1; apply Z.div_pos; lia).
  destruct (shr_1_spec mid Hmid) as (E1 & E2 & E3).
  rewrite Nat2Z.inj_succ, Z.pow_succ_r by lia.
  split.
  - rewrite E1, IH1, Z.div_div by lia. f_equal. lia.
  - unfold rec_exact at 1. rewrite E2, E3, negb_orb, andb_true_iff.
    change (negb (shr_r mid) && negb (shr_s mid)) with (rec_exact mid).
    rewrite IH2, Z.negb_odd, Z.even_spec, IH1. split.
    + intros [[j Hj] [Hx [k Hk]]]. split; [done|]. exists j.
      rewrite Hk, Z.div_mul in Hj by lia. rewrite Hk, Hj. lia.
    + intros [Hx [k Hk]].
      assert (shr_m mrs = (2 * k) * 2 ^ Z.of_nat n) as Hk' by lia.
      split_all; [|done|by exists (2 * k)]. exists k. rewrite Hk', Z.div_mul by lia. done.
Qed.

Lemma Zdigits2_bounds m : 0 < m -> 0 < Zdigits2 m /\ 2 ^ (Zdigits2 m - 1) <= m < 2 ^ Zdigits2 m.
Proof. destruct m as [|p|p]; simpl; try lia. intros _. pose proof (digits2_bounds p). lia. Qed.

Lemma Zdigits2_unique m d : 0 < d -> 2 ^ (d - 1) <= m < 2 ^ d -> Zdigits2 m = d.
Proof.
  intros Hd [H1 H2]. assert (0 < m) as Hm by (pose proof (Z.pow_pos_nonneg 2 (d - 1)); lia).
  destruct m as [|p|p]; try lia. simpl. rewrite digits2_pos_log2.
  rewrite (Z.log2_unique (Zpos p) (d - 1)); [lia|lia|].
  replace (Z.succ (d - 1)) with d by lia. done.
Qed.

Lemma fexp_eq z : fexp prec emax z = Z.max (z - 53) (-1074).
Proof. unfold fexp, SpecFloat.emin, prec, emax. lia. Qed.

Definition loc_exact (l : location) : bool := match l with loc_Exact => true | _ => false end.

Lemma rne_cases q l : round_nearest_even q l = q \/ (loc_exact l = false /\ round_nearest_even q l = q + 1).
Proof. destruct l as [|[| |]]; simpl; auto. destruct (Z.even q); auto. Qed.

Lemma shr_fexp_spec m e l e' : 0 <= m -> e' = fexp prec emax (Zdigits2 m + e) -> e <= e' ->
  exists mrs, shr_fexp prec emax m e l = (mrs, e') /\ shr_m mrs = m / 2 ^ (e' - e) /\
    (rec_exact mrs = true <-> loc_exact l = true /\ (2 ^ (e' - e) | m)).
Proof.
  intros Hm -> Hle. unfold shr_fexp, shr. set (e' := fexp prec emax (Zdigits2 m + e)) in *.
  assert (Hl : shr_m (shr_record_of_loc m l) = m) by (destruct l as [|[| |]]; done).
  assert (He : rec_exact (shr_record_of_loc m l) = loc_exact l) by (destruct l as [|[| |]]; done).
  destruct (e' - e) as [|n|n] eqn:En; [| |lia].
  - eexists. split; [f_equal; lia|]. rewrite Hl, He, Z.div_1_r. split; [done|].
    split; [|tauto]. intros; split; [done|]. apply Z.divide_1_l.
  - eexists. split; [f_equal; lia|]. rewrite iter_pos_nat.
    destruct (shr_iter_spec (Pos.to_nat n) (shr_record_of_loc m l)) as [H1 H2].
    { rewrite Hl. done. }
    rewrite positive_nat_Z in *. rewrite Hl in *. rewrite He in *. auto.
Qed.

(** The carry step: a significand of at most [2^53] at a canonical exponent is
    either kept or, at exactly [2^53], shifted once without loss. *)
Lemma round_finish_shr s r e' :
  0 <= r <= 2 ^ 53 -> (2 ^ 52 <= r \/ e' = -1074) -> -1074 <= e' ->
  (let '(mrs, e'') := shr_fexp prec emax r e' loc_Exact in
   match shr_m mrs with
   | Z0 => S754_zero s
   | Zpos m => if e'' <=? emax - prec then S754_finite s m e'' else S754_infinity s
   | _ => S754_nan
   end) = round_finish s r e'.
Proof.
  intros [Hr0 Hr] Hn He. destruct (Z.eq_dec r (2 ^ 53)) as [->|Hne].
  - destruct (shr_fexp_spec (2 ^ 53) e' loc_Exact (e' + 1)) as (mrs & -> & Hm & _); [lia| |lia|].
    { rewrite fexp_eq. change (Zdigits2 (2 ^ 53)) with 54. lia. }
    rewrite Hm. replace (e' + 1 - e') with 1 by lia.
    change (2 ^ 53 / 2 ^ 1) with 4503599627370496. reflexivity.
  - destruct (shr_fexp_spec r e' loc_Exact e') as (mrs & -> & Hm & _); [lia| |lia|].
    { rewrite fexp_eq. destruct (Z.eq_dec r 0) as [->|]; [simpl; lia|].
      destruct (Zdigits2_bounds r) as (Hd & B1 & B2); [lia|].
      assert (Zdigits2 r <= 53).
      { destruct (Z.le_gt_cases (Zdigits2 r) 53) as [|Hgt]; [done|].
        assert (2 ^ 53 <= 2 ^ (Zdigits2 r - 1)) by (apply Z.pow_le_mono_r; lia). lia. }
      destruct Hn as [Hn| ->]; [|lia].
      assert (53 <= Zdigits2 r); [|lia].
      destruct (Z.le_gt_cases 53 (Zdigits2 r)) as [|Hgt]; [done|].
      assert (2 ^ Zdigits2 r <= 2 ^ 52) by (apply Z.pow_le_mono_r; lia). lia. }
    rewrite Hm, Z.sub_diag, Z.div_1_r. unfold round_finish, emax, prec.
    destruct r as [|p|p]; [done| |lia]. destruct (Z.eqb_spec (Zpos p) (2 ^ 53)); [done|]. done.
Qed.

(** The rounding specification: with a significand no shorter than its exponent
    demands, the result is [round_finish] of the truncated significand or of its
    successor, the successor only when something was lost. *)
Lemma round_aux_spec s m e l e' : 0 <= m -> e' = fexp prec emax (Zdigits2 m + e) -> e <= e' ->
  exists r, binary_round_aux prec emax s m e l = round_finish s r e' /\
    let q := m / 2 ^ (e' - e) in
    0 <= q /\ (r = q \/ (r = q + 1 /\ (loc_exact l = true -> q * 2 ^ (e' - e) < m))) /\
    r <= 2 ^ 53 /\ q < 2 ^ 53 /\ (2 ^ 52 <= q \/ e' = -1074).
Proof.
  intros Hm He' Hle. destruct (shr_fexp_spec m e l e' Hm He' Hle) as (mrs & Hs & Hq & Hx).
  unfold binary_round_aux. rewrite Hs, Hq. clear Hs. cbn zeta.
  set (n := e' - e) in *. assert (0 <= n) as Hn by lia.
  set (q := m / 2 ^ n) in *.
  assert (0 < 2 ^ n) as H2n by (apply Z.pow_pos_nonneg; lia).
  assert (0 <= q) as Hq0 by (apply Z.div_pos; lia).
  assert (Hqm : q * 2 ^ n <= m) by (rewrite Z.mul_comm; apply Z.mul_div_le; lia).
  assert (Hqm2 : m < (q + 1) * 2 ^ n).
  { pose proof (Z.mul_succ_div_gt m (2 ^ n)). unfold q. lia. }
  assert (Hq53 : q < 2 ^ 53 /\ (2 ^ 52 <= q \/ e' = -1074)).
  { destruct (Z.eq_dec m 0) as [->|Hm0].
    { rewrite fexp_eq in He'. simpl in He'. unfold q. rewrite Z.div_0_l by lia. lia. }
    destruct (Zdigits2_bounds m) as (Hd & B1 & B2); [lia|].
    rewrite fexp_eq in He'. set (d := Zdigits2 m) in *.
    split.
    - apply Z.div_lt_upper_bound; [lia|]. rewrite <- Z.pow_add_r by lia.
      eapply Z.lt_le_trans; [apply B2|]. apply Z.pow_le_mono_r; lia.
    - destruct (Z.eq_dec e' (-1074)) as [|Hne]; [by right|left].
      apply Z.div_le_lower_bound; [lia|]. rewrite <- Z.pow_add_r by lia.
      eapply Z.le_trans; [|apply B1]. apply Z.pow_le_mono_r; lia. }
  set (lr := loc_of_shr_record mrs).
  set (r := round_nearest_even q lr).
  assert (Hr : r = q \/ (r = q + 1 /\ (loc_exact l = true -> q * 2 ^ n < m))).
  { destruct (rne_cases q lr) as [|[Hlx Hr]]; [by left|right]. split; [done|].
    intros Hl. assert (Hm' : q * 2 ^ n <> m); [|lia]. intros Heq.
    assert (rec_exact mrs = false) as Hne.
    { unfold lr in Hlx. destruct mrs as [? [|] [|]]; simpl in *; done. }
    assert (rec_exact mrs = true); [|congruence].
    apply Hx. split; [done|]. by exists q. }
  assert (Hr53 : 0 <= r <= 2 ^ 53) by (destruct Hr as [->|[-> _]]; lia).
  exists r. split; [|split_all; try done; lia].
  apply round_finish_shr; [done| |rewrite He', fexp_eq; lia].
  destruct Hr as [->|[-> _]]; lia.
Qed.

(** Scaled magnitudes: [m * 2^(e - b)] is the integer a value [m * 2^e] is of the
    unit [2^b]. *)
Definition scaled (b m e : Z) : Z := m * 2 ^ (e - b).

Lemma scaled_shift b m e k : b <= e -> 0 <= k -> scaled b m (e + k) = scaled b (m * 2 ^ k) e.
Proof. intros. unfold scaled. replace (e + k - b) with (k + (e - b)) by lia. rewrite Z.pow_add_r by lia. lia. Qed.

Lemma scaled_le b m1 m2 e : b <= e -> scaled b m1 e <= scaled b m2 e <-> m1 <= m2.
Proof.
  intros. unfold scaled. assert (0 < 2 ^ (e - b)) by (apply Z.pow_pos_nonneg; lia). nia.
Qed.

Lemma scaled_lt b m1 m2 e : b <= e -> scaled b m1 e < scaled b m2 e <-> m1 < m2.
Proof.
  intros. unfold scaled. assert (0 < 2 ^ (e - b)) by (apply Z.pow_pos_nonneg; lia). nia.
Qed.

(** Comparing canonical magnitudes at any base that is fine enough. *)
Lemma canonical_scaled b m1 e1 m2 e2 :
  bounded prec emax m1 e1 = true -> bounded prec emax m2 e2 = true -> b <= e1 -> b <= e2 ->
  Z.compare (scaled b (Zpos m1) e1) (scaled b (Zpos m2) e2) =
  match Z.compare e1 e2 with Eq => Pos.compare m1 m2 | c => c end.
Proof.
  intros B1 B2 H1 H2. rewrite <- (canonical_compare _ _ _ _ B1 B2). unfold scaled.
  pose proof (proj1 (bounded_spec _ _) B1). pose proof (proj1 (bounded_spec _ _) B2).
  assert (Hk : forall x y p q k, 0 <= k -> 0 <= p -> 0 <= q ->
    Z.compare (x * 2 ^ (p + k)) (y * 2 ^ (q + k)) = Z.compare (x * 2 ^ p) (y * 2 ^ q)).
  { intros x y p q k Hk Hp Hq.
    rewrite (Z.pow_add_r 2 p k), (Z.pow_add_r 2 q k), !Z.mul_assoc by lia.
    rewrite <- Zmult_compare_compat_r; [done|]. apply Z.lt_gt, Z.pow_pos_nonneg; lia. }
  destruct (Z.le_ge_cases b (-1074)).
  - rewrite <- (Hk (Zpos m1) (Zpos m2) (e1 + 1074) (e2 + 1074) (-1074 - b)) by lia.
    do 2 f_equal; f_equal; lia.
  - rewrite <- (Hk (Zpos m1) (Zpos m2) (e1 - b) (e2 - b) (b + 1074)) by lia.
    do 2 f_equal; f_equal; lia.
Qed.

Lemma leb_scaled b m1 e1 m2 e2 :
  bounded prec emax m1 e1 = true -> bounded prec emax m2 e2 = true -> b <= e1 -> b <= e2 ->
  f_leb (S754_finite false m1 e1) (S754_finite false m2 e2) = true <->
  scaled b (Zpos m1) e1 <= scaled b (Zpos m2) e2.
Proof.
  intros B1 B2 H1 H2. pose proof (canonical_scaled b _ _ _ _ B1 B2 H1 H2) as HC.
  unfold f_leb, SFleb, SFcompare. change (Pos.compare_cont Eq m1 m2) with (Pos.compare m1 m2).
  assert (match Z.compare e1 e2 with Eq => Pos.compare m1 m2 | Lt => Lt | Gt => Gt end =
    Z.compare (scaled b (Zpos m1) e1) (scaled b (Zpos m2) e2)) as ->.
  { rewrite HC. by destruct (Z.compare e1 e2). }
  destruct (Z.compare_spec (scaled b (Zpos m1) e1) (scaled b (Zpos m2) e2)); split; (lia || done).
Qed.

Lemma bounded_lt53 m e : bounded prec emax m e = true -> Zpos m < 2 ^ 53.
Proof.
  rewrite bounded_spec. intros [H _]. pose proof (digits2_bounds m) as [_ B].
  eapply Z.lt_le_trans; [apply B|]. apply Z.pow_le_mono_r; lia.
Qed.

(** A valid magnitude [N * 2^f], compared with the outcome of a rounding. *)
Section RoundBounds.
Context (b q r e' : Z) (N : positive) (f : Z).
Context (Hb : b <= e') (Hbf : b <= f) (HN : bounded prec emax N f = true).
Context (Hr : 0 <= r <= 2 ^ 53) (Hn : 2 ^ 52 <= r \/ e' = -1074) (He : -1074 <= e').

Lemma round_finish_canonical p : r = Zpos p -> r <> 2 ^ 53 -> e' <= 971 ->
  bounded prec emax p e' = true.
Proof.
  intros -> Hne Hle. apply bounded_spec. split; [|done].
  destruct (Zdigits2_bounds (Zpos p)) as (Hd & B1 & B2); [lia|]. simpl Zdigits2 in *.
  set (d := Zpos (digits2_pos p)) in *.
  assert (d <= 53).
  { destruct (Z.le_gt_cases d 53) as [|Hgt]; [done|].
    assert (2 ^ 53 <= 2 ^ (d - 1)) by (apply Z.pow_le_mono_r; lia). lia. }
  destruct Hn as [Hn'|Hn']; [|lia].
  assert (53 <= d); [|lia].
  destruct (Z.le_gt_cases 53 d) as [|Hgt]; [done|].
  assert (2 ^ d <= 2 ^ 52) by (apply Z.pow_le_mono_r; lia). lia.
Qed.

Lemma round_finish_carry : e' + 1 <= 971 -> bounded prec emax 4503599627370496 (e' + 1) = true.
Proof.
  intros Hle. apply bounded_spec. change (digits2_pos 4503599627370496) with 53%positive. lia.
Qed.

(** A rounded significand above the exponent of [N] is above [N]. *)
Lemma scaled_above : f <= e' ->
  2 ^ 53 <= r \/ (f < e' /\ 2 ^ 52 <= r) -> scaled b (Zpos N) f < scaled b r e'.
Proof.
  intros Hfe Hcase. pose proof (bounded_lt53 _ _ HN) as HN53.
  replace e' with (f + (e' - f)) by lia. rewrite scaled_shift, scaled_lt by lia.
  destruct Hcase as [H53|[Hlt H52]].
  - assert (1 <= 2 ^ (e' - f)) by (apply (Z.pow_le_mono_r 2 0); lia). nia.
  - assert (2 <= 2 ^ (e' - f)) by (apply (Z.pow_le_mono_r 2 1); lia). nia.
Qed.

Lemma round_finish_le : scaled b r e' <= scaled b (Zpos N) f ->
  f_leb (round_finish false r e') (S754_finite false N f) = true.
Proof.
  intros Hle. pose proof (proj1 (bounded_spec _ _) HN) as [_ Hf]. pose proof scaled_above as Habove.
  pose proof round_finish_carry as Hcarry. pose proof round_finish_canonical as Hcan.
  unfold round_finish. destruct (Z.eq_dec r 0) as [->|Hr0]; [done|].
  destruct r as [|p|p] eqn:Er; [done| |lia].
  destruct (Z.eqb_spec (Zpos p) (2 ^ 53)) as [E53|E53].
  - assert (e' + 1 <= f) by (destruct (Z.le_gt_cases (e' + 1) f); [done|lia]).
    replace (e' + 1 <=? 971) with true by (symmetry; apply Z.leb_le; lia).
    apply (leb_scaled b); [apply Hcarry; lia|done|lia|lia|].
    rewrite scaled_shift by lia. change (4503599627370496 * 2 ^ 1) with (2 ^ 53). by rewrite <- E53.
  - assert (e' <= f \/ (f < e' /\ ~ 2 ^ 52 <= Zpos p)) as Hef.
    { destruct (Z.le_gt_cases e' f); [by left|right]. split; [lia|].
      intros H52. assert (scaled b (Zpos N) f < scaled b (Zpos p) e'); [apply Habove|]; lia. }
    assert (-1074 <= f) by (pose proof (proj1 (bounded_spec _ _) HN); lia).
    replace (e' <=? 971) with true by (symmetry; apply Z.leb_le; lia).
    apply (leb_scaled b); try done; [apply Hcan; [done|done|lia]].
Qed.

Lemma round_finish_ge : scaled b (Zpos N) f <= scaled b r e' ->
  f_leb (S754_finite false N f) (round_finish false r e') = true.
Proof.
  intros Hle. pose proof round_finish_carry as Hcarry. pose proof round_finish_canonical as Hcan.
  assert (0 < scaled b (Zpos N) f) as Hpos.
  { unfold scaled. apply Z.mul_pos_pos; [lia|apply Z.pow_pos_nonneg; lia]. }
  unfold round_finish. destruct r as [|p|p] eqn:Er; [unfold scaled in *; lia| |lia].
  destruct (Z.eqb_spec (Zpos p) (2 ^ 53)) as [E53|E53].
  - destruct (Z.leb_spec (e' + 1) 971); [|done].
    apply (leb_scaled b); [done|apply Hcarry; lia|lia|lia|].
    rewrite scaled_shift by lia. change (4503599627370496 * 2 ^ 1) with (2 ^ 53). by rewrite <- E53.
  - destruct (Z.leb_spec e' 971); [|done].
    apply (leb_scaled b); try done. apply Hcan; done.
Qed.
End RoundBounds.

(** Rounding to nearest never crosses a representable bound, from either side.
    The true value lies in [m * 2^e, (m + 1) * 2^e), at its left end exactly when
    the location is exact. *)
Section RoundMonotone.
Context (b m e : Z) (l : location) (N : positive) (f : Z).
Context (Hm : 0 <= m) (He : e <= fexp prec emax (Zdigits2 m + e)).
Context (Hbe : b <= e) (Hbf : b <= f) (HN : bounded prec emax N f = true).

Let upper : Z := if loc_exact l then m else m + 1.

Lemma round_aux_le : scaled b upper e <= scaled b (Zpos N) f ->
  f_leb (binary_round_aux prec emax false m e l) (S754_finite false N f) = true.
Proof.
  intros Hle. destruct (round_aux_spec false m e l _ Hm eq_refl He) as (r & -> & Hq0 & Hr & Hr53 & Hq53 & Hn).
  set (e' := fexp prec emax (Zdigits2 m + e)) in *. set (q := m / 2 ^ (e' - e)) in *.
  assert (Hp : 0 < 2 ^ (e' - e)) by (apply Z.pow_pos_nonneg; lia).
  assert (Hqm : q * 2 ^ (e' - e) <= m) by (unfold q; rewrite Z.mul_comm; apply Z.mul_div_le; lia).
  assert (Hup : m <= upper) by (unfold upper; destruct (loc_exact l); lia).
  assert (-1074 <= f) by (pose proof (proj1 (bounded_spec _ _) HN); lia).
  assert (-1074 <= e') by (unfold e'; rewrite fexp_eq; lia).
  apply (round_finish_le b r e' N f); try lia; try done.
  destruct (Z.le_gt_cases e' f) as [Hef|Hef].
  - assert (Hf : scaled b (Zpos N) f = scaled b (Zpos N * 2 ^ (f - e')) e').
    { rewrite <- scaled_shift by lia. f_equal. lia. }
    rewrite Hf in *. apply scaled_le; [lia|]. set (M := Zpos N * 2 ^ (f - e')) in *.
    assert (HM : upper <= M * 2 ^ (e' - e)).
    { apply (scaled_le b _ _ e); [lia|]. rewrite <- scaled_shift by lia.
      replace (e + (e' - e)) with e' by lia. done. }
    destruct Hr as [->|[-> Hx]]; [nia|].
    assert (q * 2 ^ (e' - e) < M * 2 ^ (e' - e)); [|nia].
    unfold upper in *. destruct (loc_exact l); [specialize (Hx eq_refl)|]; lia.
  - exfalso. pose proof (bounded_lt53 _ _ HN).
    assert (scaled b (Zpos N) f < scaled b q e') as Hlt.
    { apply (scaled_above b q e' N f); try lia; done. }
    assert (scaled b q e' <= scaled b upper e); [|lia].
    replace e' with (e + (e' - e)) at 1 by lia. rewrite scaled_shift, scaled_le by lia. lia.
Qed.

Lemma round_aux_ge : scaled b (Zpos N) f <= scaled b m e ->
  f_leb (S754_finite false N f) (binary_round_aux prec emax false m e l) = true.
Proof.
  intros Hle. destruct (round_aux_spec false m e l _ Hm eq_refl He) as (r & -> & Hq0 & Hr & Hr53 & Hq53 & Hn).
  set (e' := fexp prec emax (Zdigits2 m + e)) in *. set (q := m / 2 ^ (e' - e)) in *.
  assert (Hp : 0 < 2 ^ (e' - e)) by (apply Z.pow_pos_nonneg; lia).
  assert (-1074 <= f) by (pose proof (proj1 (bounded_spec _ _) HN); lia).
  assert (-1074 <= e') by (unfold e'; rewrite fexp_eq; lia).
  assert (Hqr : q <= r) by (destruct Hr as [->|[-> _]]; lia).
  apply (round_finish_ge b r e' N f); try lia; try done.
  destruct (Z.le_gt_cases e' f) as [Hef|Hef].
  - assert (Hf : scaled b (Zpos N) f = scaled b (Zpos N * 2 ^ (f - e')) e').
    { rewrite <- scaled_shift by lia. f_equal. lia. }
    rewrite Hf in *. apply scaled_le; [lia|]. set (M := Zpos N * 2 ^ (f - e')) in *.
    etransitivity; [|exact Hqr]. unfold q. apply Z.div_le_lower_bound; [done|].
    apply (scaled_le b _ _ e); [lia|].
    replace (2 ^ (e' - e) * M) with (M * 2 ^ (e' - e)) by lia. rewrite <- scaled_shift by lia.
    replace (e + (e' - e)) with e' by lia. done.
  - apply Z.lt_le_incl, (scaled_above b r e' N f); try lia; done.
Qed.
End RoundMonotone.

(** ** Sums and differences *)

Lemma Zdigits2_shift m k : 0 < m -> 0 <= k -> Zdigits2 (m * 2 ^ k) = Zdigits2 m + k.
Proof.
  intros Hm Hk. destruct (Zdigits2_bounds m Hm) as (Hd & B1 & B2).
  apply Zdigits2_unique; [lia|].
  replace (Zdigits2 m + k - 1) with (Zdigits2 m - 1 + k) by lia.
  rewrite !Z.pow_add_r by lia. assert (0 < 2 ^ k) by (apply Z.pow_pos_nonneg; lia). nia.
Qed.

Lemma iter_xO m d : Zpos (Pos.iter xO m d) = Zpos m * 2 ^ Zpos d.
Proof.
  induction d as [|d IH] using Pos.peano_ind; [simpl; lia|].
  rewrite Pos.iter_succ, Pos2Z.inj_succ, Z.pow_succ_r by lia. rewrite (Pos2Z.inj_xO (Pos.iter xO m d)), IH. lia.
Qed.

Lemma shl_align_spec m e e' :
  exists mz, shl_align m e e' = (mz, Z.min e e') /\ Zpos mz = Zpos m * 2 ^ (e - Z.min e e').
Proof.
  unfold shl_align. destruct (e' - e) as [|d|d] eqn:Ed; eexists; (split; [f_equal; lia|]).
  - replace (e - Z.min e e') with 0 by lia. lia.
  - replace (e - Z.min e e') with 0 by lia. lia.
  - rewrite iter_xO. do 2 f_equal. lia.
Qed.

Lemma binary_round_neg m e : binary_round prec emax true m e = f_neg (binary_round prec emax false m e).
Proof.
  unfold binary_round. destruct (shl_align _ _ _) as [mz ez]. unfold binary_round_aux.
  destruct (shr_fexp prec emax (Zpos mz) ez loc_Exact) as [mrs e1].
  destruct (shr_fexp prec emax _ e1 loc_Exact) as [mrs' e2].
  destruct (shr_m mrs'); try done. by destruct (e2 <=? emax - prec).
Qed.

Section BinaryRound.
Context (b : Z) (m : positive) (e : Z) (N : positive) (f : Z).
Context (Hbe : b <= e) (Hb : b <= -1074) (HN : bounded prec emax N f = true).

Lemma binary_round_as_aux : exists mz ez,
  binary_round prec emax false m e = binary_round_aux prec emax false (Zpos mz) ez loc_Exact /\
  ez <= fexp prec emax (Zdigits2 (Zpos mz) + ez) /\ b <= ez /\
  scaled b (Zpos mz) ez = scaled b (Zpos m) e.
Proof.
  destruct (shl_align_spec m e (fexp prec emax (Zpos (digits2_pos m) + e))) as (mz & Hs & Hmz).
  exists mz, (Z.min e (fexp prec emax (Zpos (digits2_pos m) + e))).
  unfold binary_round. rewrite Hs. change (Zpos (digits2_pos m)) with (Zdigits2 (Zpos m)) in *.
  set (ez := Z.min e (fexp prec emax (Zdigits2 (Zpos m) + e))) in *.
  split; [done|]. rewrite Hmz, Zdigits2_shift by lia.
  assert (b <= ez) by (unfold ez; rewrite fexp_eq; lia).
  replace (Zdigits2 (Zpos m) + (e - ez) + ez) with (Zdigits2 (Zpos m) + e) by lia.
  split_all; [lia|done|].
  rewrite <- scaled_shift by lia. f_equal. lia.
Qed.

Lemma bounded_exp : -1074 <= f.
Proof. pose proof (proj1 (bounded_spec _ _) HN). lia. Qed.

Lemma binary_round_le : scaled b (Zpos m) e <= scaled b (Zpos N) f ->
  f_leb (binary_round prec emax false m e) (S754_finite false N f) = true.
Proof.
  destruct binary_round_as_aux as (mz & ez & -> & He & Hbz & <-). intros Hle.
  pose proof bounded_exp. apply (round_aux_le b); try done; lia.
Qed.

Lemma binary_round_ge : scaled b (Zpos N) f <= scaled b (Zpos m) e ->
  f_leb (S754_finite false N f) (binary_round prec emax false m e) = true.
Proof.
  destruct binary_round_as_aux as (mz & ez & -> & He & Hbz & <-). intros Hle.
  pose proof bounded_exp. apply (round_aux_ge b); try done; lia.
Qed.
End BinaryRound.

(** The result of a positive rounding is never NaN and never negative. *)
Definition f_nonneg (x : float64) : bool := f_leb f_zero x.

Lemma binary_round_nonneg m e : f_nonneg (binary_round prec emax false m e) = true.
Proof.
  destruct (binary_round_as_aux (Z.min e (-1074)) m e) as (mz & ez & -> & He & _); [lia|lia|].
  destruct (round_aux_spec false (Zpos mz) ez loc_Exact _ ltac:(lia) eq_refl He) as (r & -> & _).
  unfold round_finish. repeat break_match; done.
Qed.

Lemma f_leb_neg x y : f_leb (f_neg x) (f_neg y) = f_leb y x.
Proof.
  destruct x as [[]|[]| |[] mx ex], y as [[]|[]| |[] my ey]; try done;
    unfold f_leb, SFleb, f_neg, SFopp, SFcompare, negb;
    change (Pos.compare_cont Eq mx my) with (Pos.compare mx my);
    change (Pos.compare_cont Eq my mx) with (Pos.compare my mx);
    rewrite (Z.compare_antisym ex ey), ?(Pos.compare_antisym mx my);
    destruct (Z.compare ex ey); simpl; try done; destruct (Pos.compare mx my); done.
Qed.

Lemma f_neg_involutive x : f_neg (f_neg x) = x.
Proof. by destruct x as [[]|[]| |[] ? ?]. Qed.

(** [rounds z x]: [x] is the correctly rounded value of [z * 2^-1074]. *)
Definition rounds (z : Z) (x : float64) : Prop :=
  (f_finite x = true /\ f_val x = z) \/
  exists D e, -1074 <= e /\ scaled (-1074) D e = z /\ x = binary_normalize prec emax D e false.

Lemma f_val_finite s m e : f_val (S754_finite s m e) = (if s then -1 else 1) * scaled (-1074) (Zpos m) e.
Proof. unfold f_val, scaled. replace (e - -1074) with (e + 1074) by lia. done. Qed.

Lemma scaled_sign b D e : b <= e -> (scaled b D e ?= 0) = (D ?= 0).
Proof.
  intros H. unfold scaled. assert (0 < 2 ^ (e - b)) by (apply Z.pow_pos_nonneg; lia).
  destruct (Z.compare_spec D 0) as [->|Hlt|Hgt];
    [apply Z.compare_eq_iff|apply Z.compare_lt_iff|apply Z.compare_gt_iff]; nia.
Qed.

(** Rounding is monotone through every representable value. *)
Lemma rounds_le z x y : rounds z x -> f_finite y = true -> z <= f_val y -> f_leb x y = true.
Proof.
  intros [[Hx <-]|(D & e & He & <- & ->)] Hy Hle.
  { unfold f_leb, SFleb. rewrite f_compare_val by done.
    destruct (Z.compare_spec (f_val x) (f_val y)); (done || lia). }
  pose proof (scaled_sign (-1074) D e He) as Hs.
  destruct D as [|p|p]; simpl binary_normalize.
  - destruct y as [sy| | |[] my ey]; try done. unfold f_val in Hle. simpl in Hy.
    pose proof (proj1 (bounded_spec _ _) Hy). unfold scaled in Hle.
    assert (0 < 2 ^ (ey + 1074)) by (apply Z.pow_pos_nonneg; lia). lia.
  - apply Z.compare_gt_iff in Hs.
    destruct y as [sy| | |sy my ey]; try done; [simpl in Hle; lia|]. simpl in Hy.
    pose proof (proj1 (bounded_spec _ _) Hy). rewrite f_val_finite in Hle.
    destruct sy.
    + assert (0 < scaled (-1074) (Zpos my) ey)
        by (unfold scaled; apply Z.mul_pos_pos; [lia|apply Z.pow_pos_nonneg; lia]). lia.
    + apply (binary_round_le (-1074)); [done|lia|done|lia].
  - rewrite binary_round_neg. pose proof (binary_round_nonneg p e) as Hnn.
    destruct y as [sy| | |sy my ey]; try done; simpl in Hy.
    + unfold f_nonneg in Hnn. rewrite <- f_leb_neg in Hnn. destruct (f_neg _) as [[]|[]| |[] ? ?]; done.
    + pose proof (proj1 (bounded_spec _ _) Hy). rewrite f_val_finite in Hle. destruct sy.
      * change (S754_finite true my ey) with (f_neg (S754_finite false my ey)). rewrite f_leb_neg.
        apply (binary_round_ge (-1074)); [done|lia|done|]. unfold scaled in *. lia.
      * unfold f_nonneg in Hnn. rewrite <- f_leb_neg in Hnn. destruct (f_neg _) as [[]|[]| |[] ? ?]; done.
Qed.

Lemma rounds_neg z x : rounds z x -> exists x', rounds (- z) x' /\ forall y, f_leb x' (f_neg y) = f_leb y x.
Proof.
  intros [[Hx <-]|(D & e & He & <- & ->)].
  - exists (f_neg x). split; [|intros; apply f_leb_neg]. left.
    destruct x as [[]|[]| |[] m e]; try done; (split; [done|]); unfold f_val, f_neg, SFopp, negb; lia.
  - exists (binary_normalize prec emax (- D) e false). split.
    { right. exists (- D), e. split_all; [done| |done]. unfold scaled. lia. }
    intros y. destruct D as [|p|p]; simpl; rewrite ?binary_round_neg.
    + by destruct y as [[]|[]| |[] ? ?].
    + apply f_leb_neg.
    + rewrite <- (f_leb_neg (f_neg (binary_round prec emax false p e)) y), f_neg_involutive. done.
Qed.

Lemma rounds_ge z x y : rounds z x -> f_finite y = true -> f_val y <= z -> f_leb y x = true.
Proof.
  intros Hr Hy Hle. destruct (rounds_neg _ _ Hr) as (x' & Hr' & Hneg). rewrite <- Hneg.
  apply (rounds_le (- z)); [done| |].
  - by destruct y as [[]|[]| |[] m e].
  - destruct y as [[]|[]| |[] m e]; try done; unfold f_val, f_neg, SFopp, negb in *; lia.
Qed.

(** The difference and the sum of finite values are the rounded exact ones. *)
Lemma signed_scaled (s : bool) m e ez : ez <= e ->
  (if s then -1 else 1) * scaled (-1074) (Zpos m) e =
  scaled (-1074) (cond_Zopp s (Zpos m * 2 ^ (e - ez))) ez \/ ez < -1074.
Proof.
  intros H. destruct (Z.le_gt_cases (-1074) ez) as [Hz|]; [left|by right].
  replace e with (ez + (e - ez)) at 1 by lia. rewrite scaled_shift by lia.
  destruct s; unfold scaled, cond_Zopp; lia.
Qed.

Lemma finite_exp s m e : f_finite (S754_finite s m e) = true -> -1074 <= e.
Proof. intros H. pose proof (proj1 (bounded_spec _ _) H). lia. Qed.

Lemma f_sub_rounds x y : f_finite x = true -> f_finite y = true -> rounds (f_val x - f_val y) (f_sub x y).
Proof.
  destruct x as [sx|sx| |sx mx ex], y as [sy|sy| |sy my ey]; try done; intros Hx Hy.
  - left. by destruct sx, sy.
  - left. split; [done|]. unfold f_val. simpl. destruct sy; simpl; lia.
  - left. split; [done|]. unfold f_val. simpl. destruct sx; simpl; lia.
  - right. pose proof (finite_exp _ _ _ Hx). pose proof (finite_exp _ _ _ Hy).
    unfold f_sub, SFsub. cbn zeta.
    destruct (shl_align_spec mx ex (Z.min ex ey)) as (mx' & -> & Hmx).
    destruct (shl_align_spec my ey (Z.min ex ey)) as (my' & -> & Hmy). simpl fst.
    eexists _; exists (Z.min ex ey). split; [lia|split; [|reflexivity]].
    rewrite Hmx, Hmy, !f_val_finite.
    replace (Z.min ex (Z.min ex ey)) with (Z.min ex ey) by lia.
    replace (Z.min ey (Z.min ex ey)) with (Z.min ex ey) by lia.
    destruct (signed_scaled sx mx ex (Z.min ex ey)) as [->|]; [lia| |lia].
    destruct (signed_scaled sy my ey (Z.min ex ey)) as [->|]; [lia| |lia].
    unfold scaled. lia.
Qed.

Lemma f_add_rounds x y : f_finite x = true -> f_finite y = true -> rounds (f_val x + f_val y) (f_add x y).
Proof.
  destruct x as [sx|sx| |sx mx ex], y as [sy|sy| |sy my ey]; try done; intros Hx Hy.
  - left. by destruct sx, sy.
  - left. done.
  - left. split; [done|]. simpl f_add. rewrite Z.add_0_r. done.
  - right. pose proof (finite_exp _ _ _ Hx). pose proof (finite_exp _ _ _ Hy).
    unfold f_add, SFadd. cbn zeta.
    destruct (shl_align_spec mx ex (Z.min ex ey)) as (mx' & -> & Hmx).
    destruct (shl_align_spec my ey (Z.min ex ey)) as (my' & -> & Hmy). simpl fst.
    eexists _; exists (Z.min ex ey). split; [lia|split; [|reflexivity]].
    rewrite Hmx, Hmy, !f_val_finite.
    replace (Z.min ex (Z.min ex ey)) with (Z.min ex ey) by lia.
    replace (Z.min ey (Z.min ex ey)) with (Z.min ex ey) by lia.
    destruct (signed_scaled sx mx ex (Z.min ex ey)) as [->|]; [lia| |lia].
    destruct (signed_scaled sy my ey (Z.min ex ey)) as [->|]; [lia| |lia].
    unfold scaled. lia.
Qed.

(** Subtraction keeps the order: the sign of [x - y] tells which is larger.
    Gradual underflow means a difference is never lost. *)
Definition f_tiny : float64 := S754_finite false 1 (-1074).

Lemma f_sub_sign x y : f_finite x = true -> f_finite y = true ->
  SFcompare (f_sub x y) f_zero = SFcompare x y.
Proof.
  intros Hx Hy. pose proof (f_sub_rounds _ _ Hx Hy) as Hr. rewrite (f_compare_val x y) by done.
  destruct (Z.compare_spec (f_val x) (f_val y)) as [Heq|Hlt|Hgt].
  - pose proof (rounds_le _ _ f_zero Hr eq_refl ltac:(simpl; lia)) as H1.
    pose proof (rounds_ge _ _ f_zero Hr eq_refl ltac:(simpl; lia)) as H2.
    by destruct (f_sub x y) as [[]|[]| |[] ? ?].
  - pose proof (rounds_le _ _ (f_neg f_tiny) Hr eq_refl) as H.
    change (f_val (f_neg f_tiny)) with (-1) in H. specialize (H ltac:(lia)).
    by destruct (f_sub x y) as [[]|[]| |[] ? ?].
  - pose proof (rounds_ge _ _ f_tiny Hr eq_refl) as H.
    change (f_val f_tiny) with 1 in H. specialize (H ltac:(lia)).
    by destruct (f_sub x y) as [[]|[]| |[] ? ?].
Qed.

Lemma f_zero_compare x :
  SFcompare f_zero x = match SFcompare x f_zero with Some c => Some (CompOpp c) | None => None end.
Proof. by destruct x as [[]|[]| |[] ? ?]. Qed.

(** ** Closure

    Every operation returns a canonical value, and the operations the scores use
    keep "zero or more" (with infinity, without NaN). *)

Lemma round_finish_valid s r e' : 0 <= r <= 2 ^ 53 -> (2 ^ 52 <= r \/ e' = -1074) -> -1074 <= e' ->
  f_valid (round_finish s r e') = true.
Proof.
  intros Hr Hn He. unfold round_finish. destruct r as [|p|p] eqn:Er; [done| |done].
  destruct (Z.eqb_spec (Zpos p) (2 ^ 53)) as [E|E].
  - destruct (Z.leb_spec (e' + 1) 971); [|done]. by apply round_finish_carry.
  - destruct (Z.leb_spec e' 971); [|done].
    apply (round_finish_canonical (Zpos p) e'); try done; lia.
Qed.

Lemma round_aux_valid s m e l : 0 <= m -> e <= fexp prec emax (Zdigits2 m + e) ->
  f_valid (binary_round_aux prec emax s m e l) = true.
Proof.
  intros Hm He. destruct (round_aux_spec s m e l _ Hm eq_refl He) as (r & -> & Hq0 & Hr & Hr53 & Hq53 & Hn).
  apply round_finish_valid; [|destruct Hr as [->|[-> _]]; lia|rewrite fexp_eq; lia].
  destruct Hr as [->|[-> _]]; lia.
Qed.

Lemma round_aux_sign m e l : 0 <= m -> e <= fexp prec emax (Zdigits2 m + e) ->
  f_nonneg (binary_round_aux prec emax false m e l) = true.
Proof.
  intros Hm He. destruct (round_aux_spec false m e l _ Hm eq_refl He) as (r & -> & _).
  unfold round_finish. repeat break_match; done.
Qed.

Lemma f_valid_neg x : f_valid (f_neg x) = f_valid x.
Proof. by destruct x. Qed.

Lemma binary_normalize_valid m e z : f_valid (binary_normalize prec emax m e z) = true.
Proof.
  destruct m as [|p|p]; [done| |]; simpl; rewrite ?binary_round_neg, ?f_valid_neg;
  destruct (binary_round_as_aux (Z.min e (-1074)) p e) as (mz & ez & -> & He & _); try lia;
    by apply round_aux_valid.
Qed.

Lemma f_of_Z_valid z : f_valid (f_of_Z z) = true.
Proof. apply binary_normalize_valid. Qed.

Lemma f_sub_valid x y : f_valid x = true -> f_valid y = true -> f_valid (f_sub x y) = true.
Proof.
  destruct x as [[]|[]| |sx mx ex], y as [[]|[]| |sy my ey]; try done; intros Hx Hy;
    apply binary_normalize_valid.
Qed.

Lemma f_add_valid x y : f_valid x = true -> f_valid y = true -> f_valid (f_add x y) = true.
Proof.
  destruct x as [[]|[]| |sx mx ex], y as [[]|[]| |sy my ey]; try done; intros Hx Hy;
    apply binary_normalize_valid.
Qed.

Lemma Zdigits2_mono m n : 0 < m -> m <= n -> Zdigits2 m <= Zdigits2 n.
Proof.
  intros Hm Hn. destruct (Zdigits2_bounds m Hm) as (Hd & B1 & _).
  destruct (Zdigits2_bounds n) as (Hd2 & _ & B2); [lia|].
  destruct (Z.le_gt_cases (Zdigits2 m) (Zdigits2 n)) as [|Hgt]; [done|].
  assert (2 ^ Zdigits2 n <= 2 ^ (Zdigits2 m - 1)) by (apply Z.pow_le_mono_r; lia).
  lia.
Qed.

Lemma Zdigits2_ge m k : 0 <= k -> 2 ^ k <= m -> k + 1 <= Zdigits2 m.
Proof.
  intros Hk Hm. assert (Zdigits2 (2 ^ k) = k + 1) as <-.
  { apply Zdigits2_unique; [lia|]. replace (k + 1 - 1) with k by lia.
    split; [lia|]. apply Z.pow_lt_mono_r; lia. }
  apply Zdigits2_mono; [apply Z.pow_pos_nonneg; lia|done].
Qed.

Lemma mul_exp_ok mx ex my ey : bounded prec emax mx ex = true -> bounded prec emax my ey = true ->
  ex + ey <= fexp prec emax (Zdigits2 (Zpos (mx * my)) + (ex + ey)).
Proof.
  rewrite !bounded_spec, fexp_eq. intros [Hx _] [Hy _].
  pose proof (Zdigits2_mono (Zpos mx) (Zpos (mx * my)) ltac:(lia) ltac:(nia)) as H1.
  pose proof (Zdigits2_mono (Zpos my) (Zpos (mx * my)) ltac:(lia) ltac:(nia)) as H2.
  simpl Zdigits2 in *. lia.
Qed.

Lemma f_mul_valid x y : f_valid x = true -> f_valid y = true -> f_valid (f_mul x y) = true.
Proof.
  destruct x as [[]|[]| |sx mx ex], y as [[]|[]| |sy my ey]; try done; intros Hx Hy.
  apply round_aux_valid; [lia|]. by apply mul_exp_ok.
Qed.

(** The quotient computed for a division, and its exponent. *)
Lemma div_core_spec m1 e1 m2 e2 : exists q e l,
  SFdiv_core_binary prec emax (Zpos m1) e1 (Zpos m2) e2 = (q, e, l) /\ 0 <= q /\
  e <= fexp prec emax (Zdigits2 q + e) /\ e <= e1 - e2 /\
  (loc_exact l = true <-> q * Zpos m2 = Zpos m1 * 2 ^ (e1 - e2 - e)) /\
  q * Zpos m2 <= Zpos m1 * 2 ^ (e1 - e2 - e) < (q + 1) * Zpos m2.
Proof.
  unfold SFdiv_core_binary. cbn zeta.
  set (d1 := Zdigits2 (Zpos m1)). set (d2 := Zdigits2 (Zpos m2)).
  set (e := Z.min (fexp prec emax (d1 + e1 - (d2 + e2))) (e1 - e2)).
  set (s := e1 - e2 - e). assert (Hs : 0 <= s) by lia.
  assert (Hm' : match s with 0 => Zpos m1 | Zpos _ => Z.shiftl (Zpos m1) s | Zneg _ => 0 end = Zpos m1 * 2 ^ s).
  { destruct s as [|p|p]; [lia| |lia]. apply Z.shiftl_mul_pow2. lia. }
  rewrite Hm'. set (m' := Zpos m1 * 2 ^ s) in *.
  assert (Hpos : 0 < 2 ^ s) by (apply Z.pow_pos_nonneg; lia).
  pose proof (Z_div_mod m' (Zpos m2) ltac:(lia)) as Hdiv.
  destruct (Z.div_eucl m' (Zpos m2)) as [q r]. destruct Hdiv as [Heq Hr].
  exists q, e, (new_location (Zpos m2) r). split; [done|].
  assert (0 < m') by (unfold m'; lia). assert (Hq : 0 <= q) by nia.
  split; [done|]. split; [|split; [lia|split]].
  - rewrite fexp_eq. destruct (Z.le_gt_cases e (-1074)) as [|Hgt]; [lia|].
    assert (He : e <= d1 + e1 - (d2 + e2) - 53) by (clearbody d1 d2; subst e; rewrite fexp_eq in *; lia).
    assert (53 <= Zdigits2 q); [|lia].
    destruct (Zdigits2_bounds (Zpos m1)) as (Hd1 & B1 & _); [lia|].
    destruct (Zdigits2_bounds (Zpos m2)) as (Hd2 & _ & B2); [lia|]. fold d1 in B1, Hd1. fold d2 in B2, Hd2.
    apply (Zdigits2_ge q 52); [lia|].
    assert (2 ^ 52 * 2 ^ d2 <= m').
    { rewrite <- Z.pow_add_r by lia. unfold m', s in *. etransitivity; [|apply Z.mul_le_mono_nonneg_r; [lia|exact B1]].
      rewrite <- Z.pow_add_r by lia. apply Z.pow_le_mono_r; lia. }
    nia.
  - fold s. fold m'. unfold new_location, new_location_even, new_location_odd.
    destruct (Z.even (Zpos m2)); destruct (Z.eqb_spec r 0); simpl; split; (done || lia).
  - fold s. fold m'. lia.
Qed.

Lemma f_div_valid x y : f_valid x = true -> f_valid y = true -> f_valid (f_div x y) = true.
Proof.
  destruct x as [[]|[]| |sx mx ex], y as [[]|[]| |sy my ey]; try done; intros Hx Hy.
  unfold f_div, SFdiv. destruct (div_core_spec mx ex my ey) as (q & e & l & -> & Hq & He & _).
  by apply round_aux_valid.
Qed.

(** [nn x]: [x] is a canonical value that is zero or more, or positive infinity. *)
Definition nn (x : float64) : bool := f_valid x && f_nonneg x.

Definition f_pos (x : float64) : bool := f_finite x && f_ltb f_zero x.

Lemma scaled_nonneg b m e : 0 <= scaled b (Zpos m) e.
Proof. unfold scaled. apply Z.mul_nonneg_nonneg; [lia|apply Z.pow_nonneg; lia]. Qed.

Lemma nn_zero : nn f_zero = true.
Proof. done. Qed.

Lemma nn_add x y : nn x = true -> nn y = true -> nn (f_add x y) = true.
Proof.
  unfold nn. intros Hx Hy. apply andb_prop in Hx as [Vx Px], Hy as [Vy Py].
  rewrite f_add_valid by done. simpl.
  destruct x as [[]|[]| |[] mx ex], y as [[]|[]| |[] my ey]; try done.
  pose proof (f_add_rounds (S754_finite false mx ex) (S754_finite false my ey) Vx Vy) as Hr.
  apply (rounds_ge _ _ f_zero Hr eq_refl). rewrite !f_val_finite. change (f_val f_zero) with 0.
  pose proof (scaled_nonneg (-1074) mx ex). pose proof (scaled_nonneg (-1074) my ey). lia.
Qed.

Lemma nn_mul x y : f_pos x = true -> nn y = true -> nn (f_mul x y) = true.
Proof.
  unfold nn, f_pos. intros Hx Hy. apply andb_prop in Hx as [Vx Px], Hy as [Vy Py].
  assert (f_valid x = true) as Vx' by (by destruct x).
  rewrite f_mul_valid by done. simpl.
  destruct x as [[]|[]| |[] mx ex], y as [[]|[]| |[] my ey]; try done.
  apply round_aux_sign; [lia|]. by apply mul_exp_ok.
Qed.

Lemma nn_div x y : nn x = true -> f_pos y = true -> nn (f_div x y) = true.
Proof.
  unfold nn, f_pos. intros Hx Hy. apply andb_prop in Hx as [Vx Px], Hy as [Vy Py].
  assert (f_valid y = true) as Vy' by (by destruct y).
  rewrite f_div_valid by done. simpl.
  destruct x as [[]|[]| |[] mx ex], y as [[]|[]| |[] my ey]; try done.
  unfold f_div, SFdiv. destruct (div_core_spec mx ex my ey) as (q & e & l & -> & Hq & He & _).
  by apply round_aux_sign.
Qed.

Lemma nn_min x y : nn x = true -> nn y = true -> nn (f_min x y) = true.
Proof.
  intros Hx Hy. unfold f_min.
  destruct x as [[]|[]| |[] mx ex], y as [[]|[]| |[] my ey]; try done; break_match; done.
Qed.

Lemma nn_of_Z z : 0 <= z -> nn (f_of_Z z) = true.
Proof.
  intros Hz. unfold nn. rewrite f_of_Z_valid. unfold f_of_Z. destruct z as [|p|p]; [done| |lia].
  apply binary_round_nonneg.
Qed.

(** [float64(n)] of a positive [int] is positive and finite. *)
Lemma f_of_Z_pos z : 0 < z -> z <= int64_max -> f_pos (f_of_Z z) = true.
Proof.
  intros Hz Hmax. unfold f_pos. destruct z as [|p|p]; [lia| |lia].
  pose proof (f_of_Z_valid (Zpos p)) as Hv. unfold f_of_Z in *. simpl binary_normalize in *.
  pose proof (binary_round_le (-1074) p 0 4503599627370496 11 ltac:(lia) ltac:(lia) eq_refl) as Hle.
  pose proof (binary_round_ge (-1074) p 0 4503599627370496 (-52) ltac:(lia) ltac:(lia) eq_refl) as Hge.
  unfold int64_max in *.
  assert (Hle' : scaled (-1074) (Zpos p) 0 <= scaled (-1074) 4503599627370496 11).
  { replace (scaled (-1074) 4503599627370496 11) with (scaled (-1074) (2 ^ 63) 0) by (vm_compute; done).
    apply scaled_le; lia. }
  assert (Hge' : scaled (-1074) 4503599627370496 (-52) <= scaled (-1074) (Zpos p) 0).
  { replace (scaled (-1074) 4503599627370496 (-52)) with (scaled (-1074) 1 0) by (vm_compute; done).
    apply scaled_le; lia. }
  specialize (Hle Hle'). specialize (Hge Hge').
  destruct (binary_round prec emax false p 0) as [[]|[]| |[] m e]; try done.
  by apply andb_true_intro.
Qed.

Lemma nn_sum l : Forall (fun x => nn x = true) l -> nn (f_sum l) = true.
Proof.
  unfold f_sum. intros H. assert (nn f_zero = true) as Ha by done. revert Ha. generalize f_zero.
  induction H as [|x l Hx Hl IH]; intros a Ha; simpl; [done|]. apply IH. by apply nn_add.
Qed.

(** ** Scores: rounding [100 - cost] lands in [0, 100] *)

Definition to_score (cost : float64) : Z := f_to_int (f_round (f_max (f_sub (f_of_Z 100) cost) f_zero)).

Lemma f_to_int_small z : 0 <= z <= 100 -> f_to_int (f_of_sZ false z) = z.
Proof.
  intros Hz. assert (Forall (fun n => f_to_int (f_of_sZ false (Z.of_nat n)) = Z.of_nat n) (seq 0 101)) as H.
  { apply (bool_decide_unpack _). vm_compute. exact I. }
  rewrite Forall_forall in H. rewrite <- (Z2Nat.id z) by lia. apply H. apply elem_of_seq. lia.
Qed.

Lemma mag_round_bound m e k : e < 0 -> -1074 <= e -> Zpos m * 2 ^ (e + 1074) <= k * 2 ^ 1074 ->
  0 <= mag_round m e <= k.
Proof.
  intros He Hmin Hle. unfold mag_round. destruct (Z.leb_spec 0 e); [lia|].
  rewrite Z.shiftl_mul_pow2, Z.shiftr_div_pow2, Z.mul_1_l by lia.
  assert (Hm : Zpos m <= k * 2 ^ (- e)).
  { assert (2 ^ 1074 = 2 ^ (- e) * 2 ^ (e + 1074)) as H1074.
    { rewrite <- Z.pow_add_r by lia. f_equal. lia. }
    rewrite H1074, Z.mul_assoc in Hle.
    apply Z.mul_le_mono_pos_r in Hle; [done|]. apply Z.pow_pos_nonneg; lia. }
  assert (Hp : 2 ^ (- e) = 2 * 2 ^ (- e - 1)).
  { rewrite <- Z.pow_succ_r by lia. f_equal. lia. }
  assert (0 < 2 ^ (- e - 1)) by (apply Z.pow_pos_nonneg; lia).
  split; [apply Z.div_pos; lia|].
  apply Z.lt_succ_r, Z.div_lt_upper_bound; [lia|]. nia.
Qed.

Lemma round_range x : f_finite x = true -> f_nonneg x = true -> f_val x <= 100 * 2 ^ 1074 ->
  0 <= f_to_int (f_round x) <= 100.
Proof.
  destruct x as [s| | |[] m e]; try done; intros Hf _ Hle; simpl.
  pose proof (finite_exp _ _ _ Hf). unfold f_val in Hle. rewrite Z.mul_1_l in Hle.
  destruct (Z.leb_spec 0 e) as [He|He].
  - unfold f_to_int, mag_trunc. rewrite Z.shiftl_mul_pow2 by lia.
    replace (e + 1074) with (1074 + e) in Hle by lia. rewrite Z.pow_add_r in Hle by lia.
    assert (0 < 2 ^ e) by (apply Z.pow_pos_nonneg; lia).
    assert (0 <= Zpos m * 2 ^ e <= 100) as Hz by nia.
    change int64_min with (-9223372036854775808). change int64_max with 9223372036854775807.
    set (z := Zpos m * 2 ^ e) in *. clearbody z.
    destruct (Z.leb_spec (-9223372036854775808) z), (Z.leb_spec z 9223372036854775807); simpl; lia.
  - pose proof (mag_round_bound m e 100 He H Hle) as Hb. rewrite f_to_int_small; done.
Qed.

Lemma f_val_of_Z100 : f_val (f_of_Z 100) = 100 * 2 ^ 1074.
Proof. vm_compute. reflexivity. Qed.

Lemma f_leb_val x y : f_finite x = true -> f_finite y = true -> f_leb x y = true <-> f_val x <= f_val y.
Proof.
  intros Hx Hy. unfold f_leb, SFleb. rewrite f_compare_val by done.
  destruct (Z.compare_spec (f_val x) (f_val y)); split; (lia || done).
Qed.

Lemma nn_cases x : nn x = true -> x = S754_infinity false \/ (f_finite x = true /\ 0 <= f_val x).
Proof.
  unfold nn. intros H. apply andb_prop in H as [Hv Hp].
  destruct x as [s|[]| |[] m e]; try done; [by right|by left|]. right. split; [done|].
  rewrite f_val_finite. pose proof (scaled_nonneg (-1074) m e). lia.
Qed.

Lemma to_score_range cost : nn cost = true -> 0 <= to_score cost <= 100.
Proof.
  intros H. unfold to_score. destruct (nn_cases _ H) as [->|[Hf Hv]]; [vm_compute; split; done|].
  pose proof (f_sub_rounds (f_of_Z 100) cost eq_refl Hf) as Hr.
  assert (Hle : f_leb (f_sub (f_of_Z 100) cost) (f_of_Z 100) = true).
  { apply (rounds_le _ _ _ Hr); [done|lia]. }
  pose proof (f_sub_valid (f_of_Z 100) cost eq_refl ltac:(by destruct cost)) as Hvalid.
  set (d := f_sub (f_of_Z 100) cost) in *.
  destruct d as [[]|[]| |[] m e] eqn:Ed; try done.
  simpl f_max. apply round_range; [done|done|].
  rewrite <- f_val_of_Z100. apply f_leb_val; done.
Qed.

(** ** Sums of bounded costs, and the score they leave *)

Lemma f_val_small k : 0 <= k <= 100 -> f_finite (f_of_Z k) = true /\ f_val (f_of_Z k) = k * 2 ^ 1074.
Proof.
  intros Hk. assert (Forall (fun n => f_finite (f_of_Z (Z.of_nat n)) = true /\
    f_val (f_of_Z (Z.of_nat n)) = Z.of_nat n * 2 ^ 1074) (seq 0 101)) as H.
  { apply (bool_decide_unpack _). vm_compute. exact I. }
  rewrite Forall_forall in H. rewrite <- (Z2Nat.id k) by lia. apply H. apply elem_of_seq. lia.
Qed.

Lemma nn_leb_finite x y : nn x = true -> f_finite y = true -> f_leb x y = true -> f_finite x = true.
Proof. intros Hx Hy Hle. destruct (nn_cases _ Hx) as [->|[H _]]; [by destruct y as [[]|[]| |[] ? ?]|done]. Qed.

Lemma f_add_leb x y a b : nn x = true -> nn y = true -> 0 <= a -> 0 <= b -> a + b <= 100 ->
  f_leb x (f_of_Z a) = true -> f_leb y (f_of_Z b) = true -> f_leb (f_add x y) (f_of_Z (a + b)) = true.
Proof.
  intros Hx Hy Ha Hb Hab Hxa Hyb.
  destruct (f_val_small a) as [Fa Va], (f_val_small b) as [Fb Vb], (f_val_small (a + b)) as [Fs Vs]; try lia.
  pose proof (nn_leb_finite _ _ Hx Fa Hxa) as Fx. pose proof (nn_leb_finite _ _ Hy Fb Hyb) as Fy.
  apply (rounds_le _ _ _ (f_add_rounds _ _ Fx Fy) Fs).
  apply f_leb_val in Hxa, Hyb; try done. lia.
Qed.

Lemma f_min_leb_r x y : f_is_nan x = false -> f_finite y = true -> f_leb (f_min x y) y = true.
Proof.
  assert (Hr : forall z, f_finite z = true -> f_leb z z = true) by (intros; by apply f_leb_val).
  intros Hx Hy. unfold f_min.
  destruct x as [[]|[]| |sx mx ex], y as [[]|[]| |sy my ey]; try done;
    match goal with |- context [f_ltb ?a ?b] => destruct (f_ltb a b) eqn:E end; try (by apply Hr);
    unfold f_ltb, f_leb, SFltb, SFleb in *; repeat break_match_in E; done.
Qed.

Lemma f_max_zero_comm x : f_max f_zero x = f_max x f_zero.
Proof. destruct x as [[]|[]| |[] m e]; done. Qed.

Lemma mag_round_lower m e k : e < 0 -> -1074 <= e -> 0 <= k -> k * 2 ^ 1074 <= Zpos m * 2 ^ (e + 1074) ->
  k <= mag_round m e.
Proof.
  intros He Hmin Hk Hle. unfold mag_round. destruct (Z.leb_spec 0 e); [lia|].
  rewrite Z.shiftl_mul_pow2, Z.shiftr_div_pow2, Z.mul_1_l by lia.
  assert (Hm : k * 2 ^ (- e) <= Zpos m).
  { assert (2 ^ 1074 = 2 ^ (- e) * 2 ^ (e + 1074)) as H1074.
    { rewrite <- Z.pow_add_r by lia. f_equal. lia. }
    rewrite H1074, Z.mul_assoc in Hle.
    apply Z.mul_le_mono_pos_r in Hle; [done|]. apply Z.pow_pos_nonneg; lia. }
  assert (0 < 2 ^ (- e - 1)) by (apply Z.pow_pos_nonneg; lia).
  assert (0 < 2 ^ (- e)) by (apply Z.pow_pos_nonneg; lia).
  apply Z.div_le_lower_bound; lia.
Qed.

Lemma to_score_lower cost k : nn cost = true -> 0 < k <= 100 -> f_leb cost (f_of_Z (100 - k)) = true ->
  k <= to_score cost.
Proof.
  intros Hn Hk Hle. destruct (f_val_small (100 - k)) as [F1 V1]; [lia|].
  pose proof (nn_leb_finite _ _ Hn F1 Hle) as Hf. apply f_leb_val in Hle; [|done..].
  destruct (nn_cases _ Hn) as [->|[_ Hv]]; [done|].
  destruct (f_val_small k) as [Fk Vk]; [lia|].
  pose proof (f_sub_rounds (f_of_Z 100) cost eq_refl Hf) as Hr.
  assert (Hge : f_leb (f_of_Z k) (f_sub (f_of_Z 100) cost) = true).
  { apply (rounds_ge _ _ _ Hr Fk). rewrite f_val_of_Z100. lia. }
  assert (Hup : f_leb (f_sub (f_of_Z 100) cost) (f_of_Z 100) = true).
  { apply (rounds_le _ _ _ Hr); [done|lia]. }
  pose proof (f_sub_valid (f_of_Z 100) cost eq_refl ltac:(by destruct cost)) as Hvalid.
  unfold to_score. set (d := f_sub (f_of_Z 100) cost) in *. clearbody d.
  assert (Hd : f_finite d = true) by (destruct d as [[]|[]| |[] m e]; try done; by destruct (f_of_Z k) as [[]|[]| |[] ? ?]).
  apply f_leb_val in Hge, Hup; [|done..]. rewrite Vk in Hge. rewrite f_val_of_Z100 in Hup.
  destruct d as [s| | |[] m e]; try done; unfold f_val in Hge, Hup; try lia.
  rewrite Z.mul_1_l in Hge, Hup. pose proof (finite_exp _ _ _ Hd).
  change (f_max (S754_finite false m e) f_zero) with (S754_finite false m e). unfold f_round.
  destruct (Z.leb_spec 0 e) as [He|He].
  - unfold f_to_int, mag_trunc. rewrite Z.shiftl_mul_pow2 by lia.
    replace (e + 1074) with (1074 + e) in Hge, Hup by lia. rewrite Z.pow_add_r in Hge, Hup by lia.
    assert (0 < 2 ^ e) by (apply Z.pow_pos_nonneg; lia).
    assert (k <= Zpos m * 2 ^ e <= 100) as Hz by nia.
    change int64_min with (-9223372036854775808). change int64_max with 9223372036854775807.
    set (z := Zpos m * 2 ^ e) in *. clearbody z.
    destruct (Z.leb_spec (-9223372036854775808) z), (Z.leb_spec z 9223372036854775807); simpl; lia.
  - pose proof (mag_round_bound m e 100 He ltac:(lia) Hup) as Hb.
    rewrite f_to_int_small by done. apply mag_round_lower; lia.
Qed.
