(* ===== verification/Ratio.v ===== *)
(** * Correctly rounded quotients, compared with thresholds

    A share of a population is a quotient of two counts; every detector compares
    one with a decimal constant. These lemmas turn the float comparison into the
    integer one. *)

From Stdlib Require Import ZArith Lia Floats.SpecFloat.
From stdpp Require Import base list.
From S2P Require Import Prelude Float64.

Local Open Scope Z_scope.

(** The integer quotient of a division never crosses a representable bound. *)
Section Quotient.
Context (mx my N : positive) (ex ey f q e : Z) (exact : bool).
Hypothesis HN : bounded prec emax N f = true.
Hypothesis Hq : 0 <= q.
Hypothesis He : e <= fexp prec emax (Zdigits2 q + e).
Hypothesis Hd : e <= ex - ey.
Hypothesis Hl : exact = true <-> q * Zpos my = Zpos mx * 2 ^ (ex - ey - e).
Hypothesis Hm : q * Zpos my <= Zpos mx * 2 ^ (ex - ey - e) < (q + 1) * Zpos my.

Lemma quotient_normal : f < e -> Zpos N < q * 2 ^ (e - f).
Proof.
  intros Hlt. pose proof (bounded_lt53 _ _ HN) as HN53. pose proof (proj1 (bounded_spec _ _) HN) as Hb.
  rewrite fexp_eq in He. assert (53 <= Zdigits2 q) as H53 by lia.
  assert (0 < q) as Hq0 by (destruct (Z.eq_dec q 0) as [E|]; [rewrite E in H53; simpl in H53|]; lia).
  destruct (Zdigits2_bounds q Hq0) as (_ & B & _).
  assert (2 ^ 52 <= q) by (etransitivity; [|exact B]; apply Z.pow_le_mono_r; lia).
  assert (2 <= 2 ^ (e - f)) by (apply (Z.pow_le_mono_r 2 1); lia). nia.
Qed.

(** Both sides of the division, on a common base. *)
Lemma cross k : e <= f -> 0 <= k + ex -> 0 <= k + f + ey -> exists s t, 0 < s /\ 0 < t /\
  Zpos N * Zpos my * 2 ^ (k + f + ey) * s = Zpos N * 2 ^ (f - e) * Zpos my * t /\
  Zpos mx * 2 ^ (k + ex) * s = Zpos mx * 2 ^ (ex - ey - e) * t.
Proof.
  clear - Hd. intros Hef H1 H2. destruct (Z.le_gt_cases 0 (k + e + ey)) as [Hk|Hk].
  - exists 1, (2 ^ (k + e + ey)). split_all; [lia|apply Z.pow_pos_nonneg; lia| |].
    + replace (k + f + ey) with ((f - e) + (k + e + ey)) by lia. rewrite (Z.pow_add_r 2 (f - e)) by lia. ring.
    + replace (k + ex) with ((ex - ey - e) + (k + e + ey)) by lia. rewrite (Z.pow_add_r 2 (ex - ey - e)) by lia. ring.
  - exists (2 ^ (- (k + e + ey))), 1. split_all; [apply Z.pow_pos_nonneg; lia|lia| |].
    + replace (f - e) with ((k + f + ey) + (- (k + e + ey))) by lia.
      rewrite (Z.pow_add_r 2 (k + f + ey)) by lia. ring.
    + replace (ex - ey - e) with ((k + ex) + (- (k + e + ey))) by lia. rewrite (Z.pow_add_r _ (k + ex)) by lia. ring.
Qed.

Lemma cross_le k : e <= f -> 0 <= k + ex -> 0 <= k + f + ey ->
  (Zpos N * Zpos my * 2 ^ (k + f + ey) <= Zpos mx * 2 ^ (k + ex) <->
   Zpos N * 2 ^ (f - e) * Zpos my <= Zpos mx * 2 ^ (ex - ey - e)) /\
  (Zpos mx * 2 ^ (k + ex) <= Zpos N * Zpos my * 2 ^ (k + f + ey) <->
   Zpos mx * 2 ^ (ex - ey - e) <= Zpos N * 2 ^ (f - e) * Zpos my).
Proof.
  intros Hef H1 H2. destruct (cross k Hef H1 H2) as (s & t & Hs & Ht & E1 & E2).
  rewrite (Z.mul_le_mono_pos_r _ _ s Hs), (Z.mul_le_mono_pos_r (Zpos mx * _) _ s Hs), E1, E2.
  rewrite <- !Z.mul_le_mono_pos_r by done. done.
Qed.

Lemma quotient_ge b k : b <= e -> b <= f -> 0 <= k + ex -> 0 <= k + f + ey ->
  Zpos N * Zpos my * 2 ^ (k + f + ey) <= Zpos mx * 2 ^ (k + ex) ->
  scaled b (Zpos N) f <= scaled b q e.
Proof.
  intros Hbe Hbf H1 H2 H. destruct (Z.le_gt_cases e f) as [Hef|Hef].
  - apply cross_le in H; [|lia..]. replace f with (e + (f - e)) by lia. rewrite scaled_shift, scaled_le by lia. nia.
  - pose proof (quotient_normal Hef). replace e with (f + (e - f)) by lia. rewrite scaled_shift, scaled_le by lia. lia.
Qed.

Lemma quotient_le b k : b <= e -> b <= f -> 0 <= k + ex -> 0 <= k + f + ey ->
  Zpos mx * 2 ^ (k + ex) <= Zpos N * Zpos my * 2 ^ (k + f + ey) ->
  scaled b (if exact then q else q + 1) e <= scaled b (Zpos N) f.
Proof.
  intros Hbe Hbf H1 H2 H. destruct (Z.le_gt_cases e f) as [Hef|Hef].
  - apply cross_le in H as Hc; [|lia..].
    replace f with (e + (f - e)) by lia. rewrite scaled_shift, scaled_le by lia.
    destruct exact; [assert (q * Zpos my = Zpos mx * 2 ^ (ex - ey - e)) by (by apply Hl); nia|].
    assert (q * Zpos my <> Zpos mx * 2 ^ (ex - ey - e)) by (intros E; by apply Hl in E). nia.
  - exfalso. pose proof (quotient_normal Hef) as HNq.
    assert (0 < 2 ^ (k + f + ey)) by (apply Z.pow_pos_nonneg; lia).
    assert (Zpos N * Zpos my * 2 ^ (k + f + ey) < q * Zpos my * 2 ^ (k + e + ey)) as Hlt.
    { replace (k + e + ey) with ((e - f) + (k + f + ey)) by lia. rewrite (Z.pow_add_r 2 (e - f)) by lia.
      set (T := 2 ^ (k + f + ey)) in *. set (S := 2 ^ (e - f)) in *.
      replace (q * Zpos my * (S * T)) with (q * S * (Zpos my * T)) by ring. rewrite <- Z.mul_assoc.
      apply Z.mul_lt_mono_pos_r; lia. }
    assert (q * Zpos my * 2 ^ (k + e + ey) <= Zpos mx * 2 ^ (k + ex)); [|lia].
    replace (k + ex) with ((ex - ey - e) + (k + e + ey)) by lia. rewrite (Z.pow_add_r 2 (ex - ey - e)) by lia.
    rewrite Z.mul_assoc. apply Z.mul_le_mono_nonneg_r; [apply Z.pow_nonneg; lia|lia].
Qed.
End Quotient.

(** ** Comparing a quotient with a representable bound *)

Lemma f_div_ge x y c : f_finite x = true -> f_finite y = true -> f_finite c = true ->
  0 < f_val x -> 0 < f_val y -> 0 < f_val c ->
  f_val c * f_val y <= f_val x * 2 ^ 1074 -> f_leb c (f_div x y) = true.
Proof.
  destruct x as [| | |[] mx ex], y as [| | |[] my ey], c as [| | |[] N f]; try done; intros Fx Fy Fc Px Py Pc H;
    try (unfold f_val in *; lia).
  unfold f_div, SFdiv. destruct (div_core_spec mx ex my ey) as (q & e & l & -> & Hq & He & Hd & Hl & Hm).
  pose proof (finite_exp _ _ _ Fx). pose proof (finite_exp _ _ _ Fy). pose proof (finite_exp _ _ _ Fc).
  cbn [xorb]. apply (round_aux_ge (Z.min e f)); try done; try lia.
  apply (quotient_ge mx my N ex ey f q e) with (k := 2148); try done; try lia.
  unfold f_val in H. rewrite !Z.mul_1_l in H.
  replace (2148 + f + ey) with ((f + 1074) + (ey + 1074)) by lia. replace (2148 + ex) with ((ex + 1074) + 1074) by lia.
  rewrite (Z.pow_add_r 2 (f + 1074)), (Z.pow_add_r 2 (ex + 1074)) by lia. lia.
Qed.

Lemma f_div_le x y c : f_finite x = true -> f_finite y = true -> f_finite c = true ->
  0 < f_val x -> 0 < f_val y -> 0 < f_val c ->
  f_val x * 2 ^ 1074 <= f_val c * f_val y -> f_leb (f_div x y) c = true.
Proof.
  destruct x as [| | |[] mx ex], y as [| | |[] my ey], c as [| | |[] N f]; try done; intros Fx Fy Fc Px Py Pc H;
    try (unfold f_val in *; lia).
  unfold f_div, SFdiv. destruct (div_core_spec mx ex my ey) as (q & e & l & -> & Hq & He & Hd & Hl & Hm).
  pose proof (finite_exp _ _ _ Fx). pose proof (finite_exp _ _ _ Fy). pose proof (finite_exp _ _ _ Fc).
  cbn [xorb]. apply (round_aux_le (Z.min e f)); try done; try lia.
  apply (quotient_le mx my N ex ey f q e) with (k := 2148); try done; try lia.
  unfold f_val in H. rewrite !Z.mul_1_l in H.
  replace (2148 + f + ey) with ((f + 1074) + (ey + 1074)) by lia. replace (2148 + ex) with ((ex + 1074) + 1074) by lia.
  rewrite (Z.pow_add_r 2 (f + 1074)), (Z.pow_add_r 2 (ex + 1074)) by lia. lia.
Qed.

(** ** Counts are exact, and shares compare as fractions *)

Lemma f_of_Z_exact n : 0 < n <= 2 ^ 53 -> f_finite (f_of_Z n) = true /\ f_val (f_of_Z n) = n * 2 ^ 1074.
Proof.
  intros Hn. assert (Hfin : f_finite (f_of_Z n) = true).
  { pose proof (f_of_Z_pos n ltac:(lia) ltac:(unfold int64_max; lia)) as H.
    unfold f_pos in H. by apply andb_prop in H as [H _]. }
  split; [done|].
  assert (Hr : rounds (n * 2 ^ 1074) (f_of_Z n)).
  { right. exists n, 0. split_all; [lia|reflexivity|reflexivity]. }
  assert (Hy : exists y, f_finite y = true /\ f_val y = n * 2 ^ 1074).
  { destruct (Z.eq_dec n (2 ^ 53)) as [->|Hne].
    - exists (S754_finite false 4503599627370496 1). split; [done|]. unfold f_val.
      rewrite Z.mul_1_l, Z.pow_add_r by lia. change (2 ^ 53) with (4503599627370496 * 2). rewrite <- Z.mul_assoc. f_equal.
    - destruct (Zdigits2_bounds n ltac:(lia)) as (Hd & B1 & B2). set (d := Zdigits2 n) in *.
      assert (Hd53 : d <= 53).
      { destruct (Z.le_gt_cases d 53); [done|]. assert (2 ^ 53 <= 2 ^ (d - 1)) by (apply Z.pow_le_mono_r; lia). lia. }
      assert (Hpow : 0 < 2 ^ (53 - d)) by (apply Z.pow_pos_nonneg; lia).
      assert (Hm : exists m, Zpos m = n * 2 ^ (53 - d)).
      { destruct (n * 2 ^ (53 - d)) as [|m|m] eqn:E; [nia|by exists m|nia]. }
      destruct Hm as [m Hm]. exists (S754_finite false m (d - 53)). split.
      + apply bounded_spec. replace (Zpos (digits2_pos m)) with 53; [lia|]. symmetry.
        change (Zpos (digits2_pos m)) with (Zdigits2 (Zpos m)). apply Zdigits2_unique; [lia|]. rewrite Hm.
        replace (2 ^ (53 - 1)) with (2 ^ (d - 1) * 2 ^ (53 - d)) by (rewrite <- Z.pow_add_r by lia; f_equal; lia).
        replace (2 ^ 53) with (2 ^ d * 2 ^ (53 - d)) by (rewrite <- Z.pow_add_r by lia; f_equal; lia). nia.
      + unfold f_val. rewrite Z.mul_1_l, Hm, <- Z.mul_assoc, <- Z.pow_add_r by lia. do 2 f_equal. lia. }
  destruct Hy as (y & Fy & Vy).
  pose proof (rounds_le _ _ _ Hr Fy ltac:(lia)) as H1. pose proof (rounds_ge _ _ _ Hr Fy ltac:(lia)) as H2.
  apply f_leb_val in H1, H2; try done. lia.
Qed.

(** [float64(k) / float64(n)] of two counts. *)
Definition share_of (k n : nat) : float64 := f_div (f_of_Z (Z.of_nat k)) (f_of_Z (Z.of_nat n)).

Lemma f_ltb_leb x y : f_is_nan x = false -> f_is_nan y = false -> f_ltb x y = negb (f_leb y x).
Proof.
  destruct x as [[]|[]| |[] mx ex], y as [[]|[]| |[] my ey]; try done; intros _ _; unfold f_ltb, f_leb, SFltb, SFleb;
    cbn [SFcompare]; rewrite (Z.compare_antisym ex ey); destruct (Z.compare ex ey); try done; simpl;
    change (Pos.compare_cont Eq ?a ?b) with (Pos.compare a b);
    rewrite (Pos.compare_antisym mx my); by destruct (Pos.compare mx my).
Qed.

Lemma share_nn k n : (0 < n)%nat -> Z.of_nat n <= int64_max -> nn (share_of k n) = true.
Proof. intros. apply nn_div; [apply nn_of_Z; lia|apply f_of_Z_pos; lia]. Qed.

(** The constant [c], just below [a / b], separates the shares exactly as [a / b]
    does, as long as no share of a population of at most [N] falls between [c]'s
    predecessor [p] and [a / b]. *)
Lemma share_threshold c p a b N k n :
  f_finite c = true -> f_finite p = true -> 0 < f_val p < f_val c -> 0 < b ->
  f_val c * b <= a * 2 ^ 1074 -> (a * 2 ^ 1074 - f_val p * b) * N <= 2 ^ 1074 ->
  0 < Z.of_nat n <= N -> N <= 2 ^ 53 -> (k <= n)%nat ->
  f_ltb (share_of k n) c = true <-> b * Z.of_nat k < a * Z.of_nat n.
Proof.
  intros Fc Fp Hpc Hb Hca Hgap Hn HN Hk.
  assert (H1074 : 0 < 2 ^ 1074) by (apply Z.pow_pos_nonneg; lia).
  assert (Ha : 0 < a).
  { set (P := 2 ^ 1074) in *. clearbody P. set (C := f_val c) in *. clearbody C. nia. }
  pose proof (share_nn k n ltac:(lia) ltac:(unfold int64_max; lia)) as Hnn.
  assert (Hnan : f_is_nan (share_of k n) = false) by (by destruct (share_of k n)).
  rewrite f_ltb_leb by (by destruct c). rewrite negb_true_iff.
  destruct (f_of_Z_exact (Z.of_nat n) ltac:(lia)) as [Fn Vn].
  destruct k as [|k'] eqn:Ek.
  { split; [intros _; simpl; nia|intros _]. unfold share_of. simpl (f_of_Z (Z.of_nat 0)).
    assert (Hz : f_div (S754_zero false) (f_of_Z (Z.of_nat n)) = f_zero).
    { destruct (f_of_Z (Z.of_nat n)) as [s|s| |s m e]; try done; [unfold f_val in Vn; lia|].
      destruct s; [|done]. unfold f_val in Vn. pose proof (Z.pow_nonneg 2 (e + 1074)). nia. }
    change (f_of_Z (Z.of_nat 0)) with (S754_zero false). rewrite Hz.
    destruct (f_leb c f_zero) eqn:E; [|done]. apply f_leb_val in E; [|done..]. change (f_val f_zero) with 0 in E. lia. }
  rewrite <- Ek in *. assert (0 < Z.of_nat k) by lia. clear Ek.
  destruct (f_of_Z_exact (Z.of_nat k) ltac:(lia)) as [Fk Vk].
  split.
  - intros Hlt. destruct (Z.lt_ge_cases (b * Z.of_nat k) (a * Z.of_nat n)) as [|Hge]; [done|exfalso].
    enough (f_leb c (share_of k n) = true) by congruence.
    set (P := 2 ^ 1074) in *. set (C := f_val c) in *.
    apply f_div_ge; fold P C; rewrite ?Vk, ?Vn; try done; try nia.
  - intros Hlt. destruct (f_leb c (share_of k n)) eqn:E; [exfalso|done].
    assert (Hp : f_leb (share_of k n) p = true).
    { set (P := 2 ^ 1074) in *. set (Q := f_val p) in *.
      assert (Hpos : 0 < Z.of_nat k * P /\ 0 < Z.of_nat n * P) by (clear - H H1074 Hn; nia).
      assert (Hmain : Z.of_nat k * P * P <= Q * (Z.of_nat n * P)).
      { clear - Hgap Hn Hlt H1074 Hb. clearbody P Q.
        assert ((a * P - Q * b) * Z.of_nat n <= P) by (destruct (Z.le_gt_cases 0 (a * P - Q * b)); nia).
        assert (b * Z.of_nat k * P <= (a * Z.of_nat n - 1) * P) by nia.
        assert (b * (Z.of_nat k * P) <= b * (Q * Z.of_nat n)) as Hbq by nia.
        apply Z.mul_le_mono_pos_l in Hbq; [|done]. nia. }
      apply f_div_le; fold P Q; rewrite ?Vk, ?Vn; try done; lia. }
    assert (Fs : f_finite (share_of k n) = true) by (by apply (nn_leb_finite _ p)).
    apply f_leb_val in E; [|done..]. apply f_leb_val in Hp; [|done..]. lia.
Qed.

(** The side conditions as one computation. *)
Definition threshold_ok (c p : float64) (a b N : Z) : bool :=
  f_finite c && f_finite p && (0 <? f_val p) && (f_val p <? f_val c) && (0 <? b) &&
  (f_val c * b <=? a * 2 ^ 1074) && ((a * 2 ^ 1074 - f_val p * b) * N <=? 2 ^ 1074) && (N <=? 2 ^ 53).

Lemma share_below c p a b N k n : threshold_ok c p a b N = true -> 0 < Z.of_nat n <= N -> (k <= n)%nat ->
  f_ltb (share_of k n) c = true <-> b * Z.of_nat k < a * Z.of_nat n.
Proof.
  intros H Hn Hk. unfold threshold_ok in H. repeat apply andb_prop in H as [H ?].
  repeat match goal with E : (_ <? _) = true |- _ => apply Z.ltb_lt in E | E : (_ <=? _) = true |- _ => apply Z.leb_le in E end.
  apply (share_threshold c p a b N); assumption || (split; assumption).
Qed.

(** ** Comparing a product with a representable bound *)

Lemma f_mul_ge x y c : f_finite x = true -> f_finite y = true -> f_finite c = true ->
  0 < f_val x -> 0 < f_val y -> 0 < f_val c ->
  f_val c * 2 ^ 1074 <= f_val x * f_val y -> f_leb c (f_mul x y) = true.
Proof.
  destruct x as [| | |[] mx ex], y as [| | |[] my ey], c as [| | |[] N f]; try done; intros Fx Fy Fc Px Py Pc H;
    try (unfold f_val in *; lia).
  pose proof (finite_exp _ _ _ Fx). pose proof (finite_exp _ _ _ Fy). pose proof (finite_exp _ _ _ Fc).
  change (f_mul (S754_finite false mx ex) (S754_finite false my ey)) with
    (binary_round_aux prec emax false (Zpos (mx * my)) (ex + ey) loc_Exact).
  apply (round_aux_ge (-2148)); try done; try lia; [by apply mul_exp_ok|].
  unfold f_val in H. rewrite !Z.mul_1_l in H. unfold scaled.
  replace (f - -2148) with ((f + 1074) + 1074) by lia. replace (ex + ey - -2148) with ((ex + 1074) + (ey + 1074)) by lia.
  rewrite (Z.pow_add_r 2 (f + 1074)), (Z.pow_add_r 2 (ex + 1074)) by lia. lia.
Qed.

Lemma f_mul_le x y c : f_finite x = true -> f_finite y = true -> f_finite c = true ->
  0 < f_val x -> 0 < f_val y -> 0 < f_val c ->
  f_val x * f_val y <= f_val c * 2 ^ 1074 -> f_leb (f_mul x y) c = true.
Proof.
  destruct x as [| | |[] mx ex], y as [| | |[] my ey], c as [| | |[] N f]; try done; intros Fx Fy Fc Px Py Pc H;
    try (unfold f_val in *; lia).
  pose proof (finite_exp _ _ _ Fx). pose proof (finite_exp _ _ _ Fy). pose proof (finite_exp _ _ _ Fc).
  change (f_mul (S754_finite false mx ex) (S754_finite false my ey)) with
    (binary_round_aux prec emax false (Zpos (mx * my)) (ex + ey) loc_Exact).
  apply (round_aux_le (-2148)); try done; try lia; [by apply mul_exp_ok|].
  unfold f_val in H. rewrite !Z.mul_1_l in H. unfold scaled. cbn [loc_exact].
  replace (f - -2148) with ((f + 1074) + 1074) by lia. replace (ex + ey - -2148) with ((ex + 1074) + (ey + 1074)) by lia.
  rewrite (Z.pow_add_r 2 (f + 1074)), (Z.pow_add_r 2 (ex + 1074)) by lia. lia.
Qed.

Lemma nn_mul_r x y : nn x = true -> f_pos y = true -> nn (f_mul x y) = true.
Proof.
  unfold nn, f_pos. intros Hx Hy. apply andb_prop in Hx as [Vx Px], Hy as [Vy Py].
  assert (f_valid y = true) as Vy' by (by destruct y).
  rewrite f_mul_valid by done. simpl.
  destruct x as [[]|[]| |[] mx ex], y as [[]|[]| |[] my ey]; try done.
  apply round_aux_sign; [lia|]. by apply mul_exp_ok.
Qed.

(** A count up to [2^53] converts to a float and back. *)
Lemma f_of_Z_parts z : 0 < z <= 2 ^ 53 ->
  exists m e, f_of_Z z = S754_finite false m e /\ mag_trunc m e = z /\ mag_exact m e = true.
Proof.
  intros Hz.
  destruct (f_of_Z_exact z) as [Hf Hv]; [lia|].
  destruct (f_of_Z z) as [s|s| |s m e] eqn:E; try done; [unfold f_val in Hv; lia|].
  rewrite f_val_finite in Hv. unfold scaled in Hv. replace (e - -1074) with (e + 1074) in Hv by lia.
  pose proof (finite_exp _ _ _ Hf) as He. pose proof (Z.pow_pos_nonneg 2 (e + 1074) ltac:(lia) ltac:(lia)) as Hp.
  pose proof (Z.pow_pos_nonneg 2 1074 ltac:(lia) ltac:(lia)) as H1074.
  destruct s; [exfalso; set (P := (2 ^ 1074)) in *; clearbody P; nia|]. rewrite Z.mul_1_l in Hv.
  assert (mag_trunc m e = z /\ mag_exact m e = true) as [Ht Hx].
  { unfold mag_exact, mag_trunc. destruct (Z.le_gt_cases 0 e) as [Hpos|Hneg].
    - assert (Z.shiftl (Zpos m) e = z) as ->.
      { rewrite Z.shiftl_mul_pow2 by done. rewrite Z.pow_add_r in Hv by lia. nia. }
      split; [done|]. apply Z.eqb_eq. rewrite Z.shiftl_div_pow2 by lia. rewrite Z.opp_involutive.
      rewrite Z.pow_add_r in Hv by lia. symmetry. apply Z.div_unique_exact; [apply Z.pow_nonzero; lia|nia].
    - assert (Zpos m = z * 2 ^ (- e)) as Hm.
      { replace 1074 with ((e + 1074) + (- e)) in Hv at 2 by lia. rewrite (Z.pow_add_r 2 (e + 1074)) in Hv by lia. nia. }
      assert (Z.shiftl (Zpos m) e = z) as ->.
      { rewrite Z.shiftl_div_pow2 by lia. symmetry. apply Z.div_unique_exact; [apply Z.pow_nonzero; lia|].
        rewrite Hm. lia. }
      split; [done|]. apply Z.eqb_eq. rewrite Z.shiftl_mul_pow2 by lia. by rewrite Hm. }
  by exists m, e.
Qed.

Lemma f_to_int_of_Z z : 0 <= z <= 2 ^ 53 -> f_to_int (f_of_Z z) = z.
Proof.
  intros Hz. destruct (Z.eq_dec z 0) as [->|Hnz]; [reflexivity|].
  destruct (f_of_Z_parts z) as (m & e & -> & Ht & _); [lia|]. cbn [f_to_int]. rewrite Ht.
  replace ((int64_min <=? z) && (z <=? int64_max)) with true; [done|]. symmetry.
  apply andb_true_iff. unfold int64_min, int64_max. split; apply Z.leb_le; lia.
Qed.

(** Negative integers convert to the opposite value. *)
Lemma f_of_Z_neg p : f_of_Z (Zneg p) = SFopp (f_of_Z (Zpos p)).
Proof.
  unfold f_of_Z, binary_normalize, binary_round. destruct (shl_align p 0 _) as [mz ez].
  unfold binary_round_aux. destruct (shr_fexp prec emax (Zpos mz) ez loc_Exact) as [m1 e1].
  destruct (shr_fexp prec emax (round_nearest_even (shr_m m1) (loc_of_shr_record m1)) e1 loc_Exact) as [m2 e2].
  destruct (shr_m m2); try done. by destruct (e2 <=? emax - prec).
Qed.

Lemma f_to_int_of_int z : - 2 ^ 53 <= z <= 2 ^ 53 -> f_to_int (f_of_Z z) = z.
Proof.
  intros Hz. destruct z as [|p|p]; [reflexivity|apply f_to_int_of_Z; lia|].
  rewrite f_of_Z_neg. destruct (f_of_Z_parts (Zpos p)) as (m & e & -> & Ht & _); [lia|]. cbn [SFopp f_to_int negb]. rewrite Ht.
  replace ((int64_min <=? - Zpos p) && (- Zpos p <=? int64_max)) with true; [done|]. symmetry.
  apply andb_true_iff. unfold int64_min, int64_max. split; apply Z.leb_le; lia.
Qed.

(** ** Counts as float64: the arithmetic that does not round

    A non-negative integer up to [2^53] is a float64, and so sums, products and exact
    quotients that stay below the bound are the integers'. *)

Definition exact (z : Z) : Prop := 0 <= z <= 2 ^ 53.

Lemma pow1074_pos : 0 < 2 ^ 1074.
Proof. apply Z.pow_pos_nonneg; lia. Qed.

Lemma exact_finite z : exact z -> f_finite (f_of_Z z) = true /\ f_val (f_of_Z z) = z * 2 ^ 1074.
Proof.
  intros Hz. destruct (Z.eq_dec z 0) as [->|Hnz]; [done|]. apply f_of_Z_exact. unfold exact in *. lia.
Qed.

Lemma exact_nn z : exact z -> nn (f_of_Z z) = true.
Proof. intros Hz. apply nn_of_Z. unfold exact in Hz. lia. Qed.

(** It is positive zero or a positive value. *)
Lemma exact_shape z : exact z -> f_of_Z z = f_zero \/ exists m e, f_of_Z z = S754_finite false m e.
Proof.
  intros Hz. destruct (Z.eq_dec z 0) as [->|Hnz]; [by left|]. right.
  destruct (f_of_Z_parts z) as (m & e & H & _); [unfold exact in *; lia|]. by exists m, e.
Qed.

(** A positive value determines its representation. *)
Lemma f_val_inj x y : f_finite x = true -> f_finite y = true -> 0 < f_val x -> f_val x = f_val y -> x = y.
Proof.
  intros Fx Fy Hpos Heq. pose proof (f_compare_val x y Fx Fy) as Hc. rewrite Heq, Z.compare_refl in Hc.
  destruct x as [| | |[] mx ex], y as [| | |[] my ey]; try done; try (unfold f_val in *; lia).
  cbn [SFcompare] in Hc. destruct (Z.compare_spec ex ey) as [->|?|?]; try done.
  injection Hc as Hc. change (Pos.compare mx my = Eq) in Hc. apply Pos.compare_eq in Hc. by subst.
Qed.

(** A value between two equal bounds. *)
Lemma squeeze x z : 0 < z -> exact z -> f_leb x (f_of_Z z) = true -> f_leb (f_of_Z z) x = true -> x = f_of_Z z.
Proof.
  intros Hpos Hz H1 H2. destruct (exact_finite z Hz) as [Fz Vz]. pose proof pow1074_pos as HP.
  assert (f_finite x = true \/ x = f_of_Z z) as [Fx| ->]; [|apply f_val_inj; try done|done].
  - destruct (f_of_Z z) as [s|s| |s m e] eqn:E; try done; [unfold f_val in Vz; lia|].
    destruct x as [?|[]| |sx mx ex]; try (by left || done).
    destruct s; [unfold f_val in Vz; nia|]. destruct sx; [by destruct (f_leb _ _)|].
    right. unfold f_leb, SFleb in H1, H2. cbn [SFcompare] in H1, H2. rewrite (Z.compare_antisym ex e) in H2.
    destruct (Z.compare_spec ex e) as [->|?|?]; try done. simpl in H2.
    change (Pos.compare_cont Eq ?a ?b) with (Pos.compare a b) in *. rewrite (Pos.compare_antisym mx m) in H2.
    destruct (Pos.compare_spec mx m) as [->|?|?]; done.
  - apply f_leb_val in H1, H2; try done. rewrite Vz in *. nia.
  - apply f_leb_val in H1, H2; try done. lia.
Qed.

Lemma exact_add a b : 0 <= a -> 0 <= b -> exact (a + b) -> f_add (f_of_Z a) (f_of_Z b) = f_of_Z (a + b).
Proof.
  intros Ha Hb Hs. destruct (Z.eq_dec (a + b) 0) as [E|E].
  { assert (a = 0 /\ b = 0) as [-> ->] by lia. reflexivity. }
  destruct (exact_finite a) as [Fa Va]; [unfold exact in *; lia|].
  destruct (exact_finite b) as [Fb Vb]; [unfold exact in *; lia|].
  destruct (exact_finite _ Hs) as [Fs Vs]. pose proof (f_add_rounds _ _ Fa Fb) as Hr.
  apply squeeze; [lia|done| |].
  - apply (rounds_le _ _ _ Hr Fs). rewrite Va, Vb, Vs. lia.
  - apply (rounds_ge _ _ _ Hr Fs). rewrite Va, Vb, Vs. lia.
Qed.

Lemma exact_mul a b : exact a -> exact b -> exact (a * b) -> f_mul (f_of_Z a) (f_of_Z b) = f_of_Z (a * b).
Proof.
  intros Ha Hb Hp. destruct (exact_finite a Ha) as [Fa Va], (exact_finite b Hb) as [Fb Vb], (exact_finite _ Hp) as [Fp Vp].
  destruct (Z.eq_dec a 0) as [->|Na].
  { simpl Z.mul. by destruct (exact_shape b Hb) as [->|(m & e & ->)]. }
  destruct (Z.eq_dec b 0) as [->|Nb].
  { rewrite Z.mul_0_r. by destruct (exact_shape a Ha) as [->|(m & e & ->)]. }
  unfold exact in *. pose proof pow1074_pos as HP.
  apply squeeze; [nia|done|apply f_mul_le|apply f_mul_ge]; try done; rewrite ?Va, ?Vb, ?Vp;
    set (P := 2 ^ 1074) in *; clearbody P; nia.
Qed.

Lemma exact_div a n : exact a -> exact n -> exact (a * n) -> 0 < n -> f_div (f_of_Z (a * n)) (f_of_Z n) = f_of_Z a.
Proof.
  intros Ha Hn Hp Hpos.
  destruct (exact_finite a Ha) as [Fa Va], (exact_finite n Hn) as [Fn Vn], (exact_finite _ Hp) as [Fp Vp].
  pose proof pow1074_pos as HP. destruct (Z.eq_dec a 0) as [->|Na].
  { simpl Z.mul. destruct (exact_shape n Hn) as [Hz|(m & e & ->)]; [|done].
    rewrite Hz in Vn. change (f_val f_zero) with 0 in Vn. nia. }
  unfold exact in *.
  apply squeeze; [lia|done|apply f_div_le|apply f_div_ge]; try done; rewrite ?Va, ?Vn, ?Vp;
    set (P := 2 ^ 1074) in *; clearbody P; nia.
Qed.

(** [x - x] is positive zero. *)
Lemma f_sub_self x : f_finite x = true -> f_sub x x = f_zero.
Proof.
  destruct x as [[]|[]| |s m e]; try done. intros _. unfold f_sub, SFsub. rewrite Z.min_id.
  unfold shl_align. rewrite Z.sub_diag. reflexivity.
Qed.

(** The sum of integers in a loop. *)
Lemma exact_sum_from (l : list Z) acc : Forall (fun z => 0 <= z) l -> 0 <= acc ->
  exact (fold_left Z.add l acc) -> fold_left f_add (map f_of_Z l) (f_of_Z acc) = f_of_Z (fold_left Z.add l acc).
Proof.
  revert acc. induction l as [|z l IH]; intros acc Hl Hacc Hs; [done|]. apply Forall_cons in Hl as [Hz Hl].
  simpl in *. rewrite exact_add; [apply IH; [done|lia|done]|lia|lia|].
  assert (acc + z <= fold_left Z.add l (acc + z)) as Hle.
  { clear -Hl. generalize (acc + z). induction l as [|y l IH]; intros b; simpl; [lia|].
    apply Forall_cons in Hl as [Hy Hl]. specialize (IH Hl (b + y)). lia. }
  unfold exact in *. lia.
Qed.

Lemma exact_sum (l : list Z) : Forall (fun z => 0 <= z) l -> exact (fold_left Z.add l 0) ->
  f_sum (map f_of_Z l) = f_of_Z (fold_left Z.add l 0).
Proof. intros Hl Hs. exact (exact_sum_from l 0 Hl ltac:(lia) Hs). Qed.

Lemma exact_sub a b : exact a -> 0 <= b <= a -> f_sub (f_of_Z a) (f_of_Z b) = f_of_Z (a - b).
Proof.
  intros Ha Hb. destruct (exact_finite a Ha) as [Fa Va].
  destruct (Z.eq_dec a b) as [->|Hne]; [rewrite Z.sub_diag; by apply f_sub_self|].
  assert (exact b /\ exact (a - b)) as [Eb Es] by (unfold exact in *; lia).
  destruct (exact_finite b Eb) as [Fb Vb], (exact_finite _ Es) as [Fs Vs].
  pose proof (f_sub_rounds _ _ Fa Fb) as Hr.
  apply squeeze; [lia|done| |].
  - apply (rounds_le _ _ _ Hr Fs). rewrite Va, Vb, Vs. lia.
  - apply (rounds_ge _ _ _ Hr Fs). rewrite Va, Vb, Vs. lia.
Qed.

(** A quotient of a count by a positive count is finite. *)
Lemma exact_ratio_finite a n : exact a -> exact n -> 0 < n -> f_finite (f_div (f_of_Z a) (f_of_Z n)) = true.
Proof.
  intros Ha Hn Hpos. destruct (exact_finite a Ha) as [Fa Va], (exact_finite n Hn) as [Fn Vn]. pose proof pow1074_pos as HP.
  destruct (Z.eq_dec a 0) as [->|Na].
  { change (f_of_Z 0) with (S754_zero false). destruct (exact_shape n Hn) as [Hz|(m & e & ->)]; [|done].
    rewrite Hz in Vn. change (f_val f_zero) with 0 in Vn. nia. }
  unfold exact in *. assert (0 < f_val (f_of_Z a) /\ 0 < f_val (f_of_Z n)) as [Pa Pn] by (split; rewrite ?Va, ?Vn; nia).
  apply (nn_leb_finite _ (f_of_Z a)); [|done|].
  - apply nn_div; [by apply exact_nn|]. apply f_of_Z_pos; [done|unfold int64_max; lia].
  - apply f_div_le; try done. rewrite Va, Vn. set (P := 2 ^ 1074) in *. clearbody P. nia.
Qed.

(** A square of a count is finite. *)
Lemma exact_square_finite a : exact a -> f_finite (f_mul (f_of_Z a) (f_of_Z a)) = true.
Proof.
  intros Ha. destruct (exact_finite a Ha) as [Fa Va]. destruct (Z.eq_dec a 0) as [->|Na]; [reflexivity|].
  pose proof pow1074_pos as HP. unfold exact in *.
  assert (0 < f_val (f_of_Z a)) by (rewrite Va; nia).
  assert (f_finite (S754_finite false 4503599627370496 54) = true) as Fb by reflexivity.
  assert (f_val (S754_finite false 4503599627370496 54) = 2 ^ 106 * 2 ^ 1074) as Vb.
  { unfold f_val. rewrite Z.mul_1_l, (Z.pow_add_r 2 54 1074) by lia. change (2 ^ 106) with (4503599627370496 * 2 ^ 54). lia. }
  apply (nn_leb_finite _ (S754_finite false 4503599627370496 54)); [|done|].
  - apply nn_mul; [|by apply exact_nn]. apply f_of_Z_pos; [lia|unfold int64_max; lia].
  - apply f_mul_le; try done. rewrite Vb, Va.
    assert (a * a <= 2 ^ 106) by (change (2 ^ 106) with (2 ^ 53 * 2 ^ 53); nia).
    set (P := 2 ^ 1074) in *. clearbody P. set (Q := 2 ^ 106) in *. clearbody Q. nia.
Qed.

(** A zero over what is neither zero nor NaN is a zero, and so is a zero times a finite value. *)
Lemma zero_div s y : f_is_nan y = false -> f_eqb y f_zero = false -> exists s', f_div (S754_zero s) y = S754_zero s'.
Proof. destruct y as [[]|[]| |[] m e]; try done; intros _ _; by eexists. Qed.

Lemma zero_mul s y : f_finite y = true -> exists s', f_mul (S754_zero s) y = S754_zero s'.
Proof. destruct y as [[]|[]| |[] m e]; try done; intros _; by eexists. Qed.

(** What is left of a value that may be infinite after taking away a finite one is a number. *)
Lemma f_sub_number a b : nn a = true -> f_finite b = true -> f_is_nan (f_sub a b) = false.
Proof.
  intros Ha Hb. destruct (nn_cases a Ha) as [->|[Fa _]]; [by destruct b as [[]|[]| |[] m e]|].
  assert (f_valid a = true) as Va by (by unfold nn in Ha; apply andb_prop in Ha as [? _]).
  pose proof (f_sub_sign a b Fa Hb) as Hs. rewrite (f_compare_val a b Fa Hb) in Hs.
  by destruct (f_sub a b) as [| | |].
Qed.

Lemma nn_mul_exact a b : exact a -> exact b -> nn (f_mul (f_of_Z a) (f_of_Z b)) = true.
Proof.
  intros Ha Hb. destruct (Z.eq_dec a 0) as [->|Na].
  - by destruct (exact_shape b Hb) as [->|(m & e & ->)].
  - apply nn_mul; [|by apply exact_nn]. unfold exact in *. apply f_of_Z_pos; [lia|unfold int64_max; lia].
Qed.
