(* ===== verification/GoTime.v ===== *)
(** * Package time, and the order of float64

    An instant is the number of nanoseconds since January 1 of year 1, UTC, the zero
    [time.Time]; a [time.Duration] is an int64 of nanoseconds. Stored scans carry RFC 3339
    times in UTC. Every other function of float64 values that the history of a fleet needs
    is ordered here: the comparison of binary64 values as a total order. *)

From Stdlib Require Import ZArith Lia String Ascii Floats.SpecFloat.
From stdpp Require Import base list sets.
From S2P Require Import Prelude Float64 Ratio.

Local Open Scope Z_scope.

(** ** Durations *)

Definition Second : Z := 1000000000.
Definition Minute : Z := 60 * Second.
Definition Hour : Z := 60 * Minute.
Definition Day : Z := 24 * Hour.

(** [Time.Sub] saturates. *)
Definition Sub (t u : Z) : Z := Z.max int64_min (Z.min int64_max (t - u)).

(** [Duration.Seconds] and [Duration.Hours]. *)
Definition Seconds (d : Z) : float64 :=
  f_add (f_of_Z (Z.quot d Second)) (f_div (f_of_Z (Z.rem d Second)) (f_of_Z Second)).

Definition Hours (d : Z) : float64 :=
  f_add (f_of_Z (Z.quot d Hour)) (f_div (f_of_Z (Z.rem d Hour)) (f_of_Z Hour)).

Lemma Sub_mono now now' u : now <= now' -> Sub now u <= Sub now' u.
Proof. unfold Sub. lia. Qed.

Lemma Sub_self t : Sub t t = 0.
Proof. unfold Sub, int64_min, int64_max. lia. Qed.

(** ** Dates: [t.UTC().Format("2006-01-02")]

    The civil date of a day number, counted in eras of 400 years that begin on March 1. *)
Definition civil_of_days (days : Z) : Z * Z * Z :=
  let z := days + 306 in
  let era := z / 146097 in
  let doe := z mod 146097 in
  let yoe := (doe - doe / 1460 + doe / 36524 - doe / 146096) / 365 in
  let doy := doe - (365 * yoe + yoe / 4 - yoe / 100) in
  let mp := (5 * doy + 2) / 153 in
  let m := if mp <? 10 then mp + 3 else mp - 9 in
  (yoe + era * 400 + (if m <=? 2 then 1 else 0), m, doy - (153 * mp + 2) / 5 + 1).

Definition pad_zero (width : nat) (z : Z) : string :=
  let t := itoa z in
  (String.concat "" (repeat "0" (width - String.length t)) ++ t)%string.

Definition DateOnly (t : Z) : string :=
  let '(y, m, d) := civil_of_days (t / Day) in
  (pad_zero 4 y ++ "-" ++ pad_zero 2 m ++ "-" ++ pad_zero 2 d)%string.

(** Day 0, a leap day, and the scan time of 2026-01-01. *)
Example date_only_samples :
  (DateOnly 0, DateOnly (738944 * Day), DateOnly (739616 * Day + 5 * Hour), DateOnly (739615 * Day + 23 * Hour))
  = ("0001-01-01", "2024-02-29", "2026-01-01", "2025-12-31")%string.
Proof. vm_compute. reflexivity. Qed.

(** [t.UTC().Format(time.RFC3339)]. *)
Definition RFC3339 (t : Z) : string :=
  let s := (t mod Day) / Second in
  (DateOnly t ++ "T" ++ pad_zero 2 (s / 3600) ++ ":" ++ pad_zero 2 (s / 60 mod 60) ++ ":" ++ pad_zero 2 (s mod 60) ++ "Z")%string.

Example rfc3339_samples :
  (RFC3339 0, RFC3339 (739616 * Day + 5 * Hour + 62 * Second)) = ("0001-01-01T00:00:00Z", "2026-01-01T05:01:02Z")%string.
Proof. vm_compute. reflexivity. Qed.

(** [Time.Unix], the seconds since 1970, and [Time.Nanosecond], the rest of the second. *)
Definition Unix (t : Z) : Z := t / Second - 62135596800.
Definition Nanosecond (t : Z) : Z := t mod Second.

Definition IsZero (t : Z) : bool := t =? 0.

(** ** The order of float64

    [<] is the strict part of a total preorder on the values that are not NaN. *)
Definition f_rank (x : float64) : Z * (Z * Z) :=
  match x with
  | S754_zero _ | S754_nan => (0, (0, 0))
  | S754_infinity s => (if s then -2 else 2, (0, 0))
  | S754_finite s m e => if s then (-1, (- e, - Zpos m)) else (1, (e, Zpos m))
  end.

Definition rank_cmp : Z * (Z * Z) -> Z * (Z * Z) -> comparison :=
  cmp_lex (cmp_on fst Z.compare) (cmp_lex (cmp_on (fun r => fst (snd r)) Z.compare) (cmp_on (fun r => snd (snd r)) Z.compare)).

Definition f_cmp : float64 -> float64 -> comparison := cmp_on f_rank rank_cmp.

#[export] Instance f_cmp_order : CmpOrder f_cmp.
Proof. unfold f_cmp, rank_cmp. exact _. Qed.

Lemma SFcompare_rank x y : f_is_nan x = false -> f_is_nan y = false -> SFcompare x y = Some (f_cmp x y).
Proof.
  destruct x as [[] | [] | | [] m e], y as [[] | [] | | [] m' e']; simpl; try done; intros _ _;
    unfold f_cmp, rank_cmp, cmp_on, cmp_lex, cmp_then; simpl; f_equal.
  - rewrite Z.compare_opp. destruct (Z.compare_spec e e') as [-> | H | H].
    + rewrite Z.compare_refl. change (Pos.compare_cont Eq m m') with (Pos.compare m m').
      by rewrite Pos.compare_antisym, CompOpp_involutive.
    + by replace (e' ?= e) with Gt by (symmetry; apply Z.compare_gt_iff; lia).
    + by replace (e' ?= e) with Lt by (symmetry; apply Z.compare_lt_iff; lia).
  - by destruct (e ?= e').
Qed.

Lemma f_ltb_cmp x y : f_ltb x y = negb (f_is_nan x) && negb (f_is_nan y) && less_of f_cmp x y.
Proof.
  unfold f_ltb, SFltb. destruct (f_is_nan x) eqn:Nx; [by destruct x|].
  destruct (f_is_nan y) eqn:Ny; [by destruct y as [| | |]; destruct x|].
  rewrite SFcompare_rank by done. simpl. unfold less_of. by destruct (f_cmp x y).
Qed.

Lemma f_ltb_trans x y z : f_ltb x y = true -> f_ltb y z = true -> f_ltb x z = true.
Proof.
  rewrite !f_ltb_cmp. unfold less_of.
  destruct (f_is_nan x), (f_is_nan y), (f_is_nan z); try done; simpl.
  destruct (f_cmp x y) eqn:E1; try done. destruct (f_cmp y z) eqn:E2; try done.
  by rewrite (cmp_lt_trans f_cmp x y z E1 E2).
Qed.

(** What is not above [x] is not above anything above [x]. *)
Lemma f_ltb_above x y z : f_ltb x y = false -> f_ltb x z = true -> f_ltb z y = false.
Proof.
  intros Hxy Hxz. destruct (f_ltb z y) eqn:E; [|done]. by rewrite (f_ltb_trans x z y Hxz E) in Hxy.
Qed.

Lemma f_ltb_irrefl x : f_ltb x x = false.
Proof. rewrite f_ltb_cmp. unfold less_of. rewrite cmp_refl. by rewrite andb_false_r. Qed.

(** What is not above [x] is below whatever [x] is below. *)
Lemma f_ltb_below x y z : f_is_nan y = false -> f_ltb x y = false -> f_ltb x z = true -> f_ltb y z = true.
Proof.
  rewrite !f_ltb_cmp. unfold less_of. intros ->. destruct (f_is_nan x), (f_is_nan z); try done; simpl.
  intros Hxy Hxz. destruct (f_cmp x z) eqn:E; try done.
  destruct (f_cmp y z) eqn:Eyz; try done; exfalso; apply (cmp_trans (c := f_cmp) z y x).
  all: try (rewrite (cmp_anti (c := f_cmp) x z), E; done).
  all: try (rewrite (cmp_anti (c := f_cmp) y z), Eyz; done).
  all: rewrite (cmp_anti (c := f_cmp) x y); by destruct (f_cmp x y).
Qed.

(** ** The first best element of a loop

    [if score > bestScore { bestScore = score; best = k }] over the candidates. *)
Section Best.
Context {A : Type} (score : A -> float64).

Definition best_step (acc : A * float64) (k : A) : A * float64 :=
  let '(best, bestScore) := acc in
  if f_ltb bestScore (score k) then (k, score k) else (best, bestScore).

(** A candidate that is the first of the best: nothing beats it, and what comes before is
    below it or no number. *)
Definition first_best (l : list A) (b : A) : Prop :=
  exists l1 l2, l = l1 ++ b :: l2 /\ (forall j, j ∈ l -> f_ltb (score b) (score j) = false) /\
    (forall j, j ∈ l1 -> f_ltb (score j) (score b) = true \/ f_is_nan (score j) = true).

Lemma best_spec l d s0 :
  let r := fold_left best_step l (d, s0) in
  (r = (d, s0) /\ forall j, j ∈ l -> f_ltb s0 (score j) = false) \/
  (first_best l (fst r) /\ snd r = score (fst r) /\ f_ltb s0 (snd r) = true).
Proof.
  cbv zeta. induction l as [|x l IH] using rev_ind; [left; split; [done|set_solver]|].
  rewrite fold_left_app. simpl. destruct (fold_left best_step l (d, s0)) as [b s]. simpl in IH. unfold best_step.
  destruct IH as [[Hr Hno] | (Hb & Hs & Hlt)].
  - injection Hr as -> ->. destruct (f_ltb s0 (score x)) eqn:Hx; simpl.
    + right. split_all; simpl; try done. exists l, []. split_all; [done| |].
      * intros j [Hj|Hj%list_elem_of_singleton]%elem_of_app; [|subst; apply f_ltb_irrefl].
        by apply (f_ltb_above s0); [apply Hno|].
      * intros j Hj. destruct (f_is_nan (score j)) eqn:Hn; [by right|left].
        by apply (f_ltb_below s0); [|apply Hno|].
    + left. split; [done|]. intros j [Hj|Hj%list_elem_of_singleton]%elem_of_app; [by apply Hno|by subst].
  - subst s. destruct Hb as (l1 & l2 & -> & Hmax & Hfirst). destruct (f_ltb (score b) (score x)) eqn:Hx; right; simpl.
    + split_all; [|done|by apply (f_ltb_trans _ (score b))].
      exists (l1 ++ b :: l2), []. split_all; [done| |].
      * intros j [Hj|Hj%list_elem_of_singleton]%elem_of_app; [|subst; apply f_ltb_irrefl].
        by apply (f_ltb_above (score b)); [apply Hmax|].
      * intros j Hj. destruct (f_is_nan (score j)) eqn:Hn; [by right|left].
        by apply (f_ltb_below (score b)); [|apply Hmax|].
    + split_all; [|done|done]. exists l1, (l2 ++ [x]). split_all; [by rewrite <- app_assoc| |done].
      intros j [Hj|Hj%list_elem_of_singleton]%elem_of_app; [by apply Hmax|by subst].
Qed.
End Best.
