(* ===== verification/TimeText.v ===== *)
(** * Times as text: the order of RFC 3339

    The store keeps times as RFC 3339 text and compares that text. Between the years 1 and
    9999 the order of the text of UTC times is the order of their whole seconds; the text of
    a time in another zone is a local date, and its order is another matter. The dates of one
    era of 400 years are checked one by one, and the calendar repeats with the era. *)

From Stdlib Require Import ZArith Lia String Ascii.
From stdpp Require Import base list.
From S2P Require Import Prelude Float64 Ratio GoTime.

Local Open Scope Z_scope.

(** ** Comparing texts of one length *)

Lemma compare_app (a b x y : string) : String.length a = String.length b ->
  String.compare (a ++ x) (b ++ y) = cmp_then (String.compare a b) (String.compare x y).
Proof.
  revert b. induction a as [|c a IH]; intros [|d b] H; try discriminate; [done|]. injection H as H.
  change ((match Ascii.compare c d with Eq => String.compare (a ++ x) (b ++ y) | r => r end) =
    cmp_then (match Ascii.compare c d with Eq => String.compare a b | r => r end) (String.compare x y)).
  destruct (Ascii.compare c d); [by apply IH|done..].
Qed.

(** ** Functions that increase step by step *)

Section Increase.
Context {A : Type} (c : A -> A -> comparison) `{!CmpOrder c} (f : Z -> A) (lo hi : Z).

Definition increases : Prop := forall i, lo <= i < hi -> c (f i) (f (i + 1)) = Lt.

Lemma increases_lt : increases -> forall i j, lo <= i -> i < j <= hi -> c (f i) (f j) = Lt.
Proof.
  intros H i j Hi [Hj Hhi]. assert (Hge : i + 1 <= j) by lia. revert Hhi.
  apply (Zlt_lower_bound_ind (fun j => j <= hi -> c (f i) (f j) = Lt) (i + 1)); [|done]. intros k IH Hk Hb.
  destruct (Z.eq_dec k (i + 1)) as [->|Hne]; [apply H; lia|].
  apply (cmp_lt_trans c _ (f (k - 1))); [apply IH; lia|]. replace (f k) with (f (k - 1 + 1)) by (f_equal; lia). apply H. lia.
Qed.

Lemma increases_compare : increases -> forall i j, lo <= i <= hi -> lo <= j <= hi -> c (f i) (f j) = Z.compare i j.
Proof.
  intros H i j Hi Hj. destruct (Z.compare_spec i j) as [->|Hlt|Hgt]; [apply (cmp_refl (c := c))|apply increases_lt; (done || lia)|].
  rewrite (cmp_anti (c := c) (f j)). by rewrite (increases_lt H j i) by lia.
Qed.
End Increase.

(** ** Padded numbers *)

Lemma dec_digits_acc fuel n acc : dec_digits fuel n acc = (dec_digits fuel n "" ++ acc)%string.
Proof.
  revert n acc. induction fuel as [|fuel IH]; intros n acc; [done|]. cbn [dec_digits]. destruct (n <? 10)%N; [done|].
  rewrite IH, (IH (n / 10)%N (String _ "")). by rewrite append_assoc.
Qed.

Lemma dec_digits_fuel f f' n acc : (n < 2 ^ N.of_nat f)%N -> (n < 2 ^ N.of_nat f')%N -> f <> O -> f' <> O ->
  dec_digits f n acc = dec_digits f' n acc.
Proof.
  revert f' n acc. induction f as [|f IH]; intros f' n acc H H' Hf Hf'; [done|]. destruct f' as [|f']; [done|]. cbn [dec_digits].
  destruct (N.ltb_spec n 10) as [|Hge]; [done|]. rewrite Nat2N.inj_succ, N.pow_succ_r' in H, H'.
  assert (n / 10 <= n / 2)%N by (apply N.div_le_compat_l; lia).
  assert (n / 2 < 2 ^ N.of_nat f)%N by (apply N.Div0.div_lt_upper_bound; lia).
  assert (n / 2 < 2 ^ N.of_nat f')%N by (apply N.Div0.div_lt_upper_bound; lia).
  apply IH; [lia..| |]; intros ->; cbn in *; lia.
Qed.

Definition last_digit (z : Z) : string := String (digit_ascii (Z.to_nat (z mod 10))) "".

Lemma itoa_snoc z : 10 <= z -> itoa z = (itoa (z / 10) ++ last_digit z)%string.
Proof.
  intros Hz. assert (forall x, 0 <= x -> itoa x = N_to_dec (Z.to_N x)) as Hi by (by intros [| |]).
  rewrite !Hi by (try apply Z.div_pos; lia). unfold N_to_dec at 1. cbn [dec_digits]. destruct (N.ltb_spec (Z.to_N z) 10); [lia|].
  assert (Z.to_N (z / 10) = Z.to_N z / 10)%N as -> by (rewrite Z2N.inj_div by lia; reflexivity).
  rewrite dec_digits_acc. f_equal.
  - pose proof (N.size_gt (Z.to_N z)) as Hs. pose proof (N.size_gt (Z.to_N z / 10)) as Hs'.
    assert (Z.to_N z / 10 <= Z.to_N z)%N by (apply N.Div0.div_le_upper_bound; lia).
    apply dec_digits_fuel; rewrite ?Nat2N.inj_succ, ?N2Nat.id; try done; [lia|rewrite N.pow_succ_r'; lia|].
    intros E. destruct (Z.to_N z) as [|p] eqn:Ez; [lia|]. cbn in E. lia.
  - unfold last_digit. do 2 f_equal. rewrite <- Z_N_nat. f_equal. rewrite Z2N.inj_mod by lia. reflexivity.
Qed.

Lemma itoa_digit z : 0 <= z < 10 -> itoa z = last_digit z.
Proof. intros Hz. assert (z = 0 \/ z = 1 \/ z = 2 \/ z = 3 \/ z = 4 \/ z = 5 \/ z = 6 \/ z = 7 \/ z = 8 \/ z = 9) as H by lia. by repeat destruct H as [->|H]; [..|subst z]. Qed.

Lemma zeros_snoc n : (String.concat "" (repeat "0" n) ++ "0" = String.concat "" (repeat "0" (S n)))%string.
Proof.
  induction n as [|n IH]; [done|]. destruct n as [|n]; [done|].
  change ((String "0" (String.concat "" (repeat "0" (S n)) ++ "0")) = String "0" (String.concat "" (repeat "0" (S (S n)))))%string.
  by rewrite IH.
Qed.

Lemma pad_snoc w z : 0 <= z -> pad_zero (S (S w)) z = (pad_zero (S w) (z / 10) ++ last_digit z)%string.
Proof.
  intros Hz. unfold pad_zero. destruct (Z.lt_ge_cases z 10) as [|H].
  - rewrite Z.div_small, itoa_digit by lia. change (itoa 0) with "0"%string. cbn [String.length last_digit].
    replace (S (S w) - 1)%nat with (S w) by lia. replace (S w - 1)%nat with w by lia. by rewrite zeros_snoc.
  - rewrite (itoa_snoc z) by lia. rewrite str_length_app. change (String.length (last_digit z)) with 1%nat. rewrite append_assoc.
    by replace (S (S w) - (String.length (itoa (z / 10)) + 1))%nat with (S w - String.length (itoa (z / 10)))%nat by lia.
Qed.

Lemma digit_compare i j : 0 <= i < 10 -> 0 <= j < 10 -> String.compare (last_digit i) (last_digit j) = Z.compare i j.
Proof.
  intros Hi Hj. assert (forall k, 0 <= k < 10 -> k = 0 \/ k = 1 \/ k = 2 \/ k = 3 \/ k = 4 \/ k = 5 \/ k = 6 \/ k = 7 \/ k = 8 \/ k = 9) as H by lia.
  apply H in Hi, Hj. clear H. by repeat destruct Hi as [->|Hi]; subst; repeat destruct Hj as [->|Hj]; subst.
Qed.

Lemma last_digit_mod z : last_digit (z mod 10) = last_digit z.
Proof. unfold last_digit. by rewrite Z.mod_mod. Qed.

(** Numbers padded to one width are ordered as numbers. *)
Lemma pad_compare w i j : 0 <= i < 10 ^ Z.of_nat (S w) -> 0 <= j < 10 ^ Z.of_nat (S w) ->
  String.length (pad_zero (S w) i) = S w /\ String.compare (pad_zero (S w) i) (pad_zero (S w) j) = Z.compare i j.
Proof.
  revert i j. induction w as [|w IH]; intros i j Hi Hj.
  - change (10 ^ Z.of_nat 1) with 10 in *. unfold pad_zero. rewrite !itoa_digit by lia. cbn [String.length last_digit].
    split; [done|]. by apply digit_compare.
  - rewrite Nat2Z.inj_succ, Z.pow_succ_r in Hi, Hj by lia. rewrite !pad_snoc by lia.
    assert (forall k, 0 <= k < 10 * 10 ^ Z.of_nat (S w) -> 0 <= k / 10 < 10 ^ Z.of_nat (S w)) as Hd.
    { intros k Hk. split; [apply Z.div_pos; lia|apply Z.div_lt_upper_bound; lia]. }
    destruct (IH (i / 10) (j / 10) (Hd i Hi) (Hd j Hj)) as [Hl Hc]. destruct (IH (j / 10) (i / 10) (Hd j Hj) (Hd i Hi)) as [Hl' _].
    rewrite str_length_app, Hl, compare_app, Hc by congruence. split; [cbn; lia|].
    rewrite <- (last_digit_mod i), <- (last_digit_mod j), digit_compare by (apply Z.mod_pos_bound; lia).
    pose proof (Z.div_mod i 10 ltac:(lia)). pose proof (Z.div_mod j 10 ltac:(lia)).
    pose proof (Z.mod_pos_bound i 10 ltac:(lia)). pose proof (Z.mod_pos_bound j 10 ltac:(lia)).
    destruct (Z.compare_spec (i / 10) (j / 10)); cbn [cmp_then]; [|symmetry; apply Z.compare_lt_iff; lia|symmetry; apply Z.compare_gt_iff; lia].
    destruct (Z.compare_spec (i mod 10) (j mod 10)); symmetry; [apply Z.compare_eq_iff|apply Z.compare_lt_iff|apply Z.compare_gt_iff]; lia.
Qed.

(** ** Dates *)

Abbreviation civil := (Z * Z * Z)%type.

Definition civil_cmp : civil -> civil -> comparison :=
  cmp_lex (cmp_on (fun c => fst (fst c)) Z.compare) (cmp_lex (cmp_on (fun c => snd (fst c)) Z.compare) (cmp_on snd Z.compare)).

#[export] Instance civil_cmp_order : CmpOrder civil_cmp.
Proof. unfold civil_cmp. exact _. Qed.

(** The day of the year that begins on March 1, and its month. *)
Lemma era_bounds doe : 0 <= doe < 146097 ->
  let yoe := (doe - doe / 1460 + doe / 36524 - doe / 146096) / 365 in
  let doy := doe - (365 * yoe + yoe / 4 - yoe / 100) in
  0 <= yoe <= 399 /\ 0 <= doy <= 365 /\ 0 <= (5 * doy + 2) / 153 <= 11 /\
  1 <= doy - (153 * ((5 * doy + 2) / 153) + 2) / 5 + 1 <= 31.
Proof. intros H. cbv zeta. Z.to_euclidean_division_equations. lia. Qed.


Lemma day_increases n : civil_cmp (civil_of_days n) (civil_of_days (n + 1)) = Lt.
Proof.
  assert (forall y m d y' m' d', y < y' \/ y = y' /\ (m < m' \/ m = m' /\ d < d') -> civil_cmp (y, m, d) (y', m', d') = Lt) as Hlex.
  { intros y m d y' m' d' H. unfold civil_cmp, cmp_lex, cmp_on, cmp_then. cbn [fst snd].
    destruct (Z.compare_spec y y'), (Z.compare_spec m m'), (Z.compare_spec d d'); done || lia. }
  unfold civil_of_days. replace (n + 1 + 306) with (n + 306 + 1) by lia. set (z := n + 306).
  assert (Hm : 0 <= z mod 146097 < 146097) by (apply Z.mod_pos_bound; lia).
  assert (((z + 1) / 146097 = z / 146097 /\ (z + 1) mod 146097 = z mod 146097 + 1 /\ z mod 146097 < 146096) \/
    ((z + 1) / 146097 = z / 146097 + 1 /\ (z + 1) mod 146097 = 0 /\ z mod 146097 = 146096)) as Hz
    by (Z.to_euclidean_division_equations; lia).
  generalize dependent (z mod 146097). intros doe Hm Hz. set (era := z / 146097) in *. clearbody era.
  destruct Hz as [(-> & -> & Hlt)|(-> & -> & ->)].
  2: { match goal with |- civil_cmp ?a ?b = Lt =>
         change a with (399 + era * 400 + 1, 2, 29); change b with (0 + (era + 1) * 400 + 0, 3, 1) end. apply Hlex. lia. }
  pose proof (era_bounds doe Hm) as (Hy & Hd & Hmp & _). pose proof (era_bounds (doe + 1) ltac:(lia)) as (Hy' & Hd' & Hmp' & _).
  cbv zeta in *.
  assert (Hle : (doe - doe / 1460 + doe / 36524 - doe / 146096) / 365 <=
    (doe + 1 - (doe + 1) / 1460 + (doe + 1) / 36524 - (doe + 1) / 146096) / 365).
  { apply Z.div_le_mono; [lia|]. Z.to_euclidean_division_equations. lia. }
  set (yoe := (doe - doe / 1460 + doe / 36524 - doe / 146096) / 365) in *.
  set (yoe' := (doe + 1 - (doe + 1) / 1460 + (doe + 1) / 36524 - (doe + 1) / 146096) / 365) in *.
  clearbody yoe yoe'. set (doy := doe - (365 * yoe + yoe / 4 - yoe / 100)) in *.
  set (doy' := doe + 1 - (365 * yoe' + yoe' / 4 - yoe' / 100)) in *.
  assert (yoe = yoe' -> doy' = doy + 1) as Hdoy by (intros ->; unfold doy, doy'; lia). clearbody doy doy'.
  assert (yoe = yoe' -> (5 * doy + 2) / 153 <= (5 * doy' + 2) / 153) as Hmono.
  { intros E. rewrite (Hdoy E). apply Z.div_le_mono; lia. }
  set (mp := (5 * doy + 2) / 153) in *. set (mp' := (5 * doy' + 2) / 153) in *.
  assert (yoe = yoe' -> mp = mp' -> doy - (153 * mp + 2) / 5 < doy' - (153 * mp' + 2) / 5) as Hsame by (intros E1 E2; rewrite (Hdoy E1), E2; lia).
  clearbody mp mp'. apply Hlex.
  destruct (Z.ltb_spec mp 10), (Z.ltb_spec mp' 10);
    repeat match goal with |- context [?a <=? 2] => destruct (Z.leb_spec a 2) end; lia.
Qed.

Lemma civil_compare n m : civil_cmp (civil_of_days n) (civil_of_days m) = Z.compare n m.
Proof. apply (increases_compare civil_cmp civil_of_days (Z.min n m) (Z.max n m)); [|lia..]. intros i _. apply day_increases. Qed.

(** December 31 of the year 9999. *)
Definition last_day : Z := 3652058.

Lemma civil_ranges n : 0 <= n <= last_day -> let '(y, m, d) := civil_of_days n in 0 <= y < 10000 /\ 0 <= m < 100 /\ 0 <= d < 100.
Proof.
  intros Hn. pose proof (civil_compare 0 n) as H0. pose proof (civil_compare n last_day) as H1.
  change (civil_of_days 0) with (1, 1, 1) in H0. change (civil_of_days last_day) with (9999, 12, 31) in H1.
  destruct (civil_of_days n) as [[y m] d] eqn:E.
  assert (0 <= y < 10000) as Hy.
  { unfold civil_cmp, cmp_lex, cmp_on, cmp_then in H0, H1. cbn [fst snd] in H0, H1. unfold last_day in *.
    destruct (Z.compare_spec 1 y), (Z.compare_spec y 9999), (Z.compare_spec 0 n), (Z.compare_spec n 3652058); done || lia. }
  split; [done|]. unfold civil_of_days in E. pose proof (era_bounds ((n + 306) mod 146097) ltac:(apply Z.mod_pos_bound; lia)) as (_ & _ & Hmp & Hd).
  cbv zeta in *. injection E as _ <- <-. set (mp := (5 * _ + 2) / 153) in *. clearbody mp.
  split; [|lia]. destruct (Z.ltb_spec mp 10); lia.
Qed.

Lemma pads_compare (w : nat) i j (x y : string) : 0 <= i < 10 ^ Z.of_nat (S w) -> 0 <= j < 10 ^ Z.of_nat (S w) ->
  String.compare (pad_zero (S w) i ++ x) (pad_zero (S w) j ++ y) = cmp_then (Z.compare i j) (String.compare x y).
Proof.
  intros Hi Hj. destruct (pad_compare w i j Hi Hj) as [Hl <-]. destruct (pad_compare w j i Hj Hi) as [Hl' _].
  apply compare_app. congruence.
Qed.

(** The text of a day is ten bytes, and days are ordered as their texts. *)
Lemma date_compare a b : 0 <= a / Day <= last_day -> 0 <= b / Day <= last_day ->
  String.length (DateOnly a) = 10%nat /\ String.compare (DateOnly a) (DateOnly b) = Z.compare (a / Day) (b / Day).
Proof.
  intros Ha Hb. rewrite <- (civil_compare (a / Day) (b / Day)). pose proof (civil_ranges _ Ha) as Ra. pose proof (civil_ranges _ Hb) as Rb.
  unfold DateOnly. destruct (civil_of_days (a / Day)) as [[y m] d], (civil_of_days (b / Day)) as [[y' m'] d'].
  destruct Ra as (? & ? & ?), Rb as (? & ? & ?). split.
  - rewrite !str_length_app, (proj1 (pad_compare 3 y y ltac:(done) ltac:(done))), (proj1 (pad_compare 1 m m ltac:(done) ltac:(done))),
      (proj1 (pad_compare 1 d d ltac:(done) ltac:(done))). done.
  - rewrite pads_compare, compare_app, pads_compare, compare_app by done. rewrite (proj2 (pad_compare 1 d d' ltac:(done) ltac:(done))). done.
Qed.

Definition clock_text (s : Z) (zone : string) : string :=
  (pad_zero 2 (s / 3600) ++ ":" ++ pad_zero 2 (s / 60 mod 60) ++ ":" ++ pad_zero 2 (s mod 60) ++ zone)%string.

Lemma clock_compare s s' zone : 0 <= s < 86400 -> 0 <= s' < 86400 ->
  String.compare (clock_text s zone) (clock_text s' zone) = Z.compare s s'.
Proof.
  intros Hs Hs'. unfold clock_text.
  assert (forall x, 0 <= x < 86400 -> 0 <= x / 3600 < 100 /\ 0 <= x / 60 mod 60 < 60 /\ 0 <= x mod 60 < 60 /\
    x = 3600 * (x / 3600) + 60 * (x / 60 mod 60) + x mod 60) as H by (intros x Hx; Z.to_euclidean_division_equations; lia).
  destruct (H s Hs) as (? & ? & ? & E), (H s' Hs') as (? & ? & ? & E').
  rewrite pads_compare, compare_app, pads_compare, compare_app, pads_compare by (done || (change (10 ^ Z.of_nat 2) with 100; lia)).
  rewrite (cmp_refl (c := String.compare) zone).
  set (h := s / 3600) in *. set (mi := s / 60 mod 60) in *. set (x := s mod 60) in *.
  set (h' := s' / 3600) in *. set (mi' := s' / 60 mod 60) in *. set (x' := s' mod 60) in *. clearbody h mi x h' mi' x'. rewrite E, E'.
  change (String.compare ":" ":") with Eq. unfold cmp_then.
  destruct (Z.compare_spec h h'), (Z.compare_spec mi mi'), (Z.compare_spec x x'); symmetry;
    first [apply Z.compare_eq_iff; lia|apply Z.compare_lt_iff; lia|apply Z.compare_gt_iff; lia].
Qed.

(** The end of the year 9999. *)
Definition last_instant : Z := (last_day + 1) * Day.

(** The text of UTC times is ordered as their whole seconds. *)
Lemma rfc3339_compare a b : 0 <= a < last_instant -> 0 <= b < last_instant ->
  String.compare (RFC3339 a) (RFC3339 b) = Z.compare (a / Second) (b / Second).
Proof.
  intros Ha Hb. unfold last_instant in *.
  assert (forall x, 0 <= x < (last_day + 1) * Day -> 0 <= x / Day <= last_day /\ 0 <= x mod Day / Second < 86400 /\
    x / Second = 86400 * (x / Day) + x mod Day / Second) as H.
  { intros x Hx. unfold last_day, Day, Hour, Minute, Second in *. Z.to_euclidean_division_equations. lia. }
  destruct (H a Ha) as (Da & Sa & Ea), (H b Hb) as (Db & Sb & Eb).
  change (RFC3339 a) with (DateOnly a ++ "T" ++ clock_text (a mod Day / Second) "Z")%string.
  change (RFC3339 b) with (DateOnly b ++ "T" ++ clock_text (b mod Day / Second) "Z")%string.
  destruct (date_compare a b Da Db) as [La Cab]. destruct (date_compare b a Db Da) as [Lb _].
  rewrite compare_app, Cab, compare_app, clock_compare by (done || congruence).
  set (sa := a mod Day / Second) in *. set (sb := b mod Day / Second) in *. set (da := a / Day) in *. set (db := b / Day) in *. clearbody sa sb da db. rewrite Ea, Eb.
  change (String.compare "T" "T") with Eq. unfold cmp_then. destruct (Z.compare_spec da db), (Z.compare_spec sa sb); symmetry;
    first [apply Z.compare_eq_iff; lia|apply Z.compare_lt_iff; lia|apply Z.compare_gt_iff; lia].
Qed.

(** ** Other zones: [t.Format(time.RFC3339)] of a time in a zone [off] seconds east of UTC *)
Definition zone_text (off : Z) : string :=
  if off =? 0 then "Z"%string
  else ((if (off <? 0)%Z then "-" else "+") ++ pad_zero 2 (Z.abs off / 3600)%Z ++ ":" ++ pad_zero 2 (Z.abs off / 60 mod 60)%Z)%string.

Definition RFC3339_in (off t : Z) : string :=
  let local := t + off * Second in (DateOnly local ++ "T" ++ clock_text (local mod Day / Second) (zone_text off))%string.

Lemma rfc3339_in_utc t : RFC3339_in 0 t = RFC3339 t.
Proof. unfold RFC3339_in. by rewrite Z.add_0_r. Qed.

Example rfc3339_in_ex : RFC3339_in (-5 * 3600) (739616 * Day + 5 * Hour + 62 * Second) = "2026-01-01T00:01:02-05:00"%string.
Proof. vm_compute. reflexivity. Qed.
