(* ===== verification/Text.v ===== *)
(** * internal/util/text.go: names, plurals and severities

    Strings are byte strings, as in Go. [SanitizeName] is the function every
    Kubernetes object the program emits is named through; its theorems give the
    shape of the result and its idempotence. *)

From Stdlib Require Import ZArith Lia String Ascii.
From stdpp Require Import base list strings.
From S2P Require Import Prelude.

Local Open Scope list_scope.

Abbreviation bytes := (list ascii).

Definition to_bytes (s : string) : bytes := list_ascii_of_string s.
Definition of_bytes (l : bytes) : string := string_of_list_ascii l.

Lemma of_to_bytes s : of_bytes (to_bytes s) = s.
Proof. apply string_of_list_ascii_of_string. Qed.

Lemma to_of_bytes l : to_bytes (of_bytes l) = l.
Proof. apply list_ascii_of_string_of_list_ascii. Qed.

Lemma to_bytes_app a b : to_bytes (a ++ b)%string = to_bytes a ++ to_bytes b.
Proof. unfold to_bytes. induction a; simpl; [done|]. by f_equal. Qed.

(** ** Plural and severities *)

Definition Plural (n : Z) : string := if (n =? 1)%Z then "" else "s".

Definition SeverityCritical : string := "critical".
Definition SeverityWarning : string := "warning".
Definition SeverityInfo : string := "info".

Definition SeverityRank (s : string) : nat :=
  if String.eqb s "critical" then 3
  else if String.eqb s "warning" then 2
  else if String.eqb s "info" then 1
  else 0.

Definition SeverityAtLeast (got want : string) : bool := SeverityRank want <=? SeverityRank got.

(** ** SanitizeName *)

Definition maxNameLen : nat := 253.
Definition unnamed : string := "unnamed".

Definition byte_in (lo hi : nat) (c : ascii) : bool :=
  (lo <=? nat_of_ascii c) && (nat_of_ascii c <=? hi).

(** [strings.ToLower] up to what the next step can tell apart. ASCII letters are
    lowered; the only other code points whose lower case is ASCII are U+0130
    (bytes C4 B0, to [i]) and U+212A (bytes E2 84 AA, to [k]); every other
    non-ASCII rune stays non-ASCII, so its bytes are left as they are. *)
Fixpoint to_lower (l : bytes) : bytes :=
  match l with
  | "196"%char :: "176"%char :: l' => "i"%char :: to_lower l'
  | "226"%char :: "132"%char :: "170"%char :: l' => "k"%char :: to_lower l'
  | c :: l' => (if byte_in 65 90 c then ascii_of_nat (nat_of_ascii c + 32) else c) :: to_lower l'
  | [] => []
  end.

(** The class [[a-z0-9.-]] that [nameSanitize] keeps. *)
Definition is_alnum (c : ascii) : bool := byte_in 97 122 c || byte_in 48 57 c.
Definition is_dash (c : ascii) : bool := Ascii.eqb c "-".
Definition is_edge (c : ascii) : bool := is_dash c || Ascii.eqb c ".".
Definition name_ok (c : ascii) : bool := is_alnum c || is_edge c.

(** [regexp.ReplaceAllString(re, "-")] where [re] matches maximal runs of the
    bytes [p] accepts: each run becomes one dash. *)
Fixpoint replace_runs (p : ascii -> bool) (in_run : bool) (l : bytes) : bytes :=
  match l with
  | [] => []
  | c :: l' =>
      if p c then (if in_run then [] else ["-"%char]) ++ replace_runs p true l'
      else c :: replace_runs p false l'
  end.

(** [-{2,}] collapses to one dash. A lone dash is replaced by itself, so runs of
    one or more dashes may be treated alike. *)
Definition collapse (l : bytes) : bytes := replace_runs is_dash false l.

Fixpoint trim_left (p : ascii -> bool) (l : bytes) : bytes :=
  match l with
  | [] => []
  | c :: l' => if p c then trim_left p l' else l
  end.

Definition trim_right (p : ascii -> bool) (l : bytes) : bytes := rev (trim_left p (rev l)).
Definition trim (p : ascii -> bool) (l : bytes) : bytes := trim_right p (trim_left p l).

Definition sanitize (l : bytes) : bytes :=
  let cleaned := replace_runs (fun c => negb (name_ok c)) false (to_lower l) in
  let cleaned := trim is_edge (collapse cleaned) in
  if maxNameLen <? length cleaned then trim_right is_edge (take maxNameLen cleaned) else cleaned.

Definition SanitizeName (name : string) : string :=
  match sanitize (to_bytes name) with
  | [] => unnamed
  | cleaned => of_bytes cleaned
  end.

Example sanitize_ex : map SanitizeName ["Prod_EU (1)"; "--a..b--"; "***"; "gke/us east1"]
  = ["prod-eu-1"; "a..b"; "unnamed"; "gke-us-east1"].
Proof. vm_compute. reflexivity. Qed.

(** ** Facts about the passes *)

(** No two adjacent dashes. *)
Fixpoint no_double (l : bytes) : bool :=
  match l with
  | a :: ((b :: _) as l') => negb (is_dash a && is_dash b) && no_double l'
  | _ => true
  end.

Definition head_ok (p : ascii -> bool) (l : bytes) : bool :=
  match l with [] => true | c :: _ => negb (p c) end.

(** What a finished name looks like: legal bytes, no double dash, alphanumeric
    ends. *)
Definition clean (l : bytes) : bool :=
  forallb name_ok l && no_double l && head_ok is_edge l && head_ok is_edge (rev l).

Lemma trim_left_suffix p l : exists pre, l = pre ++ trim_left p l.
Proof.
  induction l as [|c l [pre IH]]; simpl; [by exists []|].
  destruct (p c); [|by exists []]. exists (c :: pre). simpl. by f_equal.
Qed.

Lemma trim_left_head p l : head_ok p (trim_left p l) = true.
Proof. induction l as [|c l IH]; simpl; [done|]. destruct (p c) eqn:E; [done|]. simpl. by rewrite E. Qed.

Lemma trim_left_id p l : head_ok p l = true -> trim_left p l = l.
Proof. destruct l as [|c l]; simpl; [done|]. by destruct (p c). Qed.

Lemma trim_right_prefix p l : exists suf, l = trim_right p l ++ suf.
Proof.
  unfold trim_right. destruct (trim_left_suffix p (rev l)) as [pre H]. exists (rev pre).
  rewrite <- rev_app_distr, <- H, rev_involutive. done.
Qed.

Lemma trim_right_last p l : head_ok p (rev (trim_right p l)) = true.
Proof. unfold trim_right. rewrite rev_involutive. apply trim_left_head. Qed.

Lemma trim_right_id p l : head_ok p (rev l) = true -> trim_right p l = l.
Proof. intros H. unfold trim_right. rewrite trim_left_id, rev_involutive; done. Qed.

Lemma head_ok_prefix p l l' : head_ok p (l ++ l') = true -> head_ok p l = true.
Proof. by destruct l. Qed.

Lemma no_double_app l1 l2 : no_double (l1 ++ l2) = true -> no_double l1 = true /\ no_double l2 = true.
Proof.
  induction l1 as [|a l1 IH]; simpl; [done|]. destruct l1 as [|b l1]; simpl in *.
  - destruct l2; [done|]. intros H. apply andb_prop in H as [_ ->]. done.
  - intros H. apply andb_prop in H as [-> H]. simpl. by apply IH.
Qed.

Lemma forallb_app_inv {A} (p : A -> bool) l1 l2 :
  forallb p (l1 ++ l2) = true -> forallb p l1 = true /\ forallb p l2 = true.
Proof. rewrite forallb_app. apply andb_prop. Qed.

Lemma replace_runs_ok p b l :
  (forall c, p c = false -> name_ok c = true) -> forallb name_ok (replace_runs p b l) = true.
Proof.
  intros Hp. revert b. induction l as [|c l IH]; intros b; simpl; [done|].
  destruct (p c) eqn:E; simpl; [destruct b; simpl; apply IH|]. rewrite Hp by done. apply IH.
Qed.

Lemma collapse_ok l : forallb name_ok l = true -> forallb name_ok (collapse l) = true.
Proof.
  unfold collapse. generalize false. induction l as [|c l IH]; intros b; [done|].
  cbn [forallb replace_runs]. intros H. apply andb_prop in H as [Hc Hl].
  destruct (is_dash c); [destruct b|]; cbn [app forallb]; rewrite ?Hc; by apply IH.
Qed.

Lemma collapse_no_double_gen b l :
  no_double (replace_runs is_dash b l) = true /\
  (b = true -> head_ok is_dash (replace_runs is_dash b l) = true).
Proof.
  revert b. induction l as [|c l IH]; intros b; simpl; [done|].
  destruct (is_dash c) eqn:E.
  - destruct (IH true) as [H1 H2]. specialize (H2 eq_refl).
    destruct b; simpl; [done|]. split; [|done].
    destruct (replace_runs is_dash true l) as [|d l']; [done|].
    simpl in H2. rewrite H1. by destruct (is_dash d).
  - destruct (IH false) as [H1 _]. simpl. rewrite E. split; [|done].
    destruct (replace_runs is_dash false l) as [|d l']; [done|]. rewrite H1. simpl. done.
Qed.

Lemma collapse_no_double l : no_double (collapse l) = true.
Proof. apply collapse_no_double_gen. Qed.

Lemma collapse_id_gen b l :
  no_double l = true -> (b = true -> head_ok is_dash l = true) -> replace_runs is_dash b l = l.
Proof.
  revert b. induction l as [|c l IH]; intros b Hd Hb; simpl; [done|].
  assert (Hl : no_double l = true) by (destruct l; [done|]; simpl in Hd; by apply andb_prop in Hd as [_ ?]).
  destruct (is_dash c) eqn:E.
  - destruct b; [specialize (Hb eq_refl); simpl in Hb; by rewrite E in Hb|].
    assert (c = "-"%char) as -> by (by apply Ascii.eqb_eq).
    simpl. f_equal. apply IH; [done|]. intros _. destruct l as [|d l]; [done|].
    simpl in Hd |- *. apply andb_prop in Hd as [Hd _]. by destruct (is_dash d).
  - f_equal. by apply IH.
Qed.

Lemma replace_runs_none p b l : forallb (fun c => negb (p c)) l = true -> replace_runs p b l = l.
Proof.
  revert b. induction l as [|c l IH]; intros b; simpl; [done|].
  intros H. apply andb_prop in H as [Hc Hl]. destruct (p c); [done|]. f_equal. by apply IH.
Qed.

Lemma name_ok_lower c : name_ok c = true -> byte_in 65 90 c = false /\ c <> "196"%char /\ c <> "226"%char.
Proof. destruct c as [[] [] [] [] [] [] [] []]; by vm_compute. Qed.

Lemma to_lower_ok l : forallb name_ok l = true -> to_lower l = l.
Proof.
  induction l as [|c l IH]; simpl; [done|]. intros H. apply andb_prop in H as [Hc Hl].
  destruct (name_ok_lower _ Hc) as (Hb & H1 & H2).
  assert (to_lower (c :: l) =
    (if byte_in 65 90 c then ascii_of_nat (nat_of_ascii c + 32) else c) :: to_lower l) as E.
  { clear - H1 H2. destruct c as [[] [] [] [] [] [] [] []]; done. }
  simpl in E. rewrite E, Hb, IH by done. done.
Qed.

Lemma clean_prefix l l' : clean (l ++ l') = true -> head_ok is_edge (rev l) = true -> clean l = true.
Proof.
  unfold clean. intros H Hr. apply andb_prop in H as [H _]. apply andb_prop in H as [H H3].
  apply andb_prop in H as [H1 H2]. apply forallb_app_inv in H1 as [-> _].
  apply no_double_app in H2 as [-> _]. apply head_ok_prefix in H3. by rewrite H3, Hr.
Qed.

Lemma trim_clean l : forallb name_ok l = true -> no_double l = true -> clean (trim is_edge l) = true.
Proof.
  intros H1 H2. unfold trim.
  destruct (trim_left_suffix is_edge l) as [pre Hpre]. rewrite Hpre in H1, H2.
  apply forallb_app_inv in H1 as [_ H1]. apply no_double_app in H2 as [_ H2].
  pose proof (trim_left_head is_edge l) as H3. set (l' := trim_left is_edge l) in *.
  destruct (trim_right_prefix is_edge l') as [suf Hsuf].
  pose proof (trim_right_last is_edge l') as H4. rewrite Hsuf in H1, H2, H3.
  unfold clean. apply forallb_app_inv in H1 as [-> _]. apply no_double_app in H2 as [-> _].
  apply head_ok_prefix in H3. by rewrite H3, H4.
Qed.

Lemma sanitize_clean l : clean (sanitize l) = true /\ length (sanitize l) <= maxNameLen.
Proof.
  unfold sanitize. set (r := trim is_edge _).
  assert (clean r = true) as Hr.
  { apply trim_clean; [apply collapse_ok, replace_runs_ok|apply collapse_no_double].
    intros c. by destruct (name_ok c). }
  destruct (Nat.ltb_spec maxNameLen (length r)) as [Hlt|]; [|done].
  destruct (trim_right_prefix is_edge (take maxNameLen r)) as [suf Hsuf].
  pose proof (trim_right_last is_edge (take maxNameLen r)) as Hlast.
  split.
  - apply (clean_prefix _ (suf ++ drop maxNameLen r)); [|done].
    rewrite app_assoc, <- Hsuf, take_drop. done.
  - assert (length (take maxNameLen r) <= maxNameLen) as Hlen by (rewrite length_take; lia).
    rewrite Hsuf, length_app in Hlen. lia.
Qed.

Lemma sanitize_fix l : clean l = true -> length l <= maxNameLen -> sanitize l = l.
Proof.
  unfold clean. intros H Hlen. apply andb_prop in H as [H H4]. apply andb_prop in H as [H H3].
  apply andb_prop in H as [H1 H2]. unfold sanitize.
  assert (forallb (fun c => negb (negb (name_ok c))) l = true) as H1'.
  { rewrite <- H1. clear. induction l as [|c l IH]; simpl; [done|]. by rewrite IH, negb_involutive. }
  rewrite to_lower_ok, replace_runs_none by done.
  unfold collapse. rewrite collapse_id_gen by done. unfold trim.
  rewrite trim_left_id, trim_right_id by done.
  by destruct (Nat.ltb_spec maxNameLen (length l)); [lia|].
Qed.

Lemma sanitize_idem l : sanitize (sanitize l) = sanitize l.
Proof. destruct (sanitize_clean l). by apply sanitize_fix. Qed.

Lemma SanitizeName_bytes name : to_bytes (SanitizeName name) =
  match sanitize (to_bytes name) with [] => to_bytes unnamed | l => l end.
Proof.
  unfold SanitizeName. destruct (sanitize (to_bytes name)) as [|c l] eqn:E; [done|].
  apply to_of_bytes.
Qed.

Lemma clean_ends l : clean l = true -> 1 <= length l <= maxNameLen ->
  Forall (fun c => name_ok c = true) l /\ no_double l = true /\
  exists a z, head l = Some a /\ last l = Some z /\ is_alnum a = true /\ is_alnum z = true.
Proof.
  unfold clean. intros H Hlen. apply andb_prop in H as [H H4]. apply andb_prop in H as [H H3].
  apply andb_prop in H as [H1 H2].
  assert (Hall : Forall (fun c => name_ok c = true) l).
  { apply Forall_forall. intros c Hin. apply forallb_forall with (x := c) in H1; [done|].
    by apply list_elem_of_In. }
  assert (Hok : forall c, name_ok c = true -> is_edge c = false -> is_alnum c = true).
  { unfold name_ok. intros c. by destruct (is_alnum c), (is_edge c). }
  split; [done|]. split; [done|]. destruct l as [|a l]; [simpl in Hlen; lia|].
  destruct (@exists_last _ (a :: l)) as (l' & z & Hz); [done|].
  exists a, z. rewrite Hz in *. rewrite last_snoc, rev_app_distr in *. simpl in H4.
  assert (head (l' ++ [z]) = Some a) as -> by (by rewrite <- Hz).
  apply Forall_app in Hall as [Hl' Hz']. inversion Hz'; subst.
  split_all; [done|done| |].
  - rewrite <- Hz in H3. simpl in H3. apply Hok; [|by destruct (is_edge a)].
    apply forallb_forall with (x := a) in H1; [done|]. rewrite <- Hz. by left.
  - apply Hok; [done|]. by destruct (is_edge z).
Qed.

(** ** The DNS-1123 subdomain format

    The Kubernetes name format is dot-separated labels, each alphanumeric at both
    ends. [SanitizeName] trims the whole name but not each label. *)
Fixpoint split_on (d : ascii) (acc l : bytes) : list bytes :=
  match l with
  | [] => [rev acc]
  | c :: l' => if Ascii.eqb c d then rev acc :: split_on d [] l' else split_on d (c :: acc) l'
  end.

Definition dns1123_label (l : bytes) : bool :=
  forallb (fun c => is_alnum c || is_dash c) l &&
  match head l, last l with Some a, Some z => is_alnum a && is_alnum z | _, _ => false end.

Definition dns1123_subdomain (l : bytes) : bool := forallb dns1123_label (split_on "." [] l).

(** A name with adjacent dots, or a dash beside a dot, passes through unchanged
    and is not a DNS-1123 subdomain. *)
Lemma sanitize_not_subdomain :
  SanitizeName "prod..eu" = "prod..eu" /\ SanitizeName "prod.-eu" = "prod.-eu" /\
  dns1123_subdomain (to_bytes (SanitizeName "prod..eu")) = false /\
  dns1123_subdomain (to_bytes (SanitizeName "prod.-eu")) = false /\
  dns1123_subdomain (to_bytes (SanitizeName "Prod.EU")) = true.
Proof. vm_compute. done. Qed.

(** ** Properties *)

Module Names.

(** Whatever the input, [SanitizeName] returns 1 to 253 bytes, all from
    [a-z0-9.-], with no two adjacent dashes, and an alphanumeric first and last
    byte. *)
Theorem sanitize_shape name :
  let out := to_bytes (SanitizeName name) in
  1 <= length out <= maxNameLen /\ Forall (fun c => name_ok c = true) out /\ no_double out = true /\
  exists a z, head out = Some a /\ last out = Some z /\ is_alnum a = true /\ is_alnum z = true.
Proof.
  cbn zeta. rewrite SanitizeName_bytes. destruct (sanitize_clean (to_bytes name)) as [Hc Hlen].
  assert (clean (match sanitize (to_bytes name) with [] => to_bytes unnamed | l => l end) = true /\
          1 <= length (match sanitize (to_bytes name) with [] => to_bytes unnamed | l => l end) <= maxNameLen)
    as [Hc' Hlen'].
  { destruct (sanitize (to_bytes name)); [split; [done|]; unfold maxNameLen; simpl; lia|].
    split; [done|]. simpl in *. lia. }
  clear Hc Hlen. set (out := match _ with [] => _ | _ => _ end) in *. clearbody out.
  split; [done|]. by apply clean_ends.
Qed.

(** Sanitizing is idempotent, so a name that was already sanitized keeps
    addressing the same object. *)
Theorem sanitize_idempotent name : SanitizeName (SanitizeName name) = SanitizeName name.
Proof.
  unfold SanitizeName at 1. rewrite SanitizeName_bytes.
  destruct (sanitize (to_bytes name)) as [|c l] eqn:E.
  - unfold SanitizeName. rewrite E. vm_compute. reflexivity.
  - rewrite <- E, sanitize_idem, E. unfold SanitizeName. rewrite E. done.
Qed.

End Names.
