(* ===== verification/Strs.v ===== *)
(** * The functions of Go's [strings] package that the checks on pods use

    Strings are byte strings, as in Go. *)

From Stdlib Require Import ZArith Lia String Ascii.
From stdpp Require Import base strings list.
From S2P Require Import Prelude Text.

Local Open Scope nat_scope.

(** [strings.Contains]. *)
Fixpoint Contains (s sub : string) : bool :=
  String.prefix sub s || match s with String _ s' => Contains s' sub | EmptyString => false end.

(** [strings.HasSuffix]. *)
Fixpoint HasSuffix (s suffix : string) : bool :=
  String.eqb s suffix || match s with String _ s' => HasSuffix s' suffix | EmptyString => false end.

(** [s[:i]] for the index [i] of the first byte [c], or [s] where there is none. *)
Fixpoint before (c : ascii) (s : string) : string :=
  match s with
  | EmptyString => EmptyString
  | String b s' => if Ascii.eqb b c then EmptyString else String b (before c s')
  end.

(** [s[i:]] for the index [i] of the last byte [c], or nothing where there is none. *)
Fixpoint from_last (c : ascii) (s : string) : option string :=
  match s with
  | EmptyString => None
  | String b s' =>
      match from_last c s' with
      | Some t => Some t
      | None => if Ascii.eqb b c then Some s else None
      end
  end.

(** [strings.TrimPrefix] and [strings.TrimSuffix]. *)
Fixpoint drop_str (n : nat) (s : string) : string :=
  match n, s with
  | S n', String _ s' => drop_str n' s'
  | _, _ => s
  end.

Definition TrimPrefix (s p : string) : string := if String.prefix p s then drop_str (String.length p) s else s.

Definition TrimSuffix (s p : string) : string :=
  if HasSuffix s p then String.substring 0 (String.length s - String.length p) s else s.

(** [strings.ToUpper] up to what a comparison with ASCII text can tell apart. ASCII
    letters are raised; the only other code points whose upper case is ASCII are
    U+0131 (bytes C4 B1, to [I]) and U+017F (bytes C5 BF, to [S]). *)
Fixpoint ToUpper (s : string) : string :=
  match s with
  | String "196" (String "177" s') => String "I" (ToUpper s')
  | String "197" (String "191" s') => String "S" (ToUpper s')
  | String c s' => String (if byte_in 97 122 c then ascii_of_nat (nat_of_ascii c - 32) else c) (ToUpper s')
  | EmptyString => EmptyString
  end.

(** [strings.EqualFold] with a text of ASCII letters, none of them [k] or [s], the only
    letters a non-ASCII code point folds to. *)
Definition fold_byte (c : ascii) : ascii := if byte_in 97 122 c then ascii_of_nat (nat_of_ascii c - 32) else c.

Fixpoint EqualFold (s t : string) : bool :=
  match s, t with
  | EmptyString, EmptyString => true
  | String a s', String b t' => Ascii.eqb (fold_byte a) (fold_byte b) && EqualFold s' t'
  | _, _ => false
  end.

Example strs_ex :
  (Contains "registry/app@sha256:ab" "@sha256:", HasSuffix "app:latest" ":latest", before "@" "app@x",
   from_last "/" "a/b/c:1", TrimPrefix "CAP_SYS_ADMIN" "CAP_", TrimSuffix "host/v1/" "/v1/", ToUpper "Net_Raw",
   EqualFold "aLl" "ALL")
  = (true, true, "app", Some "/c:1", "SYS_ADMIN", "host", "NET_RAW", true).
Proof. vm_compute. reflexivity. Qed.

(** ** Facts *)

Lemma prefix_app p t : String.prefix p (p ++ t)%string = true.
Proof. induction p as [|a p IH]; simpl; [by destruct t|]. destruct (ascii_dec a a); [apply IH|congruence]. Qed.

Lemma prefix_spec p s : String.prefix p s = true <-> exists t, s = (p ++ t)%string.
Proof.
  split; [|intros [t ->]; apply prefix_app]. revert s. induction p as [|a p IH]; intros s H; [by exists s|].
  destruct s as [|b s]; [discriminate|]. simpl in H. destruct (ascii_dec a b) as [->|]; [|discriminate].
  destruct (IH s H) as [t ->]. by exists t.
Qed.

Lemma Contains_spec s sub : Contains s sub = true <-> exists u v, s = (u ++ sub ++ v)%string.
Proof.
  induction s as [|a s IH]; cbn [Contains]; rewrite orb_true_iff, prefix_spec.
  - split; [intros [[t E]|?]; [by exists "", t|done]|]. intros (u & v & E). destruct u; [|discriminate]. left. by exists v.
  - rewrite IH. split.
    + intros [[t E]|(u & v & ->)]; [by exists "", t|by exists (String a u), v].
    + intros (u & v & E). destruct u as [|b u]; [left; by exists v|]. right. exists u, v. by injection E.
Qed.

Lemma HasSuffix_spec s suffix : HasSuffix s suffix = true <-> exists u, s = (u ++ suffix)%string.
Proof.
  induction s as [|a s IH]; cbn [HasSuffix]; rewrite orb_true_iff, String.eqb_eq.
  - split; [intros [<-|?]; [by exists ""|done]|]. intros [u E]. destruct u; [left; by rewrite E|discriminate].
  - rewrite IH. split.
    + intros [<-|[u ->]]; [by exists ""|by exists (String a u)].
    + intros [u E]. destruct u as [|b u]; [by left|]. right. exists u. by injection E.
Qed.

(** No byte [c] in the text. *)
Fixpoint no_byte (c : ascii) (s : string) : bool :=
  match s with
  | EmptyString => true
  | String b s' => negb (Ascii.eqb b c) && no_byte c s'
  end.

Lemma before_none c s : no_byte c s = true -> before c s = s.
Proof.
  induction s as [|b s IH]; simpl; [done|]. destruct (Ascii.eqb b c); simpl; [done|]. intros H. by rewrite IH.
Qed.

Lemma before_app c s t : no_byte c s = true -> before c (s ++ String c t) = s.
Proof.
  induction s as [|b s IH]; simpl; [by rewrite Ascii.eqb_refl|]. destruct (Ascii.eqb b c); simpl; [done|].
  intros H. by rewrite IH.
Qed.

Lemma from_last_none c s : no_byte c s = true -> from_last c s = None.
Proof.
  induction s as [|b s IH]; simpl; [done|]. destruct (Ascii.eqb b c); simpl; [done|]. intros H. by rewrite IH.
Qed.

Lemma from_last_app c s t : no_byte c t = true -> from_last c (s ++ String c t) = Some (String c t).
Proof.
  intros H. induction s as [|b s IH]; simpl; [by rewrite (from_last_none _ _ H), Ascii.eqb_refl|]. by rewrite IH.
Qed.

Lemma from_last_keep c s t : no_byte c t = true ->
  from_last c (s ++ t) = (fun x => (x ++ t)%string) <$> from_last c s.
Proof.
  intros H. induction s as [|b s IH]; simpl; [by apply from_last_none|]. rewrite IH.
  destruct (from_last c s); simpl; [done|]. by destruct (Ascii.eqb b c).
Qed.

Lemma from_last_no_byte c d s t : from_last c s = Some t -> no_byte d s = true -> no_byte d t = true.
Proof.
  revert t. induction s as [|b s IH]; simpl; intros t; [done|]. intros H [Hb Hs]%andb_true_iff.
  destruct (from_last c s) as [t'|]; simplify_eq; [by apply IH|].
  destruct (Ascii.eqb b c); simplify_eq. simpl. by rewrite Hb, Hs.
Qed.

Lemma no_byte_app c s t : no_byte c (s ++ t) = no_byte c s && no_byte c t.
Proof. induction s as [|b s IH]; simpl; [done|]. by rewrite IH, andb_assoc. Qed.

Lemma prefix_one c s : String.prefix (String c "") s = match s with String b _ => Ascii.eqb c b | _ => false end.
Proof.
  destruct s as [|b s]; simpl; [done|]. destruct (ascii_dec c b) as [->|Hn]; [rewrite Ascii.eqb_refl; by destruct s|].
  symmetry. by apply Ascii.eqb_neq.
Qed.

Lemma Contains_byte c s : Contains s (String c "") = negb (no_byte c s).
Proof.
  induction s as [|b s IH]; cbn [Contains no_byte]; rewrite prefix_one; [done|].
  rewrite IH, Ascii.eqb_sym. by destruct (Ascii.eqb b c).
Qed.

(** ** White space

    The code points of [unicode.IsSpace], in UTF-8. *)
Definition space_runes : list bytes := map (map ascii_of_nat)
  ([[9]; [10]; [11]; [12]; [13]; [32]; [194; 133]; [194; 160]; [225; 154; 128]] ++
   map (fun c => [226; 128; c]) (seq 128 11 ++ [168; 169; 175]) ++ [[226; 129; 159]; [227; 128; 128]]).

Fixpoint strip_rune (r l : bytes) : option bytes :=
  match r, l with
  | [], _ => Some l
  | a :: r', b :: l' => if Ascii.eqb a b then strip_rune r' l' else None
  | _, [] => None
  end.

Fixpoint strip_any (runes : list bytes) (l : bytes) : option bytes :=
  match runes with
  | [] => None
  | r :: runes' => match strip_rune r l with Some l' => Some l' | None => strip_any runes' l end
  end.

(** As many runes as the front holds: at most one per byte. *)
Fixpoint trim_runes (fuel : nat) (runes : list bytes) (l : bytes) : bytes :=
  match fuel with
  | O => l
  | S fuel' => match strip_any runes l with Some l' => trim_runes fuel' runes l' | None => l end
  end.

Definition trim_front (runes : list bytes) (l : bytes) : bytes := trim_runes (length l) runes l.

(** [strings.TrimSpace]; the end is the front of the reversed text. *)
Definition TrimSpace (s : string) : string :=
  of_bytes (rev (trim_front (map (@rev ascii) space_runes) (rev (trim_front space_runes (to_bytes s))))).

Example TrimSpace_ex : TrimSpace (of_bytes ["009"; " "; "226"; "128"; "130"; "a"; " "; "b"; "194"; "160"; "010"]%char) = "a b".
Proof. vm_compute. reflexivity. Qed.

(** [strings.Cut] at the first two spaces, or at the first slash. *)
Fixpoint Cut (s sep : string) : option (string * string) :=
  if String.prefix sep s then Some ("", drop_str (String.length sep) s)
  else match s with
       | EmptyString => None
       | String c s' => match Cut s' sep with Some (a, b) => Some (String c a, b) | None => None end
       end.

Example Cut_ex : (Cut "ab  cd  e" "  ", Cut "ab" "  ", Cut "r/x/y" "/") = (Some ("ab", "cd  e"), None, Some ("r", "x/y")).
Proof. reflexivity. Qed.

Lemma prefix_drop p t : String.prefix p (p ++ t) = true /\ drop_str (String.length p) (p ++ t) = t.
Proof. split; [apply prefix_app|]. induction p as [|c p IH]; [done|exact IH]. Qed.

Lemma Cut_first s t c : no_byte c s = true -> Cut (s ++ String c t) (String c "") = Some (s, t).
Proof.
  induction s as [|b s IH]; intros H; simpl.
  - destruct (ascii_dec c c); [|done]. by destruct t.
  - cbn [no_byte] in H. apply andb_true_iff in H as [Hb H]. destruct (ascii_dec c b) as [->|].
    + by rewrite Ascii.eqb_refl in Hb.
    + by rewrite (IH H).
Qed.

Lemma Cut_split s sep a b : Cut s sep = Some (a, b) -> s = (a ++ sep ++ b)%string.
Proof.
  assert (Hp : forall s, String.prefix sep s = true -> s = (sep ++ drop_str (String.length sep) s)%string).
  { intros u [t ->]%prefix_spec. by rewrite (proj2 (prefix_drop _ _)). }
  revert a b. induction s as [|c s IH]; intros a b; cbn [Cut].
  - destruct (String.prefix sep "") eqn:E; [|done]. intros [= <- <-]. exact (Hp _ E).
  - destruct (String.prefix sep (String c s)) eqn:E; [intros [= <- <-]; exact (Hp _ E)|].
    destruct (Cut s sep) as [[a' b']|] eqn:Ec; [|done]. intros [= <- <-]. by rewrite (IH a' b' eq_refl).
Qed.

Definition head_in (p : ascii -> bool) (r : bytes) : bool := match r with c :: _ => p c | [] => true end.

Lemma strip_any_none runes c l : forallb (fun r => negb (head_in (Ascii.eqb c) r)) runes = true ->
  strip_any runes (c :: l) = None.
Proof.
  induction runes as [|r runes IH]; simpl; [done|]. intros [Hr H]%andb_true_iff. rewrite IH by done.
  destruct r as [|a r]; [done|]. simpl in *. rewrite Ascii.eqb_sym. by destruct (Ascii.eqb c a).
Qed.

(** No white space begins or ends with the byte. *)
Definition solid (c : ascii) : bool :=
  forallb (fun r => negb (head_in (Ascii.eqb c) r)) (space_runes ++ map (@rev ascii) space_runes).

Lemma solid_runes c : solid c = true -> forallb (fun r => negb (head_in (Ascii.eqb c) r)) space_runes = true /\
  forallb (fun r => negb (head_in (Ascii.eqb c) r)) (map (@rev ascii) space_runes) = true.
Proof. unfold solid. rewrite forallb_app. by intros ?%andb_true_iff. Qed.

Lemma TrimSpace_solid a b l : solid a = true -> solid b = true -> TrimSpace (of_bytes (a :: l ++ [b])) = of_bytes (a :: l ++ [b]).
Proof.
  intros [Na _]%solid_runes [_ Nb]%solid_runes.
  unfold TrimSpace. rewrite to_of_bytes. f_equal. unfold trim_front at 2. cbn [length trim_runes].
  rewrite strip_any_none by done. unfold trim_front. rewrite length_rev.
  replace (rev (a :: l ++ [b])) with (b :: rev (a :: l)) by (cbn [rev]; by rewrite rev_app_distr).
  cbn [length trim_runes]. rewrite strip_any_none by done. cbn [rev]. by rewrite rev_app_distr, rev_involutive.
Qed.

(** A text with a letter or digit at both ends is trimmed of one newline only. *)
Lemma alnum_no_rune c : is_alnum c = true -> solid c = true.
Proof. destruct c as [[] [] [] [] [] [] [] []]; intros H; try discriminate H; vm_compute; reflexivity. Qed.

Lemma TrimSpace_line a b l : is_alnum a = true -> is_alnum b = true ->
  TrimSpace (of_bytes (a :: l ++ [b; "010"%char])) = of_bytes (a :: l ++ [b]).
Proof.
  intros [Na _]%alnum_no_rune%solid_runes [_ Nb]%alnum_no_rune%solid_runes.
  unfold TrimSpace. rewrite to_of_bytes. f_equal. unfold trim_front at 2. cbn [length trim_runes].
  rewrite strip_any_none by done. unfold trim_front. rewrite length_rev.
  replace (rev (a :: l ++ [b; "010"%char])) with ("010"%char :: b :: rev (a :: l)).
  2:{ cbn [rev]. rewrite rev_app_distr. done. }
  cbn [length]. rewrite length_app. cbn [length]. rewrite Nat.add_comm. cbn [trim_runes Nat.add].
  assert (forall l, strip_any (map (@rev ascii) space_runes) ("010"%char :: l) = Some l) as -> by (intros; reflexivity).
  destruct (length l + 2) as [|n] eqn:E; [lia|]. cbn [trim_runes]. rewrite strip_any_none by done.
  cbn [rev]. rewrite rev_app_distr, rev_involutive. done.
Qed.

(** ** Runes

    The conversion of a string to runes, and internal/util/text.go [Truncate]. Each rune is kept
    as the bytes it is encoded back to; a byte that starts no valid UTF-8 sequence is the rune
    U+FFFD. *)

(** The ranges of the second byte that [unicode/utf8] accepts after each first byte, and
    how many bytes the sequence has. *)
Definition lead (c : ascii) : option (nat * nat * nat) :=
  if byte_in 194 223 c then Some (2, 128, 191)
  else if byte_in 224 224 c then Some (3, 160, 191)
  else if byte_in 237 237 c then Some (3, 128, 159)
  else if byte_in 225 239 c then Some (3, 128, 191)
  else if byte_in 240 240 c then Some (4, 144, 191)
  else if byte_in 241 243 c then Some (4, 128, 191)
  else if byte_in 244 244 c then Some (4, 128, 143)
  else None.

Definition continuation (c : ascii) : bool := byte_in 128 191 c.

(** The number of bytes of the rune at the front, or [None] where it is malformed. *)
Definition rune_size (l : bytes) : option nat :=
  match l with
  | [] => None
  | c :: l' =>
      if byte_in 0 127 c then Some 1
      else match lead c, l' with
           | Some (size, lo, hi), d :: l'' =>
               if byte_in lo hi d && (size - 2 <=? length l'') && forallb continuation (take (size - 2) l'')
               then Some size else None
           | _, _ => None
           end
  end.

Definition replacement : bytes := map ascii_of_nat [239; 191; 189].

Fixpoint runes_from (fuel : nat) (l : bytes) : list bytes :=
  match fuel, l with
  | S fuel', c :: _ =>
      match rune_size l with
      | Some n => take n l :: runes_from fuel' (drop n l)
      | None => replacement :: runes_from fuel' (drop 1 l)
      end
  | _, _ => []
  end.

(** Each rune takes at least one byte. *)
Definition runes (s : string) : list bytes := runes_from (String.length s) (to_bytes s).

(** [string(r)]. *)
Definition of_runes (r : list bytes) : string := of_bytes (concat r).

Definition Truncate (s : string) (n : nat) : string :=
  if (n =? 0) || (String.length s <=? n) then s
  else if length (runes s) <=? n then s
  else (of_runes (take n (runes s)) ++ "...")%string.

(** ** Lemmas *)

Definition ascii_text (s : string) : bool := forallb (byte_in 0 127) (to_bytes s).

Lemma length_to_bytes s : length (to_bytes s) = String.length s.
Proof. unfold to_bytes. by induction s; simpl; f_equal. Qed.

Lemma rune_size_pos l n : rune_size l = Some n -> 1 <= n <= length l.
Proof.
  destruct l as [|c l]; simpl; [done|]. destruct (byte_in 0 127 c); [intros [= <-]; lia|].
  destruct (lead c) as [[[size lo] hi]|] eqn:Hl; [|done]. destruct l as [|d l]; [done|].
  destruct (_ && _) eqn:E; [|done]. intros [= <-]. apply andb_true_iff in E as [[_ E]%andb_true_iff _].
  apply Nat.leb_le in E. simpl. assert (2 <= size) by (unfold lead in Hl; repeat case_match; simplify_eq; lia). lia.
Qed.

Lemma runes_from_enough fuel l : length l <= fuel -> runes_from fuel l = runes_from (length l) l.
Proof.
  assert (forall k l, length l <= k -> forall f1 f2, length l <= f1 -> length l <= f2 -> runes_from f1 l = runes_from f2 l) as H.
  { clear. induction k as [|k IH]; intros [|c l] Hk f1 f2 H1 H2; simpl in *; try lia; [by destruct f1, f2..|].
    destruct f1 as [|f1], f2 as [|f2]; try lia. cbn [runes_from].
    destruct (rune_size (c :: l)) as [n|] eqn:E; f_equal.
    - apply rune_size_pos in E. assert (length (drop n (c :: l)) <= length l) by (rewrite length_drop; simpl; lia).
      apply IH; lia.
    - change (drop 1 (c :: l)) with l. apply IH; lia. }
  intros. by apply (H (length l)).
Qed.

(** A text of ASCII bytes has one rune per byte. *)
Lemma runes_ascii s : ascii_text s = true -> runes s = map (fun c => [c]) (to_bytes s).
Proof.
  unfold runes, ascii_text. rewrite <- length_to_bytes. generalize (to_bytes s) as l.
  induction l as [|c l IH]; [done|]. cbn [forallb length runes_from map]. intros [Hc Hl]%andb_true_iff.
  unfold rune_size. rewrite Hc. change (drop 1 (c :: l)) with l. cbn [take]. by rewrite IH.
Qed.

Lemma concat_single (l : bytes) : concat (map (fun c => [c]) l) = l.
Proof. induction l as [|c l IH]; [done|]. simpl. by rewrite IH. Qed.

(** Truncating ASCII text keeps its first bytes. *)
Lemma Truncate_ascii s n : ascii_text s = true -> 0 < n ->
  Truncate s n = if String.length s <=? n then s else (of_bytes (take n (to_bytes s)) ++ "...")%string.
Proof.
  intros Hs Hn. unfold Truncate. destruct (Nat.eqb_spec n 0); [lia|]. simpl.
  destruct (String.length s <=? n) eqn:E; [done|]. rewrite (runes_ascii s Hs), length_map, length_to_bytes, E.
  unfold of_runes. by rewrite firstn_map, concat_single.
Qed.

(** A text is cut only when it has more runes than allowed, and then keeps that many. *)
Lemma Truncate_runes s n : 0 < n ->
  (length (runes s) <= n -> Truncate s n = s) /\
  (n < length (runes s) -> Truncate s n = (of_runes (take n (runes s)) ++ "...")%string).
Proof.
  intros Hn. unfold Truncate. destruct (Nat.eqb_spec n 0); [lia|]. simpl. split; intros H.
  - destruct (String.length s <=? n); [done|]. by rewrite (proj2 (Nat.leb_le _ _) H).
  - assert (forall f l, length (runes_from f l) <= f) as Hlen.
    { clear. induction f as [|f IH]; intros [|c l]; cbn [runes_from length]; try lia.
      destruct (rune_size (c :: l)); cbn [length]; apply le_n_S, IH. }
    pose proof (Hlen (String.length s) (to_bytes s)) as Hl. fold (runes s) in Hl.
    rewrite (proj2 (Nat.leb_gt _ _)) by lia. by rewrite (proj2 (Nat.leb_gt _ _)) by lia.
Qed.

Example Truncate_ex :
  (Truncate "abcdef"%string 3, Truncate (of_bytes (map ascii_of_nat [195; 169; 255; 97; 98])) 2, Truncate "abc"%string 3) =
  ("abc..."%string, of_bytes (map ascii_of_nat [195; 169; 239; 191; 189; 46; 46; 46]), "abc"%string).
Proof. vm_compute. reflexivity. Qed.
