(* ===== verification/PodSec.v ===== *)
(** * internal/podsec/podsec.go: one answer to every question about a pod's security

    The Kubernetes types are records of the fields the code reads; a pointer field is
    an [option]. *)

From Stdlib Require Import ZArith Lia String.
From stdpp Require Import base gmap strings list.
From S2P Require Import Prelude Text Strs.

Local Open Scope nat_scope.

(** ** The part of [corev1] that is read *)

Record Capabilities := { cap_Add : list string; cap_Drop : list string }.

Record SecurityContext := {
  sc_Privileged : option bool;
  sc_RunAsNonRoot : option bool;
  sc_RunAsUser : option Z;
  sc_AllowPrivilegeEscalation : option bool;
  sc_ReadOnlyRootFilesystem : option bool;
  sc_Capabilities : option Capabilities;
  sc_SeccompProfile : option string
}.

Record PodSecurityContext := {
  psc_RunAsNonRoot : option bool;
  psc_RunAsUser : option Z;
  psc_SeccompProfile : option string
}.

Record Container := {
  ct_Name : string;
  ct_Image : string;
  ct_SecurityContext : option SecurityContext
}.

Record Pod := {
  pod_Namespace : string;
  pod_Name : string;
  pod_Annotations : gmap string string;
  pod_SecurityContext : option PodSecurityContext;
  pod_InitContainers : list Container;
  pod_Containers : list Container;
  pod_EphemeralContainers : list Container;
  pod_ServiceAccountName : string;
  pod_HostNetwork : bool;
  pod_HostPID : bool;
  pod_HostIPC : bool;
  pod_HostPathVolumes : list bool
}.

(** ** The effective settings *)

Inductive Status := Root | NonRoot | Unknown.

#[export] Instance Status_eq_dec : EqDecision Status.
Proof. solve_decision. Defined.

Definition podContext (pod : option Pod) : option PodSecurityContext := pod ≫= pod_SecurityContext.

Definition RunAsNonRoot (pod : option Pod) (c : Container) : bool * bool :=
  match ct_SecurityContext c ≫= sc_RunAsNonRoot with
  | Some b => (b, true)
  | None =>
      match podContext pod ≫= psc_RunAsNonRoot with
      | Some b => (b, true)
      | None => (false, false)
      end
  end.

Definition RunAsUser (pod : option Pod) (c : Container) : Z * bool :=
  match ct_SecurityContext c ≫= sc_RunAsUser with
  | Some u => (u, true)
  | None =>
      match podContext pod ≫= psc_RunAsUser with
      | Some u => (u, true)
      | None => (0%Z, false)
      end
  end.

Definition RootStatus (pod : option Pod) (c : Container) : Status :=
  let '(uid, uidSet) := RunAsUser pod c in
  if uidSet && (uid =? 0)%Z then Root
  else if fst (RunAsNonRoot pod c) then NonRoot
  else if uidSet && (0 <? uid)%Z then NonRoot
  else Unknown.

Definition escalating_cap (add : string) : bool :=
  let name := TrimPrefix (ToUpper add) "CAP_" in
  String.eqb name "SYS_ADMIN" || String.eqb name "ALL".

Definition AllowsPrivilegeEscalation (c : Container) : bool :=
  match ct_SecurityContext c with
  | None => true
  | Some sc =>
      match sc_AllowPrivilegeEscalation sc with
      | None => true
      | Some allow =>
          if default false (sc_Privileged sc) then true
          else match sc_Capabilities sc with
               | Some caps => if existsb escalating_cap (cap_Add caps) then true else allow
               | None => allow
               end
      end
  end.

Definition ReadOnlyRootFS (c : Container) : bool :=
  default false (ct_SecurityContext c ≫= sc_ReadOnlyRootFilesystem).

Definition DropsAllCapabilities (c : Container) : bool :=
  match ct_SecurityContext c ≫= sc_Capabilities with
  | None => false
  | Some caps => existsb (fun d => EqualFold d "ALL") (cap_Drop caps)
  end.

(** [corev1.SeccompProfileTypeRuntimeDefault] and [corev1.SeccompProfileTypeLocalhost]. *)
Definition confined_type (t : string) : bool := String.eqb t "RuntimeDefault" || String.eqb t "Localhost".

Definition SeccompConfined (pod : option Pod) (c : Container) : bool :=
  let profile := match ct_SecurityContext c ≫= sc_SeccompProfile with
                 | Some p => Some p
                 | None => podContext pod ≫= psc_SeccompProfile
                 end in
  match profile with None => false | Some t => confined_type t end.

Definition Containers (pod : option Pod) (includeEphemeral : bool) : list Container :=
  match pod with
  | None => []
  | Some p => pod_InitContainers p ++ pod_Containers p ++ (if includeEphemeral then pod_EphemeralContainers p else [])
  end.

(** ** Precedence: the container's setting where it has one, else the pod's *)

Definition uid_of (pod : option Pod) (c : Container) : option Z :=
  (ct_SecurityContext c ≫= sc_RunAsUser) ∪ (podContext pod ≫= psc_RunAsUser).

Definition nonroot_of (pod : option Pod) (c : Container) : option bool :=
  (ct_SecurityContext c ≫= sc_RunAsNonRoot) ∪ (podContext pod ≫= psc_RunAsNonRoot).

Lemma RunAsUser_spec pod c : RunAsUser pod c = (default 0%Z (uid_of pod c), bool_decide (is_Some (uid_of pod c))).
Proof.
  unfold RunAsUser, uid_of. by destruct (ct_SecurityContext c ≫= sc_RunAsUser), (podContext pod ≫= psc_RunAsUser).
Qed.

Lemma RunAsNonRoot_spec pod c :
  RunAsNonRoot pod c = (default false (nonroot_of pod c), bool_decide (is_Some (nonroot_of pod c))).
Proof.
  unfold RunAsNonRoot, nonroot_of. by destruct (ct_SecurityContext c ≫= sc_RunAsNonRoot), (podContext pod ≫= psc_RunAsNonRoot).
Qed.

Module Precedence.

(** The three verdicts on the user: root exactly when the effective uid is zero,
    whatever runAsNonRoot says; non-root exactly when the effective uid is positive, or
    it is not zero and runAsNonRoot is true; a container setting hides the pod's. *)
Theorem root_status_precedence pod c :
  (RootStatus pod c = Root <-> uid_of pod c = Some 0%Z) /\
  (RootStatus pod c = NonRoot <->
     uid_of pod c <> Some 0%Z /\
     (nonroot_of pod c = Some true \/ exists u, uid_of pod c = Some u /\ (0 < u)%Z)) /\
  (forall sc, ct_SecurityContext c = Some sc ->
     (forall u, sc_RunAsUser sc = Some u -> uid_of pod c = Some u) /\
     (forall b, sc_RunAsNonRoot sc = Some b -> nonroot_of pod c = Some b)).
Proof.
  split_all.
  - unfold RootStatus. rewrite RunAsUser_spec, RunAsNonRoot_spec. simpl.
    destruct (uid_of pod c) as [u|]; simpl; [destruct (Z.eqb_spec u 0) as [->|]|]; try (split; congruence);
      destruct (default false _); simpl; try (split; congruence). destruct (0 <? u)%Z; split; congruence.
  - unfold RootStatus. rewrite RunAsUser_spec, RunAsNonRoot_spec. simpl.
    destruct (uid_of pod c) as [u|]; simpl; [destruct (Z.eqb_spec u 0) as [->|Hu]; [naive_solver|]|];
      destruct (nonroot_of pod c) as [[]|]; simpl; try naive_solver;
      destruct (Z.ltb_spec 0 u); split; naive_solver (try lia).
  - intros sc Hsc. unfold uid_of, nonroot_of. rewrite Hsc. simpl. split; intros x ->;
      [by destruct (podContext pod ≫= psc_RunAsUser)|by destruct (podContext pod ≫= psc_RunAsNonRoot)].
Qed.

(** Adding a dangerous capability or privilege never makes a container pass. *)
Lemma escalation_monotone c sc caps : ct_SecurityContext c = Some sc -> sc_Capabilities sc = Some caps ->
  (exists add, In add (cap_Add caps) /\ escalating_cap add = true) -> AllowsPrivilegeEscalation c = true.
Proof.
  intros Hs Hc (add & Hin & He). unfold AllowsPrivilegeEscalation. rewrite Hs, Hc.
  destruct (sc_AllowPrivilegeEscalation sc); [|done]. destruct (default false _); [done|].
  replace (existsb escalating_cap (cap_Add caps)) with true; [done|]. symmetry. apply existsb_exists. eauto.
Qed.

End Precedence.
