(* ===== verification/Data.v ===== *)
(** * Report data: the structs of internal/report and internal/scanner

    One [Record] per Go struct, one field per Go field, in the source's order.
    Field names carry a prefix for their struct, since Rocq projections share one
    name space. A Go map is a [gmap]; a nil map and an empty one read alike and
    are both the empty map. An optional pointer is an [option]. *)

From Stdlib Require Import ZArith String.
From stdpp Require Import base gmap strings list.
From S2P Require Import Prelude Float64.

Set Warnings "-register-all".

(** ** Decoded JSON

    A value of Go type [any] that came out of [encoding/json]. An object keeps its
    members in a list; [encoding/json] writes map keys in sorted order. *)
Inductive json :=
| JNull
| JBool (b : bool)
| JNum (x : float64)
| JStr (s : string)
| JArr (l : list json)
| JObj (members : list (string * json)).

(** internal/util/num.go [Float64], on the types JSON decoding produces. *)
Definition util_Float64 (v : option json) : option float64 :=
  match v with Some (JNum n) => Some n | _ => None end.

Definition is_null (v : json) : bool := match v with JNull => true | _ => false end.

(** [genericMap]: a payload as a map from field names, or nil (the empty map) for
    a payload that is not an object. On decoded JSON the round trip through
    [encoding/json] is the identity. *)
Definition genericMap (data : json) : gmap string json :=
  match data with JObj kv => list_to_map kv | _ => ∅ end.

(** ** internal/scanner *)

Abbreviation State := string.
Definition StateOK : State := "".
Definition StateDegraded : State := "degraded".
Definition StateErrored : State := "errored".
Definition StateUnavailable : State := "unavailable".

Record Result := {
  res_Scanner : string;
  res_State : State;
  res_Reason : string;
  res_Data : json
}.

(** ** internal/report *)

Definition NormKindNumeric : string := "numeric".
Definition NormKindString : string := "string".
Definition NormKindSet : string := "set".
Definition NormScopeFleet : string := "fleet".

Record NormBasis := {
  nb_Scope : string;
  nb_Field : string;
  nb_Kind : string;
  nb_Median : float64;
  nb_MAD : float64;
  nb_Mode : string;
  nb_ModeShare : float64;
  nb_Consensus : list string;
  nb_Missing : list string;
  nb_SampleSize : nat;
  nb_Threshold : float64;
  nb_Value : string;
  nb_Z : float64;
  nb_LimitedSample : bool;
  nb_Exact : bool;
  nb_NoWhatIf : string
}.

Record OutlierResult := {
  or_Cluster : string;
  or_Field : string;
  or_Value : string;
  or_FleetNorm : string;
  or_Deviation : float64;
  or_Scanner : string;
  or_Severity : string;
  or_Scope : string;
  or_Kind : string;
  or_Median : float64;
  or_MAD : float64;
  or_Mode : string;
  or_ModeShare : float64;
  or_Consensus : list string;
  or_Missing : list string;
  or_SampleSize : nat;
  or_Threshold : float64;
  or_Z : float64;
  or_ExplainedBy : string;
  or_LimitedSample : bool;
  or_Exact : bool;
  or_Favorable : bool
}.

Record ClusterValue := {
  cv_Cluster : string;
  cv_Number : option float64;
  cv_Text : string;
  cv_Size : nat;
  cv_Missing : list string;
  cv_Z : float64;
  cv_Outlier : bool;
  cv_Explained : string
}.

(** The zero [ClusterValue], what a failed Go map lookup yields. *)
Definition cv_zero : ClusterValue := {|
  cv_Cluster := ""; cv_Number := None; cv_Text := ""; cv_Size := 0; cv_Missing := [];
  cv_Z := f_zero; cv_Outlier := false; cv_Explained := "" |}.

Record Distribution := {
  di_Scope : string;
  di_Scanner : string;
  di_Field : string;
  di_Kind : string;
  di_Values : list ClusterValue;
  di_Median : float64;
  di_MAD : float64;
  di_Band : float64;
  di_Threshold : float64;
  di_Mode : string;
  di_ModeShare : float64;
  di_Consensus : list string;
  di_SampleSize : nat;
  di_Exact : bool;
  di_LimitedSample : bool;
  di_Mass : float64
}.

Record Remediation := {
  re_Command : string;
  re_YAML : string;
  re_RunbookURL : string
}.

Record ClusterMark := {
  cm_Cluster : string;
  cm_Severity : string
}.

Record Finding := {
  fi_Title : string;
  fi_Description : string;
  fi_Severity : string;
  fi_Cluster : string;
  fi_Scanner : string;
  fi_Rule : string;
  fi_Fingerprint : string;
  fi_Acked : bool;
  fi_Affected : list string;
  fi_Remediation : option Remediation;
  fi_Norm : option NormBasis;
  fi_Marks : list ClusterMark
}.

Record ClusterHealth := {
  ch_Name : string;
  ch_Status : string;
  ch_FindingCounts : gmap string nat;
  ch_KubernetesVersion : string;
  ch_NodeCount : Z;
  ch_HealthyNodes : Z;
  ch_AvgCPU : float64;
  ch_AvgMemory : float64;
  ch_WarningEvents : Z;
  ch_NamespaceCount : Z;
  ch_DegradedScanners : nat;
  ch_BlindScanners : nat
}.

Record ScoreTerm := {
  st_Term : string;
  st_Reason : string;
  st_Count : nat;
  st_Raw : float64;
  st_Cap : float64;
  st_Cost : float64
}.

Record ScoreEntry := {
  se_Term : string;
  se_Rule : string;
  se_Cluster : string;
  se_Raw : float64;
  se_Cost : float64
}.

Record ScoreAttribution := {
  sa_Terms : list ScoreTerm;
  sa_Entries : list ScoreEntry;
  sa_Total : float64;
  sa_ByCluster : gmap string float64;
  sa_ByRule : gmap string float64
}.

Record FleetScoreDriver := {
  fd_Reason : string;
  fd_Impact : Z
}.

Record FleetCoverage := {
  co_ExpectedRuns : nat;
  co_ObservedRuns : nat;
  co_BlindRuns : nat;
  co_BlindClusters : nat;
  co_Fraction : float64
}.

Record FleetScore := {
  fs_Score : Z;
  fs_Grade : string;
  fs_Graded : bool;
  fs_Coverage : FleetCoverage;
  fs_Headline : string;
  fs_Drivers : list FleetScoreDriver;
  fs_SampleSize : nat;
  fs_Dimensions : nat;
  fs_ExcludedClusters : nat
}.

Record ScannerStatus := {
  ss_Cluster : string;
  ss_Scanner : string;
  ss_State : State;
  ss_Reason : string
}.

Record Divergence := {
  dv_Field : string;
  dv_Values : gmap string string
}.

Record SectionReport := {
  sr_Uniform : bool;
  sr_PerCluster : gmap string json;
  sr_Divergences : list Divergence
}.

Record CohortSummary := {
  cs_Name : string;
  cs_Source : string;
  cs_Clusters : list string;
  cs_Outliers : list OutlierResult
}.

Record Summary := {
  su_ClusterCount : nat;
  su_ScannerCount : nat;
  su_UniformCount : nat;
  su_DivergentCount : nat;
  su_TotalDivergences : nat;
  su_CriticalCount : nat;
  su_WarningCount : nat
}.

Record Incident := {
  in_Cluster : string;
  in_Title : string;
  in_Theme : string;
  in_Severity : string;
  in_Summary : string;
  in_Findings : list string
}.

(** [Report], without the parts no modelled operation reads or writes: Timestamp,
    Categories, Capacity and Brief. *)
Record Report := {
  rp_Clusters : list string;
  rp_Sections : gmap string SectionReport;
  rp_Summary : Summary;
  rp_Findings : list Finding;
  rp_ClusterHealths : list ClusterHealth;
  rp_Outliers : list OutlierResult;
  rp_Distributions : list Distribution;
  rp_DeviationMass : gmap string float64;
  rp_ScoreAttribution : option ScoreAttribution;
  rp_FleetScore : FleetScore;
  rp_Cohorts : list CohortSummary;
  rp_Degraded : list ScannerStatus;
  rp_Incidents : list Incident;
  rp_Notes : list string;
  rp_runs : option (gmap (string * string) State)
}.

(** ** Zero values *)

Definition coverage_zero : FleetCoverage := {|
  co_ExpectedRuns := 0; co_ObservedRuns := 0; co_BlindRuns := 0; co_BlindClusters := 0; co_Fraction := f_zero |}.

Definition fleet_score_zero : FleetScore := {|
  fs_Score := 0; fs_Grade := ""; fs_Graded := false; fs_Coverage := coverage_zero; fs_Headline := "";
  fs_Drivers := []; fs_SampleSize := 0; fs_Dimensions := 0; fs_ExcludedClusters := 0 |}.

Definition summary_zero : Summary := {|
  su_ClusterCount := 0; su_ScannerCount := 0; su_UniformCount := 0; su_DivergentCount := 0;
  su_TotalDivergences := 0; su_CriticalCount := 0; su_WarningCount := 0 |}.

Definition attribution_zero : ScoreAttribution := {|
  sa_Terms := []; sa_Entries := []; sa_Total := f_zero; sa_ByCluster := ∅; sa_ByRule := ∅ |}.

Definition report_zero : Report := {|
  rp_Clusters := []; rp_Sections := ∅; rp_Summary := summary_zero; rp_Findings := [];
  rp_ClusterHealths := []; rp_Outliers := []; rp_Distributions := []; rp_DeviationMass := ∅;
  rp_ScoreAttribution := None; rp_FleetScore := fleet_score_zero; rp_Cohorts := []; rp_Degraded := [];
  rp_Incidents := []; rp_Notes := []; rp_runs := None |}.

Definition finding_zero : Finding := {|
  fi_Title := ""; fi_Description := ""; fi_Severity := ""; fi_Cluster := ""; fi_Scanner := "";
  fi_Rule := ""; fi_Fingerprint := ""; fi_Acked := false; fi_Affected := []; fi_Remediation := None;
  fi_Norm := None; fi_Marks := [] |}.

Definition health_zero : ClusterHealth := {|
  ch_Name := ""; ch_Status := ""; ch_FindingCounts := ∅; ch_KubernetesVersion := ""; ch_NodeCount := 0;
  ch_HealthyNodes := 0; ch_AvgCPU := f_zero; ch_AvgMemory := f_zero; ch_WarningEvents := 0;
  ch_NamespaceCount := 0; ch_DegradedScanners := 0; ch_BlindScanners := 0 |}.

(** Functional record updates the components need. *)
Definition with_findings (r : Report) (fs : list Finding) : Report := {|
  rp_Clusters := rp_Clusters r; rp_Sections := rp_Sections r; rp_Summary := rp_Summary r; rp_Findings := fs;
  rp_ClusterHealths := rp_ClusterHealths r; rp_Outliers := rp_Outliers r;
  rp_Distributions := rp_Distributions r; rp_DeviationMass := rp_DeviationMass r;
  rp_ScoreAttribution := rp_ScoreAttribution r; rp_FleetScore := rp_FleetScore r; rp_Cohorts := rp_Cohorts r;
  rp_Degraded := rp_Degraded r; rp_Incidents := rp_Incidents r; rp_Notes := rp_Notes r; rp_runs := rp_runs r |}.

Definition with_scoring (r : Report) (s : Summary) (fs : FleetScore) (a : ScoreAttribution) : Report := {|
  rp_Clusters := rp_Clusters r; rp_Sections := rp_Sections r; rp_Summary := s; rp_Findings := rp_Findings r;
  rp_ClusterHealths := rp_ClusterHealths r; rp_Outliers := rp_Outliers r;
  rp_Distributions := rp_Distributions r; rp_DeviationMass := rp_DeviationMass r;
  rp_ScoreAttribution := Some a; rp_FleetScore := fs; rp_Cohorts := rp_Cohorts r;
  rp_Degraded := rp_Degraded r; rp_Incidents := rp_Incidents r; rp_Notes := rp_Notes r; rp_runs := rp_runs r |}.

(** An [int] and a []string as [json.Marshal] writes them and the report reads them back. *)
Definition count_json (n : nat) : json := JNum (f_of_Z (Z.of_nat n)).

Definition strings_json (l : list string) : json := JArr (map JStr l).
