(* ===== verification/Fingerprint.v ===== *)
(** * internal/util/fingerprint.go: the identity of a finding

    SHA-256 is standard-library code the fingerprint is made of, so it is written
    out here (FIPS 180-4, on 32-bit words) and the fingerprint of a finding can be
    evaluated. No theorem assumes anything about collisions: what is proved is
    that distinct (cluster, scanner, rule) triples hash distinct messages. *)

From Stdlib Require Import ZArith Lia String Ascii.
From stdpp Require Import base list strings sets.
From S2P Require Import Prelude Text.

Local Open Scope Z_scope.

(** ** SHA-256 *)

Definition w32 (x : Z) : Z := Z.land x 4294967295.
Definition add32 (x y : Z) : Z := w32 (x + y).
Definition rotr (n x : Z) : Z := Z.lor (Z.shiftr x n) (w32 (Z.shiftl x (32 - n))).
Definition not32 (x : Z) : Z := Z.lxor x 4294967295.

Definition Ch (x y z : Z) : Z := Z.lxor (Z.land x y) (Z.land (not32 x) z).
Definition Maj (x y z : Z) : Z := Z.lxor (Z.lxor (Z.land x y) (Z.land x z)) (Z.land y z).
Definition Sigma0 (x : Z) : Z := Z.lxor (Z.lxor (rotr 2 x) (rotr 13 x)) (rotr 22 x).
Definition Sigma1 (x : Z) : Z := Z.lxor (Z.lxor (rotr 6 x) (rotr 11 x)) (rotr 25 x).
Definition sigma0 (x : Z) : Z := Z.lxor (Z.lxor (rotr 7 x) (rotr 18 x)) (Z.shiftr x 3).
Definition sigma1 (x : Z) : Z := Z.lxor (Z.lxor (rotr 17 x) (rotr 19 x)) (Z.shiftr x 10).

(** The round constants and the initial state are the first 32 bits of the
    fractional parts of the cube and square roots of the first primes, computed
    here from that definition. *)
Definition sha_primes : list Z :=
  List.filter (fun n => forallb (fun d => (n <=? Z.of_nat d) || negb (n mod Z.of_nat d =? 0)) (seq 2 310))
    (map Z.of_nat (seq 2 310)).

Definition cube_root (bits : nat) (n : Z) : Z :=
  fold_left (fun r i => let r' := r + 2 ^ Z.of_nat i in if r' * r' * r' <=? n then r' else r)
    (rev (seq 0 bits)) 0.

Definition sha_k : list Z := Eval vm_compute in
  map (fun p => w32 (cube_root 36 (p * 2 ^ 96))) (take 64 sha_primes).

Definition sha_h0 : list Z := Eval vm_compute in
  map (fun p => w32 (Z.sqrt (p * 2 ^ 64))) (take 8 sha_primes).

Definition byte_Z (c : ascii) : Z := Z.of_N (N_of_ascii c).

(** The message schedule, newest word first. *)
Fixpoint schedule (n : nat) (w : list Z) : list Z :=
  match n with
  | O => w
  | S n' =>
      let x := add32 (add32 (sigma1 (nth 1 w 0)) (nth 6 w 0)) (add32 (sigma0 (nth 14 w 0)) (nth 15 w 0)) in
      schedule n' (x :: w)
  end.

Definition sha_round (h : list Z) (kw : Z * Z) : list Z :=
  match h with
  | [a; b; c; d; e; f; g; hh] =>
      let t1 := add32 (add32 (add32 hh (Sigma1 e)) (Ch e f g)) (add32 (fst kw) (snd kw)) in
      let t2 := add32 (Sigma0 a) (Maj a b c) in
      [add32 t1 t2; a; b; c; add32 d t1; e; f; g]
  | _ => h
  end.

Definition sha_block (h : list Z) (block : list Z) : list Z :=
  let w := rev (schedule 48 (rev block)) in
  zip_with add32 h (fold_left sha_round (zip sha_k w) h).

Fixpoint words (l : list Z) : list Z :=
  match l with
  | a :: b :: c :: d :: l' => (a * 16777216 + b * 65536 + c * 256 + d) :: words l'
  | _ => []
  end.

Fixpoint be_bytes (n : nat) (x : Z) : list Z :=
  match n with O => [] | S n' => be_bytes n' (x / 256) ++ [x mod 256] end.

Definition sha_pad (l : list Z) : list Z :=
  let n := Z.of_nat (length l) in
  l ++ [128] ++ repeat 0 (Z.to_nat ((55 - n) mod 64)) ++ be_bytes 8 (8 * n).

Fixpoint sha_blocks (fuel : nat) (h ws : list Z) : list Z :=
  match fuel, ws with
  | S fuel', _ :: _ => sha_blocks fuel' (sha_block h (take 16 ws)) (drop 16 ws)
  | _, _ => h
  end.

Definition sha256_of (msg : list Z) : list Z :=
  let ws := words (sha_pad msg) in
  flat_map (be_bytes 4) (sha_blocks (length ws) sha_h0 ws).

Definition sha256 (msg : bytes) : list Z := sha256_of (map byte_Z msg).

(** [hex.EncodeToString]. *)
Definition hex_digit (n : Z) : ascii :=
  ascii_of_N (Z.to_N (if n <? 10 then 48 + n else 87 + n)).

Definition hex_encode (l : list Z) : string :=
  of_bytes (flat_map (fun b => [hex_digit (b / 16); hex_digit (b mod 16)]) l).

Example sha256_abc : hex_encode (sha256 (to_bytes "abc"))
  = "ba7816bf8f01cfea414140de5dae2223b00361a396177a9cb410ff61f20015ad".
Proof. vm_compute. reflexivity. Qed.

(** ** Fingerprint *)

(** The bytes written to the hash. *)
Definition fingerprint_message (cluster scanner rule : string) : bytes :=
  to_bytes cluster ++ [zero] ++ to_bytes scanner ++ [zero] ++ to_bytes rule.

Definition Fingerprint (cluster scanner rule : string) : string :=
  hex_encode (sha256 (fingerprint_message cluster scanner rule)).

Definition no_nul (s : string) : Prop := zero ∉ to_bytes s.

Lemma split_at_nul a b l m : zero ∉ a -> zero ∉ b -> a ++ zero :: l = b ++ zero :: m -> a = b /\ l = m.
Proof.
  revert b. induction a as [|c a IH]; intros [|d b] Ha Hb H; simplify_eq/=; try done.
  - destruct Hb. constructor.
  - destruct Ha. constructor.
  - apply not_elem_of_cons in Ha as [_ Ha], Hb as [_ Hb]. by destruct (IH b) as [-> ->].
Qed.

Lemma to_bytes_inj s t : to_bytes s = to_bytes t -> s = t.
Proof. intros H. rewrite <- (of_to_bytes s), H. apply of_to_bytes. Qed.

Lemma hex_encode_length l : String.length (hex_encode l) = (2 * length l)%nat.
Proof.
  assert (Hlen : forall b, String.length (of_bytes b) = length b).
  { induction b; simpl; [done|]. by f_equal. }
  unfold hex_encode. rewrite Hlen. induction l; simpl; lia.
Qed.

Module Ids.

(** The null separators keep distinct findings apart: two different (cluster,
    scanner, rule) triples whose cluster and scanner contain no null byte hash
    different messages. *)
Theorem fingerprint_message_inj c1 s1 r1 c2 s2 r2 :
  no_nul c1 -> no_nul s1 -> no_nul c2 -> no_nul s2 -> (c1, s1, r1) <> (c2, s2, r2) ->
  fingerprint_message c1 s1 r1 <> fingerprint_message c2 s2 r2.
Proof.
  unfold no_nul, fingerprint_message. simpl. intros H1 H2 H3 H4 Hne H. apply Hne. clear Hne.
  apply split_at_nul in H as [Hc H]; [|done|done].
  apply split_at_nul in H as [Hs Hr]; [|done|done].
  apply to_bytes_inj in Hc, Hs, Hr. by subst.
Qed.

(** The same bytes cut differently: only the separators tell the triples apart. *)
Lemma fingerprint_message_inj_witness :
  fingerprint_message "prod-1" "rbac" "rule" <> fingerprint_message "prod-" "1rbac" "rule".
Proof.
  apply (fingerprint_message_inj "prod-1" "rbac" "rule" "prod-" "1rbac" "rule");
    try (unfold no_nul; apply (bool_decide_unpack _); vm_compute; exact I).
Defined.

End Ids.

(** ** The shape of a digest *)

Definition is_byte (b : Z) : Prop := 0 <= b < 256.

Lemma be_bytes_spec n x : length (be_bytes n x) = n /\ Forall is_byte (be_bytes n x).
Proof.
  revert x. induction n as [|n IH]; intros x; simpl; [done|]. destruct (IH (x / 256)) as [H1 H2]. split.
  - rewrite length_app, H1. simpl. lia.
  - apply Forall_app. split; [done|]. constructor; [apply Z.mod_pos_bound; lia|constructor].
Qed.

Lemma sha_round_length h kw : length (sha_round h kw) = length h.
Proof. destruct h as [|a [|b [|c [|d [|e [|f [|g [|i [|j h]]]]]]]]]; reflexivity. Qed.

Lemma sha_block_length h block : length (sha_block h block) = length h.
Proof.
  unfold sha_block. rewrite length_zip_with. generalize (zip sha_k (rev (schedule 48 (rev block)))) as kws.
  intros kws. enough (forall h', length (fold_left sha_round kws h') = length h') as -> by lia.
  induction kws as [|kw kws IH]; intros h'; simpl; [done|]. by rewrite IH, sha_round_length.
Qed.

Lemma sha_blocks_length fuel h ws : length (sha_blocks fuel h ws) = length h.
Proof.
  revert h ws. induction fuel as [|fuel IH]; intros h [|w ws]; simpl; try done. by rewrite IH, sha_block_length.
Qed.

Lemma flat_be_bytes l : length (flat_map (be_bytes 4) l) = (4 * length l)%nat /\ Forall is_byte (flat_map (be_bytes 4) l).
Proof.
  induction l as [|x l [IH1 IH2]]; cbn [flat_map]; [done|]. destruct (be_bytes_spec 4 x) as [H1 H2]. split.
  - rewrite length_app, IH1, H1. cbn [length]. lia.
  - by apply Forall_app.
Qed.

Lemma sha256_shape msg : length (sha256_of msg) = 32%nat /\ Forall is_byte (sha256_of msg).
Proof.
  unfold sha256_of. destruct (flat_be_bytes (sha_blocks (length (words (sha_pad msg))) sha_h0 (words (sha_pad msg)))) as [H1 H2].
  split; [|done]. rewrite H1, sha_blocks_length. reflexivity.
Qed.
