(* ===== verification/Seal.v ===== *)
(** * internal/seal: seal.go and bundle.go

    The signature of a bundle's manifest, the manifest's check of every file, and the
    checks on the archive's entries. Gzip and tar are the standard library's: an archive
    is the list of its entries. *)

From Stdlib Require Import ZArith Lia String Ascii.
From stdpp Require Import base gmap strings list sorting.
From S2P Require Import Prelude Text Strs Fingerprint.

Local Open Scope nat_scope.

(** ** crypto/hmac with SHA-256 (RFC 2104) *)

Definition block_size : nat := 64.

Definition hmac_key (key : bytes) : list Z :=
  let k := if block_size <? length key then sha256 key else map byte_Z key in
  k ++ repeat 0%Z (block_size - length k).

Definition hmac (key data : bytes) : list Z :=
  let k := hmac_key key in
  sha256_of (map (Z.lxor 92) k ++ sha256_of (map (Z.lxor 54) k ++ map byte_Z data)).

(** The first test case of RFC 4231. *)
Example hmac_ex : hex_encode (hmac (repeat (ascii_of_nat 11) 20) (to_bytes "Hi There")) =
  "b0344c61d8db38535ca8afceaf0bf12b881dc200c9833da726e9376c2e32cff7".
Proof. vm_compute. reflexivity. Qed.

(** ** encoding/hex *)

Definition hex_val (c : ascii) : option Z :=
  let n := byte_Z c in
  if byte_in 48 57 c then Some (n - 48)%Z
  else if byte_in 97 102 c then Some (n - 87)%Z
  else if byte_in 65 70 c then Some (n - 55)%Z
  else None.

(** [hex.DecodeString]: an odd length or a byte that is no digit is an error. *)
Fixpoint hex_decode (l : bytes) : option (list Z) :=
  match l with
  | [] => Some []
  | a :: b :: l' =>
      match hex_val a, hex_val b, hex_decode l' with
      | Some x, Some y, Some r => Some ((16 * x + y)%Z :: r)
      | _, _, _ => None
      end
  | [_] => None
  end.

(** ** seal.go *)

Definition Prefix : string := "sha256=".
Definition ManifestFile : string := "MANIFEST".
Definition FileName : string := "MANIFEST.sig".

(** The package's error values, with what their messages name. *)
Inductive seal_error :=
| ErrMissingKey
| ErrMalformed
| ErrMismatch
| ErrManifest (why : string)
| ErrContents (problems : list string)
| ErrUnsealed
| ErrBundle (why : string).

Definition Sign (data key : string) : string + seal_error :=
  if String.eqb key "" then inr ErrMissingKey
  else inl (Prefix ++ hex_encode (hmac (to_bytes key) (to_bytes data)))%string.

Definition decodeSignature (signature : string) : list Z + seal_error :=
  let signature := TrimSpace signature in
  if negb (String.prefix Prefix signature) then inr ErrMalformed
  else match hex_decode (to_bytes (TrimPrefix signature Prefix)) with
       | None => inr ErrMalformed
       | Some raw => if length raw =? 32 then inl raw else inr ErrMalformed
       end.

(** [None] is the nil error. *)
Definition Verify (data signature key : string) : option seal_error :=
  if String.eqb key "" then Some ErrMissingKey
  else match decodeSignature signature with
       | inr err => Some err
       | inl provided => if bool_decide (hmac (to_bytes key) (to_bytes data) = provided) then None else Some ErrMismatch
       end.

(** The path-to-contents maps of the code. *)
Abbreviation Files := (gmap string string).

Definition reserved (name : string) : bool := String.eqb name ManifestFile || String.eqb name FileName.

Definition sum_hex (data : string) : string := hex_encode (sha256 (to_bytes data)).

Definition newline : ascii := "010"%char.

Definition manifest_line (files : Files) (name : string) : string :=
  (sum_hex (default "" (files !! name)) ++ "  " ++ name ++ String newline "")%string.

Definition manifest_names (files : Files) : list string :=
  sort_strings (List.filter (fun n => negb (reserved n)) (map fst (map_to_list files))).

Definition Manifest (files : Files) : string := String.concat "" (map (manifest_line files) (manifest_names files)).

(** [bufio.Scanner] over lines: the text between newlines, a last line without one
    included, each without one trailing carriage return. *)
Fixpoint split_lines (s : string) : list string :=
  match s with
  | EmptyString => []
  | String c s' =>
      if Ascii.eqb c newline then "" :: split_lines s'
      else match split_lines s' with
           | l :: ls => String c l :: ls
           | [] => [String c ""]
           end
  end.

Definition maxScanTokenSize : nat := 65536.

Definition drop_cr (s : string) : string := TrimSuffix s (String "013" "").

(** The loop over the lines, with the names listed so far. *)
Fixpoint read_manifest (lines : list string) (listed : gmap string string) : gmap string string + seal_error :=
  match lines with
  | [] => inl listed
  | raw :: lines' =>
      if maxScanTokenSize <=? String.length raw then inr (ErrManifest "token too long")
      else
        let line := drop_cr raw in
        match Cut line "  " with
        | Some (sum, name) =>
            if String.eqb name "" || negb (String.length sum =? 64) then inr (ErrManifest ("line " ++ line)%string)
            else match listed !! name with
                 | Some _ => inr (ErrManifest (name ++ " listed twice")%string)
                 | None => read_manifest lines' (<[name := sum]> listed)
                 end
        | None => inr (ErrManifest ("line " ++ line)%string)
        end
  end.

Definition listed_problem (files : Files) (entry : string * string) : list string :=
  match files !! fst entry with
  | None => [("missing " ++ fst entry)%string]
  | Some data => if String.eqb (sum_hex data) (snd entry) then [] else [("altered " ++ fst entry)%string]
  end.

Definition unlisted_problem (listed : gmap string string) (name : string) : list string :=
  match listed !! name with
  | Some _ => []
  | None => if reserved name then [] else [("unlisted " ++ name)%string]
  end.

Definition manifest_problems (listed : gmap string string) (files : Files) : list string :=
  flat_map (listed_problem files) (map_to_list listed) ++ flat_map (unlisted_problem listed) (map fst (map_to_list files)).

Definition CheckManifest (manifest : string) (files : Files) : option seal_error :=
  match read_manifest (split_lines manifest) ∅ with
  | inr err => Some err
  | inl listed =>
      match manifest_problems listed files with
      | [] => None
      | problems => Some (ErrContents (sort_strings problems))
      end
  end.

(** ** bundle.go *)

Definition Bundle (files : Files) (key : string) : (Files * string) + seal_error :=
  let manifest := Manifest files in
  match Sign manifest key with
  | inr err => inr err
  | inl sig => inl (<[FileName := (sig ++ String newline "")%string]> (<[ManifestFile := manifest]> files), sig)
  end.

Definition VerifyBundle (files : Files) (key : string) : option seal_error :=
  match files !! ManifestFile, files !! FileName with
  | Some manifest, Some sig =>
      match Verify manifest sig key with
      | Some err => Some err
      | None => CheckManifest manifest files
      end
  | _, _ => Some ErrUnsealed
  end.

(** [path.Clean], on the elements between slashes. *)
Definition path_elems (s : string) : list string := map of_bytes (split_on "/" [] (to_bytes s)).

Definition clean_step (rooted : bool) (out : list string) (elem : string) : list string :=
  if String.eqb elem "" || String.eqb elem "." then out
  else if String.eqb elem ".." then
    match last out with
    | Some e => if String.eqb e ".." then out ++ [".."] else removelast out
    | None => if rooted then [] else [".."]
    end
  else out ++ [elem].

Definition IsAbs (s : string) : bool := String.prefix "/" s.

Definition Clean (s : string) : string :=
  let rooted := IsAbs s in
  let out := fold_left (clean_step rooted) (path_elems s) [] in
  if rooted then ("/" ++ join "/" out)%string
  else match out with [] => "." | _ => join "/" out end.

Example Clean_ex : map Clean ["a/b"; "a//b/"; "./a/../b"; "../a"; "/../a"; ""; "a/.."] =
  ["a/b"; "a/b"; "b"; "../a"; "/a"; "."; "."].
Proof. vm_compute. reflexivity. Qed.

Inductive entry_kind := TypeDir | TypeReg | TypeOther.
Record tar_entry := { te_Name : string; te_Kind : entry_kind; te_Data : string }.

(** [WriteBundle]'s entries, in path order. *)
Definition path_join (root name : string) : string := Clean (root ++ "/" ++ name)%string.

Definition WriteBundle (root : string) (files : Files) : list tar_entry :=
  map (fun name => {| te_Name := path_join root name; te_Kind := TypeReg; te_Data := default "" (files !! name) |})
    (sort_strings (map fst (map_to_list files))).

Definition unsafe_path (name : string) : bool :=
  let clean := Clean name in
  negb (String.eqb clean name) || IsAbs clean || String.prefix "../" clean || String.eqb clean "..".

(** The body of [ReadBundle]'s loop on one entry; the state is the root, empty until the
    first file, and the files. *)
Definition read_entry (root : string) (files : Files) (e : tar_entry) : (string * Files) + seal_error :=
  match te_Kind e with
  | TypeDir => inl (root, files)
  | TypeOther => inr (ErrBundle (te_Name e ++ " is not a regular file")%string)
  | TypeReg =>
      if unsafe_path (te_Name e) then inr (ErrBundle ("unsafe path " ++ te_Name e)%string)
      else match Cut (te_Name e) "/" with
           | None => inr (ErrBundle (te_Name e ++ " is outside the bundle root")%string)
           | Some (top, rel) =>
               if negb (String.eqb root "") && negb (String.eqb top root) then
                 inr (ErrBundle ("entries under both " ++ root ++ " and " ++ top)%string)
               else match files !! rel with
                    | Some _ => inr (ErrBundle (rel ++ " appears twice")%string)
                    | None => inl (top, <[rel := te_Data e]> files)
                    end
           end
  end.

Fixpoint read_entries (entries : list tar_entry) (root : string) (files : Files) : (string * Files) + seal_error :=
  match entries with
  | [] => if String.eqb root "" then inr (ErrBundle "no files") else inl (root, files)
  | e :: entries' =>
      match read_entry root files e with
      | inr err => inr err
      | inl (root', files') => read_entries entries' root' files'
      end
  end.

Definition ReadBundle (entries : list tar_entry) : (string * Files) + seal_error := read_entries entries "" ∅.

Example split_lines_ex : split_lines (of_bytes ["a"; "b"; "010"; "010"; "c"]%char) = ["ab"; ""; "c"].
Proof. vm_compute. reflexivity. Qed.

Example bundle_ex : match Bundle {["report.json" := "{}"]} "key" with
  | inl (files, _) => VerifyBundle files "key" = None
  | inr _ => False
  end.
Proof. vm_compute. reflexivity. Qed.

(** ** Hexadecimal *)

Lemma hex_digit_val n : (0 <= n < 16)%Z -> hex_val (hex_digit n) = Some n /\ is_alnum (hex_digit n) = true.
Proof.
  intros H. assert (In n (map Z.of_nat (seq 0 16))) as Hin.
  { apply in_map_iff. exists (Z.to_nat n). split; [lia|apply in_seq; lia]. }
  assert (forallb (fun n => bool_decide (hex_val (hex_digit n) = Some n) && is_alnum (hex_digit n)) (map Z.of_nat (seq 0 16)) = true)
    as Hall by (vm_compute; reflexivity).
  rewrite forallb_forall in Hall. specialize (Hall n Hin). apply andb_true_iff in Hall as [H1 H2].
  by apply bool_decide_eq_true in H1.
Qed.

Definition hex_bytes (l : list Z) : bytes := flat_map (fun b => [hex_digit (b / 16); hex_digit (b mod 16)]) l.

Lemma hex_encode_bytes l : to_bytes (hex_encode l) = hex_bytes l.
Proof. apply to_of_bytes. Qed.

Lemma nibbles b : is_byte b -> (0 <= b / 16 < 16)%Z /\ (0 <= b mod 16 < 16)%Z /\ (16 * (b / 16) + b mod 16 = b)%Z.
Proof.
  unfold is_byte. intros H. pose proof (Z.div_mod b 16 ltac:(lia)). pose proof (Z.mod_pos_bound b 16 ltac:(lia)).
  split_all; try lia; first [apply Z.div_pos; lia|apply Z.div_lt_upper_bound; lia].
Qed.

Lemma hex_roundtrip l : Forall is_byte l -> hex_decode (hex_bytes l) = Some l.
Proof.
  induction 1 as [|b l Hb _ IH]; [done|]. cbn [hex_bytes flat_map app hex_decode]. fold (hex_bytes l).
  destruct (nibbles b Hb) as (H1 & H2 & H3). rewrite (proj1 (hex_digit_val _ H1)), (proj1 (hex_digit_val _ H2)), IH.
  by rewrite H3.
Qed.

Lemma hex_alnum l : Forall is_byte l -> forallb is_alnum (hex_bytes l) = true.
Proof.
  induction 1 as [|b l Hb _ IH]; [done|]. cbn [hex_bytes flat_map app forallb]. fold (hex_bytes l).
  destruct (nibbles b Hb) as (H1 & H2 & _). by rewrite (proj2 (hex_digit_val _ H1)), (proj2 (hex_digit_val _ H2)), IH.
Qed.

(** ** Signatures *)

Lemma hmac_shape key data : length (hmac key data) = 32 /\ Forall is_byte (hmac key data).
Proof. apply sha256_shape. Qed.

(** A signature is read back with or without the newline its file ends in. *)
Lemma decode_signed m : length m = 32 -> Forall is_byte m ->
  decodeSignature (Prefix ++ hex_encode m ++ String newline "") = inl m.
Proof.
  intros Hl Hm. unfold decodeSignature.
  assert (exists l b, hex_bytes m = l ++ [b] /\ is_alnum b = true) as (l & b & Hlb & Hb).
  { pose proof (hex_alnum m Hm) as Ha. destruct m as [|z m] using rev_ind; [done|].
    unfold hex_bytes in *. rewrite flat_map_app in *. cbn [flat_map app] in *.
    exists (flat_map (fun b => [hex_digit (b / 16); hex_digit (b mod 16)]) m ++ [hex_digit (z / 16)]), (hex_digit (z mod 16)).
    split; [by rewrite <- app_assoc|]. rewrite !forallb_app in Ha. simpl in Ha. by repeat apply andb_true_iff in Ha as [? Ha]. }
  assert (TrimSpace (Prefix ++ hex_encode m ++ String newline "") = (Prefix ++ hex_encode m)%string) as ->.
  { assert (forall s t, to_bytes s = t -> s = of_bytes t) as Hof by (intros s t <-; symmetry; apply of_to_bytes).
    rewrite (Hof (Prefix ++ hex_encode m ++ String newline "")%string ("s"%char :: (to_bytes "ha256=" ++ l) ++ [b; "010"%char])).
    - rewrite TrimSpace_line by done. symmetry. apply Hof. rewrite to_bytes_app, hex_encode_bytes, Hlb, app_assoc. done.
    - rewrite !to_bytes_app, hex_encode_bytes, Hlb. rewrite <- !app_assoc. done. }
  destruct (prefix_drop Prefix (hex_encode m)) as [H1 H2]. rewrite H1. unfold TrimPrefix. rewrite H1, H2. simpl negb. cbv iota.
  rewrite hex_encode_bytes, hex_roundtrip, Hl by done. done.
Qed.

Lemma sign_verify data key sig : Sign data key = inl sig -> Verify data (sig ++ String newline "") key = None.
Proof.
  unfold Sign, Verify. destruct (String.eqb key ""); [done|]. intros [= <-].
  destruct (hmac_shape (to_bytes key) (to_bytes data)) as [H1 H2].
  assert (forall a b c : string, ((a ++ b) ++ c = a ++ b ++ c)%string) as Hassoc.
  { intros a b c. apply to_bytes_inj. by rewrite !to_bytes_app, app_assoc. }
  rewrite Hassoc, decode_signed by done. by rewrite bool_decide_eq_true_2.
Qed.

(** ** The manifest *)

Lemma flat_map_nil {A B} (f : A -> list B) l : flat_map f l = [] <-> forall a, In a l -> f a = [].
Proof.
  induction l as [|a l IH]; simpl; [done|]. rewrite app_nil, IH. split; [|auto].
  intros [H1 H2] b [<-|Hb]; auto.
Qed.

(** The files are the listed ones, digest for digest. *)
Definition matches (listed : gmap string string) (files : Files) : Prop :=
  (forall name sum, listed !! name = Some sum -> sum_hex <$> files !! name = Some sum) /\
  (forall name, reserved name = false -> is_Some (files !! name) -> is_Some (listed !! name)).

Lemma problems_nil listed files : manifest_problems listed files = [] <-> matches listed files.
Proof.
  unfold manifest_problems, matches. rewrite app_nil, !flat_map_nil. split; intros [H1 H2]; split.
  - intros name sum Hl. apply elem_of_map_to_list, list_elem_of_In in Hl. specialize (H1 _ Hl). unfold listed_problem in H1.
    simpl in H1. destruct (files !! name) as [data|]; [|done]. simpl.
    destruct (String.eqb_spec (sum_hex data) sum) as [->|]; [done|discriminate].
  - intros name Hr [data Hf]. assert (In name (map fst (map_to_list files))) as Hin.
    { apply in_map_iff. exists (name, data). split; [done|]. by apply list_elem_of_In, elem_of_map_to_list. }
    specialize (H2 _ Hin). unfold unlisted_problem in H2. rewrite Hr in H2. destruct (listed !! name); [by eexists|discriminate].
  - intros [name sum] Hin. apply list_elem_of_In, elem_of_map_to_list in Hin. specialize (H1 _ _ Hin). unfold listed_problem.
    simpl. destruct (files !! name) as [data|]; simpl in H1; [|done]. injection H1 as ->. by rewrite String.eqb_refl.
  - intros name Hin. apply in_map_iff in Hin as ([n data] & <- & Hin). apply list_elem_of_In, elem_of_map_to_list in Hin.
    unfold unlisted_problem. simpl. destruct (reserved n) eqn:Er; [by destruct (listed !! n)|].
    destruct (H2 n Er) as [sum ->]; [by eexists|done].
Qed.

Lemma CheckManifest_spec manifest files :
  CheckManifest manifest files = None <->
  exists listed, read_manifest (split_lines manifest) ∅ = inl listed /\ matches listed files.
Proof.
  unfold CheckManifest. destruct (read_manifest _ _) as [listed|err].
  - destruct (manifest_problems listed files) eqn:E.
    + split; [intros _; exists listed; split; [done|]; by apply problems_nil|done].
    + split; [done|]. intros (l' & [= <-] & H). apply problems_nil in H. congruence.
  - split; [done|]. by intros (? & ? & _).
Qed.

(** Names a manifest line can hold. *)
Definition line_name (name : string) : bool :=
  negb (String.eqb name "") && no_byte newline name && negb (HasSuffix name (String "013" "")) &&
  (String.length name <? maxScanTokenSize - 66).

Lemma split_lines_line s t : no_byte newline s = true -> split_lines (s ++ String newline t) = s :: split_lines t.
Proof.
  induction s as [|c s IH]; [done|]. intros [Hc Hs]%andb_true_iff. apply negb_true_iff in Hc.
  change (String c s ++ String newline t)%string with (String c (s ++ String newline t)%string). cbn [split_lines].
  by rewrite Hc, IH.
Qed.

Lemma Cut_line s t : no_byte " " s = true -> Cut (s ++ "  " ++ t) "  " = Some (s, t).
Proof.
  induction s as [|c s IH]; [intros _; by destruct t|]. intros [Hc Hs]%andb_true_iff.
  change (String c s ++ "  " ++ t)%string with (String c (s ++ "  " ++ t)%string).
  cbn [Cut String.prefix]. destruct (ascii_dec " " c) as [<-|]; [done|]. by rewrite IH.
Qed.

Lemma alnum_no_byte c s : is_alnum c = false -> forallb is_alnum (to_bytes s) = true -> no_byte c s = true.
Proof.
  intros Hc. induction s as [|a s IH]; simpl; [done|]. intros [Ha Hs]%andb_true_iff. rewrite IH by done.
  destruct (Ascii.eqb_spec a c) as [->|]; [congruence|done].
Qed.

Lemma sum_hex_alnum data : forallb is_alnum (to_bytes (sum_hex data)) = true.
Proof. unfold sum_hex. rewrite hex_encode_bytes. apply hex_alnum, sha256_shape. Qed.

Lemma sum_hex_length data : String.length (sum_hex data) = 64.
Proof. unfold sum_hex. rewrite hex_encode_length. unfold sha256. by rewrite (proj1 (sha256_shape _)). Qed.

(** The text of a line without its newline. *)
Definition line_text (files : Files) (name : string) : string :=
  (sum_hex (default "" (files !! name)) ++ "  " ++ name)%string.

Lemma HasSuffix_cr a b : b <> "" -> HasSuffix b (String "013" "") = false -> HasSuffix (a ++ b) (String "013" "") = false.
Proof.
  intros Hb H. destruct (HasSuffix (a ++ b) _) eqn:E; [|done]. apply HasSuffix_spec in E as [u E].
  apply (f_equal to_bytes) in E. rewrite !to_bytes_app in E.
  assert (exists l x, to_bytes b = l ++ [x]) as (l & x & Hlx).
  { destruct b as [|c b]; [done|]. destruct (@exists_last _ (to_bytes (String c b))) as (l & x & ->); [done|eauto]. }
  rewrite Hlx, app_assoc in E. apply app_inj_tail in E as [_ ->].
  enough (HasSuffix b (String "013" "") = true) by congruence. apply HasSuffix_spec. exists (of_bytes l).
  apply to_bytes_inj. by rewrite to_bytes_app, to_of_bytes, Hlx.
Qed.

Lemma read_line files name lines listed : line_name name = true -> listed !! name = None ->
  read_manifest (line_text files name :: lines) listed =
  read_manifest lines (<[name := sum_hex (default "" (files !! name))]> listed).
Proof.
  intros Hn Hl. unfold line_name in Hn. apply andb_true_iff in Hn as [Hn Hlen]. apply andb_true_iff in Hn as [Hn Hcr].
  apply andb_true_iff in Hn as [Hne _]. apply negb_true_iff in Hne, Hcr. apply Nat.ltb_lt in Hlen.
  apply String.eqb_neq in Hne. cbn [read_manifest]. unfold line_text.
  rewrite !str_length_app, sum_hex_length. change (String.length "  ") with 2.
  destruct (Nat.leb_spec maxScanTokenSize (64 + (2 + String.length name))); [lia|].
  assert (drop_cr (sum_hex (default "" (files !! name)) ++ "  " ++ name) =
    (sum_hex (default "" (files !! name)) ++ "  " ++ name)%string) as ->.
  { unfold drop_cr, TrimSuffix. rewrite HasSuffix_cr; [done|by destruct name|]. by apply HasSuffix_cr. }
  rewrite Cut_line by (by apply alnum_no_byte, sum_hex_alnum).
  rewrite (proj2 (String.eqb_neq _ _) Hne), sum_hex_length, Hl. done.
Qed.

Lemma read_lines files names listed : forallb line_name names = true -> NoDup names ->
  (forall n, n ∈ names -> listed !! n = None) ->
  exists r, read_manifest (map (line_text files) names) listed = inl r /\
    forall n, r !! n = if bool_decide (n ∈ names) then Some (sum_hex (default "" (files !! n))) else listed !! n.
Proof.
  revert listed. induction names as [|m names IH]; intros listed Hok Hnd Hl; cbn [map]; [by exists listed|].
  simpl in Hok. apply andb_true_iff in Hok as [Hm Hok]. apply NoDup_cons in Hnd as [Hnin Hnd].
  rewrite read_line by (try done; apply Hl; by left).
  destruct (IH (<[m := sum_hex (default "" (files !! m))]> listed)) as (r & Hr & Hspec); [done|done| |].
  { intros n Hn. rewrite lookup_insert_ne by (by intros ->). apply Hl. by right. }
  exists r. split; [done|]. intros n. rewrite Hspec. destruct (decide (n = m)) as [->|Hne].
  - rewrite bool_decide_eq_false_2, lookup_insert_eq by done. by rewrite bool_decide_eq_true_2 by (by left).
  - rewrite lookup_insert_ne by done. by rewrite (bool_decide_ext _ (n ∈ m :: names)) by (rewrite elem_of_cons; tauto).
Qed.

Definition names_ok (files : Files) : bool := forallb line_name (manifest_names files).

Lemma elem_of_manifest_names files name : name ∈ manifest_names files <-> reserved name = false /\ is_Some (files !! name).
Proof.
  unfold manifest_names. rewrite sort_strings_elem_of, list_elem_of_In, List.filter_In, negb_true_iff, in_map_iff. split.
  - intros [([n d] & <- & Hin) Hr]. split; [done|]. apply list_elem_of_In, elem_of_map_to_list in Hin. by eexists.
  - intros [Hr [d Hd]]. split; [|done]. exists (name, d). split; [done|]. by apply list_elem_of_In, elem_of_map_to_list.
Qed.

Lemma manifest_names_NoDup files : NoDup (manifest_names files).
Proof. apply sort_strings_NoDup, NoDup_filter_bool, NoDup_fst_map_to_list. Qed.

Lemma Manifest_lines files : names_ok files = true -> split_lines (Manifest files) = map (line_text files) (manifest_names files).
Proof.
  unfold names_ok, Manifest. induction (manifest_names files) as [|n names IH]; intros H; [done|].
  simpl in H. apply andb_true_iff in H as [Hn H]. cbn [map].
  assert (String.concat "" (manifest_line files n :: map (manifest_line files) names) =
    (line_text files n ++ String newline (String.concat "" (map (manifest_line files) names)))%string) as ->.
  { apply to_bytes_inj. unfold line_text, manifest_line. destruct names; cbn [map String.concat];
      rewrite !to_bytes_app; cbn; rewrite ?to_bytes_app, <- ?app_assoc; cbn; rewrite <- ?app_assoc; done. }
  rewrite split_lines_line, IH; [done|done|]. unfold line_text. rewrite !no_byte_app.
  rewrite alnum_no_byte by (done || apply sum_hex_alnum). unfold line_name in Hn.
  destruct (no_byte newline n); [done|]. by rewrite andb_false_r in Hn.
Qed.

(** The manifest of some files lists them, digest for digest, and nothing else. *)
Lemma Manifest_read files : names_ok files = true ->
  exists listed, read_manifest (split_lines (Manifest files)) ∅ = inl listed /\
    forall n, listed !! n = if reserved n then None else sum_hex <$> files !! n.
Proof.
  intros H. rewrite Manifest_lines by done.
  destruct (read_lines files (manifest_names files) ∅ H (manifest_names_NoDup files)) as (r & Hr & Hspec); [done|].
  exists r. split; [done|]. intros n. rewrite Hspec. destruct (decide (n ∈ manifest_names files)) as [Hin|Hin].
  - rewrite bool_decide_eq_true_2 by done. apply elem_of_manifest_names in Hin as [-> [d Hd]]. by rewrite Hd.
  - rewrite bool_decide_eq_false_2, lookup_empty by done. destruct (reserved n) eqn:Er; [done|].
    destruct (files !! n) as [d|] eqn:Ed; [|done]. destruct Hin. apply elem_of_manifest_names. by rewrite Ed.
Qed.

Lemma reserved_names name : reserved name = true <-> name = ManifestFile \/ name = FileName.
Proof. unfold reserved. rewrite orb_true_iff, !String.eqb_eq. done. Qed.

(** ** Reading an archive *)

Definition regular (e : tar_entry) : bool := match te_Kind e with TypeReg => true | _ => false end.

Lemma Cut_slash s a b : Cut s "/" = Some (a, b) -> s = (a ++ "/" ++ b)%string.
Proof.
  revert a. induction s as [|c s IH]; intros a; cbn [Cut]; [done|]. rewrite prefix_one.
  destruct (Ascii.eqb_spec "/" c) as [<-|].
  - intros [= <- <-]. by destruct s.
  - destruct (Cut s "/") as [[x y]|]; [|done]. intros [= <- <-]. by rewrite (IH x).
Qed.

(** What the loop has read: every regular entry is a file under the root, under its own
    name, and every file is an entry. *)
Definition archived (done_ : list tar_entry) (root : string) (files : Files) : Prop :=
  (forall e, e ∈ done_ -> te_Kind e <> TypeOther) /\
  (forall e, e ∈ done_ -> regular e = true ->
     unsafe_path (te_Name e) = false /\
     exists rel, te_Name e = (root ++ "/" ++ rel)%string /\ files !! rel = Some (te_Data e)) /\
  (forall rel data, files !! rel = Some data ->
     exists e, e ∈ done_ /\ regular e = true /\ te_Name e = (root ++ "/" ++ rel)%string /\ te_Data e = data) /\
  size files = length (List.filter regular done_) /\
  (root = "" -> files = ∅).

Lemma archived_dir done_ root files e : te_Kind e = TypeDir -> archived done_ root files -> archived (done_ ++ [e]) root files.
Proof.
  intros He (H1 & H2 & H3 & H4 & H5). assert (regular e = false) as Hr by (unfold regular; by rewrite He).
  unfold archived. split_all; try done.
  - intros e' [Hin| ->%list_elem_of_singleton]%elem_of_app; [by apply H1|]. by rewrite He.
  - intros e' [Hin| ->%list_elem_of_singleton]%elem_of_app Hre; [by apply H2|]. congruence.
  - intros rel data Hf. destruct (H3 _ _ Hf) as (e' & Hin & H'). exists e'. split; [apply elem_of_app; by left|done].
  - rewrite List.filter_app, length_app. simpl. rewrite Hr. simpl. lia.
Qed.

Lemma read_entry_archived done_ root files e root' files' :
  archived done_ root files -> read_entry root files e = inl (root', files') -> archived (done_ ++ [e]) root' files'.
Proof.
  unfold read_entry. intros Ha. destruct (te_Kind e) eqn:Ek; [intros [= <- <-]; by apply archived_dir| |done].
  destruct (unsafe_path (te_Name e)) eqn:Eu; [done|]. destruct (Cut (te_Name e) "/") as [[top rel]|] eqn:Ec; [|done].
  apply Cut_slash in Ec. destruct (negb (String.eqb root "") && negb (String.eqb top root)) eqn:Er; [done|].
  destruct (files !! rel) eqn:Ef; [done|]. intros [= <- <-]. destruct Ha as (H1 & H2 & H3 & H4 & H5).
  assert (regular e = true) as Hr by (unfold regular; by rewrite Ek).
  assert (root = top \/ files = ∅) as Hroot.
  { destruct (String.eqb_spec root ""); [right; auto|]. destruct (String.eqb_spec top root); [by left|done]. }
  assert (root = top \/ forall e', e' ∈ done_ -> regular e' = false) as Hroot'.
  { destruct Hroot as [|Hempty]; [by left|right]. intros e' Hin. destruct (regular e') eqn:E; [|done].
    destruct (H2 e' Hin E) as (_ & r & _ & Hx). by rewrite Hempty, lookup_empty in Hx. }
  unfold archived. split_all.
  - intros e' [Hin| ->%list_elem_of_singleton]%elem_of_app; [by apply H1|]. by rewrite Ek.
  - intros e' [Hin| ->%list_elem_of_singleton]%elem_of_app Hre.
    + destruct (H2 e' Hin Hre) as (Hu & r & Hn & Hx). split; [done|]. exists r.
      destruct Hroot' as [<-|Hno]; [|by rewrite Hno in Hre]. split; [done|].
      rewrite lookup_insert_ne; [done|]. intros <-. congruence.
    + split; [done|]. exists rel. split; [done|]. by rewrite lookup_insert_eq.
  - intros r data. destruct (decide (r = rel)) as [->|Hne].
    + rewrite lookup_insert_eq. intros [= <-]. exists e. split_all; try done. apply elem_of_app. right. by apply list_elem_of_singleton.
    + rewrite lookup_insert_ne by done. intros Hf. destruct (H3 _ _ Hf) as (e' & Hin & Hre & Hn & Hd).
      exists e'. split_all; try done; [apply elem_of_app; by left|].
      destruct Hroot as [<-|Hempty]; [done|]. by rewrite Hempty, lookup_empty in Hf.
  - rewrite map_size_insert_None, List.filter_app, length_app by done. simpl. rewrite Hr. simpl. lia.
  - intros ->. exfalso. unfold unsafe_path in Eu. rewrite Ec in Eu.
    apply orb_false_iff in Eu as [Eu _]. apply orb_false_iff in Eu as [Eu _]. apply orb_false_iff in Eu as [Ea Eb].
    apply negb_false_iff, String.eqb_eq in Ea. rewrite Ea in Eb. by destruct rel.
Qed.

Lemma read_entries_archived entries done_ root files root' files' :
  archived done_ root files -> read_entries entries root files = inl (root', files') ->
  archived (done_ ++ entries) root' files' /\ root' <> "".
Proof.
  revert done_ root files. induction entries as [|e entries IH]; intros done_ root files Ha; cbn [read_entries].
  - destruct (String.eqb_spec root ""); [done|]. intros [= <- <-]. by rewrite app_nil_r.
  - destruct (read_entry root files e) as [[r f]|err] eqn:E; [|done]. intros H.
    pose proof (read_entry_archived _ _ _ _ _ _ Ha E) as Ha'. destruct (IH _ _ _ Ha' H) as [H' Hne].
    by rewrite <- app_assoc in H'.
Qed.

Module Bundles.

(** Sealing round-trips and fails without a key: the bundle made of any files with
    listable names verifies under the key it was sealed with, keeps the files, and
    records the signature with its newline; an empty key neither signs nor verifies. *)
Theorem sealed_bundle_verifies files key :
  names_ok files = true -> key <> "" ->
  (exists files' sig, Bundle files key = inl (files', sig) /\ VerifyBundle files' key = None /\
     forall name, reserved name = false -> files' !! name = files !! name) /\
  (forall fs, Bundle fs "" = inr ErrMissingKey) /\ (forall data sig, Verify data sig "" = Some ErrMissingKey).
Proof.
  intros Hn Hk. split; [|done]. unfold Bundle. destruct (Sign (Manifest files) key) as [sig|err] eqn:Es.
  2:{ unfold Sign in Es. destruct (String.eqb_spec key ""); [done|discriminate]. }
  exists (<[FileName := (sig ++ String newline "")%string]> (<[ManifestFile := Manifest files]> files)), sig.
  assert (forall name, reserved name = false ->
    (<[FileName := (sig ++ String newline "")%string]> (<[ManifestFile := Manifest files]> files) : Files) !! name = files !! name) as Hkeep.
  { intros name Hr. rewrite !lookup_insert_ne; [done| |]; intros <-; discriminate. }
  split; [done|split; [|exact Hkeep]]. unfold VerifyBundle.
  rewrite lookup_insert_ne, lookup_insert_eq, lookup_insert_eq by done. rewrite (sign_verify _ _ _ Es).
  apply CheckManifest_spec. destruct (Manifest_read files Hn) as (listed & Hread & Hspec). exists listed. split; [done|].
  split.
  - intros name sum Hl. rewrite Hspec in Hl. destruct (reserved name) eqn:Er; [done|]. by rewrite Hkeep.
  - intros name Hr [d Hd]. rewrite Hkeep in Hd by done. rewrite Hspec, Hr, Hd. by eexists.
Qed.

Lemma sealed_bundle_verifies_witness :
  exists files' sig, Bundle {["report.json" := "{}"]} "k" = inl (files', sig) /\ VerifyBundle files' "k" = None.
Proof.
  destruct (sealed_bundle_verifies {["report.json" := "{}"]} "k") as [(files' & sig & H1 & H2 & _) _];
    [vm_compute; reflexivity|discriminate|].
  exists files', sig. split; [exact H1|exact H2].
Defined.

(** C10: a bundle that verifies is the sealed one, digest for digest: when the manifest is
    the one made of some files and the bundle verifies, then no file is missing, altered
    or added: each name is present exactly when it was, with contents of the same SHA-256;
    and the manifest itself carries a signature equal to its HMAC under the key. *)
Theorem verified_bundle_unaltered files files' key :
  names_ok files = true -> files' !! ManifestFile = Some (Manifest files) -> VerifyBundle files' key = None ->
  (forall name, reserved name = false -> sum_hex <$> files' !! name = sum_hex <$> files !! name) /\
  exists sig, files' !! FileName = Some sig /\
    decodeSignature sig = inl (hmac (to_bytes key) (to_bytes (Manifest files))).
Proof.
  intros Hn Hm. unfold VerifyBundle. rewrite Hm. destruct (files' !! FileName) as [sig|]; [|done].
  destruct (Verify (Manifest files) sig key) eqn:Ev; [done|]. intros Hc. split.
  - apply CheckManifest_spec in Hc as (listed & Hread & Hmatch & Hall).
    destruct (Manifest_read files Hn) as (listed' & Hread' & Hspec). rewrite Hread in Hread'. injection Hread' as <-.
    intros name Hr. specialize (Hspec name). rewrite Hr in Hspec. destruct (files !! name) as [d|] eqn:Ed; simpl in *.
    + by rewrite (Hmatch _ _ Hspec).
    + destruct (files' !! name) as [d'|] eqn:Ed'; [|done]. destruct (Hall name Hr) as [s Hs]; [by rewrite Ed'|congruence].
  - exists sig. split; [done|]. unfold Verify in Ev. destruct (String.eqb key ""); [done|].
    destruct (decodeSignature sig) as [p|]; [|done]. case_bool_decide; [congruence|done].
Qed.

Definition sample_files : Files := {["report.json" := "{}"]}.
Definition sealed_sample : Files := match Bundle sample_files "k" with inl (f, _) => f | inr _ => ∅ end.

Lemma verified_bundle_unaltered_witness : sum_hex <$> sealed_sample !! "report.json" = sum_hex <$> sample_files !! "report.json".
Proof.
  refine (proj1 (verified_bundle_unaltered sample_files sealed_sample "k" _ _ _) "report.json" eq_refl);
    vm_compute; reflexivity.
Defined.

(** Nothing in an archive hides from verification: when it is read, every entry is a
    directory or a regular file, every regular file is under the one root with a clean
    relative path, and the files are exactly those entries, each under its own name. *)
Theorem archive_read_exactly entries root files : ReadBundle entries = inl (root, files) ->
  root <> "" /\
  (forall e, e ∈ entries -> te_Kind e <> TypeOther) /\
  (forall e, e ∈ entries -> regular e = true ->
     unsafe_path (te_Name e) = false /\
     exists rel, te_Name e = (root ++ "/" ++ rel)%string /\ files !! rel = Some (te_Data e)) /\
  (forall rel data, files !! rel = Some data ->
     exists e, e ∈ entries /\ regular e = true /\ te_Name e = (root ++ "/" ++ rel)%string /\ te_Data e = data) /\
  size files = length (List.filter regular entries).
Proof.
  intros H. destruct (read_entries_archived entries [] "" ∅ root files) as [(H1 & H2 & H3 & H4 & _) Hne]; [|exact H|].
  - unfold archived. split_all; try done; intros e He; by apply elem_of_nil in He.
  - split_all; done.
Qed.

Lemma archive_read_exactly_witness :
  match ReadBundle (WriteBundle "r" {["a" := "1"; "b/c" := "2"]}) with
  | inl (root, files) => size files = 2
  | inr _ => False
  end.
Proof.
  destruct (ReadBundle (WriteBundle "r" {["a" := "1"; "b/c" := "2"]})) as [[root files]|err] eqn:E;
    [|vm_compute in E; discriminate E].
  exact (proj2 (proj2 (proj2 (proj2 (archive_read_exactly _ root files E))))).
Defined.

End Bundles.
