(* ===== verification/Fields.v ===== *)
(** * internal/report/fields.go and severity.go: what a scanner field means

    [fieldSpecs] is the registry of every declared scanner field: its severity,
    the direction that is worse, what it restates, and how it is counted. The
    tables the detectors read are views of it; the theorems say the views agree
    with the registry and that the registry is consistent. *)

From Stdlib Require Import ZArith Lia SpecFloat String Ascii.
From stdpp Require Import base gmap strings list sets.
From S2P Require Import Prelude Float64 Text Data.


(** ** fields.go *)

Inductive Polarity := PolarityNone | UpIsBad | DownIsBad.

#[export] Instance Polarity_eq_dec : EqDecision Polarity.
Proof. solve_decision. Defined.

Record FieldRef := { fr_Scanner : string; fr_Field : string }.

#[export] Instance FieldRef_eq_dec : EqDecision FieldRef.
Proof. solve_decision. Defined.

(** outlier.go [setProjection]: turns an array of objects into a member set.
    [sp_Build] lists the keys [memberObject] splits a member back into. *)
Record setProjection := {
  sp_From : string;
  sp_To : string;
  sp_Member : gmap string json -> string;
  sp_SkipEmpty : bool;
  sp_Build : option (list string)
}.

Record fieldSpec := {
  fp_Ref : FieldRef;
  fp_Severity : string;
  fp_Polarity : Polarity;
  fp_RedundantWith : list FieldRef;
  fp_CountedBy : string;
  fp_Trend : bool;
  fp_Projection : option setProjection;
  fp_AvailabilityGated : bool
}.

Definition ref (scanner field : string) : FieldRef := {| fr_Scanner := scanner; fr_Field := field |}.

(** outlier.go [memberOf]: the string values of [keys] joined with "/", or "" when
    one of them is missing, empty, or not a string. *)
Definition memberOf (keys : list string) (item : gmap string json) : string :=
  let fix parts (ks : list string) : option (list string) :=
    match ks with
    | [] => Some []
    | k :: ks' =>
        match item !! k with
        | Some (JStr s) => if String.eqb s "" then None else (fun l => s :: l) <$> parts ks'
        | _ => None
        end
    end in
  match parts keys with Some l => join "/" l | None => "" end.

Definition projection (from : string) (keys : list string) (skip : bool) (build : option (list string)) :
  setProjection :=
  {| sp_From := from; sp_To := ""; sp_Member := memberOf keys; sp_SkipEmpty := skip; sp_Build := build |}.

Definition mkSpec (scanner field severity : string) (pol : Polarity) (redundant : list FieldRef)
  (countedBy : string) (trend : bool) (proj : option setProjection) (gated : bool) : fieldSpec :=
  {| fp_Ref := ref scanner field; fp_Severity := severity; fp_Polarity := pol;
     fp_RedundantWith := redundant; fp_CountedBy := countedBy; fp_Trend := trend;
     fp_Projection := proj; fp_AvailabilityGated := gated |}.

Definition gitVersion : list FieldRef := [ref "version" "git_version"].

(** The registry in declaration order, in three parts. *)
Definition fieldSpecs_health : list fieldSpec := [
  mkSpec "metrics" "avg_cpu_percent" SeverityWarning UpIsBad [] "" true None false;
  mkSpec "metrics" "avg_memory_percent" SeverityWarning UpIsBad [] "" true None false;
  mkSpec "metrics" "max_cpu_percent" SeverityWarning UpIsBad [] "" true None false;
  mkSpec "metrics" "max_memory_percent" SeverityWarning UpIsBad [] "" true None false;
  mkSpec "metrics" "node_count" "" PolarityNone [] "" false None false;
  mkSpec "metrics" "nodes_with_usage" "" PolarityNone [ref "metrics" "node_count"] "" false None false;
  mkSpec "node-health" "unhealthy_nodes" SeverityCritical UpIsBad [ref "node-health" "memory_pressure_nodes"; ref "node-health" "disk_pressure_nodes"; ref "node-health" "pid_pressure_nodes"; ref "node-health" "not_ready_nodes"] "" true None false;
  mkSpec "node-health" "memory_pressure_nodes" SeverityCritical UpIsBad [] "node-health/memory-pressure" true None false;
  mkSpec "node-health" "not_ready_nodes" SeverityCritical UpIsBad [] "node-health/not-ready" true None false;
  mkSpec "node-health" "disk_pressure_nodes" SeverityWarning UpIsBad [] "node-health/disk-pressure" false None false;
  mkSpec "node-health" "pid_pressure_nodes" SeverityWarning UpIsBad [] "" false None false;
  mkSpec "node-health" "unschedulable_nodes" SeverityWarning UpIsBad [] "" false None false;
  mkSpec "events" "warning_events" "" UpIsBad [] "events/warning-volume" true None false;
  mkSpec "certs" "critical" "" UpIsBad [] "certs/expiring-7d" false None false;
  mkSpec "certs" "warning" "" UpIsBad [] "certs/expiring-30d" false None false;
  mkSpec "certs" "soonest_days" "" DownIsBad [ref "certs" "warning"; ref "certs" "critical"] "" false None false].

Definition fieldSpecs_posture : list fieldSpec := [
  mkSpec "security" "enforced_count" SeverityCritical DownIsBad [] "" false None false;
  mkSpec "security" "unenforced_count" SeverityCritical UpIsBad [] "security/psa-unenforced" true None false;
  mkSpec "network-policies" "count" "" PolarityNone [] "" false None false;
  mkSpec "network-policies" "namespaces_without_policies" SeverityCritical UpIsBad [] "network-policies/no-policy" true None false;
  mkSpec "resources" "unschedulable_nodes" SeverityWarning UpIsBad [] "" true None false;
  mkSpec "resources" "node_count" SeverityWarning PolarityNone [] "" false None false;
  mkSpec "resources" "ready_nodes" SeverityWarning DownIsBad [] "" false None false;
  mkSpec "workload-security" "privileged_containers" SeverityCritical UpIsBad [] "workload-security/privileged" false None false;
  mkSpec "workload-security" "host_network_pods" SeverityCritical UpIsBad [] "workload-security/host-namespaces" false None false;
  mkSpec "workload-security" "host_pid_pods" SeverityCritical UpIsBad [] "workload-security/host-namespaces" false None false;
  mkSpec "workload-security" "run_as_root_containers" SeverityWarning UpIsBad [] "workload-security/run-as-root" false None false;
  mkSpec "workload-security" "run_as_non_root_containers" "" DownIsBad [ref "workload-security" "baseline_containers"] "" false None false;
  mkSpec "workload-security" "run_as_unknown_containers" "" PolarityNone [] "" false None false;
  mkSpec "workload-security" "total_pods" "" PolarityNone [] "" false None false;
  mkSpec "workload-security" "baseline_containers" "" PolarityNone [ref "workload-security" "total_pods"] "" false None false;
  mkSpec "workload-security" "capability_additions" SeverityWarning UpIsBad [] "workload-security/capability-add" false None false;
  mkSpec "workload-security" "allow_privilege_escalation" SeverityWarning UpIsBad [] "" false None false;
  mkSpec "rbac-audit" "cluster_admin_bindings" SeverityCritical UpIsBad [] "rbac-audit/cluster-admin-binding" false None false;
  mkSpec "rbac-audit" "wildcard_rules" SeverityCritical UpIsBad [] "rbac-audit/wildcard-rule" false None false;
  mkSpec "rbac-audit" "default_sa_bindings" SeverityWarning UpIsBad [] "rbac-audit/default-sa-binding" false None false].

Definition fieldSpecs_inventory : list fieldSpec := [
  mkSpec "version" "git_version" SeverityWarning PolarityNone [] "" false None false;
  mkSpec "version" "minor" SeverityWarning PolarityNone gitVersion "" false None false;
  mkSpec "deprecated-apis" "server_version" "" PolarityNone gitVersion "" false None false;
  mkSpec "cluster-info" "kubelet_versions" "" PolarityNone gitVersion "" false None false;
  mkSpec "deprecated-apis" "total_instances" "" PolarityNone [] "deprecated-apis/in-use" false None false;
  mkSpec "namespaces" "count" SeverityWarning PolarityNone [] "" false None false;
  mkSpec "services" "count" SeverityWarning PolarityNone [] "" false None false;
  mkSpec "services" "service_names" "" PolarityNone [] "" false (Some (projection "services" ["namespace"; "name"] false (Some ["namespace"; "name"]))) false;
  mkSpec "ingresses" "count" "" PolarityNone [] "" false None false;
  mkSpec "ingresses" "ingress_classes" "" PolarityNone [] "" false (Some (projection "ingresses" ["ingress_class_name"] true None)) false;
  mkSpec "crds" "count" "" PolarityNone [] "" false None false;
  mkSpec "crds" "crd_names" SeverityWarning PolarityNone [] "" false (Some (projection "crds" ["name"] false (Some ["name"]))) false;
  mkSpec "rbac" "cluster_role_count" SeverityWarning PolarityNone [] "" false None false;
  mkSpec "rbac" "cluster_role_binding_count" SeverityWarning PolarityNone [] "" false None false;
  mkSpec "resource-quotas" "quota_count" SeverityWarning DownIsBad [] "" false None false;
  mkSpec "resource-quotas" "namespaces_with_quotas" SeverityWarning DownIsBad [] "resource-quotas/no-quota" false None false;
  mkSpec "image-audit" "latest_tag" SeverityWarning UpIsBad [] "image-audit/latest-tag" false None false;
  mkSpec "image-audit" "no_digest" SeverityWarning UpIsBad [] "image-audit/no-digest" false None false;
  mkSpec "vulnerabilities" "critical" SeverityWarning UpIsBad [] "vulnerabilities/critical-present" false None true;
  mkSpec "policy-reports" "total_fail" SeverityWarning UpIsBad [] "" false None true;
  mkSpec "workload-coverage" "missing_pdb" "" UpIsBad [] "workload-coverage/missing-pdb" false None false;
  mkSpec "workload-coverage" "missing_hpa" "" UpIsBad [] "workload-coverage/missing-hpa" false None false;
  mkSpec "admission" "unhealthy_webhooks" "" UpIsBad [] "admission/no-healthy-endpoints" false None false;
  mkSpec "version" "major" "" PolarityNone [] "" false None false].

Definition fieldSpecs : list fieldSpec := fieldSpecs_health ++ fieldSpecs_posture ++ fieldSpecs_inventory.

Definition has_ref (scanner field : string) (s : fieldSpec) : bool :=
  String.eqb (fr_Scanner (fp_Ref s)) scanner && String.eqb (fr_Field (fp_Ref s)) field.

(** The first spec of scanner/field. *)
Definition lookupField (scanner field : string) : option fieldSpec :=
  List.find (has_ref scanner field) fieldSpecs.

Definition DeclaredField (scanner field : string) : bool :=
  match lookupField scanner field with Some _ => true | None => false end.

(** [spec, _ := lookupField(...)]: the polarity of a missing spec is the zero value. *)
Definition lookupPolarity (scanner field : string) : Polarity :=
  match lookupField scanner field with Some s => fp_Polarity s | None => PolarityNone end.

Definition severityFields (sev : string) : gmap string (gset string) :=
  fold_left (fun out s =>
    if String.eqb (fp_Severity s) sev
    then let sc := fr_Scanner (fp_Ref s) in
         <[sc := {[fr_Field (fp_Ref s)]} ∪ default ∅ (out !! sc)]> out
    else out) fieldSpecs ∅.

Definition criticalFields : gmap string (gset string) := severityFields SeverityCritical.
Definition warningFields : gmap string (gset string) := severityFields SeverityWarning.

Record trendField := { tf_Scanner : string; tf_Field : string; tf_UpIsBad : bool }.

Definition trackedFields (specs : list fieldSpec) : list trendField :=
  flat_map (fun s =>
    if fp_Trend s
    then [{| tf_Scanner := fr_Scanner (fp_Ref s); tf_Field := fr_Field (fp_Ref s);
             tf_UpIsBad := bool_decide (fp_Polarity s = UpIsBad) |}]
    else []) specs.

Definition trendFields : list trendField := trackedFields fieldSpecs.

Definition with_To (p : setProjection) (to : string) : setProjection :=
  {| sp_From := sp_From p; sp_To := to; sp_Member := sp_Member p; sp_SkipEmpty := sp_SkipEmpty p;
     sp_Build := sp_Build p |}.

Definition projections (specs : list fieldSpec) : gmap string setProjection :=
  fold_left (fun out s =>
    match fp_Projection s with
    | Some p => <[fr_Scanner (fp_Ref s) := with_To p (fr_Field (fp_Ref s))]> out
    | None => out
    end) specs ∅.

Definition setProjections : gmap string setProjection := projections fieldSpecs.

Definition gatedScanners (specs : list fieldSpec) : gset string :=
  fold_left (fun out s => if fp_AvailabilityGated s then {[fr_Scanner (fp_Ref s)]} ∪ out else out) specs ∅.

Definition availabilityGated : gset string := gatedScanners fieldSpecs.

(** compare.go [skipFields]. *)
Definition skipFields : gset string := list_to_set [
  "nodes"; "services"; "ingresses"; "policies"; "roles"; "bindings"; "quotas"; "limit_ranges";
  "namespaces"; "crds"; "labels"; "conditions"; "top_images"; "top_failures"; "by_source"].

(** ** severity.go *)

Definition in_fields (m : gmap string (gset string)) (scanner field : string) : bool :=
  match m !! scanner with Some fs => bool_decide (field ∈ fs) | None => false end.

Definition classifySeverity (scannerName field : string) : string :=
  if in_fields criticalFields scannerName field then SeverityCritical
  else if in_fields warningFields scannerName field then SeverityWarning
  else SeverityInfo.

Definition numericSeverity (scannerName field : string) (delta : float64) : string * bool :=
  let pol := lookupPolarity scannerName field in
  if (bool_decide (pol = UpIsBad) && f_ltb delta f_zero)
     || (bool_decide (pol = DownIsBad) && f_ltb f_zero delta)
  then (SeverityInfo, true)
  else (classifySeverity scannerName field, false).

Definition is_digit (c : ascii) : bool := byte_in 48 57 c.
Definition is_blank (c : ascii) : bool := byte_in 9 9 c || byte_in 11 13 c || byte_in 32 32 c.

(** Leading decimal digits, accumulated from [v]. *)
Fixpoint scan_digits (v : N) (l : bytes) : N * bytes :=
  match l with
  | c :: l' => if is_digit c then scan_digits (v * 10 + (N_of_ascii c - 48)) l' else (v, l)
  | [] => (v, l)
  end.

(** The [%d] verb of [fmt.Sscanf] into an [int]: blanks are skipped, at least one
    digit is required, and a value out of the range of [int] is an error. A sign
    cannot occur: the text was cut at the first "-" or "+". Only ASCII blanks are
    treated as such. *)
Definition scan_int (l : bytes) : option (N * bytes) :=
  match trim_left is_blank l with
  | (c :: _) as l' =>
      if is_digit c
      then let '(v, rest) := scan_digits 0 l' in
           if (Z.of_N v <=? int64_max)%Z then Some (v, rest) else None
      else None
  | [] => None
  end.

Definition scan_lit (c : ascii) (l : bytes) : option bytes :=
  match l with d :: l' => if Ascii.eqb d c then Some l' else None | [] => None end.

(** [fmt.Sscanf(core, "%d.%d.%d", ...)]; text after the third number is ignored. *)
Definition scan_triple (l : bytes) : option (N * N * N) :=
  '(major, l) ← scan_int l; l ← scan_lit "." l;
  '(minor, l) ← scan_int l; l ← scan_lit "." l;
  '(patch, _) ← scan_int l; Some (major, minor, patch).

Fixpoint cut_at (p : ascii -> bool) (l : bytes) : bytes :=
  match l with c :: l' => if p c then [] else c :: cut_at p l' | [] => [] end.

Definition trim_v (l : bytes) : bytes := match l with "v"%char :: l' => l' | _ => l end.

Definition is_cut (c : ascii) : bool := Ascii.eqb c "-" || Ascii.eqb c "+".

Definition parseSemver (v : string) : option (N * N * N) :=
  scan_triple (cut_at is_cut (trim_v (to_bytes v))).

Definition minor_of (t : N * N * N) : N := snd (fst t).

(** [minMinor] and [maxMinor] start at -1 and take the first parsed minor, so they
    are the extremes of the parsed minors; [None] is the pair (-1, -1). *)
Definition skew_step (acc : option (N * N)) (t : N * N * N) : option (N * N) :=
  match acc with
  | None => Some (minor_of t, minor_of t)
  | Some (lo, hi) => Some (N.min lo (minor_of t), N.max hi (minor_of t))
  end.

Definition versionSkewSeverity (versions : list string) : string :=
  if length versions <? 2 then SeverityInfo
  else
    let parsed := omap parseSemver versions in
    let patchSet : gset (N * N * N) := list_to_set parsed in
    if size patchSet <=? 1 then SeverityInfo
    else match fold_left skew_step parsed None with
         | None => SeverityInfo
         | Some (lo, hi) =>
             if (2 <=? hi - lo)%N then SeverityCritical
             else if negb (hi =? lo)%N then SeverityWarning
             else SeverityInfo
         end.

Example parseSemver_ex : map parseSemver ["v1.31.2"; "1.31.2-gke.500"; "v1.31"; "1.30.x"; "v1.31.2+k3s1"]
  = [Some (1, 31, 2); Some (1, 31, 2); None; None; Some (1, 31, 2)]%N.
Proof. vm_compute. reflexivity. Qed.

Example skew_ex : (versionSkewSeverity ["v1.29.0"; "v1.31.2"], versionSkewSeverity ["v1.30.0"; "v1.31.2"],
  versionSkewSeverity ["v1.31.1"; "v1.31.2"], versionSkewSeverity ["v1.31.1"; "junk"])
  = ("critical", "warning", "info", "info").
Proof. vm_compute. reflexivity. Qed.

(** ** The registry and its views *)

Lemma has_ref_spec sc f s : has_ref sc f s = true <-> fp_Ref s = ref sc f.
Proof.
  unfold has_ref. rewrite andb_true_iff, !String.eqb_eq. destruct (fp_Ref s) as [a b]; simpl.
  unfold ref. split; [intros [-> ->]; done|intros [=]; done].
Qed.

Lemma severityFields_spec sev sc f :
  in_fields (severityFields sev) sc f = true <->
  exists s, s ∈ fieldSpecs /\ fp_Ref s = ref sc f /\ fp_Severity s = sev.
Proof.
  unfold severityFields. generalize fieldSpecs. intros l.
  enough (forall out, in_fields (fold_left (fun out s =>
    if String.eqb (fp_Severity s) sev
    then <[fr_Scanner (fp_Ref s) := {[fr_Field (fp_Ref s)]} ∪ default ∅ (out !! fr_Scanner (fp_Ref s))]> out
    else out) l out) sc f = true <->
    in_fields out sc f = true \/ exists s, s ∈ l /\ fp_Ref s = ref sc f /\ fp_Severity s = sev) as H.
  { rewrite H. unfold in_fields at 1. rewrite lookup_empty. naive_solver. }
  induction l as [|s l IH]; intros out; simpl.
  { split; [by left|]. intros [|(s & Hin & _)]; [done|]. by apply elem_of_nil in Hin. }
  rewrite IH. clear IH.
  assert (Hstep : in_fields (if String.eqb (fp_Severity s) sev
      then <[fr_Scanner (fp_Ref s) := {[fr_Field (fp_Ref s)]} ∪ default ∅ (out !! fr_Scanner (fp_Ref s))]> out
      else out) sc f = true <-> in_fields out sc f = true \/ (fp_Ref s = ref sc f /\ fp_Severity s = sev)).
  { destruct (String.eqb_spec (fp_Severity s) sev) as [Hs|Hs]; [|tauto].
    destruct (fp_Ref s) as [a b]; unfold in_fields, ref; simpl.
    destruct (decide (sc = a)) as [->|Hne].
    - rewrite lookup_insert_eq, bool_decide_eq_true, elem_of_union, elem_of_singleton.
      destruct (out !! a) as [fs|]; simpl.
      + rewrite bool_decide_eq_true. split; [intros [->|?]; tauto|intros [?|[[= ->] _]]; tauto].
      + rewrite elem_of_empty. split; [intros [->|?]; tauto|intros [?|[[= ->] _]]; [done|tauto]].
    - rewrite lookup_insert_ne by done. split; [tauto|]. intros [?|[[= -> _] _]]; done. }
  rewrite Hstep. split.
  - intros [[H|[H1 H2]]|(s' & H1 & H2)]; [by left| |].
    + right. exists s. split; [by left|done].
    + right. exists s'. split; [by right|done].
  - intros [H|(s' & H1 & H2 & H3)]; [by left; left|]. apply elem_of_cons in H1 as [->|H1].
    + left; right; done.
    + right. by exists s'.
Qed.

Definition spec_decl_ok (s : fieldSpec) : bool :=
  forallb (fun t => DeclaredField (fr_Scanner t) (fr_Field t)) (fp_RedundantWith s) &&
  (String.eqb (fp_Severity s) "" || String.eqb (fp_Severity s) SeverityCritical ||
   String.eqb (fp_Severity s) SeverityWarning) &&
  match fp_Projection s with
  | Some p => bool_decide (sp_From p ∈ skipFields) && negb (bool_decide (fr_Field (fp_Ref s) ∈ skipFields))
  | None => true
  end.

(** How many restating steps lead on from a field; fuel 4 exceeds the longest chain. *)
Fixpoint restate_depth (fuel : nat) (r : FieldRef) : nat :=
  match fuel with
  | O => 0
  | S fuel' =>
      match lookupField (fr_Scanner r) (fr_Field r) with
      | Some s => foldr (fun t n => Nat.max (S (restate_depth fuel' t)) n) 0 (fp_RedundantWith s)
      | None => 0
      end
  end.

Lemma fieldSpecs_NoDup : NoDup (map fp_Ref fieldSpecs).
Proof. apply (bool_decide_unpack _). vm_compute. exact I. Qed.

Lemma lookupField_Some sc f s : lookupField sc f = Some s <-> s ∈ fieldSpecs /\ fp_Ref s = ref sc f.
Proof.
  unfold lookupField. split.
  - intros H. apply find_some in H as [Hin Hr]. by rewrite has_ref_spec in Hr; rewrite list_elem_of_In.
  - pose proof fieldSpecs_NoDup as Hnd. generalize dependent fieldSpecs. intros l Hnd [Hin Hr].
    induction l as [|s' l IH]; [by apply elem_of_nil in Hin|]. simpl.
    inversion Hnd as [|? ? Hni Hnd']; subst. apply elem_of_cons in Hin as [->|Hin].
    + by rewrite (proj2 (has_ref_spec sc f s') Hr).
    + destruct (has_ref sc f s') eqn:E; [|by apply IH]. exfalso. apply Hni.
      apply has_ref_spec in E. rewrite E, <- Hr. apply list_elem_of_In, in_map. by apply list_elem_of_In.
Qed.

Lemma classifySeverity_spec sc f :
  classifySeverity sc f =
  match lookupField sc f with
  | Some s => if String.eqb (fp_Severity s) "" then SeverityInfo else fp_Severity s
  | None => SeverityInfo
  end.
Proof.
  assert (Hok : Forall (fun s => spec_decl_ok s = true) fieldSpecs)
    by (apply (bool_decide_unpack _); vm_compute; exact I).
  assert (Hsev : forall sev, in_fields (severityFields sev) sc f = true <->
    exists s, lookupField sc f = Some s /\ fp_Severity s = sev).
  { intros sev. rewrite severityFields_spec. setoid_rewrite lookupField_Some. naive_solver. }
  unfold classifySeverity, criticalFields, warningFields.
  pose proof (Hsev SeverityCritical) as Hc. pose proof (Hsev SeverityWarning) as Hw. clear Hsev.
  set (C := in_fields (severityFields SeverityCritical) sc f) in *.
  set (W := in_fields (severityFields SeverityWarning) sc f) in *. clearbody C W.
  destruct (lookupField sc f) as [s|] eqn:E.
  - apply lookupField_Some in E as [Hin _]. rewrite Forall_forall in Hok. specialize (Hok s Hin).
    unfold spec_decl_ok in Hok. apply andb_prop in Hok as [Hok _]. apply andb_prop in Hok as [_ Hok].
    assert (Hcw : fp_Severity s = "" \/ fp_Severity s = SeverityCritical \/ fp_Severity s = SeverityWarning).
    { apply orb_prop in Hok as [Hok|Hok]; [apply orb_prop in Hok as [Hok|Hok]|];
        apply String.eqb_eq in Hok; tauto. }
    clear Hok Hin. destruct C, W; [| | |].
    1-2: destruct (proj1 Hc eq_refl) as (s' & [= <-] & ->); done.
    1: destruct (proj1 Hw eq_refl) as (s' & [= <-] & ->); done.
    destruct Hcw as [-> |[H|H]]; [done| |].
    + by discriminate (proj2 Hc (ex_intro _ s (conj eq_refl H))).
    + by discriminate (proj2 Hw (ex_intro _ s (conj eq_refl H))).
  - destruct C; [by destruct (proj1 Hc eq_refl) as (? & ? & _)|].
    destruct W; [by destruct (proj1 Hw eq_refl) as (? & ? & _)|done].
Qed.

(** ** Version skew *)

Lemma skew_fold l lo hi : exists lo' hi', fold_left skew_step l (Some (lo, hi)) = Some (lo', hi') /\
  (lo' <= lo)%N /\ (hi <= hi')%N /\
  (lo' = lo \/ exists t, t ∈ l /\ minor_of t = lo') /\ (hi' = hi \/ exists t, t ∈ l /\ minor_of t = hi') /\
  (forall t, t ∈ l -> (lo' <= minor_of t <= hi')%N).
Proof.
  revert lo hi. induction l as [|t l IH]; intros lo hi; simpl.
  { exists lo, hi. split_all; try done; try lia; try (by left). intros t Ht. by apply elem_of_nil in Ht. }
  destruct (IH (N.min lo (minor_of t)) (N.max hi (minor_of t))) as (lo' & hi' & -> & H1 & H2 & H3 & H4 & H5).
  exists lo', hi'. setoid_rewrite elem_of_cons. split_all; [done|lia|lia| | |].
  - destruct H3 as [->|(t' & Ht & <-)]; [|naive_solver].
    destruct (N.min_spec lo (minor_of t)) as [[_ ->]|[_ ->]]; naive_solver.
  - destruct H4 as [->|(t' & Ht & <-)]; [|naive_solver].
    destruct (N.max_spec hi (minor_of t)) as [[_ ->]|[_ ->]]; naive_solver.
  - intros t' [->|Ht]; [lia|by apply H5].
Qed.

Lemma skew_extremes l : l <> [] -> exists lo hi, fold_left skew_step l None = Some (lo, hi) /\
  (exists t, t ∈ l /\ minor_of t = lo) /\ (exists t, t ∈ l /\ minor_of t = hi) /\
  (forall t, t ∈ l -> (lo <= minor_of t <= hi)%N).
Proof.
  destruct l as [|t l]; [done|]. intros _. simpl.
  destruct (skew_fold l (minor_of t) (minor_of t)) as (lo & hi & -> & H1 & H2 & H3 & H4 & H5).
  exists lo, hi. setoid_rewrite elem_of_cons. split_all; [done| | |].
  - destruct H3 as [->|]; naive_solver.
  - destruct H4 as [->|]; naive_solver.
  - intros t' [->|Ht]; [lia|by apply H5].
Qed.

(** Two parsed versions whose minors are at least [d] apart. *)
Definition minors_apart (d : N) (versions : list string) : Prop :=
  exists a b, a ∈ omap parseSemver versions /\ b ∈ omap parseSemver versions /\
    (minor_of a + d <= minor_of b)%N.

Lemma omap_length {A B} (f : A -> option B) l : length (omap f l) <= length l.
Proof. induction l as [|x l IH]; csimpl; [done|]. destruct (f x); csimpl; lia. Qed.

Lemma apart_big versions : minors_apart 1 versions ->
  (2 <= length versions) /\ 2 <= size (list_to_set (omap parseSemver versions) : gset (N * N * N)).
Proof.
  intros (a & b & Ha & Hb & Hab).
  assert (Hne : a <> b) by (intros ->; lia).
  assert (Hsub : ({[a; b]} : gset (N * N * N)) ⊆ list_to_set (omap parseSemver versions)) by set_solver.
  apply subseteq_size in Hsub. rewrite size_union, !size_singleton in Hsub by set_solver.
  split; [|lia].
  pose proof (omap_length parseSemver versions).
  destruct (omap parseSemver versions) as [|x [|y l]] eqn:E; [by apply elem_of_nil in Ha| |simpl length in *; lia].
  apply list_elem_of_singleton in Ha, Hb. congruence.
Qed.

Lemma versionSkewSeverity_cases versions :
  (versionSkewSeverity versions = SeverityCritical /\ minors_apart 2 versions) \/
  (versionSkewSeverity versions = SeverityWarning /\ minors_apart 1 versions /\ ~ minors_apart 2 versions) \/
  (versionSkewSeverity versions = SeverityInfo /\ ~ minors_apart 1 versions).
Proof.
  assert (H12 : minors_apart 2 versions -> minors_apart 1 versions).
  { intros (a & b & ? & ? & ?). exists a, b. split_all; [done|done|lia]. }
  pose proof (apart_big versions) as Hbig. unfold versionSkewSeverity.
  destruct (Nat.ltb_spec (length versions) 2).
  { right; right. split; [done|]. intros H1. apply Hbig in H1. lia. }
  destruct (Nat.leb_spec (size (list_to_set (omap parseSemver versions) : gset (N * N * N))) 1) as [|Hsz].
  { right; right. split; [done|]. intros H1. apply Hbig in H1. lia. }
  destruct (decide (omap parseSemver versions = [])) as [E|E].
  { exfalso. rewrite E in Hsz. cbn [list_to_set] in Hsz. rewrite size_empty in Hsz. lia. }
  destruct (skew_extremes _ E) as (lo & hi & -> & (a & Ha & <-) & (b & Hb & <-) & Hall).
  destruct (N.leb_spec 2 (minor_of b - minor_of a)).
  { left. split; [done|]. exists a, b. split_all; [done|done|lia]. }
  assert (Hn2 : ~ minors_apart 2 versions).
  { intros (a' & b' & Ha' & Hb' & Hab). apply Hall in Ha', Hb'. lia. }
  destruct (N.eqb_spec (minor_of b) (minor_of a)) as [Heq|Hneq]; simpl.
  - right; right. split; [done|]. intros (a' & b' & Ha' & Hb' & Hab). apply Hall in Ha', Hb'. lia.
  - right; left. split_all; [done| |done]. exists a, b. pose proof (Hall a Ha). pose proof (Hall b Hb).
    split_all; [done|done|lia].
Qed.

(** ** Reading numbers back *)

Lemma digit_ascii_spec n : (n < 10)%N ->
  is_digit (digit_ascii (N.to_nat n)) = true /\ (N_of_ascii (digit_ascii (N.to_nat n)) - 48 = n)%N.
Proof.
  intros Hn. destruct n as [|p]; [done|].
  destruct p as [[[[]|[]|]|[[]|[]|]|]|[[[]|[]|]|[[]|[]|]|]|]; try done; lia.
Qed.

Lemma scan_dec_digits fuel n : (n < 2 ^ N.of_nat fuel)%N -> fuel <> 0 ->
  exists k, forall v acc,
    scan_digits v (to_bytes (dec_digits fuel n acc)) = scan_digits (v * 10 ^ k + n) (to_bytes acc) /\
    exists c l, to_bytes (dec_digits fuel n acc) = c :: l /\ is_digit c = true.
Proof.
  revert n. induction fuel as [|fuel IH]; intros n Hn Hf; [done|].
  destruct (N.lt_ge_cases n 10) as [Hlt|Hge].
  - exists 1%N. intros v acc. cbn [dec_digits].
    assert ((n <? 10)%N = true) as -> by (by apply N.ltb_lt).
    rewrite N.mod_small by done. destruct (digit_ascii_spec n Hlt) as [H1 H2].
    cbn [to_bytes list_ascii_of_string scan_digits]. fold (to_bytes acc). rewrite H1, H2.
    split; [done|]. eexists _, _. done.
  - assert (Hf' : fuel <> 0) by (intros ->; simpl in Hn; lia).
    assert (Hn' : (n / 10 < 2 ^ N.of_nat fuel)%N).
    { rewrite Nat2N.inj_succ, N.pow_succ_r' in Hn. apply N.Div0.div_lt_upper_bound. lia. }
    destruct (IH _ Hn' Hf') as [k Hk]. exists (N.succ k). intros v acc. cbn [dec_digits].
    assert ((n <? 10)%N = false) as -> by (by apply N.ltb_ge).
    destruct (Hk v (String (digit_ascii (N.to_nat (n mod 10))) acc)) as [Hs Hc]. split; [|done].
    rewrite Hs. pose proof (N.mod_lt n 10 ltac:(done)) as Hm.
    destruct (digit_ascii_spec (n mod 10) Hm) as [H1 H2].
    cbn [to_bytes list_ascii_of_string scan_digits]. fold (to_bytes acc). rewrite H1, H2. f_equal.
    rewrite N.pow_succ_r'. pose proof (N.div_mod n 10 ltac:(done)). lia.
Qed.

(** Decimal texts are unambiguous. *)
Lemma N_to_dec_inj a b : N_to_dec a = N_to_dec b -> a = b.
Proof.
  assert (forall n, scan_digits 0 (to_bytes (N_to_dec n)) = (n, [])) as H.
  { intros n. destruct (scan_dec_digits (S (N.to_nat (N.size n))) n) as [k Hk]; [|done|].
    - rewrite Nat2N.inj_succ, N2Nat.id, N.pow_succ_r'. pose proof (N.size_gt n). lia.
    - destruct (Hk 0%N ""%string) as [Hs _]. unfold N_to_dec. rewrite Hs. done. }
  intros E. pose proof (H a) as Ha. rewrite E, H in Ha. by injection Ha.
Qed.

Lemma scan_itoa n rest : int64_ok (Z.of_N n) ->
  (forall c l, rest = c :: l -> is_digit c = false) ->
  scan_int (to_bytes (N_to_dec n) ++ rest) = Some (n, rest).
Proof.
  intros Hok Hrest. unfold N_to_dec.
  rewrite <- (to_of_bytes rest) at 1. rewrite <- to_bytes_app.
  assert (Happ : forall fuel m acc tl, (dec_digits fuel m acc ++ tl)%string = dec_digits fuel m (acc ++ tl)%string).
  { induction fuel as [|fuel IH]; intros m acc tl; simpl; [done|].
    destruct (m <? 10)%N; [done|]. by rewrite IH. }
  rewrite Happ. change ("" ++ of_bytes rest)%string with (of_bytes rest).
  destruct (scan_dec_digits (S (N.to_nat (N.size n))) n) as [k Hk]; [|done|].
  { rewrite Nat2N.inj_succ, N2Nat.id, N.pow_succ_r'. pose proof (N.size_gt n). lia. }
  destruct (Hk 0%N (of_bytes rest)) as [Hs (c & l & Hc & Hd)].
  unfold scan_int. rewrite trim_left_id; rewrite Hc.
  - rewrite Hd, <- Hc, Hs, to_of_bytes. rewrite N.mul_0_l, N.add_0_l.
    assert (scan_digits n rest = (n, rest)) as ->.
    { destruct rest as [|d r]; [done|]. simpl. by rewrite (Hrest d r eq_refl). }
    assert ((Z.of_N n <=? int64_max)%Z = true) as -> by (apply Z.leb_le; unfold int64_ok in Hok; lia). done.
  - cbn [head_ok]. revert Hd. clear. destruct c as [[] [] [] [] [] [] [] []]; by vm_compute.
Qed.

Lemma cut_at_app p l c rest : forallb (fun d => negb (p d)) l = true -> p c = true ->
  cut_at p (l ++ c :: rest) = l.
Proof.
  intros Hl Hc. induction l as [|d l IH]; simpl in *; [by rewrite Hc|].
  destruct (p d); [done|]. f_equal. by apply IH.
Qed.

Lemma cut_at_none p l : forallb (fun d => negb (p d)) l = true -> cut_at p l = l.
Proof. induction l as [|d l IH]; simpl; [done|]. destruct (p d); simpl; [done|]. intros. f_equal. by apply IH. Qed.

Lemma N_to_dec_digits n : forallb is_digit (to_bytes (N_to_dec n)) = true.
Proof.
  unfold N_to_dec. enough (forall fuel m acc, forallb is_digit (to_bytes acc) = true ->
    forallb is_digit (to_bytes (dec_digits fuel m acc)) = true) as H by (by apply H).
  induction fuel as [|fuel IH]; intros m acc Hacc; cbn [dec_digits]; [done|].
  pose proof (N.mod_lt m 10 ltac:(done)) as Hm. destruct (digit_ascii_spec _ Hm) as [H1 _].
  assert (forallb is_digit (to_bytes (String (digit_ascii (N.to_nat (m mod 10))) acc)) = true).
  { cbn [to_bytes list_ascii_of_string forallb]. rewrite H1. done. }
  destruct (m <? 10)%N; [done|]. by apply IH.
Qed.

(** A version string as a Kubernetes API server prints it. *)
Definition version_text (v : bool) (a b c : N) (suffix : string) : string :=
  ((if v then "v" else "") ++ N_to_dec a ++ "." ++ N_to_dec b ++ "." ++ N_to_dec c ++ suffix)%string.

(** A build suffix: nothing, or text that starts with "-" or "+". *)
Definition suffix_ok (s : string) : bool :=
  match to_bytes s with [] => true | c :: _ => is_cut c end.

Lemma digits_not_cut l : forallb is_digit l = true -> forallb (fun d => negb (is_cut d)) l = true.
Proof.
  induction l as [|c l IH]; simpl; [done|]. intros H. apply andb_prop in H as [Hc Hl].
  rewrite IH by done. revert Hc. destruct c as [[] [] [] [] [] [] [] []]; by vm_compute.
Qed.

Lemma trim_v_digit c l : is_digit c = true -> trim_v (c :: l) = c :: l.
Proof.
  intros H. destruct c as [[] [] [] [] [] [] [] []]; try reflexivity. discriminate H.
Qed.

Lemma version_core v a b c suffix : suffix_ok suffix = true ->
  cut_at is_cut (trim_v (to_bytes (version_text v a b c suffix))) =
  to_bytes (N_to_dec a) ++ "."%char :: to_bytes (N_to_dec b) ++ "."%char :: to_bytes (N_to_dec c).
Proof.
  intros Hs. unfold version_text.
  assert (forall x, trim_v (to_bytes ((if v then "v" else "") ++ N_to_dec a ++ x)%string) =
    to_bytes (N_to_dec a) ++ to_bytes x) as ->.
  { intros x. destruct v; simpl append; [rewrite <- to_bytes_app; done|].
    change ("" +:+ N_to_dec a +:+ x) with (N_to_dec a +:+ x). rewrite to_bytes_app.
    pose proof (N_to_dec_digits a) as Hd. destruct (to_bytes (N_to_dec a)) as [|d l] eqn:E.
    - exfalso. unfold N_to_dec in E.
      destruct (scan_dec_digits (S (N.to_nat (N.size a))) a) as [k Hk]; [|done|].
      { rewrite Nat2N.inj_succ, N2Nat.id, N.pow_succ_r'. pose proof (N.size_gt a). lia. }
      destruct (Hk 0%N "") as [_ (c' & l' & Hc & _)]. rewrite Hc in E. done.
    - cbn [forallb] in Hd. apply andb_prop in Hd as [Hd _]. by apply trim_v_digit. }
  rewrite !to_bytes_app.
  set (A := to_bytes (N_to_dec a)). set (B := to_bytes (N_to_dec b)). set (C := to_bytes (N_to_dec c)).
  assert (Hall : forallb (fun d => negb (is_cut d)) (A ++ "."%char :: B ++ "."%char :: C) = true).
  { rewrite !forallb_app. cbn [forallb]. rewrite !forallb_app. cbn [forallb].
    unfold A, B, C. rewrite !digits_not_cut by apply N_to_dec_digits. done. }
  unfold suffix_ok in Hs. change (to_bytes ".") with ["."%char].
  assert (A ++ ["."%char] ++ B ++ ["."%char] ++ C ++ to_bytes suffix =
    (A ++ "."%char :: B ++ "."%char :: C) ++ to_bytes suffix) as ->.
  { rewrite <- !app_assoc. simpl. rewrite <- !app_assoc. done. }
  destruct (to_bytes suffix) as [|d l]; [rewrite app_nil_r; by apply cut_at_none|].
  by apply cut_at_app.
Qed.

(** ** Properties *)

Module Registry.

(** The field registry is consistent: no field is declared twice, every field
    a declared field restates is itself declared, restating never loops, each
    scanner has at most one set projection, and a projection publishes under a
    compared name while its raw array stays out of comparison. *)
Theorem registry_consistent :
  NoDup (map fp_Ref fieldSpecs) /\
  Forall (fun s => spec_decl_ok s = true) fieldSpecs /\
  Forall (fun s => Forall (fun t => restate_depth 4 t < restate_depth 4 (fp_Ref s)) (fp_RedundantWith s)) fieldSpecs /\
  length (List.filter (fun s => match fp_Projection s with Some _ => true | None => false end) fieldSpecs)
    = size setProjections.
Proof.
  split; [exact fieldSpecs_NoDup|].
  split; [apply (bool_decide_unpack _); vm_compute; exact I|].
  split; [apply (bool_decide_unpack _); vm_compute; exact I|]. vm_compute. reflexivity.
Qed.

(** The severity of a divergence or outlier is the declared one: the critical
    and warning tables the code consults are exact views of the registry. *)
Theorem classifySeverity_declared sc f :
  classifySeverity sc f =
  match lookupField sc f with
  | Some s => if String.eqb (fp_Severity s) "" then SeverityInfo else fp_Severity s
  | None => SeverityInfo
  end.
Proof. apply classifySeverity_spec. Qed.

(** An outlier is favorable exactly when its value is on the better side of
    the norm for a field with a polarity, computed on rounded floats without loss;
    then it costs info, otherwise its declared severity. *)
Theorem numericSeverity_direction sc f v m :
  f_finite v = true -> f_finite m = true ->
  numericSeverity sc f (f_sub v m) =
  (let better := match lookupPolarity sc f with
                 | UpIsBad => f_ltb v m
                 | DownIsBad => f_ltb m v
                 | PolarityNone => false
                 end in
   if better then (SeverityInfo, true) else (classifySeverity sc f, false)).
Proof.
  intros Hv Hm. unfold numericSeverity, f_ltb, SFltb.
  rewrite f_sub_sign, (f_zero_compare (f_sub v m)), f_sub_sign by done.
  rewrite (f_compare_val v m), (f_compare_val m v) by done.
  rewrite (Z.compare_antisym (f_val v) (f_val m)).
  destruct (lookupPolarity sc f); simpl; destruct (f_val v ?= f_val m)%Z; done.
Qed.

Lemma numericSeverity_direction_witness :
  numericSeverity "node-health" "not_ready_nodes" (f_sub (f_of_Z 0) (f_of_Z 2)) = (SeverityInfo, true).
Proof. rewrite (numericSeverity_direction "node-health" "not_ready_nodes" (f_of_Z 0) (f_of_Z 2)); vm_compute; reflexivity. Defined.

(** Printing and parsing a version agree: for components in the range of
    [int], with or without the leading "v" and with any build suffix,
    [parseSemver] returns exactly the three components. *)
Theorem parseSemver_roundtrip v a b c suffix :
  int64_ok (Z.of_N a) -> int64_ok (Z.of_N b) -> int64_ok (Z.of_N c) -> suffix_ok suffix = true ->
  parseSemver (version_text v a b c suffix) = Some (a, b, c).
Proof.
  intros Ha Hb Hc Hs. unfold parseSemver, scan_triple. rewrite version_core by done.
  rewrite scan_itoa; [|done|by intros ? ? [= <- _]]. simpl.
  rewrite scan_itoa; [|done|by intros ? ? [= <- _]]. simpl.
  rewrite <- (app_nil_r (to_bytes (N_to_dec c))), scan_itoa; done.
Qed.

Lemma parseSemver_roundtrip_witness :
  parseSemver (version_text true 1 31 2 "-gke.500") = Some (1, 31, 2)%N.
Proof. apply (parseSemver_roundtrip true 1 31 2 "-gke.500"); try reflexivity; unfold int64_ok, int64_min, int64_max; lia. Defined.

(** Version skew is graded by the widest pair of parsed versions and nothing
    else: two minors apart is critical, one apart is warning, none is info.
    Unparseable strings, duplicates and order cannot change it. *)
Theorem versionSkewSeverity_widest versions :
  (versionSkewSeverity versions = SeverityCritical <-> minors_apart 2 versions) /\
  (versionSkewSeverity versions = SeverityInfo <-> ~ minors_apart 1 versions).
Proof.
  assert (H12 : minors_apart 2 versions -> minors_apart 1 versions).
  { intros (a & b & ? & ? & ?). exists a, b. split_all; [done|done|lia]. }
  destruct (versionSkewSeverity_cases versions) as [[-> H]|[(-> & H & H')|[-> H]]];
    unfold SeverityCritical, SeverityWarning, SeverityInfo; split; split; try done; try tauto.
Qed.

End Registry.
