(* ===== verification/Observe.v ===== *)
(** * internal/report/observe.go: what was measured, and how far to trust it

    The scanner rules of the report read data through these accessors, so a run that
    failed never reads as a measured zero. Populations and the vulnerability rule do not:
    they read the payloads of the sections directly. *)

From Stdlib Require Import ZArith Lia String Ascii.
From stdpp Require Import base gmap strings list sets.
From S2P Require Import Prelude Float64 Text Data.

(** ** Data *)

Inductive observation := unobserved | partial | observed.

#[export] Instance observation_eq_dec : EqDecision observation.
Proof. solve_decision. Defined.

(** The [int] behind each value, which [min] in [weakest] compares. *)
Definition obs_rank (o : observation) : nat :=
  match o with unobserved => 0 | partial => 1 | observed => 2 end.

Definition partialScanNote : string := " (partial scan)".

(** A run is keyed by scanner, then cluster. *)
Abbreviation runKey := (string * string)%type.
Abbreviation runTable := (gmap (string * string) string).

(** ** The run-state table *)

Definition section_runs (sections : gmap string SectionReport) : runTable :=
  map_fold (fun name sec acc =>
    map_fold (fun cluster (_ : json) acc => <[(name, cluster) := StateOK]> acc) acc (sr_PerCluster sec))
    ∅ sections.

Definition indexRuns (r : Report) : runTable :=
  fold_left (fun runs d => <[(ss_Scanner d, ss_Cluster d) := ss_State d]> runs)
    (rp_Degraded r) (section_runs (rp_Sections r)).

Definition runs_of (r : Report) : runTable :=
  match rp_runs r with Some runs => runs | None => indexRuns r end.

Definition runState (r : Report) (scannerName cluster : string) : option State :=
  runs_of r !! (scannerName, cluster).

(** ** Accessors *)

Definition clusterView (r : Report) (scannerName cluster : string) : gmap string json * observation :=
  match runState r scannerName cluster with
  | None => (∅, unobserved)
  | Some st =>
      if String.eqb st StateErrored then (∅, unobserved)
      else match rp_Sections r !! scannerName with
           | None => (∅, unobserved)
           | Some sec =>
               match sr_PerCluster sec !! cluster with
               | Some (JObj kv) =>
                   (list_to_map kv, if String.eqb st StateDegraded then partial else observed)
               | _ => (∅, unobserved)
               end
           end
  end.

Definition observe (r : Report) (scannerName cluster field : string) : float64 * observation :=
  let '(m, obs) := clusterView r scannerName cluster in
  match obs with
  | unobserved => (f_zero, unobserved)
  | _ => match util_Float64 (m !! field) with
         | Some v => (v, obs)
         | None => (f_zero, unobserved)
         end
  end.

Definition observeInt (r : Report) (scannerName cluster field : string) : Z * observation :=
  let '(v, obs) := observe r scannerName cluster field in (f_to_int v, obs).

Definition observeString (r : Report) (scannerName cluster field : string) : string * observation :=
  let '(m, obs) := clusterView r scannerName cluster in
  match obs with
  | unobserved => ("", unobserved)
  | _ => match m !! field with
         | Some (JStr s) => (s, obs)
         | _ => ("", unobserved)
         end
  end.

Definition seen (obs : observation) : bool := negb (bool_decide (obs = unobserved)).

Definition note (obs : observation) : string :=
  match obs with partial => partialScanNote | _ => "" end.

Definition runNote (r : Report) (scannerName cluster : string) : string :=
  match runState r scannerName cluster with
  | Some st => if String.eqb st StateDegraded then partialScanNote else ""
  | None => ""
  end.

Definition obs_min (a b : observation) : observation := if obs_rank b <? obs_rank a then b else a.
Definition weakest (obs : list observation) : observation := fold_left obs_min obs observed.

(** [strings.TrimSpace] on ASCII white space. *)
Definition is_space (c : ascii) : bool := byte_in 9 13 c || byte_in 32 32 c.
Definition trim_space (s : string) : string := of_bytes (trim is_space (to_bytes s)).

(** [strings.CutSuffix]. *)
Definition cut_suffix (s suffix : string) : string * bool :=
  let l := to_bytes s in let sl := to_bytes suffix in
  let n := length l - length sl in
  if (length sl <=? length l) && bool_decide (drop n l = sl)
  then (of_bytes (take n l), true) else (s, false).

Definition appendSentence (desc sentence : string) (part : bool) : string :=
  let '(base, noted) := cut_suffix desc partialScanNote in
  let out := trim_space (base ++ " " ++ sentence)%string in
  if noted || part then (out ++ partialScanNote)%string else out.

Definition ends_with (s suffix : string) : Prop := exists u, s = (u ++ suffix)%string.

Definition DegradedByCluster (r : Report) : gmap string nat :=
  fold_left (fun out d => <[ss_Cluster d := S (default 0 (out !! ss_Cluster d))]> out) (rp_Degraded r) ∅.

(** ** Facts *)

Lemma section_runs_lookup sections name cluster :
  section_runs sections !! (name, cluster) =
  match sections !! name with
  | Some sec => match sr_PerCluster sec !! cluster with Some _ => Some StateOK | None => None end
  | None => None
  end.
Proof.
  unfold section_runs.
  assert (Hinner : forall nm (per : gmap string json) (acc : runTable) k c,
    map_fold (fun cluster (_ : json) acc => <[(nm, cluster) := StateOK]> acc) acc per !! (k, c) =
    if decide (k = nm) then match per !! c with Some _ => Some StateOK | None => acc !! (k, c) end
    else acc !! (k, c)).
  { intros nm per acc k c. revert acc.
    induction per as [|c' x per Hc' Hfst IH] using map_first_key_ind; intros acc.
    - rewrite map_fold_empty, lookup_empty. by case_decide.
    - rewrite map_fold_insert_first_key by done. case_decide as Hk; [subst k|].
      + destruct (decide (c' = c)) as [->|Hne]; [by rewrite !lookup_insert_eq|].
        rewrite !lookup_insert_ne by congruence. apply IH.
      + rewrite lookup_insert_ne by congruence. apply IH. }
  induction sections as [|nm sec sections Hnm Hfst IH] using map_first_key_ind.
  - by rewrite map_fold_empty, !lookup_empty.
  - rewrite map_fold_insert_first_key, Hinner by done. case_decide as Hk.
    + subst name. rewrite lookup_insert_eq. rewrite Hnm in IH. rewrite IH. done.
    + rewrite lookup_insert_ne by done. apply IH.
Qed.

(** The last degraded entry of a run. *)
Definition degraded_entry (r : Report) (scannerName cluster : string) : option ScannerStatus :=
  last (List.filter (fun d => String.eqb (ss_Scanner d) scannerName && String.eqb (ss_Cluster d) cluster)
    (rp_Degraded r)).

Lemma indexRuns_lookup r name cluster :
  indexRuns r !! (name, cluster) =
  match degraded_entry r name cluster with
  | Some d => Some (ss_State d)
  | None => section_runs (rp_Sections r) !! (name, cluster)
  end.
Proof.
  unfold indexRuns, degraded_entry. generalize (section_runs (rp_Sections r)).
  induction (rp_Degraded r) as [|d l IH] using rev_ind; intros acc; [done|].
  rewrite fold_left_app, List.filter_app. simpl.
  destruct (String.eqb_spec (ss_Scanner d) name) as [->|H1];
    [destruct (String.eqb_spec (ss_Cluster d) cluster) as [->|H2]|]; simpl.
  - by rewrite last_snoc, lookup_insert_eq.
  - rewrite app_nil_r, lookup_insert_ne by congruence. apply IH.
  - rewrite app_nil_r, lookup_insert_ne by congruence. apply IH.
Qed.

Lemma clusterView_unobserved r s c m : clusterView r s c = (m, unobserved) -> m = ∅.
Proof. unfold clusterView. repeat break_match; congruence. Qed.

Lemma weakest_spec obs : obs_rank (weakest obs) = foldr Nat.min 2 (map obs_rank obs).
Proof.
  assert (Hmin : forall a b, obs_rank (obs_min a b) = Nat.min (obs_rank a) (obs_rank b)) by (by intros [] []).
  unfold weakest. enough (forall o, obs_rank (fold_left obs_min obs o) =
    Nat.min (obs_rank o) (foldr Nat.min 2 (map obs_rank obs))) as H.
  { rewrite H. cbn [obs_rank]. enough (foldr Nat.min 2 (map obs_rank obs) <= 2) by lia. clear.
    induction obs as [|o l IH]; cbn [foldr map]; lia. }
  induction obs as [|o' l IH]; intros o; cbn [fold_left foldr map]; [destruct o; done|].
  rewrite IH, Hmin. lia.
Qed.

Lemma cut_suffix_ends s suffix : ends_with s suffix -> snd (cut_suffix s suffix) = true.
Proof.
  intros [u ->]. unfold cut_suffix. rewrite to_bytes_app, length_app.
  rewrite (proj2 (Nat.leb_le _ _)) by lia. rewrite bool_decide_eq_true_2; [done|].
  rewrite drop_app_length'; [done|lia].
Qed.

(** The partial-scan note stays last. *)
Lemma appendSentence_marked desc sentence part :
  ends_with desc partialScanNote -> ends_with (appendSentence desc sentence part) partialScanNote.
Proof.
  intros H%cut_suffix_ends. unfold appendSentence. destruct (cut_suffix desc partialScanNote) as [base noted].
  simpl in H. subst noted. eexists. reflexivity.
Qed.

(** ** Properties *)

Module Accessors.

(** A run's state is decided the documented way, also for a report decoded
    without its table: the last degraded entry wins, a run with a payload and no
    entry is OK, and a run with neither does not exist. *)
Theorem runState_decoded r name cluster :
  rp_runs r = None ->
  runState r name cluster =
  match degraded_entry r name cluster with
  | Some d => Some (ss_State d)
  | None => match rp_Sections r !! name with
            | Some sec => match sr_PerCluster sec !! cluster with Some _ => Some StateOK | None => None end
            | None => None
            end
  end.
Proof.
  intros H. unfold runState, runs_of. rewrite H, indexRuns_lookup, section_runs_lookup. done.
Qed.

(** C17: a failed read never reads as a measurement: whenever a numeric field
    counts as seen, its run exists and did not error, the cluster's payload is an
    object holding exactly that number, and it is partial exactly when the run was
    degraded. *)
Theorem observe_sound r name cluster field v obs :
  observe r name cluster field = (v, obs) -> seen obs = true ->
  exists st sec kv, runState r name cluster = Some st /\ st <> StateErrored /\
    rp_Sections r !! name = Some sec /\ sr_PerCluster sec !! cluster = Some (JObj kv) /\
    (list_to_map kv : gmap string json) !! field = Some (JNum v) /\
    (obs = partial <-> st = StateDegraded).
Proof.
  unfold observe, clusterView, seen. intros H Hs.
  destruct (runState r name cluster) as [st|]; [|by simplify_eq/=].
  destruct (String.eqb_spec st StateErrored); [by simplify_eq/=|].
  destruct (rp_Sections r !! name) as [sec|] eqn:Esec; [|by simplify_eq/=].
  destruct (sr_PerCluster sec !! cluster) as [[| | | | |kv]|] eqn:Eper; try by simplify_eq/=.
  exists st, sec, kv. unfold util_Float64 in H.
  destruct (String.eqb_spec st StateDegraded);
    destruct ((list_to_map kv : gmap string json) !! field) as [[]|]; simplify_eq/=; split_all; done.
Qed.

(** A fleet of one cluster whose metrics run was degraded. *)
Definition sample_sections : gmap string SectionReport :=
  {[ "metrics" := {| sr_Uniform := true;
      sr_PerCluster := {[ "c1" := JObj [("pods", JNum (f_of_Z 7))] ]}; sr_Divergences := [] |} ]}.

Definition sample_report : Report := {|
  rp_Clusters := ["c1"]; rp_Sections := sample_sections; rp_Summary := summary_zero; rp_Findings := [];
  rp_ClusterHealths := []; rp_Outliers := []; rp_Distributions := []; rp_DeviationMass := ∅;
  rp_ScoreAttribution := None; rp_FleetScore := fleet_score_zero; rp_Cohorts := [];
  rp_Degraded := [{| ss_Cluster := "c1"; ss_Scanner := "metrics"; ss_State := StateDegraded; ss_Reason := "" |}];
  rp_Incidents := []; rp_Notes := []; rp_runs := None |}.

Lemma runState_decoded_witness :
  rp_runs sample_report = None /\ runState sample_report "metrics" "c1" = Some StateDegraded.
Proof.
  split; [reflexivity|]. rewrite (runState_decoded sample_report "metrics" "c1" eq_refl). reflexivity.
Defined.

Lemma observe_sound_witness :
  observe sample_report "metrics" "c1" "pods" = (f_of_Z 7, partial) /\
  exists st, runState sample_report "metrics" "c1" = Some st /\ st <> StateErrored.
Proof.
  assert (H : observe sample_report "metrics" "c1" "pods" = (f_of_Z 7, partial)) by (vm_compute; reflexivity).
  split; [exact H|].
  destruct (observe_sound sample_report "metrics" "c1" "pods" (f_of_Z 7) partial H eq_refl)
    as (st & sec & kv & Hst & Hne & _). exists st. split; [exact Hst|exact Hne].
Defined.

End Accessors.
