(* ===== verification/Format.v ===== *)
(** * Number and value formatting: the fmt and strconv verbs the reports use

    [%.0f], [%.1f], [%v] and [%q], and [strconv.ParseFloat] on plain decimals,
    computed exactly on binary64 values. *)

From Stdlib Require Import ZArith Lia String Ascii Floats.SpecFloat.
From stdpp Require Import base gmap strings list.
From S2P Require Import Prelude Float64 Text Data.

Local Open Scope Z_scope.

(** ** Exact decimal arithmetic *)

(** The correctly rounded binary64 value of the ratio of two positive integers. *)
Definition f_ratio (s : bool) (num den : positive) : float64 :=
  let '(q, e, l) := SFdiv_core_binary prec emax (Zpos num) 0 (Zpos den) 0 in binary_round_aux prec emax s q e l.

Definition f_of_decimal (s : bool) (digits : Z) (exp10 : Z) : float64 :=
  match digits with
  | Zpos p => if 0 <=? exp10 then f_ratio s (p * Z.to_pos (10 ^ exp10)) 1 else f_ratio s p (Z.to_pos (10 ^ (- exp10)))
  | _ => S754_zero s
  end.

(** [num / den] rounded to the nearest integer, ties to even. *)
Definition div_half_even (num den : Z) : Z :=
  let q := num / den in
  match (2 * (num mod den) ?= den) with
  | Lt => q
  | Gt => q + 1
  | Eq => if Z.even q then q else q + 1
  end.

(** A finite magnitude [m * 2^e] as a fraction. *)
Definition mag_num (m : positive) (e : Z) : Z := if 0 <=? e then Zpos m * 2 ^ e else Zpos m.
Definition mag_den (e : Z) : Z := if 0 <=? e then 1 else 2 ^ (- e).

Fixpoint pad_left (n : nat) (s : string) : string :=
  match n with
  | O => s
  | S n' => if (String.length s <? n)%nat then String "0" (pad_left n' s) else s
  end.

(** Digits with a point [d] places from the right. *)
Definition with_point (d : nat) (digits : Z) : string :=
  let q := digits / 10 ^ Z.of_nat d in
  let r := digits mod 10 ^ Z.of_nat d in
  match d with
  | O => itoa q
  | S _ => (itoa q ++ "." ++ pad_left d (itoa r))%string
  end.

Definition sign_text (s : bool) (t : string) : string := if s then String "-" t else t.

Definition special_text (x : float64) : string :=
  match x with
  | S754_infinity false => "+Inf"
  | S754_infinity true => "-Inf"
  | _ => "NaN"
  end.

(** The [%.df] verb. *)
Definition show_fixed (d : nat) (x : float64) : string :=
  match x with
  | S754_zero s => sign_text s (with_point d 0)
  | S754_finite s m e =>
      sign_text s (with_point d (div_half_even (mag_num m e * 10 ^ Z.of_nat d) (mag_den e)))
  | _ => special_text x
  end.

(** internal/report/compare.go [formatNum]. *)
Definition formatNum (n : float64) : string :=
  if f_eqb n (f_trunc n) then show_fixed 0 n else show_fixed 1 n.

Example formatNum_ex :
  map formatNum [f_of_Z 7; f_const 25 100; f_const 35 100; f_const (-4) 100; f_of_Z 1234567; S754_zero true] =
  ["7"; "0.2"; "0.3"; "-0.0"; "1234567"; "-0"]%string.
Proof. vm_compute. reflexivity. Qed.

(** ** [strconv.ParseFloat] on the texts [formatNum] writes *)

Fixpoint parse_digits (v : Z) (l : bytes) : option Z :=
  match l with
  | [] => Some v
  | c :: l' => if byte_in 48 57 c then parse_digits (10 * v + Z.of_nat (nat_of_ascii c - 48)) l' else None
  end.

(** The part before the first point and the part after it. *)
Fixpoint cut_point (l : bytes) : bytes * bytes :=
  match l with
  | [] => ([], [])
  | c :: l' => if Ascii.eqb c "." then ([], l') else let '(a, b) := cut_point l' in (c :: a, b)
  end.

(** The error of a text it does not read is ignored by its caller, which then
    sees zero. *)
Definition ParseFloat (s : string) : float64 :=
  let l := to_bytes s in
  let neg := match l with "-"%char :: _ => true | _ => false end in
  let body := if neg then tail l else l in
  if String.eqb s "NaN" then S754_nan
  else if String.eqb s "+Inf" then f_inf false
  else if String.eqb s "-Inf" then f_inf true
  else
    let '(ip, fp) := cut_point body in
    match ip, parse_digits 0 (ip ++ fp) with
    | _ :: _, Some v => f_of_decimal neg v (- Z.of_nat (length fp))
    | _, _ => f_zero
    end.

Example ParseFloat_ex : map ParseFloat ["12"; "0.1"; "-3.5"; "x"]%string =
  [f_of_Z 12; f_const 1 10; f_const (-7) 2; f_zero].
Proof. vm_compute. reflexivity. Qed.

(** ** The shortest decimal that reads back, and [%v] *)

(** Position of the decimal point: the magnitude lies in [10^(p-1), 10^p). *)
Fixpoint point_below (fuel : nat) (num den p : Z) : Z :=
  match fuel with
  | O => p
  | S fuel' => if den <=? 10 * num then p else point_below fuel' (10 * num) den (p - 1)
  end.

Definition point_of (num den : Z) : Z :=
  if den <=? num then Z.of_nat (String.length (itoa (num / den))) else point_below 400 num den 0.

(** The first length, from [nd] digits on, at which a digit string reads back as
    [x]: its digits and their count. *)
Fixpoint shortest_from (fuel : nat) (x : float64) (num den p nd : Z) : Z * Z :=
  let scale := nd - p in
  let n := if 0 <=? scale then num * 10 ^ scale else num in
  let d := if 0 <=? scale then den else den * 10 ^ (- scale) in
  let down := n / d in
  let reads (v : Z) : bool := f_eqb (f_of_decimal false v (- scale)) x in
  match fuel with
  | O => (div_half_even n d, nd)
  | S fuel' =>
      match reads down, reads (down + 1) with
      | true, true => (div_half_even n d, nd)
      | true, false => (down, nd)
      | false, true => (down + 1, nd)
      | false, false => shortest_from fuel' x num den p (nd + 1)
      end
  end.

Fixpoint strip_zeros (fuel : nat) (v nd : Z) : Z * Z :=
  match fuel with
  | O => (v, nd)
  | S fuel' => if (v mod 10 =? 0) && (1 <? nd) then strip_zeros fuel' (v / 10) (nd - 1) else (v, nd)
  end.

Fixpoint zeros (n : nat) : string := match n with O => "" | S n' => String "0" (zeros n') end.

(** The precision the choice of [%e] goes by when it is the shortest. *)
Definition eprec : Z := 6.

(** [%g] with the shortest precision: digits [v], [nd] of them, the point after
    the [p]th. *)
Definition show_general (v nd p : Z) : string :=
  let digits := itoa v in
  let exp := p - 1 in
  if (exp <? -4) || (eprec <=? exp) then
    let mant := if nd =? 1 then digits
                else (String.substring 0 1 digits ++ "." ++ String.substring 1 (Z.to_nat (nd - 1)) digits)%string in
    let sign := if exp <? 0 then "-"%string else "+"%string in
    (mant ++ "e" ++ sign ++ pad_left 2 (itoa (Z.abs exp)))%string
  else if p <=? 0 then ("0." ++ zeros (Z.to_nat (- p)) ++ digits)%string
  else if nd <=? p then (digits ++ zeros (Z.to_nat (p - nd)))%string
  else (String.substring 0 (Z.to_nat p) digits ++ "." ++
        String.substring (Z.to_nat p) (Z.to_nat (nd - p)) digits)%string.

(** The digits, their count and the position of the point. *)
Definition shortest (x : float64) (m : positive) (e : Z) : Z * Z * Z :=
  let num := mag_num m e in let den := mag_den e in
  let p := point_of num den in
  let '(v, nd) := shortest_from 17 (f_abs x) num den p 1 in
  (* rounding up may carry into one more digit *)
  let p := if 10 ^ nd <=? v then p + 1 else p in
  let nd := if 10 ^ nd <=? v then nd + 1 else nd in
  let '(v, nd) := strip_zeros 20 v nd in (v, nd, p).

Definition show_float (x : float64) : string :=
  match x with
  | S754_zero s => sign_text s "0"
  | S754_finite s m e => let '(v, nd, p) := shortest x m e in sign_text s (show_general v nd p)
  | _ => special_text x
  end.

Example show_float_ex :
  map show_float [f_of_Z 7; f_const 1 10; f_const 3 10; f_of_Z 100; f_of_Z 123456789; f_const 1 100000;
                  f_const (-5) 2; f_const 1 3; f_of_Z 1000000; f_of_Z 999999; MaxFloat64; f_add (f_const 1 10) (f_const 2 10)] =
  ["7"; "0.1"; "0.3"; "100"; "1.23456789e+08"; "1e-05"; "-2.5"; "0.3333333333333333"; "1e+06"; "999999";
   "1.7976931348623157e+308"; "0.30000000000000004"]%string.
Proof. vm_compute. reflexivity. Qed.

(** [fmt.Sprintf("%v", v)] of a decoded JSON value. A map prints in key order. *)
Fixpoint sprint (v : json) : string :=
  match v with
  | JNull => "<nil>"
  | JBool b => if b then "true" else "false"
  | JNum x => show_float x
  | JStr s => s
  | JArr l => ("[" ++ join " " (map sprint l) ++ "]")%string
  | JObj kv =>
      let shown := map (fun p => (fst p, sprint (snd p))) kv in
      ("map[" ++ join " " (map (fun p => (fst p ++ ":" ++ snd p)%string)
        (isort (less_of (cmp_on fst String.compare)) shown)) ++ "]")%string
  end.

Example sprint_ex :
  sprint (JObj [("b", JArr [JNum (f_of_Z 1); JNull]); ("a", JBool true)]) = "map[a:true b:[1 <nil>]]"%string.
Proof. vm_compute. reflexivity. Qed.

(** The [%q] verb on text: control bytes, quotes and backslashes are escaped.
    Bytes above 127 are kept, as Go keeps printable characters. *)
Definition hex_digit (n : nat) : ascii := ascii_of_nat (if (n <? 10)%nat then 48 + n else 87 + n).

Definition quote_byte (c : ascii) : bytes :=
  let bs := ascii_of_nat 92 in
  let n := nat_of_ascii c in
  if Ascii.eqb c bs || (n =? 34)%nat then [bs; c]
  else match n with
       | 7 => [bs; "a"%char] | 8 => [bs; "b"%char] | 12 => [bs; "f"%char] | 10 => [bs; "n"%char]
       | 13 => [bs; "r"%char] | 9 => [bs; "t"%char] | 11 => [bs; "v"%char]
       | _ => if (n <? 32)%nat || (n =? 127)%nat
              then [bs; "x"%char; hex_digit (n / 16); hex_digit (n mod 16)] else [c]
       end%nat.

Definition quote (s : string) : string :=
  let q := ascii_of_nat 34 in of_bytes (q :: flat_map quote_byte (to_bytes s) ++ [q]).

(** ** Facts *)

Lemma pad_left_length n s : (n <= String.length (pad_left n s))%nat.
Proof.
  induction n as [|n IH]; simpl; [lia|]. destruct (Nat.ltb_spec (String.length s) (S n)); simpl; lia.
Qed.
