(* ===== verification/Score.v ===== *)
(** * Fleet and cluster scores: score_attribution.go, score.go, cluster_score.go

    The ledger of costs, the fleet score read from it, the coverage that decides
    whether the score is graded, and the per-cluster analog. *)

From Stdlib Require Import ZArith Lia String.
From stdpp Require Import base gmap strings list sets sorting.
From S2P Require Import Prelude Float64 Text Data Fields Observe.

Local Open Scope nat_scope.

(** ** score.go: weights *)

Definition scorePerCritical : float64 := f_of_Z 6.
Definition scorePerWarning : float64 := f_const 15 10.
Definition scorePerInfo : float64 := f_const 25 100.
Definition scoreCriticalCap : float64 := f_of_Z 36.
Definition scoreWarningCap : float64 := f_of_Z 24.
Definition scoreInfoCap : float64 := f_of_Z 5.
Definition scoreCriticalFleet : float64 := f_of_Z 20.
Definition scoreDegradedFleet : float64 := f_of_Z 10.
Definition scoreVersionCritSev : float64 := f_of_Z 10.
Definition scoreVersionWarnSev : float64 := f_of_Z 3.
Definition scoreWorstNodeCap : float64 := f_of_Z 10.
Definition minCoverageFraction : float64 := f_const 8 10.

(** ** score_attribution.go *)

Definition TermCriticalFindings : string := "critical-findings".
Definition TermWarningFindings : string := "warning-findings".
Definition TermInfoFindings : string := "info-findings".
Definition TermCriticalClusters : string := "critical-clusters".
Definition TermDegradedClusters : string := "degraded-clusters".
Definition TermVersionSkew : string := "version-skew".
Definition TermWorstNode : string := "worst-node".

(** A contribution before its term is known. *)
Definition entry (rule cluster : string) (raw : float64) : ScoreEntry :=
  {| se_Term := ""; se_Rule := rule; se_Cluster := cluster; se_Raw := raw; se_Cost := f_zero |}.

Definition charge (term : string) (scale : float64) (e : ScoreEntry) : ScoreEntry :=
  {| se_Term := term; se_Rule := se_Rule e; se_Cluster := se_Cluster e; se_Raw := se_Raw e;
     se_Cost := f_mul (se_Raw e) scale |}.

Definition addTerm (a : ScoreAttribution) (term reason : string) (count : nat) (limit : float64)
  (entries : list ScoreEntry) : ScoreAttribution :=
  let raw := f_sum (map se_Raw entries) in
  if f_leb raw f_zero then a
  else
    let cost := if f_ltb f_zero limit then f_min raw limit else raw in
    let scale := f_div cost raw in
    {| sa_Terms := sa_Terms a ++ [{| st_Term := term; st_Reason := reason; st_Count := count;
                                      st_Raw := raw; st_Cap := limit; st_Cost := cost |}];
       sa_Entries := sa_Entries a ++ map (charge term scale) entries;
       sa_Total := sa_Total a; sa_ByCluster := sa_ByCluster a; sa_ByRule := sa_ByRule a |}.

Record severityTerm := {
  sv_term : string;
  sv_severity : string;
  sv_label : string;
  sv_per : float64;
  sv_limit : float64
}.

Definition severityTerms : list severityTerm := [
  {| sv_term := TermCriticalFindings; sv_severity := SeverityCritical; sv_label := "critical";
     sv_per := scorePerCritical; sv_limit := scoreCriticalCap |};
  {| sv_term := TermWarningFindings; sv_severity := SeverityWarning; sv_label := "warning";
     sv_per := scorePerWarning; sv_limit := scoreWarningCap |};
  {| sv_term := TermInfoFindings; sv_severity := SeverityInfo; sv_label := "info";
     sv_per := scorePerInfo; sv_limit := scoreInfoCap |}].

(** Adds [per] to the entry of (rule, cluster), or appends a new one: the index
    map of the source finds the entry's position. *)
Fixpoint bump (rule cluster : string) (per : float64) (entries : list ScoreEntry) : list ScoreEntry :=
  match entries with
  | [] => [entry rule cluster (f_add f_zero per)]
  | e :: es =>
      if String.eqb (se_Rule e) rule && String.eqb (se_Cluster e) cluster
      then entry rule cluster (f_add (se_Raw e) per) :: es
      else e :: bump rule cluster per es
  end.

Definition severity_entries (sev : severityTerm) (findings : list Finding) : list ScoreEntry :=
  fold_left (fun es f =>
    if String.eqb (fi_Severity f) (sv_severity sev) then bump (fi_Rule f) (fi_Cluster f) (sv_per sev) es else es)
    findings [].

Definition count_severity (sev : string) (findings : list Finding) : nat :=
  length (List.filter (fun f => String.eqb (fi_Severity f) sev) findings).

Definition addFindingTerms (a : ScoreAttribution) (findings : list Finding) : ScoreAttribution :=
  fold_left (fun a sev =>
    let count := count_severity (sv_severity sev) findings in
    let reason := (itoa (Z.of_nat count) ++ " " ++ sv_label sev ++ " finding" ++ Plural (Z.of_nat count))%string in
    addTerm a (sv_term sev) reason count (sv_limit sev) (severity_entries sev findings)) severityTerms a.

Definition status_in (l : list string) (h : ClusterHealth) : bool :=
  existsb (String.eqb (ch_Status h)) l.

Definition share_entries (l : list string) (cost : float64) (healths : list ClusterHealth) : list ScoreEntry :=
  map (fun h => entry "" (ch_Name h) (f_div cost (f_of_Z (Z.of_nat (length healths)))))
    (List.filter (status_in l) healths).

Definition health_reason (k total : nat) (what : string) : string :=
  (itoa (Z.of_nat k) ++ " of " ++ itoa (Z.of_nat total) ++ " cluster" ++ Plural (Z.of_nat total) ++ " " ++ what)%string.

Definition addClusterHealthTerms (a : ScoreAttribution) (healths : list ClusterHealth) : ScoreAttribution :=
  let total := length healths in
  if total =? 0 then a
  else
    let crit := share_entries ["critical"] scoreCriticalFleet healths in
    let deg := share_entries ["degraded"; "strained"] scoreDegradedFleet healths in
    let a := addTerm a TermCriticalClusters (health_reason (length crit) total "critical") (length crit) f_zero crit in
    addTerm a TermDegradedClusters (health_reason (length deg) total "degraded") (length deg) f_zero deg.

Definition known_versions (healths : list ClusterHealth) : list string :=
  List.filter (fun v => negb (String.eqb v "")) (map ch_KubernetesVersion healths).

Definition addVersionSkewTerm (a : ScoreAttribution) (healths : list ClusterHealth) : ScoreAttribution :=
  if length healths <? 2 then a
  else
    let sev := versionSkewSeverity (known_versions healths) in
    if String.eqb sev SeverityCritical then
      addTerm a TermVersionSkew "Kubernetes version skew exceeds one minor" 1 f_zero
        [entry "version/skew" "" scoreVersionCritSev]
    else if String.eqb sev SeverityWarning then
      addTerm a TermVersionSkew "Kubernetes version skew across the fleet" 1 f_zero
        [entry "version/skew" "" scoreVersionWarnSev]
    else a.

(** [NodeCount - HealthyNodes] on Go's [int]. *)
Definition unhealthy_nodes (h : ClusterHealth) : Z := wrap64 (ch_NodeCount h - ch_HealthyNodes h).

Definition unhealthy_frac (h : ClusterHealth) : float64 :=
  f_div (f_of_Z (unhealthy_nodes h)) (f_of_Z (ch_NodeCount h)).

Definition worst_step (acc : float64 * string) (h : ClusterHealth) : float64 * string :=
  if (ch_NodeCount h <=? 0)%Z then acc
  else if (unhealthy_nodes h <=? 0)%Z then acc
  else if f_ltb (fst acc) (unhealthy_frac h) then (unhealthy_frac h, ch_Name h) else acc.

Definition addWorstNodeTerm (a : ScoreAttribution) (healths : list ClusterHealth) : ScoreAttribution :=
  let '(worstFrac, worstCluster) := fold_left worst_step healths (f_zero, "") in
  if f_eqb worstFrac f_zero then a
  else
    let reason := (worstCluster ++ " has " ++ itoa (f_to_int (f_round (f_mul worstFrac (f_of_Z 100))))
                   ++ "% unhealthy nodes")%string in
    addTerm a TermWorstNode reason 1 f_zero [entry "" worstCluster (f_mul scoreWorstNodeCap worstFrac)].

(** [m[k] += cost] for every entry that names a key. *)
Definition sum_by (key : ScoreEntry -> string) (entries : list ScoreEntry) : gmap string float64 :=
  fold_left (fun m e =>
    if String.eqb (key e) "" then m
    else <[key e := f_add (default f_zero (m !! key e)) (se_Cost e)]> m) entries ∅.

Definition ledger_terms (r : Report) : ScoreAttribution :=
  let a := addFindingTerms attribution_zero (rp_Findings r) in
  let a := addClusterHealthTerms a (rp_ClusterHealths r) in
  let a := addVersionSkewTerm a (rp_ClusterHealths r) in
  addWorstNodeTerm a (rp_ClusterHealths r).

Definition computeScoreAttribution (r : option Report) : ScoreAttribution :=
  match r with
  | None => attribution_zero
  | Some r =>
      let a := ledger_terms r in
      {| sa_Terms := sa_Terms a; sa_Entries := sa_Entries a;
         sa_Total := f_sum (map st_Cost (sa_Terms a));
         sa_ByCluster := sum_by se_Cluster (sa_Entries a);
         sa_ByRule := sum_by se_Rule (sa_Entries a) |}
  end.

Definition Drivers (a : ScoreAttribution) : list FleetScoreDriver :=
  let drivers := map (fun t => {| fd_Reason := st_Reason t; fd_Impact := f_to_int (f_round (st_Cost t)) |})
    (sa_Terms a) in
  take 3 (isort (less_of (cmp_rev (cmp_on fd_Impact Z.compare))) drivers).

(** ** score.go *)

Definition expectedScanners (r : Report) : list string :=
  sort_strings (elements (dom (rp_Sections r) ∪ list_to_set (map ss_Scanner (rp_Degraded r)) : gset string)).

(** One run of a cluster: observed, blind, or (degraded) neither. *)
Definition run_observed (r : Report) (cluster name : string) : bool :=
  match runState r name cluster with
  | Some st => String.eqb st StateOK || String.eqb st StateUnavailable
  | None => false
  end.

Definition run_blind (r : Report) (cluster name : string) : bool :=
  match runState r name cluster with
  | Some st => String.eqb st StateErrored
  | None => true
  end.

Definition clusterRunCounts (r : Report) (cluster : string) (scanners : list string) : nat * nat :=
  (length (List.filter (run_observed r cluster) scanners), length (List.filter (run_blind r cluster) scanners)).

Definition add_cluster_coverage (r : Report) (scanners : list string) (c : FleetCoverage) (cluster : string) :
  FleetCoverage :=
  let '(ok, blind) := clusterRunCounts r cluster scanners in
  {| co_ExpectedRuns := co_ExpectedRuns c + length scanners;
     co_ObservedRuns := co_ObservedRuns c + ok;
     co_BlindRuns := co_BlindRuns c + blind;
     co_BlindClusters := if ok =? 0 then S (co_BlindClusters c) else co_BlindClusters c;
     co_Fraction := co_Fraction c |}.

Definition fleetCoverage (r : Report) : FleetCoverage :=
  let c := fold_left (add_cluster_coverage r (expectedScanners r)) (rp_Clusters r) coverage_zero in
  if 0 <? co_ExpectedRuns c
  then {| co_ExpectedRuns := co_ExpectedRuns c; co_ObservedRuns := co_ObservedRuns c;
          co_BlindRuns := co_BlindRuns c; co_BlindClusters := co_BlindClusters c;
          co_Fraction := f_div (f_of_Z (Z.of_nat (co_ObservedRuns c))) (f_of_Z (Z.of_nat (co_ExpectedRuns c))) |}
  else c.

Definition clearsFloor (c : FleetCoverage) : bool :=
  if 0 <? co_BlindClusters c then false
  else (co_ExpectedRuns c =? 0) || f_leb minCoverageFraction (co_Fraction c).

Definition partialRuns (c : FleetCoverage) : nat := co_ExpectedRuns c - co_ObservedRuns c - co_BlindRuns c.

Definition wasWere (n : nat) : string := if n =? 1 then "was" else "were".

Definition num (n : nat) : string := itoa (Z.of_nat n).
Definition plural (n : nat) : string := Plural (Z.of_nat n).

Definition coverageSentence (c : FleetCoverage) (clusters : nat) : string :=
  let part := partialRuns c in
  let blindClusters := 0 <? co_BlindClusters c in
  let finish (s : string) : string :=
    ((if blindClusters
      then s ++ ", and " ++ num (co_BlindClusters c) ++ " of " ++ num clusters ++ " cluster" ++ plural clusters
           ++ " had no complete scanner run"
      else s) ++ ".")%string in
  if (co_ExpectedRuns c =? 0) && (co_BlindClusters c =? 0) then ""
  else if co_ExpectedRuns c =? 0 then
    ("No scanner ran on " ++ num (co_BlindClusters c) ++ " listed cluster" ++ plural (co_BlindClusters c) ++ ".")%string
  else if (0 <? co_BlindRuns c) && (0 <? part) then
    finish (num (co_BlindRuns c) ++ " of " ++ num (co_ExpectedRuns c) ++ " scanner runs did not observe the fleet and "
            ++ num part ++ " " ++ wasWere part ++ " partial")%string
  else if 0 <? co_BlindRuns c then
    finish (num (co_BlindRuns c) ++ " of " ++ num (co_ExpectedRuns c) ++ " scanner runs did not observe the fleet")%string
  else if 0 <? part then
    finish (num part ++ " of " ++ num (co_ExpectedRuns c) ++ " scanner runs " ++ wasWere part ++ " partial")%string
  else "".

(** sample, dimensions, excluded. *)
Definition scoreProvenance (r : Report) : nat * nat * nat :=
  let '(contributed, dimensions) :=
    map_fold (fun _ sec acc =>
      if bool_decide (sr_PerCluster sec = ∅) then acc
      else (dom (sr_PerCluster sec) ∪ fst acc, S (snd acc))) (∅ : gset string, 0) (rp_Sections r) in
  let sample := length (List.filter (fun c => bool_decide (c ∈ contributed)) (rp_Clusters r)) in
  (sample, dimensions, length (rp_Clusters r) - sample).

Definition grade (score : Z) : string :=
  if (90 <=? score)%Z then "A" else if (80 <=? score)%Z then "B"
  else if (70 <=? score)%Z then "C" else if (60 <=? score)%Z then "D" else "F".

Definition scoreBand (score : Z) (clusters : nat) (unobserved : bool) : string :=
  let n := (num clusters ++ " cluster" ++ plural clusters)%string in
  (if ((95 <=? score)%Z && unobserved)%bool then n ++ ", nothing flagged in what was observed."
   else if (95 <=? score)%Z then n ++ ", no meaningful drift."
   else if (85 <=? score)%Z then n ++ ", light drift worth a glance."
   else if (70 <=? score)%Z then n ++ ", real drift to investigate."
   else if (50 <=? score)%Z then n ++ ", significant drift across the fleet."
   else n ++ ", fleet health is degraded.")%string.

Definition headline (graded : bool) (score : Z) (cov : FleetCoverage) (clusters : nat) : string :=
  let sentence := coverageSentence cov clusters in
  if negb graded then
    ("Not enough data: " ++ sentence ++ " Observed-only score " ++ itoa score ++ ".")%string
  else
    let band := scoreBand score clusters (negb (String.eqb sentence "")) in
    if String.eqb sentence "" then band else (band ++ " " ++ sentence)%string.

Definition scoreWithAttribution (r : option Report) : FleetScore * ScoreAttribution :=
  match r with
  | None => ({| fs_Score := 100; fs_Grade := ""; fs_Graded := false; fs_Coverage := coverage_zero;
                fs_Headline := "No data yet."; fs_Drivers := []; fs_SampleSize := 0; fs_Dimensions := 0;
                fs_ExcludedClusters := 0 |}, attribution_zero)
  | Some r =>
      let a := computeScoreAttribution (Some r) in
      let raw := f_max (f_sub (f_of_Z 100) (sa_Total a)) f_zero in
      let score := f_to_int (f_round raw) in
      let '(sample, dims, excluded) := scoreProvenance r in
      let cov := fleetCoverage r in
      let graded := clearsFloor cov in
      ({| fs_Score := score; fs_Grade := if graded then grade score else "";
          fs_Graded := graded; fs_Coverage := cov;
          fs_Headline := headline graded score cov (length (rp_Clusters r));
          fs_Drivers := Drivers a; fs_SampleSize := sample; fs_Dimensions := dims;
          fs_ExcludedClusters := excluded |}, a)
  end.

(** report.go [countFindings]. *)
Definition countFindings (s : Summary) (findings : list Finding) : Summary := {|
  su_ClusterCount := su_ClusterCount s; su_ScannerCount := su_ScannerCount s;
  su_UniformCount := su_UniformCount s; su_DivergentCount := su_DivergentCount s;
  su_TotalDivergences := su_TotalDivergences s;
  su_CriticalCount := count_severity SeverityCritical findings;
  su_WarningCount := count_severity SeverityWarning findings |}.

Definition Rescore (r : option Report) : option Report :=
  match r with
  | None => None
  | Some r =>
      let '(fs, a) := scoreWithAttribution (Some r) in
      Some (with_scoring r (countFindings (rp_Summary r) (rp_Findings r)) fs a)
  end.

(** ** Facts: the ledger *)

Definition costs (a : ScoreAttribution) : list float64 := map st_Cost (sa_Terms a).

(** Every cost of the ledger is a number, zero or more. *)
Definition costs_ok (a : ScoreAttribution) : Prop := Forall (fun x => nn x = true) (costs a).
Definition raws_ok (es : list ScoreEntry) : Prop := Forall (fun e => nn (se_Raw e) = true) es.

Lemma raws_sum es : raws_ok es -> nn (f_sum (map se_Raw es)) = true.
Proof. intros H. apply nn_sum, Forall_map. done. Qed.

(** A term adds no cost, or one cost: its entries' raw sum, capped. *)
Lemma addTerm_costs a term reason count limit es :
  costs (addTerm a term reason count limit es) =
  let raw := f_sum (map se_Raw es) in
  costs a ++ (if f_leb raw f_zero then [] else [if f_ltb f_zero limit then f_min raw limit else raw]).
Proof.
  unfold addTerm, costs. cbv zeta. destruct (f_leb _ _); simpl; [by rewrite app_nil_r|].
  by rewrite map_app.
Qed.

Lemma addTerm_ok a term reason count limit es : costs_ok a -> raws_ok es -> nn limit = true ->
  costs_ok (addTerm a term reason count limit es).
Proof.
  intros Ha He Hl. unfold costs_ok. rewrite addTerm_costs. cbv zeta. apply Forall_app. split; [done|].
  pose proof (raws_sum _ He). destruct (f_leb _ _); [done|]. constructor; [|done].
  destruct (f_ltb _ _); [by apply nn_min|done].
Qed.

Lemma bump_raws rule cluster per es : nn per = true -> raws_ok es -> raws_ok (bump rule cluster per es).
Proof.
  intros Hp. induction 1 as [|e es He Hes IH]; cbn [bump].
  - constructor; [|constructor]. by apply (nn_add f_zero per).
  - destruct (_ && _); constructor; try done. by apply nn_add.
Qed.

Lemma severity_entries_raws sev fs : nn (sv_per sev) = true -> raws_ok (severity_entries sev fs).
Proof.
  intros Hp. unfold severity_entries. assert (raws_ok []) as H0 by constructor. revert H0.
  generalize (@nil ScoreEntry). induction fs as [|f fs IH]; intros es Hes; simpl; [done|].
  apply IH. destruct (String.eqb _ _); [by apply bump_raws|done].
Qed.

Lemma addFindingTerms_ok a fs : costs_ok a -> costs_ok (addFindingTerms a fs).
Proof.
  intros Ha. unfold addFindingTerms, severityTerms. cbn [fold_left].
  repeat (apply addTerm_ok; [|by apply severity_entries_raws|done]). done.
Qed.

Lemma share_entries_ok l cost hs : nn cost = true -> (Z.of_nat (length hs) <= int64_max)%Z ->
  raws_ok (share_entries l cost hs).
Proof.
  intros Hc Hlen. unfold raws_ok, share_entries. apply Forall_map, Forall_forall. intros h Hin.
  apply nn_div; [done|]. apply f_of_Z_pos; [|done].
  apply list_elem_of_In, filter_In in Hin as [Hin _]. destruct hs; [done|]. simpl. lia.
Qed.

Lemma addClusterHealthTerms_ok a hs : (Z.of_nat (length hs) <= int64_max)%Z -> costs_ok a ->
  costs_ok (addClusterHealthTerms a hs).
Proof.
  intros Hlen Ha. unfold addClusterHealthTerms. destruct (_ =? _); [done|].
  repeat (apply addTerm_ok; [|by apply share_entries_ok|done]). done.
Qed.

Lemma addVersionSkewTerm_ok a hs : costs_ok a -> costs_ok (addVersionSkewTerm a hs).
Proof.
  intros Ha. unfold addVersionSkewTerm. repeat break_match; try done;
    apply addTerm_ok; try done; by repeat constructor.
Qed.

Lemma unhealthy_frac_ok h : (0 < ch_NodeCount h <= int64_max)%Z -> (0 < unhealthy_nodes h)%Z ->
  nn (unhealthy_frac h) = true.
Proof.
  intros Hn Hu. unfold unhealthy_frac. apply nn_div; [apply nn_of_Z; lia|]. apply f_of_Z_pos; lia.
Qed.

Lemma worst_step_ok hs acc : Forall (fun h => int64_ok (ch_NodeCount h)) hs -> nn (fst acc) = true ->
  nn (fst (fold_left worst_step hs acc)) = true.
Proof.
  intros H. revert acc. induction H as [|h hs Hh Hhs IH]; intros acc Ha; simpl; [done|].
  apply IH. unfold worst_step. destruct (Z.leb_spec (ch_NodeCount h) 0); [done|].
  destruct (Z.leb_spec (unhealthy_nodes h) 0); [done|]. destruct (f_ltb _ _); [|done].
  apply unhealthy_frac_ok; [|done]. unfold int64_ok in Hh. lia.
Qed.

Lemma addWorstNodeTerm_ok a hs : Forall (fun h => int64_ok (ch_NodeCount h)) hs -> costs_ok a ->
  costs_ok (addWorstNodeTerm a hs).
Proof.
  intros Hhs Ha. unfold addWorstNodeTerm. pose proof (worst_step_ok hs (f_zero, "") Hhs eq_refl) as Hw.
  destruct (fold_left _ _ _) as [w c]. destruct (f_eqb _ _); [done|].
  apply addTerm_ok; [done| |done]. repeat constructor. by apply nn_mul.
Qed.

(** The sizes of Go's [int]: what every [int] field and slice length obeys. *)
Definition report_sized (r : Report) : Prop :=
  (Z.of_nat (length (rp_ClusterHealths r)) <= int64_max)%Z /\
  Forall (fun h => int64_ok (ch_NodeCount h)) (rp_ClusterHealths r).

Lemma ledger_ok r : report_sized r -> costs_ok (ledger_terms r).
Proof.
  intros [Hlen Hn]. unfold ledger_terms.
  apply addWorstNodeTerm_ok; [done|]. apply addVersionSkewTerm_ok, addClusterHealthTerms_ok; [done|].
  apply addFindingTerms_ok. constructor.
Qed.

Lemma total_ok r : report_sized r -> nn (sa_Total (computeScoreAttribution (Some r))) = true.
Proof. intros H. apply nn_sum, ledger_ok, H. Qed.

Lemma fleet_score_eq r :
  fs_Score (fst (scoreWithAttribution (Some r))) = to_score (sa_Total (computeScoreAttribution (Some r))).
Proof. cbn [scoreWithAttribution]. destruct (scoreProvenance r) as [[? ?] ?]. done. Qed.

(** With no health rows only the three capped finding terms can cost anything. *)
Lemma finding_costs fs : exists l1 l2 l3,
  costs (addFindingTerms attribution_zero fs) = l1 ++ l2 ++ l3 /\
  (l1 = [] \/ exists x, l1 = [x] /\ nn x = true /\ f_leb x (f_of_Z 36) = true) /\
  (l2 = [] \/ exists x, l2 = [x] /\ nn x = true /\ f_leb x (f_of_Z 24) = true) /\
  (l3 = [] \/ exists x, l3 = [x] /\ nn x = true /\ f_leb x (f_of_Z 5) = true).
Proof.
  assert (H : forall sev, nn (sv_per sev) = true -> nn (sv_limit sev) = true ->
    f_finite (sv_limit sev) = true -> f_ltb f_zero (sv_limit sev) = true ->
    let raw := f_sum (map se_Raw (severity_entries sev fs)) in
    let l := if f_leb raw f_zero then []
             else [if f_ltb f_zero (sv_limit sev) then f_min raw (sv_limit sev) else raw] in
    l = [] \/ exists x, l = [x] /\ nn x = true /\ f_leb x (sv_limit sev) = true).
  { intros sev Hp Hl Hf Hpos. cbv zeta. pose proof (raws_sum _ (severity_entries_raws sev fs Hp)) as Hraw.
    destruct (f_leb _ f_zero); [by left|]. right. rewrite Hpos. eexists. split_all; [done|by apply nn_min|].
    apply f_min_leb_r; [|done]. by destruct (f_sum _) as [[]|[]| |[] ? ?]. }
  assert (exists s1 s2 s3, severityTerms = [s1; s2; s3] /\ sv_limit s1 = f_of_Z 36 /\ sv_limit s2 = f_of_Z 24 /\
    sv_limit s3 = f_of_Z 5 /\ nn (sv_per s1) = true /\ nn (sv_per s2) = true /\ nn (sv_per s3) = true)
    as (s1 & s2 & s3 & E & L1 & L2 & L3 & P1 & P2 & P3) by (by repeat eexists).
  unfold addFindingTerms. rewrite E. cbn [fold_left]. rewrite !addTerm_costs. cbv zeta.
  change (costs attribution_zero) with (@nil float64). rewrite app_nil_l, <- !app_assoc. do 3 eexists. split; [reflexivity|].
  rewrite <- L1, <- L2, <- L3. split_all; apply H; rewrite ?L1, ?L2, ?L3; done.
Qed.

(** ** Facts: coverage *)

(** Every expected run, cluster by cluster. *)
Definition expected_runs (r : Report) : list (string * string) :=
  flat_map (fun c => map (pair c) (expectedScanners r)) (rp_Clusters r).

Definition count_runs (p : string * string -> bool) (r : Report) : nat :=
  length (List.filter p (expected_runs r)).

Definition observed_run (r : Report) (run : string * string) : bool := run_observed r (fst run) (snd run).
Definition blind_run (r : Report) (run : string * string) : bool := run_blind r (fst run) (snd run).
Definition unseen_cluster (r : Report) (c : string) : bool :=
  length (List.filter (run_observed r c) (expectedScanners r)) =? 0.

Lemma filter_map_pair {B} (p : string * B -> bool) (c : string) (l : list B) :
  length (List.filter p (map (pair c) l)) = length (List.filter (fun s => p (c, s)) l).
Proof. induction l as [|s l IH]; simpl; [done|]. destruct (p _); simpl; lia. Qed.

Lemma coverage_fold r cs acc :
  let c := fold_left (add_cluster_coverage r (expectedScanners r)) cs acc in
  let runs := flat_map (fun c => map (pair c) (expectedScanners r)) cs in
  co_ExpectedRuns c = co_ExpectedRuns acc + length runs /\
  co_ObservedRuns c = co_ObservedRuns acc + length (List.filter (observed_run r) runs) /\
  co_BlindRuns c = co_BlindRuns acc + length (List.filter (blind_run r) runs) /\
  co_BlindClusters c = co_BlindClusters acc + length (List.filter (unseen_cluster r) cs).
Proof.
  revert acc. induction cs as [|x cs IH]; intros acc; cbn [fold_left flat_map List.filter]; [simpl; split_all; lia|].
  destruct (IH (add_cluster_coverage r (expectedScanners r) acc x)) as (-> & -> & -> & ->).
  rewrite !List.filter_app, !length_app, !filter_map_pair, length_map.
  unfold add_cluster_coverage, clusterRunCounts, observed_run, blind_run, unseen_cluster. cbn -[expectedScanners Nat.eqb].
  destruct (length (List.filter (run_observed r x) _) =? 0); cbn [length]; split_all;
    rewrite <- ?Nat.add_assoc; (reflexivity || lia).
Qed.

Lemma fleetCoverage_counts r :
  let c := fleetCoverage r in
  co_ExpectedRuns c = length (expected_runs r) /\ co_ObservedRuns c = count_runs (observed_run r) r /\
  co_BlindRuns c = count_runs (blind_run r) r /\
  co_BlindClusters c = length (List.filter (unseen_cluster r) (rp_Clusters r)).
Proof.
  unfold fleetCoverage. pose proof (coverage_fold r (rp_Clusters r) coverage_zero) as H. cbv zeta in H.
  destruct (0 <? _); exact H.
Qed.

Lemma blind_not_observed r run : blind_run r run = true -> observed_run r run = false.
Proof.
  unfold blind_run, observed_run, run_blind, run_observed. destruct (runState _ _ _); [|done].
  intros ->%String.eqb_eq. done.
Qed.

Lemma expected_runs_in r c s : (c, s) ∈ expected_runs r <-> c ∈ rp_Clusters r /\ s ∈ expectedScanners r.
Proof.
  unfold expected_runs. rewrite list_elem_of_In, in_flat_map. setoid_rewrite in_map_iff. setoid_rewrite <- list_elem_of_In.
  naive_solver.
Qed.

Lemma expectedScanners_in r s : s ∈ expectedScanners r <->
  is_Some (rp_Sections r !! s) \/ exists d, d ∈ rp_Degraded r /\ ss_Scanner d = s.
Proof.
  unfold expectedScanners. rewrite sort_strings_elem_of, elem_of_elements, elem_of_union, elem_of_dom, elem_of_list_to_set.
  rewrite list_elem_of_fmap. naive_solver.
Qed.

Lemma append_nonempty a b : b <> "" -> (a ++ b)%string <> "".
Proof. destruct a; done. Qed.

Lemma append_nonempty_l a b : a <> "" -> (a ++ b)%string <> "".
Proof. destruct a; done. Qed.

(** The sentence is silent exactly when nothing is missing. *)
Lemma coverageSentence_empty c n :
  coverageSentence c n = "" <->
  if co_ExpectedRuns c =? 0 then co_BlindClusters c = 0 else co_BlindRuns c = 0 /\ partialRuns c = 0.
Proof.
  unfold coverageSentence. cbv zeta.
  destruct (Nat.eqb_spec (co_ExpectedRuns c) 0), (Nat.eqb_spec (co_BlindClusters c) 0); cbn [andb]; [done| |..].
  1: split; [intros H; by apply append_nonempty in H|done].
  all: destruct (Nat.ltb_spec 0 (co_BlindRuns c)), (Nat.ltb_spec 0 (partialRuns c)); simpl.
  all: try (split; [intros H'; by apply append_nonempty in H'|lia]).
  all: split; [lia|done].
Qed.

(** ** Properties *)

Module Fleet.

(** The fleet score is between 0 and 100 on every report, whatever its
    findings, its node counts and the rounding of its float costs. *)
Theorem fleet_score_range r : report_sized r ->
  (0 <= fs_Score (fst (scoreWithAttribution (Some r))) <= 100)%Z.
Proof. intros H. rewrite fleet_score_eq. by apply to_score_range, total_ok. Qed.

(** Findings alone never take more than 65 points: a report without health
    rows scores at least 35 however many findings it carries, because each
    severity's term is capped. *)
Theorem findings_cost_floor r : rp_ClusterHealths r = [] ->
  (35 <= fs_Score (fst (scoreWithAttribution (Some r))))%Z.
Proof.
  intros Hh. rewrite fleet_score_eq.
  assert (Hs : report_sized r) by (unfold report_sized; rewrite Hh; split; [done|constructor]).
  apply to_score_lower; [by apply total_ok|lia|].
  cbn [computeScoreAttribution sa_Total]. fold (costs (ledger_terms r)).
  unfold ledger_terms. rewrite Hh. cbn [addClusterHealthTerms addVersionSkewTerm length Nat.eqb Nat.ltb Nat.leb].
  change (addWorstNodeTerm ?a []) with a.
  destruct (finding_costs (rp_Findings r)) as (l1 & l2 & l3 & -> & H1 & H2 & H3).
  assert (Hlist : forall l b, (0 <= b)%Z ->
    (l = [] \/ exists x, l = [x] /\ nn x = true /\ f_leb x (f_of_Z b) = true) ->
    forall acc a, nn acc = true -> (0 <= a)%Z -> (a + b <= 100)%Z -> f_leb acc (f_of_Z a) = true ->
    nn (fold_left f_add l acc) = true /\ f_leb (fold_left f_add l acc) (f_of_Z (a + b)) = true).
  { intros l b Hb [->|(x & -> & Hx & Hle)] acc a Hn Ha Hab Hacc; cbn [fold_left].
    - destruct (f_val_small a) as [Fa Va], (f_val_small (a + b)) as [Fb Vb]; try lia. split; [done|].
      pose proof (nn_leb_finite _ _ Hn Fa Hacc) as Fx.
      apply f_leb_val in Hacc; [|done..]. apply f_leb_val; [done..|]. lia.
    - split; [by apply nn_add|by apply f_add_leb]. }
  unfold f_sum. rewrite !fold_left_app.
  destruct (Hlist l1 36%Z ltac:(lia) H1 f_zero 0%Z) as [N1 L1]; try done.
  destruct (Hlist l2 24%Z ltac:(lia) H2 _ 36%Z N1) as [N2 L2]; try done.
  by destruct (Hlist l3 5%Z ltac:(lia) H3 _ 60%Z N2).
Qed.

(** The coverage block accounts for every expected run: observed, blind and
    partial runs add up, a listed cluster counts as blind exactly when no scanner
    observed it, and the grade is withheld whenever one is blind. *)
Theorem coverage_accounts r :
  let c := fleetCoverage r in
  co_ExpectedRuns c = length (rp_Clusters r) * length (expectedScanners r) /\
  co_ObservedRuns c + co_BlindRuns c + partialRuns c = co_ExpectedRuns c /\
  partialRuns c = count_runs (fun run => negb (observed_run r run || blind_run r run)) r /\
  co_BlindClusters c = length (List.filter (unseen_cluster r) (rp_Clusters r)) /\
  (fs_Grade (fst (scoreWithAttribution (Some r))) = "" <->
   co_BlindClusters c <> 0 \/ (co_ExpectedRuns c <> 0 /\ f_leb minCoverageFraction (co_Fraction c) = false)).
Proof.
  destruct (fleetCoverage_counts r) as (He & Ho & Hb & Hbc). cbv zeta.
  pose proof (filter_disjoint (observed_run r) (blind_run r) (expected_runs r) (blind_not_observed r)) as Hsum.
  unfold partialRuns, count_runs in *. rewrite He, Ho, Hb. split_all; try lia; try done.
  - unfold expected_runs. clear. induction (rp_Clusters r) as [|c cs IH]; simpl; [done|].
    rewrite length_app, length_map, IH. done.
  - cbn [scoreWithAttribution]. destruct (scoreProvenance r) as [[? ?] ?]. cbn [fst fs_Grade].
    unfold clearsFloor. rewrite He.
    destruct (Nat.ltb_spec 0 (co_BlindClusters (fleetCoverage r))) as [Hlt|Hge]; [split; [left; lia|done]|].
    assert (Hg : forall z, grade z <> "") by (intros z; unfold grade; repeat break_match; done).
    destruct (Nat.eqb_spec (length (expected_runs r)) 0), (f_leb minCoverageFraction _); simpl;
      split; try (by intros ?%Hg); naive_solver lia.
Qed.

(** The headline never claims calm about what was not looked at: its coverage
    sentence is empty exactly when every expected scanner observed every listed
    cluster. *)
Theorem coverage_sentence_complete r n :
  coverageSentence (fleetCoverage r) n = "" <->
  (forall c s, c ∈ rp_Clusters r -> s ∈ expectedScanners r -> run_observed r c s = true) /\
  (expectedScanners r = [] -> rp_Clusters r = []).
Proof.
  rewrite coverageSentence_empty. destruct (fleetCoverage_counts r) as (He & Ho & Hb & Hbc).
  pose proof (filter_disjoint (observed_run r) (blind_run r) (expected_runs r) (blind_not_observed r)) as Hsum.
  unfold partialRuns. rewrite He, Ho, Hb, Hbc. unfold count_runs. clear He Ho Hb Hbc.
  assert (Hall : length (List.filter (blind_run r) (expected_runs r)) = 0 /\
      length (expected_runs r) - length (List.filter (observed_run r) (expected_runs r)) -
        length (List.filter (blind_run r) (expected_runs r)) = 0 <->
    forall c s, c ∈ rp_Clusters r -> s ∈ expectedScanners r -> run_observed r c s = true).
  { split.
    - intros [Hb Hp] c s Hc Hs. rewrite Hb in Hsum.
      assert (length (List.filter (fun x => negb (observed_run r x || blind_run r x)) (expected_runs r)) = 0) as Hn by lia.
      rewrite filter_none in Hb, Hn. pose proof (proj2 (expected_runs_in r c s) (conj Hc Hs)) as Hin.
      specialize (Hn _ Hin). specialize (Hb _ Hin). rewrite Hb, orb_false_r, negb_false_iff in Hn. exact Hn.
    - intros H. assert (forall x, x ∈ expected_runs r -> observed_run r x = true) as Hx.
      { intros [c s] [Hc Hs]%expected_runs_in. by apply H. }
      assert (length (List.filter (blind_run r) (expected_runs r)) = 0) as Hb.
      { apply filter_none. intros x Hin. destruct (blind_run r x) eqn:E; [|done].
        apply Hx in Hin. by rewrite (blind_not_observed _ _ E) in Hin. }
      split; [done|]. rewrite Hb in *.
      assert (length (List.filter (fun x => negb (observed_run r x || blind_run r x)) (expected_runs r)) = 0); [|lia].
      apply filter_none. intros x Hin. by rewrite (Hx _ Hin). }
  assert (Hz : (length (expected_runs r) =? 0) =
    match expectedScanners r, rp_Clusters r with [], _ | _, [] => true | _, _ => false end).
  { unfold expected_runs. destruct (expectedScanners r) as [|s sc].
    - clear. induction (rp_Clusters r); done.
    - by destruct (rp_Clusters r). }
  rewrite Hz. unfold unseen_cluster.
  destruct (expectedScanners r) as [|s sc].
  - rewrite filter_none. destruct (rp_Clusters r) as [|c cs].
    + split; [|by intros _ x Hx%elem_of_nil]. intros _. split; [by intros c s Hc%elem_of_nil|done].
    + split; [|intros [_ H]; by specialize (H eq_refl)]. intros H. by specialize (H c (list_elem_of_here _ _)).
  - destruct (rp_Clusters r) as [|c cs].
    + split; [|done]. intros _. split; [by intros c' s' Hc%elem_of_nil|done].
    + rewrite Hall. split; [|by intros [H _]]. intros H. by split.
Qed.

(** The drivers are the three most expensive terms: at most three, by falling
    rounded cost, and no dropped term costs more than a listed one. *)
Theorem drivers_top a :
  let all := map (fun t => {| fd_Reason := st_Reason t; fd_Impact := f_to_int (f_round (st_Cost t)) |}) (sa_Terms a) in
  exists rest, Drivers a ++ rest ≡ₚ all /\ length (Drivers a) = Nat.min 3 (length all) /\
    StronglySorted (fun x y => (fd_Impact y <= fd_Impact x)%Z) (Drivers a) /\
    (forall d x, d ∈ Drivers a -> x ∈ rest -> (fd_Impact x <= fd_Impact d)%Z).
Proof.
  cbv zeta. unfold Drivers. set (all := map _ (sa_Terms a)). pose proof (isort_sorted (cmp_rev (cmp_on fd_Impact Z.compare)) all) as Hs.
  revert Hs. generalize (isort_perm (less_of (cmp_rev (cmp_on fd_Impact Z.compare))) all).
  set (c := cmp_rev (cmp_on fd_Impact Z.compare)). intros Hp Hs.
  assert (Hc : forall x y, cmp_le c x y -> (fd_Impact y <= fd_Impact x)%Z).
  { intros x y H. exact H. }
  apply (StronglySorted_mono _ _ _ Hc) in Hs.
  exists (drop 3 (isort (less_of c) all)). split_all.
  - by rewrite take_drop.
  - rewrite length_take, isort_length. done.
  - rewrite <- (take_drop 3 (isort _ all)) in Hs. by apply StronglySorted_app_1_l in Hs.
  - intros d x Hd Hx. rewrite <- (take_drop 3 (isort _ all)) in Hs.
    eapply StronglySorted_app_1_elem_of in Hs; eauto.
Qed.

(** Rescoring brings a report in line with its findings and is a fixed point:
    the stored score and ledger are the ones its findings give, the severity counts
    count them, and a second [Rescore] changes nothing. *)
Theorem rescore_consistent r :
  let r' := Rescore r in
  Rescore r' = r' /\
  match r' with
  | None => r = None
  | Some r1 => Some (rp_Findings r1) = rp_Findings <$> r /\
      scoreWithAttribution (Some r1) = (rp_FleetScore r1, default attribution_zero (rp_ScoreAttribution r1)) /\
      su_CriticalCount (rp_Summary r1) = count_severity SeverityCritical (rp_Findings r1) /\
      su_WarningCount (rp_Summary r1) = count_severity SeverityWarning (rp_Findings r1)
  end.
Proof.
  destruct r as [r|]; [|done]. cbv zeta.
  assert (Hcong : forall s fs a, scoreWithAttribution (Some (with_scoring r s fs a)) = scoreWithAttribution (Some r)).
  { intros s fs a. reflexivity. }
  unfold Rescore. destruct (scoreWithAttribution (Some r)) as [fs a]. rewrite Hcong. done.
Qed.

(** ** Witnesses *)

Definition sick : ClusterHealth := {|
  ch_Name := "c1"; ch_Status := "critical"; ch_FindingCounts := ∅; ch_KubernetesVersion := "v1.29.0";
  ch_NodeCount := 3; ch_HealthyNodes := 1; ch_AvgCPU := f_zero; ch_AvgMemory := f_zero; ch_WarningEvents := 0;
  ch_NamespaceCount := 0; ch_DegradedScanners := 0; ch_BlindScanners := 0 |}.

Definition sick_report : Report := {|
  rp_Clusters := ["c1"]; rp_Sections := ∅; rp_Summary := summary_zero; rp_Findings := [];
  rp_ClusterHealths := [sick]; rp_Outliers := []; rp_Distributions := []; rp_DeviationMass := ∅;
  rp_ScoreAttribution := None; rp_FleetScore := fleet_score_zero; rp_Cohorts := []; rp_Degraded := [];
  rp_Incidents := []; rp_Notes := []; rp_runs := None |}.

Lemma fleet_score_range_witness :
  report_sized sick_report /\ fs_Score (fst (scoreWithAttribution (Some sick_report))) = 73%Z /\
  (0 <= fs_Score (fst (scoreWithAttribution (Some sick_report))) <= 100)%Z.
Proof.
  assert (H : report_sized sick_report) by (split; [done|]; repeat constructor; done).
  split_all; [exact H..|vm_compute; reflexivity| |]; apply (fleet_score_range sick_report H).
Defined.

Lemma findings_cost_floor_witness :
  rp_ClusterHealths report_zero = [] /\ (35 <= fs_Score (fst (scoreWithAttribution (Some report_zero))))%Z.
Proof. split; [reflexivity|]. apply (findings_cost_floor report_zero). reflexivity. Defined.

End Fleet.
