(* ===== verification/ClusterScore.v ===== *)
(** * internal/report/cluster_score.go: the score of one cluster

    A cluster pays for its own findings, the marks fleet findings put on it, its
    status, its unhealthy nodes and its utilisation. *)

From Stdlib Require Import ZArith Lia String.
From stdpp Require Import base gmap strings list.
From S2P Require Import Prelude Float64 Ratio Text Data Fields Observe Score.

Record ClusterScore := {
  csc_Cluster : string;
  csc_Score : Z;
  csc_Grade : string;
  csc_Headline : string
}.

Definition clusterScorePerCritical : float64 := f_of_Z 8.
Definition clusterScorePerWarning : float64 := f_of_Z 2.
Definition clusterScoreCriticalCap : float64 := f_of_Z 40.
Definition clusterScoreWarningCap : float64 := f_of_Z 24.
Definition clusterScoreCritStatus : float64 := f_of_Z 20.
Definition clusterScoreDegradedStatus : float64 := f_of_Z 10.
Definition clusterScoreBusyStatus : float64 := f_of_Z 3.
Definition clusterScoreNodeFracMax : float64 := f_of_Z 15.
Definition clusterScoreHighUtil : float64 := f_of_Z 5.
Definition clusterScoreHighUtilGate : float64 := f_of_Z 85.

Definition known_severity (sev : string) : bool :=
  existsb (String.eqb sev) [SeverityCritical; SeverityWarning; SeverityInfo].

(** The closure [count] of the source. *)
Definition count_one (counts : gmap string nat) (severity : string) : gmap string nat :=
  if known_severity severity then <[severity := S (default 0 (counts !! severity))]> counts else counts.

(** The severities one finding charges a cluster. *)
Definition charged (cluster : string) (f : Finding) : list string :=
  (if String.eqb (fi_Cluster f) cluster then [fi_Severity f] else []) ++
  map cm_Severity (List.filter (fun m => String.eqb (cm_Cluster m) cluster) (fi_Marks f)).

Definition clusterSeverityCounts (cluster : string) (findings : list Finding) : gmap string nat :=
  fold_left (fun counts f => fold_left count_one (charged cluster f) counts) findings
    (<[SeverityInfo := 0]> (<[SeverityWarning := 0]> {[SeverityCritical := 0]})).

Definition ClusterCharges (cluster : string) (findings : list Finding) : nat * nat :=
  let counts := clusterSeverityCounts cluster findings in
  (default 0 (counts !! SeverityCritical), default 0 (counts !! SeverityWarning)).

Definition clusterHeadline (score : Z) (critical warning : nat) : string :=
  (if (95 <=? score)%Z then "Healthy. No meaningful drift."
   else if (85 <=? score)%Z then "Mostly healthy. " ++ num warning ++ " warning" ++ plural warning ++ " to triage."
   else if (70 <=? score)%Z then "Drift building. " ++ num critical ++ " critical, " ++ num warning ++ " warning."
   else if (50 <=? score)%Z then "Significant drift. " ++ num critical ++ " critical, " ++ num warning ++ " warning."
   else "Degraded. " ++ num critical ++ " critical finding" ++ plural critical ++ ".")%string.

Definition status_cost (status : string) : option float64 :=
  if String.eqb status "critical" then Some clusterScoreCritStatus
  else if existsb (String.eqb status) ["degraded"; "strained"; "unknown"] then Some clusterScoreDegradedStatus
  else if String.eqb status "busy" then Some clusterScoreBusyStatus
  else None.

Definition node_cost (h : ClusterHealth) : option float64 :=
  if (0 <? ch_NodeCount h)%Z && (0 <? unhealthy_nodes h)%Z
  then Some (f_mul clusterScoreNodeFracMax (unhealthy_frac h)) else None.

Definition util_cost (avg : float64) : option float64 :=
  if f_leb clusterScoreHighUtilGate avg then Some clusterScoreHighUtil else None.

(** [cost += x] where the source has the addition under a condition. *)
Definition pay (cost : float64) (x : option float64) : float64 :=
  match x with Some x => f_add cost x | None => cost end.

Definition cluster_cost (h : ClusterHealth) (findings : list Finding) : float64 :=
  let '(crit, warn) := ClusterCharges (ch_Name h) findings in
  let cost := f_add f_zero (f_min (f_mul (f_of_Z (Z.of_nat crit)) clusterScorePerCritical) clusterScoreCriticalCap) in
  let cost := f_add cost (f_min (f_mul (f_of_Z (Z.of_nat warn)) clusterScorePerWarning) clusterScoreWarningCap) in
  pay (pay (pay (pay cost (status_cost (ch_Status h))) (node_cost h)) (util_cost (ch_AvgCPU h)))
    (util_cost (ch_AvgMemory h)).

Definition ComputeClusterScore (h : ClusterHealth) (findings : list Finding) : ClusterScore :=
  let '(crit, warn) := ClusterCharges (ch_Name h) findings in
  let raw := f_max f_zero (f_sub (f_of_Z 100) (cluster_cost h findings)) in
  let score := f_to_int (f_round raw) in
  {| csc_Cluster := ch_Name h; csc_Score := score; csc_Grade := grade score;
     csc_Headline :=
       if String.eqb (ch_Status h) "unknown"
       then ("Unknown. " ++ num (ch_BlindScanners h) ++ " scanner run" ++ plural (ch_BlindScanners h)
             ++ " did not observe this cluster.")%string
       else clusterHeadline score crit warn |}.

Definition ComputeClusterScores (r : option Report) : list ClusterScore :=
  match r with
  | None => []
  | Some r => map (fun h => ComputeClusterScore h (rp_Findings r)) (rp_ClusterHealths r)
  end.

(** ** Facts *)

(** How often a severity is charged. *)
Definition charges (sev cluster : string) (findings : list Finding) : nat :=
  length (List.filter (String.eqb sev) (flat_map (charged cluster) findings)).

Lemma count_fold sev l counts : known_severity sev = true ->
  default 0 (fold_left count_one l counts !! sev) =
  default 0 (counts !! sev) + length (List.filter (String.eqb sev) l).
Proof.
  intros Hk. revert counts. induction l as [|s l IH]; intros counts; simpl; [lia|].
  rewrite IH. unfold count_one. destruct (String.eqb_spec sev s) as [<-|Hne].
  - rewrite Hk, lookup_insert_eq. simpl. lia.
  - destruct (known_severity s); [|done]. by rewrite lookup_insert_ne by congruence.
Qed.

Lemma counts_spec sev cluster fs : known_severity sev = true ->
  default 0 (clusterSeverityCounts cluster fs !! sev) = charges sev cluster fs.
Proof.
  intros Hk. unfold clusterSeverityCounts, charges.
  assert (Hgen : forall counts, default 0 (fold_left (fun counts f => fold_left count_one (charged cluster f) counts) fs counts !! sev)
    = default 0 (counts !! sev) + length (List.filter (String.eqb sev) (flat_map (charged cluster) fs))).
  { induction fs as [|f fs IH]; intros counts; simpl; [lia|].
    rewrite IH, count_fold, List.filter_app, length_app by done. lia. }
  rewrite Hgen. enough (default 0 (<[SeverityInfo := 0]> (<[SeverityWarning := 0]>
    ({[SeverityCritical := 0]} : gmap string nat)) !! sev) = 0) as -> by done.
  unfold known_severity in Hk. apply existsb_exists in Hk as (s & Hin & <-%String.eqb_eq).
  destruct Hin as [<-|[<-|[<-|[]]]]; reflexivity.
Qed.

Lemma ClusterCharges_spec cluster fs :
  ClusterCharges cluster fs = (charges SeverityCritical cluster fs, charges SeverityWarning cluster fs).
Proof. unfold ClusterCharges. by rewrite !counts_spec. Qed.

Lemma pay_ok cost x : nn cost = true -> (forall y, x = Some y -> nn y = true) -> nn (pay cost x) = true.
Proof. intros Hc Hx. destruct x as [y|]; simpl; [apply nn_add; auto|done]. Qed.

Lemma count_cost_ok n per cap : f_pos per = true -> nn cap = true ->
  nn (f_min (f_mul (f_of_Z (Z.of_nat n)) per) cap) = true.
Proof. intros Hp Hc. apply nn_min; [|done]. apply nn_mul_r; [apply nn_of_Z; lia|done]. Qed.

Lemma cluster_cost_ok h fs : int64_ok (ch_NodeCount h) -> nn (cluster_cost h fs) = true.
Proof.
  intros Hn. unfold cluster_cost. destruct (ClusterCharges _ _) as [crit warn].
  assert (Hu : forall avg y, util_cost avg = Some y -> nn y = true).
  { intros avg y. unfold util_cost. destruct (f_leb _ _); [|done]. by intros [= <-]. }
  repeat apply pay_ok; [| | |by apply Hu..].
  - repeat apply nn_add; try done; by apply count_cost_ok.
  - intros y. unfold status_cost. repeat break_match; intros [= <-]; done.
  - intros y. unfold node_cost. destruct (Z.ltb_spec 0 (ch_NodeCount h)); [|done].
    destruct (Z.ltb_spec 0 (unhealthy_nodes h)); [|done]. intros E.
    assert (y = f_mul clusterScoreNodeFracMax (unhealthy_frac h)) as -> by (cbn [andb] in E; congruence).
    apply nn_mul; [done|]. apply unhealthy_frac_ok; unfold int64_ok in Hn; lia.
Qed.

(** A finding that names the cluster or marks it. *)
Definition concerns (cluster : string) (f : Finding) : bool :=
  String.eqb (fi_Cluster f) cluster || existsb (fun m => String.eqb (cm_Cluster m) cluster) (fi_Marks f).

Lemma charged_irrelevant cluster f : concerns cluster f = false -> charged cluster f = [].
Proof.
  unfold concerns, charged. intros [-> Hm]%orb_false_elim. simpl.
  induction (fi_Marks f) as [|m ms IH]; simpl in *; [done|].
  apply orb_false_elim in Hm as [-> Hm]. by apply IH.
Qed.

Lemma charges_relevant sev cluster fs :
  charges sev cluster fs = charges sev cluster (List.filter (concerns cluster) fs).
Proof.
  unfold charges. induction fs as [|f fs IH]; simpl; [done|]. destruct (concerns cluster f) eqn:E; simpl.
  - rewrite !List.filter_app, !length_app, IH. done.
  - rewrite (charged_irrelevant _ _ E). exact IH.
Qed.

Lemma charges_perm sev cluster fs fs' : fs ≡ₚ fs' -> charges sev cluster fs = charges sev cluster fs'.
Proof.
  unfold charges. induction 1; simpl; rewrite ?List.filter_app, ?length_app in *; lia.
Qed.

(** ** Properties *)

Module Cluster.

(** A cluster score is between 0 and 100, and its grade is the one of that
    number. *)
Theorem cluster_score_range h fs : int64_ok (ch_NodeCount h) ->
  (0 <= csc_Score (ComputeClusterScore h fs) <= 100)%Z /\
  csc_Grade (ComputeClusterScore h fs) = grade (csc_Score (ComputeClusterScore h fs)).
Proof.
  intros Hn. unfold ComputeClusterScore. destruct (ClusterCharges _ _) as [crit warn]. cbn [csc_Score csc_Grade].
  split; [|done]. rewrite f_max_zero_comm. apply to_score_range, cluster_cost_ok, Hn.
Qed.

(** A cluster pays for its own findings and for the marks on it, and for
    nothing else: dropping the findings that neither name nor mark it, and reordering
    the rest, leaves its score, grade and headline unchanged. *)
Theorem cluster_score_isolated h fs fs' : fs' ≡ₚ List.filter (concerns (ch_Name h)) fs ->
  ComputeClusterScore h fs = ComputeClusterScore h fs'.
Proof.
  intros Hp. unfold ComputeClusterScore, cluster_cost. rewrite !ClusterCharges_spec.
  rewrite !(charges_relevant _ _ fs), <- !(charges_perm _ _ _ _ Hp). done.
Qed.

Definition other : Finding := {|
  fi_Title := ""; fi_Description := ""; fi_Severity := SeverityCritical; fi_Cluster := "c2"; fi_Scanner := "";
  fi_Rule := ""; fi_Fingerprint := ""; fi_Acked := false; fi_Affected := ["c1"]; fi_Remediation := None;
  fi_Norm := None; fi_Marks := [{| cm_Cluster := "c3"; cm_Severity := SeverityWarning |}] |}.

Lemma cluster_score_range_witness :
  int64_ok (ch_NodeCount Fleet.sick) /\ csc_Score (ComputeClusterScore Fleet.sick []) = 70%Z /\
  (0 <= csc_Score (ComputeClusterScore Fleet.sick []) <= 100)%Z.
Proof.
  assert (H : int64_ok (ch_NodeCount Fleet.sick)) by done.
  split; [exact H|]. split; [vm_compute; reflexivity|]. exact (proj1 (cluster_score_range Fleet.sick [] H)).
Defined.

Lemma cluster_score_isolated_witness :
  ComputeClusterScore Fleet.sick [other] = ComputeClusterScore Fleet.sick [].
Proof. apply (cluster_score_isolated Fleet.sick [other] []). reflexivity. Defined.

End Cluster.
