(* ===== verification/Population.v ===== *)
(** * The populations the detectors judge: internal/report/outlier.go, first part

    [walkFields] and its steps: flattening a section, adding projected member sets,
    dropping the counts of features that are not installed, and keeping from a
    degraded run only what still bounds the truth. With the statistics of
    internal/util/num.go. *)

From Stdlib Require Import ZArith Lia String.
From stdpp Require Import base gmap strings list sets.
From S2P Require Import Prelude Float64 Text Data Fields Observe Format.

Local Open Scope nat_scope.

Abbreviation obj := (gmap string json).
Abbreviation flatMap := (gmap string (gmap string json)).

(** ** internal/util/num.go *)

(** The order of [sort.Float64s]: NaN first. *)
Definition float_less (x y : float64) : bool := f_ltb x y || (f_is_nan x && negb (f_is_nan y)).

Definition Median (vals : list float64) : float64 :=
  let n := length vals in
  let sorted := isort float_less vals in
  if n =? 0 then f_zero
  else if Nat.even n
  then f_div (f_add (nth (n / 2 - 1) sorted f_zero) (nth (n / 2) sorted f_zero)) (f_of_Z 2)
  else nth (n / 2) sorted f_zero.

Definition computeMAD (vals : list float64) (median : float64) : float64 :=
  Median (map (fun v => f_abs (f_sub v median)) vals).

(** ** outlier.go: flattening *)

Definition flattenSection (clusters : list string) (sec : SectionReport) : flatMap :=
  fold_left (fun flat c =>
    match sr_PerCluster sec !! c with
    | Some data => <[c := genericMap data]> flat
    | None => flat
    end) clusters ∅.

(** The distinct member names an array's objects give, in order. *)
Fixpoint members_of (member : obj -> string) (seen : gset string) (raw : list json) : list string :=
  match raw with
  | [] => []
  | JObj kv :: raw' =>
      let name := member (list_to_map kv) in
      if String.eqb name "" then members_of member seen raw'
      else if bool_decide (name ∈ seen) then members_of member seen raw'
      else name :: members_of member ({[name]} ∪ seen) raw'
  | _ :: raw' => members_of member seen raw'
  end.

Definition project (p : setProjection) (m : obj) : obj :=
  match m !! sp_From p with
  | None => m
  | Some v =>
      let raw := match v with JArr l => l | _ => [] end in
      let members := members_of (sp_Member p) ∅ raw in
      if (length members =? 0) && sp_SkipEmpty p then m
      else <[sp_To p := JArr (map JStr members)]> m
  end.

Definition is_num (v : json) : bool := match v with JNum _ => true | _ => false end.

Definition gate (m : obj) : obj :=
  match m !! "available" with
  | Some (JBool true) => m
  | _ => base.filter (fun kv => is_num (snd kv) = false) m
  end.

Definition prepareFlat (scannerName : string) (flat : flatMap) : flatMap :=
  let flat := match setProjections !! scannerName with Some p => project p <$> flat | None => flat end in
  if bool_decide (scannerName ∈ availabilityGated) then gate <$> flat else flat.

Definition lowerBound (scannerName field : string) (v : json) : bool :=
  match v with
  | JNum n => negb (f_leb n f_zero) && bool_decide (lookupPolarity scannerName field = UpIsBad)
  | _ => false
  end.

Definition boundDegraded (scannerName : string) (flat : flatMap) (runs : runTable) : flatMap :=
  map_imap (fun cluster m =>
    Some (match runs !! (scannerName, cluster) with
          | Some st => if String.eqb st StateDegraded
                       then base.filter (fun kv => lowerBound scannerName (fst kv) (snd kv) = true) m
                       else m
          | None => m
          end)) flat.

Definition fields_of (flat : flatMap) : gset string :=
  map_fold (fun _ m acc => dom m ∪ acc) ∅ flat.

Definition collectFields (flat : flatMap) : list string := sort_strings (elements (fields_of flat)).

(** What one section offers the detectors. *)
Definition section_flat (r : Report) (clusters : list string) (scannerName : string) (sec : SectionReport) : flatMap :=
  boundDegraded scannerName (prepareFlat scannerName (flattenSection clusters sec)) (runs_of r).

Definition section_visits (r : Report) (clusters : list string) (minPerCluster : nat)
  (s : string * SectionReport) : list (string * string * flatMap) :=
  let '(scannerName, sec) := s in
  if sr_Uniform sec || (size (sr_PerCluster sec) <? minPerCluster) then []
  else
    let flat := section_flat r clusters scannerName sec in
    map (fun field => (scannerName, field, flat))
      (List.filter (fun f => negb (bool_decide (f ∈ skipFields))) (collectFields flat)).

(** The calls of [visit], section by section in map order. *)
Definition walkFields (r : Report) (clusters : list string) (minPerCluster : nat) :
  list (string * string * flatMap) :=
  flat_map (section_visits r clusters minPerCluster) (map_to_list (rp_Sections r)).

(** [flat[c][field]], with a nil map reading as empty. *)
Definition flat_get (flat : flatMap) (c field : string) : option json := default ∅ (flat !! c) !! field.

(** One value per cluster that has one: the populations of the detectors. *)
Definition population {A} (get : string -> option A) (clusters : list string) : list (string * A) :=
  omap (fun c => pair c <$> get c) clusters.

Definition num_pop (clusters : list string) (flat : flatMap) (field : string) : list (string * float64) :=
  population (fun c => util_Float64 (flat_get flat c field)) clusters.

Definition text_of (v : option json) : option string :=
  match v with None | Some JNull => None | Some v => Some (sprint v) end.

Definition str_pop (clusters : list string) (flat : flatMap) (field : string) : list (string * string) :=
  population (fun c => text_of (flat_get flat c field)) clusters.

Definition items_of (v : json) : list string := match v with JArr l => map sprint l | _ => [] end.

Definition set_pop (clusters : list string) (flat : flatMap) (field : string) : list (string * list string) :=
  population (fun c => items_of <$> flat_get flat c field) clusters.

(** A field has a kind when some cluster shows it and none contradicts it. *)
Definition all_of_kind (p : json -> bool) (clusters : list string) (flat : flatMap) (field : string) : bool :=
  let vs := omap (fun c => match flat_get flat c field with Some JNull => None | v => v end) clusters in
  forallb p vs && negb (length vs =? 0).

Definition isNumericInFlat (clusters : list string) (flat : flatMap) (field : string) : bool :=
  all_of_kind is_num clusters flat field.

Definition is_arr (v : json) : bool := match v with JArr _ => true | _ => false end.

Definition isArrayInFlat (clusters : list string) (flat : flatMap) (field : string) : bool :=
  all_of_kind is_arr clusters flat field.

(** ** Facts *)

#[local] Opaque setProjections availabilityGated skipFields lookupPolarity.

Lemma population_in {A} (get : string -> option A) clusters c a :
  (c, a) ∈ population get clusters <-> c ∈ clusters /\ get c = Some a.
Proof.
  unfold population. rewrite list_elem_of_omap. split.
  - intros (c' & Hc & H). destruct (get c') eqn:E; simplify_eq/=. done.
  - intros [Hc H]. exists c. by rewrite H.
Qed.

Lemma population_keys {A} (get : string -> option A) clusters : NoDup clusters ->
  NoDup (map fst (population get clusters)).
Proof.
  intros H. unfold population. induction H as [|c l Hc Hl IH]; simpl; [constructor|].
  destruct (get c) as [a|]; simpl; [|done]. constructor; [|done].
  intros ([c' a'] & Heq & Hin)%list_elem_of_fmap. simpl in Heq. subst c'.
  by apply population_in in Hin as [? _].
Qed.

Lemma flattenSection_lookup clusters sec c :
  flattenSection clusters sec !! c =
  if bool_decide (c ∈ clusters) then genericMap <$> sr_PerCluster sec !! c else None.
Proof.
  unfold flattenSection. rewrite <- (rev_involutive clusters).
  induction (rev clusters) as [|x l IH]; cbn [rev].
  - done.
  - rewrite fold_left_app. cbn [fold_left].
    destruct (decide (x = c)) as [->|Hne].
    + rewrite bool_decide_eq_true_2 by set_solver. destruct (sr_PerCluster sec !! c) eqn:E; simpl.
      * by rewrite lookup_insert_eq.
      * rewrite IH. by case_bool_decide.
    + destruct (sr_PerCluster sec !! x); rewrite ?lookup_insert_ne, IH by done;
        repeat case_bool_decide; set_solver.
Qed.

Lemma boundDegraded_lookup s flat runs c :
  boundDegraded s flat runs !! c =
  (fun m => if bool_decide (runs !! (s, c) = Some StateDegraded)
            then base.filter (fun kv => lowerBound s (fst kv) (snd kv) = true) m else m) <$> flat !! c.
Proof.
  unfold boundDegraded. rewrite map_lookup_imap. destruct (flat !! c) as [m|]; simpl; [|done].
  f_equal. destruct (runs !! (s, c)) as [st|]; simpl; [|done].
  destruct (String.eqb_spec st StateDegraded); case_bool_decide; naive_solver.
Qed.

Lemma prepareFlat_keys s flat c : is_Some (prepareFlat s flat !! c) <-> is_Some (flat !! c).
Proof.
  unfold prepareFlat. destruct (setProjections !! s) as [p|]; case_bool_decide;
    rewrite ?lookup_fmap, ?fmap_is_Some; done.
Qed.

Lemma collectFields_in f flat : f ∈ collectFields flat <-> exists c m, flat !! c = Some m /\ is_Some (m !! f).
Proof.
  unfold collectFields, fields_of. rewrite sort_strings_elem_of, elem_of_elements.
  induction flat as [|c m flat Hc Hfst IH] using map_first_key_ind.
  - rewrite map_fold_empty. setoid_rewrite lookup_empty. set_solver.
  - rewrite map_fold_insert_first_key by done. rewrite elem_of_union, elem_of_dom, IH. split.
    + intros [H|(c' & m' & H & Hf)]; [exists c, m; by rewrite lookup_insert_eq|].
      exists c', m'. rewrite lookup_insert_ne by congruence. done.
    + intros (c' & m' & H & Hf). destruct (decide (c = c')) as [->|Hne].
      * rewrite lookup_insert_eq in H. simplify_eq. by left.
      * rewrite lookup_insert_ne in H by done. right. eauto.
Qed.

Lemma collectFields_NoDup flat : NoDup (collectFields flat).
Proof. apply sort_strings_NoDup, NoDup_elements. Qed.

Lemma project_num p m f n : project p m !! f = Some (JNum n) -> m !! f = Some (JNum n).
Proof.
  unfold project. destruct (m !! sp_From p) as [v|]; [|done]. destruct (_ && _); [done|].
  destruct (decide (f = sp_To p)) as [->|Hne]; [by rewrite lookup_insert_eq|by rewrite lookup_insert_ne by done].
Qed.

Lemma gate_lookup m f v : gate m !! f = Some v -> m !! f = Some v.
Proof.
  unfold gate. destruct (m !! "available") as [[|[]| | | |]|]; try done;
    rewrite map_lookup_filter_Some; by intros [H _].
Qed.

Lemma prepareFlat_num s flat c m f n : prepareFlat s flat !! c = Some m -> m !! f = Some (JNum n) ->
  exists m0, flat !! c = Some m0 /\ m0 !! f = Some (JNum n).
Proof.
  unfold prepareFlat. intros Hm Hf.
  assert (Hp : exists m1, match setProjections !! s with Some p => project p <$> flat | None => flat end !! c = Some m1
    /\ m1 !! f = Some (JNum n)).
  { case_bool_decide; [|eauto]. rewrite lookup_fmap in Hm.
    destruct (_ !! c) as [m1|]; [|done]. simplify_eq/=. exists m1. split; [done|]. by apply gate_lookup. }
  destruct Hp as (m1 & H1 & H2). destruct (setProjections !! s) as [p|]; [|eauto].
  rewrite lookup_fmap in H1. destruct (flat !! c) as [m0|]; [|done]. simplify_eq/=.
  exists m0. split; [done|]. by apply project_num in H2.
Qed.

Lemma walkFields_in r clusters k s f flat : (s, f, flat) ∈ walkFields r clusters k <->
  exists sec, rp_Sections r !! s = Some sec /\ sr_Uniform sec = false /\ k <= size (sr_PerCluster sec) /\
    flat = section_flat r clusters s sec /\ f ∈ collectFields flat /\ f ∉ skipFields.
Proof.
  unfold walkFields. rewrite list_elem_of_In, in_flat_map. split.
  - intros ([s' sec] & Hin & H). apply list_elem_of_In, elem_of_map_to_list in Hin.
    unfold section_visits in H. destruct (sr_Uniform sec) eqn:Hu; [done|].
    destruct (Nat.ltb_spec (size (sr_PerCluster sec)) k); [done|]. cbn [orb] in H.
    apply in_map_iff in H as (f' & [= <- <- <-] & Hf). apply filter_In in Hf as [Hf Hs].
    apply negb_true_iff, bool_decide_eq_false in Hs. apply list_elem_of_In in Hf. exists sec. done.
  - intros (sec & Hsec & Hu & Hk & -> & Hf & Hs). exists (s, sec). split.
    + by apply list_elem_of_In, elem_of_map_to_list.
    + unfold section_visits. rewrite Hu. destruct (Nat.ltb_spec (size (sr_PerCluster sec)) k); [lia|].
      cbn [orb]. apply in_map_iff. exists f. split; [done|]. apply filter_In.
      split; [by apply list_elem_of_In|]. by rewrite (bool_decide_eq_false_2 _ Hs).
Qed.

Lemma section_visits_NoDup r clusters k s : NoDup (section_visits r clusters k s).
Proof.
  destruct s as [s sec]. unfold section_visits. destruct (_ || _); [constructor|].
  apply NoDup_fmap_2_strong; [congruence|]. apply NoDup_filter_bool, collectFields_NoDup.
Qed.

Lemma section_visits_name r clusters k s x : x ∈ section_visits r clusters k s -> fst (fst x) = fst s.
Proof.
  destruct s as [s sec]. unfold section_visits. destruct (_ || _); [by intros H%elem_of_nil|].
  intros (f & -> & _)%list_elem_of_fmap. done.
Qed.

Lemma walkFields_NoDup r clusters k : NoDup (walkFields r clusters k).
Proof.
  apply flat_map_NoDup; [apply NoDup_map_to_list|apply section_visits_NoDup|].
  intros [s1 sec1] [s2 sec2] x H1%elem_of_map_to_list H2%elem_of_map_to_list Hx1%section_visits_name Hx2%section_visits_name.
  simpl in *. congruence.
Qed.

(** The key of a visit. *)
Definition visit_key (v : string * string * flatMap) : string * string := fst v.

Lemma walkFields_keys r clusters k : NoDup (visit_key <$> walkFields r clusters k).
Proof.
  apply NoDup_fmap_2_strong; [|apply walkFields_NoDup].
  intros [[s1 f1] m1] [[s2 f2] m2] (sec1 & H1 & _ & _ & -> & _)%walkFields_in
    (sec2 & H2 & _ & _ & -> & _)%walkFields_in [= -> ->]. congruence.
Qed.

(** ** Properties *)

Module Walk.

(** A degraded run contributes only lower bounds: whatever a detector sees of
    a cluster whose run was degraded is a positive number of a field where more is
    worse, exactly as the payload has it, so a partial count never passes for a
    value, a smaller one, or a missing member. *)
Theorem degraded_lower_bound r clusters s sec c f v :
  runState r s c = Some StateDegraded -> flat_get (section_flat r clusters s sec) c f = Some v ->
  exists n data, v = JNum n /\ f_leb n f_zero = false /\ lookupPolarity s f = UpIsBad /\
    c ∈ clusters /\ sr_PerCluster sec !! c = Some data /\ genericMap data !! f = Some (JNum n).
Proof.
  unfold runState, flat_get, section_flat. intros Hrun Hv. rewrite boundDegraded_lookup in Hv.
  rewrite (bool_decide_eq_true_2 _ Hrun) in Hv.
  destruct (prepareFlat s (flattenSection clusters sec) !! c) as [m|] eqn:Hm; [|simpl in Hv; by rewrite lookup_empty in Hv].
  simpl in Hv. apply map_lookup_filter_Some in Hv as [Hv Hlow]. simpl in Hlow.
  destruct v as [| |n| | |]; try done. simpl in Hlow. apply andb_prop in Hlow as [Hpos Hpol].
  apply negb_true_iff in Hpos. apply bool_decide_eq_true in Hpol.
  destruct (prepareFlat_num _ _ _ _ _ _ Hm Hv) as (m0 & H0 & Hf). rewrite flattenSection_lookup in H0.
  case_bool_decide; [|done]. destruct (sr_PerCluster sec !! c) as [data|]; [|done]. simplify_eq/=.
  exists n, data. done.
Qed.

(** The walk visits each field once: every compared (scanner, field) pair of a
    section that differs between enough clusters is visited exactly once, with that
    section's values, and nothing else is. *)
Theorem walk_visits_once r clusters k :
  NoDup (visit_key <$> walkFields r clusters k) /\
  forall s f flat, (s, f, flat) ∈ walkFields r clusters k <->
    exists sec, rp_Sections r !! s = Some sec /\ sr_Uniform sec = false /\ k <= size (sr_PerCluster sec) /\
      flat = section_flat r clusters s sec /\ f ∉ skipFields /\
      exists c v, flat_get flat c f = Some v.
Proof.
  split; [apply walkFields_keys|]. intros s f flat. rewrite walkFields_in.
  setoid_rewrite collectFields_in. unfold flat_get. split.
  - intros (sec & H1 & H2 & H3 & -> & (c & m & Hc & [v Hv]) & Hs). exists sec. split_all; try done.
    exists c, v. rewrite Hc. done.
  - intros (sec & H1 & H2 & H3 & -> & Hs & c & v & Hv). exists sec. split_all; try done.
    destruct (section_flat r clusters s sec !! c) as [m|] eqn:E; [|simpl in Hv; by rewrite lookup_empty in Hv].
    exists c, m. split; [done|]. by exists v.
Qed.

(** Pods pending on a degraded metrics run. *)
Definition bound_report : Report := {|
  rp_Clusters := ["c1"]; rp_Sections := ∅; rp_Summary := summary_zero; rp_Findings := [];
  rp_ClusterHealths := []; rp_Outliers := []; rp_Distributions := []; rp_DeviationMass := ∅;
  rp_ScoreAttribution := None; rp_FleetScore := fleet_score_zero; rp_Cohorts := [];
  rp_Degraded := [{| ss_Cluster := "c1"; ss_Scanner := "events"; ss_State := StateDegraded; ss_Reason := "" |}];
  rp_Incidents := []; rp_Notes := []; rp_runs := None |}.

Definition bound_section : SectionReport := {| sr_Uniform := false;
  sr_PerCluster := {[ "c1" := JObj [("warning_events", JNum (f_of_Z 4)); ("note", JStr "x")] ]}; sr_Divergences := [] |}.

Lemma degraded_lower_bound_witness :
  runState bound_report "events" "c1" = Some StateDegraded /\
  flat_get (section_flat bound_report ["c1"] "events" bound_section) "c1" "warning_events" = Some (JNum (f_of_Z 4)) /\
  lookupPolarity "events" "warning_events" = UpIsBad.
Proof.
  assert (H1 : runState bound_report "events" "c1" = Some StateDegraded) by (vm_compute; reflexivity).
  assert (H2 : flat_get (section_flat bound_report ["c1"] "events" bound_section) "c1" "warning_events"
    = Some (JNum (f_of_Z 4))) by (vm_compute; reflexivity).
  split; [exact H1|]. split; [exact H2|].
  destruct (degraded_lower_bound bound_report ["c1"] "events" bound_section "c1" "warning_events" _ H1 H2)
    as (n & data & _ & _ & Hp & _). exact Hp.
Defined.

End Walk.
