(* ===== verification/Detect.v ===== *)
(** * The fleet detectors: internal/report/outlier.go and distribution.go

    Numeric fields by modified z-score against the median, fields without spread by
    exact match, string fields against the mode, set fields against the consensus.
    Go ranges over maps in no fixed order; here [map_to_list] fixes one, and the
    theorems show the sorted results do not depend on it. *)

From Stdlib Require Import ZArith Lia String.
From stdpp Require Import base gmap strings list sets sorting.
From S2P Require Import Prelude Float64 Ratio Text Data Fields Observe Format Population.

Local Open Scope nat_scope.

Definition minMADSample : nat := 8.
Definition minStringModeMass : float64 := f_const 6 10.
Definition maxReportedDeviation : float64 := f_of_Z 1000000.
Definition minSetConsensusShare : float64 := f_const 6 10.
Definition madScale : float64 := f_const 6745 10000.
Definition maxMassZ : float64 := f_of_Z 10.

(** ** distribution.go *)

Definition valueMass (d : Distribution) (v : ClusterValue) : float64 :=
  if di_Exact d && cv_Outlier v then maxMassZ else f_min (f_abs (cv_Z v)) maxMassZ.

Definition massOf (d : Distribution) : float64 := f_sum (map (valueMass d) (di_Values d)).

Definition with_values (d : Distribution) (vs : list ClusterValue) : Distribution := {|
  di_Scope := di_Scope d; di_Scanner := di_Scanner d; di_Field := di_Field d; di_Kind := di_Kind d;
  di_Values := vs; di_Median := di_Median d; di_MAD := di_MAD d; di_Band := di_Band d;
  di_Threshold := di_Threshold d; di_Mode := di_Mode d; di_ModeShare := di_ModeShare d;
  di_Consensus := di_Consensus d; di_SampleSize := di_SampleSize d; di_Exact := di_Exact d;
  di_LimitedSample := di_LimitedSample d; di_Mass := di_Mass d |}.

Definition with_mass (d : Distribution) (mass : float64) : Distribution := {|
  di_Scope := di_Scope d; di_Scanner := di_Scanner d; di_Field := di_Field d; di_Kind := di_Kind d;
  di_Values := di_Values d; di_Median := di_Median d; di_MAD := di_MAD d; di_Band := di_Band d;
  di_Threshold := di_Threshold d; di_Mode := di_Mode d; di_ModeShare := di_ModeShare d;
  di_Consensus := di_Consensus d; di_SampleSize := di_SampleSize d; di_Exact := di_Exact d;
  di_LimitedSample := di_LimitedSample d; di_Mass := mass |}.

(** [dist.Scanner], [dist.Field] and [dist.Scope]. *)
Definition with_place (d : Distribution) (scope scanner field : string) : Distribution := {|
  di_Scope := scope; di_Scanner := scanner; di_Field := field; di_Kind := di_Kind d;
  di_Values := di_Values d; di_Median := di_Median d; di_MAD := di_MAD d; di_Band := di_Band d;
  di_Threshold := di_Threshold d; di_Mode := di_Mode d; di_ModeShare := di_ModeShare d;
  di_Consensus := di_Consensus d; di_SampleSize := di_SampleSize d; di_Exact := di_Exact d;
  di_LimitedSample := di_LimitedSample d; di_Mass := di_Mass d |}.

(** An outlier result as a detector builds it: the caller stamps the scope. *)
Definition with_scope (scope : string) (o : OutlierResult) : OutlierResult := {|
  or_Cluster := or_Cluster o; or_Field := or_Field o; or_Value := or_Value o; or_FleetNorm := or_FleetNorm o;
  or_Deviation := or_Deviation o; or_Scanner := or_Scanner o; or_Severity := or_Severity o; or_Scope := scope;
  or_Kind := or_Kind o; or_Median := or_Median o; or_MAD := or_MAD o; or_Mode := or_Mode o;
  or_ModeShare := or_ModeShare o; or_Consensus := or_Consensus o; or_Missing := or_Missing o;
  or_SampleSize := or_SampleSize o; or_Threshold := or_Threshold o; or_Z := or_Z o;
  or_ExplainedBy := or_ExplainedBy o; or_LimitedSample := or_LimitedSample o; or_Exact := or_Exact o;
  or_Favorable := or_Favorable o |}.

Definition mark_value (byCluster : gmap string OutlierResult) (z : bool) (v : ClusterValue) : ClusterValue :=
  match byCluster !! cv_Cluster v with
  | None => v
  | Some o => {| cv_Cluster := cv_Cluster v; cv_Number := cv_Number v; cv_Text := cv_Text v; cv_Size := cv_Size v;
                 cv_Missing := cv_Missing v; cv_Z := if z then or_Z o else cv_Z v; cv_Outlier := true;
                 cv_Explained := cv_Explained v |}
  end.

Definition markOutliers (d : Distribution) (outliers : list OutlierResult) (z : bool) : Distribution :=
  let byCluster := fold_left (fun m o => <[or_Cluster o := o]> m) outliers (∅ : gmap string OutlierResult) in
  with_values d (map (mark_value byCluster z) (di_Values d)).

Definition deviationMass (dists : list Distribution) (normZ : Distribution -> ClusterValue -> float64) :
  gmap string float64 :=
  fold_left (fun out d =>
    if String.eqb (di_Scope d) NormScopeFleet
    then fold_left (fun out v =>
           let m := f_min (f_abs (normZ d v)) maxMassZ in
           if f_eqb m f_zero then out
           else <[cv_Cluster v := f_add (default f_zero (out !! cv_Cluster v)) m]> out) (di_Values d) out
    else out) dists ∅.

Definition dist_less (a b : Distribution) : bool :=
  let fa := String.eqb (di_Scope a) NormScopeFleet in
  let fb := String.eqb (di_Scope b) NormScopeFleet in
  if negb (Bool.eqb fa fb) then fa
  else if negb (String.eqb (di_Scope a) (di_Scope b)) then str_ltb (di_Scope a) (di_Scope b)
  else if negb (f_eqb (di_Mass a) (di_Mass b)) then f_ltb (di_Mass b) (di_Mass a)
  else if negb (String.eqb (di_Scanner a) (di_Scanner b)) then str_ltb (di_Scanner a) (di_Scanner b)
  else str_ltb (di_Field a) (di_Field b).

Definition sortDistributions (dists : list Distribution) : list Distribution := isort dist_less dists.

(** ** outlier.go: the detectors *)

(** The order of [sortOutliers]: its chain of [!=] tests compares key by key. *)
Definition outlier_cmp : OutlierResult -> OutlierResult -> comparison :=
  cmp_lex (cmp_rev (cmp_on (fun o => SeverityRank (or_Severity o)) Nat.compare))
    (cmp_lex (cmp_on or_Scanner String.compare)
      (cmp_lex (cmp_on or_Cluster String.compare) (cmp_on or_Field String.compare))).

Definition sortOutliers (outliers : list OutlierResult) : list OutlierResult := isort (less_of outlier_cmp) outliers.

Definition cappedZ (z : float64) : float64 := if f_is_inf z then f_copysign maxReportedDeviation z else z.

(** [madScale * (v - median) / mad]. *)
Definition mod_z (v median mad : float64) : float64 := f_div (f_mul madScale (f_sub v median)) mad.

Definition numeric_outlier (scannerName field : string) (n : nat) (threshold median mad : float64)
  (cv : string * float64) : list OutlierResult :=
  let '(c, v) := cv in
  let zScore := cappedZ (mod_z v median mad) in
  let absZ := f_abs zScore in
  if f_ltb threshold absZ then
    let '(sev, favorable) := numericSeverity scannerName field (f_sub v median) in
    [{| or_Cluster := c; or_Field := field; or_Value := formatNum v; or_FleetNorm := formatNum median;
        or_Deviation := absZ; or_Scanner := scannerName; or_Severity := sev; or_Scope := "";
        or_Kind := NormKindNumeric; or_Median := median; or_MAD := mad; or_Mode := ""; or_ModeShare := f_zero;
        or_Consensus := []; or_Missing := []; or_SampleSize := n; or_Threshold := threshold; or_Z := zScore;
        or_ExplainedBy := ""; or_LimitedSample := false; or_Exact := false; or_Favorable := favorable |}]
  else [].

Definition exact_outlier (scannerName field : string) (n : nat) (median share : float64)
  (cv : string * float64) : list OutlierResult :=
  let '(c, v) := cv in
  if f_eqb v median then []
  else
    let '(sev, favorable) := numericSeverity scannerName field (f_sub v median) in
    [{| or_Cluster := c; or_Field := field; or_Value := formatNum v; or_FleetNorm := formatNum median;
        or_Deviation := f_zero; or_Scanner := scannerName; or_Severity := sev; or_Scope := "";
        or_Kind := NormKindNumeric; or_Median := median; or_MAD := f_zero; or_Mode := ""; or_ModeShare := share;
        or_Consensus := []; or_Missing := []; or_SampleSize := n; or_Threshold := minStringModeMass;
        or_Z := f_zero; or_ExplainedBy := ""; or_LimitedSample := false; or_Exact := true;
        or_Favorable := favorable |}].

Definition count_eq (median : float64) (pop : list (string * float64)) : nat :=
  length (List.filter (fun cv => f_eqb (snd cv) median) pop).

Definition with_exact (d : Distribution) (share threshold : float64) : Distribution := {|
  di_Scope := di_Scope d; di_Scanner := di_Scanner d; di_Field := di_Field d; di_Kind := di_Kind d;
  di_Values := di_Values d; di_Median := di_Median d; di_MAD := di_MAD d; di_Band := di_Band d;
  di_Threshold := threshold; di_Mode := di_Mode d; di_ModeShare := share;
  di_Consensus := di_Consensus d; di_SampleSize := di_SampleSize d; di_Exact := true;
  di_LimitedSample := di_LimitedSample d; di_Mass := di_Mass d |}.

(** The results, and the distribution the source updates in place. *)
Definition exactOutliers (pop : list (string * float64)) (median : float64) (field scannerName : string)
  (dist : Distribution) : list OutlierResult * Distribution :=
  let share := share_of (count_eq median pop) (length pop) in
  let dist := with_exact dist share minStringModeMass in
  if f_ltb share minStringModeMass then ([], dist)
  else
    let outliers := flat_map (exact_outlier scannerName field (length pop) median share) pop in
    let dist := markOutliers dist outliers false in
    (outliers, with_mass dist (massOf dist)).

Definition value_zero (c : string) : ClusterValue := {|
  cv_Cluster := c; cv_Number := None; cv_Text := ""; cv_Size := 0; cv_Missing := []; cv_Z := f_zero;
  cv_Outlier := false; cv_Explained := "" |}.

Definition num_value (median mad : float64) (cv : string * float64) : ClusterValue := {|
  cv_Cluster := fst cv; cv_Number := Some (snd cv); cv_Text := ""; cv_Size := 0; cv_Missing := [];
  cv_Z := if f_eqb mad f_zero then f_zero else cappedZ (mod_z (snd cv) median mad);
  cv_Outlier := false; cv_Explained := "" |}.

Definition dist_of (kind : string) (values : list ClusterValue) (n : nat) (threshold : float64) : Distribution := {|
  di_Scope := ""; di_Scanner := ""; di_Field := ""; di_Kind := kind; di_Values := values; di_Median := f_zero;
  di_MAD := f_zero; di_Band := f_zero; di_Threshold := threshold; di_Mode := ""; di_ModeShare := f_zero;
  di_Consensus := []; di_SampleSize := n; di_Exact := false; di_LimitedSample := false; di_Mass := f_zero |}.

Definition with_numeric (d : Distribution) (median mad band : float64) : Distribution := {|
  di_Scope := di_Scope d; di_Scanner := di_Scanner d; di_Field := di_Field d; di_Kind := di_Kind d;
  di_Values := di_Values d; di_Median := median; di_MAD := mad; di_Band := band;
  di_Threshold := di_Threshold d; di_Mode := di_Mode d; di_ModeShare := di_ModeShare d;
  di_Consensus := di_Consensus d; di_SampleSize := di_SampleSize d; di_Exact := di_Exact d;
  di_LimitedSample := di_LimitedSample d; di_Mass := di_Mass d |}.

(** [clusterVals]: the population as the Go map holds it. *)
Definition as_map {A} (pop : list (string * A)) : gmap string A := list_to_map pop.

Definition detectNumericOutliers (clusters : list string) (flat : flatMap) (field scannerName : string)
  (threshold : float64) : list OutlierResult * option Distribution :=
  let pop := num_pop clusters flat field in
  let vals := map snd pop in
  if length vals <? minMADSample then ([], None)
  else
    let median := Median vals in
    let mad := computeMAD vals median in
    let dist := with_numeric (dist_of NormKindNumeric (map (num_value median mad) pop) (length vals) threshold)
                  median mad f_zero in
    if f_eqb mad f_zero then
      let '(outliers, dist) := exactOutliers pop median field scannerName dist in (outliers, Some dist)
    else
      let dist := with_numeric dist median mad (f_div (f_mul threshold mad) madScale) in
      let outliers := flat_map (numeric_outlier scannerName field (length vals) threshold median mad)
                        (map_to_list (as_map pop)) in
      let dist := markOutliers dist outliers false in
      (outliers, Some (with_mass dist (massOf dist))).

(** [dominantString] over the counts in the order the map gives them. *)
Definition dominant_step (acc : string * nat) (vn : string * nat) : string * nat :=
  let '(mode, best) := acc in
  let '(v, n) := vn in
  if (best <? n) || ((n =? best) && str_ltb v mode) then (v, n) else acc.

Definition dominant_in (order : list (string * nat)) : string := fst (fold_left dominant_step order ("", 0)).

Definition dominantString (counts : gmap string nat) : string := dominant_in (map_to_list counts).

Definition count_texts (vals : list string) : gmap string nat :=
  fold_left (fun counts v => <[v := S (default 0 (counts !! v))]> counts) vals ∅.

Definition string_outlier (scannerName field : string) (n : nat) (mode : string) (share : float64)
  (cv : string * string) : list OutlierResult :=
  let '(c, v) := cv in
  if String.eqb v mode then []
  else [{| or_Cluster := c; or_Field := field; or_Value := v; or_FleetNorm := mode; or_Deviation := f_zero;
           or_Scanner := scannerName; or_Severity := classifySeverity scannerName field; or_Scope := "";
           or_Kind := NormKindString; or_Median := f_zero; or_MAD := f_zero; or_Mode := mode; or_ModeShare := share;
           or_Consensus := []; or_Missing := []; or_SampleSize := n; or_Threshold := minStringModeMass;
           or_Z := f_zero; or_ExplainedBy := ""; or_LimitedSample := false; or_Exact := false;
           or_Favorable := false |}].

Definition str_value (cv : string * string) : ClusterValue := {|
  cv_Cluster := fst cv; cv_Number := None; cv_Text := snd cv; cv_Size := 0; cv_Missing := []; cv_Z := f_zero;
  cv_Outlier := false; cv_Explained := "" |}.

Definition with_mode (d : Distribution) (mode : string) (share : float64) : Distribution := {|
  di_Scope := di_Scope d; di_Scanner := di_Scanner d; di_Field := di_Field d; di_Kind := di_Kind d;
  di_Values := di_Values d; di_Median := di_Median d; di_MAD := di_MAD d; di_Band := di_Band d;
  di_Threshold := di_Threshold d; di_Mode := mode; di_ModeShare := share;
  di_Consensus := di_Consensus d; di_SampleSize := di_SampleSize d; di_Exact := di_Exact d;
  di_LimitedSample := di_LimitedSample d; di_Mass := di_Mass d |}.

Definition detectStringOutliers (clusters : list string) (flat : flatMap) (field scannerName : string) :
  list OutlierResult * option Distribution :=
  let pop := str_pop clusters flat field in
  let counts := count_texts (map snd pop) in
  let clusterVals := as_map pop in
  let n := size clusterVals in
  if (size counts <=? 1) || (n =? 0) then ([], None)
  else
    let mode := dominantString counts in
    let share := share_of (default 0 (counts !! mode)) n in
    let dist := with_mode (dist_of NormKindString (map str_value pop) n minStringModeMass) mode share in
    if String.eqb mode "" || f_ltb share minStringModeMass then ([], Some dist)
    else
      let outliers := flat_map (string_outlier scannerName field n mode share) (map_to_list clusterVals) in
      (outliers, Some (markOutliers dist outliers false)).

(** [int(math.Ceil(float64(n) * minSetConsensusShare))]. *)
Definition consensus_threshold (n : nat) : Z :=
  f_to_int (f_ceil (f_mul (f_of_Z (Z.of_nat n)) minSetConsensusShare)).

Definition item_counts (pop : list (string * list string)) : gmap string nat :=
  count_texts (flat_map snd pop).

Definition consensus_of (pop : list (string * list string)) (n : nat) : list string :=
  sort_strings (map fst (List.filter (fun ic => (consensus_threshold n <=? Z.of_nat (snd ic))%Z)
    (map_to_list (item_counts pop)))).

Definition missing_from (consensus items : list string) : list string :=
  List.filter (fun i => negb (bool_decide (i ∈ items))) consensus.

Definition set_size (items : list string) : nat := size (list_to_set items : gset string).

Definition set_value (consensus : list string) (ci : string * list string) : ClusterValue :=
  let missing := missing_from consensus (snd ci) in
  {| cv_Cluster := fst ci; cv_Number := None; cv_Text := ""; cv_Size := set_size (snd ci);
     cv_Missing := missing; cv_Z := f_zero; cv_Outlier := 0 <? length missing; cv_Explained := "" |}.

Definition set_outlier (scannerName field : string) (n : nat) (consensus : list string) (ci : string * list string) :
  list OutlierResult :=
  let missing := missing_from consensus (snd ci) in
  if 0 <? length missing then
    [{| or_Cluster := fst ci; or_Field := field;
        or_Value := ("missing " ++ itoa (Z.of_nat (length missing)) ++ ": [" ++ join " " missing ++ "]")%string;
        or_FleetNorm := (itoa (Z.of_nat (length consensus)) ++ " consensus items")%string; or_Deviation := f_zero;
        or_Scanner := scannerName; or_Severity := classifySeverity scannerName field; or_Scope := "";
        or_Kind := NormKindSet; or_Median := f_zero; or_MAD := f_zero; or_Mode := ""; or_ModeShare := f_zero;
        or_Consensus := consensus; or_Missing := missing; or_SampleSize := n; or_Threshold := minSetConsensusShare;
        or_Z := f_zero; or_ExplainedBy := ""; or_LimitedSample := false; or_Exact := false; or_Favorable := false |}]
  else [].

Definition with_consensus (d : Distribution) (consensus : list string) : Distribution := {|
  di_Scope := di_Scope d; di_Scanner := di_Scanner d; di_Field := di_Field d; di_Kind := di_Kind d;
  di_Values := di_Values d; di_Median := di_Median d; di_MAD := di_MAD d; di_Band := di_Band d;
  di_Threshold := di_Threshold d; di_Mode := di_Mode d; di_ModeShare := di_ModeShare d;
  di_Consensus := consensus; di_SampleSize := di_SampleSize d; di_Exact := di_Exact d;
  di_LimitedSample := di_LimitedSample d; di_Mass := di_Mass d |}.

Definition detectSetOutliers (clusters : list string) (flat : flatMap) (field scannerName : string) :
  list OutlierResult * option Distribution :=
  let pop := set_pop clusters flat field in
  let n := size (as_map pop) in
  if n =? 0 then ([], None)
  else
    let consensus := consensus_of pop n in
    let dist := with_consensus (dist_of NormKindSet (map (set_value consensus) pop) n minSetConsensusShare) consensus in
    (flat_map (set_outlier scannerName field n consensus) pop, Some dist).

(** One call of [visit] in [detectOutliers]. *)
Definition detect_field (clusters : list string) (threshold : float64) (v : string * string * flatMap) :
  list OutlierResult * option Distribution :=
  let '(scannerName, field, flat) := v in
  if isNumericInFlat clusters flat field then detectNumericOutliers clusters flat field scannerName threshold
  else if isArrayInFlat clusters flat field then detectSetOutliers clusters flat field scannerName
  else detectStringOutliers clusters flat field scannerName.

Definition opt_list {A} (o : option A) : list A := match o with Some a => [a] | None => [] end.

Definition place (scope : string) (v : string * string * flatMap) (d : option Distribution) : list Distribution :=
  opt_list ((fun d => with_place d scope (fst (fst v)) (snd (fst v))) <$> d).

Definition detectOutliers (r : Report) (clusters : list string) (threshold : float64) (scope : string) :
  list OutlierResult * list Distribution :=
  let visits := walkFields r clusters minMADSample in
  let outliers := flat_map (fun v => fst (detect_field clusters threshold v)) visits in
  let dists := flat_map (fun v => place scope v (snd (detect_field clusters threshold v))) visits in
  (sortOutliers (map (with_scope scope) outliers), sortDistributions dists).

(** ** Facts: keys of the results *)

(** Every result of a visit names its scanner and field. *)
Definition of_visit (v : string * string * flatMap) (o : OutlierResult) : Prop :=
  or_Scanner o = fst (fst v) /\ or_Field o = snd (fst v).

(** A per-cluster judgement: nothing, or one result for that cluster. *)
Definition judges {A} (g : string * A -> list OutlierResult) (scannerName field : string) : Prop :=
  forall ca, g ca = [] \/ exists o, g ca = [o] /\ or_Cluster o = fst ca /\ or_Scanner o = scannerName /\ or_Field o = field.

Lemma numeric_judges s f n t m d : judges (numeric_outlier s f n t m d) s f.
Proof.
  intros [c v]. unfold numeric_outlier. destruct (f_ltb _ _); [right|by left].
  destruct (numericSeverity _ _ _). by eexists.
Qed.

Lemma exact_judges s f n m sh : judges (exact_outlier s f n m sh) s f.
Proof.
  intros [c v]. unfold exact_outlier. destruct (f_eqb _ _); [by left|right].
  destruct (numericSeverity _ _ _). by eexists.
Qed.

Lemma string_judges s f n m sh : judges (string_outlier s f n m sh) s f.
Proof. intros [c v]. unfold string_outlier. destruct (String.eqb _ _); [by left|right]. by eexists. Qed.

Lemma set_judges s f n cons : judges (set_outlier s f n cons) s f.
Proof. intros ci. unfold set_outlier. destruct (_ <? _); [right|by left]. by eexists. Qed.

Section Judge.
Context {A : Type} (g : string * A -> list OutlierResult) (s f : string) (Hg : judges g s f).

Lemma judge_place pop o : o ∈ flat_map g pop -> or_Scanner o = s /\ or_Field o = f /\ or_Cluster o ∈ map fst pop.
Proof.
  rewrite list_elem_of_In, in_flat_map. intros (ca & Hca & Ho).
  destruct (Hg ca) as [E|(o' & E & Hc & Hs & Hf)]; rewrite E in Ho; [done|].
  destruct Ho as [<-|[]]. split_all; try done. rewrite Hc. apply list_elem_of_In, in_map, Hca.
Qed.

Lemma judge_NoDup pop : NoDup (map fst pop) -> NoDup (map or_Cluster (flat_map g pop)).
Proof.
  induction pop as [|ca pop IH]; simpl; [constructor|]. intros [Hn Hnd]%NoDup_cons.
  destruct (Hg ca) as [->|(o & -> & Hc & _)]; simpl; [by apply IH|]. rewrite Hc.
  constructor; [|by apply IH]. intros (o' & Ho1 & Ho2)%list_elem_of_fmap.
  apply judge_place in Ho2 as (_ & _ & Hin). by rewrite <- Ho1 in Hin.
Qed.

(** A cluster has a result exactly when its own value is judged off. *)
Lemma judge_iff pop c a : NoDup (map fst pop) -> (c, a) ∈ pop ->
  c ∈ map or_Cluster (flat_map g pop) <-> g (c, a) <> [].
Proof.
  intros Hnd Hin. rewrite list_elem_of_fmap. setoid_rewrite list_elem_of_In. setoid_rewrite in_flat_map. split.
  - intros (o & Hc & ca & Hca & Ho). destruct (Hg ca) as [E|(o' & E & Hc' & _)]; rewrite E in Ho; [done|].
    destruct Ho as [->|[]]. apply list_elem_of_In in Hca. destruct ca as [c' a']. simpl in Hc'.
    assert (c' = c) as -> by congruence.
    assert (a' = a) as ->. { eapply NoDup_fst_inv; eauto. }
    by rewrite E.
  - intros Hne. destruct (Hg (c, a)) as [|(o & E & Hc & _)]; [done|]. exists o. split; [by rewrite Hc|].
    exists (c, a). split; [by apply list_elem_of_In|]. rewrite E. by left.
Qed.
End Judge.

(** The population as the Go map holds it has the same entries. *)
Lemma as_map_perm {A} (pop : list (string * A)) : NoDup (map fst pop) -> map_to_list (as_map pop) ≡ₚ pop.
Proof. intros H. unfold as_map. by apply map_to_list_to_map. Qed.

Lemma as_map_size {A} (pop : list (string * A)) : NoDup (map fst pop) -> size (as_map pop) = length pop.
Proof. intros H. rewrite <- length_map_to_list, as_map_perm by done. done. Qed.

Lemma flat_map_perm {A B} (g : A -> list B) l1 l2 : l1 ≡ₚ l2 -> flat_map g l1 ≡ₚ flat_map g l2.
Proof.
  induction 1; simpl; [done|by f_equiv| |by etrans]. rewrite !app_assoc. f_equiv. apply Permutation_app_comm.
Qed.

(** ** Facts: marks *)

Lemma by_cluster_lookup os m c :
  is_Some (fold_left (fun m o => <[or_Cluster o := o]> m) os m !! c) <->
  c ∈ map or_Cluster os \/ is_Some ((m : gmap string OutlierResult) !! c).
Proof.
  revert m. induction os as [|o os IH]; intros m; simpl; [set_solver|]. rewrite IH, elem_of_cons.
  destruct (decide (or_Cluster o = c)) as [<-|Hne].
  - rewrite lookup_insert_eq. naive_solver.
  - rewrite lookup_insert_ne by done. naive_solver.
Qed.

Definition unflagged (vs : list ClusterValue) : Prop := Forall (fun v => cv_Outlier v = false) vs.

(** The marks of a distribution are its results. *)
Definition marks (d : Distribution) (os : list OutlierResult) : Prop :=
  forall v, v ∈ di_Values d -> cv_Outlier v = true <-> cv_Cluster v ∈ map or_Cluster os.

Lemma markOutliers_marks d os z : unflagged (di_Values d) -> marks (markOutliers d os z) os.
Proof.
  intros Hu v (v0 & -> & Hin)%list_elem_of_fmap. unfold mark_value.
  pose proof (by_cluster_lookup os ∅ (cv_Cluster v0)) as Hl. rewrite lookup_empty in Hl.
  apply (proj1 (Forall_forall _ _)) with (x := v0) in Hu; [|done].
  destruct (fold_left _ os ∅ !! cv_Cluster v0) as [o|]; simpl.
  - split; [|done]. intros _. destruct Hl as [[|[? ?]] _]; [eauto|done|done].
  - rewrite Hu. split; [done|]. intros H. destruct Hl as [_ [? ?]]; [by left|done].
Qed.

Lemma marks_none d : unflagged (di_Values d) -> marks d [].
Proof.
  intros Hu v Hv. apply (proj1 (Forall_forall _ _)) with (x := v) in Hu; [|done]. rewrite Hu.
  split; [done|]. by intros ?%elem_of_nil.
Qed.

Lemma marks_mass d os m : marks d os -> marks (with_mass d m) os.
Proof. intros H. exact H. Qed.

Lemma num_values_unflagged median mad pop : unflagged (map (num_value median mad) pop).
Proof. apply Forall_map, Forall_forall. done. Qed.

Lemma str_values_unflagged pop : unflagged (map str_value pop).
Proof. apply Forall_map, Forall_forall. done. Qed.

(** ** Facts: each detector *)

Lemma num_pop_keys clusters flat f : NoDup clusters -> NoDup (map fst (num_pop clusters flat f)).
Proof. apply population_keys. Qed.

Lemma exact_results pop median f s dist :
  fst (exactOutliers pop median f s dist) =
  let share := share_of (count_eq median pop) (length pop) in
  if f_ltb share minStringModeMass then []
  else flat_map (exact_outlier s f (length pop) median share) pop.
Proof. unfold exactOutliers. cbv zeta. by destruct (f_ltb _ _). Qed.

Lemma numeric_results clusters flat f s t :
  let pop := num_pop clusters flat f in
  let vals := map snd pop in
  let median := Median vals in
  let mad := computeMAD vals median in
  fst (detectNumericOutliers clusters flat f s t) =
  if length vals <? minMADSample then []
  else if f_eqb mad f_zero then
    let share := share_of (count_eq median pop) (length pop) in
    if f_ltb share minStringModeMass then [] else flat_map (exact_outlier s f (length pop) median share) pop
  else flat_map (numeric_outlier s f (length vals) t median mad) (map_to_list (as_map pop)).
Proof.
  cbv zeta. unfold detectNumericOutliers. destruct (_ <? _); [done|]. cbv zeta.
  destruct (f_eqb _ _); [|done].
  pose proof (exact_results (num_pop clusters flat f) (Median (map snd (num_pop clusters flat f))) f s
    (with_numeric (dist_of NormKindNumeric (map (num_value (Median (map snd (num_pop clusters flat f)))
      (computeMAD (map snd (num_pop clusters flat f)) (Median (map snd (num_pop clusters flat f)))))
      (num_pop clusters flat f)) (length (map snd (num_pop clusters flat f))) t)
      (Median (map snd (num_pop clusters flat f)))
      (computeMAD (map snd (num_pop clusters flat f)) (Median (map snd (num_pop clusters flat f)))) f_zero)) as H.
  by destruct (exactOutliers _ _ _ _ _).
Qed.

Lemma exact_marks pop median f s dist : unflagged (di_Values dist) ->
  marks (snd (exactOutliers pop median f s dist)) (fst (exactOutliers pop median f s dist)).
Proof.
  intros Hu. unfold exactOutliers. cbv zeta. destruct (f_ltb _ _); simpl.
  - by apply marks_none.
  - by apply marks_mass, markOutliers_marks.
Qed.

Lemma numeric_marks clusters flat f s t d :
  snd (detectNumericOutliers clusters flat f s t) = Some d ->
  marks d (fst (detectNumericOutliers clusters flat f s t)).
Proof.
  unfold detectNumericOutliers. destruct (_ <? _); [done|]. cbv zeta. destruct (f_eqb _ _).
  - match goal with |- context [exactOutliers ?p ?m ?f ?s ?d] =>
      pose proof (exact_marks p m f s d (num_values_unflagged _ _ _)) as H; destruct (exactOutliers p m f s d) end.
    simpl. by intros [= <-].
  - cbn [fst snd]. intros Hd. apply (inj Some) in Hd. subst d. apply marks_mass, markOutliers_marks, num_values_unflagged.
Qed.

Lemma string_results clusters flat f s : NoDup clusters ->
  let pop := str_pop clusters flat f in
  let counts := count_texts (map snd pop) in
  let mode := dominantString counts in
  let share := share_of (default 0 (counts !! mode)) (length pop) in
  fst (detectStringOutliers clusters flat f s) ≡ₚ
  if (size counts <=? 1) || (length pop =? 0) || String.eqb mode "" || f_ltb share minStringModeMass then []
  else flat_map (string_outlier s f (length pop) mode share) pop.
Proof.
  intros Hnd. cbv zeta. unfold detectStringOutliers.
  assert (Hk : NoDup (map fst (str_pop clusters flat f))) by by apply population_keys.
  rewrite (as_map_size _ Hk). destruct (size _ <=? 1); [done|]. destruct (_ =? 0); [done|]. cbn [orb].
  destruct (String.eqb _ _); [done|]. destruct (f_ltb _ _); [done|]. simpl. by apply flat_map_perm, as_map_perm.
Qed.

Lemma string_marks clusters flat f s d :
  snd (detectStringOutliers clusters flat f s) = Some d ->
  marks d (fst (detectStringOutliers clusters flat f s)).
Proof.
  unfold detectStringOutliers. destruct (_ || _); [done|]. cbv zeta. destruct (_ || _); simpl; intros [= <-].
  - apply marks_none, str_values_unflagged.
  - apply markOutliers_marks, str_values_unflagged.
Qed.

Lemma set_marks clusters flat f s d : NoDup clusters ->
  snd (detectSetOutliers clusters flat f s) = Some d -> marks d (fst (detectSetOutliers clusters flat f s)).
Proof.
  intros Hnd. unfold detectSetOutliers. destruct (_ =? 0); [done|]. cbv zeta. simpl. intros [= <-] v Hv.
  set (pop := set_pop clusters flat f) in *. set (n := size (as_map pop)) in *. set (cons := consensus_of pop n) in *.
  apply list_elem_of_fmap in Hv as ([c items] & -> & Hin).
  assert (Hk : NoDup (map fst pop)) by by apply population_keys.
  cbn [set_value cv_Outlier cv_Cluster fst snd].
  rewrite (judge_iff _ s f (set_judges s f n cons) pop c items Hk Hin). unfold set_outlier. cbn [snd].
  by destruct (0 <? _).
Qed.

(** ** Facts: the mode *)

Lemma str_ltb_spec a b : str_ltb a b = true <-> String.compare a b = Lt.
Proof. unfold str_ltb. destruct (String.compare a b); split; congruence. Qed.

(** The most common value, the smallest of the most common when several are. *)
Definition is_mode (order : list (string * nat)) (v : string) (n : nat) : Prop :=
  (v, n) ∈ order /\ forall w k, (w, k) ∈ order -> k < n \/ (k = n /\ cmp_le String.compare v w).

Lemma dominant_fold order acc : (forall w k, (w, k) ∈ order -> 0 < k) ->
  let r := fold_left dominant_step order acc in
  (r = acc \/ r ∈ order) /\
  forall w k, (w, k) = acc \/ (w, k) ∈ order -> k < snd r \/ (k = snd r /\ cmp_le String.compare (fst r) w).
Proof.
  revert acc. induction order as [|[v n] order IH]; intros [mode best] Hpos; cbn [fold_left].
  { split; [by left|]. intros w k [[= -> ->]|H]; [right; split; [done|apply cmp_le_refl; exact _]|by apply elem_of_nil in H]. }
  specialize (IH (dominant_step (mode, best) (v, n))) as [H1 H2]; [intros w k H; apply (Hpos w); by right|].
  set (r := fold_left dominant_step order _) in *.
  assert (Hstep : dominant_step (mode, best) (v, n) = (v, n) \/ dominant_step (mode, best) (v, n) = (mode, best)).
  { unfold dominant_step. destruct (_ || _); auto. }
  split.
  - destruct H1 as [H1|H1]; [|by right; right]. rewrite H1.
    destruct Hstep as [->| ->]; [right; left|by left].
  - assert (Hge : forall w k, (w, k) = (mode, best) \/ (w, k) = (v, n) ->
      k < snd r \/ (k = snd r /\ cmp_le String.compare (fst r) w)).
    { intros w k Hwk. specialize (H2 (fst (dominant_step (mode, best) (v, n))) (snd (dominant_step (mode, best) (v, n)))).
      rewrite <- surjective_pairing in H2. specialize (H2 (or_introl eq_refl)).
      unfold dominant_step in H2. destruct (Nat.ltb_spec best n) as [Hlt|Hge]; simpl in H2.
      - destruct Hwk as [[= -> ->]|[= -> ->]]; [lia|done].
      - destruct (Nat.eqb_spec n best) as [->|Hne]; simpl in H2.
        + destruct (str_ltb v mode) eqn:El; simpl in H2; destruct Hwk as [[= -> ->]|[= -> ->]]; try done.
          * apply str_ltb_spec in El. destruct H2 as [H2|[H2 H3]]; [by left|right]. split; [done|].
            etransitivity; [exact H3|]. unfold cmp_le. by rewrite El.
          * destruct H2 as [H2|[H2 H3]]; [by left|right]. split; [done|]. etransitivity; [exact H3|].
            apply less_of_false; [exact _|]. exact El.
        + destruct Hwk as [[= -> ->]|[= -> ->]]; [done|lia]. }
    intros w k [Hwk|Hwk]; [apply Hge; by left|]. apply elem_of_cons in Hwk as [Hwk|Hwk]; [apply Hge; by right|].
    apply H2. by right.
Qed.

Lemma dominant_is_mode order : order <> [] -> (forall w k, (w, k) ∈ order -> 0 < k) ->
  exists n, is_mode order (dominant_in order) n.
Proof.
  intros Hne Hpos. unfold dominant_in. destruct (dominant_fold order ("", 0) Hpos) as [[H1|H1] H2].
  - exfalso. destruct order as [|[w k] order]; [done|]. rewrite H1 in H2.
    specialize (Hpos w k (list_elem_of_here _ _)). specialize (H2 w k (or_intror (list_elem_of_here _ _))). simpl in H2. lia.
  - exists (snd (fold_left dominant_step order ("", 0))). split; [by rewrite <- surjective_pairing|].
    intros w k H. apply H2. by right.
Qed.

Lemma is_mode_unique o1 o2 v1 n1 v2 n2 : o1 ≡ₚ o2 -> is_mode o1 v1 n1 -> is_mode o2 v2 n2 -> v1 = v2 /\ n1 = n2.
Proof.
  intros Hp [H1 M1] [H2 M2]. rewrite <- Hp in H2. specialize (M1 _ _ H2). rewrite Hp in H1. specialize (M2 _ _ H1).
  assert (n1 = n2) as -> by lia. split; [|done].
  destruct M1 as [|[_ M1]]; [lia|]. destruct M2 as [|[_ M2]]; [lia|]. unfold cmp_le in *.
  rewrite (cmp_anti (c:=String.compare) v1 v2) in M2. destruct (String.compare v1 v2) eqn:E; simpl in *; try done.
  by apply String.compare_eq_iff.
Qed.

Lemma count_texts_lookup vals v : count_texts vals !! v =
  match length (List.filter (String.eqb v) vals) with O => None | n => Some n end.
Proof.
  unfold count_texts. rewrite <- (rev_involutive vals).
  induction (rev vals) as [|x l IH]; cbn [rev]; [done|]. rewrite fold_left_app, List.filter_app, length_app. cbn [fold_left].
  destruct (String.eqb_spec v x) as [->|Hne].
  - rewrite lookup_insert_eq, IH. simpl. rewrite String.eqb_refl. simpl. rewrite Nat.add_1_r. by destruct (length _).
  - rewrite lookup_insert_ne by congruence. rewrite IH. simpl. destruct (String.eqb_spec v x); [congruence|].
    simpl. by rewrite Nat.add_0_r.
Qed.

(** Populations as large as any fleet: the shares of a trillion clusters still
    compare exactly. *)
Definition max_population : Z := 2 ^ 40.

Lemma mass_threshold k n : 0 < n -> (Z.of_nat n <= max_population)%Z -> k <= n ->
  f_ltb (share_of k n) minStringModeMass = true <-> 5 * k < 3 * n.
Proof.
  intros Hn HN Hk. change minStringModeMass with (SpecFloat.S754_finite false 5404319552844595 (-53)).
  rewrite (share_below _ (SpecFloat.S754_finite false 5404319552844594 (-53)) 3 5 max_population);
    [lia|vm_compute; reflexivity|lia|done].
Qed.

(** The consensus cutoff is three clusters in five, rounded up. *)
Definition max_checked : nat := 4096.

Lemma consensus_threshold_spec n : n <= max_checked ->
  forall k, (consensus_threshold n <= Z.of_nat k)%Z <-> 3 * n <= 5 * k.
Proof.
  intros Hn k. assert (Forall (fun n => consensus_threshold n = ((3 * Z.of_nat n + 4) / 5)%Z) (seq 0 (S max_checked))) as H.
  { apply (bool_decide_unpack _). vm_compute. exact I. }
  rewrite Forall_forall in H. rewrite (H n) by (apply elem_of_seq; lia).
  pose proof (Z.div_mod (3 * Z.of_nat n + 4) 5 ltac:(lia)). pose proof (Z.mod_pos_bound (3 * Z.of_nat n + 4) 5). lia.
Qed.

Lemma filter_count_le {A} (p : A -> bool) l : length (List.filter p l) <= length l.
Proof. induction l as [|x l IH]; simpl; [lia|]. destruct (p x); simpl; lia. Qed.

Lemma filter_negb {A} (p : A -> bool) l :
  length (List.filter p l) + length (List.filter (fun x => negb (p x)) l) = length l.
Proof. induction l as [|x l IH]; simpl; [lia|]. destruct (p x); simpl; lia. Qed.

Lemma filter_map_length {A B} (g : A -> B) (p : B -> bool) l :
  length (List.filter p (map g l)) = length (List.filter (fun x => p (g x)) l).
Proof. induction l as [|x l IH]; simpl; [done|]. destruct (p (g x)); simpl; lia. Qed.

Lemma count_default vals v : default 0 (count_texts vals !! v) = length (List.filter (String.eqb v) vals).
Proof. rewrite count_texts_lookup. by destruct (length _). Qed.

Lemma string_outlier_count s f n mode share pop :
  length (flat_map (string_outlier s f n mode share) pop) =
  length (List.filter (fun cv => negb (String.eqb mode (snd cv))) pop).
Proof.
  induction pop as [|[c v] pop IH]; simpl; [done|]. rewrite (String.eqb_sym v mode).
  destruct (String.eqb mode v); simpl; lia.
Qed.

(** ** Facts: sets *)

Lemma consensus_in pop n i : n <= max_checked -> 0 < n ->
  i ∈ consensus_of pop n <-> 3 * n <= 5 * length (List.filter (String.eqb i) (flat_map snd pop)).
Proof.
  intros Hn Hpos. unfold consensus_of. rewrite sort_strings_elem_of, list_elem_of_fmap.
  setoid_rewrite list_elem_of_In. setoid_rewrite filter_In. setoid_rewrite Z.leb_le. split.
  - intros ([j k] & -> & Hin & Hk). apply list_elem_of_In, elem_of_map_to_list in Hin. unfold item_counts in Hin.
    rewrite count_texts_lookup in Hin. cbn [fst snd] in *. apply consensus_threshold_spec in Hk; [|done].
    destruct (length (List.filter (String.eqb j) _)); simplify_eq. lia.
  - intros Hk. exists (i, length (List.filter (String.eqb i) (flat_map snd pop))). split; [done|]. split.
    + apply list_elem_of_In, elem_of_map_to_list. unfold item_counts. rewrite count_texts_lookup.
      destruct (length _) eqn:E; [simpl in Hk; lia|done].
    + by apply consensus_threshold_spec.
Qed.

Lemma missing_in consensus items i : i ∈ missing_from consensus items <-> i ∈ consensus /\ i ∉ items.
Proof.
  unfold missing_from. rewrite list_elem_of_In, filter_In, <- list_elem_of_In, negb_true_iff, bool_decide_eq_false. done.
Qed.

(** ** Facts: order independence *)

Definition outlier_key (o : OutlierResult) : string * string * string := (or_Scanner o, or_Field o, or_Cluster o).

Lemma outlier_cmp_eq o1 o2 : outlier_cmp o1 o2 = Eq -> outlier_key o1 = outlier_key o2.
Proof.
  unfold outlier_cmp, cmp_lex, cmp_then, cmp_rev, cmp_on, outlier_key.
  destruct (Nat.compare _ _); try done. destruct (String.compare (or_Scanner o1) _) eqn:E1; try done.
  destruct (String.compare (or_Cluster o1) _) eqn:E2; try done. intros E3.
  by rewrite (cmp_eq _ _ E1), (cmp_eq _ _ E2), (cmp_eq _ _ E3).
Qed.

Lemma sortOutliers_perm l1 l2 : NoDup (map outlier_key l1) -> l1 ≡ₚ l2 -> sortOutliers l1 = sortOutliers l2.
Proof.
  intros Hn Hp. apply isort_perm_eq; [exact _| |done].
  intros x y Hx Hy E. eapply (NoDup_map_inj outlier_key l1); try done. by apply outlier_cmp_eq.
Qed.

Definition place_ok (v : string * string * flatMap) (os : list OutlierResult) : Prop :=
  (forall o, o ∈ os -> or_Scanner o = fst (fst v) /\ or_Field o = snd (fst v)) /\ NoDup (map or_Cluster os).

Lemma place_ok_nil v : place_ok v [].
Proof. split; [by intros o ?%elem_of_nil|constructor]. Qed.

Lemma place_ok_judge {A} (g : string * A -> list OutlierResult) v pop :
  judges g (fst (fst v)) (snd (fst v)) -> NoDup (map fst pop) -> place_ok v (flat_map g pop).
Proof.
  intros Hg Hn. split; [|by eapply judge_NoDup].
  intros o Ho. by destruct (judge_place g _ _ Hg pop o Ho) as (? & ? & ?).
Qed.

Lemma place_ok_perm v l1 l2 : l1 ≡ₚ l2 -> place_ok v l2 -> place_ok v l1.
Proof. intros Hp [H1 H2]. split; [intros o; rewrite Hp; apply H1|by rewrite (Permutation_map or_Cluster Hp)]. Qed.

Lemma detect_field_place clusters t v : NoDup clusters -> place_ok v (fst (detect_field clusters t v)).
Proof.
  intros Hnd. destruct v as [[s f] flat]. unfold detect_field.
  destruct (isNumericInFlat _ _ _); [|destruct (isArrayInFlat _ _ _)].
  - rewrite numeric_results. cbv zeta. pose proof (num_pop_keys clusters flat f Hnd) as Hk.
    destruct (_ <? _); [apply place_ok_nil|]. destruct (f_eqb _ _).
    + destruct (f_ltb _ _); [apply place_ok_nil|]. apply place_ok_judge; [apply exact_judges|done].
    + apply place_ok_judge; [apply numeric_judges|]. by rewrite as_map_perm.
  - unfold detectSetOutliers. destruct (_ =? 0); [apply place_ok_nil|]. cbv zeta.
    apply place_ok_judge; [apply set_judges|by apply population_keys].
  - eapply place_ok_perm; [by apply string_results|]. cbv zeta. destruct (_ || _); [apply place_ok_nil|].
    apply place_ok_judge; [apply string_judges|by apply population_keys].
Qed.

Lemma raw_keys clusters t vs : NoDup clusters -> NoDup (map visit_key vs) ->
  NoDup (map outlier_key (flat_map (fun v => fst (detect_field clusters t v)) vs)).
Proof.
  intros Hnd. induction vs as [|v vs IH]; simpl; [constructor|]. intros [Hv Hvs]%NoDup_cons.
  rewrite map_app. apply NoDup_app. destruct (detect_field_place clusters t v Hnd) as [H1 H2]. split_all.
  - apply (NoDup_fmap_1 snd). rewrite <- list_fmap_compose. exact H2.
  - intros k (o & -> & Ho)%list_elem_of_fmap (o' & Hk & Ho')%list_elem_of_fmap.
    apply list_elem_of_In, in_flat_map in Ho' as (v' & Hv' & Ho'). apply list_elem_of_In in Hv', Ho'.
    destruct (detect_field_place clusters t v' Hnd) as [H1' _].
    destruct (H1 _ Ho) as [Hs Hf], (H1' _ Ho') as [Hs' Hf']. unfold outlier_key in Hk.
    apply Hv. apply list_elem_of_fmap. exists v'. split; [|done]. unfold visit_key.
    destruct v as [[s f] m], v' as [[s' f'] m']. simpl in *. congruence.
  - by apply IH.
Qed.

(** ** Facts: where a result comes from *)

(** The section of a scanner holds a payload of the cluster. *)
Definition has_payload (r : Report) (scannerName cluster : string) : Prop :=
  exists sec, rp_Sections r !! scannerName = Some sec /\ is_Some (sr_PerCluster sec !! cluster).

Lemma flat_get_some flat c f v : flat_get flat c f = Some v -> is_Some (flat !! c).
Proof. unfold flat_get. destruct (flat !! c); [done|]. simpl. by rewrite lookup_empty. Qed.

(** A population has entries only of clusters with a payload. *)
Lemma population_known {A} (get : option json -> option A) clusters flat f pop c : get None = None ->
  pop = population (fun c => get (flat_get flat c f)) clusters -> c ∈ map fst pop ->
  c ∈ clusters /\ is_Some (flat !! c).
Proof.
  intros Hnone -> ([c' a] & -> & [Hc Ha]%population_in)%list_elem_of_fmap. split; [done|]. simpl.
  destruct (flat_get flat c' f) eqn:E; [by eapply flat_get_some|congruence].
Qed.

Lemma as_map_keys {A} (pop : list (string * A)) c : c ∈ map fst (map_to_list (as_map pop)) -> c ∈ map fst pop.
Proof.
  intros ([c' a] & -> & H%elem_of_map_to_list%elem_of_list_to_map_2)%list_elem_of_fmap.
  apply list_elem_of_fmap. by exists (c', a).
Qed.

(** Every result of a visit names its scanner and a listed cluster whose payload was flattened. *)
Lemma detect_field_known clusters t v o : o ∈ fst (detect_field clusters t v) ->
  or_Scanner o = fst (fst v) /\ or_Cluster o ∈ clusters /\ is_Some (snd v !! or_Cluster o).
Proof.
  destruct v as [[s f] flat]. unfold detect_field. cbn [fst snd].
  destruct (isNumericInFlat _ _ _); [|destruct (isArrayInFlat _ _ _)].
  - rewrite numeric_results. cbv zeta. destruct (_ <? _); [by intros ?%elem_of_nil|]. destruct (f_eqb _ _).
    + destruct (f_ltb _ _); [by intros ?%elem_of_nil|].
      intros (-> & _ & Hc)%(judge_place _ s f (exact_judges _ _ _ _ _)). split; [done|].
      by apply (population_known util_Float64 clusters flat f _ _ eq_refl eq_refl).
    + intros (-> & _ & Hc%as_map_keys)%(judge_place _ s f (numeric_judges _ _ _ _ _ _)). split; [done|].
      by apply (population_known util_Float64 clusters flat f _ _ eq_refl eq_refl).
  - unfold detectSetOutliers. destruct (_ =? 0); [by intros ?%elem_of_nil|]. cbn [fst].
    intros (-> & _ & Hc)%(judge_place _ s f (set_judges _ _ _ _)). split; [done|].
    by apply (population_known (@fmap option _ json (list string) items_of) clusters flat f _ _ eq_refl eq_refl).
  - unfold detectStringOutliers. destruct (_ || _); [by intros ?%elem_of_nil|]. cbv zeta.
    destruct (_ || _); [by intros ?%elem_of_nil|]. cbn [fst].
    intros (-> & _ & Hc%as_map_keys)%(judge_place _ s f (string_judges _ _ _ _ _)). split; [done|].
    by apply (population_known text_of clusters flat f _ _ eq_refl eq_refl).
Qed.

(** The walk flattens payloads of the listed clusters. *)
Lemma walk_known r clusters k v c : v ∈ walkFields r clusters k -> is_Some (snd v !! c) ->
  c ∈ clusters /\ has_payload r (fst (fst v)) c.
Proof.
  destruct v as [[s f] flat]. intros (sec & Hsec & _ & _ & -> & _)%walkFields_in. cbn [fst snd].
  unfold section_flat. rewrite boundDegraded_lookup, fmap_is_Some, prepareFlat_keys, flattenSection_lookup.
  case_bool_decide; [|by intros [? ?]]. rewrite fmap_is_Some. intros H'. split; [done|]. by exists sec.
Qed.

(** Every outlier of the fleet or a cohort names a listed cluster and a scanner with its payload. *)
Lemma detectOutliers_known r clusters t scope o : o ∈ fst (detectOutliers r clusters t scope) ->
  or_Cluster o ∈ clusters /\ has_payload r (or_Scanner o) (or_Cluster o).
Proof.
  unfold detectOutliers. cbn [fst]. unfold sortOutliers. rewrite isort_elem_of, list_elem_of_fmap.
  intros (o' & -> & (v & Hv & Ho)%list_elem_of_In%in_flat_map). apply list_elem_of_In in Hv, Ho.
  apply detect_field_known in Ho as (Hs & _ & Hk). destruct (walk_known _ _ _ _ _ Hv Hk) as [Hc Hp].
  cbn [with_scope or_Cluster or_Scanner]. by rewrite Hs.
Qed.

(** ** Properties *)

Module Detectors.

(** C18: a numeric field flags exactly the clusters off its norm. With fewer than eight
    readings nothing is flagged. With spread, a cluster is flagged when its modified z-score
    exceeds the threshold. Where the median absolute deviation is zero, nothing is flagged
    unless at least three in five readings equal the median, and then every cluster whose
    reading does not equal it is. *)
Theorem numeric_outlier_iff clusters flat f s t c v : NoDup clusters -> (c, v) ∈ num_pop clusters flat f ->
  let pop := num_pop clusters flat f in
  let median := Median (map snd pop) in
  let mad := computeMAD (map snd pop) median in
  c ∈ map or_Cluster (fst (detectNumericOutliers clusters flat f s t)) <->
  8 <= length pop /\
  if f_eqb mad f_zero
  then f_ltb (share_of (count_eq median pop) (length pop)) minStringModeMass = false /\ f_eqb v median = false
  else f_ltb t (f_abs (cappedZ (mod_z v median mad))) = true.
Proof.
  intros Hnd Hin. cbv zeta. pose proof (num_pop_keys clusters flat f Hnd) as Hk.
  rewrite numeric_results. cbv zeta. rewrite !length_map. unfold minMADSample.
  destruct (Nat.ltb_spec (length (num_pop clusters flat f)) 8) as [Hlt|Hge].
  { split; [by intros ?%elem_of_nil|lia]. }
  destruct (f_eqb _ f_zero).
  - destruct (f_ltb (share_of _ _) _); [split; [by intros ?%elem_of_nil|naive_solver]|].
    rewrite (judge_iff _ s f (exact_judges _ _ _ _ _) _ c v Hk Hin). unfold exact_outlier.
    destruct (f_eqb v _); [naive_solver|]. destruct (numericSeverity _ _ _). naive_solver.
  - assert (Hk' : NoDup (map fst (map_to_list (as_map (num_pop clusters flat f))))) by by rewrite as_map_perm.
    assert (Hin' : (c, v) ∈ map_to_list (as_map (num_pop clusters flat f))) by by rewrite as_map_perm.
    rewrite (judge_iff _ s f (numeric_judges _ _ _ _ _ _) _ c v Hk' Hin'). unfold numeric_outlier.
    destruct (f_ltb t _); [|by split; [|intros [_ ?]]]. destruct (numericSeverity _ _ _).
    split; [by intros _; split|by intros _].
Qed.

(** The marks are the findings: in the distribution a detector returns, a
    cluster's value is marked exactly when a result names that cluster, and a field
    without a distribution has no results. *)
Theorem marks_agree clusters t v : NoDup clusters ->
  match detect_field clusters t v with
  | (os, Some d) => marks d os
  | (os, None) => os = []
  end.
Proof.
  intros Hnd. destruct v as [[s f] flat]. unfold detect_field.
  destruct (isNumericInFlat _ _ _); [|destruct (isArrayInFlat _ _ _)].
  - pose proof (numeric_marks clusters flat f s t) as H.
    destruct (detectNumericOutliers _ _ _ _ _) as [os [d|]] eqn:E; [by apply H|].
    unfold detectNumericOutliers in E. destruct (_ <? _); [congruence|]. cbv zeta in E.
    destruct (f_eqb _ _); [|congruence]. by destruct (exactOutliers _ _ _ _ _).
  - pose proof (set_marks clusters flat f s) as H.
    destruct (detectSetOutliers _ _ _ _) as [os [d|]] eqn:E; [by apply H|].
    unfold detectSetOutliers in E. destruct (_ =? 0); congruence.
  - pose proof (string_marks clusters flat f s) as H.
    destruct (detectStringOutliers _ _ _ _) as [os [d|]] eqn:E; [by apply H|].
    unfold detectStringOutliers in E. destruct (_ || _); [congruence|]. cbv zeta in E. destruct (_ || _); congruence.
Qed.

(** A string field never flags a majority: when it flags anyone, at least
    three in five hold the mode, and the flagged are exactly the others, at most
    two in five. *)
Theorem string_outlier_minority clusters flat f s : NoDup clusters ->
  (Z.of_nat (length (str_pop clusters flat f)) <= max_population)%Z ->
  let pop := str_pop clusters flat f in
  let os := fst (detectStringOutliers clusters flat f s) in
  5 * length os <= 2 * length pop /\
  (os <> [] -> exists mode, 3 * length pop <= 5 * length (List.filter (fun cv => String.eqb mode (snd cv)) pop) /\
    forall c v, (c, v) ∈ pop -> c ∈ map or_Cluster os <-> v <> mode).
Proof.
  intros Hnd Hsize. cbv zeta. pose proof (string_results clusters flat f s Hnd) as Hp. cbv zeta in Hp.
  assert (Hk : NoDup (map fst (str_pop clusters flat f))) by by apply population_keys.
  rewrite count_default, filter_map_length in Hp. set (pop := str_pop clusters flat f) in *.
  set (mode := dominantString _) in *. set (os := fst (detectStringOutliers clusters flat f s)) in *. clearbody os.
  assert (Hnil : os = [] -> 5 * length os <= 2 * length pop /\ (os <> [] -> exists mode : string,
    3 * length pop <= 5 * length (List.filter (fun cv => String.eqb mode (snd cv)) pop) /\
    forall c v, (c, v) ∈ pop -> c ∈ map or_Cluster os <-> v <> mode)) by (intros ->; split; [simpl; lia|done]).
  destruct (_ <=? 1); [by apply Hnil, Permutation_nil_r|].
  destruct (Nat.eqb_spec (length pop) 0); [by apply Hnil, Permutation_nil_r|].
  destruct (String.eqb mode ""); [by apply Hnil, Permutation_nil_r|]. cbn [orb] in Hp.
  pose proof (mass_threshold (length (List.filter (fun cv => String.eqb mode (snd cv)) pop)) (length pop)
    ltac:(lia) Hsize (filter_count_le _ _)) as Hmass.
  destruct (f_ltb _ _); [by apply Hnil, Permutation_nil_r|].
  assert (3 * length pop <= 5 * length (List.filter (fun cv => String.eqb mode (snd cv)) pop)) as H5.
  { destruct (Nat.le_gt_cases (3 * length pop) (5 * length (List.filter (fun cv => String.eqb mode (snd cv)) pop)))
      as [|Hgt]; [done|]. by apply Hmass in Hgt. }
  pose proof (filter_negb (fun cv : string * string => String.eqb mode (snd cv)) pop) as Hneg.
  rewrite (Permutation_length Hp), string_outlier_count. split; [lia|]. intros _. exists mode. split; [done|].
  intros c v Hin. assert (c ∈ map or_Cluster os <-> c ∈ map or_Cluster (flat_map (string_outlier s f (length pop) mode
    (share_of (length (List.filter (fun cv => String.eqb mode (snd cv)) pop)) (length pop))) pop)) as ->.
  { by rewrite (Permutation_map or_Cluster Hp). }
  rewrite (judge_iff _ s f (string_judges _ _ _ _ _) pop c v Hk Hin). unfold string_outlier.
  destruct (String.eqb_spec v mode); naive_solver.
Qed.

(** The mode does not depend on the order Go's map gives the counts: it is
    the most common value, and among equally common ones the smallest. *)
Theorem dominant_order_free vals order : order ≡ₚ map_to_list (count_texts vals) ->
  dominant_in order = dominantString (count_texts vals) /\
  (vals <> [] -> dominant_in order ∈ vals /\ forall w, w ∈ vals ->
     let count x := length (List.filter (String.eqb x) vals) in
     count w < count (dominant_in order) \/
     (count w = count (dominant_in order) /\ cmp_le String.compare (dominant_in order) w)).
Proof.
  intros Hp. set (counts := count_texts vals) in *.
  assert (Hin : forall w k, (w, k) ∈ map_to_list counts <-> k = length (List.filter (String.eqb w) vals) /\ 0 < k).
  { intros w k. rewrite elem_of_map_to_list. unfold counts. rewrite count_texts_lookup.
    destruct (length (List.filter (String.eqb w) vals)); split; intros; simplify_eq; naive_solver lia. }
  assert (Hpos : forall w k, (w, k) ∈ order -> 0 < k) by (intros w k; rewrite Hp, Hin; naive_solver).
  assert (Hocc : forall w, w ∈ vals <-> 0 < length (List.filter (String.eqb w) vals)).
  { intros w. pose proof (filter_none (String.eqb w) vals) as Hn. split.
    - intros Hw. destruct (length (List.filter (String.eqb w) vals)) eqn:E; [|lia].
      pose proof (proj1 Hn eq_refl w Hw) as H. by rewrite String.eqb_refl in H.
    - intros Hl. destruct (decide (w ∈ vals)) as [|Hnw]; [done|].
      assert (length (List.filter (String.eqb w) vals) = 0); [|lia]. apply Hn. intros x Hx.
      destruct (String.eqb_spec w x) as [->|]; done. }
  destruct (decide (order = [])) as [->|Hne].
  { apply Permutation_nil_l in Hp.  unfold dominantString. rewrite <- ?Hp. split; [done|]. intros Hv. exfalso.
    destruct vals as [|x vals]; [done|]. assert ((x, length (List.filter (String.eqb x) (x :: vals))) ∈ map_to_list counts) as H.
    { apply Hin. split; [done|]. apply Hocc. by left. }
    rewrite <- Hp in H. by apply elem_of_nil in H. }
  destruct (dominant_is_mode order Hne Hpos) as [n1 M1]. split.
  - unfold dominantString. destruct (dominant_is_mode (map_to_list counts)) as [n2 M2].
    + intros E. rewrite E in Hp. by apply Permutation_nil_r in Hp.
    + intros w k H. apply (Hpos w k). by rewrite Hp.
    + by apply (is_mode_unique _ _ _ _ _ _ Hp M1 M2).
  - intros _. destruct M1 as [Hm M1]. set (m := dominant_in order) in *. clearbody m. rewrite Hp, Hin in Hm. destruct Hm as [-> Hm]. split; [by apply Hocc|].
    intros w Hw. cbv zeta. apply M1. rewrite Hp, Hin. split; [done|]. by apply Hocc.
Qed.

(** A set field flags exactly the clusters that lack a consensus member, one
    named at least [ceil (3 n / 5)] times in the population's [n] lists, and lists
    exactly the members the cluster lacks. *)
Theorem set_outlier_iff clusters flat f s c items : NoDup clusters -> (c, items) ∈ set_pop clusters flat f ->
  length (set_pop clusters flat f) <= max_checked ->
  let pop := set_pop clusters flat f in
  let os := fst (detectSetOutliers clusters flat f s) in
  let consensus i := 3 * length pop <= 5 * length (List.filter (String.eqb i) (flat_map snd pop)) in
  (c ∈ map or_Cluster os <-> exists i, consensus i /\ i ∉ items) /\
  (forall o, o ∈ os -> or_Cluster o = c -> forall i, i ∈ or_Missing o <-> consensus i /\ i ∉ items).
Proof.
  intros Hnd Hin Hsize. cbv zeta. set (pop := set_pop clusters flat f) in *.
  assert (Hk : NoDup (map fst pop)) by by apply population_keys.
  assert (Hpos : 0 < length pop) by (destruct pop; [by apply elem_of_nil in Hin|simpl; lia]).
  unfold detectSetOutliers. fold pop. rewrite (as_map_size pop Hk).
  destruct (Nat.eqb_spec (length pop) 0); [lia|]. cbv zeta. cbn [fst].
  set (cons := consensus_of pop (length pop)).
  assert (Hmiss : forall i its, i ∈ missing_from cons its <->
    3 * length pop <= 5 * length (List.filter (String.eqb i) (flat_map snd pop)) /\ i ∉ its).
  { intros i its. rewrite missing_in. unfold cons. by rewrite consensus_in. }
  split.
  - rewrite (judge_iff _ s f (set_judges _ _ _ _) pop c items Hk Hin). unfold set_outlier. cbn [fst snd].
    setoid_rewrite <- Hmiss. destruct (missing_from cons items) as [|i l]; simpl.
    + split; [done|]. by intros [? ?%elem_of_nil].
    + split; [|done]. intros _. exists i. by left.
  - intros o Ho Hc i. apply list_elem_of_In, in_flat_map in Ho as ([c' items'] & Hin' & Ho).
    apply list_elem_of_In in Hin'. unfold set_outlier in Ho. cbn [fst snd] in Ho.
    destruct (0 <? _); [|done]. destruct Ho as [<-|[]]. cbn [or_Cluster or_Missing] in *. subst c'.
    assert (items' = items) as -> by (eapply NoDup_fst_inv; eauto). apply Hmiss.
Qed.

(** The outliers of a report do not depend on the order Go ranges over its
    maps: any arrangement of the same results sorts to the same list. *)
Theorem detect_order_free r clusters t scope raw : NoDup clusters ->
  raw ≡ₚ flat_map (fun v => fst (detect_field clusters t v)) (walkFields r clusters minMADSample) ->
  sortOutliers (map (with_scope scope) raw) = fst (detectOutliers r clusters t scope).
Proof.
  intros Hnd Hp. unfold detectOutliers. cbn [fst]. apply sortOutliers_perm; [|by apply Permutation_map].
  rewrite map_map. change (fun x => outlier_key (with_scope scope x)) with outlier_key.
  rewrite (Permutation_map outlier_key Hp). apply raw_keys; [done|]. apply walkFields_keys.
Qed.

(** ** Witnesses: eight clusters *)

Definition eight : list string := ["c1"; "c2"; "c3"; "c4"; "c5"; "c6"; "c7"; "c8"].

Definition flat_with (vs : list json) : flatMap :=
  list_to_map (zip eight (map (fun v => {[ "x" := v ]}) vs)).

Definition num_flat : flatMap := flat_with (map (fun z => JNum (f_of_Z z)) [1; 2; 3; 4; 5; 6; 7; 100]%Z).
Definition str_flat : flatMap := flat_with (map JStr ["a"; "a"; "a"; "a"; "a"; "a"; "b"; "c"]).

(** One cluster lists the same member five times. *)
Definition dup_flat : flatMap :=
  flat_with (JArr (map JStr ["m"; "m"; "m"; "m"; "m"]) :: map (fun _ => JArr []) (seq 0 7)).

Lemma eight_NoDup : NoDup eight.
Proof. apply (bool_decide_unpack _). vm_compute. exact I. Qed.

(** The consensus counts occurrences, not clusters: a member only one cluster in
    eight lists, five times over, becomes the norm, and the seven clusters without
    it are flagged. *)
Lemma consensus_counts_occurrences :
  length (List.filter (fun ci => bool_decide ("m" ∈ snd ci)) (set_pop eight dup_flat "x")) = 1 /\
  map or_Cluster (fst (detectSetOutliers eight dup_flat "x" "crds")) = ["c2"; "c3"; "c4"; "c5"; "c6"; "c7"; "c8"].
Proof. split; vm_compute; reflexivity. Qed.

Lemma in_list {A} `{EqDecision A} (x : A) (l : list A) : bool_decide (x ∈ l) = true -> x ∈ l.
Proof. apply bool_decide_eq_true_1. Qed.

Lemma numeric_outlier_iff_witness :
  ("c8", f_of_Z 100) ∈ num_pop eight num_flat "x" /\
  "c8" ∈ map or_Cluster (fst (detectNumericOutliers eight num_flat "x" "s" (f_const 7 2))).
Proof.
  assert (Hin : ("c8", f_of_Z 100) ∈ num_pop eight num_flat "x").
  { apply population_in. split; [apply in_list; vm_compute; reflexivity|vm_compute; reflexivity]. }
  split; [exact Hin|].
  apply (numeric_outlier_iff eight num_flat "x" "s" (f_const 7 2) "c8" (f_of_Z 100) eight_NoDup Hin).
  vm_compute. split; [apply le_n|reflexivity].
Defined.

Lemma marks_agree_witness :
  match detect_field eight (f_const 7 2) ("s", "x", num_flat) with (os, Some d) => marks d os | (os, None) => os = [] end.
Proof. exact (marks_agree eight (f_const 7 2) ("s", "x", num_flat) eight_NoDup). Defined.

Lemma string_outlier_minority_witness :
  (Z.of_nat (length (str_pop eight str_flat "x")) <= max_population)%Z /\
  length (fst (detectStringOutliers eight str_flat "x" "s")) = 2 /\
  5 * length (fst (detectStringOutliers eight str_flat "x" "s")) <= 2 * length (str_pop eight str_flat "x").
Proof.
  assert (Hs : (Z.of_nat (length (str_pop eight str_flat "x")) <= max_population)%Z) by (vm_compute; discriminate).
  split; [exact Hs|]. split; [vm_compute; reflexivity|].
  exact (proj1 (string_outlier_minority eight str_flat "x" "s" eight_NoDup Hs)).
Defined.

Lemma dominant_order_free_witness :
  dominant_in (rev (map_to_list (count_texts ["b"; "a"; "a"; "b"; "c"]))) = "a" /\
  dominant_in (rev (map_to_list (count_texts ["b"; "a"; "a"; "b"; "c"]))) = dominantString (count_texts ["b"; "a"; "a"; "b"; "c"]).
Proof.
  split; [vm_compute; reflexivity|].
  apply (dominant_order_free ["b"; "a"; "a"; "b"; "c"]). symmetry. apply Permutation_rev.
Defined.

Lemma set_outlier_iff_witness :
  ("c2", []) ∈ set_pop eight dup_flat "x" /\ "c2" ∈ map or_Cluster (fst (detectSetOutliers eight dup_flat "x" "s")).
Proof.
  assert (Hin : ("c2", []) ∈ set_pop eight dup_flat "x").
  { apply population_in. split; [apply in_list; vm_compute; reflexivity|vm_compute; reflexivity]. }
  assert (Hs : length (set_pop eight dup_flat "x") <= max_checked).
  { apply Nat.leb_le. vm_compute. reflexivity. }
  split; [exact Hin|].
  destruct (set_outlier_iff eight dup_flat "x" "s" "c2" [] eight_NoDup Hin Hs) as [H _]. apply H.
  exists "m". split; [|by intros ?%elem_of_nil]. apply Nat.leb_le. vm_compute. reflexivity.
Defined.

Lemma detect_order_free_witness :
  sortOutliers (map (with_scope "fleet") []) = fst (detectOutliers report_zero eight (f_const 7 2) "fleet").
Proof. apply (detect_order_free report_zero eight (f_const 7 2) "fleet" [] eight_NoDup). vm_compute. reflexivity. Defined.

End Detectors.
