(* ===== verification/SmallFleet.v ===== *)
(** * internal/report/smallfleet.go: the leave-one-out majority diff

    Populations of three to seven clusters are too small for a spread estimate. One
    cluster is flagged when every other agrees and it alone stands apart. *)

From Stdlib Require Import ZArith Lia String.
From stdpp Require Import base gmap strings list sets.
From S2P Require Import Prelude Float64 Ratio Text Data Fields Observe Format Population Detect.

Local Open Scope nat_scope.

Definition minMajoritySample : nat := 3.

Definition outside_sample (n : nat) : bool := (n <? minMajoritySample) || (minMADSample <=? n).

Definition with_limited (d : Distribution) : Distribution := {|
  di_Scope := di_Scope d; di_Scanner := di_Scanner d; di_Field := di_Field d; di_Kind := di_Kind d;
  di_Values := di_Values d; di_Median := di_Median d; di_MAD := di_MAD d; di_Band := di_Band d;
  di_Threshold := di_Threshold d; di_Mode := di_Mode d; di_ModeShare := di_ModeShare d;
  di_Consensus := di_Consensus d; di_SampleSize := di_SampleSize d; di_Exact := di_Exact d;
  di_LimitedSample := true; di_Mass := di_Mass d |}.

Definition majorityNumericDistribution (clusters : list string) (flat : flatMap) (field : string)
  (threshold : float64) : option Distribution :=
  let pop := num_pop clusters flat field in
  let vals := map snd pop in
  if outside_sample (length vals) then None
  else
    let m := Median vals in
    let d := computeMAD vals m in
    let dist := with_limited (with_numeric
      (dist_of NormKindNumeric (map (num_value m d) pop) (length vals) threshold) m d f_zero) in
    if f_eqb d f_zero
    then Some (with_exact dist (share_of (count_eq m pop) (length vals)) threshold)
    else Some (with_numeric dist m d (f_div (f_mul threshold d) madScale)).

Definition majorityStringDistribution (clusters : list string) (flat : flatMap) (field : string) :
  option Distribution :=
  let pop := str_pop clusters flat field in
  let counts := count_texts (map snd pop) in
  let n := length pop in
  if outside_sample n || (size counts <? 2) then None
  else
    let mode := dominantString counts in
    Some (with_limited (with_mode (dist_of NormKindString (map str_value pop) n (share_of (n - 1) n)) mode
      (share_of (default 0 (counts !! mode)) n))).

Definition withinBand (vals : list float64) (m d : float64) : bool :=
  forallb (fun v => negb (f_ltb d (f_abs (f_sub v m)))) vals.

(** One round of the loop: the result cluster [i] gives when the others agree and
    it stands apart. *)
Definition majority_candidate (threshold : float64) (pop : list (string * float64)) (i : nat) : option OutlierResult :=
  let vals := map snd pop in
  match pop !! i with
  | None => None
  | Some (name, v) =>
      let others := take i vals ++ drop (S i) vals in
      let m := Median others in
      let d := computeMAD others m in
      let result (z : float64) (exact : bool) : OutlierResult := {|
        or_Cluster := name; or_Field := ""; or_Value := formatNum v; or_FleetNorm := formatNum m;
        or_Deviation := f_abs z; or_Scanner := ""; or_Severity := ""; or_Scope := ""; or_Kind := NormKindNumeric;
        or_Median := m; or_MAD := d; or_Mode := "";
        or_ModeShare := if exact then share_of (length vals - 1) (length vals) else f_zero;
        or_Consensus := []; or_Missing := []; or_SampleSize := length vals; or_Threshold := threshold; or_Z := z;
        or_ExplainedBy := ""; or_LimitedSample := false; or_Exact := exact; or_Favorable := false |} in
      if negb (withinBand others m d) then None
      else if f_eqb v m then None
      else if f_eqb d f_zero then Some (result f_zero true)
      else
        let z := mod_z v m d in
        if f_leb (f_abs z) threshold then None else Some (result z false)
  end.

(** The loop: a second candidate returns nil at once. *)
Fixpoint majority_loop (found : option OutlierResult) (cands : list (option OutlierResult)) : option OutlierResult :=
  match cands with
  | [] => found
  | None :: cands' => majority_loop found cands'
  | Some o :: cands' => match found with Some _ => None | None => majority_loop (Some o) cands' end
  end.

Definition majorityNumericOutlier (clusters : list string) (flat : flatMap) (field : string) (threshold : float64) :
  option OutlierResult :=
  let pop := num_pop clusters flat field in
  if outside_sample (length pop) then None
  else majority_loop None (map (majority_candidate threshold pop) (seq 0 (length pop))).

Definition string_result (n : nat) (mode : string) (cv : string * string) : OutlierResult :=
  let share := share_of (n - 1) n in {|
  or_Cluster := fst cv; or_Field := ""; or_Value := snd cv; or_FleetNorm := mode; or_Deviation := f_zero;
  or_Scanner := ""; or_Severity := ""; or_Scope := ""; or_Kind := NormKindString; or_Median := f_zero;
  or_MAD := f_zero; or_Mode := mode; or_ModeShare := share; or_Consensus := []; or_Missing := [];
  or_SampleSize := n; or_Threshold := share; or_Z := f_zero; or_ExplainedBy := ""; or_LimitedSample := false;
  or_Exact := false; or_Favorable := false |}.

Definition majorityStringOutlier (clusters : list string) (flat : flatMap) (field : string) : option OutlierResult :=
  let pop := str_pop clusters flat field in
  let n := length pop in
  let counts := count_texts (map snd pop) in
  if outside_sample n || negb (size counts =? 2) then None
  else
    let mode := dominantString counts in
    if negb (default 0 (counts !! mode) =? n - 1) then None
    else string_result n mode <$> List.find (fun cv => negb (String.eqb (snd cv) mode)) pop.

(** What the caller stamps on a result. *)
Definition stamp (scannerName field scope : string) (o : OutlierResult) : OutlierResult :=
  let '(sev, fav) :=
    if String.eqb (or_Kind o) NormKindNumeric
    then numericSeverity scannerName field (f_sub (ParseFloat (or_Value o)) (or_Median o))
    else (classifySeverity scannerName field, or_Favorable o) in {|
  or_Cluster := or_Cluster o; or_Field := field; or_Value := or_Value o; or_FleetNorm := or_FleetNorm o;
  or_Deviation := or_Deviation o; or_Scanner := scannerName;
  or_Severity := if String.eqb sev SeverityCritical then SeverityWarning else sev; or_Scope := scope;
  or_Kind := or_Kind o; or_Median := or_Median o; or_MAD := or_MAD o; or_Mode := or_Mode o;
  or_ModeShare := or_ModeShare o; or_Consensus := or_Consensus o; or_Missing := or_Missing o;
  or_SampleSize := or_SampleSize o; or_Threshold := or_Threshold o; or_Z := or_Z o;
  or_ExplainedBy := or_ExplainedBy o; or_LimitedSample := true; or_Exact := or_Exact o; or_Favorable := fav |}.

(** One call of [visit]: the result, and the distribution. *)
Definition majority_field (clusters : list string) (threshold : float64) (scope : string)
  (v : string * string * flatMap) : option OutlierResult * option Distribution :=
  let '(scannerName, field, flat) := v in
  let finish (o : option OutlierResult) (dist : option Distribution) :=
    let dist := (fun d =>
      let d := with_place d scope scannerName field in
      let d := match o with Some o => markOutliers d [o] true | None => d end in
      with_mass d (massOf d)) <$> dist in
    (stamp scannerName field scope <$> o, dist) in
  if isNumericInFlat clusters flat field then
    finish (majorityNumericOutlier clusters flat field threshold)
      (majorityNumericDistribution clusters flat field threshold)
  else if isArrayInFlat clusters flat field then (None, None)
  else finish (majorityStringOutlier clusters flat field) (majorityStringDistribution clusters flat field).

Definition detectMajorityOutliers (r : Report) (clusters : list string) (threshold : float64) (scope : string) :
  list OutlierResult * list Distribution :=
  let visits := walkFields r clusters 0 in
  (sortOutliers (omap (fun v => fst (majority_field clusters threshold scope v)) visits),
   sortDistributions (omap (fun v => snd (majority_field clusters threshold scope v)) visits)).

(** ** Facts *)

Lemma outside_sample_false n : outside_sample n = false <-> 3 <= n <= 7.
Proof.
  unfold outside_sample, minMajoritySample, minMADSample.
  destruct (Nat.ltb_spec n 3), (Nat.leb_spec 8 n); simpl; split; (done || lia).
Qed.

Lemma majority_loop_spec cands found :
  majority_loop found cands =
  match found, omap id cands with
  | None, [] => None
  | None, [o] => Some o
  | Some o, [] => Some o
  | _, _ => None
  end.
Proof.
  revert found. induction cands as [|[o|] cands IH]; intros found; cbn [majority_loop]; [by destruct found| |].
  - change (omap id (Some o :: cands)) with (o :: omap id cands). destruct found; [done|].
    rewrite IH. by destruct (omap id cands).
  - change (omap id (None :: cands)) with (omap id cands). apply IH.
Qed.

(** The results the rounds give, before the loop's uniqueness test. *)
Definition candidates (threshold : float64) (pop : list (string * float64)) : list OutlierResult :=
  omap id (map (majority_candidate threshold pop) (seq 0 (length pop))).

Lemma find_some_filter {A} (p : A -> bool) l x : List.filter p l = [x] -> List.find p l = Some x.
Proof. induction l as [|y l IH]; simpl; [done|]. destruct (p y); [congruence|done]. Qed.

Lemma filter_one {A} (p : A -> bool) l : length (List.filter p l) = 1 ->
  exists x, List.filter p l = [x] /\ x ∈ l /\ p x = true /\ forall y, y ∈ l -> p y = true -> y = x.
Proof.
  intros H. destruct (List.filter p l) as [|x [|? ?]] eqn:E; try done. exists x.
  assert (Hx : List.In x (List.filter p l)) by (rewrite E; by left).
  apply filter_In in Hx as [Hx Px]. apply list_elem_of_In in Hx. split_all; try done.
  intros y Hy Py. assert (List.In y (List.filter p l)) as Hin by (apply filter_In; split; [by apply list_elem_of_In|done]).
  rewrite E in Hin. by destruct Hin as [->|[]].
Qed.

Lemma filter_cons_pop mode c v (pop : list (string * string)) : NoDup (map fst pop) -> (c, v) ∈ pop -> v <> mode ->
  (forall c' v', (c', v') ∈ pop -> c' <> c -> v' = mode) ->
  List.filter (fun cv => negb (String.eqb (snd cv) mode)) pop = [(c, v)].
Proof.
  induction pop as [|[c0 v0] pop IH]; simpl; [by intros _ ?%elem_of_nil|].
  intros [Hc0 Hnd]%NoDup_cons Hin Hv Hall. destruct (decide (c0 = c)) as [->|Hne].
  - assert (v0 = v) as ->.
    { apply elem_of_cons in Hin as [?|Hin]; [congruence|]. exfalso. apply Hc0, list_elem_of_fmap. by exists (c, v). }
    destruct (String.eqb_spec v mode); [done|]. simpl. f_equal.
    assert (length (List.filter (fun cv => negb (String.eqb (snd cv) mode)) pop) = 0) as H0.
    { apply filter_none. intros [c' v'] Hin'. simpl. rewrite negb_false_iff. apply String.eqb_eq.
      apply (Hall c' v'); [by right|]. intros ->. apply Hc0, list_elem_of_fmap. by exists (c, v'). }
    by destruct (List.filter _ pop).
  - rewrite (Hall c0 v0 (list_elem_of_here _ _) Hne), String.eqb_refl. simpl. apply IH; try done.
    + apply elem_of_cons in Hin as [?|?]; [congruence|done].
    + intros c' v' Hin' Hc. apply (Hall c' v'); [by right|done].
Qed.

Lemma count_mode mode pop :
  length (List.filter (String.eqb mode) (map snd pop)) +
  length (List.filter (fun cv : string * string => negb (String.eqb (snd cv) mode)) pop) = length pop.
Proof.
  rewrite filter_map_length. rewrite <- (filter_negb (fun cv : string * string => String.eqb mode (snd cv)) pop).
  f_equal. f_equal. apply List.filter_ext. intros [c v]. simpl. by rewrite (String.eqb_sym v mode).
Qed.

(** Two values, one of them held by all but one cluster. *)
Lemma two_values mode c v (pop : list (string * string)) : NoDup (map fst pop) -> (c, v) ∈ pop -> v <> mode -> 3 <= length pop ->
  (forall c' v', (c', v') ∈ pop -> c' <> c -> v' = mode) ->
  size (count_texts (map snd pop)) = 2 /\ dominantString (count_texts (map snd pop)) = mode /\
  length (List.filter (String.eqb mode) (map snd pop)) = length pop - 1.
Proof.
  intros Hnd Hin Hv Hlen Hall. pose proof (filter_cons_pop mode c v pop Hnd Hin Hv Hall) as Hf.
  pose proof (count_mode mode pop) as Hcm. rewrite Hf in Hcm. simpl in Hcm.
  assert (Hmode : length (List.filter (String.eqb mode) (map snd pop)) = length pop - 1) by lia.
  assert (Hvals : forall w, w ∈ map snd pop -> w = mode \/ w = v).
  { intros w ([c' w'] & -> & Hw)%list_elem_of_fmap. destruct (decide (c' = c)) as [->|Hc].
    - right. by eapply NoDup_fst_inv.
    - left. by eapply Hall. }
  assert (Hv1 : length (List.filter (String.eqb v) (map snd pop)) = 1).
  { rewrite filter_map_length.
    rewrite (List.filter_ext_in _ (fun cv => negb (String.eqb (snd cv) mode))); [by rewrite Hf|].
    intros [c' w] Hw. simpl. assert (w ∈ map snd pop) as Hw' by (apply list_elem_of_fmap; exists (c', w); split; [done|by apply list_elem_of_In]).
    destruct (Hvals w Hw') as [->| ->].
    - rewrite String.eqb_refl. by destruct (String.eqb_spec v mode).
    - rewrite String.eqb_refl. by destruct (String.eqb_spec v mode). }
  set (counts := count_texts (map snd pop)).
  assert (Hdom : dom counts = {[mode; v]}).
  { apply set_eq. intros w. rewrite elem_of_dom. unfold counts. rewrite count_texts_lookup.
    assert (is_Some (match length (List.filter (String.eqb w) (map snd pop)) with 0 => None | n => Some n end)
      <-> length (List.filter (String.eqb w) (map snd pop)) <> 0) as ->.
    { destruct (length (List.filter (String.eqb w) (map snd pop))); split; intros H; first [by destruct H|done|by eexists]. }
    rewrite elem_of_union, !elem_of_singleton. split.
    - intros Hn. apply Hvals. destruct (decide (w ∈ map snd pop)) as [|Hnw]; [done|]. exfalso. apply Hn.
      apply filter_none. intros x Hx. destruct (String.eqb_spec w x) as [->|]; done.
    - intros [-> | ->]; lia. }
  split_all; [|  |done].
  - rewrite <- size_dom, Hdom, size_union by set_solver. by rewrite !size_singleton.
  - destruct (Detectors.dominant_order_free (map snd pop) (map_to_list counts) (Permutation_refl _)) as [Hd Hm].
    destruct Hm as [Hm1 Hm2]; [intros E; apply (f_equal length) in E; rewrite length_map in E; simpl in E; lia|].
    change (dominant_in (map_to_list counts)) with (dominantString counts) in *.
    destruct (Hvals _ Hm1) as [|E]; [done|]. exfalso.
    assert (mode ∈ map snd pop) as Hmin.
    { destruct (decide (mode ∈ map snd pop)) as [|Hnw]; [done|]. exfalso.
      assert (length (List.filter (String.eqb mode) (map snd pop)) = 0); [|lia].
      apply filter_none. intros x Hx. destruct (String.eqb_spec mode x) as [->|]; done. }
    specialize (Hm2 mode Hmin). cbv zeta in Hm2. rewrite E, Hv1, Hmode in Hm2. lia.
Qed.

(** ** Facts: where a result comes from *)

Lemma candidate_cluster t pop o : o ∈ candidates t pop -> or_Cluster o ∈ map fst pop.
Proof.
  unfold candidates. intros (x & (i & -> & _)%list_elem_of_fmap & H)%list_elem_of_omap. unfold id, majority_candidate in H.
  destruct (pop !! i) as [[c v]|] eqn:E; [|done].
  assert (or_Cluster o = c) as -> by (cbv zeta in H; repeat case_match; by simplify_eq).
  apply list_elem_of_fmap. exists (c, v). split; [done|]. by eapply list_elem_of_lookup_2.
Qed.

Lemma majority_numeric_cluster clusters flat f t o : majorityNumericOutlier clusters flat f t = Some o ->
  or_Cluster o ∈ map fst (num_pop clusters flat f).
Proof.
  unfold majorityNumericOutlier. destruct (outside_sample _); [done|]. rewrite majority_loop_spec.
  change (omap id (map (majority_candidate t ?p) ?l)) with (candidates t p).
  destruct (candidates _ _) as [|o' [|]] eqn:E; try done. intros [= ->]. apply (candidate_cluster t). rewrite E. by left.
Qed.

Lemma majority_string_cluster clusters flat f o : majorityStringOutlier clusters flat f = Some o ->
  or_Cluster o ∈ map fst (str_pop clusters flat f).
Proof.
  unfold majorityStringOutlier. destruct (_ || _); [done|]. cbv zeta. destruct (negb _); [done|].
  destruct (List.find _ _) as [cv|] eqn:E; [|done]. intros [= <-]. apply find_some in E as [E _].
  apply list_elem_of_fmap. exists cv. split; [done|]. by apply list_elem_of_In.
Qed.

Lemma majority_field_known clusters t scope v o : fst (majority_field clusters t scope v) = Some o ->
  or_Scanner o = fst (fst v) /\ is_Some (snd v !! or_Cluster o).
Proof.
  assert (Hst : forall s f p, or_Cluster (stamp s f scope p) = or_Cluster p /\ or_Scanner (stamp s f scope p) = s).
  { intros s f p. unfold stamp. by destruct (if String.eqb _ _ then _ else _). }
  destruct v as [[s f] flat]. unfold majority_field. cbn [fst snd].
  destruct (isNumericInFlat _ _ _); [|destruct (isArrayInFlat _ _ _); [done|]]; cbn [fst].
  - destruct (majorityNumericOutlier _ _ _ _) as [p|] eqn:E; [|done]. intros [= <-].
    destruct (Hst s f p) as [-> ->]. split; [done|].
    by apply (population_known util_Float64 clusters flat f _ _ eq_refl eq_refl), (majority_numeric_cluster _ _ _ t).
  - destruct (majorityStringOutlier _ _ _) as [p|] eqn:E; [|done]. intros [= <-].
    destruct (Hst s f p) as [-> ->]. split; [done|].
    by apply (population_known text_of clusters flat f _ _ eq_refl eq_refl), majority_string_cluster.
Qed.

Lemma detectMajority_known r clusters t scope o : o ∈ fst (detectMajorityOutliers r clusters t scope) ->
  or_Cluster o ∈ clusters /\ has_payload r (or_Scanner o) (or_Cluster o).
Proof.
  unfold detectMajorityOutliers. cbn [fst]. unfold sortOutliers. rewrite isort_elem_of, list_elem_of_omap.
  intros (v & Hv & [Hs Hk]%majority_field_known). rewrite Hs. by eapply walk_known.
Qed.

(** ** Properties *)

Module Majority.

(** A small numeric population flags a cluster exactly when it is the only
    one that stands apart: three to seven clusters, and exactly one candidate among
    the leave-one-out rounds. *)
Theorem majority_numeric_unique clusters flat f t o :
  majorityNumericOutlier clusters flat f t = Some o <->
  3 <= length (num_pop clusters flat f) <= 7 /\ candidates t (num_pop clusters flat f) = [o].
Proof.
  unfold majorityNumericOutlier. rewrite <- outside_sample_false, majority_loop_spec.
  change (omap id (map (majority_candidate t ?p) ?l)) with (candidates t p).
  destruct (outside_sample _); [naive_solver|].
  fold (candidates t (num_pop clusters flat f)).
  destruct (candidates t (num_pop clusters flat f)) as [|o1 [|o2 l]]; naive_solver.
Qed.

(** A small string population flags a cluster exactly when every other one of
    the three to seven holds the same value and it does not. *)
Theorem majority_string_alone clusters flat f c v mode : NoDup clusters ->
  let pop := str_pop clusters flat f in
  majorityStringOutlier clusters flat f = Some (string_result (length pop) mode (c, v)) <->
  3 <= length pop <= 7 /\ (c, v) ∈ pop /\ v <> mode /\ forall c' v', (c', v') ∈ pop -> c' <> c -> v' = mode.
Proof.
  intros Hnd. cbv zeta. assert (Hk : NoDup (map fst (str_pop clusters flat f))) by by apply population_keys.
  unfold majorityStringOutlier. set (pop := str_pop clusters flat f) in *. rewrite <- outside_sample_false.
  destruct (outside_sample (length pop)) eqn:Eo; [naive_solver|]. apply outside_sample_false in Eo. cbn [orb].
  rewrite count_default. split.
  - destruct (Nat.eqb_spec (size (count_texts (map snd pop))) 2); [|done]. cbn [negb].
    set (md := dominantString _). destruct (Nat.eqb_spec (length (List.filter (String.eqb md) (map snd pop))) (length pop - 1)) as [Hc|]; [|done].
    pose proof (count_mode md pop) as Hcm.
    destruct (filter_one (fun cv : string * string => negb (String.eqb (snd cv) md)) pop ltac:(lia)) as ([c0 v0] & Hf & Hin & Hp & Hu).
    cbn [negb]. rewrite (find_some_filter _ _ _ Hf). cbn [fmap option_fmap option_map].
    intros [= -> -> Hmd]. rewrite <- Hmd in *. split_all; [done|done| |].
    + intros ->. simpl in Hp. by rewrite String.eqb_refl in Hp.
    + intros c' v' Hin' Hne. destruct (String.eqb_spec v' md) as [|Hnv]; [done|]. exfalso.
      assert ((c', v') = (c, v)) as [= -> ->]; [|done]. apply Hu; [done|]. simpl. by destruct (String.eqb_spec v' md).
  - intros (_ & Hin & Hv & Hall).
    destruct (two_values mode c v pop Hk Hin Hv ltac:(lia) Hall) as (-> & -> & ->). cbn [negb Nat.eqb].
    rewrite Nat.eqb_refl. cbn [negb].
    by rewrite (find_some_filter _ _ _ (filter_cons_pop mode c v pop Hk Hin Hv Hall)).
Qed.

(** A verdict on a limited sample is never critical: every result of the
    majority diff is marked limited, carries the scope asked for, belongs to a
    field of the walk, and is a warning or an info. *)
Theorem majority_capped r clusters t scope o :
  o ∈ fst (detectMajorityOutliers r clusters t scope) ->
  or_LimitedSample o = true /\ or_Scope o = scope /\ or_Severity o <> SeverityCritical /\
  exists v, v ∈ walkFields r clusters 0 /\ or_Scanner o = fst (fst v) /\ or_Field o = snd (fst v).
Proof.
  unfold detectMajorityOutliers. cbn [fst]. unfold sortOutliers. rewrite isort_elem_of, list_elem_of_omap.
  intros ([[s f] flat] & Hin & Ho).
  assert (Hst : exists o', o = stamp s f scope o').
  { unfold majority_field in Ho. destruct (isNumericInFlat _ _ _); [|destruct (isArrayInFlat _ _ _); [done|]]; simpl in Ho.
    - destruct (majorityNumericOutlier _ _ _ _); simplify_eq/=. by eexists.
    - destruct (majorityStringOutlier _ _ _); simplify_eq/=. by eexists. }
  destruct Hst as [o' ->]. unfold stamp. destruct (if String.eqb _ _ then _ else _) as [sev fav]. simpl. split_all; try done.
  - destruct (String.eqb_spec sev SeverityCritical); done.
  - by exists (s, f, flat).
Qed.

(** Three clusters at 41.02 percent and one at 41.04. *)
Definition cpu (n : Z) : json := JNum (f_const n 100).
Definition cpu_flat : flatMap :=
  list_to_map [("c1", {[ "avg_cpu_percent" := cpu 4102 ]}); ("c2", {[ "avg_cpu_percent" := cpu 4102 ]});
               ("c3", {[ "avg_cpu_percent" := cpu 4102 ]}); ("c4", {[ "avg_cpu_percent" := cpu 4104 ]})].

(** The direction of a small-fleet outlier is read back from its printed value,
    which is rounded to one decimal: a cluster above its peers on a field where
    more is worse is reported as better than the norm. *)
Lemma rounded_direction :
  let o := fst (majority_field ["c1"; "c2"; "c3"; "c4"] (f_const 7 2) "fleet" ("metrics", "avg_cpu_percent", cpu_flat)) in
  or_Cluster <$> o = Some "c4" /\ f_ltb (f_const 4102 100) (f_const 4104 100) = true /\
  lookupPolarity "metrics" "avg_cpu_percent" = UpIsBad /\
  or_Favorable <$> o = Some true /\ or_Severity <$> o = Some SeverityInfo.
Proof. vm_compute. done. Qed.

Definition four : list string := ["c1"; "c2"; "c3"; "c4"].
Definition text_flat : flatMap :=
  list_to_map [("c1", {[ "x" := JStr "a" ]}); ("c2", {[ "x" := JStr "a" ]}); ("c3", {[ "x" := JStr "b" ]}); ("c4", {[ "x" := JStr "a" ]})].

Lemma majority_string_alone_witness :
  exists o, majorityStringOutlier four text_flat "x" = Some o /\ or_Cluster o = "c3".
Proof.
  assert (Hnd : NoDup four) by (apply (bool_decide_unpack _); vm_compute; exact I).
  exists (string_result (length (str_pop four text_flat "x")) "a" ("c3", "b")). split; [|reflexivity].
  apply (majority_string_alone four text_flat "x" "c3" "b" "a" Hnd).
  assert (E : str_pop four text_flat "x" = [("c1", "a"); ("c2", "a"); ("c3", "b"); ("c4", "a")]) by (vm_compute; reflexivity).
  rewrite E. split; [simpl; lia|]. split; [apply (bool_decide_unpack _); vm_compute; exact I|]. split; [done|].
  intros c' v'. rewrite !elem_of_cons, elem_of_nil. intros [[= -> ->]|[[= -> ->]|[[= -> ->]|[[= -> ->]|[]]]]] Hne; done.
Defined.

(** A report with one non-uniform section holding [cpu_flat]'s payloads. *)
Definition cpu_report : Report := {|
  rp_Clusters := four;
  rp_Sections := {[ "metrics" := {| sr_Uniform := false; sr_Divergences := [];
    sr_PerCluster := list_to_map [("c1", JObj [("avg_cpu_percent", cpu 4102)]); ("c2", JObj [("avg_cpu_percent", cpu 4102)]);
      ("c3", JObj [("avg_cpu_percent", cpu 4102)]); ("c4", JObj [("avg_cpu_percent", cpu 9000)])] |} ]};
  rp_Summary := summary_zero; rp_Findings := []; rp_ClusterHealths := []; rp_Outliers := []; rp_Distributions := [];
  rp_DeviationMass := ∅; rp_ScoreAttribution := None; rp_FleetScore := fleet_score_zero; rp_Cohorts := [];
  rp_Degraded := []; rp_Incidents := []; rp_Notes := []; rp_runs := None |}.

Lemma majority_capped_witness :
  exists o, o ∈ fst (detectMajorityOutliers cpu_report four (f_const 7 2) "fleet") /\ or_Cluster o = "c4" /\
    or_LimitedSample o = true.
Proof.
  destruct (fst (detectMajorityOutliers cpu_report four (f_const 7 2) "fleet")) as [|o l] eqn:E; [vm_compute in E; discriminate|].
  exists o. assert (Hin : o ∈ fst (detectMajorityOutliers cpu_report four (f_const 7 2) "fleet")) by (rewrite E; left).
  split; [left|]. split; [|exact (proj1 (majority_capped cpu_report four (f_const 7 2) "fleet" o Hin))].
  vm_compute in E. injection E as <- _. reflexivity.
Defined.

End Majority.
