(* ===== verification/Drift.v ===== *)
(** * internal/report/drift.go: which clusters drifted across a run of scans *)

From Stdlib Require Import ZArith Lia String.
From stdpp Require Import base gmap strings list sets.
From S2P Require Import Prelude Maps Float64 Text Data Fields Observe Format.

Local Open Scope nat_scope.

Definition maxDriftFields : nat := 5.

Record ScanReport := { sn_ID : string; sn_Report : option Report }.

Record FieldDrift := {
  fdr_Scanner : string;
  fdr_Field : string;
  fdr_ZBefore : float64;
  fdr_ZAfter : float64;
  fdr_Before : string;
  fdr_After : string
}.

Record FlagChange := { fc_Scanner : string; fc_Field : string; fc_Scan : string }.

Record ClusterDrift := {
  cd_Cluster : string;
  cd_Mass : list float64;
  cd_MassBefore : float64;
  cd_MassAfter : float64;
  cd_MassDelta : float64;
  cd_Fields : list FieldDrift;
  cd_Gained : list FlagChange;
  cd_Lost : list FlagChange
}.

Record Ledger := { le_Scans : list string; le_Clusters : list ClusterDrift }.

(** scanner, field. *)
Abbreviation fieldKey := (string * string)%type.
Abbreviation valueTable := (gmap (string * string) (gmap string ClusterValue)).

Definition by_cluster (vs : list ClusterValue) : gmap string ClusterValue :=
  fold_left (fun m v => <[cv_Cluster v := v]> m) vs ∅.

Definition fleetValues (r : option Report) : valueTable :=
  match r with
  | None => ∅
  | Some r =>
      fold_left (fun out d =>
        if String.eqb (di_Scope d) NormScopeFleet
        then <[(di_Scanner d, di_Field d) := by_cluster (di_Values d)]> out else out)
        (rp_Distributions r) ∅
  end.

(** [values[k][cluster]] and whether it is there. *)
Definition value_at (values : valueTable) (k : fieldKey) (cluster : string) : option ClusterValue :=
  default ∅ (values !! k) !! cluster.

Definition valueText (v : ClusterValue) : string :=
  match cv_Number v with
  | Some n => formatNum n
  | None =>
      if negb (String.eqb (cv_Text v) "") then cv_Text v
      else if 0 <? length (cv_Missing v) then ("missing " ++ itoa (Z.of_nat (length (cv_Missing v))))%string
      else (itoa (Z.of_nat (cv_Size v)) ++ " members")%string
  end.

(** [fd.Before], [fd.After]: the text of a value, empty when absent. *)
Definition text_at (values : valueTable) (k : fieldKey) (cluster : string) : string :=
  match value_at values k cluster with Some v => valueText v | None => "" end.

Definition field_drift (before after : valueTable) (cluster : string) (k : fieldKey) : FieldDrift := {|
  fdr_Scanner := fst k; fdr_Field := snd k;
  fdr_ZBefore := cv_Z (default cv_zero (value_at before k cluster));
  fdr_ZAfter := cv_Z (default cv_zero (value_at after k cluster));
  fdr_Before := text_at before k cluster; fdr_After := text_at after k cluster |}.

(** The change in |z|. *)
Definition z_move (f : FieldDrift) : float64 := f_abs (f_sub (f_abs (fdr_ZAfter f)) (f_abs (fdr_ZBefore f))).

Definition moved_less (a b : FieldDrift) : bool :=
  if negb (f_eqb (z_move a) (z_move b)) then f_ltb (z_move b) (z_move a)
  else if negb (String.eqb (fdr_Scanner a) (fdr_Scanner b)) then str_ltb (fdr_Scanner a) (fdr_Scanner b)
  else str_ltb (fdr_Field a) (fdr_Field b).

(** Every field that moved, before the cap. *)
Definition moved_all (before after : valueTable) (cluster : string) : list FieldDrift :=
  List.filter (fun f => negb (String.eqb (fdr_Before f) (fdr_After f)))
    (map (field_drift before after cluster) (elements (dom before ∪ dom after))).

Definition movedFields (before after : valueTable) (cluster : string) : list FieldDrift :=
  take maxDriftFields (isort moved_less (moved_all before after cluster)).

Definition flagged (v : ClusterValue) : bool := cv_Outlier v && String.eqb (cv_Explained v) "".

Definition flag_at (values : list valueTable) (i : nat) (k : fieldKey) (cluster : string) : bool :=
  flagged (default cv_zero (value_at (nth i values ∅) k cluster)).

(** The last index at which the flag differs from the one before; the loop runs
    down from the last scan and stops at 1. *)
Fixpoint last_flip (flag : nat -> bool) (i : nat) (last : nat) : nat :=
  match i with
  | O => last
  | S i' => if negb (Bool.eqb (flag i) (flag i')) then i else last_flip flag i' last
  end.

Definition flag_cmp : FlagChange -> FlagChange -> comparison :=
  cmp_lex (cmp_on fc_Scanner String.compare) (cmp_on fc_Field String.compare).

Definition all_keys (values : list valueTable) : gset (string * string) :=
  fold_left (fun acc v => dom v ∪ acc) values ∅.

(** The flags that changed to [now] between the first and the last scan. *)
Definition flipped_to (now : bool) (ids : list string) (values : list valueTable) (cluster : string)
  (keys : list fieldKey) : list FlagChange :=
  let last := length ids - 1 in
  omap (fun k =>
    let flag i := flag_at values i k cluster in
    if Bool.eqb (flag 0) (flag last) then None
    else if Bool.eqb (flag last) now
    then Some {| fc_Scanner := fst k; fc_Field := snd k; fc_Scan := nth (last_flip flag last last) ids "" |}
    else None) keys.

Definition flagChanges (ids : list string) (values : list valueTable) (cluster : string) :
  list FlagChange * list FlagChange :=
  let keys := elements (all_keys values) in
  (isort (less_of flag_cmp) (flipped_to true ids values cluster keys),
   isort (less_of flag_cmp) (flipped_to false ids values cluster keys)).

Definition scan_clusters (scans : list ScanReport) : list string :=
  flat_map (fun s => match sn_Report s with Some r => rp_Clusters r | None => [] end) scans.

Definition mass_at (c : string) (s : ScanReport) : float64 :=
  match sn_Report s with Some r => default f_zero (rp_DeviationMass r !! c) | None => f_zero end.

Definition drift_row (scans : list ScanReport) (values : list valueTable) (c : string) : ClusterDrift :=
  let mass := map (mass_at c) scans in
  let before := nth 0 mass f_zero in
  let after := nth (length scans - 1) mass f_zero in
  let '(gained, lost) := flagChanges (map sn_ID scans) values c in
  {| cd_Cluster := c; cd_Mass := mass; cd_MassBefore := before; cd_MassAfter := after;
     cd_MassDelta := f_sub after before;
     cd_Fields := movedFields (nth 0 values ∅) (nth (length scans - 1) values ∅) c;
     cd_Gained := gained; cd_Lost := lost |}.

Definition row_empty (row : ClusterDrift) : bool :=
  (length (cd_Fields row) =? 0) && (length (cd_Gained row) =? 0) && (length (cd_Lost row) =? 0).

Definition flips (row : ClusterDrift) : nat := length (cd_Gained row) + length (cd_Lost row).

Definition row_less (a b : ClusterDrift) : bool :=
  let ma := f_abs (cd_MassDelta a) in let mb := f_abs (cd_MassDelta b) in
  if negb (f_eqb ma mb) then f_ltb mb ma
  else if negb (flips a =? flips b) then flips b <? flips a
  else str_ltb (cd_Cluster a) (cd_Cluster b).

Definition DriftLedger (scans : list ScanReport) : Ledger :=
  let ids := map sn_ID scans in
  if length scans <? 2 then {| le_Scans := ids; le_Clusters := [] |}
  else
    let values := map (fun s => fleetValues (sn_Report s)) scans in
    let rows := map (drift_row scans values) (dedup ∅ (scan_clusters scans)) in
    {| le_Scans := ids; le_Clusters := isort row_less (List.filter (fun row => negb (row_empty row)) rows) |}.

(** ** Facts *)

Lemma eq_negb_of_neq a b : a <> b -> a = negb b.
Proof. by destruct a, b. Qed.

Lemma last_flip_spec flag i last : i <= last -> flag i = flag last -> (forall j, i <= j <= last -> flag j = flag last) ->
  flag 0 <> flag last ->
  let p := last_flip flag i last in
  0 < p <= last /\ flag (p - 1) <> flag last /\ forall j, p <= j <= last -> flag j = flag last.
Proof.
  revert last. induction i as [|i IH]; intros last Hi Hfi Hall Hne; simpl; [congruence|].
  destruct (Bool.eqb (flag (S i)) (flag i)) eqn:E; simpl.
  - apply eqb_prop in E. apply IH; try done; [lia|congruence|]. intros j Hj.
    destruct (decide (j = i)) as [->|]; [congruence|]. apply Hall. lia.
  - apply eqb_false_iff in E. split_all; [lia|lia| |].
    + replace (i - 0) with i by lia. congruence.
    + intros j Hj. apply Hall. lia.
Qed.

Lemma all_keys_in k values : k ∈ all_keys values <-> exists v, v ∈ values /\ is_Some (v !! k).
Proof.
  unfold all_keys. enough (forall acc, k ∈ fold_left (fun acc v => dom v ∪ acc) values acc <->
    k ∈ acc \/ exists v, v ∈ values /\ is_Some (v !! k)) as ->; [set_solver|].
  induction values as [|v values IH]; intros acc; simpl; [set_solver|].
  rewrite IH, elem_of_union, elem_of_dom. setoid_rewrite elem_of_cons. naive_solver.
Qed.

Lemma flag_at_key values i k cluster : flag_at values i k cluster = true -> i < length values ->
  k ∈ all_keys values.
Proof.
  unfold flag_at, value_at. intros H Hi. apply all_keys_in. exists (nth i values ∅).
  split; [apply list_elem_of_In, nth_In; done|]. destruct (nth i values ∅ !! k) as [m|]; [by eexists|].
  simpl in H. rewrite lookup_empty in H. done.
Qed.

Lemma flipped_in now ids values cluster fc : length ids = length values -> ids <> [] ->
  fc ∈ flipped_to now ids values cluster (elements (all_keys values)) <->
  let flag i := flag_at values i (fc_Scanner fc, fc_Field fc) cluster in
  let last := length ids - 1 in
  flag 0 = negb now /\ flag last = now /\ fc_Scan fc = nth (last_flip flag last last) ids "".
Proof.
  intros Hlen Hne. unfold flipped_to. rewrite list_elem_of_omap. cbv zeta. split.
  - intros ([s f] & _ & H). destruct (Bool.eqb (flag_at _ 0 _ _) _) eqn:E0; [done|].
    destruct (Bool.eqb (flag_at _ (length ids - 1) _ _) now) eqn:E1; [|done]. simplify_eq/=.
    apply eqb_prop in E1. apply eqb_false_iff in E0. rewrite E1 in *.
    split_all; try done. by destruct (flag_at values 0 (s, f) cluster), now.
  - intros (H0 & H1 & H2). exists (fc_Scanner fc, fc_Field fc). split.
    + apply elem_of_elements. assert (0 < length ids) by (destruct ids; [done|simpl; lia]).
      destruct now; [eapply (flag_at_key values (length ids - 1))|eapply (flag_at_key values 0)]; eauto; lia.
    + rewrite H0, H1. destruct now; simpl; destruct fc; simpl in *; by rewrite H2.
Qed.

Lemma take_nil {A} n (l : list A) : 0 < n -> length (take n l) = 0 <-> l = [].
Proof. intros Hn. rewrite length_take. destruct l; simpl; split; intros; (done || lia). Qed.

Lemma moved_in before after cluster : length (movedFields before after cluster) = 0 <->
  forall k, text_at before k cluster = text_at after k cluster.
Proof.
  unfold movedFields. rewrite take_nil by (unfold maxDriftFields; lia).
  rewrite <- (length_zero_iff_nil (isort _ _)), isort_length. unfold moved_all. rewrite filter_none. split.
  - intros H k. destruct (decide (k ∈ dom before ∪ dom after)) as [Hk|Hk].
    + specialize (H (field_drift before after cluster k)).
      assert (field_drift before after cluster k ∈ map (field_drift before after cluster) (elements (dom before ∪ dom after))) as Hin.
      { apply list_elem_of_fmap. exists k. split; [done|]. by apply elem_of_elements. }
      specialize (H Hin). apply negb_false_iff, String.eqb_eq in H. exact H.
    + unfold text_at, value_at. rewrite not_elem_of_union, !not_elem_of_dom in Hk. destruct Hk as [-> ->]. done.
  - intros H f (k & -> & _)%list_elem_of_fmap. apply negb_false_iff, String.eqb_eq. apply H.
Qed.

Lemma flips_nil now ids values c : length ids = length values -> ids <> [] ->
  length (isort (less_of flag_cmp) (flipped_to now ids values c (elements (all_keys values)))) = 0 <->
  forall k, ~ (flag_at values 0 k c = negb now /\ flag_at values (length ids - 1) k c = now).
Proof.
  intros Hl Hne. rewrite isort_length. split.
  - intros H k [H0 H1]. apply length_zero_iff_nil in H.
    set (last := length ids - 1) in *. set (flag := fun i => flag_at values i k c).
    assert (Hin : {| fc_Scanner := fst k; fc_Field := snd k; fc_Scan := nth (last_flip flag last last) ids "" |}
      ∈ flipped_to now ids values c (elements (all_keys values))).
    { apply flipped_in; [done..|]. destruct k as [s f]. cbv zeta. done. }
    rewrite H in Hin. by apply elem_of_nil in Hin.
  - intros H. destruct (flipped_to _ _ _ _ _) as [|fc l] eqn:E; [done|]. exfalso.
    assert (Hin : fc ∈ flipped_to now ids values c (elements (all_keys values))) by (rewrite E; left).
    apply flipped_in in Hin as (H0 & H1 & _); [|done..]. by eapply H.
Qed.

(** Nothing about the cluster reads differently in the last scan. *)
Definition unmoved (values : list valueTable) (last : nat) (c : string) : Prop :=
  forall k, text_at (nth 0 values ∅) k c = text_at (nth last values ∅) k c /\
    flag_at values 0 k c = flag_at values last k c.

Lemma row_moved scans values c : length (map sn_ID scans) = length values -> map sn_ID scans <> [] ->
  row_empty (drift_row scans values c) = true <-> unmoved values (length scans - 1) c.
Proof.
  intros Hl Hne. unfold row_empty, drift_row. destruct (flagChanges _ _ _) as [g l] eqn:E. cbn [cd_Fields cd_Gained cd_Lost].
  unfold flagChanges in E. injection E as <- <-.
  rewrite !andb_true_iff, !Nat.eqb_eq, moved_in, !flips_nil, length_map by done. unfold unmoved. split.
  - intros [[Hm Hg] Hlo] k. split; [apply Hm|]. specialize (Hg k). specialize (Hlo k).
    destruct (flag_at values 0 k c), (flag_at values (length scans - 1) k c); naive_solver.
  - intros H. split_all; intros k; destruct (H k) as [H1 H2]; [done| |]; rewrite H2;
      intros [H3 H4]; rewrite H4 in H3; discriminate.
Qed.

(** ** Properties *)

Module DriftLaws.

(** A flag change is real and dated: a flag is gained (lost) exactly when it
    was off (on) in the first scan and on (off) in the last, and the scan it names
    is the one after which it never changed again. *)
Theorem flag_changes_dated ids values c fc now : length ids = length values -> ids <> [] ->
  let flag i := flag_at values i (fc_Scanner fc, fc_Field fc) c in
  let last := length ids - 1 in
  fc ∈ (if now : bool then fst (flagChanges ids values c) else snd (flagChanges ids values c)) <->
  flag 0 = negb now /\ exists p, 0 < p <= last /\ fc_Scan fc = nth p ids "" /\
    flag (p - 1) = negb now /\ forall j, p <= j <= last -> flag j = now.
Proof.
  intros Hlen Hne. cbv zeta.
  assert (Heq : fc ∈ (if now then fst (flagChanges ids values c) else snd (flagChanges ids values c)) <->
    fc ∈ flipped_to now ids values c (elements (all_keys values))).
  { unfold flagChanges. cbn [fst snd]. destruct now; apply isort_elem_of. }
  rewrite Heq, flipped_in by done. cbv zeta.
  set (flag := fun i => flag_at values i (fc_Scanner fc, fc_Field fc) c).
  change (flag_at values ?i (fc_Scanner fc, fc_Field fc) c) with (flag i). split.
  - intros (H0 & H1 & H2). split; [done|].
    destruct (last_flip_spec flag (length ids - 1) (length ids - 1)) as (Hp & Hf & Hall); try done.
    { intros j Hj. f_equal. lia. } { rewrite H0, H1. by destruct now. }
    exists (last_flip flag (length ids - 1) (length ids - 1)). split_all; try done; try lia.
    + rewrite H1 in Hf. by apply eq_negb_of_neq.
    + intros j Hj. rewrite <- H1. by apply Hall.
  - intros (H0 & p & Hp & Hs & Hpre & Hall). assert (H1 : flag (length ids - 1) = now) by (apply Hall; lia).
    split_all; try done.
    destruct (last_flip_spec flag (length ids - 1) (length ids - 1)) as (Hq & Hf & Hallq); try done.
    { intros j Hj. f_equal. lia. } { rewrite H0, H1. by destruct now. }
    set (q := last_flip flag (length ids - 1) (length ids - 1)) in *. clearbody q.
    assert (p = q) as ->; [|done]. destruct (Nat.lt_trichotomy p q) as [Hlt|[|Hlt]]; [|done|].
    + exfalso. apply Hf. rewrite H1. apply Hall. lia.
    + exfalso. specialize (Hallq (p - 1) ltac:(lia)). rewrite Hpre, H1 in Hallq. by destruct now.
Qed.

(** The ledger lists exactly the clusters that drifted, once each: those seen
    in some scan with a value that reads differently in the last scan than in the
    first, or with a flag that differs. A cluster whose score moved only because
    the norm moved is left out. *)
Theorem ledger_rows scans : 2 <= length scans ->
  let values := map (fun s => fleetValues (sn_Report s)) scans in
  let last := length scans - 1 in
  NoDup (map cd_Cluster (le_Clusters (DriftLedger scans))) /\
  forall c, c ∈ map cd_Cluster (le_Clusters (DriftLedger scans)) <->
    (exists s r, s ∈ scans /\ sn_Report s = Some r /\ c ∈ rp_Clusters r) /\
    ~ unmoved values last c.
Proof.
  intros Hlen. cbv zeta. unfold DriftLedger. destruct (Nat.ltb_spec (length scans) 2); [lia|]. cbn [le_Clusters].
  set (values := map (fun s => fleetValues (sn_Report s)) scans).
  assert (Hl : length (map sn_ID scans) = length values) by (unfold values; by rewrite !length_map).
  assert (Hne : map sn_ID scans <> []) by (destruct scans; [simpl in Hlen; lia|done]).
  destruct (dedup_spec ∅ (scan_clusters scans)) as [Hnd Hin].
  set (cs := dedup ∅ (scan_clusters scans)) in *.
  assert (Hmap : map cd_Cluster (map (drift_row scans values) cs) = cs).
  { rewrite map_map. erewrite map_ext; [apply map_id|]. intros c. unfold drift_row. by destruct (flagChanges _ _ _). }
  split.
  - rewrite (Permutation_map cd_Cluster (isort_perm row_less _)).
    assert (Hsub : forall l, NoDup (map cd_Cluster l) -> NoDup (map cd_Cluster (List.filter (fun row => negb (row_empty row)) l))).
    { intros l. induction l as [|x l IH]; simpl; [done|]. intros [Hx Hl']%NoDup_cons.
      destruct (negb _); simpl; [|by apply IH]. constructor; [|by apply IH].
      intros (y & Hy & Hy')%list_elem_of_fmap. apply list_elem_of_In, filter_In in Hy' as [Hy' _].
      apply Hx, list_elem_of_fmap. exists y. split; [done|by apply list_elem_of_In]. }
    apply Hsub. by rewrite Hmap.
  - intros c.
    assert (Hseen : c ∈ cs <-> exists s r, s ∈ scans /\ sn_Report s = Some r /\ c ∈ rp_Clusters r).
    { rewrite Hin. unfold scan_clusters. rewrite list_elem_of_In, in_flat_map. split.
      - intros [(s & Hs & Hc) _]. apply list_elem_of_In in Hs. destruct (sn_Report s) as [r|] eqn:Er; [|done].
        exists s, r. split_all; try done. by apply list_elem_of_In.
      - intros (s & r & Hs & Er & Hc). split; [|set_solver]. exists s. split; [by apply list_elem_of_In|].
        rewrite Er. by apply list_elem_of_In. }
    assert (Hrow : row_empty (drift_row scans values c) = false <-> ~ unmoved values (length scans - 1) c).
    { rewrite <- row_moved by done. by rewrite not_true_iff_false. }
    rewrite <- Hseen, <- Hrow, list_elem_of_fmap. setoid_rewrite isort_elem_of. split.
    + intros (row & -> & Hr). apply list_elem_of_In, filter_In in Hr as [Hr He].
      apply in_map_iff in Hr as (c' & <- & Hc'). apply list_elem_of_In in Hc'.
      assert (cd_Cluster (drift_row scans values c') = c') as -> by (unfold drift_row; by destruct (flagChanges _ _ _)).
      by apply negb_true_iff in He.
    + intros [Hc He]. exists (drift_row scans values c). split; [unfold drift_row; by destruct (flagChanges _ _ _)|].
      apply list_elem_of_In, filter_In. split; [|by rewrite He]. apply in_map_iff. exists c. split; [done|by apply list_elem_of_In].
Qed.

(** Two scans between which c1 turns into an outlier. *)
Definition drift_scan (id : string) (n : Z) (out : bool) : ScanReport := {|
  sn_ID := id;
  sn_Report := Some {|
    rp_Clusters := ["c1"]; rp_Sections := ∅; rp_Summary := summary_zero; rp_Findings := [];
    rp_ClusterHealths := []; rp_Outliers := [];
    rp_Distributions := [{| di_Scope := "fleet"; di_Scanner := "metrics"; di_Field := "pods"; di_Kind := "numeric";
      di_Values := [{| cv_Cluster := "c1"; cv_Number := Some (f_of_Z n); cv_Text := ""; cv_Size := 0; cv_Missing := [];
                       cv_Z := f_zero; cv_Outlier := out; cv_Explained := "" |}];
      di_Median := f_zero; di_MAD := f_zero; di_Band := f_zero; di_Threshold := f_zero; di_Mode := "";
      di_ModeShare := f_zero; di_Consensus := []; di_SampleSize := 1; di_Exact := false; di_LimitedSample := false;
      di_Mass := f_zero |}];
    rp_DeviationMass := ∅; rp_ScoreAttribution := None; rp_FleetScore := fleet_score_zero; rp_Cohorts := [];
    rp_Degraded := []; rp_Incidents := []; rp_Notes := []; rp_runs := None |} |}.

Definition drift_scans : list ScanReport :=
  [drift_scan "s1" 3 false; drift_scan "s2" 3 true; drift_scan "s3" 9 true].

Lemma ledger_rows_witness :
  map (fun row => (cd_Cluster row, map fc_Scan (cd_Gained row))) (le_Clusters (DriftLedger drift_scans)) = [("c1", ["s2"])] /\
  NoDup (map cd_Cluster (le_Clusters (DriftLedger drift_scans))).
Proof.
  split; [vm_compute; reflexivity|]. apply (ledger_rows drift_scans). simpl. lia.
Defined.

Lemma flag_changes_dated_witness :
  let values := map (fun s => fleetValues (sn_Report s)) drift_scans in
  {| fc_Scanner := "metrics"; fc_Field := "pods"; fc_Scan := "s2" |} ∈ fst (flagChanges ["s1"; "s2"; "s3"] values "c1").
Proof.
  cbv zeta. apply (flag_changes_dated ["s1"; "s2"; "s3"] (map (fun s => fleetValues (sn_Report s)) drift_scans) "c1"
    {| fc_Scanner := "metrics"; fc_Field := "pods"; fc_Scan := "s2" |} true eq_refl ltac:(discriminate)).
  split; [vm_compute; reflexivity|]. exists 1. split; [simpl; lia|]. split; [reflexivity|]. split; [vm_compute; reflexivity|].
  intros j Hj. assert (j = 1 \/ j = 2) as [-> | ->] by (simpl in Hj; lia); vm_compute; reflexivity.
Defined.

End DriftLaws.
