(* ===== verification/Rules.v ===== *)
(** * internal/report/rules.go: names, labels and remediations of findings

    The rule of a finding, its title without names or counts, its fingerprint, and
    the sentences that state how far an outlier sits from its norm. *)

From Stdlib Require Import ZArith Lia String Ascii.
From stdpp Require Import base gmap strings list sets.
From S2P Require Import Prelude Float64 Text Data Fingerprint Fields Observe Format.

Local Open Scope nat_scope.

(** A Go map literal, in source order: keys are distinct. *)
Definition assoc (k : string) (l : list (string * string)) : option string :=
  snd <$> List.find (fun p => String.eqb (fst p) k) l.

Definition ruleOutlierPrefix : string := "outlier-".
Definition ruleCohortOutlierPrefix : string := "cohort-outlier-".
Definition ruleTrendPrefix : string := "trend-".
Definition ruleSelfDriftPrefix : string := "self-drift-".

Definition ruleTitles : list (string * string) := [
  ("version/skew", "Kubernetes version skew across the fleet");
  ("namespaces/non-system-count-varies", "Non-system namespace count varies across the fleet");
  ("rbac/config-differs", "RBAC configuration differs across clusters");
  ("node-health/memory-pressure", "Nodes under memory pressure");
  ("node-health/disk-pressure", "Nodes under disk pressure");
  ("node-health/not-ready", "Nodes not ready");
  ("metrics/capacity-critical", "Cluster capacity is critical");
  ("metrics/capacity-degraded", "Cluster capacity is degraded");
  ("metrics/capacity-busy", "Cluster is busy but healthy");
  ("metrics/group-deviation", "Utilization deviates from group peers");
  ("security/psa-unenforced", "Namespaces without Pod Security enforcement");
  ("network-policies/no-policy", "Namespaces with no network policies");
  ("resource-quotas/no-quota", "No resource quotas defined");
  ("events/warning-volume", "Warning events in the last hour");
  ("workload-security/privileged", "Privileged containers");
  ("workload-security/host-namespaces", "Pods using host namespaces");
  ("workload-security/run-as-root", "Containers explicitly running as root");
  ("workload-security/capability-add", "Containers with added Linux capabilities");
  ("rbac-audit/cluster-admin-binding", "Non-system cluster-admin bindings");
  ("rbac-audit/wildcard-rule", "RBAC rules with wildcard permissions");
  ("rbac-audit/default-sa-binding", "Bindings that grant a default service account");
  ("image-audit/latest-tag", "Containers using :latest or no tag");
  ("image-audit/no-digest", "Containers without digest pins");
  ("image-audit/bad-deploy", "Bad-deploy signals");
  ("certs/expiring-7d", "Certificates expiring in fewer than 7 days");
  ("certs/expiring-30d", "Certificates expiring within 30 days");
  ("deprecated-apis/in-use", "Deprecated API versions in use");
  ("workload-coverage/missing-pdb", "Replicated workloads without a PodDisruptionBudget");
  ("workload-coverage/missing-hpa", "Replicated workloads without a HorizontalPodAutoscaler");
  ("admission/no-healthy-endpoints", "Admission webhooks with no healthy endpoints");
  ("admission/ca-expiring", "Admission webhook CA bundles expiring soon");
  ("cluster-info/node-platform-drift", "Node-level platform drift");
  ("cohort/wrong-cohort", "Cluster may be in the wrong cohort");
  ("vulnerabilities/critical-present", "Images with critical vulnerabilities");
  ("crds/missing-consensus", "Missing CRDs most of the fleet has");
  ("crds/cohort-missing-consensus", "Missing CRDs most of its cohort has");
  ("services/missing-consensus", "Missing services most of the fleet runs");
  ("services/cohort-missing-consensus", "Missing services most of its cohort runs");
  ("ingresses/missing-consensus", "Missing ingress classes most of the fleet uses");
  ("ingresses/cohort-missing-consensus", "Missing ingress classes most of its cohort uses");
  ("vulnerabilities/critical-outlier", "Critical vulnerability count deviates from the fleet norm");
  ("vulnerabilities/cohort-critical-outlier", "Critical vulnerability count deviates from its cohort");
  ("vulnerabilities/high-outlier", "High vulnerability count deviates from the fleet norm");
  ("vulnerabilities/cohort-high-outlier", "High vulnerability count deviates from its cohort");
  ("policy-reports/fail-outlier", "Policy failure count deviates from the fleet norm");
  ("policy-reports/cohort-fail-outlier", "Policy failure count deviates from its cohort")].

Definition namedOutlierRules : list (string * string) := [
  ("crds/crd_names", "missing-consensus");
  ("services/service_names", "missing-consensus");
  ("ingresses/ingress_classes", "missing-consensus");
  ("vulnerabilities/critical", "critical-outlier");
  ("vulnerabilities/high", "high-outlier");
  ("policy-reports/total_fail", "fail-outlier")].

Definition scannerInspect : list (string * string) := [
  ("version", "version");
  ("namespaces", "get namespaces");
  ("crds", "get crds");
  ("services", "get services -A");
  ("ingresses", "get ingress -A");
  ("resources", "get nodes -o wide");
  ("rbac", "get clusterroles,clusterrolebindings");
  ("security", "get namespaces -L pod-security.kubernetes.io/enforce");
  ("network-policies", "get networkpolicies -A");
  ("resource-quotas", "get resourcequotas,limitranges -A");
  ("node-health", "get nodes");
  ("metrics", "top nodes");
  ("events", "get events -A --field-selector type=Warning --sort-by=.lastTimestamp");
  ("workload-security", "get pods -A -o wide");
  ("rbac-audit", "get clusterrolebindings -o wide");
  ("image-audit", "get pods -A -o custom-columns=NAMESPACE:.metadata.namespace,POD:.metadata.name,IMAGES:.spec.containers[*].image");
  ("certs", "get secrets -A --field-selector type=kubernetes.io/tls");
  ("deprecated-apis", "get --raw /metrics");
  ("workload-coverage", "get pdb,hpa -A");
  ("cluster-info", "get nodes -o wide");
  ("admission", "get validatingwebhookconfigurations,mutatingwebhookconfigurations");
  ("geo", "get nodes -L topology.kubernetes.io/region,topology.kubernetes.io/zone");
  ("vulnerabilities", "get vulnerabilityreports -A");
  ("policy-reports", "get policyreports -A")].

(** html.go [scannerLabels]. *)
Definition scannerLabels : list (string * string) := [
  ("version", "Kubernetes Version");
  ("namespaces", "Namespaces");
  ("crds", "Custom Resource Definitions");
  ("services", "Services");
  ("ingresses", "Ingress Resources");
  ("resources", "Node Resources");
  ("rbac", "RBAC Configuration");
  ("security", "Pod Security Standards");
  ("network-policies", "Network Policies");
  ("resource-quotas", "Resource Quotas and Limits");
  ("node-health", "Node Health");
  ("metrics", "Resource Utilization");
  ("events", "Cluster Events");
  ("workload-security", "Workload Security");
  ("rbac-audit", "RBAC Audit");
  ("image-audit", "Image Hygiene");
  ("certs", "Certificate Expiry");
  ("deprecated-apis", "Deprecated APIs");
  ("workload-coverage", "PDB/HPA Coverage");
  ("cluster-info", "Node OS/Kernel Drift");
  ("admission", "Admission Webhooks");
  ("geo", "Geographic Location");
  ("vulnerabilities", "Image Vulnerabilities");
  ("policy-reports", "Policy Reports")].

(** [strings.ReplaceAll] of one byte by another. *)
Fixpoint replace_all (a b : ascii) (l : bytes) : bytes :=
  match l with
  | [] => []
  | c :: l' => (if Ascii.eqb c a then b else c) :: replace_all a b l'
  end.

Definition replace_byte (a b : ascii) (s : string) : string := of_bytes (replace_all a b (to_bytes s)).

Definition fieldRule (scannerName prefix field : string) : string :=
  (scannerName ++ "/" ++ prefix ++ replace_byte "_" "-" field)%string.

Definition outlierRule (scannerName field : string) (cohort : bool) : string :=
  match assoc (scannerName ++ "/" ++ field) namedOutlierRules with
  | Some slug => (scannerName ++ (if cohort then "/cohort-" else "/") ++ slug)%string
  | None => fieldRule scannerName (if cohort then ruleCohortOutlierPrefix else ruleOutlierPrefix) field
  end.

(** [strings.CutPrefix]. *)
Definition cut_prefix (s p : string) : option string :=
  let l := to_bytes s in let pl := to_bytes p in
  if bool_decide (take (length pl) l = pl) then Some (of_bytes (drop (length pl) l)) else None.

(** The part after the first slash. *)
Fixpoint after_slash (l : bytes) : option bytes :=
  match l with
  | [] => None
  | c :: l' => if Ascii.eqb c "/" then Some l' else after_slash l'
  end.

(** The prefixes of field-derived rules, with the text around the field. *)
Definition rule_formats : list (string * (string * string)) := [
  (ruleCohortOutlierPrefix, ("Deviates from its cohort on ", ""));
  (ruleOutlierPrefix, ("Deviates from the fleet norm on ", ""));
  (ruleSelfDriftPrefix, ("", " broke from its own baseline"));
  (ruleTrendPrefix, ("", " is trending"))].

Fixpoint first_format (slug : string) (formats : list (string * (string * string))) : option string :=
  match formats with
  | [] => None
  | (p, (pre, post)) :: formats' =>
      match cut_prefix slug p with
      | Some field => Some (pre ++ replace_byte "-" "_" field ++ post)%string
      | None => first_format slug formats'
      end
  end.

Definition RuleTitle (rule : string) : string :=
  match assoc rule ruleTitles with
  | Some t => t
  | None =>
      match after_slash (to_bytes rule) with
      | None => rule
      | Some slug => default rule (first_format (of_bytes slug) rule_formats)
      end
  end.

Definition FindingFingerprint (f : Finding) : string := Fingerprint (fi_Cluster f) (fi_Scanner f) (fi_Rule f).

Definition with_fingerprint (f : Finding) (fp : string) : Finding := {|
  fi_Title := fi_Title f; fi_Description := fi_Description f; fi_Severity := fi_Severity f;
  fi_Cluster := fi_Cluster f; fi_Scanner := fi_Scanner f; fi_Rule := fi_Rule f; fi_Fingerprint := fp;
  fi_Acked := fi_Acked f; fi_Affected := fi_Affected f; fi_Remediation := fi_Remediation f; fi_Norm := fi_Norm f;
  fi_Marks := fi_Marks f |}.

Definition stampFingerprints (fs : list Finding) : list Finding :=
  map (fun f => with_fingerprint f (FindingFingerprint f)) fs.

Definition exactNormPhrase (share : float64) (n : nat) (norm scope : string) : string :=
  let k := f_to_int (f_round (f_mul share (f_of_Z (Z.of_nat n)))) in
  if (k =? Z.of_nat n - 1)%Z then ("every other cluster in " ++ scope ++ " reports exactly " ++ norm)%string
  else (itoa k ++ " of " ++ itoa (Z.of_nat n) ++ " clusters in " ++ scope ++ " report exactly " ++ norm)%string.

(** [%v] of a []string. *)
Definition show_strings (l : list string) : string := ("[" ++ join " " l ++ "]")%string.

Definition num_of (n : nat) : string := itoa (Z.of_nat n).

(** A value the detectors formatted always parses. *)
Definition normGap (o : OutlierResult) (scope : string) : string :=
  (if or_Exact o then
     or_Field o ++ " is " ++ or_Value o ++ " here, "
     ++ exactNormPhrase (or_ModeShare o) (or_SampleSize o) (or_FleetNorm o) ("the " ++ scope)
   else if String.eqb (or_Kind o) NormKindNumeric then
     let v := ParseFloat (or_Value o) in
     let dir := if f_ltb v (or_Median o) then "below"%string else "above"%string in
     or_Field o ++ " is " ++ or_Value o ++ " here, " ++ formatNum (f_abs (f_sub v (or_Median o))) ++ " " ++ dir
     ++ " the " ++ scope ++ " median of " ++ formatNum (or_Median o)
   else if String.eqb (or_Kind o) NormKindSet then
     or_Field o ++ " is missing " ++ num_of (length (or_Missing o)) ++ ": " ++ show_strings (or_Missing o) ++ " of the "
     ++ scope ++ "'s " ++ num_of (length (or_Consensus o)) ++ " consensus items"
   else or_Field o ++ " is " ++ quote (or_Value o) ++ " here, the " ++ scope ++ " norm is " ++ quote (or_FleetNorm o))%string.

Definition newline : string := String (ascii_of_nat 10) "".

Definition normRemediation (o : OutlierResult) (scope : string) : Remediation := {|
  re_Command := ("# " ++ normGap o scope ++ newline ++ "kubectl --context " ++ or_Cluster o ++ " "
                 ++ default "get all -A" (assoc (or_Scanner o) scannerInspect))%string;
  re_YAML := ""; re_RunbookURL := "" |}.
