(* ===== verification/Notify.v ===== *)
(** * Outbound notifications: internal/webhooks/webhooks.go and internal/server/slack.go

    The dispatcher of webhooks sends every matching finding to every subscriber, and the
    Slack notifier posts the critical findings of a scan in one message; both remember for
    [dedupTTL] what they have notified. Regular expressions, templates, the environment
    and JSON are the libraries' and are parameters; so are the answers of the subscribers,
    which may depend on every request made before. *)

From Stdlib Require Import ZArith Lia String Ascii Sorting.Sorted.
From stdpp Require Import base gmap strings list sets sorting.
From S2P Require Import Prelude Maps Float64 GoTime Text Strs Data Fingerprint Observe Format Rules.

Local Open Scope Z_scope.

Definition requestTimeout : Z := 6 * Second.
Definition dedupTTL : Z := 6 * Hour.

(** ** Subscribers *)

Section Webhooks.

(** [text/template] values. *)
Context {Template : Type}.

(** A compiled regular expression is what its [MatchString] tells apart. *)
Abbreviation Regexp := (string -> bool).

Record Subscriber := {
  sb_Name : string;
  sb_URL : string;
  sb_MinSeverity : string;
  sb_ScannerRegex : string;
  sb_ClusterRegex : string;
  sb_Headers : gmap string string;
  sb_BodyTemplate : string;
  sb_ContentType : string;
  sb_scannerRE : option Regexp;
  sb_clusterRE : option Regexp;
  sb_tmpl : option Template
}.

Section Compiling.

Context (Compile : string -> Regexp + string) (Parse : string -> string -> Template + string).

(** ** compile *)

(** A pattern that is set is compiled; one that is not leaves the field as it was. *)
Definition compile_pattern (name field pattern : string) (re : option Regexp) : option Regexp + string :=
  if String.eqb pattern "" then inl re
  else match Compile pattern with
       | inl re => inl (Some re)
       | inr err => inr ("webhook " ++ quote name ++ ": " ++ field ++ " " ++ quote pattern ++ ": " ++ err)%string
       end.

Definition compile_one (s : Subscriber) : Subscriber + string :=
  if String.eqb (sb_URL s) "" then inr ("webhook " ++ quote (sb_Name s) ++ ": url required")%string
  else match compile_pattern (sb_Name s) "scanner_regex" (sb_ScannerRegex s) (sb_scannerRE s) with
  | inr err => inr err
  | inl scannerRE =>
  match compile_pattern (sb_Name s) "cluster_regex" (sb_ClusterRegex s) (sb_clusterRE s) with
  | inr err => inr err
  | inl clusterRE =>
  match (if String.eqb (sb_BodyTemplate s) "" then inl (sb_tmpl s)
         else match Parse (sb_Name s) (sb_BodyTemplate s) with
              | inl t => inl (Some t)
              | inr err => inr ("webhook " ++ quote (sb_Name s) ++ ": body_template: " ++ err)%string
              end) with
  | inr err => inr err
  | inl tmpl => inl {|
      sb_Name := sb_Name s; sb_URL := sb_URL s;
      sb_MinSeverity := if String.eqb (sb_MinSeverity s) "" then SeverityInfo else sb_MinSeverity s;
      sb_ScannerRegex := sb_ScannerRegex s; sb_ClusterRegex := sb_ClusterRegex s; sb_Headers := sb_Headers s;
      sb_BodyTemplate := sb_BodyTemplate s;
      sb_ContentType := if String.eqb (sb_ContentType s) "" then "application/json" else sb_ContentType s;
      sb_scannerRE := scannerRE; sb_clusterRE := clusterRE; sb_tmpl := tmpl |}
  end end end.

(** The subscribers in order, up to the first that does not compile. *)
Fixpoint compile (cfg : list Subscriber) : list Subscriber + string :=
  match cfg with
  | [] => inl []
  | s :: cfg' =>
      match compile_one s with
      | inr err => inr err
      | inl s => match compile cfg' with inr err => inr err | inl rest => inl (s :: rest) end
      end
  end.

End Compiling.

(** ** Dispatch *)

Context (Execute : Template -> Finding -> string + string) (ExpandEnv : string -> string) (Marshal : json -> string).

Definition matches (s : Subscriber) (f : Finding) : bool :=
  if negb (SeverityAtLeast (fi_Severity f) (sb_MinSeverity s)) then false
  else if match sb_scannerRE s with Some re => negb (re (fi_Scanner f)) | None => false end then false
  else if match sb_clusterRE s with Some re => negb (re (fi_Cluster f)) | None => false end then false
  else true.

Definition dedupKey (subscriber : string) (f : Finding) : string :=
  (subscriber ++ String "000" (FindingFingerprint f))%string.

Definition remediation_json (r : option Remediation) : json :=
  match r with
  | None => JNull
  | Some r => JObj (List.filter (fun m => match snd m with JStr "" => false | _ => true end)
      [("command", JStr (re_Command r)); ("yaml", JStr (re_YAML r)); ("runbook_url", JStr (re_RunbookURL r))]%string)
  end.

(** The default envelope. A nil list of affected objects is the empty list here. *)
Definition envelope (f : Finding) : json := JObj [
  ("severity", JStr (fi_Severity f)); ("cluster", JStr (fi_Cluster f)); ("scanner", JStr (fi_Scanner f));
  ("title", JStr (fi_Title f)); ("description", JStr (fi_Description f)); ("affected", strings_json (fi_Affected f));
  ("remediation", remediation_json (fi_Remediation f))]%string.

Definition renderBody (s : Subscriber) (f : Finding) : string + string :=
  match sb_tmpl s with
  | None => inl (Marshal (envelope f))
  | Some t => match Execute t f with inl out => inl (ExpandEnv out) | inr err => inr err end
  end.

Record Request := { rq_URL : string; rq_ContentType : string; rq_Headers : gmap string string; rq_Body : string }.

(** What the subscriber answered: a status code and line, or the error of [http.NewRequest] or
    of the client. *)
Abbreviation answer := ((Z * string) + string)%type.

(** One call of [send]: when, for whom, about what, and how it ended. *)
Record Delivery := {
  dl_At : Z; dl_Sub : Subscriber; dl_Finding : Finding; dl_Request : option Request; dl_Err : option string }.

Definition request_of (s : Subscriber) (body : string) : Request := {|
  rq_URL := sb_URL s; rq_ContentType := sb_ContentType s; rq_Headers := ExpandEnv <$> sb_Headers s; rq_Body := body |}.

(** Answers may depend on what was sent before. *)
Context (respond : list Delivery -> Request -> answer).

Definition send (now : Z) (sent : list Delivery) (s : Subscriber) (f : Finding) : Delivery :=
  match renderBody s f with
  | inr err => {| dl_At := now; dl_Sub := s; dl_Finding := f; dl_Request := None; dl_Err := Some err |}
  | inl body =>
      let req := request_of s body in
      {| dl_At := now; dl_Sub := s; dl_Finding := f; dl_Request := Some req;
         dl_Err := match respond sent req with
                   | inr err => Some err
                   | inl (code, status) => if 300 <=? code then Some ("non-2xx: " ++ status)%string else None
                   end |}
  end.

(** The dispatcher's map, and the calls of [send] so far. *)
Record dispatch_state := { ds_notified : gmap string Z; ds_sent : list Delivery }.

Definition gcExpired (now : Z) (notified : gmap string Z) : gmap string Z :=
  filter (fun e => negb (dedupTTL <? Sub now (snd e)) = true) notified.

Definition dispatch_one (now : Z) (s : Subscriber) (st : dispatch_state) (f : Finding) : dispatch_state :=
  if negb (matches s f) then st
  else
    let key := dedupKey (sb_Name s) f in
    match ds_notified st !! key with
    | Some _ => st
    | None =>
        let d := send now (ds_sent st) s f in
        let notified := <[key := now]> (ds_notified st) in
        {| ds_notified := match dl_Err d with Some _ => delete key notified | None => notified end;
           ds_sent := ds_sent st ++ [d] |}
    end.

Definition Dispatch (cfg : list Subscriber) (now : Z) (findings : list Finding) (st : dispatch_state) : dispatch_state :=
  match cfg with
  | [] => st
  | _ => fold_left (fun st s => fold_left (dispatch_one now s) findings st) cfg
           {| ds_notified := gcExpired now (ds_notified st); ds_sent := ds_sent st |}
  end.

(** The scans of a server, each with its time and its findings. *)
Definition dispatch_all (cfg : list Subscriber) (scans : list (Z * list Finding)) (st : dispatch_state) : dispatch_state :=
  fold_left (fun st scan => Dispatch cfg (fst scan) (snd scan) st) scans st.

Definition dispatch_zero : dispatch_state := {| ds_notified := ∅; ds_sent := [] |}.

(** ** Lemmas *)

(** The key and the success of a delivery. *)
Definition key_of (d : Delivery) : string := dedupKey (sb_Name (dl_Sub d)) (dl_Finding d).
Definition delivered (d : Delivery) : bool := match dl_Err d with None => true | Some _ => false end.

Lemma expired_spec now t : (dedupTTL <? Sub now t) = true <-> dedupTTL < now - t.
Proof. rewrite Z.ltb_lt. unfold Sub, int64_min, int64_max, dedupTTL, Hour, Minute, Second. lia. Qed.

Lemma gcExpired_lookup now notified k t :
  gcExpired now notified !! k = Some t <-> notified !! k = Some t /\ now - t <= dedupTTL.
Proof.
  unfold gcExpired. rewrite map_lookup_filter_Some. simpl. split; intros [Hk H]; split; try done.
  - apply negb_true_iff, not_true_iff_false in H. rewrite expired_spec in H. lia.
  - apply negb_true_iff, not_true_iff_false. rewrite expired_spec. lia.
Qed.

(** What the dispatcher remembers at a time: an entry is a delivery made then, a delivery is
    remembered or long past, and deliveries of one key are further apart than the window. *)
Record remembers (cfg : list Subscriber) (now : Z) (st : dispatch_state) : Prop := {
  rm_entry : forall k t, ds_notified st !! k = Some t ->
    t <= now /\ exists d, d ∈ ds_sent st /\ delivered d = true /\ key_of d = k /\ dl_At d = t;
  rm_past : forall d, d ∈ ds_sent st -> delivered d = true ->
    (exists t, ds_notified st !! key_of d = Some t /\ dl_At d <= t) \/ dedupTTL < now - dl_At d;
  rm_spaced : forall l d m d' r, ds_sent st = l ++ d :: m ++ d' :: r -> delivered d = true -> delivered d' = true ->
    key_of d = key_of d' -> dedupTTL < dl_At d' - dl_At d;
  rm_asked : forall d, d ∈ ds_sent st -> dl_Sub d ∈ cfg /\ matches (dl_Sub d) (dl_Finding d) = true
}.

Lemma remembers_zero cfg now : remembers cfg now dispatch_zero.
Proof.
  split; simpl.
  - intros k t H. by rewrite lookup_empty in H.
  - intros d H. by apply not_elem_of_nil in H.
  - intros l d m d' r H. by destruct l.
  - intros d H. by apply not_elem_of_nil in H.
Qed.

Lemma remembers_gc cfg now now' st : now <= now' -> remembers cfg now st ->
  remembers cfg now' {| ds_notified := gcExpired now' (ds_notified st); ds_sent := ds_sent st |}.
Proof.
  intros Hle [He Hp Hs Ha]. split; simpl; [| | exact Hs | exact Ha].
  - intros k t [Hk Ht]%gcExpired_lookup. destruct (He k t Hk) as [Hn Hd]. split; [lia | exact Hd].
  - intros d Hd Hok. destruct (Hp d Hd Hok) as [(t & Hk & Ht) | Hold]; [|right; lia].
    destruct (Z.le_gt_cases (now' - t) dedupTTL) as [Hin|Hout].
    + left. exists t. split; [|done]. by apply gcExpired_lookup.
    + right. lia.
Qed.

(** A list with one more element, seen as two elements of it. *)
Lemma snoc_two {A} (l : list A) x a b c y z : l ++ [x] = a ++ y :: b ++ z :: c ->
  (exists c', l = a ++ y :: b ++ z :: c') \/ z = x /\ y ∈ l.
Proof.
  destruct c as [|w c _] using rev_ind; intros H.
  - right. replace (a ++ y :: b ++ [z]) with ((a ++ y :: b) ++ [z]) in H by by rewrite <- app_assoc.
    apply app_inj_tail in H as [-> ->]. split; [done|]. set_solver.
  - left. exists c. replace (a ++ y :: b ++ z :: c ++ [w]) with ((a ++ y :: b ++ z :: c) ++ [w]) in H.
    + by apply app_inj_tail in H as [-> _].
    + rewrite <- app_assoc. simpl. by rewrite <- app_assoc.
Qed.

Lemma send_shape now sent s f : let d := send now sent s f in dl_At d = now /\ dl_Sub d = s /\ dl_Finding d = f.
Proof. unfold send. by destruct (renderBody s f). Qed.

Lemma remembers_one cfg now s f st : s ∈ cfg -> remembers cfg now st -> remembers cfg now (dispatch_one now s st f).
Proof.
  intros Hs Hst. unfold dispatch_one. destruct (matches s f) eqn:Hm; simpl; [|done].
  destruct (ds_notified st !! dedupKey (sb_Name s) f) as [t|] eqn:Hk; [done|].
  destruct Hst as [He Hp Hsp Ha]. destruct (send_shape now (ds_sent st) s f) as (Hat & Hsub & Hf).
  set (d := send now (ds_sent st) s f) in *. clearbody d.
  assert (Hkd : key_of d = dedupKey (sb_Name s) f) by (unfold key_of; by rewrite Hsub, Hf).
  assert (Hold : forall d', d' ∈ ds_sent st -> delivered d' = true -> key_of d' = key_of d -> dedupTTL < now - dl_At d').
  { intros d' Hd' Hok Heq. destruct (Hp d' Hd' Hok) as [(t & Ht & _) | H]; [|done]. rewrite Heq, Hkd, Hk in Ht. done. }
  assert (Hsame : dl_Err d <> None -> delete (dedupKey (sb_Name s) f) (<[dedupKey (sb_Name s) f := now]> (ds_notified st)) = ds_notified st).
  { intros _. rewrite delete_insert_eq. by apply delete_id. }
  split; simpl.
  - intros k t. destruct (dl_Err d) eqn:Herr.
    + rewrite Hsame by done. intros Hkt. destruct (He k t Hkt) as (? & d' & ? & ? & ? & ?). split; [done|].
      exists d'. set_solver.
    + intros [[<- <-] | [_ Hkt]]%lookup_insert_Some.
      * split; [lia|]. exists d. split_and!; [set_solver | by unfold delivered; rewrite Herr | done | done].
      * destruct (He k t Hkt) as (? & d' & ? & ? & ? & ?). split; [done|]. exists d'. set_solver.
  - intros d' [Hd' | ->%list_elem_of_singleton]%elem_of_app Hok.
    + destruct (Hp d' Hd' Hok) as [(t & Ht & Hle) | ?]; [|by right]. left. destruct (dl_Err d) eqn:Herr.
      * rewrite Hsame by done. by exists t.
      * exists t. split; [|done]. apply lookup_insert_Some. right. split; [|done]. intros Heq. rewrite <- Heq, Hk in Ht. done.
    + left. exists now. unfold delivered in Hok. destruct (dl_Err d); [done|]. split; [|lia].
      rewrite Hkd. by rewrite lookup_insert_eq.
  - intros l d1 m d2 r Hl Hd1 Hd2 Heq. apply snoc_two in Hl as [[r' Hl] | [-> Hin]].
    + by apply (Hsp l d1 m d2 r').
    + rewrite Hat. by apply Hold.
  - intros d' [Hd' | ->%list_elem_of_singleton]%elem_of_app; [by apply Ha|]. by rewrite Hsub, Hf.
Qed.

(** The body of one dispatch, over part of the subscribers. *)
Definition dispatch_to (now : Z) (findings : list Finding) (l : list Subscriber) (st : dispatch_state) : dispatch_state :=
  fold_left (fun st s => fold_left (dispatch_one now s) findings st) l st.

Lemma remembers_to cfg now findings l st : (forall s, s ∈ l -> s ∈ cfg) -> remembers cfg now st ->
  remembers cfg now (dispatch_to now findings l st).
Proof.
  unfold dispatch_to. revert st. induction l as [|s l IH]; intros st Hl Hst; [done|]. simpl.
  apply IH; [intros; apply Hl; by right|]. assert (Hs : s ∈ cfg) by (apply Hl; left). clear IH Hl. revert st Hst.
  induction findings as [|f fs IHf]; intros st Hst; [done|]. simpl. apply IHf. by apply remembers_one.
Qed.

Lemma Dispatch_to cfg now findings st : cfg <> [] -> Dispatch cfg now findings st =
  dispatch_to now findings cfg {| ds_notified := gcExpired now (ds_notified st); ds_sent := ds_sent st |}.
Proof. by destruct cfg. Qed.

Lemma remembers_dispatch cfg now now' findings st : now <= now' -> remembers cfg now st ->
  remembers cfg now' (Dispatch cfg now' findings st).
Proof.
  intros Hle Hst. destruct cfg as [|s0 cfg0].
  - destruct Hst as [He Hp Hs Ha]. split; [| |done|done].
    + intros k t Hk. destruct (He k t Hk). split; [simpl; lia|done].
    + intros d Hd. destruct (Ha d Hd) as [H _]. by apply not_elem_of_nil in H.
  - rewrite Dispatch_to by done. apply remembers_to; [done|]. by apply (remembers_gc _ now).
Qed.

Definition in_order (scans : list (Z * list Finding)) : Prop := StronglySorted Z.le (map fst scans).

Lemma remembers_all cfg scans now : (forall scan, scan ∈ scans -> fst scan <= now) -> in_order scans ->
  remembers cfg now (dispatch_all cfg scans dispatch_zero).
Proof.
  unfold dispatch_all. revert now. induction scans as [|[t fs] scans IH] using rev_ind; intros now Hle Ho.
  { apply remembers_zero. }
  rewrite fold_left_app. simpl.
  assert (Hp : remembers cfg t (fold_left (fun st scan => Dispatch cfg (fst scan) (snd scan) st) scans dispatch_zero)).
  { unfold in_order in Ho. rewrite map_app in Ho. apply IH.
    - intros scan Hs. apply (StronglySorted_app_1_elem_of _ _ _ (fst scan) t Ho); [by apply list_elem_of_fmap_2|].
      set_solver.
    - by apply StronglySorted_app_1_l in Ho. }
  assert (Ht : t <= now) by (apply (Hle (t, fs)); set_solver).
  pose proof (remembers_dispatch cfg t t fs _ (Z.le_refl t) Hp) as [He Hpast Hs Ha].
  split; [| |done|done].
  - intros k t' Hk. destruct (He k t' Hk). split; [lia|done].
  - intros d Hd Hok. destruct (Hpast d Hd Hok); [by left | right; lia].
Qed.

(** Some time is after every scan. *)
Lemma exists_bound (scans : list (Z * list Finding)) : exists now, forall scan, scan ∈ scans -> fst scan <= now.
Proof.
  induction scans as [|[t fs] scans [n IH]]; [exists 0; intros ? H; by apply not_elem_of_nil in H|].
  exists (Z.max t n). intros scan [-> | H]%elem_of_cons; [simpl; lia|]. specialize (IH _ H). lia.
Qed.

(** ** What a dispatch sends *)

Lemma one_extends now s f st : ds_sent st `prefix_of` ds_sent (dispatch_one now s st f).
Proof. unfold dispatch_one. repeat case_match; simpl; by (done || apply prefix_app_r). Qed.

Lemma fold_extends now s fs st : ds_sent st `prefix_of` ds_sent (fold_left (dispatch_one now s) fs st).
Proof. revert st. induction fs as [|f fs IH]; intros st; simpl; [done|]. etrans; [apply one_extends | apply IH]. Qed.

Lemma to_extends now fs l st : ds_sent st `prefix_of` ds_sent (dispatch_to now fs l st).
Proof.
  unfold dispatch_to. revert st. induction l as [|s l IH]; intros st; simpl; [done|]. etrans; [apply fold_extends | apply IH].
Qed.

Lemma all_extends cfg scans st : ds_sent st `prefix_of` ds_sent (dispatch_all cfg scans st).
Proof.
  unfold dispatch_all. revert st. induction scans as [|[t fs] scans IH]; intros st; simpl; [done|].
  etrans; [|apply IH]. destruct cfg as [|s0 cfg0]; [done|]. rewrite Dispatch_to by done. apply (to_extends t fs _ {| ds_notified := _; ds_sent := _ |}).
Qed.

Lemma prefix_elem {A} (l k : list A) x : l `prefix_of` k -> x ∈ l -> x ∈ k.
Proof. intros [m ->] H. apply elem_of_app. by left. Qed.

(** A matching finding whose request is answered well is delivered, or is remembered. *)
Lemma one_delivers cfg now s f st : remembers cfg now st ->
  (forall k t, ds_notified st !! k = Some t -> now - t <= dedupTTL) ->
  matches s f = true -> dl_Err (send now (ds_sent st) s f) = None ->
  exists d, d ∈ ds_sent (dispatch_one now s st f) /\ delivered d = true /\ key_of d = dedupKey (sb_Name s) f /\ now - dedupTTL <= dl_At d <= now.
Proof.
  intros Hst Hfresh Hm Hok. unfold dispatch_one. rewrite Hm. simpl.
  destruct (ds_notified st !! dedupKey (sb_Name s) f) as [t|] eqn:Hk.
  - destruct (rm_entry _ _ _ Hst _ _ Hk) as (Hle & d & Hd & Hdel & Hkd & Hat). exists d. split_and!; [done|done|done| |lia].
    specialize (Hfresh _ _ Hk). lia.
  - exists (send now (ds_sent st) s f). destruct (send_shape now (ds_sent st) s f) as (Hat & Hsub & Hf).
    split_and!; simpl; [set_solver | | | |].
    + unfold delivered. by rewrite Hok.
    + unfold key_of. by rewrite Hsub, Hf.
    + rewrite Hat. unfold dedupTTL, Hour, Minute, Second. lia.
    + lia.
Qed.

Lemma one_fresh now s f st : (forall k t, ds_notified st !! k = Some t -> now - t <= dedupTTL) ->
  forall k t, ds_notified (dispatch_one now s st f) !! k = Some t -> now - t <= dedupTTL.
Proof.
  intros H k t. unfold dispatch_one. destruct (negb (matches s f)); [apply H|].
  destruct (ds_notified st !! _); [apply H|]. simpl. destruct (dl_Err _).
  - rewrite lookup_delete_Some. intros [_ [[_ <-] | [_ Hk]]%lookup_insert_Some]; [unfold dedupTTL, Hour, Minute, Second; lia | by apply (H k)].
  - intros [[_ <-] | [_ Hk]]%lookup_insert_Some; [unfold dedupTTL, Hour, Minute, Second; lia | by apply (H k)].
Qed.

Lemma fold_fresh now s fs st : (forall k t, ds_notified st !! k = Some t -> now - t <= dedupTTL) ->
  forall k t, ds_notified (fold_left (dispatch_one now s) fs st) !! k = Some t -> now - t <= dedupTTL.
Proof. revert st. induction fs as [|f fs IH]; intros st H; [done|]. simpl. apply IH. by apply one_fresh. Qed.

Lemma fold_delivers cfg now s f fs base st : base `prefix_of` ds_sent st -> s ∈ cfg -> f ∈ fs -> remembers cfg now st ->
  (forall k t, ds_notified st !! k = Some t -> now - t <= dedupTTL) ->
  matches s f = true -> (forall more, dl_Err (send now (base ++ more) s f) = None) ->
  exists d, d ∈ ds_sent (fold_left (dispatch_one now s) fs st) /\ delivered d = true /\ key_of d = dedupKey (sb_Name s) f /\ now - dedupTTL <= dl_At d <= now.
Proof.
  intros Hb Hs Hf Hst Hfresh Hm Hok. revert st Hb Hst Hfresh. induction Hf as [f fs | f g fs Hf IH]; intros st Hb Hst Hfresh; simpl.
  - assert (Hnow : dl_Err (send now (ds_sent st) s f) = None) by (destruct Hb as [more ->]; apply Hok).
    destruct (one_delivers cfg now s f st Hst Hfresh Hm Hnow) as (d & Hd & H). exists d. split; [|done].
    apply (prefix_elem _ _ _ (fold_extends now s fs _) Hd).
  - apply (IH Hm Hok); [etrans; [exact Hb | apply one_extends] | by apply remembers_one | by apply one_fresh].
Qed.

Lemma to_delivers cfg now s f fs l base st : base `prefix_of` ds_sent st -> (forall s, s ∈ l -> s ∈ cfg) -> s ∈ l -> f ∈ fs -> remembers cfg now st ->
  (forall k t, ds_notified st !! k = Some t -> now - t <= dedupTTL) ->
  matches s f = true -> (forall more, dl_Err (send now (base ++ more) s f) = None) ->
  exists d, d ∈ ds_sent (dispatch_to now fs l st) /\ delivered d = true /\ key_of d = dedupKey (sb_Name s) f /\ now - dedupTTL <= dl_At d <= now.
Proof.
  intros Hb Hl Hs Hf Hst Hfresh Hm Hok. revert st Hb Hst Hfresh.
  induction Hs as [s l | s s' l Hs IH]; intros st Hb Hst Hfresh; simpl.
  - destruct (fold_delivers cfg now s f fs base st) as (d & Hd & H); try done; [apply Hl; left|].
    exists d. split; [apply (prefix_elem _ _ _ (to_extends now fs l _) Hd) | done].
  - apply IH; try done; [intros; apply Hl; by right | etrans; [exact Hb | apply fold_extends] | |by apply fold_fresh].
    apply (remembers_to cfg now fs [s']); [|done]. intros x ->%list_elem_of_singleton. apply Hl. left.
Qed.

Lemma FindingFingerprint_length f : String.length (FindingFingerprint f) = 64%nat.
Proof.
  unfold FindingFingerprint, Fingerprint, sha256. rewrite hex_encode_length. by destruct (sha256_shape (map byte_Z (fingerprint_message (fi_Cluster f) (fi_Scanner f) (fi_Rule f)))) as [-> _].
Qed.

(** Fingerprints have one length, so a key tells the subscriber's name and the finding. *)
Lemma dedupKey_inj n1 f1 n2 f2 : dedupKey n1 f1 = dedupKey n2 f2 -> n1 = n2 /\ FindingFingerprint f1 = FindingFingerprint f2.
Proof.
  unfold dedupKey. intros H%(f_equal to_bytes). rewrite !to_bytes_app in H.
  apply app_inj_2 in H as [->%to_bytes_inj [= ->%to_bytes_inj]]; [done|].
  cbn [to_bytes list_ascii_of_string length]. fold (to_bytes (FindingFingerprint f1)) (to_bytes (FindingFingerprint f2)).
  by rewrite !length_to_bytes, !FindingFingerprint_length.
Qed.

(** ** Theorems *)

(** No subscriber hears of a finding twice within the window: deliveries under one name of
    findings with one identity are more than six hours apart, and only matching findings are
    ever sent. *)
Theorem notified_apart cfg scans l d m d' r : in_order scans ->
  ds_sent (dispatch_all cfg scans dispatch_zero) = l ++ d :: m ++ d' :: r ->
  delivered d = true -> delivered d' = true -> sb_Name (dl_Sub d) = sb_Name (dl_Sub d') ->
  FindingFingerprint (dl_Finding d) = FindingFingerprint (dl_Finding d') ->
  dedupTTL < dl_At d' - dl_At d /\ dl_Sub d' ∈ cfg /\ matches (dl_Sub d') (dl_Finding d') = true.
Proof.
  intros Ho Hl Hd Hd' Hn Hf. destruct (exists_bound scans) as [now Hnow].
  pose proof (remembers_all cfg scans now Hnow Ho) as [_ _ Hs Ha]. split.
  - apply (Hs l d m d' r); try done. unfold key_of, dedupKey. by rewrite Hn, Hf.
  - apply Ha. rewrite Hl. set_solver.
Qed.

End Webhooks.

(** ** Slack: internal/server/slack.go *)

Section Slack.

Definition slackDedupTTL : Z := 6 * Hour.
Definition slackMaxFindingsPerPost : nat := 8.

Record slackText := { sx_Type : string; sx_Text : string }.
Record slackBlock := { bl_Type : string; bl_Text : option slackText; bl_Fields : list slackText }.
Record slackPayload := { sp_Text : string; sp_Blocks : list slackBlock }.

Definition filterCriticals (findings : list Finding) : list Finding :=
  List.filter (fun f => String.eqb (fi_Severity f) SeverityCritical) findings.

(** [isAcked] is the answer of the store, [false] with an error; no store keeps every finding. *)
Definition filterAckedFindings (isAcked : option (string -> bool)) (findings : list Finding) : list Finding :=
  match isAcked with
  | None => findings
  | Some acked => List.filter (fun f => negb (acked (FindingFingerprint f))) findings
  end.

Definition dedup_step (now : Z) (acc : gmap string Z * list Finding) (f : Finding) : gmap string Z * list Finding :=
  let key := FindingFingerprint f in
  match fst acc !! key with
  | Some _ => acc
  | None => (<[key := now]> (fst acc), snd acc ++ [f])
  end.

Definition dedupCriticals (now : Z) (keys : gmap string Z) (findings : list Finding) : gmap string Z * list Finding :=
  fold_left (dedup_step now) findings (filter (fun e => negb (slackDedupTTL <? Sub now (snd e)) = true) keys, []).

(** [strings.NewReplacer] of three single characters: one pass. *)
Fixpoint slackEscape (s : string) : string :=
  match s with
  | EmptyString => EmptyString
  | String c s' =>
      if Ascii.eqb c "&" then "&amp;" ++ slackEscape s'
      else if Ascii.eqb c "<" then "&lt;" ++ slackEscape s'
      else if Ascii.eqb c ">" then "&gt;" ++ slackEscape s'
      else String c (slackEscape s')
  end%string.

Definition mrkdwn (text : string) : slackText := {| sx_Type := "mrkdwn"; sx_Text := text |}.
Definition section (text : string) (fields : list slackText) : slackBlock := {|
  bl_Type := "section"; bl_Text := Some (mrkdwn text); bl_Fields := fields |}.

Definition findingBlock (f : Finding) : slackBlock :=
  let body := ("*" ++ slackEscape (fi_Title f) ++ "*" ++
    (if String.eqb (fi_Description f) "" then "" else newline ++ slackEscape (Truncate (fi_Description f) 280)) ++
    match fi_Remediation f with
    | Some r => if String.eqb (re_Command r) "" then "" else newline ++ "```" ++ re_Command r ++ "```"
    | None => ""
    end)%string in
  let cluster := if String.eqb (fi_Cluster f) "" then "fleet"%string else fi_Cluster f in
  section body [mrkdwn ("*Cluster*" ++ newline ++ slackEscape cluster)%string;
                mrkdwn ("*Scanner*" ++ newline ++ slackEscape (fi_Scanner f))%string].

Definition score_line (s : FleetScore) : string :=
  let n := num_of (fs_SampleSize s) in
  ((if fs_Graded s then
      "Fleet Score: " ++ itoa (fs_Score s) ++ "/" ++ fs_Grade s ++ " ; scored from " ++ n ++ " cluster" ++
      Plural (Z.of_nat (fs_SampleSize s)) ++ " across " ++ num_of (fs_Dimensions s) ++ " dimension" ++
      Plural (Z.of_nat (fs_Dimensions s)) ++ "."
    else "Fleet not graded (coverage " ++
      itoa (f_to_int (f_round (f_mul (co_Fraction (fs_Coverage s)) (f_of_Z 100)))) ++ "%).") ++
   (if fs_Graded s && (0 <? fs_ExcludedClusters s)%nat then
      " " ++ num_of (fs_ExcludedClusters s) ++ " cluster" ++ Plural (Z.of_nat (fs_ExcludedClusters s)) ++
      " excluded for insufficient data."
    else ""))%string.

Definition buildSlackPayload (fresh : list Finding) (r : Report) : slackPayload :=
  let header := ("Fleetsweeper: " ++ num_of (length fresh) ++ " new critical finding" ++ Plural (Z.of_nat (length fresh)))%string in
  let score := score_line (rp_FleetScore r) in
  {| sp_Text := header;
     sp_Blocks :=
       [{| bl_Type := "header"; bl_Text := Some {| sx_Type := "plain_text"; sx_Text := header |}; bl_Fields := [] |}] ++
       (if String.eqb score "" then [] else [section score []]) ++
       [{| bl_Type := "divider"; bl_Text := None; bl_Fields := [] |}] ++
       map findingBlock (take (Nat.min (length fresh) slackMaxFindingsPerPost) fresh) ++
       (if (slackMaxFindingsPerPost <? length fresh)%nat
        then [section ("_+ " ++ num_of (length fresh - slackMaxFindingsPerPost) ++ " more not shown_")%string []]
        else []) |}.

(** What is posted, if anything, and the keys afterwards. The answer of Slack is logged only. *)
Definition notifySlackForReport (url : string) (isAcked : option (string -> bool)) (now : Z) (keys : gmap string Z)
  (r : option Report) : gmap string Z * option slackPayload :=
  match r with
  | None => (keys, None)
  | Some r =>
      if String.eqb url "" then (keys, None)
      else match filterAckedFindings isAcked (filterCriticals (rp_Findings r)) with
           | [] => (keys, None)
           | criticals =>
               let '(keys, fresh) := dedupCriticals now keys criticals in
               match fresh with [] => (keys, None) | _ => (keys, Some (buildSlackPayload fresh r)) end
           end
  end.

(** *** Lemmas *)

Definition recent (now : Z) (keys : gmap string Z) (fp : string) : Prop :=
  exists t, keys !! fp = Some t /\ now - t <= slackDedupTTL.

Lemma pruned_lookup now (keys : gmap string Z) k t :
  filter (fun e => negb (slackDedupTTL <? Sub now (snd e)) = true) keys !! k = Some t <->
  keys !! k = Some t /\ now - t <= slackDedupTTL.
Proof. exact (gcExpired_lookup now keys k t). Qed.

(** After part of the findings: what is fresh, and the keys with it. *)
Lemma notify_dedup_spec now keys findings :
  let out := dedupCriticals now keys findings in
  (forall f, f ∈ snd out -> f ∈ findings /\ ~ recent now keys (FindingFingerprint f)) /\
  NoDup (map FindingFingerprint (snd out)) /\
  (forall k t, fst out !! k = Some t <-> keys !! k = Some t /\ now - t <= slackDedupTTL \/
     t = now /\ k ∈ map FindingFingerprint (snd out)) /\
  (forall f, f ∈ findings -> is_Some (fst out !! FindingFingerprint f)).
Proof.
  unfold dedupCriticals. induction findings as [|f fs (Hf & Hn & Hk & Ha)] using rev_ind; simpl.
  { split_and!; [by intros f ?%not_elem_of_nil | constructor | | by intros f ?%not_elem_of_nil].
    intros k t. rewrite pruned_lookup. split; [by left | intros [H | [_ H]]; [done | by apply not_elem_of_nil in H]]. }
  rewrite fold_left_app. simpl. destruct (fold_left (dedup_step now) fs _) as [m fresh]. simpl in *.
  unfold dedup_step. simpl. destruct (m !! FindingFingerprint f) as [t|] eqn:E; simpl.
  - split_and!; [set_solver | done | done|]. intros g [Hg | ->%list_elem_of_singleton]%elem_of_app; [by apply Ha | by eexists].
  - assert (Hnew : FindingFingerprint f ∉ map FindingFingerprint fresh).
    { intros H. rewrite (proj2 (Hk _ now)) in E; [done | by right]. }
    split_and!.
    + intros g [Hg | ->%list_elem_of_singleton]%elem_of_app; [set_solver|]. split; [set_solver|]. intros (t & Ht & Hr).
      rewrite (proj2 (Hk _ t)) in E; [done | by left].
    + rewrite map_app. apply NoDup_app. split_and!; [done | set_solver | apply NoDup_singleton].
    + intros k t. rewrite map_app, elem_of_app. change (map FindingFingerprint [f]) with [FindingFingerprint f].
      rewrite list_elem_of_singleton, lookup_insert_Some, Hk.
      split; [intros [[<- <-] | [_ H]]; naive_solver|].
      intros [[H1 H2] | [-> [H | ->]]].
      * right. split; [intros <-|by left]. rewrite (proj2 (Hk _ t)) in E; [done | by left].
      * right. split; [by intros <- | by right].
      * by left.
    + intros g [Hg | ->%list_elem_of_singleton]%elem_of_app.
      * destruct (decide (FindingFingerprint f = FindingFingerprint g)) as [<- | Hne]; [by rewrite lookup_insert_eq|].
        rewrite lookup_insert_ne by done. by apply Ha.
      * by rewrite lookup_insert_eq.
Qed.

(** No markup character of a text survives its escaping. *)
Lemma slackEscape_safe s : no_byte "<" (slackEscape s) = true /\ no_byte ">" (slackEscape s) = true.
Proof.
  induction s as [|c s [IH1 IH2]]; [done|]. cbn [slackEscape].
  destruct (Ascii.eqb_spec c "&"); [by rewrite !no_byte_app, IH1, IH2|].
  destruct (Ascii.eqb_spec c "<"); [by rewrite !no_byte_app, IH1, IH2|].
  destruct (Ascii.eqb_spec c ">"); [by rewrite !no_byte_app, IH1, IH2|].
  cbn [no_byte]. rewrite IH1, IH2. split; (rewrite (proj2 (Ascii.eqb_neq _ _)); [done|]; congruence).
Qed.

(** Once posted, a finding is not posted again for six hours, whatever Slack answered. *)
Lemma slack_failure_silences url isAcked now later keys r r' keys' p keys2 p2 f :
  notifySlackForReport url isAcked now keys (Some r) = (keys', Some p) ->
  notifySlackForReport url isAcked later keys' (Some r') = (keys2, Some p2) ->
  later - now <= slackDedupTTL ->
  f ∈ filterAckedFindings isAcked (filterCriticals (rp_Findings r)) -> ~ recent now keys (FindingFingerprint f) ->
  exists fresh, p2 = buildSlackPayload fresh r' /\ FindingFingerprint f ∉ map FindingFingerprint fresh.
Proof.
  unfold notifySlackForReport. destruct (String.eqb url ""); [done|]. intros H1 H2 Hle Hf Hnew.
  destruct (filterAckedFindings isAcked (filterCriticals (rp_Findings r))) as [|c cs] eqn:E; [done|].
  pose proof (notify_dedup_spec now keys (c :: cs)) as (_ & _ & Hk & Ha).
  destruct (dedupCriticals now keys (c :: cs)) as [k1 fresh1]. simpl in *.
  destruct fresh1 as [|g1 gs1]; [done|]. injection H1 as <- <-.
  destruct (filterAckedFindings isAcked (filterCriticals (rp_Findings r'))) as [|c2 cs2]; [done|].
  pose proof (notify_dedup_spec later k1 (c2 :: cs2)) as (Hf2 & _ & _ & _).
  destruct (dedupCriticals later k1 (c2 :: cs2)) as [k2 fresh2]. simpl in *.
  destruct fresh2 as [|g2 gs2]; [done|]. injection H2 as <- <-. exists (g2 :: gs2). split; [done|].
  intros (g & Heq & Hg)%list_elem_of_fmap. destruct (Hf2 g Hg) as [_ Hr]. apply Hr. rewrite <- Heq.
  destruct (Ha f Hf) as [t Ht]. exists t. split; [done|]. apply Hk in Ht as [[Ht Hr'] | [-> _]]; [|done].
  exfalso. apply Hnew. by exists t.
Qed.

(** The Slack message is about exactly the critical findings that nobody acknowledged and
    that were not posted within the last six hours, once each. *)
Theorem slack_posts_new url isAcked now keys r :
  let criticals := filterAckedFindings isAcked (filterCriticals (rp_Findings r)) in
  exists fresh,
    (forall f, f ∈ fresh -> f ∈ criticals /\ ~ recent now keys (FindingFingerprint f)) /\
    NoDup (map FindingFingerprint fresh) /\
    (forall f, f ∈ criticals -> recent now keys (FindingFingerprint f) \/
       FindingFingerprint f ∈ map FindingFingerprint fresh) /\
    snd (notifySlackForReport url isAcked now keys (Some r)) =
      (if String.eqb url "" || (length fresh =? 0)%nat then None else Some (buildSlackPayload fresh r)).
Proof.
  intros criticals. pose proof (notify_dedup_spec now keys criticals) as (Hf & Hn & Hk & Ha).
  exists (snd (dedupCriticals now keys criticals)). split_and!; [done|done| |].
  - intros f Hin. destruct (Ha f Hin) as [t [[Ht Hr] | [_ Ht]]%Hk]; [left; by exists t | by right].
  - unfold notifySlackForReport. fold criticals. destruct (String.eqb url "") eqn:Hu; [done|]. simpl.
    destruct criticals as [|c cs]; [done|]. destruct (dedupCriticals now keys (c :: cs)) as [k fresh]. simpl.
    by destruct fresh.
Qed.

End Slack.

(** ** Witnesses *)

Definition sample_sub (name : string) : Subscriber (Template := unit) := {|
  sb_Name := name; sb_URL := "https://hooks.example"; sb_MinSeverity := "warning"; sb_ScannerRegex := ""; sb_ClusterRegex := "";
  sb_Headers := ∅; sb_BodyTemplate := ""; sb_ContentType := "application/json"; sb_scannerRE := None; sb_clusterRE := None;
  sb_tmpl := None |}.

Definition sample_finding : Finding := {|
  fi_Title := "2 node(s) not ready"; fi_Description := ""; fi_Severity := "critical"; fi_Cluster := "prod";
  fi_Scanner := "node-health"; fi_Rule := "node-health/not-ready"; fi_Fingerprint := ""; fi_Acked := false;
  fi_Affected := []; fi_Remediation := None; fi_Norm := None; fi_Marks := [] |}.

(** A subscriber that refuses its first request. *)
Definition flaky (sent : list (Delivery (Template := unit))) (_ : Request) : (Z * string) + string :=
  match sent with [] => inl (503, "503 Service Unavailable"%string) | _ => inl (200, "200 OK"%string) end.

Definition sample_dispatch (respond : list (Delivery (Template := unit)) -> Request -> (Z * string) + string)
  (names : list string) (hours : list Z) : list (Delivery (Template := unit)) :=
  ds_sent (dispatch_all (fun _ _ => inl ""%string) (fun s => s) (fun _ => ""%string) respond (map sample_sub names)
    (map (fun h => (h * Hour, [sample_finding])) hours) dispatch_zero).

(** The refused finding is sent again one scan later, then not until the window has passed. *)
Example retried : map (fun d => (dl_At d, delivered d)) (sample_dispatch flaky ["ops"%string] [0; 1; 2; 8]) =
  [(0, false); (Hour, true); (8 * Hour, true)].
Proof. vm_compute. reflexivity. Qed.

(** Two subscribers of one name share their keys: the second hears of nothing. *)
Lemma same_name_starved : map (fun d => rq_URL <$> dl_Request d) (sample_dispatch (fun _ _ => inl (200, "200 OK"%string)) [""%string; ""%string] [0]) =
  [Some "https://hooks.example"%string].
Proof. vm_compute. reflexivity. Qed.

Lemma notified_apart_witness :
  match sample_dispatch flaky ["ops"%string] [0; 1; 2; 8] with
  | [_; d; d'] => dedupTTL < dl_At d' - dl_At d
  | _ => False
  end.
Proof.
  destruct (sample_dispatch flaky ["ops"%string] [0; 1; 2; 8]) as [|d0 [|d [|d' [|]]]] eqn:E; pose proof E as E';
    vm_compute in E'; try discriminate E'.
  apply (notified_apart (fun _ _ => inl ""%string) (fun s => s) (fun _ => ""%string) flaky (map sample_sub ["ops"%string])
    (map (fun h => (h * Hour, [sample_finding])) [0; 1; 2; 8]) [d0] d [] d' []).
  - repeat constructor; vm_compute; discriminate.
  - exact E.
  - clear E. by injection E' as <- <- <-.
  - clear E. by injection E' as <- <- <-.
  - clear E. by injection E' as <- <- <-.
  - clear E. injection E' as <- <- <-. reflexivity.
Defined.

