(* ===== verification/Findings.v ===== *)
(** * internal/report/findings.go: one fact, one finding

    Outlier findings, the removal of findings that restate a fact, the order and
    identity of the list, and the health rows read from it. *)

From Stdlib Require Import ZArith Lia String Ascii Sorting.Sorted.
From stdpp Require Import base gmap strings list sets.
From S2P Require Import Prelude Float64 Text Data Fingerprint Fields Observe Format Score ClusterScore Rules.

Local Open Scope nat_scope.

Definition pairwiseFleetLimit : nat := 20.
Definition maxAffected : nat := 10.

(** whatif.go [WhatIfRefusal]. *)
Definition WhatIfRefusal (scanner field : string) : string :=
  match setProjections !! scanner with
  | Some p =>
      if String.eqb (sp_To p) field && negb (bool_decide (is_Some (sp_Build p)))
      then (scanner ++ "/" ++ field ++ " is derived from the " ++ sp_From p
            ++ " list, so projecting a fix would mean inventing entries in it.")%string
      else ""
  | None => ""
  end.

(** outlier.go [OutlierResult.Basis]. *)
Definition Basis (o : OutlierResult) : NormBasis := {|
  nb_Scope := or_Scope o; nb_Field := or_Field o; nb_Kind := or_Kind o; nb_Median := or_Median o;
  nb_MAD := or_MAD o; nb_Mode := or_Mode o; nb_ModeShare := or_ModeShare o; nb_Consensus := or_Consensus o;
  nb_Missing := or_Missing o; nb_SampleSize := or_SampleSize o; nb_Threshold := or_Threshold o;
  nb_Value := or_Value o; nb_Z := or_Z o; nb_LimitedSample := or_LimitedSample o; nb_Exact := or_Exact o;
  nb_NoWhatIf := WhatIfRefusal (or_Scanner o) (or_Field o) |}.

(** brief.go [scopeNoun]. *)
Definition scopeNoun (scope : string) : string :=
  if String.eqb scope NormScopeFleet then "the fleet" else ("cohort " ++ quote scope)%string.

Definition normSentence (cluster : string) (n : NormBasis) : string :=
  let scope := scopeNoun (nb_Scope n) in
  (if String.eqb (nb_Kind n) NormKindNumeric && nb_Exact n then
     nb_Field n ++ " is " ++ nb_Value n ++ " on " ++ cluster ++ ", where "
     ++ exactNormPhrase (nb_ModeShare n) (nb_SampleSize n) (formatNum (nb_Median n)) scope ++ "."
   else if String.eqb (nb_Kind n) NormKindNumeric then
     nb_Field n ++ " is " ++ nb_Value n ++ " on " ++ cluster ++ ", against a median of " ++ formatNum (nb_Median n)
     ++ " across " ++ num_of (nb_SampleSize n) ++ " clusters in " ++ scope ++ "."
   else if String.eqb (nb_Kind n) NormKindString then
     nb_Field n ++ " is " ++ quote (nb_Value n) ++ " on " ++ cluster ++ ", against " ++ quote (nb_Mode n) ++ " held by "
     ++ show_fixed 0 (f_mul (nb_ModeShare n) (f_of_Z 100)) ++ "% of " ++ scope ++ "."
   else if String.eqb (nb_Kind n) NormKindSet then
     nb_Field n ++ " on " ++ cluster ++ " lacks " ++ num_of (length (nb_Missing n)) ++ " of the "
     ++ num_of (length (nb_Consensus n)) ++ " members " ++ scope ++ " holds in common."
   else "")%string.

Definition outlierTitle (o : OutlierResult) (better norm : string) : string :=
  (if or_Favorable o then or_Cluster o ++ " is better than " ++ better ++ " on " ++ or_Field o
   else or_Cluster o ++ " deviates from " ++ norm ++ " on " ++ or_Field o)%string.

Definition favorableNote (o : OutlierResult) : string :=
  if negb (or_Favorable o) then ""
  else
    let better := if bool_decide (lookupPolarity (or_Scanner o) (or_Field o) = DownIsBad) then "Higher"%string else "Lower"%string in
    (" " ++ better ++ " is better for this field, so this is not a regression. If the cluster differs by design, tag it into a cohort.")%string.

Definition label_of (scanner : string) : string := default "" (assoc scanner scannerLabels).

Definition outlier_finding (r : Report) (o : OutlierResult) (cohort : bool) (title desc remScope : string) : Finding := {|
  fi_Title := title; fi_Description := (desc ++ runNote r (or_Scanner o) (or_Cluster o))%string;
  fi_Severity := or_Severity o; fi_Cluster := or_Cluster o; fi_Scanner := or_Scanner o;
  fi_Rule := outlierRule (or_Scanner o) (or_Field o) cohort; fi_Fingerprint := ""; fi_Acked := false;
  fi_Affected := [or_Field o]; fi_Remediation := Some (normRemediation o remScope); fi_Norm := Some (Basis o);
  fi_Marks := [] |}.

Definition outlierFindings (r : Report) : list Finding :=
  map (fun o => outlier_finding r o false (outlierTitle o "the fleet norm" "fleet norm")
      (or_Cluster o ++ " reports " ++ or_Field o ++ "=" ++ or_Value o ++ " while the fleet norm is " ++ or_FleetNorm o
       ++ " (scanner: " ++ label_of (or_Scanner o) ++ ")." ++ favorableNote o)%string NormScopeFleet)
    (List.filter (fun o => String.eqb (or_ExplainedBy o) "") (rp_Outliers r)).

(** The key is the three strings joined by null bytes; names hold none. *)
Definition outlierKey (o : OutlierResult) : string * string * string := (or_Cluster o, or_Field o, or_Scanner o).

Definition cohortOutlierFindings (r : Report) : list Finding :=
  let fleet : gset (string * string * string) := list_to_set (map outlierKey (rp_Outliers r)) in
  flat_map (fun c =>
    map (fun o => outlier_finding r o true (outlierTitle o "its cohort norm" "its cohort")
        ("Within cohort " ++ quote (cs_Name c) ++ ", " ++ or_Cluster o ++ " reports " ++ or_Field o ++ "=" ++ or_Value o
         ++ " while the cohort norm is " ++ or_FleetNorm o ++ " (scanner: " ++ label_of (or_Scanner o) ++ ")."
         ++ favorableNote o)%string ("cohort " ++ quote (cs_Name c))%string)
      (List.filter (fun o => negb (bool_decide (outlierKey o ∈ fleet))) (cs_Outliers c))) (rp_Cohorts r).

Definition finding_rank_cmp : Finding -> Finding -> comparison :=
  cmp_rev (cmp_on (fun f => SeverityRank (fi_Severity f)) Nat.compare).

Definition sortFindings (fs : list Finding) : list Finding := isort (less_of finding_rank_cmp) fs.

(** ** dropRedundant *)

Definition scopeMembers (r : Report) : gmap string (list string) :=
  fold_left (fun m c => <[cs_Name c := cs_Clusters c]> m) (rp_Cohorts r) {[NormScopeFleet := rp_Clusters r]}.

(** The tables the first pass builds: the first absolute finding per cluster and
    rule, the clusters each rule fired on, the last norm finding per cluster and
    field, and the scopes it was measured in. *)
Record factTables := {
  ft_absolute : gmap (string * string) nat;
  ft_firedOn : gmap string (list string);
  ft_norm : gmap (string * string * string) nat;
  ft_normIn : gset (string * string * string * string)
}.

Definition tables_zero : factTables := {| ft_absolute := ∅; ft_firedOn := ∅; ft_norm := ∅; ft_normIn := ∅ |}.

Definition index_finding (t : factTables) (i : nat) (f : Finding) : factTables :=
  match fi_Norm f with
  | None =>
      match ft_absolute t !! (fi_Cluster f, fi_Rule f) with
      | Some _ => t
      | None => {| ft_absolute := <[(fi_Cluster f, fi_Rule f) := i]> (ft_absolute t);
                   ft_firedOn := <[fi_Rule f := default [] (ft_firedOn t !! fi_Rule f) ++ [fi_Cluster f]]> (ft_firedOn t);
                   ft_norm := ft_norm t; ft_normIn := ft_normIn t |}
      end
  | Some n =>
      {| ft_absolute := ft_absolute t; ft_firedOn := ft_firedOn t;
         ft_norm := <[(fi_Cluster f, fi_Scanner f, nb_Field n) := i]> (ft_norm t);
         ft_normIn := {[(fi_Cluster f, fi_Scanner f, nb_Field n, nb_Scope n)]} ∪ ft_normIn t |}
  end.

Fixpoint index_from (i : nat) (fs : list Finding) (t : factTables) : factTables :=
  match fs with
  | [] => t
  | f :: fs' => index_from (S i) fs' (index_finding t i f)
  end.

Definition index_findings (fs : list Finding) : factTables := index_from 0 fs tables_zero.

Section DropRedundant.
Context (t : factTables) (members : gmap string (list string)).

(** Within the scope the rule fired on no cluster that holds the norm. *)
Definition singles (rule : string) (field : FieldRef) (scope : string) : bool :=
  match members !! scope with
  | None => false
  | Some population =>
      forallb (fun cluster =>
        negb (bool_decide (cluster ∈ population)) ||
        bool_decide ((cluster, fr_Scanner field, fr_Field field, scope) ∈ ft_normIn t))
        (default [] (ft_firedOn t !! rule))
  end.

Definition counting (cluster : string) (field : FieldRef) (scope : string) : option nat :=
  match lookupField (fr_Scanner field) (fr_Field field) with
  | None => None
  | Some spec =>
      if String.eqb (fp_CountedBy spec) "" then None
      else match ft_absolute t !! (cluster, fp_CountedBy spec) with
           | None => None
           | Some j => if singles (fp_CountedBy spec) field scope then Some j else None
           end
  end.

Definition rank_at (fs : list Finding) (j : nat) : nat := SeverityRank (fi_Severity (nth j fs finding_zero)).

(** The absolute finding takes the norm when it has none. *)
Definition absorb (n : NormBasis) (f : Finding) (g : Finding) : Finding :=
  match fi_Norm g with
  | Some _ => g
  | None => {|
      fi_Title := fi_Title g;
      fi_Description := appendSentence (fi_Description g) (normSentence (fi_Cluster f) n)
        (snd (cut_suffix (fi_Description f) partialScanNote));
      fi_Severity := fi_Severity g; fi_Cluster := fi_Cluster g; fi_Scanner := fi_Scanner g; fi_Rule := fi_Rule g;
      fi_Fingerprint := fi_Fingerprint g; fi_Acked := fi_Acked g; fi_Affected := fi_Affected g;
      fi_Remediation := fi_Remediation g; fi_Norm := Some n; fi_Marks := fi_Marks g |}
  end.

(** The second pass on finding [i]: its state is the drop marks and the list the
    norms are absorbed into. [orig] is the list the ranges of the source copy from. *)
Definition pass_counted (orig : list Finding) (st : gset nat * list Finding) (i : nat) : gset nat * list Finding :=
  let '(drop, fs) := st in
  let f := nth i orig finding_zero in
  match fi_Norm f with
  | None => st
  | Some n =>
      match counting (fi_Cluster f) (ref (fi_Scanner f) (nb_Field n)) (nb_Scope n) with
      | None => st
      | Some j =>
          if rank_at orig j <? SeverityRank (fi_Severity f) then st
          else ({[i]} ∪ drop, alter (absorb n f) j fs)
      end
  end.

(** The targets of finding [i], one by one, until one drops it. *)
Fixpoint restated (orig : list Finding) (i : nat) (f : Finding) (scope : string) (targets : list FieldRef)
  (drop : gset nat) : gset nat :=
  match targets with
  | [] => drop
  | target :: targets' =>
      let rank := SeverityRank (fi_Severity f) in
      let counted := counting (fi_Cluster f) target scope in
      if match counted with Some j => rank <=? rank_at orig j | None => false end then {[i]} ∪ drop
      else
        match ft_norm t !! (fi_Cluster f, fr_Scanner target, fr_Field target) with
        | None => restated orig i f scope targets' drop
        | Some j =>
            if rank <=? rank_at orig j then {[i]} ∪ drop
            else restated orig i f scope targets'
                   (match counted with Some _ => drop | None => {[j]} ∪ drop end)
        end
  end.

Definition pass_restated (orig : list Finding) (drop : gset nat) (i : nat) : gset nat :=
  let f := nth i orig finding_zero in
  match fi_Norm f with
  | None => drop
  | Some n =>
      if bool_decide (i ∈ drop) then drop
      else
        let targets := match lookupField (fi_Scanner f) (nb_Field n) with Some s => fp_RedundantWith s | None => [] end in
        restated orig i f (nb_Scope n) targets drop
  end.

Definition drop_marks (fs : list Finding) : gset nat * list Finding :=
  let idx := seq 0 (length fs) in
  let '(drop, fs1) := fold_left (pass_counted fs) idx (∅, fs) in
  (fold_left (pass_restated fs) idx drop, fs1).
End DropRedundant.

Definition keep_from (drop : gset nat) (fs : list Finding) : list Finding :=
  map snd (List.filter (fun p => negb (bool_decide (fst p ∈ drop))) (zip (seq 0 (length fs)) fs)).

Definition dropRedundant (findings : list Finding) (members : gmap string (list string)) : list Finding :=
  let '(drop, fs) := drop_marks (index_findings findings) members findings in keep_from drop fs.

(** ** generateClusterHealth *)

Definition base_status (counts : gmap string nat) : string :=
  if 0 <? default 0 (counts !! SeverityCritical) then "critical"
  else if 0 <? default 0 (counts !! SeverityWarning) then "degraded" else "healthy".

Definition cluster_health (r : Report) (findings : list Finding) (scanners : list string) (cluster : string) :
  ClusterHealth :=
  let counts := clusterSeverityCounts cluster findings in
  let blind := snd (clusterRunCounts r cluster scanners) in
  let status := base_status counts in {|
  ch_Name := cluster;
  ch_Status := if String.eqb status "healthy" && (0 <? blind) then "unknown" else status;
  ch_FindingCounts := counts;
  ch_KubernetesVersion := fst (observeString r "version" cluster "git_version");
  ch_NodeCount := fst (observeInt r "node-health" cluster "node_count");
  ch_HealthyNodes := fst (observeInt r "node-health" cluster "healthy_nodes");
  ch_AvgCPU := fst (observe r "metrics" cluster "avg_cpu_percent");
  ch_AvgMemory := fst (observe r "metrics" cluster "avg_memory_percent");
  ch_WarningEvents := fst (observeInt r "events" cluster "warning_events");
  ch_NamespaceCount := fst (observeInt r "namespaces" cluster "count");
  ch_DegradedScanners := default 0 (DegradedByCluster r !! cluster);
  ch_BlindScanners := blind |}.

Definition generateClusterHealth (r : Report) (findings : list Finding) : list ClusterHealth :=
  map (cluster_health r findings (expectedScanners r)) (rp_Clusters r).

Definition capList (items : list string) : list string :=
  if length items <=? maxAffected then items
  else take maxAffected items ++ [("...and " ++ num_of (length items - maxAffected) ++ " more")%string].

(** ** Facts: the tables *)

Lemma index_from_spec (fs : list Finding) i suf t :
  (forall k f, suf !! k = Some f -> fs !! (i + k) = Some f) ->
  let t' := index_from i suf t in
  (forall key j, ft_absolute t' !! key = Some j -> ft_absolute t !! key = Some j \/
     exists g, fs !! j = Some g /\ fi_Norm g = None /\ key = (fi_Cluster g, fi_Rule g)) /\
  (forall key j, ft_norm t' !! key = Some j -> ft_norm t !! key = Some j \/
     exists g n, fs !! j = Some g /\ fi_Norm g = Some n /\ key = (fi_Cluster g, fi_Scanner g, nb_Field n)).
Proof.
  revert i t. induction suf as [|f suf IH]; intros i t Hsuf; simpl; [auto|].
  assert (Hf : fs !! i = Some f) by (rewrite <- (Nat.add_0_r i); by apply (Hsuf 0)).
  destruct (IH (S i) (index_finding t i f)) as [H1 H2].
  { intros k g Hk. replace (S i + k) with (i + S k) by lia. by apply Hsuf. }
  split; intros key j Hj.
  - destruct (H1 key j Hj) as [Hj'|Hj']; [|by right]. unfold index_finding in Hj'.
    destruct (fi_Norm f) as [n|] eqn:En; [by left|].
    destruct (ft_absolute t !! (fi_Cluster f, fi_Rule f)) eqn:E; [by left|]. simpl in Hj'.
    destruct (decide (key = (fi_Cluster f, fi_Rule f))) as [->|Hne].
    + rewrite lookup_insert_eq in Hj'. simplify_eq. right. by exists f.
    + rewrite lookup_insert_ne in Hj' by done. by left.
  - destruct (H2 key j Hj) as [Hj'|Hj']; [|by right]. unfold index_finding in Hj'.
    destruct (fi_Norm f) as [n|] eqn:En.
    + simpl in Hj'. destruct (decide (key = (fi_Cluster f, fi_Scanner f, nb_Field n))) as [->|Hne].
      * rewrite lookup_insert_eq in Hj'. simplify_eq. right. by exists f, n.
      * rewrite lookup_insert_ne in Hj' by done. by left.
    + by destruct (ft_absolute t !! (fi_Cluster f, fi_Rule f)); left.
Qed.

(** Within the scope, every member cluster on which the rule fired has a norm finding on the
    field in that scope. *)
Definition singled (fs : list Finding) (members : gmap string (list string)) (rule : string) (field : FieldRef)
  (scope : string) : Prop :=
  exists population, members !! scope = Some population /\
    forall g, g ∈ fs -> fi_Norm g = None -> fi_Rule g = rule -> fi_Cluster g ∈ population ->
      exists h m, h ∈ fs /\ fi_Norm h = Some m /\ fi_Cluster h = fi_Cluster g /\
        fi_Scanner h = fr_Scanner field /\ nb_Field m = fr_Field field /\ nb_Scope m = scope.

(** The absolute finding [g] counts the field on the cluster of [f]: the registry names its
    rule for the field, and in the scope it fires only where the field is off the norm. *)
Definition counted_by (fs : list Finding) (members : gmap string (list string)) (scope : string) (field : FieldRef)
  (f g : Finding) : Prop :=
  exists s, lookupField (fr_Scanner field) (fr_Field field) = Some s /\ fp_CountedBy s <> ""%string /\
    fi_Norm g = None /\ fi_Rule g = fp_CountedBy s /\ fi_Cluster g = fi_Cluster f /\
    singled fs members (fp_CountedBy s) field scope.

Lemma index_from_normIn i suf t key : key ∈ ft_normIn (index_from i suf t) -> key ∈ ft_normIn t \/
  exists h m, h ∈ suf /\ fi_Norm h = Some m /\ key = (fi_Cluster h, fi_Scanner h, nb_Field m, nb_Scope m).
Proof.
  revert i t. induction suf as [|f suf IH]; intros i t H; simpl in H; [by left|].
  apply IH in H as [H|(h & m & Hh & ?)]; [|right; exists h, m; split; [by right|done]].
  unfold index_finding in H. destruct (fi_Norm f) as [n|] eqn:En.
  - cbn [ft_normIn] in H. apply elem_of_union in H as [->%elem_of_singleton|H]; [|by left].
    right. exists f, n. split; [by left|done].
  - left. by destruct (ft_absolute t !! _).
Qed.

Definition fired_ok (t : factTables) : Prop :=
  forall c rule, is_Some (ft_absolute t !! (c, rule)) -> c ∈ default [] (ft_firedOn t !! rule).

Lemma index_finding_fired i f t : fired_ok t -> fired_ok (index_finding t i f) /\
  (forall key, is_Some (ft_absolute t !! key) -> is_Some (ft_absolute (index_finding t i f) !! key)) /\
  (fi_Norm f = None -> is_Some (ft_absolute (index_finding t i f) !! (fi_Cluster f, fi_Rule f))).
Proof.
  intros Ht. unfold index_finding. destruct (fi_Norm f) as [n|] eqn:En; [done|].
  destruct (ft_absolute t !! (fi_Cluster f, fi_Rule f)) eqn:E; [by rewrite E|]. cbn [ft_absolute ft_firedOn]. split_and!.
  - intros c rule H. cbn [ft_absolute ft_firedOn] in *. destruct (decide (rule = fi_Rule f)) as [->|Hne].
    + rewrite lookup_insert_eq. cbn [default from_option id]. apply elem_of_app.
      destruct (decide (c = fi_Cluster f)) as [->|Hc]; [right; by left|left].
      rewrite lookup_insert_ne in H by congruence. by apply Ht.
    + rewrite lookup_insert_ne by done. rewrite lookup_insert_ne in H by congruence. by apply Ht.
  - intros key H. destruct (decide (key = (fi_Cluster f, fi_Rule f))) as [->|Hne]; [by rewrite lookup_insert_eq|].
    by rewrite lookup_insert_ne by done.
  - intros _. by rewrite lookup_insert_eq.
Qed.

Lemma index_from_fired i suf t : fired_ok t -> fired_ok (index_from i suf t) /\
  (forall key, is_Some (ft_absolute t !! key) -> is_Some (ft_absolute (index_from i suf t) !! key)) /\
  (forall g, g ∈ suf -> fi_Norm g = None -> is_Some (ft_absolute (index_from i suf t) !! (fi_Cluster g, fi_Rule g))).
Proof.
  revert i t. induction suf as [|f suf IH]; intros i t Ht; cbn [index_from];
    [split; [done|split; [done|by intros g ?%elem_of_nil]]|].
  destruct (index_finding_fired i f t Ht) as (H1 & H2 & H3). destruct (IH (S i) _ H1) as (H4 & H5 & H6).
  split; [done|split; [auto|]]. intros g [->|Hg]%elem_of_cons Hn; auto.
Qed.

Definition tables_ok (t : factTables) (fs : list Finding) : Prop :=
  (forall c rule j, ft_absolute t !! (c, rule) = Some j ->
     exists g, fs !! j = Some g /\ fi_Norm g = None /\ fi_Cluster g = c /\ fi_Rule g = rule) /\
  (forall c s fld j, ft_norm t !! (c, s, fld) = Some j ->
     exists g n, fs !! j = Some g /\ fi_Norm g = Some n /\ fi_Cluster g = c /\ fi_Scanner g = s /\ nb_Field n = fld) /\
  (forall g, g ∈ fs -> fi_Norm g = None -> fi_Cluster g ∈ default [] (ft_firedOn t !! fi_Rule g)) /\
  (forall c s fld scope, (c, s, fld, scope) ∈ ft_normIn t ->
     exists h m, h ∈ fs /\ fi_Norm h = Some m /\ fi_Cluster h = c /\ fi_Scanner h = s /\ nb_Field m = fld /\ nb_Scope m = scope).

Lemma index_findings_ok fs : tables_ok (index_findings fs) fs.
Proof.
  destruct (index_from_spec fs 0 fs tables_zero) as [H1 H2]; [done|].
  destruct (index_from_fired 0 fs tables_zero) as (H3 & _ & H4).
  { intros c rule [j Hj]. cbn [ft_absolute tables_zero] in Hj. by rewrite lookup_empty in Hj. }
  split_and!.
  - intros c rule j Hj. destruct (H1 _ _ Hj) as [Hj'|(g & Hg & Hn & [= -> ->])]; [cbn [ft_absolute ft_norm tables_zero] in Hj'; by rewrite lookup_empty in Hj'|].
    by exists g.
  - intros c s fld j Hj. destruct (H2 _ _ Hj) as [Hj'|(g & n & Hg & Hn & [= -> -> ->])]; [cbn [ft_absolute ft_norm tables_zero] in Hj'; by rewrite lookup_empty in Hj'|].
    by exists g, n.
  - intros g Hg Hn. apply H3. by apply H4.
  - intros c s fld scope [H|(h & m & Hh & Hm & [= -> -> -> ->])]%index_from_normIn; [|by exists h, m].
    cbn [ft_normIn tables_zero] in H. set_solver.
Qed.

Lemma singles_spec t members fs rule field scope : tables_ok t fs -> singles t members rule field scope = true ->
  singled fs members rule field scope.
Proof.
  intros (_ & _ & Hf & Hn). unfold singles. destruct (members !! scope) as [population|] eqn:E; [|done].
  intros H. exists population. split; [done|]. intros g Hg Hgn <- Hc.
  rewrite forallb_forall in H. specialize (H (fi_Cluster g)). apply orb_true_iff in H as [H|H].
  - by rewrite bool_decide_eq_true_2 in H.
  - apply bool_decide_eq_true in H. by apply Hn.
  - apply list_elem_of_In. by apply Hf.
Qed.

Lemma counting_absolute t members fs f field scope j : tables_ok t fs ->
  counting t members (fi_Cluster f) field scope = Some j ->
  exists g, fs !! j = Some g /\ counted_by fs members scope field f g.
Proof.
  intros Ht. pose proof Ht as [H _]. unfold counting. destruct (lookupField _ _) as [s|] eqn:El; [|done].
  destruct (String.eqb_spec (fp_CountedBy s) "") as [|Hne]; [done|].
  destruct (ft_absolute t !! (fi_Cluster f, fp_CountedBy s)) as [k|] eqn:E; [|done].
  destruct (singles _ _ _ _ _) eqn:Es; [|done]. intros [= ->]. destruct (H _ _ _ E) as (g & Hg & Hn & Hc & Hr).
  exists g. split; [done|]. exists s. split_and!; try done. by apply (singles_spec t).
Qed.

(** ** Facts: restatement is well-founded *)

Definition max_depth : nat := 5.
Definition depth_of (r : FieldRef) : nat := restate_depth max_depth r.

Lemma restate_depth_le fuel r : restate_depth fuel r <= fuel.
Proof.
  revert r. induction fuel as [|fuel IH]; intros r; simpl; [lia|]. destruct (lookupField _ _) as [s|]; [|lia].
  induction (fp_RedundantWith s) as [|t l IHl]; simpl; [lia|]. specialize (IH t). lia.
Qed.

Lemma restate_decreases sc f s t : lookupField sc f = Some s -> t ∈ fp_RedundantWith s -> depth_of t < depth_of (ref sc f).
Proof.
  intros [Hs Hr]%lookupField_Some Ht.
  assert (H : Forall (fun s => Forall (fun t => depth_of t < depth_of (fp_Ref s)) (fp_RedundantWith s)) fieldSpecs).
  { apply (bool_decide_unpack _). vm_compute. exact I. }
  rewrite Forall_forall in H. specialize (H s Hs). rewrite Forall_forall in H. rewrite <- Hr. by apply H.
Qed.

Definition rank (f : Finding) : nat := SeverityRank (fi_Severity f).

Lemma rank_le f : rank f <= 3.
Proof. unfold rank, SeverityRank. repeat break_match; lia. Qed.

(** Where a norm finding stands: severity first, then how much it restates. *)
Definition standing (f : Finding) : nat :=
  (3 - rank f) * S max_depth + match fi_Norm f with Some n => depth_of (ref (fi_Scanner f) (nb_Field n)) | None => 0 end.

(** The field of a norm finding, and the fields the registry has it restate. *)
Definition field_of (f : Finding) (n : NormBasis) : FieldRef := ref (fi_Scanner f) (nb_Field n).

Definition restated_fields (f : Finding) (n : NormBasis) : list FieldRef :=
  match lookupField (fi_Scanner f) (nb_Field n) with Some s => fp_RedundantWith s | None => [] end.

(** The norm finding [f] tells again what [g] tells of the same cluster at its severity or
    above: [g] counts the field of [f] or one that field restates, or is the norm finding on
    a field it restates, or is a severer norm finding on a field that restates it. *)
Inductive restates (fs : list Finding) (members : gmap string (list string)) (f g : Finding) : Prop :=
| RestatesCount n field : fi_Norm f = Some n -> field = field_of f n \/ field ∈ restated_fields f n ->
    counted_by fs members (nb_Scope n) field f g -> rank f <= rank g -> restates fs members f g
| RestatesNorm n m : fi_Norm f = Some n -> fi_Norm g = Some m -> fi_Cluster g = fi_Cluster f ->
    field_of g m ∈ restated_fields f n -> rank f <= rank g -> restates fs members f g
| RestatesWeaker n m : fi_Norm f = Some n -> fi_Norm g = Some m -> fi_Cluster g = fi_Cluster f ->
    field_of f n ∈ restated_fields g m -> rank f < rank g -> restates fs members f g.

Section Justified.
Context (fs : list Finding) (members : gmap string (list string)).

(** Finding [i] may go because of finding [j]. *)
Definition stated_by (i j : nat) : Prop :=
  exists f g, fs !! i = Some f /\ fs !! j = Some g /\ fi_Norm f <> None /\ restates fs members f g /\
    (fi_Norm g = None \/ standing g < standing f).

Definition justified (drop : gset nat) : Prop := forall i, i ∈ drop -> exists j, stated_by i j.

Lemma justified_add drop i j : justified drop -> stated_by i j -> justified ({[i]} ∪ drop).
Proof. intros Hd Hj k. rewrite elem_of_union, elem_of_singleton. intros [->|Hk]; [eauto|by apply Hd]. Qed.
End Justified.

Lemma standing_rank f g : rank g < rank f -> standing f < standing g.
Proof.
  intros H. unfold standing. pose proof (rank_le f).
  assert (match fi_Norm f with Some n => depth_of (ref (fi_Scanner f) (nb_Field n)) | None => 0 end <= max_depth) as Hd.
  { destruct (fi_Norm f); [apply restate_depth_le|unfold max_depth; lia]. }
  unfold max_depth in *. destruct (fi_Norm g); lia.
Qed.

Lemma standing_depth f g n m : rank f <= rank g -> fi_Norm f = Some n -> fi_Norm g = Some m ->
  depth_of (ref (fi_Scanner g) (nb_Field m)) < depth_of (ref (fi_Scanner f) (nb_Field n)) -> standing g < standing f.
Proof. intros H Hn Hm Hd. unfold standing. rewrite Hn, Hm. pose proof (rank_le g). unfold max_depth. nia. Qed.

Lemma rank_at_lookup fs j g : fs !! j = Some g -> rank_at fs j = rank g.
Proof. intros H. unfold rank_at. by rewrite (nth_lookup_Some _ _ _ _ H). Qed.

Lemma restated_decreases f n t : t ∈ restated_fields f n -> depth_of t < depth_of (field_of f n).
Proof.
  unfold restated_fields. destruct (lookupField _ _) as [s|] eqn:El; [|by intros ?%elem_of_nil].
  by apply restate_decreases.
Qed.

(** ** Facts: the two passes *)

(** What absorbing a norm leaves alone. *)
Definition same_fact (g f : Finding) : Prop :=
  fi_Title g = fi_Title f /\ fi_Severity g = fi_Severity f /\ fi_Cluster g = fi_Cluster f /\
  fi_Scanner g = fi_Scanner f /\ fi_Rule g = fi_Rule f /\ fi_Affected g = fi_Affected f /\ fi_Marks g = fi_Marks f /\
  (fi_Norm f <> None -> fi_Norm g = fi_Norm f) /\
  (ends_with (fi_Description f) partialScanNote -> ends_with (fi_Description g) partialScanNote).

Lemma same_fact_refl f : same_fact f f.
Proof. done. Qed.

Lemma same_facts_refl l : Forall2 same_fact l l.
Proof. induction l; constructor; [apply same_fact_refl|done]. Qed.

Lemma absorb_same n f g h : same_fact g h -> same_fact (absorb n f g) h.
Proof.
  unfold absorb, same_fact. intros (H1 & H2 & H3 & H4 & H5 & H6 & H7 & H8 & H9).
  destruct (fi_Norm g) as [m|] eqn:E; simpl; [rewrite E; by split_and!|]. split_and!; try done.
  - intros Hn. specialize (H8 Hn). congruence.
  - intros Hd. by apply appendSentence_marked, H9.
Qed.

(** A kept finding: one of the list, which may have taken the norm of a finding it counts. *)
Definition absorbed (fs : list Finding) (members : gmap string (list string)) (h g : Finding) : Prop :=
  same_fact h g /\
  (fi_Norm h = fi_Norm g \/ exists f n, f ∈ fs /\ fi_Norm f = Some n /\ fi_Norm h = Some n /\
     counted_by fs members (nb_Scope n) (field_of f n) f g).

Lemma absorbed_refl fs members l : Forall2 (absorbed fs members) l l.
Proof. induction l; constructor; [split; [apply same_fact_refl|by left]|done]. Qed.

Lemma absorb_absorbed fs members f n h g : f ∈ fs -> fi_Norm f = Some n ->
  counted_by fs members (nb_Scope n) (field_of f n) f g -> absorbed fs members h g -> absorbed fs members (absorb n f h) g.
Proof.
  intros Hf Hn Hc [Hs Hh]. split; [by apply absorb_same|]. unfold absorb. destruct (fi_Norm h) as [m|] eqn:E; [by rewrite E|].
  right. by exists f, n.
Qed.

Lemma pass_counted_ok t members fs ks st : tables_ok t fs -> Forall (fun i => i < length fs) ks ->
  justified fs members (fst st) -> Forall2 (absorbed fs members) (snd st) fs ->
  let st' := fold_left (pass_counted t members fs) ks st in
  justified fs members (fst st') /\ Forall2 (absorbed fs members) (snd st') fs.
Proof.
  intros Ht Hlt. revert st. induction Hlt as [|i l Hi Hl IH]; intros [drop fs1] Hj Hs; [done|].
  cbn [fold_left]. apply IH; clear IH; unfold pass_counted;
    destruct (lookup_lt_is_Some_2 fs i Hi) as [f Hf]; rewrite (nth_lookup_Some _ _ finding_zero _ Hf);
    (destruct (fi_Norm f) as [n|] eqn:En; [|done]); cbn [fst snd] in *; fold (field_of f n);
    (destruct (counting _ _ _ _ _) as [j|] eqn:Ec; [|done]);
    destruct (counting_absolute _ _ _ _ _ _ _ Ht Ec) as (g & Hg & Hgc);
    rewrite (rank_at_lookup _ _ _ Hg); fold (rank f); (destruct (Nat.ltb_spec (rank g) (rank f)); [done|]); cbn [fst snd].
  - apply (justified_add _ _ _ i j); [done|]. exists f, g. split_all; try done; [congruence| |left].
    + eapply (RestatesCount _ _ f g n); [done|by left|exact Hgc|lia].
    + by destruct Hgc as (? & _ & _ & ? & _).
  - apply Forall2_same_length_lookup in Hs as [Hlen Hlk]. apply Forall2_same_length_lookup.
    split; [by rewrite length_alter|]. intros k a b Ha Hb. destruct (decide (k = j)) as [->|Hne].
    + rewrite list_lookup_alter_eq in Ha. destruct (fs1 !! j) as [a0|] eqn:Ea; [|done]. simplify_eq/=.
      apply absorb_absorbed; [by eapply list_elem_of_lookup_2|done|done|by eapply Hlk].
    + rewrite list_lookup_alter_ne in Ha by done. by eapply Hlk.
Qed.

Lemma restated_ok t members fs i f n targets drop : tables_ok t fs -> fs !! i = Some f -> fi_Norm f = Some n ->
  (forall target, target ∈ targets -> target ∈ restated_fields f n) ->
  justified fs members drop -> justified fs members (restated t members fs i f (nb_Scope n) targets drop).
Proof.
  intros Ht Hf Hn. revert drop. induction targets as [|target targets IH]; intros drop Hdep Hj; cbn [restated]; [done|].
  assert (Hin : target ∈ restated_fields f n) by (apply Hdep; by left).
  assert (IH' : forall d, justified fs members d ->
    justified fs members (restated t members fs i f (nb_Scope n) targets d)).
  { intros d Hd. apply IH; [|done]. intros x Hx. apply Hdep. by right. }
  fold (rank f). destruct (match counting _ _ _ _ _ with Some j => _ | None => _ end) eqn:Ec.
  { destruct (counting t members (fi_Cluster f) target (nb_Scope n)) as [j|] eqn:Ecj; [|done].
    destruct (counting_absolute _ _ _ _ _ _ _ Ht Ecj) as (g & Hg & Hgc). rewrite (rank_at_lookup _ _ _ Hg) in Ec.
    apply Nat.leb_le in Ec. apply (justified_add _ _ _ i j); [done|]. exists f, g. split_all; try done; [congruence| |left].
    - eapply (RestatesCount _ _ f g n target); [done|by right|exact Hgc|done].
    - by destruct Hgc as (? & _ & _ & ? & _). }
  destruct (ft_norm t !! _) as [j|] eqn:En; [|by apply IH'].
  destruct (proj1 (proj2 Ht) _ _ _ _ En) as (g & m & Hg & Hgn & Hgc & Hgs & Hgf). rewrite (rank_at_lookup _ _ _ Hg).
  assert (Hfield : field_of g m = target) by (unfold field_of, ref; rewrite Hgs, Hgf; by destruct target).
  rewrite <- Hfield in Hin.
  destruct (Nat.leb_spec (rank f) (rank g)) as [Hle|Hlt].
  - apply (justified_add _ _ _ i j); [done|]. exists f, g. split_all; try done; [congruence| |].
    + by eapply RestatesNorm.
    + right. apply (standing_depth f g n m Hle Hn Hgn). by apply restated_decreases.
  - apply IH'. destruct (counting _ _ _ _ _); [done|]. apply (justified_add _ _ _ j i); [done|].
    exists g, f. split_all; try done; [congruence| |].
    + by eapply RestatesWeaker.
    + right. by apply standing_rank.
Qed.

Lemma pass_restated_ok t members fs ks drop : tables_ok t fs -> Forall (fun i => i < length fs) ks ->
  justified fs members drop -> justified fs members (fold_left (pass_restated t members fs) ks drop).
Proof.
  intros Ht Hlt. revert drop. induction Hlt as [|i l Hi Hl IH]; intros drop Hj; [done|]. cbn [fold_left]. apply IH.
  unfold pass_restated. destruct (lookup_lt_is_Some_2 fs i Hi) as [f Hf]. rewrite (nth_lookup_Some _ _ finding_zero _ Hf).
  destruct (fi_Norm f) as [n|] eqn:En; [|done]. case_bool_decide; [done|]. by apply restated_ok.
Qed.

Lemma zip_seq_in {A} (l : list A) s k x : (k, x) ∈ zip (seq s (length l)) l <-> s <= k /\ l !! (k - s) = Some x.
Proof.
  revert s. induction l as [|y l IH]; intros s; simpl; [split; [by intros ?%elem_of_nil|intros [_ ?]; done]|].
  rewrite elem_of_cons, IH. split.
  - intros [[= -> ->]|[H1 H2]]; [by rewrite Nat.sub_diag|]. split; [lia|]. by replace (k - s) with (S (k - S s)) by lia.
  - intros [H1 H2]. destruct (decide (k = s)) as [->|Hne]; [rewrite Nat.sub_diag in H2; left; simpl in H2; congruence|].
    right. split; [lia|]. by replace (k - s) with (S (k - S s)) in H2 by lia.
Qed.

Lemma keep_from_in drop fs g : g ∈ keep_from drop fs <-> exists k, fs !! k = Some g /\ k ∉ drop.
Proof.
  unfold keep_from. rewrite list_elem_of_fmap. split.
  - intros ([k x] & -> & Hin). apply list_elem_of_In, filter_In in Hin as [Hin Hd].
    apply list_elem_of_In, zip_seq_in in Hin as [_ Hk]. rewrite Nat.sub_0_r in Hk. exists k. split; [done|].
    by apply negb_true_iff, bool_decide_eq_false in Hd.
  - intros (k & Hk & Hd). exists (k, g). split; [done|]. apply list_elem_of_In, filter_In. split.
    + apply list_elem_of_In, zip_seq_in. split; [lia|]. by rewrite Nat.sub_0_r.
    + by apply negb_true_iff, bool_decide_eq_false.
Qed.

Lemma drop_marks_ok t members fs drop fs1 : tables_ok t fs -> drop_marks t members fs = (drop, fs1) ->
  justified fs members drop /\ Forall2 (absorbed fs members) fs1 fs.
Proof.
  intros Ht. unfold drop_marks. assert (Hlt : Forall (fun i => i < length fs) (seq 0 (length fs))).
  { apply Forall_forall. intros i Hi%elem_of_seq. lia. }
  destruct (pass_counted_ok t members fs _ (∅, fs) Ht Hlt) as [Hj Hs].
  { intros i Hi. set_solver. } { cbn [snd]. apply absorbed_refl. }
  destruct (fold_left _ _ (∅, fs)) as [d f1]. intros [= <- <-]. split; [|done]. by apply pass_restated_ok.
Qed.

(** A finding that stays, as it was or with a norm absorbed. *)
Lemma kept_stays fs members drop fs1 k f : Forall2 (absorbed fs members) fs1 fs -> fs !! k = Some f -> k ∉ drop ->
  exists g, g ∈ keep_from drop fs1 /\ absorbed fs members g f.
Proof.
  intros Hs Hk Hd. apply Forall2_same_length_lookup in Hs as [Hlen Hlk].
  destruct (lookup_lt_is_Some_2 fs1 k) as [g Hg]; [rewrite Hlen; by eapply lookup_lt_Some|].
  exists g. split; [apply keep_from_in; by exists k|by eapply Hlk].
Qed.

(** Following the justifications ends at a finding that stays. *)
Lemma stays_stated fs members drop : justified fs members drop -> forall i f, fs !! i = Some f ->
  exists k g, fs !! k = Some g /\ k ∉ drop /\ rtc (restates fs members) f g.
Proof.
  intros Hj i f. remember (standing f) as m eqn:Em. revert i f Em.
  induction (lt_wf m) as [m _ IH]. intros i f -> Hf.
  destruct (decide (i ∈ drop)) as [Hd|Hd]; [|by exists i, f].
  destruct (Hj i Hd) as (j & f' & g & Hf' & Hg & Hn & Hr & Hcase). simplify_eq.
  assert (Hstay : j ∉ drop \/ standing g < standing f).
  { destruct Hcase as [Hgn|]; [left|by right]. intros Hjd. destruct (Hj j Hjd) as (? & g' & ? & Hg' & _ & Hn' & _). congruence. }
  destruct Hstay as [Hjd|Hlt]; [exists j, g; split_all; try done; by apply rtc_once|].
  destruct (IH (standing g) Hlt j g eq_refl Hg) as (k & h & Hk & Hkd & Hkr).
  exists k, h. split_all; try done. by eapply rtc_l.
Qed.

(** A cohort named "fleet", the one small untagged fleets get, replaces the fleet's
    own population: a norm over five clusters is then judged against two of them. *)
Lemma fleet_scope_overwritten r rest small :
  rp_Cohorts r = rest ++ [small] -> cs_Name small = NormScopeFleet ->
  scopeMembers r !! NormScopeFleet = Some (cs_Clusters small).
Proof.
  intros H Hn. unfold scopeMembers. rewrite H, fold_left_app. cbn [fold_left]. rewrite Hn. apply lookup_insert_eq.
Qed.

Lemma dropped_from_absorbed fs members h : h ∈ dropRedundant fs members ->
  exists g, g ∈ fs /\ absorbed fs members h g.
Proof.
  unfold dropRedundant. pose proof (index_findings_ok fs) as Ht.
  destruct (drop_marks (index_findings fs) members fs) as [drop fs1] eqn:E.
  destruct (drop_marks_ok _ _ _ _ _ Ht E) as [_ Hs]. intros (k & Hk & _)%keep_from_in.
  apply Forall2_same_length_lookup in Hs as [Hlen Hlk].
  destruct (lookup_lt_is_Some_2 fs k) as [f Hf]; [rewrite <- Hlen; by eapply lookup_lt_Some|].
  exists f. split; [by eapply list_elem_of_lookup_2|by eapply Hlk].
Qed.

Lemma dropped_from fs members g : g ∈ dropRedundant fs members -> exists f, f ∈ fs /\ same_fact g f.
Proof. intros (f & Hf & Hs & _)%dropped_from_absorbed. by exists f. Qed.

Lemma absolute_stays fs members f : f ∈ fs -> fi_Norm f = None -> exists g, g ∈ dropRedundant fs members /\ same_fact g f.
Proof.
  unfold dropRedundant. pose proof (index_findings_ok fs) as Ht.
  destruct (drop_marks (index_findings fs) members fs) as [drop fs1] eqn:E.
  destruct (drop_marks_ok _ _ _ _ _ Ht E) as [Hj Hs].
  intros (i & Hf)%list_elem_of_lookup Hn. destruct (kept_stays fs members drop fs1 i f Hs Hf) as (g & Hg & Hsame & _); [|by exists g].
  intros Hd. destruct (Hj i Hd) as (j & f' & g & Hf' & _ & Hn' & _). congruence.
Qed.

(** ** Properties *)

Module Facts.

(** C19: removing restatements loses no fact. Every finding either stays or is told by one
    that stays, through a chain of restatements the field registry declares: each link is on
    the same cluster, at the same severity or above, and goes to the absolute finding that
    counts the field or a field it restates (where in the norm's scope that rule fires only
    on clusters off the norm), to the norm finding on a field it restates, or to a severer
    norm finding on a field that restates it. A finding of an absolute rule always stays, and
    nothing is added: what stays is a finding of the list, which may have taken only the norm
    of a finding it counts. *)
Theorem dropRedundant_keeps_facts fs members :
  (forall f, f ∈ fs -> exists g h, h ∈ dropRedundant fs members /\ absorbed fs members h g /\
     rtc (restates fs members) f g) /\
  (forall f, f ∈ fs -> fi_Norm f = None -> exists h, h ∈ dropRedundant fs members /\ same_fact h f) /\
  (forall h, h ∈ dropRedundant fs members -> exists g, g ∈ fs /\ absorbed fs members h g).
Proof.
  split; [|split; [intros f; apply absolute_stays|intros g; apply dropped_from_absorbed]].
  unfold dropRedundant. pose proof (index_findings_ok fs) as Ht.
  destruct (drop_marks (index_findings fs) members fs) as [drop fs1] eqn:E.
  destruct (drop_marks_ok _ _ _ _ _ Ht E) as [Hj Hs].
  intros f (i & Hf)%list_elem_of_lookup. destruct (stays_stated fs members drop Hj i f Hf) as (k & g & Hk & Hd & Hr).
  destruct (kept_stays fs members drop fs1 k g Hs Hk Hd) as (h & Hh & Hsame). by exists g, h.
Qed.

(** A healthy row means looked at and clean: a cluster's status is critical or
    degraded exactly when a critical or warning finding is charged to it, unknown
    when neither is but some expected scanner did not observe it, and healthy only
    when every expected scanner ran. *)
Theorem health_status r findings cluster :
  let h := cluster_health r findings (expectedScanners r) cluster in
  let crit := charges SeverityCritical cluster findings in
  let warn := charges SeverityWarning cluster findings in
  (ch_Status h = "critical" <-> 0 < crit) /\
  (ch_Status h = "degraded" <-> crit = 0 /\ 0 < warn) /\
  (ch_Status h = "unknown" <-> crit = 0 /\ warn = 0 /\ 0 < ch_BlindScanners h) /\
  (ch_Status h = "healthy" <-> crit = 0 /\ warn = 0 /\
     forall s, s ∈ expectedScanners r -> run_blind r cluster s = false).
Proof.
  cbv zeta. unfold cluster_health. cbn [ch_Status ch_BlindScanners]. unfold base_status.
  rewrite !counts_spec by done. cbn [snd clusterRunCounts].
  rewrite <- (filter_none (run_blind r cluster) (expectedScanners r)).
  generalize (charges SeverityCritical cluster findings), (charges SeverityWarning cluster findings),
    (length (List.filter (run_blind r cluster) (expectedScanners r))). intros c w b.
  destruct (Nat.ltb_spec 0 c), (Nat.ltb_spec 0 w), (Nat.ltb_spec 0 b); cbn; split_all;
    (split; [intros Hx; first [discriminate Hx|split_all; lia]|intros Hx; first [reflexivity|exfalso; lia]]).
Qed.

(** The published list is ordered and identified: sorting by severity is
    stable, so findings of one severity keep their order, and every finding carries
    the fingerprint of its cluster, scanner and rule. *)
Theorem findings_published fs :
  let out := stampFingerprints (sortFindings fs) in
  map (fun f => with_fingerprint f "") out ≡ₚ map (fun f => with_fingerprint f "") fs /\
  StronglySorted (fun f g => SeverityRank (fi_Severity g) <= SeverityRank (fi_Severity f)) out /\
  (forall sev, map (fun f => with_fingerprint f "") (List.filter (fun f => SeverityRank (fi_Severity f) =? sev) out) =
     map (fun f => with_fingerprint f "") (List.filter (fun f => SeverityRank (fi_Severity f) =? sev) fs)) /\
  (forall f, f ∈ out -> fi_Fingerprint f = FindingFingerprint f).
Proof.
  cbv zeta. unfold stampFingerprints, sortFindings.
  assert (Hstrip : forall l, map (fun f => with_fingerprint f "") (map (fun f => with_fingerprint f (FindingFingerprint f)) l)
    = map (fun f => with_fingerprint f "") l) by (intros l; rewrite map_map; by apply map_ext).
  split_all.
  - rewrite Hstrip. apply Permutation_map, isort_perm.
  - eapply StronglySorted_map; [|apply (isort_sorted finding_rank_cmp)].
    intros x y H. cbn. unfold cmp_le, finding_rank_cmp, cmp_rev, cmp_on in H. by apply Nat.compare_le_iff in H.
  - intros sev. rewrite filter_map_comm, Hstrip. f_equal. cbn [fi_Severity with_fingerprint].
    apply (isort_stable finding_rank_cmp (fun f => SeverityRank (fi_Severity f) =? sev)).
    intros x y Hx%Nat.eqb_eq Hy%Nat.eqb_eq. unfold finding_rank_cmp, cmp_rev, cmp_on. rewrite Hx, Hy.
    apply Nat.compare_refl.
  - intros f (g & -> & _)%list_elem_of_fmap. reflexivity.
Qed.

End Facts.
