(* ===== verification/Finders.v ===== *)
(** * What the finding generators share

    Reading a decoded payload with Go's two-valued type assertions, and building the
    findings of internal/report/findings_*.go. *)

From Stdlib Require Import ZArith Lia String Ascii.
From stdpp Require Import base gmap strings list.
From S2P Require Import Prelude Float64 Text Data Observe Format Findings.

Local Open Scope nat_scope.

(** ** Payload members

    [v, _ := m[k].(T)]: the zero value where the member is absent or of another type. *)
Abbreviation obj := (gmap string json).

Definition get_str (m : obj) (k : string) : string := match m !! k with Some (JStr s) => s | _ => "" end.
Definition get_bool (m : obj) (k : string) : bool := match m !! k with Some (JBool b) => b | _ => false end.
Definition get_arr (m : obj) (k : string) : list json := match m !! k with Some (JArr l) => l | _ => [] end.
Definition get_num (m : obj) (k : string) : float64 := default f_zero (util_Float64 (m !! k)).
Definition get_int (m : obj) (k : string) : Z := f_to_int (get_num m k).

(** The objects of an array, in order; other entries are passed over. *)
Definition as_obj (v : json) : option obj := match v with JObj kv => Some (list_to_map kv) | _ => None end.
Definition objects (l : list json) : list obj := omap as_obj l.

(** The strings of an array, in order. *)
Definition as_str (v : json) : option string := match v with JStr s => Some s | _ => None end.
Definition strings_of (l : list json) : list string := omap as_str l.

(** ** Building findings *)

Definition dq : string := String "034" "".

Definition command (c : string) : option Remediation :=
  Some {| re_Command := c; re_YAML := ""; re_RunbookURL := "" |}.
Definition manifest (y : string) : option Remediation :=
  Some {| re_Command := ""; re_YAML := y; re_RunbookURL := "" |}.

Definition kubectl (cluster rest : string) : option Remediation :=
  command ("kubectl --context " ++ cluster ++ " " ++ rest)%string.

Definition finding_of (rule title desc sev cluster scanner : string) (affected : list string)
  (rem : option Remediation) : Finding := {|
  fi_Title := title; fi_Description := desc; fi_Severity := sev; fi_Cluster := cluster; fi_Scanner := scanner;
  fi_Rule := rule; fi_Fingerprint := ""; fi_Acked := false; fi_Affected := affected; fi_Remediation := rem;
  fi_Norm := None; fi_Marks := [] |}.

(** A generator reads one section: without it there is nothing to say. *)
Definition with_section (r : Report) (name : string) (gen : list Finding) : list Finding :=
  match rp_Sections r !! name with None => [] | Some _ => gen end.

(** [if c { findings = append(findings, f) }]. *)
Definition when (c : bool) (f : Finding) : list Finding := if c then [f] else [].

(** ** What every finding about one cluster rests on

    The run it names was observed on its cluster, and a claim read off a partial run says
    so at the end of its description. Three rules leave the note out: the composite rule
    never adds it, and two more lose it when a total is missing from the payload. *)
Definition grounded (r : Report) (f : Finding) : Prop :=
  fi_Cluster f ∈ rp_Clusters r /\
  seen (snd (clusterView r (fi_Scanner f) (fi_Cluster f))) = true.

Definition excused (r : Report) (f : Finding) : Prop :=
  let missing total := seen (snd (observeInt r (fi_Scanner f) (fi_Cluster f) total)) = false in
  fi_Rule f = "image-audit/bad-deploy" \/
  (fi_Rule f = "security/psa-unenforced" /\ missing "namespace_count") \/
  (fi_Rule f = "image-audit/latest-tag" /\ missing "total_containers").

Definition marked (r : Report) (f : Finding) : Prop :=
  snd (clusterView r (fi_Scanner f) (fi_Cluster f)) = partial ->
  ends_with (fi_Description f) partialScanNote \/ excused r f.

(** The findings of [scanner] on one cluster. *)
Record supports (r : Report) (scanner c : string) (f : Finding) : Prop := Supports {
  su_cluster : fi_Cluster f = c;
  su_scanner : fi_Scanner f = scanner;
  su_seen : seen (snd (clusterView r scanner c)) = true;
  su_norm : fi_Norm f = None;
  su_marked : marked r f }.

Definition from_cluster (r : Report) (scanner : string) (gen : string -> list Finding) : Prop :=
  forall c, Forall (supports r scanner c) (gen c).

Definition honest (r : Report) (f : Finding) : Prop := grounded r f /\ marked r f.

(** What a generator returns, before any norm is absorbed. *)
Definition found (r : Report) (f : Finding) : Prop := honest r f /\ fi_Norm f = None.

Lemma found_flat r scanner gen : from_cluster r scanner gen -> Forall (found r) (flat_map gen (rp_Clusters r)).
Proof.
  intros H. apply Forall_forall. intros f Hf. apply list_elem_of_In, in_flat_map in Hf as (c & Hc & Hf).
  specialize (H c). rewrite Forall_forall in H. destruct (H f) as [<- <- Hs Hn Hm]; [by apply list_elem_of_In|].
  split; [split; [split; [by apply list_elem_of_In|done]|done]|done].
Qed.

Lemma found_section r name scanner gen : from_cluster r scanner gen ->
  Forall (found r) (with_section r name (flat_map gen (rp_Clusters r))).
Proof. intros H. unfold with_section. destruct (rp_Sections r !! name); [by eapply found_flat|constructor]. Qed.

Lemma observeInt_view r name c field v o : observeInt r name c field = (v, o) -> seen o = true ->
  snd (clusterView r name c) = o.
Proof.
  unfold observeInt, observe. destruct (clusterView r name c) as [m obs]. destruct obs; [by intros [= <- <-]| |];
    destruct (util_Float64 (m !! field)); by intros [= <- <-].
Qed.

Lemma Forall_when (P : Finding -> Prop) b f : (b = true -> P f) -> Forall P (when b f).
Proof. destruct b; [|constructor]. intros H. constructor; [by apply H|constructor]. Qed.

Lemma note_ends desc o : o = partial -> ends_with (desc ++ note o) partialScanNote.
Proof. intros ->. by exists desc. Qed.

Section Supported.
Context (r : Report) (n c rule title desc sev : string) (aff : list string) (rem : option Remediation).

(** A finding that ends with the note of what it rests on, down to how its run was read. *)
Lemma supported o : snd (clusterView r n c) = o -> seen o = true ->
  supports r n c (finding_of rule title (desc ++ note o) sev c n aff rem).
Proof.
  intros H Ho. split; [done|done|by rewrite H|done|]. unfold marked. cbn. intros Hp. left. apply note_ends. congruence.
Qed.

Lemma supported_field field v o : observeInt r n c field = (v, o) -> seen o = true ->
  supports r n c (finding_of rule title (desc ++ note o) sev c n aff rem).
Proof. intros H Ho. eapply supported; [by eapply observeInt_view|done]. Qed.

Lemma supported_fields f1 v1 o1 f2 v2 o2 : observeInt r n c f1 = (v1, o1) -> observeInt r n c f2 = (v2, o2) ->
  seen o1 = true -> seen o2 = true ->
  supports r n c (finding_of rule title (desc ++ note (weakest [o1; o2])) sev c n aff rem).
Proof.
  intros H1 H2 Ho1 Ho2. pose proof (observeInt_view _ _ _ _ _ _ H1 Ho1) as E1.
  pose proof (observeInt_view _ _ _ _ _ _ H2 Ho2) as E2. assert (o1 = o2) as -> by congruence.
  replace (weakest [o2; o2]) with o2 by (by destruct o2). by eapply supported.
Qed.

(** A claim that needs a completed run has no partial reading. *)
Lemma supported_whole : snd (clusterView r n c) = observed -> supports r n c (finding_of rule title desc sev c n aff rem).
Proof. intros H. split; [done|done|by rewrite H|done|]. unfold marked. cbn. by rewrite H. Qed.
End Supported.

(** Names every reading of the goal. *)
Ltac read_fields :=
  repeat match goal with
  | |- context [observeInt ?r ?n ?c ?f] => destruct (observeInt r n c f) as [? ?] eqn:?
  end.

Ltac split_bools :=
  repeat match goal with H : (_ && _)%bool = true |- _ => apply andb_true_iff in H as [? ?] end.

(** One guarded finding at a time. *)
Ltac each_when := repeat apply Forall_app_2; apply Forall_when; intros ?; split_bools.
