(* ===== verification/Capacity.v ===== *)
(** * internal/report/capacity.go: the capacity correlator

    Cluster states read off several signals at once. Groups are a list of (name, members)
    pairs in the order Go ranges over the map. *)

From Stdlib Require Import ZArith Lia String Floats.SpecFloat Sorting.Sorted.
From stdpp Require Import base gmap strings list.
From S2P Require Import Prelude Maps Float64 Text Data Score Observe Format Population Findings Finders.

Local Open Scope Z_scope.

Definition capacityCritical : string := "critical".
Definition capacityStrained : string := "strained".
Definition capacityBusy : string := "busy".
Definition capacityHealthy : string := "healthy".
Definition capacityUnknown : string := "unknown".

Record CapacityAnalysis := {
  cy_Cluster : string;
  cy_CPUUtilization : option float64;
  cy_MemoryUtilization : option float64;
  cy_HasMemoryPressure : bool;
  cy_HasDiskPressure : bool;
  cy_HasOOMEvents : bool;
  cy_HasSchedulingFailures : bool;
  cy_NodeCount : Z;
  cy_HealthyNodes : Z;
  cy_HeadroomCPU : option float64;
  cy_HeadroomMemory : option float64;
  cy_Status : string;
  cy_Recommendation : string;
  cy_NodesNeededForTarget : Z;
  cy_GroupDeviation : string
}.

Record clusterSignals := {
  sg_utilObs : observation;
  sg_utilGap : string;
  sg_cpuPct : float64;
  sg_memPct : float64;
  sg_nodeCount : Z;
  sg_healthyNodes : Z;
  sg_memPressure : Z;
  sg_diskPressure : Z;
  sg_notReady : Z;
  sg_oomEvents : bool;
  sg_schedFail : bool
}.

Definition above (x : float64) (n : Z) : bool := f_ltb (f_of_Z n) x.

Definition assessStatus (sig : clusterSignals) : string :=
  let seen := seen (sg_utilObs sig) in
  let hasPressure := (0 <? sg_memPressure sig) || (0 <? sg_diskPressure sig) in
  let hasFailures := sg_oomEvents sig || sg_schedFail sig in
  let highUtil := seen && (above (sg_memPct sig) 85 || above (sg_cpuPct sig) 85) in
  let elevatedUtil := seen && (above (sg_memPct sig) 70 || above (sg_cpuPct sig) 70) in
  if hasPressure && hasFailures then capacityCritical
  else if (0 <? sg_notReady sig) && highUtil then capacityCritical
  else if hasPressure && highUtil then capacityCritical
  else if hasPressure || hasFailures then capacityStrained
  else if highUtil then capacityStrained
  else if elevatedUtil then capacityBusy
  else if negb seen then capacityUnknown
  else capacityHealthy.

Definition nodesNeeded (sig : clusterSignals) (targetPct : float64) : Z :=
  if negb (seen (sg_utilObs sig)) || (sg_nodeCount sig =? 0) || f_leb (sg_memPct sig) targetPct then 0
  else
    let usedUnits := f_mul (f_div (sg_memPct sig) (f_of_Z 100)) (f_of_Z (sg_nodeCount sig)) in
    let needed := f_div usedUnits (f_div targetPct (f_of_Z 100)) in
    Z.max (wrap64 (f_to_int (f_ceil needed) - sg_nodeCount sig)) 1.

Definition pctText (p : option float64) : string :=
  match p with None => "unknown" | Some v => (show_fixed 0 v ++ "%")%string end.

Definition memClause (sig : clusterSignals) : string :=
  if seen (sg_utilObs sig) then (" while average memory is " ++ show_fixed 0 (sg_memPct sig) ++ "%")%string else "".

Definition target : float64 := f_of_Z 70.
Definition hundred_less (x : float64) : float64 := f_sub (f_of_Z 100) x.

Definition recommend_critical (sig : clusterSignals) : string :=
  let needed := nodesNeeded sig target in
  let mem := itoa (sg_memPressure sig) in
  let mp := 0 <? sg_memPressure sig in
  if sg_oomEvents sig && mp && (needed =? 0) then
    ("Cluster is actively OOM-killing pods with " ++ mem ++ " node(s) under memory pressure" ++ memClause sig ++
     ". The load is uneven: set memory limits and rebalance the workloads on those nodes.")%string
  else if sg_oomEvents sig && mp then
    ("Cluster is actively OOM-killing pods with " ++ mem ++ " node(s) under memory pressure. Add " ++ itoa needed ++
     " node(s) to bring memory below 70% or increase per-node memory.")%string
  else if mp && (needed =? 0) then
    (mem ++ " of " ++ itoa (sg_nodeCount sig) ++ " nodes report MemoryPressure" ++ memClause sig ++
     ". The load is uneven: rebalance or evict low-priority workloads on those nodes.")%string
  else if mp then
    (mem ++ " of " ++ itoa (sg_nodeCount sig) ++ " nodes report MemoryPressure. Add " ++ itoa needed ++
     " node(s) to relieve pressure or evict low-priority workloads.")%string
  else if (0 <? sg_notReady sig) && negb (seen (sg_utilObs sig)) then
    (itoa (sg_notReady sig) ++ " node(s) are not Ready. Investigate node conditions before scaling.")%string
  else if 0 <? sg_notReady sig then
    (itoa (sg_notReady sig) ++ " node(s) are not Ready. Investigate node conditions before scaling. " ++
     "Remaining nodes are overloaded at " ++ show_fixed 0 (sg_memPct sig) ++ "% memory.")%string
  else if needed =? 0 then "Resource exhaustion detected. Check node conditions and events before scaling."
  else ("Resource exhaustion detected. Add " ++ itoa needed ++ " node(s) to bring utilization below 70%.")%string.

Definition recommend_strained (sig : clusterSignals) : string :=
  let needed := nodesNeeded sig target in
  let elevated := ("Utilization is elevated (CPU " ++ show_fixed 0 (sg_cpuPct sig) ++ "%, memory " ++
                   show_fixed 0 (sg_memPct sig) ++ "%). Monitor closely.")%string in
  if sg_schedFail sig && (needed =? 0) then
    ("FailedScheduling events show pods that do not fit" ++ memClause sig ++
     ". Check pod requests, node selectors, taints, and affinity before adding nodes.")%string
  else if sg_schedFail sig then
    ("FailedScheduling events indicate insufficient capacity. Add " ++ itoa needed ++
     " node(s) or reduce workload resource requests.")%string
  else if negb (seen (sg_utilObs sig)) then
    ("Nodes report pressure or failure events, but utilization is unknown: " ++ sg_utilGap sig)%string
  else if above (sg_memPct sig) 85 then
    ("Memory at " ++ show_fixed 0 (sg_memPct sig) ++ "% with no pressure yet, but little headroom remains. " ++
     "Consider adding " ++ itoa needed ++ " node(s) proactively.")%string
  else if needed =? 0 then elevated
  else (elevated ++ " " ++ itoa needed ++ " additional node(s) would bring usage below 70%.")%string.

Definition recommend (sig : clusterSignals) (status : string) : string :=
  if String.eqb status capacityUnknown then ("Utilization is unknown: " ++ sg_utilGap sig)%string
  else if String.eqb status capacityCritical then recommend_critical sig
  else if String.eqb status capacityStrained then recommend_strained sig
  else if String.eqb status capacityBusy then
    ("Cluster is running at CPU " ++ show_fixed 0 (sg_cpuPct sig) ++ "%, memory " ++ show_fixed 0 (sg_memPct sig) ++
     "% with no pressure conditions. This is healthy but has limited headroom (" ++
     show_fixed 0 (hundred_less (sg_memPct sig)) ++
     "% memory free). If traffic is expected to grow, consider adding capacity proactively.")%string
  else ("Cluster is healthy with " ++ show_fixed 0 (hundred_less (sg_cpuPct sig)) ++ "% CPU and " ++
        show_fixed 0 (hundred_less (sg_memPct sig)) ++ "% memory headroom.")%string.

(** ** The signals *)

Definition utilizationGap (r : Report) (cluster : string) : string :=
  match runState r "metrics" cluster with
  | None => "the metrics scanner did not run on this cluster, so headroom cannot be assessed."
  | Some st =>
      if String.eqb st StateErrored then
        "the node metrics read failed, so headroom cannot be assessed. Check that the scanner can list nodes in metrics.k8s.io."
      else if String.eqb st StateUnavailable then
        "the cluster does not serve the metrics.k8s.io API. Install metrics-server to measure headroom."
      else
        "no node's usage resolved to a percentage of its allocatable capacity, so headroom cannot be assessed. Check that the scanner can list nodes."
  end.

Definition hasEventReason (r : Report) (cluster reason : string) : bool :=
  let '(m, obs) := clusterView r "events" cluster in
  if negb (seen obs) then false
  else existsb (fun rm => match rm !! "reason" with Some (JStr s) => String.eqb s reason | _ => false end)
         (objects (get_arr m "top_warning_reasons")).

Definition signals_of (r : Report) (cluster : string) : clusterSignals :=
  let '(cpu, cpuObs) := observe r "metrics" cluster "avg_cpu_percent" in
  let '(mem, memObs) := observe r "metrics" cluster "avg_memory_percent" in
  let utilObs := weakest [cpuObs; memObs] in
  let ok := seen utilObs in
  {| sg_utilObs := utilObs;
     sg_utilGap := if ok then "" else utilizationGap r cluster;
     sg_cpuPct := if ok then cpu else f_zero;
     sg_memPct := if ok then mem else f_zero;
     sg_nodeCount := fst (observeInt r "node-health" cluster "node_count");
     sg_healthyNodes := fst (observeInt r "node-health" cluster "healthy_nodes");
     sg_memPressure := fst (observeInt r "node-health" cluster "memory_pressure_nodes");
     sg_diskPressure := fst (observeInt r "node-health" cluster "disk_pressure_nodes");
     sg_notReady := fst (observeInt r "node-health" cluster "not_ready_nodes");
     sg_oomEvents := hasEventReason r cluster "OOMKilling";
     sg_schedFail := hasEventReason r cluster "FailedScheduling" |}.

Definition extractAllSignals (r : Report) : gmap string clusterSignals :=
  fold_left (fun out c => <[c := signals_of r c]> out) (rp_Clusters r) ∅.

(** ** Peers *)

Definition signals_zero : clusterSignals := {|
  sg_utilObs := unobserved; sg_utilGap := ""; sg_cpuPct := f_zero; sg_memPct := f_zero; sg_nodeCount := 0;
  sg_healthyNodes := 0; sg_memPressure := 0; sg_diskPressure := 0; sg_notReady := 0; sg_oomEvents := false;
  sg_schedFail := false |}.

Definition peer_signals (cluster : string) (peers : list string) (signals : gmap string clusterSignals) : list clusterSignals :=
  List.filter (fun s => seen (sg_utilObs s))
    (omap (fun p => if String.eqb p cluster then None else signals !! p) peers).

Definition deviation_text (what : string) (diff own peer : float64) (groupName : string) : string :=
  if f_leb (f_of_Z 10) (f_abs diff) then
    (what ++ " is " ++ show_fixed 0 (f_abs diff) ++ "% points " ++ (if f_ltb diff f_zero then "lower" else "higher") ++
     " than the group " ++ quote groupName ++ " median (" ++ show_fixed 0 own ++ "% vs " ++ show_fixed 0 peer ++ "%).")%string
  else "".

Definition groupComparison (cluster groupName : string) (peers : list string) (signals : gmap string clusterSignals) : string :=
  let sig := default signals_zero (signals !! cluster) in
  if negb (seen (sg_utilObs sig)) then ""
  else
    match peer_signals cluster peers signals with
    | [] => ""
    | ps =>
        let peerMem50 := Median (map sg_memPct ps) in
        let peerCPU50 := Median (map sg_cpuPct ps) in
        let memDiff := f_sub (sg_memPct sig) peerMem50 in
        let cpuDiff := f_sub (sg_cpuPct sig) peerCPU50 in
        if f_ltb (f_abs memDiff) (f_of_Z 10) && f_ltb (f_abs cpuDiff) (f_of_Z 10) then
          ("Within normal range for group " ++ quote groupName ++ " (peer median: CPU " ++ show_fixed 0 peerCPU50 ++
           "%, memory " ++ show_fixed 0 peerMem50 ++ "%).")%string
        else
          let mem := deviation_text "Memory" memDiff (sg_memPct sig) peerMem50 groupName in
          ((if String.eqb mem "" then "" else mem ++ " ") ++
           deviation_text "CPU" cpuDiff (sg_cpuPct sig) peerCPU50 groupName)%string
    end.

(** The first group of the cluster with at least two members. *)
Definition group_of (groups : list (string * list string)) (cluster : string) : option (string * list string) :=
  List.find (fun g => existsb (String.eqb cluster) (snd g) && (2 <=? length (snd g))%nat) groups.

Definition analysis (groups : list (string * list string)) (signals : gmap string clusterSignals)
  (cluster : string) (sig : clusterSignals) : CapacityAnalysis :=
  let ok := seen (sg_utilObs sig) in
  let when_seen (x : float64) : option float64 := if ok then Some x else None in
  let status := assessStatus sig in
  {|
    cy_Cluster := cluster;
    cy_CPUUtilization := when_seen (sg_cpuPct sig);
    cy_MemoryUtilization := when_seen (sg_memPct sig);
    cy_HasMemoryPressure := 0 <? sg_memPressure sig;
    cy_HasDiskPressure := 0 <? sg_diskPressure sig;
    cy_HasOOMEvents := sg_oomEvents sig;
    cy_HasSchedulingFailures := sg_schedFail sig;
    cy_NodeCount := sg_nodeCount sig;
    cy_HealthyNodes := sg_healthyNodes sig;
    cy_HeadroomCPU := when_seen (hundred_less (sg_cpuPct sig));
    cy_HeadroomMemory := when_seen (hundred_less (sg_memPct sig));
    cy_Status := status;
    cy_Recommendation := (recommend sig status ++ note (sg_utilObs sig))%string;
    cy_NodesNeededForTarget := nodesNeeded sig target;
    cy_GroupDeviation :=
      match group_of groups cluster with
      | Some (g, peers) => groupComparison cluster g peers signals
      | None => ""
      end |}.

Definition analyze_cluster (groups : list (string * list string)) (signals : gmap string clusterSignals)
  (cluster : string) : option CapacityAnalysis :=
  analysis groups signals cluster <$> signals !! cluster.

Definition status_order (status : string) : nat :=
  if String.eqb status capacityStrained then 1
  else if String.eqb status capacityBusy then 2
  else if String.eqb status capacityUnknown then 3
  else if String.eqb status capacityHealthy then 4
  else 0.

(** [sort.Slice] is not stable: [order] arranges the analyses of one status. *)
Definition analyzeCapacity (order : list CapacityAnalysis -> list CapacityAnalysis) (r : Report)
  (groups : list (string * list string)) : list CapacityAnalysis :=
  let signals := extractAllSignals r in
  isort (less_of (cmp_on (fun a => status_order (cy_Status a)) Nat.compare))
    (order (omap (analyze_cluster groups signals) (rp_Clusters r))).

(** ** Facts *)

Lemma weakest_seen_two a b : seen (weakest [a; b]) = seen a && seen b.
Proof. by destruct a, b. Qed.

Lemma signals_lookup r c : extractAllSignals r !! c = if bool_decide (c ∈ rp_Clusters r) then Some (signals_of r c) else None.
Proof. unfold extractAllSignals. by rewrite table_lookup, lookup_empty. Qed.

Lemma signals_seen r c : seen (sg_utilObs (signals_of r c)) =
  seen (snd (observe r "metrics" c "avg_cpu_percent")) && seen (snd (observe r "metrics" c "avg_memory_percent")).
Proof.
  unfold signals_of. destruct (observe r "metrics" c "avg_cpu_percent"), (observe r "metrics" c "avg_memory_percent").
  apply weakest_seen_two.
Qed.

Lemma signals_values r c : seen (sg_utilObs (signals_of r c)) = true ->
  sg_cpuPct (signals_of r c) = fst (observe r "metrics" c "avg_cpu_percent") /\
  sg_memPct (signals_of r c) = fst (observe r "metrics" c "avg_memory_percent").
Proof.
  unfold signals_of. destruct (observe r "metrics" c "avg_cpu_percent"), (observe r "metrics" c "avg_memory_percent").
  cbn. by intros ->.
Qed.

Lemma analyze_listed groups r c : c ∈ rp_Clusters r ->
  analyze_cluster groups (extractAllSignals r) c = Some (analysis groups (extractAllSignals r) c (signals_of r c)).
Proof. intros H. unfold analyze_cluster. by rewrite signals_lookup, bool_decide_eq_true_2 by done. Qed.

(** Every listed cluster is analyzed from its own signals, once per listing. *)
Lemma analyses_clusters groups r l : (forall c, In c l -> c ∈ rp_Clusters r) ->
  omap (analyze_cluster groups (extractAllSignals r)) l =
  map (fun c => analysis groups (extractAllSignals r) c (signals_of r c)) l.
Proof.
  induction l as [|c l IH]; intros H; [done|]. simpl. rewrite analyze_listed by (apply H; by left).
  f_equal. apply IH. intros d Hd. apply H. by right.
Qed.

Definition hasPressure (sig : clusterSignals) : bool := (0 <? sg_memPressure sig) || (0 <? sg_diskPressure sig).
Definition hasFailures (sig : clusterSignals) : bool := sg_oomEvents sig || sg_schedFail sig.

Definition highUtil (sig : clusterSignals) : bool := seen (sg_utilObs sig) && (above (sg_memPct sig) 85 || above (sg_cpuPct sig) 85).
Definition elevatedUtil (sig : clusterSignals) : bool := seen (sg_utilObs sig) && (above (sg_memPct sig) 70 || above (sg_cpuPct sig) 70).
Definition failing (sig : clusterSignals) : bool :=
  (hasPressure sig && hasFailures sig) || (highUtil sig && (hasPressure sig || (0 <? sg_notReady sig))).
Definition straining (sig : clusterSignals) : bool := hasPressure sig || hasFailures sig || highUtil sig.

(** Each verdict and exactly when it is given. *)
Lemma assess_spec sig :
  (assessStatus sig = capacityCritical <-> failing sig = true) /\
  (assessStatus sig = capacityStrained <-> failing sig = false /\ straining sig = true) /\
  (assessStatus sig = capacityBusy <-> straining sig = false /\ elevatedUtil sig = true) /\
  (assessStatus sig = capacityUnknown <-> straining sig = false /\ seen (sg_utilObs sig) = false) /\
  (assessStatus sig = capacityHealthy <-> straining sig = false /\ elevatedUtil sig = false /\ seen (sg_utilObs sig) = true).
Proof.
  unfold assessStatus. fold (hasPressure sig) (hasFailures sig) (highUtil sig) (elevatedUtil sig).
  assert (He : seen (sg_utilObs sig) = false -> elevatedUtil sig = false) by (unfold elevatedUtil; by intros ->).
  unfold failing, straining. destruct (hasPressure sig), (hasFailures sig), (0 <? sg_notReady sig), (highUtil sig),
    (elevatedUtil sig), (seen (sg_utilObs sig)); try (by specialize (He eq_refl));
    cbn; repeat split; (done || (by intros (? & ?)) || (by intros (? & ? & ?)) || (by intros ?)).
Qed.

Lemma nodesNeeded_positive sig t : 0 < nodesNeeded sig t <->
  seen (sg_utilObs sig) = true /\ sg_nodeCount sig <> 0 /\ f_leb (sg_memPct sig) t = false.
Proof.
  unfold nodesNeeded. destruct (seen (sg_utilObs sig)); cbn [negb orb]; [|split; [lia|by intros (? & _)]].
  destruct (Z.eqb_spec (sg_nodeCount sig) 0); cbn [orb]; [split; [lia|by intros (_ & ? & _)]|].
  destruct (f_leb (sg_memPct sig) t); [split; [lia|by intros (_ & _ & ?)]|]. split; [done|lia].
Qed.

(** ** Facts: peers *)

Definition cpu_read (r : Report) (c : string) : float64 * observation := observe r "metrics" c "avg_cpu_percent".
Definition mem_read (r : Report) (c : string) : float64 * observation := observe r "metrics" c "avg_memory_percent".
Definition measured (r : Report) (c : string) : bool := seen (snd (cpu_read r c)) && seen (snd (mem_read r c)).

(** The other members of the group that are of the fleet and were measured. *)
Definition measured_peers (r : Report) (c : string) (peers : list string) : list string :=
  List.filter (fun p => negb (String.eqb p c) && bool_decide (p ∈ rp_Clusters r) && measured r p) peers.

Lemma peer_signals_measured r c peers :
  peer_signals c peers (extractAllSignals r) = map (signals_of r) (measured_peers r c peers).
Proof.
  unfold peer_signals, measured_peers. induction peers as [|p l IH]; [done|]. cbn [omap list_omap List.filter].
  destruct (String.eqb p c); cbn [negb andb]; [done|]. rewrite signals_lookup. case_bool_decide; cbn [andb]; [|done].
  cbn [List.filter]. rewrite signals_seen. fold (cpu_read r p) (mem_read r p) (measured r p).
  destruct (measured r p); [|done]. cbn [map]. by f_equal.
Qed.

Lemma peers_read r c peers :
  map sg_memPct (map (signals_of r) (measured_peers r c peers)) = map (fun p => fst (mem_read r p)) (measured_peers r c peers) /\
  map sg_cpuPct (map (signals_of r) (measured_peers r c peers)) = map (fun p => fst (cpu_read r p)) (measured_peers r c peers).
Proof.
  rewrite !map_map. unfold measured_peers. split; apply map_ext_in; intros p [_ Hp]%filter_In;
    apply andb_true_iff in Hp as [_ Hp]; unfold measured, cpu_read, mem_read in Hp; rewrite <- signals_seen in Hp; by apply signals_values in Hp as [? ?].
Qed.

Definition near (own peer : float64) : bool := f_ltb (f_abs (f_sub own peer)) (f_of_Z 10).

Lemma normal_prefix g rest : String.prefix "Within normal range" ("Within normal range for group " ++ g ++ rest)%string = true.
Proof. reflexivity. Qed.

Lemma deviation_prefix what diff own peer g rest : what = "Memory"%string \/ what = "CPU"%string ->
  String.prefix "Within normal range" (deviation_text what diff own peer g ++ rest) =
  String.prefix "Within normal range" (if String.eqb (deviation_text what diff own peer g) "" then rest else "").
Proof. intros [->| ->]; unfold deviation_text; destruct (f_leb _ _); done. Qed.

(** A measured cluster with measured peers is within the normal range exactly when both its
    figures are within ten points of the medians of its peers. *)
Lemma groupComparison_spec r c g peers : c ∈ rp_Clusters r ->
  let text := groupComparison c g peers (extractAllSignals r) in
  let ps := measured_peers r c peers in
  let within := near (fst (mem_read r c)) (Median (map (fun p => fst (mem_read r p)) ps)) &&
                near (fst (cpu_read r c)) (Median (map (fun p => fst (cpu_read r p)) ps)) in
  (measured r c = false \/ ps = [] -> text = ""%string) /\
  (String.prefix "Within normal range" text = true <-> measured r c = true /\ ps <> [] /\ within = true).
Proof.
  intros Hc. cbv zeta. unfold groupComparison. rewrite signals_lookup, bool_decide_eq_true_2 by done. cbn [default from_option id].
  rewrite signals_seen. fold (cpu_read r c) (mem_read r c) (measured r c). rewrite peer_signals_measured.
  destruct (measured r c) eqn:Em; cbn [negb]; [|by split; [|split; [|intros (? & _)]]].
  pose proof Em as Hv. unfold measured, cpu_read, mem_read in Hv. rewrite <- signals_seen in Hv.
  apply signals_values in Hv as [-> ->]. fold (cpu_read r c) (mem_read r c).
  destruct (peers_read r c peers) as [H1 H2]. destruct (measured_peers r c peers) as [|p l] eqn:Ep.
  { cbn [map]. by split; [|split; [|intros (_ & ? & _)]]. }
  remember (map (signals_of r) (p :: l)) as sigs eqn:Es. destruct sigs as [|sg sl]; [done|]. rewrite H1, H2.
  cbv zeta. unfold near. set (dm := f_sub _ (Median (map _ _))). set (dc := f_sub (fst (cpu_read r c)) _).
  destruct (f_ltb (f_abs dm) _ && f_ltb (f_abs dc) _) eqn:En.
  - split; [by intros [?|?]|]. split; [done|]. intros _. apply normal_prefix.
  - split; [by intros [?|?]|]. split; [|by intros (_ & _ & ?)]. intros Hp. exfalso.
    unfold deviation_text in Hp. by destruct (f_leb (f_of_Z 10) (f_abs dm)), (f_leb (f_of_Z 10) (f_abs dc)).
Qed.

(** ** What an analysis says *)

(** Whether a figure of a measured cluster is above [n]. *)
Definition over (r : Report) (c : string) (n : Z) : bool :=
  measured r c && (above (fst (mem_read r c)) n || above (fst (cpu_read r c)) n).

Definition node_field (r : Report) (c field : string) : Z := fst (observeInt r "node-health" c field).

Definition pressed (ca : CapacityAnalysis) : bool := cy_HasMemoryPressure ca || cy_HasDiskPressure ca.
Definition failed (ca : CapacityAnalysis) : bool := cy_HasOOMEvents ca || cy_HasSchedulingFailures ca.

(** Pressure with a failure event, or high utilization with pressure or a node not ready. *)
Definition critical (r : Report) (ca : CapacityAnalysis) : bool :=
  (pressed ca && failed ca) ||
  (over r (cy_Cluster ca) 85 && (pressed ca || (0 <? node_field r (cy_Cluster ca) "not_ready_nodes"))).

Definition strain (r : Report) (ca : CapacityAnalysis) : bool := pressed ca || failed ca || over r (cy_Cluster ca) 85.

(** The whole of an analysis, from what was read of its cluster and the cluster's peers. *)
Record judged (r : Report) (groups : list (string * list string)) (ca : CapacityAnalysis) : Prop := {
  jd_listed : cy_Cluster ca ∈ rp_Clusters r;
  jd_signals :
    cy_HasMemoryPressure ca = (0 <? node_field r (cy_Cluster ca) "memory_pressure_nodes") /\
    cy_HasDiskPressure ca = (0 <? node_field r (cy_Cluster ca) "disk_pressure_nodes") /\
    cy_HasOOMEvents ca = hasEventReason r (cy_Cluster ca) "OOMKilling" /\
    cy_HasSchedulingFailures ca = hasEventReason r (cy_Cluster ca) "FailedScheduling" /\
    cy_NodeCount ca = node_field r (cy_Cluster ca) "node_count" /\
    cy_HealthyNodes ca = node_field r (cy_Cluster ca) "healthy_nodes";
  jd_critical : cy_Status ca = capacityCritical <-> critical r ca = true;
  jd_strained : cy_Status ca = capacityStrained <-> critical r ca = false /\ strain r ca = true;
  jd_busy : cy_Status ca = capacityBusy <-> strain r ca = false /\ over r (cy_Cluster ca) 70 = true;
  jd_unknown : cy_Status ca = capacityUnknown <-> strain r ca = false /\ measured r (cy_Cluster ca) = false;
  jd_healthy : cy_Status ca = capacityHealthy <->
    strain r ca = false /\ over r (cy_Cluster ca) 70 = false /\ measured r (cy_Cluster ca) = true;
  jd_cpu : cy_CPUUtilization ca =
    if measured r (cy_Cluster ca) then Some (fst (cpu_read r (cy_Cluster ca))) else None;
  jd_mem : cy_MemoryUtilization ca =
    if measured r (cy_Cluster ca) then Some (fst (mem_read r (cy_Cluster ca))) else None;
  jd_free_cpu : cy_HeadroomCPU ca =
    if measured r (cy_Cluster ca) then Some (f_sub (f_of_Z 100) (fst (cpu_read r (cy_Cluster ca)))) else None;
  jd_free_mem : cy_HeadroomMemory ca =
    if measured r (cy_Cluster ca) then Some (f_sub (f_of_Z 100) (fst (mem_read r (cy_Cluster ca)))) else None;
  jd_nodes : 0 < cy_NodesNeededForTarget ca <-> measured r (cy_Cluster ca) = true /\ cy_NodeCount ca <> 0 /\
    f_leb (fst (mem_read r (cy_Cluster ca))) target = false;
  jd_note : measured r (cy_Cluster ca) = true -> snd (clusterView r "metrics" (cy_Cluster ca)) = partial ->
    ends_with (cy_Recommendation ca) partialScanNote;
  jd_peers :
    match group_of groups (cy_Cluster ca) with
    | None => cy_GroupDeviation ca = ""%string
    | Some (_, peers) =>
        let ps := measured_peers r (cy_Cluster ca) peers in
        (measured r (cy_Cluster ca) = false \/ ps = [] -> cy_GroupDeviation ca = ""%string) /\
        (String.prefix "Within normal range" (cy_GroupDeviation ca) = true <->
           measured r (cy_Cluster ca) = true /\ ps <> [] /\
           near (fst (mem_read r (cy_Cluster ca))) (Median (map (fun p => fst (mem_read r p)) ps)) &&
           near (fst (cpu_read r (cy_Cluster ca))) (Median (map (fun p => fst (cpu_read r p)) ps)) = true)
    end
}.

Lemma signals_over r c n : seen (sg_utilObs (signals_of r c)) &&
  (above (sg_memPct (signals_of r c)) n || above (sg_cpuPct (signals_of r c)) n) = over r c n.
Proof.
  unfold over, measured, cpu_read, mem_read. rewrite <- signals_seen.
  destruct (seen _) eqn:E; [|done]. by destruct (signals_values r c E) as [-> ->].
Qed.

Lemma signals_nodes r c :
  sg_nodeCount (signals_of r c) = node_field r c "node_count" /\ sg_healthyNodes (signals_of r c) = node_field r c "healthy_nodes" /\
  sg_memPressure (signals_of r c) = node_field r c "memory_pressure_nodes" /\
  sg_diskPressure (signals_of r c) = node_field r c "disk_pressure_nodes" /\
  sg_notReady (signals_of r c) = node_field r c "not_ready_nodes" /\
  sg_oomEvents (signals_of r c) = hasEventReason r c "OOMKilling" /\
  sg_schedFail (signals_of r c) = hasEventReason r c "FailedScheduling".
Proof.
  unfold signals_of, node_field. by destruct (observe r "metrics" c "avg_cpu_percent"), (observe r "metrics" c "avg_memory_percent").
Qed.

Lemma observe_partial r n c field : seen (snd (observe r n c field)) = true ->
  snd (observe r n c field) = snd (clusterView r n c).
Proof.
  unfold observe. destruct (clusterView r n c) as [m []]; [done|..]; by destruct (util_Float64 (m !! field)).
Qed.

Lemma signals_obs r c : measured r c = true -> sg_utilObs (signals_of r c) = snd (clusterView r "metrics" c).
Proof.
  unfold measured, cpu_read, mem_read, signals_of. intros [H1 H2]%andb_true_iff. pose proof (observe_partial _ _ _ _ H1) as E1.
  pose proof (observe_partial _ _ _ _ H2) as E2.
  destruct (observe r "metrics" c "avg_cpu_percent") as [? o1], (observe r "metrics" c "avg_memory_percent") as [? o2].
  cbn [snd sg_utilObs] in *. subst. by destruct (snd (clusterView r "metrics" c)).
Qed.

Lemma analysis_judged r groups c : c ∈ rp_Clusters r ->
  judged r groups (analysis groups (extractAllSignals r) c (signals_of r c)).
Proof.
  intros Hc. pose proof (signals_nodes r c) as (N1 & N2 & N3 & N4 & N5 & N6 & N7).
  pose proof (signals_seen r c) as Hm. fold (cpu_read r c) (mem_read r c) (measured r c) in Hm.
  assert (Hv := signals_values r c). fold (cpu_read r c) (mem_read r c) in Hv.
  assert (Ho := signals_obs r c). assert (Hn := nodesNeeded_positive (signals_of r c) target).
  pose proof (assess_spec (signals_of r c)) as Hs. unfold failing, straining, highUtil, elevatedUtil in Hs.
  rewrite !signals_over in Hs. unfold hasPressure, hasFailures in Hs. rewrite N3, N4, N5, N6, N7, Hm in Hs.
  rewrite Hm in Hv, Hn. rewrite N1 in Hn. destruct Hs as (S1 & S2 & S3 & S4 & S5).
  split; cbn -[node_field measured over near group_of measured_peers clusterView]; rewrite ?N1, ?N2, ?N3, ?N4, ?N6, ?N7, ?Hm;
    unfold critical, strain, pressed, failed;
    cbn -[node_field measured over near group_of measured_peers clusterView]; rewrite ?N3, ?N4, ?N6, ?N7; try done.
  - destruct (measured r c); [|done]. by destruct Hv as [-> _].
  - destruct (measured r c); [|done]. by destruct Hv as [_ ->].
  - destruct (measured r c); [|done]. unfold hundred_less. by destruct Hv as [-> _].
  - destruct (measured r c); [|done]. unfold hundred_less. by destruct Hv as [_ ->].
  - rewrite Hn. destruct (measured r c); [|split; by intros (? & _)]. by destruct Hv as [_ ->].
  - intros Hmt Hp. apply note_ends. by rewrite Ho.
  - destruct (group_of groups c) as [[g peers]|]; [|done]. by apply groupComparison_spec.
Qed.

Lemma capacity_judged order r groups ca : (forall l, order l ≡ₚ l) -> ca ∈ analyzeCapacity order r groups -> judged r groups ca.
Proof.
  intros Hord. unfold analyzeCapacity. rewrite analyses_clusters by (intros c; apply list_elem_of_In).
  intros Hca%isort_elem_of. rewrite Hord in Hca.
  apply list_elem_of_In, in_map_iff in Hca as (c & <- & Hc%list_elem_of_In). by apply analysis_judged.
Qed.

Module Capacity.



End Capacity.
