(* ===== verification/FindHealth.v ===== *)
(** * internal/report/findings_health.go: node, capacity, quota and event findings

    One Definition per generator, the loop over the clusters as [flat_map]. *)

From Stdlib Require Import ZArith Lia String Ascii Floats.SpecFloat.
From stdpp Require Import base gmap strings list.
From S2P Require Import Prelude Float64 Text Strs Data Observe Format Findings Finders Capacity.

Local Open Scope Z_scope.

(** ** Nodes by name *)

Record nodeView := { nv_Name : string; nv_Ready : bool; nv_Conditions : list string }.

Definition byCondition (condition : string) (ns : list nodeView) : list string :=
  sort_strings (map nv_Name (List.filter (fun n => existsb (String.eqb condition) (nv_Conditions n)) ns)).

Definition notReady (ns : list nodeView) : list string :=
  sort_strings (map nv_Name (List.filter (fun n => negb (nv_Ready n)) ns)).

Definition condition_of (c : json) : option string :=
  match c with
  | JStr s => Some s
  | JObj kv =>
      let cv : obj := list_to_map kv in
      if negb (String.eqb (get_str cv "type") "") && String.eqb (get_str cv "status") "True"
      then Some (get_str cv "type") else None
  | _ => None
  end.

Definition node_view (nm : obj) : nodeView := {|
  nv_Name := get_str nm "name"; nv_Ready := get_bool nm "ready";
  nv_Conditions := omap condition_of (get_arr nm "conditions") |}.

Definition extractNodeNames (r : Report) (cluster scannerName : string) : list nodeView :=
  let '(m, obs) := clusterView r scannerName cluster in
  if negb (seen obs) then [] else map node_view (objects (get_arr m "nodes")).

(** ** Node health *)

Definition describe_nodes (cluster : string) (affected : list string) : option Remediation :=
  kubectl cluster ("describe node " ++ join " " affected)%string.

Definition nodes_text (cluster : string) (n : Z) (what : string) : string :=
  (cluster ++ " has " ++ itoa n ++ " node(s) " ++ what)%string.

Definition of_nodes (n total : Z) (rest : string) : string := (itoa n ++ " of " ++ itoa total ++ " nodes " ++ rest)%string.

Definition node_health (r : Report) (cluster : string) : list Finding :=
  let nodes := extractNodeNames r cluster "node-health" in
  let '(memPressure, memObs) := observeInt r "node-health" cluster "memory_pressure_nodes" in
  let '(diskPressure, diskObs) := observeInt r "node-health" cluster "disk_pressure_nodes" in
  let '(notReadyN, notReadyObs) := observeInt r "node-health" cluster "not_ready_nodes" in
  let '(total, _) := observeInt r "node-health" cluster "node_count" in
  when (seen memObs && (0 <? memPressure))
    (finding_of "node-health/memory-pressure" (nodes_text cluster memPressure "under memory pressure")
      (of_nodes memPressure total "report MemoryPressure=True. Pods on these nodes risk OOM kills and the scheduler will avoid them." ++ note memObs)
      SeverityCritical cluster "node-health" (byCondition "MemoryPressure" nodes)
      (describe_nodes cluster (byCondition "MemoryPressure" nodes))) ++
  when (seen diskObs && (0 <? diskPressure))
    (finding_of "node-health/disk-pressure" (nodes_text cluster diskPressure "under disk pressure")
      (of_nodes diskPressure total "report DiskPressure=True. Pods may be evicted to free disk space." ++ note diskObs)
      SeverityWarning cluster "node-health" (byCondition "DiskPressure" nodes)
      (describe_nodes cluster (byCondition "DiskPressure" nodes))) ++
  when (seen notReadyObs && (0 <? notReadyN))
    (finding_of "node-health/not-ready" (nodes_text cluster notReadyN "not ready")
      (of_nodes notReadyN total "are not reporting Ready=True. Workloads cannot be scheduled to these nodes." ++ note notReadyObs)
      SeverityCritical cluster "node-health" (notReady nodes) (describe_nodes cluster (notReady nodes))).

Definition nodeHealthFindings (r : Report) : list Finding :=
  with_section r "node-health" (flat_map (node_health r) (rp_Clusters r)).

(** ** Capacity *)

Definition capacity_findings_of (ca : CapacityAnalysis) : list Finding :=
  let c := cy_Cluster ca in
  (if String.eqb (cy_Status ca) capacityCritical then
     [finding_of "metrics/capacity-critical" (c ++ " is in critical state") (cy_Recommendation ca) SeverityCritical c "metrics" [] None]
   else if String.eqb (cy_Status ca) capacityStrained then
     [finding_of "metrics/capacity-degraded" (c ++ " is degraded") (cy_Recommendation ca) SeverityWarning c "metrics" [] None]
   else if String.eqb (cy_Status ca) capacityBusy then
     [finding_of "metrics/capacity-busy"
        (c ++ " is busy but healthy (CPU " ++ pctText (cy_CPUUtilization ca) ++ ", memory " ++ pctText (cy_MemoryUtilization ca) ++ ")")
        (cy_Recommendation ca) SeverityInfo c "metrics" [] None]
   else []) ++
  when (negb (String.eqb (cy_GroupDeviation ca) "") && negb (String.prefix "Within normal range" (cy_GroupDeviation ca)))
    (finding_of "metrics/group-deviation" (c ++ " deviates from group peers") (cy_GroupDeviation ca) SeverityWarning c "metrics" []
      (command ("# " ++ TrimSpace (cy_GroupDeviation ca) ++ String "010" "kubectl --context " ++ c ++ " top nodes"))).

Definition capacityFindings (capacity : list CapacityAnalysis) : list Finding := flat_map capacity_findings_of capacity.

(** ** Quotas *)

Definition nl : string := String "010" "".

Definition defaultResourceQuotaYAML : string :=
  ("apiVersion: v1" ++ nl ++ "kind: ResourceQuota" ++ nl ++ "metadata:" ++ nl ++ "  name: default-quota" ++ nl ++
   "  namespace: REPLACE_WITH_NAMESPACE" ++ nl ++ "spec:" ++ nl ++ "  hard:" ++ nl ++
   "    requests.cpu: " ++ dq ++ "4" ++ dq ++ nl ++ "    requests.memory: 8Gi" ++ nl ++
   "    limits.cpu: " ++ dq ++ "8" ++ dq ++ nl ++ "    limits.memory: 16Gi" ++ nl ++ "    pods: " ++ dq ++ "100" ++ dq ++ nl)%string.

Definition quota_finding (r : Report) (cluster : string) : list Finding :=
  let '(quotas, quotaObs) := observeInt r "resource-quotas" cluster "namespaces_with_quotas" in
  let '(nsCount, nsObs) := observeInt r "namespaces" cluster "count" in
  when (bool_decide (quotaObs = observed) && seen nsObs && (0 <? nsCount) && (quotas =? 0))
    (finding_of "resource-quotas/no-quota" (cluster ++ " has no resource quotas defined")
      ("No namespaces have ResourceQuota objects. There are no limits on resource consumption per namespace." ++ note nsObs)
      SeverityWarning cluster "resource-quotas" [] (manifest defaultResourceQuotaYAML)).

Definition quotaFindings (r : Report) : list Finding :=
  with_section r "resource-quotas" (flat_map (quota_finding r) (rp_Clusters r)).

(** ** Events *)

Definition reason_text (entry : obj) : option string :=
  if String.eqb (get_str entry "reason") "" then None
  else Some (get_str entry "reason" ++ " (" ++ itoa (get_int entry "count") ++ ")")%string.

Definition topEventReasons (r : Report) (cluster : string) (n : nat) : list string :=
  let '(m, obs) := clusterView r "events" cluster in
  if negb (seen obs) then [] else take n (omap reason_text (objects (get_arr m "top_warning_reasons"))).

Definition event_severity (perNode : float64) (warningCount : Z) : string :=
  if above perNode 20 || (1000 <? warningCount) then SeverityCritical
  else if above perNode 5 || (200 <? warningCount) then SeverityWarning
  else SeverityInfo.

Definition event_finding (r : Report) (cluster : string) : list Finding :=
  let '(warningCount, eventsObs) := observeInt r "events" cluster "warning_events" in
  if negb (seen eventsObs) || (warningCount =? 0) then []
  else
    let '(nodes, nodesObs) := observeInt r "node-health" cluster "node_count" in
    let n := Z.max nodes 1 in
    let perNode := if seen nodesObs then f_div (f_of_Z warningCount) (f_of_Z n) else f_zero in
    let topReasons := topEventReasons r cluster 3 in
    let counted := if seen nodesObs then
        (itoa warningCount ++ " warning events in the last hour across " ++ itoa n ++ " node(s) (" ++ show_fixed 1 perNode ++ " per node).")%string
      else (itoa warningCount ++ " warning events in the last hour. The node count was not observed, so no per-node rate.")%string in
    let reasons := match topReasons with [] => "" | _ => (" Top reasons: " ++ join ", " topReasons ++ ".")%string end in
    [finding_of "events/warning-volume" (cluster ++ " has " ++ itoa warningCount ++ " warning event(s) in the last hour")
      ((counted ++ reasons) ++ note eventsObs) (event_severity perNode warningCount) cluster "events" topReasons
      (kubectl cluster "get events --field-selector type=Warning --sort-by=.lastTimestamp -A | tail -50")].

Definition eventFindings (r : Report) : list Finding :=
  with_section r "events" (flat_map (event_finding r) (rp_Clusters r)).
