(* ===== verification/FindSecurity.v ===== *)
(** * findings_security.go and findings_workloads.go: security, RBAC, certificate, webhook,
    image, coverage and bad-deploy findings

    One Definition per generator; a payload record of a scanner is read entry by entry. *)

From Stdlib Require Import ZArith Lia String Ascii Floats.SpecFloat.
From stdpp Require Import base gmap strings list sets.
From S2P Require Import Prelude Maps Float64 Text Strs Data Observe Format Population Rules Findings Finders Capacity FindHealth.

Local Open Scope Z_scope.

(** [float64(a) / float64(b) * 100]. *)
Definition pct_of (a b : Z) : float64 := f_mul (f_div (f_of_Z a) (f_of_Z b)) (f_of_Z 100).

Definition zlen {A} (l : list A) : Z := Z.of_nat (length l).

(** ** Pod Security Standards *)

Definition levelPrivileged : string := "privileged".

(** security.go [Enforced]. *)
Definition Enforced (level : string) : bool := negb (String.eqb level "") && negb (String.eqb level levelPrivileged).

(** A namespace that enforces nothing, and whether that is for want of a label. *)
Definition unenforced_of (entry : obj) : option (bool * string) :=
  let name := get_str entry "namespace" in let enforce := get_str entry "enforce" in
  if String.eqb name "" || Enforced enforce then None else Some (String.eqb enforce "", name).

Definition unenforcedNamespaces (r : Report) (cluster : string) : list string * list string :=
  let '(m, obs) := clusterView r "security" cluster in
  if negb (seen obs) then ([], [])
  else
    let found := omap unenforced_of (objects (get_arr m "namespaces")) in
    (map snd (List.filter fst found), map snd (List.filter (fun p => negb (fst p)) found)).

Definition psa_finding (r : Report) (cluster : string) : list Finding :=
  let listObs := snd (clusterView r "security" cluster) in
  let '(unlabeled, privileged) := unenforcedNamespaces r cluster in
  let '(total, totalObs) := observeInt r "security" cluster "namespace_count" in
  let n := zlen unlabeled in
  let allUnlabeled := seen totalObs && (0 <? total) && (n =? total) in
  if negb (seen listObs) || (n =? 0) || (allUnlabeled && negb (bool_decide (weakest [listObs; totalObs] = observed)))
  then []
  else
    let known := seen totalObs && (n <=? total) in
    let pct := pct_of n total in
    let share := if known then (itoa n ++ " of " ++ itoa total ++ " namespaces (" ++ show_fixed 0 pct ++ "%)")%string
                 else (itoa n ++ " namespaces")%string in
    let spared := if 0 <? zlen privileged then
        (" " ++ itoa (zlen privileged) ++ " more namespace(s) enforce only privileged, so they are listed but not charged.")%string
      else "" in
    let desc := (share ++ " have no Pod Security Standards enforce label. Pods in these namespaces can run with any privileges." ++ spared)%string in
    [finding_of "security/psa-unenforced" (cluster ++ " has " ++ itoa n ++ " namespace(s) without Pod Security enforcement")
      (desc ++ note (weakest [listObs; totalObs])) (if known && above pct 50 then SeverityCritical else SeverityWarning)
      cluster "security" (capList (unlabeled ++ privileged))
      (kubectl cluster ("label namespace " ++ join " " (take maxAffected unlabeled) ++ " pod-security.kubernetes.io/enforce=baseline --overwrite"))].

Definition securityFindings (r : Report) : list Finding :=
  with_section r "security" (flat_map (psa_finding r) (rp_Clusters r)).

(** ** Network policies *)

Definition defaultDenyNetworkPolicyYAML : string :=
  ("apiVersion: networking.k8s.io/v1" ++ nl ++ "kind: NetworkPolicy" ++ nl ++ "metadata:" ++ nl ++ "  name: default-deny" ++ nl ++
   "  namespace: REPLACE_WITH_NAMESPACE" ++ nl ++ "spec:" ++ nl ++ "  podSelector: {}" ++ nl ++ "  policyTypes:" ++ nl ++
   "    - Ingress" ++ nl ++ "    - Egress" ++ nl)%string.

Definition network_finding (r : Report) (cluster : string) : list Finding :=
  let '(without, withoutObs) := observeInt r "network-policies" cluster "namespaces_without_policies" in
  when (bool_decide (withoutObs = observed) && (0 <? without))
    (finding_of "network-policies/no-policy" (cluster ++ " has " ++ itoa without ++ " namespace(s) with no network policies")
      (itoa without ++ " namespaces have no NetworkPolicy resources. All pod-to-pod traffic is allowed in these namespaces.")
      SeverityWarning cluster "network-policies" [] (manifest defaultDenyNetworkPolicyYAML)).

Definition networkFindings (r : Report) : list Finding :=
  with_section r "network-policies" (flat_map (network_finding r) (rp_Clusters r)).

(** ** Workload security *)

Record highRiskPod := { hp_Name : string; hp_Risks : list string }.

Definition location (entry : obj) : string :=
  (get_str entry "namespace" ++ "/" ++ get_str entry "pod" ++ "/" ++ get_str entry "container")%string.

Definition highRiskPods (r : Report) (cluster : string) : list highRiskPod :=
  let '(m, obs) := clusterView r "workload-security" cluster in
  if negb (seen obs) then []
  else map (fun entry => {| hp_Name := location entry; hp_Risks := strings_of (get_arr entry "risks") |})
         (objects (get_arr m "high_risk_pods")).

Definition filterRiskNames (pods : list highRiskPod) (tag : string) : list string :=
  capList (map hp_Name (List.filter (fun p => existsb (String.prefix tag) (hp_Risks p)) pods)).

Definition privileged_query : string :=
  ("get pods -A -o json | jq -r '.items[] | select(.spec.containers[].securityContext.privileged==true) | .metadata.namespace + "
   ++ dq ++ "/" ++ dq ++ " + .metadata.name'")%string.

Definition workload_finding (rule title desc sev cluster : string) (affected : list string) (rem : option Remediation) : Finding :=
  finding_of ("workload-security/" ++ rule) title desc sev cluster "workload-security" affected rem.

Definition workload_findings (r : Report) (cluster : string) : list Finding :=
  let risks := highRiskPods r cluster in
  let '(privCount, privObs) := observeInt r "workload-security" cluster "privileged_containers" in
  let '(hostNet, hostNetObs) := observeInt r "workload-security" cluster "host_network_pods" in
  let '(hostPID, hostPIDObs) := observeInt r "workload-security" cluster "host_pid_pods" in
  let '(rootCount, rootObs) := observeInt r "workload-security" cluster "run_as_root_containers" in
  let '(capAdd, capObs) := observeInt r "workload-security" cluster "capability_additions" in
  let '(total, totalObs) := observeInt r "workload-security" cluster "total_pods" in
  let pct := pct_of rootCount total in
  when (seen privObs && (0 <? privCount))
    (workload_finding "privileged" (cluster ++ " has " ++ itoa privCount ++ " privileged container(s)")
      (("Privileged containers have full host access. Review whether these workloads genuinely require it. Total pods: " ++
        itoa total ++ ".") ++ note privObs) SeverityCritical cluster (filterRiskNames risks "privileged")
      (kubectl cluster privileged_query)) ++
  when (seen hostNetObs && seen hostPIDObs && ((0 <? hostNet) || (0 <? hostPID)))
    (workload_finding "host-namespaces"
      (cluster ++ " has pods using host namespaces (network: " ++ itoa hostNet ++ ", PID: " ++ itoa hostPID ++ ")")
      ("Pods sharing the host network or PID namespace can see and interact with other processes and traffic on the node."
       ++ note (weakest [hostNetObs; hostPIDObs])) SeverityWarning cluster
      (dedup ∅ (filterRiskNames risks "host-network" ++ filterRiskNames risks "host-pid")) None) ++
  when (seen rootObs && seen totalObs && (0 <? rootCount) && (0 <? total))
    (workload_finding "run-as-root"
      (cluster ++ " has " ++ itoa rootCount ++ " container(s) explicitly running as root (" ++ show_fixed 0 pct ++ "%)")
      ("These containers have an effective runAsUser of 0, set on the container or inherited from the pod. Container escape vulnerabilities have higher impact when the workload is root."
       ++ note (weakest [rootObs; totalObs])) (if above pct 50 then SeverityWarning else SeverityInfo) cluster [] None) ++
  when (seen capObs && (0 <? capAdd))
    (workload_finding "capability-add" (cluster ++ " has " ++ itoa capAdd ++ " container(s) with added Linux capabilities")
      ("Containers requesting capabilities such as NET_ADMIN or SYS_PTRACE have elevated kernel access beyond the default set."
       ++ note capObs) SeverityWarning cluster (filterRiskNames risks "capabilities-add") None).

Definition workloadSecFindings (r : Report) : list Finding :=
  with_section r "workload-security" (flat_map (workload_findings r) (rp_Clusters r)).

(** ** RBAC audit *)

Record riskBinding := { rb_Name : string; rb_Kind : string; rb_Namespace : string; rb_Risks : list string }.

Definition riskBindings (r : Report) (cluster : string) : list riskBinding :=
  let '(m, obs) := clusterView r "rbac-audit" cluster in
  if negb (seen obs) then []
  else map (fun entry => {| rb_Name := get_str entry "name"; rb_Kind := get_str entry "kind";
                            rb_Namespace := get_str entry "namespace"; rb_Risks := strings_of (get_arr entry "risks") |})
         (objects (get_arr m "risk_bindings")).

Definition filterBindingsByRisk (bs : list riskBinding) (risk : string) : list string :=
  capList (map rb_Name (List.filter (fun b => existsb (String.eqb risk) (rb_Risks b)) bs)).

Definition rbac_finding (rule title desc sev cluster : string) (affected : list string) (rem : option Remediation) : Finding :=
  finding_of ("rbac-audit/" ++ rule) title desc sev cluster "rbac-audit" affected rem.

Definition rbac_audit_findings (r : Report) (cluster : string) : list Finding :=
  let risk := riskBindings r cluster in
  let '(adminBindings, adminObs) := observeInt r "rbac-audit" cluster "cluster_admin_bindings" in
  let '(wildcardRules, wildcardObs) := observeInt r "rbac-audit" cluster "wildcard_rules" in
  let '(defaultSA, defaultObs) := observeInt r "rbac-audit" cluster "default_sa_bindings" in
  let admins := filterBindingsByRisk risk "cluster-admin-to-non-system" in
  when (seen adminObs && (0 <? adminBindings))
    (rbac_finding "cluster-admin-binding" (cluster ++ " has " ++ itoa adminBindings ++ " non-system cluster-admin binding(s)")
      ("ClusterRoleBindings granting cluster-admin to non-system principals give unrestricted access to every resource in the cluster."
       ++ note adminObs) SeverityCritical cluster admins
      (kubectl cluster ("get clusterrolebinding " ++ join " " admins ++ " -o yaml"))) ++
  when (seen wildcardObs && (0 <? wildcardRules))
    (rbac_finding "wildcard-rule" (cluster ++ " has " ++ itoa wildcardRules ++ " RBAC rule(s) with wildcard permissions")
      ("Rules using '*' for verbs, resources, or apiGroups grant broader access than most workloads need." ++ note wildcardObs)
      SeverityWarning cluster [] None) ++
  when (seen defaultObs && (0 <? defaultSA))
    (rbac_finding "default-sa-binding"
      (cluster ++ " has " ++ itoa defaultSA ++ " binding(s) granting permissions to a default service account")
      ("The default service account is used by any pod that does not specify a different one. Granting it permissions means all unattributed workloads inherit them."
       ++ note defaultObs) SeverityWarning cluster (filterBindingsByRisk risk "grants-to-default-sa") None).

Definition rbacAuditFindings (r : Report) : list Finding :=
  with_section r "rbac-audit" (flat_map (rbac_audit_findings r) (rp_Clusters r)).

(** ** Certificates *)

Definition cert_label (entry : obj) : string :=
  let ns := get_str entry "namespace" in let kind := get_str entry "kind" in
  let label := if String.eqb ns "" then get_str entry "name" else (ns ++ "/" ++ get_str entry "name")%string in
  let label := if String.eqb kind "" then label else (kind ++ " " ++ label)%string in
  (label ++ " (" ++ itoa (get_int entry "days_remaining") ++ " days)")%string.

Definition expiring (lo hi : Z) (m : obj) : list string :=
  map cert_label (List.filter (fun e => let days := get_int e "days_remaining" in (lo <=? days) && (days <? hi))
    (objects (get_arr m "certs"))).

Definition cert_findings (r : Report) (cluster : string) : list Finding :=
  let '(m, obs) := clusterView r "certs" cluster in
  if negb (seen obs) then []
  else
    let critical := expiring int64_min 7 m in
    let warning := expiring 7 30 m in
    when (0 <? zlen critical)
      (finding_of "certs/expiring-7d" (cluster ++ " has " ++ itoa (zlen critical) ++ " certificate(s) expiring in fewer than 7 days")
        ("These TLS certificates will expire imminently. Renew them before they break webhooks, ingress, or metrics endpoints." ++ note obs)
        SeverityCritical cluster "certs" (capList critical)
        (kubectl cluster "get secret -A --field-selector type=kubernetes.io/tls")) ++
    when (0 <? zlen warning)
      (finding_of "certs/expiring-30d" (cluster ++ " has " ++ itoa (zlen warning) ++ " certificate(s) expiring within 30 days")
        ("Schedule renewals now to avoid expiry-driven outages." ++ note obs) SeverityWarning cluster "certs" (capList warning) None).

Definition certFindings (r : Report) : list Finding :=
  with_section r "certs" (flat_map (cert_findings r) (rp_Clusters r)).

(** ** Vulnerabilities *)

Definition critical_image (img : obj) : option string :=
  if f_leb (get_num img "critical") f_zero then None
  else Some (get_str img "image" ++ " (" ++ itoa (get_int img "critical") ++ " critical)")%string.

Definition vulnerability_finding (flat : flatMap) (cluster : string) : list Finding :=
  let m := default ∅ (flat !! cluster) in
  let critical := get_int m "critical" in
  when (get_bool m "available" && (0 <? critical))
    (finding_of "vulnerabilities/critical-present" (cluster ++ " runs images with " ++ itoa critical ++ " critical vulnerabilities")
      "The cluster's vulnerability reports list critical CVEs in running images. Rebuild or upgrade the images and redeploy."
      SeverityInfo cluster "vulnerabilities" (capList (omap critical_image (objects (get_arr m "top_images"))))
      (kubectl cluster (default "" (assoc "vulnerabilities" scannerInspect)))).

Definition vulnerabilityFindings (r : Report) : list Finding :=
  match rp_Sections r !! "vulnerabilities" with
  | None => []
  | Some sec => flat_map (vulnerability_finding (flattenSection (rp_Clusters r) sec)) (rp_Clusters r)
  end.

(** ** Admission webhooks *)

Definition webhook_label (entry : obj) : string := (get_str entry "configuration" ++ "/" ++ get_str entry "webhook")%string.

Definition no_endpoints (entry : obj) : bool :=
  negb (get_bool entry "endpoints_healthy") && negb (get_bool entry "endpoints_unknown") &&
  negb (String.eqb (get_str entry "service") "").

Definition unhealthy_text (entry : obj) : string :=
  (webhook_label entry ++ " (service " ++ get_str entry "service" ++ ", failurePolicy=" ++ get_str entry "failure_policy" ++ ")")%string.

Definition ca_expiring (entry : obj) : bool :=
  let caDays := get_int entry "ca_bundle_days_remaining" in (0 <=? caDays) && (caDays <? 30).

Definition ca_text (entry : obj) : string :=
  (webhook_label entry ++ " (CA expires in " ++ itoa (get_int entry "ca_bundle_days_remaining") ++ " days)")%string.

Definition endpoints_command (cluster firstSvc : string) : option Remediation :=
  match Cut firstSvc "/" with
  | Some (ns, name) => kubectl cluster ("-n " ++ ns ++ " get endpoints " ++ name)
  | None => kubectl cluster "get endpoints -A"
  end.

Definition admission_findings (r : Report) (cluster : string) : list Finding :=
  let '(m, obs) := clusterView r "admission" cluster in
  if negb (seen obs) then []
  else
    let webhooks := objects (get_arr m "webhooks") in
    let broken := List.filter no_endpoints webhooks in
    let unhealthy := map unhealthy_text broken in
    let expiring := map ca_text (List.filter ca_expiring webhooks) in
    let firstSvc := match broken with [] => "" | e :: _ => get_str e "service" end in
    when (0 <? zlen unhealthy)
      (finding_of "admission/no-healthy-endpoints"
        (cluster ++ " has " ++ itoa (zlen unhealthy) ++ " admission webhook(s) with no healthy endpoints")
        ("When failurePolicy=Fail, every API request matching these webhooks will be rejected. Even with failurePolicy=Ignore, mutations and validations are silently skipped."
         ++ note obs) SeverityCritical cluster "admission" (capList unhealthy) (endpoints_command cluster firstSvc)) ++
    when (0 <? zlen expiring)
      (finding_of "admission/ca-expiring"
        (cluster ++ " has " ++ itoa (zlen expiring) ++ " admission webhook(s) with CA bundles expiring soon")
        ("When a webhook CA bundle expires, the apiserver refuses to talk to the webhook. Renew or rotate before the listed deadlines."
         ++ note obs) SeverityWarning cluster "admission" (capList expiring) None).

Definition admissionFindings (r : Report) : list Finding :=
  with_section r "admission" (flat_map (admission_findings r) (rp_Clusters r)).

(** ** internal/report/findings_workloads.go: image, coverage and bad-deploy findings

    [compositeBadDeployFindings] joins three scanners by namespace; its sets are [gset]s,
    read back sorted. *)

(** ** Images *)

Record imageRisk := { ir_Image : string; ir_Where : string; ir_Risks : list string }.

Definition imageRisks (r : Report) (cluster : string) : list imageRisk :=
  let '(m, obs) := clusterView r "image-audit" cluster in
  if negb (seen obs) then []
  else map (fun entry => {| ir_Image := get_str entry "image"; ir_Where := location entry;
                            ir_Risks := strings_of (get_arr entry "risks") |})
         (objects (get_arr m "image_risks")).

Definition filterImagesByRisk (images : list imageRisk) (risk : string) : list string :=
  capList (map (fun ir => (ir_Image ir ++ " @ " ++ ir_Where ir)%string)
    (List.filter (fun ir => existsb (String.eqb risk) (ir_Risks ir)) images)).

Definition image_findings (r : Report) (cluster : string) : list Finding :=
  let risks := imageRisks r cluster in
  let '(latestTag, latestObs) := observeInt r "image-audit" cluster "latest_tag" in
  let '(noDigest, noDigestObs) := observeInt r "image-audit" cluster "no_digest" in
  let '(total, totalObs) := observeInt r "image-audit" cluster "total_containers" in
  let digestObs := weakest [noDigestObs; totalObs] in
  let pct := pct_of noDigest total in
  when (seen latestObs && (0 <? latestTag))
    (finding_of "image-audit/latest-tag" (cluster ++ " has " ++ itoa latestTag ++ " container(s) using :latest or no tag")
      (("Out of " ++ itoa total ++ " containers, " ++ itoa latestTag ++
        " use :latest or omit a tag. Without a pinned tag, rollbacks and audits are unreliable.") ++
       note (weakest [latestObs; totalObs])) SeverityWarning cluster "image-audit" (filterImagesByRisk risks "latest-tag") None) ++
  when (seen digestObs && (0 <? noDigest) && (0 <? total))
    (finding_of "image-audit/no-digest"
      (cluster ++ " has " ++ itoa noDigest ++ " container(s) without digest pins (" ++ show_fixed 0 pct ++ "%)")
      ("Images without @sha256: digest pins can change content without changing the tag. Pinning digests ensures reproducible deployments."
       ++ note digestObs) (if above pct 80 then SeverityWarning else SeverityInfo) cluster "image-audit" [] None).

Definition imageAuditFindings (r : Report) : list Finding :=
  with_section r "image-audit" (flat_map (image_findings r) (rp_Clusters r)).

(** ** Workload coverage *)

Definition defaultPDBYAML : string :=
  ("apiVersion: policy/v1" ++ nl ++ "kind: PodDisruptionBudget" ++ nl ++ "metadata:" ++ nl ++ "  name: REPLACE_WITH_WORKLOAD" ++ nl ++
   "  namespace: REPLACE_WITH_NAMESPACE" ++ nl ++ "spec:" ++ nl ++ "  minAvailable: 1" ++ nl ++ "  selector:" ++ nl ++
   "    matchLabels:" ++ nl ++ "      app: REPLACE_WITH_APP_LABEL" ++ nl)%string.

Definition gap_label (entry : obj) : string :=
  (get_str entry "kind" ++ " " ++ get_str entry "namespace" ++ "/" ++ get_str entry "name")%string.

Definition lacking (guard : string) (gaps : list obj) : list string :=
  map gap_label (List.filter (fun e => negb (get_bool e guard)) gaps).

Definition coverage_findings (r : Report) (cluster : string) : list Finding :=
  let '(m, obs) := clusterView r "workload-coverage" cluster in
  if negb (bool_decide (obs = observed)) then []
  else
    let gaps := objects (get_arr m "gaps") in
    let missingPDB := lacking "has_pdb" gaps in
    let missingHPA := lacking "has_hpa" gaps in
    when (0 <? zlen missingPDB)
      (finding_of "workload-coverage/missing-pdb"
        (cluster ++ " has " ++ itoa (zlen missingPDB) ++ " replicated workload(s) without a PodDisruptionBudget")
        "Voluntary disruptions (node drain, kubectl drain, autoscaler) can take all replicas of these workloads down simultaneously."
        SeverityWarning cluster "workload-coverage" (capList missingPDB) (manifest defaultPDBYAML)) ++
    when (0 <? zlen missingHPA)
      (finding_of "workload-coverage/missing-hpa"
        (cluster ++ " has " ++ itoa (zlen missingHPA) ++ " replicated workload(s) without a HorizontalPodAutoscaler")
        "These workloads cannot scale with load. If they are CPU- or memory-bound, expect throttling or OOMKills under traffic spikes."
        SeverityInfo cluster "workload-coverage" (capList missingHPA) None).

Definition coverageFindings (r : Report) : list Finding :=
  with_section r "workload-coverage" (flat_map (coverage_findings r) (rp_Clusters r)).

(** ** Bad deploys *)

Definition badReasons : list string :=
  ["Failed"; "BackOff"; "CrashLoopBackOff"; "FailedScheduling"; "Killing"; "Pulling"; "FailedCreatePodSandBox"].

(** The set of the non-empty names. *)
Definition named_set (names : list string) : gset string :=
  list_to_set (List.filter (fun ns => negb (String.eqb ns "")) names).

Definition namespacesWithImageRisk (r : Report) (cluster : string) : gset string :=
  named_set (map (fun ir => before "/" (ir_Where ir)) (imageRisks r cluster)).

Definition namespacesWithEventReasons (r : Report) (cluster : string) (reasons : list string) : gset string :=
  let '(m, obs) := clusterView r "events" cluster in
  if negb (seen obs) then ∅
  else named_set (map (fun e => get_str e "namespace")
    (List.filter (fun e => existsb (String.eqb (get_str e "reason")) reasons) (objects (get_arr m "recent_warnings")))).

Definition namespacesWithWorkloadRisk (r : Report) (cluster : string) : gset string :=
  named_set (map (fun p => before "/" (hp_Name p)) (highRiskPods r cluster)).

Definition bad_namespaces (r : Report) (cluster : string) : list string :=
  sort_strings (elements (namespacesWithImageRisk r cluster ∩ namespacesWithEventReasons r cluster badReasons
    ∩ namespacesWithWorkloadRisk r cluster)).

Definition bad_deploy (r : Report) (cluster : string) : list Finding :=
  match bad_namespaces r cluster with
  | [] => []
  | (ns :: _) as names =>
      [finding_of "image-audit/bad-deploy"
        (cluster ++ " shows bad-deploy signals in " ++ itoa (zlen names) ++ " namespace(s)")
        "Image risks (mutable tags or no-digest), failure-related warning events, and workload-security risks all overlap on the same namespace. This pattern matches a recently rolled-out workload that is failing."
        SeverityCritical cluster "image-audit" names
        (kubectl cluster ("-n " ++ ns ++ " get pods,events --sort-by=.lastTimestamp"))]
  end.

Definition compositeBadDeployFindings (r : Report) : list Finding :=
  match rp_Sections r !! "image-audit", rp_Sections r !! "events" with
  | Some _, Some _ => flat_map (bad_deploy r) (rp_Clusters r)
  | _, _ => []
  end.
