(* ===== verification/FindCluster.v ===== *)
(** * internal/report/findings_cluster.go: fleet comparisons, deprecated APIs, node platform

    A Go map is ranged over in any order: [order] arranges the entries of the counts, and
    the theorems say what of the result depends on it. *)

From Stdlib Require Import ZArith Lia String Ascii Floats.SpecFloat Sorting.Sorted.
From stdpp Require Import base gmap strings list sets.
From S2P Require Import Prelude Maps Float64 Text Strs Data Fields Observe Format Findings Finders Capacity FindHealth FindSecurity.

Local Open Scope Z_scope.

(** ** System namespaces *)

Definition systemNamespacePrefixes : list string :=
  ["kube-"; "gke-"; "eks-"; "aks-"; "cattle-"; "istio-"; "linkerd-"; "cert-manager"; "monitoring"; "logging"; "velero"; "prometheus"].

Definition systemNamespaceExact : list string := ["default"; "kube-system"; "kube-public"; "kube-node-lease"].

Definition isSystemNamespace (name : string) : bool :=
  existsb (String.eqb name) systemNamespaceExact || existsb (fun p => String.prefix p name) systemNamespacePrefixes.

(** ** Version skew *)

Definition version_of (r : Report) (c : string) : option string :=
  let '(v, obs) := observeString r "version" c "git_version" in if seen obs then Some v else None.

Definition version_table (r : Report) : gmap string string :=
  fold_left (fun t c => match version_of r c with Some v => <[c := v]> t | None => t end) (rp_Clusters r) ∅.

(** The distinct non-empty versions, in the order of the clusters. *)
Definition uniqueVersions (r : Report) : list string :=
  dedup ∅ (List.filter (fun v => negb (String.eqb v "")) (omap (version_of r) (rp_Clusters r))).

(** [versions[c]], empty where the cluster has no version. *)
Definition version_at (versions : gmap string string) (c : string) : string := default ""%string (versions !! c).

Definition run_version (versions : gmap string string) (c : string) : option string :=
  let v := version_at versions c in if String.eqb v "" then None else Some v.

Definition version_counts (clusters : list string) (versions : gmap string string) : gmap string nat :=
  count_by (run_version versions) clusters.

(** The loop over the counts: the most common version so far, its count, and whether another
    version has the same count. *)
Definition majority_step (acc : string * nat * bool) (vn : string * nat) : string * nat * bool :=
  let '(majority, top, tied) := acc in
  let '(v, n) := vn in
  if (top <? n)%nat then (v, n, false) else if (n =? top)%nat then (majority, top, true) else acc.

Definition majority_of (entries : list (string * nat)) : string * nat * bool :=
  fold_left majority_step entries (""%string, 0%nat, false).

Definition mark_of (majority : string) (versions : gmap string string) (c : string) : option ClusterMark :=
  let v := version_at versions c in
  if String.eqb v "" || String.eqb v majority then None
  else
    let sev := versionSkewSeverity [majority; v] in
    if String.eqb sev SeverityInfo then None else Some {| cm_Cluster := c; cm_Severity := sev |}.

Definition versionMarks (order : list (string * nat) -> list (string * nat)) (clusters : list string)
  (versions : gmap string string) : string * list ClusterMark :=
  let '(majority, _, tied) := majority_of (order (map_to_list (version_counts clusters versions))) in
  if tied || String.eqb majority "" then (""%string, [])
  else (majority, isort (less_of (cmp_on cm_Cluster String.compare)) (omap (mark_of majority versions) clusters)).

Definition version_text (versions : gmap string string) (c : string) : option string :=
  let v := version_at versions c in if String.eqb v "" then None else Some (c ++ "=" ++ v)%string.

Definition versionFindings (order : list (string * nat) -> list (string * nat)) (r : Report) : list Finding :=
  match rp_Sections r !! "version" with
  | None => []
  | Some sec =>
      let unique := uniqueVersions r in
      let severity := versionSkewSeverity unique in
      if sr_Uniform sec || (length unique <? 2)%nat || String.eqb severity SeverityInfo then []
      else
        let versions := version_table r in
        let '(majority, marks) := versionMarks order (rp_Clusters r) versions in
        let desc := ("Fleet runs " ++ itoa (zlen unique) ++ " distinct versions: " ++ join ", " (sort_strings unique) ++ ".")%string in
        let off := match marks with
                   | [] => ""%string
                   | _ => (" Off the majority version " ++ majority ++ ": " ++ join ", " (map cm_Cluster marks) ++ ".")%string
                   end in
        [{| fi_Title := "Kubernetes version skew across fleet"; fi_Description := (desc ++ off)%string; fi_Severity := severity;
            fi_Cluster := "fleet"; fi_Scanner := "version"; fi_Rule := "version/skew"; fi_Fingerprint := ""; fi_Acked := false;
            fi_Affected := sort_strings (omap (version_text versions) (rp_Clusters r));
            fi_Remediation := command "kubectl version"; fi_Norm := None; fi_Marks := marks |}]
  end.

(** ** Namespace counts *)

Definition countNonSystemNamespaces (r : Report) (cluster : string) : Z * observation :=
  let '(m, obs) := clusterView r "namespaces" cluster in
  if negb (seen obs) then (0, unobserved)
  else match m !! "namespaces" with
       | Some (JArr raw) => (zlen (List.filter (fun e => negb (isSystemNamespace (get_str e "name"))) (objects raw)), obs)
       | _ => match util_Float64 (m !! "count") with
              | Some count => (f_to_int count, obs)
              | None => (0, unobserved)
              end
       end.

Definition namespace_counts (r : Report) : gmap string Z :=
  fold_left (fun counts c =>
    let '(n, obs) := countNonSystemNamespaces r c in if seen obs then <[c := n]> counts else counts) (rp_Clusters r) ∅.

(** The first entry with the least, and the first with the greatest count. *)
Definition extreme_step (better : Z -> Z -> bool) (acc : option (string * Z)) (cn : string * Z) : option (string * Z) :=
  match acc with None => Some cn | Some (_, best) => if better (snd cn) best then Some cn else acc end.

Definition extreme (better : Z -> Z -> bool) (entries : list (string * Z)) : option (string * Z) :=
  fold_left (extreme_step better) entries None.

Definition namespaceFindings (order : list (string * Z) -> list (string * Z)) (r : Report) : list Finding :=
  match rp_Sections r !! "namespaces" with
  | None => []
  | Some _ =>
      let entries := order (map_to_list (namespace_counts r)) in
      if (length entries <? 2)%nat then []
      else match extreme Z.ltb entries, extreme Z.gtb entries with
           | Some (minC, minVal), Some (maxC, maxVal) =>
               if wrap64 (maxVal - minVal) <=? 1 then []
               else [finding_of "namespaces/non-system-count-varies" "Non-system namespace count varies across the fleet"
                      (minC ++ " has " ++ itoa minVal ++ " non-system namespaces while " ++ maxC ++ " has " ++ itoa maxVal ++
                       ". Cloud and add-on namespaces are excluded from this comparison.")
                      SeverityWarning "fleet" "namespaces" [minC; maxC] None]
           | _, _ => []
           end
  end.

(** ** RBAC *)

Definition rbacFindings (r : Report) : list Finding :=
  match rp_Sections r !! "rbac" with
  | None => []
  | Some sec =>
      when (negb (sr_Uniform sec))
        (finding_of "rbac/config-differs" "RBAC configuration differs across clusters"
          "ClusterRoles, Roles, or their bindings differ between clusters. See the rbac-audit findings for named offenders."
          SeverityWarning "fleet" "rbac" [] None)
  end.

(** ** Deprecated APIs *)

Definition deprecated_text (entry : obj) : string :=
  (get_str entry "api_version" ++ " " ++ get_str entry "kind" ++ " (" ++ itoa (get_int entry "instance_count") ++
   " instances, removed in " ++ get_str entry "removed_in" ++ ")")%string.

Definition deprecated_finding (r : Report) (cluster : string) : list Finding :=
  let '(m, obs) := clusterView r "deprecated-apis" cluster in
  let raw := get_arr m "deprecated" in
  when (seen obs && (0 <? zlen raw))
    (finding_of "deprecated-apis/in-use" (cluster ++ " uses " ++ itoa (zlen raw) ++ " deprecated API version(s)")
      ("These API versions have been deprecated or removed in newer Kubernetes minor releases. Migrate before the next upgrade or workloads will fail."
       ++ note obs) SeverityWarning cluster "deprecated-apis" (capList (map deprecated_text (objects raw)))
      (kubectl cluster "get --raw /metrics 2>/dev/null | grep apiserver_requested_deprecated_apis")).

Definition deprecatedAPIFindings (r : Report) : list Finding :=
  with_section r "deprecated-apis" (flat_map (deprecated_finding r) (rp_Clusters r)).

(** ** Node platform *)

Definition platform_detail (m : obj) (k : string) : option string :=
  let arr := get_arr m k in
  if 1 <? zlen arr then Some (k ++ ": " ++ join ", " (strings_of arr))%string else None.

Definition cluster_info_finding (r : Report) (cluster : string) : list Finding :=
  let '(m, obs) := clusterView r "cluster-info" cluster in
  when (seen obs && get_bool m "has_drift")
    (finding_of "cluster-info/node-platform-drift" (cluster ++ " has node-level platform drift")
      ("Different nodes report different platform identities. Common cause: rolling node-pool replacement, stale AMI, or partially-completed upgrade."
       ++ note obs) SeverityWarning cluster "cluster-info"
      (omap (platform_detail m) ["os_images"; "kernel_versions"; "runtime_versions"; "kubelet_versions"])
      (kubectl cluster "get nodes -o wide")).

Definition clusterInfoFindings (r : Report) : list Finding :=
  with_section r "cluster-info" (flat_map (cluster_info_finding r) (rp_Clusters r)).

(** ** The majority version *)

(** How many clusters run [v]. *)
Definition cluster_count (versions : gmap string string) (clusters : list string) (v : string) : nat :=
  keyed (run_version versions) v clusters.

Lemma run_version_nonempty versions c : run_version versions c <> Some ""%string.
Proof. unfold run_version. by destruct (String.eqb_spec (version_at versions c) ""); [|intros [=]]. Qed.

Lemma no_empty_version versions clusters : cluster_count versions clusters "" = 0%nat.
Proof.
  unfold cluster_count, keyed.
  induction clusters as [|c l IH]; [done|]. cbn [List.filter]. unfold has_key at 1.
  rewrite bool_decide_eq_false_2 by apply run_version_nonempty. exact IH.
Qed.

(** [v] has more clusters than any other version. *)
Definition leads (entries : list (string * nat)) (v : string) : Prop :=
  exists n, (v, n) ∈ entries /\ forall w k, (w, k) ∈ entries -> w <> v -> (k < n)%nat.

Definition loop_inv (entries : list (string * nat)) (acc : string * nat * bool) : Prop :=
  let '(m, top, tied) := acc in
  (forall w k, (w, k) ∈ entries -> (k <= top)%nat) /\
  (entries <> [] -> (m, top) ∈ entries) /\
  (tied = false -> forall w, (w, top) ∈ entries -> w = m) /\
  (tied = true -> exists w, w <> m /\ (w, top) ∈ entries).

Lemma majority_inv entries : NoDup entries.*1 -> Forall (fun p => 0 < snd p)%nat entries ->
  loop_inv entries (majority_of entries) /\ (entries = [] -> majority_of entries = (""%string, 0%nat, false)).
Proof.
  unfold majority_of. induction entries as [|[v n] l IH] using rev_ind.
  - intros _ _. split; [|done]. split_and!; try done; [intros w k H|intros _ w H]; by apply not_elem_of_nil in H.
  - rewrite fmap_app, Forall_app, fold_left_app. intros Hd [Hpl Hp]. split; [|by destruct l].
    apply NoDup_app in Hd as (Hdl & Hdv & _). destruct (IH Hdl Hpl) as [Hinv Hnil]. clear IH.
    assert (Hnew : forall k, (v, k) ∉ l).
    { intros k Hk. apply (Hdv v); [|by left]. apply list_elem_of_fmap. by exists (v, k). }
    inversion Hp as [|? ? Hn _]; subst. cbn [snd] in Hn. cbn [fold_left].
    destruct (fold_left majority_step l _) as [[m top] tied]. destruct Hinv as (Hle & Hin & Huniq & Htie).
    unfold majority_step. destruct (Nat.ltb_spec top n) as [Hlt|Hge]; [|destruct (Nat.eqb_spec n top) as [->|Hne]].
    + split_and!; [| |intros _|done].
      * intros w k [H|[= -> ->]%list_elem_of_singleton]%elem_of_app; [|lia]. pose proof (Hle w k H). lia.
      * intros _. apply elem_of_app. right. by left.
      * intros w [H|[= ->]%list_elem_of_singleton]%elem_of_app; [|done]. pose proof (Hle w n H). lia.
    + assert (Hl : l <> []) by (intros ->; specialize (Hnil eq_refl); injection Hnil; lia).
      split_and!; [| |done|intros _].
      * intros w k [H|[= -> ->]%list_elem_of_singleton]%elem_of_app; [by apply (Hle w)|done].
      * intros _. apply elem_of_app. left. by apply Hin.
      * exists v. split; [|apply elem_of_app; right; by left]. intros ->. by apply (Hnew top), Hin.
    + assert (Hl : l <> []) by (intros ->; specialize (Hnil eq_refl); injection Hnil; lia).
      split_and!.
      * intros w k [H|[= -> ->]%list_elem_of_singleton]%elem_of_app; [by apply (Hle w)|lia].
      * intros _. apply elem_of_app. left. by apply Hin.
      * intros Ht w [H|[= _ H]%list_elem_of_singleton]%elem_of_app; [by apply Huniq|congruence].
      * intros Ht. destruct (Htie Ht) as (w & Hw & H). exists w. split; [done|]. apply elem_of_app. by left.
Qed.

Lemma majority_leads entries v : NoDup entries.*1 -> Forall (fun p => 0 < snd p)%nat entries ->
  leads entries v <-> entries <> [] /\ exists top, majority_of entries = (v, top, false).
Proof.
  intros Hd Hp. destruct (majority_inv entries Hd Hp) as [Hinv Hnil]. destruct (majority_of entries) as [[m top] tied].
  destruct Hinv as (Hle & Hin & Huniq & Htie). split.
  - intros (n & Hn & Hlt). assert (Hl : entries <> []) by (intros ->; by apply not_elem_of_nil in Hn). split; [done|].
    assert (m = v) as ->.
    { destruct (decide (m = v)) as [|Hne]; [done|]. pose proof (Hlt m top (Hin Hl) Hne). pose proof (Hle v n Hn). lia. }
    exists top. destruct tied; [|done]. destruct (Htie eq_refl) as (w & Hw & H).
    pose proof (Hlt w top H Hw). pose proof (Hle v n Hn). lia.
  - intros (Hl & top' & [= -> <- ->]). exists top. split; [by apply Hin|]. intros w k Hw Hne.
    pose proof (Hle w k Hw). destruct (decide (k = top)) as [->|]; [|lia]. by rewrite (Huniq eq_refl w Hw) in Hne.
Qed.

Lemma cluster_count_leads clusters versions (entries : list (string * nat)) v :
  entries ≡ₚ map_to_list (version_counts clusters versions) ->
  leads entries v <-> (0 < cluster_count versions clusters v)%nat /\
    forall w, w <> v -> (cluster_count versions clusters w < cluster_count versions clusters v)%nat.
Proof.
  intros [_ Hin]%count_by_entries. unfold cluster_count. split.
  - intros (n & [-> Hpos]%Hin & Hlt). split; [done|]. intros w Hne.
    destruct (decide (0 < keyed (run_version versions) w clusters)%nat); [|lia]. apply (Hlt w); [|done]. by apply Hin.
  - intros [Hpos Hlt]. exists (cluster_count versions clusters v). split; [by apply Hin|].
    intros w k [-> _]%Hin Hne. by apply Hlt.
Qed.

Lemma cluster_mark_order : CmpOrder (cmp_on cm_Cluster String.compare).
Proof. exact _. Qed.

Module Versions.

(** Who is off the fleet's version does not depend on the order in which Go ranges over
    its map of counts. A majority version is named exactly when more clusters run it than
    any other; the marks, sorted by cluster, name exactly the clusters with a version whose
    skew from it is a minor version or more, each at the severity of that skew alone, and
    where no version leads nothing is marked. *)
Theorem version_marks_exact order clusters versions :
  (forall l, order l ≡ₚ l) ->
  let '(majority, marks) := versionMarks order clusters versions in
  (forall v, v <> ""%string ->
     (majority = v <-> (0 < cluster_count versions clusters v)%nat /\
        forall w, w <> v -> (cluster_count versions clusters w < cluster_count versions clusters v)%nat)) /\
  StronglySorted (fun a b => str_ltb (cm_Cluster b) (cm_Cluster a) = false) marks /\
  forall m, m ∈ marks <-> majority <> ""%string /\ cm_Cluster m ∈ clusters /\
    let v := version_at versions (cm_Cluster m) in
    v <> ""%string /\ v <> majority /\ cm_Severity m <> SeverityInfo /\ cm_Severity m = versionSkewSeverity [majority; v].
Proof.
  intros Hord. unfold versionMarks. set (entries := order _).
  assert (Hp : entries ≡ₚ map_to_list (version_counts clusters versions)) by apply Hord.
  destruct (count_by_entries _ _ _ Hp) as [Hd Hin].
  assert (Hpos : Forall (fun p => 0 < snd p)%nat entries) by (apply Forall_forall; by intros [w k] [_ H]%Hin).
  assert (Hlead := fun v => cluster_count_leads clusters versions entries v Hp).
  assert (Hmaj := fun v => majority_leads entries v Hd Hpos).
  destruct (majority_inv entries Hd Hpos) as [_ Hnil]. destruct (majority_of entries) as [[m top] tied] eqn:E.
  destruct (tied || String.eqb m "") eqn:Et.
  - split_and!; [|constructor|].
    + intros v Hv. rewrite <- Hlead. split; [by intros <-|]. rewrite Hmaj. intros (_ & t & [= -> _ ->]).
      cbn in Et. by apply String.eqb_eq in Et.
    + intros x. split; [by intros ?%not_elem_of_nil|by intros [? _]].
  - apply orb_false_iff in Et as [-> Hm%String.eqb_neq]. split_and!.
    + intros v Hv. rewrite <- Hlead, Hmaj. split.
      * intros ->. split; [|by exists top]. intros Hl. specialize (Hnil Hl). injection Hnil as Hx _; by rewrite Hx in Hm.
      * by intros (_ & t & [= -> _]).
    + eapply StronglySorted_mono; [|apply isort_sorted; exact _]. intros a b H. by apply (less_of_false (cmp_on cm_Cluster String.compare)) in H.
    + intros x. rewrite isort_elem_of, list_elem_of_omap. split.
      * intros (c & Hc & Hx). unfold mark_of in Hx. split; [done|].
        destruct (String.eqb_spec (version_at versions c) ""); [done|]. destruct (String.eqb_spec (version_at versions c) m); [done|].
        cbn [orb] in Hx. destruct (String.eqb_spec (versionSkewSeverity [m; version_at versions c]) SeverityInfo); [done|].
        injection Hx as <-. cbn. done.
      * intros (_ & Hc & H1 & H2 & H3 & H4). exists (cm_Cluster x). split; [done|]. unfold mark_of.
        rewrite (proj2 (String.eqb_neq _ _) H1), (proj2 (String.eqb_neq _ _) H2). cbn [orb].
        rewrite <- H4, (proj2 (String.eqb_neq _ _) H3). by destruct x.
Qed.

Definition two_minor_apart : gmap string string :=
  list_to_map [("a", "v1.31.2"); ("b", "v1.31.2"); ("c", "v1.29.0")]%string.

(** Ranged over backwards: two clusters lead, the third is marked. *)
Lemma version_marks_exact_witness :
  (forall l : list (string * nat), rev l ≡ₚ l) /\
  versionMarks (fun l => rev l) ["a"; "b"; "c"]%string two_minor_apart =
    ("v1.31.2"%string, [{| cm_Cluster := "c"; cm_Severity := SeverityCritical |}]) /\
  (forall m, m ∈ snd (versionMarks (fun l => rev l) ["a"; "b"; "c"]%string two_minor_apart) ->
     cm_Cluster m ∈ ["a"; "b"; "c"]%string).
Proof.
  assert (H : forall l : list (string * nat), rev l ≡ₚ l) by (intros l; symmetry; apply Permutation_rev).
  split; [exact H|]. split; [vm_compute; reflexivity|]. intros m Hm.
  pose proof (version_marks_exact (fun l => rev l) ["a"; "b"; "c"]%string two_minor_apart H) as Hx.
  destruct (versionMarks (fun l => rev l) ["a"; "b"; "c"]%string two_minor_apart) as [v marks].
  destruct Hx as (_ & _ & Hx). exact (proj1 (proj2 (proj1 (Hx m) Hm))).
Defined.

End Versions.
