(* ===== verification/Generate.v ===== *)
(** * internal/report/findings.go: the generators put together

    Every finding rests on an observed run of the scanner it names, or is of a class that
    [rests_on] lists with its own ground. *)

From Stdlib Require Import ZArith Lia String Ascii Sorting.Sorted.
From stdpp Require Import base gmap strings list sets.
From S2P Require Import Prelude Float64 Text Strs Data Observe Format.
From S2P Require Import Population Findings Finders Capacity FindHealth FindSecurity FindCluster Rules.

Local Open Scope Z_scope.

(** ** Each generator rests on its own scanner *)

Lemma node_health_supported r : from_cluster r "node-health" (node_health r).
Proof. intros c. unfold node_health. read_fields. each_when; by eapply supported_field. Qed.

Lemma quota_supported r : from_cluster r "resource-quotas" (quota_finding r).
Proof.
  intros c. unfold quota_finding. read_fields. apply Forall_when. intros Hb. split_bools.
  match goal with H : bool_decide _ = true |- _ => apply bool_decide_eq_true in H; subst end.
  apply supported_whole. by eapply observeInt_view.
Qed.

Lemma event_supported r : from_cluster r "events" (event_finding r).
Proof.
  intros c. unfold event_finding. destruct (observeInt r "events" c "warning_events") as [n o] eqn:E.
  destruct (seen o) eqn:Ho; [|constructor]. cbn [negb orb]. destruct (n =? 0); [constructor|].
  read_fields. constructor; [|constructor]. by eapply supported_field.
Qed.

Lemma network_supported r : from_cluster r "network-policies" (network_finding r).
Proof.
  intros c. unfold network_finding. read_fields. apply Forall_when. intros Hb. split_bools.
  match goal with H : bool_decide _ = true |- _ => apply bool_decide_eq_true in H; subst end.
  apply supported_whole. by eapply observeInt_view.
Qed.

Lemma workload_supported r : from_cluster r "workload-security" (workload_findings r).
Proof.
  intros c. unfold workload_findings, workload_finding. read_fields.
  each_when; (by eapply supported_field) || (by eapply supported_fields).
Qed.

Lemma rbac_audit_supported r : from_cluster r "rbac-audit" (rbac_audit_findings r).
Proof. intros c. unfold rbac_audit_findings, rbac_finding. read_fields. each_when; by eapply supported_field. Qed.

Lemma cert_supported r : from_cluster r "certs" (cert_findings r).
Proof.
  intros c. unfold cert_findings. destruct (clusterView r "certs" c) as [m o] eqn:E.
  destruct (seen o) eqn:Ho; [|constructor]. cbn [negb]. each_when; apply supported; by rewrite ?E.
Qed.

Lemma admission_supported r : from_cluster r "admission" (admission_findings r).
Proof.
  intros c. unfold admission_findings. destruct (clusterView r "admission" c) as [m o] eqn:E.
  destruct (seen o) eqn:Ho; [|constructor]. cbn [negb]. each_when; apply supported; by rewrite ?E.
Qed.

Lemma coverage_supported r : from_cluster r "workload-coverage" (coverage_findings r).
Proof.
  intros c. unfold coverage_findings. destruct (clusterView r "workload-coverage" c) as [m o] eqn:E.
  case_bool_decide; [|constructor]. cbn [negb]. each_when; apply supported_whole; by rewrite E.
Qed.

Lemma deprecated_supported r : from_cluster r "deprecated-apis" (deprecated_finding r).
Proof.
  intros c. unfold deprecated_finding. destruct (clusterView r "deprecated-apis" c) as [m o] eqn:E.
  each_when. apply supported; by rewrite ?E.
Qed.

Lemma cluster_info_supported r : from_cluster r "cluster-info" (cluster_info_finding r).
Proof.
  intros c. unfold cluster_info_finding. destruct (clusterView r "cluster-info" c) as [m o] eqn:E.
  each_when. apply supported; by rewrite ?E.
Qed.

(** The share of a total missing from the payload rests on no total, and says no more than that. *)
Lemma supported_total r n c rule title desc sev aff rem o total v ot :
  snd (clusterView r n c) = o -> seen o = true -> observeInt r n c total = (v, ot) ->
  rule = "security/psa-unenforced"%string /\ total = "namespace_count"%string \/
  rule = "image-audit/latest-tag"%string /\ total = "total_containers"%string ->
  supports r n c (finding_of rule title (desc ++ note (weakest [o; ot])) sev c n aff rem).
Proof.
  intros H Ho Ht Hrule. destruct (seen ot) eqn:Eot.
  - pose proof (observeInt_view _ _ _ _ _ _ Ht Eot) as E. assert (ot = o) as -> by congruence.
    replace (weakest [o; o]) with o by (by destruct o). by apply supported.
  - split; [done|done|by rewrite H|done|]. unfold marked, excused. cbn. intros _. right. right.
    destruct Hrule as [[-> ->]|[-> ->]]; [left|right]; rewrite Ht; done.
Qed.

Lemma psa_supported r : from_cluster r "security" (psa_finding r).
Proof.
  intros c. unfold psa_finding. destruct (unenforcedNamespaces r c) as [unlabeled privileged].
  destruct (observeInt r "security" c "namespace_count") as [total ot] eqn:Et.
  destruct (seen (snd (clusterView r "security" c))) eqn:Ho; [|constructor]. cbn [negb orb].
  destruct ((_ || _)%bool); [constructor|]. constructor; [|constructor]. eapply supported_total; eauto.
Qed.

Lemma image_supported r : from_cluster r "image-audit" (image_findings r).
Proof.
  intros c. unfold image_findings. read_fields. each_when.
  - eapply supported_total; eauto. by eapply observeInt_view.
  - rewrite weakest_seen_two in *. split_bools. by eapply supported_fields.
Qed.

Lemma bad_deploy_supported r : from_cluster r "image-audit" (bad_deploy r).
Proof.
  intros c. unfold bad_deploy. destruct (bad_namespaces r c) as [|ns names] eqn:E; [constructor|].
  constructor; [|constructor]. split; [done|done| |done|by intros _; right; left].
  assert (H : ns ∈ bad_namespaces r c) by (rewrite E; left). unfold bad_namespaces in H.
  apply isort_elem_of, elem_of_elements in H. rewrite !elem_of_intersection in H. destruct H as [[H _] _].
  unfold namespacesWithImageRisk, imageRisks in H. destruct (clusterView r "image-audit" c) as [m o].
  cbn [snd]. destruct (seen o); [done|]. cbn in H. set_solver.
Qed.

(** ** generateFindings *)

Section Orders.
(** How Go happens to range over the version counts and the namespace counts. *)
Context (vorder : list (string * nat) -> list (string * nat)) (norder : list (string * Z) -> list (string * Z)).

(** The fleet-wide findings: they name the fleet, or rest on its norms. *)
Definition fleet_findings (r : Report) : list Finding :=
  outlierFindings r ++
  (if (length (rp_Outliers r) =? 0)%nat || (length (rp_Clusters r) <=? pairwiseFleetLimit)%nat
   then versionFindings vorder r ++ namespaceFindings norder r ++ rbacFindings r else []) ++
  cohortOutlierFindings r.

Definition findings_of (capacity : list CapacityAnalysis) (r : Report) : list Finding :=
  fleet_findings r ++ nodeHealthFindings r ++ capacityFindings capacity ++ securityFindings r ++
  workloadSecFindings r ++ rbacAuditFindings r ++ imageAuditFindings r ++ networkFindings r ++ quotaFindings r ++
  eventFindings r ++ certFindings r ++ vulnerabilityFindings r ++ deprecatedAPIFindings r ++ coverageFindings r ++
  admissionFindings r ++ clusterInfoFindings r ++ compositeBadDeployFindings r.

Definition generateFindings (capacity : list CapacityAnalysis) (r : Report) : list Finding :=
  stampFingerprints (sortFindings (dropRedundant (findings_of capacity r) (scopeMembers r))).

(** The generators that read one scanner's run per cluster. *)
Definition scanner_findings (r : Report) : list Finding :=
  nodeHealthFindings r ++ securityFindings r ++ workloadSecFindings r ++ rbacAuditFindings r ++ imageAuditFindings r ++
  networkFindings r ++ quotaFindings r ++ eventFindings r ++ certFindings r ++ deprecatedAPIFindings r ++
  coverageFindings r ++ admissionFindings r ++ clusterInfoFindings r ++ compositeBadDeployFindings r.

Lemma scanner_findings_found r : Forall (found r) (scanner_findings r).
Proof.
  unfold scanner_findings. repeat apply Forall_app_2; try (eapply found_section).
  - apply node_health_supported.
  - apply psa_supported.
  - apply workload_supported.
  - apply rbac_audit_supported.
  - apply image_supported.
  - apply network_supported.
  - apply quota_supported.
  - apply event_supported.
  - apply cert_supported.
  - apply deprecated_supported.
  - apply coverage_supported.
  - apply admission_supported.
  - apply cluster_info_supported.
  - unfold compositeBadDeployFindings. destruct (rp_Sections r !! "image-audit"); [|constructor].
    destruct (rp_Sections r !! "events"); [|constructor]. eapply found_flat, bad_deploy_supported.
Qed.

(** The findings that do not come from such a generator. *)
Definition other_findings (capacity : list CapacityAnalysis) (r : Report) : list Finding :=
  fleet_findings r ++ capacityFindings capacity ++ vulnerabilityFindings r.

Lemma findings_of_split capacity r f :
  f ∈ findings_of capacity r <-> f ∈ scanner_findings r \/ f ∈ other_findings capacity r.
Proof. unfold findings_of, scanner_findings, other_findings. rewrite !elem_of_app. tauto. Qed.

(** ** What the other findings rest on *)

(** The verdict of a capacity analysis a finding states. *)
Definition states_verdict (a : CapacityAnalysis) (g : Finding) : Prop :=
  fi_Rule g = "metrics/capacity-critical"%string /\ fi_Severity g = SeverityCritical /\ cy_Status a = capacityCritical \/
  fi_Rule g = "metrics/capacity-degraded"%string /\ fi_Severity g = SeverityWarning /\ cy_Status a = capacityStrained \/
  fi_Rule g = "metrics/capacity-busy"%string /\ fi_Severity g = SeverityInfo /\ cy_Status a = capacityBusy.

(** A norm names an outlier of the fleet, or of a cohort, and is marked when its run was
    degraded; a fleet comparison names the fleet and, where it names clusters, ones whose run
    was observed; a capacity finding states an analysis; and a vulnerability finding reads the
    counts of a payload in the section, with no mark. *)
Inductive rests_on (capacity : list CapacityAnalysis) (r : Report) (g : Finding) : Prop :=
| RestsNorm o :
    o ∈ rp_Outliers r /\ or_ExplainedBy o = ""%string \/ (exists c, c ∈ rp_Cohorts r /\ o ∈ cs_Outliers c) ->
    fi_Cluster g = or_Cluster o -> fi_Scanner g = or_Scanner o -> fi_Severity g = or_Severity o ->
    fi_Affected g = [or_Field o] ->
    (runState r (or_Scanner o) (or_Cluster o) = Some StateDegraded -> ends_with (fi_Description g) partialScanNote) ->
    rests_on capacity r g
| RestsVersion :
    fi_Rule g = "version/skew"%string -> fi_Cluster g = "fleet"%string -> fi_Scanner g = "version"%string ->
    (2 <= length (uniqueVersions r))%nat ->
    (forall a, a ∈ fi_Affected g -> exists c v, c ∈ rp_Clusters r /\ version_of r c = Some v /\ a = (c ++ "=" ++ v)%string) ->
    rests_on capacity r g
| RestsNamespaces c1 c2 :
    fi_Rule g = "namespaces/non-system-count-varies"%string -> fi_Cluster g = "fleet"%string ->
    fi_Scanner g = "namespaces"%string -> fi_Affected g = [c1; c2] ->
    (forall c, c ∈ [c1; c2] -> c ∈ rp_Clusters r /\ seen (snd (clusterView r "namespaces" c)) = true) ->
    rests_on capacity r g
| RestsRbac sec :
    fi_Rule g = "rbac/config-differs"%string -> fi_Cluster g = "fleet"%string -> fi_Scanner g = "rbac"%string ->
    rp_Sections r !! "rbac"%string = Some sec -> sr_Uniform sec = false -> rests_on capacity r g
| RestsVerdict a :
    a ∈ capacity -> fi_Cluster g = cy_Cluster a -> fi_Scanner g = "metrics"%string -> states_verdict a g ->
    (ends_with (cy_Recommendation a) partialScanNote -> ends_with (fi_Description g) partialScanNote) ->
    rests_on capacity r g
| RestsDeviation a :
    a ∈ capacity -> fi_Cluster g = cy_Cluster a -> fi_Scanner g = "metrics"%string ->
    fi_Rule g = "metrics/group-deviation"%string -> fi_Severity g = SeverityWarning -> cy_GroupDeviation a <> ""%string ->
    rests_on capacity r g
| RestsVulnerability sec data :
    fi_Rule g = "vulnerabilities/critical-present"%string -> fi_Scanner g = "vulnerabilities"%string ->
    fi_Cluster g ∈ rp_Clusters r -> rp_Sections r !! "vulnerabilities"%string = Some sec ->
    sr_PerCluster sec !! fi_Cluster g = Some data -> get_bool (genericMap data) "available" = true ->
    0 < get_int (genericMap data) "critical" -> rests_on capacity r g.

Lemma outlier_rests capacity r o cohort title desc rem :
  o ∈ rp_Outliers r /\ or_ExplainedBy o = ""%string \/ (exists c, c ∈ rp_Cohorts r /\ o ∈ cs_Outliers c) ->
  rests_on capacity r (outlier_finding r o cohort title desc rem).
Proof.
  intros H. apply (RestsNorm _ _ _ o); [exact H|reflexivity..|]. intros Hd. cbn [fi_Description outlier_finding].
  unfold runNote. rewrite Hd, String.eqb_refl. by exists desc.
Qed.

Lemma version_rests capacity r f : f ∈ versionFindings vorder r -> rests_on capacity r f.
Proof.
  unfold versionFindings. destruct (rp_Sections r !! _) as [sec|]; [|by intros ?%elem_of_nil].
  destruct (sr_Uniform sec); cbn [orb]; [by intros ?%elem_of_nil|].
  destruct (Nat.ltb_spec (length (uniqueVersions r)) 2) as [|Hn]; cbn [orb]; [by intros ?%elem_of_nil|].
  destruct (String.eqb _ _); [by intros ?%elem_of_nil|]. destruct (versionMarks _ _ _) as [majority marks].
  intros ->%list_elem_of_singleton. apply RestsVersion; [reflexivity..|exact Hn|].
  cbn [fi_Affected]. intros a Ha. rewrite sort_strings_elem_of, list_elem_of_omap in Ha. destruct Ha as (c & Hc & Ht).
  unfold version_text, version_at in Ht. exists c, (default ""%string (version_table r !! c)).
  destruct (String.eqb_spec (default ""%string (version_table r !! c)) "") as [|Hne]; [done|]. injection Ht as <-.
  split; [done|]. split; [|done]. unfold version_table in *.
  assert (Hfold : forall l (t : gmap string string), fold_left (fun t c => match version_of r c with Some v => <[c := v]> t | None => t end) l t !! c =
    (if bool_decide (c ∈ l) then match version_of r c with Some v => Some v | None => t !! c end else t !! c)).
  { induction l as [|d l IH]; intros t; [done|]. cbn [fold_left]. rewrite IH. destruct (decide (d = c)) as [->|Hdc].
    - rewrite (bool_decide_eq_true_2 (c ∈ c :: l)) by left. destruct (version_of r c); [rewrite lookup_insert_eq|]; by case_bool_decide.
    - rewrite (bool_decide_ext (c ∈ d :: l) (c ∈ l)) by set_solver. destruct (version_of r d); [|done]. by rewrite lookup_insert_ne. }
  rewrite Hfold, bool_decide_eq_true_2 in Hne |- * by done. destruct (version_of r c); [done|]. by rewrite lookup_empty in Hne.
Qed.

Lemma extreme_in better entries c : extreme better entries = Some c -> c ∈ entries.
Proof.
  unfold extreme. assert (H : forall acc, fold_left (extreme_step better) entries acc = Some c -> c ∈ entries \/ acc = Some c).
  { induction entries as [|e l IH]; intros acc H; [by right|]. cbn [fold_left] in H. apply IH in H as [H|H]; [left; by right|].
    unfold extreme_step in H. destruct acc as [[k best]|]; [|left; injection H as ->; by left].
    destruct (better _ _); [left; injection H as ->; by left|by right]. }
  intros [?|?]%H; done.
Qed.

Lemma namespace_counts_seen r c n : namespace_counts r !! c = Some n ->
  c ∈ rp_Clusters r /\ seen (snd (clusterView r "namespaces" c)) = true.
Proof.
  unfold namespace_counts. assert (H : forall l (t : gmap string Z), fold_left (fun counts c => let '(n, obs) := countNonSystemNamespaces r c in
      if seen obs then <[c := n]> counts else counts) l t !! c = Some n ->
    (c ∈ l /\ seen (snd (countNonSystemNamespaces r c)) = true) \/ t !! c = Some n).
  { induction l as [|d l IH]; intros t H; [by right|]. cbn [fold_left] in H. apply IH in H as [[? ?]|H]; [left; split; [by right|done]|].
    destruct (countNonSystemNamespaces r d) as [m o] eqn:E. destruct (seen o) eqn:Eo; [|by right].
    destruct (decide (d = c)) as [->|Hne]; [left; split; [by left|by rewrite E]|right; by rewrite lookup_insert_ne in H]. }
  intros [[Hc Hs]|Hx]%H; [|by rewrite lookup_empty in Hx]. split; [done|]. unfold countNonSystemNamespaces in Hs.
  destruct (clusterView r "namespaces" c) as [m obs]. cbn [snd]. by destruct (seen obs).
Qed.

Lemma namespace_rests capacity r f : (forall l, norder l ≡ₚ l) -> f ∈ namespaceFindings norder r -> rests_on capacity r f.
Proof.
  intros Hord. unfold namespaceFindings. destruct (rp_Sections r !! _); [|by intros ?%elem_of_nil].
  destruct (_ <? _)%nat; [by intros ?%elem_of_nil|]. destruct (extreme Z.ltb _) as [[c1 n1]|] eqn:E1; [|by intros ?%elem_of_nil].
  destruct (extreme Z.gtb _) as [[c2 n2]|] eqn:E2; [|by intros ?%elem_of_nil]. destruct (_ <=? _); [by intros ?%elem_of_nil|].
  intros ->%list_elem_of_singleton. apply (RestsNamespaces _ _ _ c1 c2); [reflexivity..|].
  apply extreme_in in E1, E2. rewrite (Hord _) in E1, E2. apply elem_of_map_to_list in E1, E2.
  intros c [->|Hc]%elem_of_cons; [|apply list_elem_of_singleton in Hc as ->]; by eapply namespace_counts_seen.
Qed.

Lemma capacity_rests capacity r a f : a ∈ capacity -> f ∈ capacity_findings_of a -> rests_on capacity r f.
Proof.
  intros Ha. unfold capacity_findings_of. cbv zeta. rewrite elem_of_app. intros [Hf|Hf].
  - destruct (String.eqb_spec (cy_Status a) capacityCritical); [|destruct (String.eqb_spec (cy_Status a) capacityStrained);
      [|destruct (String.eqb_spec (cy_Status a) capacityBusy); [|by apply not_elem_of_nil in Hf]]];
      apply list_elem_of_singleton in Hf as ->; (apply (RestsVerdict _ _ _ a); [done|reflexivity|reflexivity| |done]);
      unfold states_verdict; cbn [fi_Rule fi_Severity finding_of]; auto.
  - unfold when in Hf. destruct (negb (String.eqb (cy_GroupDeviation a) "")) eqn:E; cbn [andb] in Hf; [|by apply not_elem_of_nil in Hf].
    destruct (negb _) in Hf; [|by apply not_elem_of_nil in Hf]. apply list_elem_of_singleton in Hf as ->.
    apply (RestsDeviation _ _ _ a); [done|reflexivity..|]. intros E'. by rewrite E' in E.
Qed.

Lemma vulnerability_rests capacity r f : f ∈ vulnerabilityFindings r -> rests_on capacity r f.
Proof.
  unfold vulnerabilityFindings. destruct (rp_Sections r !! _) as [sec|] eqn:Es; [|by intros ?%elem_of_nil].
  rewrite list_elem_of_In, in_flat_map. intros (c & Hc & Hf). apply list_elem_of_In in Hc, Hf.
  unfold vulnerability_finding in Hf. cbv zeta in Hf. rewrite flattenSection_lookup, bool_decide_eq_true_2 in Hf by done.
  destruct (sr_PerCluster sec !! c) as [data|] eqn:Ed; cbn [fmap option_fmap option_map default from_option id] in Hf.
  - unfold when in Hf. destruct (get_bool (genericMap data) "available") eqn:Ea; cbn [andb] in Hf; [|by apply not_elem_of_nil in Hf].
    destruct (Z.ltb_spec 0 (get_int (genericMap data) "critical")); [|by apply not_elem_of_nil in Hf].
    apply list_elem_of_singleton in Hf as ->. by apply (RestsVulnerability _ _ _ sec data).
  - unfold when, get_bool in Hf. rewrite lookup_empty in Hf. by apply not_elem_of_nil in Hf.
Qed.

Lemma fleet_rests capacity r f : (forall l, norder l ≡ₚ l) -> f ∈ fleet_findings r -> rests_on capacity r f.
Proof.
  intros Hord. unfold fleet_findings. rewrite !elem_of_app. intros [Hf|[Hf|Hf]].
  - unfold outlierFindings in Hf. apply list_elem_of_fmap in Hf as (o & -> & Ho).
    apply list_elem_of_In, filter_In in Ho as [Ho He%String.eqb_eq]. apply outlier_rests. left. split; [by apply list_elem_of_In|done].
  - destruct (_ || _); [|by apply not_elem_of_nil in Hf]. rewrite !elem_of_app in Hf. destruct Hf as [Hf|[Hf|Hf]].
    + by apply version_rests.
    + by apply namespace_rests.
    + unfold rbacFindings in Hf. destruct (rp_Sections r !! _) as [sec|] eqn:Es; [|by apply not_elem_of_nil in Hf].
      unfold when in Hf. destruct (sr_Uniform sec) eqn:Eu; [by apply not_elem_of_nil in Hf|].
      apply list_elem_of_singleton in Hf as ->. by apply (RestsRbac _ _ _ sec).
  - unfold cohortOutlierFindings in Hf. cbv zeta in Hf. apply list_elem_of_In, in_flat_map in Hf as (c & Hc & Hf).
    apply in_map_iff in Hf as (o & <- & Ho%filter_In). destruct Ho as [Ho _]. apply outlier_rests. right.
    exists c. split; by apply list_elem_of_In.
Qed.

Lemma other_rests capacity r f : (forall l, norder l ≡ₚ l) -> f ∈ other_findings capacity r -> rests_on capacity r f.
Proof.
  intros Hord. unfold other_findings. rewrite !elem_of_app. intros [Hf|[Hf|Hf]].
  - by apply fleet_rests.
  - unfold capacityFindings in Hf. apply list_elem_of_In, in_flat_map in Hf as (a & Ha & Hf).
    apply (capacity_rests _ _ a); by apply list_elem_of_In.
  - by apply vulnerability_rests.
Qed.

(** What a finding rests on is read off what dropping and stamping leave alone. *)
Lemma rests_on_same capacity r f g : fi_Cluster g = fi_Cluster f -> fi_Scanner g = fi_Scanner f -> fi_Rule g = fi_Rule f ->
  fi_Severity g = fi_Severity f -> fi_Affected g = fi_Affected f ->
  (ends_with (fi_Description f) partialScanNote -> ends_with (fi_Description g) partialScanNote) ->
  rests_on capacity r f -> rests_on capacity r g.
Proof.
  intros Hc Hs Hr Hv Ha Hd. unfold states_verdict. intros [].
  - apply (RestsNorm _ _ _ o); try congruence; auto.
  - apply RestsVersion; try congruence. rewrite Ha. done.
  - apply (RestsNamespaces _ _ _ c1 c2); try congruence. done.
  - apply (RestsRbac _ _ _ sec); congruence.
  - apply (RestsVerdict _ _ _ a); try congruence; [|auto]. unfold states_verdict in *. by rewrite Hr, Hv.
  - apply (RestsDeviation _ _ _ a); congruence.
  - apply (RestsVulnerability _ _ _ sec data); congruence.
Qed.

Lemma same_fact_honest r f g : same_fact g f -> honest r f -> honest r g.
Proof.
  intros (_ & _ & Hc & Hs & Hr & _ & _ & _ & Hd) [[Hin Hseen] Hm]. unfold honest, grounded, marked, excused in *.
  rewrite Hc, Hs, Hr. split; [done|]. intros Hp. destruct (Hm Hp) as [He|He]; [left; by apply Hd|by right].
Qed.

(** What stamping leaves alone. *)
Definition stamped_as (g f : Finding) : Prop :=
  fi_Title g = fi_Title f /\ fi_Description g = fi_Description f /\ fi_Severity g = fi_Severity f /\
  fi_Cluster g = fi_Cluster f /\ fi_Scanner g = fi_Scanner f /\ fi_Rule g = fi_Rule f /\
  fi_Affected g = fi_Affected f /\ fi_Norm g = fi_Norm f /\ fi_Marks g = fi_Marks f.

Lemma stamp_in fs g : g ∈ stampFingerprints fs -> exists f, f ∈ fs /\ stamped_as g f.
Proof.
  unfold stampFingerprints. intros (f & <- & Hf%list_elem_of_In)%list_elem_of_In%in_map_iff. exists f. split; [done|].
  unfold stamped_as. cbn. by split_and!.
Qed.

Lemma stamped_honest r f g : stamped_as g f -> honest r f -> honest r g.
Proof.
  intros (_ & Hd & _ & Hc & Hs & Hr & _) H. unfold honest, grounded, marked, excused in *.
  by rewrite Hd, Hc, Hs, Hr.
Qed.

Lemma stamp_keeps fs f : f ∈ fs -> exists g, g ∈ stampFingerprints fs /\ stamped_as g f.
Proof.
  intros H%list_elem_of_In. exists (with_fingerprint f (FindingFingerprint f)). split.
  - apply list_elem_of_In. unfold stampFingerprints. by apply (in_map (fun f => with_fingerprint f (FindingFingerprint f))).
  - unfold stamped_as. cbn. by split_and!.
Qed.

(** The cluster, scanner, rule, severity and subjects a finding is published with. *)
Definition published_as (g f : Finding) : Prop :=
  fi_Title g = fi_Title f /\ fi_Cluster g = fi_Cluster f /\ fi_Scanner g = fi_Scanner f /\ fi_Rule g = fi_Rule f /\
  fi_Severity g = fi_Severity f /\ fi_Affected g = fi_Affected f.

Lemma generated_from capacity r g : (forall l, norder l ≡ₚ l) -> g ∈ generateFindings capacity r ->
  (exists f, f ∈ findings_of capacity r /\ published_as g f) /\ (honest r g \/ rests_on capacity r g).
Proof.
  intros Hord. assert (Hall : forall f, f ∈ scanner_findings r -> found r f) by (apply Forall_forall, scanner_findings_found).
  intros (f1 & Hf1%isort_elem_of & Hst)%stamp_in.
  destruct (dropped_from (findings_of capacity r) (scopeMembers r) f1 Hf1) as (f & Hf & Hsame).
  pose proof Hst as (Ht & Hd & Hsv & Hc & Hs & Hr & Ha & _).
  pose proof Hsame as (Ht' & Hsv' & Hc' & Hs' & Hr' & Ha' & _ & _ & Hd').
  split; [exists f; split; [done|]; unfold published_as; split_and!; congruence|].
  apply findings_of_split in Hf as [Hf|Hf].
  - left. apply (stamped_honest r f1); [done|]. apply (same_fact_honest r f); [done|]. by apply Hall.
  - right. apply (rests_on_same _ _ f); try congruence; [by rewrite Hd|by apply other_rests].
Qed.

(** C8: what a report publishes is what was read, no more and no less. Every published
    finding is one a generator found, and rests on what was read. Either the run of the
    scanner it names was observed on its cluster, a cluster of the fleet, never one that
    failed or did not run, and when that run was degraded its description ends with the
    partial-scan note, except for the bad-deploy rule, which never carries it, and for the
    unenforced-namespaces and latest-tag rules where the payload lacks the total they name.
    Or it is of the classes [rests_on] lists: a norm, of an outlier of the fleet or a cohort,
    marked when its run was degraded; a comparison across the fleet of versions, namespace
    counts or RBAC, whose named clusters have observed runs; the verdict of a capacity analysis, or
    its deviation from its group, unmarked; or critical vulnerabilities counted in the payload
    of its cluster, unmarked. Norms are dropped where another finding tells them; every other
    finding of every generator is published. *)
Theorem published_findings_grounded capacity r : (forall l, norder l ≡ₚ l) ->
  (forall g, g ∈ generateFindings capacity r ->
     (exists f, f ∈ findings_of capacity r /\ published_as g f) /\ (honest r g \/ rests_on capacity r g)) /\
  (forall f, f ∈ findings_of capacity r -> fi_Norm f = None ->
     exists g, g ∈ generateFindings capacity r /\ published_as g f) /\
  Forall (fun f => fi_Norm f = None) (scanner_findings r).
Proof.
  intros Hord. split; [by intros g; apply generated_from|split].
  - intros f Hf Hn. destruct (absolute_stays (findings_of capacity r) (scopeMembers r) f Hf Hn) as (g & Hg & Hsame).
    destruct (stamp_keeps (sortFindings (dropRedundant (findings_of capacity r) (scopeMembers r))) g) as (h & Hh & Hst).
    { by apply isort_elem_of. }
    exists h. split; [done|]. destruct Hst as (Ht & _ & Hsv & Hc & Hs & Hr & Ha & _).
    destruct Hsame as (Ht' & Hsv' & Hc' & Hs' & Hr' & Ha' & _). unfold published_as. split_and!; congruence.
  - eapply Forall_impl; [apply scanner_findings_found|]. by intros f [_ ?].
Qed.

End Orders.

Lemma published_findings_grounded_witness :
  (forall l : list (string * Z), l ≡ₚ l) /\ 
  Forall (fun f => fi_Norm f = None) (scanner_findings Accessors.sample_report).
Proof.
  split; [done|].
  exact (proj2 (proj2 (published_findings_grounded (fun l => l) (fun l => l) [] Accessors.sample_report (fun l => Permutation_refl l)))).
Defined.
