(* ===== verification/Compare.v ===== *)
(** * internal/report/compare.go and the section half of report.go

    How one scanner's payloads are compared across clusters: identical payloads are
    uniform, and otherwise each top-level field is compared as a set, a number or a
    text. *)

From Stdlib Require Import ZArith Lia String.
From stdpp Require Import base gmap strings list sets.
From S2P Require Import Prelude Float64 Text Data Fields Observe Format Population.

Local Open Scope nat_scope.

Definition setFields : gset string := list_to_set ["names"; "hosts"; "policy_types"; "versions"].
Definition identityScanners : gset string := {[ "geo" ]}.

(** Equality of the encoded payloads. [encoding/json] writes object members in key
    order, so equal bytes are equal trees. *)
Definition float_same (x y : float64) : bool :=
  match x, y with
  | SpecFloat.S754_zero a, SpecFloat.S754_zero b => Bool.eqb a b
  | SpecFloat.S754_infinity a, SpecFloat.S754_infinity b => Bool.eqb a b
  | SpecFloat.S754_nan, SpecFloat.S754_nan => true
  | SpecFloat.S754_finite a m e, SpecFloat.S754_finite b n f => Bool.eqb a b && Pos.eqb m n && Z.eqb e f
  | _, _ => false
  end.

Fixpoint json_eqb (x y : json) : bool :=
  let fix list_eqb (l m : list json) : bool :=
    match l, m with
    | [], [] => true
    | a :: l', b :: m' => json_eqb a b && list_eqb l' m'
    | _, _ => false
    end in
  let fix members_eqb (l m : list (string * json)) : bool :=
    match l, m with
    | [], [] => true
    | (k, a) :: l', (k', b) :: m' => String.eqb k k' && json_eqb a b && members_eqb l' m'
    | _, _ => false
    end in
  match x, y with
  | JNull, JNull => true
  | JBool a, JBool b => Bool.eqb a b
  | JNum a, JNum b => float_same a b
  | JStr a, JStr b => String.eqb a b
  | JArr l, JArr m => list_eqb l m
  | JObj l, JObj m => members_eqb l m
  | _, _ => false
  end.

(** [json.Unmarshal] into a map: objects, and null as the nil map. *)
Definition decode_map (v : json) : option obj :=
  match v with JObj kv => Some (list_to_map kv) | JNull => Some ∅ | _ => None end.

Definition missingText : string := "<missing>".

(** [fmt.Sprintf("%v", m[field])]: an absent key prints as nil does. *)
Definition field_text (m : obj) (field : string) : string := sprint (default JNull (m !! field)).

Definition string_values (clusters : list string) (flat : flatMap) (field : string) : list (string * option string) :=
  map (fun c => (c, (fun m => field_text m field) <$> flat !! c)) clusters.

(** Every entry is there and equals the first. *)
Definition all_present_equal {A} (eqb : A -> A -> bool) (vs : list (option A)) : bool :=
  match vs with
  | [] => true
  | None :: _ => false
  | Some r :: vs' => forallb (fun v => match v with Some x => eqb x r | None => false end) vs'
  end.

Definition to_values (l : list (string * string)) : gmap string string :=
  fold_left (fun m kv => <[fst kv := snd kv]> m) l ∅.

Definition compareStringField (clusters : list string) (flat : flatMap) (field : string) : option Divergence :=
  let vs := string_values clusters flat field in
  if all_present_equal String.eqb (map snd vs) then None
  else Some {| dv_Field := field; dv_Values := to_values (map (fun p => (fst p, default missingText (snd p))) vs) |}.

(** [n, _ := util.Float64(m[field])]: anything but a number reads as zero. *)
Definition field_num (m : obj) (field : string) : float64 := default f_zero (util_Float64 (m !! field)).

Definition num_values (clusters : list string) (flat : flatMap) (field : string) : list (string * option float64) :=
  map (fun c => (c, (fun m => field_num m field) <$> flat !! c)) clusters.

Definition min_max_step (acc : option (float64 * float64)) (v : option float64) : option (float64 * float64) :=
  match v, acc with
  | None, _ => acc
  | Some n, None => Some (n, n)
  | Some n, Some (lo, hi) => Some (f_min lo n, f_max hi n)
  end.

(** [min] and [max] of the clusters present; zero when none is. *)
Definition min_max (vs : list (option float64)) : float64 * float64 :=
  default (f_zero, f_zero) (fold_left min_max_step vs None).

(** The text [annotateNumeric] leaves for one cluster. *)
Definition annotate (lo hi : float64) (v : option float64) : string :=
  match v with
  | None => missingText
  | Some n =>
      if f_eqb hi lo then formatNum n
      else if f_eqb n hi then (formatNum n ++ " [highest]")%string
      else if f_eqb n lo then (formatNum n ++ " [lowest]")%string
      else formatNum n
  end.

Definition compareNumericField (clusters : list string) (flat : flatMap) (field : string) : option Divergence :=
  let vs := num_values clusters flat field in
  if all_present_equal f_eqb (map snd vs) then None
  else
    let '(lo, hi) := min_max (map snd vs) in
    Some {| dv_Field := field; dv_Values := to_values (map (fun p => (fst p, annotate lo hi (snd p))) vs) |}.

Definition item_set (m : obj) (field : string) : gset string :=
  match m !! field with Some (JArr l) => list_to_set (map sprint l) | _ => ∅ end.

(** The sets of the clusters present, keyed by cluster. *)
Definition cluster_sets (clusters : list string) (flat : flatMap) (field : string) : list (string * gset string) :=
  omap (fun c => (fun m => (c, item_set m field)) <$> flat !! c) clusters.

Definition union_of (sets : list (string * gset string)) : gset string := ⋃ (map snd sets).

Definition set_text (union : gset string) (set : gset string) : string :=
  let present := sort_strings (elements (union ∩ set)) in
  let missing := sort_strings (elements (union ∖ set)) in
  (itoa (Z.of_nat (length present)) ++ " items" ++
   (match missing with [] => "" | _ => ", missing: " ++ join ", " missing end))%string.

Definition compareSetField (clusters : list string) (flat : flatMap) (field : string) : option Divergence :=
  let sets := cluster_sets clusters flat field in
  let union := union_of sets in
  if forallb (fun cs => size (snd cs) =? size union) sets then None
  else
    let byCluster : gmap string (gset string) := list_to_map sets in
    Some {| dv_Field := field;
            dv_Values := to_values (map (fun c => (c, set_text union (default ∅ (byCluster !! c)))) clusters) |}.

Definition compare_field (clusters : list string) (flat : flatMap) (field : string) : option Divergence :=
  if bool_decide (field ∈ setFields) then compareSetField clusters flat field
  else if isNumericInFlat clusters flat field then compareNumericField clusters flat field
  else compareStringField clusters flat field.

Definition decoded (perCluster : gmap string json) : flatMap := omap decode_map perCluster.

Definition findDivergences (clusters : list string) (perCluster : gmap string json) : list Divergence :=
  let flat := decoded perCluster in
  omap (compare_field clusters flat)
    (List.filter (fun f => negb (bool_decide (f ∈ skipFields))) (collectFields flat)).

Definition payloads_equal (perCluster : gmap string json) : bool :=
  match map snd (map_to_list perCluster) with
  | [] => true
  | r :: vs => forallb (json_eqb r) vs
  end.

Definition compare (clusters : list string) (perCluster : gmap string json) : SectionReport :=
  if (size perCluster <=? 1) || payloads_equal perCluster
  then {| sr_Uniform := true; sr_PerCluster := perCluster; sr_Divergences := [] |}
  else {| sr_Uniform := false; sr_PerCluster := perCluster; sr_Divergences := findDivergences clusters perCluster |}.

(** ** Lemmas *)

Lemma float_same_eq x y : float_same x y = true <-> x = y.
Proof.
  split; [|intros ->; destruct y as [[]|[]| |[]]; simpl; rewrite ?Pos.eqb_refl, ?Z.eqb_refl; done].
  destruct x as [[]|[]| |[] m e], y as [[]|[]| |[] n f]; simpl; try done;
    intros [->%Pos.eqb_eq ->%Z.eqb_eq]%andb_prop; done.
Qed.

(** Induction on JSON trees through the lists inside them. *)
Lemma json_nested_ind (P : json -> Prop) :
  P JNull -> (forall b, P (JBool b)) -> (forall x, P (JNum x)) -> (forall s, P (JStr s)) ->
  (forall l, Forall P l -> P (JArr l)) -> (forall l, Forall (fun kv => P (snd kv)) l -> P (JObj l)) ->
  forall v, P v.
Proof.
  intros Hn Hb Hx Hs Ha Ho. fix IH 1. intros [|b|x|s|l|l]; [done|apply Hb|apply Hx|apply Hs| |].
  - apply Ha. induction l; constructor; auto.
  - apply Ho. induction l as [|[k v] l IHl]; constructor; [apply IH|exact IHl].
Qed.

Lemma json_eqb_eq x y : json_eqb x y = true <-> x = y.
Proof.
  revert y. induction x as [| | | |l IH|l IH] using json_nested_ind; intros [|b'|x'|s'|m|m]; simpl; try done.
  - destruct b, b'; naive_solver.
  - rewrite float_same_eq. naive_solver.
  - rewrite String.eqb_eq. naive_solver.
  - revert m. induction IH as [|a l Ha _ IHl]; intros [|b m]; try done.
    rewrite andb_true_iff, Ha, IHl. naive_solver.
  - revert m. induction IH as [|[k a] l Ha _ IHl]; intros [|[k' b] m]; try done. simpl in Ha.
    rewrite !andb_true_iff, Ha, String.eqb_eq, IHl. naive_solver.
Qed.

Lemma f_eqb_sym x y : f_eqb x y = f_eqb y x.
Proof.
  unfold f_eqb, SpecFloat.SFeqb. destruct x as [[]|[]| |[] m e], y as [[]|[]| |[] n f]; try done; simpl;
    change (Pos.compare_cont Eq m n) with (m ?= n)%positive; change (Pos.compare_cont Eq n m) with (n ?= m)%positive;
    rewrite (Z.compare_antisym f e), (Pos.compare_antisym n m);
    destruct (f ?= e)%Z, (n ?= m)%positive; done.
Qed.

Lemma f_eqb_refl x : f_is_nan x = false -> f_eqb x x = true.
Proof.
  destruct x as [[]|[]| |[] m e]; try done; intros _; unfold f_eqb, SpecFloat.SFeqb; simpl;
    rewrite Z.compare_refl, Pos.compare_refl; done.
Qed.

Lemma f_eqb_cases x y : f_eqb x y = true -> x = y \/ (f_eqb x f_zero = true /\ f_eqb y f_zero = true).
Proof.
  unfold f_eqb, SpecFloat.SFeqb, f_zero.
  destruct x as [[]|[]| |[] m e], y as [[]|[]| |[] n f]; try done; try (by left); try (by right); simpl;
    destruct (Z.compare_spec e f) as [->| |]; try done;
    change (Pos.compare_cont Eq m n) with (m ?= n)%positive;
    destruct (Pos.compare_spec m n) as [->| |]; try done; by left.
Qed.

Lemma f_eqb_trans x y z : f_eqb x y = true -> f_eqb y z = true -> f_eqb x z = true.
Proof.
  intros H1 H2. destruct (f_eqb_cases _ _ H1) as [->|[Hx Hy]]; [done|].
  destruct (f_eqb_cases _ _ H2) as [->|[_ Hz]]; [done|].
  revert Hx Hz. unfold f_eqb, SpecFloat.SFeqb, f_zero.
  destruct x as [[]|[]| |[] ? ?], z as [[]|[]| |[] ? ?]; done.
Qed.

(** A comparer finds its clusters in agreement exactly when one value stands for all. *)
Lemma all_present_equal_spec {A} (eqb : A -> A -> bool) (d : A) (vs : list (option A)) :
  (forall x y, eqb x y = eqb y x) -> (forall x y z, eqb x y = true -> eqb y z = true -> eqb x z = true) ->
  (forall x, Some x ∈ vs -> eqb x x = true) ->
  all_present_equal eqb vs = true <-> exists r, forall v, v ∈ vs -> exists x, v = Some x /\ eqb x r = true.
Proof.
  intros Hsym Htrans Hrefl. destruct vs as [|[r|] vs]; simpl.
  - split; [intros _; exists d; by intros v Hv%elem_of_nil|done].
  - rewrite forallb_forall. split.
    + intros H. exists r. intros v [->|Hv]%elem_of_cons; [exists r; split; [done|apply Hrefl; left]|].
      specialize (H v (proj1 (list_elem_of_In _ _) Hv)). destruct v; naive_solver.
    + intros [s Hs] v Hv%list_elem_of_In.
      destruct (Hs v) as (x & -> & Hx); [by right|]. destruct (Hs (Some r)) as (? & [= <-] & Hr); [left|].
      apply (Htrans _ s); [done|]. by rewrite Hsym.
  - split; [done|]. intros [s Hs]. destruct (Hs None) as (? & ? & ?); [left|done].
Qed.

Lemma to_values_dom (l : list (string * string)) : dom (to_values l) = list_to_set (map fst l).
Proof.
  unfold to_values. enough (forall m : gmap string string,
    dom (fold_left (fun m kv => <[fst kv := snd kv]> m) l m) = dom m ∪ list_to_set (map fst l)) as ->
    by (rewrite dom_empty_L; set_solver).
  induction l as [|[k v] l IH]; intros m; simpl; [set_solver|].
  rewrite IH, dom_insert_L. set_solver.
Qed.

Lemma to_values_map {A} (g : A -> string * string) (l : list A) (names : list string) :
  map fst (map g l) = names -> dom (to_values (map g l)) = list_to_set names.
Proof. by rewrite to_values_dom; intros ->. Qed.

(** [len(union) == len(set)] tells whether every set is the union, since each is
    a part of it. *)
Lemma sizes_agree (sets : list (string * gset string)) :
  forallb (fun cs => size (snd cs) =? size (union_of sets)) sets = true <->
  exists s, forall cs, cs ∈ sets -> snd cs = s.
Proof.
  rewrite forallb_forall. split.
  - intros H. exists (union_of sets). intros cs Hcs. specialize (H cs (proj1 (list_elem_of_In _ _) Hcs)).
    apply Nat.eqb_eq in H. apply set_eq. apply set_subseteq_antisymm.
    + unfold union_of. intros x Hx. apply elem_of_union_list. exists (snd cs). split; [|done].
      apply list_elem_of_fmap. eauto.
    + assert (snd cs ⊆ union_of sets) as Hsub.
      { unfold union_of. intros x Hx. apply elem_of_union_list. exists (snd cs). split; [|done].
        apply list_elem_of_fmap. eauto. }
      intros x Hx. destruct (decide (x ∈ snd cs)) as [|Hn]; [done|].
      assert (snd cs ⊂ union_of sets) as Hlt%subset_size by (split; [done|intros Hs; apply Hn, Hs, Hx]). lia.
  - intros [s Hs] cs Hcs%list_elem_of_In. apply Nat.eqb_eq. f_equal. rewrite (Hs cs Hcs).
    unfold union_of. apply set_eq. intros x. rewrite elem_of_union_list. split.
    + intros Hx. exists s. split; [|done]. apply list_elem_of_fmap. exists cs. split; [by rewrite (Hs cs)|done].
    + intros (t & (cs' & -> & Hcs')%list_elem_of_fmap & Hx). by rewrite (Hs cs' Hcs') in Hx.
Qed.

(** ** What the comparers decide *)

(** The clusters agree on a field: the ones whose payload decoded hold one set, or
    every cluster is there with one number, or with one text. *)
Definition in_agreement (clusters : list string) (flat : flatMap) (field : string) : Prop :=
  if bool_decide (field ∈ setFields)
  then exists s, forall c m, c ∈ clusters -> flat !! c = Some m -> item_set m field = s
  else if isNumericInFlat clusters flat field
  then exists r, forall c, c ∈ clusters -> exists m, flat !! c = Some m /\ f_eqb (field_num m field) r = true
  else exists t, forall c, c ∈ clusters -> exists m, flat !! c = Some m /\ field_text m field = t.

(** Decoded JSON holds no NaN. *)
Definition json_numbers (flat : flatMap) : Prop :=
  forall c m f x, flat !! c = Some m -> m !! f = Some (JNum x) -> f_is_nan x = false.

Lemma pair_values_spec {A} (get : obj -> A) (clusters : list string) (flat : flatMap) (Q : A -> Prop) :
  (forall v, v ∈ map snd (map (fun c => (c, get <$> flat !! c)) clusters) -> exists x, v = Some x /\ Q x) <->
  (forall c, c ∈ clusters -> exists m, flat !! c = Some m /\ Q (get m)).
Proof.
  rewrite map_map. split.
  - intros H c Hc. destruct (H (get <$> flat !! c)) as (x & Hx & HQ).
    { apply list_elem_of_fmap. by exists c. }
    destruct (flat !! c) as [m|]; [|done]. injection Hx as <-. by exists m.
  - intros H v (c & -> & Hc)%list_elem_of_fmap. destruct (H c Hc) as (m & Hm & HQ).
    exists (get m). simpl. by rewrite Hm.
Qed.

Lemma values_equal_spec {A} (eqb : A -> A -> bool) (d : A) (get : obj -> A) (clusters : list string) (flat : flatMap) :
  (forall x y, eqb x y = eqb y x) -> (forall x y z, eqb x y = true -> eqb y z = true -> eqb x z = true) ->
  (forall c m, flat !! c = Some m -> eqb (get m) (get m) = true) ->
  all_present_equal eqb (map snd (map (fun c => (c, get <$> flat !! c)) clusters)) = true <->
  exists r, forall c, c ∈ clusters -> exists m, flat !! c = Some m /\ eqb (get m) r = true.
Proof.
  intros Hsym Htrans Hrefl. rewrite (all_present_equal_spec eqb d _ Hsym Htrans); cycle 1.
  { rewrite map_map. intros x (c & E & _)%list_elem_of_fmap. simpl in E.
    destruct (flat !! c) as [m|] eqn:Em; [|done]. injection E as ->. by apply (Hrefl c). }
  split; intros [r Hr]; exists r; apply (pair_values_spec get clusters flat (fun x => eqb x r = true)); exact Hr.
Qed.

Lemma compareStringField_none clusters flat f :
  compareStringField clusters flat f = None <->
  exists t, forall c, c ∈ clusters -> exists m, flat !! c = Some m /\ field_text m f = t.
Proof.
  pose proof (values_equal_spec String.eqb "" (fun m => field_text m f) clusters flat String.eqb_sym) as H.
  unfold compareStringField, string_values. cbv zeta. destruct (all_present_equal _ _).
  - split; [intros _|done]. destruct (proj1 (H ltac:(by intros x y z ->%String.eqb_eq) ltac:(intros; apply String.eqb_refl)) eq_refl)
      as [t Ht]. exists t. intros c Hc. destruct (Ht c Hc) as (m & Hm & Et%String.eqb_eq). by exists m.
  - split; [done|]. intros [t Ht]. enough (false = true) by done.
    apply H; [by intros x y z ->%String.eqb_eq|intros; apply String.eqb_refl|]. exists t. intros c Hc.
    destruct (Ht c Hc) as (m & Hm & Et). exists m. split; [done|]. by apply String.eqb_eq.
Qed.

Lemma field_num_ok (flat : flatMap) c m f :
  json_numbers flat -> flat !! c = Some m -> f_is_nan (field_num m f) = false.
Proof.
  intros HJ Hm. unfold field_num, util_Float64. destruct (m !! f) as [[]|] eqn:E; try done. by apply (HJ _ _ _ _ Hm E).
Qed.

Lemma compareNumericField_none clusters flat f : json_numbers flat ->
  compareNumericField clusters flat f = None <->
  exists r, forall c, c ∈ clusters -> exists m, flat !! c = Some m /\ f_eqb (field_num m f) r = true.
Proof.
  intros HJ. unfold compareNumericField, num_values. cbv zeta.
  rewrite <- (values_equal_spec f_eqb f_zero (fun m => field_num m f) clusters flat f_eqb_sym f_eqb_trans)
    by (intros c m Hm; by apply f_eqb_refl, (field_num_ok flat c)).
  destruct (all_present_equal _ _); [done|]. by destruct (min_max _).
Qed.

Lemma compareSetField_none clusters flat f :
  compareSetField clusters flat f = None <->
  exists s, forall c m, c ∈ clusters -> flat !! c = Some m -> item_set m f = s.
Proof.
  unfold compareSetField. cbv zeta. pose proof (sizes_agree (cluster_sets clusters flat f)) as H.
  assert (forall s, (forall cs, cs ∈ cluster_sets clusters flat f -> snd cs = s) <->
    (forall c m, c ∈ clusters -> flat !! c = Some m -> item_set m f = s)) as Hs.
  { intros s. unfold cluster_sets. split.
    - intros Hall c m Hc Hm. apply (Hall (c, item_set m f)). apply list_elem_of_omap. exists c. by rewrite Hm.
    - intros Hall cs (c & Hc & E)%list_elem_of_omap. destruct (flat !! c) as [m|] eqn:Em; [|done].
      injection E as <-. by apply (Hall c m). }
  destruct (forallb _ _).
  - split; [intros _|done]. destruct (proj1 H eq_refl) as [s Hall]. exists s. by apply Hs.
  - split; [done|]. intros [s Hall]. enough (false = true) by done. apply H. exists s. by apply Hs.
Qed.

Lemma compare_field_none clusters flat f : json_numbers flat ->
  compare_field clusters flat f = None <-> in_agreement clusters flat f.
Proof.
  intros HJ. unfold compare_field, in_agreement. destruct (bool_decide _); [apply compareSetField_none|].
  destruct (isNumericInFlat _ _ _); [by apply compareNumericField_none|apply compareStringField_none].
Qed.

(** A divergence names its field and gives every cluster a value. *)
Lemma compare_field_shape clusters flat f d : compare_field clusters flat f = Some d ->
  dv_Field d = f /\ dom (dv_Values d) = list_to_set clusters.
Proof.
  unfold compare_field, compareSetField, compareNumericField, compareStringField, string_values, num_values.
  cbv zeta. destruct (bool_decide _); [|destruct (isNumericInFlat _ _ _)].
  - destruct (forallb _ _); [done|]. intros [= <-]. simpl. split; [done|]. apply to_values_map.
    rewrite map_map. apply map_id.
  - destruct (all_present_equal _ _); [done|]. destruct (min_max _). intros [= <-]. simpl. split; [done|].
    apply to_values_map. rewrite !map_map. apply map_id.
  - destruct (all_present_equal _ _); [done|]. intros [= <-]. simpl. split; [done|].
    apply to_values_map. rewrite !map_map. apply map_id.
Qed.

Lemma payloads_equal_spec per :
  payloads_equal per = true <-> forall c d x y, per !! c = Some x -> per !! d = Some y -> x = y.
Proof.
  unfold payloads_equal. split.
  - intros H c d x y Hx%elem_of_map_to_list Hy%elem_of_map_to_list.
    destruct (map_to_list per) as [|[k r] l]; [by apply elem_of_nil in Hx|]. simpl in H.
    rewrite forallb_forall in H.
    enough (forall c x, (c, x) ∈ (k, r) :: l -> x = r) as Hr by (rewrite (Hr _ _ Hx), (Hr _ _ Hy); done).
    intros e z [[= _ ->]|Hz]%elem_of_cons; [done|]. symmetry. apply json_eqb_eq, H, list_elem_of_In.
    apply list_elem_of_fmap. by exists (e, z).
  - intros H. destruct (map_to_list per) as [|[k r] l] eqn:E; [done|]. simpl. apply forallb_forall.
    intros v Hin%list_elem_of_In. apply list_elem_of_fmap in Hin as ([k' v'] & -> & Hv). apply json_eqb_eq.
    apply (H k k'); apply elem_of_map_to_list; rewrite E; [left|by right].
Qed.

Lemma uniform_spec clusters per : sr_Uniform (compare clusters per) = true <->
  forall c d x y, per !! c = Some x -> per !! d = Some y -> x = y.
Proof.
  rewrite <- payloads_equal_spec. unfold compare. destruct (payloads_equal per) eqn:E; rewrite ?orb_true_r, ?orb_false_r.
  - done.
  - destruct (size per <=? 1) eqn:Es; [|done]. split; [intros _|done]. rewrite <- E. apply payloads_equal_spec.
    intros c d x y Hx Hy. apply Nat.leb_le in Es. destruct (decide (c = d)) as [->|Hne]; [congruence|].
    exfalso. enough (2 <= size per) by lia. rewrite <- size_dom.
    transitivity (size ({[c; d]} : gset string)).
    + rewrite size_union by set_solver. by rewrite !size_singleton.
    + apply subseteq_size. intros e. rewrite elem_of_union, !elem_of_singleton.
      intros [->| ->]; by apply elem_of_dom_2 in Hx, Hy.
Qed.

Lemma findDivergences_fields clusters per : json_numbers (decoded per) -> let flat := decoded per in
  map dv_Field (findDivergences clusters per) =
  List.filter (fun f => if compare_field clusters flat f then true else false)
    (List.filter (fun f => negb (bool_decide (f ∈ skipFields))) (collectFields flat)).
Proof.
  intros HJ flat. unfold findDivergences. fold flat. induction (List.filter _ _) as [|f l IH]; [done|].
  simpl. destruct (compare_field clusters flat f) as [d|] eqn:E; [|exact IH]. simpl.
  f_equal; [by apply (compare_field_shape clusters flat f d)|exact IH].
Qed.

(** ** Properties *)

Module Sections.

(** Comparing one scanner's payloads keeps them all, calls the section uniform
    exactly when no two payloads differ, and otherwise lists, each once, exactly the
    compared fields on which the clusters disagree, every divergence with a value for
    every cluster. *)
Theorem compare_faithful (clusters : list string) (perCluster : gmap string json) :
  json_numbers (decoded perCluster) ->
  let sec := compare clusters perCluster in
  sr_PerCluster sec = perCluster /\
  (sr_Uniform sec = true <-> forall c d x y, perCluster !! c = Some x -> perCluster !! d = Some y -> x = y) /\
  (sr_Uniform sec = true -> sr_Divergences sec = []) /\
  NoDup (map dv_Field (sr_Divergences sec)) /\
  (sr_Uniform sec = false -> forall f, f ∈ map dv_Field (sr_Divergences sec) <->
     f ∈ fields_of (decoded perCluster) /\ f ∉ skipFields /\ ~ in_agreement clusters (decoded perCluster) f) /\
  (forall d, d ∈ sr_Divergences sec -> dom (dv_Values d) = list_to_set clusters).
Proof.
  intros HJ sec. split; [unfold sec, compare; by destruct (_ || _)|].
  split; [apply uniform_spec|].
  assert (sr_Divergences sec = if sr_Uniform sec then [] else findDivergences clusters perCluster) as E
    by (unfold sec, compare; by destruct (_ || _)).
  rewrite E. clear E. destruct (sr_Uniform sec); (split; [done|]).
  - split; [constructor|]. split; [done|]. by intros d Hd%elem_of_nil.
  - rewrite findDivergences_fields by done. split; [|split; [intros _ f|]].
    + do 2 apply NoDup_filter_bool. apply sort_strings_NoDup, NoDup_elements.
    + rewrite list_elem_of_In, !filter_In, <- list_elem_of_In, negb_true_iff, bool_decide_eq_false.
      unfold collectFields. rewrite sort_strings_elem_of, elem_of_elements, <- (compare_field_none clusters _ _ HJ).
      destruct (compare_field clusters (decoded perCluster) f); naive_solver.
    + intros d (f & _ & Hd)%list_elem_of_omap. by apply compare_field_shape in Hd as [_ Hd].
Qed.

Definition two_versions : gmap string json :=
  {[ "a" := JObj [("git_version", JStr "v1.29.1"); ("nodes", JNum (f_of_Z 3))];
     "b" := JObj [("git_version", JStr "v1.30.0"); ("nodes", JNum (f_of_Z 3))] ]}.

Lemma compare_faithful_witness : json_numbers (decoded two_versions) /\
  map dv_Field (sr_Divergences (compare ["a"; "b"] two_versions)) = ["git_version"] /\
  sr_PerCluster (compare ["a"; "b"] two_versions) = two_versions.
Proof.
  assert (json_numbers (decoded two_versions)) as H.
  { intros c m f x Hm Hx. unfold decoded in Hm. rewrite lookup_omap in Hm.
    destruct (two_versions !! c) as [v|] eqn:E; [|done]. unfold two_versions in E.
    rewrite lookup_insert_Some, lookup_singleton_Some in E.
    destruct E as [[_ <-]|[_ [_ <-]]]; simpl in Hm; injection Hm as <-;
      rewrite !lookup_insert_Some, lookup_empty in Hx; naive_solver. }
  split; [exact H|]. split; [vm_compute; reflexivity|].
  exact (proj1 (compare_faithful ["a"; "b"] two_versions H)).
Defined.

End Sections.
