(* ===== verification/Build.v ===== *)
(** * internal/report/report.go: from scanner results to sections

    The first half of [Build]: one section per scanner, the degraded runs, the
    run-state table, the categories and the section statistics, and the choice of
    fleet detector. A scanner result's payload is taken as decoded JSON. *)

From Stdlib Require Import ZArith Lia String Sorted.
From stdpp Require Import base gmap strings list sets.
From S2P Require Import Prelude Float64 Text Data Fields Observe Format Population Detect SmallFleet Compare.

Local Open Scope nat_scope.

(** ** scanner.go *)

(** Results by cluster, then by scanner. *)
Abbreviation Results := (gmap string (gmap string Result)).

Definition Blind (r : Result) : bool := String.eqb (res_State r) StateErrored.

Definition ErroredResult (name : string) (err : option string) : Result := {|
  res_Scanner := name; res_State := StateErrored; res_Reason := default "scan failed" err; res_Data := JNull |}.

Definition Names (results : Results) : list string :=
  sort_strings (elements (⋃ (map (fun kv => dom (snd kv)) (map_to_list results)) : gset string)).

(** ** Categories *)

Record Category := { ca_Name : string; ca_Scanners : list string }.

Definition category (name : string) (scanners : list string) : Category := {| ca_Name := name; ca_Scanners := scanners |}.

Definition Categories : list Category := [
  category "Cluster Info" ["version"; "namespaces"; "crds"; "deprecated-apis"; "geo"];
  category "Workloads" ["services"; "ingresses"; "image-audit"; "workload-coverage"];
  category "Health & Resources" ["node-health"; "metrics"; "resources"; "resource-quotas"; "cluster-info"];
  category "Security & Access" ["workload-security"; "rbac-audit"; "rbac"; "security"; "network-policies";
    "vulnerabilities"; "policy-reports"; "certs"; "admission"];
  category "Events & Logs" ["events"] ].

Definition holds (scanner : string) (c : Category) : bool := existsb (String.eqb scanner) (ca_Scanners c).

Definition CategoryOf (scanner : string) : string :=
  match List.find (holds scanner) Categories with Some c => ca_Name c | None => "Other" end.

Definition buildCategories (scanned : list string) : list Category :=
  omap (fun cat =>
    match List.filter (fun s => existsb (String.eqb s) scanned) (ca_Scanners cat) with
    | [] => None
    | present => Some (category (ca_Name cat) present)
    end) Categories.

(** ** Sections *)

Definition run_of (results : Results) (cluster name : string) : option Result := results !! cluster ≫= (.!! name).

Definition degraded_status (results : Results) (name cluster : string) : option ScannerStatus :=
  match run_of results cluster name with
  | Some res =>
      if String.eqb (res_State res) StateOK then None
      else Some {| ss_Cluster := cluster; ss_Scanner := name; ss_State := res_State res; ss_Reason := res_Reason res |}
  | None => None
  end.

(** [perCluster], without the blind runs. *)
Definition observed_data (results : Results) (name : string) (clusters : list string) : gmap string json :=
  fold_left (fun acc c =>
    match run_of results c name with
    | Some res => if Blind res then acc else <[c := res_Data res]> acc
    | None => acc
    end) clusters ∅.

Definition build_section (clusters : list string) (results : Results) (name : string) : SectionReport :=
  let section := compare clusters (observed_data results name clusters) in
  if bool_decide (name ∈ identityScanners)
  then {| sr_Uniform := true; sr_PerCluster := sr_PerCluster section; sr_Divergences := [] |}
  else section.

Definition status_cmp : ScannerStatus -> ScannerStatus -> comparison :=
  cmp_lex (cmp_on ss_Cluster String.compare) (cmp_on ss_Scanner String.compare).

Definition sortScannerStatuses (s : list ScannerStatus) : list ScannerStatus := isort (less_of status_cmp) s.

Definition buildSummary (clusters : list string) (sections : gmap string SectionReport) : Summary :=
  let secs := map snd (map_to_list sections) in {|
  su_ClusterCount := length clusters;
  su_ScannerCount := length secs;
  su_UniformCount := length (List.filter sr_Uniform secs);
  su_DivergentCount := length (List.filter (fun s => negb (sr_Uniform s)) secs);
  su_TotalDivergences := foldr Nat.add 0 (map (fun s => length (sr_Divergences s)) secs);
  su_CriticalCount := 0;
  su_WarningCount := 0 |}.

(** [Build] up to the detectors. *)
Definition build_sections (clusters : list string) (results : Results) : Report :=
  let names := Names results in
  let sections : gmap string SectionReport :=
    list_to_map (map (fun n => (n, build_section clusters results n)) names) in
  let degraded := sortScannerStatuses (flat_map (fun n => omap (degraded_status results n) clusters) names) in
  let r runs := {|
    rp_Clusters := clusters; rp_Sections := sections; rp_Summary := buildSummary clusters sections;
    rp_Findings := []; rp_ClusterHealths := []; rp_Outliers := []; rp_Distributions := [];
    rp_DeviationMass := ∅; rp_ScoreAttribution := None; rp_FleetScore := fleet_score_zero; rp_Cohorts := [];
    rp_Degraded := degraded; rp_Incidents := []; rp_Notes := []; rp_runs := runs |} in
  r (Some (indexRuns (r None))).

(** The zero threshold means the default. *)
Definition default_threshold (t : float64) : float64 := if f_eqb t f_zero then f_const 35 10 else t.

Definition with_outliers (r : Report) (found : list OutlierResult * list Distribution) (notes : list string) : Report := {|
  rp_Clusters := rp_Clusters r; rp_Sections := rp_Sections r; rp_Summary := rp_Summary r;
  rp_Findings := rp_Findings r; rp_ClusterHealths := rp_ClusterHealths r; rp_Outliers := fst found;
  rp_Distributions := snd found; rp_DeviationMass := rp_DeviationMass r;
  rp_ScoreAttribution := rp_ScoreAttribution r; rp_FleetScore := rp_FleetScore r; rp_Cohorts := rp_Cohorts r;
  rp_Degraded := rp_Degraded r; rp_Incidents := rp_Incidents r; rp_Notes := notes; rp_runs := rp_runs r |}.

(** The switch on the size of the fleet. *)
Definition detect_fleet (r : Report) (threshold : float64) : Report :=
  let n := length (rp_Clusters r) in
  if minMADSample <=? n
  then with_outliers r (detectOutliers r (rp_Clusters r) threshold NormScopeFleet) (rp_Notes r)
  else if minMajoritySample <=? n
  then with_outliers r (detectMajorityOutliers r (rp_Clusters r) threshold NormScopeFleet) (rp_Notes r)
  else with_outliers r (rp_Outliers r, rp_Distributions r)
    (rp_Notes r ++ [("Fleet-relative outlier detection needs at least " ++ itoa (Z.of_nat minMajoritySample) ++
       " clusters; this report has " ++ itoa (Z.of_nat n) ++ ".")%string]).

(** ** Grouping findings *)

Definition GroupFindingsByCluster (findings : list Finding) : gmap string (list Finding) :=
  fold_left (fun out f =>
    let key := if String.eqb (fi_Cluster f) "" then "fleet" else fi_Cluster f in
    <[key := default [] (out !! key) ++ [f]]> out) findings ∅.

(** ** Lemmas *)

Lemma Names_spec results name : name ∈ Names results <-> exists c, is_Some (run_of results c name).
Proof.
  unfold Names. rewrite sort_strings_elem_of, elem_of_elements, elem_of_union_list. split.
  - intros (X & ([c m] & -> & Hm%elem_of_map_to_list)%list_elem_of_fmap & Hn%elem_of_dom).
    exists c. unfold run_of. by rewrite Hm.
  - intros (c & res & Hr). unfold run_of in Hr. apply bind_Some in Hr as (m & Hm & Hn). exists (dom m).
    split; [|by apply elem_of_dom_2 in Hn]. apply list_elem_of_fmap. exists (c, m).
    split; [done|]. by apply elem_of_map_to_list.
Qed.

Lemma observed_data_lookup results name clusters c :
  observed_data results name clusters !! c =
  if bool_decide (c ∈ clusters)
  then match run_of results c name with Some res => if Blind res then None else Some (res_Data res) | None => None end
  else None.
Proof.
  unfold observed_data. induction clusters as [|d l IH] using rev_ind; [by rewrite bool_decide_eq_false_2 by apply not_elem_of_nil|].
  rewrite fold_left_app. simpl. set (acc := fold_left _ l _) in *.
  destruct (decide (c = d)) as [->|Hne].
  - rewrite bool_decide_eq_true_2 by set_solver. case_bool_decide as Hin.
    + destruct (run_of results d name) as [res|]; [|done]. destruct (Blind res); [done|]. by rewrite lookup_insert_eq.
    + destruct (run_of results d name) as [res|]; [|done]. destruct (Blind res); [done|]. by rewrite lookup_insert_eq.
  - rewrite (bool_decide_ext _ (c ∈ l)) by set_solver. rewrite <- IH.
    destruct (run_of results d name) as [res|]; [|done]. destruct (Blind res); [done|]. by rewrite lookup_insert_ne.
Qed.

Lemma build_section_data clusters results name :
  sr_PerCluster (build_section clusters results name) = observed_data results name clusters.
Proof.
  assert (forall per, sr_PerCluster (compare clusters per) = per) as H.
  { intros per. unfold compare. by destruct (_ || _). }
  unfold build_section. by destruct (bool_decide _); simpl; rewrite H.
Qed.

Lemma build_sections_lookup clusters results name :
  rp_Sections (build_sections clusters results) !! name =
  if bool_decide (name ∈ Names results) then Some (build_section clusters results name) else None.
Proof.
  unfold build_sections. cbn [rp_Sections]. case_bool_decide as H.
  - apply elem_of_list_to_map_1; [rewrite map_map, map_id; apply sort_strings_NoDup, NoDup_elements|].
    apply list_elem_of_fmap. eauto.
  - apply not_elem_of_list_to_map_1. by rewrite map_map, map_id.
Qed.

Lemma degraded_elem clusters results d :
  d ∈ rp_Degraded (build_sections clusters results) <->
  ss_Cluster d ∈ clusters /\ degraded_status results (ss_Scanner d) (ss_Cluster d) = Some d.
Proof.
  assert (forall n c, degraded_status results n c = Some d -> ss_Scanner d = n /\ ss_Cluster d = c) as Hs.
  { unfold degraded_status. intros n c. destruct (run_of _ _ _); [|done]. destruct (String.eqb _ _); [done|].
    intros [= <-]. done. }
  unfold build_sections, sortScannerStatuses. cbn [rp_Degraded].
  rewrite isort_elem_of, list_elem_of_In, in_flat_map. split.
  - intros (n & _ & (c & Hc & Hd)%list_elem_of_In%list_elem_of_omap). by destruct (Hs _ _ Hd) as [<- <-].
  - intros [Hc Hd]. exists (ss_Scanner d). split.
    + apply list_elem_of_In, Names_spec. exists (ss_Cluster d). unfold degraded_status in Hd.
      by destruct (run_of _ _ _).
    + apply list_elem_of_In, list_elem_of_omap. eauto.
Qed.

(** The run table's entry for a run comes from its status. *)
Lemma degraded_entry_status clusters results name c :
  degraded_entry (build_sections clusters results) name c =
  if bool_decide (c ∈ clusters) then degraded_status results name c else None.
Proof.
  set (r := build_sections clusters results). unfold degraded_entry.
  destruct (last _) as [d|] eqn:E.
  - apply last_Some_elem_of, list_elem_of_In, filter_In in E as [Hd [Hs%String.eqb_eq Hc%String.eqb_eq]%andb_prop].
    apply list_elem_of_In, degraded_elem in Hd as [Hin Hd]. rewrite Hs, Hc in *. by rewrite bool_decide_eq_true_2.
  - apply last_None in E. case_bool_decide as Hc; [|done].
    destruct (degraded_status results name c) as [d|] eqn:Ed; [|done]. exfalso.
    assert (ss_Scanner d = name /\ ss_Cluster d = c) as [Hs Hcl].
    { unfold degraded_status in Ed. destruct (run_of _ _ _); [|done]. destruct (String.eqb _ _); [done|].
      by injection Ed as <-. }
    assert (d ∈ rp_Degraded r) as Hin%list_elem_of_In by (apply degraded_elem; by rewrite Hs, Hcl).
    enough (In d []) by done. rewrite <- E. apply filter_In. split; [done|].
    by rewrite Hs, Hcl, !String.eqb_refl.
Qed.

Lemma indexRuns_built clusters results name c :
  indexRuns (build_sections clusters results) !! (name, c) =
  if bool_decide (c ∈ clusters) then res_State <$> run_of results c name else None.
Proof.
  rewrite indexRuns_lookup, degraded_entry_status, section_runs_lookup, build_sections_lookup.
  case_bool_decide as Hc.
  - unfold degraded_status. destruct (run_of results c name) as [res|] eqn:E.
    + destruct (String.eqb_spec (res_State res) StateOK) as [Ho|]; [|done].
      rewrite bool_decide_eq_true_2 by (apply Names_spec; exists c; by rewrite E).
      rewrite build_section_data, observed_data_lookup, bool_decide_eq_true_2, E by done.
      unfold Blind. simpl. by rewrite Ho.
    + case_bool_decide; [|done].
      by rewrite build_section_data, observed_data_lookup, bool_decide_eq_true_2, E by done.
  - case_bool_decide; [|done]. by rewrite build_section_data, observed_data_lookup, bool_decide_eq_false_2 by done.
Qed.

Lemma runState_built clusters results name c :
  runState (build_sections clusters results) name c =
  if bool_decide (c ∈ clusters) then res_State <$> run_of results c name else None.
Proof. exact (indexRuns_built clusters results name c). Qed.

(** Every outlier detection adds names a listed cluster and a scanner with its payload. *)
Lemma detect_fleet_known r t o : o ∈ rp_Outliers (detect_fleet r t) -> o ∈ rp_Outliers r \/
  (or_Cluster o ∈ rp_Clusters r /\ has_payload r (or_Scanner o) (or_Cluster o)).
Proof.
  unfold detect_fleet. destruct (_ <=? _); [|destruct (_ <=? _)]; cbn [rp_Outliers with_outliers fst]; [..|by left];
    intros H; right; [by eapply detectOutliers_known|by eapply detectMajority_known].
Qed.

(** A section holds payloads of listed clusters only, from runs that were not blind. *)
Lemma payload_ran clusters results s c : has_payload (build_sections clusters results) s c ->
  c ∈ clusters /\ exists res, run_of results c s = Some res /\ res_State res <> StateErrored.
Proof.
  intros (sec & Hsec & [data Hd]). rewrite build_sections_lookup in Hsec. case_bool_decide; [|done]. simplify_eq.
  rewrite build_section_data, observed_data_lookup in Hd. case_bool_decide; [|done]. split; [done|].
  destruct (run_of results c s) as [res|]; [|done]. exists res. split; [done|]. unfold Blind in Hd.
  by destruct (String.eqb_spec (res_State res) StateErrored).
Qed.

(** ** Properties *)

Module Runs.

(** C2: what the scanners returned is what the report holds. Every listed
    cluster's run has the state its scanner returned, read from the table or derived
    from a decoded report; a payload is in a section exactly when its run was not
    blind; and the degraded list holds exactly the runs that were not OK, sorted. *)
Theorem sections_faithful (clusters : list string) (results : Results) :
  let r := build_sections clusters results in
  (forall name c, runState r name c = if bool_decide (c ∈ clusters) then res_State <$> run_of results c name else None) /\
  (forall name c, indexRuns r !! (name, c) = runState r name c) /\
  (forall name c data,
     (sr_PerCluster <$> rp_Sections r !! name) ≫= (.!! c) = Some data <->
     c ∈ clusters /\ exists res, run_of results c name = Some res /\ res_State res <> StateErrored /\ res_Data res = data) /\
  (forall d, d ∈ rp_Degraded r <-> ss_Cluster d ∈ clusters /\
     exists res, run_of results (ss_Cluster d) (ss_Scanner d) = Some res /\ res_State res <> StateOK /\
       ss_State d = res_State res /\ ss_Reason d = res_Reason res) /\
  StronglySorted (cmp_le status_cmp) (rp_Degraded r).
Proof.
  intros r. split_and!.
  - apply runState_built.
  - intros name c. unfold r. by rewrite runState_built, indexRuns_built.
  - intros name c data. unfold r. rewrite build_sections_lookup. case_bool_decide as Hn; simpl.
    + rewrite build_section_data, observed_data_lookup. case_bool_decide as Hc; [|naive_solver].
      destruct (run_of results c name) as [res|]; [|naive_solver]. unfold Blind.
      destruct (String.eqb_spec (res_State res) StateErrored); naive_solver.
    + split; [done|]. intros (_ & res & Hr & _). exfalso. apply Hn, Names_spec. exists c. by rewrite Hr.
  - intros [c name st reason]. unfold r. rewrite degraded_elem. cbn [ss_Cluster ss_Scanner ss_State ss_Reason].
    unfold degraded_status. destruct (run_of results c name) as [res|]; [|naive_solver].
    destruct (String.eqb_spec (res_State res) StateOK); naive_solver.
  - apply isort_sorted. unfold status_cmp. apply _.
Qed.

(** The section statistics account for every section, and every finding is filed
    under one key. *)
Lemma summary_accounts clusters sections : let s := buildSummary clusters sections in
  su_UniformCount s + su_DivergentCount s = su_ScannerCount s /\ su_ScannerCount s = size sections.
Proof.
  intros s. unfold s, buildSummary. cbn. split; [|by rewrite length_map, length_map_to_list].
  induction (map snd _) as [|sec l IH]; [done|]. simpl. destruct (sr_Uniform sec); simpl; lia.
Qed.

End Runs.
