(* ===== verification/Profile.v ===== *)
(** * internal/cohort/profile.go: feature vectors

    One vector per cluster: the declared fields, missing values filled with the
    fleet's median, each dimension rescaled to its range. The code keeps a matrix of
    values and one of presence flags; here a missing value is [None]. *)

From Stdlib Require Import ZArith Lia String Ascii.
From stdpp Require Import base gmap strings list sets.
From S2P Require Import Prelude Float64 Ratio Text Data Fields Population.

Local Open Scope nat_scope.

Record featureSpec := {
  fe_name : string;
  fe_scanner : string;
  fe_field : string;
  fe_extract : option json -> option float64
}.

(** [strconv.ParseUint(s, 10, 64)] read back as a float. *)
Definition parse_uint (l : bytes) : option float64 :=
  match l with
  | [] => None
  | _ =>
      if forallb is_digit l then
        let n := fold_left (fun acc c => (acc * 10 + (Z.of_nat (nat_of_ascii c) - 48))%Z) l 0%Z in
        if (n <? 2 ^ 64)%Z then Some (f_of_Z n) else None
      else None
  end.

Definition minorVersionExtractor (v : option json) : option float64 :=
  match util_Float64 v with
  | Some n => Some n
  | None =>
      match v with
      | Some (JStr s) => parse_uint (trim_right (fun c => (nat_of_ascii c =? 43)) (to_bytes s))
      | _ => None
      end
  end.

Definition feature (name scanner field : string) (extract : option json -> option float64) : featureSpec :=
  {| fe_name := name; fe_scanner := scanner; fe_field := field; fe_extract := extract |}.

Definition featureSpecs : list featureSpec := [
  feature "node_count" "resources" "node_count" util_Float64;
  feature "namespace_count" "namespaces" "count" util_Float64;
  feature "service_count" "services" "count" util_Float64;
  feature "ingress_count" "ingresses" "count" util_Float64;
  feature "cluster_role_count" "rbac" "cluster_role_count" util_Float64;
  feature "crd_count" "crds" "count" util_Float64;
  feature "avg_cpu_percent" "metrics" "avg_cpu_percent" util_Float64;
  feature "avg_memory_percent" "metrics" "avg_memory_percent" util_Float64;
  feature "enforced_count" "security" "enforced_count" util_Float64;
  feature "network_policy_count" "network-policies" "count" util_Float64;
  feature "quota_count" "resource-quotas" "quota_count" util_Float64;
  feature "minor_version" "version" "minor" minorVersionExtractor ].

(** A payload that is not an object does not convert to a map. *)
Definition extractField (data : json) (field : string) (extract : option json -> option float64) : option float64 :=
  match data with JObj kv => extract ((list_to_map kv : gmap string json) !! field) | _ => None end.

(** [SectionLookup]: the per-cluster payloads of a scanner; none is nil. *)
Abbreviation lookup_sections := (string -> gmap string json).

(** cohorts.go [cohortSectionLookup.PerCluster]. *)
Definition PerCluster (sections : gmap string SectionReport) : lookup_sections := fun name =>
  match sections !! name with Some sec => sr_PerCluster sec | None => ∅ end.

Definition raw_row (sections : lookup_sections) (cluster : string) : list (option float64) :=
  map (fun spec =>
    match sections (fe_scanner spec) !! cluster with
    | Some data => extractField data (fe_field spec) (fe_extract spec)
    | None => None
    end) featureSpecs.

(** Column [col] of a matrix, and the matrix with it replaced. *)
Definition column {A} (d : A) (raw : list (list A)) (col : nat) : list A := map (fun row => nth col row d) raw.
Definition set_column {A} (col : nat) (vals : list A) (raw : list (list A)) : list (list A) :=
  zip_with (fun v row => <[col := v]> row) vals raw.

Definition impute_column (vals : list (option float64)) : list (option float64) :=
  match omap id vals with
  | [] => vals
  | observed => map (fun v => match v with Some x => Some x | None => Some (Median observed) end) vals
  end.

Definition imputeMissing (raw : list (list (option float64))) : list (list float64) :=
  let cols := length (hd [] raw) in
  map (map (default f_zero))
    (fold_left (fun raw col => set_column col (impute_column (column None raw col)) raw) (seq 0 cols) raw).

Definition min_of (vals : list float64) : float64 :=
  fold_left (fun m v => if f_ltb v m then v else m) vals (f_inf false).
Definition max_of (vals : list float64) : float64 :=
  fold_left (fun m v => if f_ltb m v then v else m) vals (f_inf true).

Definition normalize_column (vals : list float64) : list float64 :=
  let lo := min_of vals in
  let span := f_sub (max_of vals) lo in
  if f_eqb span f_zero then map (fun _ => f_zero) vals
  else map (fun v => f_div (f_sub v lo) span) vals.

Definition normalize (raw : list (list float64)) : list (list float64) :=
  let cols := length (hd [] raw) in
  fold_left (fun raw col => set_column col (normalize_column (column f_zero raw col)) raw) (seq 0 cols) raw.

Record ClusterProfile := { cp_Name : string; cp_Features : list float64; cp_Tag : string }.

Definition Profiles (clusters : list string) (sections : lookup_sections) (tags : gmap string string) :
  list ClusterProfile :=
  let raw := normalize (imputeMissing (map (raw_row sections) clusters)) in
  zip_with (fun name row => {| cp_Name := name; cp_Features := row; cp_Tag := default "" (tags !! name) |})
    clusters raw.

(** ** Shape *)

(** A matrix of [n] rows of [w] values. *)
Definition matrix {A} (n w : nat) (raw : list (list A)) : Prop :=
  length raw = n /\ Forall (fun row => length row = w) raw.

Lemma set_column_matrix {A} n w col (vals : list A) raw :
  length vals = n -> matrix n w raw -> matrix n w (set_column col vals raw).
Proof.
  intros Hv [Hn Hw]. unfold set_column. split; [rewrite length_zip_with; lia|].
  revert vals n Hv Hn. induction Hw as [|row raw Hrow _ IH]; intros [|v vals] n Hv Hn; simpl in *; try constructor.
  - by rewrite length_insert.
  - destruct n; [done|]. apply (IH vals n); lia.
Qed.

(** What a pass over the columns with a length-preserving operation does. *)
Section Columns.
Context {A : Type} (d : A) (op : list A -> list A).
Hypothesis op_length : forall vals, length (op vals) = length vals.

Definition column_pass (cols : nat) (raw : list (list A)) : list (list A) :=
  fold_left (fun raw col => set_column col (op (column d raw col)) raw) (seq 0 cols) raw.

Lemma column_pass_S cols raw : column_pass (S cols) raw =
  set_column cols (op (column d (column_pass cols raw) cols)) (column_pass cols raw).
Proof. unfold column_pass. by rewrite seq_S, fold_left_app. Qed.

Lemma column_length (raw : list (list A)) col : length (column d raw col) = length raw.
Proof. apply length_map. Qed.

Lemma column_pass_matrix n w cols raw : matrix n w raw -> matrix n w (column_pass cols raw).
Proof.
  intros H. induction cols as [|c IH]; [done|]. rewrite column_pass_S. apply set_column_matrix; [|done].
  rewrite op_length, column_length. by destruct IH.
Qed.

Lemma column_set_other n w (vals : list A) raw c col : matrix n w raw -> length vals = n -> c <> col ->
  column d (set_column c vals raw) col = column d raw col.
Proof.
  intros [Hn Hw] Hv Hc. unfold column, set_column. revert vals n Hn Hv.
  induction Hw as [|row raw Hrow _ IH]; intros [|v vals] n Hn Hv; simpl in *; try done; try lia.
  destruct n; [done|]. f_equal; [|apply (IH vals n); lia].
  rewrite !nth_lookup. by rewrite list_lookup_insert_ne.
Qed.

Lemma column_set_same n w (vals : list A) raw c : matrix n w raw -> length vals = n -> c < w ->
  column d (set_column c vals raw) c = vals.
Proof.
  intros [Hn Hw] Hv Hc. unfold column, set_column. revert vals n Hn Hv.
  induction Hw as [|row raw Hrow _ IH]; intros [|v vals] n Hn Hv; simpl in *; try done; try lia.
  destruct n; [done|]. f_equal; [|apply (IH vals n); lia].
  rewrite nth_lookup, list_lookup_insert_eq by lia. done.
Qed.

(** Each column is transformed on its own. *)
Lemma column_pass_column n w cols raw col : matrix n w raw -> cols <= w -> col < w ->
  column d (column_pass cols raw) col = (if col <? cols then op else id) (column d raw col).
Proof.
  intros H. induction cols as [|c IH]; intros Hw Hcol; [by destruct col|].
  rewrite column_pass_S. pose proof (column_pass_matrix n w c raw H) as Hm.
  assert (length (op (column d (column_pass c raw) c)) = n) as Hl
    by (rewrite op_length, column_length; by destruct Hm).
  destruct (decide (c = col)) as [->|Hne].
  - rewrite (column_set_same n w) by (done || lia). rewrite IH by lia.
    destruct (Nat.ltb_spec col col); [lia|]. destruct (Nat.ltb_spec col (S col)); [done|lia].
  - rewrite (column_set_other n w) by done. rewrite IH by lia.
    destruct (Nat.ltb_spec col c), (Nat.ltb_spec col (S c)); done || lia.
Qed.
End Columns.

(** ** Ranges *)

Lemma finite_not_nan x : f_finite x = true -> f_is_nan x = false.
Proof. by destruct x. Qed.

Lemma f_ltb_val x y : f_finite x = true -> f_finite y = true -> f_ltb x y = true <-> (f_val x < f_val y)%Z.
Proof.
  intros Hx Hy. rewrite f_ltb_leb by (by apply finite_not_nan). rewrite negb_true_iff.
  pose proof (f_leb_val y x Hy Hx). destruct (f_leb y x); split; intros; try done; lia || (apply Z.nle_gt; naive_solver).
Qed.

Lemma f_leb_inf x : f_finite x = true -> f_ltb x (f_inf false) = true /\ f_ltb (f_inf true) x = true.
Proof. by destruct x as [[]|[]| |[] ? ?]. Qed.

(** [min] and [max] over a column are values of the column that bound it. *)
Lemma min_of_spec vals : vals <> [] -> Forall (fun v => f_finite v = true) vals ->
  min_of vals ∈ vals /\ forall v, v ∈ vals -> (f_val (min_of vals) <= f_val v)%Z.
Proof.
  intros Hne Hf. unfold min_of. destruct Hf as [|v vals Hv Hf]; [done|]. clear Hne. simpl.
  rewrite (proj1 (f_leb_inf v Hv)).
  enough (forall m, f_finite m = true ->
    let r := fold_left (fun m v => if f_ltb v m then v else m) vals m in
    (r = m \/ r ∈ vals) /\ (f_val r <= f_val m)%Z /\ forall u, u ∈ vals -> (f_val r <= f_val u)%Z) as H.
  { destruct (H v Hv) as (H1 & H2 & H3). split; [set_solver|]. intros u [->|Hu]%elem_of_cons; [done|by apply H3]. }
  induction Hf as [|u vals Hu _ IH]; intros m Hm; simpl.
  - split_and!; [by left|lia|]. by intros u Hu%elem_of_nil.
  - pose proof (f_ltb_val u m Hu Hm) as Hc. destruct (f_ltb u m).
    + destruct (IH u Hu) as (H1 & H2 & H3). destruct Hc as [Hc _]. specialize (Hc eq_refl).
      split_and!; [set_solver|lia|]. intros w [->|Hw]%elem_of_cons; [lia|by apply H3].
    + destruct (IH m Hm) as (H1 & H2 & H3). assert (~ (f_val u < f_val m)%Z) by (intros E; by apply Hc in E).
      split_and!; [set_solver|lia|]. intros w [->|Hw]%elem_of_cons; [lia|by apply H3].
Qed.

Lemma max_of_spec vals : vals <> [] -> Forall (fun v => f_finite v = true) vals ->
  max_of vals ∈ vals /\ forall v, v ∈ vals -> (f_val v <= f_val (max_of vals))%Z.
Proof.
  intros Hne Hf. unfold max_of. destruct Hf as [|v vals Hv Hf]; [done|]. clear Hne. simpl.
  rewrite (proj2 (f_leb_inf v Hv)).
  enough (forall m, f_finite m = true ->
    let r := fold_left (fun m v => if f_ltb m v then v else m) vals m in
    (r = m \/ r ∈ vals) /\ (f_val m <= f_val r)%Z /\ forall u, u ∈ vals -> (f_val u <= f_val r)%Z) as H.
  { destruct (H v Hv) as (H1 & H2 & H3). split; [set_solver|]. intros u [->|Hu]%elem_of_cons; [done|by apply H3]. }
  induction Hf as [|u vals Hu _ IH]; intros m Hm; simpl.
  - split_and!; [by left|lia|]. by intros u Hu%elem_of_nil.
  - pose proof (f_ltb_val m u Hm Hu) as Hc. destruct (f_ltb m u).
    + destruct (IH u Hu) as (H1 & H2 & H3). destruct Hc as [Hc _]. specialize (Hc eq_refl).
      split_and!; [set_solver|lia|]. intros w [->|Hw]%elem_of_cons; [lia|by apply H3].
    + destruct (IH m Hm) as (H1 & H2 & H3). assert (~ (f_val m < f_val u)%Z) by (intros E; by apply Hc in E).
      split_and!; [set_solver|lia|]. intros w [->|Hw]%elem_of_cons; [lia|by apply H3].
Qed.

(** The sign of a difference of finite values. *)
Lemma f_sub_order x y : f_finite x = true -> f_finite y = true ->
  f_eqb (f_sub x y) f_zero = (f_val x =? f_val y)%Z /\ f_ltb f_zero (f_sub x y) = (f_val y <? f_val x)%Z /\
  f_nonneg (f_sub x y) = (f_val y <=? f_val x)%Z.
Proof.
  intros Hx Hy. pose proof (f_sub_sign x y Hx Hy) as H.
  unfold f_nonneg, f_eqb, f_ltb, f_leb, SpecFloat.SFeqb, SpecFloat.SFltb, SpecFloat.SFleb.
  rewrite (f_zero_compare (f_sub x y)), H, f_compare_val by done. simpl.
  destruct (Z.compare_spec (f_val x) (f_val y)) as [E|E|E]; rewrite ?E; simpl; split_and!; symmetry;
    rewrite ?Z.eqb_eq, ?Z.eqb_neq, ?Z.ltb_lt, ?Z.ltb_ge, ?Z.leb_le, ?Z.leb_gt; lia.
Qed.

Lemma f_div_self x : f_pos x = true -> f_eqb (f_div x x) (f_of_Z 1) = true.
Proof.
  unfold f_pos. intros [Hf Hp]%andb_prop. assert (0 < f_val x)%Z as Hv by (by apply (f_ltb_val f_zero x)).
  destruct (f_val_small 1 ltac:(lia)) as [F1 V1].
  pose proof (f_div_ge x x (f_of_Z 1) Hf Hf F1 Hv Hv ltac:(rewrite V1; lia) ltac:(rewrite V1; lia)) as H1.
  pose proof (f_div_le x x (f_of_Z 1) Hf Hf F1 Hv Hv ltac:(rewrite V1; lia) ltac:(rewrite V1; lia)) as H2.
  revert H1 H2. generalize (f_of_Z 1) F1. clear. intros c Fc. unfold f_leb, SpecFloat.SFleb, f_eqb, SpecFloat.SFeqb.
  assert (SpecFloat.SFcompare c (f_div x x) = match SpecFloat.SFcompare (f_div x x) c with
    Some r => Some (CompOpp r) | None => None end) as ->.
  { generalize (f_div x x). intros y. destruct c as [[]|[]| |[] m e], y as [[]|[]| |[] n f]; try done;
      cbn [SpecFloat.SFcompare]; rewrite (Z.compare_antisym f e); destruct (Z.compare f e); try done; simpl;
      change (Pos.compare_cont Eq ?a ?b) with (Pos.compare a b);
      rewrite (Pos.compare_antisym n m); by destruct (Pos.compare n m). }
  by destruct (SpecFloat.SFcompare (f_div x x) c) as [[]|].
Qed.

(** ** Properties *)

Module Features.

(** Rescaling a feature keeps one value per cluster, never yields NaN or a
    negative value, sends the smallest value to 0, and sends the largest to 1, or the
    whole dimension to 0 when the fleet does not vary on it. *)
Theorem normalize_column_range (vals : list float64) :
  vals <> [] -> Forall (fun v => f_finite v = true) vals ->
  f_finite (f_sub (max_of vals) (min_of vals)) = true ->
  let out := normalize_column vals in
  length out = length vals /\ Forall (fun v => nn v = true) out /\
  (forall i, vals !! i = Some (min_of vals) -> exists v, out !! i = Some v /\ f_eqb v f_zero = true) /\
  (forall i, vals !! i = Some (max_of vals) -> exists v, out !! i = Some v /\
     if (f_val (min_of vals) =? f_val (max_of vals))%Z then f_eqb v f_zero = true else f_eqb v (f_of_Z 1) = true).
Proof.
  intros Hne Hf Hs out. destruct (min_of_spec vals Hne Hf) as [Hlo Hmin], (max_of_spec vals Hne Hf) as [Hhi Hmax].
  pose proof (proj1 (List.Forall_forall _ _) Hf) as Hfin.
  assert (f_finite (min_of vals) = true) as Flo by (apply Hfin, list_elem_of_In; done).
  assert (f_finite (max_of vals) = true) as Fhi by (apply Hfin, list_elem_of_In; done).
  unfold out, normalize_column. cbv zeta.
  destruct (f_sub_order (max_of vals) (min_of vals) Fhi Flo) as (He & Hp & _). rewrite He, Z.eqb_sym.
  specialize (Hmin _ Hhi). destruct (Z.eqb_spec (f_val (min_of vals)) (f_val (max_of vals))) as [E|E].
  - split_and!; [apply length_map| |intros i Hi..].
    + apply Forall_map, List.Forall_forall. done.
    + exists f_zero. by rewrite list_lookup_fmap, Hi.
    + exists f_zero. by rewrite list_lookup_fmap, Hi.
  - set (span := f_sub (max_of vals) (min_of vals)) in *.
    assert (f_pos span = true) as Hpos.
    { unfold f_pos. rewrite Hs, Hp. apply Z.ltb_lt. lia. }
    split_and!; [apply length_map| |intros i Hi..].
    + apply Forall_map, List.Forall_forall. intros v Hv. simpl. apply nn_div; [|done].
      assert (f_finite v = true) as Fv by (by apply Hfin). unfold nn.
      rewrite f_sub_valid by (by destruct v, (min_of vals) || (by destruct (min_of vals))).
      destruct (f_sub_order v (min_of vals) Fv Flo) as (_ & _ & ->). apply Z.leb_le.
      destruct (min_of_spec vals Hne Hf) as [_ H]. apply H, list_elem_of_In, Hv.
    + eexists. rewrite list_lookup_fmap, Hi. split; [reflexivity|].
      destruct (f_sub_order (min_of vals) (min_of vals) Flo Flo) as (Hz & _). rewrite Z.eqb_refl in Hz.
      revert Hz Hpos. generalize (f_sub (min_of vals) (min_of vals)). intros d Hz Hpos.
      unfold f_pos in Hpos. by destruct d as [[]|[]| |[] ? ?], span as [[]|[]| |[] ? ?].
    + eexists. rewrite list_lookup_fmap, Hi. split; [reflexivity|]. by apply f_div_self.
Qed.

Definition node_counts : list float64 := [f_of_Z 5; f_of_Z 3; f_of_Z 9].

Lemma normalize_column_range_witness :
  length (normalize_column node_counts) = 3 /\ Forall (fun v => nn v = true) (normalize_column node_counts).
Proof.
  destruct (normalize_column_range node_counts ltac:(discriminate)
    ltac:(repeat constructor) ltac:(vm_compute; reflexivity)) as (H1 & H2 & _).
  split; [exact H1|exact H2].
Defined.

(** Every cluster gets one vector of the declared features, under its name and tag. *)
Lemma profiles_shape clusters sections tags :
  map cp_Name (Profiles clusters sections tags) = clusters /\
  Forall (fun p => length (cp_Features p) = length featureSpecs) (Profiles clusters sections tags).
Proof.
  set (raw0 := map (raw_row sections) clusters). set (w := length featureSpecs).
  assert (matrix (length clusters) w raw0) as H0.
  { split; [apply length_map|]. unfold raw0. apply Forall_map, List.Forall_forall. intros c _. apply length_map. }
  assert (matrix (length clusters) w (imputeMissing raw0)) as H1.
  { unfold imputeMissing. destruct (column_pass_matrix None impute_column) with (n := length clusters) (w := w)
      (cols := length (hd [] raw0)) (raw := raw0) as [Hl Hw]; [|done|].
    - intros vals. unfold impute_column. destruct (omap id vals); [done|apply length_map].
    - split; [by rewrite length_map|]. apply Forall_map. eapply Forall_impl; [exact Hw|].
      intros row Hrow. simpl. by rewrite length_map. }
  assert (matrix (length clusters) w (normalize (imputeMissing raw0))) as [H2 H3].
  { unfold normalize. apply (column_pass_matrix f_zero normalize_column); [|done].
    intros vals. unfold normalize_column. cbv zeta. destruct (f_eqb _ _); apply length_map. }
  unfold Profiles. fold raw0. revert H2 H3. generalize (normalize (imputeMissing raw0)). clear. fold w.
  intros raw Hl Hw. revert raw Hl Hw. induction clusters as [|c l IH]; intros [|row raw] Hl Hw; try done.
  apply Forall_cons in Hw as [Hr Hw]. destruct (IH raw ltac:(simpl in Hl; lia) Hw) as [I1 I2]. simpl. split; [by f_equal|by constructor].
Qed.

End Features.
