(* ===== verification/Cohort.v ===== *)
(** * internal/cohort: cohort.go and agglomerate.go

    Clusters with a tag form the cohorts of their tags; the rest are grouped by
    average-linkage clustering of their feature vectors, or form one cohort when they
    are few. [mergeSmallCohorts] ranges over a map to find the smallest group, so
    which of two equally small groups it folds first depends on Go's map order: the
    model takes that order as an argument. *)

From Stdlib Require Import ZArith Lia String Sorted.
From stdpp Require Import base gmap strings list sets.
From S2P Require Import Prelude Maps Float64 Data Fields Population Profile.

Local Open Scope nat_scope.

(** ** Data *)

Abbreviation Source := string.
Definition SourceTagged : Source := "tagged".
Definition SourceAuto : Source := "auto".
Definition SourceFleet : Source := "fleet".

Definition defaultMinClusters : nat := 6.
Definition defaultMinCohortSize : nat := 3.
Definition defaultMaxCohorts : nat := 8.

Record Cohort := { co_Name : string; co_Source : Source; co_Clusters : list string }.

Record Options := { MinClusters : nat; MinCohortSize : nat; MaxCohorts : nat }.

(** ** agglomerate.go: distances *)

(** The shorter vector reads as padded with zeros. *)
Definition euclidean (a b : list float64) : float64 :=
  f_sqrt (fold_left (fun sum i =>
    let diff := f_sub (nth i a f_zero) (nth i b f_zero) in f_add sum (f_mul diff diff))
    (seq 0 (Nat.max (length b) (length a))) f_zero).

Abbreviation distances := (gmap nat (gmap nat float64)).

(** Entry [(i, j)] with [i < j] is computed once and stored both ways; the diagonal
    is left out. *)
Definition pairwiseDistances (profiles : list ClusterProfile) : distances :=
  let n := length profiles in
  let feat i := cp_Features (nth i profiles {| cp_Name := ""; cp_Features := []; cp_Tag := "" |}) in
  list_to_map (map (fun i => (i, list_to_map (map (fun j =>
      (j, if i <? j then euclidean (feat i) (feat j) else euclidean (feat j) (feat i)))
    (List.filter (fun j => negb (j =? i)) (seq 0 n))) : gmap nat float64)) (seq 0 n)).

(** ** agglomerate.go: the dendrogram *)

Record merge := { m_a : nat; m_b : nat; m_dist : float64 }.

(** The working state: which ids are unmerged, their sizes, their distances. *)
Record linkage := { lk_active : list bool; lk_size : list nat; lk_d : distances }.

Definition is_active (s : linkage) (i : nat) : bool := nth i (lk_active s) false.
Definition size_of (s : linkage) (i : nat) : nat := nth i (lk_size s) 0.
Definition dist_of (d : distances) (i j : nat) : float64 := default f_zero (default ∅ (d !! i) !! j).

(** The best pair so far and its distance; no pair is [a = b = -1]. *)
Abbreviation best_pair := (option (nat * nat) * float64)%type.

Definition improves (best : best_pair) (i j : nat) (v : float64) : bool :=
  f_ltb v (snd best) ||
  (f_eqb v (snd best) &&
   match fst best with Some (a, b) => (i <? a) || ((i =? a) && (j <? b)) | None => false end).

Definition closest_pair (s : linkage) : best_pair :=
  fold_left (fun best i =>
    if is_active s i then
      fold_left (fun best (jv : nat * float64) =>
        let (j, v) := jv in
        if (j <=? i) || negb (is_active s j) then best
        else if improves best i j v then (Some (i, j), v) else best)
        (map_to_list (default ∅ (lk_d s !! i))) best
    else best) (seq 0 (length (lk_active s))) (None, MaxFloat64).

Definition set_dist (i j : nat) (v : float64) (d : distances) : distances :=
  <[i := <[j := v]> (default ∅ (d !! i))]> d.

(** Lance-Williams: the distance from the new id to every other active one. *)
Definition update_dists (s : linkage) (a b newID : nat) (active : list bool) : distances :=
  let newSize := size_of s a + size_of s b in
  fold_left (fun d i =>
    if nth i active false && negb (i =? newID) then
      let da := dist_of d a i in
      let db := dist_of d b i in
      let merged := f_div (f_add (f_mul da (f_of_Z (Z.of_nat (size_of s a)))) (f_mul db (f_of_Z (Z.of_nat (size_of s b)))))
                      (f_of_Z (Z.of_nat newSize)) in
      set_dist i newID merged (set_dist newID i merged d)
    else d) (seq 0 (length active)) (<[newID := ∅]> (lk_d s)).

Definition drop_ids (a b : nat) (d : distances) : distances :=
  (fun m => delete b (delete a m)) <$> delete b (delete a d).

(** One merge; [None] breaks the loop. *)
Definition link_step (n step : nat) (s : linkage) : option (merge * linkage) :=
  match closest_pair s with
  | (Some (a, b), best) =>
      let newID := n + step in
      let active := <[newID := true]> (<[b := false]> (<[a := false]> (lk_active s))) in
      Some ({| m_a := a; m_b := b; m_dist := best |},
            {| lk_active := active;
               lk_size := <[newID := size_of s a + size_of s b]> (lk_size s);
               lk_d := drop_ids a b (update_dists s a b newID active) |})
  | (None, _) => None
  end.

Fixpoint link_loop (n step fuel : nat) (s : linkage) : list merge :=
  match fuel with
  | 0 => []
  | S fuel' =>
      match link_step n step s with
      | Some (m, s') => m :: link_loop n (S step) fuel' s'
      | None => []
      end
  end.

Definition link_init (n : nat) (dist : distances) : linkage := {|
  lk_active := repeat true n ++ repeat false (n - 1);
  lk_size := repeat 1 n ++ repeat 0 (n - 1);
  lk_d := dist |}.

Definition buildDendrogram (n : nat) (dist : distances) : list merge := link_loop n 0 (n - 1) (link_init n dist).

(** ** agglomerate.go: the cut *)

Definition nth_merge (merges : list merge) (i : nat) : merge := nth i merges {| m_a := 0; m_b := 0; m_dist := f_zero |}.

Definition chooseK (merges : list merge) (maxK n : nat) : nat :=
  let upper := Nat.min maxK (n - 1) in
  if length merges <? 2 then 1
  else if upper <? 2 then 2
  else fst (fold_left (fun acc i =>
    let k := length merges - i + 1 in
    if (k <? 2) || (upper <? k) then acc
    else
      let gap := f_sub (m_dist (nth_merge merges i)) (m_dist (nth_merge merges (i - 1))) in
      if f_ltb (snd acc) gap then (k, gap) else acc)
    (seq 1 (length merges - 1)) (2, f_neg (f_of_Z 1))).

(** [find] follows parents until one is its own; a parent is a later id, so as
    many steps as there are ids reach it. *)
Fixpoint find_root (fuel : nat) (parent : list nat) (x : nat) : nat :=
  match fuel with
  | 0 => x
  | S fuel' => let p := nth x parent 0 in if p =? x then x else find_root fuel' parent p
  end.

Definition find (parent : list nat) (x : nat) : nat := find_root (length parent) parent x.

(** Groups are numbered in order of first appearance. *)
Definition number_step (acc : gmap nat nat * list nat) (key : nat) : gmap nat nat * list nat :=
  let '(ids, out) := acc in
  match ids !! key with
  | Some gid => (ids, out ++ [gid])
  | None => (<[key := size ids]> ids, out ++ [size ids])
  end.

Definition renumber (groups : list nat) : list nat := snd (fold_left number_step groups (∅, [])).

Definition merge_parents (n : nat) (merges : list merge) (stop : nat) : list nat :=
  fold_left (fun parent i =>
    let m := nth_merge merges i in <[m_b m := n + i]> (<[m_a m := n + i]> parent))
    (seq 0 stop) (seq 0 (2 * n - 1)).

Definition cutDendrogram (merges : list merge) (n k : nat) : list nat :=
  if (k <=? 1) || (length merges =? 0) then repeat 0 n
  else
    let parent := merge_parents n merges (length merges - (k - 1)) in
    renumber (map (find parent) (seq 0 n)).

Definition agglomerate (profiles : list ClusterProfile) (maxK : nat) : list nat :=
  let n := length profiles in
  if n =? 0 then []
  else if n =? 1 then [0]
  else
    let maxK := Nat.max maxK 2 in
    let merges := buildDendrogram n (pairwiseDistances profiles) in
    cutDendrogram merges n (chooseK merges maxK n).

(** ** agglomerate.go: folding small groups *)

Definition count_groups (groups : list nat) : gmap nat nat :=
  fold_left (fun counts g => <[g := S (default 0 (counts !! g))]> counts) groups ∅.

(** The nearest group to the small one; [None] is [-1]. *)
Definition closestGroup (profiles : list ClusterProfile) (groups : list nat) (small : nat) : option nat :=
  let items := zip (map cp_Features profiles) groups in
  let mine := List.filter (fun p => snd p =? small) items in
  let others := List.filter (fun p => negb (snd p =? small)) items in
  fst (fold_left (fun (acc : option nat * float64) i =>
    fold_left (fun (acc : option nat * float64) j =>
      let d := euclidean (fst i) (fst j) in
      if f_ltb d (snd acc) then (Some (snd j), d) else acc) others acc)
    mine (None, MaxFloat64)).

Section MapOrder.

(** The order in which the runtime ranges over the counts. *)
Context (order : gmap nat nat -> list (nat * nat)).

Definition smallest_group (minSize : nat) (counts : gmap nat nat) : option nat :=
  fst (fold_left (fun (acc : option nat * nat) (gc : nat * nat) =>
    if snd gc <? snd acc then (Some (fst gc), snd gc) else acc) (order counts) (None, minSize)).

(** The endless loop: every turn drops one group from the counts, so as many turns
    as there are groups end it. *)
Fixpoint fold_small (fuel : nat) (profiles : list ClusterProfile) (minSize : nat)
  (groups : list nat) (counts : gmap nat nat) : list nat :=
  match fuel with
  | 0 => groups
  | S fuel' =>
      match smallest_group minSize counts with
      | None => groups
      | Some smallest =>
          if size counts <=? 1 then groups
          else match closestGroup profiles groups smallest with
               | None => groups
               | Some target =>
                   let merged := default 0 (counts !! target) + default 0 (counts !! smallest) in
                   fold_small fuel' profiles minSize
                     (map (fun g => if g =? smallest then target else g) groups)
                     (delete smallest (<[target := merged]> counts))
               end
      end
  end.

Definition mergeSmallCohorts (groups : list nat) (profiles : list ClusterProfile) (minSize : nat) : list nat :=
  if minSize <=? 1 then groups
  else let counts := count_groups groups in
       renumber (fold_small (size counts) profiles minSize groups counts).

(** ** cohort.go *)

Definition splitByTag (profiles : list ClusterProfile) : list ClusterProfile * list ClusterProfile :=
  (List.filter (fun p => negb (String.eqb (cp_Tag p) "")) profiles,
   List.filter (fun p => String.eqb (cp_Tag p) "") profiles).

Definition taggedCohorts (profiles : list ClusterProfile) : list Cohort :=
  map (fun tm => {| co_Name := fst tm; co_Source := SourceTagged; co_Clusters := snd tm |})
    (map_to_list (file_under (map (fun p => (cp_Tag p, cp_Name p)) profiles))).

Definition first_less (a b : list string) : bool := String.ltb (hd "" a) (hd "" b).

Definition nameAutoCohorts (groups : list nat) (profiles : list ClusterProfile) : list Cohort :=
  let byGroup := file_under (zip groups (map cp_Name profiles)) in
  let buckets := isort first_less (map (fun gm => sort_strings (snd gm)) (map_to_list byGroup)) in
  imap (fun i members => {| co_Name := ("auto-" ++ itoa (Z.of_nat (S i)))%string; co_Source := SourceAuto;
                            co_Clusters := members |}) buckets.

Definition autoCohorts (profiles : list ClusterProfile) (opts : Options) : list Cohort :=
  let groups := agglomerate profiles (MaxCohorts opts) in
  nameAutoCohorts (mergeSmallCohorts groups profiles (MinCohortSize opts)) profiles.

Definition cohort_cmp : Cohort -> Cohort -> comparison :=
  cmp_lex (cmp_on co_Source String.compare) (cmp_on co_Name String.compare).

Definition finalize (cohorts : list Cohort) : list Cohort :=
  isort (less_of cohort_cmp)
    (map (fun c => {| co_Name := co_Name c; co_Source := co_Source c; co_Clusters := sort_strings (co_Clusters c) |}) cohorts).

Definition or_default (n d : nat) : nat := if n =? 0 then d else n.

Definition Assign (profiles : list ClusterProfile) (opts0 : Options) : list Cohort :=
  let opts := {| MinClusters := or_default (MinClusters opts0) defaultMinClusters;
                 MinCohortSize := or_default (MinCohortSize opts0) defaultMinCohortSize;
                 MaxCohorts := or_default (MaxCohorts opts0) defaultMaxCohorts |} in
  let '(tagged, untagged) := splitByTag profiles in
  let cohorts := taggedCohorts tagged in
  if length untagged =? 0 then finalize cohorts
  else if length untagged <? MinClusters opts then
    finalize (cohorts ++ [{| co_Name := "fleet"; co_Source := SourceFleet; co_Clusters := map cp_Name untagged |}])
  else finalize (cohorts ++ autoCohorts untagged opts).

End MapOrder.

(** ** Lengths *)

Lemma number_groups_length (groups : list nat) acc :
  length (snd (fold_left number_step groups acc)) = length (snd acc) + length groups.
Proof.
  revert acc. induction groups as [|g groups IH]; intros [ids out]; simpl; [lia|].
  rewrite IH. destruct (ids !! g); simpl; rewrite length_app; simpl; lia.
Qed.

Lemma renumber_length groups : length (renumber groups) = length groups.
Proof. unfold renumber. by rewrite number_groups_length. Qed.

Lemma agglomerate_length profiles maxK : length (agglomerate profiles maxK) = length profiles.
Proof.
  unfold agglomerate. destruct (Nat.eqb_spec (length profiles) 0) as [->|]; [done|].
  destruct (Nat.eqb_spec (length profiles) 1) as [->|]; [done|].
  unfold cutDendrogram. destruct (_ || _); [apply repeat_length|].
  by rewrite renumber_length, length_map, length_seq.
Qed.

Lemma fold_small_length order fuel profiles minSize groups counts :
  length (fold_small order fuel profiles minSize groups counts) = length groups.
Proof.
  revert groups counts. induction fuel as [|fuel IH]; intros groups counts; [done|]. simpl.
  destruct (smallest_group _ _ _); [|done]. destruct (_ <=? 1); [done|].
  destruct (closestGroup _ _ _); [|done]. by rewrite IH, length_map.
Qed.

Lemma mergeSmall_length order groups profiles minSize :
  length (mergeSmallCohorts order groups profiles minSize) = length groups.
Proof.
  unfold mergeSmallCohorts. destruct (_ <=? 1); [done|]. by rewrite renumber_length, fold_small_length.
Qed.

(** ** Members *)

Abbreviation members cohorts := (concat (map co_Clusters cohorts)).

Lemma finalize_members cohorts : members (finalize cohorts) ≡ₚ members cohorts.
Proof.
  unfold finalize. rewrite (concat_perm _ (map co_Clusters (map (fun c =>
    {| co_Name := co_Name c; co_Source := co_Source c; co_Clusters := sort_strings (co_Clusters c) |}) cohorts)))
    by apply Permutation_map, isort_perm.
  rewrite map_map. simpl. apply concat_map_perm. intros c. apply sort_strings_perm.
Qed.

Lemma taggedCohorts_members profiles : members (taggedCohorts profiles) ≡ₚ map cp_Name profiles.
Proof.
  unfold taggedCohorts. rewrite map_map. simpl.
  rewrite (file_under_perm (map (fun p => (cp_Tag p, cp_Name p)) profiles)), map_map. done.
Qed.

Lemma imap_clusters (g : nat -> list string -> Cohort) buckets : (forall i b, co_Clusters (g i b) = b) ->
  map co_Clusters (imap g buckets) = buckets.
Proof.
  revert g. induction buckets as [|b l IH]; intros g Hg; [done|]. simpl. rewrite Hg. f_equal. apply IH. intros. apply Hg.
Qed.

Lemma nameAutoCohorts_members groups profiles : length groups = length profiles ->
  members (nameAutoCohorts groups profiles) ≡ₚ map cp_Name profiles.
Proof.
  intros Hl. unfold nameAutoCohorts. rewrite imap_clusters by done.
  rewrite (concat_perm _ _ (isort_perm _ _)).
  rewrite (concat_map_perm _ snd) by (intros; apply sort_strings_perm).
  rewrite file_under_perm. rewrite snd_zip by (rewrite length_map; lia). done.
Qed.

(** ** Keys: a cohort is told apart by its source and name *)

Definition cohort_key (c : Cohort) : Source * string := (co_Source c, co_Name c).

Lemma finalize_keys cohorts : map cohort_key (finalize cohorts) ≡ₚ map cohort_key cohorts.
Proof. unfold finalize. rewrite (isort_perm _ _), map_map. done. Qed.

Lemma auto_name_inj i j : ("auto-" ++ itoa (Z.of_nat (S i)))%string = ("auto-" ++ itoa (Z.of_nat (S j)))%string -> i = j.
Proof.
  intros E. injection E as E.
  change (N_to_dec (Npos (Pos.of_succ_nat i)) = N_to_dec (Npos (Pos.of_succ_nat j))) in E.
  apply N_to_dec_inj in E. injection E as E. apply (f_equal Pos.to_nat) in E. rewrite !SuccNat2Pos.id_succ in E. by injection E.
Qed.

Lemma auto_keys (groups : list nat) (profiles : list ClusterProfile) :
  NoDup (map cohort_key (nameAutoCohorts groups profiles)) /\
  Forall (fun c => co_Source c = SourceAuto) (nameAutoCohorts groups profiles).
Proof.
  unfold nameAutoCohorts. set (buckets := isort _ _). clearbody buckets. split.
  - apply NoDup_alt. intros i j k. rewrite !list_lookup_fmap, !list_lookup_imap.
    destruct (buckets !! i), (buckets !! j); simpl; intros Hi Hj; try done.
    apply (auto_name_inj i j). unfold cohort_key in *. simpl in *. congruence.
  - apply Forall_lookup. intros i c Hi. rewrite list_lookup_imap in Hi. destruct (buckets !! i); [|done].
    by injection Hi as <-.
Qed.

Lemma tagged_keys profiles :
  NoDup (map cohort_key (taggedCohorts profiles)) /\
  Forall (fun c => co_Source c = SourceTagged) (taggedCohorts profiles).
Proof.
  unfold taggedCohorts. rewrite map_map. split.
  - unfold cohort_key. simpl. rewrite <- (map_map fst (fun t => (SourceTagged, t)) (map_to_list _)).
    assert (Inj (=) (=) (fun t : string => (SourceTagged, t))) by (by intros ? ? [=]).
    apply (NoDup_fmap_2 (fun t : string => (SourceTagged, t))), NoDup_fst_map_to_list.
  - apply Forall_map, List.Forall_forall. done.
Qed.

Lemma keys_app (l1 l2 : list Cohort) : NoDup (map cohort_key l1) -> NoDup (map cohort_key l2) ->
  (forall c d, c ∈ l1 -> d ∈ l2 -> co_Source c <> co_Source d) -> NoDup (map cohort_key (l1 ++ l2)).
Proof.
  intros H1 H2 Hd. rewrite map_app. apply NoDup_app. split_and!; [done| |done].
  intros k (c & -> & Hc)%list_elem_of_fmap (d & E & Hd')%list_elem_of_fmap.
  apply (Hd c d); [done..|]. by injection E.
Qed.

(** The members of the cohort of a tag. *)
Lemma taggedCohorts_of profiles c : c ∈ taggedCohorts profiles ->
  co_Clusters c = map cp_Name (List.filter (fun p => String.eqb (cp_Tag p) (co_Name c)) profiles).
Proof.
  unfold taggedCohorts. intros ([t ms] & -> & Hm%elem_of_map_to_list)%list_elem_of_fmap. simpl.
  rewrite file_under_lookup in Hm. destruct (omap _ _) as [|v vs] eqn:E; [done|]. injection Hm as <-. rewrite <- E.
  clear. induction profiles as [|p l IH]; [done|]. simpl.
  destruct (decide (cp_Tag p = t)) as [Ht|Ht]; [apply String.eqb_eq in Ht as ->|apply String.eqb_neq in Ht as ->];
    [simpl; f_equal; exact IH|exact IH].
Qed.

(** [Assign] finalizes the tagged cohorts and the rest, which are not tagged. *)
Lemma assign_shape order profiles opts : exists rest,
  Assign order profiles opts = finalize (taggedCohorts (fst (splitByTag profiles)) ++ rest) /\
  members rest ≡ₚ map cp_Name (snd (splitByTag profiles)) /\
  NoDup (map cohort_key rest) /\ Forall (fun c => co_Source c <> SourceTagged) rest.
Proof.
  unfold Assign. destruct (splitByTag profiles) as [tagged untagged]. simpl fst. simpl snd. cbv zeta.
  destruct (Nat.eqb_spec (length untagged) 0) as [->%length_zero_iff_nil|_].
  - exists []. rewrite app_nil_r. split_and!; try done; constructor.
  - destruct (_ <? _); (eexists; split; [reflexivity|]); split_and!.
    + simpl. by rewrite app_nil_r.
    + apply NoDup_singleton.
    + by repeat constructor.
    + unfold autoCohorts. apply nameAutoCohorts_members. by rewrite mergeSmall_length, agglomerate_length.
    + apply auto_keys.
    + eapply Forall_impl; [apply auto_keys|]. intros c ->. done.
Qed.

(** The cohorts of the tagged clusters have a name, so filtering all clusters by it
    finds the same ones. *)
Lemma tagged_filter profiles t : t ∈ map cp_Tag (fst (splitByTag profiles)) ->
  List.filter (fun p => String.eqb (cp_Tag p) t) (fst (splitByTag profiles)) =
  List.filter (fun p => String.eqb (cp_Tag p) t) profiles.
Proof.
  unfold splitByTag. simpl. intros (p0 & -> & [_ H0%negb_true_iff%String.eqb_neq]%list_elem_of_In%filter_In)%list_elem_of_fmap.
  induction profiles as [|p l IH]; [done|]. simpl.
  destruct (String.eqb_spec (cp_Tag p) ""); simpl; [|by rewrite IH].
  destruct (String.eqb_spec (cp_Tag p) (cp_Tag p0)); [congruence|done].
Qed.

Lemma taggedCohorts_name profiles c : c ∈ taggedCohorts profiles -> co_Name c ∈ map cp_Tag profiles.
Proof.
  unfold taggedCohorts. intros ([t ms] & -> & Hm%elem_of_map_to_list%elem_of_dom_2)%list_elem_of_fmap. simpl.
  rewrite file_under_dom, elem_of_list_to_set, map_map in Hm. done.
Qed.

(** ** Group sizes *)

Definition count_of (g : nat) (groups : list nat) : nat := length (List.filter (Nat.eqb g) groups).

Lemma count_of_snoc g groups x : count_of g (groups ++ [x]) = count_of g groups + if g =? x then 1 else 0.
Proof. unfold count_of. rewrite List.filter_app, length_app. simpl. by destruct (g =? x). Qed.

Lemma count_of_pos g groups : 0 < count_of g groups <-> g ∈ groups.
Proof.
  unfold count_of. split.
  - intros H. destruct (List.filter (Nat.eqb g) groups) as [|x l] eqn:E; [simpl in H; lia|].
    assert (In x (x :: l)) as Hx by (by left). rewrite <- E in Hx.
    apply filter_In in Hx as [Hx ->%Nat.eqb_eq]. by apply list_elem_of_In.
  - intros Hg. destruct (List.filter (Nat.eqb g) groups) as [|x l] eqn:E; [|simpl; lia].
    assert (In g []) as []. rewrite <- E. apply filter_In. split; [by apply list_elem_of_In|apply Nat.eqb_refl].
Qed.

Lemma count_groups_lookup groups g :
  count_groups groups !! g = if count_of g groups =? 0 then None else Some (count_of g groups).
Proof.
  unfold count_groups. induction groups as [|x l IH] using rev_ind; [apply lookup_empty|].
  rewrite fold_left_app, count_of_snoc. simpl. destruct (Nat.eqb_spec g x) as [->|Hne].
  - rewrite lookup_insert_eq, IH. destruct (Nat.eqb_spec (count_of x l) 0) as [->|]; simpl; [done|].
    destruct (Nat.eqb_spec (count_of x l + 1) 0); [lia|]. f_equal. lia.
  - by rewrite lookup_insert_ne, IH, Nat.add_0_r by done.
Qed.

Lemma count_groups_dom groups : dom (count_groups groups) = list_to_set (C := gset nat) groups.
Proof.
  apply set_eq. intros g. rewrite elem_of_dom, elem_of_list_to_set, <- count_of_pos, count_groups_lookup.
  destruct (Nat.eqb_spec (count_of g groups) 0); split; intros H; [by destruct H|lia|lia|done].
Qed.

Lemma count_of_map g groups smallest target : target <> smallest ->
  count_of g (map (fun x => if x =? smallest then target else x) groups) =
  if g =? smallest then 0 else if g =? target then count_of target groups + count_of smallest groups
  else count_of g groups.
Proof.
  intros Hts. induction groups as [|x l IH] using rev_ind.
  - unfold count_of. simpl. by destruct (g =? smallest), (g =? target).
  - rewrite map_app. simpl map. rewrite (count_of_snoc g (map _ l)), IH, !count_of_snoc.
    destruct (Nat.eqb_spec x smallest), (Nat.eqb_spec g smallest), (Nat.eqb_spec g target); subst;
      repeat match goal with |- context [?a =? ?b] => destruct (Nat.eqb_spec a b) end; subst; lia || congruence.
Qed.

(** Folding a group into another keeps the counts in step with the groups. *)
Lemma count_groups_fold groups smallest target : target ∈ groups -> target <> smallest ->
  count_groups (map (fun x => if x =? smallest then target else x) groups) =
  delete smallest (<[target := default 0 (count_groups groups !! target) + default 0 (count_groups groups !! smallest)]>
    (count_groups groups)).
Proof.
  intros Ht Hts. apply map_eq. intros g. rewrite count_groups_lookup, count_of_map by done.
  destruct (Nat.eqb_spec g smallest) as [->|Hg]; [by rewrite lookup_delete_eq|].
  rewrite lookup_delete_ne by done. destruct (Nat.eqb_spec g target) as [->|Hgt].
  - rewrite lookup_insert_eq, !count_groups_lookup. apply count_of_pos in Ht.
    destruct (Nat.eqb_spec (count_of target groups + count_of smallest groups) 0); [lia|].
    destruct (Nat.eqb_spec (count_of target groups) 0); [lia|].
    destruct (Nat.eqb_spec (count_of smallest groups) 0) as [->|]; done.
  - by rewrite lookup_insert_ne, count_groups_lookup by done.
Qed.

(** ** Choosing what to fold *)

Lemma smallest_group_spec order minSize counts : order counts ≡ₚ map_to_list counts ->
  match smallest_group order minSize counts with
  | None => forall g c, counts !! g = Some c -> minSize <= c
  | Some g => exists c, counts !! g = Some c
  end.
Proof.
  intros Hp. unfold smallest_group.
  assert (forall g c, (g, c) ∈ order counts <-> counts !! g = Some c) as Hin.
  { intros g c. rewrite Hp. apply elem_of_map_to_list. }
  enough (forall l acc,
    match fst (fold_left (fun (acc : option nat * nat) (gc : nat * nat) =>
      if snd gc <? snd acc then (Some (fst gc), snd gc) else acc) l acc) with
    | None => fst acc = None /\ forall g c, (g, c) ∈ l -> snd acc <= c
    | Some g => fst acc = Some g \/ exists c, (g, c) ∈ l
    end) as H.
  { specialize (H (order counts) (None, minSize)). destruct (fst _) as [g|].
    - destruct H as [|[c Hc]]; [done|]. exists c. by apply Hin.
    - intros g c Hg. apply (proj2 H g). by apply Hin. }
  induction l as [|[g c] l IH]; intros [best size]; simpl.
  - destruct best; [by left|]. split; [done|]. by intros g c Hg%elem_of_nil.
  - destruct (Nat.ltb_spec c size) as [Hlt|Hge].
    + specialize (IH (Some g, c)). destruct (fst _) as [g'|]; simpl in IH; [|by destruct IH].
      right. destruct IH as [[= <-]|[c' Hc]]; [exists c; left|exists c'; by right].
    + specialize (IH (best, size)). destruct (fst _) as [g'|]; simpl in IH.
      * destruct IH as [->|[c' Hc]]; [by left|right; exists c'; by right].
      * destruct IH as [-> IH]. split; [done|]. intros g' c' [[= -> ->]|Hc]%elem_of_cons; [done|by apply (IH g')].
Qed.

(** Distances the search can compare: below [math.MaxFloat64]. *)
Definition comparable (profiles : list ClusterProfile) : Prop :=
  forall p q, p ∈ profiles -> q ∈ profiles -> f_ltb (euclidean (cp_Features p) (cp_Features q)) MaxFloat64 = true.

Definition pick_closer (acc : option nat * float64) (dt : float64 * nat) : option nat * float64 :=
  if f_ltb (fst dt) (snd acc) then (Some (snd dt), fst dt) else acc.

Lemma pick_closer_spec l acc :
  match fst (fold_left pick_closer l acc) with
  | Some t => fst acc = Some t \/ exists d, (d, t) ∈ l
  | None => fst acc = None /\ forall d t, (d, t) ∈ l -> f_ltb d (snd acc) = false
  end.
Proof.
  revert acc. induction l as [|[d t] l IH]; intros [best dist]; simpl.
  - destruct best; [by left|]. split; [done|]. by intros d t H%elem_of_nil.
  - unfold pick_closer at 2. simpl. destruct (f_ltb d dist) eqn:E.
    + specialize (IH (Some t, d)). destruct (fst _) as [u|]; simpl in IH; [|by destruct IH].
      right. destruct IH as [[= <-]|[d' Hd]]; [exists d; left|exists d'; by right].
    + specialize (IH (best, dist)). destruct (fst _) as [u|]; simpl in IH.
      * destruct IH as [->|[d' Hd]]; [by left|right; exists d'; by right].
      * destruct IH as [-> IH]. split; [done|]. intros d' t' [[= -> ->]|H]%elem_of_cons; [done|by apply (IH d' t')].
Qed.

(** The two nested loops visit every pair of a member and an outsider. *)
Lemma nested_fold {I J} (g : I -> J -> float64 * nat) (mine : list I) (others : list J) acc :
  fold_left (fun acc i => fold_left (fun acc j => pick_closer acc (g i j)) others acc) mine acc =
  fold_left pick_closer (flat_map (fun i => map (g i) others) mine) acc.
Proof.
  revert acc. induction mine as [|i mine IH]; intros acc; [done|]. simpl. rewrite fold_left_app, IH. f_equal.
  clear. revert acc. induction others as [|j others IH]; intros acc; [done|]. apply IH.
Qed.

Lemma closestGroup_spec profiles groups small : length groups = length profiles ->
  match closestGroup profiles groups small with
  | Some t => t ∈ groups /\ t <> small
  | None => comparable profiles -> small ∈ groups -> exists g, forall x, x ∈ groups -> x = g
  end.
Proof.
  intros Hl. unfold closestGroup. cbv zeta. set (items := zip (map cp_Features profiles) groups).
  set (others := List.filter (fun p => negb (snd p =? small)) items).
  set (mine := List.filter (fun p => snd p =? small) items).
  assert (forall p, p ∈ items -> snd p ∈ groups /\ exists q, q ∈ profiles /\ fst p = cp_Features q) as Hitems.
  { intros [v g] Hp. split; [by apply elem_of_zip_r in Hp|].
    apply elem_of_zip_l, list_elem_of_fmap in Hp as (q & -> & Hq). by exists q. }
  assert (forall g, g ∈ groups -> exists v, (v, g) ∈ items) as Hcover.
  { intros g [i Hi]%list_elem_of_lookup. destruct (lookup_lt_is_Some_2 (map cp_Features profiles) i) as [v Hv].
    - rewrite length_map, <- Hl. by eapply lookup_lt_Some.
    - exists v. apply list_elem_of_lookup. exists i. unfold items. rewrite lookup_zip_with, Hv. simpl. by rewrite Hi. }
  change (fold_left _ mine _) with (fold_left (fun acc i => fold_left (fun acc j =>
    pick_closer acc (euclidean (fst i) (fst j), snd j)) others acc) mine (None, MaxFloat64)).
  rewrite (nested_fold (fun i j => (euclidean (fst i) (fst j), snd j))).
  pose proof (pick_closer_spec (flat_map (fun i => map (fun j => (euclidean (fst i) (fst j), snd j)) others) mine)
    (None, MaxFloat64)) as H. destruct (fst _) as [t|].
  - destruct H as [|[d Hd]]; [done|]. apply list_elem_of_In, in_flat_map in Hd as (i & _ & Hj).
    apply list_elem_of_In, list_elem_of_fmap in Hj as (j & [= _ ->] & Hj).
    apply list_elem_of_In, filter_In in Hj as [Hj Hn%negb_true_iff%Nat.eqb_neq].
    split; [by apply Hitems, list_elem_of_In|done].
  - intros Hcomp Hs. destruct (Hcover small Hs) as [v Hv]. exists small. intros x Hx.
    destruct (decide (x = small)) as [|Hne]; [done|]. exfalso. destruct (Hcover x Hx) as [w Hw].
    destruct H as [_ H]. specialize (H (euclidean v w) x). cbn [snd] in H.
    destruct (Hitems _ Hv) as (_ & p & Hp & Ep), (Hitems _ Hw) as (_ & q & Hq & Eq). simpl in Ep, Eq. subst v w.
    rewrite (Hcomp p q) in H by done. enough (true = false) by done. apply H.
    apply list_elem_of_In, in_flat_map. exists (cp_Features p, small). split.
    + apply filter_In. split; [by apply list_elem_of_In|apply Nat.eqb_refl].
    + apply list_elem_of_In, list_elem_of_fmap. exists (cp_Features q, x). split; [done|].
      apply list_elem_of_In, filter_In. split; [by apply list_elem_of_In|]. simpl. by apply negb_true_iff, Nat.eqb_neq.
Qed.

(** ** The folding loop ends with every group large enough, or one group *)

Definition large_enough (minSize : nat) (groups : list nat) : Prop :=
  (forall g, g ∈ groups -> minSize <= count_of g groups) \/ exists g, forall x, x ∈ groups -> x = g.

Lemma one_group groups : size (count_groups groups) <= 1 -> exists g, forall x, x ∈ groups -> x = g.
Proof.
  rewrite <- size_dom, count_groups_dom. intros Hs. destruct groups as [|g l]; [exists 0; by intros x Hx%elem_of_nil|].
  exists g. intros x Hx. destruct (decide (x = g)) as [|Hne]; [done|]. exfalso.
  assert (({[x; g]} : gset nat) ⊆ list_to_set (g :: l)) as Hsub by (intros y Hy; set_solver).
  apply subseteq_size in Hsub. rewrite size_union, !size_singleton in Hsub by set_solver. lia.
Qed.

Lemma fold_small_spec order (Horder : forall m, order m ≡ₚ map_to_list m) profiles minSize :
  comparable profiles -> forall fuel groups, length groups = length profiles ->
  size (count_groups groups) <= fuel ->
  let out := fold_small order fuel profiles minSize groups (count_groups groups) in
  large_enough minSize out /\ (list_to_set out : gset nat) ⊆ list_to_set groups.
Proof.
  intros Hcomp fuel. induction fuel as [|fuel IH]; intros groups Hl Hf.
  { simpl. split; [|done]. right. apply one_group. lia. }
  cbn [fold_small]. pose proof (smallest_group_spec order minSize (count_groups groups) (Horder _)) as Hs.
  destruct (smallest_group _ _ _) as [small|].
  2:{ split; [|done]. left. intros g Hg%count_of_pos. apply (Hs g). rewrite count_groups_lookup.
      by destruct (Nat.eqb_spec (count_of g groups) 0); [lia|]. }
  destruct (Nat.leb_spec (size (count_groups groups)) 1) as [H1|H1]; [split; [right; by apply one_group|done]|].
  assert (small ∈ groups) as Hin.
  { destruct Hs as [c Hc%elem_of_dom_2]. rewrite count_groups_dom in Hc. set_solver. }
  pose proof (closestGroup_spec profiles groups small Hl) as Hcl. destruct (closestGroup _ _ _) as [target|].
  2:{ split; [right; by apply Hcl|done]. }
  destruct Hcl as [Ht Hne]. cbv zeta. rewrite <- count_groups_fold by done.
  set (groups' := map _ groups).
  assert ((list_to_set groups' : gset nat) ⊆ list_to_set groups) as Hsub.
  { intros g. rewrite !elem_of_list_to_set. unfold groups'. intros (x & -> & Hx)%list_elem_of_fmap.
    by destruct (x =? small). }
  assert (small ∉ (list_to_set groups' : gset nat)) as Hgone.
  { rewrite elem_of_list_to_set. intros (x & E & Hx)%list_elem_of_fmap. destruct (Nat.eqb_spec x small); congruence. }
  destruct (IH groups') as [I1 I2].
  - unfold groups'. by rewrite length_map.
  - enough (size (count_groups groups') < size (count_groups groups)) by lia.
    rewrite <- !size_dom, !count_groups_dom. apply subset_size. split; [done|].
    intros Hsup. apply Hgone, Hsup. by apply elem_of_list_to_set.
  - split; [done|]. by etrans.
Qed.

(** ** Renumbering keeps the groups *)

Lemma renumber_map groups : exists f, renumber groups = map f groups /\
  forall x y, x ∈ groups -> y ∈ groups -> f x = f y -> x = y.
Proof.
  enough (exists ids : gmap nat nat,
    fold_left number_step groups (∅, []) = (ids, map (fun g => default 0 (ids !! g)) groups) /\
    (forall g, g ∈ groups <-> is_Some (ids !! g)) /\
    (forall g i, ids !! g = Some i -> i < size ids) /\
    (forall g h i, ids !! g = Some i -> ids !! h = Some i -> g = h)) as (ids & E & Hin & _ & Hinj).
  { exists (fun g => default 0 (ids !! g)). unfold renumber. rewrite E. split; [done|].
    intros x y [i Hi]%Hin [j Hj]%Hin. rewrite Hi, Hj. simpl. intros ->. by apply (Hinj _ _ j). }
  induction groups as [|g l (ids & E & Hin & Hlt & Hinj)] using rev_ind.
  { exists ∅. split_and!; try done. intros g. rewrite lookup_empty. split; [by intros H%elem_of_nil|by intros [? [=]]]. }
  rewrite fold_left_app, E. simpl. destruct (ids !! g) as [i|] eqn:Eg.
  - exists ids. rewrite map_app. simpl. rewrite Eg. split_and!; try done. intros h. rewrite elem_of_app, list_elem_of_singleton, Hin.
    split; [intros [?| ->]; [done|by rewrite Eg]|by left].
  - exists (<[g := size ids]> ids). rewrite map_app. simpl. rewrite lookup_insert_eq. simpl. split_and!.
    + f_equal. f_equal. apply map_ext_in. intros h Hh%list_elem_of_In%Hin.
      rewrite lookup_insert_ne; [done|]. intros ->. rewrite Eg in Hh. by destruct Hh.
    + intros h. rewrite elem_of_app, list_elem_of_singleton, Hin, lookup_insert_is_Some'. naive_solver.
    + intros h i. rewrite map_size_insert_None, lookup_insert_Some by done. intros [[_ <-]|[_ Hh%Hlt]]; lia.
    + intros h h' i. rewrite !lookup_insert_Some. intros [[<- <-]|[? Hh]] [[<- Hi]|[? Hh']]; try done.
      * apply Hlt in Hh'. lia.
      * subst i. apply Hlt in Hh. lia.
      * by apply (Hinj _ _ i).
Qed.

Lemma count_of_inj f groups g : (forall x y, x ∈ groups -> y ∈ groups -> f x = f y -> x = y) -> g ∈ groups ->
  count_of (f g) (map f groups) = count_of g groups.
Proof.
  intros Hinj Hg. unfold count_of. rewrite filter_map_comm, length_map. f_equal. apply filter_ext_in.
  intros x Hx%list_elem_of_In. destruct (Nat.eqb_spec g x) as [->|Hne]; [apply Nat.eqb_refl|].
  apply Nat.eqb_neq. intros E. apply Hne. by apply Hinj.
Qed.

Lemma renumber_large minSize groups : large_enough minSize groups -> large_enough minSize (renumber groups).
Proof.
  destruct (renumber_map groups) as (f & -> & Hinj). intros [H|[g H]].
  - left. intros y (x & -> & Hx)%list_elem_of_fmap. rewrite count_of_inj by done. by apply H.
  - right. exists (f g). intros y (x & -> & Hx)%list_elem_of_fmap. f_equal. by apply H.
Qed.

Definition groups_in (groups : list nat) : nat := size (list_to_set groups : gset nat).

Lemma groups_in_map f groups : groups_in (map f groups) <= groups_in groups.
Proof.
  unfold groups_in. induction groups as [|x l IH]; [done|]. cbn [map list_to_set].
  destruct (decide (x ∈ (list_to_set l : gset nat))) as [Hx|Hx].
  - assert (f x ∈ (list_to_set (map f l) : gset nat)) as Hfx.
    { apply elem_of_list_to_set in Hx. apply elem_of_list_to_set, list_elem_of_fmap. by exists x. }
    replace ({[f x]} ∪ list_to_set (map f l) : gset nat) with (list_to_set (map f l) : gset nat) by set_solver.
    replace ({[x]} ∪ list_to_set l : gset nat) with (list_to_set l : gset nat) by set_solver. done.
  - rewrite (size_union {[x]}), size_singleton by set_solver.
    pose proof (size_union_alt ({[f x]} : gset nat) (list_to_set (map f l))) as ->. rewrite size_singleton.
    assert (size (list_to_set (map f l) ∖ {[f x]} : gset nat) <= size (list_to_set (map f l) : gset nat))
      by (apply subseteq_size; set_solver). lia.
Qed.

Lemma renumber_groups_in groups : groups_in (renumber groups) <= groups_in groups.
Proof. destruct (renumber_map groups) as (f & -> & _). apply groups_in_map. Qed.

(** ** Cohorts of groups *)

Lemma nameAutoCohorts_sizes groups profiles : length groups = length profiles ->
  length (nameAutoCohorts groups profiles) = groups_in groups /\
  forall c, c ∈ nameAutoCohorts groups profiles -> exists g, g ∈ groups /\ length (co_Clusters c) = count_of g groups.
Proof.
  intros Hl. unfold nameAutoCohorts. set (filed := file_under (zip groups (map cp_Name profiles))). split.
  - rewrite length_imap, isort_length, length_map. rewrite length_map_to_list, <- size_dom. unfold filed, groups_in.
    rewrite file_under_dom. do 2 f_equal. apply fst_zip. rewrite length_map. lia.
  - intros c (i & b & -> & Hb)%elem_of_lookup_imap. cbn [co_Clusters].
    apply list_elem_of_lookup_2, isort_elem_of, list_elem_of_fmap in Hb as ([g ms] & -> & Hm%elem_of_map_to_list).
    exists g. assert (g ∈ dom filed) as Hg by (by apply elem_of_dom_2 in Hm).
    unfold filed in Hg. rewrite file_under_dom, fst_zip in Hg by (rewrite length_map; lia).
    split; [by apply elem_of_list_to_set in Hg|]. cbn [snd]. rewrite (Permutation_length (sort_strings_perm _)).
    unfold filed in Hm. rewrite file_under_lookup in Hm. destruct (omap _ _) as [|v vs] eqn:E; [done|]. injection Hm as <-.
    rewrite <- E. clear -Hl. revert profiles Hl. induction groups as [|x groups IH]; intros [|p profiles] Hl; try done.
    unfold count_of. simpl. rewrite (Nat.eqb_sym g x). destruct (decide (x = g)) as [Hx|Hx].
    + apply Nat.eqb_eq in Hx as ->. simpl. f_equal. apply IH. by injection Hl.
    + apply Nat.eqb_neq in Hx as ->. apply IH. by injection Hl.
Qed.

(** ** The dendrogram: every merge joins two live clusters *)

Fixpoint live_merges (id : nat) (live : gset nat) (ms : list merge) : Prop :=
  match ms with
  | [] => True
  | m :: ms' => m_a m ∈ live /\ m_b m ∈ live /\ m_a m <> m_b m /\
      live_merges (S id) ({[id]} ∪ (live ∖ {[m_a m; m_b m]})) ms'
  end.

Lemma closest_pair_live s a b dist : closest_pair s = (Some (a, b), dist) ->
  is_active s a = true /\ is_active s b = true /\ a < b.
Proof.
  unfold closest_pair. set (ok := fun best : best_pair => forall x y, fst best = Some (x, y) ->
    is_active s x = true /\ is_active s y = true /\ x < y).
  enough (forall l best, ok best -> ok (fold_left (fun best i =>
    if is_active s i then
      fold_left (fun best (jv : nat * float64) =>
        let (j, v) := jv in
        if (j <=? i) || negb (is_active s j) then best
        else if improves best i j v then (Some (i, j), v) else best)
        (map_to_list (default ∅ (lk_d s !! i))) best
    else best) l best)) as H.
  { intros E. eapply (H _ (None, MaxFloat64)); [done|]. by rewrite E. }
  induction l as [|i l IH]; intros best Hb; simpl; [done|]. apply IH. destruct (is_active s i) eqn:Ei; [|done].
  revert best Hb. induction (map_to_list _) as [|[j v] l' IHl]; intros best Hb; simpl; [done|]. apply IHl.
  destruct (Nat.leb_spec j i); simpl; [done|]. destruct (is_active s j) eqn:Ej; simpl; [|done].
  destruct (improves _ _ _ _); [|done]. by intros x y [= <- <-].
Qed.

Lemma link_loop_live n fuel step s (live : gset nat) : step + fuel <= n - 1 ->
  length (lk_active s) = 2 * n - 1 -> (forall i, is_active s i = true <-> i ∈ live) ->
  (forall i, i ∈ live -> i < n + step) -> live_merges (n + step) live (link_loop n step fuel s).
Proof.
  revert step s live. induction fuel as [|fuel IH]; intros step s live Hf Hl Hlive Hlt; [done|]. simpl.
  unfold link_step. destruct (closest_pair s) as [[[a b]|] dist] eqn:E; [|done].
  apply closest_pair_live in E as (Ha & Hb & Hab). apply Hlive in Ha, Hb. simpl.
  split_and!; [done|done|lia|]. replace (S (n + step)) with (n + S step) by lia. pose proof (Hlt a Ha). pose proof (Hlt b Hb).
  apply IH; simpl; [lia|by rewrite !length_insert| |].
  - intros i. unfold is_active. simpl. rewrite nth_lookup, elem_of_union, elem_of_singleton, elem_of_difference,
      elem_of_union, !elem_of_singleton, <- Hlive. unfold is_active. rewrite nth_lookup.
    destruct (decide (i = n + step)) as [->|H1]; [rewrite list_lookup_insert_eq by (rewrite !length_insert; lia); naive_solver|].
    rewrite list_lookup_insert_ne by done.
    destruct (decide (i = b)) as [->|H2]; [rewrite list_lookup_insert_eq by (rewrite length_insert; lia); naive_solver|].
    rewrite list_lookup_insert_ne by done.
    destruct (decide (i = a)) as [->|H3]; [rewrite list_lookup_insert_eq by lia; naive_solver|].
    rewrite list_lookup_insert_ne by done. naive_solver.
  - intros i [->%elem_of_singleton|[Hi _]%elem_of_difference]%elem_of_union; [lia|]. specialize (Hlt i Hi). lia.
Qed.

Lemma dendrogram_live n dist : live_merges n (set_seq 0 n) (buildDendrogram n dist).
Proof.
  unfold buildDendrogram. replace n with (n + 0) at 1 by lia. apply link_loop_live.
  - lia.
  - unfold link_init. simpl. rewrite length_app, !repeat_length. lia.
  - intros i. unfold is_active, link_init. simpl. rewrite elem_of_set_seq.
    destruct (Nat.lt_ge_cases i n) as [Hi|Hi].
    + rewrite app_nth1, nth_repeat_lt by (rewrite ?repeat_length; lia). split; [lia|done].
    + rewrite app_nth2, nth_repeat by (rewrite repeat_length; lia). split; [done|lia].
  - intros i. rewrite elem_of_set_seq. lia.
Qed.

(** ** The cut: parents lead to the live clusters *)

Inductive rooted (parent : list nat) : nat -> nat -> Prop :=
| rooted_self x : parent !! x = Some x -> rooted parent x x
| rooted_up x p r : parent !! x = Some p -> x < p -> rooted parent p r -> rooted parent x r.

(** Parents are later ids, so [find] has fuel enough to reach the root. *)
Lemma find_rooted parent x r : rooted parent x r -> forall fuel, length parent - x <= fuel -> find_root fuel parent x = r.
Proof.
  induction 1 as [x Hx|x p r Hp Hlt _ IH]; intros fuel Hf; pose proof (lookup_lt_Some _ _ _ ltac:(eassumption));
    (destruct fuel as [|fuel]; [lia|]); simpl; rewrite nth_lookup.
  - rewrite Hx. simpl. by rewrite Nat.eqb_refl.
  - rewrite Hp. simpl. destruct (Nat.eqb_spec p x); [lia|]. apply IH. lia.
Qed.

(** What replaying the merges up to [id] maintains. *)
Record cut_ok (n id : nat) (live : gset nat) (parent : list nat) : Prop := {
  cut_length : length parent = 2 * n - 1;
  cut_live : forall i, i ∈ live -> i < id /\ parent !! i = Some i;
  cut_later : forall i, id <= i < 2 * n - 1 -> parent !! i = Some i;
  cut_rooted : forall x, x < n -> exists r, r ∈ live /\ rooted parent x r
}.

Definition join_parents (id : nat) (m : merge) (parent : list nat) : list nat :=
  <[m_b m := id]> (<[m_a m := id]> parent).

Lemma join_rooted n id live parent m x r : cut_ok n id live parent -> id < 2 * n - 1 ->
  m_a m ∈ live -> m_b m ∈ live -> r ∈ live -> rooted parent x r ->
  rooted (join_parents id m parent) x (if decide (r = m_a m \/ r = m_b m) then id else r).
Proof.
  intros [Hlen Hlive Hlater _] Hid Ha Hb Hr Hx. destruct (Hlive _ Ha) as [La Pa], (Hlive _ Hb) as [Lb Pb].
  assert (rooted (join_parents id m parent) id id) as Hself.
  { constructor. unfold join_parents. rewrite !list_lookup_insert_ne by lia. apply Hlater. lia. }
  induction Hx as [x Hx|x p r Hp Hlt Hroot IH].
  - destruct (decide (x = m_a m \/ x = m_b m)) as [Hab|Hab].
    + apply (rooted_up _ _ id); [|by apply (Hlive x)|done]. unfold join_parents.
      destruct (decide (x = m_b m)) as [->|Hne]; [rewrite list_lookup_insert_eq by (rewrite length_insert; lia); done|].
      destruct Hab as [->|]; [|done]. rewrite list_lookup_insert_ne by done. rewrite list_lookup_insert_eq by lia. done.
    + constructor. unfold join_parents. by rewrite !list_lookup_insert_ne by naive_solver.
  - apply (rooted_up _ _ p); [|done|by apply IH]. unfold join_parents.
    assert (x <> m_a m) by (intros ->; rewrite Pa in Hp; injection Hp; lia).
    assert (x <> m_b m) by (intros ->; rewrite Pb in Hp; injection Hp; lia).
    by rewrite !list_lookup_insert_ne by done.
Qed.

Lemma join_ok n id live parent m : cut_ok n id live parent -> id < 2 * n - 1 ->
  m_a m ∈ live -> m_b m ∈ live ->
  cut_ok n (S id) ({[id]} ∪ (live ∖ {[m_a m; m_b m]})) (join_parents id m parent).
Proof.
  intros Hok Hid Ha Hb. pose proof Hok as [Hlen Hlive Hlater Hroots].
  destruct (Hlive _ Ha) as [La Pa], (Hlive _ Hb) as [Lb Pb]. split.
  - unfold join_parents. by rewrite !length_insert.
  - intros i [->%elem_of_singleton|[Hi Hne]%elem_of_difference]%elem_of_union; unfold join_parents.
    + rewrite !list_lookup_insert_ne by lia. split; [lia|]. apply Hlater. lia.
    + destruct (Hlive i Hi). rewrite !list_lookup_insert_ne by set_solver. split; [lia|done].
  - intros i Hi. unfold join_parents. rewrite !list_lookup_insert_ne by lia. apply Hlater. lia.
  - intros x Hx. destruct (Hroots x Hx) as (r & Hr & Hxr).
    pose proof (join_rooted n id live parent m x r Hok Hid Ha Hb Hr Hxr) as H.
    eexists. split; [|exact H]. destruct (decide _); set_solver.
Qed.

Lemma live_size id (live : gset nat) m : m_a m ∈ live -> m_b m ∈ live -> m_a m <> m_b m -> id ∉ live ->
  S (size ({[id]} ∪ (live ∖ {[m_a m; m_b m]}))) = size live.
Proof.
  intros Ha Hb Hab Hid. rewrite size_union, size_singleton by set_solver.
  rewrite size_difference by set_solver. rewrite size_union, !size_singleton by set_solver.
  assert (({[m_a m; m_b m]} : gset nat) ⊆ live) as Hs%subseteq_size by set_solver.
  rewrite size_union, !size_singleton in Hs by set_solver. lia.
Qed.

(** Replaying [ms] from the singletons leaves as many live clusters as points less
    merges, and every point leads to one of them. *)
Lemma replay_ok n id live ms parent : id + length ms <= 2 * n - 1 -> live_merges id live ms -> cut_ok n id live parent ->
  exists live', size live' + length ms = size live /\
    cut_ok n (id + length ms) live' (fold_left (fun parent im => join_parents (fst im) (snd im) parent)
      (zip (seq id (length ms)) ms) parent).
Proof.
  revert id live parent. induction ms as [|m ms IH]; intros id live parent Hid Hms Hok; simpl in *.
  - exists live. by rewrite !Nat.add_0_r.
  - destruct Hms as (Ha & Hb & Hab & Hms).
    destruct (IH (S id) _ (join_parents id m parent) ltac:(lia) Hms) as (live' & Hs & Hok').
    + apply join_ok; [done|lia|done..].
    + exists live'. rewrite <- (live_size id live m Ha Hb Hab), Nat.add_succ_r.
      * split; [lia|]. replace (id + S (length ms)) with (S id + length ms) by lia. exact Hok'.
      * intros Hin. apply (cut_live _ _ _ _ Hok) in Hin. lia.
Qed.

Lemma live_merges_take id live ms k : live_merges id live ms -> live_merges id live (take k ms).
Proof.
  revert id live k. induction ms as [|m ms IH]; intros id live [|k] H; simpl in *; try done.
  destruct H as (? & ? & ? & H). split_and!; [done..|by apply IH].
Qed.

Lemma merge_parents_replay n merges stop : stop <= length merges ->
  merge_parents n merges stop = fold_left (fun parent im => join_parents (fst im) (snd im) parent)
    (zip (seq n stop) (take stop merges)) (seq 0 (2 * n - 1)).
Proof.
  unfold merge_parents. induction stop as [|k IH]; intros Hk; [done|].
  rewrite !seq_S, fold_left_app, IH by lia. simpl.
  destruct (lookup_lt_is_Some_2 merges k) as [m Hm]; [lia|].
  rewrite (take_S_r _ _ _ Hm), zip_with_app by (rewrite length_seq, length_take; lia).
  rewrite fold_left_app. simpl. unfold join_parents, nth_merge. rewrite nth_lookup, Hm. done.
Qed.

Lemma seq_lookup_self k i : i < k -> seq 0 k !! i = Some i.
Proof. intros H. by rewrite lookup_seq_lt. Qed.

Lemma cut_groups merges n k : 2 <= n -> 2 <= k -> length merges = n - 1 -> live_merges n (set_seq 0 n) merges ->
  groups_in (cutDendrogram merges n k) <= k.
Proof.
  intros Hn Hk Hm Hlive. unfold cutDendrogram. destruct (Nat.leb_spec k 1), (Nat.eqb_spec (length merges) 0); try lia.
  simpl. etrans; [apply renumber_groups_in|]. set (stop := length merges - (k - 1)).
  assert (stop <= length merges) as Hstop by lia. assert (length (take stop merges) = stop) as Ht by (rewrite length_take; lia).
  assert (cut_ok n n (set_seq 0 n) (seq 0 (2 * n - 1))) as H0.
  { split.
    - apply length_seq.
    - intros i Hi%elem_of_set_seq. split; [lia|]. apply seq_lookup_self. lia.
    - intros i Hi. apply seq_lookup_self. lia.
    - intros x Hx. exists x. split; [apply elem_of_set_seq; lia|]. constructor. apply seq_lookup_self. lia. }
  destruct (replay_ok n n _ (take stop merges) _ ltac:(lia) (live_merges_take _ _ _ stop Hlive) H0) as (live & Hs & Hok).
  rewrite Ht in Hs, Hok. rewrite merge_parents_replay by done. set (parent := fold_left _ _ _) in *.
  assert (size (set_seq 0 n : gset nat) = n) as Hsize by apply size_set_seq.
  assert ((list_to_set (map (find parent) (seq 0 n)) : gset nat) ⊆ live) as Hsub%subseteq_size.
  { intros g. rewrite elem_of_list_to_set. intros (x & -> & Hx%elem_of_seq)%list_elem_of_fmap.
    destruct (cut_rooted _ _ _ _ Hok x ltac:(lia)) as (r & Hr & Hroot). unfold find.
    rewrite (find_rooted _ _ _ Hroot) by lia. done. }
  unfold groups_in. lia.
Qed.

Lemma chooseK_bound merges maxK n : chooseK merges maxK n <= Nat.max 2 maxK.
Proof.
  unfold chooseK. cbv zeta. destruct (_ <? 2); [lia|]. destruct (_ <? 2); [lia|].
  enough (forall l acc, fst acc <= Nat.max 2 maxK -> fst (fold_left (fun (acc : nat * float64) i =>
    let k := length merges - i + 1 in
    if (k <? 2) || (Nat.min maxK (n - 1) <? k) then acc
    else
      let gap := f_sub (m_dist (nth_merge merges i)) (m_dist (nth_merge merges (i - 1))) in
      if f_ltb (snd acc) gap then (k, gap) else acc) l acc) <= Nat.max 2 maxK) as H by (apply H; simpl; lia).
  induction l as [|i l IH]; intros acc Hacc; [done|]. simpl. apply IH.
  destruct (_ <? 2); simpl; [done|]. destruct (Nat.ltb_spec (Nat.min maxK (n - 1)) (length merges - i + 1)); [done|].
  destruct (f_ltb _ _); simpl; lia.
Qed.

Lemma one_is_few groups : (exists g, forall x, x ∈ groups -> x = g) -> groups_in groups <= 1.
Proof.
  intros [g H]. unfold groups_in. rewrite <- (size_singleton (C := gset nat) g). apply subseteq_size.
  intros x Hx%elem_of_list_to_set%H. set_solver.
Qed.

Lemma mergeSmall_spec order (Horder : forall m, order m ≡ₚ map_to_list m) groups profiles minSize :
  comparable profiles -> length groups = length profiles ->
  let out := mergeSmallCohorts order groups profiles minSize in
  large_enough minSize out /\ groups_in out <= groups_in groups.
Proof.
  intros Hcomp Hl. unfold mergeSmallCohorts. destruct (Nat.leb_spec minSize 1).
  - split; [|done]. left. intros g Hg%count_of_pos. lia.
  - cbv zeta. destruct (fold_small_spec order Horder profiles minSize Hcomp (size (count_groups groups)) groups Hl ltac:(lia))
      as [H1 H2]. split; [by apply renumber_large|]. etrans; [apply renumber_groups_in|].
    unfold groups_in. by apply subseteq_size.
Qed.

Lemma agglomerate_groups profiles maxK : 
  length (buildDendrogram (length profiles) (pairwiseDistances profiles)) = length profiles - 1 ->
  groups_in (agglomerate profiles maxK) <= Nat.max 2 maxK.
Proof.
  intros Hm. unfold agglomerate. set (n := length profiles) in *.
  destruct (Nat.eqb_spec n 0); [transitivity 1; [apply one_is_few; exists 0; by intros x Hx%elem_of_nil|lia]|].
  destruct (Nat.eqb_spec n 1); [transitivity 1; [apply one_is_few; exists 0; intros x Hx; by apply list_elem_of_singleton in Hx|lia]|].
  set (k := chooseK _ _ _). assert (k <= Nat.max 2 maxK) as Hk.
  { pose proof (chooseK_bound (buildDendrogram n (pairwiseDistances profiles)) (Nat.max maxK 2) n). unfold k. lia. }
  destruct (Nat.le_gt_cases k 1).
  - unfold cutDendrogram. destruct (Nat.leb_spec k 1); [|lia]. cbn [orb].
    transitivity 1; [|lia].
    apply one_is_few. exists 0. intros x Hx%list_elem_of_In%repeat_spec. done.
  - etrans; [apply cut_groups; [lia|lia|done|apply dendrogram_live]|done].
Qed.

Definition is_auto (c : Cohort) : bool := String.eqb (co_Source c) SourceAuto.

(** The auto cohorts of the result, up to the order of members. *)
Lemma autos_of order profiles opts :
  let untagged := snd (splitByTag profiles) in
  let opts' := {| MinClusters := or_default (MinClusters opts) defaultMinClusters;
                  MinCohortSize := or_default (MinCohortSize opts) defaultMinCohortSize;
                  MaxCohorts := or_default (MaxCohorts opts) defaultMaxCohorts |} in
  let sizes cs := map (fun c => length (co_Clusters c)) cs in
  let autos := List.filter is_auto (Assign order profiles opts) in
  autos = [] \/ sizes autos ≡ₚ sizes (autoCohorts order untagged opts').
Proof.
  intros untagged opts' sizes autos.
  assert (forall cs, sizes (List.filter is_auto (finalize cs)) ≡ₚ sizes (List.filter is_auto cs)) as Hfin.
  { intros cs. unfold finalize, sizes. rewrite (Permutation_map _ (Permutation_filter _ _ _ (isort_perm _ _))).
    rewrite filter_map_comm, map_map. simpl. apply reflexive_eq, map_ext. intros c.
    apply Permutation_length, sort_strings_perm. }
  assert (List.filter is_auto (taggedCohorts (fst (splitByTag profiles))) = []) as Htag.
  { destruct (tagged_keys (fst (splitByTag profiles))) as [_ H]. induction H as [|c l Hc _ IH]; [done|]. simpl.
    unfold is_auto at 1. rewrite Hc. exact IH. }
  assert (forall cs, List.filter is_auto cs = [] -> List.filter is_auto (finalize cs) = []) as Hnil.
  { intros cs H. specialize (Hfin cs). rewrite H in Hfin. apply Permutation_nil_r in Hfin. by apply map_eq_nil in Hfin. }
  unfold autos, Assign. destruct (splitByTag profiles) as [tagged rest] eqn:E. simpl fst in *. cbv zeta.
  change untagged with rest. destruct (_ =? 0); [left; by apply Hnil|].
  destruct (_ <? _); [left; apply Hnil; by rewrite List.filter_app, Htag|]. right.
  rewrite Hfin, List.filter_app, Htag. simpl. unfold autoCohorts. set (ns := nameAutoCohorts _ _).
  replace (List.filter is_auto ns) with ns; [done|]. symmetry. apply forallb_filter_id, forallb_forall.
  intros c Hc. unfold is_auto. pose proof (proj2 (auto_keys (mergeSmallCohorts order (agglomerate rest (MaxCohorts opts')) rest
    (MinCohortSize opts')) rest)) as H. rewrite List.Forall_forall in H. by rewrite (H c Hc).
Qed.

(** ** Properties *)

Module Partition.

(** C34: cohorts partition the fleet: whatever order the runtime ranges in, every
    cluster is a member of exactly one cohort, as often as it is listed; no two
    cohorts share source and name; and a tagged cohort holds exactly the clusters
    that carry its tag. *)
Theorem assign_partition order profiles opts :
  let cohorts := Assign order profiles opts in
  members cohorts ≡ₚ map cp_Name profiles /\
  NoDup (map cohort_key cohorts) /\
  (forall c, c ∈ cohorts -> co_Source c = SourceTagged ->
     co_Clusters c = sort_strings (map cp_Name (List.filter (fun p => String.eqb (cp_Tag p) (co_Name c)) profiles))).
Proof.
  intros cohorts. destruct (assign_shape order profiles opts) as (rest & Hc & Hrest & Hkeys & Hsrc).
  pose proof (tagged_keys (fst (splitByTag profiles))) as [Ht1 Ht2].
  unfold cohorts. rewrite Hc. split_and!.
  - rewrite finalize_members, map_app, concat_app, taggedCohorts_members, Hrest, <- map_app.
    apply Permutation_map, filter_split_perm.
  - rewrite finalize_keys. apply keys_app; [done..|]. intros c d H1 H2 E.
    rewrite List.Forall_forall in Ht2, Hsrc. apply (Hsrc d); [by apply list_elem_of_In|].
    rewrite <- E. by apply Ht2, list_elem_of_In.
  - intros c Hin Hs. unfold finalize in Hin. rewrite isort_elem_of in Hin.
    apply list_elem_of_fmap in Hin as (c0 & -> & Hin).
    cbn [co_Source co_Name co_Clusters] in *. apply elem_of_app in Hin as [Hin|Hin].
    + rewrite (taggedCohorts_of _ _ Hin), tagged_filter; [done|]. by apply taggedCohorts_name.
    + rewrite List.Forall_forall in Hsrc. by destruct (Hsrc c0 ltac:(by apply list_elem_of_In)).
Qed.

(** Automatic cohorts keep to their bounds: there are at most [MaxCohorts] of
    them (two when that is less), and each has [MinCohortSize] members or more unless
    only one is left, whatever order the runtime ranges in. In particular the folding
    loop ends. *)
Theorem auto_cohorts_bounded order profiles opts :
  (forall m, order m ≡ₚ map_to_list m) ->
  let untagged := snd (splitByTag profiles) in
  comparable untagged ->
  length (buildDendrogram (length untagged) (pairwiseDistances untagged)) = length untagged - 1 ->
  let autos := List.filter is_auto (Assign order profiles opts) in
  length autos <= Nat.max 2 (or_default (MaxCohorts opts) defaultMaxCohorts) /\
  (Forall (fun c => or_default (MinCohortSize opts) defaultMinCohortSize <= length (co_Clusters c)) autos \/
   length autos <= 1).
Proof.
  intros Horder untagged Hcomp Hm autos. destruct (autos_of order profiles opts) as [H|H]; fold autos in H.
  { rewrite H. simpl. split; [lia|right; lia]. }
  fold untagged in H. unfold autoCohorts in H. cbn [MaxCohorts MinCohortSize] in H.
  set (maxK := or_default (MaxCohorts opts) _) in *. set (minSize := or_default (MinCohortSize opts) _) in *.
  set (groups := agglomerate untagged maxK) in *.
  destruct (mergeSmall_spec order Horder groups untagged minSize Hcomp (agglomerate_length _ _)) as [Hlarge Hfew].
  set (out := mergeSmallCohorts order groups untagged minSize) in *.
  assert (length out = length untagged) as Hout by (unfold out, groups; by rewrite mergeSmall_length, agglomerate_length).
  destruct (nameAutoCohorts_sizes out untagged Hout) as [Hlen Hsizes].
  pose proof (Permutation_length H) as Hn. rewrite !length_map, Hlen in Hn.
  pose proof (agglomerate_groups untagged maxK Hm) as Hg. fold groups in Hg. split; [lia|].
  destruct Hlarge as [Hlarge|Hone%one_is_few]; [left|right; lia].
  apply List.Forall_forall. intros c Hc%list_elem_of_In.
  assert (length (co_Clusters c) ∈ map (fun c => length (co_Clusters c)) autos) as Hin by (apply list_elem_of_fmap; eauto).
  rewrite H in Hin. apply list_elem_of_fmap in Hin as (d & -> & Hd). destruct (Hsizes d Hd) as (g & Hgin & ->).
  by apply Hlarge.
Qed.

(** One feature per cluster: two small groups and a larger one. *)
Definition on_line (points : list (string * Z)) : list ClusterProfile :=
  map (fun p => {| cp_Name := fst p; cp_Features := [f_const (snd p) 10]; cp_Tag := "" |}) points.

Definition spread : list ClusterProfile :=
  on_line [("a1", 0%Z); ("a2", 0%Z); ("b1", 10%Z); ("b2", 10%Z); ("c1", 19%Z); ("c2", 19%Z); ("c3", 19%Z)].

Definition all_close (profiles : list ClusterProfile) : bool :=
  forallb (fun p => forallb (fun q => f_ltb (euclidean (cp_Features p) (cp_Features q)) MaxFloat64) profiles) profiles.

Lemma all_close_comparable profiles : all_close profiles = true -> comparable profiles.
Proof.
  unfold all_close. rewrite forallb_forall. intros H p q Hp%list_elem_of_In Hq%list_elem_of_In.
  specialize (H p Hp). rewrite forallb_forall in H. by apply H.
Qed.

Definition plain : Options := {| MinClusters := 0; MinCohortSize := 0; MaxCohorts := 0 |}.

Lemma spread_close : all_close (snd (splitByTag spread)) = true.
Proof. vm_compute. reflexivity. Qed.

Lemma spread_merges : length (buildDendrogram (length (snd (splitByTag spread)))
  (pairwiseDistances (snd (splitByTag spread)))) = length (snd (splitByTag spread)) - 1.
Proof. vm_compute. reflexivity. Qed.

Lemma auto_cohorts_bounded_witness :
  length (List.filter is_auto (Assign map_to_list spread plain)) <= Nat.max 2 (or_default (MaxCohorts plain) defaultMaxCohorts).
Proof.
  exact (proj1 (auto_cohorts_bounded map_to_list spread plain (fun m => Permutation_refl _)
    (all_close_comparable _ spread_close) spread_merges)).
Defined.

(** Which of two equally small groups is folded first depends on the order of a map
    range, and so do the cohorts. *)
Lemma fold_order_matters :
  map co_Clusters (Assign map_to_list spread plain) <>
  map co_Clusters (Assign (fun m => rev (map_to_list m)) spread plain).
Proof. vm_compute. discriminate. Qed.

End Partition.
