(* ===== verification/Explain.v ===== *)
(** * internal/report/explain.go and cohorts.go: cohort norms

    Detection within each cohort, and what a cohort the operator declared does to the
    fleet's outliers: one its own cohort holds to be normal is explained, and its
    deviation is measured against the cohort. *)

From Stdlib Require Import ZArith Lia String.
From stdpp Require Import base gmap strings list sets.
From S2P Require Import Prelude Maps Float64 Text Data Fields Observe Format Population Detect SmallFleet Profile Cohort Build.

Local Open Scope nat_scope.

(** ** cohorts.go *)

(** The detector a cohort of this size gets. *)
Definition detect_group (r : Report) (clusters : list string) (threshold : float64) (name : string) :
  list OutlierResult * list Distribution :=
  if minMADSample <=? length clusters then detectOutliers r clusters threshold name
  else if minMajoritySample <=? length clusters then detectMajorityOutliers r clusters threshold name
  else ([], []).

Definition buildCohorts (order : gmap nat nat -> list (nat * nat)) (r : Report) (tags : gmap string string)
  (threshold : float64) : list CohortSummary * list Distribution :=
  match rp_Clusters r with
  | [] => ([], [])
  | clusters =>
      let groups := Assign order (Profiles clusters (PerCluster (rp_Sections r)) tags)
        {| MinClusters := 0; MinCohortSize := 0; MaxCohorts := 0 |} in
      let found g := detect_group r (co_Clusters g) threshold (co_Name g) in
      (map (fun g => {| cs_Name := co_Name g; cs_Source := co_Source g; cs_Clusters := co_Clusters g;
                        cs_Outliers := fst (found g) |}) groups,
       flat_map (fun g => snd (found g)) groups)
  end.

(** ** explain.go *)

Definition withinNorm (d : Distribution) (v : ClusterValue) : bool :=
  if String.eqb (di_Kind d) NormKindNumeric then
    match cv_Number v with
    | None => false
    | Some n =>
        if f_eqb (di_MAD d) f_zero then f_eqb n (di_Median d)
        else f_leb (f_abs (f_sub n (di_Median d))) (di_Band d)
    end
  else if String.eqb (di_Kind d) NormKindSet then
    negb (cv_Outlier v) && match cv_Missing v with [] => true | _ => false end
  else negb (String.eqb (di_Mode d) "") && String.eqb (cv_Text v) (di_Mode d).

Definition pairAgrees (a b : OutlierResult) : bool :=
  if String.eqb (or_Kind a) NormKindNumeric then
    if or_Exact a || or_Exact b then or_Exact a && or_Exact b && String.eqb (or_Value a) (or_Value b)
    else Bool.eqb (f_sign (or_Z a)) (f_sign (or_Z b)) && negb (f_eqb (or_Z a) f_zero) && negb (f_eqb (or_Z b) f_zero)
  else if String.eqb (or_Kind a) NormKindSet then bool_decide (or_Missing a = or_Missing b)
  else String.eqb (or_Value a) (or_Value b).

(** scope, scanner, field, cluster. *)
Abbreviation normKey := (string * string * string * string)%type.

Definition is_tagged (c : CohortSummary) : bool := String.eqb (cs_Source c) SourceTagged.

(** The operator-tagged cohort of each cluster. *)
Definition tagged_cohorts (cohorts : list CohortSummary) : gmap string string :=
  last_of (flat_map (fun c => if is_tagged c then map (fun cl => (cl, cs_Name c)) (cs_Clusters c) else []) cohorts).

Definition norm_entries (dists : list Distribution) : list (normKey * (bool * float64)) :=
  flat_map (fun d => map (fun v =>
    ((di_Scope d, di_Scanner d, di_Field d, cv_Cluster v), (withinNorm d v, valueMass d v))) (di_Values d)) dists.

(** [inNorm] and [cohortZ]. *)
Definition cohort_norms (dists : list Distribution) : gmap normKey (bool * float64) :=
  last_of (norm_entries dists).

Definition fleet_key (o : OutlierResult) : normKey := (NormScopeFleet, or_Scanner o, or_Field o, or_Cluster o).

Definition explain (c : string) (o : OutlierResult) : OutlierResult := {|
  or_Cluster := or_Cluster o; or_Field := or_Field o; or_Value := or_Value o; or_FleetNorm := or_FleetNorm o;
  or_Deviation := or_Deviation o; or_Scanner := or_Scanner o; or_Severity := or_Severity o; or_Scope := or_Scope o;
  or_Kind := or_Kind o; or_Median := or_Median o; or_MAD := or_MAD o; or_Mode := or_Mode o;
  or_ModeShare := or_ModeShare o; or_Consensus := or_Consensus o; or_Missing := or_Missing o;
  or_SampleSize := or_SampleSize o; or_Threshold := or_Threshold o; or_Z := or_Z o; or_ExplainedBy := c;
  or_LimitedSample := or_LimitedSample o; or_Exact := or_Exact o; or_Favorable := or_Favorable o |}.

(** The tagged cohort whose norm holds the outlier. *)
Definition held_by_norm (tagged : gmap string string) (norms : gmap normKey (bool * float64)) (o : OutlierResult) :
  option string :=
  match tagged !! or_Cluster o with
  | Some c =>
      match norms !! (c, or_Scanner o, or_Field o, or_Cluster o) with
      | Some (true, _) => Some c
      | _ => None
      end
  | None => None
  end.

(** A tagged cohort without a norm of its own. *)
Definition unnormed (cohortDists : list Distribution) (c : CohortSummary) : bool :=
  is_tagged c && negb (existsb (fun d => String.eqb (di_Scope d) (cs_Name c)) cohortDists).

Definition lone_notes (cohorts : list CohortSummary) (cohortDists : list Distribution) : list string :=
  flat_map (fun c =>
    if unnormed cohortDists c then
      match cs_Clusters c with
      | [_] => [("Cohort " ++ cs_Name c ++ " has one cluster, so it holds no outlier.")%string]
      | _ => []
      end
    else []) cohorts.

(** The other member of a cluster's pair, and the pair's cohort. *)
Definition partners (cohorts : list CohortSummary) (cohortDists : list Distribution) : gmap string (string * string) :=
  last_of (flat_map (fun c =>
    if unnormed cohortDists c then
      match cs_Clusters c with
      | [a; b] => [(a, (b, cs_Name c)); (b, (a, cs_Name c))]
      | _ => []
      end
    else []) cohorts).

Definition is_fleet (o : OutlierResult) : bool := String.eqb (or_Scope o) NormScopeFleet.

(** The last fleet outlier of each scanner, field and cluster. *)
Definition fleet_outliers (outliers : list OutlierResult) : gmap normKey OutlierResult :=
  last_of (map (fun o => (fleet_key o, o)) (List.filter is_fleet outliers)).

Definition held_by_pair (partner : gmap string (string * string)) (fleet : gmap normKey OutlierResult)
  (o : OutlierResult) : option string :=
  match partner !! or_Cluster o with
  | Some (other, c) =>
      if is_fleet o then
        match fleet !! (NormScopeFleet, or_Scanner o, or_Field o, other) with
        | Some o' => if pairAgrees o o' then Some c else None
        | None => None
        end
      else None
  | None => None
  end.

Definition explain_with (hold : OutlierResult -> option string) (o : OutlierResult) : OutlierResult :=
  match hold o with Some c => explain c o | None => o end.

(** What each loop records in [explained]. *)
Definition explained_entries (hold : OutlierResult -> option string) (outliers : list OutlierResult) :
  list (normKey * string) := omap (fun o => (fun c => (fleet_key o, c)) <$> hold o) outliers.

Definition with_explained (v : ClusterValue) (c : string) : ClusterValue := {|
  cv_Cluster := cv_Cluster v; cv_Number := cv_Number v; cv_Text := cv_Text v; cv_Size := cv_Size v;
  cv_Missing := cv_Missing v; cv_Z := cv_Z v; cv_Outlier := cv_Outlier v; cv_Explained := c |}.

Definition normZ (tagged : gmap string string) (norms : gmap normKey (bool * float64)) (d : Distribution)
  (v : ClusterValue) : float64 :=
  match tagged !! cv_Cluster v with
  | Some c =>
      match norms !! (c, di_Scanner d, di_Field d, cv_Cluster v) with
      | Some (_, z) => z
      | None => valueMass d v
      end
  | None => valueMass d v
  end.

Definition explain_dist (explained : gmap normKey string) (z : Distribution -> ClusterValue -> float64) (d : Distribution) :
  Distribution :=
  if String.eqb (di_Scope d) NormScopeFleet then
    let values := map (fun v =>
      match explained !! (NormScopeFleet, di_Scanner d, di_Field d, cv_Cluster v) with
      | Some c => with_explained v c
      | None => v
      end) (di_Values d) in
    let d' := with_values d values in
    with_mass d' (f_sum (map (z d') values))
  else d.

Definition with_norms (r : Report) (outliers : list OutlierResult) (dists : list Distribution)
  (mass : gmap string float64) (notes : list string) : Report := {|
  rp_Clusters := rp_Clusters r; rp_Sections := rp_Sections r; rp_Summary := rp_Summary r;
  rp_Findings := rp_Findings r; rp_ClusterHealths := rp_ClusterHealths r; rp_Outliers := outliers;
  rp_Distributions := dists; rp_DeviationMass := mass; rp_ScoreAttribution := rp_ScoreAttribution r;
  rp_FleetScore := rp_FleetScore r; rp_Cohorts := rp_Cohorts r; rp_Degraded := rp_Degraded r;
  rp_Incidents := rp_Incidents r; rp_Notes := notes; rp_runs := rp_runs r |}.

Definition applyCohortNorms (r : Report) (cohortDists : list Distribution) : Report :=
  let tagged := tagged_cohorts (rp_Cohorts r) in
  let norms := cohort_norms cohortDists in
  let by_norm := held_by_norm tagged norms in
  let outliers1 := map (explain_with by_norm) (rp_Outliers r) in
  let by_pair := held_by_pair (partners (rp_Cohorts r) cohortDists) (fleet_outliers outliers1) in
  let outliers2 := map (explain_with by_pair) outliers1 in
  let explained : gmap normKey string :=
    last_of (explained_entries by_norm (rp_Outliers r) ++ explained_entries by_pair outliers1) in
  let dists := map (explain_dist explained (normZ tagged norms)) (rp_Distributions r) in
  with_norms r outliers2 dists (deviationMass dists (normZ tagged norms))
    (rp_Notes r ++ lone_notes (rp_Cohorts r) cohortDists).

(** ** Lemmas *)

(** A cluster's tagged cohort is one the operator declared, and holds it. *)
Lemma tagged_cohorts_some cohorts cl c : tagged_cohorts cohorts !! cl = Some c ->
  exists cs, cs ∈ cohorts /\ is_tagged cs = true /\ cs_Name cs = c /\ cl ∈ cs_Clusters cs.
Proof.
  intros H%last_of_some. apply list_elem_of_In, in_flat_map in H as (cs & Hcs & H).
  destruct (is_tagged cs) eqn:Et; [|done]. apply list_elem_of_In, list_elem_of_fmap in H as (x & [= -> ->] & Hx).
  exists cs. split_and!; [by apply list_elem_of_In|done..].
Qed.

Lemma cohort_norms_some dists scope scanner field cl w z :
  cohort_norms dists !! (scope, scanner, field, cl) = Some (w, z) ->
  exists d v, d ∈ dists /\ v ∈ di_Values d /\ di_Scope d = scope /\ di_Scanner d = scanner /\ di_Field d = field /\
    cv_Cluster v = cl /\ withinNorm d v = w /\ valueMass d v = z.
Proof.
  intros H%last_of_some. unfold norm_entries in H. apply list_elem_of_In, in_flat_map in H as (d & Hd & H).
  apply list_elem_of_In, list_elem_of_fmap in H as (v & [= -> -> -> -> -> ->] & Hv).
  exists d, v. split_and!; [by apply list_elem_of_In|done..].
Qed.

Lemma partners_some cohorts dists cl other c : partners cohorts dists !! cl = Some (other, c) ->
  exists cs, cs ∈ cohorts /\ is_tagged cs = true /\ cs_Name cs = c /\ cs_Clusters cs ≡ₚ [cl; other].
Proof.
  intros H%last_of_some. apply list_elem_of_In, in_flat_map in H as (cs & Hcs & H). exists cs.
  unfold unnormed in H. destruct (is_tagged cs); [|done]. destruct (negb _); [|done]. simpl in H.
  destruct (cs_Clusters cs) as [|a [|b [|]]] eqn:E; try done. apply list_elem_of_In in Hcs.
  destruct H as [[= -> -> ->]|[[= -> -> ->]|[]]]; split_and!; try done. apply Permutation_swap.
Qed.

Lemma fleet_outliers_some outliers k o : fleet_outliers outliers !! k = Some o ->
  o ∈ outliers /\ is_fleet o = true /\ fleet_key o = k.
Proof.
  intros H%last_of_some. apply list_elem_of_fmap in H as (o' & [= -> ->] & Ho).
  apply list_elem_of_In, filter_In in Ho as [Ho Hf]. split_and!; [by apply list_elem_of_In|done..].
Qed.

(** ** What explains an outlier *)

(** A tagged cohort of the report that holds the cluster. *)
Definition declared (r : Report) (c cl : string) : Prop :=
  exists cs, cs ∈ rp_Cohorts r /\ cs_Source cs = SourceTagged /\ cs_Name cs = c /\ cl ∈ cs_Clusters cs.

(** The cohort has a distribution of the field whose norm the cluster's value is in. *)
Definition in_cohort_norm (dists : list Distribution) (c : string) (o : OutlierResult) : Prop :=
  exists d v, d ∈ dists /\ v ∈ di_Values d /\ di_Scope d = c /\ di_Scanner d = or_Scanner o /\
    di_Field d = or_Field o /\ cv_Cluster v = or_Cluster o /\ withinNorm d v = true.

(** The cohort is a pair whose other member is a fleet outlier on the same field, the
    same way. *)
Definition pair_agrees (r : Report) (c : string) (o : OutlierResult) : Prop :=
  exists cs o', cs ∈ rp_Cohorts r /\ cs_Name cs = c /\ cs_Clusters cs ≡ₚ [or_Cluster o; or_Cluster o'] /\
    o' ∈ rp_Outliers r /\ or_Scanner o' = or_Scanner o /\ or_Field o' = or_Field o /\ pairAgrees o o' = true.

Lemma held_by_norm_some r dists o c :
  held_by_norm (tagged_cohorts (rp_Cohorts r)) (cohort_norms dists) o = Some c ->
  declared r c (or_Cluster o) /\ in_cohort_norm dists c o.
Proof.
  unfold held_by_norm. destruct (tagged_cohorts _ !! _) as [c'|] eqn:Et; [|done].
  destruct (cohort_norms _ !! _) as [[[] z]|] eqn:En; try done. intros [= ->]. split.
  - apply tagged_cohorts_some in Et as (cs & H1 & H2%String.eqb_eq & H3 & H4). by exists cs.
  - apply cohort_norms_some in En as (d & v & ? & ? & ? & ? & ? & ? & ? & _). by exists d, v.
Qed.

Definition same_outlier (o o' : OutlierResult) : Prop := exists c, o' = explain c o.

Lemma explain_with_same hold o : same_outlier o (explain_with hold o).
Proof.
  unfold explain_with. destruct (hold o) as [c|]; [by exists c|]. exists (or_ExplainedBy o). by destruct o.
Qed.

Lemma held_by_pair_some r dists hold o c :
  held_by_pair (partners (rp_Cohorts r) dists) (fleet_outliers (map (explain_with hold) (rp_Outliers r))) o = Some c ->
  declared r c (or_Cluster o) /\ pair_agrees r c o.
Proof.
  unfold held_by_pair. destruct (partners _ _ !! _) as [[other c']|] eqn:Ep; [|done].
  destruct (is_fleet o); [|done]. destruct (fleet_outliers _ !! _) as [o1|] eqn:Ef; [|done].
  destruct (pairAgrees o o1) eqn:Ea; [|done]. intros [= ->].
  apply partners_some in Ep as (cs & H1 & H2%String.eqb_eq & H3 & H4).
  apply fleet_outliers_some in Ef as (Hin & _ & [= Hs Hf Hc]).
  apply list_elem_of_fmap in Hin as (o' & -> & Ho'). destruct (explain_with_same hold o') as [c1 E]. rewrite E in *.
  simpl in Hs, Hf, Hc. split; [exists cs; split_and!; [done..|rewrite H4; left]|].
  exists cs, o'. rewrite Hc. split_and!; done.
Qed.

(** Norms keep every outlier's cluster and scanner. *)
Lemma explain_twice pair hold o : same_outlier o (explain_with pair (explain_with hold o)).
Proof.
  destruct (explain_with_same hold o) as [c1 E1]. destruct (explain_with_same pair (explain_with hold o)) as [c2 E2].
  exists c2. rewrite E2, E1. reflexivity.
Qed.

Lemma applyCohortNorms_outliers r dists : exists pair hold,
  rp_Outliers (applyCohortNorms r dists) = map (explain_with pair) (map (explain_with hold) (rp_Outliers r)).
Proof. eexists _, _. unfold applyCohortNorms. cbv zeta. cbn [rp_Outliers with_norms]. reflexivity. Qed.

Lemma normed_outlier r dists o : o ∈ rp_Outliers (applyCohortNorms r dists) ->
  exists o', o' ∈ rp_Outliers r /\ same_outlier o' o.
Proof.
  destruct (applyCohortNorms_outliers r dists) as (pair & hold & ->). rewrite map_map.
  intros (o' & -> & Ho)%list_elem_of_fmap. exists o'. split; [exact Ho|apply explain_twice].
Qed.

(** Every outlier of a group names a scanner with a payload of its cluster. *)
Lemma detect_group_known r clusters t name o : o ∈ fst (detect_group r clusters t name) ->
  has_payload r (or_Scanner o) (or_Cluster o).
Proof.
  unfold detect_group. destruct (_ <=? _); [|destruct (_ <=? _); [|by intros ?%elem_of_nil]]; intros H.
  - apply detectOutliers_known in H as [_ H]. exact H.
  - apply detectMajority_known in H as [_ H]. exact H.
Qed.

Lemma buildCohorts_outliers corder r tags t : exists groups, fst (buildCohorts corder r tags t) =
  map (fun g => {| cs_Name := co_Name g; cs_Source := co_Source g; cs_Clusters := co_Clusters g;
                   cs_Outliers := fst (detect_group r (co_Clusters g) t (co_Name g)) |}) groups.
Proof. unfold buildCohorts. destruct (rp_Clusters r); [by exists []|]. eexists. reflexivity. Qed.

Lemma cohort_outlier_known corder r tags t cs o : cs ∈ fst (buildCohorts corder r tags t) -> o ∈ cs_Outliers cs ->
  has_payload r (or_Scanner o) (or_Cluster o).
Proof.
  destruct (buildCohorts_outliers corder r tags t) as [groups ->]. intros (g & -> & _)%list_elem_of_fmap.
  cbn [cs_Outliers]. apply detect_group_known.
Qed.

(** ** Properties *)

Module Norms.

(** Cohort norms only explain. Every outlier stays, changed in nothing but the
    cohort that explains it; and one is explained only by a cohort the operator
    tagged, holding the cluster, whose own norm has the value inside or whose only
    other member is an outlier on the same field in the same way. A cluster in no
    tagged cohort keeps its fleet deviation on every field. *)
Theorem norms_only_explain r cohortDists :
  let r' := applyCohortNorms r cohortDists in
  Forall2 (fun o o' => o' = o \/ exists c, o' = explain c o /\ declared r c (or_Cluster o) /\
      (in_cohort_norm cohortDists c o \/ pair_agrees r c o)) (rp_Outliers r) (rp_Outliers r') /\
  (forall d v, (forall c, ~ declared r c (cv_Cluster v)) ->
     normZ (tagged_cohorts (rp_Cohorts r)) (cohort_norms cohortDists) d v = valueMass d v) /\
  map (fun d => (di_Scope d, di_Scanner d, di_Field d, map cv_Z (di_Values d))) (rp_Distributions r') =
  map (fun d => (di_Scope d, di_Scanner d, di_Field d, map cv_Z (di_Values d))) (rp_Distributions r).
Proof.
  intros r'. split_and!.
  - unfold r', applyCohortNorms. cbv zeta. cbn [rp_Outliers with_norms].
    set (hold := held_by_norm _ _). set (pair := held_by_pair _ _). rewrite map_map. apply Forall2_fmap_r, Forall_Forall2_diag, List.Forall_forall.
    intros o _. unfold compose. destruct (explain_with_same hold o) as [c1 E1].
    destruct (pair (explain_with hold o)) as [c|] eqn:Ep.
    + right. exists c. split; [unfold explain_with at 1; by rewrite Ep, E1|].
      apply held_by_pair_some in Ep as [Hd Hp]. rewrite E1 in Hd, Hp. split; [done|]. right. exact Hp.
    + assert (explain_with pair (explain_with hold o) = explain_with hold o) as -> by (unfold explain_with at 1; by rewrite Ep).
      unfold explain_with. destruct (hold o) as [c|] eqn:En; [|by left]. right. exists c. split; [done|].
      apply held_by_norm_some in En as [Hd Hn]. split; [done|by left].
  - intros d v Hno. unfold normZ. destruct (tagged_cohorts _ !! _) as [c|] eqn:Et; [|done]. exfalso.
    apply tagged_cohorts_some in Et as (cs & H1 & H2%String.eqb_eq & H3 & H4). apply (Hno c). by exists cs.
  - unfold r', applyCohortNorms. cbv zeta. cbn [rp_Distributions with_norms]. rewrite map_map. apply map_ext. intros d.
    unfold explain_dist. destruct (String.eqb _ _); [|done]. simpl. rewrite map_map. f_equal. apply map_ext.
    intros v. by destruct (_ !! _).
Qed.

End Norms.
