(* ===== verification/MisCohort.v ===== *)
(** * internal/report/miscohort.go: clusters whose tag disagrees with their profile

    The fleet is clustered with the tags hidden; a tagged cluster that does not sit where
    most of its tag sits is flagged. [order] is how Go happens to range over each map. *)

From Stdlib Require Import ZArith Lia String Sorting.Sorted.
From stdpp Require Import base gmap strings list sets.
From S2P Require Import Prelude Maps Float64 Text Data Format Rules Findings Finders Profile Cohort.

Local Open Scope nat_scope.

Definition minMisCohortFleet : nat := 8.
Definition minTagPopulation : nat := 3.
Definition DefaultTagKey : string := "cohort".

Record MisCohortFinding := { mc_Cluster : string; mc_TaggedAs : string; mc_ProfileMatches : string }.

Section Detect.
Context (corder : gmap nat nat -> list (nat * nat)) (order : forall A, list A -> list A).
Arguments order {A}.

(** ** The profile's cohorts *)

Definition autoCohortsOf (r : Report) : list Cohort :=
  Assign corder (Profiles (rp_Clusters r) (PerCluster (rp_Sections r)) ∅)
    {| MinClusters := 0; MinCohortSize := 0; MaxCohorts := 0 |}.

Definition clusterAuto (cohorts : list Cohort) : gmap string string :=
  last_of (flat_map (fun c => map (fun cl => (cl, co_Name c)) (co_Clusters c)) cohorts).

(** [clusterAuto[cluster]], empty for a cluster the fleet does not have. *)
Definition home (auto : gmap string string) (cluster : string) : string := default ""%string (auto !! cluster).

(** ** Where each tag sits *)

Definition tag_key (ct : string * string) : option string := if String.eqb (snd ct) "" then None else Some (snd ct).

Definition tagPop (tags : gmap string string) : gmap string nat := count_by tag_key (order (map_to_list tags)).

Definition home_key (auto : gmap string string) (tag : string) (ct : string * string) : option string :=
  if String.eqb (snd ct) tag then Some (home auto (fst ct)) else None.

Definition home_counts (auto tags : gmap string string) (tag : string) : gmap string nat :=
  count_by (home_key auto tag) (order (map_to_list tags)).

Definition argmax_step (acc : string * Z) (kv : string * nat) : string * Z :=
  let '(best, bestN) := acc in
  let '(k, v) := kv in
  if (bestN <? Z.of_nat v)%Z || ((Z.of_nat v =? bestN)%Z && str_ltb k best) then (k, Z.of_nat v) else acc.

Definition argmax (entries : list (string * nat)) : string := fst (fold_left argmax_step entries (""%string, (-1)%Z)).

Definition dominant_of (auto tags : gmap string string) (tp : string * nat) : option (string * string) :=
  if snd tp <? minTagPopulation then None
  else Some (fst tp, argmax (order (map_to_list (home_counts auto tags (fst tp))))).

Definition dominantAuto (auto tags : gmap string string) : gmap string string :=
  last_of (omap (dominant_of auto tags) (order (map_to_list (tagPop tags)))).

(** ** The clusters elsewhere *)

Definition flag (auto dominant : gmap string string) (ct : string * string) : option MisCohortFinding :=
  let '(cluster, tag) := ct in
  let mine := home auto cluster in
  if String.eqb tag "" then None
  else match dominant !! tag with
       | None => None
       | Some dom =>
           if String.eqb mine "" || String.eqb mine dom then None
           else
             let candidates := map fst (List.filter (fun td => negb (String.eqb (fst td) tag) && String.eqb (snd td) mine)
                                 (order (map_to_list dominant))) in
             Some {| mc_Cluster := cluster; mc_TaggedAs := tag; mc_ProfileMatches := hd ""%string (sort_strings candidates) |}
       end.

Definition detectMisCohort (r : Report) (tags : gmap string string) : list MisCohortFinding :=
  if (length (rp_Clusters r) <? minMisCohortFleet) || (size tags =? 0) then []
  else
    let auto := clusterAuto (autoCohortsOf r) in
    isort (less_of (cmp_on mc_Cluster String.compare))
      (omap (flag auto (dominantAuto auto tags)) (order (map_to_list tags))).

Definition misCohort_finding (m : MisCohortFinding) : Finding :=
  let tagged := ("Cluster " ++ quote (mc_Cluster m) ++ " is tagged " ++ DefaultTagKey ++ "=" ++ quote (mc_TaggedAs m))%string in
  finding_of "cohort/wrong-cohort" "Cluster may be in the wrong cohort"
    (if String.eqb (mc_ProfileMatches m) ""
     then tagged ++ ", but its scanner profile does not match the rest of the " ++ quote (mc_TaggedAs m) ++ " cohort."
     else tagged ++ ", but its scanner profile clusters with the " ++ quote (mc_ProfileMatches m) ++ " population.")%string
    SeverityWarning (mc_Cluster m) "cohort" [mc_Cluster m] None.

Definition misCohortFindings (r : Report) (tags : gmap string string) : list Finding :=
  map misCohort_finding (detectMisCohort r tags).

(** ** argmax *)

(** The greater count first, then the smaller name. *)
Definition by_count : string * nat -> string * nat -> comparison :=
  cmp_lex (cmp_rev (cmp_on snd Nat.compare)) (cmp_on fst String.compare).

Lemma by_count_less k v best n :
  ((Z.of_nat n <? Z.of_nat v)%Z || ((Z.of_nat v =? Z.of_nat n)%Z && str_ltb k best)) = less_of by_count (k, v) (best, n).
Proof.
  unfold less_of, by_count, cmp_lex, cmp_then, cmp_rev, cmp_on, str_ltb. cbn [fst snd].
  destruct (Nat.compare_spec n v) as [->|Hlt|Hlt].
  - rewrite Z.ltb_irrefl, Z.eqb_refl. done.
  - rewrite (proj2 (Z.ltb_lt _ _)) by lia. done.
  - rewrite (proj2 (Z.ltb_ge _ _)), (proj2 (Z.eqb_neq _ _)) by lia. done.
Qed.

Lemma argmax_inv l : l = [] /\ fold_left argmax_step l (""%string, (-1)%Z) = (""%string, (-1)%Z) \/
  exists k n, (k, n) ∈ l /\ fold_left argmax_step l (""%string, (-1)%Z) = (k, Z.of_nat n) /\
    forall x, x ∈ l -> cmp_le by_count (k, n) x.
Proof.
  induction l as [|[k v] l IH] using rev_ind; [by left|]. right. rewrite fold_left_app. cbn [fold_left].
  destruct IH as [[-> ->]|(b & n & Hin & -> & Hle)].
  - exists k, v. split; [apply elem_of_app; right; by left|]. unfold argmax_step. rewrite (proj2 (Z.ltb_lt _ _)) by lia.
    split; [done|]. intros x ->%list_elem_of_singleton. reflexivity.
  - unfold argmax_step. rewrite by_count_less. destruct (less_of by_count (k, v) (b, n)) eqn:E.
    + exists k, v. split; [apply elem_of_app; right; by left|]. split; [done|].
      assert (Hkb : cmp_le by_count (k, v) (b, n)).
      { destruct (cmp_le_total by_count (k, v) (b, n)) as [H|H]; [done|].
        apply (less_of_false by_count) in H. congruence. }
      intros x [Hx| ->%list_elem_of_singleton]%elem_of_app; [|reflexivity]. etransitivity; [exact Hkb|by apply Hle].
    + exists b, n. split; [apply elem_of_app; by left|]. split; [done|].
      intros x [Hx| ->%list_elem_of_singleton]%elem_of_app; [by apply Hle|]. by apply (less_of_false by_count) in E.
Qed.

(** ** The home of a tag *)

(** How many clusters tagged [tag] sit in the auto-cohort [d]. *)
Definition sitting (auto tags : gmap string string) (tag d : string) : nat := keyed (home_key auto tag) d (map_to_list tags).

Definition tagged_as (tags : gmap string string) (tag : string) : nat := keyed tag_key tag (map_to_list tags).

(** Most clusters of the tag sit in [d]; of several such cohorts it has the first name. *)
Definition tag_home (auto tags : gmap string string) (tag d : string) : Prop :=
  0 < sitting auto tags tag d /\
  forall e, e <> d -> sitting auto tags tag e < sitting auto tags tag d \/
    (sitting auto tags tag e = sitting auto tags tag d /\ str_ltb d e = true).

Lemma by_count_le d n e k : cmp_le by_count (d, n) (e, k) -> e <> d ->
  (k < n \/ k = n /\ str_ltb d e = true)%nat.
Proof.
  unfold cmp_le, by_count, cmp_lex, cmp_then, cmp_rev, cmp_on, str_ltb. cbn [fst snd].
  destruct (Nat.compare_spec k n) as [->|Hlt|Hlt]; [|by left|done]. intros H Hne. right. split; [done|].
  destruct (String.compare d e) eqn:E; [|done|done]. by apply String.compare_eq_iff in E.
Qed.

Context (Horder : forall A (l : list A), order l ≡ₚ l).

Lemma argmax_home auto tags tag d : 0 < tagged_as tags tag ->
  argmax (order (map_to_list (home_counts auto tags tag))) = d <-> tag_home auto tags tag d.
Proof.
  intros Hpop. unfold home_counts. rewrite (count_by_perm (home_key auto tag) _ _ (Horder _ (map_to_list tags))).
  set (entries := order (map_to_list (count_by (home_key auto tag) (map_to_list tags)))).
  destruct (count_by_entries (home_key auto tag) entries (map_to_list tags)) as [_ Hin]; [apply Horder|].
  unfold argmax. destruct (argmax_inv entries) as [[E _]|(b & n & Hb & -> & Hle)].
  - exfalso. apply keyed_pos in Hpop as (ct & Hct & Hk).
    assert (Hh : 0 < sitting auto tags tag (home auto (fst ct))).
    { apply keyed_pos. exists ct. split; [done|]. unfold tag_key in Hk. unfold home_key.
      destruct (String.eqb (snd ct) ""); simplify_eq. by rewrite String.eqb_refl. }
    assert (Hmem : (home auto (fst ct), sitting auto tags tag (home auto (fst ct))) ∈ entries) by (by apply Hin).
    rewrite E in Hmem. by apply not_elem_of_nil in Hmem.
  - cbn [fst]. apply Hin in Hb as [-> Hpos]. change (0 < sitting auto tags tag b) in Hpos. 
    assert (Hhome : tag_home auto tags tag b).
    { split; [done|]. intros e Hne. destruct (decide (0 < sitting auto tags tag e)) as [He|He]; [|left; lia].
      apply by_count_le; [|done]. apply Hle. by apply Hin. }
    split; [by intros <-|]. intros [Hd Hmax]. destruct (decide (b = d)) as [|Hne]; [done|]. exfalso.
    destruct Hhome as [_ Hmaxb]. destruct (Hmax b Hne) as [?|[? L1]], (Hmaxb d ltac:(done)) as [?|[? L2]]; try lia.
    unfold str_ltb in L1, L2. rewrite String.compare_antisym in L2. by destruct (String.compare d b).
Qed.

Lemma dominant_lookup auto tags tag d : dominantAuto auto tags !! tag = Some d <->
  tag <> ""%string /\ minTagPopulation <= tagged_as tags tag /\ tag_home auto tags tag d.
Proof.
  unfold dominantAuto. rewrite (last_of_iff _ (fun t => argmax (order (map_to_list (home_counts auto tags t))))).
  2:{ intros k a ([t n] & _ & H)%list_elem_of_omap. unfold dominant_of in H. cbn [fst snd] in H.
      destruct (_ <? _); [done|]. by simplify_eq. }
  unfold tagPop. rewrite (count_by_perm tag_key _ _ (Horder _ (map_to_list tags))).
  destruct (count_by_entries tag_key (order (map_to_list (count_by tag_key (map_to_list tags)))) (map_to_list tags)) as [_ Hin];
    [apply Horder|]. rewrite list_elem_of_omap. split.
  - intros ([t n] & [-> Hpos]%Hin & H). unfold dominant_of in H. cbn [fst snd] in H.
    destruct (Nat.ltb_spec (keyed tag_key t (map_to_list tags)) minTagPopulation); [done|]. injection H as <- <-.
    split_and!; [|done|by apply argmax_home].
    intros ->. apply keyed_pos in Hpos as (ct & _ & Hk). unfold tag_key in Hk.
    destruct (String.eqb_spec (snd ct) ""); simplify_eq.
  - intros (Ht & Hpop & Hhome). assert (0 < tagged_as tags tag) by (unfold minTagPopulation in Hpop; lia).
    exists (tag, tagged_as tags tag). split; [by apply Hin|]. unfold dominant_of. cbn [fst snd].
    rewrite (proj2 (Nat.ltb_ge _ _)) by done. do 2 f_equal. by apply argmax_home.
Qed.

Lemma flag_some auto tags c tag m : flag auto (dominantAuto auto tags) (c, tag) = Some m ->
  mc_Cluster m = c /\ mc_TaggedAs m = tag.
Proof. unfold flag. repeat case_match; try done. by intros [= <-]. Qed.

Lemma flag_iff auto tags c tag : is_Some (flag auto (dominantAuto auto tags) (c, tag)) <->
  tag <> ""%string /\ minTagPopulation <= tagged_as tags tag /\ home auto c <> ""%string /\
  ~ tag_home auto tags tag (home auto c).
Proof.
  unfold flag. destruct (String.eqb_spec tag "") as [->|Ht]; [split; [by intros [? ?]|by intros [? _]]|].
  destruct (dominantAuto auto tags !! tag) as [dom|] eqn:E.
  - apply dominant_lookup in E as (_ & Hpop & Hdom).
    assert (Hpos : 0 < tagged_as tags tag) by (unfold minTagPopulation in Hpop; lia).
    assert (Huniq : tag_home auto tags tag (home auto c) <-> home auto c = dom).
    { rewrite <- argmax_home by done. apply argmax_home in Hdom; [|done]. rewrite Hdom. done. }
    rewrite Huniq. destruct (String.eqb_spec (home auto c) ""); [split; [by intros [? ?]|by intros (_ & _ & ? & _)]|].
    destruct (String.eqb_spec (home auto c) dom); cbn [orb]; [split; [by intros [? ?]|by intros (_ & _ & _ & ?)]|].
    split; [done|by eexists].
  - split; [by intros [? ?]|]. intros (_ & Hpop & _ & _). exfalso.
    assert (Hpos : 0 < tagged_as tags tag) by (unfold minTagPopulation in Hpop; lia).
    assert (H : dominantAuto auto tags !! tag = Some (argmax (order (map_to_list (home_counts auto tags tag))))).
    { apply dominant_lookup. split_and!; [done|done|]. by apply argmax_home. }
    congruence.
Qed.

(** Mis-cohort detection answers one question per cluster, in whatever order the maps
    are ranged over: a cluster is flagged, once and in order of name, exactly when the fleet
    has eight clusters or more, at least three share its tag, the profiles place it in some
    cohort, and that cohort is not the one most clusters of its tag sit in. *)
Theorem wrong_cohort_exact r tags :
  let auto := clusterAuto (autoCohortsOf r) in
  let found := detectMisCohort r tags in
  NoDup (map mc_Cluster found) /\
  StronglySorted (fun a b => str_ltb (mc_Cluster b) (mc_Cluster a) = false) found /\
  forall c tag, (exists m, m ∈ found /\ mc_Cluster m = c /\ mc_TaggedAs m = tag) <->
    minMisCohortFleet <= length (rp_Clusters r) /\ tags !! c = Some tag /\ tag <> ""%string /\
    minTagPopulation <= tagged_as tags tag /\ home auto c <> ""%string /\
    ~ tag_home auto tags tag (home auto c).
Proof.
  intros auto found. subst found. unfold detectMisCohort. fold auto.
  destruct (Nat.ltb_spec (length (rp_Clusters r)) minMisCohortFleet) as [Hlt|Hge]; cbn [orb].
  { split_and!; [constructor|constructor|]. intros c tag. split; [by intros (m & ?%not_elem_of_nil & _)|lia]. }
  destruct (Nat.eqb_spec (size tags) 0) as [E|E].
  { apply map_size_empty_inv in E. subst tags. split_and!; [constructor|constructor|].
    intros c tag. split; [by intros (m & ?%not_elem_of_nil & _)|]. rewrite lookup_empty. by intros (_ & ? & _). }
  set (dom := dominantAuto auto tags). split_and!.
  - rewrite isort_perm, Horder. assert (Hd := NoDup_fst_map_to_list tags). revert Hd.
    assert (Hf : forall c tag m, flag auto dom (c, tag) = Some m -> mc_Cluster m = c) by (intros; by eapply flag_some).
    generalize (map_to_list tags). intros l. induction l as [|[c tag] l IH]; [constructor|]. cbn [fmap list_fmap fst].
    intros [Hc Hl]%NoDup_cons. cbn [omap list_omap]. destruct (flag auto dom (c, tag)) as [m|] eqn:Em; [|by apply IH].
    apply NoDup_cons. split; [|by apply IH]. rewrite (Hf _ _ _ Em). intros Hin. apply Hc.
    apply list_elem_of_In, in_map_iff in Hin as (m' & <- & Hm'). apply list_elem_of_In, list_elem_of_omap in Hm' as ([c' tag'] & Hin' & Hm').
    rewrite (Hf _ _ _ Hm'). apply list_elem_of_fmap. by exists (c', tag').
  - eapply StronglySorted_mono; [|apply isort_sorted; exact _]. intros a b H.
    by apply (less_of_false (cmp_on mc_Cluster String.compare)) in H.
  - intros c tag. split.
    + intros (m & Hm & <- & <-). rewrite isort_elem_of, Horder in Hm. apply list_elem_of_omap in Hm as ([c tag] & Hin & Hf).
      apply elem_of_map_to_list in Hin. assert (Hs : is_Some (flag auto dom (c, tag))) by (rewrite Hf; by eexists).
      apply flag_iff in Hs. apply flag_some in Hf as [-> ->]. tauto.
    + intros (_ & Hin & Hrest). assert (Hs : is_Some (flag auto dom (c, tag))) by (by apply flag_iff). destruct Hs as [m Hm].
      exists m. split; [|by eapply flag_some]. rewrite isort_elem_of, Horder. apply list_elem_of_omap.
      exists (c, tag). split; [by apply elem_of_map_to_list|done].
Qed.

End Detect.

Definition as_met : forall A, list A -> list A := fun A l => l.

(** Most of a tag outside the fleet: the home of the tag is then no cohort at all, and a
    cluster that sits with every other cluster of its tag in the fleet is flagged. *)
Lemma absent_members_flagged : flag as_met (list_to_map [("c1", "auto-1")])
    (dominantAuto as_met (list_to_map [("c1", "auto-1")]) (list_to_map [("c1", "edge"); ("c2", "edge"); ("c3", "edge")]))
    ("c1", "edge") = Some {| mc_Cluster := "c1"; mc_TaggedAs := "edge"; mc_ProfileMatches := "" |}.
Proof. vm_compute. reflexivity. Qed.

(** Eight clusters in two sizes: [d] is tagged with the small ones and sits with the large. *)
Definition sized (c : string) (n : Z) : string * json := (c, JObj [("node_count", JNum (f_of_Z n))]).

Definition two_sizes : Report :=
  let sections : gmap string SectionReport := {[ "resources" := {| sr_Uniform := false;
    sr_PerCluster := list_to_map [sized "a" 3; sized "b" 3; sized "c" 3; sized "d" 90; sized "e" 90; sized "f" 90; sized "g" 90;
                                  sized "h" 3];
    sr_Divergences := [] |} ]} in {|
  rp_Clusters := ["a"; "b"; "c"; "d"; "e"; "f"; "g"; "h"]; rp_Sections := sections; rp_Summary := summary_zero; rp_Findings := [];
  rp_ClusterHealths := []; rp_Outliers := []; rp_Distributions := []; rp_DeviationMass := ∅;
  rp_ScoreAttribution := None; rp_FleetScore := fleet_score_zero; rp_Cohorts := []; rp_Degraded := [];
  rp_Incidents := []; rp_Notes := []; rp_runs := None |}.

Definition size_tags : gmap string string := list_to_map [("a", "small"); ("b", "small"); ("c", "small"); ("d", "small")].

Lemma wrong_cohort_exact_witness :
  (forall A (l : list A), as_met A l ≡ₚ l) /\
  detectMisCohort map_to_list as_met two_sizes size_tags =
    [{| mc_Cluster := "d"; mc_TaggedAs := "small"; mc_ProfileMatches := "" |}] /\
  minMisCohortFleet <= length (rp_Clusters two_sizes).
Proof.
  assert (H : forall A (l : list A), as_met A l ≡ₚ l) by (intros; reflexivity).
  split; [exact H|]. split; [vm_compute; reflexivity|].
  destruct (wrong_cohort_exact map_to_list as_met H two_sizes size_tags) as (_ & _ & Hx).
  assert (Hd : detectMisCohort map_to_list as_met two_sizes size_tags =
    [{| mc_Cluster := "d"; mc_TaggedAs := "small"; mc_ProfileMatches := "" |}]) by (vm_compute; reflexivity).
  specialize (Hx "d"%string "small"%string). rewrite Hd in Hx.
  exact (proj1 (proj1 Hx (ex_intro _ {| mc_Cluster := "d"; mc_TaggedAs := "small"; mc_ProfileMatches := "" |}
    (conj (list_elem_of_here _ _) (conj eq_refl eq_refl))))).
Defined.
