(* ===== verification/ScanDiff.v ===== *)
(** * internal/compare/compare.go: what changed between two reports

    Findings are matched by fingerprint, clusters by name. A missing report is an
    empty fleet. The text and Markdown renderings are not modelled, only the lines
    both take the drift from. *)

From Stdlib Require Import ZArith Lia String Sorted.
From stdpp Require Import base gmap strings list sets.
From S2P Require Import Prelude Float64 Text Data Format Rules Drift.

Local Open Scope nat_scope.

(** ** Data *)

Record SetDrift := {
  sd_Cluster : string;
  sd_Scanner : string;
  sd_Field : string;
  sd_NewlyMissing : list string;
  sd_Restored : list string
}.

Record ClusterStatusChange := { sc_Cluster : string; sc_Before : string; sc_After : string }.

Record ScanDiff := {
  dd_ScoreBefore : Z;
  dd_ScoreAfter : Z;
  dd_GradeBefore : string;
  dd_GradeAfter : string;
  dd_GradedBefore : bool;
  dd_GradedAfter : bool;
  dd_New : list Finding;
  dd_Resolved : list Finding;
  dd_Persisted : list Finding;
  dd_SetDrift : list SetDrift;
  dd_Drift : Ledger;
  dd_ClusterStatusChanges : list ClusterStatusChange;
  dd_AddedClusters : list string;
  dd_RemovedClusters : list string;
  dd_CriticalBefore : nat;
  dd_CriticalAfter : nat;
  dd_WarningBefore : nat;
  dd_WarningAfter : nat
}.

(** ** Findings *)

Definition FindingOrder : Finding -> Finding -> comparison :=
  cmp_lex (cmp_rev (cmp_on (fun f => SeverityRank (fi_Severity f)) Nat.compare))
    (cmp_lex (cmp_on fi_Cluster String.compare)
      (cmp_lex (cmp_on fi_Title String.compare) (cmp_on fi_Rule String.compare))).

Definition findings_of (r : option Report) : list Finding := match r with Some r => rp_Findings r | None => [] end.

(** The last finding of each fingerprint. *)
Definition finding_index (r : option Report) : gmap string Finding :=
  fold_left (fun m f => <[FindingFingerprint f := f]> m) (findings_of r) ∅.

Definition set_norm (f : Finding) : option NormBasis :=
  match fi_Norm f with Some n => if String.eqb (nb_Kind n) NormKindSet then Some n else None | None => None end.

Definition not_among (l m : list string) : list string :=
  List.filter (fun x => negb (existsb (String.eqb x) m)) l.

Definition setDrift (a b : Finding) : option SetDrift :=
  match set_norm a, set_norm b with
  | Some na, Some nb =>
      let newly := sort_strings (not_among (nb_Missing nb) (nb_Missing na)) in
      let restored := sort_strings (not_among (nb_Missing na) (nb_Missing nb)) in
      match newly, restored with
      | [], [] => None
      | _, _ => Some {| sd_Cluster := fi_Cluster b; sd_Scanner := fi_Scanner b; sd_Field := hd "" (fi_Affected b);
                        sd_NewlyMissing := newly; sd_Restored := restored |}
      end
  | _, _ => None
  end.

Definition set_drift_cmp : SetDrift -> SetDrift -> comparison :=
  cmp_lex (cmp_on sd_Cluster String.compare)
    (cmp_lex (cmp_on sd_Scanner String.compare) (cmp_on sd_Field String.compare)).

(** The findings of [x] whose fingerprint [y] has, or lacks. *)
Definition matched (has : bool) (x y : gmap string Finding) : list Finding :=
  map snd (List.filter (fun kf => Bool.eqb has (bool_decide (is_Some (y !! fst kf)))) (map_to_list x)).

Definition by_order (fs : list Finding) : list Finding := isort (less_of FindingOrder) fs.

Definition set_drifts (a b : gmap string Finding) : list SetDrift :=
  isort (less_of set_drift_cmp)
    (omap (fun kf => a !! fst kf ≫= fun prev => setDrift prev (snd kf)) (map_to_list b)).

(** ** Clusters *)

Definition health_index (r : option Report) : gmap string string :=
  match r with
  | Some r => fold_left (fun m h => <[ch_Name h := ch_Status h]> m) (rp_ClusterHealths r) ∅
  | None => ∅
  end.

Definition keys_without (x y : gmap string string) : list string :=
  sort_strings (elements (dom x ∖ dom y)).

Definition status_changes (a b : gmap string string) : list ClusterStatusChange :=
  isort (less_of (cmp_on sc_Cluster String.compare))
    (omap (fun na => a !! fst na ≫= fun before =>
       if String.eqb before (snd na) then None
       else Some {| sc_Cluster := fst na; sc_Before := before; sc_After := snd na |}) (map_to_list b)).

(** ** Diff *)

Definition score_of (r : option Report) : FleetScore := match r with Some r => rp_FleetScore r | None => fleet_score_zero end.
Definition summary_of (r : option Report) : Summary := match r with Some r => rp_Summary r | None => summary_zero end.

Definition Diff (a b : option Report) : ScanDiff :=
  let aIdx := finding_index a in
  let bIdx := finding_index b in
  let aHealth := health_index a in
  let bHealth := health_index b in {|
  dd_ScoreBefore := fs_Score (score_of a);
  dd_ScoreAfter := fs_Score (score_of b);
  dd_GradeBefore := fs_Grade (score_of a);
  dd_GradeAfter := fs_Grade (score_of b);
  dd_GradedBefore := fs_Graded (score_of a);
  dd_GradedAfter := fs_Graded (score_of b);
  dd_New := by_order (matched false bIdx aIdx);
  dd_Resolved := by_order (matched false aIdx bIdx);
  dd_Persisted := by_order (matched true bIdx aIdx);
  dd_SetDrift := set_drifts aIdx bIdx;
  dd_Drift := DriftLedger [{| sn_ID := ""; sn_Report := a |}; {| sn_ID := ""; sn_Report := b |}];
  dd_ClusterStatusChanges := status_changes aHealth bHealth;
  dd_AddedClusters := keys_without bHealth aHealth;
  dd_RemovedClusters := keys_without aHealth bHealth;
  dd_CriticalBefore := su_CriticalCount (summary_of a);
  dd_CriticalAfter := su_CriticalCount (summary_of b);
  dd_WarningBefore := su_WarningCount (summary_of a);
  dd_WarningAfter := su_WarningCount (summary_of b) |}.

Definition ScoreComparable (d : ScanDiff) : bool := dd_GradedBefore d && dd_GradedAfter d.

Definition scoreCell (score : Z) (grade : string) (graded : bool) : string :=
  if graded then (itoa score ++ " (" ++ grade ++ ")")%string else "not graded".

Definition ungradedNote (d : ScanDiff) : string :=
  if negb (dd_GradedBefore d) && negb (dd_GradedAfter d) then "neither scan graded"
  else if negb (dd_GradedBefore d) then "before not graded"
  else "after not graded".

(** ** Drift lines *)

Definition maxDriftLines : nat := 10.

(** [%+.1f]. *)
Definition signed_fixed (x : float64) : string :=
  if f_sign x || f_is_inf x then show_fixed 1 x else ("+" ++ show_fixed 1 x)%string.

Definition orDash (s : string) : string := if String.eqb s "" then "-" else s.

Definition flagText (f : FlagChange) : string :=
  if String.eqb (fc_Scan f) "" then (fc_Scanner f ++ "/" ++ fc_Field f)%string
  else (fc_Scanner f ++ "/" ++ fc_Field f ++ " since " ++ fc_Scan f)%string.

Definition drift_line (c : ClusterDrift) : string :=
  let f1 := show_fixed 1 in
  join ", "
    ([(cd_Cluster c ++ " deviation " ++ f1 (cd_MassBefore c) ++ " -> " ++ f1 (cd_MassAfter c) ++ " (" ++
       signed_fixed (cd_MassDelta c) ++ ")")%string] ++
     match cd_Fields c with
     | f :: _ => [(fdr_Scanner f ++ "/" ++ fdr_Field f ++ " " ++ orDash (fdr_Before f) ++ " -> " ++ orDash (fdr_After f)
                   ++ " (z " ++ f1 (fdr_ZBefore f) ++ " -> " ++ f1 (fdr_ZAfter f) ++ ")")%string]
     | [] => []
     end ++
     map (fun g => ("now flagged on " ++ flagText g)%string) (cd_Gained c) ++
     map (fun g => ("no longer flagged on " ++ flagText g)%string) (cd_Lost c)).

Definition DriftLines (l : Ledger) (limit : nat) : list string :=
  let rows := le_Clusters l in
  map drift_line (take limit rows) ++
  (if limit <? length rows
   then [("... and " ++ itoa (Z.of_nat (length rows - limit)) ++ " more")%string] else []).

Definition setDriftText (s : SetDrift) : string :=
  (" " ++ join "; "
    ((match sd_NewlyMissing s with [] => [] | l => [("now missing " ++ join ", " l)%string] end) ++
     (match sd_Restored s with [] => [] | l => [("restored " ++ join ", " l)%string] end)))%string.

(** ** Lemmas *)

Lemma finding_index_lookup r k : finding_index r !! k =
  last (List.filter (fun f => String.eqb (FindingFingerprint f) k) (findings_of r)).
Proof.
  unfold finding_index. induction (findings_of r) as [|f l IH] using rev_ind; [done|].
  rewrite fold_left_app, List.filter_app. simpl. destruct (String.eqb_spec (FindingFingerprint f) k) as [<-|Hne].
  - by rewrite lookup_insert_eq, last_snoc.
  - by rewrite lookup_insert_ne, IH, app_nil_r.
Qed.

(** The index holds findings under their own fingerprints. *)
Lemma finding_index_key r k f : finding_index r !! k = Some f -> FindingFingerprint f = k /\ f ∈ findings_of r.
Proof.
  rewrite finding_index_lookup. intros H%last_Some_elem_of%list_elem_of_In%filter_In.
  destruct H as [Hf Hk%String.eqb_eq]. split; [done|by apply list_elem_of_In].
Qed.

Lemma finding_index_some r k : is_Some (finding_index r !! k) <-> k ∈ map FindingFingerprint (findings_of r).
Proof.
  split.
  - intros [f [<- Hf]%finding_index_key]. apply list_elem_of_fmap. eauto.
  - intros (f & -> & Hf)%list_elem_of_fmap. rewrite finding_index_lookup.
    destruct (last _) eqn:E; [done|]. apply last_None in E.
    assert (In f []) as []. rewrite <- E. apply filter_In. split; [by apply list_elem_of_In|apply String.eqb_refl].
Qed.

Lemma matched_elem has r s f : f ∈ matched has (finding_index r) (finding_index s) <->
  finding_index r !! FindingFingerprint f = Some f /\
  has = bool_decide (FindingFingerprint f ∈ map FindingFingerprint (findings_of s)).
Proof.
  unfold matched. rewrite list_elem_of_fmap. split.
  - intros ([k g] & -> & Hin). apply list_elem_of_In, filter_In in Hin as [Hm Hh%eqb_prop].
    apply list_elem_of_In, elem_of_map_to_list in Hm. simpl in *.
    destruct (finding_index_key r k g Hm) as [<- _]. split; [done|].
    rewrite Hh. apply bool_decide_ext, finding_index_some.
  - intros [Hm Hh]. exists (FindingFingerprint f, f). split; [done|].
    apply list_elem_of_In, filter_In. split; [by apply list_elem_of_In, elem_of_map_to_list|]. simpl.
    rewrite Hh, (bool_decide_ext _ _ (finding_index_some s (FindingFingerprint f))). by destruct (bool_decide _).
Qed.

(** No two findings of a list the diff makes share a fingerprint. *)
Lemma matched_keys has r s : NoDup (map FindingFingerprint (matched has (finding_index r) (finding_index s))).
Proof.
  unfold matched. rewrite map_map.
  replace (map (fun x => FindingFingerprint (snd x)) _) with
    (map fst (List.filter (fun kf => Bool.eqb has (bool_decide (is_Some (finding_index s !! fst kf))))
      (map_to_list (finding_index r)))).
  - pose proof (NoDup_fst_map_to_list (finding_index r)) as H. revert H.
    induction (map_to_list (finding_index r)) as [|kf l IH]; [constructor|]. simpl.
    intros [Hn Hnd]%NoDup_cons. specialize (IH Hnd). destruct (Bool.eqb _ _); [|done]. simpl. constructor; [|done].
    intros (kf' & E & Hin)%list_elem_of_fmap. apply Hn, list_elem_of_fmap. exists kf'. split; [done|].
    apply list_elem_of_In, filter_In in Hin as [Hin _]. by apply list_elem_of_In.
  - apply map_ext_in. intros [k f] [Hin _]%filter_In. apply list_elem_of_In, elem_of_map_to_list in Hin.
    by destruct (finding_index_key r k f Hin).
Qed.

Lemma by_order_elem fs f : f ∈ by_order fs <-> f ∈ fs.
Proof. apply isort_elem_of. Qed.

Lemma by_order_keys fs : NoDup (map FindingFingerprint fs) -> NoDup (map FindingFingerprint (by_order fs)).
Proof. unfold by_order. by rewrite (isort_perm _ fs). Qed.

Lemma by_order_sorted fs : StronglySorted (cmp_le FindingOrder) (by_order fs).
Proof. apply isort_sorted. unfold FindingOrder. apply _. Qed.

(** ** Properties *)

Module Changes.

(** The diff sorts every finding into exactly one place. The fingerprints of B
    are those of New and Persisted together, and New holds the ones A lacks; Resolved
    holds exactly A's fingerprints that B lacks; each fingerprint is listed once, by
    its report's last finding; and the lists are in the order of severity, cluster,
    title and rule. *)
Theorem diff_partitions a b :
  let d := Diff a b in
  let key f := FindingFingerprint f in
  (forall k, k ∈ map key (dd_New d) <-> k ∈ map key (findings_of b) /\ k ∉ map key (findings_of a)) /\
  (forall k, k ∈ map key (dd_Persisted d) <-> k ∈ map key (findings_of b) /\ k ∈ map key (findings_of a)) /\
  (forall k, k ∈ map key (dd_Resolved d) <-> k ∈ map key (findings_of a) /\ k ∉ map key (findings_of b)) /\
  NoDup (map key (dd_New d)) /\ NoDup (map key (dd_Persisted d)) /\ NoDup (map key (dd_Resolved d)) /\
  (forall f, f ∈ dd_New d \/ f ∈ dd_Persisted d -> finding_index b !! key f = Some f) /\
  (forall f, f ∈ dd_Resolved d -> finding_index a !! key f = Some f) /\
  Forall (StronglySorted (cmp_le FindingOrder)) [dd_New d; dd_Resolved d; dd_Persisted d].
Proof.
  intros d key.
  assert (forall has r s k, k ∈ map key (by_order (matched has (finding_index r) (finding_index s))) <->
    k ∈ map key (findings_of r) /\ has = bool_decide (k ∈ map key (findings_of s))) as Hk.
  { intros has r s k. rewrite list_elem_of_fmap. setoid_rewrite by_order_elem. setoid_rewrite matched_elem. split.
    - intros (f & -> & Hf & Hh). split; [|done]. apply finding_index_some. by exists f.
    - intros [[f Hf]%finding_index_some Hh]. destruct (finding_index_key r k f Hf) as [<- _]. by exists f. }
  unfold d, Diff. cbn [dd_New dd_Resolved dd_Persisted]. split_and!.
  - intros k. rewrite Hk. by case_bool_decide; naive_solver.
  - intros k. rewrite Hk. by case_bool_decide; naive_solver.
  - intros k. rewrite Hk. by case_bool_decide; naive_solver.
  - apply by_order_keys, matched_keys.
  - apply by_order_keys, matched_keys.
  - apply by_order_keys, matched_keys.
  - intros f [Hf|Hf]; by apply by_order_elem, matched_elem in Hf as [Hf _].
  - intros f Hf. by apply by_order_elem, matched_elem in Hf as [Hf _].
  - repeat constructor; apply by_order_sorted.
Qed.

(** A cluster is added, removed, changed or unchanged by its name. *)
Lemma cluster_changes a b c :
  let d := Diff a b in
  (c ∈ dd_AddedClusters d <-> is_Some (health_index b !! c) /\ health_index a !! c = None) /\
  (c ∈ dd_RemovedClusters d <-> is_Some (health_index a !! c) /\ health_index b !! c = None) /\
  (c ∈ map sc_Cluster (dd_ClusterStatusChanges d) <->
     exists before after, health_index a !! c = Some before /\ health_index b !! c = Some after /\ before <> after).
Proof.
  intros d.
  assert (forall x y : gmap string string, c ∈ keys_without x y <-> is_Some (x !! c) /\ y !! c = None) as H.
  { intros x y. unfold keys_without. by rewrite sort_strings_elem_of, elem_of_elements, elem_of_difference,
      elem_of_dom, not_elem_of_dom. }
  split_and!; [apply H|apply H|]. unfold d, Diff, status_changes. cbn [dd_ClusterStatusChanges].
  rewrite list_elem_of_fmap. setoid_rewrite isort_elem_of. setoid_rewrite list_elem_of_omap. split.
  - intros (x & -> & [n after] & Hin%elem_of_map_to_list & (before & Hb & Hx)%bind_Some). simpl in *.
    destruct (String.eqb_spec before after); [done|]. injection Hx as <-. eauto.
  - intros (before & after & Ha & Hb & Hne). eexists. split; [|exists (c, after); split; [by apply elem_of_map_to_list|]].
    2:{ simpl. rewrite Ha. simpl. apply String.eqb_neq in Hne as ->. reflexivity. } done.
Qed.

(** Reading the diff backwards swaps what is new and what is resolved. *)
Lemma diff_reversed a b : dd_New (Diff b a) = dd_Resolved (Diff a b) /\ dd_AddedClusters (Diff b a) = dd_RemovedClusters (Diff a b).
Proof. done. Qed.

End Changes.
