(* ===== verification/Recurrence.v ===== *)
(** * internal/report/persistence.go and incident.go

    How often a finding recurs over a window of scans, and which findings of one
    cluster are one incident. *)

From Stdlib Require Import ZArith Lia String Sorted.
From stdpp Require Import base gmap strings list sets.
From S2P Require Import Prelude Maps Float64 Ratio Text Data Rules.

Local Open Scope nat_scope.

(** ** persistence.go *)

Definition PersistenceChronic : string := "chronic".
Definition PersistenceIntermittent : string := "intermittent".
Definition PersistenceTransient : string := "transient".

Definition chronicFraction : float64 := f_const 7 10.
Definition transientFraction : float64 := f_const 3 10.

Record FindingPersistence := {
  fp_Fingerprint : string;
  fp_Cluster : string;
  fp_Scanner : string;
  fp_Rule : string;
  fp_Title : string;
  fp_Severity : string;
  fp_Present : nat;
  fp_Total : nat;
  fp_Fraction : float64;
  fp_Streak : nat;
  fp_Class : string;
  fp_Acked : bool
}.

Record agg := { ag_cluster : string; ag_scanner : string; ag_rule : string; ag_title : string;
                ag_severity : string; ag_present : nat }.

(** The findings of a scan that [inScan] lets through: the first of each
    fingerprint. *)
Fixpoint first_of_each (inScan : gset string) (scan : list Finding) : list Finding :=
  match scan with
  | [] => []
  | f :: scan' =>
      if bool_decide (FindingFingerprint f ∈ inScan) then first_of_each inScan scan'
      else f :: first_of_each ({[FindingFingerprint f]} ∪ inScan) scan'
  end.

Definition observe_finding (st : gmap string agg * list string) (f : Finding) : gmap string agg * list string :=
  let '(seen, order) := st in
  let fp := FindingFingerprint f in
  let fresh := {| ag_cluster := fi_Cluster f; ag_scanner := fi_Scanner f; ag_rule := fi_Rule f; ag_title := "";
                  ag_severity := ""; ag_present := 0 |} in
  let a := default fresh (seen !! fp) in
  (<[fp := {| ag_cluster := ag_cluster a; ag_scanner := ag_scanner a; ag_rule := ag_rule a; ag_title := fi_Title f;
              ag_severity := fi_Severity f; ag_present := S (ag_present a) |}]> seen,
   match seen !! fp with Some _ => order | None => order ++ [fp] end).

Definition observe_scan (st : gmap string agg * list string) (scan : list Finding) : gmap string agg * list string :=
  fold_left observe_finding (first_of_each ∅ scan) st.

Definition in_scan (fp : string) (scan : list Finding) : bool :=
  existsb (fun f => String.eqb (FindingFingerprint f) fp) scan.

(** The scans are read from the newest backwards until one lacks the finding. *)
Fixpoint streak_of (fp : string) (newest_first : list (list Finding)) : nat :=
  match newest_first with
  | [] => 0
  | scan :: older => if in_scan fp scan then S (streak_of fp older) else 0
  end.

Definition recentStreak (series : list (list Finding)) (fp : string) : nat := streak_of fp (rev series).

Definition persistenceClass (fraction : float64) : string :=
  if f_leb chronicFraction fraction then PersistenceChronic
  else if f_leb fraction transientFraction then PersistenceTransient
  else PersistenceIntermittent.

Definition persistence_less (a b : FindingPersistence) : bool :=
  if negb (f_eqb (fp_Fraction a) (fp_Fraction b)) then f_ltb (fp_Fraction b) (fp_Fraction a)
  else
    let si := SeverityRank (fp_Severity a) in
    let sj := SeverityRank (fp_Severity b) in
    if negb (si =? sj) then sj <? si
    else if negb (String.eqb (fp_Cluster a) (fp_Cluster b)) then str_ltb (fp_Cluster a) (fp_Cluster b)
    else str_ltb (fp_Title a) (fp_Title b).

Definition persistence_of (series : list (list Finding)) (acked : gset string) (fp : string) (a : agg) :
  FindingPersistence :=
  let frac := share_of (ag_present a) (length series) in {|
  fp_Fingerprint := fp; fp_Cluster := ag_cluster a; fp_Scanner := ag_scanner a; fp_Rule := ag_rule a;
  fp_Title := ag_title a; fp_Severity := ag_severity a; fp_Present := ag_present a; fp_Total := length series;
  fp_Fraction := frac; fp_Streak := recentStreak series fp; fp_Class := persistenceClass frac;
  fp_Acked := bool_decide (fp ∈ acked) |}.

Definition ComputePersistence (series : list (list Finding)) (acked : gset string) : list FindingPersistence :=
  match series with
  | [] => []
  | _ =>
      let '(seen, order) := fold_left observe_scan series (∅, []) in
      isort persistence_less (omap (fun fp => persistence_of series acked fp <$> seen !! fp) order)
  end.

(** ** incident.go *)

Definition incidentThemes : list (string * string) := [
  ("admission", "admission-control"); ("certs", "admission-control"); ("deprecated-apis", "admission-control");
  ("node-health", "node-pressure"); ("metrics", "node-pressure"); ("events", "node-pressure");
  ("workload-security", "security-posture"); ("rbac-audit", "security-posture"); ("security", "security-posture");
  ("network-policies", "security-posture"); ("image-audit", "security-posture")].

Definition incidentTitles : list (string * string) := [
  ("admission-control", "admission path degraded");
  ("node-pressure", "resource exhaustion");
  ("security-posture", "security posture gaps")].

Definition incidentSummaries : list (string * string) := [
  ("admission-control", "Certificate, webhook, and deprecated-API problems overlap on this cluster and point at a failing admission path. A broken admission webhook can cascade into rejected or unvalidated workloads.");
  ("node-pressure", "Node pressure, elevated utilization, and a warning-event spike overlap on this cluster and point at resource exhaustion. Pods risk eviction and OOM kills.");
  ("security-posture", "Workload-security, RBAC, network-policy, and image gaps overlap on this cluster and widen its attack surface at the same time.")].

(** The cluster and theme a finding is filed under. *)
Definition incident_key (f : Finding) : option (string * string) :=
  match assoc (fi_Scanner f) incidentThemes with
  | Some theme =>
      if String.eqb (fi_Cluster f) "" || String.eqb (fi_Cluster f) "fleet" then None
      else Some (fi_Cluster f, theme)
  | None => None
  end.

Definition maxSeverityOf (fs : list Finding) : string :=
  fold_left (fun best f => if SeverityRank best <? SeverityRank (fi_Severity f) then fi_Severity f else best)
    fs SeverityInfo.

Definition incident_cmp : Incident -> Incident -> comparison :=
  cmp_lex (cmp_rev (cmp_on (fun i => SeverityRank (in_Severity i)) Nat.compare))
    (cmp_lex (cmp_on in_Cluster String.compare) (cmp_on in_Theme String.compare)).

Definition incident_of (key : string * string) (fs : list Finding) : Incident := {|
  in_Cluster := fst key;
  in_Title := (fst key ++ ": " ++ default "" (assoc (snd key) incidentTitles) ++ " (" ++
               itoa (Z.of_nat (length fs)) ++ " signals)")%string;
  in_Theme := snd key;
  in_Severity := maxSeverityOf fs;
  in_Summary := default "" (assoc (snd key) incidentSummaries);
  in_Findings := sort_strings (map fi_Title fs) |}.

Definition incident_groups (findings : list Finding) : gmap (string * string) (list Finding) :=
  file_under (omap (fun f => (fun k => (k, f)) <$> incident_key f) findings).

Definition fuseIncidents (findings : list Finding) : list Incident :=
  isort (less_of incident_cmp)
    (omap (fun kf => if length (snd kf) <? 2 then None else Some (incident_of (fst kf) (snd kf)))
      (map_to_list (incident_groups findings))).

(** ** Facts: persistence *)

#[local] Arguments FindingFingerprint : simpl never.

Lemma first_of_each_spec scan inScan fp :
  length (List.filter (fun f => String.eqb (FindingFingerprint f) fp) (first_of_each inScan scan)) =
  if bool_decide (fp ∈ inScan) then 0 else if in_scan fp scan then 1 else 0.
Proof.
  revert inScan. induction scan as [|f scan IH]; intros inScan; simpl; [by destruct (bool_decide _)|].
  destruct (bool_decide_reflect (FindingFingerprint f ∈ inScan)) as [Hf|Hf]; simpl.
  - rewrite IH. destruct (String.eqb_spec (FindingFingerprint f) fp) as [E|]; [|done].
    by rewrite bool_decide_eq_true_2 by (by rewrite <- E).
  - destruct (String.eqb_spec (FindingFingerprint f) fp) as [<-|Hne]; simpl; rewrite IH.
    + rewrite bool_decide_eq_true_2 by set_solver. by rewrite bool_decide_eq_false_2.
    + by rewrite (bool_decide_ext (fp ∈ {[FindingFingerprint f]} ∪ inScan) (fp ∈ inScan)) by set_solver.
Qed.

(** What the loop knows after some findings: one entry per fingerprint, counted. *)
Record tallied (count : string -> nat) (st : gmap string agg * list string) : Prop := {
  tally_present : forall fp, ag_present <$> fst st !! fp = if count fp =? 0 then None else Some (count fp);
  tally_order : NoDup (snd st);
  tally_dom : forall fp, fp ∈ snd st <-> is_Some (fst st !! fp)
}.

Lemma observe_finding_tallied count st f : tallied count st ->
  tallied (fun fp => count fp + if String.eqb (FindingFingerprint f) fp then 1 else 0) (observe_finding st f).
Proof.
  destruct st as [seen order]. intros [Hp Ho Hd]. unfold observe_finding. simpl in *. set (key := FindingFingerprint f). split.
  - intros fp. simpl. destruct (String.eqb_spec key fp) as [<-|Hne].
    + rewrite lookup_insert_eq. simpl. specialize (Hp key). destruct (Nat.eqb_spec (count key + 1) 0); [lia|].
      f_equal. destruct (seen !! key) as [a|]; simpl in *; destruct (Nat.eqb_spec (count key) 0); simplify_eq; lia.
    + rewrite lookup_insert_ne, Nat.add_0_r by done. apply Hp.
  - simpl. destruct (seen !! key) eqn:E; [done|]. apply NoDup_app. split_and!; [done| |apply NoDup_singleton].
    intros x Hx ->%list_elem_of_singleton. apply Hd in Hx. rewrite E in Hx. by destruct Hx.
  - intros fp. simpl. destruct (decide (key = fp)) as [<-|Hne].
    + rewrite lookup_insert_eq. split; [done|intros _]. destruct (seen !! key) eqn:E; [by apply Hd; rewrite E|].
      apply elem_of_app. right. left.
    + rewrite lookup_insert_ne, <- Hd by done. destruct (seen !! key); [done|].
      rewrite elem_of_app, list_elem_of_singleton. naive_solver.
Qed.

Lemma tallied_ext count count' st : (forall fp, count fp = count' fp) -> tallied count st -> tallied count' st.
Proof. intros E [Hp Ho Hd]. split; [|done..]. intros fp. rewrite <- E. apply Hp. Qed.

Lemma observe_all_tallied fs count st : tallied count st ->
  tallied (fun fp => count fp + length (List.filter (fun f => String.eqb (FindingFingerprint f) fp) fs))
    (fold_left observe_finding fs st).
Proof.
  revert count st. induction fs as [|f fs IH]; intros count st H; simpl.
  - by apply (tallied_ext count); [intros; lia|].
  - eapply tallied_ext; [|apply IH, observe_finding_tallied, H]. intros fp. simpl.
    destruct (String.eqb _ _); simpl; lia.
Qed.

Lemma series_tallied series : tallied (fun fp => length (List.filter (in_scan fp) series))
  (fold_left observe_scan series (∅, [])).
Proof.
  induction series as [|scan series IH] using rev_ind.
  - split; simpl; [intros fp; by rewrite lookup_empty|constructor|].
    intros fp. rewrite lookup_empty. split; [by intros H%elem_of_nil|by intros [? [=]]].
  - rewrite fold_left_app. simpl. eapply tallied_ext; [|apply observe_all_tallied, IH].
    intros fp. simpl. rewrite first_of_each_spec, bool_decide_eq_false_2 by set_solver.
    rewrite List.filter_app, length_app. simpl. by destruct (in_scan fp scan).
Qed.

Lemma streak_spec fp l : exists k, streak_of fp l = k /\ k <= length (List.filter (in_scan fp) l) /\
  (forall scan, scan ∈ take k l -> in_scan fp scan = true) /\ (forall scan, l !! k = Some scan -> in_scan fp scan = false).
Proof.
  induction l as [|scan l (k & E & Hle & Hin & Hnext)]; simpl.
  - exists 0. split_and!; [done|lia| |done]. by intros s Hs%elem_of_nil.
  - destruct (in_scan fp scan) eqn:Es.
    + exists (S k). split_and!; [by rewrite E|simpl; lia| |done].
      simpl. intros s [->|Hs]%elem_of_cons; [done|by apply Hin].
    + exists 0. split_and!; [done|lia|by intros s Hs%elem_of_nil|]. simpl. by intros s [= <-].
Qed.

(** ** Facts: the class as a fraction *)

(** server/findings_timeline_handler.go [replayMaxScans]: no request classifies a
    longer window. *)
Definition replayMaxScans : nat := 60.

Definition class_ratio (k n : nat) : string :=
  if 7 * n <=? 10 * k then PersistenceChronic
  else if 10 * k <=? 3 * n then PersistenceTransient
  else PersistenceIntermittent.

Lemma classes_checked : forallb (fun n => forallb (fun k =>
    String.eqb (persistenceClass (share_of k n)) (class_ratio k n)) (seq 0 (S n))) (seq 1 replayMaxScans) = true.
Proof. vm_compute. reflexivity. Qed.

Lemma class_exact k n : 0 < n <= replayMaxScans -> k <= n -> persistenceClass (share_of k n) = class_ratio k n.
Proof.
  intros Hn Hk. pose proof classes_checked as H. rewrite forallb_forall in H.
  specialize (H n ltac:(apply in_seq; lia)). rewrite forallb_forall in H.
  specialize (H k ltac:(apply in_seq; lia)). by apply String.eqb_eq in H.
Qed.

(** ** Facts: incidents *)

(** The finding is filed under the key. *)
Definition filed (k : string * string) (f : Finding) : bool := bool_decide (incident_key f = Some k).

#[local] Arguments filed : simpl never.

Lemma filed_true k f : incident_key f = Some k -> filed k f = true.
Proof. apply bool_decide_eq_true_2. Qed.

Lemma filed_false k f : incident_key f <> Some k -> filed k f = false.
Proof. apply bool_decide_eq_false_2. Qed.

Lemma incident_groups_lookup findings k :
  incident_groups findings !! k =
  match List.filter (filed k) findings with [] => None | fs => Some fs end.
Proof.
  unfold incident_groups. rewrite file_under_lookup.
  enough (omap (fun ka : (string * string) * Finding => if decide (fst ka = k) then Some (snd ka) else None)
    (omap (fun f => (fun k => (k, f)) <$> incident_key f) findings) =
    List.filter (filed k) findings) as -> by done.
  induction findings as [|f l IH]; [done|]. simpl. destruct (incident_key f) as [k'|] eqn:E; simpl.
  - destruct (decide (k' = k)) as [->|Hne].
    + rewrite filed_true by done. f_equal. exact IH.
    + rewrite filed_false by congruence. exact IH.
  - rewrite filed_false by congruence. exact IH.
Qed.

Lemma maxSeverity_spec fs : let m := maxSeverityOf fs in
  (m = SeverityInfo \/ exists f, f ∈ fs /\ fi_Severity f = m) /\ forall f, f ∈ fs -> SeverityRank (fi_Severity f) <= SeverityRank m.
Proof.
  unfold maxSeverityOf. enough (forall b, let m := fold_left (fun best f =>
      if SeverityRank best <? SeverityRank (fi_Severity f) then fi_Severity f else best) fs b in
    (m = b \/ exists f, f ∈ fs /\ fi_Severity f = m) /\ SeverityRank b <= SeverityRank m /\
    forall f, f ∈ fs -> SeverityRank (fi_Severity f) <= SeverityRank m) as H.
  { destruct (H SeverityInfo) as (H1 & _ & H3). by split. }
  induction fs as [|f fs IH]; intros b; simpl.
  - split_and!; [by left|lia|]. by intros f Hf%elem_of_nil.
  - destruct (Nat.ltb_spec (SeverityRank b) (SeverityRank (fi_Severity f))).
    + destruct (IH (fi_Severity f)) as (H1 & H2 & H3). split_and!; [|lia|].
      * right. destruct H1 as [->|(g & Hg & E)]; [exists f; split; [left|done]|exists g; split; [by right|done]].
      * intros g [->|Hg]%elem_of_cons; [done|by apply H3].
    + destruct (IH b) as (H1 & H2 & H3). split_and!; [|done|].
      * destruct H1 as [->|(g & Hg & E)]; [by left|right; exists g; split; [by right|done]].
      * intros g [->|Hg]%elem_of_cons; [lia|by apply H3].
Qed.

(** ** Properties *)

Module Recurrence.

(** Over a window no longer than the service allows, each finding that occurs is
    reported once, with the number of scans that hold it, the run of newest scans that
    hold it, and the class its exact share of the window puts it in. *)
Theorem persistence_counts series acked :
  length series <= replayMaxScans ->
  let out := ComputePersistence series acked in
  NoDup (map fp_Fingerprint out) /\
  (forall fp, fp ∈ map fp_Fingerprint out <-> exists scan, scan ∈ series /\ in_scan fp scan = true) /\
  forall e, e ∈ out ->
    fp_Present e = length (List.filter (in_scan (fp_Fingerprint e)) series) /\
    fp_Total e = length series /\
    fp_Class e = class_ratio (fp_Present e) (fp_Total e) /\
    fp_Streak e <= fp_Present e /\
    (forall scan, scan ∈ take (fp_Streak e) (rev series) -> in_scan (fp_Fingerprint e) scan = true) /\
    (forall scan, rev series !! fp_Streak e = Some scan -> in_scan (fp_Fingerprint e) scan = false) /\
    (fp_Acked e = true <-> fp_Fingerprint e ∈ acked).
Proof.
  intros Hw out. destruct (decide (series = [])) as [->|Hne].
  { unfold out. simpl. split_and!; [constructor| |by intros e He%elem_of_nil].
    intros fp. split; [by intros H%elem_of_nil|by intros (s & H%elem_of_nil & _)]. }
  assert (0 < length series) as Hpos by (destruct series; [done|simpl; lia]).
  pose proof (series_tallied series) as [Hp Ho Hd]. set (st := fold_left observe_scan series (∅, [])) in *.
  set (rows := omap (fun fp => persistence_of series acked fp <$> fst st !! fp) (snd st)).
  assert (out = isort persistence_less rows) as ->.
  { unfold out, ComputePersistence, rows. destruct series as [|s l]; [done|]. fold st. by destruct st. }
  assert (map fp_Fingerprint rows = snd st) as Hkeys.
  { unfold rows. assert (forall fp, fp ∈ snd st -> is_Some (fst st !! fp)) as Hall by (intros; by apply Hd).
    clear Hp Ho Hd rows. revert Hall. induction (snd st) as [|fp l IH]; intros Hall; [done|]. simpl.
    destruct (Hall fp) as [a Ha]; [left|]. rewrite Ha. simpl. f_equal. apply IH. intros. apply Hall. by right. }
  split_and!.
  - rewrite (isort_perm persistence_less rows), Hkeys. exact Ho.
  - intros fp. rewrite (isort_perm persistence_less rows), Hkeys, Hd. specialize (Hp fp).
    destruct (Nat.eqb_spec (length (List.filter (in_scan fp) series)) 0) as [E|E].
    + rewrite filter_none in E. split.
      * intros [a Ha]. rewrite Ha in Hp. done.
      * intros (s & Hs & Hin). rewrite (E s Hs) in Hin. done.
    + split; [intros _|intros _; by destruct (fst st !! fp)].
      destruct (List.filter (in_scan fp) series) as [|s l] eqn:El; [done|]. exists s.
      assert (In s (s :: l)) as Hs by (by left). rewrite <- El in Hs. apply filter_In in Hs as [Hs Hin].
      split; [by apply list_elem_of_In|done].
  - intros e He. apply isort_elem_of, list_elem_of_omap in He as (fp & _ & He).
    destruct (fst st !! fp) as [a|] eqn:Ea; [|done]. injection He as <-.
    specialize (Hp fp). rewrite Ea in Hp. simpl in Hp.
    destruct (Nat.eqb_spec (length (List.filter (in_scan fp) series)) 0); [done|]. injection Hp as Hp.
    unfold persistence_of. simpl. rewrite Hp.
    destruct (streak_spec fp (rev series)) as (k & Ek & Hk1 & Hk2 & Hk3). unfold recentStreak. rewrite Ek.
    assert (length (List.filter (in_scan fp) (rev series)) = length (List.filter (in_scan fp) series)) as Hrev.
    { apply Permutation_length, Permutation_filter. symmetry. apply Permutation_rev. }
    assert (length (List.filter (in_scan fp) series) <= length series) as Hle by apply List.filter_length_le.
    split_and!; [done|done|by apply class_exact|lia|done|done|apply bool_decide_eq_true].
Qed.

Definition scan_of (scanner : string) : list Finding := [ {|
  fi_Title := "t"; fi_Description := ""; fi_Severity := SeverityWarning; fi_Cluster := "c1"; fi_Scanner := scanner;
  fi_Rule := "r"; fi_Fingerprint := ""; fi_Acked := false; fi_Affected := []; fi_Remediation := None;
  fi_Norm := None; fi_Marks := [] |} ].

Definition three_scans : list (list Finding) := [scan_of "metrics"; []; scan_of "metrics"].

Lemma persistence_counts_witness : length three_scans <= replayMaxScans /\
  NoDup (map fp_Fingerprint (ComputePersistence three_scans ∅)).
Proof.
  assert (length three_scans <= replayMaxScans) as H by (unfold replayMaxScans; simpl; lia).
  split; [exact H|]. exact (proj1 (persistence_counts three_scans ∅ H)).
Defined.

(** Incidents are exactly the groups of two or more findings that share cluster
    and theme: each such group is one incident, of its highest severity and with its
    titles, and a finding of no theme or of no single cluster is in none. *)
Theorem incidents_exact findings :
  let out := fuseIncidents findings in
  let group k := List.filter (filed k) findings in
  NoDup (map (fun i => (in_Cluster i, in_Theme i)) out) /\
  (forall k, k ∈ map (fun i => (in_Cluster i, in_Theme i)) out <-> 2 <= length (group k)) /\
  (forall i, i ∈ out -> let k := (in_Cluster i, in_Theme i) in
     i = incident_of k (group k) /\ in_Findings i ≡ₚ map fi_Title (group k) /\
     forall f, f ∈ group k -> SeverityRank (fi_Severity f) <= SeverityRank (in_Severity i)).
Proof.
  intros out group. set (groups := incident_groups findings).
  set (make := fun kf : (string * string) * list Finding =>
    if length (snd kf) <? 2 then None else Some (incident_of (fst kf) (snd kf))).
  assert (forall i, i ∈ out <-> exists k fs, groups !! k = Some fs /\ 2 <= length fs /\ i = incident_of k fs) as Hout.
  { intros i. unfold out, fuseIncidents. rewrite isort_elem_of, list_elem_of_omap. split.
    - intros ([k fs] & Hin%elem_of_map_to_list & Hi). simpl in Hi. destruct (Nat.ltb_spec (length fs) 2); [done|].
      injection Hi as <-. by exists k, fs.
    - intros (k & fs & Hg & Hl & ->). exists (k, fs). split; [by apply elem_of_map_to_list|]. simpl.
      by destruct (Nat.ltb_spec (length fs) 2); [lia|]. }
  assert (forall k, match group k with [] => groups !! k = None | fs => groups !! k = Some fs end) as Hg.
  { intros k. unfold groups. rewrite incident_groups_lookup. fold (group k). by destruct (group k). }
  split_and!.
  - unfold out, fuseIncidents. rewrite (isort_perm _ _). fold groups make.
    pose proof (NoDup_fst_map_to_list groups) as Hnd. revert Hnd.
    induction (map_to_list groups) as [|[k fs] l IH]; intros Hnd; [constructor|]. simpl in Hnd.
    apply NoDup_cons in Hnd as [Hn Hnd]. specialize (IH Hnd). simpl. unfold make at 1. simpl.
    destruct (_ <? 2); [exact IH|]. simpl. constructor; [|exact IH].
    intros (i & E & ([k' fs'] & Hin & Hi)%list_elem_of_omap)%list_elem_of_fmap. unfold make in Hi. simpl in Hi.
    destruct (_ <? 2); [done|]. injection Hi as <-. apply Hn. apply list_elem_of_fmap. exists (k', fs').
    split; [|done]. simpl in *. by destruct k, k'.
  - intros k. rewrite list_elem_of_fmap. setoid_rewrite Hout. specialize (Hg k). split.
    + intros (i & -> & k' & fs & Hk & Hl & ->). specialize (Hg). simpl in *. rewrite <- surjective_pairing in Hg |- *.
      destruct (group k') as [|f fs'] eqn:Egr; rewrite Hk in Hg; [done|]. injection Hg as ->. done.
    + intros Hl. destruct (group k) as [|f fs] eqn:Egr; [simpl in Hl; lia|].
      exists (incident_of k (f :: fs)). split; [by destruct k|]. by exists k, (f :: fs).
  - intros i (k & fs & Hk & Hl & ->)%Hout. simpl. rewrite <- surjective_pairing. specialize (Hg k).
    destruct (group k) as [|f fs'] eqn:Egr; rewrite Hk in Hg; [done|]. injection Hg as ->.
    split_and!; [done|apply sort_strings_perm|]. apply maxSeverity_spec.
Qed.

End Recurrence.
