(* ===== verification/Brief.v ===== *)
(** * internal/report/brief.go: the executive summary

    The words a report opens with, from its score, its findings and its incidents. *)

From Stdlib Require Import ZArith Lia String Floats.SpecFloat.
From stdpp Require Import base gmap strings list.
From S2P Require Import Prelude Float64 Text Data Rules Score Observe Format Findings.

Local Open Scope nat_scope.

Record Brief := { br_Headline : string; br_Lines : list string }.

(** [countFindingsBySeverity] is Score's [count_severity]. *)
Definition counted (crit warn incidents : nat) : string :=
  (num_of crit ++ " critical and " ++ num_of warn ++ " warning findings across " ++ num_of incidents ++ " incidents.")%string.

Definition normStrength (n : NormBasis) : float64 := if nb_Exact n then f_inf false else f_abs (nb_Z n).

(** Whether [f] takes the place of the best norm finding so far. *)
Definition outranks (f : Finding) (n : NormBasis) (best : option (Finding * NormBasis)) : bool :=
  match best with
  | None => true
  | Some (b, bn) =>
      (SeverityRank (fi_Severity b) <? SeverityRank (fi_Severity f)) ||
      (String.eqb (fi_Severity f) (fi_Severity b) && f_ltb (normStrength bn) (normStrength n))
  end.

Definition strongest (findings : list Finding) : option (Finding * NormBasis) :=
  fold_left (fun best f =>
    match fi_Norm f with
    | None => best
    | Some n => if outranks f n best then Some (f, n) else best
    end) findings None.

Definition norm_sentence (f : Finding) (n : NormBasis) : string :=
  let start := ("Largest deviation: " ++ fi_Cluster f ++ " " ++ nb_Field n)%string in
  let scope := if String.eqb (nb_Scope n) NormScopeFleet then "a fleet"%string else ("the cohort " ++ quote (nb_Scope n))%string in
  let size := num_of (nb_SampleSize n) in
  if String.eqb (nb_Kind n) NormKindNumeric && nb_Exact n then
    (start ++ " is " ++ nb_Value n ++ ", where " ++
     exactNormPhrase (nb_ModeShare n) (nb_SampleSize n) (formatNum (nb_Median n)) (scopeNoun (nb_Scope n)) ++ ".")%string
  else if String.eqb (nb_Kind n) NormKindNumeric then
    (start ++ " is " ++ nb_Value n ++ " vs " ++ scope ++ " median of " ++ formatNum (nb_Median n) ++ " across " ++ size ++ " clusters.")%string
  else if String.eqb (nb_Kind n) NormKindString then
    (start ++ " is " ++ quote (nb_Value n) ++ " vs " ++ scope ++ " mode of " ++ quote (nb_Mode n) ++ " held by " ++
     show_fixed 0 (f_mul (nb_ModeShare n) (f_of_Z 100)) ++ "% of " ++ size ++ " clusters.")%string
  else if String.eqb (nb_Kind n) NormKindSet then
    (start ++ " lacks " ++ num_of (length (nb_Missing n)) ++ " of the " ++ num_of (length (nb_Consensus n)) ++ " members " ++
     scopeNoun (nb_Scope n) ++ " holds in common across " ++ size ++ " clusters.")%string
  else "".

Definition normLine (findings : list Finding) : string :=
  match strongest findings with None => "" | Some (f, n) => norm_sentence f n end.

Definition fix_text (f : Finding) : string :=
  match fi_Remediation f with
  | Some re => if String.eqb (re_Command re) "" then fi_Title f else (fi_Title f ++ " (" ++ re_Command re ++ ")")%string
  | None => fi_Title f
  end.

Definition actionable (f : Finding) : bool := negb (String.eqb (fi_Severity f) SeverityInfo).

Definition topFixes (findings : list Finding) (n : nat) : list string :=
  take n (map fix_text (List.filter actionable findings)).

Definition off_cohort (f : Finding) : bool :=
  match fi_Norm f with Some n => negb (String.eqb (nb_Scope n) NormScopeFleet) | None => false end.

Definition span (fs : FleetScore) : string :=
  ("from " ++ num_of (fs_SampleSize fs) ++ " clusters across " ++ num_of (fs_Dimensions fs) ++ " dimensions. ")%string.

(** [if c { lines = append(lines, s) }]. *)
Definition line_if (c : bool) (s : string) : list string := if c then [s] else [].

Definition generateBrief (r : Report) : Brief :=
  let findings := rp_Findings r in
  let crit := count_severity SeverityCritical findings in
  let warn := count_severity SeverityWarning findings in
  let fs := rp_FleetScore r in
  let coverage := coverageSentence (fs_Coverage fs) (length (rp_Clusters r)) in
  let counts := counted crit warn (length (rp_Incidents r)) in
  let drifted := length (List.filter off_cohort findings) in
  let norm := normLine findings in {|
  br_Headline :=
    if fs_Graded fs then ("Fleet score " ++ itoa (fs_Score fs) ++ " (" ++ fs_Grade fs ++ ") " ++ span fs ++ counts)%string
    else ("Not enough data: " ++ coverage)%string;
  br_Lines :=
    line_if (negb (fs_Graded fs)) ("Observed-only score " ++ itoa (fs_Score fs) ++ " " ++ span fs ++ counts) ++
    line_if (negb (String.eqb norm "")) norm ++
    line_if (fs_Graded fs && (0 <? fs_ExcludedClusters fs))
      (num_of (fs_ExcludedClusters fs) ++ " cluster(s) excluded from the score for insufficient data.") ++
    match rp_Incidents r with [] => [] | i :: _ => [("Worst incident: " ++ in_Title i ++ ".")%string] end ++
    line_if (0 <? drifted) (num_of drifted ++ " cluster metric(s) drifted from their cohort baseline.") ++
    (if fs_Graded fs && negb (String.eqb coverage "") then [coverage]
     else line_if (fs_Graded fs && (0 <? length (rp_Degraded r)))
       ("Coverage is partial: " ++ num_of (length (rp_Degraded r)) ++ " scanner run(s) degraded on " ++
        num_of (size (DegradedByCluster r)) ++ " cluster(s).")) ++
    map (fun s => "Fix: " ++ s)%string (topFixes findings 2) ++
    line_if (length findings =? 0) "No findings. The fleet is consistent." |}.

(** ** Facts *)

Lemma strongest_in fs f n : strongest fs = Some (f, n) -> f ∈ fs /\ fi_Norm f = Some n.
Proof.
  unfold strongest. revert f n. induction fs as [|x fs IH] using rev_ind; intros f n H; [done|].
  rewrite fold_left_app in H. cbn [fold_left] in H. destruct (fi_Norm x) as [m|] eqn:E.
  - destruct (outranks x m _); [|destruct (IH _ _ H); split; [apply elem_of_app; by left|done]].
    injection H as <- <-. split; [apply elem_of_app; right; by left|done].
  - destruct (IH _ _ H). split; [apply elem_of_app; by left|done].
Qed.

Lemma strongest_rank fs f n g m : strongest fs = Some (f, n) -> g ∈ fs -> fi_Norm g = Some m ->
  SeverityRank (fi_Severity g) <= SeverityRank (fi_Severity f).
Proof.
  unfold strongest. revert f n. induction fs as [|x fs IH] using rev_ind; intros f n H Hg Hm; [by apply not_elem_of_nil in Hg|].
  rewrite fold_left_app in H. cbn [fold_left] in H. destruct (fold_left _ fs None) as [[b bn]|] eqn:Eb.
  - assert (Hb : fi_Severity f = fi_Severity x \/ f = b) by
      (destruct (fi_Norm x); [destruct (outranks x _ _)|]; simplify_eq; auto).
    assert (Hxb : SeverityRank (fi_Severity b) <= SeverityRank (fi_Severity f)).
    { destruct (fi_Norm x) as [k|]; [|by simplify_eq]. destruct (outranks x k (Some (b, bn))) eqn:E; [|by simplify_eq].
      simplify_eq. apply orb_true_iff in E as [E|[E _]%andb_true_iff]; [apply Nat.ltb_lt in E; lia|].
      apply String.eqb_eq in E. by rewrite E. }
    apply elem_of_app in Hg as [Hg| ->%list_elem_of_singleton].
    + etransitivity; [by eapply IH|done].
    + rewrite Hm in H. destruct (outranks x m (Some (b, bn))) eqn:E; [by simplify_eq|]. injection H as <- <-.
      apply orb_false_iff in E as [E _]. by apply Nat.ltb_ge in E.
  - apply elem_of_app in Hg as [Hg| ->%list_elem_of_singleton]; [|rewrite Hm in H; cbn in H; by simplify_eq].
    exfalso. clear -Eb Hg Hm. induction fs as [|y fs IH] using rev_ind; [by apply not_elem_of_nil in Hg|].
    rewrite fold_left_app in Eb. cbn [fold_left] in Eb.
    apply elem_of_app in Hg as [Hg| ->%list_elem_of_singleton].
    + destruct (fi_Norm y); [destruct (outranks _ _ _); [done|]|]; by apply IH.
    + rewrite Hm in Eb. destruct (fold_left _ fs None) as [[? ?]|]; [by destruct (outranks _ _ _)|done].
Qed.

Module Summary.

(** The brief says the scan's worst first and never invents data. The headline grades
    the fleet exactly when the score is graded, and otherwise states the coverage that was
    missing and moves the score to a line that calls it observed-only; the quoted deviation
    belongs to a published norm finding of the greatest severity among them; the fixes are
    the first two findings above info; and a fleet nothing was found on is called consistent. *)
Theorem brief_faithful r :
  let b := generateBrief r in
  let fs := rp_FleetScore r in
  let coverage := coverageSentence (fs_Coverage fs) (length (rp_Clusters r)) in
  (fs_Graded fs = false -> br_Headline b = ("Not enough data: " ++ coverage)%string /\
     exists rest, br_Lines b = ("Observed-only score " ++ itoa (fs_Score fs) ++ " " ++ span fs ++
       counted (count_severity SeverityCritical (rp_Findings r)) (count_severity SeverityWarning (rp_Findings r))
         (length (rp_Incidents r)))%string :: rest) /\
  (forall f n, strongest (rp_Findings r) = Some (f, n) -> f ∈ rp_Findings r /\ fi_Norm f = Some n /\
     forall g m, g ∈ rp_Findings r -> fi_Norm g = Some m -> SeverityRank (fi_Severity g) <= SeverityRank (fi_Severity f)) /\
  (forall f n, strongest (rp_Findings r) = Some (f, n) -> norm_sentence f n <> ""%string -> norm_sentence f n ∈ br_Lines b) /\
  (forall f, In f (take 2 (List.filter actionable (rp_Findings r))) -> ("Fix: " ++ fix_text f)%string ∈ br_Lines b) /\
  (rp_Findings r = [] -> "No findings. The fleet is consistent."%string ∈ br_Lines b).
Proof.
  cbv zeta. unfold generateBrief. cbn [br_Headline br_Lines]. split_and!.
  - intros ->. cbn [negb line_if]. split; [done|]. eexists. reflexivity.
  - intros f n H. destruct (strongest_in _ _ _ H) as [Hin Hn]. split; [done|]. split; [done|].
    intros g m Hg Hm. by eapply strongest_rank.
  - intros f n H Hne. rewrite !elem_of_app. right. left. unfold normLine. rewrite H.
    apply String.eqb_neq in Hne. rewrite Hne. by left.
  - intros f Hf. rewrite !elem_of_app. do 6 right. left. apply list_elem_of_In. apply in_map_iff. exists (fix_text f).
    split; [done|]. unfold topFixes. rewrite firstn_map. by apply in_map.
  - intros ->. rewrite !elem_of_app. do 7 right. by left.
Qed.

End Summary.
