(* ===== verification/Trend.v ===== *)
(** * internal/report: trend.go, changepoint.go, trend_findings.go

    The history of a cluster: a series of values per tracked field, the direction of the
    line fitted to it, and the split after which the cluster left its own past. *)

From Stdlib Require Import ZArith Lia String Ascii Sorting.Sorted Floats.SpecFloat.
From stdpp Require Import base gmap strings list.
From S2P Require Import Prelude Maps Float64 Ratio GoTime Text Data Fields Format Population Rules Findings Compare.

Local Open Scope nat_scope.

(** ** trend.go: series *)

Definition TrendStable : string := "stable".
Definition TrendImproving : string := "improving".
Definition TrendWorsening : string := "worsening".

Record TrendPoint := { tp_Timestamp : Z; tp_ScanID : string; tp_Value : float64 }.

Record ClusterTrend := {
  ct_Cluster : string;
  ct_Scanner : string;
  ct_Field : string;
  ct_Points : list TrendPoint;
  ct_Direction : string;
  ct_Confidence : string;
  ct_RSquared : float64
}.

Record FleetTrend := {
  flt_Scanner : string;
  flt_Field : string;
  flt_Direction : string;
  flt_Points : list TrendPoint;
  flt_Confidence : string;
  flt_RSquared : float64
}.

Record ScanMeta := { sm_ID : string; sm_Timestamp : Z }.

(** Field values by scanner, and those by scan: [map[string]map[string]map[string]any]. *)
Abbreviation fieldTable := (gmap string (gmap string json)).
Abbreviation history := (gmap string fieldTable).

(** The table, and the scanners the joined error names. *)
Definition FieldMaps (results : gmap string Result) : fieldTable * gset string :=
  (omap (fun r => decode_map (res_Data r)) results,
   dom (D := gset string) (filter (fun kv : string * Result => decode_map (res_Data (snd kv)) = None) results)).

Definition point_at (scanner field : string) (h : history) (scan : ScanMeta) : option TrendPoint :=
  match h !! sm_ID scan with
  | None => None
  | Some scanResults =>
      match scanResults !! scanner with
      | None => None
      | Some data =>
          match util_Float64 (data !! field) with
          | None => None
          | Some v => Some {| tp_Timestamp := sm_Timestamp scan; tp_ScanID := sm_ID scan; tp_Value := v |}
          end
      end
  end.

Definition by_time : TrendPoint -> TrendPoint -> comparison := cmp_on tp_Timestamp Z.compare.

(** changepoint.go [seriesFor], and the same loop in [ComputeClusterTrends]. *)
Definition seriesFor (scanner field : string) (scans : list ScanMeta) (h : history) : list TrendPoint :=
  isort (less_of by_time) (omap (point_at scanner field h) scans).

(** ** trend.go: the fit *)

Definition minTrendSample : nat := 5.
Definition minTrendR2 : float64 := f_const 1 4.
Definition minTrendT : float64 := f_of_Z 2.
Definition tiny_scale : float64 := f_const 1 1000000000.
Definition minRelativeSlope : float64 := f_const 5 100.

Record trendFit := { ff_Direction : string; ff_Confidence : string; ff_RSquared : float64 }.

Definition maxFloat (points : list TrendPoint) : float64 :=
  match points with
  | [] => f_zero
  | p :: rest => fold_left (fun v q => if f_ltb v (tp_Value q) then tp_Value q else v) rest (tp_Value p)
  end.

Definition minFloat (points : list TrendPoint) : float64 :=
  match points with
  | [] => f_zero
  | p :: rest => fold_left (fun v q => if f_ltb (tp_Value q) v then tp_Value q else v) rest (tp_Value p)
  end.

Definition first_time (points : list TrendPoint) : Z := match points with [] => 0%Z | p :: _ => tp_Timestamp p end.

(** Elapsed seconds from the first point. *)
Definition elapsed (points : list TrendPoint) : list float64 :=
  map (fun p => Seconds (Sub (tp_Timestamp p) (first_time points))) points.

Definition worse_when (up upIsBad : bool) : string :=
  if up then (if upIsBad then TrendWorsening else TrendImproving)
  else (if upIsBad then TrendImproving else TrendWorsening).

Definition stable_fit (confidence : string) (r : float64) : trendFit :=
  {| ff_Direction := TrendStable; ff_Confidence := confidence; ff_RSquared := r |}.

Definition pairwise (g : float64 -> float64 -> float64) (xs ys : list float64) : list float64 :=
  map (fun xy => g (fst xy) (snd xy)) (combine xs ys).

(** 1 - ssRes/ssTot, or 0 without spread. *)
Definition r_squared (ssRes ssTot : float64) : float64 :=
  if f_ltb f_zero ssTot then f_sub (f_of_Z 1) (f_div ssRes ssTot) else f_zero.

Definition t_stat (slope slopeStdErr : float64) : float64 :=
  if f_ltb f_zero slopeStdErr then f_div slope slopeStdErr
  else if negb (f_eqb slope f_zero) then f_copysign (f_inf false) slope
  else f_zero.

(** The slope against the scale of the values and its significance: the last part of
    [fitDirection]. *)
Definition commit (slope relativeSlopePerScan rSquared tStat : float64) (upIsBad : bool) : trendFit :=
  if f_ltb (f_abs relativeSlopePerScan) minRelativeSlope || f_ltb rSquared minTrendR2 || f_ltb (f_abs tStat) minTrendT
  then stable_fit "low" rSquared
  else {| ff_Direction := worse_when (f_ltb f_zero slope) upIsBad; ff_Confidence := "high"; ff_RSquared := rSquared |}.

Definition scale_of (points : list TrendPoint) (mean : float64) : float64 :=
  if f_ltb (f_abs mean) tiny_scale then f_max (f_abs (maxFloat points)) (f_abs (minFloat points)) else f_abs mean.

Definition fitDirection (points : list TrendPoint) (upIsBad : bool) : trendFit :=
  if length points <? minTrendSample then stable_fit "low" f_zero
  else
    let n := f_of_Z (Z.of_nat (length points)) in
    let xs := elapsed points in
    let ys := map tp_Value points in
    let sumX := f_sum xs in
    let sumY := f_sum ys in
    let sumXY := f_sum (pairwise f_mul xs ys) in
    let sumXX := f_sum (pairwise f_mul xs xs) in
    let denom := f_sub (f_mul n sumXX) (f_mul sumX sumX) in
    if f_eqb denom f_zero then stable_fit "low" f_zero
    else
      let slope := f_div (f_sub (f_mul n sumXY) (f_mul sumX sumY)) denom in
      let intercept := f_div (f_sub sumY (f_mul slope sumX)) n in
      let mean := f_div sumY n in
      let residuals := pairwise (fun x y => f_sub y (f_add intercept (f_mul slope x))) xs ys in
      let deviations := map (fun y => f_sub y mean) ys in
      let ssRes := f_sum (map (fun d => f_mul d d) residuals) in
      let ssTot := f_sum (map (fun d => f_mul d d) deviations) in
      let rSquared := r_squared ssRes ssTot in
      let scale := scale_of points mean in
      if f_ltb scale tiny_scale then stable_fit "high" rSquared
      else
        let xRange := f_sub (List.last xs f_zero) (hd f_zero xs) in
        if f_eqb xRange f_zero then stable_fit "low" rSquared
        else
          let relativeSlopePerScan := f_div (f_mul slope (f_div xRange (f_sub n (f_of_Z 1)))) scale in
          let slopeStdErr :=
            f_sqrt (f_div (f_div ssRes (f_sub n (f_of_Z 2))) (f_sub sumXX (f_div (f_mul sumX sumX) n))) in
          commit slope relativeSlopePerScan rSquared (t_stat slope slopeStdErr) upIsBad.

Definition cluster_trend (cluster : string) (scans : list ScanMeta) (h : history) (tf : trendField) : list ClusterTrend :=
  let points := seriesFor (tf_Scanner tf) (tf_Field tf) scans h in
  if length points <? minTrendSample then []
  else
    let fit := fitDirection points (tf_UpIsBad tf) in
    [{| ct_Cluster := cluster; ct_Scanner := tf_Scanner tf; ct_Field := tf_Field tf; ct_Points := points;
        ct_Direction := ff_Direction fit; ct_Confidence := ff_Confidence fit; ct_RSquared := ff_RSquared fit |}].

Definition ComputeClusterTrends (cluster : string) (scans : list ScanMeta) (h : history) : list ClusterTrend :=
  flat_map (cluster_trend cluster scans h) trendFields.

(** ** trend.go: the fleet

    Results by scan, cluster and scanner. *)
Abbreviation fleetHistory := (gmap string (gmap string (gmap string json))).

(** The value of a field in what one cluster's scanners returned. *)
Definition scanner_value (scannerName field : string) (clusterData : gmap string json) : option json :=
  match clusterData !! scannerName with
  | Some (JObj kv) => (list_to_map kv : gmap string json) !! field
  | _ => None
  end.

(** Encoded values collected in a set. *)
Definition add_unique (unique : list json) (v : json) : list json :=
  if existsb (json_eqb v) unique then unique else unique ++ [v].

Definition unique_values (scannerName field : string) (scanResults : gmap string (gmap string json)) : list json :=
  fold_left add_unique (omap (fun kd => scanner_value scannerName field (snd kd)) (map_to_list scanResults)) [].

Definition unique_point (scannerName field : string) (allResults : fleetHistory) (scan : ScanMeta) : option TrendPoint :=
  match allResults !! sm_ID scan with
  | None => None
  | Some scanResults =>
      let unique := length (unique_values scannerName field scanResults) in
      if 0 <? unique
      then Some {| tp_Timestamp := sm_Timestamp scan; tp_ScanID := sm_ID scan; tp_Value := f_of_Z (Z.of_nat unique) |}
      else None
  end.

Definition computeUniquenessOverTime (scans : list ScanMeta) (allResults : fleetHistory) (scannerName field : string) :
  FleetTrend :=
  let points := isort (less_of by_time) (omap (unique_point scannerName field allResults) scans) in
  let fit := if length points <? minTrendSample then stable_fit "" f_zero else fitDirection points true in
  {| flt_Scanner := scannerName; flt_Field := field; flt_Direction := ff_Direction fit; flt_Points := points;
     flt_Confidence := ff_Confidence fit; flt_RSquared := ff_RSquared fit |}.

Definition ComputeFleetTrends (scans : list ScanMeta) (allResults : fleetHistory) : list FleetTrend :=
  let versionTrend := computeUniquenessOverTime scans allResults "version" "git_version" in
  if 2 <=? length (flt_Points versionTrend) then [versionTrend] else [].

(** ** changepoint.go *)

Definition minSelfDriftBaseline : nat := 5.
Definition minSelfDriftSample : nat := minSelfDriftBaseline + 1.
Definition selfDriftThreshold : float64 := f_const 35 10.
Definition minSelfDriftRelStep : float64 := f_const 5 10.

Record SelfDrift := {
  sd_Cluster : string;
  sd_Scanner : string;
  sd_Field : string;
  sd_Baseline : float64;
  sd_Latest : float64;
  sd_Deviation : float64;
  sd_ChangedAt : Z;
  sd_Direction : string;
  sd_Severity : string
}.

Definition meanFloat (vals : list float64) : float64 :=
  match vals with [] => f_zero | _ => f_div (f_sum vals) (f_of_Z (Z.of_nat (length vals))) end.

(** The weighted difference in segment means at a split. *)
Definition split_score (vals : list float64) (k : nat) : float64 :=
  let n := length vals in
  let weight := f_sqrt (f_div (f_of_Z (Z.of_nat (k * (n - k)))) (f_of_Z (Z.of_nat n))) in
  f_mul weight (f_abs (f_sub (meanFloat (drop k vals)) (meanFloat (take k vals)))).

Definition changePointIndex (vals : list float64) : nat :=
  let n := length vals in
  if n <? minSelfDriftSample then n
  else fst (fold_left (best_step (split_score vals)) (seq minSelfDriftBaseline (n - minSelfDriftBaseline)) (n, f_of_Z (-1))).

(** How far the recent mean is from the baseline, when that is far enough to report. *)
Definition drift_deviation (med mad recentMean : float64) : option float64 :=
  if f_ltb f_zero mad then
    let z := f_div (f_mul (f_const 6745 10000) (f_sub recentMean med)) mad in
    if f_ltb (f_abs z) selfDriftThreshold then None else Some (f_abs z)
  else
    let rel := f_div (f_abs (f_sub recentMean med)) (f_max (f_abs med) (f_of_Z 1)) in
    if f_ltb rel minSelfDriftRelStep then None else Some rel.

Definition self_drift (cluster : string) (scans : list ScanMeta) (h : history) (tf : trendField) : list SelfDrift :=
  let points := seriesFor (tf_Scanner tf) (tf_Field tf) scans h in
  let vals := map tp_Value points in
  if length points <? minSelfDriftSample then []
  else
    let k := changePointIndex vals in
    if (k <? minSelfDriftBaseline) || (length vals <=? k) then []
    else
      let med := Median (take k vals) in
      let mad := computeMAD (take k vals) med in
      let recentMean := meanFloat (drop k vals) in
      match drift_deviation med mad recentMean with
      | None => []
      | Some deviation =>
          let worse := Bool.eqb (f_ltb med recentMean) (tf_UpIsBad tf) in
          [{| sd_Cluster := cluster; sd_Scanner := tf_Scanner tf; sd_Field := tf_Field tf; sd_Baseline := med;
              sd_Latest := recentMean; sd_Deviation := deviation;
              sd_ChangedAt := match points !! k with Some p => tp_Timestamp p | None => 0%Z end;
              sd_Direction := if worse then TrendWorsening else TrendImproving;
              sd_Severity := if worse then SeverityWarning else SeverityInfo |}]
      end.

Definition by_metric : SelfDrift -> SelfDrift -> comparison :=
  cmp_lex (cmp_on sd_Scanner String.compare) (cmp_on sd_Field String.compare).

Definition DetectSelfDrift (cluster : string) (scans : list ScanMeta) (h : history) : list SelfDrift :=
  isort (less_of by_metric) (flat_map (self_drift cluster scans h) trendFields).

(** ** Findings: changepoint.go [SelfDriftFindings] and trend_findings.go *)

Definition history_finding (rule title desc sev cluster scanner : string) (affected : list string) : Finding := {|
  fi_Title := title; fi_Description := desc; fi_Severity := sev; fi_Cluster := cluster; fi_Scanner := scanner;
  fi_Rule := rule; fi_Fingerprint := ""; fi_Acked := false; fi_Affected := affected; fi_Remediation := None;
  fi_Norm := None; fi_Marks := [] |}.

Definition label_or_name (scanner : string) : string :=
  if String.eqb (label_of scanner) "" then scanner else label_of scanner.

Definition self_drift_finding (d : SelfDrift) : Finding :=
  let verb := if f_ltb (sd_Latest d) (sd_Baseline d) then "fell" else "rose" in
  history_finding (fieldRule (sd_Scanner d) ruleSelfDriftPrefix (sd_Field d))
    (sd_Cluster d ++ ": " ++ label_or_name (sd_Scanner d) ++ " " ++ sd_Field d ++ " broke from its own baseline")
    (sd_Field d ++ " on " ++ sd_Cluster d ++ " " ++ verb ++ " from a baseline of " ++ show_fixed 1 (sd_Baseline d)
     ++ " to " ++ show_fixed 1 (sd_Latest d) ++ ", diverging from its own history around " ++ DateOnly (sd_ChangedAt d) ++ ".")
    (sd_Severity d) (sd_Cluster d) (sd_Scanner d) [sd_Field d].

Definition SelfDriftFindings (drifts : list SelfDrift) : list Finding := stampFingerprints (map self_drift_finding drifts).

(** The first and the last value of a series that moved. *)
Definition moved (direction : string) (points : list TrendPoint) : option (float64 * float64) :=
  if String.eqb direction TrendStable || (length points <? 2) then None
  else match points with
       | [] => None
       | p :: _ => Some (tp_Value p, tp_Value (List.last points p))
       end.

Definition trend_severity (direction : string) : string :=
  if String.eqb direction TrendWorsening then SeverityWarning else SeverityInfo.

Definition cluster_trend_finding (ct : ClusterTrend) : option Finding :=
  '(first, last) ← moved (ct_Direction ct) (ct_Points ct);
  Some (history_finding (fieldRule (ct_Scanner ct) ruleTrendPrefix (ct_Field ct))
    (ct_Cluster ct ++ ": " ++ label_or_name (ct_Scanner ct) ++ " " ++ ct_Field ct ++ " is " ++ ct_Direction ct)
    (ct_Field ct ++ " on " ++ ct_Cluster ct ++ " changed from " ++ show_fixed 1 first ++ " to " ++ show_fixed 1 last
     ++ " over " ++ itoa (Z.of_nat (length (ct_Points ct))) ++ " scans.")
    (trend_severity (ct_Direction ct)) (ct_Cluster ct) (ct_Scanner ct) []).

Definition fleet_trend_finding (ft : FleetTrend) : option Finding :=
  '(first, last) ← moved (flt_Direction ft) (flt_Points ft);
  Some (history_finding (fieldRule (flt_Scanner ft) ruleTrendPrefix (flt_Field ft))
    ("Fleet " ++ label_or_name (flt_Scanner ft) ++ " drift is " ++ flt_Direction ft)
    ("Unique values for " ++ flt_Field ft ++ " changed from " ++ show_fixed 0 first ++ " to " ++ show_fixed 0 last
     ++ " over " ++ itoa (Z.of_nat (length (flt_Points ft))) ++ " scans.")
    (trend_severity (flt_Direction ft)) "fleet" (flt_Scanner ft) []).

Definition GenerateTrendFindings (clusterTrends : list ClusterTrend) (fleetTrends : list FleetTrend) : list Finding :=
  stampFingerprints (omap cluster_trend_finding clusterTrends ++ omap fleet_trend_finding fleetTrends).

(** ** The change point *)

(** The change point is the first split with the largest score. It leaves at least five
    values before it, and is the length of the series when no split has a score. *)
Theorem change_point_best vals :
  let k := changePointIndex vals in
  let n := length vals in
  (k = n /\ forall j, 5 <= j < n -> f_ltb (f_of_Z (-1)) (split_score vals j) = false) \/
  (5 <= k < n /\ (forall j, 5 <= j < n -> f_ltb (split_score vals k) (split_score vals j) = false) /\
   forall j, 5 <= j < k -> f_ltb (split_score vals j) (split_score vals k) = true \/ f_is_nan (split_score vals j) = true).
Proof.
  cbv zeta. unfold changePointIndex. change minSelfDriftSample with 6. change minSelfDriftBaseline with 5.
  destruct (length vals <? 6) eqn:En; [left; split; [done|]; apply Nat.ltb_lt in En; lia|]. apply Nat.ltb_ge in En.
  destruct (best_spec (split_score vals) (seq 5 (length vals - 5)) (length vals) (f_of_Z (-1)))
    as [[Hr Hno] | (Hb & _)].
  - left. rewrite Hr. split; [done|]. intros j Hj. apply Hno, elem_of_seq. lia.
  - right. destruct Hb as (l1 & l2 & Hl & Hmax & Hfirst). set (k := fst _) in *.
    assert (k ∈ seq 5 (length vals - 5)) as Hk by (rewrite Hl; set_solver). apply elem_of_seq in Hk.
    split_and!; [lia|lia|intros j Hj; apply Hmax, elem_of_seq; lia|].
    intros j Hj. apply Hfirst. assert (length l1 = k - 5 /\ l1 = take (k - 5) (seq 5 (length vals - 5))) as [Hlen Ht].
    { assert (seq 5 (length vals - 5) !! length l1 = Some k) as Hi by (rewrite Hl, lookup_app_r, Nat.sub_diag by lia; done).
      apply lookup_seq in Hi as [Hi _]. split; [lia|]. rewrite Hl, take_app_le by lia. by rewrite take_ge by lia. }
    rewrite Ht. apply elem_of_take. exists (j - 5). split; [apply lookup_seq; lia|lia].
Qed.

(** ** A history that does not change *)

Lemma take_repeat {A} (x : A) n k : k <= n -> take k (repeat x n) = repeat x k.
Proof. revert k. induction n as [|n IH]; intros [|k] Hk; simpl; [done|lia|done|]. rewrite IH by lia. done. Qed.

Lemma drop_repeat {A} (x : A) n k : drop k (repeat x n) = repeat x (n - k).
Proof. revert k. induction n as [|n IH]; intros [|k]; simpl; done || apply IH. Qed.

Section Flat.
Context (c : Z).
Notation v := (f_of_Z c).

Lemma sum_repeat n : exact c -> exact (c * Z.of_nat n) -> f_sum (repeat v n) = f_of_Z (c * Z.of_nat n).
Proof.
  intros Hc Hn. replace (repeat v n) with (map f_of_Z (repeat c n)) by (by rewrite map_repeat).
  assert (forall m, fold_left Z.add (repeat c m) 0%Z = (c * Z.of_nat m)%Z) as Hf.
  { assert (forall m a, fold_left Z.add (repeat c m) a = (a + c * Z.of_nat m)%Z) as Hg; [|intros m; by rewrite Hg].
    induction m as [|m IH]; intros a; [simpl; lia|]. cbn [repeat fold_left]. rewrite IH. lia. }
  rewrite exact_sum; rewrite ?Hf; try done.
  apply Forall_forall. intros z Hz%list_elem_of_In%repeat_spec. unfold exact in Hc. lia.
Qed.

Lemma mean_repeat n : exact c -> exact (c * Z.of_nat n) -> 0 < n -> (Z.of_nat n <= 2 ^ 53)%Z -> meanFloat (repeat v n) = v.
Proof.
  intros Hc Hn Hpos Hb. unfold meanFloat. destruct n as [|n]; [lia|]. cbn [repeat].
  change (v :: repeat v n) with (repeat v (S n)). rewrite repeat_length, sum_repeat by done.
  apply exact_div; try done; unfold exact; lia.
Qed.

Lemma isort_repeat {A} (less : A -> A -> bool) (x : A) n : less x x = false -> isort less (repeat x n) = repeat x n.
Proof.
  intros Hx. apply isort_id. induction n as [|n IH]; constructor; [done|].
  apply Forall_forall. intros y Hy%list_elem_of_In%repeat_spec. by subst.
Qed.

Lemma median_repeat n : exact c -> exact (c * 2) -> 0 < n -> Median (repeat v n) = v.
Proof.
  intros Hc H2 Hn. unfold Median. rewrite repeat_length, isort_repeat.
  2: { unfold float_less. rewrite f_ltb_irrefl. by destruct (f_is_nan v). }
  destruct (n =? 0) eqn:E; [apply Nat.eqb_eq in E; lia|].
  pose proof (Nat.div_lt n 2 ltac:(lia) ltac:(lia)).
  destruct (Nat.even n) eqn:Ev; rewrite !nth_repeat_lt by lia; [|done].
  unfold exact in *. rewrite exact_add by (unfold exact; lia).
  replace (c + c)%Z with (c * 2)%Z by lia. apply exact_div; unfold exact; lia.
Qed.

End Flat.

Lemma mad_repeat c n : exact c -> 0 < n -> computeMAD (repeat (f_of_Z c) n) (f_of_Z c) = f_zero.
Proof.
  intros Hc Hn. unfold computeMAD. rewrite map_repeat, f_sub_self by (by apply exact_finite).
  apply (median_repeat 0); done.
Qed.

(** A mean that equals the baseline is no drift. *)
Lemma no_deviation c : exact c -> drift_deviation (f_of_Z c) f_zero (f_of_Z c) = None.
Proof.
  intros Hc. unfold drift_deviation. change (f_ltb f_zero f_zero) with false. cbv iota zeta.
  rewrite f_sub_self by (by apply exact_finite). change (f_abs f_zero) with f_zero.
  destruct (exact_shape c Hc) as [->|(m & e & ->)]; [reflexivity|].
  change f_zero with (S754_zero false).
  destruct (zero_div false (f_max (f_abs (S754_finite false m e)) (f_of_Z 1))) as [s ->]; [| |by destruct s].
  all: change (f_of_Z 1) with (S754_finite false 4503599627370496 (-52)); cbn [f_max f_abs SFabs];
    by destruct (f_ltb _ _).
Qed.

(** [points] is a series of at most [n] equal counts over at most [horizon] whole seconds. *)
Record flat_series (c horizon : Z) (points : list TrendPoint) : Prop := FlatSeries {
  fs_values : forall p, p ∈ points -> tp_Value p = f_of_Z c;
  fs_seconds : forall p : TrendPoint, p ∈ points -> exists s : Z, (0 <= s <= horizon)%Z /\
    tp_Timestamp p = (first_time points + s * Second)%Z;
  fs_horizon : (0 <= c /\ horizon <= 2 ^ 33)%Z;
  fs_bound : (Z.of_nat (length points) * Z.of_nat (length points) * (horizon + 1) * (c + 1) <= 2 ^ 53)%Z
}.

Lemma last_map secs : List.last (map f_of_Z secs) f_zero = f_of_Z (List.last secs 0%Z).
Proof. induction secs as [|s [|s' secs] IH]; done. Qed.

Lemma last_range horizon secs : Forall (fun s => 0 <= s <= horizon)%Z secs -> (0 <= horizon)%Z ->
  (0 <= List.last secs 0 <= horizon)%Z.
Proof.
  intros Hs Hh. induction Hs as [|s secs Hx Hs IH]; [simpl; lia|]. destruct secs as [|s' secs]; [done|]. exact IH.
Qed.

Lemma flat_fold_max c ps : (forall p, p ∈ ps -> tp_Value p = f_of_Z c) ->
  fold_left (fun v q => if f_ltb v (tp_Value q) then tp_Value q else v) ps (f_of_Z c) = f_of_Z c /\
  fold_left (fun v q => if f_ltb (tp_Value q) v then tp_Value q else v) ps (f_of_Z c) = f_of_Z c.
Proof.
  induction ps as [|p ps IH]; intros Hps; [done|]. simpl. rewrite (Hps p) by set_solver.
  rewrite f_ltb_irrefl. apply IH. intros q Hq. apply Hps. set_solver.
Qed.

Section FlatSeries.
Context (c horizon : Z) (points : list TrendPoint) (Hflat : flat_series c horizon points) (Hlen : 5 <= length points).

Lemma flat_values : map tp_Value points = repeat (f_of_Z c) (length points).
Proof.
  destruct Hflat as [Hv _ _ _]. clear Hflat Hlen. induction points as [|p ps IH]; [done|]. simpl.
  rewrite Hv by set_solver. f_equal. apply IH. intros q Hq. apply Hv. set_solver.
Qed.

Lemma flat_exact k : 0 < k <= length points -> exact c /\ exact (c * Z.of_nat k) /\ exact (c * 2) /\ exact (Z.of_nat k).
Proof.
  destruct Hflat as [_ Hs [Hc Hh] Hb]. intros Hk.
  assert (0 <= horizon)%Z as Hh0.
  { destruct points as [|p ps]; [simpl in Hlen; lia|]. destruct (Hs p) as (s & ? & _); [set_solver|lia]. }
  set (n := Z.of_nat (length points)) in *. assert (5 <= n)%Z by lia. assert (Z.of_nat k <= n)%Z by lia.
  assert (n * (c + 1) <= n * n * (horizon + 1) * (c + 1))%Z by nia. unfold exact. split_and!; nia.
Qed.

(** The code's scores are zero, so it splits after the first five values, and finds no deviation there. *)
Lemma flat_no_drift k : 0 < k < length points ->
  let vals := map tp_Value points in
  let med := Median (take k vals) in
  drift_deviation med (computeMAD (take k vals) med) (meanFloat (drop k vals)) = None.
Proof.
  intros Hk. cbv zeta. rewrite flat_values, take_repeat, drop_repeat by lia.
  destruct (flat_exact k) as (Hc & Hck & Hc2 & _); [lia|].
  destruct (flat_exact (length points - k)) as (_ & Hcr & _ & Hr); [lia|].
  rewrite median_repeat by (done || lia). rewrite mad_repeat by (done || lia).
  rewrite mean_repeat; try done; [by apply no_deviation|lia|unfold exact in Hr; lia].
Qed.

(** The elapsed seconds are counts. *)
Lemma flat_elapsed : exists secs, elapsed points = map f_of_Z secs /\ Forall (fun s => 0 <= s <= horizon)%Z secs /\
  length secs = length points.
Proof.
  destruct Hflat as [_ Hs [_ Hh] _]. unfold elapsed. set (t0 := first_time points) in *. clearbody t0. clear Hflat Hlen.
  induction points as [|p ps IH]; [by exists []|].
  destruct IH as (secs & He & Hf & Hl); [intros q Hq; apply Hs; set_solver|].
  destruct (Hs p) as (s & Hr & Hp); [set_solver|]. exists (s :: secs). simpl. rewrite He, Hl. split_and!; [|by constructor|done].
  f_equal. unfold Seconds. replace (Sub (tp_Timestamp p) t0) with (s * Second)%Z.
  2: { unfold Sub, int64_min, int64_max, Second in *. lia. }
  rewrite Z.quot_mul, Z.rem_mul by done. change (f_div (f_of_Z 0) (f_of_Z Second)) with (f_of_Z 0).
  rewrite exact_add; [f_equal; lia|lia|lia|unfold exact; lia].
Qed.

Lemma flat_scale : scale_of points (f_of_Z c) = f_of_Z c.
Proof.
  destruct (flat_exact 1) as (Hc & _); [lia|].
  assert (f_abs (f_of_Z c) = f_of_Z c) as Habs by (by destruct (exact_shape c Hc) as [->|(m & e & ->)]).
  unfold scale_of. rewrite Habs. destruct (f_ltb _ _); [|done].
  assert (maxFloat points = f_of_Z c /\ minFloat points = f_of_Z c) as [-> ->].
  { pose proof (fs_values _ _ _ Hflat) as Hv. unfold maxFloat, minFloat. destruct points as [|p ps]; [simpl in Hlen; lia|].
    rewrite (Hv p) by set_solver. apply flat_fold_max. intros q Hq. apply Hv. set_solver. }
  rewrite Habs. destruct (exact_shape c Hc) as [->|(m & e & ->)]; [done|]. cbn [f_max]. by destruct (f_ltb _ _).
Qed.

Lemma sum_bound (secs : list Z) a : Forall (fun s => 0 <= s <= horizon)%Z secs -> (0 <= a)%Z ->
  (a <= fold_left Z.add secs a <= a + Z.of_nat (length secs) * horizon)%Z.
Proof.
  revert a. induction secs as [|s secs IH]; intros a Hs Ha; [simpl; lia|]. apply Forall_cons in Hs as [H1 Hs].
  cbn [fold_left length]. specialize (IH (a + s)%Z Hs ltac:(lia)). lia.
Qed.

Lemma sum_scaled (secs : list Z) a : fold_left Z.add (map (fun s => (s * c)%Z) secs) (a * c)%Z = (fold_left Z.add secs a * c)%Z.
Proof.
  revert a. induction secs as [|s secs IH]; intros a; [done|]. cbn [map fold_left].
  replace (a * c + s * c)%Z with ((a + s) * c)%Z by lia. apply IH.
Qed.

(** Every point has the same value, so the slope is zero. *)
Lemma flat_products secs : Forall (fun s => 0 <= s <= horizon)%Z secs -> length secs = length points ->
  let X := fold_left Z.add secs 0%Z in
  f_sum (map f_of_Z secs) = f_of_Z X /\
  f_sum (pairwise f_mul (map f_of_Z secs) (map tp_Value points)) = f_of_Z (X * c) /\
  exact X /\ exact (Z.of_nat (length points) * (X * c)).
Proof.
  intros Hs Hl X. subst X. pose proof (sum_bound secs 0 Hs ltac:(lia)) as HX. set (X := fold_left Z.add secs 0%Z) in *.
  destruct (flat_exact (length points)) as (Hc & Hcn & _ & Hn); [lia|].
  pose proof (fs_bound _ _ _ Hflat) as Hb. rewrite Hl in HX. set (n := Z.of_nat (length points)) in *.
  assert (5 <= n)%Z by lia. destruct Hc as [Hc Hc'].
  assert (0 <= horizon)%Z by (destruct secs as [|s ?]; [simpl in Hl; lia|apply Forall_cons in Hs as [? _]; lia]).
  set (B := (n * n * (horizon + 1) * (c + 1))%Z) in *.
  assert (0 <= X * c /\ X * c <= n * horizon * c /\ n * (n * horizon * c) <= B /\ n * horizon <= B)%Z as (B0 & B1 & B2 & B3)
    by (subst B; split_and!; nia).
  assert (X * c <= n * (X * c) <= n * (n * horizon * c))%Z as B4 by nia. clearbody B.
  assert (exact X /\ exact (n * (X * c)) /\ exact (X * c)) as (EX & EnX & EXc) by (unfold exact in *; lia).
  split_all; try done.
  - subst X. apply exact_sum; [|done]. eapply Forall_impl; [exact Hs|]. simpl. lia.
  - rewrite flat_values, <- Hl. unfold pairwise.
    assert (forall s, s ∈ secs -> exact (s * c) /\ exact s) as Hp.
    { intros s Hin. rewrite Forall_forall in Hs. specialize (Hs s Hin).
      assert (0 <= s * c <= horizon * c /\ horizon * c <= n * horizon * c /\ horizon <= n * horizon)%Z by nia.
      assert (n * horizon * c <= n * (n * horizon * c))%Z by nia. unfold exact. lia. }
    replace (map _ _) with (map f_of_Z (map (fun s => (s * c)%Z) secs)).
    + rewrite exact_sum; rewrite <- (Z.mul_0_l c), ?sum_scaled; [done| |done].
      apply Forall_forall. intros z (s & -> & Hin)%list_elem_of_fmap. rewrite Z.mul_0_l. by destruct (Hp s Hin) as [[? _] _].
    + assert (exact c) as Ec by (split; [done|lia]). clear -Hp Ec. induction secs as [|s secs IH]; [done|].
      cbn [length repeat map combine fst snd].
      destruct (Hp s) as [H1 H2]; [by left|]. rewrite exact_mul by done.
      f_equal. apply IH. intros x Hx. apply Hp. by right.
Qed.

Lemma flat_fit upIsBad : ff_Direction (fitDirection points upIsBad) = TrendStable.
Proof.
  unfold fitDirection. change minTrendSample with 5. replace (length points <? 5) with false by (symmetry; apply Nat.ltb_ge; lia).
  assert (hd f_zero (elapsed points) = f_of_Z 0) as Hhd.
  { destruct points as [|p ps]; [done|]. simpl. by rewrite Sub_self. }
  destruct flat_elapsed as (secs & He & Hs & Hl). rewrite He in Hhd. rewrite He. clear He.
  assert (0 <= horizon)%Z as Hh0 by (destruct secs as [|s ?]; [simpl in Hl; lia|apply Forall_cons in Hs as [? _]; lia]). destruct (flat_products secs Hs Hl) as (-> & -> & HX & HnX).
  set (X := fold_left Z.add secs 0%Z) in *.
  destruct (flat_exact (length points)) as (Hc & Hcn & _ & Hn); [lia|].
  rewrite flat_values. rewrite sum_repeat by done.
  set (n := Z.of_nat (length points)) in *. assert (5 <= n)%Z as Hn5 by lia.
  assert (f_mul (f_of_Z n) (f_of_Z (X * c)) = f_of_Z (n * (X * c))) as ->.
  { apply exact_mul; try done. unfold exact in *. nia. }
  assert (f_mul (f_of_Z X) (f_of_Z (c * n)) = f_of_Z (n * (X * c))) as ->.
  { replace (n * (X * c))%Z with (X * (c * n))%Z by lia. apply exact_mul; try done.
    replace (X * (c * n))%Z with (n * (X * c))%Z by lia. done. }
  rewrite f_sub_self by (by apply exact_finite).
  rewrite exact_div; [|done|done|done|lia]. rewrite flat_scale. cbv zeta. rewrite Hhd.
  set (denom := f_sub _ _). destruct (f_eqb denom f_zero) eqn:Ed; [done|].
  set (rSquared := r_squared _ _). set (se := f_sqrt _).
  destruct (f_ltb (f_of_Z c) tiny_scale) eqn:Et; [done|].
  assert (f_is_nan denom = false) as Nd.
  { apply f_sub_number; [|by apply exact_square_finite].
    apply nn_mul; [apply f_of_Z_pos; unfold exact, int64_max in *; lia|].
    apply nn_sum. unfold pairwise. apply Forall_forall. intros x ([a b] & -> & Hin)%list_elem_of_fmap.
    apply list_elem_of_In in Hin. pose proof (in_combine_l _ _ _ _ Hin) as Ha. pose proof (in_combine_r _ _ _ _ Hin) as Hb.
    apply in_map_iff in Ha as (sa & <- & Ha), Hb as (sb & <- & Hb). apply list_elem_of_In in Ha, Hb.
    rewrite Forall_forall in Hs. pose proof (Hs sa Ha). pose proof (Hs sb Hb). destruct (fs_horizon _ _ _ Hflat).
    simpl. apply nn_mul_exact; unfold exact; lia. }
  rewrite last_map, exact_sub.
  2: { apply last_range in Hs as [? ?]; [|lia]. destruct (fs_horizon _ _ _ Hflat). unfold exact. lia. }
  2: { apply last_range in Hs as [? ?]; [|lia]. lia. }
  rewrite Z.sub_0_r. destruct (f_eqb (f_of_Z (List.last secs 0%Z)) f_zero); [done|].
  apply last_range in Hs as [Hl0 Hl1]; [|lia]. destruct (fs_horizon _ _ _ Hflat) as [_ Hh].
  change (f_of_Z 1) with (f_of_Z 1). rewrite exact_sub by (done || lia).
  destruct (zero_div false denom Nd Ed) as [s1 Hs1]. change f_zero with (S754_zero false). rewrite Hs1.
  destruct (zero_mul s1 (f_div (f_of_Z (List.last secs 0%Z)) (f_of_Z (n - 1)))) as [s2 ->].
  { apply exact_ratio_finite; unfold exact in *; lia. }
  destruct (exact_shape c Hc) as [Hz|(m & e & Hm)]; [by rewrite Hz in Et|]. rewrite Hm.
  by destruct s2.
Qed.
End FlatSeries.

Lemma self_drift_metric cluster scans h tf d : d ∈ self_drift cluster scans h tf ->
  sd_Scanner d = tf_Scanner tf /\ sd_Field d = tf_Field tf.
Proof.
  unfold self_drift. cbv zeta. destruct (_ <? _); [set_solver|]. destruct (_ || _); [set_solver|].
  destruct (drift_deviation _ _ _); [|set_solver]. by intros ->%list_elem_of_singleton.
Qed.

Lemma flat_self_drift cluster scans h tf c horizon :
  flat_series c horizon (seriesFor (tf_Scanner tf) (tf_Field tf) scans h) -> self_drift cluster scans h tf = [].
Proof.
  intros Hf. unfold self_drift. cbv zeta. set (points := seriesFor _ _ _ _) in *.
  change minSelfDriftSample with 6. change minSelfDriftBaseline with 5.
  destruct (length points <? 6) eqn:En; [done|]. apply Nat.ltb_ge in En.
  destruct (_ || _) eqn:Ek; [done|]. apply orb_false_iff in Ek as [E1%Nat.ltb_ge E2%Nat.leb_gt].
  rewrite length_map in E2. rewrite (flat_no_drift c horizon points Hf); [done|lia|lia].
Qed.

(** A metric whose count never changed is reported neither as a trend nor as a drift of
    the cluster from its own past. *)
Theorem flat_history_silent cluster scans h scanner field c horizon :
  flat_series c horizon (seriesFor scanner field scans h) ->
  (forall d, d ∈ DetectSelfDrift cluster scans h -> (sd_Scanner d, sd_Field d) <> (scanner, field)) /\
  (forall ct, ct ∈ ComputeClusterTrends cluster scans h -> (ct_Scanner ct, ct_Field ct) = (scanner, field) ->
     ct_Direction ct = TrendStable /\ cluster_trend_finding ct = None).
Proof.
  intros Hf. split.
  - intros d Hd [= <- <-]. unfold DetectSelfDrift in Hd. apply isort_elem_of in Hd.
    apply list_elem_of_In, in_flat_map in Hd as (tf & _ & Hd%list_elem_of_In).
    destruct (self_drift_metric _ _ _ _ _ Hd) as [Hs Hfi]. rewrite Hs, Hfi in Hf.
    by rewrite (flat_self_drift _ _ _ _ _ _ Hf) in Hd; apply elem_of_nil in Hd.
  - intros ct Hct [= <- <-]. unfold ComputeClusterTrends in Hct.
    apply list_elem_of_In, in_flat_map in Hct as (tf & _ & Hct%list_elem_of_In). unfold cluster_trend in Hct.
    cbv zeta in Hct. destruct (_ <? _) eqn:En in Hct; [by apply elem_of_nil in Hct|].
    apply list_elem_of_singleton in Hct. subst ct. cbn [ct_Scanner ct_Field ct_Direction] in *.
    apply Nat.ltb_ge in En. assert (ff_Direction (fitDirection (seriesFor (tf_Scanner tf) (tf_Field tf) scans h)
      (tf_UpIsBad tf)) = TrendStable) as Hst by (by apply (flat_fit c horizon)).
    split; [exact Hst|]. unfold cluster_trend_finding, moved. cbn [ct_Direction]. by rewrite Hst.
Qed.

(** ** The order of the scans *)

#[export] Instance by_time_order : CmpOrder by_time.
Proof. unfold by_time. exact _. Qed.

(** Points of scans taken at different times are told apart by their time. *)
Lemma times_distinct (get : ScanMeta -> option TrendPoint) scans :
  (forall s p, get s = Some p -> tp_Timestamp p = sm_Timestamp s) -> NoDup (map sm_Timestamp scans) ->
  forall x y, x ∈ omap get scans -> y ∈ omap get scans -> by_time x y = Eq -> x = y.
Proof.
  intros Hget Hnd x y (s & Hs & Hx)%list_elem_of_omap (t & Ht & Hy)%list_elem_of_omap Heq.
  apply Z.compare_eq in Heq. rewrite (Hget _ _ Hx), (Hget _ _ Hy) in Heq. enough (s = t) as -> by congruence.
  clear -Hs Ht Heq Hnd. induction scans as [|u scans IH]; [by apply elem_of_nil in Hs|].
  simpl in Hnd. apply NoDup_cons in Hnd as [Hn Hnd].
  apply elem_of_cons in Hs as [->|Hs], Ht as [->|Ht]; [done| | |by apply IH]; exfalso; apply Hn.
  - rewrite Heq. by apply list_elem_of_fmap_2.
  - rewrite <- Heq. by apply list_elem_of_fmap_2.
Qed.

Lemma sorted_points_perm (get : ScanMeta -> option TrendPoint) scans scans' :
  (forall s p, get s = Some p -> tp_Timestamp p = sm_Timestamp s) -> NoDup (map sm_Timestamp scans) -> scans ≡ₚ scans' ->
  isort (less_of by_time) (omap get scans) = isort (less_of by_time) (omap get scans').
Proof.
  intros Hget Hnd Hp. apply (isort_perm_eq by_time); [by apply times_distinct|]. by rewrite Hp.
Qed.

Lemma point_at_time scanner field h s p : point_at scanner field h s = Some p -> tp_Timestamp p = sm_Timestamp s.
Proof. unfold point_at. repeat break_match; try done. by intros [= <-]. Qed.

Lemma unique_point_time scanner field h s p : unique_point scanner field h s = Some p -> tp_Timestamp p = sm_Timestamp s.
Proof. unfold unique_point. repeat break_match; try done. by intros [= <-]. Qed.

(** Trends and drifts do not depend on the order in which the store lists the scans. *)
Theorem history_order_free cluster scans scans' h fh : NoDup (map sm_Timestamp scans) -> scans ≡ₚ scans' ->
  ComputeClusterTrends cluster scans h = ComputeClusterTrends cluster scans' h /\
  DetectSelfDrift cluster scans h = DetectSelfDrift cluster scans' h /\
  ComputeFleetTrends scans fh = ComputeFleetTrends scans' fh.
Proof.
  intros Hnd Hp.
  assert (forall s f, seriesFor s f scans h = seriesFor s f scans' h) as Hs.
  { intros s f. apply sorted_points_perm; [apply point_at_time|done|done]. }
  split_and!.
  - apply flat_map_ext. intros tf. unfold cluster_trend. by rewrite Hs.
  - unfold DetectSelfDrift. f_equal. apply flat_map_ext. intros tf. unfold self_drift. by rewrite Hs.
  - unfold ComputeFleetTrends, computeUniquenessOverTime.
    by rewrite (sorted_points_perm (unique_point "version" "git_version" fh) scans scans' (unique_point_time _ _ _) Hnd Hp).
Qed.

(** ** What a series is made of *)

(** A direction is committed to only for five points or more that fit a line well. *)
Lemma committed points up : ff_Direction (fitDirection points up) <> TrendStable ->
  5 <= length points /\ f_ltb (ff_RSquared (fitDirection points up)) minTrendR2 = false.
Proof.
  unfold fitDirection. change minTrendSample with 5. destruct (length points <? 5) eqn:E; [done|]. apply Nat.ltb_ge in E.
  cbv zeta. repeat match goal with |- context [if f_eqb ?a ?b then _ else _] => destruct (f_eqb a b); [done|] end.
  destruct (f_ltb (scale_of _ _) _); [done|].
  repeat match goal with |- context [if f_eqb ?a ?b then _ else _] => destruct (f_eqb a b); [done|] end.
  unfold commit. destruct (_ || _) eqn:Ec; [done|]. apply orb_false_iff in Ec as [[_ Ec]%orb_false_iff _]. done.
Qed.

(** The trends of a cluster cover exactly the tracked fields with at least five readings;
    a trend holds every reading of its field, oldest first, and leaves stable only when the
    line explains a quarter of the spread. *)
Theorem trend_readings cluster scans h ct : ct ∈ ComputeClusterTrends cluster scans h ->
  (forall p, p ∈ ct_Points ct <-> exists s, s ∈ scans /\ point_at (ct_Scanner ct) (ct_Field ct) h s = Some p) /\
  StronglySorted (fun p q => tp_Timestamp p <= tp_Timestamp q)%Z (ct_Points ct) /\
  5 <= length (ct_Points ct) /\
  (ct_Direction ct <> TrendStable -> f_ltb (ct_RSquared ct) minTrendR2 = false).
Proof.
  unfold ComputeClusterTrends. intros (tf & _ & Hct%list_elem_of_In)%list_elem_of_In%in_flat_map.
  unfold cluster_trend in Hct. cbv zeta in Hct. destruct (_ <? _) eqn:En in Hct; [by apply elem_of_nil in Hct|].
  apply list_elem_of_singleton in Hct. subst ct. cbn [ct_Scanner ct_Field ct_Direction ct_Points ct_RSquared].
  apply Nat.ltb_ge in En. split_and!; [| |done|apply committed].
  - intros p. unfold seriesFor. rewrite isort_elem_of, list_elem_of_omap. done.
  - unfold seriesFor. eapply StronglySorted_mono; [|apply isort_sorted; exact _]. intros p q Hpq. exact Hpq.
Qed.

(** ** Degraded runs

    A payload enters the tables whatever the state of its run. *)
Definition with_state (s : string) (r : Result) : Result :=
  {| res_Scanner := res_Scanner r; res_State := s; res_Reason := res_Reason r; res_Data := res_Data r |}.

Lemma field_maps_ignore_state s results : fst (FieldMaps (with_state s <$> results)) = fst (FieldMaps results).
Proof.
  unfold FieldMaps. simpl. apply map_eq. intros k. rewrite !lookup_omap, lookup_fmap.
  by destruct (results !! k).
Qed.

(** ** Samples: one scan per hour *)

Definition hourly (values : list Z) : list TrendPoint :=
  imap (fun i v => {| tp_Timestamp := Z.of_nat i * Hour; tp_ScanID := ""; tp_Value := f_of_Z v |}) values.

Definition sample_scans (n : nat) : list ScanMeta :=
  map (fun i => {| sm_ID := itoa (Z.of_nat i); sm_Timestamp := (Z.of_nat i * Hour)%Z |}) (seq 0 n).

Definition sample_history (scanner field : string) (values : list Z) : history :=
  list_to_map (imap (fun i v => (itoa (Z.of_nat i), {[scanner := {[field := JNum (f_of_Z v)]}]})) values).

(** The directions the package's own tests expect, and a step after six quiet scans. *)
Example fit_samples :
  map (fun vu : list Z * bool => let f := fitDirection (hourly (fst vu)) (snd vu) in (ff_Direction f, ff_Confidence f))
    [([1; 2; 3; 4]%Z, true); ([0; 0; 0; 0; 0; 0]%Z, true); ([10; 12; 13; 15; 16; 18]%Z, true);
     ([10; 12; 13; 15; 16; 18]%Z, false); ([18; 16; 15; 13; 12; 10]%Z, true); ([10; 50; 10; 50; 10; 50]%Z, true);
     ([6; 5; 4; 3; 2; 1]%Z, true)]
  = [(TrendStable, "low"); (TrendStable, "high"); (TrendWorsening, "high"); (TrendImproving, "high");
     (TrendImproving, "high"); (TrendStable, "low"); (TrendImproving, "high")].
Proof. vm_compute. reflexivity. Qed.

Example step_sample :
  map (fun d => (sd_Field d, sd_ChangedAt d, sd_Direction d, f_to_int (sd_Latest d)))
    (DetectSelfDrift "a" (sample_scans 8) (sample_history "node-health" "not_ready_nodes" [1; 1; 1; 1; 1; 1; 9; 9]%Z))
  = [("not_ready_nodes", 6 * Hour, TrendWorsening, 9)]%Z.
Proof. vm_compute. reflexivity. Qed.

Definition flat_check (c horizon : Z) (points : list TrendPoint) : bool :=
  forallb (fun p =>
    let d := (tp_Timestamp p - first_time points)%Z in
    float_same (tp_Value p) (f_of_Z c) && (d =? d / Second * Second)%Z && (0 <=? d / Second)%Z && (d / Second <=? horizon)%Z)
    points &&
  (0 <=? c)%Z && (horizon <=? 2 ^ 33)%Z &&
  (Z.of_nat (length points) * Z.of_nat (length points) * (horizon + 1) * (c + 1) <=? 2 ^ 53)%Z.

Lemma flat_check_ok c horizon points : flat_check c horizon points = true -> flat_series c horizon points.
Proof.
  unfold flat_check. intros [[[Hp Hc%Z.leb_le]%andb_prop Hh%Z.leb_le]%andb_prop Hb%Z.leb_le]%andb_prop.
  rewrite forallb_forall in Hp. constructor; [| |done|done]; intros p Hin%list_elem_of_In; specialize (Hp p Hin);
    cbv zeta in Hp; apply andb_prop in Hp as [[[Hv Hd%Z.eqb_eq]%andb_prop H0%Z.leb_le]%andb_prop H1%Z.leb_le].
  - by apply float_same_eq.
  - exists ((tp_Timestamp p - first_time points) / Second)%Z. lia.
Qed.

Lemma flat_history_silent_witness :
  flat_series 3 (5 * 3600) (seriesFor "node-health" "not_ready_nodes" (sample_scans 6)
    (sample_history "node-health" "not_ready_nodes" [3; 3; 3; 3; 3; 3]%Z)) /\
  (forall d, d ∈ DetectSelfDrift "a" (sample_scans 6) (sample_history "node-health" "not_ready_nodes" [3; 3; 3; 3; 3; 3]%Z) ->
     (sd_Scanner d, sd_Field d) <> ("node-health", "not_ready_nodes")).
Proof.
  assert (flat_series 3 (5 * 3600) (seriesFor "node-health" "not_ready_nodes" (sample_scans 6)
    (sample_history "node-health" "not_ready_nodes" [3; 3; 3; 3; 3; 3]%Z))) as Hf
    by (apply flat_check_ok; vm_compute; reflexivity).
  split; [exact Hf|]. exact (proj1 (flat_history_silent "a" _ _ _ _ 3 _ Hf)).
Defined.

Lemma history_order_free_witness :
  NoDup (map sm_Timestamp (sample_scans 6)) /\
  ComputeFleetTrends (sample_scans 6) ∅ = ComputeFleetTrends (rev (sample_scans 6)) ∅.
Proof.
  assert (NoDup (map sm_Timestamp (sample_scans 6))) as Hn by (apply (bool_decide_unpack _); vm_compute; exact I).
  split; [exact Hn|].
  exact (proj2 (proj2 (history_order_free "a" _ _ ∅ ∅ Hn (Permutation_rev _)))).
Defined.
