(* ===== verification/Forecast.v ===== *)
(** * internal/report/forecast.go: the projected fleet score

    A least-squares line through the scores of past scans, read at the time the next scan
    is expected, with the band the code calls a 95% interval. *)

From Stdlib Require Import ZArith Lia String Sorting.Sorted Floats.SpecFloat.
From stdpp Require Import base strings list.
From S2P Require Import Prelude Float64 Ratio GoTime.

Local Open Scope Z_scope.

Definition minForecastPoints : nat := 4.

Record FleetScoreHistoryPoint := { hp_ScanID : string; hp_Timestamp : Z; hp_Score : Z }.

Record FleetScoreForecast := {
  fo_Predicted : Z;
  fo_Lower : Z;
  fo_Upper : Z;
  fo_PredictedFor : Z;
  fo_Slope : float64;
  fo_RSquared : float64;
  fo_Basis : nat;
  fo_Sufficient : bool;
  fo_Headline : string
}.

(** The in-place insertion sorts: each element moves left over the larger ones. The sorted
    prefix is kept reversed. *)
Definition insertion_sort {A} (c : A -> A -> comparison) (l : list A) : list A :=
  rev (fold_left (fun rp x => sort_insert (less_of (cmp_rev c)) x rp) l []).

Definition hp_cmp : FleetScoreHistoryPoint -> FleetScoreHistoryPoint -> comparison := cmp_on hp_Timestamp Z.compare.

Definition sortByTimestamp (pts : list FleetScoreHistoryPoint) : list FleetScoreHistoryPoint := insertion_sort hp_cmp pts.

Fixpoint gaps_of (pts : list FleetScoreHistoryPoint) : list Z :=
  match pts with
  | p :: ((q :: _) as rest) => Sub (hp_Timestamp q) (hp_Timestamp p) :: gaps_of rest
  | _ => []
  end.

Definition medianGap (pts : list FleetScoreHistoryPoint) : Z :=
  if (length pts <? 2)%nat then Hour
  else
    let gaps := insertion_sort Z.compare (gaps_of pts) in
    let mid := nth (length gaps / 2)%nat gaps 0 in
    if mid <=? 0 then Hour else mid.

(** Slope, intercept, R-squared and standard error. *)
Definition ols (xs ys : list float64) : float64 * float64 * float64 * float64 :=
  let n := f_of_Z (Z.of_nat (length xs)) in
  if f_ltb n (f_of_Z 2) then (f_zero, f_zero, f_zero, f_zero)
  else
    let pairs := combine xs ys in
    let sumX := f_sum xs in
    let sumY := f_sum ys in
    let sumXY := f_sum (map (fun p => f_mul (fst p) (snd p)) pairs) in
    let sumXX := f_sum (map (fun x => f_mul x x) xs) in
    let meanX := f_div sumX n in
    let meanY := f_div sumY n in
    let denom := f_sub sumXX (f_mul meanX sumX) in
    if f_eqb denom f_zero then (f_zero, meanY, f_zero, f_zero)
    else
      let slope := f_div (f_sub sumXY (f_mul meanX sumY)) denom in
      let intercept := f_sub meanY (f_mul slope meanX) in
      let residual p := f_sub (snd p) (f_add (f_mul slope (fst p)) intercept) in
      let ssRes := f_sum (map (fun p => f_mul (residual p) (residual p)) pairs) in
      let ssTot := f_sum (map (fun y => f_mul (f_sub y meanY) (f_sub y meanY)) ys) in
      let rSquared := if f_ltb f_zero ssTot then f_sub (f_of_Z 1) (f_div ssRes ssTot) else f_zero in
      let stdErr := if f_ltb (f_of_Z 2) n then f_sqrt (f_div ssRes (f_sub n (f_of_Z 2))) else f_zero in
      (slope, intercept, rSquared, stdErr).

Definition forecastHeadline (f : FleetScoreForecast) (currentScore : Z) : string :=
  let delta := fo_Predicted f - currentScore in
  if negb (fo_Sufficient f) then "Trend too flat or noisy to forecast confidently."
  else if 5 <=? delta then "Projected to improve sharply."
  else if 2 <=? delta then "Projected to improve."
  else if delta <=? -5 then "Projected to degrade sharply."
  else if delta <=? -2 then "Projected to degrade."
  else "Projected to hold steady.".

Definition with_headline (f : FleetScoreForecast) (h : string) : FleetScoreForecast :=
  {| fo_Predicted := fo_Predicted f; fo_Lower := fo_Lower f; fo_Upper := fo_Upper f; fo_PredictedFor := fo_PredictedFor f;
     fo_Slope := fo_Slope f; fo_RSquared := fo_RSquared f; fo_Basis := fo_Basis f; fo_Sufficient := fo_Sufficient f;
     fo_Headline := h |}.

(** The fit of a history, and where its line is at a time. *)
Definition hours_of (pts : list FleetScoreHistoryPoint) : list float64 :=
  let t0 := match pts with [] => 0 | p :: _ => hp_Timestamp p end in
  map (fun p => Hours (Sub (hp_Timestamp p) t0)) pts.

Definition projection (pts : list FleetScoreHistoryPoint) (at_ : Z) : float64 :=
  let t0 := match pts with [] => 0 | p :: _ => hp_Timestamp p end in
  let '(slope, intercept, _, _) := ols (hours_of pts) (map (fun p => f_of_Z (hp_Score p)) pts) in
  f_add (f_mul slope (Hours (Sub at_ t0))) intercept.

Definition margin_of (stdErr : float64) : float64 :=
  let margin := f_mul (f_const 196 100) stdErr in
  if f_is_nan margin || f_is_inf margin then f_zero else margin.

Definition target_of (pts : list FleetScoreHistoryPoint) (predictedFor : Z) : Z :=
  if predictedFor =? 0
  then match last pts with Some p => hp_Timestamp p + medianGap pts | None => 0 end
  else predictedFor.

Definition ForecastFleetScore (history : list FleetScoreHistoryPoint) (predictedFor : Z) : FleetScoreForecast :=
  let n := length history in
  if (n <? minForecastPoints)%nat then
    {| fo_Predicted := 0; fo_Lower := 0; fo_Upper := 0; fo_PredictedFor := 0; fo_Slope := f_zero; fo_RSquared := f_zero;
       fo_Basis := n; fo_Sufficient := false; fo_Headline := "Not enough history yet for a forecast." |}
  else
    let pts := sortByTimestamp history in
    let at_ := target_of pts predictedFor in
    let '(slope, _, rSq, stdErr) := ols (hours_of pts) (map (fun p => f_of_Z (hp_Score p)) pts) in
    let predicted := f_max f_zero (f_min (f_of_Z 100) (projection pts at_)) in
    let margin := margin_of stdErr in
    let forecast := {|
      fo_Predicted := f_to_int (f_round predicted);
      fo_Lower := f_to_int (f_round (f_max f_zero (f_sub predicted margin)));
      fo_Upper := f_to_int (f_round (f_min (f_of_Z 100) (f_add predicted margin)));
      fo_PredictedFor := at_; fo_Slope := slope; fo_RSquared := rSq; fo_Basis := n;
      fo_Sufficient := f_leb (f_const 1 4) rSq || f_ltb (f_const 1 10) (f_abs slope); fo_Headline := "" |} in
    with_headline forecast (forecastHeadline forecast (match last pts with Some p => hp_Score p | None => 0 end)).

(** A steady climb of one point an hour, in any order. *)
Definition climb : list FleetScoreHistoryPoint :=
  map (fun i => {| hp_ScanID := itoa i; hp_Timestamp := i * Hour; hp_Score := 60 + i |}) [3; 1; 4; 2; 5; 6].

Example climb_forecast : let f := ForecastFleetScore climb 0 in
  (fo_Lower f, fo_Predicted f, fo_Upper f, fo_PredictedFor f, fo_Sufficient f, fo_Headline f)
  = (67, 67, 67, 7 * Hour, true, "Projected to hold steady."%string).
Proof. vm_compute. reflexivity. Qed.

(** ** Rounding a score *)

Lemma round_int x : f_finite x = true -> f_nonneg x = true -> f_val x <= 100 * 2 ^ 1074 ->
  f_to_int (f_round x) = (2 * f_val x + 2 ^ 1074) / 2 ^ 1075.
Proof.
  intros Fx Px Hb. pose proof pow1074_pos as HP.
  assert (2 ^ 1075 = 2 * 2 ^ 1074) as E2 by (rewrite <- Z.pow_succ_r by lia; done).
  destruct x as [s| | |[] m e]; try done.
  pose proof (finite_exp _ _ _ Fx) as He. rewrite f_val_finite, Z.mul_1_l in *. unfold scaled in *.
  replace (e - -1074) with (e + 1074) in * by lia. cbn [f_round].
  destruct (0 <=? e) eqn:Ee; [apply Z.leb_le in Ee|apply Z.leb_gt in Ee].
  - unfold f_to_int, mag_trunc. rewrite Z.shiftl_mul_pow2 by done. rewrite Z.pow_add_r in * by lia.
    assert (0 < 2 ^ e) by (apply Z.pow_pos_nonneg; lia).
    assert (Zpos m * 2 ^ e <= 100) as Hz by (set (P := 2 ^ 1074) in *; clearbody P; nia).
    replace (_ && _) with true by (symmetry; apply andb_true_iff; unfold int64_min, int64_max; split; apply Z.leb_le; lia).
    rewrite E2. apply Z.div_unique with (2 ^ 1074); [left; set (P := 2 ^ 1074) in *; clearbody P; lia|].
    set (P := 2 ^ 1074) in *; clearbody P; lia.
  - assert (mag_round m e = (2 * (Zpos m * 2 ^ (e + 1074)) + 2 ^ 1074) / 2 ^ 1075) as Hr.
    { unfold mag_round. replace (0 <=? e) with false by (symmetry; apply Z.leb_gt; lia).
      rewrite Z.shiftr_div_pow2, Z.shiftl_mul_pow2, Z.mul_1_l by lia.
      replace (2 ^ 1075) with (2 ^ (- e) * 2 ^ (e + 1075)) by (rewrite <- Z.pow_add_r by lia; f_equal; lia).
      replace (2 * (Zpos m * 2 ^ (e + 1074)) + 2 ^ 1074) with ((Zpos m + 2 ^ (- e - 1)) * 2 ^ (e + 1075)).
      2: { rewrite Z.mul_add_distr_r, <- Z.pow_add_r by lia. replace (e + 1075) with (Z.succ (e + 1074)) by lia.
           rewrite Z.pow_succ_r by lia. replace (- e - 1 + Z.succ (e + 1074)) with 1074 by lia. lia. }
      rewrite Z.div_mul_cancel_r; [done| |]; apply Z.pow_nonzero; lia. }
    assert (0 <= mag_round m e <= 100) as Hb2.
    { rewrite Hr, E2. split; [apply Z.div_pos; lia|]. apply Z.lt_succ_r, Z.div_lt_upper_bound; [lia|].
      assert (0 < 2 ^ (e + 1074)) by (apply Z.pow_pos_nonneg; lia). lia. }
    rewrite f_to_int_small by done. done.
Qed.

Lemma round_mono x y : f_finite x = true -> f_finite y = true -> f_nonneg x = true -> f_nonneg y = true ->
  f_leb x y = true -> f_val y <= 100 * 2 ^ 1074 ->
  0 <= f_to_int (f_round x) <= f_to_int (f_round y) /\ f_to_int (f_round y) <= 100.
Proof.
  intros Fx Fy Px Py Hle Hb. apply f_leb_val in Hle; [|done|done]. pose proof pow1074_pos as HP.
  assert (0 <= f_val x) as Vx by (apply (f_leb_val f_zero x) in Px; done).
  assert (2 ^ 1075 = 2 * 2 ^ 1074) as E2 by (rewrite <- Z.pow_succ_r by lia; done).
  rewrite !round_int by (done || lia). rewrite E2. set (P := 2 ^ 1074) in *. clearbody P.
  split_and!; [apply Z.div_pos; lia|apply Z.div_le_mono; lia|apply Z.lt_succ_r, Z.div_lt_upper_bound; lia].
Qed.

(** ** Square roots *)

Lemma sqrt_core_exp m e : 0 < m -> let '(q, e', _) := SFsqrt_core_binary prec emax m e in
  0 < q /\ e' <= fexp prec emax (Zdigits2 q + e').
Proof.
  intros Hm. unfold SFsqrt_core_binary. set (d := Zdigits2 m).
  set (e' := Z.min (fexp prec emax (Z.div2 (d + e + 1))) (Z.div2 e)).
  set (s := e - 2 * e').
  assert (0 <= s) as Hs by (subst s e'; pose proof (Z.div2_div e) as Hd2; pose proof (Z.mul_div_le e 2); lia).
  set (m' := match s with Z0 => m | Zpos p => Z.shiftl m s | Zneg _ => 0 end).
  assert (m' = m * 2 ^ s) as Hm'.
  { subst m'. destruct s as [|p|p]; [lia| |lia]. by rewrite Z.shiftl_mul_pow2. }
  pose proof (Z.sqrtrem_spec m') as Hq. destruct (Z.sqrtrem m') as [q r]. 
  assert (0 < m') as Hpos by (rewrite Hm'; apply Z.mul_pos_pos; [done|apply Z.pow_pos_nonneg; lia]).
  specialize (Hq ltac:(lia)). destruct Hq as [Hq1 Hq2].
  assert (Zdigits2 m' = d + s) as Hd by (rewrite Hm'; by apply Zdigits2_shift).
  destruct (Zdigits2_bounds m' Hpos) as (Hd0 & B1 & B2). rewrite Hd in *.
  assert (0 < q) as Hq0 by nia. split; [done|].
  assert (Zdigits2 q = (d + s + 1) / 2) as ->.
  { set (k := (d + s + 1) / 2). assert (2 * k - 1 <= d + s <= 2 * k) as Hk by (subst k; pose proof (Z.mul_div_le (d + s + 1) 2); pose proof (Z.mul_succ_div_gt (d + s + 1) 2); lia).
    apply Zdigits2_unique; [lia|]. split.
    - destruct (Z.le_gt_cases (2 ^ (k - 1)) q) as [|Hlt]; [done|exfalso].
      assert ((q + 1) * (q + 1) <= 2 ^ (k - 1) * 2 ^ (k - 1)) by nia. rewrite <- Z.pow_add_r in H by lia.
      assert (2 ^ (k - 1 + (k - 1)) <= 2 ^ (d + s - 1)) by (apply Z.pow_le_mono_r; lia). nia.
    - destruct (Z.lt_ge_cases q (2 ^ k)) as [|Hge]; [done|exfalso].
      assert (2 ^ k * 2 ^ k <= q * q) by nia. rewrite <- Z.pow_add_r in H by lia.
      assert (2 ^ (d + s) <= 2 ^ (k + k)) by (apply Z.pow_le_mono_r; lia). nia. }
  assert ((d + s + 1) / 2 + e' = Z.div2 (d + e + 1)) as ->.
  { rewrite Z.div2_div. subst s. replace (d + (e - 2 * e') + 1) with (d + e + 1 + (- e') * 2) by lia.
    rewrite Z.div_add by lia. lia. }
  subst e'. lia.
Qed.

Lemma f_sqrt_nn x : f_is_nan (f_sqrt x) = false -> f_sqrt x <> S754_zero true -> nn (f_sqrt x) = true.
Proof.
  destruct x as [[]|[]| |[] m e]; try done. intros _ _. unfold f_sqrt, SFsqrt.
  pose proof (sqrt_core_exp (Zpos m) e ltac:(lia)) as H. destruct (SFsqrt_core_binary prec emax (Zpos m) e) as [[q e'] l].
  destruct H as [Hq He]. unfold nn. rewrite round_aux_valid, round_aux_sign by (done || lia). done.
Qed.

(** ** Validity of the fit *)

Lemma f_sum_valid l : Forall (fun x => f_valid x = true) l -> f_valid (f_sum l) = true.
Proof.
  unfold f_sum. assert (f_valid f_zero = true) as H0 by reflexivity. revert H0. generalize f_zero.
  induction l as [|x l IH]; intros a Ha Hl; [done|]. apply Forall_cons in Hl as [Hx Hl]. simpl. apply IH; [by apply f_add_valid|done].
Qed.

#[local] Hint Resolve f_add_valid f_sub_valid f_mul_valid f_div_valid f_of_Z_valid : fval.

Lemma ols_valid xs ys : Forall (fun x => f_valid x = true) xs -> Forall (fun x => f_valid x = true) ys ->
  let '(slope, intercept, _, _) := ols xs ys in f_valid slope = true /\ f_valid intercept = true.
Proof.
  intros Hx Hy. unfold ols. destruct (f_ltb _ _); [done|]. cbv zeta.
  assert (forall p, p ∈ combine xs ys -> f_valid (fst p) = true /\ f_valid (snd p) = true) as Hp.
  { intros [a b] Hin%list_elem_of_In. rewrite Forall_forall in Hx, Hy.
    split; [apply Hx|apply Hy]; apply list_elem_of_In; [by eapply in_combine_l|by eapply in_combine_r]. }
  assert (f_valid (f_sum (map (fun p => f_mul (fst p) (snd p)) (combine xs ys))) = true) as Hxy.
  { apply f_sum_valid, Forall_forall. intros z (p & -> & Hin)%list_elem_of_fmap. destruct (Hp p Hin). auto with fval. }
  assert (f_valid (f_sum (map (fun x => f_mul x x) xs)) = true) as Hxx.
  { apply f_sum_valid, Forall_forall. intros z (p & -> & Hin)%list_elem_of_fmap. rewrite Forall_forall in Hx. auto with fval. }
  pose proof (f_sum_valid xs Hx). pose proof (f_sum_valid ys Hy).
  destruct (f_eqb _ _); split; auto 8 with fval.
Qed.

Lemma projection_valid pts t : f_valid (projection pts t) = true.
Proof.
  assert (Forall (fun x => f_valid x = true) (hours_of pts)) as Hx.
  { apply Forall_forall. intros z (p & -> & _)%list_elem_of_fmap. unfold Hours. auto with fval. }
  assert (Forall (fun x => f_valid x = true) (map (fun p => f_of_Z (hp_Score p)) pts)) as Hy.
  { apply Forall_forall. intros z (p & -> & _)%list_elem_of_fmap. auto with fval. }
  unfold projection. pose proof (ols_valid _ _ Hx Hy) as H.
  destruct (ols _ _) as [[[slope intercept] r] e]. destruct H as [Hs Hi]. unfold Hours. auto 8 with fval.
Qed.

(** ** The band *)

(** A finite value from 0 to 100. *)
Definition on_scale (p : float64) : Prop := f_finite p = true /\ f_nonneg p = true /\ f_val p <= 100 * 2 ^ 1074.

Lemma leb_zero x : f_finite x = true -> f_nonneg x = true <-> 0 <= f_val x.
Proof. intros Fx. exact (f_leb_val f_zero x eq_refl Fx). Qed.

Lemma f_max_zero x : f_valid x = true -> f_is_nan x = false -> f_ltb x f_zero = false -> f_max f_zero x = x \/ f_max f_zero x = f_zero.
Proof. destruct x as [[]|[]| |s m e]; try done; intros _ _ H; cbn [f_max f_zero] in *; rewrite ?H; auto. Qed.

Lemma f_max_zero_neg x : f_ltb x f_zero = true -> f_max f_zero x = f_zero.
Proof. destruct x as [[]|[]| |s m e]; try done; intros H; unfold f_max, f_zero in *; by rewrite H. Qed.

(** The larger of zero and a value below [p]. *)
Lemma max_zero_below d p : f_valid d = true -> on_scale p -> f_leb d p = true ->
  f_finite (f_max f_zero d) = true /\ f_nonneg (f_max f_zero d) = true /\ f_leb (f_max f_zero d) p = true.
Proof.
  intros Vd (Fp & Pp & Bp) Hle.
  destruct (f_ltb d f_zero) eqn:E; [rewrite f_max_zero_neg by done; done|].
  destruct d as [[]|[]| |s m e]; try done; [by destruct p as [| | |]|].
  assert (f_max f_zero (S754_finite s m e) = S754_finite s m e) as -> by (unfold f_max, f_zero in *; by rewrite E).
  split_and!; [done| |done]. rewrite f_ltb_leb in E by done. by apply negb_false_iff in E.
Qed.

(** The smaller of 100 and a value above [p]. *)
Lemma min_hundred_above u p : f_valid u = true -> on_scale p -> f_leb p u = true ->
  on_scale (f_min (f_of_Z 100) u) /\ f_leb p (f_min (f_of_Z 100) u) = true.
Proof.
  intros Vu (Fp & Pp & Bp) Hle. assert (on_scale (f_of_Z 100)) as H100.
  { split_and!; [done|done|]. rewrite f_val_of_Z100. lia. }
  assert (f_leb p (f_of_Z 100) = true) as Hp100.
  { apply f_leb_val; [done|done|]. by rewrite f_val_of_Z100. }
  destruct (f_ltb (f_of_Z 100) u) eqn:E.
  - assert (f_min (f_of_Z 100) u = f_of_Z 100) as ->; [|done].
    destruct u as [[]|[]| |s m e]; try done. unfold f_min. change (f_of_Z 100) with (S754_finite false 7036874417766400 (-46)) in *.
    by rewrite E.
  - assert (u = S754_nan \/ f_min (f_of_Z 100) u = u) as [->| ->]; [| |].
    { destruct u as [[]|[]| |s m e]; auto; right; unfold f_min; change (f_of_Z 100) with (S754_finite false 7036874417766400 (-46)) in *;
        by rewrite E. }
    { by destruct p as [| | |]. }
    assert (f_finite u = true) as Fu.
    { destruct u as [[]|[]| |s m e]; [done|done|by destruct p as [[]|[]| |[] ? ?]|vm_compute in E; discriminate
        |by destruct p as [[]|[]| |[] ? ?]|exact Vu]. }
    split; [|done]. rewrite f_ltb_leb in E by (by destruct u || done). apply negb_false_iff in E.
    pose proof (proj1 (f_leb_val p u Fp Fu) Hle). pose proof (proj1 (f_leb_val u (f_of_Z 100) Fu eq_refl) E) as Hu.
    pose proof (proj1 (leb_zero p Fp) Pp).
    split_and!; [done|apply leb_zero; [done|lia]|by rewrite f_val_of_Z100 in Hu].
Qed.

Lemma clamp_on_scale q : f_valid q = true -> f_is_nan q = false -> on_scale (f_max f_zero (f_min (f_of_Z 100) q)).
Proof.
  intros Vq Nq. assert (on_scale f_zero) as H0 by (split_and!; [done|done|change (f_val f_zero) with 0; lia]).
  destruct (f_ltb q f_zero) eqn:E.
  - assert (f_ltb (f_min (f_of_Z 100) q) f_zero = true) as Hn; [|by rewrite f_max_zero_neg].
    destruct q as [[]|[]| |s m e]; try done. unfold f_min. change (f_of_Z 100) with (S754_finite false 7036874417766400 (-46)).
    destruct (f_ltb _ (S754_finite s m e)) eqn:E2; [|done].
    pose proof (f_ltb_trans _ _ _ E2 E) as Hbad. vm_compute in Hbad. discriminate.
  - assert (f_leb f_zero q = true) as Hq by (rewrite f_ltb_leb in E by done; by apply negb_false_iff in E).
    destruct (min_hundred_above q f_zero Vq H0 Hq) as [(Fm & Pm & Bm) Hm].
    assert (f_ltb (f_min (f_of_Z 100) q) f_zero = false) as En.
    { rewrite f_ltb_leb; [by rewrite Hm|by destruct (f_min _ _)|done]. }
    set (w := f_min (f_of_Z 100) q) in *. clearbody w.
    destruct (f_max_zero w) as [-> | ->]; [by destruct w|by destruct w|done|by split_and!|done].
Qed.

Lemma margin_ok xs ys : let '(_, _, _, stdErr) := ols xs ys in
  f_finite (margin_of stdErr) = true /\ 0 <= f_val (margin_of stdErr).
Proof.
  assert (forall s, s = f_zero \/ (exists x, s = f_sqrt x) -> f_finite (margin_of s) = true /\ 0 <= f_val (margin_of s)) as H.
  { intros s Hs. unfold margin_of. destruct Hs as [->|[x ->]]; [done|].
    destruct (f_is_nan (f_sqrt x)) eqn:En; [by destruct (f_sqrt x)|].
    destruct (nn (f_sqrt x)) eqn:Enn.
    - assert (nn (f_mul (f_const 196 100) (f_sqrt x)) = true) as Hm by (by apply nn_mul).
      destruct (f_is_nan _ || f_is_inf _) eqn:Ei; [done|]. destruct (nn_cases _ Hm) as [Hinf|[Fm Vm]]; [|done].
      by rewrite Hinf in Ei.
    - assert (f_sqrt x = S754_zero true) as ->; [|done].
      destruct (f_sqrt x) as [[]|[]| |s m e] eqn:Es; try done; rewrite <- Es in Enn; rewrite f_sqrt_nn in Enn; congruence. }
  unfold ols. destruct (f_ltb _ _); [by apply H; left|]. cbv zeta. destruct (f_eqb _ _); [by apply H; left|].
  apply H. destruct (f_ltb (f_of_Z 2) _); [by right; eexists|by left].
Qed.

(** Where the fitted line gives a number, the forecast is a score and its band is around
    it: 0 <= Lower <= Predicted <= Upper <= 100. *)
Theorem forecast_in_band history t :
  f_is_nan (projection (sortByTimestamp history) (target_of (sortByTimestamp history) t)) = false ->
  let f := ForecastFleetScore history t in
  0 <= fo_Lower f <= fo_Predicted f /\ fo_Predicted f <= fo_Upper f <= 100.
Proof.
  intros Hnan. unfold ForecastFleetScore. cbv zeta. destruct (_ <? _)%nat; [simpl; lia|].
  set (pts := sortByTimestamp history) in *. set (q := projection pts _) in *.
  pose proof (margin_ok (hours_of pts) (map (fun p => f_of_Z (hp_Score p)) pts)) as Hm.
  destruct (ols _ _) as [[[slope intercept] r] stdErr]. cbn [with_headline fo_Lower fo_Predicted fo_Upper].
  destruct Hm as [Fm Vm]. set (margin := margin_of stdErr) in *.
  pose proof (clamp_on_scale q (projection_valid _ _) Hnan) as Hp. set (p := f_max f_zero _) in *.
  pose proof Hp as (Fp & Pp & Bp). assert (f_valid p = true /\ f_valid margin = true) as [Vp Vmg] by (by destruct p, margin).
  destruct (max_zero_below (f_sub p margin) p) as (Fl & Pl & Ll); [by apply f_sub_valid|done| |].
  { apply (rounds_le _ _ _ (f_sub_rounds p margin Fp Fm) Fp). lia. }
  destruct (min_hundred_above (f_add p margin) p) as [(Fu & Pu & Bu) Lu]; [by apply f_add_valid|done| |].
  { apply (rounds_ge _ _ _ (f_add_rounds p margin Fp Fm) Fp). lia. }
  pose proof (round_mono _ _ Fl Fp Pl Pp Ll Bp). pose proof (round_mono _ _ Fp Fu Pp Pu Lu Bu). lia.
Qed.

Lemma forecast_in_band_witness :
  f_is_nan (projection (sortByTimestamp climb) (target_of (sortByTimestamp climb) 0)) = false /\
  0 <= fo_Lower (ForecastFleetScore climb 0) <= fo_Predicted (ForecastFleetScore climb 0).
Proof.
  assert (f_is_nan (projection (sortByTimestamp climb) (target_of (sortByTimestamp climb) 0)) = false) as H
    by (vm_compute; reflexivity).
  split; [exact H|]. exact (proj1 (forecast_in_band climb 0 H)).
Defined.
