(* ===== verification/Cost.v ===== *)
(** * internal/cost/cost.go: spend against scores

    The rows are what encoding/csv returns for a table: every row has as many fields as the
    first. [strconv.ParseFloat] is a parameter. *)

From Stdlib Require Import ZArith Lia String Sorting.Sorted.
From stdpp Require Import base gmap strings list.
From S2P Require Import Prelude Maps Float64 GoTime Text Strs Data Format ClusterScore.

Local Open Scope nat_scope.

Record Entry := { en_Cluster : string; en_Period : string; en_USD : float64 }.

Record ClusterCost := {
  cc_Cluster : string;
  cc_Score : Z;
  cc_CostUSD : float64;
  cc_DriftUSD : float64;
  cc_Period : string
}.

Record Analysis := {
  an_Currency : string;
  an_Period : string;
  an_TotalFleetUSD : float64;
  an_TotalDriftUSD : float64;
  an_ByCluster : list ClusterCost;
  an_MissingCost : list string
}.

(** ** ParseCSV *)

Definition column_name (h : string) : string := of_bytes (to_lower (to_bytes (TrimSpace h))).

Definition headerIdx (header : list string) : gmap string nat := last_of (imap (fun i h => (column_name h, i)) header).

Definition requireCols : list string := ["cluster"; "period"; "cost_usd"].

Definition cell (idx : gmap string nat) (row : list string) (column : string) : string :=
  TrimSpace (nth (default 0 (idx !! column)) row "").

Definition newest_step (out : gmap string Entry) (e : Entry) : gmap string Entry :=
  match out !! en_Cluster e with
  | None => <[en_Cluster e := e]> out
  | Some existing => if str_ltb (en_Period existing) (en_Period e) then <[en_Cluster e := e]> out else out
  end.

(** The most recent entry of each cluster. *)
Definition newest (all : list Entry) : gmap string Entry := fold_left newest_step all ∅.

Section Parse.
Context (parse_float : string -> string + float64).

(** The entries of the rows from line [i] on, or the first line whose cost does not parse.
    A row without a cluster is passed over before its cost is read. *)
Fixpoint entries_from (i : nat) (idx : gmap string nat) (rows : list (list string)) : string + list Entry :=
  match rows with
  | [] => inr []
  | row :: rows' =>
      let cluster := cell idx row "cluster" in
      if String.eqb cluster "" then entries_from (S i) idx rows'
      else
        let usdRaw := cell idx row "cost_usd" in
        match parse_float usdRaw with
        | inl e => inl ("cost csv row " ++ itoa (Z.of_nat i) ++ ": parse cost_usd " ++ quote usdRaw ++ ": " ++ e)%string
        | inr usd =>
            match entries_from (S i) idx rows' with
            | inl e => inl e
            | inr es => inr ({| en_Cluster := cluster; en_Period := cell idx row "period"; en_USD := usd |} :: es)
            end
        end
  end.

Definition ParseCSV (rows : list (list string)) : string + gmap string Entry :=
  match rows with
  | [] => inr ∅
  | header :: body =>
      let idx := headerIdx header in
      match List.find (fun c => bool_decide (idx !! c = None)) requireCols with
      | Some c => inl ("cost csv: missing required column " ++ quote c)%string
      | None =>
          match entries_from 2 idx body with
          | inl e => inl e
          | inr all => inr (newest all)
          end
      end
  end.
End Parse.

(** ** Correlate *)

Definition roundCents (v : float64) : float64 :=
  if f_eqb v f_zero then f_zero
  else
    let scaled := f_mul v (f_of_Z 100) in
    if f_leb f_zero scaled then f_div (f_of_Z (f_to_int (f_add scaled (f_const 1 2)))) (f_of_Z 100)
    else f_div (f_of_Z (f_to_int (f_sub scaled (f_const 1 2)))) (f_of_Z 100).

(** [usd * (1 - score/100)]. *)
Definition drift_of (usd : float64) (score : Z) : float64 := f_mul usd (f_sub (f_of_Z 1) (f_div (f_of_Z score) (f_of_Z 100))).

Definition scoresByCluster (r : Report) : gmap string Z :=
  last_of (map (fun cs => (csc_Cluster cs, csc_Score cs)) (ComputeClusterScores (Some r))).

Definition costed (scores : gmap string Z) (costs : gmap string Entry) (cluster : string) : option (ClusterCost * (float64 * float64)) :=
  match costs !! cluster with
  | None => None
  | Some entry =>
      let score := default 100%Z (scores !! cluster) in
      let drift := drift_of (en_USD entry) score in
      Some ({| cc_Cluster := cluster; cc_Score := score; cc_CostUSD := roundCents (en_USD entry);
               cc_DriftUSD := roundCents drift; cc_Period := en_Period entry |}, (en_USD entry, drift))
  end.

Definition latest_period (l : list string) : string :=
  fold_left (fun period p => if str_ltb period p then p else period) l "".

Definition more_drift (a b : ClusterCost) : bool := f_ltb (cc_DriftUSD b) (cc_DriftUSD a).

Definition Correlate (r : option Report) (costs : gmap string Entry) : Analysis :=
  match r with
  | None => {| an_Currency := "USD"; an_Period := ""; an_TotalFleetUSD := f_zero; an_TotalDriftUSD := f_zero;
               an_ByCluster := []; an_MissingCost := [] |}
  | Some r =>
      let found := omap (costed (scoresByCluster r) costs) (rp_Clusters r) in
      {| an_Currency := "USD";
         an_Period := latest_period (map (fun f => cc_Period (fst f)) found);
         an_TotalFleetUSD := roundCents (f_sum (map (fun f => fst (snd f)) found));
         an_TotalDriftUSD := roundCents (f_sum (map (fun f => snd (snd f)) found));
         an_ByCluster := isort more_drift (map fst found);
         an_MissingCost := sort_strings (List.filter (fun c => bool_decide (costs !! c = None)) (rp_Clusters r)) |}
  end.

(** ** Facts *)

(** What is not after [x] is before whatever [x] is before. *)
Lemma str_below x y z : str_ltb x y = false -> str_ltb x z = true -> str_ltb y z = true.
Proof.
  unfold str_ltb. intros Hxy Hxz. destruct (String.compare x z) eqn:E; try done.
  destruct (String.compare y z) eqn:Eyz; [| |]; try done; exfalso; apply (cmp_trans (c := String.compare) z y x).
  all: try (rewrite (cmp_anti (c := String.compare) x z), E; done).
  all: try (rewrite (cmp_anti (c := String.compare) y z), Eyz; done).
  all: rewrite (cmp_anti (c := String.compare) x y); by destruct (String.compare x y).
Qed.

Lemma str_trans x y z : str_ltb x y = true -> str_ltb y z = true -> str_ltb x z = true.
Proof.
  unfold str_ltb. destruct (String.compare x y) eqn:E1; try done. destruct (String.compare y z) eqn:E2; try done.
  by rewrite (cmp_lt_trans String.compare x y z E1 E2).
Qed.

(** [e] is the row kept for its cluster: what comes before it is older, and nothing after it is newer. *)
Definition kept (all : list Entry) (cluster : string) (e : Entry) : Prop :=
  exists before after, all = before ++ e :: after /\ en_Cluster e = cluster /\
    (forall b, b ∈ before -> en_Cluster b = cluster -> str_ltb (en_Period b) (en_Period e) = true) /\
    (forall a, a ∈ after -> en_Cluster a = cluster -> str_ltb (en_Period e) (en_Period a) = false).

Lemma kept_snoc all cluster e x : kept all cluster e ->
  (en_Cluster x = cluster -> str_ltb (en_Period e) (en_Period x) = false) -> kept (all ++ [x]) cluster e.
Proof.
  intros (before & after & -> & He & Hb & Ha) Hx. exists before, (after ++ [x]). split_and!; [by rewrite <- app_assoc|done|done|].
  intros a [Hin|Hin%list_elem_of_singleton]%elem_of_app; [by apply Ha|by subst].
Qed.

Lemma kept_replaced all cluster e x : kept all cluster e -> en_Cluster x = cluster ->
  str_ltb (en_Period e) (en_Period x) = true -> kept (all ++ [x]) cluster x.
Proof.
  intros (before & after & -> & He & Hb & Ha) Hx Hlt. exists (before ++ e :: after), [].
  split_and!; [done|done| |by intros a ?%elem_of_nil].
  intros b [Hin|[->|Hin]%elem_of_cons]%elem_of_app Hc; [|done|].
  - apply (str_trans _ (en_Period e)); [by apply Hb|done].
  - apply (str_below (en_Period e)); [by apply Ha|done].
Qed.

(** Of the rows of a cluster the one of the latest period is kept, the first of them when
    several share the period, and a cluster without a row has no cost. *)
Theorem newest_period all cluster :
  match newest all !! cluster with
  | None => forall e, e ∈ all -> en_Cluster e <> cluster
  | Some e => kept all cluster e
  end.
Proof.
  unfold newest. induction all as [|x all IH] using rev_ind; [simpl; rewrite lookup_empty; by intros e ?%elem_of_nil|].
  rewrite fold_left_app. simpl. set (out := fold_left newest_step all ∅) in *. clearbody out.
  destruct (decide (en_Cluster x = cluster)) as [Hx|Hx].
  - unfold newest_step. rewrite Hx. destruct (out !! cluster) as [e|] eqn:Eo.
    + destruct (str_ltb (en_Period e) (en_Period x)) eqn:Elt.
      * rewrite lookup_insert_eq. by apply (kept_replaced _ _ e).
      * rewrite Eo. by apply kept_snoc.
    + rewrite lookup_insert_eq. exists all, []. split_and!; [done|done| |by intros a ?%elem_of_nil].
      intros b Hin Hc. by destruct (IH b Hin).
  - assert (newest_step out x !! cluster = out !! cluster) as ->.
    { unfold newest_step. repeat case_match; try done; by rewrite lookup_insert_ne by congruence. }
    destruct (out !! cluster) as [e|]; [by apply kept_snoc|].
    intros e [Hin|Hin%list_elem_of_singleton]%elem_of_app; [by apply IH|by subst].
Qed.

Lemma costed_cluster scores costs c f : costed scores costs c = Some f -> cc_Cluster (fst f) = c.
Proof. unfold costed. destruct (costs !! c); [|done]. by intros [= <-]. Qed.

Lemma costed_clusters scores costs l :
  map cc_Cluster (map fst (omap (costed scores costs) l)) = List.filter (fun c => negb (bool_decide (costs !! c = None))) l.
Proof.
  induction l as [|c l IH]; [done|].
  change (omap (costed scores costs) (c :: l)) with
    (match costed scores costs c with Some y => y :: omap (costed scores costs) l | None => omap (costed scores costs) l end).
  cbn [List.filter]. destruct (costed scores costs c) as [f|] eqn:Ef.
  - pose proof (costed_cluster _ _ _ _ Ef) as Hc. cbn [map]. rewrite IH, Hc. unfold costed in Ef.
    destruct (costs !! c) as [e|]; [|done]. by rewrite bool_decide_eq_false_2.
  - unfold costed in Ef. destruct (costs !! c) as [e|]; [done|]. by rewrite bool_decide_eq_true_2.
Qed.

(** Every cluster of the report is either ranked once with the cost and drift of its kept
    row, or listed as missing; nothing else is in the analysis. *)
Theorem cost_accounts r costs :
  map cc_Cluster (an_ByCluster (Correlate (Some r) costs)) ++ an_MissingCost (Correlate (Some r) costs) ≡ₚ rp_Clusters r /\
  (forall c, c ∈ an_MissingCost (Correlate (Some r) costs) -> costs !! c = None) /\
  (forall row, row ∈ an_ByCluster (Correlate (Some r) costs) -> exists e, costs !! cc_Cluster row = Some e /\
     cc_Score row = default 100%Z (scoresByCluster r !! cc_Cluster row) /\ cc_Period row = en_Period e /\
     cc_CostUSD row = roundCents (en_USD e) /\ cc_DriftUSD row = roundCents (drift_of (en_USD e) (cc_Score row))).
Proof.
  cbn [Correlate an_ByCluster an_MissingCost]. split_and!.
  - rewrite isort_perm, sort_strings_perm, costed_clusters. apply filter_split_perm.
  - intros c Hc. apply sort_strings_elem_of, list_elem_of_In, filter_In in Hc as [_ Hc]. by apply bool_decide_eq_true in Hc.
  - intros row Hrow. apply isort_elem_of, list_elem_of_fmap in Hrow as (f & -> & Hf).
    apply list_elem_of_omap in Hf as (c & _ & Hc). pose proof (costed_cluster _ _ _ _ Hc) as ->.
    unfold costed in Hc. destruct (costs !! c) as [e|]; [|done]. injection Hc as <-. by exists e.
Qed.

(** ** Samples *)

Definition parse_plain (s : string) : string + float64 := inr (ParseFloat s).

Example parse_sample :
  match ParseCSV parse_plain [["Cluster"; "Period"; " cost_usd"]; ["a"; "2026-04"; "10.50"]; [""; ""; "x"]; ["a"; "2026-05"; "12"];
                              ["a"; "2026-03"; "99"]] with
  | inr m => (fun e => (en_Period e, show_fixed 2 (en_USD e))) <$> m !! "a"
  | inl _ => None
  end = Some ("2026-05", "12.00").
Proof. vm_compute. reflexivity. Qed.

Example missing_column : ParseCSV parse_plain [["cluster"; "period"]] = inl ("cost csv: missing required column " ++ quote "cost_usd")%string.
Proof. vm_compute. reflexivity. Qed.

Example rounded : map (fun z => show_fixed 2 (roundCents (f_const z 1000))) [1234; 1235; -1235; 0]%Z
  = ["1.23"; "1.24"; "-1.24"; "0.00"].
Proof. vm_compute. reflexivity. Qed.
