(* ===== verification/Pipeline.v ===== *)
(** * internal/report/report.go: Build, from the scan results to the report

    The components put together in the order of the source. [Timestamp] and [Categories]
    are left out: no other part reads them. *)

From Stdlib Require Import ZArith Lia String Sorting.Sorted.
From stdpp Require Import base gmap strings list.
From S2P Require Import Prelude Float64 Text Data Observe Format Score Detect Rules Findings.
From S2P Require Import Finders Capacity FindCluster Generate Build Profile Cohort Explain MisCohort Recurrence Brief.

Local Open Scope nat_scope.

Record BuildOptions := {
  bo_OutlierThreshold : float64;
  bo_Groups : list (string * list string);
  bo_ClusterTags : gmap string string }.

(** The report with its capacity analysis and its brief. *)
Record Built := { bt_Report : Report; bt_Capacity : list CapacityAnalysis; bt_Brief : Brief }.

Definition with_cohorts (r : Report) (cohorts : list CohortSummary) : Report := {|
  rp_Clusters := rp_Clusters r; rp_Sections := rp_Sections r; rp_Summary := rp_Summary r; rp_Findings := rp_Findings r;
  rp_ClusterHealths := rp_ClusterHealths r; rp_Outliers := rp_Outliers r; rp_Distributions := rp_Distributions r;
  rp_DeviationMass := rp_DeviationMass r; rp_ScoreAttribution := rp_ScoreAttribution r; rp_FleetScore := rp_FleetScore r;
  rp_Cohorts := cohorts; rp_Degraded := rp_Degraded r; rp_Incidents := rp_Incidents r; rp_Notes := rp_Notes r;
  rp_runs := rp_runs r |}.

Definition with_distributions (r : Report) (dists : list Distribution) : Report := {|
  rp_Clusters := rp_Clusters r; rp_Sections := rp_Sections r; rp_Summary := rp_Summary r; rp_Findings := rp_Findings r;
  rp_ClusterHealths := rp_ClusterHealths r; rp_Outliers := rp_Outliers r; rp_Distributions := dists;
  rp_DeviationMass := rp_DeviationMass r; rp_ScoreAttribution := rp_ScoreAttribution r; rp_FleetScore := rp_FleetScore r;
  rp_Cohorts := rp_Cohorts r; rp_Degraded := rp_Degraded r; rp_Incidents := rp_Incidents r; rp_Notes := rp_Notes r;
  rp_runs := rp_runs r |}.

Definition with_verdicts (r : Report) (incidents : list Incident) (healths : list ClusterHealth) : Report := {|
  rp_Clusters := rp_Clusters r; rp_Sections := rp_Sections r; rp_Summary := rp_Summary r; rp_Findings := rp_Findings r;
  rp_ClusterHealths := healths; rp_Outliers := rp_Outliers r; rp_Distributions := rp_Distributions r;
  rp_DeviationMass := rp_DeviationMass r; rp_ScoreAttribution := rp_ScoreAttribution r; rp_FleetScore := rp_FleetScore r;
  rp_Cohorts := rp_Cohorts r; rp_Degraded := rp_Degraded r; rp_Incidents := incidents; rp_Notes := rp_Notes r;
  rp_runs := rp_runs r |}.

Section Build.
(** The orders in which Go happens to range over its maps, and the one its unstable sort
    leaves equal capacity analyses in. *)
Context (corder : gmap nat nat -> list (nat * nat)) (order : forall A, list A -> list A)
  (cyorder : list CapacityAnalysis -> list CapacityAnalysis).

(** The report as the finding generators see it: sections, outliers, cohorts and norms. *)
Definition analyzed (clusters : list string) (results : Results) (opt : BuildOptions) : Report :=
  let threshold := default_threshold (bo_OutlierThreshold opt) in
  let r := detect_fleet (build_sections clusters results) threshold in
  let '(cohorts, cohortDists) := buildCohorts corder r (bo_ClusterTags opt) threshold in
  let r := applyCohortNorms (with_cohorts r cohorts) cohortDists in
  with_distributions r (sortDistributions (rp_Distributions r ++ cohortDists)).

(** Capacity is analyzed before the cohorts are built; it reads the sections and runs only. *)
Definition capacity_of (clusters : list string) (results : Results) (opt : BuildOptions) : list CapacityAnalysis :=
  analyzeCapacity cyorder (detect_fleet (build_sections clusters results) (default_threshold (bo_OutlierThreshold opt)))
    (bo_Groups opt).

Definition Build (clusters : list string) (results : Results) (opt : BuildOptions) : Built :=
  let capacity := capacity_of clusters results opt in
  let r := analyzed clusters results opt in
  let findings := sortFindings (generateFindings (order _) (order _) capacity r ++
    stampFingerprints (misCohortFindings corder order r (bo_ClusterTags opt))) in
  let r := with_findings r findings in
  let r := with_verdicts r (fuseIncidents findings) (generateClusterHealth r findings) in
  let r := default r (Rescore (Some r)) in
  {| bt_Report := r; bt_Capacity := capacity; bt_Brief := generateBrief r |}.

(** ** Facts *)

(** What the later steps leave alone: clusters, sections, degraded runs and the run table. *)
Definition same_runs (r r' : Report) : Prop :=
  rp_Clusters r = rp_Clusters r' /\ rp_Sections r = rp_Sections r' /\ rp_Degraded r = rp_Degraded r' /\ rp_runs r = rp_runs r'.

Lemma same_runs_view r r' s c : same_runs r r' -> clusterView r s c = clusterView r' s c.
Proof.
  intros (Hc & Hs & Hd & Hr). unfold clusterView, runState, runs_of, indexRuns. by rewrite Hs, Hr, Hd.
Qed.

Lemma analyzed_runs clusters results opt : same_runs (analyzed clusters results opt) (build_sections clusters results).
Proof.
  unfold analyzed. set (r0 := build_sections clusters results).
  set (r1 := detect_fleet r0 _). assert (H1 : same_runs r1 r0).
  { unfold r1, detect_fleet. repeat case_match; done. }
  destruct (buildCohorts _ _ _ _) as [cohorts dists]. exact H1.
Qed.

(** The scanner returned for the cluster, without error. *)
Definition ran (clusters : list string) (results : Results) (c scannerName : string) : Prop :=
  c ∈ clusters /\ exists res, run_of results c scannerName = Some res /\ res_State res <> StateErrored.

Definition ran_partly (results : Results) (c scannerName : string) : Prop :=
  exists res, run_of results c scannerName = Some res /\ res_State res = StateDegraded.

(** The findings that rest on one run and need no mark when it is partial. *)
Definition unmarked (clusters : list string) (results : Results) (f : Finding) : Prop :=
  excused (build_sections clusters results) f \/ fi_Rule f = "vulnerabilities/critical-present"%string \/
  fi_Rule f = "metrics/group-deviation"%string.

(** A finding rests on the run of the scanner it names on its cluster, which says so when
    it returned partial data; or it is one of three classes that rest on other runs. *)
Inductive backed (clusters : list string) (results : Results) (opt : BuildOptions) (f : Finding) : Prop :=
| BackedRun : ran clusters results (fi_Cluster f) (fi_Scanner f) ->
    (ran_partly results (fi_Cluster f) (fi_Scanner f) ->
     ends_with (fi_Description f) partialScanNote \/ unmarked clusters results f) -> backed clusters results opt f
| BackedStrain s : fi_Rule f = "metrics/capacity-critical"%string \/ fi_Rule f = "metrics/capacity-degraded"%string ->
    s ∈ ["metrics"; "node-health"; "events"]%string -> ran clusters results (fi_Cluster f) s -> backed clusters results opt f
| BackedFleet : fi_Cluster f = "fleet"%string ->
    fi_Rule f = "version/skew"%string /\
      (forall a, a ∈ fi_Affected f -> exists c v, a = (c ++ "=" ++ v)%string /\ ran clusters results c "version") \/
    fi_Rule f = "namespaces/non-system-count-varies"%string /\
      (forall c, c ∈ fi_Affected f -> ran clusters results c "namespaces") \/
    fi_Rule f = "rbac/config-differs"%string /\
      (exists sec, rp_Sections (build_sections clusters results) !! "rbac"%string = Some sec /\ sr_Uniform sec = false) ->
    backed clusters results opt f
| BackedTag tag : fi_Rule f = "cohort/wrong-cohort"%string -> bo_ClusterTags opt !! fi_Cluster f = Some tag ->
    tag <> ""%string -> minTagPopulation <= tagged_as (bo_ClusterTags opt) tag -> backed clusters results opt f.

Section Runs.
Context (clusters : list string) (results : Results) (r : Report).
Hypothesis (Hsame : same_runs r (build_sections clusters results)).

Lemma view_ran c s : seen (snd (clusterView r s c)) = true -> ran clusters results c s.
Proof using Hsame.
  rewrite (same_runs_view _ _ _ _ Hsame). unfold clusterView. rewrite runState_built. case_bool_decide as Hc; [|done].
  destruct (run_of results c s) as [res|] eqn:Er; [|done]. cbn [fmap option_fmap option_map].
  destruct (String.eqb_spec (res_State res) StateErrored); [done|]. intros _. split; [done|]. by exists res.
Qed.

Lemma view_partial c s : seen (snd (clusterView r s c)) = true -> ran_partly results c s -> snd (clusterView r s c) = partial.
Proof using Hsame.
  rewrite (same_runs_view _ _ _ _ Hsame). intros Hv (res & Hr & Hd). revert Hv. unfold clusterView. rewrite runState_built.
  case_bool_decide; [|by intros Hx; vm_compute in Hx]. rewrite Hr. cbn [fmap option_fmap option_map]. rewrite Hd.
  change (String.eqb StateDegraded StateErrored) with false. change (String.eqb StateDegraded StateDegraded) with true. cbv iota.
  destruct (rp_Sections (build_sections clusters results) !! s) as [sec|]; [|by intros Hx; vm_compute in Hx].
  destruct (sr_PerCluster sec !! c) as [[]|]; (reflexivity || by intros Hx; vm_compute in Hx).
Qed.

Lemma payload_in_build c s : has_payload r s c -> ran clusters results c s.
Proof using Hsame.
  destruct Hsame as (_ & Hs & _). unfold has_payload. rewrite Hs. intros H. by apply payload_ran.
Qed.

Lemma partly_degraded c s : c ∈ clusters -> ran_partly results c s -> runState r s c = Some StateDegraded.
Proof using Hsame.
  intros Hc (res & Hr & Hd). destruct Hsame as (_ & Hs & Hdg & Hrn). unfold runState, runs_of, indexRuns. rewrite Hs, Hdg, Hrn.
  change (runState (build_sections clusters results) s c = Some StateDegraded).
  rewrite runState_built, bool_decide_eq_true_2, Hr by done. cbn. by rewrite Hd.
Qed.

Lemma honest_backed opt f : honest r f -> backed clusters results opt f.
Proof using Hsame.
  intros [[_ Hseen] Hm]. apply BackedRun; [by apply view_ran|]. intros Hp. pose proof (view_partial _ _ Hseen Hp) as Hv.
  destruct (Hm Hv) as [He|He]; [by left|right; left]. revert He.
  unfold excused, observeInt, observe. by rewrite !(same_runs_view _ _ _ _ Hsame).
Qed.

Lemma node_field_seen c field : (0 < node_field r c field)%Z -> seen (snd (clusterView r "node-health" c)) = true.
Proof.
  unfold node_field, observeInt, observe. destruct (clusterView r "node-health" c) as [m []]; cbn; [by vm_compute|done..].
Qed.

Lemma event_seen c reason : hasEventReason r c reason = true -> seen (snd (clusterView r "events" c)) = true.
Proof. unfold hasEventReason. destruct (clusterView r "events" c) as [m obs]. cbn [snd]. by destruct (seen obs). Qed.

Lemma measured_seen c : measured r c = true -> seen (snd (clusterView r "metrics" c)) = true.
Proof.
  unfold measured, cpu_read. intros [H _]%andb_true_iff. by rewrite <- (observe_partial _ _ _ _ H).
Qed.

(** Strain was read somewhere. *)
Lemma strain_ran groups a : judged r groups a -> strain r a = true ->
  exists s, s ∈ ["metrics"; "node-health"; "events"]%string /\ ran clusters results (cy_Cluster a) s.
Proof using Hsame.
  intros J. destruct (jd_signals _ _ _ J) as (N1 & N2 & N3 & N4 & _). unfold strain, pressed, failed, over.
  rewrite N1, N2, N3, N4, !orb_true_iff. intros [[[H|H]|[H|H]]|H].
  - exists "node-health"%string. split; [set_solver|]. apply Z.ltb_lt in H. by eapply view_ran, node_field_seen.
  - exists "node-health"%string. split; [set_solver|]. apply Z.ltb_lt in H. by eapply view_ran, node_field_seen.
  - exists "events"%string. split; [set_solver|]. by eapply view_ran, event_seen.
  - exists "events"%string. split; [set_solver|]. by eapply view_ran, event_seen.
  - exists "metrics"%string. split; [set_solver|]. apply andb_true_iff in H as [H _]. by apply view_ran, measured_seen.
Qed.

Lemma verdict_backed groups opt a f : judged r groups a -> fi_Cluster f = cy_Cluster a -> fi_Scanner f = "metrics"%string ->
  states_verdict a f -> (ends_with (cy_Recommendation a) partialScanNote -> ends_with (fi_Description f) partialScanNote) ->
  backed clusters results opt f.
Proof using Hsame.
  intros J Hc Hs Hv Hd. destruct Hv as [(Hr & _ & Ha)|[(Hr & _ & Ha)|(Hr & _ & Ha)]].
  - apply (jd_critical _ _ _ J) in Ha. destruct (strain_ran groups a J) as (s & Hin & Hran).
    { revert Ha. unfold critical, strain. destruct (pressed a), (failed a), (over r (cy_Cluster a) 85); done. }
    apply (BackedStrain _ _ _ _ s); [by left|done|by rewrite Hc].
  - apply (jd_strained _ _ _ J) in Ha as [_ Ha]. destruct (strain_ran groups a J Ha) as (s & Hin & Hran).
    apply (BackedStrain _ _ _ _ s); [by right|done|by rewrite Hc].
  - apply (jd_busy _ _ _ J) in Ha as [_ Ha]. unfold over in Ha. apply andb_true_iff in Ha as [Ha _].
    pose proof (measured_seen _ Ha) as Hm. apply BackedRun; rewrite Hc, Hs; [by apply view_ran|].
    intros Hp. left. apply Hd, (jd_note _ _ _ J Ha). by apply view_partial.
Qed.

Lemma deviation_backed groups opt a f : judged r groups a -> fi_Cluster f = cy_Cluster a -> fi_Scanner f = "metrics"%string ->
  fi_Rule f = "metrics/group-deviation"%string -> cy_GroupDeviation a <> ""%string -> backed clusters results opt f.
Proof using Hsame.
  intros J Hc Hs Hr Hne. apply BackedRun; rewrite Hc, Hs; [|intros _; right; by right; right].
  apply view_ran, measured_seen. pose proof (jd_peers _ _ _ J) as Hp. destruct (group_of groups _) as [[g peers]|]; [|done].
  destruct Hp as [Hp _]. destruct (measured r (cy_Cluster a)); [done|]. exfalso. apply Hne, Hp. by left.
Qed.
End Runs.

Lemma rescored r : exists r1, Rescore (Some r) = Some r1 /\ rp_Findings r1 = rp_Findings r /\
  rp_ClusterHealths r1 = rp_ClusterHealths r /\ rp_Incidents r1 = rp_Incidents r /\ rp_Sections r1 = rp_Sections r /\
  rp_Clusters r1 = rp_Clusters r /\ rp_Degraded r1 = rp_Degraded r.
Proof.
  unfold Rescore. destruct (scoreWithAttribution (Some r)) as [fs a]. eexists. split; [reflexivity|]. by split_and!.
Qed.

Lemma built_spec clusters results opt :
  let r := bt_Report (Build clusters results opt) in
  rp_Findings r = sortFindings (generateFindings (order _) (order _) (capacity_of clusters results opt) (analyzed clusters results opt) ++
    stampFingerprints (misCohortFindings corder order (analyzed clusters results opt) (bo_ClusterTags opt))) /\
  rp_ClusterHealths r = generateClusterHealth (with_findings (analyzed clusters results opt) (rp_Findings r)) (rp_Findings r) /\
  rp_Incidents r = fuseIncidents (rp_Findings r) /\
  rp_Sections r = rp_Sections (build_sections clusters results) /\
  rp_Clusters r = clusters /\
  rp_Degraded r = rp_Degraded (build_sections clusters results) /\
  Rescore (Some r) = Some r.
Proof.
  cbv zeta. unfold Build. cbn [bt_Report]. set (fs := sortFindings _).
  destruct (rescored (with_verdicts (with_findings (analyzed clusters results opt) fs) (fuseIncidents fs)
    (generateClusterHealth (with_findings (analyzed clusters results opt) fs) fs))) as (r1 & Hr & Hf & Hh & Hi & Hs & Hc & Hd).
  pose proof (proj1 (Fleet.rescore_consistent (Some (with_verdicts (with_findings (analyzed clusters results opt) fs) (fuseIncidents fs)
    (generateClusterHealth (with_findings (analyzed clusters results opt) fs) fs))))) as Hre.
  rewrite Hr in Hre |- *. change (default _ (Some r1)) with r1. destruct (analyzed_runs clusters results opt) as (Hc' & Hs' & Hd' & _).
  rewrite Hf, Hh, Hi. split; [reflexivity|]. split; [reflexivity|]. split; [reflexivity|].
  split; [exact (eq_trans Hs Hs')|]. split; [exact (eq_trans Hc Hc')|]. split; [exact (eq_trans Hd Hd')|exact Hre].
Qed.

(** Every outlier of the analyzed report, of the fleet or a cohort, rests on a payload. *)
Lemma analyzed_outlier clusters results opt o :
  o ∈ rp_Outliers (analyzed clusters results opt) \/
  (exists c, c ∈ rp_Cohorts (analyzed clusters results opt) /\ o ∈ cs_Outliers c) ->
  has_payload (build_sections clusters results) (or_Scanner o) (or_Cluster o).
Proof.
  unfold analyzed. set (t := default_threshold _). set (r0 := build_sections clusters results). set (r1 := detect_fleet r0 t).
  assert (Hs : rp_Sections r1 = rp_Sections r0) by (unfold r1, detect_fleet; by repeat case_match).
  assert (Hp : forall s c, has_payload r1 s c -> has_payload r0 s c) by (unfold has_payload; by rewrite Hs).
  destruct (buildCohorts corder r1 (bo_ClusterTags opt) t) as [cohorts dists] eqn:Eb.
  intros [Ho|(c & Hc & Ho)].
  - change (o ∈ rp_Outliers (applyCohortNorms (with_cohorts r1 cohorts) dists)) in Ho.
    apply normed_outlier in Ho as (o' & Ho' & c & ->). change (o' ∈ rp_Outliers r1) in Ho'. cbn [or_Scanner or_Cluster explain].
    apply detect_fleet_known in Ho' as [Ho'|[_ Ho']]; [by apply not_elem_of_nil in Ho'|done].
  - change (c ∈ cohorts) in Hc. apply Hp. apply (cohort_outlier_known corder r1 (bo_ClusterTags opt) t c); [by rewrite Eb|done].
Qed.

Lemma rests_backed clusters results opt f : (forall l, cyorder l ≡ₚ l) ->
  rests_on (capacity_of clusters results opt) (analyzed clusters results opt) f -> backed clusters results opt f.
Proof.
  intros Hcy. pose proof (analyzed_runs clusters results opt) as Hsame. pose proof Hsame as (Hcl & Hsec & _).
  set (r := analyzed clusters results opt) in *.
  assert (Hj : forall a, a ∈ capacity_of clusters results opt ->
    let r1 := detect_fleet (build_sections clusters results) (default_threshold (bo_OutlierThreshold opt)) in
    same_runs r1 (build_sections clusters results) /\ judged r1 (bo_Groups opt) a).
  { intros a Ha r1. split; [unfold r1, detect_fleet; by repeat case_match|]. by eapply capacity_judged. }
  intros [o Ho Hc Hs _ _ Hd|Hr Hc _ _ Ha|c1 c2 Hr Hc _ Haf Ha|sec Hr Hc _ Hs Hu|a Ha Hc Hs Hv Hd|a Ha Hc Hs Hr _ Hne|sec data Hr Hs Hc Hsc Hda _ _].
  - assert (Hran : ran clusters results (or_Cluster o) (or_Scanner o)).
    { apply payload_ran, (analyzed_outlier clusters results opt o). destruct Ho as [[? _]|?]; [by left|by right]. }
    apply BackedRun; rewrite Hc, Hs; [done|]. intros Hp. left. apply Hd.
    exact (partly_degraded clusters results r Hsame _ _ (proj1 Hran) Hp).
  - apply BackedFleet; [done|]. left. split; [done|]. intros x Hx. destruct (Ha x Hx) as (c & v & _ & Hv & ->).
    exists c, v. split; [done|]. apply (view_ran clusters results r Hsame). unfold version_of, observeString in Hv.
    destruct (clusterView r "version" c) as [m []]; [discriminate Hv|reflexivity..].
  - apply BackedFleet; [done|]. right. left. split; [done|]. rewrite Haf. intros c Hin. apply (view_ran clusters results r Hsame). by apply Ha.
  - apply BackedFleet; [done|]. right. right. split; [done|]. exists sec. by rewrite <- Hsec.
  - destruct (Hj a Ha) as [Hs1 J]. by eapply verdict_backed.
  - destruct (Hj a Ha) as [Hs1 J]. by eapply deviation_backed.
  - apply BackedRun; [|intros _; right; right; by left]. rewrite Hs. apply payload_ran. exists sec.
    rewrite <- Hsec. split; [done|]. by rewrite Hda.
Qed.

Lemma mis_cohort_backed clusters results opt f : (forall A l, order A l ≡ₚ l) ->
  f ∈ stampFingerprints (misCohortFindings corder order (analyzed clusters results opt) (bo_ClusterTags opt)) ->
  backed clusters results opt f.
Proof.
  intros Hord (g & Hg & Hst)%stamp_in. destruct Hst as (_ & _ & _ & Hc & _ & Hr & _).
  apply list_elem_of_fmap in Hg as (m & -> & Hm). cbn [fi_Cluster fi_Rule misCohort_finding finding_of] in Hc, Hr.
  destruct (wrong_cohort_exact corder order Hord (analyzed clusters results opt) (bo_ClusterTags opt)) as (_ & _ & H).
  destruct (proj1 (H (mc_Cluster m) (mc_TaggedAs m)) (ex_intro _ m (conj Hm (conj eq_refl eq_refl)))) as (_ & Ht & Hne & Hpop & _).
  apply (BackedTag _ _ _ _ (mc_TaggedAs m)); [done|by rewrite Hc|done|done].
Qed.

(** C1: a report is the scan it was built from. Every published finding rests on runs of the
    scan. It names a cluster that was scanned and a scanner that returned there without
    error, and when that run was degraded its description ends with the partial-scan note,
    the exceptions being the bad-deploy, vulnerability and group-deviation rules, which never
    carry it, and the unenforced-namespaces and latest-tag rules where the payload lacks the
    total they name. Or it is a critical or strained capacity verdict, which rests on a metrics,
    node or event run of its cluster that returned; a comparison across the fleet of versions,
    namespace counts or RBAC, each cluster it names having such a run; or a wrong-cohort
    finding, which names a cluster tagged into a cohort of three or more. The findings are in
    order of severity, every cluster has one health row in the order given, the incidents are
    those of the published findings, and the stored score is the one the report itself gives:
    rescoring it changes nothing. *)
Theorem report_backed clusters results opt : (forall A (l : list A), order A l ≡ₚ l) -> (forall l, cyorder l ≡ₚ l) ->
  let r := bt_Report (Build clusters results opt) in
  (forall f, f ∈ rp_Findings r -> backed clusters results opt f) /\
  StronglySorted (fun a b => SeverityRank (fi_Severity b) <= SeverityRank (fi_Severity a)) (rp_Findings r) /\
  map ch_Name (rp_ClusterHealths r) = clusters /\
  rp_Incidents r = fuseIncidents (rp_Findings r) /\
  rp_Sections r = rp_Sections (build_sections clusters results) /\
  rp_Degraded r = rp_Degraded (build_sections clusters results) /\
  Rescore (Some r) = Some r.
Proof.
  intros Hord Hcy r. destruct (built_spec clusters results opt) as (Hf & Hh & Hi & Hs & Hc & Hd & Hr). fold r in Hf, Hh, Hi, Hs, Hc, Hd, Hr.
  clearbody r. split; [|split; [|split; [|split; [exact Hi|split; [exact Hs|split; [exact Hd|exact Hr]]]]]].
  - intros f Hin. rewrite Hf in Hin. apply isort_elem_of, elem_of_app in Hin as [Hin|Hin]; [|by apply mis_cohort_backed].
    destruct (generated_from (order _) (order _) (capacity_of clusters results opt) _ f (fun l => Hord _ l) Hin) as [_ [H|H]].
    + exact (honest_backed _ _ _ (analyzed_runs clusters results opt) opt f H).
    + by apply rests_backed.
  - rewrite Hf. eapply StronglySorted_mono; [|apply isort_sorted; exact _]. intros a b.
    unfold cmp_le, finding_rank_cmp, cmp_rev, cmp_on. by rewrite Nat.compare_le_iff.
  - rewrite Hh. unfold generateClusterHealth. rewrite map_map. cbn [ch_Name cluster_health rp_Clusters with_findings].
    rewrite map_id. exact (proj1 (analyzed_runs clusters results opt)).
Qed.

End Build.

(** A cluster whose vulnerability run was degraded. *)
Definition partly_scanned : Results := {["a"%string := {["vulnerabilities"%string := {|
  res_Scanner := "vulnerabilities"; res_State := StateDegraded; res_Reason := "a namespace was refused";
  res_Data := JObj [("available", JBool true); ("critical", JNum (f_of_Z 2))]%string |}]}]}.

Definition default_options : BuildOptions := {| bo_OutlierThreshold := f_zero; bo_Groups := []; bo_ClusterTags := ∅ |}.

Definition partly_built : Report :=
  bt_Report (Build map_to_list (fun _ l => l) (fun l => l) ["a"; "b"]%string partly_scanned default_options).

Lemma report_backed_witness : (forall A (l : list A), l ≡ₚ l) /\
  map ch_Name (rp_ClusterHealths partly_built) = ["a"; "b"]%string.
Proof.
  split; [done|]. exact (proj1 (proj2 (proj2 (report_backed map_to_list (fun _ l => l) (fun l => l) ["a"; "b"]%string
    partly_scanned default_options (fun A l => Permutation_refl l) (fun l => Permutation_refl l))))).
Defined.

(** A finding that rests on a degraded run, without the note: the vulnerability rule never
    adds it. *)
Lemma degraded_unmarked :
  runState partly_built "vulnerabilities" "a" = Some StateDegraded /\
  map (fun f => (fi_Cluster f, fi_Rule f, snd (cut_suffix (fi_Description f) partialScanNote))) (rp_Findings partly_built) =
    [("a", "vulnerabilities/critical-present", false)]%string.
Proof. vm_compute. done. Qed.
