(* ===== verification/WhatIf.v ===== *)
(** * internal/report/whatif.go: one hypothetical fix

    The report is built, one payload is changed in a copy of the results, the report is
    built again, and the two are compared on the field. *)

From Stdlib Require Import ZArith Lia String Ascii Sorting.Sorted.
From stdpp Require Import base gmap strings list.
From S2P Require Import Prelude Maps Float64 Text Strs Data Fields Observe Format Population Detect Capacity Findings Build Cohort Pipeline.

Local Open Scope nat_scope.

Definition FixMedian : string := "median".
Definition FixMode : string := "mode".
Definition FixConsensus : string := "consensus".
Definition FixRemove : string := "remove".

Record Fix := { fx_Cluster : string; fx_Scanner : string; fx_Field : string; fx_Kind : string; fx_Scope : string }.

Record Outcome := {
  oc_Fix : Fix;
  oc_ScoreBefore : Z;
  oc_ScoreAfter : Z;
  oc_Before : Distribution;
  oc_After : option Distribution;
  oc_MedianShift : float64;
  oc_MADShift : float64;
  oc_NewOutliers : list string;
  oc_ClearedOutliers : list string
}.

Definition ErrWhatIf : string := "what-if".
Definition refuse {A} (why : string) : string + A := inl (ErrWhatIf ++ ": " ++ why)%string.

Definition fix_scope (fix_ : Fix) (scope : string) : Fix :=
  {| fx_Cluster := fx_Cluster fix_; fx_Scanner := fx_Scanner fix_; fx_Field := fx_Field fix_; fx_Kind := fx_Kind fix_;
     fx_Scope := scope |}.

Definition fix_kind (fix_ : Fix) (kind : string) : Fix :=
  {| fx_Cluster := fx_Cluster fix_; fx_Scanner := fx_Scanner fix_; fx_Field := fx_Field fix_; fx_Kind := kind;
     fx_Scope := fx_Scope fix_ |}.

Definition distributionFor (r : Report) (scope scannerName field : string) : option Distribution :=
  List.find (fun d => String.eqb (di_Scope d) scope && String.eqb (di_Scanner d) scannerName && String.eqb (di_Field d) field)
    (rp_Distributions r).

Definition value_of (cluster : string) (d : Distribution) : option ClusterValue :=
  List.find (fun v => String.eqb (cv_Cluster v) cluster) (di_Values d).

(** The first tagged cohort with the cluster in it and in the field's population. *)
Definition has_norm_for (r : Report) (fix_ : Fix) (c : CohortSummary) : bool :=
  String.eqb (cs_Source c) SourceTagged && existsb (String.eqb (fx_Cluster fix_)) (cs_Clusters c) &&
  match distributionFor r (cs_Name c) (fx_Scanner fix_) (fx_Field fix_) with
  | Some d => match value_of (fx_Cluster fix_) d with Some _ => true | None => false end
  | None => false
  end.

Definition defaultFixScope (r : Report) (fix_ : Fix) : string :=
  match List.find (has_norm_for r fix_) (rp_Cohorts r) with Some c => cs_Name c | None => NormScopeFleet end.

(** The kind that fits a field. *)
Definition default_kind (kind : string) : string :=
  if String.eqb kind NormKindNumeric then FixMedian
  else if String.eqb kind NormKindString then FixMode
  else if String.eqb kind NormKindSet then FixConsensus
  else "".

(** ** Payloads

    A payload as a fresh map, and a map as a payload: encoding writes the members in the
    order of their keys. *)
Definition dataMap (data : json) : option (gmap string json) :=
  match data with
  | JObj kv => Some (list_to_map kv)
  | JNull => Some ∅
  | _ => None
  end.

Definition key_cmp : string * json -> string * json -> comparison := cmp_on fst String.compare.
Definition payload (m : gmap string json) : json := JObj (isort (less_of key_cmp) (map_to_list m)).

Definition with_data (r : Result) (data : json) : Result :=
  {| res_Scanner := res_Scanner r; res_State := res_State r; res_Reason := res_Reason r; res_Data := data |}.

(** [strings.SplitN(member, "/", n)] for a positive [n], zipped with the keys. *)
Fixpoint cut_byte (c : ascii) (l : bytes) : option (bytes * bytes) :=
  match l with
  | [] => None
  | x :: l' => if Ascii.eqb x c then Some ([], l') else (fun p => (x :: fst p, snd p)) <$> cut_byte c l'
  end.

Fixpoint member_parts (keys : list string) (member : bytes) : list (string * json) :=
  match keys with
  | [] => []
  | [k] => [(k, JStr (of_bytes member))]
  | k :: keys' =>
      match cut_byte "/" member with
      | None => [(k, JStr (of_bytes member))]
      | Some (part, rest) => (k, JStr (of_bytes part)) :: member_parts keys' rest
      end
  end.

Definition memberObject (keys : list string) (member : string) : gmap string json :=
  list_to_map (member_parts keys (to_bytes member)).

(** [arr, _ := data[field].([]any)], the members appended, and the slice stored: a nil slice
    encodes as null. *)
Definition append_to (data : gmap string json) (field : string) (more : list json) : gmap string json :=
  <[field := match data !! field with
             | Some (JArr l) => JArr (l ++ more)
             | _ => match more with [] => JNull | _ => JArr more end
             end]> data.

Definition addMembers (data : gmap string json) (fix_ : Fix) (missing : list string) : string + gmap string json :=
  match setProjections !! fx_Scanner fix_ with
  | Some p =>
      if String.eqb (sp_To p) (fx_Field fix_) then
        match sp_Build p with
        | None => refuse (WhatIfRefusal (fx_Scanner fix_) (fx_Field fix_))
        | Some keys => inr (append_to data (sp_From p) (map (fun m => payload (memberObject keys m)) missing))
        end
      else inr (append_to data (fx_Field fix_) (map JStr missing))
  | None => inr (append_to data (fx_Field fix_) (map JStr missing))
  end.

(** The value another cluster holds that prints as the mode. *)
Definition holds_mode (results : Results) (fix_ : Fix) (mode : string) (c : string) : option json :=
  if String.eqb c (fx_Cluster fix_) then None
  else
    res ← run_of results c (fx_Scanner fix_);
    m ← dataMap (res_Data res);
    v ← m !! fx_Field fix_;
    if String.eqb (sprint v) mode then Some v else None.

Fixpoint first_some {A B} (g : A -> option B) (l : list A) : option B :=
  match l with [] => None | x :: l' => match g x with Some b => Some b | None => first_some g l' end end.

Definition modeValue (results : Results) (fix_ : Fix) (mode : string) : string + json :=
  match first_some (holds_mode results fix_ mode) (sort_strings (map fst (map_to_list results))) with
  | Some v => inr v
  | None => refuse ("no cluster holds the mode " ++ quote mode ++ " of " ++ fx_Scanner fix_ ++ "/" ++ fx_Field fix_)
  end.

(** The map of the payload after the fix. *)
Definition fixed_data (results : Results) (fix_ : Fix) (dist : Distribution) (cv : ClusterValue)
  (data : gmap string json) : string + gmap string json :=
  if String.eqb (fx_Kind fix_) FixMedian && String.eqb (di_Kind dist) NormKindNumeric then
    inr (<[fx_Field fix_ := JNum (di_Median dist)]> data)
  else if String.eqb (fx_Kind fix_) FixMode && String.eqb (di_Kind dist) NormKindString then
    match modeValue results fix_ (di_Mode dist) with
    | inl e => inl e
    | inr v => inr (<[fx_Field fix_ := v]> data)
    end
  else if String.eqb (fx_Kind fix_) FixConsensus && String.eqb (di_Kind dist) NormKindSet then
    addMembers data fix_ (cv_Missing cv)
  else refuse ("fix " ++ quote (fx_Kind fix_) ++ " does not apply to " ++ di_Kind dist ++ " field "
               ++ fx_Scanner fix_ ++ "/" ++ fx_Field fix_).

Definition set_result (results : Results) (cluster scanner : string) (res : Result) : Results :=
  <[cluster := <[scanner := res]> (default ∅ (results !! cluster))]> results.

Section WhatIf.
(** The text of encoding/json's error on a payload that is no object. *)
Context (decode_error : json -> string).
(** The orders [Build] depends on. *)
Context (corder : gmap nat nat -> list (nat * nat)) (order : forall A, list A -> list A)
  (cyorder : list CapacityAnalysis -> list CapacityAnalysis).

Definition applyFix (clusters : list string) (results : Results) (fix_ : Fix) (dist : Distribution) (cv : ClusterValue) :
  string + (list string * Results) :=
  if String.eqb (fx_Kind fix_) FixRemove then
    inr (List.filter (fun c => negb (String.eqb c (fx_Cluster fix_))) clusters, delete (fx_Cluster fix_) results)
  else
    match run_of results (fx_Cluster fix_) (fx_Scanner fix_) with
    | None => refuse (fx_Cluster fix_ ++ " has no " ++ fx_Scanner fix_ ++ " result")
    | Some res =>
        match dataMap (res_Data res) with
        | None => refuse (fx_Cluster fix_ ++ " " ++ fx_Scanner fix_ ++ " data: " ++ decode_error (res_Data res))
        | Some data =>
            match fixed_data results fix_ dist cv data with
            | inl e => inl e
            | inr data' => inr (clusters, set_result results (fx_Cluster fix_) (fx_Scanner fix_) (with_data res (payload data')))
            end
        end
    end.

(** The clusters a distribution flags: the last value of a cluster counts. *)
Definition flags (d : Distribution) : gmap string bool := last_of (map (fun v => (cv_Cluster v, cv_Outlier v)) (di_Values d)).
Definition flagged_in (flags : gmap string bool) (c : string) : bool := default false (flags !! c).

Definition newly_flagged (was : gmap string bool) (d : Distribution) : list string :=
  map cv_Cluster (List.filter (fun v => cv_Outlier v && negb (flagged_in was (cv_Cluster v))) (di_Values d)).

Definition outcome_of (fix_ : Fix) (before after : Report) (dist : Distribution) : Outcome :=
  let found := distributionFor after (fx_Scope fix_) (fx_Scanner fix_) (fx_Field fix_) in
  let flagsAfter := match found with Some a => flags a | None => ∅ end in
  {| oc_Fix := fix_;
     oc_ScoreBefore := fs_Score (rp_FleetScore before);
     oc_ScoreAfter := fs_Score (rp_FleetScore after);
     oc_Before := dist;
     oc_After := found;
     oc_MedianShift := match found with Some a => f_sub (di_Median a) (di_Median dist) | None => f_zero end;
     oc_MADShift := match found with Some a => f_sub (di_MAD a) (di_MAD dist) | None => f_zero end;
     oc_NewOutliers := sort_strings (match found with Some a => newly_flagged (flags dist) a | None => [] end);
     oc_ClearedOutliers := sort_strings (newly_flagged flagsAfter dist) |}.

Definition resolve_scope (before : Report) (fix_ : Fix) : Fix :=
  if String.eqb (fx_Scope fix_) "" then fix_scope fix_ (defaultFixScope before fix_) else fix_.

Definition resolve_kind (dist : Distribution) (fix_ : Fix) : Fix :=
  if String.eqb (fx_Kind fix_) "" then fix_kind fix_ (default_kind (di_Kind dist)) else fix_.

Definition WhatIf (clusters : list string) (results : Results) (opts : BuildOptions) (fix_ : Fix) : string + Outcome :=
  let before := bt_Report (Pipeline.Build corder order cyorder clusters results opts) in
  let fix_ := resolve_scope before fix_ in
  match distributionFor before (fx_Scope fix_) (fx_Scanner fix_) (fx_Field fix_) with
  | None => refuse ("no " ++ fx_Scope fix_ ++ " distribution for " ++ fx_Scanner fix_ ++ "/" ++ fx_Field fix_)
  | Some dist =>
      match value_of (fx_Cluster fix_) dist with
      | None => refuse (fx_Cluster fix_ ++ " is not in the " ++ fx_Scope fix_ ++ " population for "
                        ++ fx_Scanner fix_ ++ "/" ++ fx_Field fix_)
      | Some cv =>
          let fix_ := resolve_kind dist fix_ in
          match applyFix clusters results fix_ dist cv with
          | inl e => inl e
          | inr (patchedClusters, patched) =>
              inr (outcome_of fix_ before (bt_Report (Pipeline.Build corder order cyorder patchedClusters patched opts)) dist)
          end
      end
  end.
End WhatIf.

(** ** Payloads read back *)

Lemma key_cmp_NoDup (m : gmap string json) : NoDup (isort (less_of key_cmp) (map_to_list m)).*1.
Proof.
  assert ((isort (less_of key_cmp) (map_to_list m)).*1 ≡ₚ (map_to_list m).*1) as -> by (by rewrite isort_perm).
  apply NoDup_fst_map_to_list.
Qed.

Lemma payload_reads_back m : dataMap (payload m) = Some m /\ genericMap (payload m) = m.
Proof.
  assert ((list_to_map (isort (less_of key_cmp) (map_to_list m)) : gmap string json) = m) as H; [|unfold payload; simpl; by rewrite H].
  rewrite (list_to_map_proper _ (map_to_list m)); [apply list_to_map_to_list|apply key_cmp_NoDup|apply isort_perm].
Qed.

(** ** Members split into keys and joined again *)

Definition part_text (kv : string * json) : string := match snd kv with JStr s => s | _ => "" end.

(** A member splits into as many nonempty parts as there are keys. *)
Definition member_ok (keys : list string) (member : string) : bool :=
  let parts := member_parts keys (to_bytes member) in
  (length parts =? length keys) && forallb (fun kv => negb (String.eqb (part_text kv) "")) parts.

Lemma cut_byte_spec c l a b : cut_byte c l = Some (a, b) -> l = a ++ c :: b.
Proof.
  revert a. induction l as [|x l IH]; intros a; [done|]. simpl. destruct (Ascii.eqb_spec x c) as [->|_].
  - by intros [= <- <-].
  - destruct (cut_byte c l) as [[a' b']|]; [|done]. intros [= <- <-]. simpl. f_equal. by apply IH.
Qed.

Lemma member_parts_keys keys l : (member_parts keys l).*1 `prefix_of` keys.
Proof.
  revert l. induction keys as [|k [|k' keys] IH]; intros l; [done|by exists []|].
  cbn [member_parts]. destruct (cut_byte "/" l) as [[a b]|]; simpl.
  - apply prefix_cons, IH.
  - by exists (k' :: keys).
Qed.

Lemma member_parts_cons k k' keys l : member_parts (k :: k' :: keys) l =
  match cut_byte "/" l with
  | None => [(k, JStr (of_bytes l))]
  | Some (part, rest) => (k, JStr (of_bytes part)) :: member_parts (k' :: keys) rest
  end.
Proof. done. Qed.

Lemma member_parts_nonempty k keys l : member_parts (k :: keys) l <> [].
Proof. destruct keys as [|k' keys]; [done|]. rewrite member_parts_cons. by destruct (cut_byte _ _) as [[]|]. Qed.

Lemma join_cons sep x l : l <> [] -> join sep (x :: l) = (x ++ sep ++ join sep l)%string.
Proof. by destruct l. Qed.

Lemma of_bytes_sep a c b : of_bytes (a ++ c :: b) = (of_bytes a ++ String c (of_bytes b))%string.
Proof. unfold of_bytes. induction a as [|x a IH]; [done|]. simpl. by rewrite IH. Qed.

Lemma member_parts_str keys l k v : (k, v) ∈ member_parts keys l -> exists s, v = JStr s.
Proof.
  revert l. induction keys as [|k0 [|k' keys] IH]; intros l; [by intros ?%elem_of_nil| |].
  - intros [= -> ->]%list_elem_of_singleton. by eexists.
  - rewrite member_parts_cons. destruct (cut_byte _ _) as [[a b]|].
    + intros [[= -> ->]|H]%elem_of_cons; [by eexists|by apply (IH b)].
    + intros [= -> ->]%list_elem_of_singleton. by eexists.
Qed.

(** Joining the parts gives the member back. *)
Lemma parts_join k keys l : join "/" (map part_text (member_parts (k :: keys) l)) = of_bytes l.
Proof.
  revert k l. induction keys as [|k' keys IH]; intros k l; [done|]. rewrite member_parts_cons.
  destruct (cut_byte "/" l) as [[a b]|] eqn:E; [|done]. apply cut_byte_spec in E as ->. cbn [map].
  rewrite join_cons, IH, of_bytes_sep; [done|]. intros H. apply map_eq_nil in H. by apply (member_parts_nonempty k' keys b).
Qed.

(** What [memberOf] reads from an object that has each part under its key. *)
Lemma memberOf_parts (item : gmap string json) parts :
  Forall (fun kv => exists s, snd kv = JStr s /\ s <> "" /\ item !! fst kv = Some (JStr s)) parts -> parts <> [] ->
  memberOf (map fst parts) item = join "/" (map part_text parts).
Proof.
  intros Hp Hne. unfold memberOf.
  assert ((fix go (ks : list string) : option (list string) :=
    match ks with
    | [] => Some []
    | k :: ks' =>
        match item !! k with
        | Some (JStr s) => if String.eqb s "" then None else (fun l => s :: l) <$> go ks'
        | _ => None
        end
    end) (map fst parts) = Some (map part_text parts)) as ->; [|done].
  clear Hne. induction Hp as [|[k v] parts (s & Hs & Hn & Hl) _ IH]; [done|]. cbn [map fst snd] in *. subst v.
  rewrite Hl. destruct (String.eqb_spec s ""); [done|]. by rewrite IH.
Qed.

(** An object built from a member projects back to it. *)
Lemma built_member keys member : NoDup keys -> keys <> [] -> member_ok keys member = true ->
  memberOf keys (memberObject keys member) = member.
Proof.
  intros Hnd Hne [Hlen%Nat.eqb_eq Hall]%andb_prop. set (parts := member_parts keys (to_bytes member)) in *.
  destruct keys as [|k keys]; [done|].
  assert (map fst parts = k :: keys) as Hk.
  { destruct (member_parts_keys (k :: keys) (to_bytes member)) as [rest Hr]. fold parts in Hr.
    change (map fst parts) with (parts.*1). assert (rest = []) as ->; [|by rewrite app_nil_r in Hr].
    apply (f_equal length) in Hr. rewrite length_app, length_fmap, Hlen in Hr. destruct rest; [done|simpl in Hr; lia]. }
  transitivity (join "/" (map part_text parts)).
  - rewrite <- Hk at 1. apply memberOf_parts; [|by apply member_parts_nonempty].
    apply Forall_forall. intros [k0 v] Hin. rewrite forallb_forall in Hall.
    pose proof (Hall (k0, v) (proj1 (list_elem_of_In _ _) Hin)) as Hv.
    destruct (member_parts_str _ _ _ _ Hin) as [s ->]. exists s. split_and!; [done| |].
    + unfold part_text in Hv. simpl in Hv. by destruct (String.eqb_spec s "").
    + unfold memberObject. apply elem_of_list_to_map_1; [|exact Hin]. change (NoDup (map fst parts)). by rewrite Hk.
  - unfold parts. rewrite parts_join. apply of_to_bytes.
Qed.

(** ** The patched results *)

Lemma run_of_set results cluster scanner res c s :
  run_of (set_result results cluster scanner res) c s =
  if String.eqb c cluster && String.eqb s scanner then Some res else run_of results c s.
Proof.
  unfold run_of, set_result. destruct (String.eqb_spec c cluster) as [->|Hc].
  - rewrite lookup_insert_eq. simpl. destruct (String.eqb_spec s scanner) as [->|Hs]; simpl.
    + by rewrite lookup_insert_eq.
    + rewrite lookup_insert_ne by congruence. by destruct (results !! cluster).
  - simpl. by rewrite lookup_insert_ne by congruence.
Qed.

Lemma first_some_spec {A B} (g : A -> option B) l b : first_some g l = Some b -> exists x, x ∈ l /\ g x = Some b.
Proof.
  induction l as [|x l IH]; [done|]. simpl. destruct (g x) eqn:E; [intros [= ->]; exists x; split; [by left|done]|].
  intros H. destruct (IH H) as (y & Hy & Hg). exists y. split; [by right|done].
Qed.

Lemma holds_mode_spec results fix_ mode c v : holds_mode results fix_ mode c = Some v ->
  c <> fx_Cluster fix_ /\ sprint v = mode /\
  exists res m, run_of results c (fx_Scanner fix_) = Some res /\ dataMap (res_Data res) = Some m /\ m !! fx_Field fix_ = Some v.
Proof.
  unfold holds_mode. destruct (String.eqb_spec c (fx_Cluster fix_)); [done|].
  destruct (run_of results c (fx_Scanner fix_)) as [res|] eqn:Er; [|done]. simpl.
  destruct (dataMap (res_Data res)) as [m|] eqn:Em; [|done]. simpl.
  destruct (m !! fx_Field fix_) as [u|] eqn:Eu; [|done]. simpl.
  destruct (String.eqb_spec (sprint u) mode); [|done]. intros [= ->]. split_and!; [done|done|]. by exists res, m.
Qed.

(** Where the members of a set field are kept: the array it is projected from, or the field. *)
Definition source_field (fix_ : Fix) : string :=
  match setProjections !! fx_Scanner fix_ with
  | Some p => if String.eqb (sp_To p) (fx_Field fix_) then sp_From p else fx_Field fix_
  | None => fx_Field fix_
  end.

(** The members read from a payload, as the detectors read them. *)
Definition set_members (fix_ : Fix) (data : gmap string json) : list string :=
  let raw := match data !! source_field fix_ with Some (JArr l) => l | _ => [] end in
  match setProjections !! fx_Scanner fix_ with
  | Some p => if String.eqb (sp_To p) (fx_Field fix_) then members_of (sp_Member p) ∅ raw else map sprint raw
  | None => map sprint raw
  end.

(** A member some object of the array can stand for. *)
Definition member_fits (fix_ : Fix) (m : string) : Prop :=
  forall p keys, setProjections !! fx_Scanner fix_ = Some p -> sp_Build p = Some keys -> member_ok keys m = true.

(** What the changed payload reads as. *)
Definition reads_norm (results : Results) (fix_ : Fix) (dist : Distribution) (cv : ClusterValue) (data : gmap string json) : Prop :=
  (fx_Kind fix_ = FixMedian /\ data !! fx_Field fix_ = Some (JNum (di_Median dist))) \/
  (fx_Kind fix_ = FixMode /\ exists c v res m, c <> fx_Cluster fix_ /\ run_of results c (fx_Scanner fix_) = Some res /\
     dataMap (res_Data res) = Some m /\ m !! fx_Field fix_ = Some v /\ sprint v = di_Mode dist /\ data !! fx_Field fix_ = Some v) \/
  (fx_Kind fix_ = FixConsensus /\ forall m, m ∈ cv_Missing cv -> member_fits fix_ m -> m <> "" -> m ∈ set_members fix_ data).

(** Every buildable projection of the registry is rebuilt from the keys its members join. *)
Definition builds_back (p : setProjection) : Prop :=
  forall keys, sp_Build p = Some keys -> NoDup keys /\ keys <> [] /\ sp_Member p = memberOf keys.

Lemma registry_builds s p : setProjections !! s = Some p -> builds_back p.
Proof.
  unfold setProjections, projections.
  assert (forall specs (acc : gmap string setProjection), Forall (fun sp => match fp_Projection sp with Some p => builds_back p | None => True end) specs ->
    (forall s p, acc !! s = Some p -> builds_back p) -> forall s p,
    fold_left (fun out s => match fp_Projection s with
      | Some p => <[fr_Scanner (fp_Ref s) := with_To p (fr_Field (fp_Ref s))]> out | None => out end) specs acc !! s = Some p ->
    builds_back p) as H.
  { induction specs as [|sp specs IH]; intros acc Hs Ha; [done|]. apply Forall_cons in Hs as [H1 Hs]. cbn [fold_left]. apply IH; [done|].
    destruct (fp_Projection sp) as [q|]; [|done]. intros s' p'. destruct (decide (s' = fr_Scanner (fp_Ref sp))) as [->|Hne].
    - rewrite lookup_insert_eq. intros [= <-]. exact H1.
    - rewrite lookup_insert_ne by congruence. apply Ha. }
  apply H; [|intros ? ?; by rewrite lookup_empty]. clear.
  unfold fieldSpecs. repeat (apply Forall_cons; split; [first [exact I | intros keys [= <-];
    split; [apply (bool_decide_unpack _); vm_compute; exact I|split; [discriminate|reflexivity]] | intros keys [=]]|]).
  constructor.
Qed.

Lemma members_of_in member raw seen kv m : JObj kv ∈ raw -> member (list_to_map kv) = m -> m <> "" -> m ∉ seen ->
  m ∈ members_of member seen raw.
Proof.
  intros Hin Hm Hne. revert seen. induction raw as [|v raw IH]; intros seen Hs; [by apply elem_of_nil in Hin|].
  apply elem_of_cons in Hin as [<-|Hin].
  - simpl. rewrite Hm. destruct (String.eqb_spec m ""); [done|]. rewrite bool_decide_eq_false_2 by done. by left.
  - destruct v; simpl; try (by apply IH). set (name := member _).
    destruct (String.eqb name ""); [by apply IH|]. case_bool_decide; [by apply IH|].
    destruct (decide (m = name)) as [->|Hd]; [by left|]. right. apply IH; [done|]. set_solver.
Qed.

(** The array after members were appended. *)
Lemma append_to_array data field more x : x ∈ more ->
  exists l, append_to data field more !! field = Some (JArr l) /\ x ∈ l.
Proof.
  intros Hin. unfold append_to. rewrite lookup_insert_eq.
  destruct (data !! field) as [[]|]; try (destruct more; [by apply elem_of_nil in Hin|by eexists]).
  eexists. split; [done|]. apply elem_of_app. by right.
Qed.

Lemma added_members data fix_ missing data' : addMembers data fix_ missing = inr data' ->
  (forall k, k <> source_field fix_ -> data' !! k = data !! k) /\
  forall m, m ∈ missing -> member_fits fix_ m -> m <> "" -> m ∈ set_members fix_ data'.
Proof.
  unfold addMembers, set_members, source_field, member_fits, refuse.
  destruct (setProjections !! fx_Scanner fix_) as [p|] eqn:Ep; [destruct (String.eqb (sp_To p) (fx_Field fix_)) eqn:Et|].
  1: { destruct (sp_Build p) as [keys|] eqn:Eb; [|done]. intros [= <-]. split.
    - intros k Hk. unfold append_to. by rewrite lookup_insert_ne by congruence.
    - intros m Hm Hfit Hne. destruct (registry_builds _ _ Ep keys Eb) as (Hnd & Hkn & Hmem).
      destruct (append_to_array data (sp_From p) (map (fun m => payload (memberObject keys m)) missing) (payload (memberObject keys m)))
        as (l & Hl & Hin); [by apply (list_elem_of_fmap_2 (fun m => payload (memberObject keys m)))|]. rewrite Hl.
      eapply members_of_in; [exact Hin| |done|set_solver]. rewrite Hmem.
      change (list_to_map _) with (genericMap (payload (memberObject keys m))). rewrite (proj2 (payload_reads_back _)).
      apply built_member; [done|done|]. by apply (Hfit p). }
  all: intros [= <-]; split; [intros k Hk; unfold append_to; by rewrite lookup_insert_ne by congruence|].
  all: intros m Hm _ _; destruct (append_to_array data (fx_Field fix_) (map JStr missing) (JStr m)) as (l & Hl & Hin);
    [by apply (list_elem_of_fmap_2 JStr)|]; rewrite Hl; change m with (sprint (JStr m)); by apply (list_elem_of_fmap_2 sprint).
Qed.

Lemma fixed_data_spec results fix_ dist cv data data' : fixed_data results fix_ dist cv data = inr data' ->
  (forall k, k <> fx_Field fix_ -> k <> source_field fix_ -> data' !! k = data !! k) /\ reads_norm results fix_ dist cv data'.
Proof.
  unfold fixed_data, reads_norm, refuse.
  destruct (String.eqb_spec (fx_Kind fix_) FixMedian) as [Ek|]; simpl.
  { destruct (String.eqb (di_Kind dist) NormKindNumeric); simpl.
    - intros [= <-]. split; [intros k H1 _; by rewrite lookup_insert_ne by congruence|left; by rewrite lookup_insert_eq].
    - rewrite Ek. done. }
  destruct (String.eqb_spec (fx_Kind fix_) FixMode) as [Ek|]; simpl.
  { destruct (String.eqb (di_Kind dist) NormKindString); simpl; [|by rewrite Ek].
    unfold modeValue, refuse. destruct (first_some _ _) as [v|] eqn:Ev; [|done]. intros [= <-].
    split; [intros k H1 _; by rewrite lookup_insert_ne by congruence|right; left]. rewrite lookup_insert_eq. split; [done|].
    apply first_some_spec in Ev as (c & _ & Hc). apply holds_mode_spec in Hc as (Hne & Hs & res & m & H1 & H2 & H3).
    by exists c, v, res, m. }
  destruct (String.eqb_spec (fx_Kind fix_) FixConsensus) as [Ek|]; simpl; [|done].
  destruct (String.eqb (di_Kind dist) NormKindSet); simpl; [|done]. intros H. apply added_members in H as [H1 H2].
  split; [intros k _ Hk; by apply H1|right; right]. by split.
Qed.

(** A fix changes one payload and lands. Every run but the one it names is the one
    scanned, that run keeps its state, its payload keeps every other field, and the field
    reads as the norm: the median, a value of another cluster that prints as the mode, or a
    set with every missing member in it. *)
Theorem fix_applied decode_error clusters results fix_ dist cv clusters' results' :
  fx_Kind fix_ <> FixRemove -> applyFix decode_error clusters results fix_ dist cv = inr (clusters', results') ->
  clusters' = clusters /\
  (forall c s, (c, s) <> (fx_Cluster fix_, fx_Scanner fix_) -> run_of results' c s = run_of results c s) /\
  exists res data data',
    run_of results (fx_Cluster fix_) (fx_Scanner fix_) = Some res /\ dataMap (res_Data res) = Some data /\
    run_of results' (fx_Cluster fix_) (fx_Scanner fix_) = Some (with_data res (payload data')) /\
    genericMap (payload data') = data' /\
    (forall k, k <> fx_Field fix_ -> k <> source_field fix_ -> data' !! k = data !! k) /\
    reads_norm results fix_ dist cv data'.
Proof.
  intros Hk. unfold applyFix, refuse. destruct (String.eqb_spec (fx_Kind fix_) FixRemove); [done|].
  destruct (run_of results (fx_Cluster fix_) (fx_Scanner fix_)) as [res|] eqn:Er; [|done].
  destruct (dataMap (res_Data res)) as [data|] eqn:Ed; [|done].
  destruct (fixed_data results fix_ dist cv data) as [e|data'] eqn:Ef; [done|]. intros [= <- <-].
  apply fixed_data_spec in Ef as [Hother Hnorm]. split_and!; [done| |].
  - intros c s Hne. rewrite run_of_set. destruct (String.eqb_spec c (fx_Cluster fix_)), (String.eqb_spec s (fx_Scanner fix_)); try done.
    congruence.
  - exists res, data, data'. split_and!; try done; [|apply payload_reads_back]. rewrite run_of_set. by rewrite !String.eqb_refl.
Qed.

(** ** Samples *)

Definition sample_fix : Fix :=
  {| fx_Cluster := "c"; fx_Scanner := "crds"; fx_Field := "crd_names"; fx_Kind := FixConsensus; fx_Scope := NormScopeFleet |}.

Definition sample_crds (names : list string) : Result :=
  {| res_Scanner := "crds"; res_State := StateOK; res_Reason := "";
     res_Data := JObj [("crds", JArr (map (fun n => JObj [("name", JStr n)]) names))] |}.

Definition sample_results : Results :=
  {["a" := {["crds" := sample_crds ["x"; "y"]]}; "b" := {["crds" := sample_crds ["x"; "y"]]}; "c" := {["crds" := sample_crds ["x"]]}]}.

Definition sample_dist : Distribution := {|
  di_Scope := NormScopeFleet; di_Scanner := "crds"; di_Field := "crd_names"; di_Kind := NormKindSet; di_Values := [];
  di_Median := f_zero; di_MAD := f_zero; di_Band := f_zero; di_Threshold := f_zero; di_Mode := ""; di_ModeShare := f_zero;
  di_Consensus := ["x"; "y"]; di_SampleSize := 3; di_Exact := false; di_LimitedSample := false; di_Mass := f_zero |}.

Definition sample_value : ClusterValue := {|
  cv_Cluster := "c"; cv_Number := None; cv_Text := ""; cv_Size := 1; cv_Missing := ["y"]; cv_Z := f_zero; cv_Outlier := true;
  cv_Explained := "" |}.

Definition sample_patched : Results :=
  match applyFix (fun _ => "") ["a"; "b"; "c"] sample_results sample_fix sample_dist sample_value with
  | inr (_, r) => r
  | inl _ => ∅
  end.

Lemma fix_applied_witness :
  fx_Kind sample_fix <> FixRemove /\
  applyFix (fun _ => "") ["a"; "b"; "c"] sample_results sample_fix sample_dist sample_value = inr (["a"; "b"; "c"], sample_patched) /\
  (forall c s, (c, s) <> ("c", "crds") -> run_of sample_patched c s = run_of sample_results c s).
Proof.
  assert (fx_Kind sample_fix <> FixRemove) as Hk by discriminate.
  assert (applyFix (fun _ => "") ["a"; "b"; "c"] sample_results sample_fix sample_dist sample_value
    = inr (["a"; "b"; "c"], sample_patched)) as He by (vm_compute; reflexivity).
  split; [exact Hk|split; [exact He|]].
  exact (proj1 (proj2 (fix_applied _ _ _ _ _ _ _ _ Hk He))).
Defined.

(** The object added for the member is read back by the projection. *)
Example sample_consensus :
  (fun res => set_members sample_fix (genericMap (res_Data res))) <$> run_of sample_patched "c" "crds" = Some ["x"; "y"].
Proof. vm_compute. reflexivity. Qed.
