(* ===== verification/Scan.v ===== *)
(** * internal/scanner: errors.go, paging.go, topn.go, registry.go

    How a scanner's reads become the state of its result, and how a list is read page
    by page. The Kubernetes client's errors and lists are parameters: the tests the
    code makes on an error are a class, and a list call is a function of the number of
    calls made and the request. *)

From Stdlib Require Import ZArith Lia String Sorted.
From stdpp Require Import base gmap strings list sets.
From S2P Require Import Prelude Text Data.

Local Open Scope nat_scope.

(** ** What the client library says of an error *)

Class ApiError (E : Type) := {
  err_text : E -> string;
  IsNotFound : E -> bool;
  IsNoMatchError : E -> bool;
  IsForbidden : E -> bool;
  IsUnauthorized : E -> bool;
  IsCanceled : E -> bool;
  IsDeadlineExceeded : E -> bool;
  IsTimeout : E -> bool;
  IsServerTimeout : E -> bool;
  IsTooManyRequests : E -> bool;
  IsResourceExpired : E -> bool;
  IsInternalError : E -> bool;
  IsServiceUnavailable : E -> bool;
  IsUnexpectedServerError : E -> bool
}.

Section Reads.
Context {E : Type} `{!ApiError E}.

(** ** errors.go *)

Definition error_label (err : E) : string :=
  if IsForbidden err then "forbidden"
  else if IsUnauthorized err then "unauthorized"
  else if IsCanceled err then "canceled"
  else if IsDeadlineExceeded err || IsTimeout err || IsServerTimeout err then "timed out"
  else if IsTooManyRequests err then "throttled"
  else if IsResourceExpired err then "list expired"
  else if IsInternalError err || IsServiceUnavailable err || IsUnexpectedServerError err then "server error"
  else "api error".

Definition ClassifyError (err : option E) : State * string :=
  match err with
  | None => (StateOK, "")
  | Some e =>
      if IsNotFound e || IsNoMatchError e then (StateUnavailable, ("not served: " ++ err_text e)%string)
      else (StateErrored, (error_label e ++ ": " ++ err_text e)%string)
  end.

Record readFailure := { rf_state : State; rf_reason : string; rf_err : E; rf_required : bool }.

Record Coverage := { cov_ok : nat; cov_failures : list readFailure }.

Definition coverage_empty : Coverage := {| cov_ok := 0; cov_failures := [] |}.

Definition Observe (c : Coverage) (what : string) (err : option E) : Coverage * bool :=
  match err with
  | None => ({| cov_ok := S (cov_ok c); cov_failures := cov_failures c |}, true)
  | Some e =>
      let '(state, reason) := ClassifyError err in
      ({| cov_ok := cov_ok c;
          cov_failures := cov_failures c ++ [{| rf_state := state; rf_reason := (what ++ ": " ++ reason)%string;
                                                rf_err := e; rf_required := false |}] |}, false)
  end.

Definition require_failure (f : readFailure) : readFailure := {|
  rf_state := rf_state f; rf_reason := rf_reason f; rf_err := rf_err f; rf_required := true |}.

(** [c.failures[len-1].required = true]. *)
Definition require_last (l : list readFailure) : list readFailure := alter require_failure (length l - 1) l.

Definition Require (c : Coverage) (what : string) (err : option E) : Coverage * bool :=
  let '(c', ok) := Observe c what err in
  if ok then (c', true)
  else ({| cov_ok := cov_ok c'; cov_failures := require_last (cov_failures c') |}, false).

Definition ErrScan : string := "scan failed".

(** [coverageError]: the message, and the wrapped errors after [ErrScan]. *)
Record coverageError := { ce_msg : string; ce_errs : list E }.

Definition served (f : readFailure) : bool := negb (String.eqb (rf_state f) StateUnavailable).

Definition Finish (c : Coverage) (name : string) (data : json) : Result * option coverageError :=
  let failures := cov_failures c in
  let reason := join "; " (map rf_reason failures) in
  let allUnavailable := forallb (fun f => negb (served f)) failures in
  let blind := existsb (fun f => served f && rf_required f) failures in
  let result st r d := {| res_Scanner := name; res_State := st; res_Reason := r; res_Data := d |} in
  let errored := (result StateErrored reason JNull,
    Some {| ce_msg := (ErrScan ++ ": " ++ name ++ ": " ++ reason)%string; ce_errs := map rf_err failures |}) in
  if blind then errored
  else if (length failures =? 0) || (allUnavailable && (0 <? cov_ok c)) then (result StateOK "" data, None)
  else if allUnavailable then (result StateUnavailable reason data, None)
  else if 0 <? cov_ok c then (result StateDegraded reason data, None)
  else errored.

(** A read as a scanner makes it: named, required or not, with its outcome. *)
Record read := { rd_what : string; rd_required : bool; rd_err : option E }.

Definition record_read (c : Coverage) (r : read) : Coverage :=
  fst ((if rd_required r then Require else Observe) c (rd_what r) (rd_err r)).

(** ** Facts: the failures are the failed reads *)

Definition failure_of (r : read) : option readFailure :=
  (fun e => {| rf_state := fst (ClassifyError (Some e)); rf_reason := (rd_what r ++ ": " ++ snd (ClassifyError (Some e)))%string;
               rf_err := e; rf_required := rd_required r |}) <$> rd_err r.

Definition succeeded (r : read) : bool := match rd_err r with None => true | Some _ => false end.

(** The type is not served: nothing is there to measure. *)
Definition absent (r : read) : bool :=
  match rd_err r with Some e => IsNotFound e || IsNoMatchError e | None => false end.

(** The read failed for any other reason. *)
Definition denied (r : read) : bool := negb (succeeded r) && negb (absent r).

Lemma require_last_snoc l f : require_last (l ++ [f]) = l ++ [require_failure f].
Proof.
  unfold require_last. rewrite length_app. simpl. replace (length l + 1 - 1) with (length l + 0) by lia.
  by rewrite alter_app_r.
Qed.

Lemma record_read_eq c r : record_read c r =
  match failure_of r with
  | None => {| cov_ok := S (cov_ok c); cov_failures := cov_failures c |}
  | Some f => {| cov_ok := cov_ok c; cov_failures := cov_failures c ++ [f] |}
  end.
Proof.
  destruct c as [ok fs], r as [what req [e|]]; [|by destruct req].
  unfold record_read, failure_of, Require, Observe, ClassifyError.
  destruct req; simpl; destruct (IsNotFound e || IsNoMatchError e); simpl; rewrite ?require_last_snoc; done.
Qed.

Lemma record_reads reads c : fold_left record_read reads c =
  {| cov_ok := cov_ok c + length (List.filter succeeded reads);
     cov_failures := cov_failures c ++ omap failure_of reads |}.
Proof.
  revert c. induction reads as [|r reads IH]; intros [ok fs]; simpl.
  - by rewrite Nat.add_0_r, app_nil_r.
  - rewrite IH, record_read_eq. unfold succeeded at 2, failure_of at 1 2 4. destruct (rd_err r) as [e|]; simpl.
    + by rewrite <- app_assoc.
    + f_equal. lia.
Qed.

Lemma failures_none reads : omap failure_of reads = [] <-> forall r, r ∈ reads -> succeeded r = true.
Proof.
  induction reads as [|[what req [e|]] reads IH]; simpl.
  - split; [|done]. by intros _ r H%elem_of_nil.
  - split; [done|]. intros H. specialize (H _ (list_elem_of_here _ _)). done.
  - rewrite IH. split; [|intros H r Hr; apply H; by right].
    intros H r [->|Hr]%elem_of_cons; [done|by apply H].
Qed.

Lemma failure_served r f : failure_of r = Some f -> served f = denied r /\ rf_required f = rd_required r.
Proof.
  unfold failure_of, served, denied, absent, succeeded, ClassifyError. destruct (rd_err r) as [e|]; [|done]. simpl.
  intros [= <-]. simpl. by destruct (_ || _).
Qed.

Lemma exists_failure (p : readFailure -> bool) (q : read -> bool) reads :
  (forall r, match failure_of r with Some f => p f | None => false end = q r) ->
  existsb p (omap failure_of reads) = existsb q reads.
Proof.
  intros H. induction reads as [|r reads IH]; [done|]. simpl. rewrite <- H.
  destruct (failure_of r); simpl; by rewrite <- IH.
Qed.

Lemma succeeded_failure r : succeeded r = true -> failure_of r = None.
Proof. unfold succeeded, failure_of. by destruct (rd_err r). Qed.

Lemma exists_denied reads : existsb served (omap failure_of reads) = existsb denied reads.
Proof.
  apply exists_failure. intros r. destruct (failure_of r) as [f|] eqn:Ef; [by apply failure_served in Ef as [-> _]|].
  unfold failure_of, denied, succeeded in *. by destruct (rd_err r).
Qed.

Lemma exists_blind reads : existsb (fun f => served f && rf_required f) (omap failure_of reads) =
  existsb (fun r => denied r && rd_required r) reads.
Proof.
  apply exists_failure. intros r. destruct (failure_of r) as [f|] eqn:Ef; [by apply failure_served in Ef as [-> ->]|].
  unfold failure_of, denied, succeeded in *. by destruct (rd_err r).
Qed.

Lemma forallb_negb {A} (p : A -> bool) l : forallb (fun x => negb (p x)) l = negb (existsb p l).
Proof. induction l as [|x l IH]; [done|]. simpl. rewrite IH. by destruct (p x). Qed.

Lemma count_succeeded reads : (0 <? length (List.filter succeeded reads)) = existsb succeeded reads.
Proof.
  induction reads as [|r reads IH]; [done|]. simpl. destruct (succeeded r); [done|exact IH].
Qed.

(** What a scan of these reads reports: the table of the documentation. *)
Definition scan_state (reads : list read) : State :=
  if existsb (fun r => denied r && rd_required r) reads then StateErrored
  else if existsb denied reads then (if existsb succeeded reads then StateDegraded else StateErrored)
  else if existsb succeeded reads || (length reads =? 0) then StateOK
  else StateUnavailable.

(** ** paging.go *)

Record ListOptions := {
  lo_Limit : Z;
  lo_Continue : string;
  lo_ResourceVersion : string;
  lo_ResourceVersionMatch : string;
  lo_FieldSelector : string;
  lo_LabelSelector : string
}.

Definition DefaultListLimit : Z := 500.

Definition CacheReadOptions : ListOptions := {|
  lo_Limit := 0; lo_Continue := ""; lo_ResourceVersion := "0"; lo_ResourceVersionMatch := "NotOlderThan";
  lo_FieldSelector := ""; lo_LabelSelector := "" |}.

Context {T : Type}.

(** A page: its items and the token of the next page. *)
Record ListPage := { pg_items : list T; pg_continue : string }.

(** The errors [ListAll] returns: the list call's, or a repeated token. *)
Inductive list_error := ListFailed (err : E) | RepeatedToken (items : nat).

(** The server: what the [n]-th list call answers to a request. The per-page timeout
    is one of its errors. *)
Abbreviation lister := (nat -> ListOptions -> ListPage + E).

Definition with_limit (o : ListOptions) (n : Z) : ListOptions := {|
  lo_Limit := n; lo_Continue := lo_Continue o; lo_ResourceVersion := lo_ResourceVersion o;
  lo_ResourceVersionMatch := lo_ResourceVersionMatch o; lo_FieldSelector := lo_FieldSelector o;
  lo_LabelSelector := lo_LabelSelector o |}.

(** The request for a later page. *)
Definition next_page (o : ListOptions) (token : string) : ListOptions := {|
  lo_Limit := lo_Limit o; lo_Continue := token; lo_ResourceVersion := ""; lo_ResourceVersionMatch := "";
  lo_FieldSelector := lo_FieldSelector o; lo_LabelSelector := lo_LabelSelector o |}.

(** The endless loop; [None] is a loop still running after [fuel] calls. *)
Fixpoint list_loop (fuel call : nat) (server : lister) (opts page : ListOptions) (restarted : bool) (out : list T) :
  option (list T + list_error) :=
  match fuel with
  | 0 => None
  | S fuel' =>
      match server call page with
      | inr err =>
          if negb (String.eqb (lo_Continue page) "") && negb restarted && IsResourceExpired err
          then list_loop fuel' (S call) server opts opts true []
          else Some (inr (ListFailed err))
      | inl resp =>
          let out' := out ++ pg_items resp in
          let token := pg_continue resp in
          if String.eqb token "" then Some (inl out')
          else if String.eqb token (lo_Continue page) then Some (inr (RepeatedToken (length out')))
          else list_loop fuel' (S call) server opts (next_page opts token) restarted out'
      end
  end.

Definition first_request (opts : ListOptions) : ListOptions :=
  if (lo_Limit opts =? 0)%Z then with_limit opts DefaultListLimit else opts.

Definition ListAll (fuel : nat) (opts : ListOptions) (server : lister) : option (list T + list_error) :=
  let opts := first_request opts in list_loop fuel 0 server opts opts false [].

(** ** Facts: a server with a paginated list *)

(** The request for page [i] of a list whose page [i] has token [tok i]. *)
Definition request (opts : ListOptions) (tok : nat -> string) (i : nat) : ListOptions :=
  if i =? 0 then opts else next_page opts (tok i).

Definition token_after (pages : list (list T)) (tok : nat -> string) (i : nat) : string :=
  if S i <? length pages then tok (S i) else "".

(** The tokens of the later pages are not empty, and no two neighbours share one. *)
Definition tokens_ok (pages : list (list T)) (tok : nat -> string) : Prop :=
  forall i, 0 < i < length pages -> tok i <> "" /\ tok (S i) <> tok i.

(** From call [base] on, the server answers [n] requests for successive pages. A
    request for a later page carries no resource version, which the API server would
    reject beside a token. *)
Definition answers (server : lister) (base : nat) (opts : ListOptions) (pages : list (list T)) (tok : nat -> string)
  (n : nat) : Prop :=
  forall i items, i < n -> pages !! i = Some items ->
    server (base + i) (request opts tok i) = inl {| pg_items := items; pg_continue := token_after pages tok i |}.

Lemma request_token opts tok i : lo_Continue opts = "" ->
  lo_Continue (request opts tok i) = if i =? 0 then "" else tok i.
Proof. intros H. unfold request. by destruct (i =? 0). Qed.

(** Reading [n] pages of a longer list. *)
Lemma list_loop_prefix server base opts pages tok n fuel restarted :
  lo_Continue opts = "" -> tokens_ok pages tok -> n < length pages -> answers server base opts pages tok n ->
  list_loop (n + fuel) base server opts opts restarted [] =
  list_loop fuel (base + n) server opts (request opts tok n) restarted (concat (take n pages)).
Proof.
  intros Hopts Htok. revert fuel. induction n as [|n IH]; intros fuel Hn Hans; [by rewrite Nat.add_0_r|].
  replace (S n + fuel) with (n + S fuel) by lia. rewrite IH; [|lia|intros i items Hi; apply Hans; lia].
  destruct (lookup_lt_is_Some_2 pages n) as [items Hitems]; [lia|]. cbn [list_loop].
  rewrite (Hans n items) by (lia || done). cbn [pg_items pg_continue]. unfold token_after.
  destruct (Nat.ltb_spec (S n) (length pages)); [|lia].
  destruct (Htok (S n) ltac:(lia)) as [Hne _]. apply String.eqb_neq in Hne as ->.
  rewrite request_token by done.
  assert (String.eqb (tok (S n)) (if n =? 0 then "" else tok n) = false) as ->.
  { apply String.eqb_neq. destruct (Nat.eqb_spec n 0); [apply Htok; lia|]. apply (Htok n). lia. }
  rewrite (take_S_r _ _ _ Hitems), concat_app. simpl. rewrite app_nil_r, Nat.add_succ_r. done.
Qed.

Lemma list_loop_all server base opts pages tok fuel restarted :
  lo_Continue opts = "" -> tokens_ok pages tok -> pages <> [] -> answers server base opts pages tok (length pages) ->
  length pages <= fuel -> list_loop fuel base server opts opts restarted [] = Some (inl (concat pages)).
Proof.
  intros Hopts Htok Hne Hans Hf. destruct (length pages) as [|n] eqn:El; [by destruct pages|].
  destruct (lookup_lt_is_Some_2 pages n) as [items Hitems]; [lia|].
  replace fuel with (n + S (fuel - S n)) by lia.
  rewrite (list_loop_prefix server base opts pages tok); [|done|done|lia|intros i its Hi; apply Hans; lia].
  cbn [list_loop]. rewrite (Hans n items) by (lia || done). cbn [pg_items pg_continue]. unfold token_after.
  rewrite El. destruct (Nat.ltb_spec (S n) (S n)); [lia|]. simpl. do 2 f_equal.
  rewrite <- (take_drop n pages) at 2. rewrite concat_app, (drop_S _ _ _ Hitems), drop_ge by lia. simpl. by rewrite app_nil_r.
Qed.

(** A read that fails at page [n]. *)
Lemma list_loop_fails server base opts pages tok n e fuel restarted :
  lo_Continue opts = "" -> tokens_ok pages tok -> n < length pages -> answers server base opts pages tok n ->
  server (base + n) (request opts tok n) = inr e -> n < fuel ->
  list_loop fuel base server opts opts restarted [] =
  if negb (n =? 0) && negb restarted && IsResourceExpired e
  then list_loop (fuel - S n) (S (base + n)) server opts opts true []
  else Some (inr (ListFailed e)).
Proof.
  intros Hopts Htok Hn Hans Hfail Hf. replace fuel with (n + S (fuel - S n)) at 1 by lia.
  rewrite (list_loop_prefix server base opts pages tok) by done. cbn [list_loop]. rewrite Hfail, request_token by done.
  destruct (Nat.eqb_spec n 0) as [->|]; [done|].
  destruct (Htok n ltac:(lia)) as [Hne _]. by apply String.eqb_neq in Hne as ->.
Qed.

(** ** Properties *)

Lemma first_request_continue opts : lo_Continue (first_request opts) = lo_Continue opts.
Proof. unfold first_request. by destruct (_ =? 0)%Z. Qed.

(** C37: a paginated list is read whole or not at all. A server that answers every page
    yields all items in order; a token that expires once makes the list start over, and
    only the second reading is returned; any other failure, or a second expiry, is
    returned as the error with no items. In each case the loop ends within the calls
    counted. *)
Theorem listall_reads_all (opts : ListOptions) (server : lister) (pages pages2 : list (list T)) (tok tok2 : nat -> string)
  (n m fuel : nat) (e e2 : E) :
  let first := first_request opts in
  lo_Continue opts = "" -> tokens_ok pages tok -> tokens_ok pages2 tok2 -> pages2 <> [] ->
  n < length pages -> m < length pages2 -> length pages + S n + length pages2 <= fuel ->
  (answers server 0 first pages tok (length pages) -> ListAll fuel opts server = Some (inl (concat pages))) /\
  (answers server 0 first pages tok n -> server n (request first tok n) = inr e ->
     (n = 0 \/ IsResourceExpired e = false -> ListAll fuel opts server = Some (inr (ListFailed e))) /\
     (0 < n -> IsResourceExpired e = true ->
        (answers server (S n) first pages2 tok2 (length pages2) -> ListAll fuel opts server = Some (inl (concat pages2))) /\
        (answers server (S n) first pages2 tok2 m -> server (S n + m) (request first tok2 m) = inr e2 ->
           ListAll fuel opts server = Some (inr (ListFailed e2))))).
Proof.
  intros first Hopts Htok Htok2 Hne2 Hn Hm Hf. rewrite <- first_request_continue in Hopts. fold first in Hopts.
  unfold ListAll. fold first. split.
  - intros Hans. apply (list_loop_all server 0 first pages tok); try done; [by intros ->; simpl in Hn; lia|lia].
  - intros Hans Hfail. rewrite (list_loop_fails server 0 first pages tok n e) by (done || lia). split.
    + intros [->|Hexp]; [done|]. rewrite Hexp, andb_false_r. done.
    + intros Hpos Hexp. rewrite Hexp. destruct (Nat.eqb_spec n 0); [lia|]. cbn [negb andb]. simpl. split.
      * intros Hans2. apply (list_loop_all server (S n) first pages2 tok2); done || lia.
      * intros Hans2 Hfail2. rewrite (list_loop_fails server (S n) first pages2 tok2 m e2) by (done || lia).
        by rewrite andb_false_r.
Qed.

(** C4: what a scan may claim of a cluster is decided by its reads. A required read
    denied, or every read failed and one denied, is errored, with no data and an error
    that wraps every failure in order; some read denied is degraded; nothing but types
    the server does not serve is unavailable; and only otherwise is it OK. Data and an
    error never come together. *)
Theorem finish_decides (reads : list read) (name : string) (data : json) :
  let '(res, err) := Finish (fold_left record_read reads coverage_empty) name data in
  res_State res = scan_state reads /\
  (res_State res = StateErrored -> res_Data res = JNull /\
     exists ce, err = Some ce /\ ce_errs ce = omap rd_err reads) /\
  (res_State res <> StateErrored -> res_Data res = data /\ err = None).
Proof.
  rewrite record_reads. unfold Finish, scan_state. cbn [cov_ok cov_failures coverage_empty]. rewrite app_nil_l, Nat.add_0_l.
  rewrite exists_blind, forallb_negb, exists_denied, count_succeeded.
  assert (map rf_err (omap failure_of reads) = omap rd_err reads) as Herr.
  { clear. induction reads as [|[what req [e|]] reads IH]; simpl; [done| |done]. by f_equal. }
  destruct (existsb (fun r => denied r && rd_required r) reads); simpl.
  { split_and!; [done| |done]. intros _. split; [done|]. eexists. split; [reflexivity|]. exact Herr. }
  destruct (Nat.eqb_spec (length (omap failure_of reads)) 0) as [E0|E0]; simpl.
  - apply length_zero_iff_nil in E0. rewrite failures_none in E0.
    assert (existsb denied reads = false) as ->.
    { apply not_true_iff_false. intros (r & Hr%list_elem_of_In & Hd)%existsb_exists. unfold denied in Hd.
      by rewrite (E0 r Hr) in Hd. }
    assert (existsb succeeded reads || (length reads =? 0) = true) as ->.
    { destruct reads as [|r reads]; [done|]. simpl. by rewrite (E0 r) by left. }
    done.
  - destruct (existsb denied reads) eqn:Ed; simpl.
    + destruct (existsb succeeded reads); simpl; [done|]. split_and!; [done| |done].
      intros _. split; [done|]. eexists. split; [reflexivity|]. exact Herr.
    + destruct (existsb succeeded reads); simpl; [done|].
      destruct (Nat.eqb_spec (length reads) 0) as [El|]; [|done].
      apply length_zero_iff_nil in El. by subst.
Qed.

End Reads.

Arguments Coverage : clear implicits.
Arguments read : clear implicits.
Arguments ListPage : clear implicits.
Arguments list_error : clear implicits.

(** ** topn.go and registry.go *)

(** [cmp] of the callers is a comparison; the sort is stable. *)
Definition TopN {A} (items : list A) (n : nat) (c : A -> A -> comparison) : list A := take n (isort (less_of c) items).

Section Registry.
Context {Scanner : Type}.

Abbreviation Registry := (gmap string Scanner).

Definition NewRegistry : Registry := ∅.

(** A duplicate name panics. *)
Definition Register (r : Registry) (name : string) (s : Scanner) : option Registry :=
  match r !! name with Some _ => None | None => Some (<[name := s]> r) end.

Definition Get (r : Registry) (name : string) : option Scanner := r !! name.

Definition RegistryNames (r : Registry) : list string := sort_strings (elements (dom r)).

(** What was registered is found, and nothing else changes. *)
Lemma register_get r name s r' : Register r name s = Some r' ->
  Get r' name = Some s /\ forall other, other <> name -> Get r' other = Get r other.
Proof.
  unfold Register, Get. destruct (r !! name); [done|]. intros [= <-]. split; [apply lookup_insert_eq|].
  intros other H. by apply lookup_insert_ne.
Qed.

Lemma registry_names r name : name ∈ RegistryNames r <-> is_Some (Get r name).
Proof. unfold RegistryNames, Get. by rewrite sort_strings_elem_of, elem_of_elements, elem_of_dom. Qed.
End Registry.

(** ** A concrete server *)

(** An error that is an expired token, or one that is not. *)
#[export] Instance expiry_error : ApiError bool := {
  err_text := fun e => if e then "expired" else "denied"; IsNotFound := fun _ => false; IsNoMatchError := fun _ => false;
  IsForbidden := negb; IsUnauthorized := fun _ => false; IsCanceled := fun _ => false;
  IsDeadlineExceeded := fun _ => false; IsTimeout := fun _ => false; IsServerTimeout := fun _ => false;
  IsTooManyRequests := fun _ => false; IsResourceExpired := fun e => e; IsInternalError := fun _ => false;
  IsServiceUnavailable := fun _ => false; IsUnexpectedServerError := fun _ => false }.

Definition two_pages : list (list nat) := [[1; 2]; [3]].
Definition page_token (i : nat) : string := itoa (Z.of_nat i).

(** The first token expires at the second call; the list then starts over. *)
Definition expiring_server (call : nat) (page : ListOptions) : ListPage nat + bool :=
  if call =? 1 then inr true
  else if String.eqb (lo_Continue page) "" then inl {| pg_items := [1; 2]; pg_continue := "1" |}
  else inl {| pg_items := [3]; pg_continue := "" |}.

Lemma listall_reads_all_witness : ListAll 6 CacheReadOptions expiring_server = Some (inl [1; 2; 3]).
Proof.
  pose proof (listall_reads_all (E := bool) CacheReadOptions expiring_server two_pages two_pages page_token page_token
    1 0 6 true true eq_refl) as H.
  destruct H as [_ H].
  - intros i Hi. assert (i = 1) as -> by (simpl in Hi; lia). split; vm_compute; discriminate.
  - intros i Hi. assert (i = 1) as -> by (simpl in Hi; lia). split; vm_compute; discriminate.
  - discriminate.
  - simpl. lia.
  - simpl. lia.
  - simpl. lia.
  - destruct H as [_ H].
    + intros i items Hi Hp. assert (i = 0) as -> by lia. injection Hp as <-. reflexivity.
    + reflexivity.
    + destruct H as [H _]; [lia|reflexivity|]. apply H.
      intros [|[|i]] items Hi Hp; [injection Hp as <-; reflexivity|injection Hp as <-; reflexivity|simpl in Hi; lia].
Defined.
