(* ===== verification/Payload.v ===== *)
(** * What the scanners share

    Writing a payload the way encoding/json does, reading a list that may have failed, and
    what the report reads back from such a payload. *)

From Stdlib Require Import ZArith Lia String Ascii.
From stdpp Require Import base gmap strings list sets.
From S2P Require Import Prelude Maps Float64 Ratio Text Data Observe Findings Finders FindSecurity Scan.

Local Open Scope nat_scope.

(** ** Payload members *)

(** [omitempty]. *)
Definition text_member (key s : string) : list (string * json) := if String.eqb s "" then [] else [(key, JStr s)].

(** A nil slice is null. *)
Definition list_json {A} (f : A -> json) (l : list A) : json := match l with [] => JNull | _ => JArr (map f l) end.

(** A map is written in the order of its keys; an empty one is left out. *)
Definition label_map_json (m : gmap string string) : json := JObj (map (fun kv => (fst kv, JStr (snd kv))) (map_to_list m)).

Definition int_json (z : Z) : json := JNum (f_of_Z z).

(** ** Lists of objects *)

(** What the cut leaves out; nothing when the list is short enough. *)
Lemma topn_parts {A} (l : list A) n c : exists hidden, TopN l n c ++ hidden ≡ₚ l /\ (length l <= n -> hidden = []).
Proof.
  exists (drop n (isort (less_of c) l)). split.
  - unfold TopN. rewrite take_drop. apply isort_perm.
  - intros H. apply drop_ge. by rewrite isort_length.
Qed.

(** [sort.Slice] by namespace, then name. *)
Definition by_place {A} (place : A -> string * string) : A -> A -> comparison :=
  cmp_lex (cmp_on (fun a => fst (place a)) String.compare) (cmp_on (fun a => snd (place a)) String.compare).

Definition sort_places {A} (place : A -> string * string) (l : list A) : list A := isort (less_of (by_place place)) l.

(** How many namespaces the objects are in. *)
Definition namespaces_of (places : list string) : nat := size (list_to_set places : gset string).

(** What is listed ranks no lower than what is left out. *)
Lemma topn_ranked {A} (c : A -> A -> comparison) `{!CmpOrder c} (l : list A) n :
  exists hidden, TopN l n c ++ hidden ≡ₚ l /\ forall x y, x ∈ TopN l n c -> y ∈ hidden -> cmp_le c x y.
Proof.
  exists (drop n (isort (less_of c) l)). unfold TopN. split; [rewrite take_drop; apply isort_perm|].
  pose proof (isort_sorted c l) as Hs. revert Hs. generalize (isort (less_of c) l). clear l. intros l Hs. revert n.
  induction Hs as [|z l Hs IH Hz]; intros n x y Hx Hy; [by rewrite drop_nil in Hy; apply elem_of_nil in Hy|].
  destruct n as [|n]; [by rewrite take_0 in Hx; apply elem_of_nil in Hx|]. cbn [take drop] in Hx, Hy.
  apply elem_of_cons in Hx as [->|Hx]; [|by apply (IH n)]. rewrite List.Forall_forall in Hz. apply Hz, list_elem_of_In.
  rewrite <- (take_drop n l). apply elem_of_app. by right.
Qed.

(** A list the scanner cannot do without; a failed read leaves it empty. *)
Definition required_list {E} `{!ApiError E} {A} (cov : Coverage E) (what : string) (read : list A + E) : Coverage E * list A :=
  match read with
  | inl l => (fst (Require cov what None), l)
  | inr err => (fst (Require cov what (Some err)), [])
  end.

(** A list whose failure is only noted. *)
Definition optional_list {E} `{!ApiError E} {A} (cov : Coverage E) (what : string) (read : list A + E) : Coverage E * list A :=
  match read with
  | inl l => (fst (Observe cov what None), l)
  | inr err => (fst (Observe cov what (Some err)), [])
  end.

(** ** Reading back *)

Lemma members_lookup {A} (l : list (string * A)) k a : NoDup (map fst l) -> (k, a) ∈ l -> (list_to_map l : gmap string A) !! k = Some a.
Proof. intros H1 H2. by apply elem_of_list_to_map. Qed.

Lemma observed_count r s c m o key n : clusterView r s c = (m, o) -> seen o = true ->
  m !! key = Some (count_json n) -> (Z.of_nat n <= 2 ^ 53)%Z -> observeInt r s c key = (Z.of_nat n, o).
Proof.
  intros Hv Ho Hk Hn. unfold observeInt, observe. rewrite Hv. destruct o; [done| |];
    rewrite Hk; cbn [util_Float64 count_json]; by rewrite f_to_int_of_Z by lia.
Qed.

Lemma objects_listed {A} (fields : A -> list (string * json)) (m : obj) k (l : list A) :
  m !! k = Some (list_json (fun a => JObj (fields a)) l) -> objects (get_arr m k) = map (fun a => list_to_map (fields a)) l.
Proof.
  intros H. unfold get_arr. rewrite H. destruct l as [|a l]; [done|]. cbn [list_json]. unfold objects.
  generalize (a :: l). intros l'. induction l' as [|x l' IH]; [done|]. cbn. f_equal. exact IH.
Qed.

Definition said (f : Finding) : string * string * list string := (fi_Rule f, fi_Title f, fi_Affected f).

Lemma strings_read l : strings_of (map JStr l) = l.
Proof. induction l as [|x l IH]; [done|]. change (x :: strings_of (map JStr l) = x :: l). by rewrite IH. Qed.

(** What the report says of a list of objects in trouble: their number, and their names. *)
Definition due (rule what c : string) (names : list string) : list (string * string * list string) :=
  match names with
  | [] => []
  | _ => [(rule, (c ++ " has " ++ itoa (zlen names) ++ " " ++ what)%string, capList names)]
  end.

Lemma due_when rule what c names desc sev scanner rem :
  map said (when (0 <? zlen names)%Z
    (finding_of rule (c ++ " has " ++ itoa (zlen names) ++ " " ++ what) desc sev c scanner (capList names) rem)) =
  due rule what c names.
Proof. by destruct names. Qed.

(** A report with the payload of one scanner on one cluster. *)
Definition one_section (name : string) (data : json) : Report := {|
  rp_Clusters := ["c1"];
  rp_Sections := {[ name := {| sr_Uniform := false; sr_PerCluster := {[ "c1" := data ]}; sr_Divergences := [] |} ]};
  rp_Summary := summary_zero; rp_Findings := []; rp_ClusterHealths := []; rp_Outliers := []; rp_Distributions := [];
  rp_DeviationMass := ∅; rp_ScoreAttribution := None; rp_FleetScore := fleet_score_zero; rp_Cohorts := []; rp_Degraded := [];
  rp_Incidents := []; rp_Notes := []; rp_runs := None |}.
