(* ===== verification/NodeHealth.v ===== *)
(** * internal/scanner/nodehealth: node conditions, and the findings read from them

    The nodes are what the list read returned. The scanner's payload is the input of
    findings_health.go, so the two are checked against each other here. *)

From Stdlib Require Import ZArith Lia String.
From stdpp Require Import base gmap strings list.
From S2P Require Import Prelude Maps Float64 Ratio Text Data Observe Format Findings Finders FindHealth Scan Payload.

Local Open Scope nat_scope.

Definition Name : string := "node-health".

Record NodeCondition := { nc_Type : string; nc_Status : string; nc_Reason : string; nc_Message : string }.

(** The fields the scanner reads of a [corev1.Node]. *)
Record Node := { nd_Name : string; nd_Unschedulable : bool; nd_Conditions : list NodeCondition }.

Record NodeHealth := {
  nh_Name : string;
  nh_Ready : bool;
  nh_MemoryPressure : bool;
  nh_DiskPressure : bool;
  nh_PIDPressure : bool;
  nh_NetworkUnavailable : bool;
  nh_Unschedulable : bool;
  nh_Conditions : list NodeCondition }.

Record Data := {
  nhd_NodeCount : nat;
  nhd_HealthyNodes : nat;
  nhd_UnhealthyNodes : nat;
  nhd_MemoryPressureNodes : nat;
  nhd_DiskPressureNodes : nat;
  nhd_PIDPressureNodes : nat;
  nhd_NotReadyNodes : nat;
  nhd_UnschedulableNodes : nat;
  nhd_Nodes : list NodeHealth }.

(** The loop over the conditions: the last one of a type decides its flag. *)
Definition last_status (t : string) (conditions : list NodeCondition) : bool :=
  fold_left (fun flag c => if String.eqb (nc_Type c) t then String.eqb (nc_Status c) "True" else flag) conditions false.

Definition health_of (node : Node) : NodeHealth := {|
  nh_Name := nd_Name node;
  nh_Ready := last_status "Ready" (nd_Conditions node);
  nh_MemoryPressure := last_status "MemoryPressure" (nd_Conditions node);
  nh_DiskPressure := last_status "DiskPressure" (nd_Conditions node);
  nh_PIDPressure := last_status "PIDPressure" (nd_Conditions node);
  nh_NetworkUnavailable := last_status "NetworkUnavailable" (nd_Conditions node);
  nh_Unschedulable := nd_Unschedulable node;
  nh_Conditions := nd_Conditions node |}.

Definition healthy (nh : NodeHealth) : bool :=
  nh_Ready nh && negb (nh_MemoryPressure nh) && negb (nh_DiskPressure nh) && negb (nh_PIDPressure nh) &&
  negb (nh_NetworkUnavailable nh).

(** [if p { data.N++ }] over the nodes. *)
Definition tally (p : NodeHealth -> bool) (nodes : list NodeHealth) : nat := length (List.filter p nodes).

Definition audit (nodeList : list Node) : Data :=
  let nodes := map health_of nodeList in {|
  nhd_NodeCount := length nodeList;
  nhd_HealthyNodes := tally healthy nodes;
  nhd_UnhealthyNodes := tally (fun nh => negb (healthy nh)) nodes;
  nhd_MemoryPressureNodes := tally nh_MemoryPressure nodes;
  nhd_DiskPressureNodes := tally nh_DiskPressure nodes;
  nhd_PIDPressureNodes := tally nh_PIDPressure nodes;
  nhd_NotReadyNodes := tally (fun nh => negb (nh_Ready nh)) nodes;
  nhd_UnschedulableNodes := tally nh_Unschedulable nodes;
  nhd_Nodes := isort (less_of (cmp_on nh_Name String.compare)) nodes |}.

(** ** The payload *)

Definition condition_json (c : NodeCondition) : json := JObj (
  [("type", JStr (nc_Type c)); ("status", JStr (nc_Status c))] ++ text_member "reason" (nc_Reason c) ++
  text_member "message" (nc_Message c)).

Definition node_json (nh : NodeHealth) : json := JObj [
  ("name", JStr (nh_Name nh)); ("ready", JBool (nh_Ready nh)); ("memory_pressure", JBool (nh_MemoryPressure nh));
  ("disk_pressure", JBool (nh_DiskPressure nh)); ("pid_pressure", JBool (nh_PIDPressure nh));
  ("network_unavailable", JBool (nh_NetworkUnavailable nh)); ("unschedulable", JBool (nh_Unschedulable nh));
  ("conditions", list_json condition_json (nh_Conditions nh))].

Definition members (d : Data) : list (string * json) := [
  ("node_count", count_json (nhd_NodeCount d));
  ("healthy_nodes", count_json (nhd_HealthyNodes d));
  ("unhealthy_nodes", count_json (nhd_UnhealthyNodes d));
  ("memory_pressure_nodes", count_json (nhd_MemoryPressureNodes d));
  ("disk_pressure_nodes", count_json (nhd_DiskPressureNodes d));
  ("pid_pressure_nodes", count_json (nhd_PIDPressureNodes d));
  ("not_ready_nodes", count_json (nhd_NotReadyNodes d));
  ("unschedulable_nodes", count_json (nhd_UnschedulableNodes d));
  ("nodes", list_json node_json (nhd_Nodes d))].

Definition to_json (d : Data) : json := JObj (members d).

Definition NewScanner {E} `{!ApiError E} (read : list Node + E) : Result * option coverageError :=
  match read with
  | inr err => Finish (fst (Observe coverage_empty "nodes" (Some err))) Name (to_json (audit []))
  | inl nodes => Finish (fst (Observe coverage_empty "nodes" None)) Name (to_json (audit nodes))
  end.

(** ** Facts *)

(** The node reports the condition. *)
Definition reports (t : string) (node : Node) : bool :=
  existsb (fun c => String.eqb (nc_Type c) t && String.eqb (nc_Status c) "True") (nd_Conditions node).

(** The API server keeps one condition of each type. *)
Definition one_per_type (node : Node) : Prop := NoDup (map nc_Type (nd_Conditions node)).

Lemma last_status_reports t node : one_per_type node -> last_status t (nd_Conditions node) = reports t node.
Proof.
  unfold one_per_type, last_status, reports. induction (nd_Conditions node) as [|c l IH] using rev_ind; [done|].
  rewrite map_app, fold_left_app, existsb_app. intros (Hl & Hc & _)%NoDup_app. cbn [fold_left existsb map].
  rewrite <- (IH Hl), orb_false_r. destruct (String.eqb_spec (nc_Type c) t) as [Et|Et]; cbn [andb]; [|by rewrite orb_false_r].
  enough (fold_left (fun flag c => if String.eqb (nc_Type c) t then String.eqb (nc_Status c) "True" else flag) l false = false) as ->
    by done.
  clear IH Hl. assert (Hno : forall x, x ∈ l -> nc_Type x <> t).
  { intros x Hx Hxt. apply (Hc (nc_Type x)); [by apply list_elem_of_fmap_2|]. rewrite Hxt, <- Et. by left. }
  clear Hc. induction l as [|x l IH] using rev_ind; [done|]. rewrite fold_left_app. cbn [fold_left].
  destruct (String.eqb_spec (nc_Type x) t) as [Ex|Ex].
  - exfalso. apply (Hno x); [apply elem_of_app; right; by left|done].
  - apply IH. intros y Hy. apply Hno, elem_of_app. by left.
Qed.

Lemma condition_read c : condition_of (condition_json c) =
  if negb (String.eqb (nc_Type c) "") && String.eqb (nc_Status c) "True" then Some (nc_Type c) else None.
Proof. unfold condition_of, condition_json, text_member. by destruct (String.eqb (nc_Reason c) ""), (String.eqb (nc_Message c) ""). Qed.

Definition read_back (nh : NodeHealth) : nodeView := {|
  nv_Name := nh_Name nh; nv_Ready := nh_Ready nh; nv_Conditions := omap condition_of (map condition_json (nh_Conditions nh)) |}.

Lemma node_read (m : obj) (nodes : list NodeHealth) : m !! "nodes" = Some (list_json node_json nodes) ->
  map node_view (objects (get_arr m "nodes")) = map read_back nodes.
Proof.
  intros H. erewrite objects_listed by exact H. rewrite map_map. apply map_ext. intros nh.
  unfold node_view, read_back. f_equal. unfold get_arr. cbn. by destruct (nh_Conditions nh).
Qed.

Lemma reads_condition t node : t <> ""%string ->
  existsb (String.eqb t) (nv_Conditions (read_back (health_of node))) = reports t node.
Proof.
  intros Ht. unfold reports. cbn. induction (nd_Conditions node) as [|c l IH]; [done|]. cbn [map omap list_omap existsb].
  rewrite condition_read, <- IH. destruct (String.eqb_spec (nc_Type c) t) as [->|Hne].
  - rewrite (proj2 (String.eqb_neq _ _) Ht). cbn [negb andb]. destruct (String.eqb (nc_Status c) "True"); [|done].
    cbn [existsb]. by rewrite String.eqb_refl.
  - destruct (_ && _)%bool; [|done]. cbn [existsb andb orb]. rewrite String.eqb_sym. by rewrite (proj2 (String.eqb_neq _ _) Hne).
Qed.

(** The names of the nodes with a property, sorted. *)
Definition names_of (p : Node -> bool) (nodes : list Node) : list string := sort_strings (map nd_Name (List.filter p nodes)).

Lemma names_sorted (p : Node -> bool) (q : nodeView -> bool) nodes sorted : sorted ≡ₚ map health_of nodes ->
  (forall n, n ∈ nodes -> q (read_back (health_of n)) = p n) ->
  sort_strings (map nv_Name (List.filter q (map read_back sorted))) = names_of p nodes.
Proof.
  intros Hp Hq. unfold names_of. apply sort_strings_perm_eq.
  rewrite (Permutation_map nv_Name (Permutation_filter q _ _ (Permutation_map read_back Hp))), map_map.
  apply eq_subrelation; [exact _|]. clear Hp. induction nodes as [|n nodes IH]; [done|]. cbn [map List.filter].
  assert (IH' := IH ltac:(intros; apply Hq; by right)). rewrite Hq by (by left).
  destruct (p n); cbn [map]; [f_equal; exact IH'|exact IH'].
Qed.

Lemma tally_names (p : Node -> bool) (q : NodeHealth -> bool) nodes : (forall n, n ∈ nodes -> q (health_of n) = p n) ->
  tally q (map health_of nodes) = length (names_of p nodes).
Proof.
  intros Hq. unfold tally, names_of. rewrite sort_strings_perm, length_map.
  induction nodes as [|n nodes IH]; [done|]. cbn [map List.filter]. rewrite Hq by (by left).
  assert (IH' := IH ltac:(intros; apply Hq; by right)). destruct (p n); cbn [length]; congruence.
Qed.

Lemma names_length p nodes : (length (names_of p nodes) <= length nodes)%nat.
Proof. unfold names_of. rewrite sort_strings_perm, length_map. apply filter_length_le. Qed.

(** What the report says of the nodes with a property: nothing, or one finding that counts
    them and names them all. *)
Definition named (rule what c : string) (names : list string) : list (string * string * list string) :=
  match names with [] => [] | _ => [(rule, nodes_text c (Z.of_nat (length names)) what, names)] end.

Lemma said_when o names rule c what desc sev rem : seen o = true ->
  map said (when (seen o && (0 <? Z.of_nat (length names))%Z)
    (finding_of rule (nodes_text c (Z.of_nat (length names)) what) desc sev c "node-health" names rem)) = named rule what c names.
Proof. intros ->. unfold named. destruct names; [done|]. cbn. by rewrite (proj2 (Z.ltb_lt _ _)) by lia. Qed.

Module Nodes.

(** The node findings of a report name exactly the nodes the scanner saw in trouble.
    For the payload the node-health scanner writes for a list of nodes, each with one
    condition of a type as the API server keeps them, the report makes one finding for
    memory pressure, disk pressure and readiness wherever some node has the problem, its
    count is their number and it lists all their names; where no node has it there is none. *)
Theorem findings_name_nodes r c nodes o :
  clusterView r Name c = (list_to_map (members (audit nodes)), o) -> seen o = true ->
  Forall one_per_type nodes -> (Z.of_nat (length nodes) <= 2 ^ 53)%Z ->
  map said (node_health r c) =
    named "node-health/memory-pressure" "under memory pressure" c (names_of (reports "MemoryPressure") nodes) ++
    named "node-health/disk-pressure" "under disk pressure" c (names_of (reports "DiskPressure") nodes) ++
    named "node-health/not-ready" "not ready" c (names_of (fun n => negb (reports "Ready" n)) nodes).
Proof.
  intros Hv Ho Hone Hlen. rewrite Forall_forall in Hone.
  assert (Hstatus : forall t n, n ∈ nodes -> last_status t (nd_Conditions n) = reports t n).
  { intros t n Hn. by apply last_status_reports, Hone. }
  assert (Hcount : forall key p q, tally q (map health_of nodes) = length (names_of p nodes) ->
    (list_to_map (members (audit nodes)) : obj) !! key = Some (count_json (tally q (map health_of nodes))) ->
    observeInt r Name c key = (Z.of_nat (length (names_of p nodes)), o)).
  { intros key p q Hq Hk. rewrite Hq in Hk. eapply observed_count; [exact Hv|exact Ho|exact Hk|].
    pose proof (names_length p nodes). lia. }
  unfold node_health. fold Name.
  rewrite (Hcount "memory_pressure_nodes"%string (reports "MemoryPressure") nh_MemoryPressure);
    [|by apply tally_names; intros; apply Hstatus|reflexivity].
  rewrite (Hcount "disk_pressure_nodes"%string (reports "DiskPressure") nh_DiskPressure);
    [|by apply tally_names; intros; apply Hstatus|reflexivity].
  rewrite (Hcount "not_ready_nodes"%string (fun n => negb (reports "Ready" n)) (fun nh => negb (nh_Ready nh)));
    [|by apply tally_names; intros; cbn; rewrite Hstatus|reflexivity].
  assert (Hn : extractNodeNames r c Name = map read_back (nhd_Nodes (audit nodes))).
  { unfold extractNodeNames. rewrite Hv, Ho. cbn [negb]. by apply node_read. }
  assert (Hperm : nhd_Nodes (audit nodes) ≡ₚ map health_of nodes) by apply isort_perm.
  rewrite Hn. unfold byCondition, notReady.
  rewrite (names_sorted (reports "MemoryPressure") _ nodes _ Hperm) by (intros; by apply reads_condition).
  rewrite (names_sorted (reports "DiskPressure") _ nodes _ Hperm) by (intros; by apply reads_condition).
  rewrite (names_sorted (fun n => negb (reports "Ready" n)) _ nodes _ Hperm) by (intros; cbn; by rewrite Hstatus).
  destruct (observeInt r Name c "node_count") as [total ot]. rewrite !map_app. f_equal; [|f_equal]; by apply said_when.
Qed.

Definition condition (t s : string) : NodeCondition := {| nc_Type := t; nc_Status := s; nc_Reason := "kubelet"; nc_Message := "" |}.

Definition two_nodes : list Node := [
  {| nd_Name := "n2"; nd_Unschedulable := false; nd_Conditions := [condition "MemoryPressure" "True"; condition "Ready" "True"] |};
  {| nd_Name := "n1"; nd_Unschedulable := true; nd_Conditions := [condition "MemoryPressure" "True"; condition "Ready" "Unknown"] |}].

Definition two_node_report : Report :=
  let sections : gmap string SectionReport := {[ "node-health" := {| sr_Uniform := false;
    sr_PerCluster := {[ "c1" := to_json (audit two_nodes) ]}; sr_Divergences := [] |} ]} in {|
  rp_Clusters := ["c1"]; rp_Sections := sections; rp_Summary := summary_zero; rp_Findings := [];
  rp_ClusterHealths := []; rp_Outliers := []; rp_Distributions := []; rp_DeviationMass := ∅;
  rp_ScoreAttribution := None; rp_FleetScore := fleet_score_zero; rp_Cohorts := []; rp_Degraded := [];
  rp_Incidents := []; rp_Notes := []; rp_runs := None |}.

Lemma findings_name_nodes_witness :
  clusterView two_node_report Name "c1" = (list_to_map (members (audit two_nodes)), observed) /\
  map said (node_health two_node_report "c1") =
    [("node-health/memory-pressure", "c1 has 2 node(s) under memory pressure", ["n1"; "n2"]);
     ("node-health/not-ready", "c1 has 1 node(s) not ready", ["n1"])]%string.
Proof.
  assert (Hv : clusterView two_node_report Name "c1" = (list_to_map (members (audit two_nodes)), observed)) by reflexivity.
  split; [exact Hv|].
  rewrite (findings_name_nodes two_node_report "c1" two_nodes observed Hv eq_refl); [vm_compute; reflexivity| |].
  - constructor; [|constructor; [|constructor]]; unfold one_per_type; apply (bool_decide_unpack (NoDup _)); vm_compute; exact I.
  - vm_compute. discriminate.
Defined.

End Nodes.
