(* ===== verification/Inventory.v ===== *)
(** * internal/scanner: namespaces, network policies, quotas and Pod Security labels

    Four scanners that list objects and count namespaces, and what the report reads back.
    The objects are records of the fields a scanner reads; a quantity is its text. *)

From Stdlib Require Import ZArith Lia String Ascii Sorting.Sorted.
From stdpp Require Import base gmap strings list sets.
From S2P Require Import Prelude Maps Float64 Ratio Text Data Observe Format.
From S2P Require Import Findings Finders Capacity FindHealth FindSecurity FindCluster Scan Payload NodeHealth.

Local Open Scope nat_scope.

Record Namespace := { ns_Name : string; ns_Labels : gmap string string }.

(** ** namespace.go *)

Record NsData := { nsd_Count : nat; nsd_Names : list string; nsd_Labels : gmap string (gmap string string) }.

Definition labels_of (nsList : list Namespace) : gmap string (gmap string string) :=
  fold_left (fun labels ns => if size (ns_Labels ns) =? 0 then labels else <[ns_Name ns := ns_Labels ns]> labels) nsList ∅.

Definition list_namespaces (nsList : list Namespace) : NsData := {|
  nsd_Count := length nsList; nsd_Names := sort_strings (map ns_Name nsList); nsd_Labels := labels_of nsList |}.

Definition ns_members (d : NsData) : list (string * json) :=
  [("count", count_json (nsd_Count d)); ("names", strings_json (nsd_Names d))] ++
  (if size (nsd_Labels d) =? 0 then []
   else [("labels", JObj (map (fun kv => (fst kv, label_map_json (snd kv))) (map_to_list (nsd_Labels d))))]).

Definition NamespaceScanner {E} `{!ApiError E} (read : list Namespace + E) : Result * option coverageError :=
  let '(cov, nsList) := match read with
    | inr err => (fst (Observe coverage_empty "namespaces" (Some err)), [])
    | inl l => (fst (Observe coverage_empty "namespaces" None), l) end in
  Finish cov "namespaces" (JObj (ns_members (list_namespaces nsList))).

(** ** networkpolicy.go *)

Record NetworkPolicy := {
  np_Namespace : string; np_Name : string; np_Types : list string; np_IngressRules : nat; np_EgressRules : nat }.

Record NpData := {
  npd_Count : nat; npd_NamespacesWithPolicies : nat; npd_NamespacesWithoutPolicies : Z; npd_Policies : list NetworkPolicy }.

Definition list_policies (npList : list NetworkPolicy) (nsList : list Namespace) : NpData :=
  let with_policy := namespaces_of (map np_Namespace npList) in {|
  npd_Count := length npList;
  npd_NamespacesWithPolicies := with_policy;
  npd_NamespacesWithoutPolicies := (Z.of_nat (length nsList) - Z.of_nat with_policy)%Z;
  npd_Policies := sort_places (fun p => (np_Namespace p, np_Name p)) npList |}.

Definition policy_json (p : NetworkPolicy) : json := JObj [
  ("namespace", JStr (np_Namespace p)); ("name", JStr (np_Name p)); ("policy_types", strings_json (np_Types p));
  ("ingress_rule_count", count_json (np_IngressRules p)); ("egress_rule_count", count_json (np_EgressRules p))].

Definition np_members (d : NpData) : list (string * json) := [
  ("count", count_json (npd_Count d)); ("namespaces_with_policies", count_json (npd_NamespacesWithPolicies d));
  ("namespaces_without_policies", JNum (f_of_Z (npd_NamespacesWithoutPolicies d)));
  ("policies", JArr (map policy_json (npd_Policies d)))].

Definition NetworkPolicyScanner {E} `{!ApiError E} (policies : list NetworkPolicy + E) (namespaces : list Namespace + E) :
  Result * option coverageError :=
  let '(cov, npList) := required_list coverage_empty "network policies" policies in
  let '(cov, nsList) := required_list cov "namespaces" namespaces in
  Finish cov "network-policies" (JObj (np_members (list_policies npList nsList))).

(** ** quota.go *)

Record Quota := { qu_Namespace : string; qu_Name : string; qu_Hard : gmap string string; qu_Used : gmap string string }.
Record LimitRange := { lr_Namespace : string; lr_Name : string; lr_Items : nat }.

Record QuotaData := {
  qd_QuotaCount : nat; qd_LimitRangeCount : nat; qd_NamespacesWithQuotas : nat;
  qd_Quotas : list Quota; qd_LimitRanges : list LimitRange }.

Definition list_quotas (qList : list Quota) (lrList : list LimitRange) : QuotaData := {|
  qd_QuotaCount := length qList;
  qd_LimitRangeCount := length lrList;
  qd_NamespacesWithQuotas := namespaces_of (map qu_Namespace qList);
  qd_Quotas := sort_places (fun q => (qu_Namespace q, qu_Name q)) qList;
  qd_LimitRanges := sort_places (fun l => (lr_Namespace l, lr_Name l)) lrList |}.

Definition quota_json (q : Quota) : json := JObj [
  ("namespace", JStr (qu_Namespace q)); ("name", JStr (qu_Name q)); ("hard", label_map_json (qu_Hard q));
  ("used", label_map_json (qu_Used q))].

Definition limit_json (l : LimitRange) : json := JObj [
  ("namespace", JStr (lr_Namespace l)); ("name", JStr (lr_Name l)); ("item_count", count_json (lr_Items l))].

Definition quota_members (d : QuotaData) : list (string * json) := [
  ("quota_count", count_json (qd_QuotaCount d)); ("limit_range_count", count_json (qd_LimitRangeCount d));
  ("namespaces_with_quotas", count_json (qd_NamespacesWithQuotas d)); ("quotas", JArr (map quota_json (qd_Quotas d)));
  ("limit_ranges", JArr (map limit_json (qd_LimitRanges d)))].

Definition QuotaScanner {E} `{!ApiError E} (quotas : list Quota + E) (limits : list LimitRange + E) :
  Result * option coverageError :=
  let '(cov, qList) := required_list coverage_empty "resource quotas" quotas in
  let '(cov, lrList) := required_list cov "limit ranges" limits in
  Finish cov "resource-quotas" (JObj (quota_members (list_quotas qList lrList))).

(** ** security.go *)

Definition labelEnforce : string := "pod-security.kubernetes.io/enforce".
Definition labelEnforceVer : string := "pod-security.kubernetes.io/enforce-version".
Definition labelAudit : string := "pod-security.kubernetes.io/audit".
Definition labelAuditVer : string := "pod-security.kubernetes.io/audit-version".
Definition labelWarn : string := "pod-security.kubernetes.io/warn".
Definition labelWarnVer : string := "pod-security.kubernetes.io/warn-version".

Record NamespaceSecurity := {
  sec_Namespace : string; sec_Enforce : string; sec_EnforceVersion : string; sec_Audit : string; sec_AuditVersion : string;
  sec_Warn : string; sec_WarnVersion : string }.

Record PsaData := {
  psd_NamespaceCount : nat; psd_EnforcedCount : nat; psd_UnenforcedCount : nat; psd_LevelDistribution : gmap string nat;
  psd_Namespaces : list NamespaceSecurity }.

Definition label (ns : Namespace) (key : string) : string := default ""%string (ns_Labels ns !! key).

Definition security_of (ns : Namespace) : NamespaceSecurity := {|
  sec_Namespace := ns_Name ns; sec_Enforce := label ns labelEnforce; sec_EnforceVersion := label ns labelEnforceVer;
  sec_Audit := label ns labelAudit; sec_AuditVersion := label ns labelAuditVer; sec_Warn := label ns labelWarn;
  sec_WarnVersion := label ns labelWarnVer |}.

Definition level_of (sec : NamespaceSecurity) : option string :=
  Some (if String.eqb (sec_Enforce sec) "" then "none"%string else sec_Enforce sec).

Definition list_security (nsList : list Namespace) : PsaData :=
  let secs := map security_of nsList in {|
  psd_NamespaceCount := length nsList;
  psd_EnforcedCount := length (List.filter (fun s => Enforced (sec_Enforce s)) secs);
  psd_UnenforcedCount := length (List.filter (fun s => negb (Enforced (sec_Enforce s))) secs);
  psd_LevelDistribution := count_by level_of secs;
  psd_Namespaces := isort (less_of (cmp_on sec_Namespace String.compare)) secs |}.

Definition security_members (s : NamespaceSecurity) : list (string * json) :=
  [("namespace", JStr (sec_Namespace s))] ++ text_member "enforce" (sec_Enforce s) ++
  text_member "enforce_version" (sec_EnforceVersion s) ++ text_member "audit" (sec_Audit s) ++
  text_member "audit_version" (sec_AuditVersion s) ++ text_member "warn" (sec_Warn s) ++
  text_member "warn_version" (sec_WarnVersion s).

Definition psa_members (d : PsaData) : list (string * json) := [
  ("namespace_count", count_json (psd_NamespaceCount d)); ("enforced_count", count_json (psd_EnforcedCount d));
  ("unenforced_count", count_json (psd_UnenforcedCount d));
  ("level_distribution", JObj (map (fun kv => (fst kv, count_json (snd kv))) (map_to_list (psd_LevelDistribution d))));
  ("namespaces", list_json (fun s => JObj (security_members s)) (psd_Namespaces d))].

Definition SecurityScanner {E} `{!ApiError E} (read : list Namespace + E) : Result * option coverageError :=
  let '(cov, nsList) := match read with
    | inr err => (fst (Observe coverage_empty "namespaces" (Some err)), [])
    | inl l => (fst (Observe coverage_empty "namespaces" None), l) end in
  Finish cov "security" (JObj (psa_members (list_security nsList))).

(** ** Facts *)

(** Sorting records by name and keeping some is sorting the names kept. *)
Lemma filter_sorted_names {A} (name : A -> string) (p : A -> bool) l :
  map name (List.filter p (isort (less_of (cmp_on name String.compare)) l)) = sort_strings (map name (List.filter p l)).
Proof.
  assert (Ho : CmpOrder String.compare) by exact _. apply (@sorted_unique _ String.compare Ho).
  - intros x y _ _. apply string_compare_antisym.
  - assert (Hs := @isort_sorted _ (cmp_on name String.compare) (cmp_on_order name String.compare) l). revert Hs.
    generalize (isort (less_of (cmp_on name String.compare)) l). intros s. induction 1 as [|x s Hs IH Hx]; [constructor|].
    cbn [List.filter]. destruct (p x); [|exact IH]. cbn [map]. constructor; [exact IH|]. apply List.Forall_map, List.Forall_forall.
    intros y [Hy _]%filter_In. rewrite List.Forall_forall in Hx. exact (Hx y Hy).
  - apply isort_sorted; exact Ho.
  - rewrite sort_strings_perm. apply Permutation_map, Permutation_filter, isort_perm.
Qed.

(** The namespaces payload carries names, not objects: the count the report compares is the
    count of all namespaces, the system ones included. *)
Lemma system_namespaces_counted r c nsList o :
  clusterView r "namespaces" c = (list_to_map (ns_members (list_namespaces nsList)), o) -> seen o = true ->
  (Z.of_nat (length nsList) <= 2 ^ 53)%Z ->
  countNonSystemNamespaces r c = (Z.of_nat (length nsList), o).
Proof.
  intros Hv Ho Hn. unfold countNonSystemNamespaces. rewrite Hv, Ho. cbn [negb].
  assert (Hm : (list_to_map (ns_members (list_namespaces nsList)) : obj) !! "namespaces"%string = None /\
    (list_to_map (ns_members (list_namespaces nsList)) : obj) !! "count"%string = Some (count_json (length nsList))).
  { unfold ns_members. by destruct (size (nsd_Labels (list_namespaces nsList)) =? 0). }
  destruct Hm as [-> ->]. cbn [util_Float64 count_json]. by rewrite f_to_int_of_Z by lia.
Qed.

(** *** Pod Security labels *)

Definition unlabeled (ns : Namespace) : bool := String.eqb (label ns labelEnforce) "".
Definition set_privileged (ns : Namespace) : bool := String.eqb (label ns labelEnforce) levelPrivileged.

Lemma security_member (s : NamespaceSecurity) :
  (list_to_map (security_members s) : obj) !! "namespace"%string = Some (JStr (sec_Namespace s)) /\
  get_str (list_to_map (security_members s)) "enforce" = sec_Enforce s.
Proof.
  unfold security_members, text_member, get_str.
  destruct (String.eqb_spec (sec_Enforce s) "") as [->|], (String.eqb (sec_EnforceVersion s) ""), (String.eqb (sec_Audit s) ""),
    (String.eqb (sec_AuditVersion s) ""), (String.eqb (sec_Warn s) ""), (String.eqb (sec_WarnVersion s) ""); split; reflexivity.
Qed.

Lemma unenforced_read (s : NamespaceSecurity) : unenforced_of (list_to_map (security_members s)) =
  if String.eqb (sec_Namespace s) "" || Enforced (sec_Enforce s) then None else Some (String.eqb (sec_Enforce s) "", sec_Namespace s).
Proof.
  destruct (security_member s) as [Hn He]. unfold unenforced_of. rewrite He.
  assert (Hn' : get_str (list_to_map (security_members s)) "namespace" = sec_Namespace s) by (unfold get_str; by rewrite Hn).
  by rewrite Hn'.
Qed.

Lemma enforced_cases (ns : Namespace) : Enforced (label ns labelEnforce) = negb (unlabeled ns) && negb (set_privileged ns).
Proof. done. Qed.

(** The two lists the report splits the unenforced namespaces into. *)
Lemma unenforced_split (secs : list NamespaceSecurity) : Forall (fun s => sec_Namespace s <> ""%string) secs ->
  let found := omap unenforced_of (map (fun s => list_to_map (security_members s)) secs) in
  map snd (List.filter fst found) = map sec_Namespace (List.filter (fun s => String.eqb (sec_Enforce s) "") secs) /\
  map snd (List.filter (fun p => negb (fst p)) found) =
    map sec_Namespace (List.filter (fun s => String.eqb (sec_Enforce s) levelPrivileged) secs).
Proof.
  cbv zeta. induction 1 as [|s l Hs Hl [IH1 IH2]]; [done|]. cbn [map omap list_omap List.filter]. rewrite unenforced_read.
  rewrite (proj2 (String.eqb_neq _ _) Hs). cbn [orb]. unfold Enforced.
  destruct (String.eqb_spec (sec_Enforce s) "") as [E|E]; cbn [negb andb fst snd List.filter map].
  - rewrite E. cbn [String.eqb levelPrivileged Ascii.eqb Bool.eqb]. cbn. split; [by f_equal|done].
  - destruct (String.eqb (sec_Enforce s) levelPrivileged); cbn [negb fst snd List.filter map]; split; try done. by f_equal.
Qed.

Definition ns_names (p : Namespace -> bool) (nsList : list Namespace) : list string :=
  sort_strings (map ns_Name (List.filter p nsList)).

Lemma ns_names_le p nsList : length (ns_names p nsList) <= length nsList.
Proof. unfold ns_names. rewrite sort_strings_perm, length_map. apply filter_length_le. Qed.

Lemma security_names (q : string -> bool) nsList :
  map sec_Namespace (List.filter (fun s => q (sec_Enforce s)) (psd_Namespaces (list_security nsList))) =
  ns_names (fun ns => q (label ns labelEnforce)) nsList.
Proof.
  cbn [list_security psd_Namespaces]. rewrite filter_sorted_names. unfold ns_names. f_equal.
  induction nsList as [|ns l IH]; [done|]. cbn [map List.filter sec_Enforce security_of].
  destruct (q (label ns labelEnforce)); cbn [map]; [f_equal|]; exact IH.
Qed.

Lemma unenforced_names r c nsList o :
  clusterView r "security" c = (list_to_map (psa_members (list_security nsList)), o) -> seen o = true ->
  Forall (fun ns => ns_Name ns <> ""%string) nsList ->
  unenforcedNamespaces r c = (ns_names unlabeled nsList, ns_names set_privileged nsList).
Proof.
  intros Hv Ho Hne. unfold unenforcedNamespaces. rewrite Hv, Ho. cbn [negb].
  rewrite (objects_listed security_members _ _ (psd_Namespaces (list_security nsList))) by reflexivity.
  destruct (unenforced_split (psd_Namespaces (list_security nsList))) as [H1 H2].
  { cbn [list_security psd_Namespaces]. apply List.Forall_forall. intros s Hs%list_elem_of_In%isort_elem_of.
    apply list_elem_of_In, in_map_iff in Hs as (ns & <- & Hns). rewrite List.Forall_forall in Hne. by apply Hne. }
  rewrite H1, H2. f_equal; [exact (security_names (fun e => String.eqb e "") nsList)|].
  exact (security_names (fun e => String.eqb e levelPrivileged) nsList).
Qed.

(** *** Network policies *)

Definition covered (npList : list NetworkPolicy) (ns : Namespace) : bool :=
  existsb (fun p => String.eqb (np_Namespace p) (ns_Name ns)) npList.

Lemma covered_in npList ns : covered npList ns = true <-> ns_Name ns ∈ map np_Namespace npList.
Proof.
  unfold covered. rewrite existsb_exists. split.
  - intros (p & Hp & E%String.eqb_eq). rewrite <- E. apply list_elem_of_In. by apply in_map.
  - intros (p & E & Hp)%list_elem_of_In%in_map_iff. exists p. split; [done|]. by apply String.eqb_eq.
Qed.

Lemma covered_count npList nsList : NoDup (map ns_Name nsList) ->
  (forall p, p ∈ npList -> np_Namespace p ∈ map ns_Name nsList) ->
  length (List.filter (covered npList) nsList) = namespaces_of (map np_Namespace npList).
Proof.
  intros Hd Hin. unfold namespaces_of. rewrite <- (length_map ns_Name).
  rewrite <- (size_list_to_set (C := gset string)).
  - f_equal. apply leibniz_equiv. intros x. rewrite !elem_of_list_to_set. split.
    + intros (ns & <- & [_ Hc]%filter_In)%list_elem_of_In%in_map_iff. by apply covered_in.
    + intros (p & <- & Hp)%list_elem_of_In%in_map_iff. apply list_elem_of_In in Hp.
      specialize (Hin p Hp). apply list_elem_of_In, in_map_iff in Hin as (ns & E & Hns).
      apply list_elem_of_In. rewrite <- E. apply in_map, filter_In. split; [done|]. apply covered_in. rewrite E.
      by apply list_elem_of_fmap_2.
  - clear Hin. induction nsList as [|ns l IH]; [constructor|]. cbn [map List.filter] in *.
    apply NoDup_cons in Hd as [Hns Hd]. destruct (covered npList ns); [|by apply IH]. cbn [map]. apply NoDup_cons. split; [|by apply IH].
    intros (ns' & E & [Hl _]%filter_In)%list_elem_of_In%in_map_iff. apply Hns. rewrite <- E. apply list_elem_of_In. by apply in_map.
Qed.

Lemma filter_partition {A} (p : A -> bool) l : length (List.filter p l) + length (List.filter (fun x => negb (p x)) l) = length l.
Proof. induction l as [|x l IH]; [done|]. cbn [List.filter]. destruct (p x); cbn [negb length]; lia. Qed.

Module Posture.

(** Pod Security findings charge the namespaces no one labeled, and no others. For the
    payload the security scanner writes for a list of namespaces, the report makes one
    finding when some namespace has no enforce label: it counts those, lists their names in
    order and after them the ones set to privileged on purpose, ten at most before the
    count of the rest, and it is critical when they are more than half of all namespaces.
    That every namespace is unlabeled is claimed only from a completed run. *)
Theorem psa_finding_exact r c nsList o :
  clusterView r "security" c = (list_to_map (psa_members (list_security nsList)), o) -> seen o = true ->
  Forall (fun ns => ns_Name ns <> ""%string) nsList -> (Z.of_nat (length nsList) <= 2 ^ 53)%Z ->
  let open := ns_names unlabeled nsList in
  map (fun f => (fi_Affected f, fi_Severity f)) (psa_finding r c) =
  if (length open =? 0) || ((length open =? length nsList) && negb (bool_decide (o = observed))) then []
  else [(capList (open ++ ns_names set_privileged nsList),
         if above (pct_of (zlen open) (zlen nsList)) 50 then SeverityCritical else SeverityWarning)].
Proof.
  intros Hv Ho Hne Hlen open. unfold psa_finding. rewrite (unenforced_names r c nsList o Hv Ho Hne). fold open.
  rewrite (observed_count r "security" c _ o "namespace_count" (length nsList) Hv Ho) by (reflexivity || done).
  pose proof (ns_names_le unlabeled nsList) as Hle. fold open in Hle. rewrite Hv. cbn [snd]. rewrite Ho. cbn [negb orb andb].
  replace (weakest [o; o]) with o by (by destruct o).
  assert (E0 : (zlen open =? 0)%Z = (length open =? 0)) by
    (unfold zlen; destruct (Z.eqb_spec (Z.of_nat (length open)) 0), (Nat.eqb_spec (length open) 0); lia).
  assert (Et : (zlen open =? Z.of_nat (length nsList))%Z = (length open =? length nsList)) by
    (unfold zlen; destruct (Z.eqb_spec (Z.of_nat (length open)) (Z.of_nat (length nsList))), (Nat.eqb_spec (length open) (length nsList)); lia).
  rewrite E0, Et. destruct (Nat.eqb_spec (length open) 0) as [|Hpos]; [done|]. cbn [orb].
  rewrite (proj2 (Z.ltb_lt _ _)) by lia. cbn [andb]. destruct (_ && _)%bool; [done|].
  rewrite (proj2 (Z.leb_le _ _)) by (unfold zlen; lia). done.
Qed.

(** The network policy finding counts the namespaces no policy selects pods in. For the
    payload of a completed run, on policies that are in the listed namespaces, it is made
    exactly when some listed namespace has no policy, and names their number. *)
Theorem no_policy_exact r c npList nsList :
  clusterView r "network-policies" c = (list_to_map (np_members (list_policies npList nsList)), observed) ->
  NoDup (map ns_Name nsList) -> (forall p, p ∈ npList -> np_Namespace p ∈ map ns_Name nsList) ->
  (Z.of_nat (length nsList) <= 2 ^ 53)%Z ->
  let bare := length (List.filter (fun ns => negb (covered npList ns)) nsList) in
  map said (network_finding r c) =
  if bare =? 0 then []
  else [("network-policies/no-policy", c ++ " has " ++ itoa (Z.of_nat bare) ++ " namespace(s) with no network policies", [])]%string.
Proof.
  intros Hv Hd Hin Hlen bare. pose proof (covered_count npList nsList Hd Hin) as Hc.
  pose proof (filter_partition (covered npList) nsList) as Hsum. fold bare in Hsum.
  unfold network_finding. rewrite (observed_count r "network-policies" c _ observed "namespaces_without_policies" bare Hv eq_refl).
  - rewrite bool_decide_eq_true_2 by done. unfold when. cbn [andb].
    destruct (Nat.eqb_spec bare 0) as [->|Hb]; [done|]. by rewrite (proj2 (Z.ltb_lt _ _)) by lia.
  - transitivity (Some (JNum (f_of_Z (npd_NamespacesWithoutPolicies (list_policies npList nsList))))); [reflexivity|].
    unfold count_json. do 3 f_equal. cbn [list_policies npd_NamespacesWithoutPolicies]. lia.
  - lia.
Qed.

Definition labeled (n level : string) : Namespace :=
  {| ns_Name := n; ns_Labels := if String.eqb level "" then ∅ else {[ labelEnforce := level ]} |}.

Definition four_namespaces : list Namespace :=
  [labeled "web" ""; labeled "db" "restricted"; labeled "ops" "privileged"; labeled "api" ""].

Definition posture_report : Report := one_section "security" (JObj (psa_members (list_security four_namespaces))).

Lemma psa_finding_exact_witness :
  clusterView posture_report "security" "c1" = (list_to_map (psa_members (list_security four_namespaces)), observed) /\
  map (fun f => (fi_Affected f, fi_Severity f)) (psa_finding posture_report "c1") =
    [(["api"; "web"; "ops"]%string, SeverityWarning)].
Proof.
  assert (Hv : clusterView posture_report "security" "c1" =
    (list_to_map (psa_members (list_security four_namespaces)), observed)) by reflexivity.
  split; [exact Hv|].
  rewrite (psa_finding_exact posture_report "c1" four_namespaces observed Hv eq_refl); [vm_compute; reflexivity| |].
  - repeat constructor; discriminate.
  - vm_compute. discriminate.
Defined.

Definition web_policy : NetworkPolicy :=
  {| np_Namespace := "web"; np_Name := "deny"; np_Types := ["Ingress"]; np_IngressRules := 0; np_EgressRules := 0 |}.

Definition policy_report : Report :=
  one_section "network-policies" (JObj (np_members (list_policies [web_policy; web_policy] four_namespaces))).

Lemma no_policy_exact_witness :
  clusterView policy_report "network-policies" "c1" =
    (list_to_map (np_members (list_policies [web_policy; web_policy] four_namespaces)), observed) /\
  map said (network_finding policy_report "c1") =
    [("network-policies/no-policy", "c1 has 3 namespace(s) with no network policies", [])]%string.
Proof.
  assert (Hv : clusterView policy_report "network-policies" "c1" =
    (list_to_map (np_members (list_policies [web_policy; web_policy] four_namespaces)), observed)) by reflexivity.
  split; [exact Hv|].
  rewrite (no_policy_exact policy_report "c1" [web_policy; web_policy] four_namespaces Hv); [vm_compute; reflexivity| | |].
  - apply (bool_decide_unpack (NoDup _)). vm_compute. exact I.
  - intros p Hp. apply list_elem_of_In in Hp as [<-|[<-|[]]]; left.
  - vm_compute. discriminate.
Defined.

End Posture.
