(* ===== verification/Rbac.v ===== *)
(** * internal/scanner: rbac and rbacaudit

    The RBAC graph of a cluster, the bindings that grant too much, and the findings read back
    from the audit. The objects are records of the fields a scanner reads, and the kind of
    the role a binding names, which the audit does not read. *)

From Stdlib Require Import ZArith Lia String Ascii Sorted.
From stdpp Require Import base gmap strings list sets.
From S2P Require Import Prelude Maps Float64 Text Data Observe Findings Finders FindHealth FindSecurity Scan Payload.

Local Open Scope nat_scope.

Record PolicyRule := { pr_Verbs : list string; pr_Resources : list string; pr_APIGroups : list string }.

(** ClusterRole and Role; the former has no namespace. *)
Record Role := { ro_Namespace : string; ro_Name : string; ro_Rules : list PolicyRule }.

Record Subject := { sj_Kind : string; sj_Namespace : string; sj_Name : string }.

(** ClusterRoleBinding and RoleBinding. *)
Record Binding := {
  bd_Namespace : string; bd_Name : string; bd_Labels : gmap string string; bd_RoleKind : string; bd_RoleRef : string;
  bd_Subjects : list Subject }.

(** ** rbac.go *)

Record RoleInfo := { ri_Kind : string; ri_Namespace : string; ri_Name : string; ri_RuleCount : nat }.

Record BindingInfo := {
  bi_Kind : string; bi_Namespace : string; bi_Name : string; bi_RoleRef : string; bi_SubjectCount : nat }.

Record RbacData := {
  rbd_ClusterRoleCount : nat; rbd_RoleCount : nat; rbd_ClusterRoleBindingCount : nat; rbd_RoleBindingCount : nat;
  rbd_Roles : list RoleInfo; rbd_Bindings : list BindingInfo }.

Definition role_info (kind : string) (r : Role) : RoleInfo :=
  {| ri_Kind := kind; ri_Namespace := if String.eqb kind "Role" then ro_Namespace r else ""%string;
     ri_Name := ro_Name r; ri_RuleCount := length (ro_Rules r) |}.

Definition binding_info (kind : string) (b : Binding) : BindingInfo :=
  {| bi_Kind := kind; bi_Namespace := if String.eqb kind "RoleBinding" then bd_Namespace b else ""%string;
     bi_Name := bd_Name b; bi_RoleRef := bd_RoleRef b; bi_SubjectCount := length (bd_Subjects b) |}.

(** [sort.Slice] by kind, then name, which leaves equal names of different namespaces in
    some order: a stable sort of an arrangement of its input. *)
Definition by_kind {A} (kind name : A -> string) : A -> A -> comparison :=
  cmp_lex (cmp_on kind String.compare) (cmp_on name String.compare).

Definition list_rbac (arrange_roles : list RoleInfo -> list RoleInfo) (arrange_bindings : list BindingInfo -> list BindingInfo)
  (crList rList : list Role) (crbList rbList : list Binding) : RbacData := {|
  rbd_ClusterRoleCount := length crList;
  rbd_RoleCount := length rList;
  rbd_ClusterRoleBindingCount := length crbList;
  rbd_RoleBindingCount := length rbList;
  rbd_Roles := isort (less_of (by_kind ri_Kind ri_Name))
    (arrange_roles (map (role_info "ClusterRole") crList ++ map (role_info "Role") rList));
  rbd_Bindings := isort (less_of (by_kind bi_Kind bi_Name))
    (arrange_bindings (map (binding_info "ClusterRoleBinding") crbList ++ map (binding_info "RoleBinding") rbList)) |}.

Definition role_members (r : RoleInfo) : list (string * json) :=
  [("kind", JStr (ri_Kind r))] ++ text_member "namespace" (ri_Namespace r) ++
  [("name", JStr (ri_Name r)); ("rule_count", count_json (ri_RuleCount r))].

Definition binding_members (b : BindingInfo) : list (string * json) :=
  [("kind", JStr (bi_Kind b))] ++ text_member "namespace" (bi_Namespace b) ++
  [("name", JStr (bi_Name b)); ("role_ref", JStr (bi_RoleRef b)); ("subject_count", count_json (bi_SubjectCount b))].

Definition rbac_members (d : RbacData) : list (string * json) := [
  ("cluster_role_count", count_json (rbd_ClusterRoleCount d)); ("role_count", count_json (rbd_RoleCount d));
  ("cluster_role_binding_count", count_json (rbd_ClusterRoleBindingCount d));
  ("role_binding_count", count_json (rbd_RoleBindingCount d));
  ("roles", list_json (fun r => JObj (role_members r)) (rbd_Roles d));
  ("bindings", list_json (fun b => JObj (binding_members b)) (rbd_Bindings d))].

Definition RbacScanner {E} `{!ApiError E} (arrange_roles : list RoleInfo -> list RoleInfo)
  (arrange_bindings : list BindingInfo -> list BindingInfo) (clusterRoles roles : list Role + E)
  (clusterRoleBindings roleBindings : list Binding + E) : Result * option coverageError :=
  let '(cov, crList) := required_list coverage_empty "cluster roles" clusterRoles in
  let '(cov, rList) := required_list cov "roles" roles in
  let '(cov, crbList) := required_list cov "cluster role bindings" clusterRoleBindings in
  let '(cov, rbList) := required_list cov "role bindings" roleBindings in
  Finish cov "rbac" (JObj (rbac_members (list_rbac arrange_roles arrange_bindings crList rList crbList rbList))).

(** ** rbacaudit.go *)

Definition systemPrefixes : list string := ["system:"; "kubeadm:"].
Definition systemBindingLabel : string := "kubernetes.io/bootstrapping".
Definition openSubjects : list string := ["system:unauthenticated"; "system:anonymous"].

Record RiskBinding := {
  rk_Kind : string; rk_Name : string; rk_Namespace : string; rk_RoleRef : string; rk_Subjects : list string;
  rk_Risks : list string }.

Record AuditData := {
  ad_WildcardRules : nat; ad_ClusterAdminBindings : nat; ad_DefaultSABindings : nat; ad_AutomountTokenPods : nat;
  ad_RoleBindingsAudited : nat; ad_RiskBindings : list RiskBinding }.

Definition is_among (s : string) (l : list string) : bool := existsb (String.eqb s) l.

Definition isSystemBinding (b : Binding) : bool :=
  if existsb (fun s => is_among (sj_Name s) openSubjects) (bd_Subjects b) then false
  else bool_decide (is_Some (bd_Labels b !! systemBindingLabel)) ||
       existsb (fun prefix => String.prefix prefix (bd_Name b)) systemPrefixes.

Definition ruleHasWildcard (items : list string) : bool := is_among "*" items.

Definition wildcard_rule (rule : PolicyRule) : bool :=
  ruleHasWildcard (pr_Verbs rule) || ruleHasWildcard (pr_Resources rule) || ruleHasWildcard (pr_APIGroups rule).

Definition wildcard_rules (crList : list Role) : list PolicyRule :=
  List.filter wildcard_rule (flat_map ro_Rules crList).

(** The names of the cluster roles with such a rule. *)
Definition wildcardRoles (crList : list Role) : list string :=
  map ro_Name (List.filter (fun cr => existsb wildcard_rule (ro_Rules cr)) crList).

Definition subject_name (s : Subject) : string := (sj_Kind s ++ ":" ++ sj_Namespace s ++ "/" ++ sj_Name s)%string.

Definition grants_default_sa (b : Binding) : bool :=
  existsb (fun s => String.eqb (sj_Kind s) "ServiceAccount" && String.eqb (sj_Name s) "default") (bd_Subjects b).

Definition grants_admin (b : Binding) : bool := String.eqb (bd_RoleRef b) "cluster-admin" && negb (isSystemBinding b).

Definition grants_wildcard (wild : list string) (b : Binding) : bool :=
  is_among (bd_RoleRef b) wild && negb (isSystemBinding b).

Definition binding_risks (wild : list string) (b : Binding) : list string :=
  (if grants_admin b then ["cluster-admin-to-non-system"%string] else []) ++
  (if grants_default_sa b then ["grants-to-default-sa"%string] else []) ++
  (if grants_wildcard wild b then ["wildcard-role"%string] else []).

Definition risk_binding (wild : list string) (kind : string) (b : Binding) : option RiskBinding :=
  match binding_risks wild b with
  | [] => None
  | risks => Some {|
      rk_Kind := kind; rk_Name := bd_Name b;
      rk_Namespace := if String.eqb kind "RoleBinding" then bd_Namespace b else ""%string;
      rk_RoleRef := bd_RoleRef b; rk_Subjects := map subject_name (bd_Subjects b); rk_Risks := risks |}
  end.

Definition compareRiskBindings : RiskBinding -> RiskBinding -> comparison :=
  cmp_lex (cmp_rev (cmp_on (fun b => length (rk_Risks b)) Nat.compare))
    (cmp_lex (cmp_on rk_Kind String.compare)
       (cmp_lex (cmp_on rk_Namespace String.compare) (cmp_on rk_Name String.compare))).

(** Every binding with a risk, before the cut. *)
Definition risky_bindings (crList : list Role) (crbList rbList : list Binding) : list RiskBinding :=
  omap (risk_binding (wildcardRoles crList) "ClusterRoleBinding") crbList ++
  omap (risk_binding (wildcardRoles crList) "RoleBinding") rbList.

(** A pod keeps the token unless its spec says [false]. *)
Definition automounts (pod : option bool) : bool := default true pod.

Definition audit_rbac (crList : list Role) (crbList rbList : list Binding) (pods : list (option bool)) : AuditData := {|
  ad_WildcardRules := length (wildcard_rules crList);
  ad_ClusterAdminBindings := length (List.filter grants_admin (crbList ++ rbList));
  ad_DefaultSABindings := length (List.filter grants_default_sa (crbList ++ rbList));
  ad_AutomountTokenPods := length (List.filter automounts pods);
  ad_RoleBindingsAudited := length rbList;
  ad_RiskBindings := TopN (risky_bindings crList crbList rbList) 30 compareRiskBindings |}.

Definition risk_members (b : RiskBinding) : list (string * json) :=
  [("kind", JStr (rk_Kind b)); ("name", JStr (rk_Name b))] ++ text_member "namespace" (rk_Namespace b) ++
  [("role_ref", JStr (rk_RoleRef b)); ("subjects", strings_json (rk_Subjects b)); ("risks", strings_json (rk_Risks b))].

Definition audit_members (d : AuditData) : list (string * json) := [
  ("wildcard_rules", count_json (ad_WildcardRules d)); ("cluster_admin_bindings", count_json (ad_ClusterAdminBindings d));
  ("default_sa_bindings", count_json (ad_DefaultSABindings d)); ("automount_token_pods", count_json (ad_AutomountTokenPods d));
  ("role_bindings_audited", count_json (ad_RoleBindingsAudited d));
  ("risk_bindings", list_json (fun b => JObj (risk_members b)) (ad_RiskBindings d))].

Definition RbacAuditScanner {E} `{!ApiError E} (clusterRoles : list Role + E)
  (clusterRoleBindings roleBindings : list Binding + E) (pods : list (option bool) + E) : Result * option coverageError :=
  let '(cov, crList) := required_list coverage_empty "cluster roles" clusterRoles in
  let '(cov, crbList) := required_list cov "cluster role bindings" clusterRoleBindings in
  let '(cov, rbList) := optional_list cov "role bindings" roleBindings in
  let '(cov, podList) := optional_list cov "pods" pods in
  Finish cov "rbac-audit" (JObj (audit_members (audit_rbac crList crbList rbList podList))).

(** ** Facts *)

(** The kind of the role is not read: a binding to a namespaced Role named cluster-admin, or
    named like a cluster role with a wildcard, carries the same risks. *)
Definition refer (kind : string) (b : Binding) : Binding :=
  {| bd_Namespace := bd_Namespace b; bd_Name := bd_Name b; bd_Labels := bd_Labels b; bd_RoleKind := kind;
     bd_RoleRef := bd_RoleRef b; bd_Subjects := bd_Subjects b |}.

Lemma role_kind_ignored kind crList crbList rbList pods :
  audit_rbac crList crbList (map (refer kind) rbList) pods = audit_rbac crList crbList rbList pods.
Proof.
  assert (Ho : forall wild k, omap (risk_binding wild k) (map (refer kind) rbList) = omap (risk_binding wild k) rbList).
  { intros wild k. by rewrite omap_map. }
  assert (Hf : forall p : Binding -> bool, (forall b, p (refer kind b) = p b) ->
    length (List.filter p (crbList ++ map (refer kind) rbList)) = length (List.filter p (crbList ++ rbList))).
  { intros p Hp. rewrite !List.filter_app, !length_app, filter_map_comm, length_map. f_equal. f_equal.
    apply filter_ext. exact Hp. }
  unfold audit_rbac, risky_bindings. rewrite Ho, length_map, !Hf by (intros []; done). done.
Qed.

Definition adminTag : string := "cluster-admin-to-non-system".
Definition defaultTag : string := "grants-to-default-sa".

Lemma admin_tagged wild b : is_among adminTag (binding_risks wild b) = grants_admin b.
Proof. unfold binding_risks. by destruct (grants_admin b), (grants_default_sa b), (grants_wildcard wild b). Qed.

Lemma default_tagged wild b : is_among defaultTag (binding_risks wild b) = grants_default_sa b.
Proof. unfold binding_risks. by destruct (grants_admin b), (grants_default_sa b), (grants_wildcard wild b). Qed.

Lemma tagged_names tag wild kind l :
  map rk_Name (List.filter (fun k => is_among tag (rk_Risks k)) (omap (risk_binding wild kind) l)) =
  map bd_Name (List.filter (fun b => is_among tag (binding_risks wild b)) l).
Proof.
  induction l as [|b l IH]; [done|]. csimpl. unfold risk_binding at 1. destruct (binding_risks wild b) as [|x risks] eqn:E; [exact IH|].
  cbn [List.filter rk_Risks]. destruct (is_among tag (x :: risks)); cbn [map rk_Name]; by rewrite IH.
Qed.

(** The names a tag is shown with, and those the cut leaves out. *)
Definition shown (tag : string) (d : AuditData) : list string :=
  map rk_Name (List.filter (fun k => is_among tag (rk_Risks k)) (ad_RiskBindings d)).

Lemma shown_parts tag (p : Binding -> bool) crList crbList rbList pods :
  (forall wild b, is_among tag (binding_risks wild b) = p b) ->
  exists hidden, shown tag (audit_rbac crList crbList rbList pods) ++ hidden ≡ₚ map bd_Name (List.filter p (crbList ++ rbList)) /\
    (length (risky_bindings crList crbList rbList) <= 30 -> hidden = []).
Proof.
  intros Hp. destruct (topn_parts (risky_bindings crList crbList rbList) 30 compareRiskBindings) as (hidden & Hperm & Hshort).
  exists (map rk_Name (List.filter (fun k => is_among tag (rk_Risks k)) hidden)). split; [|by intros ->%Hshort].
  unfold shown. cbn [audit_rbac ad_RiskBindings]. rewrite <- map_app, <- List.filter_app, (Permutation_filter _ _ _ Hperm).
  unfold risky_bindings. rewrite List.filter_app, map_app, !tagged_names, <- map_app, <- List.filter_app.
  apply eq_subrelation; [exact _|]. f_equal. apply filter_ext. intros b. apply Hp.
Qed.

Lemma risks_read r c d o : clusterView r "rbac-audit" c = (list_to_map (audit_members d), o) -> seen o = true ->
  riskBindings r c = map (fun k => {| rb_Name := rk_Name k; rb_Kind := rk_Kind k; rb_Namespace := rk_Namespace k;
                                      rb_Risks := rk_Risks k |}) (ad_RiskBindings d).
Proof.
  intros Hv Ho. unfold riskBindings. rewrite Hv, Ho. cbn [negb].
  rewrite (objects_listed risk_members _ "risk_bindings" (ad_RiskBindings d)) by reflexivity. rewrite map_map.
  apply map_ext. intros k. unfold risk_members, text_member, get_str, get_arr.
  destruct (String.eqb_spec (rk_Namespace k) "") as [En|En]; cbn; rewrite ?En; f_equal; apply strings_read.
Qed.

Lemma shown_read r c d o tag : clusterView r "rbac-audit" c = (list_to_map (audit_members d), o) -> seen o = true ->
  filterBindingsByRisk (riskBindings r c) tag = capList (shown tag d).
Proof.
  intros Hv Ho. rewrite (risks_read r c d o Hv Ho). unfold filterBindingsByRisk, shown. f_equal.
  by rewrite filter_map_comm, map_map.
Qed.

Module Bindings.

(** What the report says of a number of bindings. *)
Definition charge_lines (rule what c : string) (n : nat) (names : list string) : list (string * string * list string) :=
  if n =? 0 then [] else [(rule, (c ++ " has " ++ itoa (Z.of_nat n) ++ " " ++ what)%string, capList names)].

Lemma charged_when o rule what c n names desc sev rem : seen o = true ->
  map said (when (seen o && (0 <? Z.of_nat n)%Z)
    (rbac_finding rule (c ++ " has " ++ itoa (Z.of_nat n) ++ " " ++ what) desc sev c (capList names) rem)) =
  charge_lines ("rbac-audit/" ++ rule) what c n names.
Proof.
  intros ->. unfold charge_lines. destruct (Nat.eqb_spec n 0) as [->|Hn]; [done|]. by rewrite (proj2 (Z.ltb_lt _ _)) by lia.
Qed.

(** The RBAC findings charge the bindings that carry the risk, and count each once. For
    the payload the audit writes, the report counts the bindings of cluster-admin that are
    not system bindings, the wildcard rules, and the bindings of a default service account,
    cluster-wide and namespaced alike; a count of zero makes no finding. The bindings it
    lists are among those counted, and all of them when at most thirty bindings are risky. *)
Theorem rbac_findings_exact r c crList crbList rbList pods o :
  let audit := audit_rbac crList crbList rbList pods in
  let bindings := crbList ++ rbList in
  clusterView r "rbac-audit" c = (list_to_map (audit_members audit), o) -> seen o = true ->
  (Z.of_nat (length bindings + length (flat_map ro_Rules crList)) <= 2 ^ 53)%Z ->
  map said (rbac_audit_findings r c) =
    charge_lines "rbac-audit/cluster-admin-binding" "non-system cluster-admin binding(s)" c
      (length (List.filter grants_admin bindings)) (shown adminTag audit) ++
    charge_lines "rbac-audit/wildcard-rule" "RBAC rule(s) with wildcard permissions" c (length (wildcard_rules crList)) [] ++
    charge_lines "rbac-audit/default-sa-binding" "binding(s) granting permissions to a default service account" c
      (length (List.filter grants_default_sa bindings)) (shown defaultTag audit) /\
  (forall tag p, In (tag, p) [(adminTag, grants_admin); (defaultTag, grants_default_sa)] ->
     exists hidden, shown tag audit ++ hidden ≡ₚ map bd_Name (List.filter p bindings) /\
       (length (risky_bindings crList crbList rbList) <= 30 -> hidden = [])).
Proof.
  intros audit bindings Hv Ho Hlen. split.
  - assert (Hcount : forall key n, (list_to_map (audit_members audit) : obj) !! key = Some (count_json n) ->
      n <= length bindings + length (flat_map ro_Rules crList) -> observeInt r "rbac-audit" c key = (Z.of_nat n, o)).
    { intros key n Hk Hn. apply (observed_count r "rbac-audit" c _ o key n Hv Ho Hk). lia. }
    unfold rbac_audit_findings.
    pose proof (filter_length_le grants_admin bindings). pose proof (filter_length_le grants_default_sa bindings).
    pose proof (filter_length_le wildcard_rule (flat_map ro_Rules crList)).
    rewrite (Hcount "cluster_admin_bindings" (length (List.filter grants_admin bindings))) by (reflexivity || lia).
    rewrite (Hcount "wildcard_rules" (length (wildcard_rules crList))) by (reflexivity || unfold wildcard_rules; lia).
    rewrite (Hcount "default_sa_bindings" (length (List.filter grants_default_sa bindings))) by (reflexivity || lia).
    rewrite !(shown_read r c audit o _ Hv Ho), !map_app. f_equal; [|f_equal]; [by apply charged_when| |by apply charged_when].
    by apply (charged_when o "wildcard-rule" _ c (length (wildcard_rules crList)) []).
  - intros tag p [[= <- <-]|[[= <- <-]|[]]]; apply shown_parts; [apply admin_tagged|apply default_tagged].
Qed.

Definition grant (name role : string) (who : Subject) : Binding :=
  {| bd_Namespace := ""; bd_Name := name; bd_Labels := ∅; bd_RoleKind := "ClusterRole"; bd_RoleRef := role; bd_Subjects := [who] |}.

Definition robot : Subject := {| sj_Kind := "ServiceAccount"; sj_Namespace := "ci"; sj_Name := "default" |}.
Definition person : Subject := {| sj_Kind := "User"; sj_Namespace := ""; sj_Name := "ann" |}.

Definition all_verbs : Role :=
  {| ro_Namespace := ""; ro_Name := "ops"; ro_Rules := [{| pr_Verbs := ["*"]; pr_Resources := ["pods"]; pr_APIGroups := [""] |}] |}.

Definition three_bindings : list Binding :=
  [grant "ann-admin" "cluster-admin" person; grant "system:masters" "cluster-admin" person; grant "ci" "ops" robot].

Definition audit_sample : AuditData := audit_rbac [all_verbs] three_bindings [] [None; Some false].

Definition audit_report : Report := one_section "rbac-audit" (JObj (audit_members audit_sample)).

Lemma rbac_findings_exact_witness :
  clusterView audit_report "rbac-audit" "c1" = (list_to_map (audit_members audit_sample), observed) /\
  map said (rbac_audit_findings audit_report "c1") =
    [("rbac-audit/cluster-admin-binding", "c1 has 1 non-system cluster-admin binding(s)", ["ann-admin"]);
     ("rbac-audit/wildcard-rule", "c1 has 1 RBAC rule(s) with wildcard permissions", []);
     ("rbac-audit/default-sa-binding", "c1 has 1 binding(s) granting permissions to a default service account", ["ci"])]%string.
Proof.
  assert (Hv : clusterView audit_report "rbac-audit" "c1" = (list_to_map (audit_members audit_sample), observed)) by reflexivity.
  split; [exact Hv|].
  rewrite (proj1 (rbac_findings_exact audit_report "c1" [all_verbs] three_bindings [] [None; Some false] observed Hv eq_refl
    ltac:(vm_compute; discriminate))). vm_compute. reflexivity.
Defined.

End Bindings.
