(* ===== verification/Certs.v ===== *)
(** * internal/scanner: certs and admission

    The certificates of a cluster with the days they have left, the health of its admission
    webhooks, and the findings read back from both. An instant is a number of nanoseconds
    ([GoTime]); certificate times are UTC and whole seconds. Decoding PEM and X.509 is a
    parameter. *)

From Stdlib Require Import ZArith Lia String Ascii Sorted Floats.SpecFloat.
From stdpp Require Import base gmap strings list sets.
From S2P Require Import Prelude Maps Float64 Ratio GoTime Text Data Observe Findings Finders FindHealth FindSecurity Scan Payload.

Local Open Scope Z_scope.

Record Certificate := { x5_CommonName : string; x5_NotAfter : Z }.

(** A TLS Secret has its chain under tls.crt. *)
Record Secret := { se_Namespace : string; se_Name : string; se_Type : string; se_Crt : option bytes }.

(** A webhook: the service it calls as namespace and name, or a URL. *)
Record WebhookSpec := {
  wh_Name : string; wh_Service : option (string * string); wh_URL : option string; wh_CABundle : bytes;
  wh_FailurePolicy : option string }.

Record WebhookConfiguration := { wc_Name : string; wc_Webhooks : list WebhookSpec }.

(** ** Bundles *)

Section Pem.
(** The type and the content of the first block, and what follows it. *)
Context (Decode : bytes -> option (string * bytes * bytes)) (ParseCertificate : bytes -> option Certificate).

Definition block_certs (ty : string) (der : bytes) : list Certificate :=
  if negb (String.eqb ty "CERTIFICATE") then []
  else match ParseCertificate der with Some cert => [cert] | None => [] end.

Fixpoint pem_loop (fuel : nat) (b : bytes) : list Certificate :=
  match fuel, b with
  | O, _ | _, [] => []
  | S fuel', _ =>
      match Decode b with
      | None => []
      | Some (ty, der, rest) => block_certs ty der ++ pem_loop fuel' rest
      end
  end.

Definition parsePEM (b : bytes) : list Certificate := pem_loop (length b) b.

Definition earlier (found : option Z) (cert : Certificate) : option Z :=
  match found with
  | Some earliest => if x5_NotAfter cert <? earliest then Some (x5_NotAfter cert) else found
  | None => Some (x5_NotAfter cert)
  end.

Fixpoint earliest_loop (fuel : nat) (rest : bytes) (found : option Z) : option Z :=
  match fuel, rest with
  | O, _ | _, [] => found
  | S fuel', _ =>
      match Decode rest with
      | None => found
      | Some (ty, der, next) =>
          if negb (String.eqb ty "CERTIFICATE") then earliest_loop fuel' next found
          else match ParseCertificate der with
               | None => earliest_loop fuel' next found
               | Some cert => earliest_loop fuel' next (earlier found cert)
               end
      end
  end.

Definition earliestExpiry (bundle : bytes) : option Z := earliest_loop (length bundle) bundle None.

(** [int(t.Sub(now).Hours() / 24)]. *)
Definition days_remaining (now t : Z) : Z := f_to_int (f_div (Hours (Sub t now)) (f_of_Z 24)).

(** ** certs.go *)

Record Cert := {
  ct_Name : string; ct_Namespace : string; ct_Kind : string; ct_Subject : string; ct_NotAfter : Z; ct_DaysRemaining : Z }.

Definition cert_of (now : Z) (name namespace kind : string) (cert : Certificate) : Cert := {|
  ct_Name := name; ct_Namespace := namespace; ct_Kind := kind; ct_Subject := x5_CommonName cert;
  ct_NotAfter := x5_NotAfter cert; ct_DaysRemaining := days_remaining now (x5_NotAfter cert) |}.

Definition SecretTypeTLS : string := "kubernetes.io/tls".

Definition appendSecretCerts (now : Z) (s : Secret) : list Cert :=
  if negb (String.eqb (se_Type s) SecretTypeTLS) then []
  else match se_Crt s with
       | None => []
       | Some crt => map (cert_of now (se_Name s) (se_Namespace s) "Secret") (parsePEM crt)
       end.

Definition webhook_cas (kind : string) (now : Z) (cfg : WebhookConfiguration) : list Cert :=
  flat_map (fun wh => map (cert_of now (wc_Name cfg ++ "/" ++ wh_Name wh) "" kind) (parsePEM (wh_CABundle wh)))
    (wc_Webhooks cfg).

Definition appendWebhookCAs : Z -> WebhookConfiguration -> list Cert := webhook_cas "MutatingWebhookConfiguration".
Definition appendValidatingCAs : Z -> WebhookConfiguration -> list Cert := webhook_cas "ValidatingWebhookConfiguration".

Definition criticalDays : Z := 7.
Definition warningDays : Z := 30.
Definition infoDays : Z := 90.

Record CertData := {
  cd_TotalCerts : nat; cd_Critical : nat; cd_Warning : nat; cd_Info : nat; cd_Soonest : Z; cd_Certs : list Cert }.

Definition soonest_step (soonest : Z) (c : Cert) : Z :=
  if (soonest =? -1) || (ct_DaysRemaining c <? soonest) then ct_DaysRemaining c else soonest.

Definition compareCerts : Cert -> Cert -> comparison :=
  cmp_lex (cmp_on ct_DaysRemaining Z.compare)
    (cmp_lex (cmp_on ct_Namespace String.compare)
       (cmp_lex (cmp_on ct_Name String.compare) (cmp_on ct_Kind String.compare))).

(** The certificates that expire in [lo, hi) days. *)
Definition within (lo hi : Z) (c : Cert) : bool := (lo <=? ct_DaysRemaining c) && (ct_DaysRemaining c <? hi).

Definition audit_certs (certs : list Cert) : CertData := {|
  cd_TotalCerts := length certs;
  cd_Critical := length (List.filter (fun c => ct_DaysRemaining c <? criticalDays) certs);
  cd_Warning := length (List.filter (within criticalDays warningDays) certs);
  cd_Info := length (List.filter (within warningDays infoDays) certs);
  cd_Soonest := fold_left soonest_step certs (-1);
  cd_Certs := TopN certs 100 compareCerts |}.

Definition cert_entry (c : Cert) : list (string * json) :=
  [("name", JStr (ct_Name c))] ++ text_member "namespace" (ct_Namespace c) ++ [("kind", JStr (ct_Kind c))] ++
  text_member "subject" (ct_Subject c) ++
  [("not_after", JStr (RFC3339 (ct_NotAfter c))); ("days_remaining", int_json (ct_DaysRemaining c))].

Definition cert_members (d : CertData) : list (string * json) := [
  ("total_certs", count_json (cd_TotalCerts d)); ("critical", count_json (cd_Critical d));
  ("warning", count_json (cd_Warning d)); ("info", count_json (cd_Info d)); ("soonest_days", int_json (cd_Soonest d));
  ("certs", list_json (fun c => JObj (cert_entry c)) (cd_Certs d))].

Definition CertScanner {E} `{!ApiError E} (now : Z) (secrets : list Secret + E) (mutating validating : list WebhookConfiguration + E) :
  Result * option coverageError :=
  let '(cov, secrets) := optional_list coverage_empty "secrets" secrets in
  let '(cov, mwh) := optional_list cov "mutating webhook configurations" mutating in
  let '(cov, vwh) := optional_list cov "validating webhook configurations" validating in
  Finish cov "certs" (JObj (cert_members (audit_certs
    (flat_map (appendSecretCerts now) secrets ++ flat_map (appendWebhookCAs now) mwh ++ flat_map (appendValidatingCAs now) vwh)))).

(** ** admission.go *)

Definition caExpirySoonDays : Z := 30.

Record Webhook := {
  we_Configuration : string; we_Webhook : string; we_Type : string; we_Service : string; we_URL : string;
  we_EndpointsHealthy : bool; we_FailurePolicy : string; we_CABundleNotAfter : Z; we_CABundleDaysRemaining : Z;
  we_EndpointsUnknown : bool }.

Record WebhookData := {
  wd_TotalWebhooks : nat; wd_UnhealthyWebhooks : nat; wd_ExpiringCABundles : nat; wd_FailClosedWebhooks : nat;
  wd_Webhooks : list Webhook }.

Section Endpoints.
(** The read of a service's Endpoints object: the number of ready addresses of each subset. *)
Context {E : Type} `{!ApiError E} (Endpoints : string -> string -> list nat + E).

Definition endpointsHealthy (namespace name : string) : bool * option E :=
  match Endpoints namespace name with
  | inr err => if IsNotFound err then (false, None) else (false, Some err)
  | inl subsets => (existsb (fun addresses => 0 <? Z.of_nat addresses) subsets, None)
  end.

Definition buildWebhook (now : Z) (cfgName kind : string) (cov : Coverage E) (wh : WebhookSpec) : Coverage E * Webhook :=
  let '(cov, service, healthy, unknown) :=
    match wh_Service wh with
    | None => (cov, ""%string, false, false)
    | Some (ns, name) =>
        let service := (ns ++ "/" ++ name)%string in
        let '(healthy, err) := endpointsHealthy ns name in
        let '(cov, ok) := Observe cov ("endpoints " ++ service) err in
        (cov, service, healthy, negb ok)
    end in
  let expiry := earliestExpiry (wh_CABundle wh) in
  (cov, {|
    we_Configuration := cfgName; we_Webhook := wh_Name wh; we_Type := kind; we_Service := service;
    we_URL := default ""%string (wh_URL wh); we_EndpointsHealthy := healthy;
    we_FailurePolicy := default ""%string (wh_FailurePolicy wh); we_CABundleNotAfter := default 0 expiry;
    we_CABundleDaysRemaining := match expiry with Some t => days_remaining now t | None => -1 end;
    we_EndpointsUnknown := unknown |}).

Definition webhook_step (now : Z) (kind cfgName : string) (acc : Coverage E * list Webhook) (wh : WebhookSpec) :
  Coverage E * list Webhook :=
  let '(cov, w) := buildWebhook now cfgName kind (fst acc) wh in (cov, snd acc ++ [w]).

Definition append_webhooks (now : Z) (kind : string) (cov : Coverage E) (webhooks : list Webhook)
  (cfgs : list WebhookConfiguration) : Coverage E * list Webhook :=
  fold_left (fun acc cfg => fold_left (webhook_step now kind (wc_Name cfg)) (wc_Webhooks cfg) acc) cfgs (cov, webhooks).

Definition unhealthy (w : Webhook) : bool :=
  negb (String.eqb (we_Service w) "") && negb (we_EndpointsUnknown w) && negb (we_EndpointsHealthy w).

Definition ca_soon (w : Webhook) : bool :=
  (0 <=? we_CABundleDaysRemaining w) && (we_CABundleDaysRemaining w <? caExpirySoonDays).

Definition compareWebhooks : Webhook -> Webhook -> comparison :=
  cmp_lex (cmp_on we_Configuration String.compare) (cmp_on we_Webhook String.compare).

Definition audit_webhooks (webhooks : list Webhook) : WebhookData := {|
  wd_TotalWebhooks := length webhooks;
  wd_UnhealthyWebhooks := length (List.filter unhealthy webhooks);
  wd_ExpiringCABundles := length (List.filter ca_soon webhooks);
  wd_FailClosedWebhooks := length (List.filter (fun w => String.eqb (we_FailurePolicy w) "Fail") webhooks);
  wd_Webhooks := TopN webhooks 100 compareWebhooks |}.

Definition webhook_entry (w : Webhook) : list (string * json) :=
  [("configuration", JStr (we_Configuration w)); ("webhook", JStr (we_Webhook w)); ("type", JStr (we_Type w))] ++
  text_member "service" (we_Service w) ++ text_member "url" (we_URL w) ++
  [("endpoints_healthy", JBool (we_EndpointsHealthy w)); ("failure_policy", JStr (we_FailurePolicy w));
   ("ca_bundle_not_after", JStr (RFC3339 (we_CABundleNotAfter w)));
   ("ca_bundle_days_remaining", int_json (we_CABundleDaysRemaining w))] ++
  (if we_EndpointsUnknown w then [("endpoints_unknown", JBool true)] else []).

Definition webhook_members (d : WebhookData) : list (string * json) := [
  ("total_webhooks", count_json (wd_TotalWebhooks d)); ("unhealthy_webhooks", count_json (wd_UnhealthyWebhooks d));
  ("expiring_ca_bundles", count_json (wd_ExpiringCABundles d)); ("fail_closed_webhooks", count_json (wd_FailClosedWebhooks d));
  ("webhooks", list_json (fun w => JObj (webhook_entry w)) (wd_Webhooks d))].

Definition AdmissionScanner (now : Z) (mutating validating : list WebhookConfiguration + E) : Result * option coverageError :=
  let '(cov, mwh) := optional_list coverage_empty "mutating webhook list" mutating in
  let '(cov, webhooks) := append_webhooks now "Mutating" cov [] mwh in
  let '(cov, vwh) := optional_list cov "validating webhook list" validating in
  let '(cov, webhooks) := append_webhooks now "Validating" cov webhooks vwh in
  Finish cov "admission" (JObj (webhook_members (audit_webhooks webhooks))).
End Endpoints.
End Pem.

(** ** Facts *)

(** *** Bundles: the two readers agree *)

Section PemFacts.
Context (Decode : bytes -> option (string * bytes * bytes)) (ParseCertificate : bytes -> option Certificate).

(** A block takes up some of the input. *)
Hypothesis Decode_shorter : forall b ty der rest, Decode b = Some (ty, der, rest) -> (length rest < length b)%nat.

Lemma pem_loop_enough fuel b : (length b <= fuel)%nat -> pem_loop Decode ParseCertificate fuel b = parsePEM Decode ParseCertificate b.
Proof.
  unfold parsePEM. enough (forall n m b, (length b <= n)%nat -> (length b <= m)%nat ->
    pem_loop Decode ParseCertificate n b = pem_loop Decode ParseCertificate m b) as H by (intros Hf; by apply H).
  clear fuel b. induction n as [|n IH]; intros m b Hn Hm.
  - destruct b; [|simpl in Hn; lia]. by destruct m.
  - destruct b as [|x b]; [by destruct m|]. destruct m as [|m]; [simpl in Hm; lia|]. cbn [pem_loop].
    destruct (Decode (x :: b)) as [[[ty der] rest]|] eqn:Ed; [|done]. apply Decode_shorter in Ed. f_equal. apply IH; lia.
Qed.

Lemma earliest_loop_fold fuel b found : (length b <= fuel)%nat ->
  earliest_loop Decode ParseCertificate fuel b found = fold_left earlier (parsePEM Decode ParseCertificate b) found.
Proof.
  intros Hf. rewrite <- (pem_loop_enough fuel b Hf). revert b found Hf. induction fuel as [|fuel IH]; intros b found Hf.
  - by destruct b; [|simpl in Hf; lia].
  - destruct b as [|x b]; [done|]. cbn [pem_loop earliest_loop].
    destruct (Decode (x :: b)) as [[[ty der] rest]|] eqn:Ed; [|done]. apply Decode_shorter in Ed.
    assert (Hr : (length rest <= fuel)%nat) by lia. unfold block_certs. rewrite fold_left_app.
    destruct (negb (String.eqb ty "CERTIFICATE")); [by apply IH|]. destruct (ParseCertificate der); by apply IH.
Qed.

Lemma earlier_least certs found t : fold_left earlier certs found = Some t ->
  (found = Some t \/ t ∈ map x5_NotAfter certs) /\ (forall u, found = Some u -> t <= u) /\
  (forall u, u ∈ map x5_NotAfter certs -> t <= u).
Proof.
  revert found. induction certs as [|x certs IH]; intros found; cbn [fold_left map].
  - intros ->. split_and!; [by left|by intros u [= ->]|by intros u Hu%elem_of_nil].
  - intros (Hin & Hf & Hall)%IH. unfold earlier in Hin, Hf. destruct found as [v|].
    + destruct (Z.ltb_spec (x5_NotAfter x) v).
      * specialize (Hf _ eq_refl). split_and!.
        -- destruct Hin as [[= <-]|Hin]; right; [by left|by right].
        -- intros u [= <-]. lia.
        -- intros u [->|Hu]%elem_of_cons; [lia|by apply Hall].
      * specialize (Hf _ eq_refl). split_and!.
        -- destruct Hin as [[= <-]|Hin]; [by left|right; by right].
        -- by intros u [= <-].
        -- intros u [->|Hu]%elem_of_cons; [lia|by apply Hall].
    + specialize (Hf _ eq_refl). split_and!; [|done|].
      * destruct Hin as [[= <-]|Hin]; right; [by left|by right].
      * intros u [->|Hu]%elem_of_cons; [lia|by apply Hall].
Qed.

(** The expiry a webhook is audited with is that of the first certificate of its bundle to
    expire, among the ones the certificate scanner lists of the same bundle. *)
Theorem earliest_is_least bundle : match earliestExpiry Decode ParseCertificate bundle with
  | None => parsePEM Decode ParseCertificate bundle = []
  | Some t => t ∈ map x5_NotAfter (parsePEM Decode ParseCertificate bundle) /\
      forall u, u ∈ map x5_NotAfter (parsePEM Decode ParseCertificate bundle) -> t <= u
  end.
Proof.
  unfold earliestExpiry. rewrite earliest_loop_fold by done.
  destruct (fold_left earlier _ None) as [t|] eqn:E.
  - apply earlier_least in E as ([[=]|Hin] & _ & Hall). done.
  - destruct (parsePEM Decode ParseCertificate bundle) as [|x certs]; [done|]. exfalso. cbn in E.
    revert E. generalize (x5_NotAfter x). induction certs as [|y certs IH]; intros v; [done|].
    cbn. destruct (_ <? v); apply IH.
Qed.
End PemFacts.

(** *** The sentinel of the soonest expiry *)

(** [-1] stands for no certificate, so a certificate that has been expired for a day is taken
    for none: the soonest expiry then depends on the order of the list. *)
Definition expires_in (days : Z) : Cert := {|
  ct_Name := "tls"; ct_Namespace := "web"; ct_Kind := "Secret"; ct_Subject := ""; ct_NotAfter := 0; ct_DaysRemaining := days |}.

Lemma soonest_sentinel : cd_Soonest (audit_certs [expires_in (-1); expires_in 60]) = 60 /\
  cd_Soonest (audit_certs [expires_in 60; expires_in (-1)]) = -1.
Proof. by split. Qed.

(** Without such a certificate it is the least number of days. *)
Lemma soonest_least certs : certs <> [] -> Forall (fun c => ct_DaysRemaining c <> -1) certs ->
  cd_Soonest (audit_certs certs) ∈ map ct_DaysRemaining certs /\
  Forall (fun c => cd_Soonest (audit_certs certs) <= ct_DaysRemaining c) certs.
Proof.
  intros Hne Hall. cbn [audit_certs cd_Soonest]. induction certs as [|c certs IH] using rev_ind; [done|]. clear Hne.
  apply Forall_app in Hall as [Hall Hc]. apply Forall_cons in Hc as [Hc _]. rewrite fold_left_app. cbn [fold_left].
  unfold soonest_step at 1 3. destruct certs as [|x certs].
  { cbn. split; [by left|by repeat constructor]. }
  destruct IH as [Hin Hle]; [done|done|]. set (s := fold_left soonest_step (x :: certs) (-1)) in *. clearbody s.
  assert (Hs : s <> -1).
  { apply list_elem_of_In, in_map_iff in Hin as (y & <- & Hy). rewrite List.Forall_forall in Hall. by apply Hall. }
  rewrite (proj2 (Z.eqb_neq s (-1)) Hs). cbn [orb]. rewrite map_app. destruct (Z.ltb_spec (ct_DaysRemaining c) s).
  - split; [apply elem_of_app; right; by left|]. apply Forall_app. split; [|by repeat constructor].
    eapply Forall_impl; [exact Hle|]. cbn beta. lia.
  - split; [apply elem_of_app; by left|]. apply Forall_app. split; [done|]. by repeat constructor.
Qed.

(** *** What the cut keeps of a sorted list *)

(** The entries of a window survive the cut in order, after the entries below the window. *)
Lemma window_of_cut {A} (c : A -> A -> comparison) (p q : A -> bool) (s : list A) n :
  StronglySorted (cmp_le c) s -> (forall x y, cmp_le c x y -> p y = true -> p x = true) ->
  (forall x y, cmp_le c x y -> q y = true -> q x = true) -> (forall x, p x = true -> q x = true) ->
  List.filter (fun x => q x && negb (p x)) (take n s) =
  take (n - length (List.filter p s)) (List.filter (fun x => q x && negb (p x)) s).
Proof.
  intros Hs Hp Hq Hpq. revert n. induction Hs as [|x s Hs IH Hx]; intros n; [by destruct n|].
  assert (Hlater : forall f : A -> bool, (forall x y, cmp_le c x y -> f y = true -> f x = true) -> f x = false ->
    forall y, y ∈ s -> f y = false).
  { intros f Hf Hfx y Hy. rewrite List.Forall_forall in Hx. apply list_elem_of_In in Hy. destruct (f y) eqn:E; [|done].
    by rewrite (Hf x y (Hx y Hy) E) in Hfx. }
  destruct n as [|n]; [by rewrite take_0|]. cbn [take List.filter]. destruct (p x) eqn:Ep.
  - rewrite (Hpq x Ep). cbn [andb negb length]. by rewrite IH.
  - assert (List.filter p s = []) as En by (apply length_zero_iff_nil, filter_none; by apply Hlater).
    rewrite En. cbn [length negb]. rewrite andb_true_r, Nat.sub_0_r. destruct (q x) eqn:Eq.
    + cbn [take]. f_equal. rewrite IH, En. by rewrite Nat.sub_0_r.
    + assert (Hnone : forall l, (forall y, y ∈ l -> y ∈ s) -> List.filter (fun y => q y && negb (p y)) l = []).
      { intros l Hl. apply length_zero_iff_nil, filter_none. intros y Hy. by rewrite (Hlater q Hq Eq y (Hl y Hy)). }
      rewrite !Hnone; [done|done|]. intros y (i & Hi & _)%elem_of_take. by eapply list_elem_of_lookup_2.
Qed.

(** *** Certificates *)

Definition label_of_cert (c : Cert) : string :=
  let label := if String.eqb (ct_Namespace c) "" then ct_Name c else (ct_Namespace c ++ "/" ++ ct_Name c)%string in
  let label := if String.eqb (ct_Kind c) "" then label else (ct_Kind c ++ " " ++ label)%string in
  (label ++ " (" ++ itoa (ct_DaysRemaining c) ++ " days)")%string.

Definition days_ok (c : Cert) : Prop := - 2 ^ 53 <= ct_DaysRemaining c <= 2 ^ 53.

Lemma cert_read c : days_ok c -> cert_label (list_to_map (cert_entry c)) = label_of_cert c /\
  get_int (list_to_map (cert_entry c)) "days_remaining" = ct_DaysRemaining c.
Proof.
  intros Hd. assert (Hi : get_int (list_to_map (cert_entry c)) "days_remaining" = ct_DaysRemaining c).
  { unfold cert_entry, text_member, get_int, get_num, int_json.
    destruct (String.eqb (ct_Namespace c) ""), (String.eqb (ct_Subject c) ""); exact (f_to_int_of_int _ Hd). }
  assert (get_str (list_to_map (cert_entry c)) "namespace" = ct_Namespace c /\
    get_str (list_to_map (cert_entry c)) "name" = ct_Name c /\ get_str (list_to_map (cert_entry c)) "kind" = ct_Kind c) as (Hn & Hm & Hk).
  { unfold cert_entry, text_member, get_str.
    destruct (String.eqb_spec (ct_Namespace c) "") as [->|En], (String.eqb (ct_Subject c) ""); split_and!; reflexivity. }
  split; [|done]. unfold cert_label, label_of_cert. by rewrite Hi, Hn, Hm, Hk.
Qed.

Lemma certs_expiring lo hi certs d : cd_Certs d = certs -> Forall days_ok certs ->
  expiring lo hi (list_to_map (cert_members d)) = map label_of_cert (List.filter (within lo hi) certs).
Proof.
  intros Hd Hok. unfold expiring. rewrite (objects_listed cert_entry _ "certs" certs) by (by rewrite <- Hd).
  clear Hd. induction Hok as [|c l Hc Hl IH]; [done|]. cbn [map List.filter]. destruct (cert_read c Hc) as [Hlabel Hint].
  rewrite Hint. unfold within at 1. destruct (_ && _)%bool; cbn [map]; [rewrite Hlabel; f_equal|]; exact IH.
Qed.

Module Expiry.

(** The certificate findings name exactly the certificates that are running out. For the
    payload the scanner writes for a list of certificates, the report names those with fewer
    than seven days left, the expired ones first, in one finding, and those with fewer than
    thirty in another, by urgency; it names all of them unless there are more than a hundred,
    when the hundred most urgent are named. *)
Theorem cert_findings_exact r c certs o :
  clusterView r "certs" c = (list_to_map (cert_members (audit_certs certs)), o) -> seen o = true ->
  Forall days_ok certs ->
  let urgent := isort (less_of compareCerts) certs in
  let critical := List.filter (fun x => ct_DaysRemaining x <? 7) urgent in
  let warning := List.filter (within 7 30) urgent in
  map said (cert_findings r c) =
    due "certs/expiring-7d" "certificate(s) expiring in fewer than 7 days" c (map label_of_cert (take 100 critical)) ++
    due "certs/expiring-30d" "certificate(s) expiring within 30 days" c
      (map label_of_cert (take (100 - length critical) warning)).
Proof.
  intros Hv Ho Hok urgent critical warning.
  assert (Hsort : StronglySorted (cmp_le compareCerts) urgent) by (apply isort_sorted; exact _).
  assert (Hdays : forall x y, cmp_le compareCerts x y -> ct_DaysRemaining x <= ct_DaysRemaining y).
  { intros x y H. unfold cmp_le, compareCerts, cmp_lex, cmp_on, cmp_then in H.
    destruct (Z.compare_spec (ct_DaysRemaining x) (ct_DaysRemaining y)); [lia|lia|done]. }
  assert (Hmem : Forall days_ok (take 100 urgent)).
  { apply List.Forall_forall. intros x Hx%list_elem_of_In%elem_of_take. destruct Hx as (i & Hx & _).
    apply list_elem_of_lookup_2, isort_elem_of, list_elem_of_In in Hx. rewrite List.Forall_forall in Hok. by apply Hok. }
  unfold cert_findings. rewrite Hv, Ho. cbn [negb]. rewrite !(certs_expiring _ _ (take 100 urgent)) by done.
  assert (Hcrit : List.filter (within int64_min 7) (take 100 urgent) = take 100 critical).
  { transitivity (List.filter (fun x => (ct_DaysRemaining x <? 7) && negb false) (take 100 urgent)).
    - apply filter_ext_in. intros x Hx. rewrite List.Forall_forall in Hmem. specialize (Hmem x Hx). unfold days_ok in Hmem.
      unfold within. rewrite (proj2 (Z.leb_le _ _)); [by rewrite andb_true_r|unfold int64_min; lia].
    - rewrite (window_of_cut compareCerts (fun _ => false) _ urgent 100 Hsort); [|done| |done].
      + rewrite (proj2 (length_zero_iff_nil _)) by (apply length_zero_iff_nil, filter_none; done).
        unfold critical. f_equal. apply filter_ext. intros x. by rewrite andb_true_r.
      + intros x y H%Hdays Hy%Z.ltb_lt. apply Z.ltb_lt. lia. }
  assert (Hwarn : List.filter (within 7 30) (take 100 urgent) = take (100 - length critical) warning).
  { assert (He : forall x, within 7 30 x = (ct_DaysRemaining x <? 30) && negb (ct_DaysRemaining x <? 7)).
    { intros x. unfold within. rewrite andb_comm. f_equal. rewrite Z.leb_antisym. done. }
    unfold warning. rewrite !(filter_ext _ _ He).
    apply (window_of_cut compareCerts (fun x => ct_DaysRemaining x <? 7) _ urgent 100 Hsort).
    - intros x y H%Hdays Hy%Z.ltb_lt. apply Z.ltb_lt. lia.
    - intros x y H%Hdays Hy%Z.ltb_lt. apply Z.ltb_lt. lia.
    - intros x Hx%Z.ltb_lt. apply Z.ltb_lt. lia. }
  rewrite Hcrit, Hwarn, map_app. f_equal; apply due_when.
Qed.

Definition cert_report : Report :=
  one_section "certs" (JObj (cert_members (audit_certs [expires_in 60; expires_in 12; expires_in (-1)]))).

Lemma cert_findings_exact_witness :
  clusterView cert_report "certs" "c1" =
    (list_to_map (cert_members (audit_certs [expires_in 60; expires_in 12; expires_in (-1)])), observed) /\
  map said (cert_findings cert_report "c1") =
    [("certs/expiring-7d", "c1 has 1 certificate(s) expiring in fewer than 7 days", ["Secret web/tls (-1 days)"]);
     ("certs/expiring-30d", "c1 has 1 certificate(s) expiring within 30 days", ["Secret web/tls (12 days)"])]%string.
Proof.
  assert (Hv : clusterView cert_report "certs" "c1" =
    (list_to_map (cert_members (audit_certs [expires_in 60; expires_in 12; expires_in (-1)])), observed)) by reflexivity.
  split; [exact Hv|].
  rewrite (cert_findings_exact cert_report "c1" _ observed Hv eq_refl); [vm_compute; reflexivity|].
  repeat constructor; vm_compute; discriminate.
Defined.

End Expiry.

(** *** Webhooks *)

(** A bundle that expired more than a day ago is not expiring: its days are below zero, like
    those of a bundle that could not be read. *)
Lemma expired_bundle_silent w : we_CABundleDaysRemaining w < 0 -> ca_soon w = false.
Proof. intros H. unfold ca_soon. by rewrite (proj2 (Z.leb_gt 0 _) H). Qed.

Definition label_of_webhook (w : Webhook) : string := (we_Configuration w ++ "/" ++ we_Webhook w)%string.

Definition broken_text (w : Webhook) : string :=
  (label_of_webhook w ++ " (service " ++ we_Service w ++ ", failurePolicy=" ++ we_FailurePolicy w ++ ")")%string.

Definition ca_line (w : Webhook) : string :=
  (label_of_webhook w ++ " (CA expires in " ++ itoa (we_CABundleDaysRemaining w) ++ " days)")%string.

Definition ca_days_ok (w : Webhook) : Prop := - 2 ^ 53 <= we_CABundleDaysRemaining w <= 2 ^ 53.

Lemma webhook_read w : ca_days_ok w ->
  let entry := list_to_map (webhook_entry w) in
  get_str entry "configuration" = we_Configuration w /\ get_str entry "webhook" = we_Webhook w /\
  get_str entry "service" = we_Service w /\ get_str entry "failure_policy" = we_FailurePolicy w /\
  get_bool entry "endpoints_healthy" = we_EndpointsHealthy w /\ get_bool entry "endpoints_unknown" = we_EndpointsUnknown w /\
  get_int entry "ca_bundle_days_remaining" = we_CABundleDaysRemaining w.
Proof.
  intros Hd entry. subst entry.
  assert (Hi : get_int (list_to_map (webhook_entry w)) "ca_bundle_days_remaining" = we_CABundleDaysRemaining w).
  { unfold webhook_entry, text_member, get_int, get_num, int_json.
    destruct (String.eqb (we_Service w) ""), (String.eqb (we_URL w) ""), (we_EndpointsUnknown w);
      exact (f_to_int_of_int _ Hd). }
  rewrite Hi. unfold webhook_entry, text_member, get_str, get_bool.
  destruct (String.eqb_spec (we_Service w) "") as [->|], (String.eqb (we_URL w) ""), (we_EndpointsUnknown w);
    split_and!; reflexivity.
Qed.

Lemma broken_read w : ca_days_ok w -> let entry := list_to_map (webhook_entry w) in
  no_endpoints entry = unhealthy w /\ ca_expiring entry = ca_soon w /\ unhealthy_text entry = broken_text w /\
  ca_text entry = ca_line w.
Proof.
  intros Hd entry. destruct (webhook_read w Hd) as (H1 & H2 & H3 & H4 & H5 & H6 & H7). fold entry in H1, H2, H3, H4, H5, H6, H7.
  unfold no_endpoints, ca_expiring, unhealthy_text, ca_text, webhook_label. rewrite H1, H2, H3, H4, H5, H6, H7.
  split_and!; try done. unfold unhealthy.
  by destruct (String.eqb (we_Service w) ""), (we_EndpointsUnknown w), (we_EndpointsHealthy w).
Qed.

Lemma webhooks_read ws : Forall ca_days_ok ws ->
  let entries := map (fun w => list_to_map (webhook_entry w) : obj) ws in
  map unhealthy_text (List.filter no_endpoints entries) = map broken_text (List.filter unhealthy ws) /\
  map ca_text (List.filter ca_expiring entries) = map ca_line (List.filter ca_soon ws).
Proof.
  intros H. cbv zeta. induction H as [|w l Hw Hl [IH1 IH2]]; [done|]. cbn [map List.filter].
  destruct (broken_read w Hw) as (-> & -> & H3 & H4). split.
  - destruct (unhealthy w); cbn [map]; [rewrite H3; f_equal|]; exact IH1.
  - destruct (ca_soon w); cbn [map]; [rewrite H4; f_equal|]; exact IH2.
Qed.

Module Webhooks.

Section Audit.
Context (Decode : bytes -> option (string * bytes * bytes)) (ParseCertificate : bytes -> option Certificate).
Context {E : Type} `{!ApiError E} (Endpoints : string -> string -> list nat + E).

(** A service without a ready address: none in any subset, or no Endpoints object at all. A
    read that failed otherwise says nothing. *)
Definition no_ready_address (ns name : string) : Prop :=
  match Endpoints ns name with
  | inl subsets => Forall (fun n => n = O) subsets
  | inr err => IsNotFound err = true
  end.

Definition built (now : Z) (kind cfgName : string) (wh : WebhookSpec) : Webhook :=
  snd (buildWebhook Decode ParseCertificate Endpoints now cfgName kind coverage_empty wh).

Lemma built_any now kind cfgName cov wh :
  snd (buildWebhook Decode ParseCertificate Endpoints now cfgName kind cov wh) = built now kind cfgName wh.
Proof.
  unfold built, buildWebhook. destruct (wh_Service wh) as [[ns name]|]; [|done].
  destruct (endpointsHealthy Endpoints ns name) as [healthy [err|]]; cbn [Observe]; [|done]. by destruct (ClassifyError (Some err)).
Qed.

Definition built_all (now : Z) (kind : string) (cfgs : list WebhookConfiguration) : list Webhook :=
  flat_map (fun cfg => map (built now kind (wc_Name cfg)) (wc_Webhooks cfg)) cfgs.

Lemma append_webhooks_all now kind cov ws cfgs :
  snd (append_webhooks Decode ParseCertificate Endpoints now kind cov ws cfgs) = ws ++ built_all now kind cfgs.
Proof.
  unfold append_webhooks. revert cov ws. induction cfgs as [|cfg cfgs IH]; intros cov ws; cbn [fold_left built_all flat_map].
  { by rewrite app_nil_r. }
  assert (Hin : forall whs acc, snd (fold_left (webhook_step Decode ParseCertificate Endpoints now kind (wc_Name cfg)) whs acc) =
    snd acc ++ map (built now kind (wc_Name cfg)) whs).
  { induction whs as [|wh whs IHw]; intros acc; cbn [fold_left map]; [by rewrite app_nil_r|].
    rewrite IHw. unfold webhook_step. pose proof (built_any now kind (wc_Name cfg) (fst acc) wh) as Hb.
    destruct (buildWebhook _ _ _ _ _ _ _ wh) as [cov' w]. cbn [fst snd] in *. rewrite Hb. by rewrite <- app_assoc. }
  destruct (fold_left (webhook_step _ _ _ now kind (wc_Name cfg)) (wc_Webhooks cfg) (cov, ws)) as [cov' ws'] eqn:Ef.
  rewrite IH. specialize (Hin (wc_Webhooks cfg) (cov, ws)). rewrite Ef in Hin. cbn [snd] in Hin. rewrite Hin. by rewrite <- app_assoc.
Qed.

Lemma built_unhealthy now kind cfgName wh : unhealthy (built now kind cfgName wh) = true <->
  exists ns name, wh_Service wh = Some (ns, name) /\ no_ready_address ns name.
Proof.
  unfold built, buildWebhook, no_ready_address, unhealthy. destruct (wh_Service wh) as [[ns name]|].
  2: { split; [done|]. by intros (ns & name & ? & _). }
  assert (Hs : String.eqb (ns ++ "/" ++ name) "" = false) by (by destruct ns).
  transitivity (match Endpoints ns name with inl subsets => Forall (fun n => n = O) subsets | inr err => IsNotFound err = true end).
  2: { split; [intros H; by exists ns, name|]. by intros (? & ? & [= <- <-] & H). }
  unfold endpointsHealthy. destruct (Endpoints ns name) as [subsets|err].
  - cbn -[String.eqb String.append existsb]. rewrite Hs. cbn -[existsb]. rewrite negb_true_iff.
    induction subsets as [|n subsets IH]; [split; [constructor|done]|]. cbn [existsb]. rewrite orb_false_iff, IH, Forall_cons.
    destruct n; cbn; split; intros []; split; done.
  - destruct (IsNotFound err) eqn:En; cbn -[String.eqb String.append]; [by rewrite Hs|]. rewrite En. cbn -[String.eqb String.append].
    destruct (IsNoMatchError err); cbn -[String.eqb String.append]; by rewrite Hs.
Qed.

(** The webhook findings charge the webhooks whose service has no ready endpoint, and no
    others. For the webhooks of two lists of configurations, the report names those whose
    service has an Endpoints object without a ready address, or none at all; a read that
    failed for any other reason is not held against a webhook. Those whose CA bundle runs out
    within thirty days are named apart. The list is cut at a hundred webhooks, in the order
    of their names. *)
Theorem webhook_findings_exact now mutating validating r c o :
  let webhooks := built_all now "Mutating" mutating ++ built_all now "Validating" validating in
  let listed := take 100 (isort (less_of compareWebhooks) webhooks) in
  clusterView r "admission" c = (list_to_map (webhook_members (audit_webhooks webhooks)), o) -> seen o = true ->
  Forall ca_days_ok webhooks ->
  map said (admission_findings r c) =
    due "admission/no-healthy-endpoints" "admission webhook(s) with no healthy endpoints" c
      (map broken_text (List.filter unhealthy listed)) ++
    due "admission/ca-expiring" "admission webhook(s) with CA bundles expiring soon" c
      (map ca_line (List.filter ca_soon listed)) /\
  (forall kind cfgName wh, unhealthy (built now kind cfgName wh) = true <->
     exists ns name, wh_Service wh = Some (ns, name) /\ no_ready_address ns name) /\
  (exists hidden, listed ++ hidden ≡ₚ webhooks /\ ((length webhooks <= 100)%nat -> hidden = [])).
Proof.
  intros webhooks listed Hv Ho Hok. split_and!; [|intros; apply built_unhealthy|apply (topn_parts webhooks 100 compareWebhooks)].
  unfold admission_findings. rewrite Hv, Ho. cbn [negb].
  assert (Hm : Forall ca_days_ok listed).
  { apply List.Forall_forall. intros w (i & Hw & _)%list_elem_of_In%elem_of_take. rewrite List.Forall_forall in Hok.
    apply Hok, list_elem_of_In. eapply isort_elem_of, list_elem_of_lookup_2, Hw. }
  rewrite (objects_listed webhook_entry _ "webhooks" listed) by reflexivity.
  destruct (webhooks_read listed Hm) as [H1 H2]. rewrite H1, H2, map_app. f_equal; apply due_when.
Qed.
End Audit.

(** Two services: one has lost its endpoints, the read of the other was denied. *)
Definition sample_endpoints (ns name : string) : list nat + bool :=
  if String.eqb name "policy" then inl [0%nat; 0%nat] else inr false.

Definition hook (name service : string) : WebhookSpec := {|
  wh_Name := name; wh_Service := Some ("ops"%string, service); wh_URL := None; wh_CABundle := []; wh_FailurePolicy := Some "Fail"%string |}.

Definition sample_configs : list WebhookConfiguration :=
  [{| wc_Name := "guard"; wc_Webhooks := [hook "deny" "policy"; hook "warn" "notes"] |}].

Definition sample_webhooks : list Webhook := built_all (fun _ => None) (fun _ => None) sample_endpoints 0 "Mutating" sample_configs.

Definition webhook_report : Report := one_section "admission" (JObj (webhook_members (audit_webhooks sample_webhooks))).

Lemma webhook_findings_exact_witness :
  clusterView webhook_report "admission" "c1" = (list_to_map (webhook_members (audit_webhooks sample_webhooks)), observed) /\
  map said (admission_findings webhook_report "c1") =
    [("admission/no-healthy-endpoints", "c1 has 1 admission webhook(s) with no healthy endpoints",
      ["guard/deny (service ops/policy, failurePolicy=Fail)"])]%string.
Proof.
  assert (Hv : clusterView webhook_report "admission" "c1" =
    (list_to_map (webhook_members (audit_webhooks sample_webhooks)), observed)) by reflexivity.
  split; [exact Hv|].
  assert (Hok : Forall ca_days_ok sample_webhooks) by (repeat constructor; vm_compute; discriminate).
  rewrite (proj1 (webhook_findings_exact (fun _ => None) (fun _ => None) sample_endpoints 0 sample_configs []
    webhook_report "c1" observed Hv eq_refl Hok)). vm_compute. reflexivity.
Defined.

End Webhooks.
