(* ===== verification/WorkloadCov.v ===== *)
(** * internal/scanner/workloadcoverage

    Which replicated workloads lack a disruption budget or an autoscaler, and the findings
    read back. Label selectors are a parameter. *)

From Stdlib Require Import ZArith Lia String Ascii.
From stdpp Require Import base gmap strings list sets.
From S2P Require Import Prelude Maps Float64 Text Data Observe Findings Finders FindHealth FindSecurity Scan Payload.

Local Open Scope Z_scope.

(** A Deployment or StatefulSet: its replicas, and the labels of its pods. *)
Record Workload := {
  wl_Namespace : string; wl_Name : string; wl_Replicas : option Z; wl_Labels : gmap string string }.

(** The target of an autoscaler. *)
Record hpaKey := { hk_Namespace : string; hk_Kind : string; hk_Name : string }.

#[export] Instance hpaKey_dec : EqDecision hpaKey.
Proof. solve_decision. Defined.

Record Coverage := {
  co_Kind : string; co_Namespace : string; co_Name : string; co_Replicas : Z; co_HasPDB : bool; co_HasHPA : bool }.

Record CoverageData := {
  cvd_TotalReplicated : nat; cvd_MissingPDB : nat; cvd_MissingHPA : nat; cvd_Gaps : list Coverage }.

Section Coverage.
(** metav1.LabelSelectorAsSelector: the labels a selector matches, or an error. *)
Context {Selector : Type} (AsSelector : Selector -> option (gmap string string -> bool)).

Record PDB := { pdb_Namespace : string; pdb_Selector : option Selector }.

Definition selects (namespace : string) (podLabels : gmap string string) (pdb : PDB) : bool :=
  if negb (String.eqb (pdb_Namespace pdb) namespace) then false
  else match pdb_Selector pdb with
       | None => false
       | Some selector => match AsSelector selector with None => false | Some sel => sel podLabels end
       end.

Definition pdbMatches (pdbs : list PDB) (namespace : string) (podLabels : gmap string string) : bool :=
  existsb (selects namespace podLabels) pdbs.

Definition replicas_of (w : Workload) : Z := default 1 (wl_Replicas w).

(** [None] is a read that failed: then the workload counts as covered. *)
Definition cover (pdbs : option (list PDB)) (hpas : option (list hpaKey)) (kind : string) (w : Workload) : Coverage := {|
  co_Kind := kind; co_Namespace := wl_Namespace w; co_Name := wl_Name w; co_Replicas := replicas_of w;
  co_HasPDB := match pdbs with None => true | Some l => pdbMatches l (wl_Namespace w) (wl_Labels w) end;
  co_HasHPA := match hpas with
    | None => true
    | Some l => bool_decide ({| hk_Namespace := wl_Namespace w; hk_Kind := kind; hk_Name := wl_Name w |} ∈ l)
    end |}.

Definition replicated (w : Workload) : bool := 1 <? replicas_of w.

Definition covers (pdbs : option (list PDB)) (hpas : option (list hpaKey)) (deployments statefulSets : list Workload) :
  list Coverage :=
  map (cover pdbs hpas "Deployment") (List.filter replicated deployments) ++
  map (cover pdbs hpas "StatefulSet") (List.filter replicated statefulSets).

Definition has_gap (c : Coverage) : bool := negb (co_HasPDB c) || negb (co_HasHPA c).

(** [sort.Slice] by namespace and name, which a Deployment and a StatefulSet may share: a
    stable sort of an arrangement of the gaps. *)
Definition listed_gaps (arrange : list Coverage -> list Coverage) (all : list Coverage) : list Coverage :=
  take 100 (sort_places (fun c => (co_Namespace c, co_Name c)) (arrange (List.filter has_gap all))).

Definition audit_coverage (arrange : list Coverage -> list Coverage) (all : list Coverage) : CoverageData := {|
  cvd_TotalReplicated := length all;
  cvd_MissingPDB := length (List.filter (fun c => negb (co_HasPDB c)) all);
  cvd_MissingHPA := length (List.filter (fun c => negb (co_HasHPA c)) all);
  cvd_Gaps := listed_gaps arrange all |}.

Definition gap_members (c : Coverage) : list (string * json) := [
  ("kind", JStr (co_Kind c)); ("namespace", JStr (co_Namespace c)); ("name", JStr (co_Name c));
  ("replicas", int_json (co_Replicas c)); ("has_pdb", JBool (co_HasPDB c)); ("has_hpa", JBool (co_HasHPA c))].

Definition coverage_members (d : CoverageData) : list (string * json) := [
  ("total_replicated", count_json (cvd_TotalReplicated d)); ("missing_pdb", count_json (cvd_MissingPDB d));
  ("missing_hpa", count_json (cvd_MissingHPA d)); ("gaps", list_json (fun c => JObj (gap_members c)) (cvd_Gaps d))].

Definition CoverageScanner {E} `{!ApiError E} (arrange : list Coverage -> list Coverage) (pdbs : list PDB + E)
  (hpas : list hpaKey + E) (deployments statefulSets : list Workload + E) : Result * option coverageError :=
  let read_ok {A} (read : list A + E) := match read with inl l => Some l | inr _ => None end in
  let '(cov, _) := optional_list coverage_empty "pod disruption budgets" pdbs in
  let '(cov, _) := optional_list cov "horizontal pod autoscalers" hpas in
  let '(cov, deployments) := optional_list cov "deployments" deployments in
  let '(cov, statefulSets) := optional_list cov "statefulsets" statefulSets in
  Finish cov "workload-coverage"
    (JObj (coverage_members (audit_coverage arrange (covers (read_ok pdbs) (read_ok hpas) deployments statefulSets)))).

(** ** Facts *)

Definition place_of (c : Coverage) : string := (co_Kind c ++ " " ++ co_Namespace c ++ "/" ++ co_Name c)%string.

Lemma gaps_read (guard : string) (has : Coverage -> bool) gaps :
  (forall c, get_bool (list_to_map (gap_members c)) guard = has c) ->
  lacking guard (map (fun c => list_to_map (gap_members c)) gaps) = map place_of (List.filter (fun c => negb (has c)) gaps).
Proof.
  intros H. unfold lacking. rewrite filter_map_comm, map_map.
  rewrite (filter_ext _ (fun c => negb (has c))) by (intros c; by rewrite H). done.
Qed.

(** What is listed of the workloads that lack a guard, and what the cut leaves out. *)
Lemma listed_parts (arrange : list Coverage -> list Coverage) (lacks : Coverage -> bool) all :
  (forall l, arrange l ≡ₚ l) -> (forall c, lacks c = true -> has_gap c = true) ->
  exists hidden, List.filter lacks (listed_gaps arrange all) ++ hidden ≡ₚ List.filter lacks all /\
    ((length (List.filter has_gap all) <= 100)%nat -> hidden = []).
Proof.
  intros Ha Hl. set (gaps := arrange (List.filter has_gap all)).
  destruct (topn_parts gaps 100 (by_place (fun c => (co_Namespace c, co_Name c)))) as (rest & Hperm & Hshort).
  exists (List.filter lacks rest). split.
  - rewrite <- List.filter_app. change (listed_gaps arrange all) with (TopN gaps 100 (by_place (fun c => (co_Namespace c, co_Name c)))).
    rewrite (Permutation_filter lacks _ _ Hperm). unfold gaps. rewrite (Permutation_filter lacks _ _ (Ha _)).
    clear -Hl. induction all as [|c l IH]; [done|]. cbn [List.filter]. destruct (has_gap c) eqn:Eg; cbn [List.filter].
    + destruct (lacks c); [by constructor|done].
    + destruct (lacks c) eqn:El; [by rewrite (Hl c El) in Eg|done].
  - intros Hle. rewrite Hshort; [done|]. unfold gaps. by rewrite (Permutation_length (Ha _)).
Qed.

(** The coverage findings name the replicated workloads that no disruption budget selects
    and that no autoscaler targets. For the payload of a completed run, the report makes one
    finding for each guard, with the number and the names of the workloads that lack it; it
    lists among those all of them when at most a hundred workloads have a gap. A guard whose
    list could not be read is missing nowhere. *)
Theorem coverage_findings_exact arrange pdbs hpas deployments statefulSets r c :
  let all := covers pdbs hpas deployments statefulSets in
  let gaps := listed_gaps arrange all in
  clusterView r "workload-coverage" c = (list_to_map (coverage_members (audit_coverage arrange all)), observed) ->
  (forall l, arrange l ≡ₚ l) ->
  map said (coverage_findings r c) =
    due "workload-coverage/missing-pdb" "replicated workload(s) without a PodDisruptionBudget" c
      (map place_of (List.filter (fun x => negb (co_HasPDB x)) gaps)) ++
    due "workload-coverage/missing-hpa" "replicated workload(s) without a HorizontalPodAutoscaler" c
      (map place_of (List.filter (fun x => negb (co_HasHPA x)) gaps)) /\
  (forall lacks, In lacks [fun x => negb (co_HasPDB x); fun x => negb (co_HasHPA x)] ->
     exists hidden, List.filter lacks gaps ++ hidden ≡ₚ List.filter lacks all /\
       ((length (List.filter has_gap all) <= 100)%nat -> hidden = [])) /\
  (forall x, x ∈ all -> pdbs = None -> co_HasPDB x = true) /\
  (forall x, x ∈ all -> 1 < co_Replicas x).
Proof.
  intros all gaps Hv Ha. split_and!.
  - unfold coverage_findings. rewrite Hv, bool_decide_eq_true_2 by done. cbn [negb].
    rewrite (objects_listed gap_members _ "gaps" gaps) by reflexivity.
    rewrite (gaps_read "has_pdb" co_HasPDB) by done. rewrite (gaps_read "has_hpa" co_HasHPA) by done.
    rewrite map_app. f_equal; apply due_when.
  - intros lacks [<-|[<-|[]]]; apply listed_parts; try done; unfold has_gap; intros x ->; [done|apply orb_true_r].
  - intros x Hx ->. unfold all, covers in Hx. apply elem_of_app in Hx as [(w & <- & _)%list_elem_of_In%in_map_iff|
      (w & <- & _)%list_elem_of_In%in_map_iff]; done.
  - intros x Hx. unfold all, covers in Hx. apply elem_of_app in Hx as [(w & <- & Hw)%list_elem_of_In%in_map_iff|
      (w & <- & Hw)%list_elem_of_In%in_map_iff]; apply filter_In in Hw as [_ Hw%Z.ltb_lt]; exact Hw.
Qed.
End Coverage.

(** ** A concrete cluster: selectors are a required label value *)

Definition app_is (v : string) : option (gmap string string -> bool) :=
  Some (fun labels => bool_decide (labels !! "app"%string = Some v)).

Definition workload (name : string) (replicas : Z) : Workload :=
  {| wl_Namespace := "web"; wl_Name := name; wl_Replicas := Some replicas; wl_Labels := {[ "app"%string := name ]} |}.

Definition sample_covers : list Coverage :=
  covers app_is (Some [{| pdb_Namespace := "web"; pdb_Selector := Some "front"%string |}]) None
    [workload "front" 3; workload "api" 2; workload "job" 1] [workload "db" 2].

Definition coverage_report : Report :=
  one_section "workload-coverage" (JObj (coverage_members (audit_coverage id sample_covers))).

Lemma coverage_findings_exact_witness :
  clusterView coverage_report "workload-coverage" "c1" =
    (list_to_map (coverage_members (audit_coverage id sample_covers)), observed) /\
  map said (coverage_findings coverage_report "c1") =
    [("workload-coverage/missing-pdb", "c1 has 2 replicated workload(s) without a PodDisruptionBudget",
      ["Deployment web/api"; "StatefulSet web/db"])]%string.
Proof.
  assert (Hv : clusterView coverage_report "workload-coverage" "c1" =
    (list_to_map (coverage_members (audit_coverage id sample_covers)), observed)) by reflexivity.
  split; [exact Hv|].
  rewrite (proj1 (coverage_findings_exact app_is id _ _ _ _ coverage_report "c1" Hv (fun l => reflexivity l))).
  vm_compute. reflexivity.
Defined.
