(* ===== verification/Events.v ===== *)
(** * internal/scanner/events

    The warning events of the last hour, counted by reason, and the finding read back.
    Instants are nanoseconds ([GoTime]); a timestamp the API left out is 0. The text of an
    instant in the time zone of the process is a parameter. *)

From Stdlib Require Import ZArith Lia String Ascii Sorted.
From stdpp Require Import base gmap strings list sets.
From S2P Require Import Prelude Maps Float64 Ratio GoTime Text Strs Data Observe Findings Finders FindHealth FindSecurity Scan Payload.

Local Open Scope Z_scope.

Definition warningWindow : Z := Hour.
Definition maxRecentWarnings : nat := 50.

(** int32 arithmetic. *)
Definition wrap32 (z : Z) : Z := (z + 2 ^ 31) mod 2 ^ 32 - 2 ^ 31.

Record Event := {
  ev_Namespace : string; ev_Object : string; ev_Kind : string; ev_Reason : string; ev_Message : string; ev_Type : string;
  ev_Count : Z; ev_FirstTimestamp : Z; ev_LastTimestamp : Z; ev_CreationTimestamp : Z }.

Record EventInfo := {
  ei_Namespace : string; ei_InvolvedObject : string; ei_Kind : string; ei_Reason : string; ei_Message : string;
  ei_Type : string; ei_Count : Z; ei_FirstSeen : string; ei_LastSeen : string }.

Record ReasonSummary := { rs_Reason : string; rs_Count : Z; rs_EventCount : nat }.

Record EventData := {
  evd_WarningEvents : nat; evd_TopWarningReasons : list ReasonSummary; evd_RecentWarnings : list EventInfo;
  evd_WindowSeconds : Z }.

Section Events.
Context (Format : Z -> string).

(** The first [maxLen] bytes, the last three of them dots. *)
Definition truncateMessage (msg : string) (maxLen : nat) : string :=
  if (String.length msg <=? maxLen)%nat then msg else (String.substring 0 (maxLen - 3) msg ++ "...")%string.

Definition or_created (ev : Event) (t : Z) : Z := if IsZero t then ev_CreationTimestamp ev else t.
Definition lastSeen (ev : Event) : Z := or_created ev (ev_LastTimestamp ev).
Definition firstSeen (ev : Event) : Z := or_created ev (ev_FirstTimestamp ev).
Definition occurrences (ev : Event) : Z := if ev_Count ev =? 0 then 1 else ev_Count ev.

Definition in_window (now : Z) (ev : Event) : bool := negb (lastSeen ev <? now - warningWindow).

Definition event_info (ev : Event) : EventInfo := {|
  ei_Namespace := ev_Namespace ev; ei_InvolvedObject := ev_Object ev; ei_Kind := ev_Kind ev; ei_Reason := ev_Reason ev;
  ei_Message := truncateMessage (ev_Message ev) 500; ei_Type := ev_Type ev; ei_Count := occurrences ev;
  ei_FirstSeen := Format (firstSeen ev); ei_LastSeen := Format (lastSeen ev) |}.

Definition compareWarnings : EventInfo -> EventInfo -> comparison :=
  cmp_lex (cmp_rev (cmp_on ei_LastSeen String.compare))
    (cmp_lex (cmp_on ei_Namespace String.compare)
       (cmp_lex (cmp_on ei_Kind String.compare)
          (cmp_lex (cmp_on ei_InvolvedObject String.compare)
             (cmp_lex (cmp_on ei_Reason String.compare) (cmp_on ei_Message String.compare))))).

Definition compareReasons : ReasonSummary -> ReasonSummary -> comparison :=
  cmp_lex (cmp_rev (cmp_on rs_Count Z.compare)) (cmp_on rs_Reason String.compare).

(** [reasonCounts] and [reasonEventCounts], which have the same keys. *)
Definition count_reason (counts : gmap string (Z * nat)) (ev : Event) : gmap string (Z * nat) :=
  let before := default (0, O) (counts !! ev_Reason ev) in
  <[ev_Reason ev := (wrap32 (fst before + occurrences ev), S (snd before))]> counts.

Definition reasonCounts (recent : list Event) : gmap string (Z * nat) := fold_left count_reason recent ∅.

Definition reason_summary (entry : string * (Z * nat)) : ReasonSummary :=
  {| rs_Reason := fst entry; rs_Count := fst (snd entry); rs_EventCount := snd (snd entry) |}.

(** [order] is the order in which the map of reasons is ranged over. *)
Definition audit_events (order : list (string * (Z * nat)) -> list (string * (Z * nat))) (now : Z) (eventList : list Event) : EventData :=
  let recent := List.filter (in_window now) eventList in {|
  evd_WarningEvents := length recent;
  evd_TopWarningReasons := TopN (map reason_summary (order (map_to_list (reasonCounts recent)))) 10 compareReasons;
  evd_RecentWarnings := TopN (map event_info recent) maxRecentWarnings compareWarnings;
  evd_WindowSeconds := Z.quot warningWindow Second |}.

Definition reason_members (s : ReasonSummary) : list (string * json) := [
  ("reason", JStr (rs_Reason s)); ("count", int_json (rs_Count s)); ("event_count", count_json (rs_EventCount s))].

Definition event_members (e : EventInfo) : list (string * json) := [
  ("namespace", JStr (ei_Namespace e)); ("involved_object", JStr (ei_InvolvedObject e)); ("kind", JStr (ei_Kind e));
  ("reason", JStr (ei_Reason e)); ("message", JStr (ei_Message e)); ("type", JStr (ei_Type e));
  ("count", int_json (ei_Count e)); ("first_seen", JStr (ei_FirstSeen e)); ("last_seen", JStr (ei_LastSeen e))].

Definition events_members (d : EventData) : list (string * json) := [
  ("warning_events", count_json (evd_WarningEvents d));
  ("top_warning_reasons", list_json (fun s => JObj (reason_members s)) (evd_TopWarningReasons d));
  ("recent_warnings", list_json (fun e => JObj (event_members e)) (evd_RecentWarnings d));
  ("window_seconds", int_json (evd_WindowSeconds d))].

Definition EventScanner {E} `{!ApiError E} (order : list (string * (Z * nat)) -> list (string * (Z * nat))) (now : Z)
  (events : list Event + E) : Result * option coverageError :=
  let '(cov, eventList) := optional_list coverage_empty "events" events in
  Finish cov "events" (JObj (events_members (audit_events order now eventList))).

(** ** Facts *)

Lemma wrap32_range z : - 2 ^ 31 <= wrap32 z < 2 ^ 31.
Proof. unfold wrap32. pose proof (Z.mod_pos_bound (z + 2 ^ 31) (2 ^ 32)). lia. Qed.

Lemma wrap32_add a b : wrap32 (wrap32 a + b) = wrap32 (a + b).
Proof.
  unfold wrap32. f_equal. replace ((a + 2 ^ 31) mod 2 ^ 32 - 2 ^ 31 + b + 2 ^ 31) with ((a + 2 ^ 31) mod 2 ^ 32 + b) by lia.
  rewrite Z.add_mod_idemp_l by lia. f_equal. lia.
Qed.

(** What is recorded of a reason: its occurrences in int32, and its events. *)
Definition with_reason (reason : string) (recent : list Event) : list Event :=
  List.filter (fun ev => String.eqb (ev_Reason ev) reason) recent.

Definition occurred (recent : list Event) : Z := wrap32 (fold_left (fun n ev => n + occurrences ev) recent 0).

Lemma reason_counts recent reason : reasonCounts recent !! reason =
  match with_reason reason recent with
  | [] => None
  | evs => Some (occurred evs, length evs)
  end.
Proof.
  unfold reasonCounts. induction recent as [|ev recent IH] using rev_ind; [done|].
  rewrite fold_left_app. cbn [fold_left]. set (counts := fold_left count_reason recent ∅) in *. clearbody counts.
  unfold count_reason, with_reason in *. rewrite List.filter_app. cbn [List.filter].
  destruct (String.eqb_spec (ev_Reason ev) reason) as [<-|Hne].
  - rewrite IH. destruct (List.filter _ recent) as [|x l]; cbn [default app].
    + rewrite lookup_insert_eq. done.
    + rewrite lookup_insert_eq. f_equal. f_equal; [|cbn; rewrite length_app; cbn; lia].
      unfold occurred. rewrite app_comm_cons, fold_left_app. cbn [fold_left]. unfold id. cbn [fst]. by rewrite wrap32_add.
  - rewrite app_nil_r. rewrite lookup_insert_ne by done. exact IH.
Qed.

(** The order in which the map is ranged over does not matter: reasons are distinct. *)
Lemma ranked_order_free (entries1 entries2 : list (string * (Z * nat))) : NoDup entries1.*1 -> entries1 ≡ₚ entries2 ->
  TopN (map reason_summary entries1) 10 compareReasons = TopN (map reason_summary entries2) 10 compareReasons.
Proof.
  intros Hd Hp. unfold TopN. f_equal. apply (isort_perm_eq compareReasons); [|by apply Permutation_map].
  intros x y Hx Hy Hc. apply list_elem_of_In, in_map_iff in Hx as ([k [o n]] & <- & Hx).
  apply list_elem_of_In, in_map_iff in Hy as ([k' [o' n']] & <- & Hy). unfold reason_summary. cbn [fst snd].
  assert (k = k') as <-.
  { unfold compareReasons, cmp_lex, cmp_on, cmp_rev, cmp_then in Hc. cbn in Hc. destruct (o' ?= o); try done. by apply string_compare_antisym. }
  apply list_elem_of_In in Hx. apply list_elem_of_In in Hy. assert ((o, n) = (o', n')) as [= <- <-] by (by eapply NoDup_fst_inv). done.
Qed.

(** The reasons a scan of these events ranks: each with its own count, most frequent first. *)
Definition summaries (recent : list Event) : list ReasonSummary := map reason_summary (map_to_list (reasonCounts recent)).

Lemma summaries_count recent s : s ∈ summaries recent ->
  rs_Count s = occurred (with_reason (rs_Reason s) recent) /\ rs_EventCount s = length (with_reason (rs_Reason s) recent) /\
  (0 < rs_EventCount s)%nat.
Proof.
  intros ([k [o n]] & <- & Hk%list_elem_of_In%elem_of_map_to_list)%list_elem_of_In%in_map_iff.
  rewrite reason_counts in Hk. cbn [reason_summary rs_Count rs_EventCount rs_Reason fst snd].
  destruct (with_reason k recent); [done|]. injection Hk as <- <-. cbn. split_and!; [done|done|lia].
Qed.

Lemma reason_read s : - 2 ^ 31 <= rs_Count s < 2 ^ 31 -> reason_text (list_to_map (reason_members s)) =
  if String.eqb (rs_Reason s) "" then None else Some (rs_Reason s ++ " (" ++ itoa (rs_Count s) ++ ")")%string.
Proof.
  intros Hs. unfold reason_text.
  assert (get_int (list_to_map (reason_members s)) "count" = rs_Count s) as ->.
  { transitivity (f_to_int (f_of_Z (rs_Count s))); [reflexivity|]. apply f_to_int_of_int. lia. }
  reflexivity.
Qed.

Definition named_reason (s : ReasonSummary) : option string :=
  if String.eqb (rs_Reason s) "" then None else Some (rs_Reason s ++ " (" ++ itoa (rs_Count s) ++ ")")%string.

(** The event finding counts the warnings of the last hour and names their three most
    frequent reasons. For the payload the scanner writes for a list of events, there is a
    finding exactly when some event was last seen within the window; it counts those events,
    and the reasons it names are ranked by how often they occurred, of ten at most, whatever
    the order in which Go ranges over the map. *)
Theorem event_finding_exact order now eventList r c o :
  let recent := List.filter (in_window now) eventList in
  clusterView r "events" c = (list_to_map (events_members (audit_events order now eventList)), o) -> seen o = true ->
  (forall l, order l ≡ₚ l) -> Z.of_nat (length eventList) <= 2 ^ 53 ->
  map said (event_finding r c) =
    (if (length recent =? 0)%nat then []
     else [("events/warning-volume"%string, (c ++ " has " ++ itoa (zlen recent) ++ " warning event(s) in the last hour")%string,
            take 3 (omap named_reason (TopN (summaries recent) 10 compareReasons)))]) /\
  (forall s, s ∈ summaries recent -> rs_Count s = occurred (with_reason (rs_Reason s) recent)).
Proof.
  intros recent Hv Ho Horder Hlen. split; [|intros s Hs; apply (summaries_count recent s Hs)].
  unfold event_finding. pose proof (filter_length_le (in_window now) eventList) as Hle. fold recent in Hle.
  rewrite (observed_count r "events" c _ o "warning_events" (length recent) Hv Ho) by (reflexivity || lia).
  rewrite Ho. cbn [negb orb]. destruct (Nat.eqb_spec (length recent) 0) as [->|Hn]; [done|].
  rewrite (proj2 (Z.eqb_neq (Z.of_nat (length recent)) 0)) by lia.
  destruct (observeInt r "node-health" c "node_count") as [nodes nodesObs]. cbn [map said]. unfold said.
  cbn [fi_Rule fi_Title fi_Affected finding_of]. do 2 f_equal.
  unfold topEventReasons. rewrite Hv, Ho. cbn [negb].
  rewrite (objects_listed reason_members _ "top_warning_reasons" (TopN (map reason_summary (order (map_to_list (reasonCounts recent)))) 10 compareReasons)) by reflexivity.
  rewrite (ranked_order_free _ (map_to_list (reasonCounts recent))); [|rewrite Horder; apply NoDup_fst_map_to_list|apply Horder].
  f_equal. rewrite omap_map. fold (summaries recent).
  assert (Hall : forall s, s ∈ TopN (summaries recent) 10 compareReasons -> - 2 ^ 31 <= rs_Count s < 2 ^ 31).
  { intros s (i & Hi & _)%elem_of_take. apply list_elem_of_lookup_2, isort_elem_of, summaries_count in Hi as [-> _].
    apply wrap32_range. }
  revert Hall. generalize (TopN (summaries recent) 10 compareReasons). intros l Hall. induction l as [|s l IH]; [done|].
  cbn [omap list_omap]. rewrite reason_read by (apply Hall; by left). unfold named_reason at 1.
  destruct (String.eqb (rs_Reason s) ""); [|f_equal]; apply IH; intros; apply Hall; by right.
Qed.
End Events.

Definition warning (reason : string) (count last : Z) : Event := {|
  ev_Namespace := "web"; ev_Object := "front"; ev_Kind := "Pod"; ev_Reason := reason; ev_Message := "";
  ev_Type := "Warning"; ev_Count := count; ev_FirstTimestamp := 0; ev_LastTimestamp := last; ev_CreationTimestamp := 5 * Day |}.

(** One reason twice, an event with neither count nor last timestamp, one too old. *)
Definition four_events : list Event :=
  [warning "BackOff" 7 (5 * Day); warning "Unhealthy" 0 0; warning "BackOff" 2 (5 * Day); warning "Failed" 90 (4 * Day)].

Definition events_data : EventData := audit_events RFC3339 (@rev _) (5 * Day + Minute) four_events.

Definition events_report : Report := one_section "events" (JObj (events_members events_data)).

Lemma event_finding_exact_witness :
  clusterView events_report "events" "c1" = (list_to_map (events_members events_data), observed) /\
  map said (event_finding events_report "c1") =
    [("events/warning-volume", "c1 has 3 warning event(s) in the last hour", ["BackOff (9)"; "Unhealthy (1)"])]%string.
Proof.
  assert (Hv : clusterView events_report "events" "c1" = (list_to_map (events_members events_data), observed)) by reflexivity.
  split; [exact Hv|].
  rewrite (proj1 (event_finding_exact RFC3339 (@rev _) (5 * Day + Minute) four_events events_report "c1" observed Hv eq_refl
    (fun l => Permutation_sym (Permutation_rev l)) ltac:(vm_compute; discriminate))).
  vm_compute. reflexivity.
Defined.
