(* ===== verification/Objects.v ===== *)
(** * internal/scanner: clusterinfo, crd, ingress, service, version, resources

    Six scanners that list objects as they are, and the platform finding read back. A quantity
    is what its methods return: its text, its value in thousandths and its value. *)

From Stdlib Require Import ZArith Lia String Ascii Sorted.
From stdpp Require Import base gmap strings list sets.
From S2P Require Import Prelude Maps Float64 Text Format Data Observe Findings Finders FindHealth FindCluster Scan Payload.

Local Open Scope nat_scope.

(** A non-nil slice. *)
Definition objects_json {A} (f : A -> list (string * json)) (l : list A) : json := JArr (map (fun a => JObj (f a)) l).

(** ** clusterinfo.go *)

Record NodeInfo := {
  ni_Name : string; ni_OSImage : string; ni_KernelVersion : string; ni_ContainerRuntimeVersion : string;
  ni_KubeletVersion : string; ni_KubeProxyVersion : string }.

Record InfoData := {
  ifd_NodeCount : nat; ifd_OSImages : list string; ifd_KernelVersions : list string; ifd_RuntimeVersions : list string;
  ifd_KubeletVersions : list string; ifd_HasDrift : bool; ifd_Nodes : list NodeInfo }.

(** [uniqueStringSet]: the distinct non-empty strings, sorted. *)
Definition add_string (s : gset string) (v : string) : gset string := if String.eqb v "" then s else {[v]} ∪ s.
Definition sortedSlice (s : gset string) : list string := sort_strings (elements s).
Definition distinct (values : list string) : list string := sortedSlice (fold_left add_string values ∅).

Definition audit_info (nodes : list NodeInfo) : InfoData :=
  let os := distinct (map ni_OSImage nodes) in
  let kernel := distinct (map ni_KernelVersion nodes) in
  let runtime := distinct (map ni_ContainerRuntimeVersion nodes) in
  let kubelet := distinct (map ni_KubeletVersion nodes) in {|
  ifd_NodeCount := length nodes; ifd_OSImages := os; ifd_KernelVersions := kernel; ifd_RuntimeVersions := runtime;
  ifd_KubeletVersions := kubelet;
  ifd_HasDrift := (1 <? length os) || (1 <? length kernel) || (1 <? length runtime) || (1 <? length kubelet);
  ifd_Nodes := take 200 (isort (less_of (cmp_on ni_Name String.compare)) nodes) |}.

Definition node_info_members (n : NodeInfo) : list (string * json) := [
  ("name", JStr (ni_Name n)); ("os_image", JStr (ni_OSImage n)); ("kernel_version", JStr (ni_KernelVersion n));
  ("container_runtime_version", JStr (ni_ContainerRuntimeVersion n)); ("kubelet_version", JStr (ni_KubeletVersion n));
  ("kube_proxy_version", JStr (ni_KubeProxyVersion n))].

Definition info_members (d : InfoData) : list (string * json) := [
  ("node_count", count_json (ifd_NodeCount d)); ("os_images", strings_json (ifd_OSImages d));
  ("kernel_versions", strings_json (ifd_KernelVersions d)); ("runtime_versions", strings_json (ifd_RuntimeVersions d));
  ("kubelet_versions", strings_json (ifd_KubeletVersions d)); ("has_drift", JBool (ifd_HasDrift d));
  ("nodes", list_json (fun n => JObj (node_info_members n)) (ifd_Nodes d))].

Definition InfoScanner {E} `{!ApiError E} (nodes : list NodeInfo + E) : Result * option coverageError :=
  let '(cov, list) := optional_list coverage_empty "nodes" nodes in
  Finish cov "cluster-info" (JObj (info_members (audit_info list))).

(** ** crd.go *)

Record CrdInfo := { cr_Name : string; cr_Group : string; cr_Versions : list string; cr_Scope : string }.

Definition member_obj (m : obj) (k : string) : option obj := match m !! k with Some v => as_obj v | None => None end.

Definition version_name (v : json) : option string :=
  vm ← as_obj v; name ← (vm : obj) !! "name"%string; as_str name.

Definition extractCRDInfo (o : obj) : CrdInfo :=
  let name := match member_obj o "metadata" with Some meta => get_str meta "name" | None => "" end in
  match member_obj o "spec" with
  | None => {| cr_Name := name; cr_Group := ""; cr_Versions := []; cr_Scope := "" |}
  | Some spec => {|
      cr_Name := name; cr_Group := get_str spec "group"; cr_Versions := omap version_name (get_arr spec "versions");
      cr_Scope := get_str spec "scope" |}
  end.

Definition list_crds (items : list obj) : list CrdInfo :=
  isort (less_of (cmp_on cr_Name String.compare)) (map extractCRDInfo items).

Definition crd_members (i : CrdInfo) : list (string * json) := [
  ("name", JStr (cr_Name i)); ("group", JStr (cr_Group i)); ("versions", list_json JStr (cr_Versions i));
  ("scope", JStr (cr_Scope i))].

Definition CrdScanner {E} `{!ApiError E} (items : list obj + E) : Result * option coverageError :=
  let '(cov, items) := optional_list coverage_empty "custom resource definitions" items in
  Finish cov "crds" (JObj [("count", count_json (length (list_crds items))); ("crds", objects_json crd_members (list_crds items))]).

(** ** ingress.go *)

Record Ingress := {
  ig_Namespace : string; ig_Name : string; ig_Class : option string; ig_RuleHosts : list string; ig_TLSEntries : nat }.

Record IngressInfo := {
  ii_Namespace : string; ii_Name : string; ii_IngressClassName : string; ii_Hosts : list string; ii_TLS : bool }.

Definition ingress_info (ing : Ingress) : IngressInfo := {|
  ii_Namespace := ig_Namespace ing; ii_Name := ig_Name ing; ii_IngressClassName := default ""%string (ig_Class ing);
  ii_Hosts := List.filter (fun h => negb (String.eqb h "")) (ig_RuleHosts ing); ii_TLS := 0 <? ig_TLSEntries ing |}.

Definition list_ingresses (ingList : list Ingress) : list IngressInfo :=
  sort_places (fun i => (ii_Namespace i, ii_Name i)) (map ingress_info ingList).

Definition ingress_members (i : IngressInfo) : list (string * json) :=
  [("namespace", JStr (ii_Namespace i)); ("name", JStr (ii_Name i))] ++
  text_member "ingress_class_name" (ii_IngressClassName i) ++
  match ii_Hosts i with [] => [] | hosts => [("hosts", strings_json hosts)] end ++ [("tls", JBool (ii_TLS i))].

Definition IngressScanner {E} `{!ApiError E} (ingresses : list Ingress + E) : Result * option coverageError :=
  let '(cov, ingList) := optional_list coverage_empty "ingresses" ingresses in
  Finish cov "ingresses" (JObj [("count", count_json (length ingList)); ("ingresses", objects_json ingress_members (list_ingresses ingList))]).

(** ** service.go *)

Record PortInfo := { po_Name : string; po_Port : Z; po_Protocol : string }.
Record Service := { sv_Namespace : string; sv_Name : string; sv_Type : string; sv_Ports : list PortInfo }.

Definition list_services (svcList : list Service) : list Service :=
  sort_places (fun s => (sv_Namespace s, sv_Name s)) svcList.

Definition port_members (p : PortInfo) : list (string * json) :=
  text_member "name" (po_Name p) ++ [("port", int_json (po_Port p)); ("protocol", JStr (po_Protocol p))].

Definition service_members (s : Service) : list (string * json) :=
  [("namespace", JStr (sv_Namespace s)); ("name", JStr (sv_Name s)); ("type", JStr (sv_Type s))] ++
  match sv_Ports s with [] => [] | ports => [("ports", objects_json port_members ports)] end.

Definition ServiceScanner {E} `{!ApiError E} (services : list Service + E) : Result * option coverageError :=
  let '(cov, svcList) := optional_list coverage_empty "services" services in
  Finish cov "services" (JObj [("count", count_json (length svcList)); ("services", objects_json service_members (list_services svcList))]).

(** ** version.go *)

Record VersionInfo := { vi_Major : string; vi_Minor : string; vi_GitVersion : string; vi_Platform : string }.

Definition version_members (v : VersionInfo) : list (string * json) := [
  ("major", JStr (vi_Major v)); ("minor", JStr (vi_Minor v)); ("git_version", JStr (vi_GitVersion v));
  ("platform", JStr (vi_Platform v))].

(** One call, no coverage: the result has no state, which reads as OK. *)
Definition VersionScanner {E} `{!ApiError E} (info : VersionInfo + E) : Result * option string :=
  match info with
  | inr err => ({| res_Scanner := ""; res_State := ""; res_Reason := ""; res_Data := JNull |},
      Some (ErrScan ++ ": version: " ++ err_text err)%string)
  | inl v => ({| res_Scanner := "version"; res_State := ""; res_Reason := ""; res_Data := JObj (version_members v) |}, None)
  end.

(** ** resources.go *)

(** [Quantity]: [String], [MilliValue] and [Value]. *)
Record Quantity := { q_String : string; q_MilliValue : Z; q_Value : Z }.

Record ResourceNode := {
  rn_Name : string; rn_Conditions : list (string * string); rn_Unschedulable : bool; rn_AllocCPU : Quantity;
  rn_AllocMemory : Quantity; rn_CapCPU : Quantity; rn_CapMemory : Quantity }.

Record NodeResources := {
  nr_Name : string; nr_AllocatableCPU : string; nr_AllocatableMemory : string; nr_CapacityCPU : string;
  nr_CapacityMemory : string; nr_Conditions : gmap string string; nr_Unschedulable : bool }.

Record ResourceData := {
  rsd_NodeCount : nat; rsd_ReadyNodes : nat; rsd_UnschedulableNodes : nat; rsd_TotalAllocatableCPU : string;
  rsd_TotalAllocatableMemory : string; rsd_Nodes : list NodeResources }.

Definition formatBytes (b : Z) : string :=
  let gi := (1024 * 1024 * 1024)%Z in let mi := (1024 * 1024)%Z in
  if (gi <=? b)%Z then (show_fixed 1 (f_div (f_of_Z b) (f_of_Z gi)) ++ "Gi")%string
  else (show_fixed 1 (f_div (f_of_Z b) (f_of_Z mi)) ++ "Mi")%string.

Definition node_resources (n : ResourceNode) : NodeResources := {|
  nr_Name := rn_Name n; nr_AllocatableCPU := q_String (rn_AllocCPU n); nr_AllocatableMemory := q_String (rn_AllocMemory n);
  nr_CapacityCPU := q_String (rn_CapCPU n); nr_CapacityMemory := q_String (rn_CapMemory n);
  nr_Conditions := last_of (rn_Conditions n); nr_Unschedulable := rn_Unschedulable n |}.

(** A node is counted once for each Ready condition that is true. *)
Definition ready_conditions (n : ResourceNode) : list (string * string) :=
  List.filter (fun c => String.eqb (fst c) "Ready" && String.eqb (snd c) "True") (rn_Conditions n).

Definition total (f : ResourceNode -> Z) (nodes : list ResourceNode) : Z :=
  fold_left (fun t n => wrap64 (t + f n)) nodes 0%Z.

Definition audit_resources (nodeList : list ResourceNode) : ResourceData := {|
  rsd_NodeCount := length nodeList;
  rsd_ReadyNodes := length (flat_map ready_conditions nodeList);
  rsd_UnschedulableNodes := length (List.filter rn_Unschedulable nodeList);
  rsd_TotalAllocatableCPU := (itoa (total (fun n => q_MilliValue (rn_AllocCPU n)) nodeList) ++ "m")%string;
  rsd_TotalAllocatableMemory := formatBytes (total (fun n => q_Value (rn_AllocMemory n)) nodeList);
  rsd_Nodes := isort (less_of (cmp_on nr_Name String.compare)) (map node_resources nodeList) |}.

Definition resource_node_members (n : NodeResources) : list (string * json) := [
  ("name", JStr (nr_Name n)); ("allocatable_cpu", JStr (nr_AllocatableCPU n));
  ("allocatable_memory", JStr (nr_AllocatableMemory n)); ("capacity_cpu", JStr (nr_CapacityCPU n));
  ("capacity_memory", JStr (nr_CapacityMemory n)); ("conditions", label_map_json (nr_Conditions n));
  ("unschedulable", JBool (nr_Unschedulable n))].

Definition resource_members (d : ResourceData) : list (string * json) := [
  ("node_count", count_json (rsd_NodeCount d)); ("ready_nodes", count_json (rsd_ReadyNodes d));
  ("unschedulable_nodes", count_json (rsd_UnschedulableNodes d));
  ("total_allocatable_cpu", JStr (rsd_TotalAllocatableCPU d));
  ("total_allocatable_memory", JStr (rsd_TotalAllocatableMemory d));
  ("nodes", list_json (fun n => JObj (resource_node_members n)) (rsd_Nodes d))].

Definition ResourceScanner {E} `{!ApiError E} (nodes : list ResourceNode + E) : Result * option coverageError :=
  let '(cov, nodeList) := optional_list coverage_empty "nodes" nodes in
  Finish cov "resources" (JObj (resource_members (audit_resources nodeList))).

(** ** Facts: platform drift *)

Lemma distinct_elem values v : v ∈ distinct values <-> v <> ""%string /\ v ∈ values.
Proof.
  unfold distinct, sortedSlice. rewrite sort_strings_elem_of, elem_of_elements.
  enough (forall s, v ∈ fold_left add_string values s <-> v ∈ s \/ v <> ""%string /\ v ∈ values) as -> by set_solver.
  induction values as [|x values IH]; intros s; cbn [fold_left]; [set_solver|]. rewrite IH. unfold add_string.
  destruct (String.eqb_spec x "") as [->|Hx]; set_solver.
Qed.

Lemma distinct_NoDup values : NoDup (distinct values).
Proof. apply sort_strings_NoDup, NoDup_elements. Qed.

(** Two nodes name different values. *)
Definition differ (f : NodeInfo -> string) (nodes : list NodeInfo) : Prop :=
  exists n1 n2, n1 ∈ nodes /\ n2 ∈ nodes /\ f n1 <> ""%string /\ f n2 <> ""%string /\ f n1 <> f n2.

Lemma several_values f nodes : (1 <? length (distinct (map f nodes))) = true <-> differ f nodes.
Proof.
  rewrite Nat.ltb_lt. pose proof (distinct_NoDup (map f nodes)) as Hd. pose proof (distinct_elem (map f nodes)) as Hin.
  destruct (distinct (map f nodes)) as [|a [|b l]]; cbn [length]; split; try lia.
  - intros (n1 & _ & H1 & _ & Hne & _). assert (f n1 ∈ []) as Hx by (apply Hin; split; [done|by apply list_elem_of_fmap_2]).
    by apply elem_of_nil in Hx.
  - intros (n1 & n2 & H1 & H2 & Hn1 & Hn2 & Hne). exfalso. apply Hne.
    assert (f n1 ∈ [a]) as ->%list_elem_of_singleton by (apply Hin; split; [done|by apply list_elem_of_fmap_2]).
    assert (f n2 ∈ [a]) as ->%list_elem_of_singleton by (apply Hin; split; [done|by apply list_elem_of_fmap_2]). done.
  - intros _. apply NoDup_cons in Hd as [Hab _].
    destruct (proj1 (Hin a)) as [Ha (n1 & -> & H1)%list_elem_of_fmap]; [by left|].
    destruct (proj1 (Hin b)) as [Hb (n2 & -> & H2)%list_elem_of_fmap]; [by right; left|].
    exists n1, n2. split_and!; try done. intros E. apply Hab. rewrite E. by left.
Qed.

Definition platform_fields : list (string * (NodeInfo -> string)) := [
  ("os_images"%string, ni_OSImage); ("kernel_versions"%string, ni_KernelVersion);
  ("runtime_versions"%string, ni_ContainerRuntimeVersion); ("kubelet_versions"%string, ni_KubeletVersion)].

(** The line of one field, when its values differ. *)
Definition platform_line (nodes : list NodeInfo) (field : string * (NodeInfo -> string)) : option string :=
  let values := distinct (map (snd field) nodes) in
  if 1 <? length values then Some (fst field ++ ": " ++ join ", " values)%string else None.

(** A cluster is reported for platform drift exactly when two of its nodes name different
    operating systems, kernels, runtimes or kubelets. For the payload the scanner writes for a
    list of nodes, the finding has one line for each of the four that differs, with its
    distinct values in order, every one of them on some node; a node that does not name a
    value is not held against the rest. *)
Theorem platform_drift_exact r c nodes o :
  clusterView r "cluster-info" c = (list_to_map (info_members (audit_info nodes)), o) -> seen o = true ->
  map said (cluster_info_finding r c) =
    (match omap (platform_line nodes) platform_fields with
     | [] => []
     | lines => [("cluster-info/node-platform-drift"%string, (c ++ " has node-level platform drift")%string, lines)]
     end) /\
  (cluster_info_finding r c <> [] <-> exists key f, In (key, f) platform_fields /\ differ f nodes) /\
  (forall key f v, In (key, f) platform_fields ->
     v ∈ distinct (map f nodes) <-> v <> ""%string /\ exists n, n ∈ nodes /\ v = f n).
Proof.
  intros Hv Ho.
  assert (Hline : forall key f, In (key, f) platform_fields ->
    platform_detail (list_to_map (info_members (audit_info nodes))) key = platform_line nodes (key, f)).
  { intros key f Hin. unfold platform_detail, platform_line. cbn [fst snd].
    assert (get_arr (list_to_map (info_members (audit_info nodes))) key = map JStr (distinct (map f nodes))) as ->
      by (by destruct Hin as [[= <- <-]|[[= <- <-]|[[= <- <-]|[[= <- <-]|[]]]]]).
    unfold FindSecurity.zlen. rewrite length_map, strings_read.
    destruct (Z.ltb_spec 1 (Z.of_nat (length (distinct (map f nodes))))), (Nat.ltb_spec 1 (length (distinct (map f nodes)))); try done; lia. }
  assert (Hflag : get_bool (list_to_map (info_members (audit_info nodes))) "has_drift" = ifd_HasDrift (audit_info nodes)) by done.
  assert (Hlines : omap (platform_detail (list_to_map (info_members (audit_info nodes))))
    ["os_images"; "kernel_versions"; "runtime_versions"; "kubelet_versions"]%string = omap (platform_line nodes) platform_fields).
  { cbn [omap list_omap platform_fields].
    rewrite !(Hline _ _ (or_introl eq_refl)), !(Hline _ _ (or_intror (or_introl eq_refl))),
      !(Hline _ _ (or_intror (or_intror (or_introl eq_refl)))), !(Hline _ _ (or_intror (or_intror (or_intror (or_introl eq_refl))))). done. }
  assert (Hdrift : ifd_HasDrift (audit_info nodes) = match omap (platform_line nodes) platform_fields with [] => false | _ => true end).
  { cbn [audit_info ifd_HasDrift omap list_omap platform_fields]. unfold platform_line. cbn [fst snd]. by destruct (1 <? length (distinct (map ni_OSImage nodes))),
      (1 <? length (distinct (map ni_KernelVersion nodes))), (1 <? length (distinct (map ni_ContainerRuntimeVersion nodes))),
      (1 <? length (distinct (map ni_KubeletVersion nodes))). }
  assert (Hfind : cluster_info_finding r c = [] <-> ifd_HasDrift (audit_info nodes) = false).
  { unfold cluster_info_finding. rewrite Hv, Ho, Hflag. cbn [andb]. by destruct (ifd_HasDrift _). }
  split_and!.
  - unfold cluster_info_finding. rewrite Hv, Ho, Hflag, Hlines. cbn [andb]. rewrite Hdrift.
    by destruct (omap (platform_line nodes) platform_fields).
  - rewrite Hfind, not_false_iff_true. cbn [audit_info ifd_HasDrift]. rewrite !orb_true_iff, !several_values. split.
    + intros [[[H|H]|H]|H]; eexists _, _; (split; [|exact H]); cbn; eauto.
    + intros (key & f & Hin & H). destruct Hin as [[= <- <-]|[[= <- <-]|[[= <- <-]|[[= <- <-]|[]]]]]; tauto.
  - intros key f v _. rewrite distinct_elem. split; intros [Hne H]; (split; [done|]).
    + apply list_elem_of_fmap in H as (n & -> & Hn). by exists n.
    + destruct H as (n & Hn & ->). by apply list_elem_of_fmap_2.
Qed.

Definition node_named (name os : string) : NodeInfo := {|
  ni_Name := name; ni_OSImage := os; ni_KernelVersion := "6.1"; ni_ContainerRuntimeVersion := "containerd://1.7";
  ni_KubeletVersion := ""; ni_KubeProxyVersion := "" |}.

Definition info_sample : InfoData := audit_info [node_named "b" "Ubuntu 24.04"; node_named "a" "Flatcar"; node_named "c" "Flatcar"].

Definition info_report : Report := one_section "cluster-info" (JObj (info_members info_sample)).

Lemma platform_drift_exact_witness :
  clusterView info_report "cluster-info" "c1" = (list_to_map (info_members info_sample), observed) /\
  map said (cluster_info_finding info_report "c1") =
    [("cluster-info/node-platform-drift", "c1 has node-level platform drift", ["os_images: Flatcar, Ubuntu 24.04"])]%string.
Proof.
  assert (Hv : clusterView info_report "cluster-info" "c1" = (list_to_map (info_members info_sample), observed)) by reflexivity.
  split; [exact Hv|].
  rewrite (proj1 (platform_drift_exact info_report "c1" _ observed Hv eq_refl)). vm_compute. reflexivity.
Defined.
