(* ===== verification/Metrics.v ===== *)
(** * internal/scanner/metrics

    Node usage as a share of what is allocatable, its averages and maxima, and what the
    report observes of them. Parsing a quantity is a parameter. *)

From Stdlib Require Import ZArith Lia String Ascii Floats.SpecFloat.
From stdpp Require Import base gmap strings list sets.
From S2P Require Import Prelude Maps Float64 GoTime Text Data Observe Findings Finders Capacity Scan Payload Objects.

Local Open Scope nat_scope.

Record NodeMetrics := {
  nm_Name : string; nm_CPUUsage : string; nm_MemoryUsage : string; nm_CPUPercent : float64; nm_MemoryPercent : float64 }.

(** Allocatable CPU in thousandths, and memory in bytes. *)
Record allocInfo := { al_cpuMilli : Z; al_memBytes : Z }.

(** The averages and maxima are nil pointers when no node resolved. *)
Record Usage := {
  us_Nodes : nat; us_TotalCPU : float64; us_TotalMem : float64; us_MaxCPU : float64; us_MaxMem : float64;
  us_MaxCPUNode : string; us_MaxMemNode : string }.

Record MetricsData := { md_NodeCount : nat; md_Usage : Usage; md_Nodes : list NodeMetrics }.

Definition unresolved : float64 := f_of_Z (-1).

Section Metrics.
(** resource.ParseQuantity. *)
Context (ParseQuantity : string -> option Quantity).

(** Usage above zero, as a percentage of what is allocatable. *)
Definition percent (used : option Z) (allocatable : Z) : float64 :=
  match used with
  | Some u => if (0 <? u)%Z then f_mul (f_div (f_of_Z u) (f_of_Z allocatable)) (f_of_Z 100) else unresolved
  | None => unresolved
  end.

Definition metrics_of (name cpu memory : string) (cpuPercent memoryPercent : float64) : NodeMetrics := {|
  nm_Name := name; nm_CPUUsage := cpu; nm_MemoryUsage := memory; nm_CPUPercent := cpuPercent; nm_MemoryPercent := memoryPercent |}.

Definition extractNodeMetrics (o : obj) (alloc : gmap string allocInfo) : NodeMetrics :=
  let name := match member_obj o "metadata" with Some meta => get_str meta "name" | None => "" end in
  match member_obj o "usage" with
  | None => metrics_of name "" "" unresolved unresolved
  | Some usage =>
      let cpu := get_str usage "cpu" in let memory := get_str usage "memory" in
      match alloc !! name with
      | None => metrics_of name cpu memory unresolved unresolved
      | Some info =>
          if (al_cpuMilli info <=? 0)%Z || (al_memBytes info <=? 0)%Z then metrics_of name cpu memory unresolved unresolved
          else metrics_of name cpu memory
                 (percent (q_MilliValue <$> ParseQuantity cpu) (al_cpuMilli info))
                 (percent (q_Value <$> ParseQuantity memory) (al_memBytes info))
      end
  end.

Definition usage_zero : Usage := {|
  us_Nodes := 0; us_TotalCPU := f_zero; us_TotalMem := f_zero; us_MaxCPU := f_zero; us_MaxMem := f_zero;
  us_MaxCPUNode := ""; us_MaxMemNode := "" |}.

Definition resolved (nm : NodeMetrics) : bool :=
  negb (f_ltb (nm_CPUPercent nm) f_zero || f_ltb (nm_MemoryPercent nm) f_zero).

Definition usage_step (u : Usage) (nm : NodeMetrics) : Usage :=
  if negb (resolved nm) then u
  else
    let first := us_Nodes u =? 0 in
    let newCPU := first || f_ltb (us_MaxCPU u) (nm_CPUPercent nm) in
    let newMem := first || f_ltb (us_MaxMem u) (nm_MemoryPercent nm) in {|
    us_Nodes := S (us_Nodes u);
    us_TotalCPU := f_add (us_TotalCPU u) (nm_CPUPercent nm);
    us_TotalMem := f_add (us_TotalMem u) (nm_MemoryPercent nm);
    us_MaxCPU := if newCPU then nm_CPUPercent nm else us_MaxCPU u;
    us_MaxMem := if newMem then nm_MemoryPercent nm else us_MaxMem u;
    us_MaxCPUNode := if newCPU then nm_Name nm else us_MaxCPUNode u;
    us_MaxMemNode := if newMem then nm_Name nm else us_MaxMemNode u |}.

Definition aggregate (nodes : list NodeMetrics) : Usage := fold_left usage_step nodes usage_zero.

Record MetricsNode := { mn_Name : string; mn_CPU : Quantity; mn_Memory : Quantity }.

Definition allocatable_of (nodes : list MetricsNode) : gmap string allocInfo :=
  last_of (map (fun n => (mn_Name n, {| al_cpuMilli := q_MilliValue (mn_CPU n); al_memBytes := q_Value (mn_Memory n) |})) nodes).

Definition audit_metrics (items : list obj) (nodes : list MetricsNode) : MetricsData :=
  let measured := map (fun item => extractNodeMetrics item (allocatable_of nodes)) items in {|
  md_NodeCount := length items; md_Usage := aggregate measured;
  md_Nodes := isort (less_of (cmp_on nm_Name String.compare)) measured |}.

Definition usage_members (u : Usage) : list (string * json) :=
  if us_Nodes u =? 0 then []
  else [("avg_cpu_percent", JNum (f_div (us_TotalCPU u) (f_of_Z (Z.of_nat (us_Nodes u)))));
        ("avg_memory_percent", JNum (f_div (us_TotalMem u) (f_of_Z (Z.of_nat (us_Nodes u)))));
        ("max_cpu_percent", JNum (us_MaxCPU u)); ("max_memory_percent", JNum (us_MaxMem u))]%string ++
       text_member "max_cpu_node" (us_MaxCPUNode u) ++ text_member "max_memory_node" (us_MaxMemNode u).

Definition node_metrics_members (n : NodeMetrics) : list (string * json) := [
  ("name", JStr (nm_Name n)); ("cpu_usage", JStr (nm_CPUUsage n)); ("memory_usage", JStr (nm_MemoryUsage n));
  ("cpu_percent", JNum (nm_CPUPercent n)); ("memory_percent", JNum (nm_MemoryPercent n))].

Definition metrics_members (d : MetricsData) : list (string * json) :=
  [("available", JBool true); ("node_count", count_json (md_NodeCount d));
   ("nodes_with_usage", count_json (us_Nodes (md_Usage d)))]%string ++ usage_members (md_Usage d) ++
  [("nodes"%string, list_json (fun n => JObj (node_metrics_members n)) (md_Nodes d))].

Definition unavailable_metrics : list (string * json) :=
  [("available", JBool false); ("node_count", count_json 0); ("nodes_with_usage", count_json 0); ("nodes", JNull)].

Definition MetricsScanner {E} `{!ApiError E} (metricsItems : list obj + E) (nodes : list MetricsNode + E) :
  Result * option coverageError :=
  match metricsItems with
  | inr err => Finish (fst (Observe coverage_empty "node metrics" (Some err))) "metrics" (JObj unavailable_metrics)
  | inl items =>
      let '(cov, nodes) := optional_list (fst (Observe coverage_empty "node metrics" None)) "nodes" nodes in
      Finish cov "metrics" (JObj (metrics_members (audit_metrics items nodes)))
  end.

(** ** Facts *)

Lemma aggregate_count nodes : us_Nodes (aggregate nodes) = length (List.filter resolved nodes).
Proof.
  unfold aggregate. induction nodes as [|nm nodes IH] using rev_ind; [done|].
  rewrite fold_left_app, List.filter_app, length_app. cbn [fold_left List.filter].
  set (u := fold_left usage_step nodes usage_zero) in *. clearbody u. unfold usage_step.
  destruct (resolved nm); cbn [negb us_Nodes length]; rewrite IH; lia.
Qed.

(** A greatest value of the resolved nodes, with the node that has it. *)
Definition top_of (value : NodeMetrics -> float64) (nodes : list NodeMetrics) (v : float64) (name : string) : Prop :=
  (exists nm, nm ∈ nodes /\ resolved nm = true /\ value nm = v /\ nm_Name nm = name) /\
  (forall nm, nm ∈ nodes -> resolved nm = true -> f_ltb v (value nm) = false).

Lemma top_of_skip value nodes nm v name : resolved nm = false -> top_of value nodes v name -> top_of value (nodes ++ [nm]) v name.
Proof.
  intros Hr [(x & Hx & H) Hall]. split.
  - exists x. split; [apply elem_of_app; by left|done].
  - intros y [Hy| ->%list_elem_of_singleton]%elem_of_app Hy'; [by apply Hall|congruence].
Qed.

Lemma top_of_new value nodes nm : resolved nm = true ->
  (forall x, x ∈ nodes -> resolved x = true -> f_ltb (value nm) (value x) = false) -> top_of value (nodes ++ [nm]) (value nm) (nm_Name nm).
Proof.
  intros Hr Hall. split.
  - exists nm. split_and!; try done. apply elem_of_app. right. by left.
  - intros y [Hy| ->%list_elem_of_singleton]%elem_of_app Hy'; [by apply Hall|apply f_ltb_irrefl].
Qed.

Lemma top_of_keep value nodes nm v name : f_ltb v (value nm) = false -> top_of value nodes v name -> top_of value (nodes ++ [nm]) v name.
Proof.
  intros Hv [(x & Hx & H) Hall]. split.
  - exists x. split; [apply elem_of_app; by left|done].
  - intros y [Hy| ->%list_elem_of_singleton]%elem_of_app Hy'; [by apply Hall|done].
Qed.

(** One step of either maximum. *)
Lemma top_of_step value nodes nm v name : resolved nm = true -> top_of value nodes v name ->
  top_of value (nodes ++ [nm]) (if f_ltb v (value nm) then value nm else v) (if f_ltb v (value nm) then nm_Name nm else name).
Proof.
  intros Hr Ht. destruct (f_ltb v (value nm)) eqn:E; [|by apply top_of_keep]. apply top_of_new; [done|].
  intros x Hx Hrx. destruct Ht as [_ Hall]. by apply (f_ltb_above v _ (value nm)); [apply Hall|].
Qed.

Lemma aggregate_tops nodes : List.filter resolved nodes <> [] ->
  top_of nm_CPUPercent nodes (us_MaxCPU (aggregate nodes)) (us_MaxCPUNode (aggregate nodes)) /\
  top_of nm_MemoryPercent nodes (us_MaxMem (aggregate nodes)) (us_MaxMemNode (aggregate nodes)).
Proof.
  induction nodes as [|nm nodes IH] using rev_ind; [done|]. intros Hne.
  pose proof (aggregate_count nodes) as Hn. unfold aggregate in *. rewrite fold_left_app. cbn [fold_left].
  set (u := fold_left usage_step nodes usage_zero) in *. clearbody u. unfold usage_step.
  rewrite List.filter_app in Hne. cbn [List.filter] in Hne. destruct (resolved nm) eqn:Er; cbn [negb].
  - destruct (List.filter resolved nodes) as [|x l] eqn:Ef.
    + rewrite Hn. cbn. assert (Hnone : forall x, x ∈ nodes -> resolved x = false) by (apply filter_none; by rewrite Ef).
      split; apply top_of_new; try done; intros x Hx Hrx; by rewrite Hnone in Hrx.
    + rewrite Hn. cbn [length Nat.eqb orb us_MaxCPU us_MaxMem us_MaxCPUNode us_MaxMemNode].
      destruct IH as [H1 H2]; [done|]. split; by apply top_of_step.
  - rewrite app_nil_r in Hne. destruct (IH Hne). split; by apply top_of_skip.
Qed.

(** Utilization that was not measured is not reported as none. For the payload the scanner
    writes, when no node resolved to a percentage the report does not observe utilization at
    all, so the capacity verdict on the cluster has nothing to rest on; otherwise the greatest
    CPU and memory percentages in the payload are those of the nodes it names, and no node
    that resolved is above them. *)
Theorem metrics_never_invented r c items nodes o :
  let d := audit_metrics items nodes in
  let measured := map (fun item => extractNodeMetrics item (allocatable_of nodes)) items in
  clusterView r "metrics" c = (list_to_map (metrics_members d), o) -> seen o = true ->
  (List.filter resolved measured = [] -> seen (sg_utilObs (signals_of r c)) = false) /\
  (List.filter resolved measured <> [] ->
     top_of nm_CPUPercent measured (us_MaxCPU (md_Usage d)) (us_MaxCPUNode (md_Usage d)) /\
     top_of nm_MemoryPercent measured (us_MaxMem (md_Usage d)) (us_MaxMemNode (md_Usage d)) /\
     (list_to_map (metrics_members d) : obj) !! "max_cpu_percent"%string = Some (JNum (us_MaxCPU (md_Usage d))) /\
     seen (sg_utilObs (signals_of r c)) = true).
Proof.
  intros d measured Hv Ho. pose proof (aggregate_count measured) as Hn.
  change (aggregate measured) with (md_Usage d) in Hn. rewrite signals_seen. unfold observe. rewrite Hv. split; intros Hf.
  - rewrite Hf in Hn. cbn [length] in Hn.
    assert (Hm : forall k, k = "avg_cpu_percent"%string -> (list_to_map (metrics_members d) : obj) !! k = None).
    { intros k ->. unfold metrics_members, usage_members. by rewrite Hn. }
    rewrite (Hm "avg_cpu_percent"%string eq_refl). cbn [util_Float64]. by destruct o.
  - assert (Hnz : (us_Nodes (md_Usage d) =? 0) = false).
    { rewrite Hn. by destruct (List.filter resolved measured). }
    assert (Hm : forall k v, (k, v) ∈ [("avg_cpu_percent"%string, JNum (f_div (us_TotalCPU (md_Usage d)) (f_of_Z (Z.of_nat (us_Nodes (md_Usage d))))));
        ("avg_memory_percent"%string, JNum (f_div (us_TotalMem (md_Usage d)) (f_of_Z (Z.of_nat (us_Nodes (md_Usage d))))));
        ("max_cpu_percent"%string, JNum (us_MaxCPU (md_Usage d)))] -> (list_to_map (metrics_members d) : obj) !! k = Some v).
    { intros k v H. unfold metrics_members, usage_members. rewrite Hnz. clear -H. unfold text_member.
      apply list_elem_of_In in H as [[= <- <-]|[[= <- <-]|[[= <- <-]|[]]]];
        by destruct (String.eqb (us_MaxCPUNode (md_Usage d)) ""), (String.eqb (us_MaxMemNode (md_Usage d)) ""). }
    destruct (aggregate_tops measured Hf) as [H1 H2]. split_and!; [exact H1|exact H2|apply Hm; by right; right; left|].
    rewrite !(Hm _ _ (list_elem_of_here _ _)), !(Hm _ _ (list_elem_of_further _ _ _ (list_elem_of_here _ _))). cbn. by destruct o.
Qed.
End Metrics.

(** Two nodes, one of which the node list does not have. *)
Definition plain_quantity (s : string) : option Quantity :=
  Some {| q_String := s; q_MilliValue := Z.of_nat (String.length s); q_Value := Z.of_nat (String.length s) |}.

Definition metrics_item (name cpu memory : string) : obj :=
  {[ "metadata"%string := JObj [("name"%string, JStr name)];
     "usage"%string := JObj [("cpu"%string, JStr cpu); ("memory"%string, JStr memory)] ]}.

Definition quantity (n : Z) : Quantity := {| q_String := ""; q_MilliValue := n; q_Value := n |}.

Definition metrics_sample : MetricsData := audit_metrics plain_quantity
  [metrics_item "n1" "x" "xx"; metrics_item "n2" "xxx" "x"] [{| mn_Name := "n1"; mn_CPU := quantity 2; mn_Memory := quantity 4 |}].

Definition metrics_report : Report := one_section "metrics" (JObj (metrics_members metrics_sample)).

Lemma metrics_never_invented_witness :
  clusterView metrics_report "metrics" "c1" = (list_to_map (metrics_members metrics_sample), observed) /\
  us_MaxCPUNode (md_Usage metrics_sample) = "n1"%string /\ seen (sg_utilObs (signals_of metrics_report "c1")) = true.
Proof.
  assert (Hv : clusterView metrics_report "metrics" "c1" = (list_to_map (metrics_members metrics_sample), observed)) by reflexivity.
  split; [exact Hv|]. split; [vm_compute; reflexivity|].
  exact (proj2 (proj2 (proj2 (proj2 (metrics_never_invented plain_quantity metrics_report "c1" _ _ observed Hv eq_refl)
    ltac:(vm_compute; discriminate))))).
Defined.
