(* ===== verification/Reports.v ===== *)
(** * internal/scanner: vulnerabilities and policyreportingest

    Two scanners that add up the custom resources other tools write: Trivy's vulnerability
    reports by image, and policy reports by source and by policy. An object is a record of
    the fields that are read; what the order of a map range and an unstable sort leave open is
    an argument. *)

From Stdlib Require Import ZArith Lia String Ascii Sorted.
From stdpp Require Import base gmap strings list sets.
From S2P Require Import Prelude Maps Float64 Text Strs Data Finders Cost Scan Payload.

Local Open Scope Z_scope.

(** ** vulnerabilities.go *)

(** A decoded number is an int64 or a float64. *)
Inductive number := Int64 (z : Z) | Float (x : float64).

Definition intFromAny (v : option number) : Z :=
  match v with Some (Int64 z) => z | Some (Float x) => f_to_int x | None => 0 end.

Record VulnerabilityReport := {
  vr_Namespace : string; vr_Name : string; vr_Labels : gmap string string; vr_Repository : string; vr_Tag : string;
  vr_Summary : gmap string number }.

Record VulnerableImage := {
  vi_Namespace : string; vi_Workload : string; vi_Image : string; vi_Critical : Z; vi_High : Z; vi_Medium : Z; vi_Low : Z }.

Record VulnData := {
  vd_Reports : nat; vd_Critical : Z; vd_High : Z; vd_Medium : Z; vd_Low : Z; vd_Unknown : Z;
  vd_TopImages : list VulnerableImage }.

Definition image_total (v : VulnerableImage) : Z := wrap64 (wrap64 (wrap64 (vi_Critical v + vi_High v) + vi_Medium v) + vi_Low v).

Definition report_workload (o : VulnerabilityReport) : string :=
  let workload := default ""%string (vr_Labels o !! "trivy-operator.resource.name"%string) in
  if String.eqb workload "" then vr_Name o else workload.

Definition report_image (o : VulnerabilityReport) : string :=
  let image := if String.eqb (vr_Repository o) "" then default ""%string (vr_Labels o !! "trivy-operator.container.name"%string)
               else vr_Repository o in
  if String.eqb (vr_Tag o) "" then image else (image ++ ":" ++ vr_Tag o)%string.

Definition image_key (o : VulnerabilityReport) : string := (vr_Namespace o ++ "/" ++ report_workload o ++ "/" ++ report_image o)%string.

Definition severity_count (k : string) (o : VulnerabilityReport) : Z := intFromAny (vr_Summary o !! k).

Definition no_findings (o : VulnerabilityReport) : VulnerableImage := {|
  vi_Namespace := vr_Namespace o; vi_Workload := report_workload o; vi_Image := report_image o;
  vi_Critical := 0; vi_High := 0; vi_Medium := 0; vi_Low := 0 |}.

Definition add_counts (v : VulnerableImage) (o : VulnerabilityReport) : VulnerableImage := {|
  vi_Namespace := vi_Namespace v; vi_Workload := vi_Workload v; vi_Image := vi_Image v;
  vi_Critical := wrap64 (vi_Critical v + severity_count "criticalCount" o);
  vi_High := wrap64 (vi_High v + severity_count "highCount" o);
  vi_Medium := wrap64 (vi_Medium v + severity_count "mediumCount" o);
  vi_Low := wrap64 (vi_Low v + severity_count "lowCount" o) |}.

Definition image_step (seen : gmap string VulnerableImage) (o : VulnerabilityReport) : gmap string VulnerableImage :=
  <[image_key o := add_counts (default (no_findings o) (seen !! image_key o)) o]> seen.

Definition images_of (reports : list VulnerabilityReport) : gmap string VulnerableImage := fold_left image_step reports ∅.

(** [sort.Slice] on the total, then on the critical count. *)
Definition worse_image : VulnerableImage -> VulnerableImage -> comparison :=
  cmp_lex (cmp_rev (cmp_on image_total Z.compare)) (cmp_rev (cmp_on vi_Critical Z.compare)).

Definition topImages (order : list VulnerableImage -> list VulnerableImage) (seen : gmap string VulnerableImage) (limit : nat) :
  list VulnerableImage :=
  take limit (isort (less_of worse_image) (order (map snd (map_to_list seen)))).

Definition total_of (k : string) (reports : list VulnerabilityReport) : Z :=
  fold_left (fun n o => wrap64 (n + severity_count k o)) reports 0.

Definition audit_vulnerabilities (order : list VulnerableImage -> list VulnerableImage) (reports : list VulnerabilityReport) : VulnData := {|
  vd_Reports := length reports; vd_Critical := total_of "criticalCount" reports; vd_High := total_of "highCount" reports;
  vd_Medium := total_of "mediumCount" reports; vd_Low := total_of "lowCount" reports;
  vd_Unknown := total_of "unknownCount" reports; vd_TopImages := topImages order (images_of reports) 20 |}.

Definition image_members (v : VulnerableImage) : list (string * json) := [
  ("namespace", JStr (vi_Namespace v)); ("workload", JStr (vi_Workload v)); ("image", JStr (vi_Image v));
  ("critical", int_json (vi_Critical v)); ("high", int_json (vi_High v)); ("medium", int_json (vi_Medium v));
  ("low", int_json (vi_Low v))].

Definition vuln_members (available : bool) (d : VulnData) : list (string * json) := [
  ("available", JBool available); ("reports", count_json (vd_Reports d)); ("critical", int_json (vd_Critical d));
  ("high", int_json (vd_High d)); ("medium", int_json (vd_Medium d)); ("low", int_json (vd_Low d));
  ("unknown", int_json (vd_Unknown d)); ("top_images", list_json (fun v => JObj (image_members v)) (vd_TopImages d))].

Definition VulnScanner {E} `{!ApiError E} (order : list VulnerableImage -> list VulnerableImage)
  (reports : list VulnerabilityReport + E) : Result * option coverageError :=
  let available := match reports with inl _ => true | inr _ => false end in
  let '(cov, reports) := optional_list coverage_empty "vulnerability reports" reports in
  Finish cov "vulnerabilities" (JObj (vuln_members available (audit_vulnerabilities order reports))).

(** ** policyreportingest.go *)

(** The rows of a report's results. *)
Abbreviation report_rows := (list json).

Record sourceTally := { st_Source : string; st_Pass : nat; st_Fail : nat; st_Warn : nat; st_Error : nat; st_Skip : nat }.

Record PolicyFailure := {
  pf_Source : string; pf_Policy : string; pf_Rule : string; pf_Fail : nat; pf_Warn : nat; pf_Severity : string }.

Record IngestState := { in_bySource : gmap string sourceTally; in_topMap : gmap string PolicyFailure }.

Record PolicyData := {
  pd_Reports : nat; pd_ClusterReports : nat; pd_TotalFail : nat; pd_TotalWarn : nat; pd_TotalError : nat;
  pd_BySource : list sourceTally; pd_TopFailures : list PolicyFailure }.

Definition severityRank (s : string) : nat :=
  let l := of_bytes (to_lower (to_bytes s)) in
  if String.eqb l "critical" then 4
  else if String.eqb l "high" then 3
  else if String.eqb l "medium" then 2
  else if String.eqb l "low" then 1
  else 0.

(** The fields of a row; a source that is missing is other. *)
Record PolicyRow := { pw_Source : string; pw_Policy : string; pw_Rule : string; pw_Result : string; pw_Severity : string }.

Definition row_of (row : obj) : PolicyRow := {|
  pw_Source := if String.eqb (get_str row "source") "" then "other"%string else get_str row "source";
  pw_Policy := get_str row "policy"; pw_Rule := get_str row "rule"; pw_Result := get_str row "result";
  pw_Severity := get_str row "severity" |}.

Definition rows_of (results : report_rows) : list PolicyRow := map row_of (objects results).

Definition top_key (w : PolicyRow) : string := (pw_Source w ++ "|" ++ pw_Policy w ++ "|" ++ pw_Rule w)%string.

Definition result_is (result : string) (w : PolicyRow) : bool := String.eqb (pw_Result w) result.

Definition one (b : bool) : nat := if b then 1 else 0.

Definition source_zero (source : string) : sourceTally :=
  {| st_Source := source; st_Pass := 0; st_Fail := 0; st_Warn := 0; st_Error := 0; st_Skip := 0 |}.

Definition tally_row (ts : sourceTally) (w : PolicyRow) : sourceTally := {|
  st_Source := st_Source ts; st_Pass := st_Pass ts + one (result_is "pass" w); st_Fail := st_Fail ts + one (result_is "fail" w);
  st_Warn := st_Warn ts + one (result_is "warn" w); st_Error := st_Error ts + one (result_is "error" w);
  st_Skip := st_Skip ts + one (result_is "skip" w) |}.

Definition first_failure (w : PolicyRow) : PolicyFailure := {|
  pf_Source := pw_Source w; pf_Policy := pw_Policy w; pf_Rule := pw_Rule w; pf_Fail := 0; pf_Warn := 0;
  pf_Severity := pw_Severity w |}.

Definition updateTop (topMap : gmap string PolicyFailure) (w : PolicyRow) : gmap string PolicyFailure :=
  if String.eqb (pw_Policy w) "" then topMap
  else
    let entry := default (first_failure w) (topMap !! top_key w) in
    <[top_key w := {|
        pf_Source := pf_Source entry; pf_Policy := pf_Policy entry; pf_Rule := pf_Rule entry;
        pf_Fail := pf_Fail entry + one (result_is "fail" w); pf_Warn := pf_Warn entry + one (result_is "warn" w);
        pf_Severity := if (severityRank (pf_Severity entry) <? severityRank (pw_Severity w))%nat then pw_Severity w
                       else pf_Severity entry |}]> topMap.

Definition ingest_row (st : IngestState) (w : PolicyRow) : IngestState := {|
  in_bySource := <[pw_Source w := tally_row (default (source_zero (pw_Source w)) (in_bySource st !! pw_Source w)) w]> (in_bySource st);
  in_topMap := if result_is "fail" w || result_is "warn" w then updateTop (in_topMap st) w else in_topMap st |}.

Definition ingestReport (st : IngestState) (results : report_rows) : IngestState := fold_left ingest_row (rows_of results) st.

Definition worst_source : sourceTally -> sourceTally -> comparison :=
  cmp_lex (cmp_rev (cmp_on st_Fail Nat.compare)) (cmp_on st_Source String.compare).

Definition finalizeSourceTallies (order : list (string * sourceTally)) : list sourceTally :=
  isort (less_of worst_source) (map snd order).

Definition worst_failure : PolicyFailure -> PolicyFailure -> comparison :=
  cmp_lex (cmp_rev (cmp_on pf_Fail Nat.compare))
    (cmp_lex (cmp_rev (cmp_on pf_Warn Nat.compare)) (cmp_rev (cmp_on (fun p => severityRank (pf_Severity p)) Nat.compare))).

Definition finalizeTopFailures (order : list (string * PolicyFailure)) (limit : nat) : list PolicyFailure :=
  take limit (isort (less_of worst_failure) (map snd order)).

Definition ingest_zero : IngestState := {| in_bySource := ∅; in_topMap := ∅ |}.

Definition ingest_all (reports : list report_rows) : IngestState := fold_left ingestReport reports ingest_zero.

Section Ingest.
(** The orders in which the two maps are ranged over. *)
Context (order_sources : list (string * sourceTally) -> list (string * sourceTally))
  (order_failures : list (string * PolicyFailure) -> list (string * PolicyFailure)).

Definition audit_policies (nsList clList : list report_rows) : PolicyData :=
  let st := ingest_all (nsList ++ clList) in
  let rows := flat_map rows_of (nsList ++ clList) in {|
  pd_Reports := length nsList; pd_ClusterReports := length clList;
  pd_TotalFail := length (List.filter (result_is "fail") rows);
  pd_TotalWarn := length (List.filter (result_is "warn") rows);
  pd_TotalError := length (List.filter (result_is "error") rows);
  pd_BySource := finalizeSourceTallies (order_sources (map_to_list (in_bySource st)));
  pd_TopFailures := finalizeTopFailures (order_failures (map_to_list (in_topMap st))) 20 |}.

Definition tally_members (t : sourceTally) : list (string * json) := [
  ("source", JStr (st_Source t)); ("pass", count_json (st_Pass t)); ("fail", count_json (st_Fail t));
  ("warn", count_json (st_Warn t)); ("error", count_json (st_Error t)); ("skip", count_json (st_Skip t))].

Definition failure_members (p : PolicyFailure) : list (string * json) :=
  [("source", JStr (pf_Source p)); ("policy", JStr (pf_Policy p))] ++ text_member "rule" (pf_Rule p) ++
  [("fail", count_json (pf_Fail p)); ("warn", count_json (pf_Warn p))] ++ text_member "severity" (pf_Severity p).

Definition policy_members (available : bool) (d : PolicyData) : list (string * json) := [
  ("available", JBool available); ("reports", count_json (pd_Reports d)); ("cluster_reports", count_json (pd_ClusterReports d));
  ("total_fail", count_json (pd_TotalFail d)); ("total_warn", count_json (pd_TotalWarn d));
  ("total_error", count_json (pd_TotalError d)); ("by_source", JArr (map (fun t => JObj (tally_members t)) (pd_BySource d)));
  ("top_failures", JArr (map (fun p => JObj (failure_members p)) (pd_TopFailures d)))].

Definition PolicyScanner {E} `{!ApiError E} (nsList clList : list report_rows + E) : Result * option coverageError :=
  let read_ok {A} (read : list A + E) := match read with inl _ => true | inr _ => false end in
  let available := read_ok nsList || read_ok clList in
  let '(cov, ns) := optional_list coverage_empty "policy reports" nsList in
  let '(cov, cl) := optional_list cov "cluster policy reports" clList in
  Finish cov "policy-reports" (JObj (policy_members available (audit_policies ns cl))).
End Ingest.

(** ** Facts *)

Lemma length_weight {A} (p : A -> bool) l : length (List.filter p l) = sum_list_with (fun x => one (p x)) l.
Proof. induction l as [|x l IH]; [done|]. cbn [List.filter sum_list_with]. destruct (p x); cbn [length one]; lia. Qed.

(** *** Images *)

Lemma images_grouped reports : images_of reports = grouped image_key no_findings add_counts reports.
Proof. done. Qed.

(** Between images with the same total and the same critical count, the order of the map
    decides which ones are listed. *)
Definition image_named (n : string) : VulnerabilityReport := {|
  vr_Namespace := "web"; vr_Name := n; vr_Labels := ∅; vr_Repository := n; vr_Tag := "1";
  vr_Summary := {[ "criticalCount"%string := Int64 1 ]} |}.

Lemma top_images_unstable : topImages id (images_of [image_named "a"; image_named "b"]) 1 <>
  topImages (@rev _) (images_of [image_named "a"; image_named "b"]) 1.
Proof. vm_compute. discriminate. Qed.

Lemma fold_counts l v : let r := fold_left add_counts l v in
  vi_Namespace r = vi_Namespace v /\ vi_Workload r = vi_Workload v /\ vi_Image r = vi_Image v.
Proof. revert v. induction l as [|o l IH]; intros v; [done|]. exact (IH (add_counts v o)). Qed.

Lemma fold_critical l v : vi_Critical (fold_left add_counts l v) =
  fold_left (fun n o => wrap64 (n + severity_count "criticalCount" o)) l (vi_Critical v).
Proof. revert v. induction l as [|o l IH]; intros v; [done|]. exact (IH (add_counts v o)). Qed.

(** The images listed are the worst ones, with all their reports added up. For any order
    of the map of images, twenty are listed at most; each is an image of some report, and its
    critical count adds up, in 64-bit integers, the reports of that image alone; no image
    left out has more findings, or as many and more critical ones, than one that is listed. *)
Theorem top_images_worst order reports :
  (forall l, order l ≡ₚ l) ->
  let images := map snd (map_to_list (images_of reports)) in
  let top := vd_TopImages (audit_vulnerabilities order reports) in
  (length top <= 20)%nat /\
  (forall v, v ∈ images -> exists o, o ∈ reports /\ vi_Namespace v = vr_Namespace o /\ vi_Workload v = report_workload o /\
     vi_Image v = report_image o /\
     vi_Critical v = total_of "criticalCount" (of_key image_key (image_key o) reports)) /\
  exists hidden, top ++ hidden ≡ₚ images /\ (forall v w, v ∈ top -> w ∈ hidden ->
    image_total w < image_total v \/ image_total w = image_total v /\ vi_Critical w <= vi_Critical v).
Proof.
  intros Ho images top. split_and!.
  - unfold top. cbn [audit_vulnerabilities vd_TopImages]. unfold topImages. rewrite length_take. lia.
  - intros v ([k v'] & <- & Hk%list_elem_of_In%elem_of_map_to_list)%list_elem_of_In%in_map_iff. cbn [snd].
    rewrite images_grouped in Hk. erewrite (grouped_lookup _ _ _ (no_findings (image_named ""))) in Hk.
    destruct (of_key image_key k reports) as [|o l] eqn:El; [done|]. injection Hk as <-.
    assert (o ∈ of_key image_key k reports) as [Hin Hkey%String.eqb_eq]%list_elem_of_In%filter_In by (rewrite El; by left).
    exists o. split; [by apply list_elem_of_In|]. 
    cbn [group fold_left]. destruct (fold_counts l (add_counts (no_findings o) o)) as (-> & -> & ->). split_and!; try done. rewrite Hkey, El. by rewrite fold_critical.
  - destruct (topn_ranked worse_image (order images) 20) as (hidden & Hp & Hrank). exists hidden. split.
    + rewrite <- (Ho images). exact Hp.
    + intros v w Hv Hw. specialize (Hrank v w Hv Hw). unfold cmp_le, worse_image, cmp_lex, cmp_rev, cmp_on, cmp_then in Hrank.
      destruct (Z.compare_spec (image_total w) (image_total v)); [|by left|done]. right. split; [done|].
      destruct (Z.compare_spec (vi_Critical w) (vi_Critical v)); [lia|lia|done].
Qed.

Lemma top_images_worst_witness : (forall l : list VulnerableImage, rev l ≡ₚ l) /\
  (length (vd_TopImages (audit_vulnerabilities (@rev _) [image_named "a"; image_named "b"])) <= 20)%nat.
Proof.
  assert (H : forall l : list VulnerableImage, rev l ≡ₚ l) by (intros l; symmetry; apply Permutation_rev).
  split; [exact H|]. exact (proj1 (top_images_worst (@rev _) [image_named "a"; image_named "b"] H)).
Defined.

(** *** Policies *)

Definition no_row : sourceTally := source_zero "".

Lemma ingest_sources rows st : in_bySource (fold_left ingest_row rows st) =
  fold_left (fun m w => <[pw_Source w := tally_row (default (source_zero (pw_Source w)) (m !! pw_Source w)) w]> m) rows (in_bySource st).
Proof. revert st. induction rows as [|w rows IH]; intros st; [done|]. cbn [fold_left]. by rewrite IH. Qed.

Lemma ingest_flat reports : ingest_all reports = fold_left ingest_row (flat_map rows_of reports) ingest_zero.
Proof.
  unfold ingest_all. generalize ingest_zero. induction reports as [|r reports IH]; intros st; [done|].
  cbn [fold_left flat_map]. rewrite fold_left_app. apply IH.
Qed.

Lemma sources_grouped reports : in_bySource (ingest_all reports) =
  grouped pw_Source (fun w => source_zero (pw_Source w)) tally_row (flat_map rows_of reports).
Proof. by rewrite ingest_flat, ingest_sources. Qed.

Lemma fold_tally l ts : let r := fold_left tally_row l ts in
  st_Source r = st_Source ts /\ st_Pass r = (st_Pass ts + length (List.filter (result_is "pass") l))%nat /\
  st_Fail r = (st_Fail ts + length (List.filter (result_is "fail") l))%nat /\
  st_Warn r = (st_Warn ts + length (List.filter (result_is "warn") l))%nat /\
  st_Error r = (st_Error ts + length (List.filter (result_is "error") l))%nat /\
  st_Skip r = (st_Skip ts + length (List.filter (result_is "skip") l))%nat.
Proof.
  revert ts. induction l as [|w l IH]; intros ts; cbn [fold_left List.filter]; [cbn; split_and!; done || lia|].
  destruct (IH (tally_row ts w)) as (H1 & H2 & H3 & H4 & H5 & H6). cbn [tally_row st_Source st_Pass st_Fail st_Warn st_Error st_Skip] in *.
  split_and!; [exact H1|rewrite H2|rewrite H3|rewrite H4|rewrite H5|rewrite H6];
    match goal with |- context [one (result_is ?s w)] => destruct (result_is s w) end; cbn [one length]; lia.
Qed.

(** Policy results are counted once each, by the tool they come from. For any order of the
    map of sources, the sources are listed by their failures and then by name, the list is the
    same for every order, each source has exactly the numbers of its own rows, and the
    failures, warnings and errors of the sources add up to the totals of the cluster. *)
Theorem policy_tallies_exact order order' failures failures' nsList clList :
  (forall l, order l ≡ₚ l) -> (forall l, order' l ≡ₚ l) ->
  let d := audit_policies order failures nsList clList in
  let rows := flat_map rows_of (nsList ++ clList) in
  pd_BySource d = pd_BySource (audit_policies order' failures' nsList clList) /\
  NoDup (map st_Source (pd_BySource d)) /\
  (forall t, t ∈ pd_BySource d -> let mine := of_key pw_Source (st_Source t) rows in
     mine <> [] /\ st_Pass t = length (List.filter (result_is "pass") mine) /\
     st_Fail t = length (List.filter (result_is "fail") mine) /\ st_Warn t = length (List.filter (result_is "warn") mine)) /\
  sum_list_with st_Fail (pd_BySource d) = pd_TotalFail d /\ sum_list_with st_Warn (pd_BySource d) = pd_TotalWarn d /\
  sum_list_with st_Error (pd_BySource d) = pd_TotalError d.
Proof.
  intros Ho Ho' d rows. set (m := in_bySource (ingest_all (nsList ++ clList))).
  assert (Hm : forall k t, m !! k = Some t -> st_Source t = k /\ of_key pw_Source k rows <> [] /\
    t = fold_left tally_row (of_key pw_Source k rows) (source_zero k)).
  { intros k t. unfold m. rewrite sources_grouped. fold rows. rewrite (grouped_lookup _ _ _ no_row).
    destruct (of_key pw_Source k rows) as [|w l] eqn:El; [done|]. intros Ht.
    assert (w ∈ of_key pw_Source k rows) as [_ Hk%String.eqb_eq]%list_elem_of_In%filter_In by (rewrite El; by left).
    assert (t = fold_left tally_row (w :: l) (source_zero k)) as -> by (rewrite <- Hk; by injection Ht as <-).
    destruct (fold_tally (w :: l) (source_zero k)) as [Hs _]. split_and!; [exact Hs|done|done]. }
  assert (Hp : pd_BySource d ≡ₚ map snd (map_to_list m)).
  { unfold d. cbn [audit_policies pd_BySource]. unfold finalizeSourceTallies. rewrite isort_perm, Ho. done. }
  assert (Hkeys : map st_Source (map snd (map_to_list m)) = map fst (map_to_list m)).
  { rewrite map_map. apply map_ext_in. intros [k t] Hk%list_elem_of_In%elem_of_map_to_list. cbn. by apply Hm. }
  assert (Hd : NoDup (map st_Source (map snd (map_to_list m)))) by (rewrite Hkeys; apply NoDup_fst_map_to_list).
  split_and!.
  - unfold d. cbn [audit_policies pd_BySource]. unfold finalizeSourceTallies. apply (isort_perm_eq worst_source).
    + intros x y Hx Hy Hc. fold m in Hx, Hy. rewrite Ho in Hx, Hy.
      assert (Hs : st_Source x = st_Source y).
      { unfold worst_source, cmp_lex, cmp_rev, cmp_on, cmp_then in Hc. destruct (Nat.compare (st_Fail y) (st_Fail x)); try done.
        by apply string_compare_antisym. }
      apply list_elem_of_In, in_map_iff in Hx as ([k t] & <- & Hk%list_elem_of_In%elem_of_map_to_list).
      apply list_elem_of_In, in_map_iff in Hy as ([k' t'] & <- & Hk'%list_elem_of_In%elem_of_map_to_list). cbn [snd] in *.
      destruct (Hm k t Hk) as [E1 _], (Hm k' t' Hk') as [E2 _]. assert (k = k') as <- by congruence. congruence.
    + by rewrite Ho, Ho'.
  - by rewrite Hp.
  - intros t Ht mine. rewrite Hp in Ht. apply list_elem_of_In, in_map_iff in Ht as ([k t'] & <- & Hk%list_elem_of_In%elem_of_map_to_list).
    cbn [snd] in *. destruct (Hm k t' Hk) as (E & Hne & Ht). unfold mine. rewrite E. split; [done|].
    destruct (fold_tally (of_key pw_Source k rows) (source_zero k)) as (_ & H2 & H3 & H4 & _). rewrite Ht. done.
  - rewrite Hp. unfold m. rewrite sources_grouped. rewrite (grouped_total _ _ _ no_row st_Fail (fun w => one (result_is "fail" w))) by done.
    by rewrite <- length_weight.
  - rewrite Hp. unfold m. rewrite sources_grouped. rewrite (grouped_total _ _ _ no_row st_Warn (fun w => one (result_is "warn" w))) by done.
    by rewrite <- length_weight.
  - rewrite Hp. unfold m. rewrite sources_grouped. rewrite (grouped_total _ _ _ no_row st_Error (fun w => one (result_is "error" w))) by done.
    by rewrite <- length_weight.
Qed.

Definition row_json (source policy result : string) : json :=
  JObj [("source"%string, JStr source); ("policy"%string, JStr policy); ("result"%string, JStr result)].

Definition two_reports : list report_rows :=
  [[row_json "kyverno" "p1" "fail"; row_json "" "p2" "warn"]; [row_json "kyverno" "p1" "pass"; JNull]].

Lemma policy_tallies_exact_witness :
  (forall l : list (string * sourceTally), rev l ≡ₚ l) /\
  pd_BySource (audit_policies (@rev _) id two_reports []) = pd_BySource (audit_policies id (@rev _) two_reports []).
Proof.
  assert (H : forall l : list (string * sourceTally), rev l ≡ₚ l) by (intros l; symmetry; apply Permutation_rev).
  split; [exact H|]. exact (proj1 (policy_tallies_exact (@rev _) id id (@rev _) two_reports [] H (fun l => reflexivity l))).
Defined.

(** Policies with the same counts and the same severity are cut by the order of the map. *)
Lemma top_failures_unstable :
  let st := ingest_all [[row_json "kyverno" "p1" "fail"; row_json "kyverno" "p2" "fail"]] in
  finalizeTopFailures (map_to_list (in_topMap st)) 1 <> finalizeTopFailures (rev (map_to_list (in_topMap st))) 1.
Proof. vm_compute. discriminate. Qed.
