(* ===== verification/Deprecated.v ===== *)
(** * internal/scanner/deprecatedapis

    Which removed API versions a cluster still serves and how many objects it lists at each,
    and the finding read back. Discovery and the bounded list of each version are arguments. *)

From Stdlib Require Import ZArith Lia String Ascii.
From stdpp Require Import base gmap strings list sets.
From S2P Require Import Prelude Maps Float64 Ratio Text Strs Data Observe Findings Finders FindHealth FindSecurity FindCluster Scan Payload.

Local Open Scope nat_scope.

Record deprecation := { dp_Group : string; dp_Version : string; dp_Kind : string; dp_Replacement : string; dp_RemovedIn : string }.

Definition dep (group version kind replacement removedIn : string) : deprecation :=
  {| dp_Group := group; dp_Version := version; dp_Kind := kind; dp_Replacement := replacement; dp_RemovedIn := removedIn |}.

Definition removals : list deprecation := [
  dep "extensions" "v1beta1" "Ingress" "networking.k8s.io/v1 Ingress" "1.22";
  dep "networking.k8s.io" "v1beta1" "Ingress" "networking.k8s.io/v1 Ingress" "1.22";
  dep "extensions" "v1beta1" "PodSecurityPolicy" "PodSecurity admission (PSS)" "1.25";
  dep "policy" "v1beta1" "PodSecurityPolicy" "PodSecurity admission (PSS)" "1.25";
  dep "policy" "v1beta1" "PodDisruptionBudget" "policy/v1 PodDisruptionBudget" "1.25";
  dep "batch" "v1beta1" "CronJob" "batch/v1 CronJob" "1.25";
  dep "discovery.k8s.io" "v1beta1" "EndpointSlice" "discovery.k8s.io/v1 EndpointSlice" "1.25";
  dep "events.k8s.io" "v1beta1" "Event" "events.k8s.io/v1 Event" "1.25";
  dep "autoscaling" "v2beta1" "HorizontalPodAutoscaler" "autoscaling/v2 HorizontalPodAutoscaler" "1.25";
  dep "autoscaling" "v2beta2" "HorizontalPodAutoscaler" "autoscaling/v2 HorizontalPodAutoscaler" "1.26";
  dep "flowcontrol.apiserver.k8s.io" "v1beta1" "FlowSchema" "flowcontrol.apiserver.k8s.io/v1 FlowSchema" "1.26";
  dep "flowcontrol.apiserver.k8s.io" "v1beta2" "FlowSchema" "flowcontrol.apiserver.k8s.io/v1 FlowSchema" "1.29";
  dep "storage.k8s.io" "v1beta1" "CSIStorageCapacity" "storage.k8s.io/v1 CSIStorageCapacity" "1.27";
  dep "node.k8s.io" "v1beta1" "RuntimeClass" "node.k8s.io/v1 RuntimeClass" "1.25";
  dep "admissionregistration.k8s.io" "v1beta1" "MutatingWebhookConfiguration"
    "admissionregistration.k8s.io/v1 MutatingWebhookConfiguration" "1.22";
  dep "admissionregistration.k8s.io" "v1beta1" "ValidatingWebhookConfiguration"
    "admissionregistration.k8s.io/v1 ValidatingWebhookConfiguration" "1.22";
  dep "rbac.authorization.k8s.io" "v1beta1" "Role" "rbac.authorization.k8s.io/v1 Role" "1.22";
  dep "apiextensions.k8s.io" "v1beta1" "CustomResourceDefinition" "apiextensions.k8s.io/v1 CustomResourceDefinition" "1.22"].

Record Deprecated := {
  dc_APIVersion : string; dc_Kind : string; dc_Replacement : string; dc_RemovedIn : string; dc_InstanceCount : nat;
  dc_Forbidden : bool }.

Record DepData := { dd_ServerVersion : string; dd_Deprecated : list Deprecated; dd_TotalInstances : nat }.

Definition lowercasePlural (kind : string) : string :=
  let s := of_bytes (to_lower (to_bytes kind)) in
  if HasSuffix s "s" then (s ++ "es")%string
  else if HasSuffix s "y" then (String.substring 0 (String.length s - 1) s ++ "ies")%string
  else (s ++ "s")%string.

(** The keys of [served]: a group and one of its versions. *)
Definition served_versions (groups : list (string * list string)) : list string :=
  flat_map (fun g => map (fun v => (fst g ++ "/" ++ v)%string) (snd g)) groups.

Definition gv_of (rm : deprecation) : string :=
  if String.eqb (dp_Group rm) "" then dp_Version rm else (dp_Group rm ++ "/" ++ dp_Version rm)%string.

Definition is_served (served : list string) (rm : deprecation) : bool :=
  existsb (String.eqb (gv_of rm)) served || (String.eqb (dp_Group rm) "" && existsb (String.eqb "v1") served).

Section Probes.
Context {E : Type} `{!ApiError E} (IsMethodNotSupported : E -> bool).

(** The list call for a group, a version and a resource: how many objects it returns, of a
    thousand at most. *)
Context (List_ : string -> string -> string -> nat + E).

Definition entry_of (rm : deprecation) (instances : nat) (forbidden : bool) : Deprecated := {|
  dc_APIVersion := gv_of rm; dc_Kind := dp_Kind rm; dc_Replacement := dp_Replacement rm; dc_RemovedIn := dp_RemovedIn rm;
  dc_InstanceCount := instances; dc_Forbidden := forbidden |}.

Definition probe_version (cov : Coverage E) (rm : deprecation) : Coverage E * option Deprecated :=
  let what := (gv_of rm ++ " " ++ dp_Kind rm)%string in
  match List_ (dp_Group rm) (dp_Version rm) (lowercasePlural (dp_Kind rm)) with
  | inr err =>
      if IsNotFound err || IsMethodNotSupported err then (cov, None)
      else (fst (Observe cov what (Some err)), if IsForbidden err then Some (entry_of rm 0 true) else None)
  | inl n => (fst (Observe cov what None), if n =? 0 then None else Some (entry_of rm n false))
  end.

Definition probe_step (served : list string) (acc : Coverage E * list Deprecated) (rm : deprecation) : Coverage E * list Deprecated :=
  if negb (is_served served rm) then acc
  else let '(cov, entry) := probe_version (fst acc) rm in (cov, snd acc ++ option_list entry).

(** [sort.Slice] by the release that removed the version, then by the version, which two
    kinds may share: a stable sort of an arrangement. *)
Definition by_removal : Deprecated -> Deprecated -> comparison :=
  cmp_lex (cmp_on dc_RemovedIn String.compare) (cmp_on dc_APIVersion String.compare).

Definition dep_data (arrange : list Deprecated -> list Deprecated) (serverVersion : string) (entries : list Deprecated) : DepData := {|
  dd_ServerVersion := serverVersion; dd_Deprecated := isort (less_of by_removal) (arrange entries);
  dd_TotalInstances := list_sum (map dc_InstanceCount entries) |}.

Definition dep_entry (d : Deprecated) : list (string * json) :=
  [("api_version", JStr (dc_APIVersion d)); ("kind", JStr (dc_Kind d)); ("replacement", JStr (dc_Replacement d));
   ("removed_in", JStr (dc_RemovedIn d)); ("instance_count", count_json (dc_InstanceCount d))]%string ++
  (if dc_Forbidden d then [("forbidden"%string, JBool true)] else []).

Definition dep_members (d : DepData) : list (string * json) :=
  text_member "server_version" (dd_ServerVersion d) ++
  [("deprecated", list_json (fun e => JObj (dep_entry e)) (dd_Deprecated d)); ("total_instances", count_json (dd_TotalInstances d))]%string.

Definition DeprecatedScanner (arrange : list Deprecated -> list Deprecated) (serverVersion : string + E)
  (groups : list (string * list string) + E) : Result * option coverageError :=
  let version := match serverVersion with inl v => v | inr _ => ""%string end in
  match groups with
  | inr err => Finish (fst (Observe coverage_empty "server groups" (Some err))) "deprecated-apis"
      (JObj (dep_members {| dd_ServerVersion := version; dd_Deprecated := []; dd_TotalInstances := 0 |}))
  | inl groups =>
      let '(cov, entries) := fold_left (probe_step (served_versions groups)) removals (coverage_empty, []) in
      Finish cov "deprecated-apis" (JObj (dep_members (dep_data arrange version entries)))
  end.

(** ** Facts *)

Definition entry_for (rm : deprecation) : option Deprecated := snd (probe_version coverage_empty rm).

Lemma probe_entry cov rm : snd (probe_version cov rm) = entry_for rm.
Proof. unfold entry_for, probe_version. destruct (List_ _ _ _) as [n|err]; [done|]. by destruct (_ || _)%bool. Qed.

Lemma probes_all served rms acc : snd (fold_left (probe_step served) rms acc) =
  snd acc ++ omap entry_for (List.filter (is_served served) rms).
Proof.
  revert acc. induction rms as [|rm rms IH]; intros acc; cbn [fold_left List.filter]; [by rewrite app_nil_r|].
  rewrite IH. unfold probe_step at 1. destruct (is_served served rm); cbn [negb]; [|done].
  pose proof (probe_entry (fst acc) rm) as Hp. destruct (probe_version (fst acc) rm) as [cov entry]. cbn [snd] in *. rewrite Hp.
  csimpl. rewrite <- app_assoc. f_equal. by destruct (entry_for rm).
Qed.

(** An entry stands for a version the cluster serves: with the objects listed at it, or with
    none because the list was denied. *)
Lemma entry_for_spec rm d : entry_for rm = Some d ->
  dc_APIVersion d = gv_of rm /\ dc_Kind d = dp_Kind rm /\
  match List_ (dp_Group rm) (dp_Version rm) (lowercasePlural (dp_Kind rm)) with
  | inl n => 0 < n /\ dc_InstanceCount d = n /\ dc_Forbidden d = false
  | inr err => IsForbidden err = true /\ dc_InstanceCount d = 0 /\ dc_Forbidden d = true
  end.
Proof.
  unfold entry_for, probe_version. destruct (List_ _ _ _) as [n|err].
  - cbn [snd]. destruct (Nat.eqb_spec n 0); [done|]. intros [= <-]. cbn. repeat split. lia.
  - destruct (_ || _)%bool; [done|]. cbn [snd]. destruct (IsForbidden err) eqn:Ef; [|done]. by intros [= <-].
Qed.

Definition dep_text (d : Deprecated) : string :=
  (dc_APIVersion d ++ " " ++ dc_Kind d ++ " (" ++ itoa (Z.of_nat (dc_InstanceCount d)) ++ " instances, removed in " ++
   dc_RemovedIn d ++ ")")%string.

Definition count_ok (d : Deprecated) : Prop := (Z.of_nat (dc_InstanceCount d) <= 2 ^ 53)%Z.

Lemma entry_text d : count_ok d -> deprecated_text (list_to_map (dep_entry d)) = dep_text d.
Proof.
  intros Hd. unfold deprecated_text.
  assert (get_int (list_to_map (dep_entry d)) "instance_count" = Z.of_nat (dc_InstanceCount d)) as ->.
  { transitivity (f_to_int (f_of_Z (Z.of_nat (dc_InstanceCount d)))).
    - unfold dep_entry. by destruct (dc_Forbidden d).
    - apply f_to_int_of_Z. unfold count_ok in Hd. lia. }
  unfold dep_entry. by destruct (dc_Forbidden d).
Qed.

(** The finding on deprecated APIs lists exactly the removed versions the cluster serves
    and has objects at, and those whose objects it would not list. Each of its lines is a
    version of the table that discovery reported, with the number of objects the list call
    returned; a version that is not served, or that no object is stored at, is not listed. *)
Theorem deprecated_finding_exact arrange version groups r c o :
  let served := served_versions groups in
  let entries := omap entry_for (List.filter (is_served served) removals) in
  let data := dep_data arrange version (snd (fold_left (probe_step served) removals (coverage_empty, []))) in
  clusterView r "deprecated-apis" c = (list_to_map (dep_members data), o) -> seen o = true ->
  (forall l, arrange l ≡ₚ l) -> Forall count_ok entries ->
  exists listed, listed ≡ₚ entries /\
    map said (deprecated_finding r c) =
      (if length listed =? 0 then []
       else [("deprecated-apis/in-use"%string, (c ++ " uses " ++ itoa (zlen listed) ++ " deprecated API version(s)")%string,
              capList (map dep_text listed))]) /\
    (forall d, d ∈ entries <-> exists rm, In rm removals /\ is_served served rm = true /\ entry_for rm = Some d).
Proof.
  intros served entries data Hv Ho Ha Hok. exists (dd_Deprecated data).
  assert (Hp : dd_Deprecated data ≡ₚ entries).
  { unfold data. cbn [dep_data dd_Deprecated]. rewrite isort_perm, Ha, probes_all. done. }
  assert (Hm : (list_to_map (dep_members data) : obj) !! "deprecated"%string = Some (list_json (fun e => JObj (dep_entry e)) (dd_Deprecated data))).
  { unfold dep_members, text_member. by destruct (String.eqb (dd_ServerVersion data) ""). }
  split_and!; [exact Hp| |].
  - unfold deprecated_finding. rewrite Hv, Ho. cbn [andb]. rewrite (objects_listed dep_entry _ _ _ Hm).
    assert (zlen (get_arr (list_to_map (dep_members data)) "deprecated") = zlen (dd_Deprecated data)) as ->.
    { unfold get_arr. rewrite Hm. unfold zlen, list_json. destruct (dd_Deprecated data); [done|]. by rewrite length_map. }
    assert (Htext : map deprecated_text (map (fun a => list_to_map (dep_entry a)) (dd_Deprecated data)) = map dep_text (dd_Deprecated data)).
    { rewrite map_map. apply map_ext_in. intros d Hd. apply entry_text. rewrite List.Forall_forall in Hok. apply Hok.
      apply list_elem_of_In. rewrite <- Hp. by apply list_elem_of_In. }
    rewrite Htext. unfold zlen. destruct (Nat.eqb_spec (length (dd_Deprecated data)) 0) as [->|Hn]; [done|].
    by rewrite (proj2 (Z.ltb_lt _ _)) by lia.
  - intros d. unfold entries. rewrite list_elem_of_omap. split.
    + intros (rm & [Hr Hs]%list_elem_of_In%filter_In & Hd). by exists rm.
    + intros (rm & Hr & Hs & Hd). exists rm. split; [|done]. by apply list_elem_of_In, filter_In.
Qed.
End Probes.

(** ** A concrete cluster *)

Definition sample_list (group version resource : string) : nat + bool :=
  if String.eqb resource "cronjobs" then inl 2 else if String.eqb group "policy" then inr false else inl 0.

Definition sample_groups : list (string * list string) := [("batch", ["v1"; "v1beta1"]); ("policy", ["v1beta1"])]%string.

Definition sample_entries : list Deprecated :=
  snd (fold_left (probe_step (fun _ => false) sample_list (served_versions sample_groups)) removals (coverage_empty, [])).

Definition dep_report : Report :=
  one_section "deprecated-apis" (JObj (dep_members (dep_data id "v1.24.0" sample_entries))).

Lemma deprecated_finding_exact_witness :
  clusterView dep_report "deprecated-apis" "c1" = (list_to_map (dep_members (dep_data id "v1.24.0" sample_entries)), observed) /\
  exists listed, map said (deprecated_finding dep_report "c1") =
    (if length listed =? 0 then []
     else [("deprecated-apis/in-use"%string, ("c1" ++ " uses " ++ itoa (zlen listed) ++ " deprecated API version(s)")%string,
            capList (map dep_text listed))]).
Proof.
  assert (Hv : clusterView dep_report "deprecated-apis" "c1" =
    (list_to_map (dep_members (dep_data id "v1.24.0" sample_entries)), observed)) by reflexivity.
  split; [exact Hv|].
  destruct (deprecated_finding_exact (fun _ => false) sample_list id "v1.24.0" sample_groups dep_report "c1" observed Hv eq_refl
    (fun l => reflexivity l)) as (listed & _ & H & _).
  - apply (bool_decide_unpack _). vm_compute. exact I.
  - exists listed. exact H.
Defined.

(** A version whose objects may not be listed is reported as in use, with no instance. *)
Lemma forbidden_counted : map said (deprecated_finding dep_report "c1") =
  [("deprecated-apis/in-use", "c1 uses 3 deprecated API version(s)",
    ["batch/v1beta1 CronJob (2 instances, removed in 1.25)"; "policy/v1beta1 PodSecurityPolicy (0 instances, removed in 1.25)";
     "policy/v1beta1 PodDisruptionBudget (0 instances, removed in 1.25)"])]%string.
Proof. vm_compute. reflexivity. Qed.
