(* ===== verification/Geo.v ===== *)
(** * internal/scanner/geo

    Where a cluster is: coordinates an operator gave in a ConfigMap or in annotations, or those
    of the region most of its nodes are labeled with. The table is that of regions.go, in
    hundredths of a degree; parsing a number is a parameter. *)

From Stdlib Require Import ZArith Lia String Ascii Floats.SpecFloat.
From stdpp Require Import base gmap strings list sets.
From S2P Require Import Prelude Maps Float64 Text Strs Data Scan Payload.

Local Open Scope nat_scope.

(** ** regions.go *)

Record Coord := { co_Lat : float64; co_Lng : float64; co_Provider : string; co_City : string }.

Definition coord (lat lng : Z) (provider city : string) : Coord :=
  {| co_Lat := f_const lat 100; co_Lng := f_const lng 100; co_Provider := provider; co_City := city |}.

Definition regionTable : list (string * (Z * Z * string * string)) := ([
  ("us-east-1", (3895, (-7746), "AWS", "N. Virginia"));
  ("us-east-2", (3996, (-8300), "AWS", "Ohio"));
  ("us-west-1", (3777, (-12242), "AWS", "N. California"));
  ("us-west-2", (4551, (-12268), "AWS", "Oregon"));
  ("ca-central-1", (4550, (-7357), "AWS", "Canada Central"));
  ("ca-west-1", (5105, (-11407), "AWS", "Calgary"));
  ("sa-east-1", ((-2355), (-4663), "AWS", "São Paulo"));
  ("eu-west-1", (5333, (-625), "AWS", "Ireland"));
  ("eu-west-2", (5150, (-13), "AWS", "London"));
  ("eu-west-3", (4886, 235, "AWS", "Paris"));
  ("eu-central-1", (5011, 868, "AWS", "Frankfurt"));
  ("eu-central-2", (4737, 855, "AWS", "Zurich"));
  ("eu-north-1", (5933, 1807, "AWS", "Stockholm"));
  ("eu-south-1", (4546, 919, "AWS", "Milan"));
  ("eu-south-2", (4042, (-370), "AWS", "Spain"));
  ("af-south-1", ((-3392), 1842, "AWS", "Cape Town"));
  ("me-south-1", (2607, 5055, "AWS", "Bahrain"));
  ("me-central-1", (2527, 5530, "AWS", "UAE"));
  ("il-central-1", (3208, 3478, "AWS", "Tel Aviv"));
  ("ap-east-1", (2230, 11417, "AWS", "Hong Kong"));
  ("ap-south-1", (1908, 7288, "AWS", "Mumbai"));
  ("ap-south-2", (1739, 7849, "AWS", "Hyderabad"));
  ("ap-southeast-1", (135, 10382, "AWS", "Singapore"));
  ("ap-southeast-2", ((-3387), 15121, "AWS", "Sydney"));
  ("ap-southeast-3", ((-621), 10685, "AWS", "Jakarta"));
  ("ap-southeast-4", ((-3781), 14496, "AWS", "Melbourne"));
  ("ap-northeast-1", (3568, 13969, "AWS", "Tokyo"));
  ("ap-northeast-2", (3757, 12698, "AWS", "Seoul"));
  ("ap-northeast-3", (3469, 13550, "AWS", "Osaka"));
  ("cn-north-1", (3990, 11641, "AWS China", "Beijing"));
  ("cn-northwest-1", (3849, 10623, "AWS China", "Ningxia"));
  ("us-central1", (4126, (-9593), "GCP", "Iowa"));
  ("us-east1", (3320, (-8000), "GCP", "S. Carolina"));
  ("us-east4", (3904, (-7749), "GCP", "N. Virginia"));
  ("us-east5", (3996, (-8300), "GCP", "Columbus"));
  ("us-south1", (3278, (-9680), "GCP", "Dallas"));
  ("us-west1", (4560, (-12118), "GCP", "Oregon"));
  ("us-west2", (3405, (-11824), "GCP", "Los Angeles"));
  ("us-west3", (4076, (-11189), "GCP", "Salt Lake City"));
  ("us-west4", (3617, (-11514), "GCP", "Las Vegas"));
  ("northamerica-northeast1", (4550, (-7357), "GCP", "Montréal"));
  ("northamerica-northeast2", (4365, (-7938), "GCP", "Toronto"));
  ("southamerica-east1", ((-2355), (-4663), "GCP", "São Paulo"));
  ("southamerica-west1", ((-3345), (-7067), "GCP", "Santiago"));
  ("europe-west1", (5085, 435, "GCP", "Belgium"));
  ("europe-west2", (5150, (-13), "GCP", "London"));
  ("europe-west3", (5011, 868, "GCP", "Frankfurt"));
  ("europe-west4", (5343, 679, "GCP", "Netherlands"));
  ("europe-west6", (4737, 855, "GCP", "Zurich"));
  ("europe-west8", (4546, 919, "GCP", "Milan"));
  ("europe-west9", (4886, 235, "GCP", "Paris"));
  ("europe-west10", (5252, 1341, "GCP", "Berlin"));
  ("europe-west12", (4507, 769, "GCP", "Turin"));
  ("europe-north1", (6057, 2718, "GCP", "Finland"));
  ("europe-central2", (5223, 2101, "GCP", "Warsaw"));
  ("europe-southwest1", (4042, (-370), "GCP", "Madrid"));
  ("asia-east1", (2405, 12051, "GCP", "Taiwan"));
  ("asia-east2", (2230, 11417, "GCP", "Hong Kong"));
  ("asia-northeast1", (3568, 13969, "GCP", "Tokyo"));
  ("asia-northeast2", (3469, 13550, "GCP", "Osaka"));
  ("asia-northeast3", (3757, 12698, "GCP", "Seoul"));
  ("asia-south1", (1908, 7288, "GCP", "Mumbai"));
  ("asia-south2", (2861, 7721, "GCP", "Delhi"));
  ("asia-southeast1", (135, 10382, "GCP", "Singapore"));
  ("asia-southeast2", ((-621), 10685, "GCP", "Jakarta"));
  ("australia-southeast1", ((-3387), 15121, "GCP", "Sydney"));
  ("australia-southeast2", ((-3781), 14496, "GCP", "Melbourne"));
  ("me-west1", (3208, 3478, "GCP", "Tel Aviv"));
  ("me-central1", (2447, 5437, "GCP", "Doha"));
  ("africa-south1", ((-2620), 2805, "GCP", "Johannesburg"));
  ("eastus", (3743, (-7866), "Azure", "Virginia"));
  ("eastus2", (3669, (-7845), "Azure", "Virginia"));
  ("eastus3", (3281, (-9680), "Azure", "Dallas"));
  ("westus", (3777, (-12242), "Azure", "California"));
  ("westus2", (4725, (-11985), "Azure", "Washington"));
  ("westus3", (3345, (-11207), "Azure", "Arizona"));
  ("centralus", (4159, (-9362), "Azure", "Iowa"));
  ("northcentralus", (4188, (-8763), "Azure", "Illinois"));
  ("southcentralus", (2942, (-9850), "Azure", "Texas"));
  ("westcentralus", (4114, (-10482), "Azure", "Wyoming"));
  ("canadacentral", (4365, (-7938), "Azure", "Toronto"));
  ("canadaeast", (4681, (-7121), "Azure", "Quebec"));
  ("brazilsouth", ((-2355), (-4663), "Azure", "São Paulo"));
  ("brazilsoutheast", ((-2291), (-4320), "Azure", "Rio de Janeiro"));
  ("northeurope", (5333, (-625), "Azure", "Ireland"));
  ("westeurope", (5237, 490, "Azure", "Netherlands"));
  ("uksouth", (5150, (-13), "Azure", "London"));
  ("ukwest", (5343, (-308), "Azure", "Cardiff"));
  ("francecentral", (4886, 235, "Azure", "Paris"));
  ("francesouth", (4330, 537, "Azure", "Marseille"));
  ("germanywestcentral", (5011, 868, "Azure", "Frankfurt"));
  ("germanynorth", (5355, 999, "Azure", "Berlin"));
  ("norwayeast", (5991, 1075, "Azure", "Oslo"));
  ("norwaywest", (5897, 573, "Azure", "Stavanger"));
  ("swedencentral", (6067, 1714, "Azure", "Gävle"));
  ("switzerlandnorth", (4737, 855, "Azure", "Zurich"));
  ("switzerlandwest", (4620, 614, "Azure", "Geneva"));
  ("polandcentral", (5223, 2101, "Azure", "Warsaw"));
  ("italynorth", (4546, 919, "Azure", "Milan"));
  ("spaincentral", (4042, (-370), "Azure", "Madrid"));
  ("southafricanorth", ((-2620), 2805, "Azure", "Johannesburg"));
  ("southafricawest", ((-3392), 1842, "Azure", "Cape Town"));
  ("uaenorth", (2527, 5530, "Azure", "Dubai"));
  ("uaecentral", (2447, 5437, "Azure", "Abu Dhabi"));
  ("qatarcentral", (2529, 5153, "Azure", "Doha"));
  ("israelcentral", (3208, 3478, "Azure", "Tel Aviv"));
  ("australiaeast", ((-3387), 15121, "Azure", "Sydney"));
  ("australiasoutheast", ((-3781), 14496, "Azure", "Melbourne"));
  ("australiacentral", ((-3528), 14913, "Azure", "Canberra"));
  ("australiacentral2", ((-3528), 14913, "Azure", "Canberra"));
  ("southeastasia", (135, 10382, "Azure", "Singapore"));
  ("eastasia", (2230, 11417, "Azure", "Hong Kong"));
  ("japaneast", (3568, 13969, "Azure", "Tokyo"));
  ("japanwest", (3469, 13550, "Azure", "Osaka"));
  ("koreacentral", (3757, 12698, "Azure", "Seoul"));
  ("koreasouth", (3518, 12908, "Azure", "Busan"));
  ("indiacentral", (1852, 7386, "Azure", "Pune"));
  ("indiasouth", (1297, 8021, "Azure", "Chennai"));
  ("indiawest", (1908, 7288, "Azure", "Mumbai"));
  ("jioindiacentral", (2117, 7283, "Azure", "Nagpur"));
  ("jioindiawest", (2117, 7283, "Azure", "Jamnagar"));
  ("chinaeast", (3123, 12147, "Azure China", "Shanghai"));
  ("chinaeast2", (3123, 12147, "Azure China", "Shanghai"));
  ("chinanorth", (3990, 11641, "Azure China", "Beijing"));
  ("chinanorth2", (3990, 11641, "Azure China", "Beijing"));
  ("nyc1", (4071, (-7400), "DigitalOcean", "New York"));
  ("nyc2", (4071, (-7400), "DigitalOcean", "New York"));
  ("nyc3", (4071, (-7400), "DigitalOcean", "New York"));
  ("sfo1", (3777, (-12242), "DigitalOcean", "San Francisco"));
  ("sfo2", (3777, (-12242), "DigitalOcean", "San Francisco"));
  ("sfo3", (3777, (-12242), "DigitalOcean", "San Francisco"));
  ("ams2", (5237, 490, "DigitalOcean", "Amsterdam"));
  ("ams3", (5237, 490, "DigitalOcean", "Amsterdam"));
  ("sgp1", (135, 10382, "DigitalOcean", "Singapore"));
  ("lon1", (5150, (-13), "DigitalOcean", "London"));
  ("fra1", (5011, 868, "DigitalOcean", "Frankfurt"));
  ("tor1", (4365, (-7938), "DigitalOcean", "Toronto"));
  ("blr1", (1297, 7759, "DigitalOcean", "Bangalore"));
  ("syd1", ((-3387), 15121, "DigitalOcean", "Sydney"));
  ("us-ashburn-1", (3904, (-7749), "OCI", "Ashburn"));
  ("us-phoenix-1", (3345, (-11207), "OCI", "Phoenix"));
  ("us-sanjose-1", (3734, (-12189), "OCI", "San Jose"));
  ("us-chicago-1", (4188, (-8763), "OCI", "Chicago"));
  ("ca-toronto-1", (4365, (-7938), "OCI", "Toronto"));
  ("ca-montreal-1", (4550, (-7357), "OCI", "Montréal"));
  ("eu-frankfurt-1", (5011, 868, "OCI", "Frankfurt"));
  ("eu-amsterdam-1", (5237, 490, "OCI", "Amsterdam"));
  ("eu-zurich-1", (4737, 855, "OCI", "Zurich"));
  ("eu-madrid-1", (4042, (-370), "OCI", "Madrid"));
  ("uk-london-1", (5150, (-13), "OCI", "London"));
  ("sa-saopaulo-1", ((-2355), (-4663), "OCI", "São Paulo"));
  ("sa-vinhedo-1", ((-2303), (-4697), "OCI", "Vinhedo"));
  ("sa-santiago-1", ((-3345), (-7067), "OCI", "Santiago"));
  ("sa-bogota-1", (471, (-7407), "OCI", "Bogotá"));
  ("ap-mumbai-1", (1908, 7288, "OCI", "Mumbai"));
  ("ap-hyderabad-1", (1739, 7849, "OCI", "Hyderabad"));
  ("ap-singapore-1", (135, 10382, "OCI", "Singapore"));
  ("ap-tokyo-1", (3568, 13969, "OCI", "Tokyo"));
  ("ap-osaka-1", (3469, 13550, "OCI", "Osaka"));
  ("ap-seoul-1", (3757, 12698, "OCI", "Seoul"));
  ("ap-chuncheon-1", (3787, 12773, "OCI", "Chuncheon"));
  ("ap-sydney-1", ((-3387), 15121, "OCI", "Sydney"));
  ("ap-melbourne-1", ((-3781), 14496, "OCI", "Melbourne"));
  ("me-dubai-1", (2527, 5530, "OCI", "Dubai"));
  ("me-jeddah-1", (2149, 3919, "OCI", "Jeddah"));
  ("af-johannesburg-1", ((-2620), 2805, "OCI", "Johannesburg"));
  ("cn-hangzhou", (3027, 12015, "Alibaba", "Hangzhou"));
  ("cn-shanghai", (3123, 12147, "Alibaba", "Shanghai"));
  ("cn-beijing", (3990, 11641, "Alibaba", "Beijing"));
  ("cn-shenzhen", (2254, 11405, "Alibaba", "Shenzhen"));
  ("cn-hongkong", (2230, 11417, "Alibaba", "Hong Kong"));
  ("ap-southeast-5", ((-621), 10685, "Alibaba", "Jakarta"));
  ("ap-southeast-6", (1460, 12098, "Alibaba", "Manila"));
  ("us-south", (3278, (-9680), "IBM", "Dallas"));
  ("us-east", (3895, (-7746), "IBM", "Washington DC"));
  ("br-sao", ((-2355), (-4663), "IBM", "São Paulo"));
  ("eu-de", (5011, 868, "IBM", "Frankfurt"));
  ("eu-gb", (5150, (-13), "IBM", "London"));
  ("eu-es", (4042, (-370), "IBM", "Madrid"));
  ("jp-tok", (3568, 13969, "IBM", "Tokyo"));
  ("jp-osa", (3469, 13550, "IBM", "Osaka"));
  ("au-syd", ((-3387), 15121, "IBM", "Sydney"));
  ("ca-tor", (4365, (-7938), "IBM", "Toronto"))])%string%Z.

Definition Lookup (region : string) : option Coord :=
  match snd <$> List.find (fun row => String.eqb (fst row) region) regionTable with
  | Some (lat, lng, provider, city) => Some (coord lat lng provider city)
  | None => None
  end.

(** The last byte, and what is before it. *)
Definition cut_last (s : string) : option (string * ascii) :=
  match rev (to_bytes s) with [] => None | a :: rest => Some (of_bytes (rev rest), a) end.

Definition is_lower (a : ascii) : bool := (97 <=? nat_of_ascii a) && (nat_of_ascii a <=? 122).

Definition LookupZone (zone : string) : option Coord :=
  match Lookup zone with
  | Some c => Some c
  | None =>
      if String.length zone <=? 1 then None
      else match cut_last zone with
           | None => None
           | Some (trimmed, last) =>
               if negb (is_lower last) then None
               else match Lookup trimmed with
                    | Some c => Some c
                    | None =>
                        match cut_last trimmed with
                        | Some (trimmed', "-"%char) => Lookup trimmed'
                        | _ => None
                        end
                    end
           end
  end.

(** ** geo.go *)

Definition regionLabels : list string := ["topology.kubernetes.io/region"; "failure-domain.beta.kubernetes.io/region"].
Definition zoneLabels : list string := ["topology.kubernetes.io/zone"; "failure-domain.beta.kubernetes.io/zone"].

Definition annoLat : string := "fleetsweeper.io/lat".
Definition annoLng : string := "fleetsweeper.io/lng".
Definition annoSite : string := "fleetsweeper.io/site".
Definition annoNotes : string := "fleetsweeper.io/notes".

Record GeoData := {
  gd_Region : string; gd_Provider : string; gd_City : string; gd_Site : string; gd_Notes : string; gd_Lat : float64;
  gd_Lng : float64; gd_HasLocation : bool; gd_Source : string; gd_Regions : list string; gd_Zones : list string;
  gd_NodeCount : nat; gd_LocatedNodes : nat }.

Definition geo_zero (nodes : nat) : GeoData := {|
  gd_Region := ""; gd_Provider := ""; gd_City := ""; gd_Site := ""; gd_Notes := ""; gd_Lat := f_zero; gd_Lng := f_zero;
  gd_HasLocation := false; gd_Source := ""; gd_Regions := []; gd_Zones := []; gd_NodeCount := nodes; gd_LocatedNodes := 0 |}.

Definition validCoord (lat lng : float64) : bool :=
  f_leb (f_of_Z (-90)) lat && f_leb lat (f_of_Z 90) && f_leb (f_of_Z (-180)) lng && f_leb lng (f_of_Z 180).

Definition label_text (labels : gmap string string) (k : string) : string := default ""%string (labels !! k).

(** The value of the first of the labels that is set and not empty. *)
Fixpoint firstLabel (labels : gmap string string) (keys : list string) : string :=
  match keys with
  | [] => ""
  | k :: keys' => if String.eqb (label_text labels k) "" then firstLabel labels keys' else label_text labels k
  end.

(** The strict maximum of the counts met so far, the first name on ties. *)
Definition region_step (acc : string * Z) (entry : string * nat) : string * Z :=
  let '(best, bestN) := acc in
  let n := Z.of_nat (snd entry) in
  if (bestN <? n)%Z || ((n =? bestN)%Z && str_ltb (fst entry) best) then (fst entry, n) else acc.

Definition dominantRegion (order : list (string * nat)) : string := fst (fold_left region_step order (""%string, (-1)%Z)).

Definition zone_ends : list string := ["a"; "b"; "c"; "d"; "e"; "f"].

Definition derivedRegionFromZone (zone : string) : string :=
  if existsb (HasSuffix zone) zone_ends then
    let trimmed := String.substring 0 (String.length zone - 1) zone in
    if HasSuffix trimmed "-" then String.substring 0 (String.length trimmed - 1) trimmed else trimmed
  else zone.

Section Geo.
(** strconv.ParseFloat(s, 64), when it succeeds. *)
Context (ParseFloat : string -> option float64).

Definition parseFloat (s : string) : option float64 :=
  let s := TrimSpace s in if String.eqb s "" then None else ParseFloat s.

(** The coordinates under two keys, when both parse and lie on the Earth. *)
Definition given_coord (m : gmap string string) (lat lng : string) : option (float64 * float64) :=
  match parseFloat (label_text m lat), parseFloat (label_text m lng) with
  | Some lat, Some lng => if validCoord lat lng then Some (lat, lng) else None
  | _, _ => None
  end.

Definition or_else (s t : string) : string := if String.eqb s "" then t else s.

Definition placed (data : GeoData) (source site notes region provider city : string) (at_ : float64 * float64) : GeoData := {|
  gd_Region := region; gd_Provider := provider; gd_City := or_else city site; gd_Site := site; gd_Notes := notes;
  gd_Lat := fst at_; gd_Lng := snd at_; gd_HasLocation := true; gd_Source := source; gd_Regions := gd_Regions data;
  gd_Zones := gd_Zones data; gd_NodeCount := gd_NodeCount data; gd_LocatedNodes := gd_LocatedNodes data |}.

(** [None] is an object that could not be read. *)
Definition applyConfigMap (cm : option (gmap string string)) (data : GeoData) : option GeoData :=
  m ← cm;
  at_ ← given_coord m "lat" "lng";
  let r := label_text m "region" in
  let known := if String.eqb r "" then None else Lookup r in
  let provider := match known with Some c => co_Provider c | None => gd_Provider data end in
  let city := match known with Some c => or_else (gd_City data) (co_City c) | None => gd_City data end in
  Some (placed data "configmap" (label_text m "site") (label_text m "notes") (or_else r (gd_Region data)) provider city at_).

Definition applyNamespaceAnnotations (annotations : option (gmap string string)) (data : GeoData) : option GeoData :=
  m ← annotations;
  at_ ← given_coord m annoLat annoLng;
  Some (placed data "annotation" (label_text m annoSite) (label_text m annoNotes) (gd_Region data) (gd_Provider data) (gd_City data) at_).

(** What a node counts for: the region it is labeled with. *)
Definition node_region (labels : gmap string string) : option string :=
  let region := firstLabel labels regionLabels in if String.eqb region "" then None else Some region.

Definition node_zone (labels : gmap string string) : option string :=
  let zone := firstLabel labels zoneLabels in if String.eqb zone "" then None else Some zone.

(** When the node is placed by its labels alone, the zone may stand in for the region. *)
Definition inferred_region (labels : gmap string string) : option string :=
  match node_region labels with
  | Some region => Some region
  | None =>
      zone ← node_zone labels;
      match LookupZone zone with Some _ => Some (derivedRegionFromZone zone) | None => None end
  end.

Definition distinct_keys (l : list string) : list string := sort_strings (elements (list_to_set l : gset string)).

Definition with_places (data : GeoData) (regions zones : list string) : GeoData := {|
  gd_Region := gd_Region data; gd_Provider := gd_Provider data; gd_City := gd_City data; gd_Site := gd_Site data;
  gd_Notes := gd_Notes data; gd_Lat := gd_Lat data; gd_Lng := gd_Lng data; gd_HasLocation := gd_HasLocation data;
  gd_Source := gd_Source data; gd_Regions := regions; gd_Zones := zones; gd_NodeCount := gd_NodeCount data;
  gd_LocatedNodes := gd_LocatedNodes data |}.

Definition region_coord (region : string) : option Coord :=
  match Lookup region with Some c => Some c | None => LookupZone region end.

Definition auto_place (data : GeoData) (best : string) (located : nat) : GeoData :=
  match region_coord best with
  | None => {|
      gd_Region := best; gd_Provider := gd_Provider data; gd_City := gd_City data; gd_Site := gd_Site data;
      gd_Notes := gd_Notes data; gd_Lat := gd_Lat data; gd_Lng := gd_Lng data; gd_HasLocation := gd_HasLocation data;
      gd_Source := gd_Source data; gd_Regions := gd_Regions data; gd_Zones := gd_Zones data; gd_NodeCount := gd_NodeCount data;
      gd_LocatedNodes := gd_LocatedNodes data |}
  | Some c => {|
      gd_Region := best; gd_Provider := co_Provider c; gd_City := co_City c; gd_Site := gd_Site data;
      gd_Notes := gd_Notes data; gd_Lat := co_Lat c; gd_Lng := co_Lng c; gd_HasLocation := true; gd_Source := "auto";
      gd_Regions := gd_Regions data; gd_Zones := gd_Zones data; gd_NodeCount := gd_NodeCount data; gd_LocatedNodes := located |}
  end.

(** [order] is the order in which the counts are ranged over. *)
Definition audit_geo (order : list (string * nat) -> list (string * nat)) (cm annotations : option (gmap string string))
  (nodes : list (gmap string string)) : GeoData :=
  let data := geo_zero (length nodes) in
  let zones := distinct_keys (omap node_zone nodes) in
  match applyConfigMap cm data with
  | Some data => with_places data (distinct_keys (omap node_region nodes)) zones
  | None =>
      match applyNamespaceAnnotations annotations data with
      | Some data => with_places data (distinct_keys (omap node_region nodes)) zones
      | None =>
          let counts := count_by inferred_region nodes in
          let data := with_places data (distinct_keys (omap inferred_region nodes)) zones in
          if size counts =? 0 then data
          else
            let best := dominantRegion (order (map_to_list counts)) in
            auto_place data best (default 0 (counts !! best))
      end
  end.

Definition names_member (key : string) (l : list string) : list (string * json) :=
  match l with [] => [] | _ => [(key, strings_json l)] end.

Definition geo_members (d : GeoData) : list (string * json) :=
  text_member "region" (gd_Region d) ++ text_member "provider" (gd_Provider d) ++ text_member "city" (gd_City d) ++
  text_member "site" (gd_Site d) ++ text_member "notes" (gd_Notes d) ++
  [("lat", JNum (gd_Lat d)); ("lng", JNum (gd_Lng d)); ("has_location", JBool (gd_HasLocation d))]%string ++
  text_member "source" (gd_Source d) ++ names_member "regions" (gd_Regions d) ++ names_member "zones" (gd_Zones d) ++
  [("node_count", count_json (gd_NodeCount d)); ("located_nodes", count_json (gd_LocatedNodes d))]%string.

Definition GeoScanner {E} `{!ApiError E} (order : list (string * nat) -> list (string * nat))
  (nodes : list (gmap string string) + E) (cm annotations : option (gmap string string)) : Result * option coverageError :=
  match nodes with
  | inr err => Finish (fst (Observe coverage_empty "nodes" (Some err))) "geo" (JObj (geo_members (geo_zero 0)))
  | inl nodes => Finish (fst (Observe coverage_empty "nodes" None)) "geo" (JObj (geo_members (audit_geo order cm annotations nodes)))
  end.
End Geo.

(** ** Facts *)

(** Every region of the table is on the Earth. *)
Lemma table_valid : forallb (fun row => let '(lat, lng, _, _) := snd row in validCoord (f_const lat 100) (f_const lng 100)) regionTable = true.
Proof. vm_compute. reflexivity. Qed.

Lemma lookup_valid region c : Lookup region = Some c -> validCoord (co_Lat c) (co_Lng c) = true.
Proof.
  unfold Lookup. destruct (List.find _ regionTable) as [[k [[[lat lng] provider] city]]|] eqn:Ef; [|done].
  intros [= <-]. apply List.find_some in Ef as [Hin _]. pose proof (proj1 (forallb_forall _ _) table_valid _ Hin) as H. exact H.
Qed.

Lemma zone_valid zone c : LookupZone zone = Some c -> validCoord (co_Lat c) (co_Lng c) = true.
Proof.
  unfold LookupZone. destruct (Lookup zone) as [c'|] eqn:E1; [intros [= <-]; by eapply lookup_valid|].
  destruct (_ <=? 1); [done|]. destruct (cut_last zone) as [[trimmed last]|]; [|done]. destruct (negb _); [done|].
  destruct (Lookup trimmed) as [c'|] eqn:E2; [intros [= <-]; by eapply lookup_valid|].
  destruct (cut_last trimmed) as [[trimmed' [[] [] [] [] [] [] [] []]]|]; try done. apply lookup_valid.
Qed.

Lemma region_valid region c : region_coord region = Some c -> validCoord (co_Lat c) (co_Lng c) = true.
Proof.
  unfold region_coord. destruct (Lookup region) as [c'|] eqn:E; [intros [= <-]; by eapply lookup_valid|apply zone_valid].
Qed.

(** *** The dominant region *)

(** No count is larger, and of the regions with that count it is the first by name. *)
Definition dominates (entries : list (string * nat)) (best : string) : Prop :=
  exists n, (best, n) ∈ entries /\ forall k m, (k, m) ∈ entries -> m < n \/ m = n /\ String.compare best k <> Gt.

Lemma dominant_dominates entries : entries <> [] -> dominates entries (dominantRegion entries).
Proof.
  intros Hne. unfold dominantRegion.
  enough (H : fold_left region_step entries (""%string, (-1)%Z) = (""%string, (-1)%Z) /\ entries = [] \/
    exists n, snd (fold_left region_step entries (""%string, (-1)%Z)) = Z.of_nat n /\
      (fst (fold_left region_step entries (""%string, (-1)%Z)), n) ∈ entries /\
      forall k m, (k, m) ∈ entries -> m < n \/ m = n /\ String.compare (fst (fold_left region_step entries (""%string, (-1)%Z))) k <> Gt)
    by (destruct H as [[_ ?]|(n & _ & H)]; [done|by exists n]).
  clear Hne. induction entries as [|[k n] entries IH] using rev_ind; [by left|]. right. rewrite fold_left_app. cbn [fold_left].
  destruct (fold_left region_step entries (""%string, (-1)%Z)) as [best bestN] eqn:Ef. cbn [fst snd] in *. unfold region_step. cbn [fst snd].
  destruct IH as [[[= -> ->] ->]|(b & -> & Hin & Hall)].
  - rewrite (proj2 (Z.ltb_lt _ _)) by lia. cbn [orb fst snd app]. exists n. split_and!; [done|by left|].
    intros k' m [= -> ->]%list_elem_of_singleton. right. split; [done|]. apply (cmp_le_refl String.compare).
  - destruct (Z.ltb_spec (Z.of_nat b) (Z.of_nat n)) as [Hlt|Hge]; cbn [orb].
    + exists n. cbn [fst snd]. split_and!; [done|apply elem_of_app; right; by left|].
      intros k' m [Hm|[= -> ->]%list_elem_of_singleton]%elem_of_app; [left; destruct (Hall _ _ Hm); lia|].
      right. split; [done|]. apply (cmp_le_refl String.compare).
    + destruct (Z.eqb_spec (Z.of_nat n) (Z.of_nat b)) as [Heq|Hneq]; cbn [andb].
      * assert (n = b) as -> by lia. unfold str_ltb. destruct (String.compare k best) eqn:Ec; cbn [fst snd].
        -- exists b. split_and!; [done|apply elem_of_app; by left|].
           intros k' m [Hm|[= -> ->]%list_elem_of_singleton]%elem_of_app; [by apply Hall|]. right. split; [done|].
           by rewrite (cmp_eq_sym String.compare k best Ec).
        -- exists b. split_and!; [done|apply elem_of_app; right; by left|].
           intros k' m [Hm|[= -> ->]%list_elem_of_singleton]%elem_of_app.
           ++ destruct (Hall _ _ Hm) as [|[-> Hle]]; [by left|right]. split; [done|].
              apply (cmp_le_trans String.compare k best k'); [unfold cmp_le; by rewrite Ec|exact Hle].
           ++ right. split; [done|]. apply (cmp_le_refl String.compare).
        -- exists b. split_and!; [done|apply elem_of_app; by left|].
           intros k' m [Hm|[= -> ->]%list_elem_of_singleton]%elem_of_app; [by apply Hall|]. right. split; [done|].
           by rewrite (proj1 (cmp_gt_lt String.compare k best) Ec).
      * exists b. cbn [fst snd]. split_and!; [done|apply elem_of_app; by left|].
        intros k' m [Hm|[= -> ->]%list_elem_of_singleton]%elem_of_app; [by apply Hall|]. left. lia.
Qed.

Lemma dominates_unique entries b1 b2 : dominates entries b1 -> dominates entries b2 -> b1 = b2.
Proof.
  intros (n1 & H1 & A1) (n2 & H2 & A2). destruct (A1 _ _ H2) as [|[-> C1]], (A2 _ _ H1) as [|[E C2]]; try lia.
  apply string_compare_antisym. destruct (String.compare b1 b2) eqn:E1; [done| |done].
  apply (cmp_gt_lt String.compare b2 b1) in E1. done.
Qed.

Lemma dominates_perm entries1 entries2 b : entries1 ≡ₚ entries2 -> dominates entries1 b -> dominates entries2 b.
Proof. intros Hp (n & H & A). exists n. split; [by rewrite <- Hp|]. intros k m Hk. apply A. by rewrite Hp. Qed.

Lemma region_order_free entries1 entries2 : entries1 ≡ₚ entries2 -> entries1 <> [] ->
  dominantRegion entries1 = dominantRegion entries2.
Proof.
  intros Hp Hne. apply (dominates_unique entries1); [by apply dominant_dominates|].
  apply (dominates_perm entries2); [by symmetry|]. apply dominant_dominates. intros ->. apply Hne. by apply Permutation_nil_r.
Qed.

Section Placement.
Context (ParseFloat : string -> option float64).

Lemma given_valid m lat lng at_ : given_coord ParseFloat m lat lng = Some at_ -> validCoord (fst at_) (snd at_) = true.
Proof.
  unfold given_coord. destruct (parseFloat ParseFloat (label_text m lat)), (parseFloat ParseFloat (label_text m lng)); try done.
  destruct (validCoord _ _) eqn:E; [|done]. by intros [= <-].
Qed.

(** Where an operator's coordinates come from, and that they are valid. *)
Definition given_place (source : string) (d : GeoData) : Prop :=
  gd_Source d = source /\ gd_HasLocation d = true /\ validCoord (gd_Lat d) (gd_Lng d) = true.

Lemma configmap_place cm data d : applyConfigMap ParseFloat cm data = Some d -> given_place "configmap" d.
Proof.
  unfold applyConfigMap. destruct cm as [m|]; cbn [mbind option_bind]; [|done].
  destruct (given_coord ParseFloat m "lat" "lng") as [at_|] eqn:E; cbn [mbind option_bind]; [|done]. intros [= <-].
  split_and!; [done|done|]. by apply given_valid in E.
Qed.

Lemma annotation_place ann data d : applyNamespaceAnnotations ParseFloat ann data = Some d -> given_place "annotation" d.
Proof.
  unfold applyNamespaceAnnotations. destruct ann as [m|]; cbn [mbind option_bind]; [|done].
  destruct (given_coord ParseFloat m annoLat annoLng) as [at_|] eqn:E; cbn [mbind option_bind]; [|done]. intros [= <-].
  split_and!; [done|done|]. by apply given_valid in E.
Qed.

(** A cluster is placed where its operator says or where most of its nodes are, and always
    on the Earth. Coordinates of the ConfigMap are taken first, then those of the annotations;
    without either, the region is the one most nodes are labeled with, the first by name among
    equals, located by the table. A location has a latitude and a longitude within bounds, and
    none of it depends on the order in which Go ranges over the counts. *)
Theorem placement_sound order order' cm annotations nodes :
  (forall l, order l ≡ₚ l) -> (forall l, order' l ≡ₚ l) ->
  let d := audit_geo ParseFloat order cm annotations nodes in
  let counts := map_to_list (count_by inferred_region nodes) in
  d = audit_geo ParseFloat order' cm annotations nodes /\
  (gd_HasLocation d = true -> validCoord (gd_Lat d) (gd_Lng d) = true) /\
  (applyConfigMap ParseFloat cm (geo_zero (length nodes)) <> None -> gd_Source d = "configmap"%string) /\
  (gd_Source d = "auto"%string -> dominates counts (gd_Region d) /\
     exists c, region_coord (gd_Region d) = Some c /\ gd_Lat d = co_Lat c /\ gd_Lng d = co_Lng c).
Proof.
  intros Ho Ho' d counts. unfold d, audit_geo.
  destruct (applyConfigMap ParseFloat cm _) as [d1|] eqn:E1.
  { apply configmap_place in E1 as (Hs & Hl & Hv). split_and!; [done|done|done|]. cbn [with_places gd_Source]. by rewrite Hs. }
  destruct (applyNamespaceAnnotations ParseFloat annotations _) as [d2|] eqn:E2.
  { apply annotation_place in E2 as (Hs & Hl & Hv). split_and!; [done|done|done|]. cbn [with_places gd_Source]. by rewrite Hs. }
  destruct (Nat.eqb_spec (size (count_by inferred_region nodes)) 0) as [Hz|Hz]; [by split_and!|].
  assert (Hne : counts <> []).
  { unfold counts. intros H%(f_equal length). by rewrite length_map_to_list in H. }
  assert (Hne' : order counts <> []) by (intros E; specialize (Ho counts); rewrite E in Ho; by apply Permutation_nil_l in Ho).
  assert (Hbest : dominantRegion (order counts) = dominantRegion (order' counts)).
  { apply region_order_free; [by rewrite Ho, Ho'|done]. }
  fold counts. rewrite <- Hbest.
  assert (Hd : dominates counts (dominantRegion (order counts))).
  { apply (dominates_perm (order counts)); [apply Ho|by apply dominant_dominates]. }
  unfold auto_place. destruct (region_coord (dominantRegion (order counts))) as [c|] eqn:Ec; cbn; split_and!; try done.
  - intros _. by eapply region_valid.
  - intros _. split; [done|]. by exists c.
Qed.
End Placement.

Definition in_region (r : string) : gmap string string := {[ "topology.kubernetes.io/region"%string := r ]}.

Definition sample_nodes : list (gmap string string) := [in_region "us-east-1"; in_region "eu-west-1"; in_region "eu-west-1"].

Lemma placement_sound_witness :
  (forall l : list (string * nat), rev l ≡ₚ l) /\
  gd_Region (audit_geo (fun _ => None) (@rev _) None None sample_nodes) = "eu-west-1"%string /\
  validCoord (gd_Lat (audit_geo (fun _ => None) (@rev _) None None sample_nodes))
    (gd_Lng (audit_geo (fun _ => None) (@rev _) None None sample_nodes)) = true.
Proof.
  assert (H : forall l : list (string * nat), rev l ≡ₚ l) by (intros l; symmetry; apply Permutation_rev).
  split; [exact H|]. split; [vm_compute; reflexivity|].
  apply (proj1 (proj2 (placement_sound (fun _ => None) (@rev _) id None None sample_nodes H (fun l => reflexivity l)))).
  vm_compute. reflexivity.
Defined.

(** A zone that is itself a region of the table, and whose name ends in one of the letters a
    to f, loses its last letter: the cluster is then counted under a region that does not
    exist, and is not located. *)
Lemma zone_region_cut :
  let d := audit_geo (fun _ => None) id None None [{[ "topology.kubernetes.io/zone"%string := "westeurope"%string ]}] in
  LookupZone "westeurope" <> None /\ gd_Region d = "westeurop"%string /\ gd_HasLocation d = false.
Proof. vm_compute. split_and!; done. Qed.
