(* ===== verification/WorkloadSec.v ===== *)
(** * internal/scanner/workloadsec: the audit of pod security contexts

    The pods are what the list read returned; reading them and turning the read into
    the result's state are in Scan.v. *)

From Stdlib Require Import ZArith Lia String.
From stdpp Require Import base gmap strings list.
From S2P Require Import Prelude Float64 Text Data Scan PodSec.

Local Open Scope nat_scope.

Definition Name : string := "workload-security".

Record PodRisk := { pr_Namespace : string; pr_Pod : string; pr_Container : string; pr_Risks : list string }.

Record Data := {
  wd_TotalPods : nat;
  wd_PrivilegedContainers : nat;
  wd_HostNetworkPods : nat;
  wd_HostPIDPods : nat;
  wd_HostIPCPods : nat;
  wd_HostPathVolumes : nat;
  wd_BaselineContainers : nat;
  wd_RunAsRootContainers : nat;
  wd_RunAsNonRootContainers : nat;
  wd_RunAsUnknownContainers : nat;
  wd_CapabilityAdditions : nat;
  wd_MissingCapabilityDropAll : nat;
  wd_AllowPrivilegeEscalation : nat;
  wd_MissingSeccompProfile : nat;
  wd_NoReadOnlyRoot : nat;
  wd_DefaultServiceAccountPods : nat;
  wd_HighRiskPods : list PodRisk
}.

Definition data_of (total : nat) : Data := {|
  wd_TotalPods := total; wd_PrivilegedContainers := 0; wd_HostNetworkPods := 0; wd_HostPIDPods := 0;
  wd_HostIPCPods := 0; wd_HostPathVolumes := 0; wd_BaselineContainers := 0; wd_RunAsRootContainers := 0;
  wd_RunAsNonRootContainers := 0; wd_RunAsUnknownContainers := 0; wd_CapabilityAdditions := 0;
  wd_MissingCapabilityDropAll := 0; wd_AllowPrivilegeEscalation := 0; wd_MissingSeccompProfile := 0;
  wd_NoReadOnlyRoot := 0; wd_DefaultServiceAccountPods := 0; wd_HighRiskPods := [] |}.

(** [if b { n++ }]. *)
Definition plus_if (b : bool) (n : nat) : nat := if b then S n else n.

Definition hasHostPath (pod : Pod) : bool := existsb id (pod_HostPathVolumes pod).

Definition default_sa (pod : Pod) : bool :=
  String.eqb (pod_ServiceAccountName pod) "" || String.eqb (pod_ServiceAccountName pod) "default".

Definition privileged (c : Container) : bool := default false (ct_SecurityContext c ≫= sc_Privileged).

(** The added capabilities, none where the context or the list is absent. *)
Definition added_caps (c : Container) : list string :=
  match ct_SecurityContext c ≫= sc_Capabilities with Some caps => cap_Add caps | None => [] end.

Definition adds_caps (c : Container) : bool := match added_caps c with [] => false | _ => true end.

Definition is_status (s : Status) (pod : Pod) (c : Container) : bool := bool_decide (RootStatus (Some pod) c = s).

Definition risks_of (pod : Pod) (c : Container) : list string :=
  (if privileged c then ["privileged"] else []) ++
  (if is_status Root pod c then ["runs-as-root"] else []) ++
  (if adds_caps c then [("capabilities-add:[" ++ join " " (added_caps c) ++ "]")%string] else []) ++
  (if AllowsPrivilegeEscalation c then ["allow-privilege-escalation"] else []) ++
  (if negb (ReadOnlyRootFS c) then ["writable-root-fs"] else []) ++
  (if pod_HostNetwork pod then ["host-network"] else []) ++
  (if pod_HostPID pod then ["host-pid"] else []) ++
  (if pod_HostIPC pod then ["host-ipc"] else []).

Definition isHighRisk (pod : Pod) (c : Container) : bool :=
  privileged c || pod_HostNetwork pod || pod_HostPID pod || pod_HostIPC pod || adds_caps c ||
  AllowsPrivilegeEscalation c.

(** The body of the container loop; [inBaseline] tells the init and regular ones. *)
Definition audit_container (pod : Pod) (inBaseline : bool) (d : Data) (c : Container) : Data := {|
  wd_TotalPods := wd_TotalPods d;
  wd_PrivilegedContainers := plus_if (privileged c) (wd_PrivilegedContainers d);
  wd_HostNetworkPods := wd_HostNetworkPods d;
  wd_HostPIDPods := wd_HostPIDPods d;
  wd_HostIPCPods := wd_HostIPCPods d;
  wd_HostPathVolumes := wd_HostPathVolumes d;
  wd_BaselineContainers := wd_BaselineContainers d;
  wd_RunAsRootContainers := plus_if (inBaseline && is_status Root pod c) (wd_RunAsRootContainers d);
  wd_RunAsNonRootContainers := plus_if (inBaseline && is_status NonRoot pod c) (wd_RunAsNonRootContainers d);
  wd_RunAsUnknownContainers := plus_if (inBaseline && is_status Unknown pod c) (wd_RunAsUnknownContainers d);
  wd_CapabilityAdditions := plus_if (adds_caps c) (wd_CapabilityAdditions d);
  wd_MissingCapabilityDropAll := plus_if (negb (DropsAllCapabilities c)) (wd_MissingCapabilityDropAll d);
  wd_AllowPrivilegeEscalation := plus_if (inBaseline && AllowsPrivilegeEscalation c) (wd_AllowPrivilegeEscalation d);
  wd_MissingSeccompProfile := plus_if (negb (SeccompConfined (Some pod) c)) (wd_MissingSeccompProfile d);
  wd_NoReadOnlyRoot := plus_if (inBaseline && negb (ReadOnlyRootFS c)) (wd_NoReadOnlyRoot d);
  wd_DefaultServiceAccountPods := wd_DefaultServiceAccountPods d;
  wd_HighRiskPods := wd_HighRiskPods d ++
    (if isHighRisk pod c then
       [{| pr_Namespace := pod_Namespace pod; pr_Pod := pod_Name pod; pr_Container := ct_Name c;
           pr_Risks := risks_of pod c |}]
     else []) |}.

(** The body of the pod loop up to the containers. *)
Definition audit_pod_fields (pod : Pod) (d : Data) : Data := {|
  wd_TotalPods := wd_TotalPods d;
  wd_PrivilegedContainers := wd_PrivilegedContainers d;
  wd_HostNetworkPods := plus_if (pod_HostNetwork pod) (wd_HostNetworkPods d);
  wd_HostPIDPods := plus_if (pod_HostPID pod) (wd_HostPIDPods d);
  wd_HostIPCPods := plus_if (pod_HostIPC pod) (wd_HostIPCPods d);
  wd_HostPathVolumes := plus_if (hasHostPath pod) (wd_HostPathVolumes d);
  wd_BaselineContainers := wd_BaselineContainers d + (length (pod_InitContainers pod) + length (pod_Containers pod));
  wd_RunAsRootContainers := wd_RunAsRootContainers d;
  wd_RunAsNonRootContainers := wd_RunAsNonRootContainers d;
  wd_RunAsUnknownContainers := wd_RunAsUnknownContainers d;
  wd_CapabilityAdditions := wd_CapabilityAdditions d;
  wd_MissingCapabilityDropAll := wd_MissingCapabilityDropAll d;
  wd_AllowPrivilegeEscalation := wd_AllowPrivilegeEscalation d;
  wd_MissingSeccompProfile := wd_MissingSeccompProfile d;
  wd_NoReadOnlyRoot := wd_NoReadOnlyRoot d;
  wd_DefaultServiceAccountPods := plus_if (default_sa pod) (wd_DefaultServiceAccountPods d);
  wd_HighRiskPods := wd_HighRiskPods d |}.

(** [range podsec.Containers(pod, true)] with its index [j]. *)
Definition indexed_containers (pod : Pod) : list (nat * Container) := imap pair (Containers (Some pod) true).

Definition audit_pod (d : Data) (pod : Pod) : Data :=
  let baseline := length (pod_InitContainers pod) + length (pod_Containers pod) in
  fold_left (fun d jc => audit_container pod (fst jc <? baseline) d (snd jc)) (indexed_containers pod)
    (audit_pod_fields pod d).

Definition comparePodRisks : PodRisk -> PodRisk -> comparison :=
  cmp_lex (cmp_rev (cmp_on (fun r => length (pr_Risks r)) Nat.compare))
    (cmp_lex (cmp_on pr_Namespace String.compare)
       (cmp_lex (cmp_on pr_Pod String.compare) (cmp_on pr_Container String.compare))).

Definition with_high_risk (d : Data) (l : list PodRisk) : Data := {|
  wd_TotalPods := wd_TotalPods d; wd_PrivilegedContainers := wd_PrivilegedContainers d;
  wd_HostNetworkPods := wd_HostNetworkPods d; wd_HostPIDPods := wd_HostPIDPods d; wd_HostIPCPods := wd_HostIPCPods d;
  wd_HostPathVolumes := wd_HostPathVolumes d; wd_BaselineContainers := wd_BaselineContainers d;
  wd_RunAsRootContainers := wd_RunAsRootContainers d; wd_RunAsNonRootContainers := wd_RunAsNonRootContainers d;
  wd_RunAsUnknownContainers := wd_RunAsUnknownContainers d; wd_CapabilityAdditions := wd_CapabilityAdditions d;
  wd_MissingCapabilityDropAll := wd_MissingCapabilityDropAll d;
  wd_AllowPrivilegeEscalation := wd_AllowPrivilegeEscalation d;
  wd_MissingSeccompProfile := wd_MissingSeccompProfile d; wd_NoReadOnlyRoot := wd_NoReadOnlyRoot d;
  wd_DefaultServiceAccountPods := wd_DefaultServiceAccountPods d; wd_HighRiskPods := l |}.

(** The scan of the pods that were read. *)
Definition audit (pods : list Pod) : Data :=
  let data := fold_left audit_pod pods (data_of (length pods)) in
  with_high_risk data (TopN (wd_HighRiskPods data) 50 comparePodRisks).

(** ** The payload as [encoding/json] writes it *)

Definition risk_json (r : PodRisk) : json := JObj [
  ("namespace", JStr (pr_Namespace r)); ("pod", JStr (pr_Pod r)); ("container", JStr (pr_Container r));
  ("risks", strings_json (pr_Risks r))].

Definition to_json (d : Data) : json := JObj [
  ("total_pods", count_json (wd_TotalPods d));
  ("privileged_containers", count_json (wd_PrivilegedContainers d));
  ("host_network_pods", count_json (wd_HostNetworkPods d));
  ("host_pid_pods", count_json (wd_HostPIDPods d));
  ("host_ipc_pods", count_json (wd_HostIPCPods d));
  ("host_path_volumes", count_json (wd_HostPathVolumes d));
  ("baseline_containers", count_json (wd_BaselineContainers d));
  ("run_as_root_containers", count_json (wd_RunAsRootContainers d));
  ("run_as_non_root_containers", count_json (wd_RunAsNonRootContainers d));
  ("run_as_unknown_containers", count_json (wd_RunAsUnknownContainers d));
  ("capability_additions", count_json (wd_CapabilityAdditions d));
  ("missing_capability_drop_all", count_json (wd_MissingCapabilityDropAll d));
  ("allow_privilege_escalation", count_json (wd_AllowPrivilegeEscalation d));
  ("missing_seccomp_profile", count_json (wd_MissingSeccompProfile d));
  ("no_read_only_root", count_json (wd_NoReadOnlyRoot d));
  ("default_service_account_pods", count_json (wd_DefaultServiceAccountPods d));
  ("high_risk_pods", match wd_HighRiskPods d with [] => JNull | l => JArr (map risk_json l) end)].

(** ** What the counters count *)

Definition count {A} (p : A -> bool) (l : list A) : nat := length (List.filter p l).

(** The containers admission sees, each with its pod. *)
Definition with_pod (pod : Pod) (l : list Container) : list (Pod * Container) := map (pair pod) l.
Definition admitted (pods : list Pod) : list (Pod * Container) :=
  flat_map (fun p => with_pod p (Containers (Some p) false)) pods.
Definition all_containers (pods : list Pod) : list (Pod * Container) :=
  flat_map (fun p => with_pod p (Containers (Some p) true)) pods.

Lemma count_app {A} (p : A -> bool) l1 l2 : count p (l1 ++ l2) = count p l1 + count p l2.
Proof. unfold count. by rewrite List.filter_app, length_app. Qed.

Lemma count_map {A B} (f : A -> B) (p : B -> bool) l : count p (map f l) = count (fun x => p (f x)) l.
Proof. unfold count. by rewrite filter_map_comm, length_map. Qed.

Lemma count_ext {A} (p q : A -> bool) l : (forall x, p x = q x) -> count p l = count q l.
Proof. intros H. unfold count. f_equal. apply List.filter_ext. exact H. Qed.

Lemma count_le {A} (p : A -> bool) l : count p l <= length l.
Proof. unfold count. induction l as [|a l IH]; simpl; [lia|]. destruct (p a); simpl; lia. Qed.

Lemma count_negb {A} (p : A -> bool) l : count (fun x => negb (p x)) l + count p l = length l.
Proof. unfold count. induction l as [|a l IH]; simpl; [done|]. destruct (p a); simpl; lia. Qed.

Lemma count_all {A} (l : list A) : count (fun _ => true) l = length l.
Proof. unfold count. induction l as [|a l IH]; simpl; [done|]. by rewrite IH. Qed.

Lemma count_cons {A} (p : A -> bool) a l : count p (a :: l) = plus_if (p a) (count p l).
Proof. unfold count. simpl. by destruct (p a). Qed.

Lemma plus_if_add b n m : plus_if b n + m = n + plus_if b m.
Proof. destruct b; simpl; lia. Qed.

(** A counter the container loop bumps under [q]. *)
Lemma fold_count {S A} (step : S -> A -> S) (get : S -> nat) (q : A -> bool) (l : list A) (s : S) :
  (forall s a, get (step s a) = plus_if (q a) (get s)) -> get (fold_left step l s) = get s + count q l.
Proof.
  intros H. revert s. induction l as [|a l IH]; intros s; simpl; [unfold count; simpl; lia|].
  rewrite IH, H, count_cons. apply plus_if_add.
Qed.

Lemma count_indexed (p : Container -> bool) (l1 l2 : list Container) n :
  count (fun jc : nat * Container => (fst jc <? n + length l1) && p (snd jc)) (imap (fun j c => (n + j, c)) (l1 ++ l2)) = count p l1.
Proof.
  revert n. induction l1 as [|c l1 IH]; intros n; cbn [app length].
  - unfold count. replace (List.filter _ _) with (@nil (nat * Container)); [done|]. symmetry.
    apply length_zero_iff_nil, filter_none. intros [j c] Hin. apply list_elem_of_lookup in Hin as [i Hi].
    rewrite list_lookup_imap in Hi. destruct (l2 !! i); simplify_eq/=. destruct (Nat.ltb_spec (n + i) (n + 0)); [lia|done].
  - cbn [imap]. rewrite !count_cons. cbn [fst snd]. destruct (Nat.ltb_spec (n + 0) (n + S (length l1))); [|lia].
    cbn [andb]. f_equal. rewrite <- (IH (S n)).
    assert (imap ((fun j c => (n + j, c)) ∘ S) (l1 ++ l2) = imap (fun j c => (S n + j, c)) (l1 ++ l2)) as ->.
    { apply imap_ext. intros. simpl. f_equal. lia. }
    apply count_ext. intros [j x]. simpl. by replace (n + S (length l1)) with (S (n + length l1)) by lia.
Qed.

Lemma count_baseline pod (p : Container -> bool) :
  count (fun jc : nat * Container => (fst jc <? length (pod_InitContainers pod) + length (pod_Containers pod)) && p (snd jc))
    (indexed_containers pod) = count p (Containers (Some pod) false).
Proof.
  unfold indexed_containers, Containers. rewrite app_nil_r, app_assoc, <- length_app. apply (count_indexed p _ _ 0).
Qed.

Lemma indexed_snd pod : map snd (indexed_containers pod) = Containers (Some pod) true.
Proof.
  unfold indexed_containers. apply list_eq. intros i. rewrite list_lookup_fmap, list_lookup_imap.
  by destruct (Containers (Some pod) true !! i).
Qed.

Lemma count_indexed_all pod (p : Container -> bool) :
  count (fun jc : nat * Container => p (snd jc)) (indexed_containers pod) = count p (Containers (Some pod) true).
Proof.
  by rewrite <- (count_map snd), indexed_snd.
Qed.

(** A counter of the admitted containers, summed over the pods. *)
Lemma audit_admitted (get : Data -> nat) (q : Pod -> Container -> bool) pods d :
  (forall pod inb d c, get (audit_container pod inb d c) = plus_if (inb && q pod c) (get d)) ->
  (forall pod d, get (audit_pod_fields pod d) = get d) ->
  get (fold_left audit_pod pods d) = get d + count (fun pc => q (fst pc) (snd pc)) (admitted pods).
Proof.
  intros H1 H2. revert d. induction pods as [|p pods IH]; intros d; cbn [fold_left admitted all_containers flat_map];
    [unfold count; simpl; lia|].
  rewrite IH, count_app. unfold with_pod at 1. rewrite count_map. cbn [fst snd]. unfold audit_pod.
  rewrite (fold_count _ get (fun jc => (fst jc <? length (pod_InitContainers p) + length (pod_Containers p)) && q p (snd jc)))
    by (intros; apply H1).
  rewrite (count_baseline p (q p)), H2. fold (admitted pods). change (fun x => q p x) with (q p). lia.
Qed.

Lemma audit_all (get : Data -> nat) (q : Pod -> Container -> bool) pods d :
  (forall pod inb d c, get (audit_container pod inb d c) = plus_if (q pod c) (get d)) ->
  (forall pod d, get (audit_pod_fields pod d) = get d) ->
  get (fold_left audit_pod pods d) = get d + count (fun pc => q (fst pc) (snd pc)) (all_containers pods).
Proof.
  intros H1 H2. revert d. induction pods as [|p pods IH]; intros d; cbn [fold_left admitted all_containers flat_map];
    [unfold count; simpl; lia|].
  rewrite IH, count_app. unfold with_pod at 1. rewrite count_map. cbn [fst snd]. unfold audit_pod.
  rewrite (fold_count _ get (fun jc => q p (snd jc))) by (intros; apply H1).
  rewrite (count_indexed_all p (q p)), H2. fold (all_containers pods). change (fun x => q p x) with (q p). lia.
Qed.

(** A counter of the pods. *)
Lemma audit_pods (get : Data -> nat) (q : Pod -> nat) pods d :
  (forall pod inb d c, get (audit_container pod inb d c) = get d) ->
  (forall pod d, get (audit_pod_fields pod d) = get d + q pod) ->
  get (fold_left audit_pod pods d) = get d + sum_list (map q pods).
Proof.
  intros H1 H2. revert d. induction pods as [|p pods IH]; intros d; simpl; [lia|].
  rewrite IH. unfold audit_pod.
  rewrite (fold_count _ get (fun _ => false)) by (intros; apply H1). rewrite H2.
  unfold count. replace (List.filter _ _) with (@nil (nat * Container)); [simpl; lia|].
  symmetry. by apply length_zero_iff_nil, filter_none.
Qed.

Lemma sum_plus_if {A} (p : A -> bool) l : sum_list (map (fun x => plus_if (p x) 0) l) = count p l.
Proof. unfold count. induction l as [|a l IH]; simpl; [done|]. rewrite IH. by destruct (p a). Qed.

Lemma length_admitted pods :
  length (admitted pods) = sum_list (map (fun p => length (pod_InitContainers p) + length (pod_Containers p)) pods).
Proof.
  induction pods as [|p pods IH]; simpl; [done|]. rewrite length_app, IH. unfold with_pod. rewrite length_map.
  by rewrite app_nil_r, length_app.
Qed.

Definition risk_entry (pc : Pod * Container) : list PodRisk :=
  if isHighRisk (fst pc) (snd pc) then
    [{| pr_Namespace := pod_Namespace (fst pc); pr_Pod := pod_Name (fst pc); pr_Container := ct_Name (snd pc);
        pr_Risks := risks_of (fst pc) (snd pc) |}]
  else [].

Lemma high_risk_containers pod b (l : list (nat * Container)) d :
  wd_HighRiskPods (fold_left (fun d jc => audit_container pod (fst jc <? b) d (snd jc)) l d) =
  wd_HighRiskPods d ++ flat_map risk_entry (with_pod pod (map snd l)).
Proof.
  revert d. induction l as [|[j c] l IH]; intros d; simpl; [by rewrite app_nil_r|].
  rewrite IH. simpl. by rewrite <- app_assoc.
Qed.

Lemma high_risk_pods pods d :
  wd_HighRiskPods (fold_left audit_pod pods d) = wd_HighRiskPods d ++ flat_map risk_entry (all_containers pods).
Proof.
  revert d. induction pods as [|p pods IH]; intros d; cbn [fold_left all_containers flat_map]; [by rewrite app_nil_r|].
  rewrite IH, flat_map_app, app_assoc. unfold audit_pod. rewrite high_risk_containers, indexed_snd. done.
Qed.

Lemma with_high_risk_get d l :
  wd_TotalPods (with_high_risk d l) = wd_TotalPods d /\
  wd_BaselineContainers (with_high_risk d l) = wd_BaselineContainers d /\
  wd_RunAsRootContainers (with_high_risk d l) = wd_RunAsRootContainers d /\
  wd_RunAsNonRootContainers (with_high_risk d l) = wd_RunAsNonRootContainers d /\
  wd_RunAsUnknownContainers (with_high_risk d l) = wd_RunAsUnknownContainers d /\
  wd_AllowPrivilegeEscalation (with_high_risk d l) = wd_AllowPrivilegeEscalation d /\
  wd_NoReadOnlyRoot (with_high_risk d l) = wd_NoReadOnlyRoot d /\
  wd_DefaultServiceAccountPods (with_high_risk d l) = wd_DefaultServiceAccountPods d.
Proof. by split_all. Qed.

Definition nonroot (pc : Pod * Container) : bool := is_status NonRoot (fst pc) (snd pc).
Definition escalates (pc : Pod * Container) : bool := AllowsPrivilegeEscalation (snd pc).
Definition writable (pc : Pod * Container) : bool := negb (ReadOnlyRootFS (snd pc)).

(** The counters that feed the admission baseline, over any pods. *)
Lemma audit_counts pods :
  wd_TotalPods (audit pods) = length pods /\
  wd_BaselineContainers (audit pods) = length (admitted pods) /\
  wd_RunAsRootContainers (audit pods) = count (fun pc => is_status Root (fst pc) (snd pc)) (admitted pods) /\
  wd_RunAsNonRootContainers (audit pods) = count nonroot (admitted pods) /\
  wd_RunAsUnknownContainers (audit pods) = count (fun pc => is_status Unknown (fst pc) (snd pc)) (admitted pods) /\
  wd_AllowPrivilegeEscalation (audit pods) = count escalates (admitted pods) /\
  wd_NoReadOnlyRoot (audit pods) = count writable (admitted pods) /\
  wd_DefaultServiceAccountPods (audit pods) = count default_sa pods.
Proof.
  unfold audit. destruct (with_high_risk_get (fold_left audit_pod pods (data_of (length pods)))
    (TopN (wd_HighRiskPods (fold_left audit_pod pods (data_of (length pods)))) 50 comparePodRisks))
    as (-> & -> & -> & -> & -> & -> & -> & ->).
  split_all.
  - rewrite (audit_pods wd_TotalPods (fun _ => 0)) by (intros; simpl; lia). simpl.
    replace (sum_list _) with 0; [lia|]. induction pods; simpl; lia.
  - rewrite (audit_pods wd_BaselineContainers (fun p => length (pod_InitContainers p) + length (pod_Containers p)))
      by (intros; simpl; lia). simpl. symmetry. apply length_admitted.
  - by rewrite (audit_admitted wd_RunAsRootContainers (is_status Root)).
  - by rewrite (audit_admitted wd_RunAsNonRootContainers (is_status NonRoot)).
  - by rewrite (audit_admitted wd_RunAsUnknownContainers (is_status Unknown)).
  - by rewrite (audit_admitted wd_AllowPrivilegeEscalation (fun _ => AllowsPrivilegeEscalation)).
  - by rewrite (audit_admitted wd_NoReadOnlyRoot (fun _ c => negb (ReadOnlyRootFS c))).
  - rewrite (audit_pods wd_DefaultServiceAccountPods (fun p => plus_if (default_sa p) 0))
      by (intros; simpl; try done; by destruct (default_sa _); simpl; lia). simpl. apply sum_plus_if.
Qed.

Module Audit.

(** The audit accounts for every container: each admitted container is root, non-root
    or unsettled and counted as one of the three; ephemeral containers are in none of
    the counts that feed the admission baseline, and are in those of the posture; and at
    most fifty risky containers are listed, each risky. *)
Theorem audit_accounts pods :
  wd_RunAsRootContainers (audit pods) + wd_RunAsNonRootContainers (audit pods) +
    wd_RunAsUnknownContainers (audit pods) = wd_BaselineContainers (audit pods) /\
  wd_BaselineContainers (audit pods) = length (admitted pods) /\
  wd_RunAsNonRootContainers (audit pods) = count nonroot (admitted pods) /\
  wd_AllowPrivilegeEscalation (audit pods) = count escalates (admitted pods) /\
  wd_NoReadOnlyRoot (audit pods) = count writable (admitted pods) /\
  wd_PrivilegedContainers (audit pods) = count (fun pc => privileged (snd pc)) (all_containers pods) /\
  wd_MissingSeccompProfile (audit pods) =
    count (fun pc => negb (SeccompConfined (Some (fst pc)) (snd pc))) (all_containers pods) /\
  length (wd_HighRiskPods (audit pods)) <= 50 /\
  (forall r, r ∈ wd_HighRiskPods (audit pods) -> exists pc, pc ∈ all_containers pods /\
     isHighRisk (fst pc) (snd pc) = true /\ pr_Container r = ct_Name (snd pc) /\ pr_Risks r = risks_of (fst pc) (snd pc)).
Proof.
  destruct (audit_counts pods) as (_ & Hb & Hr & Hn & Hu & He & Hw & _).
  rewrite Hb, Hr, Hn, Hu, He, Hw. split_all; try done.
  - clear. induction (admitted pods) as [|pc l IH]; [done|]. rewrite !count_cons.
    unfold nonroot, is_status in *. destruct (RootStatus (Some pc.1) pc.2) eqn:E; simpl; lia.
  - apply (audit_all wd_PrivilegedContainers (fun _ => privileged)); by intros.
  - apply (audit_all wd_MissingSeccompProfile (fun p c => negb (SeccompConfined (Some p) c))); by intros.
  - unfold audit, TopN. simpl. rewrite length_take. lia.
  - intros r Hr'. unfold audit, TopN in Hr'. simpl in Hr'. apply elem_of_take in Hr' as (i & Hi & _).
    apply list_elem_of_lookup_2, isort_elem_of in Hi.
    rewrite high_risk_pods in Hi. simpl in Hi. apply list_elem_of_In, in_flat_map in Hi as (pc & Hpc & Hr').
    exists pc. split; [by apply list_elem_of_In|]. unfold risk_entry in Hr'.
    destruct (isHighRisk pc.1 pc.2); [|done]. by destruct Hr' as [<-|[]].
Qed.

End Audit.

(** ** The scanner: the read of the pods and its coverage *)

Definition NewScanner {E} `{!ApiError E} (read : list Pod + E) : Result * option coverageError :=
  match read with
  | inr err => Finish (fst (Observe coverage_empty "pods" (Some err))) Name JNull
  | inl pods => Finish (fst (Observe coverage_empty "pods" None)) Name (to_json (audit pods))
  end.
