(* ===== verification/ImageAudit.v ===== *)
(** * internal/scanner/imageaudit: image hygiene

    The audit of the image references. Registry probing is off unless an operator asks
    for it; its answers, an error or the image's age, are an argument. *)

From Stdlib Require Import ZArith Lia String Ascii.
From stdpp Require Import base gmap strings list.
From S2P Require Import Prelude Float64 Text Strs Data Scan PodSec WorkloadSec.

Local Open Scope nat_scope.

Definition Name : string := "image-audit".

Record ImageRisk := {
  ir_Namespace : string; ir_Pod : string; ir_Container : string; ir_Image : string; ir_Risks : list string }.

Record Data := {
  im_TotalContainers : nat;
  im_LatestTag : nat;
  im_NoDigest : nat;
  im_UniqueImages : nat;
  im_ImageRisks : list ImageRisk;
  im_ImagesProbed : nat;
  im_ImagesFailed : nat;
  im_OldestImageAgeDays : Z;
  im_AvgImageAgeDays : Z
}.

Definition data_zero : Data := {|
  im_TotalContainers := 0; im_LatestTag := 0; im_NoDigest := 0; im_UniqueImages := 0; im_ImageRisks := [];
  im_ImagesProbed := 0; im_ImagesFailed := 0; im_OldestImageAgeDays := 0; im_AvgImageAgeDays := 0 |}.

Definition isLatestOrNoTag (image : string) : bool :=
  let image := before "@" image in
  if HasSuffix image ":latest" then true
  else
    let afterSlash := default image (from_last "/" image) in
    negb (Contains afterSlash ":").

Definition pinned (image : string) : bool := Contains image "@sha256:".

Definition image_risks (image : string) : list string :=
  (if isLatestOrNoTag image then ["latest-or-no-tag"] else []) ++
  (if negb (pinned image) then ["no-digest-pin"] else []).

(** The body of the container loop, with the set of images seen. *)
Definition audit_image (pod : Pod) (acc : Data * gset string) (c : Container) : Data * gset string :=
  let '(d, images) := acc in
  let risks := image_risks (ct_Image c) in
  ({| im_TotalContainers := S (im_TotalContainers d);
      im_LatestTag := plus_if (isLatestOrNoTag (ct_Image c)) (im_LatestTag d);
      im_NoDigest := plus_if (negb (pinned (ct_Image c))) (im_NoDigest d);
      im_UniqueImages := im_UniqueImages d;
      im_ImageRisks := im_ImageRisks d ++
        match risks with
        | [] => []
        | _ => [{| ir_Namespace := pod_Namespace pod; ir_Pod := pod_Name pod; ir_Container := ct_Name c;
                   ir_Image := ct_Image c; ir_Risks := risks |}]
        end;
      im_ImagesProbed := im_ImagesProbed d; im_ImagesFailed := im_ImagesFailed d;
      im_OldestImageAgeDays := im_OldestImageAgeDays d; im_AvgImageAgeDays := im_AvgImageAgeDays d |},
   {[ct_Image c]} ∪ images).

Definition audit_pod_images (acc : Data * gset string) (pod : Pod) : Data * gset string :=
  fold_left (audit_image pod) (pod_InitContainers pod ++ pod_Containers pod) acc.

Definition compareImageRisks : ImageRisk -> ImageRisk -> comparison :=
  cmp_lex (cmp_rev (cmp_on (fun r => length (ir_Risks r)) Nat.compare))
    (cmp_lex (cmp_on ir_Image String.compare)
       (cmp_lex (cmp_on ir_Namespace String.compare)
          (cmp_lex (cmp_on ir_Pod String.compare) (cmp_on ir_Container String.compare)))).

Definition with_images (d : Data) (unique : nat) (risks : list ImageRisk) : Data := {|
  im_TotalContainers := im_TotalContainers d; im_LatestTag := im_LatestTag d; im_NoDigest := im_NoDigest d;
  im_UniqueImages := unique; im_ImageRisks := risks; im_ImagesProbed := im_ImagesProbed d;
  im_ImagesFailed := im_ImagesFailed d; im_OldestImageAgeDays := im_OldestImageAgeDays d;
  im_AvgImageAgeDays := im_AvgImageAgeDays d |}.

(** ** Probe results

    A probe either fails or gives the image's age in nanoseconds, none when the registry
    reported no creation time. *)
Inductive probe := ProbeFailed | Probed (age : option Z).

(** [time.Duration.Hours]. *)
Definition hour_ns : Z := 3600000000000.
Definition Hours (d : Z) : float64 :=
  f_add (f_of_Z (Z.quot d hour_ns)) (f_div (f_of_Z (Z.rem d hour_ns)) (f_of_Z hour_ns)).
Definition age_days (d : Z) : Z := f_to_int (f_div (Hours d) (f_of_Z 24)).

(** The state of the loop: the data, the summed age and the number of ages. *)
Definition fold_probe (acc : Data * Z * Z) (p : probe) : Data * Z * Z :=
  let '(d, totalAge, probed) := acc in
  let bump ok failed oldest := {|
    im_TotalContainers := im_TotalContainers d; im_LatestTag := im_LatestTag d; im_NoDigest := im_NoDigest d;
    im_UniqueImages := im_UniqueImages d; im_ImageRisks := im_ImageRisks d;
    im_ImagesProbed := im_ImagesProbed d + ok; im_ImagesFailed := im_ImagesFailed d + failed;
    im_OldestImageAgeDays := oldest; im_AvgImageAgeDays := im_AvgImageAgeDays d |} in
  match p with
  | ProbeFailed => (bump 0 1 (im_OldestImageAgeDays d), totalAge, probed)
  | Probed None => (bump 1 0 (im_OldestImageAgeDays d), totalAge, probed)
  | Probed (Some age) =>
      (bump 1 0 (Z.max (age_days age) (im_OldestImageAgeDays d)), wrap64 (totalAge + age), (probed + 1)%Z)
  end.

Definition fillProbeMetrics (results : list probe) (d : Data) : Data :=
  let '(d, totalAge, probed) := fold_left fold_probe results (d, 0%Z, 0%Z) in {|
    im_TotalContainers := im_TotalContainers d; im_LatestTag := im_LatestTag d; im_NoDigest := im_NoDigest d;
    im_UniqueImages := im_UniqueImages d; im_ImageRisks := im_ImageRisks d;
    im_ImagesProbed := im_ImagesProbed d; im_ImagesFailed := im_ImagesFailed d;
    im_OldestImageAgeDays := im_OldestImageAgeDays d;
    im_AvgImageAgeDays := if (0 <? probed)%Z then age_days (Z.quot totalAge probed) else im_AvgImageAgeDays d |}.

(** The scan of the pods that were read; [probes] is [None] when probing is off. *)
Definition audit (pods : list Pod) (probes : option (list probe)) : Data :=
  let '(data, images) := fold_left audit_pod_images pods (data_zero, ∅) in
  let data := with_images data (size images) (TopN (im_ImageRisks data) 50 compareImageRisks) in
  match probes with None => data | Some results => fillProbeMetrics results data end.

Definition risk_json (r : ImageRisk) : json := JObj [
  ("namespace", JStr (ir_Namespace r)); ("pod", JStr (ir_Pod r)); ("container", JStr (ir_Container r));
  ("image", JStr (ir_Image r)); ("risks", strings_json (ir_Risks r))].

Definition to_json (d : Data) : json := JObj [
  ("total_containers", count_json (im_TotalContainers d));
  ("latest_tag", count_json (im_LatestTag d));
  ("no_digest", count_json (im_NoDigest d));
  ("unique_images", count_json (im_UniqueImages d));
  ("image_risks", match im_ImageRisks d with [] => JNull | l => JArr (map risk_json l) end);
  ("images_probed", count_json (im_ImagesProbed d));
  ("images_failed", count_json (im_ImagesFailed d));
  ("oldest_image_age_days", JNum (f_of_Z (im_OldestImageAgeDays d)));
  ("avg_image_age_days", JNum (f_of_Z (im_AvgImageAgeDays d)))].

Definition NewScanner {E} `{!ApiError E} (probes : option (list probe)) (read : list Pod + E) :
  Result * option coverageError :=
  match read with
  | inr err => Finish (fst (Observe coverage_empty "pods" (Some err))) Name (to_json data_zero)
  | inl pods => Finish (fst (Observe coverage_empty "pods" None)) Name (to_json (audit pods probes))
  end.

Example tags : map isLatestOrNoTag
  ["app"; "app:latest"; "app:1.2"; "host:5000/app"; "host:5000/app:1"; "app@sha256:ab"; "app:1@sha256:ab"; "app:xlatest"] =
  [true; true; false; true; false; true; false; false].
Proof. vm_compute. reflexivity. Qed.

(** ** The tag of a reference *)

(** A reference [repo[:tag][@digest]]. The colon of a registry port is left of the last
    slash; neither a tag nor the last path element holds a colon or a slash. *)
Definition reference (repo : string) (tag digest : option string) : string :=
  (repo ++ match tag with Some t => String ":" t | None => "" end ++
   match digest with Some d => String "@" d | None => "" end)%string.

Definition repo_ok (repo : string) : bool :=
  no_byte "@" repo && no_byte ":" (default repo (from_last "/" repo)).
Definition tag_ok (tag : string) : bool := no_byte "@" tag && no_byte ":" tag && no_byte "/" tag.

Lemma no_colon_ends s : no_byte ":" (default s (from_last "/" s)) = true -> HasSuffix s ":latest" = false.
Proof.
  intros H. destruct (HasSuffix s ":latest") eqn:E; [|done]. apply HasSuffix_spec in E as [u ->].
  rewrite (from_last_keep "/" u ":latest" eq_refl) in H. destruct (from_last "/" u) as [x|]; simpl in H;
    rewrite no_byte_app, andb_comm in H; discriminate.
Qed.

Lemma app_str_assoc (a b c : string) : ((a ++ b) ++ c = a ++ (b ++ c))%string.
Proof. induction a as [|x a IH]; [done|exact (f_equal (String x) IH)]. Qed.

Lemma app_str_nil (s : string) : (s ++ "")%string = s.
Proof. induction s as [|a s IH]; [done|exact (f_equal (String a) IH)]. Qed.

Lemma strip_digest repo tag digest : repo_ok repo = true -> default true (tag_ok <$> tag) = true ->
  before "@" (reference repo tag digest) = reference repo tag None.
Proof.
  intros [H _]%andb_true_iff Ht. unfold reference. rewrite app_str_nil, <- app_str_assoc.
  assert (no_byte "@" (repo ++ match tag with Some t => String ":" t | None => "" end) = true) as Hn.
  { rewrite no_byte_app, H. destruct tag as [t|]; [|done]. simpl in *. unfold tag_ok in Ht.
    by destruct (no_byte "@" t). }
  destruct digest as [d|]; [by apply before_app|]. rewrite app_str_nil. by apply before_none.
Qed.

Module Images.

(** An image counts as latest exactly when its reference has no tag or the tag
    [latest], wherever the registry has a port and whatever the digest. *)
Theorem latest_tag_decides repo tag digest :
  repo_ok repo = true -> default true (tag_ok <$> tag) = true ->
  isLatestOrNoTag (reference repo tag digest) = true <-> tag = None \/ tag = Some "latest".
Proof.
  intros Hr Ht. unfold isLatestOrNoTag. rewrite strip_digest by done. unfold reference. rewrite app_str_nil.
  apply andb_true_iff in Hr as [Ha Hr]. destruct tag as [t|]; simpl in Ht.
  - apply andb_true_iff in Ht as [Ht Hs]. apply andb_true_iff in Ht as [_ Hc].
    destruct (HasSuffix (repo ++ String ":" t) ":latest") eqn:E.
    + apply HasSuffix_spec in E as [u E]. split; [intros _; right|done].
      pose proof (from_last_app ":" repo t Hc) as H1. pose proof (from_last_app ":" u "latest" eq_refl) as H2.
      rewrite E in H1. by simplify_eq.
    + assert (Contains (default (repo ++ String ":" t)%string (from_last "/" (repo ++ String ":" t))) ":" = true) as ->.
      { rewrite from_last_keep by done. rewrite Contains_byte.
        destruct (from_last "/" repo); simpl; by rewrite no_byte_app, andb_comm. }
      split; [done|]. intros [|Hl]; [done|]. simplify_eq. exfalso. enough (HasSuffix (repo ++ ":latest") ":latest" = true) by congruence.
      apply HasSuffix_spec. by exists repo.
  - rewrite app_str_nil, no_colon_ends, Contains_byte, Hr by done. split; [by left|done].
Qed.

Lemma latest_tag_decides_witness : isLatestOrNoTag (reference "host:5000/app" (Some "v1") (Some "sha256:ab")) = false.
Proof.
  destruct (isLatestOrNoTag _) eqn:E; [|reflexivity].
  apply (latest_tag_decides "host:5000/app" (Some "v1") (Some "sha256:ab")) in E; [|reflexivity|reflexivity].
  destruct E; discriminate.
Defined.

End Images.

(** ** What the counters count *)

Definition unpinned (pc : Pod * Container) : bool := negb (pinned (ct_Image (snd pc))).

Lemma audit_images_fold (get : Data -> nat) (q : Container -> bool) pods acc :
  (forall pod acc c, get (fst (audit_image pod acc c)) = plus_if (q c) (get (fst acc))) ->
  get (fst (fold_left audit_pod_images pods acc)) = get (fst acc) + count (fun pc => q (snd pc)) (admitted pods).
Proof.
  intros H. revert acc. induction pods as [|p pods IH]; intros acc; cbn [fold_left admitted flat_map];
    [unfold count; simpl; lia|].
  rewrite IH, count_app. fold (admitted pods). unfold with_pod at 1. rewrite count_map. cbn [fst snd]. unfold audit_pod_images.
  rewrite (fold_count _ (fun acc => get (fst acc)) q) by (intros; apply H). unfold Containers. rewrite app_nil_r.
  change (fun x => q x) with q. lia.
Qed.

Lemma fill_probe_keeps results d :
  im_TotalContainers (fillProbeMetrics results d) = im_TotalContainers d /\
  im_NoDigest (fillProbeMetrics results d) = im_NoDigest d /\
  im_LatestTag (fillProbeMetrics results d) = im_LatestTag d.
Proof.
  unfold fillProbeMetrics.
  enough (forall acc, let d' := fst (fst (fold_left fold_probe results acc)) in
    im_TotalContainers d' = im_TotalContainers (fst (fst acc)) /\ im_NoDigest d' = im_NoDigest (fst (fst acc)) /\
    im_LatestTag d' = im_LatestTag (fst (fst acc))) as H.
  { specialize (H (d, 0%Z, 0%Z)). simpl in H. destruct (fold_left fold_probe results (d, 0%Z, 0%Z)) as [[d' ?] ?]. exact H. }
  induction results as [|p results IH]; intros acc; simpl; [done|].
  destruct (IH (fold_probe acc p)) as (-> & -> & ->). destruct acc as [[? ?] ?]. by destruct p as [|[]].
Qed.

(** The two counters that feed the admission baseline. *)
(** The report filters the risky images by the tag [latest-tag], which no image carries. *)
Lemma latest_tag_not_emitted image : existsb (String.eqb "latest-tag") (image_risks image) = false.
Proof. unfold image_risks. by destruct (isLatestOrNoTag image), (pinned image). Qed.

Lemma image_counts pods probes :
  im_TotalContainers (audit pods probes) = length (admitted pods) /\
  im_NoDigest (audit pods probes) = count unpinned (admitted pods) /\
  im_LatestTag (audit pods probes) = count (fun pc => isLatestOrNoTag (ct_Image (snd pc))) (admitted pods).
Proof.
  pose proof (audit_images_fold im_TotalContainers (fun _ => true) pods (data_zero, ∅)) as H1.
  pose proof (audit_images_fold im_NoDigest (fun c => negb (pinned (ct_Image c))) pods (data_zero, ∅)) as H2.
  pose proof (audit_images_fold im_LatestTag (fun c => isLatestOrNoTag (ct_Image c)) pods (data_zero, ∅)) as H3.
  unfold audit. destruct (fold_left audit_pod_images pods (data_zero, ∅)) as [d images]. simpl in *.
  assert (forall n risks, im_TotalContainers (with_images d n risks) = length (admitted pods) /\
    im_NoDigest (with_images d n risks) = count unpinned (admitted pods) /\
    im_LatestTag (with_images d n risks) = count (fun pc => isLatestOrNoTag (ct_Image (snd pc))) (admitted pods)) as H.
  { intros. simpl. split_all; [|apply H2|apply H3]; try by intros ? [].
    rewrite H1 by (by intros ? []). apply count_all. }
  destruct probes as [results|]; [|apply H].
  destruct (fill_probe_keeps results (with_images d (size images) (TopN (im_ImageRisks d) 50 compareImageRisks))) as (-> & -> & ->).
  apply H.
Qed.
