(* ===== verification/Baseline.v ===== *)
(** * internal/admission: baseline.go and the baseline of types.go

    The fleet norm the webhook checks against: derived from the stored results of the
    recent scans, or pinned by an operator. *)

From Stdlib Require Import ZArith Lia String Floats.SpecFloat.
From stdpp Require Import base gmap strings list sorting.
From S2P Require Import Prelude Maps Float64 Ratio Format Data Detect Build Scan PodSec WorkloadSec ImageAudit.

Local Open Scope nat_scope.

(** ** types.go *)

Inductive Baseline : Type := mkBaseline {
  SamplePods : Z;
  SampleContainers : Z;
  DigestPinFraction : float64;
  NonRootFraction : float64;
  NoPrivilegeEscalationFraction : float64;
  NamedServiceAccountFraction : float64;
  ReadOnlyRootFSFraction : float64;
  SourceScanID : string;
  Previous : list Baseline;
  Pinned : bool
}.

Definition baseline_zero : Baseline := mkBaseline 0 0 f_zero f_zero f_zero f_zero f_zero "" [] false.

Definition MinSampleContainers : Z := 30.
Definition MinSamplePods : Z := 10.

Definition Sufficient (b : Baseline) : bool :=
  (MinSampleContainers <=? SampleContainers b)%Z && (MinSamplePods <=? SamplePods b)%Z.

Definition Threshold : float64 := f_const 70 100.

(** ** Decoding a count

    [json.Marshal] writes a number in decimal and [json.Unmarshal] reads it into an
    [int]: a fraction, an exponent or a value out of range is an error. An integral
    number up to [2^53] is written exactly, a larger one by its shortest digits. *)
Definition exact_int : Z := 2 ^ 53.

Definition json_int (x : float64) : option Z :=
  match x with
  | S754_zero _ => Some 0%Z
  | S754_finite s m e =>
      if mag_exact m e then
        let mag := if (mag_trunc m e <=? exact_int)%Z then mag_trunc m e
                   else let '(v, nd, p) := shortest x m e in (v * 10 ^ (p - nd))%Z in
        let z := if s then (- mag)%Z else mag in
        if ((int64_min <=? z) && (z <=? int64_max))%Z then Some z else None
      else None
  | _ => None
  end.

(** One [int] field of the struct decoded into: an absent or null member leaves zero. *)
Definition decode_int (members : gmap string json) (key : string) : option Z :=
  match members !! key with
  | None | Some JNull => Some 0%Z
  | Some (JNum x) => json_int x
  | Some _ => None
  end.

(** All of them; one error is the error of the whole. *)
Fixpoint decode_ints (members : gmap string json) (keys : list string) : option (list Z) :=
  match keys with
  | [] => Some []
  | k :: keys' =>
      match decode_int members k, decode_ints members keys' with
      | Some z, Some zs => Some (z :: zs)
      | _, _ => None
      end
  end.

Definition decode_struct (data : json) (keys : list string) : option (list Z) :=
  match data with
  | JObj kv => decode_ints (list_to_map kv) keys
  | JNull => decode_ints ∅ keys
  | _ => None
  end.

(** ** The tallies *)

Definition tallyImageAudit (data : json) : Z * Z :=
  match decode_struct data ["total_containers"; "no_digest"] with
  | Some [total; noDigest] => if (total <=? 0)%Z then (0, 0)%Z else (total, wrap64 (total - noDigest))
  | _ => (0, 0)%Z
  end.

Record workloadSecTally := {
  tl_totalPods : Z; tl_containers : Z; tl_nonRoot : Z; tl_allowPrivEsc : Z; tl_noReadOnlyRoot : Z; tl_defaultSA : Z }.

Definition tally_zero : workloadSecTally := {|
  tl_totalPods := 0; tl_containers := 0; tl_nonRoot := 0; tl_allowPrivEsc := 0; tl_noReadOnlyRoot := 0;
  tl_defaultSA := 0 |}.

Definition tallyWorkloadSec (data : json) : workloadSecTally :=
  match decode_struct data ["total_pods"; "baseline_containers"; "run_as_non_root_containers";
                            "allow_privilege_escalation"; "no_read_only_root"; "default_service_account_pods"] with
  | Some [a; b; c; d; e; f] => {|
      tl_totalPods := a; tl_containers := b; tl_nonRoot := c; tl_allowPrivEsc := d; tl_noReadOnlyRoot := e;
      tl_defaultSA := f |}
  | _ => tally_zero
  end.

(** The totals over the clusters. *)
Record totals := {
  to_Containers : Z; to_withDigest : Z; to_wsContainers : Z; to_nonRoot : Z; to_noPrivEsc : Z; to_readRO : Z;
  to_Pods : Z; to_defaultSAPods : Z }.

Definition totals_zero : totals := {|
  to_Containers := 0; to_withDigest := 0; to_wsContainers := 0; to_nonRoot := 0; to_noPrivEsc := 0; to_readRO := 0;
  to_Pods := 0; to_defaultSAPods := 0 |}.

Definition trusted (perScanner : gmap string Result) (name : string) : option json :=
  match perScanner !! name with
  | Some raw => if String.eqb (res_State raw) StateOK then Some (res_Data raw) else None
  | None => None
  end.

Definition add_images (t : totals) (cd : Z * Z) : totals := {|
  to_Containers := wrap64 (to_Containers t + fst cd); to_withDigest := wrap64 (to_withDigest t + snd cd);
  to_wsContainers := to_wsContainers t; to_nonRoot := to_nonRoot t; to_noPrivEsc := to_noPrivEsc t;
  to_readRO := to_readRO t; to_Pods := to_Pods t; to_defaultSAPods := to_defaultSAPods t |}.

Definition add_workloads (t : totals) (w : workloadSecTally) : totals :=
  let c := tl_containers w in
  let containers (ws nr np rr : Z) : totals := {|
    to_Containers := to_Containers t; to_withDigest := to_withDigest t;
    to_wsContainers := ws; to_nonRoot := nr; to_noPrivEsc := np; to_readRO := rr;
    to_Pods := wrap64 (to_Pods t + tl_totalPods w); to_defaultSAPods := wrap64 (to_defaultSAPods t + tl_defaultSA w) |} in
  if (c <=? 0)%Z then containers (to_wsContainers t) (to_nonRoot t) (to_noPrivEsc t) (to_readRO t)
  else containers (wrap64 (to_wsContainers t + c))
         (wrap64 (to_nonRoot t + Z.min (Z.max (tl_nonRoot w) 0) c))
         (wrap64 (to_noPrivEsc t + Z.max (wrap64 (c - tl_allowPrivEsc w)) 0))
         (wrap64 (to_readRO t + Z.max (wrap64 (c - tl_noReadOnlyRoot w)) 0)).

Definition add_cluster (t : totals) (perScanner : gmap string Result) : totals :=
  let t := match trusted perScanner ImageAudit.Name with
           | Some data => add_images t (tallyImageAudit data)
           | None => t
           end in
  match trusted perScanner WorkloadSec.Name with
  | Some data => add_workloads t (tallyWorkloadSec data)
  | None => t
  end.

Definition floatRatio (n d : Z) : float64 :=
  if (d <=? 0)%Z then f_zero
  else
    let r := f_div (f_of_Z n) (f_of_Z d) in
    if f_ltb r f_zero then f_zero else if f_ltb (f_of_Z 1) r then f_of_Z 1 else r.

Definition baseline_of (scanID : string) (t : totals) : Baseline := {|
  SamplePods := to_Pods t;
  SampleContainers := to_Containers t;
  DigestPinFraction := floatRatio (to_withDigest t) (to_Containers t);
  NonRootFraction := floatRatio (to_nonRoot t) (to_wsContainers t);
  NoPrivilegeEscalationFraction := floatRatio (to_noPrivEsc t) (to_wsContainers t);
  NamedServiceAccountFraction := floatRatio (wrap64 (to_Pods t - to_defaultSAPods t)) (to_Pods t);
  ReadOnlyRootFSFraction := floatRatio (to_readRO t) (to_wsContainers t);
  SourceScanID := scanID;
  Previous := [];
  Pinned := false |}.

(** The store's answer to [GetScanResults] for one scan. *)
Definition scanBaseline (results : Results + string) (scanID : string) : Baseline + string :=
  match results with
  | inr err => inr ("get scan results " ++ scanID ++ ": " ++ err)%string
  | inl res => inl (baseline_of scanID (fold_left add_cluster (map snd (map_to_list res)) totals_zero))
  end.

Fixpoint scan_all (get : string -> Results + string) (ids : list string) : list Baseline + string :=
  match ids with
  | [] => inl []
  | id :: ids' =>
      match scanBaseline (get id) id with
      | inr err => inr err
      | inl b => match scan_all get ids' with inr err => inr err | inl bs => inl (b :: bs) end
      end
  end.

Definition with_previous (b : Baseline) (prev : list Baseline) (pin : bool) : Baseline := {|
  SamplePods := SamplePods b; SampleContainers := SampleContainers b; DigestPinFraction := DigestPinFraction b;
  NonRootFraction := NonRootFraction b; NoPrivilegeEscalationFraction := NoPrivilegeEscalationFraction b;
  NamedServiceAccountFraction := NamedServiceAccountFraction b; ReadOnlyRootFSFraction := ReadOnlyRootFSFraction b;
  SourceScanID := SourceScanID b; Previous := prev; Pinned := pin |}.

(** [list] is the store's answer to [ListScans], newest first, [get] the one to
    [GetScanResults]. *)
Definition recompute (list : Z -> list string + string) (get : string -> Results + string) (depth : Z) :
  Baseline + string :=
  match list (Z.max depth 1) with
  | inr err => inr ("list scans: " ++ err)%string
  | inl [] => inl baseline_zero
  | inl (id :: ids) =>
      match scanBaseline (get id) id with
      | inr err => inr err
      | inl cur =>
          match scan_all get ids with
          | inr err => inr err
          | inl prev => inl (with_previous cur (Previous cur ++ prev) (Pinned cur))
          end
      end
  end.

Definition NewPinnedBaselineProvider (b : Baseline) : Baseline := with_previous b [] true.

(** ** The file an operator pins

    [decoded] is what the strict YAML decoder made of the file. *)
Definition in_unit (v : float64) : bool := f_leb f_zero v && f_leb v (f_of_Z 1).

Definition fractions (b : Baseline) : list (string * float64) := [
  ("digest_pin_fraction", DigestPinFraction b);
  ("non_root_fraction", NonRootFraction b);
  ("no_privilege_escalation_fraction", NoPrivilegeEscalationFraction b);
  ("named_service_account_fraction", NamedServiceAccountFraction b);
  ("read_only_root_fs_fraction", ReadOnlyRootFSFraction b)].

Definition ErrBaselineFile : string := "pinned baseline file".

Definition LoadBaselineFile (path : string) (decoded : Baseline + string) : Baseline + string :=
  match decoded with
  | inr err => inr err
  | inl b =>
      if ((SamplePods b <? 0) || (SampleContainers b <? 0))%Z then
        inr (ErrBaselineFile ++ ": " ++ path ++ ": sample counts must not be negative")%string
      else match List.find (fun f => negb (in_unit (snd f))) (fractions b) with
           | Some f => inr (ErrBaselineFile ++ ": " ++ path ++ ": " ++ fst f ++ " is " ++ show_float (snd f) ++
                            ", want a value in [0, 1]")%string
           | None => inl b
           end
  end.

(** ** The cached provider

    One [Current] call at time [now]. [work] is the recompute's result when the cache is
    stale; [canceled] says that the caller's context ended before it was done. *)
Record provider := { pv_cached : Baseline; pv_cachedAt : option Z }.

Definition NewStoreBaselineProvider : provider := {| pv_cached := baseline_zero; pv_cachedAt := None |}.

Definition fresh (ttl now : Z) (p : provider) : bool :=
  match pv_cachedAt p with None => false | Some at_ => (now - at_ <? ttl)%Z end.

Definition Current (ttl now : Z) (work : Baseline + string) (canceled : bool) (p : provider) : Baseline * provider :=
  if fresh ttl now p then (pv_cached p, p)
  else
    let p' := match work with
              | inr _ => {| pv_cached := pv_cached p; pv_cachedAt := Some now |}
              | inl b => {| pv_cached := b; pv_cachedAt := Some now |}
              end in
    (if canceled then pv_cached p else pv_cached p', p').

Record current_call := { cc_now : Z; cc_work : Baseline + string; cc_canceled : bool }.

Definition serve_step (ttl : Z) (st : list Baseline * provider) (c : current_call) : list Baseline * provider :=
  let '(b, p) := Current ttl (cc_now c) (cc_work c) (cc_canceled c) (snd st) in (fst st ++ [b], p).

Definition serve (ttl : Z) (calls : list current_call) : list Baseline * provider :=
  fold_left (serve_step ttl) calls ([], NewStoreBaselineProvider).

(** ** Counts survive the round trip through JSON *)

Lemma f_of_Z_0 : f_of_Z 0 = f_zero.
Proof. reflexivity. Qed.

Lemma json_int_of_Z z : (0 <= z <= exact_int)%Z -> json_int (f_of_Z z) = Some z.
Proof.
  intros Hz. destruct (Z.eq_dec z 0%Z) as [->|Hnz]; [reflexivity|].
  destruct (f_of_Z_parts z) as (m & e & -> & Ht & Hx); [unfold exact_int in Hz; lia|].
  cbn [json_int]. rewrite Hx, Ht. destruct (Z.leb_spec z exact_int); [|lia].
  replace ((int64_min <=? z) && (z <=? int64_max))%Z with true; [done|]. symmetry.
  apply andb_true_iff. unfold int64_min, int64_max, exact_int in *. split; apply Z.leb_le; lia.
Qed.

Lemma decode_count kv key n : (list_to_map kv : gmap string json) !! key = Some (count_json n) ->
  (Z.of_nat n <= exact_int)%Z -> decode_int (list_to_map kv) key = Some (Z.of_nat n).
Proof. intros H Hn. unfold decode_int. rewrite H. apply json_int_of_Z. lia. Qed.

Lemma tally_images (d : ImageAudit.Data) : (Z.of_nat (im_TotalContainers d) <= exact_int)%Z -> (Z.of_nat (im_NoDigest d) <= exact_int)%Z ->
  tallyImageAudit (ImageAudit.to_json d) =
    (Z.of_nat (im_TotalContainers d),
     if im_TotalContainers d =? 0 then 0%Z else (Z.of_nat (im_TotalContainers d) - Z.of_nat (im_NoDigest d))%Z).
Proof.
  intros H1 H2. unfold tallyImageAudit, decode_struct, ImageAudit.to_json. cbn [decode_ints].
  rewrite (decode_count _ "total_containers" (im_TotalContainers d)) by (reflexivity || done).
  rewrite (decode_count _ "no_digest" (im_NoDigest d)) by (reflexivity || done).
  destruct (Z.leb_spec (Z.of_nat (im_TotalContainers d)) 0%Z), (Nat.eqb_spec (im_TotalContainers d) 0) as [E|]; try lia;
    [by rewrite E|]. f_equal. apply wrap64_id. unfold int64_ok, int64_min, int64_max, exact_int in *. lia.
Qed.

Lemma tally_workloads (d : WorkloadSec.Data) :
  (forall n, n ∈ [wd_TotalPods d; wd_BaselineContainers d; wd_RunAsNonRootContainers d; wd_AllowPrivilegeEscalation d;
             wd_NoReadOnlyRoot d; wd_DefaultServiceAccountPods d] -> (Z.of_nat n <= exact_int)%Z) ->
  tallyWorkloadSec (WorkloadSec.to_json d) = {|
    tl_totalPods := Z.of_nat (wd_TotalPods d); tl_containers := Z.of_nat (wd_BaselineContainers d);
    tl_nonRoot := Z.of_nat (wd_RunAsNonRootContainers d); tl_allowPrivEsc := Z.of_nat (wd_AllowPrivilegeEscalation d);
    tl_noReadOnlyRoot := Z.of_nat (wd_NoReadOnlyRoot d); tl_defaultSA := Z.of_nat (wd_DefaultServiceAccountPods d) |}.
Proof.
  intros H. unfold tallyWorkloadSec, decode_struct, WorkloadSec.to_json. cbn [decode_ints].
  rewrite (decode_count _ "total_pods" (wd_TotalPods d)) by (reflexivity || (apply H; set_solver)).
  rewrite (decode_count _ "baseline_containers" (wd_BaselineContainers d)) by (reflexivity || (apply H; set_solver)).
  rewrite (decode_count _ "run_as_non_root_containers" (wd_RunAsNonRootContainers d)) by (reflexivity || (apply H; set_solver)).
  rewrite (decode_count _ "allow_privilege_escalation" (wd_AllowPrivilegeEscalation d)) by (reflexivity || (apply H; set_solver)).
  rewrite (decode_count _ "no_read_only_root" (wd_NoReadOnlyRoot d)) by (reflexivity || (apply H; set_solver)).
  rewrite (decode_count _ "default_service_account_pods" (wd_DefaultServiceAccountPods d)) by (reflexivity || (apply H; set_solver)).
  done.
Qed.

(** ** The baseline of a fleet whose pods were read *)

Section Fleet.
Context {E : Type} `{!ApiError E}.

(** What the two scanners store for a cluster with the given pods. *)
Definition cluster_results (pods : list Pod) : gmap string Result :=
  <[ImageAudit.Name := fst (ImageAudit.NewScanner (E := E) None (inl pods))]>
    {[WorkloadSec.Name := fst (WorkloadSec.NewScanner (E := E) (inl pods))]}.

Definition fleet_results (fleet : gmap string (list Pod)) : Results := cluster_results <$> fleet.

Definition fleet_pods (fleet : gmap string (list Pod)) : list Pod := concat (map snd (map_to_list fleet)).

Definition pinned_pc (pc : Pod * Container) : bool := pinned (ct_Image (snd pc)).
Definition confined (pc : Pod * Container) : bool := negb (escalates pc).
Definition readonly (pc : Pod * Container) : bool := ReadOnlyRootFS (snd pc).

Definition totals_of (ps : list Pod) : totals := {|
  to_Containers := Z.of_nat (length (admitted ps));
  to_withDigest := Z.of_nat (count pinned_pc (admitted ps));
  to_wsContainers := Z.of_nat (length (admitted ps));
  to_nonRoot := Z.of_nat (count nonroot (admitted ps));
  to_noPrivEsc := Z.of_nat (count confined (admitted ps));
  to_readRO := Z.of_nat (count readonly (admitted ps));
  to_Pods := Z.of_nat (length ps);
  to_defaultSAPods := Z.of_nat (count default_sa ps) |}.

(** Sizes the counters hold exactly. *)
Definition countable (ps : list Pod) : Prop :=
  (Z.of_nat (length ps) <= max_population)%Z /\ (Z.of_nat (length (admitted ps)) <= max_population)%Z.

Lemma admitted_app l1 l2 : admitted (l1 ++ l2) = admitted l1 ++ admitted l2.
Proof. apply flat_map_app. Qed.

Lemma countable_app l1 l2 : countable (l1 ++ l2) -> countable l1 /\ countable l2.
Proof. unfold countable. rewrite admitted_app, !length_app. lia. Qed.

Lemma small_exact n : (Z.of_nat n <= max_population)%Z -> (Z.of_nat n <= exact_int)%Z.
Proof. unfold max_population, exact_int. lia. Qed.

Lemma trusted_images pods : trusted (cluster_results pods) ImageAudit.Name = Some (ImageAudit.to_json (ImageAudit.audit pods None)).
Proof. unfold trusted, cluster_results. by rewrite lookup_insert_eq. Qed.

Lemma trusted_workloads pods : trusted (cluster_results pods) WorkloadSec.Name = Some (WorkloadSec.to_json (WorkloadSec.audit pods)).
Proof. unfold trusted, cluster_results. rewrite lookup_insert_ne by done. by rewrite lookup_singleton_eq. Qed.

Lemma add_cluster_totals acc pods : countable (acc ++ pods) ->
  add_cluster (totals_of acc) (cluster_results pods) = totals_of (acc ++ pods).
Proof.
  intros H. destruct (countable_app _ _ H) as [_ [Hp Ha]]. destruct H as [HP HA]. rewrite length_app in HP.
  rewrite admitted_app, length_app in HA.
  unfold add_cluster. rewrite trusted_images, trusted_workloads.
  destruct (ImageAudit.image_counts pods None) as (I1 & I2 & _).
  destruct (WorkloadSec.audit_counts pods) as (W1 & W2 & _ & W3 & _ & W4 & W5 & W6).
  rewrite tally_images by (rewrite ?I1, ?I2; apply small_exact; pose proof (count_le unpinned (admitted pods)); lia).
  rewrite tally_workloads.
  2:{ intros n Hn. apply small_exact. rewrite W1, W2, W3, W4, W5, W6 in Hn.
      pose proof (count_le nonroot (admitted pods)). pose proof (count_le escalates (admitted pods)).
      pose proof (count_le writable (admitted pods)). pose proof (count_le default_sa pods).
      repeat (apply elem_of_cons in Hn as [->|Hn]; [lia|]). by apply elem_of_nil in Hn. }
  rewrite I1, I2, W1, W2, W3, W4, W5, W6. clear I1 I2 W1 W2 W3 W4 W5 W6.
  pose proof (count_negb pinned_pc (admitted pods)) as C1. fold unpinned in C1.
  pose proof (count_negb escalates (admitted pods)) as C2. fold confined in C2.
  pose proof (count_negb readonly (admitted pods)) as C3. fold writable in C3.
  pose proof (count_le nonroot (admitted pods)) as C4. pose proof (count_le default_sa pods) as C5.
  pose proof (count_le pinned_pc (admitted acc)). pose proof (count_le confined (admitted acc)).
  pose proof (count_le readonly (admitted acc)). pose proof (count_le nonroot (admitted acc)).
  pose proof (count_le default_sa acc). unfold max_population in *.
  unfold totals_of, add_images, add_workloads. cbn [fst snd tl_totalPods tl_containers tl_nonRoot tl_allowPrivEsc
    tl_noReadOnlyRoot tl_defaultSA to_Containers to_withDigest to_wsContainers to_nonRoot to_noPrivEsc to_readRO to_Pods
    to_defaultSAPods]. rewrite !admitted_app, !count_app, !length_app.
  change (fun pc => negb (pinned_pc pc)) with unpinned in C1. change (fun x => negb (escalates x)) with confined in C2.
  change (fun x => negb (readonly x)) with writable in C3.
  assert (forall z, (- 2 ^ 60 <= z <= 2 ^ 60)%Z -> wrap64 z = z) as W.
  { intros z Hz. apply wrap64_id. unfold int64_ok, int64_min, int64_max. lia. }
  destruct (Nat.eqb_spec (length (admitted pods)) 0), (Z.leb_spec (Z.of_nat (length (admitted pods))) 0%Z); try lia;
    f_equal; rewrite ?W; rewrite ?W; lia.
Qed.

Lemma add_clusters_totals l acc : countable (acc ++ concat l) ->
  fold_left add_cluster (map cluster_results l) (totals_of acc) = totals_of (acc ++ concat l).
Proof.
  revert acc. induction l as [|pods l IH]; intros acc H; simpl in *; [by rewrite app_nil_r|].
  rewrite app_assoc in H. rewrite add_cluster_totals by (by destruct (countable_app _ _ H)).
  rewrite IH by done. by rewrite app_assoc.
Qed.

(** The baseline is the one of all the fleet's pods. *)
Lemma scanBaseline_fleet fleet id : countable (fleet_pods fleet) ->
  scanBaseline (inl (fleet_results fleet)) id = inl (baseline_of id (totals_of (fleet_pods fleet))).
Proof.
  intros H. unfold scanBaseline, fleet_results. rewrite map_to_list_fmap.
  assert (forall l : list (string * list Pod), map snd (prod_map (fun c => c) cluster_results <$> l) = map cluster_results (map snd l)) as ->.
  { intros l. induction l as [|[] l IH]; [done|]. by simpl; f_equal. }
  change totals_zero with (totals_of []). rewrite add_clusters_totals by exact H. done.
Qed.

End Fleet.

(** ** Fractions and the threshold *)

Lemma share_le_one k n : k <= n -> 0 < n -> (Z.of_nat n <= max_population)%Z -> f_leb (share_of k n) (f_of_Z 1) = true.
Proof.
  intros Hk Hn HN. destruct (f_of_Z_exact (Z.of_nat n)) as [Fn Vn]; [unfold max_population in *; lia|].
  destruct k as [|k].
  - unfold share_of. change (f_of_Z (Z.of_nat 0)) with f_zero.
    pose proof (f_of_Z_pos (Z.of_nat n) ltac:(lia) ltac:(unfold max_population, int64_max in *; lia)) as Hpos.
    destruct (f_of_Z (Z.of_nat n)) as [s|s| |s m e]; try done; by destruct s.
  - destruct (f_of_Z_exact (Z.of_nat (S k))) as [Fk Vk]; [unfold max_population in *; lia|].
    unfold share_of. apply f_div_le; try done; rewrite ?Vk, ?Vn.
    all: pose proof (Z.pow_pos_nonneg 2 1074 ltac:(lia) ltac:(lia)); change (f_val (f_of_Z 1)) with (1 * 2 ^ 1074)%Z;
      set (P := (2 ^ 1074)%Z) in *; clearbody P; nia.
Qed.

Lemma floatRatio_share k n : k <= n -> 0 < n -> (Z.of_nat n <= max_population)%Z ->
  floatRatio (Z.of_nat k) (Z.of_nat n) = share_of k n.
Proof.
  intros Hk Hn HN. unfold floatRatio. destruct (Z.leb_spec (Z.of_nat n) 0%Z); [lia|]. fold (share_of k n).
  pose proof (share_nn k n Hn ltac:(unfold max_population, int64_max in *; lia)) as Hnn.
  pose proof (share_le_one k n Hk Hn HN) as H1.
  assert (f_is_nan (share_of k n) = false) by (by destruct (share_of k n)).
  rewrite !f_ltb_leb by done. rewrite H1. unfold nn in Hnn. apply andb_true_iff in Hnn as [_ Hnn].
  unfold f_nonneg in Hnn. by rewrite Hnn.
Qed.

(** A check is active exactly when seven tenths of a non-empty sample comply. *)
Lemma active_iff k n : k <= n -> (Z.of_nat n <= max_population)%Z ->
  f_ltb (floatRatio (Z.of_nat k) (Z.of_nat n)) Threshold = false <-> 0 < n /\ 7 * n <= 10 * k.
Proof.
  intros Hk HN. destruct (Nat.eq_dec n 0) as [->|Hn]; [split; [done|lia]|].
  rewrite floatRatio_share by (lia || done).
  assert (f_ltb (share_of k n) Threshold = true <-> 10 * k < 7 * n) as H.
  { change Threshold with (S754_finite false 6305039478318694 (-53)).
    rewrite (share_below _ (S754_finite false 6305039478318693 (-53)) 7 10 max_population); [lia|vm_compute; reflexivity|lia|done]. }
  destruct (f_ltb (share_of k n) Threshold); [|split; [intros _; lia|done]].
  split; [done|]. intros [_ Hge]. pose proof (proj1 H eq_refl). lia.
Qed.


Module Provider.

(** Only results the scanner vouches for. *)
Definition only_ok (res : Results) : Results :=
  (fun per => filter (fun kv : string * Result => res_State (snd kv) = StateOK) per) <$> res.

Lemma trusted_only_ok per name :
  trusted (filter (fun kv : string * Result => res_State (snd kv) = StateOK) per) name = trusted per name.
Proof.
  unfold trusted. rewrite map_lookup_filter. destruct (per !! name) as [r|]; simpl; [|done].
  destruct (decide (res_State r = StateOK)) as [E|E].
  - rewrite option_guard_True by done. simpl. by rewrite E, String.eqb_refl.
  - rewrite option_guard_False by done. simpl. by rewrite (proj2 (String.eqb_neq _ _) E).
Qed.

(** A scan's result that is not OK adds nothing to the baseline, neither to what
    complies nor to what is counted: the baseline is the one of the trusted results. *)
Theorem failed_reads_excluded res id : scanBaseline (inl res) id = scanBaseline (inl (only_ok res)) id.
Proof.
  unfold scanBaseline, only_ok. rewrite map_to_list_fmap. do 2 f_equal. generalize totals_zero.
  induction (map_to_list res) as [|[c per] l IH]; intros t; [done|]. simpl. rewrite IH. f_equal.
  unfold add_cluster. by rewrite !trusted_only_ok.
Qed.

(** The last successful recompute of a list of calls. *)
Definition known (calls : list current_call) (b : Baseline) : Prop :=
  b = baseline_zero \/ exists c, c ∈ calls /\ cc_work c = inl b.

Lemma known_app calls c b : known calls b -> known (calls ++ [c]) b.
Proof. intros [->|(c' & Hin & E)]; [by left|right; exists c'; split; [apply elem_of_app; by left|done]]. Qed.

Lemma serve_app ttl calls c : serve ttl (calls ++ [c]) = serve_step ttl (serve ttl calls) c.
Proof. unfold serve. by rewrite fold_left_app. Qed.

Lemma serve_known ttl calls :
  known calls (pv_cached (snd (serve ttl calls))) /\ (forall b, b ∈ fst (serve ttl calls) -> known calls b).
Proof.
  induction calls as [|c calls [IH1 IH2]] using rev_ind; [split; [by left|intros b Hb; by apply elem_of_nil in Hb]|].
  rewrite serve_app. unfold serve_step. destruct (serve ttl calls) as [out p]. simpl in *.
  assert (forall b, cc_work c = inl b -> known (calls ++ [c]) b) as Hnew.
  { intros b E. right. exists c. split; [apply elem_of_app; right; by apply list_elem_of_singleton|done]. }
  unfold Current. destruct (fresh ttl (cc_now c) p); simpl.
  - split; [by apply known_app|]. intros b [Hb| ->%list_elem_of_singleton]%elem_of_app; apply known_app; auto.
  - destruct (cc_work c) as [nb|err] eqn:Ew; simpl.
    + split; [by apply Hnew|]. intros b [Hb| Hb%list_elem_of_singleton]%elem_of_app; [by apply known_app, IH2|].
      destruct (cc_canceled c); subst; [by apply known_app|by apply Hnew].
    + split; [by apply known_app|]. intros b [Hb| Hb%list_elem_of_singleton]%elem_of_app; [by apply known_app, IH2|].
      destruct (cc_canceled c); subst; by apply known_app.
Qed.

(** Whatever the order of calls, failures and cancellations, the provider serves the
    zero baseline or one that a recompute produced; a failed recompute leaves the last
    good one in place; and within the cache lifetime nothing is recomputed. *)
Theorem served_last_good ttl calls :
  (forall b, b ∈ fst (serve ttl calls) -> b = baseline_zero \/ exists c, c ∈ calls /\ cc_work c = inl b) /\
  (forall c, fresh ttl (cc_now c) (snd (serve ttl calls)) = true ->
     serve ttl (calls ++ [c]) = (fst (serve ttl calls) ++ [pv_cached (snd (serve ttl calls))], snd (serve ttl calls))) /\
  (forall c err, cc_work c = inr err ->
     pv_cached (snd (serve ttl (calls ++ [c]))) = pv_cached (snd (serve ttl calls)) /\
     last (fst (serve ttl (calls ++ [c]))) = Some (pv_cached (snd (serve ttl calls)))).
Proof.
  split; [apply serve_known|split].
  - intros c H. rewrite serve_app. unfold serve_step, Current. by rewrite H.
  - intros c err H. rewrite serve_app. unfold serve_step, Current. rewrite H.
    destruct (fresh ttl (cc_now c) (snd (serve ttl calls))); simpl; [by rewrite last_snoc|].
    destruct (cc_canceled c); by rewrite last_snoc.
Qed.

End Provider.
