(* ===== verification/Admission.v ===== *)
(** * internal/admission: checks.go, handler.go

    The webhook's decision on a pod. Decoding the review and the pod is the Kubernetes
    library's: the decoded values are arguments. *)

From Stdlib Require Import ZArith Lia String.
From stdpp Require Import base gmap strings list.
From S2P Require Import Prelude Float64 Strs Detect Scan PodSec WorkloadSec ImageAudit Baseline.

Local Open Scope nat_scope.

(** ** The checks *)

(** One check: its name and its verdict, the warnings and the deny message. *)
Record Check := { ck_Name : string; ck_Evaluate : Pod -> Baseline -> list string * string }.

Definition admittedContainers (pod : Pod) : list Container := Containers (Some pod) false.

Definition pct_of (fraction : float64) : string := itoa (f_to_int (f_mul fraction (f_of_Z 100))).

Definition silent : list string * string := ([], "").

(** The verdict every container check ends with. *)
Definition verdict (offenders : list string) (msg : string) : list string * string :=
  match offenders with [] => silent | _ => ([msg], msg) end.

Definition offenders_msg (name : string) (fraction : float64) (norm : string) (offenders : list string) : string :=
  (name ++ ": " ++ pct_of fraction ++ "% of fleet containers " ++ norm ++ "; " ++
   itoa (Z.of_nat (length offenders)) ++ " here do not (" ++ join ", " offenders ++ ")")%string.

Definition namedSACheck : Check := {|
  ck_Name := "named-service-account";
  ck_Evaluate := fun pod b =>
    if f_ltb (NamedServiceAccountFraction b) Threshold then silent
    else
      let sa := pod_ServiceAccountName pod in
      if negb (String.eqb sa "") && negb (String.eqb sa "default") then silent
      else
        let msg := ("named-service-account: " ++ pct_of (NamedServiceAccountFraction b) ++
          "% of fleet pods use a named ServiceAccount; this pod uses the namespace default")%string in
        ([msg], msg) |}.

Definition readOnlyRootFSCheck : Check := {|
  ck_Name := "read-only-root-fs";
  ck_Evaluate := fun pod b =>
    if f_ltb (ReadOnlyRootFSFraction b) Threshold then silent
    else
      let offenders := map ct_Name (List.filter (fun c => negb (ReadOnlyRootFS c)) (admittedContainers pod)) in
      verdict offenders (offenders_msg "read-only-root-fs" (ReadOnlyRootFSFraction b)
        "run with a read-only root filesystem" offenders) |}.

Definition digestPinCheck : Check := {|
  ck_Name := "digest-pin";
  ck_Evaluate := fun pod b =>
    if f_ltb (DigestPinFraction b) Threshold then silent
    else
      let offenders := map (fun c => ct_Name c ++ "=" ++ ct_Image c)%string
        (List.filter (fun c => negb (Contains (ct_Image c) "@sha256:")) (admittedContainers pod)) in
      verdict offenders (offenders_msg "digest-pin" (DigestPinFraction b) "pin images by digest" offenders) |}.

Definition nonRootCheck : Check := {|
  ck_Name := "non-root";
  ck_Evaluate := fun pod b =>
    if f_ltb (NonRootFraction b) Threshold then silent
    else
      let offenders := map ct_Name
        (List.filter (fun c => negb (bool_decide (RootStatus (Some pod) c = NonRoot))) (admittedContainers pod)) in
      verdict offenders (offenders_msg "non-root" (NonRootFraction b) "run as non-root" offenders) |}.

Definition noPrivEscCheck : Check := {|
  ck_Name := "no-privilege-escalation";
  ck_Evaluate := fun pod b =>
    if f_ltb (NoPrivilegeEscalationFraction b) Threshold then silent
    else
      let offenders := map ct_Name (List.filter AllowsPrivilegeEscalation (admittedContainers pod)) in
      verdict offenders (offenders_msg "no-privilege-escalation" (NoPrivilegeEscalationFraction b)
        "set allowPrivilegeEscalation=false" offenders) |}.

Definition DefaultChecks : list Check :=
  [digestPinCheck; nonRootCheck; noPrivEscCheck; namedSACheck; readOnlyRootFSCheck].

(** ** The handler *)

Definition ModeEnforce : string := "enforce".
Definition enforcing (mode : string) : bool := String.eqb mode ModeEnforce.

Definition DryRunAnnotation : string := "fleetsweeper.dev/admission-dry-run".
Definition DefaultStableScans : nat := 3.
Definition DefaultMaxBytes : Z := Z.shiftl 1 20.

Record AdmissionRequest := { rq_UID : string; rq_Kind : string; rq_Raw : string }.

(** [rs_Result] is the message of the failure status, present when denied. *)
Record AdmissionResponse := {
  rs_UID : string; rs_Allowed : bool; rs_Warnings : list string; rs_Result : option string }.

Definition DecisionAllowed : string := "allowed".
Definition DecisionWarned : string := "warned".
Definition DecisionDenied : string := "denied".
Definition DecisionSkipped : string := "skipped".

Definition joinDenies (l : list string) : string := join "; " l.

(** The loop over [b.Previous], with the scans held so far. *)
Fixpoint held_loop (chk : Check) (pod : Pod) (want held : nat) (prevs : list Baseline) : nat :=
  match prevs with
  | [] => held
  | prev :: prevs' =>
      if (want <=? held) || negb (Sufficient prev) then held
      else if String.eqb (snd (ck_Evaluate chk pod prev)) "" then held
      else held_loop chk pod want (S held) prevs'
  end.

Definition heldScans (chk : Check) (pod : Pod) (b : Baseline) (want : nat) : nat :=
  if Pinned b then want else held_loop chk pod want 1 (Previous b).

Record Handler := { hd_Checks : list Check; hd_Mode : string; hd_MaxBytes : Z; hd_StableScans : Z }.

Definition NewHandler (checks : list Check) (mode : string) : Handler := {|
  hd_Checks := checks; hd_Mode := mode; hd_MaxBytes := DefaultMaxBytes;
  hd_StableScans := Z.of_nat DefaultStableScans |}.

Definition window_of (h : Handler) : nat :=
  if (hd_StableScans h <=? 0)%Z then DefaultStableScans else Z.to_nat (hd_StableScans h).

Definition not_enforced (chk : Check) (held window : nat) : string :=
  ("fleetsweeper: " ++ ck_Name chk ++ " not enforced: its fleet norm has held for " ++ itoa (Z.of_nat held) ++
   " of the " ++ itoa (Z.of_nat window) ++ " consecutive scans enforcement needs")%string.

(** The state of the loop over the checks: the warnings, the denials, and the names of
    the checks counted as failed. *)
Record check_state := { cs_warnings : list string; cs_denies : list string; cs_failed : list string }.

Definition check_step (mode : string) (window : nat) (pod : Pod) (b : Baseline) (st : check_state) (chk : Check) :
  check_state :=
  let '(ws, deny) := ck_Evaluate chk pod b in
  let failed := if negb (String.eqb deny "") || negb (length ws =? 0) then cs_failed st ++ [ck_Name chk] else cs_failed st in
  let warnings := cs_warnings st ++ map (fun w => "fleetsweeper: " ++ w)%string ws in
  if String.eqb deny "" || negb (enforcing mode) then
    {| cs_warnings := warnings; cs_denies := cs_denies st; cs_failed := failed |}
  else
    let held := heldScans chk pod b window in
    if held <? window then
      {| cs_warnings := warnings ++ [not_enforced chk held window]; cs_denies := cs_denies st; cs_failed := failed |}
    else {| cs_warnings := warnings; cs_denies := cs_denies st ++ [deny]; cs_failed := failed |}.

Definition run_checks (h : Handler) (pod : Pod) (b : Baseline) : check_state :=
  fold_left (check_step (hd_Mode h) (window_of h) pod b) (hd_Checks h)
    {| cs_warnings := []; cs_denies := []; cs_failed := [] |}.

Definition allow (uid : string) (warnings : list string) : AdmissionResponse :=
  {| rs_UID := uid; rs_Allowed := true; rs_Warnings := warnings; rs_Result := None |}.

Definition thin_baseline (b : Baseline) : string :=
  ("fleetsweeper: baseline has " ++ itoa (SamplePods b) ++ " pods and " ++ itoa (SampleContainers b) ++
   " containers; evaluation starts at " ++ itoa MinSamplePods ++ " pods and " ++ itoa MinSampleContainers ++
   " containers")%string.

Section Decide.
(** [json.Unmarshal] of a pod. *)
Context (unmarshal : string -> option Pod).

Definition decodePod (req : AdmissionRequest) : option Pod :=
  if String.eqb (rq_Kind req) "Pod" then unmarshal (rq_Raw req) else None.

(** The response, the decision to count, and the checks counted as failed. *)
Definition evaluateDecision (h : Handler) (baseline : Baseline) (req : AdmissionRequest) :
  AdmissionResponse * string * list string :=
  match decodePod req with
  | None => (allow (rq_UID req) ["fleetsweeper: failed to decode pod; allowing"], DecisionSkipped, [])
  | Some pod =>
      if negb (Sufficient baseline) then (allow (rq_UID req) [thin_baseline baseline], DecisionSkipped, [])
      else
        let dryRun := match pod_Annotations pod !! DryRunAnnotation with Some v => String.eqb v "true" | None => false end in
        let st := run_checks h pod baseline in
        let some := negb (length (cs_denies st) =? 0) in
        if dryRun && some then
          (allow (rq_UID req) (cs_warnings st ++ [("fleetsweeper: dry-run: would deny: " ++ joinDenies (cs_denies st))%string]),
           DecisionWarned, cs_failed st)
        else if enforcing (hd_Mode h) && some then
          ({| rs_UID := rq_UID req; rs_Allowed := false; rs_Warnings := cs_warnings st;
              rs_Result := Some ("fleetsweeper enforce: " ++ joinDenies (cs_denies st))%string |},
           DecisionDenied, cs_failed st)
        else (allow (rq_UID req) (cs_warnings st),
              if negb (length (cs_warnings st) =? 0) then DecisionWarned else DecisionAllowed, cs_failed st)
  end.

(** [ServeHTTP]: the body as it could be read within the cap, the decoded review, and
    its request. *)
Inductive review := ReviewUndecodable (err : string) | ReviewWithoutRequest | ReviewOf (req : AdmissionRequest).
Inductive http_reply := BadRequest | Reply (resp : AdmissionResponse) (decision : string) (failed : list string).

Definition unevaluated (err : string) : AdmissionResponse :=
  allow "" [("fleetsweeper: could not evaluate request (" ++ err ++ "); allowing")%string].

Definition ServeHTTP (h : Handler) (baseline : Baseline) (decode : string -> review) (body : option string) : http_reply :=
  let limit := if (hd_MaxBytes h <=? 0)%Z then DefaultMaxBytes else hd_MaxBytes h in
  match body with
  | None => BadRequest
  | Some text =>
      if (limit <? Z.of_nat (String.length text))%Z then BadRequest
      else match decode text with
           | ReviewUndecodable err => Reply (unevaluated ("decode: " ++ err)%string) DecisionSkipped []
           | ReviewWithoutRequest => Reply (unevaluated "missing request") DecisionSkipped []
           | ReviewOf req => let '(resp, d, failed) := evaluateDecision h baseline req in Reply resp d failed
           end
  end.

End Decide.

(** ** Facts *)

Lemma fold_checks_denies mode window pod b chks st :
  cs_denies (fold_left (check_step mode window pod b) chks st) =
  cs_denies st ++ (if enforcing mode then
    flat_map (fun chk => if negb (String.eqb (snd (ck_Evaluate chk pod b)) "") && (window <=? heldScans chk pod b window)
                         then [snd (ck_Evaluate chk pod b)] else []) chks else []).
Proof.
  revert st. induction chks as [|chk chks IH]; intros st; simpl; [by destruct (enforcing mode); rewrite app_nil_r|].
  rewrite IH. unfold check_step. destruct (ck_Evaluate chk pod b) as [ws deny]. simpl.
  destruct (enforcing mode); simpl; [|by rewrite orb_true_r]. rewrite orb_false_r.
  destruct (String.eqb deny ""); simpl; [done|].
  destruct (Nat.ltb_spec (heldScans chk pod b window) window), (Nat.leb_spec window (heldScans chk pod b window)); simpl;
    try lia; [done|]. by rewrite <- app_assoc.
Qed.

(** The scans before the current one, newest first, whose baseline also denies. *)
Fixpoint held_run (chk : Check) (pod : Pod) (prevs : list Baseline) : nat :=
  match prevs with
  | [] => 0
  | prev :: prevs' =>
      if Sufficient prev && negb (String.eqb (snd (ck_Evaluate chk pod prev)) "") then S (held_run chk pod prevs') else 0
  end.

Lemma held_loop_spec chk pod want held prevs : held <= want ->
  held_loop chk pod want held prevs = Nat.min want (held + held_run chk pod prevs).
Proof.
  revert held. induction prevs as [|p prevs IH]; intros held H; simpl; [lia|].
  destruct (Nat.leb_spec want held); simpl; [lia|].
  destruct (Sufficient p); simpl; [|lia]. destruct (String.eqb _ ""); simpl; [lia|].
  rewrite IH by lia. lia.
Qed.

Lemma heldScans_spec chk pod b want : 1 <= want ->
  heldScans chk pod b want = if Pinned b then want else Nat.min want (1 + held_run chk pod (Previous b)).
Proof. intros H. unfold heldScans. destruct (Pinned b); [done|]. by apply held_loop_spec. Qed.

Lemma window_pos h : 1 <= window_of h.
Proof. unfold window_of, DefaultStableScans. destruct (Z.leb_spec (hd_StableScans h) 0%Z); lia. Qed.

(** The norm a check enforces has held for the whole window. *)
Definition norm_held (h : Handler) (chk : Check) (pod : Pod) (b : Baseline) : Prop :=
  Pinned b = true \/ window_of h <= 1 + held_run chk pod (Previous b).

Definition dry_run (pod : Pod) : bool :=
  match pod_Annotations pod !! DryRunAnnotation with Some v => String.eqb v "true" | None => false end.

Lemma denies_spec h pod b : enforcing (hd_Mode h) = true ->
  cs_denies (run_checks h pod b) <> [] <->
  exists chk, chk ∈ hd_Checks h /\ snd (ck_Evaluate chk pod b) <> "" /\ norm_held h chk pod b.
Proof.
  intros Hm. unfold run_checks. rewrite fold_checks_denies, Hm. simpl. pose proof (window_pos h) as Hw. split.
  - intros Hne. destruct (flat_map _ _) as [|d l] eqn:E; [done|].
    assert (In d (d :: l)) as Hin by (by left). rewrite <- E in Hin. apply in_flat_map in Hin as (chk & Hchk & Hd).
    exists chk. split; [by apply list_elem_of_In|].
    destruct (String.eqb_spec (snd (ck_Evaluate chk pod b)) ""); simpl in Hd; [done|].
    destruct (Nat.leb_spec (window_of h) (heldScans chk pod b (window_of h))) as [Hle|]; [|done]. split; [done|].
    rewrite heldScans_spec in Hle by done. unfold norm_held. destruct (Pinned b); [by left|right; lia].
  - intros (chk & Hchk & Hd & Hh) Hnil. apply list_elem_of_In in Hchk.
    enough (In (snd (ck_Evaluate chk pod b)) []) by done. rewrite <- Hnil. apply in_flat_map. exists chk. split; [done|].
    rewrite (proj2 (String.eqb_neq _ _) Hd). simpl.
    destruct (Nat.leb_spec (window_of h) (heldScans chk pod b (window_of h))) as [|Hlt]; [by left|].
    rewrite heldScans_spec in Hlt by done. unfold norm_held in Hh. destruct (Pinned b); [lia|].
    destruct Hh; [done|lia].
Qed.

Module Webhook.

(** The verdict on a request whose response is an allowing one. *)
Lemma allowed_verdict (P : Prop) resp decision uid :
  rs_Allowed resp = true -> rs_Result resp = None -> decision <> DecisionDenied -> rs_UID resp = uid -> ~ P ->
  (rs_Allowed resp = false <-> P) /\ (rs_Allowed resp = false <-> decision = DecisionDenied) /\
  (rs_Allowed resp = false <-> is_Some (rs_Result resp)) /\ rs_UID resp = uid.
Proof.
  intros -> -> Hd -> HP. split; [split; [discriminate|by intros ?]|]. split; [split; [discriminate|by intros ?]|].
  split; [split; [discriminate|by intros []]|done].
Qed.

(** C3: a pod is denied exactly when the webhook enforces, the pod decodes, the baseline
    is large enough, the pod is no dry run, and some check fires whose norm is pinned or
    has held for the whole window of scans; a denial names its reasons and is counted as
    one, and anything else is allowed, whatever the request. *)
Theorem denied_iff unmarshal h b req :
  let '(resp, decision, _) := evaluateDecision unmarshal h b req in
  (rs_Allowed resp = false <->
     enforcing (hd_Mode h) = true /\ Sufficient b = true /\
     exists pod, decodePod unmarshal req = Some pod /\ dry_run pod = false /\
       exists chk, chk ∈ hd_Checks h /\ snd (ck_Evaluate chk pod b) <> "" /\ norm_held h chk pod b) /\
  (rs_Allowed resp = false <-> decision = DecisionDenied) /\
  (rs_Allowed resp = false <-> is_Some (rs_Result resp)) /\
  rs_UID resp = rq_UID req.
Proof.
  unfold evaluateDecision. destruct (decodePod unmarshal req) as [pod|] eqn:Ep.
  2:{ apply allowed_verdict; try done. by intros (_ & _ & p & ? & _). }
  destruct (Sufficient b) eqn:Eb; cbn [negb].
  2:{ apply allowed_verdict; try done. by intros (_ & ? & _). }
  fold (dry_run pod). pose proof (denies_spec h pod b) as Hd. cbv zeta.
  assert (forall w : list string, (if negb (length w =? 0) then DecisionWarned else DecisionAllowed) <> DecisionDenied) as Hdec
    by (intros []; discriminate).
  destruct (enforcing (hd_Mode h)) eqn:Em.
  2:{ assert (cs_denies (run_checks h pod b) = []) as -> by (unfold run_checks; by rewrite fold_checks_denies, Em).
      cbn [length Nat.eqb negb]. rewrite andb_false_r. cbn [andb]. apply allowed_verdict; try done. by intros (? & _). }
  specialize (Hd eq_refl). destruct (cs_denies (run_checks h pod b)) as [|d l] eqn:Ed; cbn [length Nat.eqb negb].
  { rewrite andb_false_r. cbn [andb]. apply allowed_verdict; try done. intros (_ & _ & p & [= <-] & _ & Hx). by apply Hd in Hx. }
  rewrite andb_true_r. destruct (dry_run pod) eqn:Er; cbn [andb].
  { apply allowed_verdict; try done. intros (_ & _ & p & [= <-] & Hx & _). congruence. }
  split; [split; [intros _|done]|split; [done|split; [split; [by eexists|done]|done]]].
  split; [done|split; [done|]]. exists pod. split; [done|split; [done|]]. by apply Hd.
Qed.

(** The webhook fails open: a body that cannot be read is answered with an error and
    no verdict, and a review it cannot evaluate, for whatever reason, is allowed with a
    warning and counted as skipped, in every mode. *)
Theorem fails_open unmarshal h b decode body :
  match ServeHTTP unmarshal h b decode body with
  | BadRequest => True
  | Reply resp decision _ =>
      (rs_Allowed resp = false -> exists text req, body = Some text /\ decode text = ReviewOf req /\
         is_Some (decodePod unmarshal req) /\ Sufficient b = true) /\
      (decision = DecisionSkipped -> rs_Allowed resp = true /\ rs_Warnings resp <> [])
  end.
Proof.
  unfold ServeHTTP. destruct body as [text|]; [|done]. destruct (_ <? _)%Z; [done|].
  destruct (decode text) as [err| |req] eqn:E; [by simpl..|].
  destruct (evaluateDecision unmarshal h b req) as [[resp d] failed] eqn:Ev. split.
  - intros Ha. exists text, req. split_all; try done; unfold evaluateDecision in Ev;
      (destruct (decodePod unmarshal req); [|by simplify_eq/=]); [done|]. destruct (Sufficient b); [done|by simplify_eq/=].
  - intros ->. unfold evaluateDecision in Ev. destruct (decodePod unmarshal req) as [pod|]; [|by simplify_eq/=].
    destruct (Sufficient b); simpl in Ev; [|by simplify_eq/=]. repeat case_match; simplify_eq/=.
Qed.

End Webhook.

(** ** The checks against the scans the baseline comes from *)

(** What complies with each container check, in the terms of the scanners. *)
Definition container_checks : list (Check * (Pod * Container -> bool)) := [
  (digestPinCheck, pinned_pc); (nonRootCheck, nonroot); (noPrivEscCheck, confined); (readOnlyRootFSCheck, readonly)].

Lemma verdict_fires name fraction norm offenders :
  snd (verdict offenders (offenders_msg name fraction norm offenders)) <> "" <-> offenders <> [] .
Proof.
  destruct offenders as [|o l]; simpl; [done|]. split; [done|]. intros _ H.
  unfold offenders_msg in H. destruct name; discriminate.
Qed.

Lemma offenders_some {B} (f : Container -> B) (p : Container -> bool) l :
  map f (List.filter p l) <> [] <-> exists c, c ∈ l /\ p c = true.
Proof.
  split.
  - intros H. destruct (List.filter p l) as [|c l'] eqn:E; [done|]. exists c.
    assert (In c (List.filter p l)) as Hin by (rewrite E; by left). apply List.filter_In in Hin as [? ?].
    split; [by apply list_elem_of_In|done].
  - intros (c & Hc & Hp) E. apply map_eq_nil in E. apply list_elem_of_In in Hc.
    assert (In c (List.filter p l)) as Hin by (by apply List.filter_In). by rewrite E in Hin.
Qed.

(** A container check on a baseline whose fraction is [k] of [n]. *)
Lemma container_check name fraction norm (shown : Container -> string) (bad : Container -> bool) pod k n :
  fraction = floatRatio (Z.of_nat k) (Z.of_nat n) -> k <= n -> (Z.of_nat n <= max_population)%Z ->
  snd (if f_ltb fraction Threshold then silent
       else let offenders := map shown (List.filter bad (admittedContainers pod)) in
            verdict offenders (offenders_msg name fraction norm offenders)) <> "" <->
  0 < n /\ 7 * n <= 10 * k /\ exists c, c ∈ admittedContainers pod /\ bad c = true.
Proof.
  intros Hf Hk Hn. pose proof (active_iff k n Hk Hn) as Ha. rewrite <- Hf in Ha.
  rewrite <- (offenders_some shown). destruct (f_ltb fraction Threshold); cbv zeta; [|rewrite verdict_fires; tauto].
  split; [done|]. intros (? & ? & _). enough (true = false) by done. apply Ha. done.
Qed.

Module Norms.

(** C31: each check asks of a pod what the scanners counted: on a baseline derived from a
    fleet's scans it fires exactly when seven tenths of all the containers (or pods) the
    scans saw comply and one of the pod's own does not. *)
Theorem checks_match_scans {E} `{!ApiError E} fleet id b pod :
  countable (fleet_pods fleet) -> scanBaseline (inl (fleet_results (E := E) fleet)) id = inl b ->
  let pods := fleet_pods fleet in
  let seen := admitted pods in
  (forall chk ok, (chk, ok) ∈ container_checks ->
     snd (ck_Evaluate chk pod b) <> "" <->
       0 < length seen /\ 7 * length seen <= 10 * count ok seen /\
       exists c, c ∈ admittedContainers pod /\ ok (pod, c) = false) /\
  (snd (ck_Evaluate namedSACheck pod b) <> "" <->
     0 < length pods /\ 7 * length pods <= 10 * count (fun p => negb (default_sa p)) pods /\ default_sa pod = true).
Proof.
  intros Hc Hb pods seen. rewrite scanBaseline_fleet in Hb by done. injection Hb as <-. destruct Hc as [HP HA].
  split.
  - intros chk ok Hin.
    repeat (apply elem_of_cons in Hin as [[= -> ->]|Hin]); [| | | |by apply elem_of_nil in Hin].
    all: cbn [ck_Evaluate digestPinCheck nonRootCheck noPrivEscCheck readOnlyRootFSCheck].
    all: rewrite container_check; [|reflexivity|apply count_le|exact HA].
    all: match goal with |- _ /\ _ /\ ?A <-> _ /\ _ /\ ?B => enough (A <-> B) by tauto end.
    all: unfold pinned_pc, pinned, nonroot, is_status, confined, escalates, readonly; cbn [fst snd].
    all: split; intros (c & Hin & Hbad); exists c; (split; [done|]).
    all: by rewrite ?negb_true_iff, ?negb_false_iff in *.
  - cbn [ck_Evaluate namedSACheck]. unfold baseline_of. cbn [NamedServiceAccountFraction to_Pods to_defaultSAPods totals_of].
    pose proof (count_negb default_sa pods) as Hn.
    change (fleet_pods fleet) with pods in HP |- *. clear HA seen. clearbody pods.
    replace (wrap64 _) with (Z.of_nat (count (fun p => negb (default_sa p)) pods)).
    2:{ rewrite wrap64_id; [lia|]. unfold int64_ok, int64_min, int64_max, max_population in *. lia. }
    pose proof (active_iff (count (fun p => negb (default_sa p)) pods) (length pods) (count_le _ _) HP) as Ha.
    unfold default_sa at 3. rewrite <- negb_orb. fold (default_sa pod).
    destruct (f_ltb _ Threshold); [split; [done|]; intros (? & ? & _); enough (true = false) by done; by apply Ha|].
    destruct (default_sa pod); simpl; [|split; [done|by intros (_ & _ & ?)]].
    split; [intros _; destruct (proj1 Ha eq_refl); by split_all|].
    intros _ H. discriminate H.
Qed.

(** A fleet of one pod that complies, and a pod that runs as root. *)
Definition hardened (uid : Z) : Container := {| ct_Name := "app"; ct_Image := "app@sha256:ab";
  ct_SecurityContext := Some {|
    sc_Privileged := None; sc_RunAsNonRoot := None; sc_RunAsUser := Some uid;
    sc_AllowPrivilegeEscalation := Some false; sc_ReadOnlyRootFilesystem := Some true; sc_Capabilities := None;
    sc_SeccompProfile := None |} |}.

Definition pod_with (c : Container) : Pod := {|
  pod_Namespace := "ns"; pod_Name := "p"; pod_Annotations := ∅; pod_SecurityContext := None; pod_InitContainers := [];
  pod_Containers := [c]; pod_EphemeralContainers := []; pod_ServiceAccountName := "app"; pod_HostNetwork := false;
  pod_HostPID := false; pod_HostIPC := false; pod_HostPathVolumes := [] |}.

Definition sample_fleet : gmap string (list Pod) := {["prod" := [pod_with (hardened 1000)]]}.

Lemma checks_match_scans_witness :
  exists b, scanBaseline (inl (fleet_results (E := bool) sample_fleet)) "s1" = inl b /\
    snd (ck_Evaluate nonRootCheck (pod_with (hardened 0)) b) <> "".
Proof.
  destruct (scanBaseline (inl (fleet_results (E := bool) sample_fleet)) "s1") as [b|err] eqn:Eb; [|vm_compute in Eb; discriminate Eb].
  exists b. split; [reflexivity|].
  destruct (checks_match_scans (E := bool) sample_fleet "s1" b (pod_with (hardened 0))) as [H _].
  - split; vm_compute; discriminate.
  - exact Eb.
  - refine (proj2 (H nonRootCheck nonroot _) _).
    + apply elem_of_cons; right; apply elem_of_cons; left; reflexivity.
    + split; [vm_compute; lia|split; [vm_compute; lia|]]. exists (hardened 0).
      split; [apply elem_of_cons; left; reflexivity|vm_compute; reflexivity].
Defined.

End Norms.
