(* ===== verification/RateLimit.v ===== *)
(** * internal/server/ratelimit.go: the token-bucket limiter

    Times are nanoseconds since the zero [time.Time], as the clock gives them; a request
    carries the time the limiter reads. *)

From Stdlib Require Import ZArith Lia String Ascii Floats.SpecFloat.
From stdpp Require Import base gmap strings list sorting.
From S2P Require Import Prelude Float64 Ratio GoTime Strs.

Local Open Scope Z_scope.

(** ** The limiter *)

Definition bucketIdleTTL : Z := 10 * Minute.
Definition bucketSweepInterval : Z := Minute.

Record tokenBucket := { tb_tokens : float64; tb_lastRefill : Z }.

Record rateLimiter := {
  rl_buckets : gmap string tokenBucket;
  rl_lastSweep : Z;
  rl_readRPM : Z;
  rl_writeRPM : Z
}.

Definition newRateLimiter (readRPM writeRPM : Z) : rateLimiter :=
  {| rl_buckets := ∅; rl_lastSweep := 0; rl_readRPM := readRPM; rl_writeRPM := writeRPM |}.

Definition with_buckets (r : rateLimiter) (b : gmap string tokenBucket) (swept : Z) : rateLimiter :=
  {| rl_buckets := b; rl_lastSweep := swept; rl_readRPM := rl_readRPM r; rl_writeRPM := rl_writeRPM r |}.

Definition idle (now : Z) (b : tokenBucket) : bool := bucketIdleTTL <? Sub now (tb_lastRefill b).

Definition sweep (now : Z) (r : rateLimiter) : rateLimiter :=
  if Sub now (rl_lastSweep r) <? bucketSweepInterval then r
  else with_buckets r (filter (fun kb : string * tokenBucket => idle now (snd kb) = false) (rl_buckets r)) now.

Definition refill (limit now : Z) (b : tokenBucket) : tokenBucket :=
  let elapsed := Seconds (Sub now (tb_lastRefill b)) in
  if f_ltb f_zero elapsed then
    {| tb_tokens := f_min (f_add (tb_tokens b) (f_div (f_mul elapsed (f_of_Z limit)) (f_of_Z 60))) (f_of_Z limit);
       tb_lastRefill := now |}
  else b.

Definition new_bucket (limit now : Z) : tokenBucket := {| tb_tokens := f_of_Z limit; tb_lastRefill := now |}.

(** One token from a bucket: the tokens left, whether there was one, and the bucket. *)
Definition take_token (b : tokenBucket) : float64 * bool * tokenBucket :=
  if f_ltb (tb_tokens b) (f_of_Z 1) then (tb_tokens b, false, b)
  else let t := f_sub (tb_tokens b) (f_of_Z 1) in (t, true, {| tb_tokens := t; tb_lastRefill := tb_lastRefill b |}).

Definition limit_of (r : rateLimiter) (write : bool) : Z := if write then rl_writeRPM r else rl_readRPM r.
Definition class_key (key : string) (write : bool) : string := (key ++ (if write then "|w" else "|r"))%string.

(** The locked part of [allow], after the sweep. *)
Definition consume (now limit : Z) (key : string) (r : rateLimiter) : float64 * bool * rateLimiter :=
  let b := default (new_bucket limit now) (rl_buckets r !! key) in
  let '(remaining, ok, b') := take_token (refill limit now b) in
  (remaining, ok, with_buckets r (<[key := b']> (rl_buckets r)) (rl_lastSweep r)).

Definition allow (now : Z) (key : string) (write : bool) (r : rateLimiter) : float64 * bool * rateLimiter :=
  let limit := limit_of r write in
  if limit <=? 0 then (f_of_Z (-1), true, r)
  else consume now limit (class_key key write) (sweep now r).

(** ** The middleware *)

Definition formatRemaining (tokens : float64) : string := itoa (Z.max (f_to_int tokens) 0).

Inductive limited := TooManyRequests | Served (remaining_header : option string).

Definition rateLimitMiddleware (limiter : option rateLimiter) (now : Z) (key : string) (write : bool) :
  limited * option rateLimiter :=
  match limiter with
  | None => (Served None, None)
  | Some r =>
      let '(remaining, ok, r') := allow now key write r in
      (if ok then Served (if f_leb f_zero remaining then Some (formatRemaining remaining) else None) else TooManyRequests,
       Some r')
  end.

Section Key.
(** [net.ParseIP] with [IP.String], and [net.SplitHostPort]'s host. *)
Context (parse_ip split_host : string -> option string).

(** [v[strings.LastIndex(v, ",")+1:]]. *)
Definition after_last_comma (v : string) : string :=
  match from_last ","%char v with Some t => drop_str 1 t | None => v end.

Definition rateLimitKey (proxyHeader : string) (header remoteAddr : string) : string :=
  let transport := ("addr:" ++ default remoteAddr (split_host remoteAddr))%string in
  if String.eqb proxyHeader "" || String.eqb header "" then transport
  else match parse_ip (TrimSpace (after_last_comma header)) with
       | Some ip => ("addr:" ++ ip)%string
       | None => transport
       end.
End Key.

(** ** A trace of requests *)

Record request := { rq_now : Z; rq_key : string; rq_write : bool }.

Definition serve_with (sweeper : Z -> rateLimiter -> rateLimiter) (r : rateLimiter) (q : request) :
  float64 * bool * rateLimiter :=
  let limit := limit_of r (rq_write q) in
  if limit <=? 0 then (f_of_Z (-1), true, r)
  else consume (rq_now q) limit (class_key (rq_key q) (rq_write q)) (sweeper (rq_now q) r).

Fixpoint answers (sweeper : Z -> rateLimiter -> rateLimiter) (r : rateLimiter) (qs : list request) : list (float64 * bool) :=
  match qs with
  | [] => []
  | q :: qs' => let '(remaining, ok, r') := serve_with sweeper r q in (remaining, ok) :: answers sweeper r' qs'
  end.

Fixpoint after (r : rateLimiter) (qs : list request) : rateLimiter :=
  match qs with
  | [] => r
  | q :: qs' => let '(_, _, r') := allow (rq_now q) (rq_key q) (rq_write q) r in after r' qs'
  end.

Example burst : map snd (answers sweep (newRateLimiter 2 1)
  [{| rq_now := Minute; rq_key := "a"; rq_write := false |}; {| rq_now := Minute; rq_key := "a"; rq_write := false |};
   {| rq_now := Minute; rq_key := "a"; rq_write := false |}; {| rq_now := Minute; rq_key := "b"; rq_write := false |};
   {| rq_now := 90 * Second; rq_key := "a"; rq_write := false |}]) = [true; true; false; true; true].
Proof. vm_compute. reflexivity. Qed.

(** ** Floats of the refill *)

(** Budgets the floats hold exactly. *)
Definition max_rpm : Z := 2 ^ 40.

Lemma of_Z_nat n : 0 < n <= 2 ^ 53 -> f_finite (f_of_Z n) = true /\ f_val (f_of_Z n) = n * 2 ^ 1074.
Proof. apply f_of_Z_exact. Qed.

Lemma pow1074 : 0 < 2 ^ 1074.
Proof. apply Z.pow_pos_nonneg; lia. Qed.

(** An upper bound of every product computed here: [2 ^ 74]. *)
Definition ceiling : float64 := S754_finite false 4503599627370496 22.

Lemma ceiling_val : f_finite ceiling = true /\ f_val ceiling = 2 ^ 74 * 2 ^ 1074.
Proof. split; [reflexivity|]. vm_compute. reflexivity. Qed.

Lemma nn_pos_val x : nn x = true -> f_finite x = true -> 0 <= f_val x.
Proof. intros H Hf. destruct (nn_cases x H) as [->|[_ Hv]]; done. Qed.

Lemma leb_finite_val x y : nn x = true -> f_finite y = true -> f_leb x y = true -> f_finite x = true /\ f_val x <= f_val y.
Proof. intros Hx Hy H. assert (f_finite x = true) by (by apply (nn_leb_finite _ y)). split; [done|]. by apply f_leb_val. Qed.

Lemma second_quot d : 0 <= d -> 0 <= Z.rem d Second < Second /\ d = Second * Z.quot d Second + Z.rem d Second /\ 0 <= Z.quot d Second.
Proof.
  intros H. unfold Second. rewrite Z.quot_div_nonneg, Z.rem_mod_nonneg by lia.
  pose proof (Z.div_mod d 1000000000 ltac:(lia)). pose proof (Z.mod_pos_bound d 1000000000 ltac:(lia)).
  split_all; try lia.
Qed.

Lemma frac_bounds r : 0 <= r < Second -> nn (f_div (f_of_Z r) (f_of_Z Second)) = true /\
  f_leb (f_div (f_of_Z r) (f_of_Z Second)) (f_of_Z 1) = true.
Proof.
  intros Hr. split; [apply nn_div; [apply nn_of_Z; lia|vm_compute; reflexivity]|].
  destruct (Z.eq_dec r 0) as [->|Hne]; [vm_compute; reflexivity|].
  destruct (of_Z_nat r) as [Fr Vr]; [unfold Second in *; lia|].
  destruct (of_Z_nat Second) as [Fs Vs]; [unfold Second; lia|]. pose proof pow1074.
  apply f_div_le; try assumption; try reflexivity; rewrite ?Vr, ?Vs; change (f_val (f_of_Z 1)) with (1 * 2 ^ 1074);
    unfold Second in *; set (P := 2 ^ 1074) in *; clearbody P; nia.
Qed.

(** Ten minutes and more are at least 600 seconds, and any duration is bounded. *)
Lemma Seconds_bounds d : 600 * Second <= d <= int64_max ->
  nn (Seconds d) = true /\ f_finite (Seconds d) = true /\ 600 * 2 ^ 1074 <= f_val (Seconds d) <= 2 ^ 34 * 2 ^ 1074.
Proof.
  intros Hd. destruct (second_quot d) as (Hr & He & Hq); [unfold Second in *; lia|].
  unfold Seconds. set (q := Z.quot d Second) in *. set (r := Z.rem d Second) in *.
  destruct (frac_bounds r Hr) as [Nf Lf]. set (fr := f_div (f_of_Z r) (f_of_Z Second)) in *.
  assert (600 <= q < 2 ^ 34 - 1) as Hq600 by (unfold Second, int64_max in *; lia).
  destruct (of_Z_nat q) as [Fq Vq]; [lia|]. destruct (leb_finite_val fr (f_of_Z 1) Nf eq_refl Lf) as [Ff Vf].
  change (f_val (f_of_Z 1)) with (1 * 2 ^ 1074) in Vf. pose proof (nn_pos_val fr Nf Ff) as Pf.
  assert (nn (f_add (f_of_Z q) fr) = true) as Na by (apply nn_add; [apply nn_of_Z; lia|done]).
  pose proof (f_add_rounds (f_of_Z q) fr Fq Ff) as Hrd. pose proof pow1074.
  destruct (of_Z_nat (2 ^ 34)) as [F34 V34]; [lia|]. destruct (of_Z_nat 600) as [F600 V600]; [lia|].
  assert (f_leb (f_add (f_of_Z q) fr) (f_of_Z (2 ^ 34)) = true) as Hle.
  { apply (rounds_le _ _ _ Hrd F34). rewrite V34, Vq. set (P := 2 ^ 1074) in *. clearbody P. nia. }
  assert (f_leb (f_of_Z 600) (f_add (f_of_Z q) fr) = true) as Hge.
  { apply (rounds_ge _ _ _ Hrd F600). rewrite V600, Vq. set (P := 2 ^ 1074) in *. clearbody P. nia. }
  destruct (leb_finite_val _ _ Na F34 Hle) as [Fa Va]. apply (f_leb_val _ _ F600 Fa) in Hge.
  rewrite V34 in Va. rewrite V600 in Hge. split; [exact Na|split; [exact Fa|split; assumption]].
Qed.

Lemma f_min_right x y : f_pos y = true -> nn x = true -> f_ltb x y = false -> f_min x y = y.
Proof.
  intros Hy Hx Hlt. unfold f_pos in Hy. apply andb_prop in Hy as [_ Hy].
  destruct y as [[]|[]| |[] my ey]; try done; unfold f_min;
    destruct x as [[]|[]| |[] mx ex]; try done; by rewrite Hlt.
Qed.

(** A bucket idle for ten minutes refills to its whole budget. *)
Lemma full_refill t d L : nn t = true -> f_leb t (f_of_Z L) = true -> 600 * Second <= d <= int64_max -> 0 < L <= max_rpm ->
  f_min (f_add t (f_div (f_mul (Seconds d) (f_of_Z L)) (f_of_Z 60))) (f_of_Z L) = f_of_Z L.
Proof.
  intros Nt Lt Hd HL. destruct (Seconds_bounds d Hd) as (Ns & Fs & Vs).
  destruct (of_Z_nat L) as [FL VL]; [unfold max_rpm in *; lia|].
  destruct (leb_finite_val t _ Nt FL Lt) as [Ft Vt]. pose proof (nn_pos_val t Nt Ft) as Pt. pose proof pow1074.
  destruct (of_Z_nat (600 * L)) as [F6 V6]; [unfold max_rpm in *; lia|]. destruct ceiling_val as [Fc Vc].
  destruct (of_Z_nat 60) as [F60 V60]; [lia|]. unfold max_rpm in HL.
  set (P := 2 ^ 1074) in *.
  assert (f_leb (f_of_Z (600 * L)) (f_mul (Seconds d) (f_of_Z L)) = true) as M1.
  { apply f_mul_ge; fold P; try assumption; rewrite ?V6, ?VL; clearbody P; nia. }
  assert (nn (f_mul (Seconds d) (f_of_Z L)) = true) as NM by (apply nn_mul_r; [done|apply f_of_Z_pos; unfold int64_max; lia]).
  assert (f_leb (f_mul (Seconds d) (f_of_Z L)) ceiling = true) as M2.
  { apply f_mul_le; fold P; try assumption; rewrite ?Vc, ?VL; clearbody P; nia. }
  destruct (leb_finite_val _ _ NM Fc M2) as [FM VM]. apply (f_leb_val _ _ F6 FM) in M1. rewrite V6 in M1. rewrite Vc in VM.
  set (M := f_mul (Seconds d) (f_of_Z L)) in *.
  assert (nn (f_div M (f_of_Z 60)) = true) as ND by (apply nn_div; [done|vm_compute; reflexivity]).
  assert (f_leb (f_of_Z L) (f_div M (f_of_Z 60)) = true) as D1.
  { apply f_div_ge; fold P; try assumption; rewrite ?V60, ?VL; clearbody P; nia. }
  assert (f_leb (f_div M (f_of_Z 60)) ceiling = true) as D2.
  { apply f_div_le; fold P; try assumption; rewrite ?V60, ?Vc; clearbody P; nia. }
  destruct (leb_finite_val _ _ ND Fc D2) as [FD VD]. apply (f_leb_val _ _ FL FD) in D1.
  set (D := f_div M (f_of_Z 60)) in *.
  pose proof (f_add_rounds t D Ft FD) as Hrd. assert (nn (f_add t D) = true) as NA by (by apply nn_add).
  assert (f_leb (f_of_Z L) (f_add t D) = true) as HA by (apply (rounds_ge _ _ _ Hrd FL); lia).
  assert (f_ltb (f_add t D) (f_of_Z L) = false) as Hlt.
  { rewrite f_ltb_leb, HA; [done|by destruct (f_add t D)|by destruct (f_of_Z L)]. }
  apply f_min_right; [apply f_of_Z_pos; unfold int64_max; lia|exact NA|exact Hlt].
Qed.

(** ** What a bucket holds *)

(** Between zero and the budget. *)
Definition bucket_ok (limit : Z) (b : tokenBucket) : Prop :=
  nn (tb_tokens b) = true /\ f_leb (tb_tokens b) (f_of_Z limit) = true.

Lemma nn_not_nan x : nn x = true -> f_is_nan x = false.
Proof. by destruct x. Qed.

Lemma limit_finite limit : 0 < limit <= max_rpm -> f_finite (f_of_Z limit) = true.
Proof. intros H. apply of_Z_nat. unfold max_rpm in H. lia. Qed.

Lemma limit_pos limit : 0 < limit <= max_rpm -> f_pos (f_of_Z limit) = true.
Proof. intros H. apply f_of_Z_pos; unfold max_rpm, int64_max in *; lia. Qed.

Lemma f_leb_refl x : f_finite x = true -> f_leb x x = true.
Proof. intros H. apply f_leb_val; try done. Qed.

Lemma new_bucket_ok limit now : 0 < limit <= max_rpm -> bucket_ok limit (new_bucket limit now).
Proof. intros H. split; [apply nn_of_Z; lia|]. apply f_leb_refl. by apply limit_finite. Qed.

Lemma Seconds_valid d : f_valid (Seconds d) = true.
Proof. apply f_add_valid; [apply f_of_Z_valid|]. apply f_div_valid; apply f_of_Z_valid. Qed.

Lemma refill_ok limit now b : 0 < limit <= max_rpm -> bucket_ok limit b -> bucket_ok limit (refill limit now b).
Proof.
  intros HL [H1 H2]. unfold refill. destruct (f_ltb f_zero _) eqn:E; [|done]. simpl.
  set (S := Seconds _) in *.
  assert (nn S = true) as NS.
  { unfold nn. unfold S at 1. rewrite Seconds_valid. simpl. unfold f_nonneg. clearbody S. by destruct S as [[]|[]| |[]]. }
  assert (nn (f_add (tb_tokens b) (f_div (f_mul S (f_of_Z limit)) (f_of_Z 60))) = true) as NA.
  { apply nn_add; [done|]. apply nn_div; [|vm_compute; reflexivity]. apply nn_mul_r; [done|by apply limit_pos]. }
  split; [apply nn_min; [done|apply nn_of_Z; lia]|].
  apply f_min_leb_r; [by apply nn_not_nan|by apply limit_finite].
Qed.

Lemma take_token_ok limit b : 0 < limit <= max_rpm -> bucket_ok limit b ->
  let '(remaining, ok, b') := take_token b in
  bucket_ok limit b' /\ remaining = tb_tokens b' /\ ok = f_leb (f_of_Z 1) (tb_tokens b).
Proof.
  intros HL [H1 H2]. unfold take_token. pose proof (nn_not_nan _ H1) as Hnan.
  rewrite f_ltb_leb by (done || reflexivity). destruct (f_leb (f_of_Z 1) (tb_tokens b)) eqn:E; simpl; [|done].
  pose proof (limit_finite limit HL) as FL. destruct (leb_finite_val _ _ H1 FL H2) as [Fb Vb].
  pose proof (f_sub_rounds _ (f_of_Z 1) Fb eq_refl) as Hr. apply (f_leb_val (f_of_Z 1) _ eq_refl Fb) in E.
  split; [|done]. split; simpl.
  - unfold nn. rewrite f_sub_valid; [|by destruct (tb_tokens b)|reflexivity]. simpl.
    apply (rounds_ge _ _ f_zero Hr eq_refl). change (f_val f_zero) with 0. lia.
  - apply (rounds_le _ _ _ Hr FL). change (f_val (f_of_Z 1)) with (1 * 2 ^ 1074). pose proof pow1074.
    set (P := 2 ^ 1074) in *. clearbody P. lia.
Qed.

(** ** The limiter with and without sweeps *)

(** A key of a class, and the budget its bucket is under. *)
Definition buckets_ok (r : rateLimiter) : Prop :=
  forall key write b, rl_buckets r !! class_key key write = Some b -> 0 < limit_of r write -> bucket_ok (limit_of r write) b.

Lemma class_key_inj k1 w1 k2 w2 : class_key k1 w1 = class_key k2 w2 -> k1 = k2 /\ w1 = w2.
Proof.
  unfold class_key. intros H. assert (w1 = w2) as <-.
  { apply (f_equal (fun s => HasSuffix s "w")) in H.
    assert (forall k (w : bool), HasSuffix (k ++ (if w then "|w" else "|r")) "w" = w) as Hw.
    { intros k w. induction k as [|c k IH]; [by destruct w|].
      change (String c k ++ (if w then "|w" else "|r"))%string with (String c (k ++ (if w then "|w" else "|r")))%string.
      cbn [HasSuffix]. rewrite IH. destruct (String.eqb_spec (String c (k ++ (if w then "|w" else "|r"))) "w") as [E|]; [|done].
      injection E as _ E. by destruct k, w. }
    by rewrite !Hw in H. }
  split; [|done]. revert k2 H. induction k1 as [|c k1 IH]; intros [|d k2] H; try done.
  - destruct w1; injection H; by destruct k2 as [|? [|? ?]].
  - destruct w1; injection H; by destruct k1 as [|? [|? ?]].
  - change (String c (k1 ++ (if w1 then "|w" else "|r")) = String d (k2 ++ (if w1 then "|w" else "|r")))%string in H.
    injection H as <- H. by rewrite (IH k2 H).
Qed.

Lemma idle_mono now now' b : now <= now' -> idle now b = true -> idle now' b = true.
Proof.
  unfold idle. intros H Hi. apply Z.ltb_lt in Hi. apply Z.ltb_lt. pose proof (Sub_mono now now' (tb_lastRefill b) H). lia.
Qed.

Lemma refill_new limit now : refill limit now (new_bucket limit now) = new_bucket limit now.
Proof.
  unfold refill. simpl. replace (Sub now now) with 0 by (unfold Sub, int64_min, int64_max; lia). reflexivity.
Qed.

(** A bucket that could have been evicted refills to the one a new key gets. *)
Lemma refill_idle limit now b : 0 < limit <= max_rpm -> bucket_ok limit b -> idle now b = true ->
  refill limit now b = new_bucket limit now.
Proof.
  intros HL [H1 H2] Hi. unfold idle in Hi. apply Z.ltb_lt in Hi. unfold refill.
  assert (600 * Second <= Sub now (tb_lastRefill b) <= int64_max) as Hd.
  { unfold bucketIdleTTL, Minute, Second, Sub, int64_max, int64_min in *. lia. }
  destruct (Seconds_bounds _ Hd) as (Ns & Fs & [Vs _]).
  assert (f_ltb f_zero (Seconds (Sub now (tb_lastRefill b))) = true) as ->.
  { rewrite f_ltb_leb by (reflexivity || by apply nn_not_nan). apply negb_true_iff.
    destruct (f_leb (Seconds _) f_zero) eqn:E; [|done]. apply (f_leb_val _ f_zero Fs eq_refl) in E.
    change (f_val f_zero) with 0 in E. pose proof pow1074. set (P := 2 ^ 1074) in *. clearbody P. lia. }
  unfold new_bucket. f_equal. by apply full_refill.
Qed.

(** The budgets of a limiter: each either off or held exactly. *)
Definition budgets_ok (r : rateLimiter) : Prop := rl_readRPM r <= max_rpm /\ rl_writeRPM r <= max_rpm.

Lemma limit_ok r write : budgets_ok r -> limit_of r write <= max_rpm.
Proof. intros [? ?]. by destruct write. Qed.

Lemma consume_ok now key write r : budgets_ok r -> 0 < limit_of r write -> buckets_ok r ->
  let '(remaining, ok, r') := consume now (limit_of r write) (class_key key write) r in
  buckets_ok r' /\ budgets_ok r' /\
  (ok = true <-> f_leb (f_of_Z 1) (tb_tokens (refill (limit_of r write) now
      (default (new_bucket (limit_of r write) now) (rl_buckets r !! class_key key write)))) = true) /\
  nn remaining = true /\ f_leb remaining (f_of_Z (limit_of r write)) = true.
Proof.
  intros Hb HL Hr. pose proof (limit_ok r write Hb) as HLm. unfold consume.
  set (b := default _ _). assert (bucket_ok (limit_of r write) b) as Hok.
  { unfold b. destruct (rl_buckets r !! class_key key write) as [b0|] eqn:E; simpl; [by apply (Hr _ _ _ E)|by apply new_bucket_ok]. }
  pose proof (refill_ok _ now b (conj HL HLm) Hok) as Hro. pose proof (take_token_ok _ _ (conj HL HLm) Hro) as Ht.
  destruct (take_token (refill (limit_of r write) now b)) as [[remaining ok] b']. destruct Ht as (Hb' & -> & ->).
  split; [|split; [done|split; [done|exact Hb']]].
  intros k w b0 Hk Hlw. simpl in Hk. destruct (decide (class_key k w = class_key key write)) as [E|Hne].
  - rewrite E, lookup_insert_eq in Hk. injection Hk as <-. by apply class_key_inj in E as [_ ->].
  - rewrite lookup_insert_ne in Hk by congruence. by apply (Hr k w).
Qed.

Lemma sweep_ok now r : buckets_ok r -> buckets_ok (sweep now r).
Proof.
  intros Hr. unfold sweep. destruct (_ <? _); [done|]. intros k w b Hk. simpl in Hk.
  apply map_lookup_filter_Some in Hk as [Hk _]. by apply (Hr k w).
Qed.

Lemma sweep_budgets now r : rl_readRPM (sweep now r) = rl_readRPM r /\ rl_writeRPM (sweep now r) = rl_writeRPM r.
Proof. unfold sweep. by destruct (_ <? _). Qed.

(** The limiter with sweeps, against the one that keeps every bucket. *)
Record simulates (now : Z) (s u : rateLimiter) : Prop := {
  sim_read : rl_readRPM s = rl_readRPM u;
  sim_write : rl_writeRPM s = rl_writeRPM u;
  sim_live : forall k b, rl_buckets s !! k = Some b -> rl_buckets u !! k = Some b;
  sim_evicted : forall k b, rl_buckets u !! k = Some b -> rl_buckets s !! k = None -> idle now b = true
}.

Lemma simulates_sweep now now' s u : now <= now' -> simulates now s u -> simulates now' (sweep now' s) u.
Proof.
  intros Hle [H1 H2 H3 H4]. destruct (sweep_budgets now' s) as [E1 E2]. split; [by rewrite E1|by rewrite E2| |];
    unfold sweep; destruct (_ <? _); simpl; try done.
  - intros k b. rewrite map_lookup_filter_Some. intros [Hk _]. auto.
  - intros k b Hu Hs. by eapply idle_mono; eauto.
  - intros k b Hu Hs. destruct (rl_buckets s !! k) as [b'|] eqn:Es; [|by eapply idle_mono; eauto].
    pose proof (H3 _ _ Es) as Hu'. rewrite Hu in Hu'. injection Hu' as ->.
    destruct (idle now' b') eqn:Ei; [done|]. exfalso.
    assert (filter (fun kb : string * tokenBucket => idle now' (snd kb) = false) (rl_buckets s) !! k = Some b') as Hx
      by (by apply map_lookup_filter_Some). congruence.
Qed.

Lemma simulates_consume now limit key s u : 0 < limit <= max_rpm -> simulates now s u ->
  (forall b, rl_buckets u !! key = Some b -> bucket_ok limit b) ->
  let '(m1, o1, s') := consume now limit key s in let '(m2, o2, u') := consume now limit key u in
  m1 = m2 /\ o1 = o2 /\ simulates now s' u'.
Proof.
  intros HL [H1 H2 H3 H4] Hok. unfold consume.
  assert (refill limit now (default (new_bucket limit now) (rl_buckets s !! key)) =
          refill limit now (default (new_bucket limit now) (rl_buckets u !! key))) as ->.
  { destruct (rl_buckets s !! key) as [b|] eqn:Es; [by rewrite (H3 _ _ Es)|].
    destruct (rl_buckets u !! key) as [b|] eqn:Eu; [|done]. simpl. rewrite refill_new. symmetry.
    apply refill_idle; eauto. }
  destruct (take_token _) as [[m o] b']. split_all; try done. split; simpl; try done.
  - intros k b. destruct (decide (k = key)) as [->|Hne]; [by rewrite !lookup_insert_eq|].
    rewrite !lookup_insert_ne by congruence. auto.
  - intros k b. destruct (decide (k = key)) as [->|Hne]; [by rewrite !lookup_insert_eq|].
    rewrite !lookup_insert_ne by congruence. eauto.
Qed.

(** ** How far rounding can lift a value *)

(** A float just above [z * 2^-1074]: at most one part in [2^52] more. *)
Lemma f_above z : 0 < z <= 2 ^ 53 * 2 ^ 1074 ->
  exists y, f_finite y = true /\ z <= f_val y /\ f_val y * 2 ^ 52 <= z * (2 ^ 52 + 1).
Proof.
  intros Hz. assert (Hlog : 0 <= Z.log2 z <= 1127).
  { split; [apply Z.log2_nonneg|]. replace (2 ^ 53 * 2 ^ 1074) with (2 ^ 1127) in Hz by reflexivity.
    rewrite <- (Z.log2_pow2 1127) by lia. apply Z.log2_le_mono. lia. }
  pose proof (Z.log2_spec z ltac:(lia)) as Hs. destruct (Z.le_gt_cases (Z.log2 z) 52) as [Hsmall|Hbig].
  - exists (S754_finite false (Z.to_pos z) (-1074)). assert (Hp : Zpos (Z.to_pos z) = z) by (apply Z2Pos.id; lia).
    split; [|unfold f_val; rewrite Hp; change (-1074 + 1074) with 0; lia].
    apply bounded_spec. rewrite digits2_pos_log2, Hp. lia.
  - set (k := Z.log2 z - 52) in *. assert (Hk : 0 < 2 ^ k) by (apply Z.pow_pos_nonneg; lia).
    assert (Hsplit : 2 ^ Z.log2 z = 2 ^ 52 * 2 ^ k) by (rewrite <- Z.pow_add_r by lia; f_equal; lia).
    rewrite Z.pow_succ_r, Hsplit in Hs by lia. set (m := z / 2 ^ k + 1).
    pose proof (Z.div_mod z (2 ^ k) ltac:(lia)) as Hdm. pose proof (Z.mod_pos_bound z (2 ^ k) Hk) as Hmod.
    assert (Hq : 2 ^ 52 <= z / 2 ^ k < 2 ^ 53).
    { split; [apply Z.div_le_lower_bound; lia|apply Z.div_lt_upper_bound; lia]. }
    assert (Hv : z <= m * 2 ^ k /\ m * 2 ^ k * 2 ^ 52 <= z * (2 ^ 52 + 1)) by (unfold m; split; nia).
    assert (Hfin : forall n e, 2 ^ 52 <= n < 2 ^ 53 -> e <= 971 -> -1074 <= e -> f_finite (S754_finite false (Z.to_pos n) e) = true).
    { intros n e Hn He1 He2. assert (Hp : Zpos (Z.to_pos n) = n) by (apply Z2Pos.id; lia).
      apply bounded_spec. rewrite digits2_pos_log2, Hp. replace (Z.log2 n) with 52 by (symmetry; apply Z.log2_unique; lia). lia. }
    destruct (Z.eq_dec m (2 ^ 53)) as [E|Hne].
    + exists (S754_finite false (Z.to_pos (2 ^ 52)) (k + 1 - 1074)). split; [apply Hfin; lia|].
      unfold f_val. rewrite Z2Pos.id by lia. replace (k + 1 - 1074 + 1074) with (k + 1) by lia.
      rewrite Z.pow_add_r by lia. rewrite E in Hv. lia.
    + exists (S754_finite false (Z.to_pos m) (k - 1074)). split; [apply Hfin; lia|].
      unfold f_val. rewrite Z2Pos.id by lia. replace (k - 1074 + 1074) with k by lia. lia.
Qed.

(** [x] is finite and not negative, and at most one part in [2^52] above [z]. *)
Definition near_below (x : float64) (z : Z) : Prop :=
  f_finite x = true /\ 0 <= f_val x /\ f_val x * 2 ^ 52 <= z * (2 ^ 52 + 1).

Lemma below_leb x y z : nn x = true -> f_finite y = true -> f_val y * 2 ^ 52 <= z * (2 ^ 52 + 1) -> f_leb x y = true ->
  near_below x z.
Proof.
  intros Hn Hy Hz Hle. destruct (leb_finite_val x y Hn Hy Hle) as [Fx Vx].
  split; [done|split; [by apply nn_pos_val|lia]].
Qed.

Lemma below_rounds x z : nn x = true -> rounds z x -> 0 <= z <= 2 ^ 53 * 2 ^ 1074 -> near_below x z.
Proof.
  intros Hn Hr Hz. destruct (Z.eq_dec z 0) as [->|Hne].
  - apply (below_leb x f_zero); try done. by apply (rounds_le _ _ _ Hr).
  - destruct (f_above z) as (y & Fy & Hzy & Hy); [lia|]. apply (below_leb x y); try done. by apply (rounds_le _ _ _ Hr).
Qed.

Lemma below_mul x y z : nn (f_mul x y) = true -> f_finite x = true -> f_finite y = true -> 0 < f_val x -> 0 < f_val y ->
  0 < z <= 2 ^ 53 * 2 ^ 1074 -> f_val x * f_val y <= z * 2 ^ 1074 -> near_below (f_mul x y) z.
Proof.
  intros Hn Fx Fy Px Py Hz Hle. destruct (f_above z Hz) as (c & Fc & Hzc & Hc). apply (below_leb _ c); try done.
  pose proof pow1074. apply f_mul_le; try done; [lia|]. set (P := 2 ^ 1074) in *. clearbody P. nia.
Qed.

Lemma below_div x y z : nn (f_div x y) = true -> f_finite x = true -> f_finite y = true -> 0 < f_val x -> 0 < f_val y ->
  0 < z <= 2 ^ 53 * 2 ^ 1074 -> f_val x * 2 ^ 1074 <= z * f_val y -> near_below (f_div x y) z.
Proof.
  intros Hn Fx Fy Px Py Hz Hle. destruct (f_above z Hz) as (c & Fc & Hzc & Hc). apply (below_leb _ c); try done.
  apply f_div_le; try done; [lia|]. set (P := 2 ^ 1074) in *. clearbody P. nia.
Qed.

(** ** What a refill adds *)

(** [60 s] in nanoseconds: the time a whole budget takes to refill. *)
Definition refill_time : Z := 60 * Second.

Lemma frac_above r : 0 <= r < Second -> 
  let fr := f_div (f_of_Z r) (f_of_Z Second) in
  f_finite fr = true /\ 0 <= f_val fr /\ f_val fr * Second * 2 ^ 52 <= (r * 2 ^ 1074 + Second) * (2 ^ 52 + 1).
Proof.
  intros Hr fr. destruct (frac_bounds r Hr) as [Nf _]. fold fr in Nf. pose proof pow1074.
  destruct (Z.eq_dec r 0) as [->|Hne]; [unfold fr; split_all; vm_compute; (done || discriminate)|].
  destruct (of_Z_nat r) as [Fr Vr]; [unfold Second in *; lia|].
  destruct (of_Z_nat Second) as [Fs Vs]; [unfold Second; lia|].
  set (z := r * 2 ^ 1074 / Second + 1).
  pose proof (Z.div_mod (r * 2 ^ 1074) Second ltac:(unfold Second; lia)) as Hdm.
  pose proof (Z.mod_pos_bound (r * 2 ^ 1074) Second ltac:(unfold Second; lia)) as Hmod.
  assert (0 <= r * 2 ^ 1074 / Second <= 2 ^ 1074) as Hz.
  { split; [apply Z.div_pos; unfold Second in *; nia|]. apply Z.div_le_upper_bound; [unfold Second; lia|].
    set (P := 2 ^ 1074) in *. clearbody P. nia. }
  destruct (below_div (f_of_Z r) (f_of_Z Second) z Nf Fr Fs) as (F & V0 & V).
  - rewrite Vr. set (P := 2 ^ 1074) in *. clearbody P. nia.
  - rewrite Vs. unfold Second. set (P := 2 ^ 1074) in *. clearbody P. lia.
  - unfold z. set (P := 2 ^ 1074) in *. clearbody P. lia.
  - rewrite Vr, Vs. unfold z. set (P := 2 ^ 1074) in *. clearbody P. set (w := r * P / Second) in *. clearbody w.
    unfold Second in *. nia.
  - fold fr in F, V0, V. split; [exact F|]. split; [exact V0|]. unfold z in V. set (P := 2 ^ 1074) in *. clearbody P.
    set (w := r * P / Second) in *. clearbody w. set (v := f_val fr) in *. clearbody v. unfold Second in *. lia.
Qed.

Lemma Seconds_above d : 0 < d <= refill_time ->
  f_finite (Seconds d) = true /\ nn (Seconds d) = true /\ 0 <= f_val (Seconds d) <= 61 * 2 ^ 1074 /\
  f_val (Seconds d) * Second * 2 ^ 104 <= (d * 2 ^ 1074 + Second) * (2 ^ 52 + 1) ^ 2.
Proof.
  intros Hd. destruct (second_quot d) as (Hr & He & Hq); [lia|]. unfold Seconds.
  destruct (frac_above (Z.rem d Second) Hr) as (Ff & Pf & Vf). destruct (frac_bounds (Z.rem d Second) Hr) as [Nf Lf].
  set (q := Z.quot d Second) in *. set (r := Z.rem d Second) in *. set (fr := f_div (f_of_Z r) (f_of_Z Second)) in *.
  assert (Hq60 : 0 <= q <= 60) by (unfold refill_time, Second in *; lia).
  assert (Hqv : f_finite (f_of_Z q) = true /\ f_val (f_of_Z q) = q * 2 ^ 1074).
  { destruct (Z.eq_dec q 0) as [->|]; [done|]. apply of_Z_nat. lia. }
  destruct Hqv as [Fq Vq]. destruct (leb_finite_val fr (f_of_Z 1) Nf eq_refl Lf) as [_ L1].
  change (f_val (f_of_Z 1)) with (1 * 2 ^ 1074) in L1. pose proof pow1074.
  assert (Na : nn (f_add (f_of_Z q) fr) = true) by (apply nn_add; [apply nn_of_Z; lia|done]).
  pose proof (f_add_rounds (f_of_Z q) fr Fq Ff) as Hrd. rewrite Vq in Hrd.
  assert (Hb : 0 <= q * 2 ^ 1074 + f_val fr <= 61 * 2 ^ 1074) by (set (P := 2 ^ 1074) in *; clearbody P; nia).
  destruct (below_rounds _ _ Na Hrd) as (Fa & Pa & Va); [set (P := 2 ^ 1074) in *; clearbody P; lia|].
  destruct (of_Z_nat 61) as [F61 V61]; [lia|].
  assert (f_leb (f_add (f_of_Z q) fr) (f_of_Z 61) = true) as Hle.
  { apply (rounds_le _ _ _ Hrd F61). rewrite V61. lia. }
  apply (f_leb_val _ _ Fa F61) in Hle. rewrite V61 in Hle.
  split; [exact Fa|split; [exact Na|split; [lia|]]]. set (s := f_val (f_add (f_of_Z q) fr)) in *. set (v := f_val fr) in *. set (P := 2 ^ 1074) in *.
  clearbody s v P q r. subst d. unfold Second in *. lia.
Qed.

(** The linear arithmetic of the five roundings. *)
Lemma refill_arith P L d t s m q a : 2 ^ 100 <= P -> 0 < L -> 0 < d <= refill_time -> 0 <= t <= L * P -> 0 <= s ->
  s * Second * 2 ^ 104 <= (d * P + Second) * (2 ^ 52 + 1) ^ 2 -> m * 2 ^ 52 <= s * L * (2 ^ 52 + 1) ->
  q * 60 * 2 ^ 52 <= (m + 60) * (2 ^ 52 + 1) -> a * 2 ^ 52 <= (t + q) * (2 ^ 52 + 1) ->
  a * refill_time * 2 ^ 48 <= (t * refill_time + L * d * P) * 2 ^ 48 + refill_time * L * P.
Proof.
  intros HP HL Hd Ht Hs V1 V2 V3 V4. unfold refill_time, Second in *.
  assert (W1 : s * L * 1000000000 * 2 ^ 104 <= (d * P * L + 1000000000 * L) * (2 ^ 52 + 1) ^ 2) by nia.
  assert (W2 : L * d * P <= 60000000000 * (L * P)) by nia. assert (W3 : 2 ^ 100 * L <= L * P) by nia.
  replace (d * P * L) with (L * d * P) in W1 by ring. replace (60 * 1000000000 * L * P) with (60000000000 * (L * P)) by ring.
  assert (0 <= L * d * P) by nia. assert (0 <= s * L) by nia.
  set (x := L * d * P) in *. set (y := L * P) in *. set (v := s * L) in *. clearbody x y v. clear V1 Hd Hs HP s d P. lia.
Qed.

Lemma f_min_le_left x y : nn x = true -> f_finite x = true -> f_pos y = true -> f_val (f_min x y) <= f_val x.
Proof.
  intros Nx Fx Hy. destruct (f_ltb x y) eqn:E.
  - unfold f_pos in Hy. apply andb_prop in Hy as [_ Hy]. clear Nx Fx.
    destruct y as [[]|[]| |[] my ey]; try discriminate Hy; destruct x as [[]|[]| |[] mx ex]; try discriminate E;
      unfold f_min; rewrite ?E; try apply Z.le_refl.
  - rewrite (f_min_right x y Hy Nx E). pose proof Hy as Fy. unfold f_pos in Fy. apply andb_prop in Fy as [Fy _].
    apply (f_leb_val _ _ Fy Fx). rewrite f_ltb_leb in E; [by apply negb_false_iff in E|by apply nn_not_nan|].
    clear -Fy. by destruct y.
Qed.

(** A refill of at most a minute lifts the tokens by no more than the budget's share of the
    time, and one part in [2^48] of the budget. *)
Lemma refill_above t d L : nn t = true -> f_leb t (f_of_Z L) = true -> 0 < d <= refill_time -> 0 < L <= max_rpm ->
  f_ltb f_zero (Seconds d) = true ->
  let t' := f_min (f_add t (f_div (f_mul (Seconds d) (f_of_Z L)) (f_of_Z 60))) (f_of_Z L) in
  f_val t' * refill_time * 2 ^ 48 <=
    (f_val t * refill_time + L * d * 2 ^ 1074) * 2 ^ 48 + refill_time * L * 2 ^ 1074.
Proof.
  intros Nt Lt Hd HL Hpos t'. destruct (Seconds_above d Hd) as (Fs & Ns & Ps & Vs). destruct (of_Z_nat L) as [FL VL]; [unfold max_rpm in *; lia|].
  destruct (leb_finite_val t _ Nt FL Lt) as [Ft Vt]. pose proof (nn_pos_val t Nt Ft) as Pt. pose proof pow1074.
  unfold max_rpm in HL. destruct (of_Z_nat 60) as [F60 V60]; [lia|]. set (S := Seconds d) in *.
  assert (PS : 0 < f_val S).
  { rewrite f_ltb_leb in Hpos by (reflexivity || by apply nn_not_nan). apply negb_true_iff in Hpos.
    destruct (Z.le_gt_cases (f_val S) 0) as [Hle|]; [|done]. by rewrite (proj2 (f_leb_val S f_zero Fs eq_refl) Hle) in Hpos. }
  assert (NM : nn (f_mul S (f_of_Z L)) = true) by (apply nn_mul_r; [done|apply f_of_Z_pos; unfold int64_max; lia]).
  destruct (below_mul S (f_of_Z L) (f_val S * L) NM Fs FL PS) as (FM & _ & VM).
  { rewrite VL. nia. }
  { set (P := 2 ^ 1074) in *. clearbody P. nia. }
  { rewrite VL. set (P := 2 ^ 1074) in *. clearbody P. nia. }
  assert (PM : f_val S <= f_val (f_mul S (f_of_Z L))).
  { apply (f_leb_val _ _ Fs FM). apply f_mul_ge; try assumption; rewrite VL; set (P := 2 ^ 1074) in *; clearbody P; nia. }
  set (M := f_mul S (f_of_Z L)) in *. assert (ND : nn (f_div M (f_of_Z 60)) = true) by (apply nn_div; [done|vm_compute; reflexivity]).
  set (z := f_val M / 60 + 1). pose proof (Z.div_mod (f_val M) 60 ltac:(lia)) as Hdm.
  pose proof (Z.mod_pos_bound (f_val M) 60 ltac:(lia)) as Hmod.
  assert (BM : f_val M <= 64 * L * 2 ^ 1074).
  { clear -VM Ps HL PS. set (P := 2 ^ 1074) in *. clearbody P. set (v := f_val M) in *. set (s := f_val S) in *. clearbody v s.
    assert (s * L <= 61 * P * L) by nia. nia. }
  destruct (below_div M (f_of_Z 60) z ND FM F60) as (FD & PD & VD).
  { lia. }
  { rewrite V60. lia. }
  { unfold z. set (P := 2 ^ 1074) in *. clearbody P. set (w := f_val M / 60) in *. clearbody w. nia. }
  { rewrite V60. unfold z. set (P := 2 ^ 1074) in *. clearbody P. set (w := f_val M / 60) in *. clearbody w. nia. }
  set (D := f_div M (f_of_Z 60)) in *.
  assert (VD' : f_val D * 60 * 2 ^ 52 <= (f_val M + 60) * (2 ^ 52 + 1)) by (unfold z in VD; lia).
  assert (BD : 0 <= f_val t + f_val D <= 2 ^ 53 * 2 ^ 1074).
  { split; [lia|]. rewrite VL in Vt. set (P := 2 ^ 1074) in *. clearbody P. nia. }
  pose proof (f_add_rounds t D Ft FD) as Hrd. assert (NA : nn (f_add t D) = true) by (by apply nn_add).
  destruct (below_rounds _ _ NA Hrd BD) as (FA & _ & VA).
  pose proof (f_min_le_left (f_add t D) (f_of_Z L) NA FA ltac:(apply f_of_Z_pos; unfold int64_max; lia)) as Hmin.
  fold t' in Hmin. assert (2 ^ 100 <= 2 ^ 1074) by (apply Z.pow_le_mono_r; lia). rewrite VL in Vt.
  pose proof (refill_arith (2 ^ 1074) L d (f_val t) (f_val S) (f_val M) (f_val D) (f_val (f_add t D)) ltac:(lia) ltac:(lia) Hd
    ltac:(lia) ltac:(lia) Vs VM VD' VA) as H'. unfold refill_time, Second in *. lia.
Qed.

(** Time that passed reads as more than zero seconds. *)
Lemma Seconds_positive d : 0 < d <= int64_max -> f_ltb f_zero (Seconds d) = true.
Proof.
  intros Hd. destruct (second_quot d) as (Hr & He & Hq); [lia|]. unfold Seconds.
  destruct (frac_bounds (Z.rem d Second) Hr) as [Nf Lf]. destruct (leb_finite_val _ (f_of_Z 1) Nf eq_refl Lf) as [Ff _].
  set (q := Z.quot d Second) in *. set (r := Z.rem d Second) in *. set (fr := f_div (f_of_Z r) (f_of_Z Second)) in *.
  assert (Hq34 : 0 <= q <= 2 ^ 34) by (unfold int64_max, Second in *; lia). pose proof pow1074. pose proof (nn_pos_val fr Nf Ff) as Pf.
  assert (Hqv : f_finite (f_of_Z q) = true /\ f_val (f_of_Z q) = q * 2 ^ 1074).
  { destruct (Z.eq_dec q 0) as [->|]; [split; reflexivity|]. apply of_Z_nat. lia. }
  destruct Hqv as [Fq Vq]. assert (Hsum : 1 <= f_val (f_of_Z q) + f_val fr).
  { rewrite Vq. destruct (Z.eq_dec q 0) as [E|]; [|set (P := 2 ^ 1074) in *; clearbody P; nia].
    assert (0 < r) by (unfold Second in *; lia). destruct (of_Z_nat r) as [Fr Vr]; [unfold Second in *; lia|].
    destruct (of_Z_nat Second) as [Fs Vs]; [unfold Second; lia|].
    assert (f_leb f_tiny fr = true) as Ht.
    { apply f_div_ge; try assumption; try reflexivity; rewrite ?Vr, ?Vs; change (f_val f_tiny) with 1;
        assert (Second <= 2 ^ 1074) by (transitivity (2 ^ 100); [unfold Second; lia|apply Z.pow_le_mono_r; lia]);
        set (P := 2 ^ 1074) in *; clearbody P; unfold Second in *; nia. }
    apply (f_leb_val f_tiny fr eq_refl Ff) in Ht. change (f_val f_tiny) with 1 in Ht. lia. }
  pose proof (f_add_rounds _ _ Fq Ff) as Hrd. assert (Na : nn (f_add (f_of_Z q) fr) = true) by (apply nn_add; [apply nn_of_Z; lia|done]).
  pose proof (rounds_ge _ _ f_tiny Hrd eq_refl Hsum) as Hge. rewrite f_ltb_leb by (reflexivity || by apply nn_not_nan).
  apply negb_true_iff. clear -Hge Na. set (a := f_add (f_of_Z q) fr) in *. clearbody a.
  destruct a as [[]|[]| |[] m e]; try done.
Qed.

(** ** The budget over time *)

(** What a bucket is worth at a time: its tokens and what they refill to, up to the budget,
    in units of [2^-1074] tokens by the nanosecond share of a minute. A bucket not held is full. *)
Definition worth (L now : Z) (b : option tokenBucket) : Z :=
  let full := L * 2 ^ 1074 * refill_time in
  match b with
  | None => full
  | Some b => Z.min full (f_val (tb_tokens b) * refill_time + L * 2 ^ 1074 * Z.max 0 (now - tb_lastRefill b))
  end.

Definition refilled_by (now : Z) (r : rateLimiter) : Prop := forall k b, rl_buckets r !! k = Some b -> tb_lastRefill b <= now.

Lemma worth_full L now b : 0 < L -> worth L now b <= L * 2 ^ 1074 * refill_time.
Proof. intros H. unfold worth. destruct b; lia. Qed.

Lemma worth_later L now now' b : 0 < L -> now <= now' -> worth L now' b <= worth L now b + L * 2 ^ 1074 * (now' - now).
Proof.
  intros HL Hn. pose proof pow1074. unfold worth. set (P := 2 ^ 1074) in *. clearbody P. assert (HLP : 0 < L * P) by nia.
  set (Q := L * P) in *. clearbody Q. clear HL H.
  assert (H0 : 0 <= Q * (now' - now)) by (apply Z.mul_nonneg_nonneg; lia). destruct b as [b|]; [|lia].
  assert (Hm : Z.max 0 (now' - tb_lastRefill b) <= Z.max 0 (now - tb_lastRefill b) + (now' - now)) by lia.
  apply (Z.mul_le_mono_nonneg_l _ _ Q) in Hm; [|lia]. lia.
Qed.

(** A bucket that may be evicted is worth a full one. *)
Lemma worth_idle L now b : 0 < L -> nn (tb_tokens b) = true -> f_finite (tb_tokens b) = true -> idle now b = true ->
  worth L now (Some b) = worth L now None.
Proof.
  intros HL Hn Hf Hi. unfold idle in Hi. apply Z.ltb_lt in Hi. pose proof (nn_pos_val _ Hn Hf). pose proof pow1074.
  assert (refill_time <= now - tb_lastRefill b) by (unfold Sub, bucketIdleTTL, refill_time, Minute, Second, int64_min, int64_max in *; lia).
  unfold worth. set (P := 2 ^ 1074) in *. clearbody P. assert (0 < refill_time) by (unfold refill_time, Second; lia).
  apply Z.min_l. rewrite Z.max_r by lia. set (G := refill_time) in *. clearbody G.
  assert (L * P * G <= L * P * (now - tb_lastRefill b)) by nia. nia.
Qed.

Lemma bucket_finite L b : 0 < L <= max_rpm -> bucket_ok L b -> f_finite (tb_tokens b) = true /\ 0 <= f_val (tb_tokens b) <= L * 2 ^ 1074.
Proof.
  intros HL [Hn Hl]. destruct (of_Z_nat L) as [FL VL]; [unfold max_rpm in *; lia|].
  destruct (leb_finite_val _ _ Hn FL Hl) as [Hf Hv]. rewrite VL in Hv. split; [done|]. split; [by apply nn_pos_val|done].
Qed.

Lemma worth_sweep L now r k : 0 < L <= max_rpm -> (forall b, rl_buckets r !! k = Some b -> bucket_ok L b) ->
  worth L now (rl_buckets (sweep now r) !! k) = worth L now (rl_buckets r !! k).
Proof.
  intros HL Hok. unfold sweep. destruct (_ <? _); [done|]. cbn [rl_buckets with_buckets].
  destruct (rl_buckets r !! k) as [b|] eqn:E.
  - destruct (idle now b) eqn:Ei.
    + destruct (filter _ (rl_buckets r) !! k) as [b'|] eqn:E'.
      { apply map_lookup_filter_Some in E' as [E' Hi]. cbn in Hi. congruence. }
      symmetry. destruct (bucket_finite L b HL (Hok b eq_refl)) as [Hf _]. apply worth_idle; [lia|apply (Hok b eq_refl)|done|done].
    + replace (filter _ (rl_buckets r) !! k) with (Some b); [done|]. symmetry. by apply map_lookup_filter_Some.
  - replace (filter _ (rl_buckets r) !! k) with (@None tokenBucket); [done|]. symmetry.
    apply map_lookup_filter_None. by left.
Qed.

(** Refilling adds no worth but the rounding, and brings the bucket to the present. *)
Lemma refill_worth L now b : 0 < L <= max_rpm -> bucket_ok L b -> tb_lastRefill b <= now ->
  tb_lastRefill (refill L now b) = now /\
  f_val (tb_tokens (refill L now b)) * refill_time * 2 ^ 48 <= worth L now (Some b) * 2 ^ 48 + refill_time * L * 2 ^ 1074.
Proof.
  intros HL Hok Hlast. destruct (bucket_finite L b HL Hok) as [Hf Hv]. pose proof (refill_ok L now b HL Hok) as Hro.
  destruct (bucket_finite L _ HL Hro) as [Hf' Hv']. pose proof pow1074.
  assert (HG : 0 < refill_time) by (unfold refill_time, Second; lia).
  destruct (Z.eq_dec (tb_lastRefill b) now) as [E|Hne].
  - assert (Hr : refill L now b = b) by (unfold refill; rewrite E; replace (Sub now now) with 0 by (unfold Sub, int64_min, int64_max; lia); reflexivity).
    rewrite Hr in *. split; [done|]. unfold worth. rewrite E, Z.sub_diag.
    set (P := 2 ^ 1074) in *. clearbody P. set (G := refill_time) in *. clearbody G. set (v := f_val (tb_tokens b)) in *. clearbody v. clear -Hv HL HG. 
    assert (v * G <= L * P * G) by nia. nia.
  - assert (Hd : 0 < Sub now (tb_lastRefill b) <= int64_max) by (unfold Sub, int64_min, int64_max; lia).
    pose proof (Seconds_positive _ Hd) as Hp. unfold refill in *. rewrite Hp in *. cbn [tb_tokens tb_lastRefill] in *. split; [done|].
    destruct (Z.le_gt_cases (Sub now (tb_lastRefill b)) refill_time) as [Hle|Hgt].
    + assert (Es : Sub now (tb_lastRefill b) = now - tb_lastRefill b) by (unfold Sub, refill_time, Second, int64_min, int64_max in *; lia).
      destruct Hok as [Hn Hl]. pose proof (refill_above (tb_tokens b) _ L Hn Hl (conj (proj1 Hd) Hle) HL Hp) as Hab. cbv zeta in Hab.
      set (x := f_val (f_min _ _)) in *. clearbody x. rewrite Es in Hab. unfold worth. rewrite Z.max_r by lia.
      set (P := 2 ^ 1074) in *. clearbody P. set (v := f_val (tb_tokens b)) in *. clearbody v. set (dd := now - tb_lastRefill b) in *. clearbody dd.
      set (G := refill_time) in *. clearbody G. assert (x * G <= L * P * G) by nia. assert (0 <= G * L * P) by nia. lia.
    + assert (Hfull : refill_time <= now - tb_lastRefill b) by (unfold Sub, refill_time, Second, int64_min, int64_max in *; lia).
      set (x := f_val (f_min _ _)) in *. clearbody x. unfold worth. rewrite Z.max_r by lia.
      set (P := 2 ^ 1074) in *. clearbody P. set (v := f_val (tb_tokens b)) in *. clearbody v. set (dd := now - tb_lastRefill b) in *. clearbody dd.
      set (G := refill_time) in *. clearbody G. assert (x * G <= L * P * G) by nia. assert (L * P * G <= L * P * dd) by nia.
      assert (0 <= v * G) by nia. assert (0 <= G * L * P) by nia. rewrite Z.min_l by lia. lia.
Qed.

(** A granted request spends a whole token. *)
Lemma take_worth L b : 0 < L <= max_rpm -> bucket_ok L b ->
  let '(_, ok, b') := take_token b in
  tb_lastRefill b' = tb_lastRefill b /\
  (f_val (tb_tokens b') + (if ok then 2 ^ 1074 else 0)) * 2 ^ 52 <= f_val (tb_tokens b) * 2 ^ 52 + L * 2 ^ 1074.
Proof.
  intros HL Hok. destruct (bucket_finite L b HL Hok) as [Hf Hv]. pose proof pow1074. unfold take_token.
  destruct Hok as [Hn Hl]. rewrite f_ltb_leb by (reflexivity || by apply nn_not_nan).
  destruct (f_leb (f_of_Z 1) (tb_tokens b)) eqn:E; cbn [negb tb_tokens tb_lastRefill].
  - split; [done|]. apply (f_leb_val (f_of_Z 1) _ eq_refl Hf) in E. change (f_val (f_of_Z 1)) with (1 * 2 ^ 1074) in E.
    pose proof (f_sub_rounds _ (f_of_Z 1) Hf eq_refl) as Hr. change (f_val (f_of_Z 1)) with (1 * 2 ^ 1074) in Hr.
    assert (Hsub : nn (f_sub (tb_tokens b) (f_of_Z 1)) = true).
    { unfold nn. rewrite f_sub_valid; [|by destruct (tb_tokens b)|reflexivity]. cbn [andb].
      apply (rounds_ge _ _ f_zero Hr eq_refl). change (f_val f_zero) with 0. lia. }
    destruct (below_rounds _ _ Hsub Hr) as (_ & _ & Hb).
    { unfold max_rpm in HL. set (P := 2 ^ 1074) in *. clearbody P. nia. }
    set (x := f_val (f_sub _ _)) in *. clearbody x. set (P := 2 ^ 1074) in *. clearbody P. set (v := f_val (tb_tokens b)) in *. clearbody v. lia.
  - split; [done|]. set (P := 2 ^ 1074) in *. clearbody P. nia.
Qed.

(** One request draws what it is granted from the worth of its bucket, up to the rounding. *)
Lemma consume_worth L now key r : 0 < L <= max_rpm -> refilled_by now r ->
  (forall b, rl_buckets r !! key = Some b -> bucket_ok L b) ->
  let '(_, ok, r') := consume now L key r in
  refilled_by now r' /\
  worth L now (rl_buckets r' !! key) * 2 ^ 47 + (if ok then 2 ^ 1074 * refill_time else 0) * 2 ^ 47 <=
    worth L now (rl_buckets r !! key) * 2 ^ 47 + L * 2 ^ 1074 * refill_time.
Proof.
  intros HL Hr Hok. unfold consume. set (b := default (new_bucket L now) (rl_buckets r !! key)).
  assert (Hb : bucket_ok L b /\ tb_lastRefill b <= now /\ worth L now (Some b) <= worth L now (rl_buckets r !! key)).
  { unfold b. destruct (rl_buckets r !! key) as [b0|] eqn:E; cbn [default from_option id].
    - split_all; [by apply Hok|by eapply Hr|lia].
    - split_all; [by apply new_bucket_ok|done|]. apply (worth_full L now (Some _)). lia. }
  destruct Hb as (Hbok & Hlast & Hw). destruct (refill_worth L now b HL Hbok Hlast) as [Hnow Hre].
  pose proof (refill_ok L now b HL Hbok) as Hrok. pose proof (take_worth L _ HL Hrok) as Ht.
  destruct (take_token (refill L now b)) as [[rem ok] b']. destruct Ht as [Hl' Ht]. rewrite Hnow in Hl'. split.
  - intros k b0 H. cbn [rl_buckets with_buckets] in H. destruct (decide (k = key)) as [->|Hne].
    + rewrite lookup_insert_eq in H. injection H as <-. lia.
    + rewrite lookup_insert_ne in H by congruence. by eapply Hr.
  - cbn [rl_buckets with_buckets]. rewrite lookup_insert_eq.
    assert (Hw' : worth L now (Some b') <= f_val (tb_tokens b') * refill_time) by (unfold worth; rewrite Hl'; lia).
    assert (HG : 0 < refill_time) by (unfold refill_time, Second; lia). pose proof pow1074.
    set (W := worth L now (rl_buckets r !! key)) in *. set (W0 := worth L now (Some b)) in *. set (W' := worth L now (Some b')) in *.
    set (t1 := f_val (tb_tokens (refill L now b))) in *. set (t2 := f_val (tb_tokens b')) in *. set (P := 2 ^ 1074) in *.
    set (G := refill_time) in *. set (o := if ok then P else 0) in *.
    assert (Ho : (if ok then P * G else 0) = o * G) by (unfold o; destruct ok; lia). rewrite Ho.
    clearbody W W0 W' t1 t2 P G o. apply (Z.mul_le_mono_nonneg_r _ _ G) in Ht; [|lia].
    assert (0 <= L * P * G) by nia. replace (G * L * P) with (L * P * G) in Hre by ring. set (C := L * P * G) in *.
    replace ((t1 * 2 ^ 52 + L * P) * G) with (t1 * G * 2 ^ 52 + C) in Ht by (unfold C; ring). clearbody C. lia.
Qed.

(** ** Counting grants *)

Definition same_bucket (key : string) (write : bool) (q : request) : bool :=
  String.eqb (rq_key q) key && Bool.eqb (rq_write q) write.

(** How many requests of a client and class the limiter lets through, and how many ask. *)
Fixpoint granted (key : string) (write : bool) (r : rateLimiter) (qs : list request) : Z :=
  match qs with
  | [] => 0
  | q :: qs' =>
      let '(_, ok, r') := allow (rq_now q) (rq_key q) (rq_write q) r in
      (if ok && same_bucket key write q then 1 else 0) + granted key write r' qs'
  end.

Definition asked (key : string) (write : bool) (qs : list request) : Z :=
  Z.of_nat (length (List.filter (same_bucket key write) qs)).

(** A limiter as requests up to a time leave it. *)
Definition live (now : Z) (r : rateLimiter) : Prop := budgets_ok r /\ buckets_ok r /\ refilled_by now r.

Lemma new_live readRPM writeRPM now : readRPM <= max_rpm -> writeRPM <= max_rpm -> live now (newRateLimiter readRPM writeRPM).
Proof. intros H1 H2. split; [done|]. split; [intros k w b H|intros k b H]; cbn in H; by rewrite lookup_empty in H. Qed.

Lemma live_later now now' r : now <= now' -> live now r -> live now' r.
Proof. intros Hle (H1 & H2 & H3). split; [done|]. split; [done|]. intros k b Hk. specialize (H3 k b Hk). lia. Qed.

Lemma sweep_live now r : live now r -> live now (sweep now r).
Proof.
  intros (H1 & H2 & H3). destruct (sweep_budgets now r) as [E1 E2]. split; [|split; [by apply sweep_ok|]].
  - unfold budgets_ok. by rewrite E1, E2.
  - intros k b Hk. unfold sweep in Hk. destruct (_ <? _); [by eapply H3|]. apply map_lookup_filter_Some in Hk as [Hk _]. by eapply H3.
Qed.

Lemma limit_sweep now r write : limit_of (sweep now r) write = limit_of r write.
Proof. destruct (sweep_budgets now r) as [E1 E2]. by destruct write. Qed.

(** What one request does to a limiter whose class is under a budget. *)
Lemma live_consume q r : live (rq_now q) r -> 0 < limit_of r (rq_write q) ->
  let limit := limit_of r (rq_write q) in
  let key := class_key (rq_key q) (rq_write q) in
  let '(_, ok, r') := consume (rq_now q) limit key (sweep (rq_now q) r) in
  live (rq_now q) r' /\ (forall w, limit_of r' w = limit_of r w) /\
  (forall k, k <> key -> rl_buckets r' !! k = rl_buckets (sweep (rq_now q) r) !! k) /\
  worth limit (rq_now q) (rl_buckets r' !! key) * 2 ^ 47 + (if ok then 2 ^ 1074 * refill_time else 0) * 2 ^ 47 <=
    worth limit (rq_now q) (rl_buckets (sweep (rq_now q) r) !! key) * 2 ^ 47 + limit * 2 ^ 1074 * refill_time.
Proof.
  intros Hl Hon limit key. pose proof Hl as (Hb & _ & _). pose proof (sweep_live _ _ Hl) as (Hbs & Hks & Hrs).
  pose proof (consume_ok (rq_now q) (rq_key q) (rq_write q) (sweep (rq_now q) r) Hbs) as Hc. rewrite limit_sweep in Hc.
  specialize (Hc Hon Hks). fold limit in Hc, Hon. fold key in Hc.
  assert (Hlim : forall b, rl_buckets (sweep (rq_now q) r) !! key = Some b -> bucket_ok limit b).
  { intros b E. unfold limit. rewrite <- (limit_sweep (rq_now q)). apply (Hks _ _ _ E). by rewrite limit_sweep. }
  pose proof (consume_worth limit (rq_now q) key _ (conj Hon (limit_ok r _ Hb)) Hrs Hlim) as Hw.
  assert (Hother : forall k, k <> key -> rl_buckets (snd (consume (rq_now q) limit key (sweep (rq_now q) r))) !! k =
    rl_buckets (sweep (rq_now q) r) !! k).
  { intros k Hne. unfold consume. destruct (take_token _) as [[? ?] ?]. cbn. by rewrite lookup_insert_ne by congruence. }
  assert (Hbud : forall w, limit_of (snd (consume (rq_now q) limit key (sweep (rq_now q) r))) w = limit_of r w).
  { intros w. unfold consume. destruct (take_token _) as [[? ?] ?]. cbn [snd]. rewrite <- (limit_sweep (rq_now q) r w). by destruct w. }
  destruct (consume _ _ _ _) as [[rem ok] r']. cbn [snd] in *. destruct Hc as (Hc1 & Hc2 & _), Hw as [Hw1 Hw2].
  split; [by split|]. split; [exact Hbud|]. split; [exact Hother|exact Hw2].
Qed.

Lemma allow_live now q r : live now r -> now <= rq_now q ->
  let '(_, _, r') := allow (rq_now q) (rq_key q) (rq_write q) r in
  live (rq_now q) r' /\ forall w, limit_of r' w = limit_of r w.
Proof.
  intros Hl Hle. apply (live_later _ (rq_now q)) in Hl; [|done]. unfold allow.
  destruct (Z.leb_spec (limit_of r (rq_write q)) 0); [done|]. pose proof (live_consume q r Hl ltac:(done)) as Hc.
  cbv zeta in Hc. destruct (consume _ _ _ _) as [[? ?] ?]. destruct Hc as (? & ? & _). done.
Qed.

(** One request is paid by its own bucket and by no other. *)
Lemma allow_worth now q r key write : live now r -> now <= rq_now q -> 0 < limit_of r write ->
  let L := limit_of r write in
  let '(_, ok, r') := allow (rq_now q) (rq_key q) (rq_write q) r in
  worth L (rq_now q) (rl_buckets r' !! class_key key write) * 2 ^ 47 +
    (if ok && same_bucket key write q then 2 ^ 1074 * refill_time else 0) * 2 ^ 47 <=
  worth L (rq_now q) (rl_buckets r !! class_key key write) * 2 ^ 47 +
    (if same_bucket key write q then L * 2 ^ 1074 * refill_time else 0).
Proof.
  intros Hl Hle HL L. apply (live_later _ (rq_now q)) in Hl; [|done]. pose proof Hl as (Hb & Hk & _).
  pose proof (worth_sweep L (rq_now q) r (class_key key write) (conj HL (limit_ok r write Hb)) (fun b E => Hk key write b E HL)) as Hsw.
  unfold allow, same_bucket. destruct (Z.leb_spec (limit_of r (rq_write q)) 0) as [Hoff|Hon].
  { destruct (Bool.eqb_spec (rq_write q) write) as [E|]; [rewrite E in Hoff; lia|]. rewrite !andb_false_r. lia. }
  pose proof (live_consume q r Hl Hon) as Hc. cbv zeta in Hc.
  destruct (consume _ _ _ _) as [[rem ok] r']. destruct Hc as (_ & _ & Hother & Hw).
  destruct (String.eqb_spec (rq_key q) key) as [E1|Hne]; [destruct (Bool.eqb_spec (rq_write q) write) as [E2|Hne]|].
  - rewrite E1, E2 in Hw. fold L in Hw. rewrite Hsw in Hw. cbn [andb]. rewrite andb_true_r. exact Hw.
  - rewrite Hother, Hsw by (by intros [_ ?]%class_key_inj). cbn [andb]. rewrite andb_false_r. lia.
  - rewrite Hother, Hsw by (by intros [? _]%class_key_inj). cbn [andb]. rewrite andb_false_r. lia.
Qed.

(** Over requests in time order, the grants are paid by the worth at the start, the refill of
    the time, and the rounding of each request. *)
Lemma granted_worth qs : forall r now last key write, live now r -> now <= last ->
  StronglySorted (fun q1 q2 => rq_now q1 <= rq_now q2) qs -> Forall (fun q => now <= rq_now q <= last) qs -> 0 < limit_of r write ->
  let L := limit_of r write in
  granted key write r qs * (2 ^ 1074 * refill_time) * 2 ^ 47 <=
  (worth L now (rl_buckets r !! class_key key write) + L * 2 ^ 1074 * (last - now)) * 2 ^ 47 +
    asked key write qs * (L * 2 ^ 1074 * refill_time).
Proof.
  induction qs as [|q qs IH]; intros r now last key write Hl Hnl Hs Hf HL L; pose proof pow1074.
  - cbn [granted]. unfold asked. cbn [List.filter length Z.of_nat].
    assert (0 <= worth L now (rl_buckets r !! class_key key write)) as Hw.
    { unfold worth. assert (0 < refill_time) by (unfold refill_time, Second; lia). fold L in HL.
      destruct (rl_buckets r !! class_key key write) as [b|] eqn:E; [|set (P := 2 ^ 1074) in *; clearbody P; nia].
      destruct Hl as (Hb & Hk & _). destruct (bucket_finite L b (conj HL (limit_ok r write Hb)) (Hk _ _ _ E HL)) as [_ Hv].
      set (P := 2 ^ 1074) in *. clearbody P. assert (0 <= L * P) by nia. assert (0 <= L * P * refill_time) by nia. nia. }
    fold L in HL. set (P := 2 ^ 1074) in *. clearbody P. assert (0 <= L * P * (last - now)) by (apply Z.mul_nonneg_nonneg; nia). lia.
  - apply StronglySorted_inv in Hs as [Hs Hall]. apply Forall_cons in Hf as [[Hq1 Hq2] Hf].
    pose proof (allow_worth now q r key write Hl Hq1 HL) as Ha. cbv zeta in Ha. fold L in Ha, HL. cbn [granted].
    pose proof (allow_live now q r Hl Hq1) as Hlive.
    destruct (allow _ _ _ _) as [[rem ok] r']. destruct Hlive as [Hl' HL']. specialize (HL' write). fold L in HL'. cbv zeta in IH.
    assert (Hf' : Forall (fun q0 => rq_now q <= rq_now q0 <= last) qs).
    { rewrite Forall_forall in Hf, Hall |- *. intros x Hx. specialize (Hf x Hx). specialize (Hall x Hx). lia. }
    specialize (IH r' (rq_now q) last key write Hl' Hq2 Hs Hf'). rewrite HL' in IH. specialize (IH HL).
    pose proof (worth_later L now (rq_now q) (rl_buckets r !! class_key key write) HL Hq1) as Hlater.
    assert (Hasked : asked key write (q :: qs) = (if same_bucket key write q then 1 else 0) + asked key write qs).
    { unfold asked. cbn [List.filter]. destruct (same_bucket key write q); cbn [length]; lia. }
    rewrite Hasked. set (g := granted key write r' qs) in *. set (n := asked key write qs) in *.
    set (W := worth L (rq_now q) (rl_buckets r' !! class_key key write)) in *.
    set (V := worth L (rq_now q) (rl_buckets r !! class_key key write)) in *.
    set (U := worth L now (rl_buckets r !! class_key key write)) in *.
    set (C := L * 2 ^ 1074 * refill_time) in *. set (T := 2 ^ 1074 * refill_time) in *.
    replace (L * 2 ^ 1074 * (last - rq_now q)) with (L * 2 ^ 1074 * last - L * 2 ^ 1074 * rq_now q) in IH by ring.
    replace (L * 2 ^ 1074 * (rq_now q - now)) with (L * 2 ^ 1074 * rq_now q - L * 2 ^ 1074 * now) in Hlater by ring.
    replace (L * 2 ^ 1074 * (last - now)) with (L * 2 ^ 1074 * last - L * 2 ^ 1074 * now) by ring.
    set (x := L * 2 ^ 1074 * last) in *. set (y := L * 2 ^ 1074 * rq_now q) in *. set (z := L * 2 ^ 1074 * now) in *.
    clearbody g n W V U C T x y z. clear -IH Hlater Ha.
    destruct ok, (same_bucket key write q); cbn [andb] in *; lia.
Qed.

Lemma after_live qs : forall r now last, live now r -> now <= last -> StronglySorted (fun q1 q2 => rq_now q1 <= rq_now q2) qs ->
  Forall (fun q => now <= rq_now q <= last) qs ->
  live last (after r qs) /\ forall w, limit_of (after r qs) w = limit_of r w.
Proof.
  induction qs as [|q qs IH]; intros r now last Hl Hnl Hs Hf; cbn [after]; [split; [by eapply live_later|done]|].
  apply StronglySorted_inv in Hs as [Hs Hall]. apply Forall_cons in Hf as [[Hq1 Hq2] Hf].
  assert (Hf' : Forall (fun q0 => rq_now q <= rq_now q0 <= last) qs).
  { rewrite Forall_forall in Hf, Hall |- *. intros x Hx. specialize (Hf x Hx). specialize (Hall x Hx). lia. }
  pose proof (allow_live now q r Hl Hq1) as Hstep.
  destruct (allow _ _ _ _) as [[? ?] r']. destruct Hstep as [Hl' Hlim].
  destruct (IH r' (rq_now q) last Hl' Hq2 Hs Hf') as [H1 H2]. split; [done|]. intros w. by rewrite H2.
Qed.

Lemma after_new_live readRPM writeRPM pre last : readRPM <= max_rpm -> writeRPM <= max_rpm ->
  StronglySorted (fun q1 q2 => rq_now q1 <= rq_now q2) pre -> Forall (fun q => rq_now q <= last) pre ->
  live last (after (newRateLimiter readRPM writeRPM) pre) /\
  forall w, limit_of (after (newRateLimiter readRPM writeRPM) pre) w = limit_of (newRateLimiter readRPM writeRPM) w.
Proof.
  intros H1 H2 Hs Hf. destruct pre as [|q pre'] eqn:E; [split; [by apply new_live|done]|]. rewrite <- E in *.
  assert (Hq : rq_now q <= last) by (rewrite E in Hf; by apply Forall_cons in Hf as [? _]).
  apply (after_live pre _ (rq_now q)); [by apply new_live|done|done|]. rewrite E in Hs, Hf |- *.
  apply StronglySorted_inv in Hs as [_ Hall]. apply Forall_cons in Hf as [_ Hf]. constructor; [lia|].
  rewrite Forall_forall in Hf, Hall |- *. intros x Hx. specialize (Hf x Hx). specialize (Hall x Hx). lia.
Qed.

(** ** Properties *)

Module Limiter.

(** C33: the limiter holds every client to its budget. Of a new limiter's requests in time
    order, those let through for one client and class between two times are at most one whole
    budget (the burst) and the budget's share of the time between them, a budget a minute, give
    or take the rounding of the floats, which is at most one part in [2^47] of the budget for
    each request. What came before, other clients and the eviction of idle buckets make no
    difference. And a request is let through exactly when its refilled bucket holds a token. *)
Theorem grants_within_budget (readRPM writeRPM : Z) (pre win : list request) (first last : Z) (key : string) (write : bool) :
  let r := after (newRateLimiter readRPM writeRPM) pre in
  let budget := if write then writeRPM else readRPM in
  readRPM <= max_rpm -> writeRPM <= max_rpm -> 0 < budget ->
  StronglySorted (fun q1 q2 => rq_now q1 <= rq_now q2) pre -> Forall (fun q => rq_now q <= first) pre ->
  StronglySorted (fun q1 q2 => rq_now q1 <= rq_now q2) win -> Forall (fun q => first <= rq_now q <= last) win -> first <= last ->
  granted key write r win * Minute * 2 ^ 47 <=
    (budget * Minute + budget * (last - first)) * 2 ^ 47 + asked key write win * (budget * Minute) /\
  forall now : Z, let '(_, ok, _) := allow now key write r in
    ok = true <-> f_leb (f_of_Z 1) (tb_tokens (refill budget now
      (default (new_bucket budget now) (rl_buckets (sweep now r) !! class_key key write)))) = true.
Proof.
  intros r budget H1 H2 HL Hs1 Hf1 Hs2 Hf2 Hle. change Minute with refill_time.
  destruct (after_new_live readRPM writeRPM pre first H1 H2 Hs1 Hf1) as [Hl Hlim]. fold r in Hl, Hlim.
  assert (HLr : limit_of r write = budget) by (rewrite Hlim; by destruct write). split.
  - pose proof (granted_worth win r first last key write Hl Hle Hs2 Hf2 ltac:(by rewrite HLr)) as H. cbv zeta in H. rewrite HLr in H.
    pose proof (worth_full budget first (rl_buckets r !! class_key key write) HL) as Hw. pose proof pow1074.
    set (g := granted key write r win) in *. set (n := asked key write win) in *. set (G := refill_time) in *.
    set (P := 2 ^ 1074) in *. set (W := worth _ _ _) in *. clearbody g n G P W. clear -H Hw H0.
    apply (Z.mul_le_mono_pos_l _ _ P); [done|]. replace (P * (g * G * 2 ^ 47)) with (g * (P * G) * 2 ^ 47) by ring.
    replace (P * ((budget * G + budget * (last - first)) * 2 ^ 47 + n * (budget * G))) with
      ((budget * P * G + budget * P * (last - first)) * 2 ^ 47 + n * (budget * P * G)) by ring. lia.
  - intros now. unfold allow. rewrite HLr. destruct (Z.leb_spec budget 0); [lia|]. destruct Hl as (Hb & Hk & _).
    destruct (sweep_budgets now r) as [E1 E2].
    pose proof (consume_ok now key write (sweep now r)) as Hc. rewrite limit_sweep, HLr in Hc.
    destruct (consume _ _ _ _) as [[rem ok] r']. destruct Hc as (_ & _ & Hc & _); [|done|by apply sweep_ok|exact Hc].
    unfold budgets_ok. by rewrite E1, E2.
Qed.

(** Two of a budget of two at once and a third half a minute later; a fourth is refused. *)
Lemma grants_within_budget_witness :
  let at_ t := {| rq_now := t; rq_key := "a"; rq_write := false |} in
  let win := [at_ Minute; at_ Minute; at_ (90 * Second); at_ (90 * Second)] in
  granted "a" false (newRateLimiter 2 1) win = 3 /\ 3 * Minute * 2 ^ 47 <= (2 * Minute + 2 * (30 * Second)) * 2 ^ 47 + 4 * (2 * Minute).
Proof.
  intros at_ win. split; [vm_compute; reflexivity|].
  apply (fun H1 H2 H3 H4 H5 H6 H7 H8 => proj1 (grants_within_budget 2 1 [] win Minute (90 * Second) "a" false H1 H2 H3 H4 H5 H6 H7 H8)).
  - vm_compute. discriminate.
  - vm_compute. discriminate.
  - reflexivity.
  - constructor.
  - constructor.
  - repeat constructor; vm_compute; discriminate.
  - repeat constructor; vm_compute; discriminate.
  - vm_compute. discriminate.
Defined.

(** C32: eviction is invisible: on requests in time order the limiter that sweeps idle
    buckets answers each one, tokens and verdict, exactly as one that never forgets. *)
Theorem eviction_harmless r qs : budgets_ok r -> buckets_ok r ->
  StronglySorted (fun q1 q2 => rq_now q1 <= rq_now q2) qs ->
  answers sweep r qs = answers (fun _ r => r) r qs.
Proof.
  intros Hb Hr Hs. destruct qs as [|q0 qs0] eqn:Eq; [done|]. rewrite <- Eq in *.
  assert (forall s u now, simulates now s u -> budgets_ok u -> buckets_ok u -> Forall (fun q => now <= rq_now q) qs ->
    answers sweep s qs = answers (fun _ r => r) u qs) as H.
  { clear -Hs. induction qs as [|q qs IH]; intros s u now Hsim Hb Hr Hf; [done|]. cbn [answers]. unfold serve_with.
    apply Forall_cons in Hf as [Hq Hf]. apply StronglySorted_inv in Hs as [Hs Hall].
    assert (limit_of s (rq_write q) = limit_of u (rq_write q)) as El by (destruct Hsim; by destruct (rq_write q)).
    rewrite El. destruct (Z.leb_spec (limit_of u (rq_write q)) 0) as [|Hpos].
    - f_equal. by apply (IH Hs _ _ now).
    - pose proof (simulates_sweep _ _ _ _ Hq Hsim) as Hsim'.
      pose proof (simulates_consume (rq_now q) (limit_of u (rq_write q)) (class_key (rq_key q) (rq_write q)) _ _
        (conj Hpos (limit_ok u _ Hb)) Hsim' (fun b Hk => Hr _ _ b Hk Hpos)) as Hc.
      pose proof (consume_ok (rq_now q) (rq_key q) (rq_write q) u Hb Hpos Hr) as Hok.
      destruct (consume _ _ _ (sweep _ s)) as [[m1 o1] s']. destruct (consume _ _ _ u) as [[m2 o2] u'].
      destruct Hc as (-> & -> & Hsim''), Hok as (Hr' & Hb' & _). f_equal.
      by apply (IH Hs _ _ (rq_now q)). }
  apply (H r r (rq_now q0)); try done.
  - split; try done. intros k b Hu Hs'. congruence.
  - rewrite Eq. constructor; [lia|]. rewrite Eq in Hs. by apply StronglySorted_inv in Hs as [_ ?].
Qed.

Lemma eviction_harmless_witness :
  let qs := [{| rq_now := Minute; rq_key := "a"; rq_write := false |}; {| rq_now := 20 * Minute; rq_key := "a"; rq_write := false |}] in
  answers sweep (newRateLimiter 2 1) qs = answers (fun _ r => r) (newRateLimiter 2 1) qs.
Proof.
  apply eviction_harmless.
  - split; vm_compute; discriminate.
  - intros k w b H. vm_compute in H. discriminate H.
  - repeat constructor; vm_compute; discriminate.
Defined.

End Limiter.
