(* ===== verification/Keys.v ===== *)
(** * API keys: internal/store/apikeys.go and internal/server/admin_keys_handler.go

    The table of keys as the list of its rows, every SQL statement as its effect on the
    rows, and the handlers that mint, list and revoke keys. A timestamp column holds whole
    seconds: its text is RFC 3339. Randomness, [time.ParseDuration] and the failures of the
    driver are inputs. *)

From Stdlib Require Import ZArith Lia String Ascii Sorting.Sorted.
From stdpp Require Import base gmap strings list sets.
From S2P Require Import Prelude Maps GoTime Text Strs Fingerprint Seal.

Local Open Scope Z_scope.

Record APIKeyRecord := {
  ak_ID : string;
  ak_TokenHash : string;
  ak_Name : string;
  ak_Role : string;
  ak_ClusterScope : list string;
  ak_CreatedAt : Z;
  ak_ExpiresAt : Z;
  ak_LastUsedAt : Z;
  ak_RevokedAt : Z;
  ak_CreatedBy : string
}.

Definition RoleAdmin : string := "admin".
Definition RoleOperator : string := "operator".
Definition RoleViewer : string := "viewer".
Definition ScopeWildcard : string := "*".

Definition ValidRole (r : string) : bool := String.eqb r RoleAdmin || String.eqb r RoleOperator || String.eqb r RoleViewer.

Definition HashToken (raw : string) : string := hex_encode (sha256 (to_bytes raw)).

(** [buf] is what the random source gave, or its error. *)
Definition GenerateToken (buf : list Z + string) : string + string :=
  match buf with
  | inl buf => inl ("fsk_" ++ hex_encode buf)%string
  | inr err => inr ("generate token: " ++ err)%string
  end.

(** [subtle.ConstantTimeCompare]: 1 exactly for equal contents. *)
Definition TokensEqual (a b : string) : bool := String.eqb a b.

(** The package's sentinel errors, with their details. *)
Inductive store_error :=
| ErrInvalid (what : string)
| ErrDuplicate (what : string)
| ErrNotFound (what : string)
| ErrStore (what : string)
| ErrQuery (what : string).

(** ** The table *)

(** A time after [Format(time.RFC3339)] and [time.Parse]. *)
Definition stored_time (t : Z) : Z := t - t mod Second.

Abbreviation KeyTable := (list APIKeyRecord).

Definition key_row (r : APIKeyRecord) : APIKeyRecord := {|
  ak_ID := ak_ID r; ak_TokenHash := ak_TokenHash r; ak_Name := ak_Name r; ak_Role := ak_Role r;
  ak_ClusterScope := ak_ClusterScope r; ak_CreatedAt := stored_time (ak_CreatedAt r);
  ak_ExpiresAt := stored_time (ak_ExpiresAt r); ak_LastUsedAt := stored_time (ak_LastUsedAt r);
  ak_RevokedAt := stored_time (ak_RevokedAt r); ak_CreatedBy := ak_CreatedBy r |}.

(** The defaults the insert fills in. *)
Definition with_defaults (now : Z) (r : APIKeyRecord) : APIKeyRecord := {|
  ak_ID := ak_ID r; ak_TokenHash := ak_TokenHash r; ak_Name := ak_Name r; ak_Role := ak_Role r;
  ak_ClusterScope := match ak_ClusterScope r with [] => [ScopeWildcard] | scope => scope end;
  ak_CreatedAt := if IsZero (ak_CreatedAt r) then now else ak_CreatedAt r;
  ak_ExpiresAt := ak_ExpiresAt r; ak_LastUsedAt := ak_LastUsedAt r; ak_RevokedAt := ak_RevokedAt r;
  ak_CreatedBy := ak_CreatedBy r |}.

Definition has_id (id : string) (r : APIKeyRecord) : bool := String.eqb (ak_ID r) id.
Definition has_hash (hash : string) (r : APIKeyRecord) : bool := String.eqb (ak_TokenHash r) hash.

(** [fails] is an error of the driver other than a broken uniqueness constraint; the
    statement then has no effect. Both the id and the hash are unique columns. *)
Definition SaveAPIKey (fails : option string) (now : Z) (rec : APIKeyRecord) (rows : KeyTable) :
  KeyTable * option store_error :=
  if String.eqb (ak_ID rec) "" || String.eqb (ak_TokenHash rec) "" then
    (rows, Some (ErrInvalid "api key: id and token hash required"))
  else if negb (ValidRole (ak_Role rec)) then (rows, Some (ErrInvalid ("api key: role " ++ ak_Role rec)%string))
  else
    let rec := with_defaults now rec in
    match fails with
    | Some err => (rows, Some (ErrStore ("save api key: " ++ err)%string))
    | None =>
        if existsb (has_id (ak_ID rec)) rows || existsb (has_hash (ak_TokenHash rec)) rows
        then (rows, Some (ErrDuplicate ("api key " ++ ak_ID rec)%string))
        else (rows ++ [key_row rec], None)
    end.

Definition GetAPIKeyByHash (fails : option string) (hash : string) (rows : KeyTable) : APIKeyRecord + store_error :=
  match fails with
  | Some err => inr (ErrQuery ("get api key: " ++ err)%string)
  | None => match List.find (has_hash hash) rows with
            | Some rec => inl rec
            | None => inr (ErrNotFound "api key")
            end
  end.

Definition GetAPIKey (fails : option string) (id : string) (rows : KeyTable) : APIKeyRecord + store_error :=
  match fails with
  | Some err => inr (ErrQuery ("get api key: " ++ err)%string)
  | None => match List.find (has_id id) rows with
            | Some rec => inl rec
            | None => inr (ErrNotFound ("api key " ++ id)%string)
            end
  end.

Definition created_cmp : APIKeyRecord -> APIKeyRecord -> comparison := cmp_rev (cmp_on ak_CreatedAt Z.compare).

#[export] Instance created_cmp_order : CmpOrder created_cmp.
Proof. unfold created_cmp. exact _. Qed.

(** The database may return rows created in one second in any order. *)
Definition ListAPIKeys (fails : option string) (arrange : KeyTable -> KeyTable) (rows : KeyTable) : KeyTable + store_error :=
  match fails with
  | Some err => inr (ErrQuery ("list api keys: " ++ err)%string)
  | None => inl (isort (less_of created_cmp) (arrange rows))
  end.

Definition with_revoked (at_ : Z) (r : APIKeyRecord) : APIKeyRecord := {|
  ak_ID := ak_ID r; ak_TokenHash := ak_TokenHash r; ak_Name := ak_Name r; ak_Role := ak_Role r;
  ak_ClusterScope := ak_ClusterScope r; ak_CreatedAt := ak_CreatedAt r; ak_ExpiresAt := ak_ExpiresAt r;
  ak_LastUsedAt := ak_LastUsedAt r; ak_RevokedAt := at_; ak_CreatedBy := ak_CreatedBy r |}.

Definition with_used (at_ : Z) (r : APIKeyRecord) : APIKeyRecord := {|
  ak_ID := ak_ID r; ak_TokenHash := ak_TokenHash r; ak_Name := ak_Name r; ak_Role := ak_Role r;
  ak_ClusterScope := ak_ClusterScope r; ak_CreatedAt := ak_CreatedAt r; ak_ExpiresAt := ak_ExpiresAt r;
  ak_LastUsedAt := at_; ak_RevokedAt := ak_RevokedAt r; ak_CreatedBy := ak_CreatedBy r |}.

(** [WHERE id = ? AND revoked_at IS NULL]. *)
Definition revocable (id : string) (r : APIKeyRecord) : bool := has_id id r && IsZero (ak_RevokedAt r).

Definition RevokeAPIKey (fails : option string) (now : Z) (id : string) (rows : KeyTable) : KeyTable * option store_error :=
  match fails with
  | Some err => (rows, Some (ErrStore ("revoke api key: " ++ err)%string))
  | None =>
      let rows' := map (fun r => if revocable id r then with_revoked (stored_time now) r else r) rows in
      (rows', if (length (List.filter (revocable id) rows) =? 0)%nat then Some (ErrNotFound ("api key " ++ id)%string) else None)
  end.

Definition TouchAPIKey (fails : option string) (id : string) (at_ : Z) (rows : KeyTable) : KeyTable * option store_error :=
  match fails with
  | Some err => (rows, Some (ErrStore ("touch api key: " ++ err)%string))
  | None => (map (fun r => if has_id id r then with_used (stored_time at_) r else r) rows, None)
  end.

(** ** The handlers of /api/admin/keys *)

Record createAPIKeyRequest := { cr_Name : string; cr_Role : string; cr_ClusterScope : list string; cr_TTL : string }.

Definition normalizeScope (in_ : list string) : list string :=
  match in_ with
  | [] => [ScopeWildcard]
  | _ => match dedup ∅ (List.filter (fun e => negb (String.eqb e "")) in_) with
         | [] => [ScopeWildcard]
         | out => out
         end
  end.

(** A response: its status, and the error message of one that is refused. *)
Inductive reply (A : Type) := Ok (status : Z) (body : A) | Err (status : Z) (message : string).
Arguments Ok {A} status body.
Arguments Err {A} status message.

(** [body] is [None] where decoding already answered. [newID] is the fresh identifier. *)
Definition handleAdminCreateKey (ParseDuration : string -> option Z) (fails : option string) (buf : list Z + string)
  (newID : string) (now : Z) (actor : string) (body : createAPIKeyRequest + string) (rows : KeyTable) :
  KeyTable * reply (APIKeyRecord * string) :=
  match body with
  | inr err => (rows, Err 400 err)
  | inl req =>
      if String.eqb (cr_Name req) "" then (rows, Err 400 "name is required")
      else if negb (ValidRole (cr_Role req)) then (rows, Err 400 "role must be admin, operator, or viewer")
      else match GenerateToken buf with
      | inr _ => (rows, Err 500 "generate token failed")
      | inl raw =>
          match (if String.eqb (cr_TTL req) "" then Some 0 else (Z.add now) <$> ParseDuration (cr_TTL req)) with
          | None => (rows, Err 400 "ttl must be a Go duration (for example 720h)")
          | Some expires =>
              let rec := {| ak_ID := newID; ak_TokenHash := HashToken raw; ak_Name := cr_Name req; ak_Role := cr_Role req;
                ak_ClusterScope := normalizeScope (cr_ClusterScope req); ak_CreatedAt := now; ak_ExpiresAt := expires;
                ak_LastUsedAt := 0; ak_RevokedAt := 0; ak_CreatedBy := actor |} in
              match SaveAPIKey fails now rec rows with
              | (rows, Some _) => (rows, Err 500 "save key failed")
              | (rows, None) => (rows, Ok 201 (rec, raw))
              end
          end
      end
  end.

Definition without_hash (r : APIKeyRecord) : APIKeyRecord := {|
  ak_ID := ak_ID r; ak_TokenHash := ""; ak_Name := ak_Name r; ak_Role := ak_Role r;
  ak_ClusterScope := ak_ClusterScope r; ak_CreatedAt := ak_CreatedAt r; ak_ExpiresAt := ak_ExpiresAt r;
  ak_LastUsedAt := ak_LastUsedAt r; ak_RevokedAt := ak_RevokedAt r; ak_CreatedBy := ak_CreatedBy r |}.

Definition handleAdminListKeys (fails : option string) (arrange : KeyTable -> KeyTable) (rows : KeyTable) : reply KeyTable :=
  match ListAPIKeys fails arrange rows with
  | inr _ => Err 500 "list keys failed"
  | inl keys => Ok 200 (map without_hash keys)
  end.

(** The reply, and the key of the [key.revoked] event if one is published. *)
Definition handleAdminRevokeKey (fails : option string) (now : Z) (id : string) (rows : KeyTable) :
  KeyTable * reply unit * option string :=
  if String.eqb id "" then (rows, Err 400 "key id required", None)
  else match RevokeAPIKey fails now id rows with
  | (rows, Some (ErrNotFound _)) => (rows, Err 404 "key not found", None)
  | (rows, Some _) => (rows, Err 500 "revoke key failed", None)
  | (rows, None) => (rows, Ok 204 tt, Some id)
  end.

(** ** Lemmas *)

Lemma stored_time_zero t : 0 <= t -> stored_time t = 0 <-> t < Second.
Proof.
  intros Ht. unfold stored_time. pose proof (Z.div_mod t Second ltac:(done)) as E.
  pose proof (Z.mod_pos_bound t Second ltac:(done)) as B. split; intros H.
  - destruct (Z.lt_ge_cases t Second); [done|]. lia.
  - rewrite Z.mod_small by lia. lia.
Qed.

(** One operation on the table; a driver error or a refused insert leaves it as it was. *)
Inductive key_step (rows : KeyTable) : KeyTable -> Prop :=
| step_save fails now rec : key_step rows (fst (SaveAPIKey fails now rec rows))
| step_revoke fails now id : Second <= now -> key_step rows (fst (RevokeAPIKey fails now id rows))
| step_touch fails id at_ : key_step rows (fst (TouchAPIKey fails id at_ rows)).

(** The unique columns of the schema. *)
Definition keys_unique (rows : KeyTable) : Prop := NoDup (map ak_ID rows) /\ NoDup (map ak_TokenHash rows).

Lemma map_kept {A} (f : A -> string) (g : A -> A) l : (forall r, f (g r) = f r) -> map f (map g l) = map f l.
Proof. intros H. induction l as [|x l IH]; [done|]. simpl. by rewrite H, IH. Qed.

Lemma existsb_absent (f : APIKeyRecord -> string) (rows : KeyTable) (v : string) :
  existsb (fun r => String.eqb (f r) v) rows = false -> v ∉ map f rows.
Proof.
  intros H (r & -> & Hr)%list_elem_of_fmap. rewrite <- not_true_iff_false in H. apply H. apply existsb_exists.
  exists r. split; [by apply list_elem_of_In | apply String.eqb_refl].
Qed.

Lemma key_step_unique rows rows' : key_step rows rows' -> keys_unique rows -> keys_unique rows'.
Proof.
  intros [fails now rec | fails now id _ | fails id at_] [Hi Hh].
  - unfold SaveAPIKey. destruct (_ || _); [done|]. destruct (negb _); [done|]. destruct fails; [done|].
    destruct (_ || _) eqn:E; [done|]. apply orb_false_iff in E as [Ei Eh].
    apply existsb_absent in Ei, Eh. unfold keys_unique. simpl. rewrite !map_app. split; apply NoDup_app; split_and!;
      try done; try apply NoDup_singleton; intros x Hx ->%list_elem_of_singleton; [by apply Ei | by apply Eh].
  - destruct fails; [done|]. unfold keys_unique. simpl. rewrite !map_kept; [done|..]; intros r; by destruct (revocable id r).
  - destruct fails; [done|]. unfold keys_unique. simpl. rewrite !map_kept; [done|..]; intros r; by destruct (has_id id r).
Qed.

(** A revoked key stays revoked. *)
Definition revoked_in (hash : string) (rows : KeyTable) : Prop :=
  exists r, r ∈ rows /\ ak_TokenHash r = hash /\ IsZero (ak_RevokedAt r) = false.

Lemma key_step_revoked hash rows rows' : key_step rows rows' -> revoked_in hash rows -> revoked_in hash rows'.
Proof.
  intros Hstep (r & Hr & Hh & Hz). destruct Hstep as [fails now rec | fails now id Hnow | fails id at_].
  - exists r. split_and!; [|done|done]. unfold SaveAPIKey. repeat case_match; simpl; set_solver.
  - destruct fails; [by exists r|]. exists r. split_and!; [|done|done]. simpl. apply list_elem_of_fmap. exists r. split; [|done].
    unfold revocable. by rewrite Hz, andb_false_r.
  - destruct fails; [by exists r|]. exists (if has_id id r then with_used (stored_time at_) r else r).
    split_and!; [simpl; apply list_elem_of_fmap; by exists r | by destruct (has_id id r)..].
Qed.

(** Revoking a key that is there and not revoked revokes it. *)
Lemma revoke_revokes now id rows r : Second <= now -> r ∈ rows -> ak_ID r = id -> IsZero (ak_RevokedAt r) = true ->
  snd (RevokeAPIKey None now id rows) = None /\ revoked_in (ak_TokenHash r) (fst (RevokeAPIKey None now id rows)).
Proof.
  intros Hnow Hr Hid Hz. assert (Hrev : revocable id r = true) by (unfold revocable, has_id; by rewrite Hid, String.eqb_refl).
  split; simpl.
  - destruct (Nat.eqb_spec (length (List.filter (revocable id) rows)) 0) as [E|]; [|done].
    apply length_zero_iff_nil in E. assert (H : In r (List.filter (revocable id) rows)) by (apply filter_In; split; [by apply list_elem_of_In|done]).
    by rewrite E in H.
  - exists (with_revoked (stored_time now) r). split_and!; [|done|].
    + apply list_elem_of_fmap. exists r. by rewrite Hrev.
    + simpl. unfold IsZero. apply Z.eqb_neq. assert (0 < Second) by done. rewrite stored_time_zero by lia. lia.
Qed.

(** Revoking a key twice is answered as if the key did not exist. *)
Lemma revoke_twice now later id rows : let rows' := fst (RevokeAPIKey None now id rows) in
  Second <= now -> handleAdminRevokeKey None later id rows' = (rows', Err (if String.eqb id "" then 400 else 404)
    (if String.eqb id "" then "key id required" else "key not found"), None).
Proof.
  intros rows' Hnow. unfold handleAdminRevokeKey. destruct (String.eqb id ""); [done|].
  assert (Hnone : forall r, r ∈ rows' -> revocable id r = false).
  { intros r' (r & -> & Hr)%list_elem_of_fmap. destruct (revocable id r) eqn:E; [|done]. unfold revocable. simpl.
    unfold IsZero. rewrite (proj2 (Z.eqb_neq _ _)); [apply andb_false_r|]. assert (0 < Second) by done.
    rewrite stored_time_zero by lia. lia. }
  unfold RevokeAPIKey. assert (List.filter (revocable id) rows' = []) as ->.
  { destruct (List.filter (revocable id) rows') as [|r l] eqn:E; [done|].
    assert (Hr : In r (List.filter (revocable id) rows')) by (rewrite E; by left).
    apply filter_In in Hr as [Hr%list_elem_of_In Hv]. by rewrite Hnone in Hv. }
  simpl. f_equal. f_equal. rewrite <- (map_id rows') at 2. apply map_ext_in. intros r Hr. by rewrite Hnone by (by apply list_elem_of_In).
Qed.

(** What a successful creation leaves in the table. *)
Lemma create_spec ParseDuration fails buf newID now actor body rows rows' rec raw status :
  handleAdminCreateKey ParseDuration fails buf newID now actor body rows = (rows', Ok status (rec, raw)) ->
  status = 201 /\ rows' = rows ++ [key_row (with_defaults now rec)] /\ ak_TokenHash rec = HashToken raw /\
  (forall r, r ∈ rows -> ak_TokenHash r <> HashToken raw /\ ak_ID r <> ak_ID rec) /\ ak_RevokedAt rec = 0 /\
  ValidRole (ak_Role rec) = true /\ ak_ClusterScope rec <> [].
Proof.
  unfold handleAdminCreateKey. destruct body as [req|]; [|done]. destruct (String.eqb (cr_Name req) ""); [done|].
  destruct (ValidRole (cr_Role req)) eqn:Hrole; [|done]. destruct (GenerateToken buf) as [raw'|]; [|done]. simpl.
  destruct (if String.eqb (cr_TTL req) "" then _ else _) as [expires|]; [|done].
  set (rec' := {| ak_ID := newID |}). unfold SaveAPIKey. destruct (_ || _) eqn:Eid; [done|].
  change (ak_Role rec') with (cr_Role req). rewrite Hrole. simpl. destruct fails; [done|].
  destruct (existsb _ rows || existsb _ rows) eqn:E; [done|]. intros [= <- <- <- <-].
  apply orb_false_iff in E as [Ei Eh]. split_and!; try done.
  - intros r Hr. split; intros H.
    + apply (existsb_absent ak_TokenHash) in Eh. apply Eh, list_elem_of_fmap. by exists r.
    + apply (existsb_absent ak_ID) in Ei. apply Ei, list_elem_of_fmap. by exists r.
  - simpl. unfold normalizeScope. repeat case_match; done.
Qed.

Lemma create_fields ParseDuration fails buf newID now actor req rows rows' rec raw status :
  handleAdminCreateKey ParseDuration fails buf newID now actor (inl req) rows = (rows', Ok status (rec, raw)) ->
  ak_Name rec = cr_Name req /\ ak_Role rec = cr_Role req /\ ak_ClusterScope rec = normalizeScope (cr_ClusterScope req) /\
  raw <> ""%string.
Proof.
  unfold handleAdminCreateKey. destruct (String.eqb (cr_Name req) ""); [done|]. destruct (negb _); [done|].
  destruct (GenerateToken buf) as [raw'|] eqn:Eg; [|done]. destruct (if String.eqb (cr_TTL req) "" then _ else _); [|done].
  destruct (SaveAPIKey _ _ _ _) as [rows1 [err|]]; [done|]. intros [= <- <- <- <-]. split_and!; [done|done|done|].
  unfold GenerateToken in Eg. destruct buf; [|done]. by injection Eg as <-.
Qed.
