(* ===== verification/Auth.v ===== *)
(** * Authentication: internal/server/auth.go, oidc.go and audit_middleware.go

    Who performs a request: the bootstrap token, an API key, a signed session, or nobody;
    what the middleware lets through; and what is written to the audit log. The identity
    provider and JSON are parameters. *)

From Stdlib Require Import ZArith Lia String Ascii Sorting.Sorted.
From stdpp Require Import base gmap strings list sets.
From S2P Require Import Prelude Maps GoTime Text Strs Data Fingerprint Seal Keys.

Local Open Scope Z_scope.

(** ** Actors *)

Record Actor := { at_ID : string; at_Name : string; at_Role : string; at_ClusterScope : list string }.

Definition contains (l : list string) (s : string) : bool := existsb (String.eqb s) l.

Definition HasWildcardScope (a : Actor) : bool := contains (at_ClusterScope a) ScopeWildcard.

Definition CanManageGroups (a : Actor) : bool := String.eqb (at_Role a) RoleAdmin.

Definition entry_allows (groupLookup : option (string -> list string)) (cluster entry : string) : bool :=
  if String.eqb entry cluster then true
  else match groupLookup with
       | Some lookup => String.prefix "group:" entry && contains (lookup (TrimPrefix entry "group:")) cluster
       | None => false
       end.

Definition AllowsCluster (a : Actor) (groupLookup : option (string -> list string)) (cluster : string) : bool :=
  HasWildcardScope a || existsb (entry_allows groupLookup cluster) (at_ClusterScope a).

Definition FilterClusters (a : Actor) (groupLookup : option (string -> list string)) (clusters : list string) : list string :=
  if HasWildcardScope a then clusters else List.filter (AllowsCluster a groupLookup) clusters.

(** The actor of a request that no authentication ran for. *)
Definition actorFromContext (ctx : option Actor) : Actor :=
  default {| at_ID := "unknown"; at_Name := ""; at_Role := RoleViewer; at_ClusterScope := [] |} ctx.

Definition roleAllowsWrite (role : string) : bool := String.eqb role RoleAdmin || String.eqb role RoleOperator.

(** ** Requests *)

(** [hr_Session] is the value of the session cookie, [None] without one; [hr_Authorization]
    is empty without the header. The path is relative to /api. *)
Record HttpRequest := {
  hr_Method : string; hr_Path : string; hr_Authorization : string; hr_Session : option string;
  hr_RemoteAddr : string; hr_UserAgent : string }.

Definition pathIsWebhook (path : string) : bool := String.prefix "/webhooks/" path.
Definition pathIsAdmin (path : string) : bool := String.prefix "/admin/" path.

Definition requiresWrite (r : HttpRequest) : bool := negb (contains ["GET"; "HEAD"; "OPTIONS"]%string (hr_Method r)).

Definition readOnlyPosts : list string := ["/whatif"%string].

Definition mutates (r : HttpRequest) : bool :=
  requiresWrite r && negb (String.eqb (hr_Method r) "POST" && contains readOnlyPosts (hr_Path r)).

Definition extractBearer (header : string) : string :=
  if (String.length header <=? 7)%nat || negb (EqualFold (String.substring 0 7 header) "Bearer ") then ""%string
  else TrimSpace (drop_str 7 header).

(** ** base64, [RawURLEncoding] *)

Definition b64_char (n : Z) : ascii :=
  ascii_of_N (Z.to_N (if n <? 26 then n + 65 else if n <? 52 then n + 71 else if n <? 62 then n - 4 else if n =? 62 then 45 else 95)).

Definition b64_val (c : ascii) : option Z :=
  let n := byte_Z c in
  if byte_in 65 90 c then Some (n - 65)
  else if byte_in 97 122 c then Some (n - 71)
  else if byte_in 48 57 c then Some (n + 4)
  else if Ascii.eqb c "-" then Some 62
  else if Ascii.eqb c "_" then Some 63
  else None.

Fixpoint b64_encode (l : list Z) : bytes :=
  match l with
  | a :: b :: c :: l' =>
      b64_char (a / 4) :: b64_char (a mod 4 * 16 + b / 16) :: b64_char (b mod 16 * 4 + c / 64) :: b64_char (c mod 64) :: b64_encode l'
  | [a; b] => [b64_char (a / 4); b64_char (a mod 4 * 16 + b / 16); b64_char (b mod 16 * 4)]
  | [a] => [b64_char (a / 4); b64_char (a mod 4 * 16)]
  | [] => []
  end.

(** Four digits are three bytes; two or three digits at the end are one or two bytes. *)
Fixpoint b64_groups (l : list Z) : option (list Z) :=
  match l with
  | x :: y :: z :: w :: l' =>
      (fun r => (x * 4 + y / 16) :: (y mod 16 * 16 + z / 4) :: (z mod 4 * 64 + w) :: r) <$> b64_groups l'
  | [x; y; z] => Some [x * 4 + y / 16; y mod 16 * 16 + z / 4]
  | [x; y] => Some [x * 4 + y / 16]
  | [_] => None
  | [] => Some []
  end.

(** Newlines are skipped, and every other byte is a digit or an error. *)
Definition b64_decode (s : bytes) : option (list Z) :=
  mapM b64_val (List.filter (fun c => negb (Ascii.eqb c "010" || Ascii.eqb c "013")) s) ≫= b64_groups.

Definition bytes_of_Z (l : list Z) : bytes := map (fun b => ascii_of_N (Z.to_N b)) l.

(** ** Sessions *)

Record sessionPayload := { se_Subject : string; se_Role : string; se_ExpiresAt : Z }.

Section Sessions.

Context (Marshal : sessionPayload -> string) (Unmarshal : string -> sessionPayload + string).

Definition session_mac (secret encoded : string) : string :=
  of_bytes (b64_encode (hmac (to_bytes secret) (to_bytes encoded))).

Definition encodeSession (p : sessionPayload) (secret : string) : string :=
  let encoded := of_bytes (b64_encode (map byte_Z (to_bytes (Marshal p)))) in
  (encoded ++ "." ++ session_mac secret encoded)%string.

Definition decodeSession (now : Z) (cookie secret : string) : sessionPayload + string :=
  match Cut cookie "." with
  | None => inr "malformed session cookie"%string
  | Some (payload, signature) =>
      if negb (String.eqb (session_mac secret payload) signature) then inr "session signature mismatch"%string
      else match b64_decode (to_bytes payload) with
      | None => inr "decode payload"%string
      | Some body =>
          match Unmarshal (of_bytes (bytes_of_Z body)) with
          | inr err => inr ("unmarshal payload: " ++ err)%string
          | inl p => if (0 <? se_ExpiresAt p) && (se_ExpiresAt p <=? Unix now) then inr "session expired"%string else inl p
          end
      end
  end.

(** ** Resolving the actor *)

(** The part of the server that authentication reads: [cf_oidc] is the session secret of the
    configured login flow. *)
Record auth_config := { cf_insecure : bool; cf_authToken : string; cf_oidc : option string }.

(** What the server remembers between requests. *)
Record auth_state := { au_keysSeen : bool; au_keyCheckedAt : Z; au_keyTouches : gmap string Z }.

Definition auth_zero : auth_state := {| au_keysSeen := false; au_keyCheckedAt := 0; au_keyTouches := ∅ |}.

Definition keyRecheckInterval : Z := 10 * Second.
Definition keyTouchInterval : Z := Minute.

(** [fails] is an error of the database. *)
Definition holdsCredential (cf : auth_config) (fails : option string) (rows : KeyTable) (now : Z) (st : auth_state) :
  bool * auth_state :=
  if negb (String.eqb (cf_authToken cf) "") || (match cf_oidc cf with Some _ => true | None => false end) || au_keysSeen st
  then (true, st)
  else if negb (IsZero (au_keyCheckedAt st)) && (Sub now (au_keyCheckedAt st) <? keyRecheckInterval) then (false, st)
  else match fails with
  | Some _ => (true, st)
  | None =>
      match rows with
      | _ :: _ => (true, {| au_keysSeen := true; au_keyCheckedAt := au_keyCheckedAt st; au_keyTouches := au_keyTouches st |})
      | [] => (false, {| au_keysSeen := au_keysSeen st; au_keyCheckedAt := now; au_keyTouches := au_keyTouches st |})
      end
  end.

Definition missingCredential (cf : auth_config) : string :=
  match cf_oidc cf with
  | Some _ => "credential required: send a bearer token or sign in at /oidc/login"
  | None => "credential required: send a bearer token"
  end.

(** The state, and whether the use is written to the store. *)
Definition touchAPIKey (now : Z) (id : string) (st : auth_state) : auth_state * bool :=
  match au_keyTouches st !! id with
  | Some last => if Sub now last <? keyTouchInterval then (st, false)
                 else ({| au_keysSeen := au_keysSeen st; au_keyCheckedAt := au_keyCheckedAt st; au_keyTouches := <[id := now]> (au_keyTouches st) |}, true)
  | None => ({| au_keysSeen := au_keysSeen st; au_keyCheckedAt := au_keyCheckedAt st; au_keyTouches := <[id := now]> (au_keyTouches st) |}, true)
  end.

Definition actorFromSessionCookie (cf : auth_config) (now : Z) (r : HttpRequest) : option Actor :=
  match cf_oidc cf, hr_Session r with
  | Some secret, Some cookie =>
      if String.eqb cookie "" then None
      else match decodeSession now cookie secret with
      | inr _ => None
      | inl session => Some {|
          at_ID := "oidc:" ++ se_Subject session;
          at_Name := if String.eqb (se_Subject session) "" then "oidc-session" else se_Subject session;
          at_Role := if ValidRole (se_Role session) then se_Role session else RoleViewer;
          at_ClusterScope := [ScopeWildcard] |}
      end
  | _, _ => None
  end.

Definition anonymous_admin : Actor := {|
  at_ID := "anonymous"; at_Name := "insecure-mode"; at_Role := RoleAdmin; at_ClusterScope := [ScopeWildcard] |}.
Definition bootstrap_actor : Actor := {|
  at_ID := "bootstrap"; at_Name := "bootstrap-token"; at_Role := RoleAdmin; at_ClusterScope := [ScopeWildcard] |}.
Definition anonymous_viewer : Actor := {| at_ID := ""; at_Name := ""; at_Role := RoleViewer; at_ClusterScope := [] |}.

Definition key_actor (rec : APIKeyRecord) : Actor := {|
  at_ID := ak_ID rec; at_Name := ak_Name rec; at_Role := ak_Role rec; at_ClusterScope := ak_ClusterScope rec |}.

Definition resolveActor (cf : auth_config) (fails : option string) (rows : KeyTable) (now : Z) (r : HttpRequest) (st : auth_state) :
  (Actor + string) * auth_state :=
  if cf_insecure cf then (inl anonymous_admin, st)
  else
    let raw := extractBearer (hr_Authorization r) in
    if String.eqb raw "" then
      match actorFromSessionCookie cf now r with
      | Some actor => (inl actor, st)
      | None =>
          let '(held, st) := holdsCredential cf fails rows now st in
          if held then (inr (missingCredential cf), st) else (inl anonymous_viewer, st)
      end
    else if negb (String.eqb (cf_authToken cf) "") && TokensEqual raw (cf_authToken cf) then (inl bootstrap_actor, st)
    else match GetAPIKeyByHash fails (HashToken raw) rows with
    | inr (ErrNotFound _) => (inr "invalid bearer token"%string, st)
    | inr _ => (inr "authentication unavailable"%string, st)
    | inl rec =>
        if negb (IsZero (ak_RevokedAt rec)) then (inr "token revoked"%string, st)
        else if negb (IsZero (ak_ExpiresAt rec)) && (ak_ExpiresAt rec <? now) then (inr "token expired"%string, st)
        else (inl (key_actor rec), fst (touchAPIKey now (ak_ID rec) st))
    end.

(** ** The middlewares *)

(** A request is refused, or served with what the context then holds: nothing for the
    webhooks, which authenticate themselves. *)
Inductive gate_outcome := Refused (status : Z) (message : string) | Served (ctx : option Actor).

Definition authMiddleware (cf : auth_config) (fails : option string) (rows : KeyTable) (now : Z) (r : HttpRequest) (st : auth_state) :
  gate_outcome * auth_state :=
  if pathIsWebhook (hr_Path r) then (Served None, st)
  else match resolveActor cf fails rows now r st with
  | (inr err, st) => (Refused 401 err, st)
  | (inl actor, st) =>
      (if mutates r && String.eqb (at_ID actor) "" then Refused 401 "missing bearer token"
       else if mutates r && negb (roleAllowsWrite (at_Role actor)) && negb (pathIsAdmin (hr_Path r)) then
         Refused 403 "role does not permit writes"
       else if pathIsAdmin (hr_Path r) && (String.eqb (at_ID actor) "" || negb (String.eqb (at_Role actor) RoleAdmin)) then
         Refused 403 "admin role required"
       else Served (Some actor), st)
  end.

Record AuditEntry := {
  ae_Timestamp : Z; ae_ActorID : string; ae_ActorName : string; ae_ActorRole : string; ae_Method : string;
  ae_Path : string; ae_Status : Z; ae_RemoteAddr : string; ae_UserAgent : string; ae_DurationMS : Z; ae_Error : string }.

Definition auditBodyCap : nat := 512.

(** A double quote, which the literals of this development do not hold. *)
Definition dquote : string := String "034" "".

Definition extractErrorMessage (body : string) : string :=
  match Cut body (dquote ++ "error" ++ dquote ++ ":" ++ dquote) with
  | None => ""
  | Some (_, rest) =>
      String.substring 0 200 match Cut rest dquote with Some (message, _) => message | None => rest end
  end.

(** The answer of the handler after [elapsed]: its status and its body. *)
Definition auditMiddleware (start elapsed : Z) (r : HttpRequest) (ctx : option Actor) (answer : Z * string) : option AuditEntry :=
  if negb (mutates r) then None
  else
    let actor := actorFromContext ctx in
    Some {| ae_Timestamp := start; ae_ActorID := at_ID actor; ae_ActorName := at_Name actor; ae_ActorRole := at_Role actor;
            ae_Method := hr_Method r; ae_Path := hr_Path r; ae_Status := fst answer; ae_RemoteAddr := hr_RemoteAddr r;
            ae_UserAgent := hr_UserAgent r; ae_DurationMS := elapsed / 1000000;
            ae_Error := if 400 <=? fst answer then extractErrorMessage (String.substring 0 auditBodyCap (snd answer)) else "" |}.

(** The chain of routes: authentication, then the audit around the handler. *)
Definition serve_api (cf : auth_config) (fails : option string) (rows : KeyTable) (now elapsed : Z)
  (handler : option Actor -> HttpRequest -> Z * string) (r : HttpRequest) (st : auth_state) :
  Z * option AuditEntry * auth_state :=
  match authMiddleware cf fails rows now r st with
  | (Refused status _, st) => (status, None, st)
  | (Served ctx, st) =>
      let answer := handler ctx r in (fst answer, auditMiddleware now elapsed r ctx answer, st)
  end.

(** ** The login callback *)

Record OIDCConfig := {
  oc_SessionSecret : string; oc_SessionLifetime : Z; oc_AdminClaim : string; oc_OperatorClaim : string; oc_DefaultRole : string }.

(** The claims are decoded JSON. *)
Definition claimMatch (claims : gmap string json) (pattern : string) : bool :=
  match Cut pattern ":" with
  | None => false
  | Some (name, want) =>
      match claims !! name with
      | Some (JStr t) => String.eqb t want
      | Some (JArr items) => existsb (fun item => match item with JStr s => String.eqb s want | _ => false end) items
      | _ => false
      end
  end.

Definition stringClaim (claims : gmap string json) (name : string) : string :=
  match claims !! name with Some (JStr v) => v | _ => "" end.

Definition claim_role (cfg : OIDCConfig) (claims : gmap string json) : string :=
  if claimMatch claims (oc_AdminClaim cfg) then RoleAdmin
  else if claimMatch claims (oc_OperatorClaim cfg) then RoleOperator
  else oc_DefaultRole cfg.

Definition claim_session (cfg : OIDCConfig) (now : Z) (claims : gmap string json) : sessionPayload :=
  let subject := stringClaim claims "email" in {|
    se_Subject := if String.eqb subject "" then stringClaim claims "sub" else subject;
    se_Role := claim_role cfg claims;
    se_ExpiresAt := Unix (now + oc_SessionLifetime cfg) |}.

(** The identity provider: the ID token for a code, and the claims of a token it signed. *)
Inductive callback_reply := CallbackRefused (status : Z) (message : string) | SignedIn (cookie : string).

Definition handleOIDCCallback (oidc : option OIDCConfig) (Exchange : string -> option (option string))
  (VerifyToken : string -> option (option (gmap string json))) (now : Z) (stateCookie : option string) (state code : string) :
  callback_reply :=
  match oidc with
  | None => CallbackRefused 404 "oidc not configured"
  | Some cfg =>
      let expected := default "" stateCookie in
      if String.eqb expected "" then CallbackRefused 400 "missing state cookie"
      else if negb (String.eqb state expected) then CallbackRefused 400 "state mismatch"
      else if String.eqb code "" then CallbackRefused 400 "missing authorization code"
      else match Exchange code with
      | None => CallbackRefused 401 "token exchange failed"
      | Some rawID =>
          let rawID := default "" rawID in
          if String.eqb rawID "" then CallbackRefused 401 "missing id_token in response"
          else match VerifyToken rawID with
          | None => CallbackRefused 401 "id_token invalid"
          | Some None => CallbackRefused 400 "decode claims failed"
          | Some (Some claims) => SignedIn (encodeSession (claim_session cfg now claims) (oc_SessionSecret cfg))
          end
      end
  end.

(** ** Lemmas: base64 *)

Lemma b64_digit n : 0 <= n < 64 -> b64_val (b64_char n) = Some n /\ Ascii.eqb (b64_char n) "010" = false /\
  Ascii.eqb (b64_char n) "013" = false /\ Ascii.eqb (b64_char n) "." = false.
Proof.
  intros H. assert (In n (map Z.of_nat (seq 0 64))) as Hin.
  { apply in_map_iff. exists (Z.to_nat n). split; [lia|]. apply in_seq. lia. }
  assert (Hall : forallb (fun n => match b64_val (b64_char n) with Some m => Z.eqb m n | None => false end &&
    negb (Ascii.eqb (b64_char n) "010") && negb (Ascii.eqb (b64_char n) "013") && negb (Ascii.eqb (b64_char n) "."))
    (map Z.of_nat (seq 0 64)) = true) by (vm_compute; reflexivity).
  rewrite forallb_forall in Hall. specialize (Hall n Hin). rewrite !andb_true_iff, !negb_true_iff in Hall.
  destruct Hall as [[[H1 H2] H3] H4]. destruct (b64_val (b64_char n)) as [m|]; [|done]. apply Z.eqb_eq in H1 as ->. done.
Qed.

(** The digits of a byte string, three bytes at a time. *)
Fixpoint b64_digits (l : list Z) : list Z :=
  match l with
  | a :: b :: c :: l' => a / 4 :: (a mod 4 * 16 + b / 16) :: (b mod 16 * 4 + c / 64) :: c mod 64 :: b64_digits l'
  | [a; b] => [a / 4; a mod 4 * 16 + b / 16; b mod 16 * 4]
  | [a] => [a / 4; a mod 4 * 16]
  | [] => []
  end.

Lemma three_ind (P : list Z -> Prop) : P [] -> (forall a, P [a]) -> (forall a b, P [a; b]) ->
  (forall a b c l, P l -> P (a :: b :: c :: l)) -> forall l, P l.
Proof.
  intros H0 H1 H2 H3 l. assert (P l /\ (forall a, P (a :: l)) /\ (forall a b, P (a :: b :: l))) as [H _]; [|done].
  induction l as [|x l (IH1 & IH2 & IH3)]; [done|]. split_and!; [apply IH2 | intros a; apply IH3 | intros a b; by apply H3].
Qed.

Lemma b64_encode_digits l : b64_encode l = map b64_char (b64_digits l).
Proof. induction l as [| | |a b c l IH] using three_ind; cbn [b64_encode b64_digits map]; by rewrite ?IH. Qed.

Lemma b64_digits_range l : Forall is_byte l -> Forall (fun n => 0 <= n < 64) (b64_digits l).
Proof.
  unfold is_byte. induction l as [| | |a b c l IH] using three_ind; intros H; repeat (apply Forall_cons in H as [? H]);
    cbn [b64_digits]; repeat apply Forall_cons_2; auto; Z.to_euclidean_division_equations; lia.
Qed.

Lemma b64_groups_digits l : Forall is_byte l -> b64_groups (b64_digits l) = Some l.
Proof.
  unfold is_byte. induction l as [| | |a b c l IH] using three_ind; intros H; repeat (apply Forall_cons in H as [? H]);
    cbn [b64_digits b64_groups]; [done | | | rewrite IH by done; cbn [fmap option_fmap option_map]]; repeat f_equal;
    Z.to_euclidean_division_equations; lia.
Qed.

Lemma b64_round l : Forall is_byte l -> b64_decode (b64_encode l) = Some l.
Proof.
  intros Hl. unfold b64_decode. rewrite b64_encode_digits. pose proof (b64_digits_range l Hl) as Hr.
  assert (mapM b64_val (List.filter (fun c => negb (Ascii.eqb c "010" || Ascii.eqb c "013")) (map b64_char (b64_digits l))) =
    Some (b64_digits l)) as ->; [|by apply b64_groups_digits].
  induction (b64_digits l) as [|n d IH]; [done|]. apply Forall_cons in Hr as [Hn Hd].
  destruct (b64_digit n Hn) as (Hv & H1 & H2 & _). cbn [map List.filter]. rewrite H1, H2. cbn [orb negb].
  cbn [mapM]. rewrite Hv, IH by done. done.
Qed.

Lemma b64_no_dot l : Forall is_byte l -> no_byte "." (of_bytes (b64_encode l)) = true.
Proof.
  intros Hl. rewrite b64_encode_digits. pose proof (b64_digits_range l Hl) as Hr.
  induction (b64_digits l) as [|n d IH]; [done|]. apply Forall_cons in Hr as [Hn Hd].
  destruct (b64_digit n Hn) as (_ & _ & _ & H). cbn [map of_bytes string_of_list_ascii no_byte].
  rewrite H. by apply IH.
Qed.

Lemma byte_Z_is_byte l : Forall is_byte (map byte_Z l).
Proof.
  apply List.Forall_forall. intros z (c & <- & _)%in_map_iff. unfold is_byte, byte_Z. pose proof (N_ascii_bounded c). lia.
Qed.

Lemma bytes_of_Z_round l : bytes_of_Z (map byte_Z l) = l.
Proof.
  unfold bytes_of_Z. rewrite map_map. rewrite <- (map_id l) at 2. apply map_ext. intros c. unfold byte_Z.
  by rewrite N2Z.id, ascii_N_embedding.
Qed.

(** ** Sessions: round trip and authenticity *)

(** A session cookie reads back as the session it was made from until it expires, a cookie
    is accepted only with the signature of its payload under the server's secret, and an
    expired one never. *)
Theorem session_cookie_sound secret :
  (forall p now, Unmarshal (Marshal p) = inl p ->
     decodeSession now (encodeSession p secret) secret =
       if (0 <? se_ExpiresAt p) && (se_ExpiresAt p <=? Unix now) then inr "session expired"%string else inl p) /\
  (forall cookie now p, decodeSession now cookie secret = inl p ->
     exists payload, cookie = (payload ++ "." ++ session_mac secret payload)%string /\
       (se_ExpiresAt p <= 0 \/ Unix now < se_ExpiresAt p)).
Proof.
  split.
  - intros p now Hp. unfold decodeSession, encodeSession.
    set (body := map byte_Z (to_bytes (Marshal p))). assert (Hb : Forall is_byte body) by apply byte_Z_is_byte.
    change (of_bytes (b64_encode body) ++ "." ++ session_mac secret (of_bytes (b64_encode body)))%string
      with (of_bytes (b64_encode body) ++ String "." (session_mac secret (of_bytes (b64_encode body))))%string.
    rewrite Cut_first by (by apply b64_no_dot). rewrite String.eqb_refl, to_of_bytes, (b64_round body Hb). cbn [negb].
    unfold body. by rewrite bytes_of_Z_round, of_to_bytes, Hp.
  - intros cookie now p. unfold decodeSession. destruct (Cut cookie ".") as [[payload signature]|] eqn:E; [|done].
    destruct (String.eqb_spec (session_mac secret payload) signature) as [<-|]; [|done]. cbn [negb].
    destruct (b64_decode _); [|done]. destruct (Unmarshal _) as [p'|]; [|done].
    destruct (_ && _) eqn:Ex; [done|]. intros [= ->]. exists payload. split; [by apply Cut_split|].
    apply andb_false_iff in Ex as [Ex%Z.ltb_ge | Ex%Z.leb_gt]; [by left | by right].
Qed.

(** ** Who is served *)

(** How an actor can have been identified. *)
Definition authentic (cf : auth_config) (rows : KeyTable) (now : Z) (r : HttpRequest) (a : Actor) : Prop :=
  cf_insecure cf = true /\ a = anonymous_admin \/
  cf_authToken cf <> ""%string /\ extractBearer (hr_Authorization r) = cf_authToken cf /\ a = bootstrap_actor \/
  (exists rec, rec ∈ rows /\ ak_TokenHash rec = HashToken (extractBearer (hr_Authorization r)) /\ ak_RevokedAt rec = 0 /\
     (ak_ExpiresAt rec = 0 \/ now <= ak_ExpiresAt rec) /\ a = key_actor rec) \/
  (exists secret cookie session, cf_oidc cf = Some secret /\ hr_Session r = Some cookie /\
     decodeSession now cookie secret = inl session /\ at_ID a = ("oidc:" ++ se_Subject session)%string /\
     at_Role a = (if ValidRole (se_Role session) then se_Role session else RoleViewer)).

(** Nobody asked for a credential: none is configured, and no key was found. *)
Definition open_server (cf : auth_config) (st : auth_state) : Prop :=
  cf_authToken cf = ""%string /\ cf_oidc cf = None /\ au_keysSeen st = false.

Lemma holds_open cf fails rows now st st' : holdsCredential cf fails rows now st = (false, st') -> open_server cf st.
Proof.
  unfold holdsCredential, open_server. destruct (negb (String.eqb (cf_authToken cf) "")) eqn:Et; [done|].
  apply negb_false_iff, String.eqb_eq in Et. destruct (cf_oidc cf); [done|]. by destruct (au_keysSeen st).
Qed.

Lemma resolve_sound cf fails rows now r st a st' : resolveActor cf fails rows now r st = (inl a, st') ->
  authentic cf rows now r a \/ a = anonymous_viewer /\ open_server cf st /\ holdsCredential cf fails rows now st = (false, st').
Proof.
  unfold resolveActor, authentic. destruct (cf_insecure cf); [intros [= <- <-]; by left; left|].
  destruct (String.eqb_spec (extractBearer (hr_Authorization r)) "") as [Hb|Hb].
  - destruct (actorFromSessionCookie cf now r) as [b|] eqn:Ec.
    + intros [= <- <-]. left. right. right. right. unfold actorFromSessionCookie in Ec.
      destruct (cf_oidc cf) as [secret|]; [|done]. destruct (hr_Session r) as [cookie|]; [|done].
      destruct (String.eqb cookie ""); [done|]. destruct (decodeSession now cookie secret) as [session|] eqn:Ed; [|done].
      injection Ec as <-. by exists secret, cookie, session.
    + destruct (holdsCredential cf fails rows now st) as [[] st1] eqn:Eh; [done|]. intros [= <- <-]. right.
      split_and!; [done | by apply holds_open in Eh | done].
  - destruct (negb (String.eqb (cf_authToken cf) "") && TokensEqual _ _) eqn:Et.
    + intros [= <- <-]. apply andb_true_iff in Et as [H1%negb_true_iff%String.eqb_neq H2%String.eqb_eq].
      left. right. left. by split_and!.
    + destruct (GetAPIKeyByHash fails _ rows) as [rec|[]] eqn:Eg; try done.
      destruct (negb (IsZero (ak_RevokedAt rec))) eqn:Er; [done|]. apply negb_false_iff, Z.eqb_eq in Er.
      destruct (negb (IsZero (ak_ExpiresAt rec)) && (ak_ExpiresAt rec <? now)) eqn:Ee; [done|]. intros [= <- <-].
      left. right. right. left. exists rec. unfold GetAPIKeyByHash in Eg. destruct fails; [done|].
      destruct (List.find _ rows) as [rec'|] eqn:Ef; [|done]. injection Eg as ->.
      apply find_some in Ef as [Hin%list_elem_of_In Hh%String.eqb_eq]. split_and!; try done.
      apply andb_false_iff in Ee as [Ee%negb_false_iff%Z.eqb_eq | Ee%Z.ltb_ge]; [by left | by right].
Qed.

(** ** A sequence of requests *)

(** One request as the server sees it: when, what the database holds or fails with, and the
    request. *)
Record visit := { vi_now : Z; vi_fails : option string; vi_rows : KeyTable; vi_request : HttpRequest }.

Definition visit_gate (cf : auth_config) (v : visit) (st : auth_state) : gate_outcome * auth_state :=
  authMiddleware cf (vi_fails v) (vi_rows v) (vi_now v) (vi_request v) st.

Definition after_visits (cf : auth_config) (vs : list visit) (st : auth_state) : auth_state :=
  fold_left (fun st v => snd (visit_gate cf v st)) vs st.

Lemma touch_keeps now id st : let st' := fst (touchAPIKey now id st) in
  au_keysSeen st' = au_keysSeen st /\ au_keyCheckedAt st' = au_keyCheckedAt st.
Proof. unfold touchAPIKey. repeat case_match; done. Qed.

(** A request sets the time of the last look only when it finds no key. *)
Lemma visit_checked cf v st : let st' := snd (visit_gate cf v st) in
  (au_keysSeen st = true -> au_keysSeen st' = true) /\
  (au_keyCheckedAt st' = au_keyCheckedAt st \/ au_keyCheckedAt st' = vi_now v /\ vi_rows v = []).
Proof.
  unfold visit_gate, authMiddleware. destruct (pathIsWebhook _); [simpl; auto|].
  unfold resolveActor. destruct (cf_insecure cf); [simpl; auto|].
  destruct (String.eqb (extractBearer _) "").
  - destruct (actorFromSessionCookie _ _ _); [simpl; auto|]. unfold holdsCredential.
    repeat case_match; simplify_eq; simpl; auto.
  - destruct (_ && TokensEqual _ _); [simpl; auto|].
    destruct (GetAPIKeyByHash _ _ _) as [rec|[]]; try (simpl; by auto).
    destruct (negb (IsZero (ak_RevokedAt rec))); [simpl; auto|]. destruct (_ && _); [simpl; auto|].
    pose proof (touch_keeps (vi_now v) (ak_ID rec) st) as [H1 H2]. simpl. rewrite H1, H2. auto.
Qed.

(** The time of the last look is the start's, or of a request that found the store empty. *)
Lemma visit_looked cf v st : let st' := snd (visit_gate cf v st) in
  au_keyCheckedAt st' = au_keyCheckedAt st \/ au_keyCheckedAt st' = vi_now v /\ vi_rows v = [] /\ vi_fails v = None.
Proof.
  unfold visit_gate, authMiddleware. destruct (pathIsWebhook _); [simpl; auto|].
  unfold resolveActor. destruct (cf_insecure cf); [simpl; auto|].
  destruct (String.eqb (extractBearer _) "").
  - destruct (actorFromSessionCookie _ _ _); [simpl; auto|]. unfold holdsCredential.
    repeat case_match; simplify_eq; simpl; auto.
  - destruct (_ && TokensEqual _ _); [simpl; auto|].
    destruct (GetAPIKeyByHash _ _ _) as [rec|[]]; try (simpl; by auto).
    destruct (negb (IsZero (ak_RevokedAt rec))); [simpl; auto|]. destruct (_ && _); [simpl; auto|].
    pose proof (touch_keeps (vi_now v) (ak_ID rec) st) as [H1 H2]. simpl. rewrite H2. auto.
Qed.

Lemma looked_empty cf vs st : au_keyCheckedAt (after_visits cf vs st) = au_keyCheckedAt st \/
  exists w, w ∈ vs /\ vi_rows w = [] /\ vi_fails w = None /\ au_keyCheckedAt (after_visits cf vs st) = vi_now w.
Proof.
  induction vs as [|w vs IH] using rev_ind; [by left|]. unfold after_visits in *. rewrite fold_left_app. cbn [fold_left].
  destruct (visit_looked cf w (fold_left (fun st v => snd (visit_gate cf v st)) vs st)) as [->|(-> & Hr & Hf)].
  - destruct IH as [->|(x & Hx & ?)]; [by left|]. right. exists x. split; [apply elem_of_app; by left|done].
  - right. exists w. split; [apply elem_of_app; right; by left|done].
Qed.

(** The server asks for no credential, and the store was read empty: by this request, or by
    one before it less than ten seconds ago. *)
Definition empty_store (cf : auth_config) (vs : list visit) (v : visit) : Prop :=
  cf_authToken cf = ""%string /\ cf_oidc cf = None /\
  exists w, (w = v \/ w ∈ vs /\ Sub (vi_now v) (vi_now w) < keyRecheckInterval) /\ vi_rows w = [] /\ vi_fails w = None.

Lemma holds_empty cf vs v st' :
  holdsCredential cf (vi_fails v) (vi_rows v) (vi_now v) (after_visits cf vs auth_zero) = (false, st') -> empty_store cf vs v.
Proof.
  intros H. destruct (holds_open _ _ _ _ _ _ H) as (Ht & Ho & _). split; [done|]. split; [done|]. unfold holdsCredential in H.
  destruct (_ || _ || _); [done|]. destruct (negb (IsZero _) && _) eqn:Ei.
  - apply andb_true_iff in Ei as [Hz%negb_true_iff%Z.eqb_neq Hs%Z.ltb_lt].
    destruct (looked_empty cf vs auth_zero) as [E|(w & Hw & Hr & Hf & E)]; [by rewrite E in Hz|].
    exists w. rewrite E in Hs. split; [by right|done].
  - destruct (vi_fails v) eqn:Ef; [done|]. destruct (vi_rows v) eqn:Er; [|done]. exists v. split; [by left|done].
Qed.

(** C5: who is served, after any requests before. The webhook endpoints are passed on with no
    actor, since they authenticate the body themselves. Every other request that changes state
    (any method but GET, HEAD and OPTIONS, except POST /whatif, which only reads) reaches its
    handler only for an authentic actor whose role may write, an admin endpoint only for an
    authentic admin, and any other request only for an authentic actor, or anonymously as a
    viewer while no token and no sign-in is configured and the store holds no key: it was read
    empty by this very request or by one before it less than ten seconds ago. *)
Theorem served_is_authentic cf vs v ctx st' :
  visit_gate cf v (after_visits cf vs auth_zero) = (Served ctx, st') ->
  let r := vi_request v in
  String.prefix "/webhooks/" (hr_Path r) = true /\ ctx = None \/
  String.prefix "/webhooks/" (hr_Path r) = false /\ exists a, ctx = Some a /\
    ((hr_Method r ∉ ["GET"; "HEAD"; "OPTIONS"]%string -> hr_Method r = "POST"%string /\ hr_Path r = "/whatif"%string \/
        authentic cf (vi_rows v) (vi_now v) r a /\ roleAllowsWrite (at_Role a) = true) /\
     (String.prefix "/admin/" (hr_Path r) = true -> authentic cf (vi_rows v) (vi_now v) r a /\ at_Role a = RoleAdmin) /\
     (authentic cf (vi_rows v) (vi_now v) r a \/ a = anonymous_viewer /\ empty_store cf vs v)).
Proof.
  intros H r. set (st := after_visits cf vs auth_zero) in *. unfold visit_gate, authMiddleware in H. fold r in H.
  change (String.prefix "/webhooks/" (hr_Path r)) with (pathIsWebhook (hr_Path r)).
  change (String.prefix "/admin/" (hr_Path r)) with (pathIsAdmin (hr_Path r)).
  destruct (pathIsWebhook (hr_Path r)); [left; by simplify_eq|right; split; [done|]].
  destruct (resolveActor cf (vi_fails v) (vi_rows v) (vi_now v) r st) as [[a|] st1] eqn:Er; [|done].
  destruct (mutates r && String.eqb (at_ID a) "") eqn:H1; [done|].
  destruct (mutates r && negb (roleAllowsWrite (at_Role a)) && negb (pathIsAdmin (hr_Path r))) eqn:H2; [done|].
  destruct (pathIsAdmin (hr_Path r) && _) eqn:H3; [done|]. injection H as <- <-. exists a. split; [done|].
  assert (Hadmin : pathIsAdmin (hr_Path r) = true -> at_Role a = RoleAdmin /\ at_ID a <> ""%string).
  { intros Hp. rewrite Hp in H3. cbn [andb] in H3. apply orb_false_iff in H3 as [Hi Ha].
    apply negb_false_iff, String.eqb_eq in Ha. apply String.eqb_neq in Hi. done. }
  pose proof (resolve_sound _ _ _ _ _ _ _ _ Er) as Hs.
  assert (Hid : at_ID a <> ""%string -> authentic cf (vi_rows v) (vi_now v) r a) by (destruct Hs as [?|(-> & _)]; [done|intros Hx; exfalso; by apply Hx]).
  split; [|split].
  - intros Hm. destruct (mutates r) eqn:Hmu.
    + right. apply String.eqb_neq in H1. split; [by apply Hid|]. destruct (pathIsAdmin (hr_Path r)) eqn:Hp.
      * destruct (Hadmin eq_refl) as [-> _]. done.
      * simpl in H2. rewrite andb_true_r in H2. by apply negb_false_iff in H2.
    + left. unfold mutates, requiresWrite, contains in Hmu. apply andb_false_iff in Hmu as [Hmu|Hmu].
      * exfalso. apply negb_false_iff, existsb_exists in Hmu as (m & Hin & E%String.eqb_eq).
        apply Hm. rewrite E. by apply list_elem_of_In.
      * apply negb_false_iff, andb_true_iff in Hmu as [E%String.eqb_eq Hmu]. split; [exact E|].
        apply existsb_exists in Hmu as (p & [<-|[]] & E'%String.eqb_eq). exact E'.
  - intros Hp. destruct (Hadmin Hp) as [? ?]. split; [by apply Hid|done].
  - destruct Hs as [?|(? & _ & Hh)]; [by left|]. right. split; [done|]. by eapply holds_empty.
Qed.

Lemma checked_bound cf vs t st : (forall v, v ∈ vs -> vi_now v <= t \/ vi_rows v <> []) ->
  au_keyCheckedAt st <= t -> au_keyCheckedAt (after_visits cf vs st) <= t.
Proof.
  unfold after_visits. revert st. induction vs as [|v vs IH]; intros st Hv Hst; [done|]. simpl. apply IH; [intros; apply Hv; by right|].
  destruct (visit_checked cf v st) as [_ [-> | [-> Hr]]]; [done|]. by destruct (Hv v ltac:(left)).
Qed.

(** Once the store holds a key, anonymous reads end: a request that arrives ten seconds or
    more after the store last was without keys is served to an authentic actor or not at all,
    whatever the requests before it. *)
Theorem anonymous_reads_end cf vs v t ctx st' :
  0 <= t -> (forall w, w ∈ vs -> vi_now w <= t \/ vi_rows w <> []) -> vi_rows v <> [] -> t + keyRecheckInterval <= vi_now v ->
  pathIsWebhook (hr_Path (vi_request v)) = false ->
  visit_gate cf v (after_visits cf vs auth_zero) = (Served ctx, st') ->
  exists a, ctx = Some a /\ authentic cf (vi_rows v) (vi_now v) (vi_request v) a.
Proof.
  intros Ht Hvs Hv Hlate Hw Hg. set (st := after_visits cf vs auth_zero) in *.
  assert (Hc : au_keyCheckedAt st <= t) by (apply checked_bound; [done | simpl; lia]). clearbody st.
  unfold visit_gate, authMiddleware in Hg. rewrite Hw in Hg.
  destruct (resolveActor cf (vi_fails v) (vi_rows v) (vi_now v) (vi_request v) st) as [[a|] st1] eqn:Er; [|done].
  exists a. split; [by repeat case_match; simplify_eq|].
  destruct (resolve_sound _ _ _ _ _ _ _ _ Er) as [?|(_ & _ & Hh)]; [done|]. exfalso.
  unfold holdsCredential in Hh. destruct (_ || _ || _); [done|]. destruct (negb (IsZero _) && _) eqn:Ei.
  - apply andb_true_iff in Ei as [_ Ei%Z.ltb_lt]. unfold Sub, int64_min, int64_max, keyRecheckInterval, Second in *. lia.
  - destruct (vi_fails v); [done|]. by destruct (vi_rows v).
Qed.

(** ** Keys and scopes *)

Lemma find_unique (rows : KeyTable) r hash : NoDup (map ak_TokenHash rows) -> r ∈ rows -> ak_TokenHash r = hash ->
  List.find (has_hash hash) rows = Some r.
Proof.
  intros Hn Hr Hh. destruct (List.find (has_hash hash) rows) as [r'|] eqn:E.
  - apply find_some in E as [Hr'%list_elem_of_In Hh'%String.eqb_eq]. f_equal.
    apply (NoDup_map_inj ak_TokenHash rows); [done|done|done|]. by rewrite Hh, Hh'.
  - apply list_elem_of_In, (find_none _ _ E r) in Hr. unfold has_hash in Hr. by rewrite Hh, String.eqb_refl in Hr.
Qed.

(** C27: a revoked key never authenticates again, whatever is done to the table of keys. *)
Theorem revoked_forever cf rows rows' now fails r st :
  keys_unique rows -> rtc key_step rows rows' ->
  revoked_in (HashToken (extractBearer (hr_Authorization r))) rows ->
  cf_insecure cf = false -> extractBearer (hr_Authorization r) <> ""%string ->
  extractBearer (hr_Authorization r) <> cf_authToken cf ->
  exists why, resolveActor cf fails rows' now r st = (inr why, st).
Proof.
  intros Hu Hsteps Hrev Hi Hb Ht. set (raw := extractBearer (hr_Authorization r)) in *.
  assert (keys_unique rows' /\ revoked_in (HashToken raw) rows') as [[_ Hn] (rec & Hrec & Hh & Hz)].
  { induction Hsteps as [|x y z Hxy _ IH]; [done|]. apply IH; [by apply (key_step_unique x) | by apply (key_step_revoked _ x)]. }
  unfold resolveActor. rewrite Hi. fold raw. rewrite (proj2 (String.eqb_neq _ _) Hb).
  unfold TokensEqual. rewrite (proj2 (String.eqb_neq _ _) Ht), andb_false_r.
  unfold GetAPIKeyByHash. destruct fails; [by eexists|]. rewrite (find_unique rows' rec _ Hn Hrec Hh).
  rewrite Hz. by eexists.
Qed.

(** A key authenticates from its creation on: the token handed out resolves to an actor with
    the role and scope asked for, until the key expires. *)
Theorem issued_key_resolves ParseDuration buf newID issued actor req rows rows' rec raw status cf now r st :
  handleAdminCreateKey ParseDuration None buf newID issued actor (inl req) rows = (rows', Ok status (rec, raw)) ->
  keys_unique rows -> cf_insecure cf = false -> extractBearer (hr_Authorization r) = raw -> raw <> cf_authToken cf ->
  fst (resolveActor cf None rows' now r st) =
    if negb (IsZero (stored_time (ak_ExpiresAt rec))) && (stored_time (ak_ExpiresAt rec) <? now) then inr "token expired"%string
    else inl {| at_ID := ak_ID rec; at_Name := cr_Name req; at_Role := cr_Role req; at_ClusterScope := normalizeScope (cr_ClusterScope req) |}.
Proof.
  intros Hc Hu Hi Hb Ht. pose proof (create_fields _ _ _ _ _ _ _ _ _ _ _ _ Hc) as (Hname & Hrole & Hscope & Hraw).
  apply create_spec in Hc as (_ & -> & Hh & Hfresh & Hrev & _ & Hsc).
  unfold resolveActor. rewrite Hi, Hb, (proj2 (String.eqb_neq _ _) Hraw).
  unfold TokensEqual. rewrite (proj2 (String.eqb_neq _ _) Ht), andb_false_r. unfold GetAPIKeyByHash.
  rewrite (find_unique _ (key_row (with_defaults issued rec)) (HashToken raw)).
  - cbn [key_row with_defaults ak_RevokedAt ak_ExpiresAt]. rewrite Hrev. change (negb (IsZero (stored_time 0))) with false. cbn [negb].
    destruct (_ && _); [done|]. simpl. unfold key_actor. cbn [key_row with_defaults ak_ID ak_Name ak_Role ak_ClusterScope].
    rewrite Hname, Hrole. rewrite Hscope in Hsc |- *. by destruct (normalizeScope _).
  - rewrite map_app. apply NoDup_app. split_and!; [apply Hu | | apply NoDup_singleton].
    intros x (r' & -> & Hr')%list_elem_of_fmap [E|[]]%list_elem_of_In. destruct (Hfresh r' Hr') as [H _]. apply H.
    rewrite <- E. exact Hh.
  - set_solver.
  - done.
Qed.

(** A refused request leaves no trace in the audit log. *)
Lemma refused_not_audited cf fails rows now elapsed handler r st status message st' :
  authMiddleware cf fails rows now r st = (Refused status message, st') ->
  serve_api cf fails rows now elapsed handler r st = (status, None, st').
Proof. intros H. unfold serve_api. by rewrite H. Qed.

(** A change that reaches its handler is audited with its actor and the status of the answer. *)
Lemma changes_audited cf fails rows now elapsed handler r st a st' :
  authMiddleware cf fails rows now r st = (Served (Some a), st') -> mutates r = true ->
  exists e, serve_api cf fails rows now elapsed handler r st = (fst (handler (Some a) r), Some e, st') /\
    ae_ActorID e = at_ID a /\ ae_ActorRole e = at_Role a /\ ae_Method e = hr_Method r /\ ae_Path e = hr_Path r /\
    ae_Status e = fst (handler (Some a) r).
Proof. intros H Hm. unfold serve_api, auditMiddleware. rewrite H, Hm. simpl. by eexists. Qed.
End Sessions.

(** An actor may act on a cluster exactly when the scope has the wildcard, names it, or
    names a group it is a member of, and a list of clusters is narrowed to those. *)
Theorem scope_exact a lookup clusters c :
  (AllowsCluster a (Some lookup) c = true <->
     ScopeWildcard ∈ at_ClusterScope a \/ c ∈ at_ClusterScope a \/
     exists g, ("group:" ++ g)%string ∈ at_ClusterScope a /\ c ∈ lookup g) /\
  (c ∈ FilterClusters a (Some lookup) clusters <-> c ∈ clusters /\ AllowsCluster a (Some lookup) c = true).
Proof.
  assert (Hin : forall l s, contains l s = true <-> s ∈ l).
  { intros l s. unfold contains. rewrite existsb_exists. setoid_rewrite String.eqb_eq. rewrite list_elem_of_In. naive_solver. }
  split.
  - unfold AllowsCluster, HasWildcardScope. rewrite orb_true_iff, Hin, existsb_exists. setoid_rewrite <- list_elem_of_In.
    unfold entry_allows. split.
    + intros [?|(e & He & H)]; [by left|]. right. destruct (String.eqb_spec e c) as [->|]; [by left|].
      apply andb_true_iff in H as [[g ->]%prefix_spec Hg%Hin]. right. exists g. split; [done|].
      unfold TrimPrefix in Hg. by rewrite !(proj1 (prefix_drop _ _)), (proj2 (prefix_drop _ _)) in Hg.
    + intros [?|[Hc|(g & Hg & Hc)]]; [by left | |].
      * right. exists c. by rewrite String.eqb_refl.
      * right. exists ("group:" ++ g)%string. split; [done|]. destruct (String.eqb _ c); [done|].
        unfold TrimPrefix. rewrite !(proj1 (prefix_drop _ _)), (proj2 (prefix_drop _ _)). by apply Hin.
  - unfold FilterClusters. destruct (HasWildcardScope a) eqn:Ew.
    + unfold AllowsCluster. rewrite Ew. simpl. naive_solver.
    + by rewrite list_elem_of_In, filter_In, <- list_elem_of_In.
Qed.

(** ** Witnesses *)

(** One session in use: [sub] names it, and decoding gives it back. *)
Definition sample_session : sessionPayload := {| se_Subject := "ops@example.com"; se_Role := "operator"; se_ExpiresAt := 1800000000 |}.
Definition sample_text (_ : sessionPayload) : string := "session".
Definition sample_read (_ : string) : sessionPayload + string := inl sample_session.

(** 2026-01-01, in nanoseconds since year 1. *)
Definition new_year : Z := 739616 * Day.

Lemma session_cookie_sound_witness :
  decodeSession sample_read new_year (encodeSession sample_text sample_session "secret") "secret" = inl sample_session.
Proof.
  destruct (session_cookie_sound sample_text sample_read "secret") as [H _].
  rewrite (H sample_session new_year eq_refl). reflexivity.
Defined.

Definition closed_server : auth_config := {| cf_insecure := false; cf_authToken := "s3cret"; cf_oidc := None |}.
Definition keyed_server : auth_config := {| cf_insecure := false; cf_authToken := ""; cf_oidc := None |}.

Definition request_with (method path authorization : string) : HttpRequest := {|
  hr_Method := method; hr_Path := path; hr_Authorization := authorization; hr_Session := None; hr_RemoteAddr := ""; hr_UserAgent := "" |}.

Lemma served_is_authentic_witness :
  exists a, authentic sample_read closed_server [] new_year (request_with "POST" "/scans" "bearer  s3cret ") a /\ at_Role a = RoleAdmin.
Proof.
  destruct (served_is_authentic sample_read closed_server [] {| vi_now := new_year; vi_fails := None; vi_rows := [];
    vi_request := request_with "POST" "/scans" "bearer  s3cret " |} (Some bootstrap_actor) auth_zero eq_refl)
    as [[E _]|(_ & a & [= <-] & Ha & _)]; [discriminate E|].
  exists bootstrap_actor. split; [|reflexivity]. destruct Ha as [[_ E]|[Ha _]]; [|discriminate E|exact Ha].
  intros Hin. apply list_elem_of_In in Hin. destruct Hin as [E|[E|[E|[]]]]; discriminate E.
Defined.

(** A key handed out for the token of thirty-two zero bytes. *)
Definition sample_issue := handleAdminCreateKey (fun _ => None) None (inl (repeat 0 32)) "key_1" new_year "bootstrap"
  (inl {| cr_Name := "ci"; cr_Role := "operator"; cr_ClusterScope := ["prod"%string]; cr_TTL := "" |}) [].
Definition sample_rows : KeyTable := fst sample_issue.
Definition sample_token : string := match snd sample_issue with Ok _ (_, raw) => raw | Err _ _ => "" end.
Definition sample_key : APIKeyRecord := {|
  ak_ID := "key_1"; ak_TokenHash := HashToken sample_token; ak_Name := "ci"; ak_Role := "operator"; ak_ClusterScope := ["prod"%string];
  ak_CreatedAt := new_year; ak_ExpiresAt := 0; ak_LastUsedAt := 0; ak_RevokedAt := 0; ak_CreatedBy := "bootstrap" |}.

(** Anonymous reads before the key and eleven seconds after it. *)
Definition read_at (t : Z) (rows : KeyTable) (authorization : string) : visit := {|
  vi_now := t; vi_fails := None; vi_rows := rows; vi_request := request_with "GET" "/scans" authorization |}.

Definition early_reads : list visit := [read_at new_year [] ""; read_at (new_year + 1) sample_rows ""].
Definition late_read : visit := read_at (new_year + 11 * Second) sample_rows ("Bearer " ++ sample_token).

Lemma anonymous_reads_end_witness :
  fst (visit_gate sample_read keyed_server (read_at new_year [] "") auth_zero) = Served (Some anonymous_viewer) /\
  exists a, authentic sample_read keyed_server (vi_rows late_read) (vi_now late_read) (vi_request late_read) a.
Proof.
  split; [vm_compute; reflexivity|].
  destruct (anonymous_reads_end sample_read keyed_server early_reads late_read new_year (Some (key_actor (key_row sample_key)))
    (snd (visit_gate sample_read keyed_server late_read (after_visits sample_read keyed_server early_reads auth_zero))))
    as (a & _ & Ha).
  - vm_compute. discriminate.
  - intros w [->|[->|[]%not_elem_of_nil]%elem_of_cons]%elem_of_cons; [left; reflexivity | right; vm_compute; discriminate].
  - vm_compute. discriminate.
  - vm_compute. discriminate.
  - reflexivity.
  - vm_compute. reflexivity.
  - exists a. exact Ha.
Defined.

Lemma issued_key_resolves_witness :
  fst (resolveActor sample_read keyed_server None sample_rows (new_year + Hour) (request_with "GET" "/scans" ("Bearer " ++ sample_token)) auth_zero) =
  inl {| at_ID := "key_1"; at_Name := "ci"; at_Role := "operator"; at_ClusterScope := ["prod"%string] |}.
Proof.
  rewrite (issued_key_resolves sample_read (fun _ => None) (inl (repeat 0 32)) "key_1" new_year "bootstrap"
    {| cr_Name := "ci"; cr_Role := "operator"; cr_ClusterScope := ["prod"%string]; cr_TTL := "" |} [] sample_rows sample_key sample_token 201);
    [reflexivity | vm_compute; reflexivity | split; constructor | reflexivity | vm_compute; reflexivity | vm_compute; discriminate].
Defined.

Lemma revoked_forever_witness : exists why,
  resolveActor sample_read keyed_server None (fst (TouchAPIKey None "key_1" (new_year + Day) (fst (RevokeAPIKey None (new_year + Hour) "key_1" sample_rows))))
    (new_year + 2 * Day) (request_with "GET" "/scans" ("Bearer " ++ sample_token)) auth_zero = (inr why, auth_zero).
Proof.
  apply (revoked_forever sample_read keyed_server (fst (RevokeAPIKey None (new_year + Hour) "key_1" sample_rows))).
  - split; vm_compute; apply NoDup_singleton.
  - apply rtc_once. apply step_touch.
  - exists (with_revoked (stored_time (new_year + Hour)) (key_row sample_key)). split; [|split; vm_compute; reflexivity].
    vm_compute. left.
  - reflexivity.
  - vm_compute. discriminate.
  - vm_compute. discriminate.
Defined.
