(* ===== verification/Alerts.v ===== *)
(** * Inbound alerts: internal/store/alerts.go, internal/server/alertmanager_handler.go,
    falco_handler.go, inbound_webhook.go and tag_filter.go

    The table of alerts as a map from fingerprints to rows, the webhooks that fill it, and
    the list that serves it. A body that was read and decoded is an input, as are the
    failures of the database; a timestamp column keeps nanoseconds here. *)

From Stdlib Require Import ZArith Lia String Ascii Sorting.Sorted.
From stdpp Require Import base gmap strings list sets sorting.
From S2P Require Import Prelude Maps GoTime Text Strs Data Fingerprint Seal Keys Auth.

Local Open Scope Z_scope.

Record AlertRecord := {
  al_Fingerprint : string;
  al_Cluster : string;
  al_Status : string;
  al_AlertName : string;
  al_Severity : string;
  al_Summary : string;
  al_StartsAt : Z;
  al_EndsAt : Z;
  al_ReceivedAt : Z;
  al_Labels : gmap string string;
  al_Annotations : gmap string string;
  al_GeneratorURL : string
}.

Record AlertListOptions := { lo_Limit : Z; lo_Cluster : string; lo_Status : string; lo_Severity : string; lo_Since : Z }.

Abbreviation AlertTable := (gmap string AlertRecord).

(** ** The table *)

Definition received (now : Z) (rec : AlertRecord) : AlertRecord := {|
  al_Fingerprint := al_Fingerprint rec; al_Cluster := al_Cluster rec; al_Status := al_Status rec;
  al_AlertName := al_AlertName rec; al_Severity := al_Severity rec; al_Summary := al_Summary rec;
  al_StartsAt := al_StartsAt rec; al_EndsAt := al_EndsAt rec;
  al_ReceivedAt := if IsZero (al_ReceivedAt rec) then now else al_ReceivedAt rec;
  al_Labels := al_Labels rec; al_Annotations := al_Annotations rec; al_GeneratorURL := al_GeneratorURL rec |}.

(** On a conflict every column takes the new value. *)
Definition UpsertAlert (fails : option string) (now : Z) (rec : AlertRecord) (rows : AlertTable) : AlertTable * option store_error :=
  if String.eqb (al_Fingerprint rec) "" then (rows, Some (ErrStore "alert fingerprint required"))
  else match fails with
       | Some err => (rows, Some (ErrStore ("upsert alert: " ++ err)%string))
       | None => (<[al_Fingerprint rec := received now rec]> rows, None)
       end.

Definition GetAlert (fails : option string) (fingerprint : string) (rows : AlertTable) : AlertRecord + store_error :=
  match fails with
  | Some err => inr (ErrQuery ("get alert: " ++ err)%string)
  | None => match rows !! fingerprint with Some rec => inl rec | None => inr (ErrNotFound "") end
  end.

Definition alert_matches (opts : AlertListOptions) (rec : AlertRecord) : bool :=
  (String.eqb (lo_Cluster opts) "" || String.eqb (al_Cluster rec) (lo_Cluster opts)) &&
  (String.eqb (lo_Status opts) "" || String.eqb (al_Status rec) (lo_Status opts)) &&
  (String.eqb (lo_Severity opts) "" || String.eqb (al_Severity rec) (lo_Severity opts)) &&
  (IsZero (lo_Since opts) || (lo_Since opts <? al_ReceivedAt rec)).

Definition received_cmp : AlertRecord -> AlertRecord -> comparison := cmp_rev (cmp_on al_ReceivedAt Z.compare).

#[export] Instance received_cmp_order : CmpOrder received_cmp.
Proof. unfold received_cmp. exact _. Qed.

Definition default_limit (limit : Z) : Z := if limit <=? 0 then 200 else limit.

(** Alerts received at one instant come in any order. *)
Definition ListAlerts (fails : option string) (arrange : list AlertRecord -> list AlertRecord) (opts : AlertListOptions)
  (rows : AlertTable) : list AlertRecord + store_error :=
  match fails with
  | Some err => inr (ErrQuery ("list alerts: " ++ err)%string)
  | None =>
      let matching := List.filter (alert_matches opts) (map snd (map_to_list rows)) in
      inl (take (Z.to_nat (default_limit (lo_Limit opts))) (isort (less_of received_cmp) (arrange matching)))
  end.

(** The rows that are left, and how many were removed. *)
Definition PruneAlerts (fails : option string) (cutoff : Z) (rows : AlertTable) : AlertTable * (nat + store_error) :=
  match fails with
  | Some err => (rows, inr (ErrStore ("prune alerts: " ++ err)%string))
  | None =>
      let kept := filter (fun e => negb (al_ReceivedAt (snd e) <? cutoff) = true) rows in
      (kept, inl (size rows - size kept)%nat)
  end.

(** ** Authentication of the webhooks *)

Definition verifyBearer (header want : string) : bool :=
  if String.eqb want "" then false
  else if negb (String.prefix "Bearer " header) then false
  else
    let got := TrimPrefix header "Bearer " in
    (String.length got =? String.length want)%nat && String.eqb got want.

Definition webhookSignaturePrefix : string := "sha256=".

Definition verifyWebhookSignature (secret header body : string) : option string :=
  if negb (String.prefix webhookSignaturePrefix header) then Some "missing or malformed signature header"%string
  else match hex_decode (to_bytes (TrimPrefix header webhookSignaturePrefix)) with
  | None => Some "signature is not valid hex"%string
  | Some provided =>
      if bool_decide (hmac (to_bytes secret) (to_bytes body) = provided) then None else Some "signature mismatch"%string
  end.

Definition signWebhookBody (secret body : string) : string :=
  (webhookSignaturePrefix ++ hex_encode (hmac (to_bytes secret) (to_bytes body)))%string.

(** ** AlertManager *)

Record alertManagerAlert := {
  aa_Status : string; aa_Labels : gmap string string; aa_Annotations : gmap string string; aa_StartsAt : Z; aa_EndsAt : Z;
  aa_GeneratorURL : string; aa_Fingerprint : string }.

Record alertManagerPayload := {
  ap_Version : string; ap_Status : string; ap_Receiver : string; ap_CommonLabels : gmap string string;
  ap_CommonAnnotations : gmap string string; ap_Alerts : list alertManagerAlert }.

Record alertEventPayload := { ev_Fingerprint : string; ev_Cluster : string; ev_Status : string; ev_AlertName : string; ev_Severity : string }.

Definition event_of (rec : AlertRecord) : alertEventPayload := {|
  ev_Fingerprint := al_Fingerprint rec; ev_Cluster := al_Cluster rec; ev_Status := al_Status rec;
  ev_AlertName := al_AlertName rec; ev_Severity := al_Severity rec |}.

Definition mergeStringMaps (base overlay : gmap string string) : gmap string string := overlay ∪ base.

Fixpoint firstNonEmpty (values : list string) : string :=
  match values with
  | [] => ""
  | v :: values' => if negb (String.eqb v "") then v else firstNonEmpty values'
  end.

(** A Go map lookup: the zero value where the key is missing. *)
Definition label_value (labels : gmap string string) (k : string) : string := default ""%string (labels !! k).

Definition buildAlertRecord (a : alertManagerAlert) (commonLabels commonAnn : gmap string string) (now : Z) : AlertRecord :=
  let labels := mergeStringMaps commonLabels (aa_Labels a) in
  let ann := mergeStringMaps commonAnn (aa_Annotations a) in {|
    al_Fingerprint := aa_Fingerprint a; al_Cluster := label_value labels "cluster";
    al_Status := firstNonEmpty [aa_Status a; "firing"%string]; al_AlertName := label_value labels "alertname";
    al_Severity := label_value labels "severity"; al_Summary := label_value ann "summary"; al_StartsAt := aa_StartsAt a;
    al_EndsAt := aa_EndsAt a; al_ReceivedAt := now; al_Labels := labels; al_Annotations := ann;
    al_GeneratorURL := aa_GeneratorURL a |}.

(** What the loop over the alerts changes: the table, the number stored, the events. *)
Definition store_alert (fails : string -> option string) (now : Z) (p : alertManagerPayload)
  (acc : AlertTable * nat * list alertEventPayload) (a : alertManagerAlert) : AlertTable * nat * list alertEventPayload :=
  let '(rows, stored, events) := acc in
  let rec := buildAlertRecord a (ap_CommonLabels p) (ap_CommonAnnotations p) now in
  match UpsertAlert (fails (al_Fingerprint rec)) now rec rows with
  | (rows, Some _) => (rows, stored, events)
  | (rows, None) => (rows, S stored, events ++ [event_of rec])
  end.

(** The reply's body is the counts of alerts received and stored. *)
Definition handleAlertManagerWebhook (secret authorization : string) (body : option (option alertManagerPayload))
  (fails : string -> option string) (now : Z) (rows : AlertTable) : AlertTable * list alertEventPayload * reply (nat * nat) :=
  if String.eqb secret "" then (rows, [], Err 404 "alertmanager webhook disabled")
  else if negb (verifyBearer authorization secret) then (rows, [], Err 401 "invalid bearer token")
  else match body with
  | None => (rows, [], Err 400 "body too large or unreadable")
  | Some None => (rows, [], Err 400 "invalid JSON body")
  | Some (Some p) =>
      if negb (String.eqb (ap_Version p) "") && negb (String.eqb (ap_Version p) "4") then
        (rows, [], Err 400 "unsupported webhook payload version; want 4")
      else
        let '(rows, stored, events) := fold_left (store_alert fails now p) (ap_Alerts p) (rows, O, []) in
        (rows, events, Ok 202 (length (ap_Alerts p), stored))
  end.

(** ** Falco *)

Record falcoEvent := {
  fe_Output : string; fe_Priority : string; fe_Rule : string; fe_Time : Z; fe_OutputFields : list (string * json);
  fe_Hostname : string; fe_Source : string; fe_Tags : list string }.

(** [sum.Sum(nil)[:16]] in hex. *)
Definition falcoFingerprint (cluster rule pod container : string) : string :=
  ("falco-" ++ hex_encode (take 16 (sha256 (to_bytes cluster ++ zero :: to_bytes rule ++ zero :: to_bytes pod ++ zero :: to_bytes container))))%string.

Section Falco.

(** The writer of encoding/json. Priorities are ASCII words. *)
Context (Marshal : json -> string).

Definition stringifyFalcoFields (in_ : list (string * json)) : gmap string string :=
  list_to_map (omap (fun e => match snd e with
    | JStr t => Some (fst e, t)
    | JNull => None
    | v => Some (fst e, Marshal v)
    end) in_).

Definition set_unless_empty (k v : string) (labels : gmap string string) : gmap string string :=
  if String.eqb v "" then labels else <[k := v]> labels.

Definition falco_labels (ev : falcoEvent) : gmap string string :=
  set_unless_empty "hostname" (fe_Hostname ev)
    (set_unless_empty "falco_source" (fe_Source ev)
      ((match fe_Tags ev with [] => fun m => m | tags => <["tags" := join "," tags]> end)
        (<["source" := "falco"]> (stringifyFalcoFields (fe_OutputFields ev)))))%string.

Definition buildFalcoAlert (ev : falcoEvent) (clusterFromHeader : string) (now : Z) : AlertRecord :=
  let labels := falco_labels ev in
  let cluster := firstNonEmpty [label_value labels "cluster"; label_value labels "k8s_cluster_name"; label_value labels "k8s.cluster.name"; clusterFromHeader] in
  let labels := set_unless_empty "cluster" cluster labels in
  let pod := firstNonEmpty [label_value labels "k8s.pod.name"; label_value labels "k8s_pod_name"] in
  let container := firstNonEmpty [label_value labels "container.id"; label_value labels "container_id"] in {|
    al_Fingerprint := falcoFingerprint cluster (fe_Rule ev) pod container; al_Cluster := cluster; al_Status := "firing";
    al_AlertName := fe_Rule ev; al_Severity := of_bytes (to_lower (to_bytes (fe_Priority ev)));
    al_Summary := Truncate (fe_Output ev) 512; al_StartsAt := if IsZero (fe_Time ev) then now else fe_Time ev; al_EndsAt := 0;
    al_ReceivedAt := now; al_Labels := labels; al_Annotations := {["output"%string := fe_Output ev]}; al_GeneratorURL := "" |}.

Definition handleFalcoWebhook (secret authorization header : string) (body : option (option falcoEvent)) (fails : option string)
  (now : Z) (rows : AlertTable) : AlertTable * list alertEventPayload * reply (string * string) :=
  if String.eqb secret "" then (rows, [], Err 404 "falco webhook disabled")
  else if negb (verifyBearer authorization secret) then (rows, [], Err 401 "invalid bearer token")
  else match body with
  | None => (rows, [], Err 400 "body too large or unreadable")
  | Some None => (rows, [], Err 400 "invalid JSON body")
  | Some (Some ev) =>
      if String.eqb (fe_Rule ev) "" then (rows, [], Err 400 "missing rule field")
      else
        let rec := buildFalcoAlert ev header now in
        match UpsertAlert fails now rec rows with
        | (rows, Some _) => (rows, [], Err 500 "store failure")
        | (rows, None) => (rows, [event_of rec], Ok 202 (al_Fingerprint rec, al_Cluster rec))
        end
  end.

End Falco.

(** ** Serving alerts *)

(** [None] for the error: too small, or a character that is no digit before the bound is passed. *)
Fixpoint positive_loop (max n : Z) (s : bytes) : option Z :=
  match s with
  | [] => if n =? 0 then None else Some n
  | c :: s' =>
      if byte_in 48 57 c
      then let n := n * 10 + (byte_Z c - 48) in if max <? n then Some max else positive_loop max n s'
      else None
  end.

Definition parsePositiveInt (s : string) (max : Z) : option Z := positive_loop max 0 (to_bytes s).

Definition filterAlertsByActor (in_ : list AlertRecord) (a : Actor) (groupLookup : string -> list string) : list AlertRecord :=
  if String.eqb (at_Role a) RoleAdmin then in_
  else List.filter (fun r =>
    negb (String.eqb (al_Cluster r) "" && negb (String.eqb (at_Role a) RoleOperator)) &&
    negb (negb (String.eqb (al_Cluster r) "") && negb (AllowsCluster a (Some groupLookup) (al_Cluster r)))) in_.

(** The wanted tags of a query: the last value of each key. *)
Definition tag_wants (raw : list string) : gmap string string :=
  fold_left (fun wants t => match Cut t "=" with
    | Some (k, v) => if String.eqb k "" then wants else <[k := v]> wants
    | None => wants
    end) raw ∅.

(** [None] where the tags cannot be read. *)
Definition parseTagFilter (raw : list string) (all : option (gmap string (gmap string string))) : option (string -> bool) :=
  let wants := tag_wants raw in
  if (size wants =? 0)%nat then Some (fun _ => true)
  else match all with
  | None => None
  | Some all => Some (fun cluster =>
      match all !! cluster with
      | Some tags => forallb (fun w => String.eqb (label_value tags (fst w)) (snd w)) (map_to_list wants)
      | None => false
      end)
  end.

Definition filter_alert_tags (raw : list string) (all : option (gmap string (gmap string string))) (alerts : list AlertRecord) :
  list AlertRecord :=
  match raw, parseTagFilter raw all with
  | _ :: _, Some allows => List.filter (fun al => String.eqb (al_Cluster al) "" || allows (al_Cluster al)) alerts
  | _, _ => alerts
  end.

(** [err.Error()] of the store's errors. *)
Definition error_text (e : store_error) : string :=
  match e with
  | ErrInvalid what => "invalid: " ++ what
  | ErrDuplicate what => "duplicate: " ++ what
  | ErrNotFound what => if String.eqb what "" then "not found" else "not found: " ++ what
  | ErrStore what => "store: " ++ what
  | ErrQuery what => "query: " ++ what
  end.

(** The query of GET /api/alerts: a limit or a time that does not parse is left out. *)
Definition alert_options (ParseTime : string -> option Z) (cluster status severity limit since : string) : AlertListOptions := {|
  lo_Limit := default 0 (if String.eqb limit "" then None else parsePositiveInt limit 1000);
  lo_Cluster := cluster; lo_Status := status; lo_Severity := severity;
  lo_Since := default 0 (if String.eqb since "" then None else ParseTime since) |}.

(** The alerts with their ack state; [acked] are the fingerprints of the active acks. *)
Definition handleListAlerts (fails : option string) (arrange : list AlertRecord -> list AlertRecord) (opts : AlertListOptions)
  (ctx : option Actor) (groupLookup : string -> list string) (raw : list string) (tags : option (gmap string (gmap string string)))
  (acked : gset string) (rows : AlertTable) : reply (list (AlertRecord * bool)) :=
  match ListAlerts fails arrange opts rows with
  | inr err => Err 500 ("list alerts: " ++ error_text err)%string
  | inl alerts =>
      let alerts := match ctx with Some a => filterAlertsByActor alerts a groupLookup | None => alerts end in
      Ok 200 (map (fun al => (al, bool_decide (al_Fingerprint al ∈ acked))) (filter_alert_tags raw tags alerts))
  end.

(** ** Lemmas *)

Lemma verifyBearer_spec header want :
  verifyBearer header want = true <-> want <> ""%string /\ header = ("Bearer " ++ want)%string.
Proof.
  unfold verifyBearer. destruct (String.eqb_spec want "") as [->|Hw]; [split; [done|by intros [? _]]|].
  destruct (String.prefix "Bearer " header) eqn:Ep; cbn [negb].
  - unfold TrimPrefix. rewrite Ep. apply prefix_spec in Ep as [t ->].
    rewrite (proj2 (prefix_drop _ _)), andb_true_iff, String.eqb_eq, Nat.eqb_eq. split; [by intros [_ ->]|].
    intros [_ H]. injection H as H. change (t = want) in H. by subst.
  - split; [done|]. intros [_ ->]. by rewrite (proj1 (prefix_drop _ _)) in Ep.
Qed.

Definition storable (fails : string -> option string) (rec : AlertRecord) : bool :=
  negb (String.eqb (al_Fingerprint rec) "") && match fails (al_Fingerprint rec) with None => true | Some _ => false end.

(** The records of a payload that reach the table, in order. *)
Definition stored_records (fails : string -> option string) (now : Z) (p : alertManagerPayload) : list AlertRecord :=
  List.filter (storable fails) (map (fun a => buildAlertRecord a (ap_CommonLabels p) (ap_CommonAnnotations p) now) (ap_Alerts p)).

Definition put_alert (now : Z) (rows : AlertTable) (rec : AlertRecord) : AlertTable := <[al_Fingerprint rec := received now rec]> rows.

Lemma upsert_storable fails now rec rows : exists err,
  UpsertAlert (fails (al_Fingerprint rec)) now rec rows = if storable fails rec then (put_alert now rows rec, None) else (rows, Some err).
Proof.
  unfold UpsertAlert, storable. destruct (String.eqb (al_Fingerprint rec) ""); simpl; [by eexists|].
  destruct (fails _); [by eexists | by exists (ErrStore "")].
Qed.

Lemma store_alerts fails now p alerts rows n events :
  fold_left (store_alert fails now p) alerts (rows, n, events) =
  (let kept := List.filter (storable fails) (map (fun a => buildAlertRecord a (ap_CommonLabels p) (ap_CommonAnnotations p) now) alerts) in
   (fold_left (put_alert now) kept rows, (n + length kept)%nat, events ++ map event_of kept)).
Proof.
  revert rows n events. induction alerts as [|a alerts IH]; intros rows n events; [simpl; by rewrite Nat.add_0_r, app_nil_r|].
  cbn [fold_left map List.filter]. unfold store_alert at 2.
  set (rec := buildAlertRecord a (ap_CommonLabels p) (ap_CommonAnnotations p) now).
  destruct (upsert_storable fails now rec rows) as [err ->].
  destruct (storable fails rec); rewrite IH; [|done]. cbn zeta. cbn [fold_left length map]. f_equal; [f_equal; lia|].
  by rewrite <- app_assoc.
Qed.

(** The last record stored under a key is the one the table holds. *)
Lemma put_alerts_lookup now kept rows k :
  fold_left (put_alert now) kept rows !! k =
    match List.find (fun r => String.eqb (al_Fingerprint r) k) (rev kept) with
    | Some rec => Some (received now rec)
    | None => rows !! k
    end.
Proof.
  induction kept as [|rec kept IH] using rev_ind; [done|]. rewrite fold_left_app, rev_app_distr. simpl. unfold put_alert at 1.
  destruct (String.eqb_spec (al_Fingerprint rec) k) as [<-|Hn]; [by rewrite lookup_insert_eq | by rewrite lookup_insert_ne].
Qed.

Lemma take_worse {A} (cmp : A -> A -> comparison) `{!CmpOrder cmp} (n : nat) (l : list A) x y :
  x ∈ take n (isort (less_of cmp) l) -> y ∈ drop n (isort (less_of cmp) l) -> cmp_le cmp x y.
Proof.
  intros Hx Hy. assert (Hs : StronglySorted (cmp_le cmp) (isort (less_of cmp) l)) by (apply isort_sorted; exact _).
  rewrite <- (take_drop n (isort (less_of cmp) l)) in Hs. by apply (StronglySorted_app_1_elem_of _ _ _ x y Hs).
Qed.

(** ** Theorems *)

(** C36: a webhook without the shared secret, or whose payload is unreadable or names a version
    other than "4", changes nothing and announces nothing. With the secret, and a payload of
    version "4" or of no version at all, the table holds the last accepted record of every
    fingerprint in the payload and its other rows as they were, with one event per record
    stored. *)
Theorem alerts_stored secret authorization body fails now rows :
  let out := handleAlertManagerWebhook secret authorization body fails now rows in
  (fst (fst out) <> rows \/ snd (fst out) <> [] -> secret <> ""%string /\ authorization = ("Bearer " ++ secret)%string /\
     exists p, body = Some (Some p) /\ In (ap_Version p) [""%string; "4"%string]) /\
  (forall p, secret <> ""%string -> authorization = ("Bearer " ++ secret)%string -> body = Some (Some p) ->
     In (ap_Version p) [""%string; "4"%string] ->
     let kept := stored_records fails now p in
     (forall k, fst (fst out) !! k =
        match List.find (fun r => String.eqb (al_Fingerprint r) k) (rev kept) with
        | Some rec => Some (received now rec)
        | None => rows !! k
        end) /\
     snd (fst out) = map event_of kept /\ snd out = Ok 202 (length (ap_Alerts p), length kept)).
Proof.
  intros out. split.
  - intros H. unfold out, handleAlertManagerWebhook in H. destruct (String.eqb_spec secret ""); [simpl in H; by destruct H|].
    destruct (verifyBearer authorization secret) eqn:E; [|simpl in H; by destruct H]. apply verifyBearer_spec in E as [Hs Ha].
    split_and!; [done..|]. destruct body as [[p|]|]; cbn [negb] in H; [|simpl in H; by destruct H..]. exists p. split; [done|].
    destruct (String.eqb_spec (ap_Version p) "") as [->|]; [by left|].
    destruct (String.eqb_spec (ap_Version p) "4") as [->|]; [by right; left|]. simpl in H. by destruct H.
  - intros p Hs Ha Hb Hv kept. unfold out, handleAlertManagerWebhook. rewrite (proj2 (String.eqb_neq _ _) Hs).
    rewrite (proj2 (verifyBearer_spec _ _) (conj Hs Ha)), Hb. cbn [negb].
    assert (negb (String.eqb (ap_Version p) "") && negb (String.eqb (ap_Version p) "4") = false) as ->.
    { destruct Hv as [<-|[<-|[]]]; reflexivity. }
    rewrite store_alerts. cbn [fst snd]. fold (stored_records fails now p). fold kept. split_and!; [|done|done].
    intros k. apply put_alerts_lookup.
Qed.

(** What an actor may see. *)
Definition visible_to (lookup : string -> list string) (a : Actor) (al : AlertRecord) : Prop :=
  at_Role a = RoleAdmin \/
  al_Cluster al = ""%string /\ at_Role a = RoleOperator \/
  al_Cluster al <> ""%string /\ AllowsCluster a (Some lookup) (al_Cluster al) = true.

(** The list of alerts serves only rows of the table that match the query and that the actor
    may see, at most the limit, and when alerts are cut off the newest are kept. *)
Theorem alerts_served_in_scope arrange opts a lookup raw tags acked rows views :
  (forall l, arrange l ≡ₚ l) ->
  handleListAlerts None arrange opts (Some a) lookup raw tags acked rows = Ok 200 views ->
  (length views <= Z.to_nat (default_limit (lo_Limit opts)))%nat /\
  (forall al b, (al, b) ∈ views ->
     (exists k, rows !! k = Some al) /\ alert_matches opts al = true /\ visible_to lookup a al /\
     b = bool_decide (al_Fingerprint al ∈ acked)) /\
  exists listed cut, listed ++ cut ≡ₚ List.filter (alert_matches opts) (map snd (map_to_list rows)) /\
    (forall al b, (al, b) ∈ views -> al ∈ listed) /\
    (forall x y, x ∈ listed -> y ∈ cut -> al_ReceivedAt y <= al_ReceivedAt x).
Proof.
  intros Harr. unfold handleListAlerts, ListAlerts. set (m := List.filter (alert_matches opts) _). intros [= <-].
  set (n := Z.to_nat _). set (sorted := isort (less_of received_cmp) (arrange m)).
  assert (Hperm : sorted ≡ₚ m) by (unfold sorted; rewrite isort_perm; apply Harr).
  assert (Hsub : forall al, al ∈ filter_alert_tags raw tags (filterAlertsByActor (take n sorted) a lookup) ->
    al ∈ take n sorted /\ visible_to lookup a al).
  { intros al Hal. assert (Hf : al ∈ filterAlertsByActor (take n sorted) a lookup).
    { unfold filter_alert_tags in Hal. destruct raw; [done|]. destruct (parseTagFilter _ _); [|done].
      by apply list_elem_of_In, filter_In, proj1, list_elem_of_In in Hal. }
    unfold filterAlertsByActor in Hf. destruct (String.eqb_spec (at_Role a) RoleAdmin) as [He|]; [split; [done|by left]|].
    apply list_elem_of_In, filter_In in Hf as [Hin%list_elem_of_In Hp]. split; [done|]. right.
    apply andb_true_iff in Hp as [H1 H2]. destruct (String.eqb_spec (al_Cluster al) "") as [Hc|Hc]; simpl in *.
    - left. destruct (String.eqb_spec (at_Role a) RoleOperator); [done|]. done.
    - right. split; [done|]. by rewrite !negb_involutive in H2. }
  assert (Hlen : forall l, (length (filter_alert_tags raw tags (filterAlertsByActor l a lookup)) <= length l)%nat).
  { intros l. transitivity (length (filterAlertsByActor l a lookup)).
    - unfold filter_alert_tags. repeat case_match; try done. apply filter_length_le.
    - unfold filterAlertsByActor. case_match; [done|]. apply filter_length_le. }
  split_and!.
  - rewrite length_map. etrans; [apply Hlen|]. rewrite length_take. lia.
  - intros al b (al' & [= <- ->] & Hal)%list_elem_of_fmap. apply Hsub in Hal as [Hal Hvis].
    assert (Hm : al ∈ m) by (rewrite <- Hperm, <- (take_drop n sorted); apply elem_of_app; by left).
    apply list_elem_of_In, filter_In in Hm as [Hm%list_elem_of_In Hmatch].
    apply list_elem_of_fmap in Hm as ([k al'] & -> & Hk%elem_of_map_to_list). split_and!; [by exists k | done | done | done].
  - exists (take n sorted), (drop n sorted). split_and!.
    + by rewrite take_drop.
    + intros al b (al' & [= <- ->] & Hal)%list_elem_of_fmap. by apply Hsub.
    + intros x y Hx Hy. pose proof (take_worse received_cmp n (arrange m) x y Hx Hy) as H. unfold cmp_le, received_cmp, cmp_rev, cmp_on in H.
      rewrite Z.compare_gt_iff in H. lia.
Qed.

(** The signature of a webhook body is accepted, and whatever is accepted decodes to the
    HMAC of the body under the secret. *)
Theorem webhook_signature_sound secret body :
  verifyWebhookSignature secret (signWebhookBody secret body) body = None /\
  (forall header, verifyWebhookSignature secret header body = None ->
     exists digits, header = (webhookSignaturePrefix ++ digits)%string /\
       hex_decode (to_bytes digits) = Some (hmac (to_bytes secret) (to_bytes body))).
Proof.
  unfold verifyWebhookSignature. split.
  - unfold signWebhookBody, TrimPrefix. rewrite (proj1 (prefix_drop _ _)), (proj2 (prefix_drop _ _)). cbn [negb].
    rewrite hex_encode_bytes, hex_roundtrip by apply hmac_shape. by rewrite bool_decide_eq_true_2.
  - intros header. destruct (String.prefix _ header) eqn:Ep; [|done]. cbn [negb]. unfold TrimPrefix. rewrite Ep.
    apply prefix_spec in Ep as [t ->]. rewrite (proj2 (prefix_drop _ _)).
    destruct (hex_decode (to_bytes t)) as [provided|] eqn:Ed; [|done]. case_bool_decide as Hm; [|done].
    intros _. exists t. by rewrite Ed, Hm.
Qed.

(** A number is read up to the bound, and anything above it as the bound. *)
Lemma positive_loop_range max s n v : 1 <= max -> 0 <= n <= max -> positive_loop max n s = Some v -> 1 <= v <= max.
Proof.
  intros Hm. revert n. induction s as [|c s IH]; intros n Hn; simpl.
  - destruct (Z.eqb_spec n 0); [done|]. intros [= <-]. lia.
  - destruct (byte_in 48 57 c) eqn:Eb; [|done]. destruct (Z.ltb_spec max (n * 10 + (byte_Z c - 48))).
    + intros [= <-]. lia.
    + apply IH. split; [|done]. apply andb_true_iff in Eb as [E _]. apply Nat.leb_le in E. unfold byte_Z, nat_of_ascii in *. lia.
Qed.

(** Out of range is not an error: the bound is returned. *)
Example parsePositiveInt_ex :
  (parsePositiveInt "25" 1000, parsePositiveInt "5000" 1000, parsePositiveInt "0" 1000, parsePositiveInt "9999x" 1000) =
  (Some 25, Some 1000, None, Some 1000).
Proof. vm_compute. reflexivity. Qed.

(** ** Witnesses *)

Definition sample_alert (cluster : string) (at_ : Z) : AlertRecord := {|
  al_Fingerprint := "fp-" ++ cluster; al_Cluster := cluster; al_Status := "firing"; al_AlertName := "NodeDown"; al_Severity := "critical";
  al_Summary := ""; al_StartsAt := at_; al_EndsAt := 0; al_ReceivedAt := at_; al_Labels := ∅; al_Annotations := ∅; al_GeneratorURL := "" |}.

Definition sample_alerts : AlertTable := {["fp-prod"%string := sample_alert "prod" 100]}.

Lemma alerts_served_in_scope_witness :
  visible_to (fun _ => []) {| at_ID := "k"; at_Name := ""; at_Role := "viewer"; at_ClusterScope := ["prod"%string] |} (sample_alert "prod" 100).
Proof.
  destruct (alerts_served_in_scope (fun l => l) {| lo_Limit := 0; lo_Cluster := ""; lo_Status := "firing"; lo_Severity := ""; lo_Since := 0 |}
    {| at_ID := "k"; at_Name := ""; at_Role := "viewer"; at_ClusterScope := ["prod"%string] |} (fun _ => []) [] None ∅ sample_alerts
    [(sample_alert "prod" 100, false)]) as (_ & H & _); [reflexivity | vm_compute; reflexivity |].
  destruct (H (sample_alert "prod" 100) false) as (_ & _ & Hv & _); [left | exact Hv].
Defined.
