(* ===== verification/Acks.v ===== *)
(** * Acknowledgements: internal/store/acks.go, internal/server/acks_handler.go and the marks
    of history_findings.go

    The table of acks as a map from fingerprints to rows; the handlers that record and
    clear them, behind the scope of the actor; the marks they leave on findings. The
    failures of the two statements of a read, the pruning and the query, are inputs. *)

From Stdlib Require Import ZArith Lia String Ascii.
From stdpp Require Import base gmap strings list sets.
From S2P Require Import Prelude Maps GoTime Text Strs Data Fingerprint Rules Keys Auth Alerts.

Local Open Scope Z_scope.

Record AckRecord := {
  ar_Fingerprint : string;
  ar_Cluster : string;
  ar_Scanner : string;
  ar_Title : string;
  ar_AckBy : string;
  ar_Reason : string;
  ar_SnoozeUntil : Z;
  ar_CreatedAt : Z
}.

Abbreviation AckTable := (gmap string AckRecord).

(** ** The table *)

Definition ack_row (now : Z) (rec : AckRecord) : AckRecord := {|
  ar_Fingerprint := ar_Fingerprint rec; ar_Cluster := ar_Cluster rec; ar_Scanner := ar_Scanner rec; ar_Title := ar_Title rec;
  ar_AckBy := ar_AckBy rec; ar_Reason := ar_Reason rec; ar_SnoozeUntil := stored_time (ar_SnoozeUntil rec);
  ar_CreatedAt := stored_time (if IsZero (ar_CreatedAt rec) then now else ar_CreatedAt rec) |}.

Definition SaveAck (fails : option string) (now : Z) (rec : AckRecord) (rows : AckTable) : AckTable * option store_error :=
  if String.eqb (ar_Fingerprint rec) "" then (rows, Some (ErrInvalid "ack: fingerprint required"))
  else match fails with
       | Some err => (rows, Some (ErrStore ("save ack: " ++ err)%string))
       | None => (<[ar_Fingerprint rec := ack_row now rec]> rows, None)
       end.

Definition DeleteAck (fails : option string) (fingerprint : string) (rows : AckTable) : AckTable * option store_error :=
  match fails with
  | Some err => (rows, Some (ErrStore ("delete ack: " ++ err)%string))
  | None => (delete fingerprint rows, None)
  end.

(** [snooze_until IS NOT NULL AND ... AND snooze_until < now]. *)
Definition snooze_over (now : Z) (rec : AckRecord) : bool :=
  negb (IsZero (ar_SnoozeUntil rec)) && (ar_SnoozeUntil rec <? stored_time now).

Definition pruned (now : Z) (rows : AckTable) : AckTable := filter (fun e => negb (snooze_over now (snd e)) = true) rows.

Definition pruneExpiredAcks (fails : option string) (now : Z) (rows : AckTable) : AckTable * option store_error :=
  match fails with
  | Some err => (rows, Some (ErrStore ("prune expired acks: " ++ err)%string))
  | None => (pruned now rows, None)
  end.

Definition GetAck (fails fails' : option string) (now : Z) (fingerprint : string) (rows : AckTable) :
  AckTable * (AckRecord + store_error) :=
  match pruneExpiredAcks fails now rows with
  | (rows, Some err) => (rows, inr err)
  | (rows, None) =>
      (rows, match fails' with
             | Some err => inr (ErrQuery ("get ack: " ++ err)%string)
             | None => match rows !! fingerprint with Some rec => inl rec | None => inr (ErrNotFound "get ack") end
             end)
  end.

Definition acked_cmp : AckRecord -> AckRecord -> comparison := cmp_rev (cmp_on ar_CreatedAt Z.compare).

Definition ListAcks (fails fails' : option string) (arrange : list AckRecord -> list AckRecord) (now : Z) (rows : AckTable) :
  AckTable * (list AckRecord + store_error) :=
  match pruneExpiredAcks fails now rows with
  | (rows, Some err) => (rows, inr err)
  | (rows, None) =>
      (rows, match fails' with
             | Some err => inr (ErrStore ("list acks: " ++ err)%string)
             | None => inl (isort (less_of acked_cmp) (arrange (map snd (map_to_list rows))))
             end)
  end.

Definition IsAcked (fails fails' : option string) (now : Z) (fingerprint : string) (rows : AckTable) :
  AckTable * (bool + store_error) :=
  match pruneExpiredAcks fails now rows with
  | (rows, Some err) => (rows, inr err)
  | (rows, None) =>
      (rows, match fails' with
             | Some err => inr (ErrStore ("is acked: " ++ err)%string)
             | None => inl (match rows !! fingerprint with Some _ => true | None => false end)
             end)
  end.

(** ** The handlers *)

Record ackRequest := { aq_AckBy : string; aq_Reason : string; aq_SnoozeUntil : string }.

(** The error of [latestReport] is not the store's [ErrNotFound]. *)
Definition currentFinding (latest : option Report + string) (fp : string) : Finding + store_error :=
  match latest with
  | inr err => inr (ErrQuery err)
  | inl None => inr (ErrNotFound "")
  | inl (Some r) =>
      match List.find (fun f => String.eqb (fi_Fingerprint f) fp) (rp_Findings r) with
      | Some f => inl f
      | None => inr (ErrNotFound "")
      end
  end.

Definition allowsAckCluster (ctx : option Actor) (lookup : string -> list string) (cluster : string) : bool :=
  let actor := actorFromContext ctx in
  if String.eqb cluster "" || String.eqb cluster "fleet" then HasWildcardScope actor
  else AllowsCluster actor (Some lookup) cluster.

Definition no_ack (fp cluster scanner title : string) : AckRecord := {|
  ar_Fingerprint := fp; ar_Cluster := cluster; ar_Scanner := scanner; ar_Title := title; ar_AckBy := ""; ar_Reason := "";
  ar_SnoozeUntil := 0; ar_CreatedAt := 0 |}.

(** [body] is [None] for an empty body, and an error where decoding already answered. *)
Definition saveAck (ParseTime : string -> option Z) (fails : option string) (now : Z) (body : option (ackRequest + string))
  (base : AckRecord) (rows : AckTable) : AckTable * reply AckRecord :=
  match body with
  | Some (inr err) => (rows, Err 400 err)
  | _ =>
      let req := match body with Some (inl req) => req | _ => {| aq_AckBy := ""; aq_Reason := ""; aq_SnoozeUntil := "" |} end in
      match (if String.eqb (aq_SnoozeUntil req) "" then Some (ar_SnoozeUntil base) else ParseTime (aq_SnoozeUntil req)) with
      | None => (rows, Err 400 "snooze_until must be RFC3339")
      | Some snooze =>
          let rec := {| ar_Fingerprint := ar_Fingerprint base; ar_Cluster := ar_Cluster base; ar_Scanner := ar_Scanner base;
            ar_Title := ar_Title base; ar_AckBy := aq_AckBy req; ar_Reason := aq_Reason req; ar_SnoozeUntil := snooze;
            ar_CreatedAt := now |} in
          match SaveAck fails now rec rows with
          | (rows, Some _) => (rows, Err 500 "save ack failed")
          | (rows, None) => (rows, Ok 201 rec)
          end
      end
  end.

Section Handlers.

Context (ParseTime : string -> option Z) (ctx : option Actor) (lookup : string -> list string) (now : Z).

Definition store_refusal {A} (e : store_error) (op notFound : string) : reply A :=
  match e with ErrNotFound _ => Err 404 notFound | _ => Err 500 (op ++ " failed")%string end.

Definition handleCreateAck (latest : option Report + string) (fails : option string) (fp : string)
  (body : option (ackRequest + string)) (rows : AckTable) : AckTable * reply AckRecord :=
  if String.eqb fp "" then (rows, Err 400 "fingerprint required")
  else match currentFinding latest fp with
  | inr err => (rows, store_refusal err "acks: find finding" "no current finding has this fingerprint")
  | inl f =>
      if negb (allowsAckCluster ctx lookup (fi_Cluster f)) then (rows, Err 403 "finding cluster not in actor scope")
      else saveAck ParseTime fails now body (no_ack fp (fi_Cluster f) (fi_Scanner f) (fi_Title f)) rows
  end.

Definition handleAckAlert (alerts : AlertTable) (alertFails fails : option string) (fp : string)
  (body : option (ackRequest + string)) (rows : AckTable) : AckTable * reply AckRecord :=
  if String.eqb fp "" then (rows, Err 400 "fingerprint required")
  else match GetAlert alertFails fp alerts with
  | inr err => (rows, store_refusal err "acks: get alert" "alert not found")
  | inl alert =>
      if negb (allowsAckCluster ctx lookup (al_Cluster alert)) then (rows, Err 403 "alert cluster not in actor scope")
      else saveAck ParseTime fails now body
        (no_ack fp (al_Cluster alert) ("alert:" ++ firstNonEmpty [label_value (al_Labels alert) "source"; "alertmanager"%string])%string
           (al_AlertName alert)) rows
  end.

Definition handleDeleteAck (pruneFails getFails fails : option string) (fp : string) (rows : AckTable) : AckTable * reply unit :=
  if String.eqb fp "" then (rows, Err 400 "fingerprint required")
  else match GetAck pruneFails getFails now fp rows with
  | (rows, inr (ErrNotFound _)) => (rows, Ok 204 tt)
  | (rows, inr _) => (rows, Err 500 "get ack failed")
  | (rows, inl rec) =>
      if negb (allowsAckCluster ctx lookup (ar_Cluster rec)) then (rows, Err 403 "ack cluster not in actor scope")
      else match DeleteAck fails fp rows with
      | (rows, Some _) => (rows, Err 500 "delete ack failed")
      | (rows, None) => (rows, Ok 204 tt)
      end
  end.

End Handlers.

(** ** Marks *)

(** An error of the list leaves nothing acknowledged. *)
Definition ackedFingerprints (acks : list AckRecord + store_error) : gset string :=
  match acks with inr _ => ∅ | inl acks => list_to_set (map ar_Fingerprint acks) end.

Definition with_acked (b : bool) (f : Finding) : Finding := {|
  fi_Title := fi_Title f; fi_Description := fi_Description f; fi_Severity := fi_Severity f; fi_Cluster := fi_Cluster f;
  fi_Scanner := fi_Scanner f; fi_Rule := fi_Rule f; fi_Fingerprint := fi_Fingerprint f; fi_Acked := b; fi_Affected := fi_Affected f;
  fi_Remediation := fi_Remediation f; fi_Norm := fi_Norm f; fi_Marks := fi_Marks f |}.

Definition markAcked (acked : gset string) (fs : list Finding) : list Finding :=
  map (fun f => with_acked (bool_decide (FindingFingerprint f ∈ acked)) f) fs.

(** ** Lemmas *)

(** An ack in force: the table has it, and it is not past its snooze. *)
Definition in_force (now : Z) (fp : string) (rows : AckTable) : Prop := exists rec, rows !! fp = Some rec /\ snooze_over now rec = false.

Lemma pruned_lookup_ack now rows fp rec : pruned now rows !! fp = Some rec <-> rows !! fp = Some rec /\ snooze_over now rec = false.
Proof.
  unfold pruned. rewrite map_lookup_filter_Some. simpl. rewrite negb_true_iff. done.
Qed.

Lemma in_force_pruned now later fp rows : now <= later -> in_force later fp (pruned now rows) <-> in_force later fp rows.
Proof.
  intros Hle. unfold in_force. split.
  - intros (rec & [Hr _]%pruned_lookup_ack & He). by exists rec.
  - intros (rec & Hr & He). exists rec. split; [|done]. apply pruned_lookup_ack. split; [done|].
    unfold snooze_over in *. destruct (IsZero (ar_SnoozeUntil rec)); [done|]. simpl in *. apply Z.ltb_ge in He. apply Z.ltb_ge.
    assert (stored_time now <= stored_time later); [|lia]. unfold stored_time.
    pose proof (Z.div_le_mono now later Second ltac:(done) Hle). pose proof (Z.div_mod now Second ltac:(done)).
    pose proof (Z.div_mod later Second ltac:(done)). unfold Second in *. lia.
Qed.

Lemma is_acked_spec now fp rows b rows' : IsAcked None None now fp rows = (rows', inl b) -> b = true <-> in_force now fp rows.
Proof.
  unfold IsAcked. simpl. intros [= <- <-]. unfold in_force. split.
  - destruct (pruned now rows !! fp) as [rec|] eqn:E; [|done]. intros _. exists rec. by apply pruned_lookup_ack.
  - intros (rec & H). apply pruned_lookup_ack in H. by rewrite H.
Qed.

(** ** The history of the table *)

Inductive ack_op := OpSave (rec : AckRecord) | OpDelete (fp : string) | OpRead.

(** Each operation at its time; every read prunes. *)
Definition ack_step (rows : AckTable) (e : Z * ack_op) : AckTable :=
  match snd e with
  | OpSave rec => fst (SaveAck None (fst e) rec rows)
  | OpDelete fp => fst (DeleteAck None fp rows)
  | OpRead => pruned (fst e) rows
  end.

Definition ack_run (ops : list (Z * ack_op)) : AckTable := fold_left ack_step ops ∅.

(** The specification: the last operation on a fingerprint decides, and reads do nothing. *)
Definition last_step (fp : string) (acc : option AckRecord) (e : Z * ack_op) : option AckRecord :=
  match snd e with
  | OpSave rec => if String.eqb (ar_Fingerprint rec) fp && negb (String.eqb fp "") then Some (ack_row (fst e) rec) else acc
  | OpDelete fp' => if String.eqb fp' fp then None else acc
  | OpRead => acc
  end.

Definition last_ack (fp : string) (ops : list (Z * ack_op)) : option AckRecord := fold_left (last_step fp) ops None.

Lemma run_in_force fp ops later : (forall e, e ∈ ops -> fst e <= later) ->
  in_force later fp (ack_run ops) <-> exists rec, last_ack fp ops = Some rec /\ snooze_over later rec = false.
Proof.
  unfold ack_run, last_ack. induction ops as [|[now op] ops IH] using rev_ind; intros Hle.
  { unfold in_force. simpl. split; [intros (rec & H & _); by rewrite lookup_empty in H | by intros (rec & H & _)]. }
  rewrite !fold_left_app. simpl. assert (Hnow : now <= later) by (apply (Hle (now, op)); set_solver).
  specialize (IH ltac:(intros; apply Hle; set_solver)). revert IH. generalize (fold_left ack_step ops ∅) as rows.
  generalize (fold_left (last_step fp) ops None) as last. intros last rows IH. unfold ack_step, last_step. simpl.
  destruct op as [rec | fp' |]; simpl.
  - unfold SaveAck. destruct (String.eqb_spec (ar_Fingerprint rec) "") as [He|Hne]; simpl.
    + rewrite He. destruct (String.eqb_spec "" fp) as [<-|]; simpl; exact IH.
    + destruct (String.eqb_spec (ar_Fingerprint rec) fp) as [<-|Hfp]; simpl.
      * rewrite (proj2 (String.eqb_neq _ _) Hne). simpl. unfold in_force. rewrite lookup_insert_eq. done.
      * unfold in_force. rewrite lookup_insert_ne by done. exact IH.
  - unfold in_force. destruct (String.eqb_spec fp' fp) as [<-|Hfp].
    + rewrite lookup_delete_eq. by split; intros (? & ? & _).
    + rewrite lookup_delete_ne by done. exact IH.
  - by rewrite in_force_pruned.
Qed.

(** C35: whether a finding is acknowledged is decided by the last acknowledgement or removal of its
    fingerprint and by the snooze alone: the reads in between, which delete expired rows,
    never change an answer. *)
Theorem acks_remembered fp ops later rows' b : (forall e, e ∈ ops -> fst e <= later) ->
  IsAcked None None later fp (ack_run ops) = (rows', inl b) ->
  b = true <-> exists rec, last_ack fp ops = Some rec /\ snooze_over later rec = false.
Proof. intros Hle H. rewrite (is_acked_spec _ _ _ _ _ H). by apply run_in_force. Qed.

Lemma saveAck_shape ParseTime fails now body base rows rows' r :
  saveAck ParseTime fails now body base rows = (rows', r) ->
  rows' = rows \/ exists rec, rows' = <[ar_Fingerprint base := rec]> rows /\ ar_Cluster rec = ar_Cluster base /\
    ar_Scanner rec = ar_Scanner base /\ ar_Title rec = ar_Title base.
Proof.
  unfold saveAck, SaveAck. intros H. repeat case_match; simplify_eq; try (by left); right; by eexists.
Qed.

(** Only an actor whose scope covers the cluster of a current finding, of a stored alert or of
    the ack itself can record or clear an ack, and what an ack covers is taken from what the
    server holds, never from the request. *)
Theorem acks_need_scope ParseTime ctx lookup now latest alerts fails fails' fails'' fp body rows :
  (forall rows' r, handleCreateAck ParseTime ctx lookup now latest fails fp body rows = (rows', r) ->
     rows' = rows \/ exists report f rec, latest = inl (Some report) /\ f ∈ rp_Findings report /\ fi_Fingerprint f = fp /\
       allowsAckCluster ctx lookup (fi_Cluster f) = true /\ rows' = <[fp := rec]> rows /\ ar_Cluster rec = fi_Cluster f /\
       ar_Scanner rec = fi_Scanner f /\ ar_Title rec = fi_Title f) /\
  (forall rows' r, handleAckAlert ParseTime ctx lookup now alerts fails' fails fp body rows = (rows', r) ->
     rows' = rows \/ exists alert rec, alerts !! fp = Some alert /\ allowsAckCluster ctx lookup (al_Cluster alert) = true /\
       rows' = <[fp := rec]> rows /\ ar_Cluster rec = al_Cluster alert /\ ar_Title rec = al_AlertName alert) /\
  (forall rows' r k rec, handleDeleteAck ctx lookup now fails fails' fails'' fp rows = (rows', r) ->
     rows !! k = Some rec -> rows' !! k = None ->
     snooze_over now rec = true \/ k = fp /\ allowsAckCluster ctx lookup (ar_Cluster rec) = true).
Proof.
  split_and!.
  - intros rows' r. unfold handleCreateAck. destruct (String.eqb fp ""); [intros [= <- _]; by left|].
    destruct (currentFinding latest fp) as [f|err] eqn:Ef; [|intros [= <- _]; by left].
    destruct (allowsAckCluster ctx lookup (fi_Cluster f)) eqn:Ea; [|intros [= <- _]; by left]. simpl.
    intros [?|(rec & -> & Hc & Hs & Ht)]%saveAck_shape; [by left|]. right.
    unfold currentFinding in Ef. destruct latest as [[report|]|]; try done.
    destruct (List.find _ _) as [g|] eqn:Eg; [|done]. injection Ef as ->.
    apply find_some in Eg as [Hin%list_elem_of_In Hfp%String.eqb_eq]. by exists report, f, rec.
  - intros rows' r. unfold handleAckAlert, GetAlert. destruct (String.eqb fp ""); [intros [= <- _]; by left|].
    destruct fails' as [err|]; [intros [= <- _]; by left|].
    destruct (alerts !! fp) as [alert|] eqn:Ef; [|intros [= <- _]; by left].
    destruct (allowsAckCluster ctx lookup (al_Cluster alert)) eqn:Ea; [|intros [= <- _]; by left]. simpl.
    intros [?|(rec & -> & Hc & Hs & Ht)]%saveAck_shape; [by left|]. right. by exists alert, rec.
  - intros rows' r k rec H Hk Hnone. destruct (snooze_over now rec) eqn:Ee; [by left|]. right.
    assert (Hp : pruned now rows !! k = Some rec) by (by apply pruned_lookup_ack).
    unfold handleDeleteAck, GetAck, pruneExpiredAcks in H. destruct (String.eqb fp ""); [simplify_eq; congruence|].
    destruct fails as [err|]; [simplify_eq; congruence|]. destruct fails' as [err|]; [simplify_eq; congruence|].
    destruct (pruned now rows !! fp) as [rec'|] eqn:Ef; [|simplify_eq; congruence].
    destruct (allowsAckCluster ctx lookup (ar_Cluster rec')) eqn:Ea; simpl in H; [|simplify_eq; congruence]. unfold DeleteAck in H.
    destruct fails'' as [err|]; [simplify_eq; congruence|]. injection H as <- _.
    destruct (decide (fp = k)) as [->|Hne]; [assert (rec' = rec) as -> by congruence; done|]. rewrite lookup_delete_ne in Hnone by done. congruence.
Qed.

(** The rows carry their keys. *)
Definition acks_keyed (rows : AckTable) : Prop := forall k rec, rows !! k = Some rec -> ar_Fingerprint rec = k.

Lemma run_keyed ops : acks_keyed (ack_run ops).
Proof.
  unfold ack_run. induction ops as [|[now op] ops IH] using rev_ind; [intros k rec H; simpl in H; by rewrite lookup_empty in H|].
  rewrite fold_left_app. simpl. revert IH. generalize (fold_left ack_step ops ∅) as rows. intros rows IH k rec. unfold ack_step. simpl.
  destruct op; simpl.
  - unfold SaveAck. destruct (String.eqb _ _); simpl; [by apply IH|]. intros [[<- <-]|[_ H]]%lookup_insert_Some; [done|by apply IH].
  - intros [_ H]%lookup_delete_Some. by apply IH.
  - intros [H _]%pruned_lookup_ack. by apply IH.
Qed.

(** A served finding is marked acknowledged exactly when an ack of its identity is in force. *)
Theorem marks_match_acks arrange now ops rows' acks fs i f f' :
  (forall l, arrange l ≡ₚ l) -> ListAcks None None arrange now (ack_run ops) = (rows', inl acks) ->
  fs !! i = Some f -> markAcked (ackedFingerprints (inl acks)) fs !! i = Some f' ->
  f' = with_acked (fi_Acked f') f /\ (fi_Acked f' = true <-> in_force now (FindingFingerprint f) (ack_run ops)).
Proof.
  intros Harr Hl Hf Hf'. unfold markAcked in Hf'. rewrite list_lookup_fmap, Hf in Hf'. injection Hf' as <-. split; [done|].
  cbn [with_acked fi_Acked]. rewrite bool_decide_eq_true. unfold ackedFingerprints. rewrite elem_of_list_to_set.
  unfold ListAcks in Hl. simpl in Hl. injection Hl as _ <-. pose proof (run_keyed ops) as Hkeys. generalize dependent (ack_run ops).
  intros rows Hkeys. rewrite list_elem_of_fmap. setoid_rewrite (isort_perm (less_of acked_cmp)). setoid_rewrite Harr.
  setoid_rewrite list_elem_of_fmap. unfold in_force. split.
  - intros (rec & -> & ([k rec'] & -> & Hk%elem_of_map_to_list%pruned_lookup_ack)). simpl in *.
    exists rec'. by rewrite (Hkeys k rec' (proj1 Hk)).
  - intros (rec & Hr & He). exists rec. split; [by rewrite (Hkeys _ _ Hr)|]. exists (FindingFingerprint f, rec). split; [done|].
    apply elem_of_map_to_list, pruned_lookup_ack. done.
Qed.

(** ** Witnesses *)

Definition sample_ack (snooze : Z) : AckRecord := {|
  ar_Fingerprint := "fp"; ar_Cluster := "prod"; ar_Scanner := "node-health"; ar_Title := "1 node(s) not ready"; ar_AckBy := ""; ar_Reason := "";
  ar_SnoozeUntil := snooze; ar_CreatedAt := Second |}.

(** Snoozed until the fifth second, read while in force and once more when it has snooze_over. *)
Definition sample_ops : list (Z * ack_op) := [(Second, OpSave (sample_ack (5 * Second))); (3 * Second, OpRead); (9 * Second, OpRead)].

Lemma acks_remembered_witness :
  snd (IsAcked None None (9 * Second) "fp" (ack_run sample_ops)) = inl false /\
  ~ exists rec, last_ack "fp" sample_ops = Some rec /\ snooze_over (9 * Second) rec = false.
Proof.
  split; [vm_compute; reflexivity|].
  rewrite <- (acks_remembered "fp" sample_ops (9 * Second) (fst (IsAcked None None (9 * Second) "fp" (ack_run sample_ops))) false);
    [discriminate | | vm_compute; reflexivity].
  intros e [->|[->|[->|[]%not_elem_of_nil]%elem_of_cons]%elem_of_cons]%elem_of_cons; vm_compute; discriminate.
Defined.

Definition acked_finding : Finding := {|
  fi_Title := ""; fi_Description := ""; fi_Severity := "critical"; fi_Cluster := "prod"; fi_Scanner := "node-health";
  fi_Rule := "node-health/not-ready"; fi_Fingerprint := ""; fi_Acked := false; fi_Affected := []; fi_Remediation := None;
  fi_Norm := None; fi_Marks := [] |}.

Definition ack_of_finding : AckRecord := {|
  ar_Fingerprint := FindingFingerprint acked_finding; ar_Cluster := "prod"; ar_Scanner := "node-health"; ar_Title := ""; ar_AckBy := "";
  ar_Reason := ""; ar_SnoozeUntil := 0; ar_CreatedAt := Second |}.

Lemma marks_match_acks_witness : in_force (2 * Second) (FindingFingerprint acked_finding) (ack_run [(Second, OpSave ack_of_finding)]).
Proof.
  apply (marks_match_acks (fun l => l) (2 * Second) [(Second, OpSave ack_of_finding)]
    (fst (ListAcks None None (fun l => l) (2 * Second) (ack_run [(Second, OpSave ack_of_finding)]))) [ack_row Second ack_of_finding]
    [acked_finding] 0 acked_finding (with_acked true acked_finding)); try reflexivity; vm_compute; reflexivity.
Defined.
