(* ===== verification/Emit.v ===== *)
(** * Reports as Kubernetes objects: internal/fleetdrift and internal/policyreport

    Both packages turn a report into one object per cluster and write each as a YAML file.
    The YAML marshaler, the parser of timestamps and the failures of the file system are
    inputs; a directory is the map from its paths to their contents. *)

From Stdlib Require Import ZArith Lia String Ascii Sorting.Sorted.
From stdpp Require Import base gmap strings list sets sorting.
From S2P Require Import Prelude Maps Float64 GoTime Text Strs Data Fingerprint Seal Observe Build WorkloadCov.

Local Open Scope nat_scope.

(** ** What both packages do *)

(** The findings of one object: the cluster's own, then the fleet's. *)
Definition object_findings (findings : list Finding) (cluster : string) : list Finding :=
  let by_cluster := GroupFindingsByCluster findings in
  default [] (by_cluster !! cluster) ++ default [] (by_cluster !! "fleet"%string).

(** The scan time, or the present where the report's timestamp does not parse. *)
Definition scan_time (parsed : option Z) (now : Z) : Z := default now parsed.

Section Files.

Context {A : Type} (name_of : A -> string) (Marshal : A -> string + string) (mkdir : option string)
  (write_fails : string -> option string).

(** The objects in order, up to the first that fails. *)
Fixpoint write_files (dir : string) (reports : list A) (files : gmap string string) : gmap string string * option string :=
  match reports with
  | [] => (files, None)
  | r :: reports' =>
      let path := path_join dir (name_of r ++ ".yaml")%string in
      match Marshal r with
      | inr err => (files, Some ("marshal " ++ name_of r ++ ": " ++ err)%string)
      | inl data =>
          match write_fails path with
          | Some err => (files, Some ("write " ++ path ++ ": " ++ err)%string)
          | None => write_files dir reports' (<[path := data]> files)
          end
      end
  end.

Definition write_dir (package dir : string) (reports : list A) (files : gmap string string) : gmap string string * option string :=
  if String.eqb dir "" then (files, Some (package ++ ": output dir is required")%string)
  else match mkdir with
       | Some err => (files, Some ("create output dir: " ++ err)%string)
       | None => write_files dir reports files
       end.

End Files.

(** ** fleetdrift.go *)

Module FleetDrift.

Definition DriftAPIVersion : string := "fleetsweeper.io/v1alpha1".
Definition DriftKind : string := "FleetDriftReport".

Record DriftMetadata := { dm_Name : string; dm_Namespace : string; dm_Labels : gmap string string }.
Record FleetScoreSpec := { fsp_Score : Z; fsp_Grade : string; fsp_Graded : bool; fsp_Coverage : float64 }.
Record DriftSpec := { sp_Cluster : string; sp_ScanID : string; sp_ScanTime : Z; sp_FleetScore : FleetScoreSpec }.
Record DriftSummary := { sm_Critical : nat; sm_Warning : nat; sm_Info : nat }.
Record RemediationSpec := { rs_Command : string; rs_YAML : string; rs_RunbookURL : string }.

Record FindingSpec := {
  fs_Severity : string; fs_Scanner : string; fs_Title : string; fs_Description : string; fs_Affected : list string;
  fs_Remediation : option RemediationSpec }.

Record DriftStatus := { su_ObservedAt : Z; su_Summary : DriftSummary; su_Findings : list FindingSpec }.
Record DriftReport := { dr_APIVersion : string; dr_Kind : string; dr_Metadata : DriftMetadata; dr_Spec : DriftSpec; dr_Status : DriftStatus }.

Definition tally_severity (s : DriftSummary) (f : Finding) : DriftSummary :=
  if String.eqb (fi_Severity f) SeverityCritical then {| sm_Critical := S (sm_Critical s); sm_Warning := sm_Warning s; sm_Info := sm_Info s |}
  else if String.eqb (fi_Severity f) SeverityWarning then {| sm_Critical := sm_Critical s; sm_Warning := S (sm_Warning s); sm_Info := sm_Info s |}
  else if String.eqb (fi_Severity f) SeverityInfo then {| sm_Critical := sm_Critical s; sm_Warning := sm_Warning s; sm_Info := S (sm_Info s) |}
  else s.

Definition summarizeDrift (fs : list Finding) : DriftSummary := fold_left tally_severity fs {| sm_Critical := 0; sm_Warning := 0; sm_Info := 0 |}.

Definition finding_spec (f : Finding) : FindingSpec := {|
  fs_Severity := fi_Severity f; fs_Scanner := fi_Scanner f; fs_Title := fi_Title f; fs_Description := fi_Description f;
  fs_Affected := fi_Affected f;
  fs_Remediation := (fun r => {| rs_Command := re_Command r; rs_YAML := re_YAML r; rs_RunbookURL := re_RunbookURL r |}) <$> fi_Remediation f |}.

Definition spec_cmp : FindingSpec -> FindingSpec -> comparison :=
  cmp_lex (cmp_rev (cmp_on (fun f => SeverityRank (fs_Severity f)) Nat.compare)) (cmp_on fs_Title String.compare).

#[export] Instance spec_cmp_order : CmpOrder spec_cmp.
Proof. unfold spec_cmp. exact _. Qed.

Definition toFindingSpecs (fs : list Finding) : list FindingSpec := isort (less_of spec_cmp) (map finding_spec fs).

Definition drift_labels (cluster scanID : string) : gmap string string := list_to_map [
  ("fleetsweeper.io/cluster", cluster); ("fleetsweeper.io/scan-id", scanID); ("app.kubernetes.io/managed-by", "fleetsweeper")]%string.

Definition drift_report (r : Report) (scanID namespace : string) (scanTime : Z) (cluster : string) : DriftReport :=
  let fs := object_findings (rp_Findings r) cluster in
  let score := rp_FleetScore r in {|
    dr_APIVersion := DriftAPIVersion; dr_Kind := DriftKind;
    dr_Metadata := {| dm_Name := SanitizeName cluster; dm_Namespace := namespace; dm_Labels := drift_labels cluster scanID |};
    dr_Spec := {| sp_Cluster := cluster; sp_ScanID := scanID; sp_ScanTime := scanTime;
      sp_FleetScore := {| fsp_Score := Data.fs_Score score; fsp_Grade := fs_Grade score; fsp_Graded := fs_Graded score;
        fsp_Coverage := co_Fraction (fs_Coverage score) |} |};
    dr_Status := {| su_ObservedAt := scanTime; su_Summary := summarizeDrift fs; su_Findings := toFindingSpecs fs |} |}.

Definition DriftReportsFor (r : option Report) (scanID namespace : string) (parsed : option Z) (now : Z) : list DriftReport :=
  match r with
  | None => []
  | Some r => map (drift_report r scanID namespace (scan_time parsed now)) (rp_Clusters r)
  end.

Definition WriteDrift (Marshal : DriftReport -> string + string) (mkdir : option string) (write_fails : string -> option string)
  (reports : list DriftReport) (dir : string) (files : gmap string string) : gmap string string * option string :=
  write_dir (fun r => dm_Name (dr_Metadata r)) Marshal mkdir write_fails "fleetdrift" dir reports files.

End FleetDrift.

(** ** policyreport.go *)

Module PolicyReport.

Definition APIVersion : string := "wgpolicyk8s.io/v1alpha2".
Definition Kind : string := "PolicyReport".
Definition Source : string := "fleetsweeper".

Record Metadata := { md_Name : string; md_Namespace : string; md_Labels : gmap string string }.
Record PolicySummary := { sm_Pass : nat; sm_Fail : nat; sm_Warn : nat; sm_Error : nat; sm_Skip : nat }.
Record ResourceRef := { rr_APIVersion : string; rr_Kind : string; rr_Namespace : string; rr_Name : string }.
Record Timestamp := { ts_Seconds : Z; ts_Nanos : Z }.

Record PolicyResult := {
  pr_Source : string; pr_Policy : string; pr_Rule : string; pr_Category : string; pr_Severity : string; pr_Result : string;
  pr_Message : string; pr_Timestamp : Timestamp; pr_Resources : list ResourceRef; pr_Properties : gmap string string }.

Record Object := { ob_APIVersion : string; ob_Kind : string; ob_Metadata : Metadata; ob_Summary : PolicySummary; ob_Results : list PolicyResult }.

Definition severityMap (sev : string) : string :=
  if String.eqb sev SeverityCritical then "critical"
  else if String.eqb sev SeverityWarning then "medium"
  else "info".

Definition resultMap (sev : string) : string :=
  if String.eqb sev SeverityCritical || String.eqb sev SeverityWarning then "fail" else "warn".

(** The title up to the first of the separators that has text before it. *)
Fixpoint before_separator (title : string) (seps : list string) : option string :=
  match seps with
  | [] => None
  | sep :: seps' =>
      match Cut title sep with
      | Some (a, _) => if String.eqb a "" then before_separator title seps' else Some (TrimSpace a)
      | None => before_separator title seps'
      end
  end.

Definition ruleFromTitle (title : string) : string :=
  match before_separator title [":"; " -- "; " has "]%string with
  | Some rule => rule
  | None => if 60 <? length (runes title) then of_runes (take 60 (runes title)) else title
  end.

Definition ref_of (kind namespace name : string) : ResourceRef := {|
  rr_APIVersion := ""; rr_Kind := kind; rr_Namespace := namespace; rr_Name := name |}.

(** [Kind ns/name], when there is a space with a slash after it and a name after that. *)
Definition kind_ref (s : string) : option ResourceRef :=
  match Cut s " " with
  | Some (kind, rest) =>
      match Cut rest "/" with
      | Some (namespace, name) => if String.eqb name "" then None else Some (ref_of kind namespace name)
      | None => None
      end
  | None => None
  end.

Definition namespace_ref (s : string) : option ResourceRef :=
  if String.prefix "/" s then None
  else match Cut s "/" with
       | Some (namespace, name) => if Contains namespace " " || String.eqb name "" then None else Some (ref_of "" namespace name)
       | None => None
       end.

Definition parseResourceRef (s : string) : ResourceRef :=
  let s := TrimSpace s in
  if String.eqb s "" then ref_of "" "" "(unknown)"
  else match kind_ref s with
  | Some r => r
  | None => match namespace_ref s with Some r => r | None => ref_of "" "" s end
  end.

Definition unless_empty (k v : string) : list (string * string) := if String.eqb v "" then [] else [(k, v)].

Definition properties (f : Finding) : gmap string string := list_to_map (
  match fi_Remediation f with
  | Some r => unless_empty "remediation.command" (re_Command r) ++ unless_empty "remediation.yaml" (re_YAML r) ++
              unless_empty "remediation.runbook_url" (re_RunbookURL r)
  | None => []
  end ++
  (if negb (String.eqb (fi_Cluster f) "") && negb (String.eqb (fi_Cluster f) "fleet")
   then [("fleetsweeper.cluster"%string, fi_Cluster f)] else [])).

Definition toResult (ts : Z) (f : Finding) : PolicyResult := {|
  pr_Source := Source; pr_Policy := fi_Scanner f;
  pr_Rule := if String.eqb (fi_Rule f) "" then ruleFromTitle (fi_Title f) else fi_Rule f;
  pr_Category := CategoryOf (fi_Scanner f); pr_Severity := severityMap (fi_Severity f); pr_Result := resultMap (fi_Severity f);
  pr_Message := if String.eqb (fi_Description f) "" then fi_Title f else (fi_Title f ++ " -- " ++ fi_Description f)%string;
  pr_Timestamp := {| ts_Seconds := Unix ts; ts_Nanos := Nanosecond ts |};
  pr_Resources := map parseResourceRef (fi_Affected f); pr_Properties := properties f |}.

Definition count_result (s : PolicySummary) (r : PolicyResult) : PolicySummary :=
  let has := String.eqb (pr_Result r) in
  {| sm_Pass := sm_Pass s + Nat.b2n (has "pass"); sm_Fail := sm_Fail s + Nat.b2n (has "fail"); sm_Warn := sm_Warn s + Nat.b2n (has "warn");
     sm_Error := sm_Error s + Nat.b2n (has "error"); sm_Skip := sm_Skip s + Nat.b2n (has "skip") |}%string.

Definition summarize (results : list PolicyResult) : PolicySummary :=
  fold_left count_result results {| sm_Pass := 0; sm_Fail := 0; sm_Warn := 0; sm_Error := 0; sm_Skip := 0 |}.

Definition policy_labels (cluster scanID : string) : gmap string string := list_to_map [
  ("fleetsweeper.io/cluster", cluster); ("fleetsweeper.io/scan-id", scanID); ("app.kubernetes.io/managed-by", "fleetsweeper");
  ("policy.kubernetes.io/engine", "fleetsweeper")]%string.

Definition policy_object (r : Report) (scanID namespace : string) (scanTime : Z) (cluster : string) : Object :=
  let results := map (toResult scanTime) (object_findings (rp_Findings r) cluster) in {|
    ob_APIVersion := APIVersion; ob_Kind := Kind;
    ob_Metadata := {| md_Name := SanitizeName ("fleetsweeper-" ++ cluster); md_Namespace := namespace; md_Labels := policy_labels cluster scanID |};
    ob_Summary := summarize results; ob_Results := results |}.

Definition ReportsFor (r : option Report) (scanID namespace : string) (parsed : option Z) (now : Z) : list Object :=
  match r with
  | None => []
  | Some r =>
      map (policy_object r scanID (if String.eqb namespace "" then "fleetsweeper" else namespace) (scan_time parsed now)) (rp_Clusters r)
  end.

Definition Write (Marshal : Object -> string + string) (mkdir : option string) (write_fails : string -> option string)
  (reports : list Object) (dir : string) (files : gmap string string) : gmap string string * option string :=
  write_dir (fun r => md_Name (ob_Metadata r)) Marshal mkdir write_fails "policyreport" dir reports files.

End PolicyReport.

(** ** Lemmas *)

(** The group of a finding: its cluster, or the fleet. *)
Definition home (f : Finding) : string := if String.eqb (fi_Cluster f) "" then "fleet" else fi_Cluster f.

Lemma group_spec findings k :
  default [] (GroupFindingsByCluster findings !! k) = List.filter (fun f => String.eqb (home f) k) findings.
Proof.
  unfold GroupFindingsByCluster. induction findings as [|f fs IH] using rev_ind; [done|].
  rewrite fold_left_app, List.filter_app. cbn [fold_left List.filter]. fold (home f).
  destruct (String.eqb_spec (home f) k) as [<-|Hn].
  - rewrite lookup_insert_eq. simpl. by rewrite IH.
  - rewrite lookup_insert_ne by done. by rewrite IH, app_nil_r.
Qed.

Lemma object_findings_spec findings cluster : object_findings findings cluster =
  List.filter (fun f => String.eqb (home f) cluster) findings ++ List.filter (fun f => String.eqb (home f) "fleet") findings.
Proof. unfold object_findings. by rewrite !group_spec. Qed.

Definition of_severity (sev : string) (fs : list Finding) : nat := length (List.filter (fun f => String.eqb (fi_Severity f) sev) fs).

Lemma drift_summary fs : FleetDrift.summarizeDrift fs = {|
  FleetDrift.sm_Critical := of_severity SeverityCritical fs; FleetDrift.sm_Warning := of_severity SeverityWarning fs;
  FleetDrift.sm_Info := of_severity SeverityInfo fs |}.
Proof.
  unfold FleetDrift.summarizeDrift, of_severity. induction fs as [|f fs IH] using rev_ind; [done|].
  rewrite fold_left_app, !List.filter_app, !length_app. cbn [fold_left]. rewrite IH. unfold FleetDrift.tally_severity. cbn [List.filter].
  destruct (String.eqb_spec (fi_Severity f) SeverityCritical) as [E|]; [rewrite ?E; simpl; f_equal; lia|].
  destruct (String.eqb_spec (fi_Severity f) SeverityWarning) as [E|]; [rewrite ?E; simpl; f_equal; lia|].
  destruct (String.eqb (fi_Severity f) SeverityInfo); simpl; f_equal; lia.
Qed.

Definition severe (f : Finding) : bool := String.eqb (fi_Severity f) SeverityCritical || String.eqb (fi_Severity f) SeverityWarning.

Lemma policy_summary ts fs : PolicyReport.summarize (map (PolicyReport.toResult ts) fs) = {|
  PolicyReport.sm_Pass := 0; PolicyReport.sm_Fail := length (List.filter severe fs);
  PolicyReport.sm_Warn := length (List.filter (fun f => negb (severe f)) fs); PolicyReport.sm_Error := 0; PolicyReport.sm_Skip := 0 |}.
Proof.
  unfold PolicyReport.summarize. induction fs as [|f fs IH] using rev_ind; [done|].
  rewrite map_app, fold_left_app, !List.filter_app, !length_app. cbn [map fold_left]. rewrite IH. unfold PolicyReport.count_result.
  cbn [PolicyReport.toResult PolicyReport.pr_Result List.filter]. unfold PolicyReport.resultMap, severe.
  destruct (_ || _); simpl; f_equal; lia.
Qed.

(** ** Resource references *)

(** A name of the cluster's objects: letters, digits, dashes and dots. *)
Definition object_byte (c : ascii) : bool := is_alnum c || byte_in 65 90 c || byte_in 45 46 c.
Definition object_name (s : string) : bool := negb (String.eqb s "") && forallb object_byte (to_bytes s).

Lemma object_byte_solid c : object_byte c = true -> solid c = true.
Proof. destruct c as [[] [] [] [] [] [] [] []]; intros H; try discriminate H; vm_compute; reflexivity. Qed.

Lemma object_name_without b s : object_byte b = false -> object_name s = true -> no_byte b s = true.
Proof.
  intros Hb [_ H]%andb_true_iff. induction s as [|a s IH]; [done|]. cbn [to_bytes list_ascii_of_string forallb] in H.
  apply andb_true_iff in H as [Ha H]. cbn [no_byte]. rewrite IH by done.
  destruct (Ascii.eqb_spec a b) as [->|]; [congruence|done].
Qed.

Lemma object_name_ends s : object_name s = true ->
  (exists a s', s = String a s' /\ solid a = true) /\ (exists l b, to_bytes s = l ++ [b] /\ solid b = true).
Proof.
  intros [Hn H]%andb_true_iff. split.
  - destruct s as [|a s]; [done|]. exists a, s. split; [done|]. apply object_byte_solid.
    cbn [to_bytes list_ascii_of_string forallb] in H. by apply andb_true_iff in H as [? _].
  - destruct (@exists_last _ (to_bytes s)) as (l & b & E); [by destruct s|]. exists l, b. split; [done|].
    rewrite E, forallb_app in H. apply andb_true_iff in H as [_ H]. cbn [forallb] in H. rewrite andb_true_r in H.
    by apply object_byte_solid.
Qed.

Lemma TrimSpace_between s t u : object_name s = true -> object_name u = true -> TrimSpace (s ++ t ++ u) = (s ++ t ++ u)%string.
Proof.
  intros [(a & s' & -> & Ha) _]%object_name_ends [_ (l & b & El & Hb)]%object_name_ends.
  assert ((String a s' ++ t ++ u)%string = of_bytes (a :: (to_bytes s' ++ to_bytes t ++ l) ++ [b])) as ->.
  { rewrite <- (of_to_bytes (String a s' ++ t ++ u)). f_equal. rewrite !to_bytes_app, El.
    change (to_bytes (String a s')) with (a :: to_bytes s'). simpl. by rewrite <- !app_assoc. }
  by apply TrimSpace_solid.
Qed.

Lemma TrimSpace_name s : object_name s = true -> TrimSpace s = s.
Proof.
  intros [(a & s' & -> & Ha) (l & b & El & Hb)]%object_name_ends.
  rewrite <- (of_to_bytes (String a s')), El. destruct l as [|c l].
  - destruct s'; [|done]. injection El as <-. destruct a as [[] [] [] [] [] [] [] []]; try discriminate Ha; vm_compute; reflexivity.
  - simpl in El. injection El as <- _. by apply TrimSpace_solid.
Qed.

Lemma Cut_none c s : no_byte c s = true -> Cut s (String c "") = None.
Proof.
  induction s as [|b s IH]; [done|]. cbn [no_byte Cut]. rewrite prefix_one. intros [Hb H]%andb_true_iff.
  rewrite Ascii.eqb_sym, (proj1 (negb_true_iff _) Hb). by rewrite IH.
Qed.

(** ** The objects *)

(** A reference in one of the shapes findings carry is read back as its parts: a workload's
    kind, namespace and name, a namespaced object's namespace and name, and a bare name. *)
Theorem resource_ref_roundtrip kind ns name :
  object_name kind = true -> object_name ns = true -> object_name name = true ->
  PolicyReport.parseResourceRef (kind ++ " " ++ ns ++ "/" ++ name) = PolicyReport.ref_of kind ns name /\
  PolicyReport.parseResourceRef (ns ++ "/" ++ name) = PolicyReport.ref_of "" ns name /\
  PolicyReport.parseResourceRef name = PolicyReport.ref_of "" "" name.
Proof.
  intros Hk Hs Hn. assert (Hne : String.eqb name "" = false) by (apply negb_true_iff; by apply andb_true_iff in Hn as [? _]).
  pose proof (fun b H => object_name_without b _ H Hk) as Bk. pose proof (fun b H => object_name_without b _ H Hs) as Bs.
  pose proof (fun b H => object_name_without b _ H Hn) as Bn.
  unfold PolicyReport.parseResourceRef. split_and!.
  - replace (kind ++ " " ++ ns ++ "/" ++ name)%string with (kind ++ (" " ++ ns ++ "/") ++ name)%string by by rewrite !append_assoc.
    rewrite TrimSpace_between by done. unfold PolicyReport.kind_ref.
    replace (kind ++ (" " ++ ns ++ "/") ++ name)%string with (kind ++ String " " (ns ++ String "/" name))%string by by rewrite !append_assoc.
    rewrite Cut_first, Cut_first, Hne by (by apply Bk || by apply Bs). destruct kind; [done|]. done.
  - rewrite TrimSpace_between by done. unfold PolicyReport.kind_ref.
    rewrite Cut_none by by rewrite !no_byte_app, Bs, Bn.
    change (ns ++ "/" ++ name)%string with (ns ++ String "/" name)%string. unfold PolicyReport.namespace_ref.
    rewrite Cut_first, Contains_byte, Bs, Hne by (done || by apply Bs). rewrite prefix_one.
    destruct ns as [|a ns]; [done|]. specialize (Bs "/"%char eq_refl). apply andb_true_iff in Bs as [Ha _].
    apply negb_true_iff in Ha. rewrite Ascii.eqb_sym in Ha.
    change (String a ns ++ String "/" name)%string with (String a (ns ++ String "/" name))%string. cbv beta iota. by rewrite Ha.
  - rewrite TrimSpace_name, Hne by done. unfold PolicyReport.kind_ref, PolicyReport.namespace_ref.
    rewrite !Cut_none by by apply Bn. by destruct (String.prefix "/" name).
Qed.

Lemma resource_ref_roundtrip_witness : PolicyReport.parseResourceRef "Deployment shop/api-v2" = PolicyReport.ref_of "Deployment" "shop" "api-v2".
Proof. apply (resource_ref_roundtrip "Deployment" "shop" "api-v2"); vm_compute; reflexivity. Defined.

(** What an object says of its cluster: the findings at home there, then the fleet's. *)
Definition at_home (findings : list Finding) (cluster : string) : list Finding := List.filter (fun f => String.eqb (home f) cluster) findings.

(** A report gives one drift object per cluster, in the report's order. Its findings are the
    cluster's own and the fleet's, each once, the gravest first and then by title, and its
    tally counts them by severity. *)
Theorem drift_objects_exact r scanID ns parsed now :
  let objects := FleetDrift.DriftReportsFor (Some r) scanID ns parsed now in
  map (fun o => FleetDrift.sp_Cluster (FleetDrift.dr_Spec o)) objects = rp_Clusters r /\
  Forall (fun o =>
    let fs := at_home (rp_Findings r) (FleetDrift.sp_Cluster (FleetDrift.dr_Spec o)) ++ at_home (rp_Findings r) "fleet" in
    let status := FleetDrift.dr_Status o in
    FleetDrift.su_Findings status ≡ₚ map FleetDrift.finding_spec fs /\
    StronglySorted (cmp_le FleetDrift.spec_cmp) (FleetDrift.su_Findings status) /\
    FleetDrift.su_Summary status = {|
      FleetDrift.sm_Critical := of_severity SeverityCritical fs; FleetDrift.sm_Warning := of_severity SeverityWarning fs;
      FleetDrift.sm_Info := of_severity SeverityInfo fs |}) objects.
Proof.
  cbn zeta. unfold FleetDrift.DriftReportsFor. rewrite map_map. split; [by rewrite map_id|].
  apply Forall_map, Forall_forall. intros cluster _. unfold at_home. rewrite <- object_findings_spec.
  cbn [FleetDrift.drift_report FleetDrift.dr_Spec FleetDrift.sp_Cluster FleetDrift.dr_Status FleetDrift.su_Findings FleetDrift.su_Summary].
  split_and!; [apply isort_perm|apply isort_sorted; exact _|apply drift_summary].
Qed.

(** A report gives one policy report per cluster, in the report's order, with one result for
    each of the cluster's findings and of the fleet's, in that order. Critical and warning
    findings fail and the others warn, and nothing else is counted, so the two counts add up
    to the results. *)
Theorem policy_objects_exact r scanID ns parsed now :
  let objects := PolicyReport.ReportsFor (Some r) scanID ns parsed now in
  Forall2 (fun cluster o =>
    let fs := at_home (rp_Findings r) cluster ++ at_home (rp_Findings r) "fleet" in
    let s := PolicyReport.ob_Summary o in
    PolicyReport.ob_Results o = map (PolicyReport.toResult (scan_time parsed now)) fs /\
    PolicyReport.sm_Fail s = of_severity SeverityCritical fs + of_severity SeverityWarning fs /\
    PolicyReport.sm_Fail s + PolicyReport.sm_Warn s = length (PolicyReport.ob_Results o) /\
    PolicyReport.sm_Pass s = 0 /\ PolicyReport.sm_Error s = 0 /\ PolicyReport.sm_Skip s = 0) (rp_Clusters r) objects.
Proof.
  cbn zeta. unfold PolicyReport.ReportsFor. apply Forall2_fmap_r, Forall_Forall2_diag, Forall_forall. intros cluster _. unfold compose.
  unfold at_home. rewrite <- object_findings_spec. set (fs := object_findings _ _).
  cbn [PolicyReport.policy_object PolicyReport.ob_Summary PolicyReport.ob_Results]. fold fs. rewrite policy_summary, length_map.
  cbn [PolicyReport.sm_Pass PolicyReport.sm_Fail PolicyReport.sm_Warn PolicyReport.sm_Error PolicyReport.sm_Skip].
  split_and!; try done; unfold of_severity, severe; induction fs as [|f l IH]; simpl in *; try done;
    destruct (String.eqb_spec (fi_Severity f) SeverityCritical) as [->|]; simpl; try lia;
    destruct (String.eqb (fi_Severity f) SeverityWarning); simpl; lia.
Qed.

(** ** Files *)

Section Written.

Context {A : Type} (name_of : A -> string) (Marshal : A -> string + string) (write_fails : string -> option string) (dir : string).

Definition path_of (r : A) : string := path_join dir (name_of r ++ ".yaml")%string.

Lemma files_kept reports files p : (forall r, In r reports -> path_of r <> p) ->
  fst (write_files name_of Marshal write_fails dir reports files) !! p = files !! p.
Proof.
  revert files. induction reports as [|r reports IH]; intros files H; simpl; [done|]. fold (path_of r).
  destruct (Marshal r) as [data|]; [|done]. destruct (write_fails _); [done|].
  rewrite IH by (intros; apply H; by right). apply lookup_insert_ne, H. by left.
Qed.

Lemma files_written pre r post files files' : (forall r', In r' post -> path_of r' <> path_of r) ->
  write_files name_of Marshal write_fails dir (pre ++ r :: post) files = (files', None) ->
  exists data, Marshal r = inl data /\ files' !! path_of r = Some data.
Proof.
  intros Hd. revert files. induction pre as [|q pre IH]; intros files; simpl; fold path_of.
  - destruct (Marshal r) as [data|]; [|done]. destruct (write_fails _); [done|]. intros H. exists data. split; [done|].
    pose proof (files_kept post (<[path_of r := data]> files) (path_of r) Hd) as Hk. unfold path_of in *. rewrite H in Hk.
    cbn [fst] in Hk. by rewrite Hk, lookup_insert_eq.
  - destruct (Marshal q); [|done]. destruct (write_fails _); [done|]. apply IH.
Qed.

End Written.

(** A write that reports no error leaves, for every cluster, the object of the last cluster
    of its file name: its own when the names are told apart by the file name's form. *)
Theorem drift_files_hold Marshal mkdir write_fails dir r scanID ns parsed now files files' pre cluster post :
  rp_Clusters r = pre ++ cluster :: post ->
  (forall other, In other post -> path_join dir (SanitizeName other ++ ".yaml") <> path_join dir (SanitizeName cluster ++ ".yaml")) ->
  FleetDrift.WriteDrift Marshal mkdir write_fails (FleetDrift.DriftReportsFor (Some r) scanID ns parsed now) dir files = (files', None) ->
  exists data, Marshal (FleetDrift.drift_report r scanID ns (scan_time parsed now) cluster) = inl data /\
    files' !! path_join dir (SanitizeName cluster ++ ".yaml") = Some data.
Proof.
  intros Hc Hd. unfold FleetDrift.WriteDrift, write_dir. destruct (String.eqb dir ""); [done|]. destruct mkdir; [done|].
  cbn [FleetDrift.DriftReportsFor]. rewrite Hc, map_app. cbn [map]. intros H.
  refine (files_written _ _ _ _ _ (FleetDrift.drift_report r scanID ns (scan_time parsed now) cluster) _ _ _ _ H).
  intros r' (other & <- & Hin)%in_map_iff. by apply Hd.
Qed.

Definition two_clusters (a b : string) : Report := {|
  rp_Clusters := [a; b]; rp_Sections := ∅; rp_Summary := summary_zero; rp_Findings := []; rp_ClusterHealths := []; rp_Outliers := [];
  rp_Distributions := []; rp_DeviationMass := ∅; rp_ScoreAttribution := None; rp_FleetScore := fleet_score_zero; rp_Cohorts := [];
  rp_Degraded := []; rp_Incidents := []; rp_Notes := []; rp_runs := None |}.

Definition cluster_text (o : FleetDrift.DriftReport) : string + string := inl (FleetDrift.sp_Cluster (FleetDrift.dr_Spec o)).

Definition write_two (a b : string) : gmap string string * option string :=
  FleetDrift.WriteDrift cluster_text None (fun _ => None) (FleetDrift.DriftReportsFor (Some (two_clusters a b)) "s1" "ns" (Some 5%Z) 9%Z) "/out" ∅.

Lemma drift_files_hold_witness :
  exists data, cluster_text (FleetDrift.drift_report (two_clusters "prod" "stage") "s1" "ns" 5%Z "prod") = inl data /\
    fst (write_two "prod" "stage") !! "/out/prod.yaml"%string = Some data.
Proof.
  apply (drift_files_hold cluster_text None (fun _ => None) "/out" (two_clusters "prod" "stage") "s1" "ns" (Some 5%Z) 9%Z ∅ _ [] "prod" ["stage"]%string).
  - reflexivity.
  - intros other [<-|[]]. vm_compute. discriminate.
  - vm_compute. reflexivity.
Defined.

(** Names the file name's form does not tell apart share a file, and the later cluster's
    object replaces the earlier's. *)
Lemma drift_files_collide : write_two "Prod" "prod" = ({["/out/prod.yaml" := "prod"]}, None)%string.
Proof. vm_compute. reflexivity. Qed.
