(* ===== verification/Remediate.v ===== *)
(** * Remediation pull requests: internal/remediate

    [Open] plans the change and, asked to push, makes up to five calls of the GitHub API,
    each only after the one before it succeeded. The calls made are an explicit trace; the
    server at the other end answers a call given the calls before it, and is an input, as
    are the decoders of its answers. *)

From Stdlib Require Import ZArith Lia String Ascii.
From stdpp Require Import base list strings option.
From S2P Require Import Prelude Text Strs Data Fingerprint Seal Auth.

Local Open Scope nat_scope.

(** ** Slugs *)

Definition slugify (s : string) : string :=
  let cleaned := trim is_dash (replace_runs (fun c => negb (is_alnum c)) false (to_lower (to_bytes s))) in
  let cleaned := if 60 <? length cleaned then trim_right is_dash (take 60 cleaned) else cleaned in
  match cleaned with [] => "finding" | _ => of_bytes cleaned end.

Example slugify_ex : map slugify ["Privileged Pods: 3 of 9!"; "--"; "A  B"] = ["privileged-pods-3-of-9"; "finding"; "a-b"]%string.
Proof. vm_compute. reflexivity. Qed.

(** ** Options, results and calls *)

Record PushOptions := {
  op_Owner : string; op_Repo : string; op_Finding : Finding; op_Cluster : string; op_Token : string; op_BaseBranch : string;
  op_HeadBranch : string; op_TargetPath : string; op_Push : bool; op_BaseURL : string }.

Record PushResult := {
  rs_PRURL : string; rs_PRNumber : Z; rs_HeadBranch : string; rs_BaseBranch : string; rs_TargetPath : string;
  rs_PlannedYAML : string; rs_PRTitle : string; rs_PRBody : string; rs_DryRun : bool }.

Definition no_result : PushResult := {|
  rs_PRURL := ""; rs_PRNumber := 0; rs_HeadBranch := ""; rs_BaseBranch := ""; rs_TargetPath := ""; rs_PlannedYAML := "";
  rs_PRTitle := ""; rs_PRBody := ""; rs_DryRun := false |}.

(** The bodies sent, as the values [encoding/json] is given. *)
Inductive Payload :=
  | createRefPayload (Ref SHA : string)
  | putFilePayload (Message Content Branch SHA : string)
  | prPayload (Title Head Base Body : string).

Record ApiRequest := { ar_Method : string; ar_URL : string; ar_Header : list (string * string); ar_Body : option Payload }.

(** The transport's failure, or a status code, a status line and a body. *)
Definition ApiAnswer : Type := string + (Z * string * string).

Record prResponse := { px_HTMLURL : string; px_Number : Z }.

(** ** Text *)

Definition newline : string := String "010" "".
Definition tick (s : string) : string := ("`" ++ s ++ "`")%string.

Definition renderPRBody (f : Finding) (cluster targetPath : string) : string :=
  let line s := (s ++ newline)%string in
  let par s := (s ++ newline ++ newline)%string in
  let unless (v s : string) := if String.eqb v "" then ""%string else s in
  (par "Fleetsweeper detected the following condition and is proposing a remediation." ++
   line ("**Cluster:** " ++ tick cluster) ++
   line ("**Scanner:** " ++ tick (fi_Scanner f)) ++
   par ("**Severity:** " ++ tick (fi_Severity f)) ++
   unless (fi_Description f) (par ("**Finding:** " ++ fi_Description f)) ++
   match fi_Remediation f with
   | Some r => unless (re_Command r)
       (par "**Suggested manual command:**" ++ line "```shell" ++ line (re_Command r) ++ par "```")
   | None => ""
   end ++
   par ("**Manifest written:** " ++ tick targetPath) ++
   match fi_Affected f with
   | [] => ""
   | affected => par "**Affected resources:**" ++ String.concat "" (map (fun a => line ("- " ++ tick a)) affected) ++ newline
   end ++
   match fi_Remediation f with
   | Some r => unless (re_RunbookURL r) (par ("**Runbook:** " ++ re_RunbookURL r))
   | None => ""
   end ++
   newline ++ line "---" ++
   line ("_Generated by [Fleetsweeper](https://github.com/dcadolph/fleetsweeper). " ++
         "Review before merging; this PR will be applied to whatever cluster your GitOps controller targets._"))%string.

(** [base64.StdEncoding]: the other two digits, and padding to a multiple of four. *)
Definition std_digit (c : ascii) : ascii := if Ascii.eqb c "-" then "+" else if Ascii.eqb c "_" then "/" else c.

Definition std_base64 (s : string) : string :=
  let digits := map std_digit (b64_encode (map byte_Z (to_bytes s))) in
  of_bytes (digits ++ repeat "="%char ((4 - length digits mod 4) mod 4)).

Example std_base64_ex : map std_base64 ["light w"; "light wo"; "light wor"; "???>>"]%string =
  ["bGlnaHQgdw=="; "bGlnaHQgd28="; "bGlnaHQgd29y"; "Pz8/Pj4="]%string.
Proof. vm_compute. reflexivity. Qed.

(** ** The API client *)

Section Client.

Context (NewRequest : string -> string -> option string) (Do : list ApiRequest -> ApiRequest -> ApiAnswer)
  (decode_repo decode_ref : string -> string + string) (decode_pr : string -> prResponse + string).

(** A call given the calls made so far: those made by now, and the value or the error. *)
Definition Api (A : Type) : Type := list ApiRequest -> list ApiRequest * (A + string).

Definition api_ret {A} (x : A) : Api A := fun sent => (sent, inl x).
Definition api_fail {A} (err : string) : Api A := fun sent => (sent, inr err).
Definition api_bind {A B} (m : Api A) (k : A -> Api B) : Api B :=
  fun sent => match m sent with (sent', inl x) => k x sent' | (sent', inr err) => (sent', inr err) end.

(** [fmt.Errorf("what: %w", err)]. *)
Definition api_wrap {A} (what : string) (m : Api A) : Api A :=
  fun sent => match m sent with (sent', inr err) => (sent', inr (what ++ ": " ++ err)%string) | r => r end.

Definition trim_slashes (s : string) : string := of_bytes (trim_right (Ascii.eqb "/") (to_bytes s)).

Definition api_request (o : PushOptions) (method path : string) (body : option Payload) : ApiRequest := {|
  ar_Method := method; ar_URL := (trim_slashes (op_BaseURL o) ++ path)%string;
  ar_Header := [("Accept", "application/vnd.github+json"); ("X-GitHub-Api-Version", "2022-11-28"); ("User-Agent", "fleetsweeper-remediate")] ++
    (if String.eqb (op_Token o) "" then [] else [("Authorization", "Bearer " ++ op_Token o)]) ++
    match body with Some _ => [("Content-Type", "application/json")] | None => [] end;
  ar_Body := body |}%string.

Definition apiCall {A} (o : PushOptions) (method path : string) (body : option Payload) (decode : string -> A + string) : Api A :=
  let req := api_request o method path body in
  match NewRequest method (ar_URL req) with
  | Some err => api_fail err
  | None => fun sent =>
      (sent ++ [req],
       match Do sent req with
       | inl err => inr err
       | inr (code, status, text) =>
           if (300 <=? code)%Z
           then inr ("github api " ++ method ++ " " ++ path ++ ": " ++ status ++ ": " ++ TrimSpace text)%string
           else decode text
       end)
  end.

Definition repo_path (o : PushOptions) : string := ("/repos/" ++ op_Owner o ++ "/" ++ op_Repo o)%string.

Definition defaultBranch (o : PushOptions) : Api string :=
  api_bind (apiCall o "GET" (repo_path o) None decode_repo) (fun branch =>
  if String.eqb branch "" then api_fail "repo has no default branch" else api_ret branch).

Definition refSHA (o : PushOptions) (ref : string) : Api string := apiCall o "GET" (repo_path o ++ "/git/refs/" ++ ref) None decode_ref.

Definition no_answer (text : string) : unit + string := inl ().

Definition createRef (o : PushOptions) (ref sha : string) : Api unit :=
  apiCall o "POST" (repo_path o ++ "/git/refs") (Some (createRefPayload ref sha)) no_answer.

Definition putFile (o : PushOptions) (path branch message body : string) : Api unit :=
  apiCall o "PUT" (repo_path o ++ "/contents/" ++ path) (Some (putFilePayload message (std_base64 body) branch "")) no_answer.

Definition openPR (o : PushOptions) (title body head base : string) : Api prResponse :=
  apiCall o "POST" (repo_path o ++ "/pulls") (Some (prPayload title head base body)) decode_pr.

(** ** Open *)

Definition ErrNoYAML : string := "finding has no inline YAML remediation, nothing to push".
Definition ErrRepo : string := "owner and repo are required".
Definition ErrToken : string := "github token required when pushing".
Definition defaultBaseURL : string := "https://api.github.com".

Definition yaml_of (f : Finding) : string := match fi_Remediation f with Some r => re_YAML r | None => "" end.

(** The options with the defaults filled in. [stamp] is the present as [20060102-150405]. *)
Definition with_defaults (o : PushOptions) (stamp : string) : PushOptions :=
  let slug := slugify (fi_Title (op_Finding o)) in {|
    op_Owner := op_Owner o; op_Repo := op_Repo o; op_Finding := op_Finding o; op_Cluster := op_Cluster o; op_Token := op_Token o;
    op_BaseBranch := op_BaseBranch o;
    op_HeadBranch := if String.eqb (op_HeadBranch o) "" then ("fleetsweeper/" ++ slug ++ "-" ++ stamp)%string else op_HeadBranch o;
    op_TargetPath := if String.eqb (op_TargetPath o) ""
      then let clusterSlug := slugify (op_Cluster o) in
           ("fleetsweeper/" ++ (if String.eqb clusterSlug "" then "fleet" else clusterSlug) ++ "/" ++ slug ++ ".yaml")%string
      else op_TargetPath o;
    op_Push := op_Push o;
    op_BaseURL := if String.eqb (op_BaseURL o) "" then defaultBaseURL else op_BaseURL o |}.

Definition pr_title (o : PushOptions) : string := ("fleetsweeper: " ++ Truncate (fi_Title (op_Finding o)) 100)%string.
Definition pr_body (o : PushOptions) : string := renderPRBody (op_Finding o) (op_Cluster o) (op_TargetPath o).

Definition planned (o : PushOptions) : PushResult := {|
  rs_PRURL := ""; rs_PRNumber := 0; rs_HeadBranch := op_HeadBranch o; rs_BaseBranch := ""; rs_TargetPath := op_TargetPath o;
  rs_PlannedYAML := yaml_of (op_Finding o); rs_PRTitle := pr_title o; rs_PRBody := pr_body o; rs_DryRun := negb (op_Push o) |}.

Definition with_base (r : PushResult) (base : string) : PushResult := {|
  rs_PRURL := rs_PRURL r; rs_PRNumber := rs_PRNumber r; rs_HeadBranch := rs_HeadBranch r; rs_BaseBranch := base;
  rs_TargetPath := rs_TargetPath r; rs_PlannedYAML := rs_PlannedYAML r; rs_PRTitle := rs_PRTitle r; rs_PRBody := rs_PRBody r;
  rs_DryRun := rs_DryRun r |}.

Definition with_pr (r : PushResult) (pr : prResponse) : PushResult := {|
  rs_PRURL := px_HTMLURL pr; rs_PRNumber := px_Number pr; rs_HeadBranch := rs_HeadBranch r; rs_BaseBranch := rs_BaseBranch r;
  rs_TargetPath := rs_TargetPath r; rs_PlannedYAML := rs_PlannedYAML r; rs_PRTitle := rs_PRTitle r; rs_PRBody := rs_PRBody r;
  rs_DryRun := rs_DryRun r |}.

(** The writes, once the base branch is known. *)
Definition push_change (o : PushOptions) (base : string) : Api prResponse :=
  api_bind (api_wrap "read base ref" (refSHA o ("heads/" ++ base))) (fun sha =>
  api_bind (api_wrap "create branch" (createRef o ("refs/heads/" ++ op_HeadBranch o) sha)) (fun _ =>
  api_bind (api_wrap "write file" (putFile o (op_TargetPath o) (op_HeadBranch o)
    ("fleetsweeper: apply " ++ slugify (fi_Title (op_Finding o))) (yaml_of (op_Finding o)))) (fun _ =>
  api_wrap "create pull request" (openPR o (pr_title o) (pr_body o) (op_HeadBranch o) base)))).

Definition base_branch (o : PushOptions) : Api string :=
  if String.eqb (op_BaseBranch o) "" then api_wrap "detect default branch" (defaultBranch o) else api_ret (op_BaseBranch o).

(** The calls made, the result and the error. *)
Definition Open (o : PushOptions) (stamp : string) : list ApiRequest * PushResult * option string :=
  if String.eqb (TrimSpace (yaml_of (op_Finding o))) "" then ([], no_result, Some ErrNoYAML)
  else if String.eqb (op_Owner o) "" || String.eqb (op_Repo o) "" then ([], no_result, Some ErrRepo)
  else
    let o := with_defaults o stamp in
    let res := planned o in
    if negb (op_Push o) then ([], with_base res (op_BaseBranch o), None)
    else if String.eqb (op_Token o) "" then ([], res, Some ErrToken)
    else match base_branch o [] with
         | (sent, inr err) => (sent, res, Some err)
         | (sent, inl base) =>
             let res := with_base res base in
             match push_change o base sent with
             | (sent', inr err) => (sent', res, Some err)
             | (sent', inl pr) => (sent', with_pr res pr, None)
             end
         end.

End Client.

(** ** Slugs are safe in a branch name and a path *)

Lemma slug_bytes s : let out := to_bytes (slugify s) in
  forallb (fun c => is_alnum c || is_dash c) out = true /\ head_ok is_dash out = true /\ head_ok is_dash (rev out) = true /\
  1 <= length out <= 60.
Proof.
  cbn zeta. unfold slugify. set (r := trim is_dash _).
  assert (forallb (fun c => is_alnum c || is_dash c) r = true /\ head_ok is_dash r = true /\ head_ok is_dash (rev r) = true) as (H1 & H2 & H3).
  { unfold r, trim. set (l := replace_runs _ _ _).
    assert (forallb (fun c => is_alnum c || is_dash c) l = true) as Hl.
    { unfold l. generalize (to_lower (to_bytes s)), false. intros t. induction t as [|c t IH]; intros b; [done|]. cbn [replace_runs].
      destruct (is_alnum c) eqn:Ec; cbn [negb]; [cbn [forallb]; by rewrite Ec, IH|].
      rewrite forallb_app, IH. by destruct b. }
    destruct (trim_left_suffix is_dash l) as [pre Hpre]. pose proof (trim_left_head is_dash l) as Hh.
    destruct (trim_right_prefix is_dash (trim_left is_dash l)) as [suf Hsuf]. rewrite Hpre, Hsuf in Hl. rewrite Hsuf in Hh.
    apply forallb_app_inv in Hl as [_ [Hl _]%forallb_app_inv]. split_and!; [done|by eapply head_ok_prefix|apply trim_right_last]. }
  clearbody r. destruct (Nat.ltb_spec 60 (length r)) as [Hlt|].
  - destruct (trim_right_prefix is_dash (take 60 r)) as [suf Hsuf]. pose proof (trim_right_last is_dash (take 60 r)) as Hlast.
    rewrite <- (take_drop 60 r), Hsuf, <- app_assoc in H1, H2. apply forallb_app_inv in H1 as [H1 _]. apply head_ok_prefix in H2.
    assert (length (trim_right is_dash (take 60 r)) <= 60) as Hlen.
    { apply (f_equal length) in Hsuf. rewrite length_app, length_take in Hsuf. lia. }
    destruct (trim_right is_dash (take 60 r)) as [|c l] eqn:E; [by vm_compute; split_and!; lia|].
    rewrite to_of_bytes. split_and!; try done. simpl. lia.
  - destruct r as [|c l] eqn:E; [by vm_compute; split_and!; lia|]. rewrite to_of_bytes. split_and!; try done. simpl. lia.
Qed.

(** Whatever a finding's title, its slug is one to sixty lowercase letters, digits and
    dashes, with no dash at either end: safe in a branch name and in a path. *)
Theorem slugify_safe s : let out := to_bytes (slugify s) in
  forallb (fun c => is_alnum c || is_dash c) out = true /\ 1 <= length out <= 60 /\
  exists a z, head out = Some a /\ head (rev out) = Some z /\ is_alnum a = true /\ is_alnum z = true.
Proof.
  destruct (slug_bytes s) as (H & Hh & Hl & Hlen). cbn zeta. split_and!; try (done || lia).
  set (out := to_bytes (slugify s)) in *. clearbody out.
  assert (Hc : forall c, In c out -> is_dash c = false -> is_alnum c = true).
  { intros c Hin Hd. rewrite forallb_forall in H. specialize (H c Hin). by rewrite Hd, orb_false_r in H. }
  destruct out as [|a out]; [simpl in Hlen; lia|].
  destruct (@exists_last _ (a :: out)) as (l & z & E); [done|]. exists a, z. rewrite E in Hl |- *.
  rewrite rev_app_distr in Hl. simpl in Hl, Hh. apply negb_true_iff in Hl, Hh.
  rewrite <- E at 1. split_and!; [done|by rewrite rev_app_distr| |]; apply Hc; try done; [by left|].
  rewrite E. apply in_or_app. by right; left.
Qed.

(** ** What a run of calls does *)

Section Proofs.

Context (NewRequest : string -> string -> option string) (Do : list ApiRequest -> ApiRequest -> ApiAnswer)
  (decode_repo decode_ref : string -> string + string) (decode_pr : string -> prResponse + string).

Notation Open := (Open NewRequest Do decode_repo decode_ref decode_pr).

Definition accepts (sent : list ApiRequest) (r : ApiRequest) : bool :=
  match Do sent r with inr (code, _, _) => (code <? 300)%Z | inl _ => false end.

(** Every one of the calls was accepted, in its turn. *)
Fixpoint accepted_all (sent new : list ApiRequest) : bool :=
  match new with
  | [] => true
  | r :: new' => accepts sent r && accepted_all (sent ++ [r]) new'
  end.

Definition runs {A} (m : Api A) (sent : list ApiRequest) (Q : list ApiRequest -> A + string -> Prop) : Prop :=
  match m sent with (sent', r) => Q sent' r end.

Lemma runs_call {A} o method path body (decode : string -> A + string) sent (Q : list ApiRequest -> A + string -> Prop) :
  let req := api_request o method path body in
  (forall err, Q sent (inr err)) -> (forall err, Q (sent ++ [req]) (inr err)) ->
  (forall x, accepts sent req = true -> Q (sent ++ [req]) (inl x)) ->
  runs (apiCall NewRequest Do o method path body decode) sent Q.
Proof.
  cbn zeta. intros H1 H2 H3. unfold runs, apiCall. destruct (NewRequest _ _); [by apply H1|].
  unfold accepts in H3. destruct (Do sent _) as [|[[code status] text]]; [by apply H2|].
  destruct (Z.leb_spec 300 code); [by apply H2|]. destruct (decode text); [apply H3; lia|by apply H2].
Qed.

Lemma runs_bind {A B} (m : Api A) (k : A -> Api B) sent Q :
  runs m sent (fun sent' r => match r with inl x => runs (k x) sent' Q | inr err => Q sent' (inr err) end) ->
  runs (api_bind m k) sent Q.
Proof. unfold runs, api_bind. by destruct (m sent) as [? []]. Qed.

Lemma runs_wrap {A} what (m : Api A) sent Q :
  runs m sent (fun sent' r => match r with inl x => Q sent' (inl x) | inr err => Q sent' (inr (what ++ ": " ++ err)%string) end) ->
  runs (api_wrap what m) sent Q.
Proof. unfold runs, api_wrap. by destruct (m sent) as [? []]. Qed.

Lemma runs_weaken {A} (m : Api A) sent (Q Q' : list ApiRequest -> A + string -> Prop) :
  (forall s r, Q s r -> Q' s r) -> runs m sent Q -> runs m sent Q'.
Proof. unfold runs. intros H. destruct (m sent). apply H. Qed.

(** The change as it is written to the server. *)
Definition change (o : PushOptions) (base sha : string) : list Payload :=
  [createRefPayload ("refs/heads/" ++ op_HeadBranch o) sha;
   putFilePayload ("fleetsweeper: apply " ++ slugify (fi_Title (op_Finding o))) (std_base64 (yaml_of (op_Finding o))) (op_HeadBranch o) "";
   prPayload (pr_title o) (op_HeadBranch o) base (pr_body o)].

(** A call on the repository, with the token. *)
Definition authorized (o : PushOptions) (r : ApiRequest) : Prop :=
  String.prefix (trim_slashes (op_BaseURL o) ++ repo_path o) (ar_URL r) = true /\
  In ("Authorization", "Bearer " ++ op_Token o)%string (ar_Header r).

(** The writes are the change's, in order, each made once everything before it was accepted. *)
Definition orderly (o : PushOptions) (base : string) (all : bool) (sent : list ApiRequest) : Prop :=
  exists sha k, omap ar_Body sent = take k (change o base sha) /\ Forall (authorized o) sent /\
    accepted_all [] (removelast sent) = true /\ (all = true -> k = 3 /\ accepted_all [] sent = true).

(** What a step that sends at most one more call keeps. *)
Definition so_far (o : PushOptions) (bodies : list Payload) (sent : list ApiRequest) : Prop :=
  omap ar_Body sent = bodies /\ Forall (authorized o) sent /\ accepted_all [] sent = true.

Definition stopped (o : PushOptions) (bodies : list Payload) (sent : list ApiRequest) : Prop :=
  omap ar_Body sent = bodies /\ Forall (authorized o) sent /\ accepted_all [] (removelast sent) = true.

Lemma accepted_snoc pre sent r : accepted_all pre (sent ++ [r]) = accepted_all pre sent && accepts (pre ++ sent) r.
Proof.
  revert pre. induction sent as [|q sent IH]; intros pre; simpl; [by rewrite app_nil_r, andb_true_r|].
  by rewrite IH, <- app_assoc, andb_assoc.
Qed.

Lemma accepted_but_last sent : accepted_all [] sent = true -> accepted_all [] (removelast sent) = true.
Proof.
  destruct sent as [|r sent _] using rev_ind; [done|]. rewrite accepted_snoc, removelast_last. by intros [? _]%andb_true_iff.
Qed.

Lemma so_far_stopped o bodies sent : so_far o bodies sent -> stopped o bodies sent.
Proof. intros (? & ? & ?). split_and!; [done..|by apply accepted_but_last]. Qed.

Lemma call_authorized o method rest body : op_Token o <> ""%string -> authorized o (api_request o method (repo_path o ++ rest) body).
Proof.
  intros Ht. unfold authorized, api_request. cbn [ar_URL ar_Header]. split.
  - apply prefix_spec. exists rest. apply to_bytes_inj. by rewrite !to_bytes_app, app_assoc.
  - apply in_or_app. right. apply in_or_app. left. destruct (String.eqb_spec (op_Token o) ""); [done|]. by left.
Qed.

(** A call of the repository, whatever is done with its answer. *)
Lemma call_step {A} o bodies sent method rest body (decode : string -> A + string) (Q : list ApiRequest -> A + string -> Prop) :
  op_Token o <> ""%string -> so_far o bodies sent ->
  (forall sent' err, stopped o bodies sent' -> Q sent' (inr err)) ->
  (forall sent' err, stopped o (bodies ++ option_list body) sent' -> Q sent' (inr err)) ->
  (forall sent' x, so_far o (bodies ++ option_list body) sent' -> Q sent' (inl x)) ->
  runs (apiCall NewRequest Do o method (repo_path o ++ rest) body decode) sent Q.
Proof.
  intros Ht Hs H1 H2 H3. pose proof Hs as (Hb & Ha & Hk).
  assert (omap ar_Body (sent ++ [api_request o method (repo_path o ++ rest) body]) = bodies ++ option_list body) as Hb'.
  { rewrite omap_app, Hb. by destruct body. }
  assert (Forall (authorized o) (sent ++ [api_request o method (repo_path o ++ rest) body])) as Ha'.
  { apply Forall_app_2; [done|]. by apply Forall_singleton, call_authorized. }
  apply runs_call.
  - intros err. by apply H1, so_far_stopped.
  - intros err. apply H2. split_and!; [done..|by rewrite removelast_last].
  - intros x Hx. apply H3. split_and!; [done..|]. rewrite accepted_snoc, Hk. cbn [app]. by rewrite Hx.
Qed.

Lemma base_runs o : op_Token o <> ""%string ->
  runs (base_branch NewRequest Do decode_repo o) [] (fun sent r =>
    match r with
    | inl base => so_far o [] sent /\ (op_BaseBranch o <> ""%string -> base = op_BaseBranch o)
    | inr _ => stopped o [] sent
    end).
Proof.
  intros Ht. unfold base_branch. destruct (String.eqb_spec (op_BaseBranch o) ""); [|by split].
  apply runs_wrap, runs_bind.
  assert (repo_path o = repo_path o ++ "")%string as -> by (apply to_bytes_inj; by rewrite to_bytes_app, app_nil_r).
  apply (call_step o []); [done|done|done|done|]. intros sent branch Hs.
  destruct (String.eqb branch ""); [by apply so_far_stopped|by split].
Qed.

Lemma push_runs o base sent : op_Token o <> ""%string -> so_far o [] sent ->
  runs (push_change NewRequest Do decode_ref decode_pr o base) sent (fun sent' r =>
    orderly o base (match r with inl _ => true | inr _ => false end) sent').
Proof.
  intros Ht Hs.
  assert (Hstop : forall sent' sha k, stopped o (take k (change o base sha)) sent' -> orderly o base false sent').
  { intros sent' sha k (? & ? & ?). by exists sha, k. }
  apply runs_bind, runs_wrap. apply (call_step o []); [done|done|intros; by apply (Hstop _ "" 0)..|]. cbn [app option_list].
  intros s1 sha H1. apply runs_bind, runs_wrap.
  apply (call_step o []); [done|done|intros; by apply (Hstop _ sha 0)|intros; by apply (Hstop _ sha 1)|]. cbn [app option_list].
  intros s2 [] H2. apply runs_bind, runs_wrap.
  eapply (call_step o (take 1 (change o base sha))); [done|done|intros; by apply (Hstop _ sha 1)|intros; by apply (Hstop _ sha 2)|].
  intros s3 [] H3. apply runs_wrap.
  eapply (call_step o (take 2 (change o base sha))); [done|done|intros; by apply (Hstop _ sha 2)|intros; by apply (Hstop _ sha 3)|].
  intros s4 pr H4. pose proof (so_far_stopped _ _ _ H4) as (? & ? & ?). exists sha, 3. split_and!; [done..|]. intros _. split; [done|apply H4].
Qed.

(** Nothing is sent unless a push of a manifest was asked for with a token. What is sent
    goes to the repository under that token; the writes are, in order, the new branch, the
    manifest on that branch and the pull request from it, each made only once every call
    before it was accepted; and a push that reports no error has made all three. *)
Theorem remediation_ordered o stamp : let '(sent, res, err) := Open o stamp in
  (sent <> [] -> op_Push o = true /\ op_Token o <> ""%string /\ TrimSpace (yaml_of (op_Finding o)) <> ""%string) /\
  exists base, (op_BaseBranch o <> ""%string -> base = op_BaseBranch o) /\
    orderly (with_defaults o stamp) base (op_Push o && match err with None => true | Some _ => false end) sent.
Proof.
  unfold Remediate.Open.
  assert (Hnone : forall b, orderly (with_defaults o stamp) b false []) by (intros b; by exists ""%string, 0).
  destruct (String.eqb_spec (TrimSpace (yaml_of (op_Finding o))) ""); [split; [done|]; eexists; by rewrite andb_false_r|].
  destruct (_ || _); [split; [done|]; eexists; by rewrite andb_false_r|].
  change (op_Push (with_defaults o stamp)) with (op_Push o). change (op_Token (with_defaults o stamp)) with (op_Token o).
  destruct (op_Push o) eqn:Ep; cbn [negb]; [|split; [done|]; by eexists].
  destruct (String.eqb_spec (op_Token o) "") as [|Ht]; [split; [done|]; by eexists|].
  pose proof (base_runs (with_defaults o stamp) Ht) as Hb. unfold runs in Hb.
  destruct (base_branch _ _ _ _ _) as [sent [base|err]].
  - destruct Hb as [Hs Hbase]. pose proof (push_runs (with_defaults o stamp) base sent Ht Hs) as Hp. unfold runs in Hp.
    destruct (push_change _ _ _ _ _ _ _) as [sent' [pr|err]]; (split; [done|]; by exists base).
  - split; [done|]. destruct Hb as (? & ? & ?). exists (op_BaseBranch o). split; [done|]. by exists ""%string, 0.
Qed.

End Proofs.

(** The fallback name of a remediation without a cluster is the slug's own. *)
Lemma slug_not_empty s : slugify s <> ""%string.
Proof. pose proof (slug_bytes s) as (_ & _ & _ & H). intros E. rewrite E in H. simpl in H. lia. Qed.
