(* ===== verification/Cache.v ===== *)
(** * The cache of rebuilt reports: internal/server/report_cache.go

    A report rebuilt from a stored scan is kept under the scan's identifier and a text of the
    options it was built with. The mutex is released while the report is built, so a call is
    two atomic steps with others in between: a schedule says which call moves next. *)

From Stdlib Require Import ZArith Lia String Ascii.
From stdpp Require Import base gmap strings list sets.
From S2P Require Import Prelude Maps Float64 Text Strs Data Observe Build Format Pipeline.

Local Open Scope nat_scope.

(** ** Keys *)

Definition maxHistoryScans : nat := 50.
Definition reportCacheSize : nat := 2 * maxHistoryScans.

Definition tag_item (ct : string * string) : string := (fst ct ++ "=" ++ snd ct)%string.
Definition group_item (g : string * list string) : string := (fst g ++ "=" ++ join "+" (sort_strings (snd g)))%string.

Definition optionsKey (opts : BuildOptions) : string :=
  let tags := map tag_item (map_to_list (bo_ClusterTags opts)) in
  let groups := map group_item (bo_Groups opts) in
  ("t=" ++ show_float (bo_OutlierThreshold opts) ++ ";" ++ join "," (sort_strings tags) ++ ";" ++ join "," (sort_strings groups))%string.

Example optionsKey_ex : optionsKey {|
    bo_OutlierThreshold := f_const 7 2; bo_Groups := [("west", ["w2"; "w1"]); ("east", [])];
    bo_ClusterTags := {["w1" := "gpu"; "e1" := "cpu"]} |}%string = "t=3.5;e1=cpu,w1=gpu;east=,west=w1+w2"%string.
Proof. vm_compute. reflexivity. Qed.

Definition nul : ascii := "000".
Definition cache_key (scanID : string) (opts : BuildOptions) : string := (scanID ++ String nul (optionsKey opts))%string.

(** ** The cache *)

Section Cache.

(** [report.Build] of the clusters and results of a scan; the scans that are stored. *)
Context {A : Type} (build : list string -> Results -> BuildOptions -> A).

Record reportCache := { rc_entries : gmap string A; rc_order : list string }.

Definition empty_cache : reportCache := {| rc_entries := ∅; rc_order := [] |}.

(** The oldest keys go until the cache is as small as it should be. *)
Fixpoint evict (entries : gmap string A) (order : list string) : reportCache :=
  match order with
  | [] => {| rc_entries := entries; rc_order := [] |}
  | key :: order' =>
      if reportCacheSize <? length order then evict (delete key entries) order'
      else {| rc_entries := entries; rc_order := order |}
  end.

(** The second locked region: the report built is kept unless another call's already is. *)
Definition keep (c : reportCache) (key : string) (r : A) : reportCache :=
  match rc_entries c !! key with
  | Some _ => c
  | None => evict (<[key := r]> (rc_entries c)) (rc_order c ++ [key])
  end.

(** A call alone: what it returns and the cache it leaves. *)
Definition get (c : reportCache) (scanID : string) (clusters : list string) (results : Results) (opts : BuildOptions) : reportCache * option A :=
  let key := cache_key scanID opts in
  match rc_entries c !! key with
  | Some r => (c, Some r)
  | None => let c' := keep c key (build clusters results opts) in (c', rc_entries c' !! key)
  end.

(** ** Calls that overlap *)

Record call := { ca_scan : string; ca_clusters : list string; ca_results : Results; ca_opts : BuildOptions }.

Definition call_key (q : call) : string := cache_key (ca_scan q) (ca_opts q).
Definition call_build (q : call) : A := build (ca_clusters q) (ca_results q) (ca_opts q).

(** Before the look-up, between the two locked regions, and returned. *)
Inductive progress :=
  | Waiting (q : call)
  | Building (q : call)
  | Returned (q : call) (r : option A).

Definition advance (c : reportCache) (p : progress) : reportCache * progress :=
  match p with
  | Waiting q =>
      match rc_entries c !! call_key q with
      | Some r => (c, Returned q (Some r))
      | None => (c, Building q)
      end
  | Building q =>
      let c' := keep c (call_key q) (call_build q) in (c', Returned q (rc_entries c' !! call_key q))
  | Returned q r => (c, p)
  end.

Definition step_call (i : nat) (s : reportCache * list progress) : reportCache * list progress :=
  match snd s !! i with
  | Some p => let '(c, p') := advance (fst s) p in (c, <[i := p']> (snd s))
  | None => s
  end.

Definition run_calls (schedule : list nat) (calls : list call) : reportCache * list progress :=
  fold_left (fun s i => step_call i s) schedule (empty_cache, map Waiting calls).

End Cache.

Arguments reportCache : clear implicits.
Arguments progress : clear implicits.

(** ** Lemmas on keys *)

(** Text without the separators of a key. *)
Definition plain (s : string) : bool :=
  negb (String.eqb s "") && no_byte "=" s && no_byte "," s && no_byte ";" s && no_byte "+" s.

(** The same cohorts and groups, whatever order their members are listed in. *)
Definition sorted_group (g : string * list string) : string * list string := (fst g, sort_strings (snd g)).
Definition same_partition (o o' : BuildOptions) : Prop :=
  bo_ClusterTags o = bo_ClusterTags o' /\ map sorted_group (bo_Groups o) ≡ₚ map sorted_group (bo_Groups o').

Lemma plain_spec s : plain s = true -> s <> ""%string /\ no_byte "=" s = true /\ no_byte "," s = true /\ no_byte ";" s = true /\ no_byte "+" s = true.
Proof. unfold plain. rewrite !andb_true_iff, negb_true_iff, String.eqb_neq. tauto. Qed.

Lemma join_sep_cons c x l : join (String c "") (x :: l) = match l with [] => x | _ => (x ++ String c (join (String c "") l))%string end.
Proof. by destruct l. Qed.

Lemma no_byte_join b c l : b <> c -> Forall (fun s => no_byte b s = true) l -> no_byte b (join (String c "") l) = true.
Proof.
  intros Hbc. induction 1 as [|x l Hx _ IH]; [done|]. rewrite join_sep_cons. destruct l as [|y l]; [done|].
  rewrite no_byte_app, Hx. cbn [no_byte andb]. rewrite IH, andb_true_r. apply negb_true_iff, Ascii.eqb_neq. congruence.
Qed.

Lemma no_byte_not c x t : no_byte c x = true -> x <> (t ++ String c "")%string /\ forall u, x <> (t ++ String c u)%string.
Proof.
  intros H. assert (forall u, x <> (t ++ String c u)%string) as Hu by
    (intros u ->; rewrite no_byte_app in H; cbn [no_byte] in H; rewrite Ascii.eqb_refl in H; by rewrite andb_false_r in H).
  by split.
Qed.

(** Joined items without the separator are read back. *)
Lemma join_inj c l l' : Forall (fun s => s <> ""%string /\ no_byte c s = true) l -> Forall (fun s => s <> ""%string /\ no_byte c s = true) l' ->
  join (String c "") l = join (String c "") l' -> l = l'.
Proof.
  intros H. revert l'. induction H as [|x l [Hx Nx] _ IH]; intros l' H' E; destruct H' as [|y l' [Hy Ny] Hl'].
  - done.
  - rewrite join_sep_cons in E. destruct l'; simpl in E; [congruence|]. destruct y; [done|discriminate].
  - rewrite join_sep_cons in E. destruct l; simpl in E; [congruence|]. destruct x; [done|discriminate].
  - rewrite !join_sep_cons in E. destruct l as [|x2 l], l' as [|y2 l'].
    + by subst.
    + by destruct (proj2 (no_byte_not c x y Nx) _ E).
    + symmetry in E. by destruct (proj2 (no_byte_not c y x Ny) _ E).
    + pose proof (Cut_first x (join (String c "") (x2 :: l)) c Nx) as C1. rewrite E, (Cut_first y _ c Ny) in C1. injection C1 as -> E2.
      f_equal. by apply IH.
Qed.

Lemma tag_item_cut ct : plain (fst ct) = true -> Cut (tag_item ct) "=" = Some ct.
Proof. intros (_ & H & _)%plain_spec. destruct ct as [c t]. unfold tag_item. exact (Cut_first c t "=" H). Qed.

Lemma perm_map_on {A B C} (f : A -> B) (h : A -> C) (P : A -> Prop) l l' : (forall x y, P x -> P y -> f x = f y -> h x = h y) ->
  Forall P l -> Forall P l' -> map f l ≡ₚ map f l' -> map h l ≡ₚ map h l'.
Proof.
  intros Hf Hl Hl' (l2 & E & Hp)%Permutation_map_inv. rewrite Hp in Hl' |- *.
  enough (map h l = map h l2) as -> by done. clear Hp. revert l2 E Hl'.
  induction Hl as [|x l Hx _ IH]; intros [|y l2] E Hl2; try done. cbn [map] in *. apply Forall_cons in Hl2 as [Hy Hl2].
  injection E as E1 E2. f_equal; auto.
Qed.

Lemma items_sorted l l' : sort_strings l = sort_strings l' -> l ≡ₚ l'.
Proof. intros E. by rewrite <- (sort_strings_perm l), E, sort_strings_perm. Qed.

Lemma Forall_sort (P : string -> Prop) l : Forall P l -> Forall P (sort_strings l).
Proof. intros H. by rewrite (sort_strings_perm l). Qed.

(** An item of a key's list: no separator of the lists, and not empty. *)
Definition key_item (s : string) : Prop := s <> ""%string /\ no_byte "," s = true /\ no_byte ";" s = true.

Lemma tag_key_item ct : plain (fst ct) = true -> plain (snd ct) = true -> key_item (tag_item ct).
Proof.
  intros (H1 & _ & H2 & H3 & _)%plain_spec (_ & _ & H4 & H5 & _)%plain_spec. unfold key_item, tag_item. split_and!.
  - by destruct (fst ct).
  - rewrite no_byte_app, H2. cbn. exact H4.
  - rewrite no_byte_app, H3. cbn. exact H5.
Qed.

Lemma group_key_item g : plain (fst g) = true -> Forall (fun m => plain m = true) (snd g) -> key_item (group_item g).
Proof.
  intros (H1 & _ & H2 & H3 & _)%plain_spec Hm. unfold key_item, group_item.
  assert (forall b, b = ","%char \/ b = ";"%char -> no_byte b (join "+" (sort_strings (snd g))) = true) as Hj.
  { intros b Hb. apply no_byte_join; [by destruct Hb as [-> | ->]|]. apply Forall_sort. eapply Forall_impl; [exact Hm|].
    intros m (_ & _ & ? & ? & _)%plain_spec. by destruct Hb as [-> | ->]. }
  split_and!; [by destruct (fst g)|rewrite no_byte_app, H2; cbn; apply Hj; by left|rewrite no_byte_app, H3; cbn; apply Hj; by right].
Qed.

(** The members a group item lists, once they are sorted. *)
Lemma group_item_inj g g' : plain (fst g) = true -> plain (fst g') = true ->
  Forall (fun m => plain m = true) (snd g) -> Forall (fun m => plain m = true) (snd g') ->
  group_item g = group_item g' -> sorted_group g = sorted_group g'.
Proof.
  intros (_ & H & _)%plain_spec (_ & H' & _)%plain_spec Hm Hm' E. unfold group_item in E.
  pose proof (Cut_first (fst g) (join "+" (sort_strings (snd g))) "=" H) as C.
  change ("=" ++ ?x)%string with (String "=" x) in E. rewrite E, (Cut_first _ _ _ H') in C. injection C as E1 E2.
  unfold sorted_group. rewrite E1. f_equal. symmetry.
  assert (forall l, Forall (fun m => plain m = true) l -> Forall (fun s => s <> ""%string /\ no_byte "+" s = true) (sort_strings l)) as Hp.
  { intros l Hl. apply Forall_sort. eapply Forall_impl; [exact Hl|]. intros m (? & _ & _ & _ & ?)%plain_spec. done. }
  apply (join_inj "+"); auto.
Qed.

Lemma append_inj_l (p a b : string) : (p ++ a = p ++ b)%string -> a = b.
Proof. induction p as [|c p IH]; [done|]. intros [= E]. by apply IH. Qed.

Lemma key_parts f a b a' b' : no_byte ";" a = true -> no_byte ";" a' = true ->
  ("t=" ++ f ++ ";" ++ a ++ ";" ++ b)%string = ("t=" ++ f ++ ";" ++ a' ++ ";" ++ b')%string -> a = a' /\ b = b'.
Proof.
  intros H H' E%append_inj_l%append_inj_l%append_inj_l. change (";" ++ ?x)%string with (String ";" x) in E.
  pose proof (Cut_first a b ";" H) as C. rewrite E, (Cut_first a' b' ";" H') in C. by injection C as -> ->.
Qed.

Definition plain_tag (ct : string * string) : Prop := plain (fst ct) = true /\ plain (snd ct) = true.
Definition plain_group (g : string * list string) : Prop := plain (fst g) = true /\ Forall (fun m => plain m = true) (snd g).
Definition plain_options (o : BuildOptions) : Prop := Forall plain_tag (map_to_list (bo_ClusterTags o)) /\ Forall plain_group (bo_Groups o).

Lemma key_items_join l : Forall key_item l ->
  Forall (fun s => s <> ""%string /\ no_byte "," s = true) (sort_strings l) /\ no_byte ";" (join "," (sort_strings l)) = true.
Proof.
  intros H%Forall_sort. split; [eapply Forall_impl; [exact H|]; by intros s (? & ? & ?)|].
  apply no_byte_join; [done|]. eapply Forall_impl; [exact H|]. by intros s (? & ? & ?).
Qed.

(** Options of one threshold have one key exactly when they make the same cohorts and groups. *)
Lemma key_exact o o' : bo_OutlierThreshold o = bo_OutlierThreshold o' -> plain_options o -> plain_options o' ->
  optionsKey o = optionsKey o' <-> same_partition o o'.
Proof.
  intros Ht [Pt Pg] [Pt' Pg']. unfold optionsKey. rewrite Ht.
  assert (forall l, Forall plain_tag l -> Forall key_item (map tag_item l)) as Hti.
  { intros l Hl. apply Forall_map. eapply Forall_impl; [exact Hl|]. intros ct [? ?]. by apply tag_key_item. }
  assert (forall l, Forall plain_group l -> Forall key_item (map group_item l)) as Hgi.
  { intros l Hl. apply Forall_map. eapply Forall_impl; [exact Hl|]. intros g [? ?]. by apply group_key_item. }
  destruct (key_items_join _ (Hti _ Pt)) as [Jt St], (key_items_join _ (Hti _ Pt')) as [Jt' St'].
  destruct (key_items_join _ (Hgi _ Pg)) as [Jg _], (key_items_join _ (Hgi _ Pg')) as [Jg' _].
  split.
  - intros [E1 E2]%key_parts; [|done..]. apply (join_inj ",") in E1, E2; try done. apply items_sorted in E1, E2. split.
    + apply (perm_map_on tag_item id plain_tag) in E1; [|intros x y [Hx _] [Hy _] E|done..].
      * rewrite !map_id in E1. rewrite <- (list_to_map_to_list (bo_ClusterTags o)), <- (list_to_map_to_list (bo_ClusterTags o')).
        by apply list_to_map_proper; [apply NoDup_fst_map_to_list|].
      * pose proof (tag_item_cut x Hx) as C. rewrite E, (tag_item_cut y Hy) in C. by injection C.
    + apply (perm_map_on group_item sorted_group plain_group) in E2; [done| |done..].
      intros x y [Hx Mx] [Hy My]. by apply group_item_inj.
  - intros [E1 E2]. rewrite E1. do 4 f_equal. f_equal. apply f_equal, sort_strings_perm_eq.
    assert (forall l, map group_item l = map (fun g => fst g ++ "=" ++ join "+" (snd g))%string (map sorted_group l)) as Hs by (intros; by rewrite map_map).
    by rewrite !Hs, E2.
Qed.

(** ** The cache over any schedule *)

Section Schedules.

Context {A : Type} (build : list string -> Results -> BuildOptions -> A).

Notation call_build := (call_build build).
Notation run_calls := (run_calls build).

(** The entries are the keys in order, each once, and each a build of one of the calls. *)
Record sound (from : call -> Prop) (c : reportCache A) : Prop := {
  so_once : NoDup (rc_order c);
  so_keys : forall k, k ∈ rc_order c <-> is_Some (rc_entries c !! k);
  so_built : forall k r, rc_entries c !! k = Some r -> exists q, from q /\ call_key q = k /\ call_build q = r }.

Lemma evict_spec from entries order : sound from {| rc_entries := entries; rc_order := order |} ->
  let c := evict entries order in
  sound from c /\ length (rc_order c) <= reportCacheSize /\
  (forall key, last order = Some key -> rc_entries c !! key = entries !! key).
Proof.
  revert entries. induction order as [|k order IH]; intros entries Hs; cbn [evict]; [split_and!; [done|simpl; lia|done]|].
  destruct (Nat.ltb_spec reportCacheSize (length (k :: order))) as [Hlt|]; [|split_and!; [done..|done]].
  destruct Hs as [H1 H2 H3]. cbn [rc_order rc_entries] in *. apply NoDup_cons in H1 as [Hk H1].
  destruct (IH (delete k entries)) as (Hs & Hlen & Hlast).
  - split; cbn [rc_order rc_entries]; [done| |].
    + intros k'. destruct (decide (k' = k)) as [->|Hn].
      * rewrite lookup_delete_eq. split; [done|by intros [? ?]].
      * rewrite lookup_delete_ne by done. rewrite <- H2, elem_of_cons. tauto.
    + intros k' r Hr. apply lookup_delete_Some in Hr as [_ Hr]. by apply H3.
  - split_and!; [done..|]. intros key. destruct order as [|k2 order]; [simpl in Hlt; unfold reportCacheSize, maxHistoryScans in Hlt; lia|].
    rewrite last_cons_cons. intros Hkey. rewrite (Hlast key Hkey). apply lookup_delete_ne. intros ->. apply Hk.
    apply last_Some in Hkey as [l' ->]. apply elem_of_app. right. by left.
Qed.

Lemma keep_spec from c q : sound from c -> from q -> length (rc_order c) <= reportCacheSize ->
  let c' := keep c (call_key q) (call_build q) in
  sound from c' /\ length (rc_order c') <= reportCacheSize /\ is_Some (rc_entries c' !! call_key q).
Proof.
  intros Hs Hq Hlen. unfold keep. destruct (rc_entries c !! call_key q) as [r|] eqn:E; [by rewrite E|].
  destruct Hs as [H1 H2 H3].
  destruct (evict_spec from (<[call_key q := call_build q]> (rc_entries c)) (rc_order c ++ [call_key q])) as (Hs & Hl & Hlast).
  - split; cbn [rc_order rc_entries].
    + apply NoDup_app. split_and!; [done| |apply NoDup_singleton]. intros k Hk ->%list_elem_of_singleton. apply H2 in Hk. rewrite E in Hk. by destruct Hk.
    + intros k. rewrite elem_of_app, list_elem_of_singleton, H2. destruct (decide (k = call_key q)) as [->|].
      * rewrite lookup_insert_eq. split; [done|by right].
      * rewrite lookup_insert_ne by done. tauto.
    + intros k r. destruct (decide (k = call_key q)) as [->|].
      * rewrite lookup_insert_eq. intros [= <-]. by exists q.
      * rewrite lookup_insert_ne by done. apply H3.
  - split_and!; [done..|]. rewrite (Hlast (call_key q)) by apply last_snoc. by rewrite lookup_insert_eq.
Qed.

(** A call that has returned has the build of a call with its key. *)
Definition answered (from : call -> Prop) (p : progress A) : Prop :=
  match p with
  | Waiting q | Building q => from q
  | Returned q res => from q /\ exists q', from q' /\ call_key q' = call_key q /\ res = Some (call_build q')
  end.

Definition cache_inv (from : call -> Prop) (s : reportCache A * list (progress A)) : Prop :=
  sound from (fst s) /\ length (rc_order (fst s)) <= reportCacheSize /\ Forall (answered from) (snd s).

Lemma advance_inv from c p : sound from c -> length (rc_order c) <= reportCacheSize -> answered from p ->
  let '(c', p') := advance build c p in sound from c' /\ length (rc_order c') <= reportCacheSize /\ answered from p'.
Proof.
  intros Hs Hl Hp. destruct p as [q|q|q r]; cbn [advance answered] in *; [| |done].
  - destruct (rc_entries c !! call_key q) as [r|] eqn:E; [|done].
    destruct (so_built _ _ Hs _ _ E) as (q' & Hq' & Hk & <-). cbn [answered]. split_and!; [done..|]. by exists q'.
  - destruct (keep_spec from c q Hs Hp Hl) as (Hs' & Hl' & [r Hr]). 
    destruct (so_built _ _ Hs' _ _ Hr) as (q' & Hq' & Hk & <-). cbn [answered]. split_and!; [done..|]. exists q'. by rewrite Hr.
Qed.

Lemma run_calls_inv schedule calls : cache_inv (fun q => In q calls) (run_calls schedule calls).
Proof.
  unfold Cache.run_calls. set (from := fun q => In q calls).
  assert (cache_inv from (empty_cache, map (@Waiting A) calls)) as H.
  { split_and!; [split; cbn; [by apply NoDup_nil_2|intros k; rewrite lookup_empty; split; [intros Hin; by apply not_elem_of_nil in Hin|by intros [? ?]]|done]|simpl; lia|].
    cbn [snd]. apply Forall_map, Forall_forall. intros q Hq. apply list_elem_of_In in Hq. exact Hq. }
  revert H. generalize (@empty_cache A, map (@Waiting A) calls). induction schedule as [|i schedule IH]; intros s H; [done|].
  cbn [fold_left]. apply IH. destruct s as [c ps]. destruct H as (Hs & Hl & Hp). unfold step_call. cbn [fst snd] in *.
  destruct (ps !! i) as [p|] eqn:E; [|done]. pose proof (advance_inv from c p Hs Hl (Forall_lookup_1 _ _ _ _ Hp E)) as Ha.
  destruct (advance build c p) as [c' p']. destruct Ha as (? & ? & ?). split_and!; [done..|]. by apply Forall_insert.
Qed.

(** However calls overlap, the cache holds at most a hundred reports, as many entries as
    keys in its order and each key once. *)
Theorem cache_bounded schedule calls : let c := fst (run_calls schedule calls) in
  length (rc_order c) <= reportCacheSize /\ NoDup (rc_order c) /\ dom (rc_entries c) = list_to_set (rc_order c).
Proof.
  cbn zeta. destruct (run_calls_inv schedule calls) as ([H1 H2 _] & Hl & _). split_and!; [done..|].
  apply set_eq. intros k. rewrite elem_of_dom, elem_of_list_to_set. symmetry. apply H2.
Qed.

(** What calls of one server have in common: reports of stored scans, which never change,
    under ids without the byte that ends them in a key, built with one threshold. *)
Definition of_store (stored : string -> list string * Results) (threshold : float64) (q : call) : Prop :=
  (ca_clusters q, ca_results q) = stored (ca_scan q) /\ bo_OutlierThreshold (ca_opts q) = threshold /\ no_byte nul (ca_scan q) = true.

(** Calls of one key are of one scan, and of options with one encoding. *)
Lemma call_key_inj stored t q q' : of_store stored t q -> of_store stored t q' -> call_key q' = call_key q ->
  ca_clusters q' = ca_clusters q /\ ca_results q' = ca_results q /\ ca_scan q' = ca_scan q /\ optionsKey (ca_opts q') = optionsKey (ca_opts q).
Proof.
  intros (Hs & Ht & Hn) (Hs' & Ht' & Hn') E. unfold call_key, cache_key in E.
  pose proof (Cut_first (ca_scan q') (optionsKey (ca_opts q')) nul Hn') as C. rewrite E, Cut_first in C by done. clear E.
  assert (ca_scan q = ca_scan q' /\ optionsKey (ca_opts q) = optionsKey (ca_opts q')) as [E1 E2] by (split; congruence).
  rewrite <- E1 in Hs'. rewrite <- Hs in Hs'. injection Hs' as -> ->. by split_and!.
Qed.

(** C13: however calls overlap and whatever was evicted, a call that returns has the report of
    its own stored scan, built with the options of a call whose key is its own. When neither
    call's names, tags and groups hold a separator of the key or are empty, those options have
    the tags and the groups that were asked for, up to the order groups and their members are
    listed in; so a build that does not depend on that order gives exactly the report asked
    for. With separators in the names two options can share a key ([tags_share_key]), and the
    report is then built with the other call's. *)
Theorem cache_transparent stored t schedule calls i q res : Forall (of_store stored t) calls ->
  snd (run_calls schedule calls) !! i = Some (Returned q res) ->
  exists q', In q' calls /\ ca_scan q' = ca_scan q /\ optionsKey (ca_opts q') = optionsKey (ca_opts q) /\
    res = Some (build (ca_clusters q) (ca_results q) (ca_opts q')) /\
    (plain_options (ca_opts q) -> plain_options (ca_opts q') ->
       same_partition (ca_opts q) (ca_opts q') /\
       ((forall o o', same_partition o o' -> bo_OutlierThreshold o = bo_OutlierThreshold o' ->
           build (ca_clusters q) (ca_results q) o = build (ca_clusters q) (ca_results q) o') -> res = Some (call_build q))).
Proof.
  intros Hc Hi. destruct (run_calls_inv schedule calls) as (_ & _ & Hp).
  pose proof (Forall_lookup_1 _ _ _ _ Hp Hi) as (Hq & q' & Hq' & Hk & ->). rewrite List.Forall_forall in Hc.
  pose proof (Hc q Hq) as Sq. pose proof (Hc q' Hq') as Sq'.
  destruct (call_key_inj stored t q q' Sq Sq' Hk) as (Ec & Er & Es & Eo). destruct Sq as (_ & Ht & _), Sq' as (_ & Ht' & _).
  assert (bo_OutlierThreshold (ca_opts q) = bo_OutlierThreshold (ca_opts q')) as Et by congruence.
  exists q'. unfold Cache.call_build. rewrite Ec, Er. split_and!; [done..|]. intros P P'.
  assert (same_partition (ca_opts q) (ca_opts q')) as Hpart by (by apply key_exact). split; [done|]. intros Hb. f_equal. symmetry. by apply Hb.
Qed.

(** ** Every call returns *)

Definition moves (i : nat) (schedule : list nat) : nat := length (List.filter (Nat.eqb i) schedule).

(** Moves a call still needs. *)
Definition left_of (p : progress A) : nat := match p with Waiting _ => 2 | Building _ => 1 | Returned _ _ => 0 end.

Definition call_of (p : progress A) : call := match p with Waiting q | Building q | Returned q _ => q end.

Lemma moves_left schedule s i (p : progress A) : snd s !! i = Some p ->
  exists p', snd (fold_left (fun s i => step_call build i s) schedule s) !! i = Some p' /\
    left_of p' <= left_of p - moves i schedule /\ call_of p' = call_of p.
Proof.
  revert s p. induction schedule as [|j schedule IH]; intros s p Hp; [exists p; split_and!; [done|unfold moves; simpl; lia|done]|].
  cbn [fold_left]. unfold moves. cbn [List.filter]. destruct s as [c ps]. cbn [snd] in Hp. unfold step_call at 2. cbn [fst snd].
  destruct (Nat.eqb_spec i j) as [<-|Hn].
  - rewrite Hp. destruct (advance build c p) as [c' p1] eqn:Ea.
    assert (left_of p1 <= left_of p - 1 /\ call_of p1 = call_of p) as [H1 H1q].
    { destruct p as [q|q|q r]; cbn [advance] in Ea; [destruct (rc_entries c !! call_key q)| |]; injection Ea as <- <-; simpl; split; (lia || done). }
    destruct (IH (c', <[i := p1]> ps) p1) as (p' & Hp' & Hle & Hq); [cbn [snd]; apply list_lookup_insert_eq; by apply lookup_lt_Some in Hp|].
    exists p'. unfold moves in Hle. cbn [length]. split_and!; [done|lia|congruence].
  - destruct (ps !! j) as [pj|] eqn:Ej; [destruct (advance build c pj) as [c' p1]|]; apply IH; cbn [snd]; [|done].
    by rewrite list_lookup_insert_ne.
Qed.

(** A call returns a report once it has moved twice, whatever the other calls do. *)
Theorem call_returns schedule calls i q : calls !! i = Some q -> 2 <= moves i schedule ->
  exists r, snd (run_calls schedule calls) !! i = Some (Returned q (Some r)).
Proof.
  intros Hi Hm. unfold Cache.run_calls.
  destruct (moves_left schedule (empty_cache, map (@Waiting A) calls) i (Waiting q)) as (p & Hp & Hl & Hq); [cbn [snd]; by rewrite list_lookup_fmap, Hi|].
  destruct (run_calls_inv schedule calls) as (_ & _ & Ha). pose proof (Forall_lookup_1 _ _ _ _ Ha Hp) as Hans.
  destruct p as [|q'|q' r]; cbn [left_of] in Hl; try lia. destruct Hans as (_ & q2 & _ & _ & ->).
  cbn [call_of] in Hq. subst q'. eexists. exact Hp.
Qed.

End Schedules.

(** ** The theorems at work *)

Definition opts_of (tags : gmap string string) (groups : list (string * list string)) : BuildOptions := {|
  bo_OutlierThreshold := f_zero; bo_Groups := groups; bo_ClusterTags := tags |}.

(** What of the options a report could show. *)
Definition shown (clusters : list string) (results : Results) (o : BuildOptions) : list string * list (string * string) :=
  (clusters, map_to_list (bo_ClusterTags o)).

Definition stored_scan (scanID : string) : list string * Results := ([scanID ++ "-a"; scanID ++ "-b"]%string, ∅).
Definition call_on (scanID : string) (o : BuildOptions) : call := {|
  ca_scan := scanID; ca_clusters := fst (stored_scan scanID); ca_results := snd (stored_scan scanID); ca_opts := o |}.

Definition plain_calls : list call := [
  call_on "s1" (opts_of {["a" := "gpu"]} [("west", ["a"; "b"])]); call_on "s1" (opts_of {["a" := "gpu"]} [("west", ["b"; "a"])]);
  call_on "s2" (opts_of ∅ [])]%string.

Lemma cache_transparent_witness : exists q', In q' plain_calls /\ ca_scan q' = "s1"%string /\
  (plain_options (ca_opts q') -> same_partition (opts_of {["a" := "gpu"]} [("west", ["b"; "a"])]%string) (ca_opts q') /\
     Some (["s1-a"; "s1-b"], [("a", "gpu")])%string = Some (call_build shown (call_on "s1" (opts_of {["a" := "gpu"]} [("west", ["b"; "a"])]%string)))).
Proof.
  destruct (cache_transparent shown stored_scan f_zero [0; 1; 2; 0; 1; 2] plain_calls 1
    (call_on "s1" (opts_of {["a" := "gpu"]} [("west", ["b"; "a"])]%string)) (Some (["s1-a"; "s1-b"], [("a", "gpu")])%string)) as (q' & H1 & H2 & _ & _ & H3).
  - repeat (apply Forall_cons; split); [..|by apply Forall_nil]; split_and!; reflexivity.
  - vm_compute. reflexivity.
  - exists q'. split_and!; [exact H1|exact H2|]. intros P. destruct H3 as [H3 H4]; [|exact P|].
    + split; repeat first [apply Forall_nil; exact I | apply Forall_cons; split | split | reflexivity].
    + split; [exact H3|]. apply H4. intros o o' [E _] _. unfold shown. rewrite E. reflexivity.
Defined.

Lemma call_returns_witness : exists r, snd (run_calls shown [0; 1; 2; 0; 1; 2] plain_calls) !! 2 = Some (Returned (call_on "s2" (opts_of ∅ [])) (Some r)).
Proof. apply (call_returns shown [0; 1; 2; 0; 1; 2] plain_calls 2); [reflexivity|vm_compute; lia]. Defined.

(** A tag with the separators in it has the key of other tags: the second call is given the
    first one's cohorts. *)
Definition comma_tag : BuildOptions := opts_of {["a" := "x,b=y"]}%string [].
Definition two_tags : BuildOptions := opts_of {["a" := "x"; "b" := "y"]}%string [].

Lemma tags_share_key : optionsKey comma_tag = optionsKey two_tags /\
  snd (get shown (fst (get shown empty_cache "s1" ["a"; "b"] ∅ comma_tag)) "s1" ["a"; "b"] ∅ two_tags) =
    Some (shown ["a"; "b"] ∅ comma_tag) /\
  shown ["a"; "b"] ∅ comma_tag <> shown ["a"; "b"] ∅ two_tags.
Proof. split_and!; [vm_compute; reflexivity..|vm_compute; discriminate]. Qed.
