(* ===== verification/Stream.v ===== *)
(** * The event stream: internal/server/events.go

    The bus fans events out to the channels of its subscribers. A subscriber runs the code
    of [handleEventsStream]: it makes a channel, registers it under the mutex, receives,
    removes it under the mutex and closes it. Publishing holds the mutex throughout, so it is
    one step, and steps of subscribers and publishers come in any order. *)

From Stdlib Require Import ZArith Lia String Ascii.
From stdpp Require Import base gmap strings list sets fin_maps.
From S2P Require Import Prelude Text Data.

Local Open Scope nat_scope.

(** ** Events on the wire *)

Record BusEvent := { ev_Type : string; ev_At : Z; ev_Payload : option json }.

Definition EventScanComplete : string := "scan.complete".
Definition EventScanFailed : string := "scan.failed".
Definition EventKeyRevoked : string := "key.revoked".
Definition EventAlertReceived : string := "alert.received".

Definition newline : string := String "010" "".

(** [Marshal] is [json.Marshal] of the event. *)
Definition writeSSE (Marshal : BusEvent -> string + string) (ev : BusEvent) : string + string :=
  match Marshal ev with
  | inl payload => inl ("event: " ++ ev_Type ev ++ newline ++ "data: " ++ payload ++ newline ++ newline)%string
  | inr err => inr err
  end.

Definition hello (now : Z) : BusEvent := {| ev_Type := "stream.hello"; ev_At := now; ev_Payload := None |}.

(** What a handler writes for the events it receives, up to the first it cannot write. *)
Fixpoint stream_text (Marshal : BusEvent -> string + string) (events : list BusEvent) : string :=
  match events with
  | [] => ""
  | ev :: events' => match writeSSE Marshal ev with inl text => (text ++ stream_text Marshal events')%string | inr _ => "" end
  end.

(** ** Channels and the bus *)

(** Where a subscriber's code is. *)
Inductive phase := Allocated | Registered | Unregistered | Closed.

#[export] Instance phase_eq_dec : EqDecision phase.
Proof. solve_decision. Defined.

(** A subscriber: its channel, what it has received, and where it is. *)
Record Subscription := { su_cap : nat; su_buf : list BusEvent; su_closed : bool; su_got : list BusEvent; su_phase : phase }.

Definition in_phase (c : Subscription) (p : phase) : Subscription := {|
  su_cap := su_cap c; su_buf := su_buf c; su_closed := su_closed c; su_got := su_got c; su_phase := p |}.

(** The non-blocking send: dropped when the buffer is full; sending on a closed channel panics. *)
Definition send (e : BusEvent) (c : Subscription) : option Subscription :=
  if su_closed c then None
  else Some (if length (su_buf c) <? su_cap c
             then {| su_cap := su_cap c; su_buf := su_buf c ++ [e]; su_closed := false; su_got := su_got c; su_phase := su_phase c |}
             else c).

(** Closing twice panics. *)
Definition close (c : Subscription) : option Subscription :=
  if su_closed c then None
  else Some {| su_cap := su_cap c; su_buf := su_buf c; su_closed := true; su_got := su_got c; su_phase := su_phase c |}.

Record eventBus := { eb_nextID : Z; eb_streams : gset Z; eb_subs : gmap Z Subscription }.

Definition newEventBus : eventBus := {| eb_nextID := 0; eb_streams := ∅; eb_subs := ∅ |}.

Definition with_sub (b : eventBus) (id : Z) (c : Subscription) : eventBus := {|
  eb_nextID := eb_nextID b; eb_streams := eb_streams b; eb_subs := <[id := c]> (eb_subs b) |}.

Section Bus.

(** The order in which Go happens to range over the streams. *)
Context (order : list Z -> list Z).

Fixpoint send_all (e : BusEvent) (ids : list Z) (subs : gmap Z Subscription) : option (gmap Z Subscription) :=
  match ids with
  | [] => Some subs
  | id :: ids' =>
      match subs !! id with
      | Some c => match send e c with Some c' => send_all e ids' (<[id := c']> subs) | None => None end
      | None => send_all e ids' subs
      end
  end.

Definition publish (e : BusEvent) (b : eventBus) : option eventBus :=
  (fun subs => {| eb_nextID := eb_nextID b; eb_streams := eb_streams b; eb_subs := subs |}) <$>
  send_all e (order (elements (eb_streams b))) (eb_subs b).

(** What a goroutine does next. *)
Inductive bus_op :=
  | Allocate (buffer : nat)
  | Register (id : Z)
  | Receive (id : Z)
  | Unregister (id : Z)
  | Close (id : Z)
  | Publish (e : BusEvent).

(** The steps, each in the program order of the goroutine that takes it. *)
Inductive bus_step : eventBus -> bus_op -> eventBus -> Prop :=
  | step_allocate b n :
      let id := (eb_nextID b + 1)%Z in
      bus_step b (Allocate n) {| eb_nextID := id; eb_streams := eb_streams b;
        eb_subs := <[id := {| su_cap := n; su_buf := []; su_closed := false; su_got := []; su_phase := Allocated |}]> (eb_subs b) |}
  | step_register b id c : eb_subs b !! id = Some c -> su_phase c = Allocated ->
      bus_step b (Register id) {| eb_nextID := eb_nextID b; eb_streams := {[id]} ∪ eb_streams b;
        eb_subs := <[id := in_phase c Registered]> (eb_subs b) |}
  | step_receive b id c e rest : eb_subs b !! id = Some c -> su_phase c = Registered -> su_buf c = e :: rest ->
      bus_step b (Receive id) (with_sub b id {|
        su_cap := su_cap c; su_buf := rest; su_closed := su_closed c; su_got := su_got c ++ [e]; su_phase := Registered |})
  | step_unregister b id c : eb_subs b !! id = Some c -> su_phase c = Registered ->
      bus_step b (Unregister id) {| eb_nextID := eb_nextID b; eb_streams := eb_streams b ∖ {[id]};
        eb_subs := <[id := in_phase c Unregistered]> (eb_subs b) |}
  | step_close b id c c' : eb_subs b !! id = Some c -> su_phase c = Unregistered -> close c = Some c' ->
      bus_step b (Close id) (with_sub b id (in_phase c' Closed))
  | step_publish b e b' : publish e b = Some b' -> bus_step b (Publish e) b'.

(** The bus after a trace of steps. *)
Inductive reaches : list bus_op -> eventBus -> Prop :=
  | reaches_new : reaches [] newEventBus
  | reaches_step tr b op b' : reaches tr b -> bus_step b op b' -> reaches (tr ++ [op]) b'.

End Bus.

(** ** What a subscriber should see *)

(** Whether it is registered after the trace, and the events published while it was. *)
Definition watch_op (id : Z) (w : bool * list BusEvent) (op : bus_op) : bool * list BusEvent :=
  match op with
  | Register i => if Z.eqb i id then (true, snd w) else w
  | Unregister i => if Z.eqb i id then (false, snd w) else w
  | Publish e => if fst w then (true, snd w ++ [e]) else w
  | _ => w
  end.

Definition watch (id : Z) (tr : list bus_op) : bool * list BusEvent := fold_left (watch_op id) tr (false, []).

Definition is_receive (id : Z) (op : bus_op) : bool := match op with Receive i => Z.eqb i id | _ => false end.
Definition receives (id : Z) (tr : list bus_op) : nat := length (List.filter (is_receive id) tr).

(** At no time are more events waiting for it than its buffer holds. *)
Definition keeps_up (id : Z) (cap : nat) (tr : list bus_op) : Prop :=
  forall pre post, tr = pre ++ post -> length (snd (watch id pre)) <= cap + receives id pre.

(** ** Lemmas *)

Section Proofs.

Context (order : list Z -> list Z).
Hypothesis order_perm : forall l, order l ≡ₚ l.


Lemma send_all_spec e ids subs : NoDup ids -> (forall id c, id ∈ ids -> subs !! id = Some c -> su_closed c = false) ->
  exists subs', send_all e ids subs = Some subs' /\
    forall id, subs' !! id = if bool_decide (id ∈ ids) then subs !! id ≫= send e else subs !! id.
Proof.
  revert subs. induction ids as [|i ids IH]; intros subs Hnd Hopen; cbn [send_all]; [exists subs; split; [done|]; intros id; by rewrite bool_decide_eq_false_2 by apply not_elem_of_nil|].
  apply NoDup_cons in Hnd as [Hi Hnd]. destruct (subs !! i) as [c|] eqn:Ei.
  - assert (su_closed c = false) as Hc by (apply (Hopen i c); [by left|done]). unfold send at 1. rewrite Hc. set (c' := if length (su_buf c) <? su_cap c then _ else c).
    destruct (IH (<[i := c']> subs) Hnd) as (subs' & E & Hsubs).
    + intros id d Hin. rewrite lookup_insert_ne by congruence. intros. eapply Hopen; [by right|done].
    + exists subs'. split; [done|]. intros id. rewrite Hsubs. destruct (decide (id = i)) as [->|Hn].
      * rewrite bool_decide_eq_false_2, bool_decide_eq_true_2 by (done || by left). rewrite lookup_insert_eq, Ei. simpl. unfold send. by rewrite Hc.
      * rewrite lookup_insert_ne by done. assert (bool_decide (id ∈ i :: ids) = bool_decide (id ∈ ids)) as -> by (apply bool_decide_ext; set_solver). done.
  - destruct (IH subs Hnd) as (subs' & E & Hsubs); [intros; eapply Hopen; [by right|done]|]. exists subs'. split; [done|]. intros id. rewrite Hsubs.
    destruct (decide (id = i)) as [->|Hn].
    + rewrite bool_decide_eq_false_2, bool_decide_eq_true_2 by (done || by left). by rewrite Ei.
    + assert (bool_decide (id ∈ i :: ids) = bool_decide (id ∈ ids)) as -> by (apply bool_decide_ext; set_solver). done.
Qed.

(** The bus holds the channels of the subscribers between registering and unregistering, and
    a channel is closed only after both. *)
Record well_run (b : eventBus) : Prop := {
  wr_streams : forall id, id ∈ eb_streams b <-> exists c, eb_subs b !! id = Some c /\ su_phase c = Registered;
  wr_closed : forall id c, eb_subs b !! id = Some c -> su_closed c = bool_decide (su_phase c = Closed);
  wr_ids : forall id, is_Some (eb_subs b !! id) -> (id <= eb_nextID b)%Z }.

Lemma publish_spec e b : well_run b -> exists b', publish order e b = Some b' /\
  eb_streams b' = eb_streams b /\ eb_nextID b' = eb_nextID b /\
  forall id, eb_subs b' !! id = if bool_decide (id ∈ eb_streams b) then eb_subs b !! id ≫= send e else eb_subs b !! id.
Proof.
  intros [H1 H2 _]. unfold publish.
  destruct (send_all_spec e (order (elements (eb_streams b))) (eb_subs b)) as (subs & -> & Hs).
  - rewrite order_perm. apply NoDup_elements.
  - intros id c Hin Hc. rewrite order_perm, elem_of_elements, H1 in Hin. destruct Hin as (d & Hd & Hp).
    rewrite Hc in Hd. injection Hd as <-. rewrite (H2 id c Hc), Hp. done.
  - eexists. split; [reflexivity|]. split_and!; [done..|]. intros id. cbn [eb_subs]. rewrite Hs.
    replace (bool_decide (id ∈ order (elements (eb_streams b)))) with (bool_decide (id ∈ eb_streams b)); [done|].
    apply bool_decide_ext. by rewrite order_perm, elem_of_elements.
Qed.

Lemma send_phase e c c' : send e c = Some c' -> su_phase c' = su_phase c /\ su_closed c' = su_closed c /\ su_got c' = su_got c /\ su_cap c' = su_cap c.
Proof. unfold send. destruct (su_closed c) eqn:E; [done|]. destruct (length (su_buf c) <? su_cap c); intros [= <-]; by rewrite ?E. Qed.

Lemma send_open e c : su_closed c = false -> exists c', send e c = Some c' /\ su_phase c' = su_phase c.
Proof. intros Hc. unfold send. rewrite Hc. destruct (length (su_buf c) <? su_cap c); (eexists; split; reflexivity). Qed.

(** What publishing does to one subscriber. *)
Lemma publish_sub e b b' id c' : well_run b -> publish order e b = Some b' -> eb_subs b' !! id = Some c' ->
  exists c, eb_subs b !! id = Some c /\ su_phase c' = su_phase c /\
    if bool_decide (su_phase c = Registered) then send e c = Some c' else c' = c.
Proof.
  intros Hw Hp Hc. destruct (publish_spec e b Hw) as (b2 & E & _ & _ & Hsub). rewrite Hp in E. injection E as <-. rewrite Hsub in Hc.
  destruct (eb_subs b !! id) as [c|] eqn:Ec; [|by destruct (bool_decide _)]. exists c. split; [done|].
  assert (id ∈ eb_streams b <-> su_phase c = Registered) as Hin.
  { rewrite (wr_streams b Hw). split; [intros (d & Hd & Hr); congruence|intros; by exists c]. }
  destruct (decide (su_phase c = Registered)) as [Hr|Hr].
  - rewrite bool_decide_eq_true_2 in Hc by by apply Hin. cbn in Hc. rewrite bool_decide_eq_true_2 by done. split; [|done]. by apply send_phase in Hc as [? _].
  - rewrite bool_decide_eq_false_2 in Hc by (by rewrite Hin). rewrite bool_decide_eq_false_2 by done. injection Hc as <-. done.
Qed.

Ltac at_id i id := destruct (decide (id = i)) as [->|]; [rewrite lookup_insert_eq in *|rewrite lookup_insert_ne in * by done].

Lemma step_well_run b op b' : well_run b -> bus_step order b op b' -> well_run b'.
Proof.
  intros Hw Hs. pose proof Hw as [H1 H2 H3].
  destruct Hs as [b n id|b i c Hc Hp|b i c e rest Hc Hp Hb|b i c Hc Hp|b i c c' Hc Hp Hcl|b e b2 Hpub].
  - assert (eb_subs b !! id = None) as Hn.
    { destruct (eb_subs b !! id) eqn:E; [|done]. assert (id <= eb_nextID b)%Z by (apply H3; by eexists). unfold id in *. lia. }
    split; cbn [eb_streams eb_subs eb_nextID].
    + intros j. rewrite H1. at_id id j; [|done]. rewrite Hn. split; [by intros (? & ? & ?)|by intros (? & [= <-] & ?)].
    + intros j d Hd. at_id id j; [by injection Hd as <-|by eapply H2].
    + intros j Hj. at_id id j; [done|]. apply H3 in Hj. unfold id. lia.
  - split; cbn [eb_streams eb_subs eb_nextID].
    + intros j. rewrite elem_of_union, elem_of_singleton. at_id i j; [split; [intros _; by eexists|by left]|]. rewrite <- H1. tauto.
    + intros j d Hd. at_id i j; [|by eapply H2]. injection Hd as <-. cbn. rewrite (H2 i c Hc), Hp. done.
    + intros j Hj. at_id i j; [|by apply H3]. apply H3. by eexists.
  - split; cbn [eb_streams eb_subs eb_nextID with_sub].
    + intros j. rewrite H1. at_id i j; [|done]. split; [intros _; by eexists|intros _; by exists c].
    + intros j d Hd. at_id i j; [|by eapply H2]. injection Hd as <-. cbn. rewrite (H2 i c Hc), Hp. done.
    + intros j Hj. at_id i j; [|by apply H3]. apply H3. by eexists.
  - split; cbn [eb_streams eb_subs eb_nextID].
    + intros j. rewrite elem_of_difference, elem_of_singleton. at_id i j; [split; [by intros [_ ?]|by intros (? & [= <-] & ?)]|]. rewrite <- H1. tauto.
    + intros j d Hd. at_id i j; [|by eapply H2]. injection Hd as <-. cbn. rewrite (H2 i c Hc), Hp. done.
    + intros j Hj. at_id i j; [|by apply H3]. apply H3. by eexists.
  - unfold close in Hcl. destruct (su_closed c); [done|]. injection Hcl as <-. split; cbn [eb_streams eb_subs eb_nextID with_sub].
    + intros j. rewrite H1. at_id i j; [|done]. split; [intros (? & ? & ?); congruence|by intros (? & [= <-] & ?)].
    + intros j d Hd. at_id i j; [|by eapply H2]. injection Hd as <-. done.
    + intros j Hj. at_id i j; [|by apply H3]. apply H3. by eexists.
  - destruct (publish_spec e b Hw) as (b' & E & Est & Eid & Hsub). rewrite Hpub in E. injection E as <-. split.
    + intros j. rewrite Est, H1. split.
      * intros (c & Hc & Hr). rewrite Hsub, Hc. rewrite bool_decide_eq_true_2 by (apply H1; by exists c).
        destruct (send_open e c) as (c' & Hc' & Hph); [by rewrite (H2 j c Hc), Hr|]. exists c'. split; [exact Hc'|congruence].
      * intros (c' & Hc' & Hr). destruct (publish_sub e b b2 j c' Hw Hpub Hc') as (c & Hc & Hph & _). exists c. split; [done|congruence].
    + intros j c' Hc'. destruct (publish_sub e b b2 j c' Hw Hpub Hc') as (c & Hc & Hph & Hif). rewrite Hph, <- (H2 j c Hc).
      destruct (bool_decide _); [by apply send_phase in Hif as (_ & ? & _)|by subst].
    + intros j [c' Hc']. destruct (publish_sub e b b2 j c' Hw Hpub Hc') as (c & Hc & _). rewrite Eid. apply H3. by eexists.
Qed.

Lemma reaches_well_run tr b : reaches order tr b -> well_run b.
Proof.
  induction 1 as [|tr b op b' _ IH Hs]; [|by eapply step_well_run].
  split; cbn; [intros id; rewrite lookup_empty; split; [by intros ?%not_elem_of_empty|by intros (? & ? & _)]|done|by intros id [? ?]].
Qed.

(** Whatever the order of steps, the bus never panics: an event can be published at any
    time, and a subscriber can close its channel once it has removed it. *)
Theorem bus_never_panics tr b : reaches order tr b ->
  (forall e, exists b', publish order e b = Some b') /\
  (forall id c, eb_subs b !! id = Some c -> su_phase c = Unregistered -> exists c', close c = Some c').
Proof.
  intros Hw%reaches_well_run. split.
  - intros e. destruct (publish_spec e b Hw) as (b' & Hb' & _). by exists b'.
  - intros id c Hc Hp. unfold close. rewrite (wr_closed b Hw id c Hc), Hp. cbn. by eexists.
Qed.

(** ** What a subscriber is sent *)

Lemma watch_snoc id tr op : watch id (tr ++ [op]) = watch_op id (watch id tr) op.
Proof. unfold watch. by rewrite fold_left_app. Qed.

Lemma receives_snoc id tr op : receives id (tr ++ [op]) = receives id tr + (if is_receive id op then 1 else 0).
Proof. unfold receives. rewrite List.filter_app, length_app. cbn [List.filter]. by destruct (is_receive id op). Qed.

Lemma keeps_up_prefix id cap tr op : keeps_up id cap (tr ++ [op]) -> keeps_up id cap tr /\ length (snd (watch id (tr ++ [op]))) <= cap + receives id (tr ++ [op]).
Proof.
  intros H. split; [|apply (H _ []); by rewrite app_nil_r]. intros pre post ->. apply (H pre (post ++ [op])). by rewrite app_assoc.
Qed.

(** How a subscriber stands against what was published while it was registered. *)
Record follows (id : Z) (tr : list bus_op) (c : Subscription) : Prop := {
  fo_on : fst (watch id tr) = bool_decide (su_phase c = Registered);
  fo_part : sublist (su_got c ++ su_buf c) (snd (watch id tr));
  fo_buf : length (su_buf c) <= su_cap c;
  fo_takes : receives id tr = length (su_got c);
  fo_all : keeps_up id (su_cap c) tr -> su_got c ++ su_buf c = snd (watch id tr) }.

Definition unseen (id : Z) (tr : list bus_op) : Prop := watch id tr = (false, []) /\ receives id tr = 0.

(** A step that neither concerns the subscriber nor publishes leaves it where it stood. *)
Lemma follows_skip id tr c op : watch_op id (watch id tr) op = watch id tr -> is_receive id op = false -> follows id tr c -> follows id (tr ++ [op]) c.
Proof.
  intros Hw Hr [F1 F2 F3 F4 F5]. split; rewrite ?watch_snoc, ?receives_snoc, ?Hw, ?Hr; [done..|lia|].
  intros [Hk _]%keeps_up_prefix. by apply F5.
Qed.

Lemma reaches_follows tr b id : reaches order tr b ->
  match eb_subs b !! id with Some c => follows id tr c | None => unseen id tr end.
Proof.
  intros Hr. induction Hr as [|tr b op b' Hr IH Hs]; [cbn; by rewrite lookup_empty|].
  pose proof (reaches_well_run _ _ Hr) as Hw.
  assert (Hun : watch_op id (watch id tr) op = watch id tr -> is_receive id op = false -> unseen id tr -> unseen id (tr ++ [op])).
  { intros H1 H2 [H3 H4]. split; [by rewrite watch_snoc, H1|]. by rewrite receives_snoc, H2, H4. }
  destruct Hs as [b n i|b i c Hc Hp|b i c e rest Hc Hp Hb|b i c Hc Hp|b i c c' Hc Hp Hcl|b e b2 Hpub]; cbn [eb_subs with_sub].
  - destruct (decide (id = i)) as [->|Hn].
    + rewrite lookup_insert_eq. destruct (eb_subs b !! i) as [d|] eqn:E.
      { assert (i <= eb_nextID b)%Z by (apply (wr_ids b Hw); by eexists). unfold i in *. lia. }
      destruct (Hun eq_refl eq_refl IH) as [H1 H2]. split; rewrite ?H1; cbn; (done || lia).
    + rewrite lookup_insert_ne by done. destruct (eb_subs b !! id); [by apply follows_skip|by apply Hun].
  - destruct (decide (id = i)) as [->|Hn].
    + rewrite lookup_insert_eq. rewrite Hc in IH. destruct IH as [F1 F2 F3 F4 F5].
      split; rewrite ?watch_snoc, ?receives_snoc; cbn; rewrite ?Z.eqb_refl; cbn; [done..|lia|]. intros [Hk _]%keeps_up_prefix. by apply F5.
    + rewrite lookup_insert_ne by done. assert ((i =? id)%Z = false) as E by lia.
      destruct (eb_subs b !! id); [apply follows_skip|apply Hun]; cbn; rewrite ?E; done.
  - destruct (decide (id = i)) as [->|Hn].
    + rewrite lookup_insert_eq. rewrite Hc in IH. destruct IH as [F1 F2 F3 F4 F5]. rewrite Hp in F1. rewrite Hb in *.
      split; rewrite ?watch_snoc, ?receives_snoc; cbn; rewrite ?Z.eqb_refl, <- ?app_assoc; cbn; [done|done|simpl in F3; lia|rewrite length_app; simpl; lia|].
      intros [Hk _]%keeps_up_prefix. by apply F5.
    + rewrite lookup_insert_ne by done. assert ((i =? id)%Z = false) as E by lia.
      destruct (eb_subs b !! id); [apply follows_skip|apply Hun]; cbn; rewrite ?E; done.
  - destruct (decide (id = i)) as [->|Hn].
    + rewrite lookup_insert_eq. rewrite Hc in IH. destruct IH as [F1 F2 F3 F4 F5].
      split; rewrite ?watch_snoc, ?receives_snoc; cbn; rewrite ?Z.eqb_refl; cbn; [done..|lia|]. intros [Hk _]%keeps_up_prefix. by apply F5.
    + rewrite lookup_insert_ne by done. assert ((i =? id)%Z = false) as E by lia.
      destruct (eb_subs b !! id); [apply follows_skip|apply Hun]; cbn; rewrite ?E; done.
  - destruct (decide (id = i)) as [->|Hn].
    + rewrite lookup_insert_eq. rewrite Hc in IH. apply (follows_skip i tr c (Close i)) in IH; [|done..].
      unfold close in Hcl. destruct (su_closed c); [done|]. injection Hcl as <-. destruct IH as [F1 F2 F3 F4 F5]. split; cbn; try done.
      by rewrite F1, Hp.
    + rewrite lookup_insert_ne by done. destruct (eb_subs b !! id); [by apply follows_skip|by apply Hun].
  - destruct (eb_subs b2 !! id) as [c'|] eqn:E.
    + destruct (publish_sub e b b2 id c' Hw Hpub E) as (c & Hc & Hph & Hif). rewrite Hc in IH. destruct IH as [F1 F2 F3 F4 F5].
      destruct (decide (su_phase c = Registered)) as [Hreg|Hreg].
      * rewrite bool_decide_eq_true_2 in F1, Hif by done. destruct (send_phase _ _ _ Hif) as (_ & _ & Hgot & Hcap).
        assert (watch id (tr ++ [Publish e]) = (true, snd (watch id tr) ++ [e])) as Hwatch by (rewrite watch_snoc; cbn; by rewrite F1).
        unfold send in Hif. destruct (su_closed c); [done|]. destruct (Nat.ltb_spec (length (su_buf c)) (su_cap c)) as [Hlt|Hge]; injection Hif as <-.
        -- split; rewrite ?Hwatch, ?receives_snoc; cbn; rewrite ?app_assoc; [by rewrite bool_decide_eq_true_2|by apply sublist_app|rewrite length_app; simpl; lia|lia|].
           intros [Hk _]%keeps_up_prefix. by rewrite F5.
        -- split; rewrite ?Hwatch, ?receives_snoc; cbn; [by rewrite bool_decide_eq_true_2|by apply sublist_inserts_r|done|lia|].
           intros [Hk Hlen]%keeps_up_prefix. exfalso. rewrite Hwatch, receives_snoc in Hlen. cbn in Hlen. rewrite <- F5, !length_app, F4 in Hlen by done.
           simpl in Hlen. lia.
      * rewrite bool_decide_eq_false_2 in F1, Hif by done. subst c'. apply follows_skip; [cbn; by rewrite F1|done|]. by split; rewrite ?bool_decide_eq_false_2.
    + destruct (eb_subs b !! id) as [c|] eqn:Ec; [|apply Hun; [|done|done]; destruct IH as [Hi _]; cbn; by rewrite Hi].
      exfalso. destruct (publish_spec e b Hw) as (b3 & Hp3 & _ & _ & Hsub). rewrite Hpub in Hp3. injection Hp3 as <-.
      rewrite Hsub, Ec in E. destruct (bool_decide _) eqn:Hb; [|done]. apply bool_decide_eq_true in Hb. apply (wr_streams b Hw) in Hb as (d & Hd & Hdp).
      rewrite Ec in Hd. injection Hd as <-. destruct (send_open e c) as (c' & Hc' & _); [by rewrite (wr_closed b Hw id c Ec), Hdp|].
      change (send e c = None) in E. congruence.
Qed.

(** C30: a subscriber is sent, in order and each at most once, events published between its
    registering and its removal, whatever the other subscribers do; and all of them if never
    more are waiting than its buffer holds. *)
Theorem events_delivered tr b id c : reaches order tr b -> eb_subs b !! id = Some c ->
  sublist (su_got c ++ su_buf c) (snd (watch id tr)) /\ length (su_buf c) <= su_cap c /\
  (keeps_up id (su_cap c) tr -> su_got c ++ su_buf c = snd (watch id tr)).
Proof.
  intros Hr Hc. pose proof (reaches_follows tr b id Hr) as H. rewrite Hc in H. destruct H as [_ F2 F3 _ F5]. by split_and!.
Qed.

End Proofs.

(** ** A run *)

Definition done_event (n : Z) : BusEvent := {| ev_Type := EventScanComplete; ev_At := n; ev_Payload := None |}.

Definition sample_trace : list bus_op :=
  [Allocate 1; Register 1; Publish (done_event 1); Receive 1; Publish (done_event 2)]%Z.

Lemma sample_run : exists b c, reaches id sample_trace b /\ eb_subs b !! 1%Z = Some c /\ su_cap c = 1 /\ su_phase c = Registered.
Proof.
  eexists _, _. split; [|split].
  - refine (reaches_step id (take 4 sample_trace) _ _ _ (reaches_step id (take 3 sample_trace) _ _ _
      (reaches_step id (take 2 sample_trace) _ _ _ (reaches_step id (take 1 sample_trace) _ _ _
      (reaches_step id [] _ _ _ (reaches_new id) _) _) _) _) _).
    + apply step_allocate.
    + eapply step_register; vm_compute; reflexivity.
    + apply step_publish. vm_compute. reflexivity.
    + eapply step_receive; vm_compute; reflexivity.
    + apply step_publish. vm_compute. reflexivity.
  - vm_compute. reflexivity.
  - split; reflexivity.
Defined.

Lemma sample_keeps_up : keeps_up 1 1 sample_trace.
Proof.
  intros pre post E. unfold sample_trace in E.
  assert (pre = take (length pre) sample_trace) as -> by (unfold sample_trace; by rewrite E, take_app_length).
  assert (length pre <= 5) as Hl by (apply (f_equal length) in E; rewrite length_app in E; simpl in E; lia).
  clear E. do 6 (destruct pre as [|? pre]; [vm_compute; lia|]). simpl in Hl. lia.
Qed.

Lemma bus_never_panics_witness : exists b, reaches id sample_trace b /\ exists b', publish id (done_event 3) b = Some b'.
Proof.
  destruct sample_run as (b & c & Hr & _). exists b. split; [exact Hr|].
  exact (proj1 (bus_never_panics id (fun l => Permutation_refl l) sample_trace b Hr) (done_event 3)).
Defined.

Lemma events_delivered_witness : exists b c, reaches id sample_trace b /\ eb_subs b !! 1%Z = Some c /\
  su_got c ++ su_buf c = [done_event 1; done_event 2].
Proof.
  destruct sample_run as (b & c & Hr & Hc & Hcap & _). exists b, c. split; [exact Hr|]. split; [exact Hc|].
  destruct (events_delivered id (fun l => Permutation_refl l) sample_trace b 1 c Hr Hc) as (_ & _ & H).
  rewrite Hcap in H. exact (H sample_keeps_up).
Defined.
