(* ===== verification/Duration.v ===== *)
(** * time.ParseDuration

    A duration is a signed 64-bit count of nanoseconds. Intermediate counts are unsigned, and
    every step that could pass 2^63 is refused, so nothing wraps. *)

From Stdlib Require Import ZArith Lia String Ascii.
From stdpp Require Import base list strings.
From S2P Require Import Prelude Float64 GoTime Text Fingerprint Format.

Local Open Scope Z_scope.

Definition limit63 : Z := 9223372036854775808.

Definition is_digit (c : ascii) : bool := byte_in 48 57 c.
Definition digit_value (c : ascii) : Z := byte_Z c - 48.

(** [None] is the overflow error. *)
Fixpoint leadingInt (x : Z) (s : bytes) : option (Z * bytes) :=
  match s with
  | c :: s' =>
      if is_digit c then
        if limit63 / 10 <? x then None
        else let x := x * 10 + digit_value c in if limit63 <? x then None else leadingInt x s'
      else Some (x, s)
  | [] => Some (x, [])
  end.

(** Digits past an overflow are read and ignored. *)
Fixpoint leadingFraction (x : Z) (scale : float64) (overflow : bool) (s : bytes) : Z * float64 * bytes :=
  match s with
  | c :: s' =>
      if is_digit c then
        if overflow then leadingFraction x scale true s'
        else if (limit63 - 1) / 10 <? x then leadingFraction x scale true s'
        else let y := x * 10 + digit_value c in
             if limit63 <? y then leadingFraction x scale true s'
             else leadingFraction y (f_mul scale (f_of_Z 10)) false s'
      else (x, scale, s)
  | [] => (x, scale, [])
  end.

(** [unitMap]; the two micro signs are U+00B5 and U+03BC. *)
Definition unit_of (u : string) : option Z :=
  if String.eqb u "ns" then Some 1
  else if String.eqb u "us" then Some 1000
  else if String.eqb u (of_bytes ["194"; "181"; "s"]%char) then Some 1000
  else if String.eqb u (of_bytes ["206"; "188"; "s"]%char) then Some 1000
  else if String.eqb u "ms" then Some 1000000
  else if String.eqb u "s" then Some Second
  else if String.eqb u "m" then Some Minute
  else if String.eqb u "h" then Some Hour
  else None.

Fixpoint digit_span (p : ascii -> bool) (s : bytes) : bytes * bytes :=
  match s with
  | c :: s' => if p c then let '(a, b) := digit_span p s' in (c :: a, b) else ([], s)
  | [] => ([], [])
  end.

(** The quoting of package time: quotes and backslashes, and bytes outside printable ASCII. *)
Definition time_quote_byte (c : ascii) : bytes :=
  let bs := ascii_of_nat 92 in
  let n := nat_of_ascii c in
  if Ascii.eqb c bs || (n =? 34)%nat then [bs; c]
  else if (n <? 32)%nat || (128 <=? n)%nat then [bs; "x"%char; Format.hex_digit (n / 16); Format.hex_digit (n mod 16)]
  else [c].

Definition time_quote (s : string) : string :=
  let q := ascii_of_nat 34 in of_bytes (q :: flat_map time_quote_byte (to_bytes s) ++ [q]).

Section Parse.

Context (orig : string).

Definition bad_duration : Z + string := inr ("time: invalid duration " ++ time_quote orig)%string.

(** One number with its unit after another; [d] is their sum so far. *)
Fixpoint duration_loop (fuel : nat) (d : Z) (s : bytes) : Z + string :=
  match s, fuel with
  | [], _ => inl d
  | _, O => bad_duration
  | c :: _, S fuel' =>
      if negb (Ascii.eqb c "." || is_digit c) then bad_duration
      else match leadingInt 0 s with
      | None => bad_duration
      | Some (v, s1) =>
          let pre := negb (length s1 =? length s)%nat in
          let '(f, scale, s2, post) :=
            match s1 with
            | "."%char :: s1' => let '(f, scale, s2) := leadingFraction 0 (f_of_Z 1) false s1' in (f, scale, s2, negb (length s2 =? length s1')%nat)
            | _ => (0, f_of_Z 1, s1, false)
            end in
          if negb pre && negb post then bad_duration
          else
            let '(u, s3) := digit_span (fun c => negb (Ascii.eqb c "." || is_digit c)) s2 in
            match u with
            | [] => inr ("time: missing unit in duration " ++ time_quote orig)%string
            | _ =>
                match unit_of (of_bytes u) with
                | None => inr ("time: unknown unit " ++ time_quote (of_bytes u) ++ " in duration " ++ time_quote orig)%string
                | Some unit =>
                    if limit63 / unit <? v then bad_duration
                    else
                      let v := v * unit in
                      let v := if 0 <? f then v + f_to_int (f_mul (f_of_Z f) (f_div (f_of_Z unit) scale)) else v in
                      if limit63 <? v then bad_duration
                      else let d := d + v in if limit63 <? d then bad_duration else duration_loop fuel' d s3
                end
            end
      end
  end.

End Parse.

Definition ParseDuration (orig : string) : Z + string :=
  let s := to_bytes orig in
  let '(neg, s) := match s with
    | c :: s' => if Ascii.eqb c "-" then (true, s') else if Ascii.eqb c "+" then (false, s') else (false, s)
    | [] => (false, []) end in
  match s with
  | [] => bad_duration orig
  | ["0"%char] => inl 0
  | _ =>
      match duration_loop orig (length s) 0 s with
      | inr err => inr err
      | inl d => if neg then inl (- d) else if limit63 - 1 <? d then bad_duration orig else inl d
      end
  end.

Example ParseDuration_ex : map ParseDuration ["15m"; "1h30m"; "-1.5h"; "0"; "100ms"; ".5s"; "2562047h47m16.854775807s"]%string =
  map inl [15 * Minute; 90 * Minute; - (90 * Minute); 0; 100000000; 500000000; limit63 - 1].
Proof. vm_compute. reflexivity. Qed.

Example ParseDuration_errors : map ParseDuration [""; "15"; "1d"; "2562047h47m16.854775808s"]%string = map inr [
  "time: invalid duration " ++ quote ""; "time: missing unit in duration " ++ quote "15";
  "time: unknown unit " ++ quote "d" ++ " in duration " ++ quote "1d"; "time: invalid duration " ++ quote "2562047h47m16.854775808s"]%string.
Proof. vm_compute. reflexivity. Qed.
