(* ===== verification/Controller.v ===== *)
(** * The ClusterScan controller: internal/controller

    A reconcile pass reads one ClusterScan from the informer's cache, decides whether a scan
    is due, runs it and patches the status. The passes of one resource never overlap: the
    work queue hands a key to one worker at a time. What a pass meets - the clock, the API
    server's answers, the scan's outcome and a deletion while it runs - is its input; what it
    changes is a [World]: the controller's memory, its counters, and the patches, events and
    scans it made. The decoding of an object and [meta.SetStatusCondition] are libraries;
    a condition is kept without its transition time. *)

From Stdlib Require Import ZArith Lia String Ascii.
From stdpp Require Import base gmap strings list option.
From S2P Require Import Prelude Float64 GoTime Text Data Format Duration.

Local Open Scope Z_scope.

(** ** types.go *)

Record EmitOptions := { eo_FleetDriftReport : bool; eo_PolicyReport : bool; eo_Slack : bool }.

Record ClusterScanSpec := {
  cp_Contexts : list string; cp_Group : string; cp_Interval : string; cp_Scanners : list string; cp_Emit : EmitOptions; cp_Paused : bool }.

Definition no_spec : ClusterScanSpec := {|
  cp_Contexts := []; cp_Group := ""; cp_Interval := ""; cp_Scanners := [];
  cp_Emit := {| eo_FleetDriftReport := false; eo_PolicyReport := false; eo_Slack := false |}; cp_Paused := false |}.

Inductive ConditionStatus := ConditionTrue | ConditionFalse.

Record Condition := { cd_Type : string; cd_Status : ConditionStatus; cd_ObservedGeneration : Z; cd_Reason : string; cd_Message : string }.

Record ClusterScanStatus := {
  ct_Phase : string; ct_LastScanID : string; ct_LastScanTime : option Z; ct_NextScanTime : option Z; ct_ObservedScore : Z;
  ct_ObservedGrade : string; ct_ObservedCritical : Z; ct_ObservedWarning : Z; ct_ObservedClusters : Z; ct_ObservedGeneration : Z;
  ct_ConsecutiveFailures : Z; ct_Message : string; ct_Conditions : list Condition }.

Definition no_status : ClusterScanStatus := {|
  ct_Phase := ""; ct_LastScanID := ""; ct_LastScanTime := None; ct_NextScanTime := None; ct_ObservedScore := 0; ct_ObservedGrade := "";
  ct_ObservedCritical := 0; ct_ObservedWarning := 0; ct_ObservedClusters := 0; ct_ObservedGeneration := 0; ct_ConsecutiveFailures := 0;
  ct_Message := ""; ct_Conditions := [] |}.

Definition PhasePending : string := "Pending".
Definition PhaseRunning : string := "Running".
Definition PhaseSucceeded : string := "Succeeded".
Definition PhaseFailed : string := "Failed".
Definition PhasePaused : string := "Paused".

(** ** What a scan is asked for and returns *)

Record ScanOptions := {
  so_Contexts : list string; so_Group : string; so_Scanners : list string; so_Emit : EmitOptions; so_ResourceName : string }.

Record ScanSummary := { ss_ScanID : string; ss_Score : Z; ss_Grade : string; ss_Critical : Z; ss_Warning : Z; ss_Clusters : Z }.

(** ** Constants *)

Definition failureRetryBase : Z := Minute.
Definition ConditionReady : string := "Ready".
Definition ConditionScanning : string := "Scanning".
Definition ConditionFailed : string := "Failed".
Definition ReasonScanStarted : string := "ScanStarted".
Definition ReasonScanSucceeded : string := "ScanSucceeded".
Definition ReasonScanFailed : string := "ScanFailed".
Definition ReasonInvalidSpec : string := "InvalidSpec".
Definition ReasonPaused : string := "Paused".

(** ** State *)

(** A ClusterScan as the cache holds it; [ob_Object] is the unstructured content. *)
Record ClusterScan := { ob_Namespace : string; ob_Name : string; ob_Generation : Z; ob_ResourceVersion : string; ob_Object : json }.

Definition object_key (obj : ClusterScan) : string := (ob_Namespace obj ++ "/" ++ ob_Name obj)%string.

Definition with_version (obj : ClusterScan) (rv : string) : ClusterScan := {|
  ob_Namespace := ob_Namespace obj; ob_Name := ob_Name obj; ob_Generation := ob_Generation obj; ob_ResourceVersion := rv; ob_Object := ob_Object obj |}.

Record scheduled := { sc_generation : Z; sc_at : Z }.

(** metrics.go. *)
Record Counters := {
  ku_reconcileTotal : Z; ku_reconcileOK : Z; ku_reconcileFail : Z; ku_scansTriggered : Z; ku_scansSucceeded : Z; ku_scansFailed : Z;
  ku_pausedSeen : Z }.

Definition no_counts : Counters := {|
  ku_reconcileTotal := 0; ku_reconcileOK := 0; ku_reconcileFail := 0; ku_scansTriggered := 0; ku_scansSucceeded := 0; ku_scansFailed := 0;
  ku_pausedSeen := 0 |}.

Record KubeEvent := { ke_Key : string; ke_Warning : bool; ke_Reason : string; ke_Message : string }.

Record World := {
  wo_next : gmap string scheduled; wo_inflight : gset string; wo_counts : Counters;
  wo_patches : list (string * json); wo_events : list KubeEvent; wo_scans : list ScanOptions }.

(** ** One setter for each part of the world *)

Definition set_next (f : gmap string scheduled -> gmap string scheduled) (w : World) : World := {|
  wo_next := f (wo_next w); wo_inflight := wo_inflight w; wo_counts := wo_counts w; wo_patches := wo_patches w; wo_events := wo_events w;
  wo_scans := wo_scans w |}.
Definition set_inflight (f : gset string -> gset string) (w : World) : World := {|
  wo_next := wo_next w; wo_inflight := f (wo_inflight w); wo_counts := wo_counts w; wo_patches := wo_patches w; wo_events := wo_events w;
  wo_scans := wo_scans w |}.
Definition set_counts (f : Counters -> Counters) (w : World) : World := {|
  wo_next := wo_next w; wo_inflight := wo_inflight w; wo_counts := f (wo_counts w); wo_patches := wo_patches w; wo_events := wo_events w;
  wo_scans := wo_scans w |}.
Definition add_patch (p : string * json) (w : World) : World := {|
  wo_next := wo_next w; wo_inflight := wo_inflight w; wo_counts := wo_counts w; wo_patches := wo_patches w ++ [p]; wo_events := wo_events w;
  wo_scans := wo_scans w |}.
Definition add_event (e : KubeEvent) (w : World) : World := {|
  wo_next := wo_next w; wo_inflight := wo_inflight w; wo_counts := wo_counts w; wo_patches := wo_patches w; wo_events := wo_events w ++ [e];
  wo_scans := wo_scans w |}.
Definition add_scan (s : ScanOptions) (w : World) : World := {|
  wo_next := wo_next w; wo_inflight := wo_inflight w; wo_counts := wo_counts w; wo_patches := wo_patches w; wo_events := wo_events w;
  wo_scans := wo_scans w ++ [s] |}.

Definition bump_counts (dtotal dok dfail dtrig dsucc dfailed dpaused : Z) : World -> World := set_counts (fun k => {|
  ku_reconcileTotal := ku_reconcileTotal k + dtotal; ku_reconcileOK := ku_reconcileOK k + dok; ku_reconcileFail := ku_reconcileFail k + dfail;
  ku_scansTriggered := ku_scansTriggered k + dtrig; ku_scansSucceeded := ku_scansSucceeded k + dsucc; ku_scansFailed := ku_scansFailed k + dfailed;
  ku_pausedSeen := ku_pausedSeen k + dpaused |}).

Definition recordReconcile : World -> World := bump_counts 1 0 0 0 0 0 0.
Definition recordReconcileOK : World -> World := bump_counts 0 1 0 0 0 0 0.
Definition recordReconcileFail : World -> World := bump_counts 0 0 1 0 0 0 0.
Definition recordScanTriggered : World -> World := bump_counts 0 0 0 1 0 0 0.
Definition recordScanResult (success : bool) : World -> World := if success then bump_counts 0 0 0 0 1 0 0 else bump_counts 0 0 0 0 0 1 0.
Definition recordPaused : World -> World := bump_counts 0 0 0 0 0 0 1.

Definition record_event (obj : ClusterScan) (warning : bool) (reason message : string) : World -> World :=
  add_event {| ke_Key := object_key obj; ke_Warning := warning; ke_Reason := reason; ke_Message := message |}.

(** A deletion seen by the informer: the schedule is dropped, and whether a scan was canceled. *)
Definition forget (key : string) (w : World) : World * bool := (set_next (delete key) w, bool_decide (key ∈ wo_inflight w)).

Definition remember (key : string) (gen at_ : Z) : World -> World := set_next <[key := {| sc_generation := gen; sc_at := at_ |}]>.

(** ** Retries *)

(** An int64 product wraps. *)
Definition wrap64 (z : Z) : Z := (z + limit63) mod (2 * limit63) - limit63.

(** [steps] counts the failures after the first. *)
Fixpoint double_delay (steps : nat) (delay interval : Z) : Z :=
  match steps with
  | O => delay
  | S steps' => if delay <? interval then double_delay steps' (wrap64 (delay * 2)) interval else delay
  end.

Definition retryDelay (failures interval : Z) : Z := Z.min (double_delay (Z.to_nat (failures - 1)) failureRetryBase interval) interval.

Example retryDelay_ex : map (fun n => retryDelay n (15 * Minute)) [1; 2; 3; 4; 5; 100] =
  [Minute; 2 * Minute; 4 * Minute; 8 * Minute; 15 * Minute; 15 * Minute].
Proof. vm_compute. reflexivity. Qed.

(** ** Status patches *)

Definition nullIfEmpty (v : string) : json := if String.eqb v "" then JNull else JStr v.
Definition rfc3339OrNull (t : option Z) : json := match t with None => JNull | Some t => JStr (RFC3339 t) end.
Definition z_json (z : Z) : json := JNum (f_of_Z z).
Definition status_text (s : ConditionStatus) : string := match s with ConditionTrue => "True" | ConditionFalse => "False" end.

Definition condition_entry (c : Condition) : json := JObj [
  ("type", JStr (cd_Type c)); ("status", JStr (status_text (cd_Status c))); ("observedGeneration", z_json (cd_ObservedGeneration c));
  ("reason", JStr (cd_Reason c)); ("message", JStr (cd_Message c))]%string.

Definition statusToMap (s : ClusterScanStatus) : list (string * json) := [
  ("phase", nullIfEmpty (ct_Phase s));
  ("lastScanID", nullIfEmpty (ct_LastScanID s));
  ("lastScanTime", rfc3339OrNull (ct_LastScanTime s));
  ("nextScanTime", rfc3339OrNull (ct_NextScanTime s));
  ("observedScore", z_json (ct_ObservedScore s));
  ("observedGrade", nullIfEmpty (ct_ObservedGrade s));
  ("observedCritical", z_json (ct_ObservedCritical s));
  ("observedWarning", z_json (ct_ObservedWarning s));
  ("observedClusters", z_json (ct_ObservedClusters s));
  ("observedGeneration", z_json (ct_ObservedGeneration s));
  ("consecutiveFailures", z_json (ct_ConsecutiveFailures s));
  ("message", nullIfEmpty (ct_Message s));
  ("conditions", JArr (map condition_entry (ct_Conditions s)))]%string.

Definition buildStatusPatch (resourceVersion : string) (status : ClusterScanStatus) : json := JObj (
  ("status"%string, JObj (statusToMap status)) ::
  (if String.eqb resourceVersion "" then [] else [("metadata", JObj [("resourceVersion", JStr resourceVersion)])])%string).

(** ** Setters of a status *)

Definition st_marked (phase message : string) (s : ClusterScanStatus) : ClusterScanStatus := {|
  ct_Phase := phase; ct_LastScanID := ct_LastScanID s; ct_LastScanTime := ct_LastScanTime s; ct_NextScanTime := ct_NextScanTime s;
  ct_ObservedScore := ct_ObservedScore s; ct_ObservedGrade := ct_ObservedGrade s; ct_ObservedCritical := ct_ObservedCritical s;
  ct_ObservedWarning := ct_ObservedWarning s; ct_ObservedClusters := ct_ObservedClusters s; ct_ObservedGeneration := ct_ObservedGeneration s;
  ct_ConsecutiveFailures := ct_ConsecutiveFailures s; ct_Message := message; ct_Conditions := ct_Conditions s |}.
Definition st_next (next : option Z) (s : ClusterScanStatus) : ClusterScanStatus := {|
  ct_Phase := ct_Phase s; ct_LastScanID := ct_LastScanID s; ct_LastScanTime := ct_LastScanTime s; ct_NextScanTime := next;
  ct_ObservedScore := ct_ObservedScore s; ct_ObservedGrade := ct_ObservedGrade s; ct_ObservedCritical := ct_ObservedCritical s;
  ct_ObservedWarning := ct_ObservedWarning s; ct_ObservedClusters := ct_ObservedClusters s; ct_ObservedGeneration := ct_ObservedGeneration s;
  ct_ConsecutiveFailures := ct_ConsecutiveFailures s; ct_Message := ct_Message s; ct_Conditions := ct_Conditions s |}.
Definition st_generation (gen : Z) (s : ClusterScanStatus) : ClusterScanStatus := {|
  ct_Phase := ct_Phase s; ct_LastScanID := ct_LastScanID s; ct_LastScanTime := ct_LastScanTime s; ct_NextScanTime := ct_NextScanTime s;
  ct_ObservedScore := ct_ObservedScore s; ct_ObservedGrade := ct_ObservedGrade s; ct_ObservedCritical := ct_ObservedCritical s;
  ct_ObservedWarning := ct_ObservedWarning s; ct_ObservedClusters := ct_ObservedClusters s; ct_ObservedGeneration := gen;
  ct_ConsecutiveFailures := ct_ConsecutiveFailures s; ct_Message := ct_Message s; ct_Conditions := ct_Conditions s |}.
Definition st_failures (n : Z) (s : ClusterScanStatus) : ClusterScanStatus := {|
  ct_Phase := ct_Phase s; ct_LastScanID := ct_LastScanID s; ct_LastScanTime := ct_LastScanTime s; ct_NextScanTime := ct_NextScanTime s;
  ct_ObservedScore := ct_ObservedScore s; ct_ObservedGrade := ct_ObservedGrade s; ct_ObservedCritical := ct_ObservedCritical s;
  ct_ObservedWarning := ct_ObservedWarning s; ct_ObservedClusters := ct_ObservedClusters s; ct_ObservedGeneration := ct_ObservedGeneration s;
  ct_ConsecutiveFailures := n; ct_Message := ct_Message s; ct_Conditions := ct_Conditions s |}.
Definition st_conditions (f : list Condition -> list Condition) (s : ClusterScanStatus) : ClusterScanStatus := {|
  ct_Phase := ct_Phase s; ct_LastScanID := ct_LastScanID s; ct_LastScanTime := ct_LastScanTime s; ct_NextScanTime := ct_NextScanTime s;
  ct_ObservedScore := ct_ObservedScore s; ct_ObservedGrade := ct_ObservedGrade s; ct_ObservedCritical := ct_ObservedCritical s;
  ct_ObservedWarning := ct_ObservedWarning s; ct_ObservedClusters := ct_ObservedClusters s; ct_ObservedGeneration := ct_ObservedGeneration s;
  ct_ConsecutiveFailures := ct_ConsecutiveFailures s; ct_Message := ct_Message s; ct_Conditions := f (ct_Conditions s) |}.
Definition st_observed (sum : ScanSummary) (completedAt : Z) (s : ClusterScanStatus) : ClusterScanStatus := {|
  ct_Phase := ct_Phase s; ct_LastScanID := ss_ScanID sum; ct_LastScanTime := Some completedAt; ct_NextScanTime := ct_NextScanTime s;
  ct_ObservedScore := ss_Score sum; ct_ObservedGrade := ss_Grade sum; ct_ObservedCritical := ss_Critical sum;
  ct_ObservedWarning := ss_Warning sum; ct_ObservedClusters := ss_Clusters sum; ct_ObservedGeneration := ct_ObservedGeneration s;
  ct_ConsecutiveFailures := ct_ConsecutiveFailures s; ct_Message := ct_Message s; ct_Conditions := ct_Conditions s |}.

(** ** One pass *)

(** The API server's answer to a patch. *)
Inductive PatchAnswer := Patched (resourceVersion : string) | PatchNotFound | PatchError (err : string).

(** What a pass meets: the clock when it decides and when the scan is over, the answers to
    its patches in order, the scan's outcome, whether the resource was deleted while the
    scan ran, and the error of the context after it. *)
Record Meets := {
  me_now : Z; me_completed : Z; me_patch : nat -> PatchAnswer; me_scan : ScanSummary + string; me_deleted : bool; me_ctx : option string }.

Section Reconcile.

(** [unstructured.NestedMap], decoding, and [meta.SetStatusCondition]. *)
Context (NestedMap : json -> string -> option json + string) (decode_spec : json -> ClusterScanSpec + string)
  (decode_status : json -> ClusterScanStatus + string) (SetStatusCondition : Condition -> list Condition -> list Condition).

Definition readSpec (obj : ClusterScan) : ClusterScanSpec + string :=
  match NestedMap (ob_Object obj) "spec" with
  | inr err => inr ("spec: " ++ err)%string
  | inl None => inr "spec missing"%string
  | inl (Some raw) => match decode_spec raw with inl s => inl s | inr err => inr ("spec unmarshal: " ++ err)%string end
  end.

Definition readStatus (obj : ClusterScan) : ClusterScanStatus :=
  match NestedMap (ob_Object obj) "status" with
  | inl (Some raw) => match decode_status raw with inl s => s | inr _ => no_status end
  | _ => no_status
  end.

Definition specInterval (obj : ClusterScan) : ClusterScanSpec * Z + string :=
  match readSpec obj with
  | inr err => inr err
  | inl spec =>
      if String.eqb (cp_Interval spec) "" then inr "spec.interval is required"%string
      else
        let invalid (err : string) := inr ("invalid spec.interval " ++ quote (cp_Interval spec) ++ " (use a Go duration like 15m): " ++ err)%string in
        match ParseDuration (cp_Interval spec) with
        | inr err => invalid err
        | inl interval => if interval <=? 0 then invalid "spec.interval must be positive"%string else inl (spec, interval)
        end
  end.

Definition set_condition (gen : Z) (reason message : string) (type : string) (st : ConditionStatus) : list Condition -> list Condition :=
  SetStatusCondition {| cd_Type := type; cd_Status := st; cd_ObservedGeneration := gen; cd_Reason := reason; cd_Message := message |}.

Definition setConditions (gen : Z) (ready failed : ConditionStatus) (reason message : string) : ClusterScanStatus -> ClusterScanStatus :=
  st_conditions (fun cs => set_condition gen reason message ConditionFailed failed
    (set_condition gen reason message ConditionScanning ConditionFalse (set_condition gen reason message ConditionReady ready cs))).

(** The [n]th patch of the pass. *)
Definition patchStatus (m : Meets) (n : nat) (obj : ClusterScan) (status : ClusterScanStatus) (w : World) : World * ClusterScan * option string :=
  let w := add_patch (object_key obj, buildStatusPatch (ob_ResourceVersion obj) status) w in
  match me_patch m n with
  | Patched rv => (w, with_version obj rv, None)
  | PatchNotFound => (w, obj, None)
  | PatchError err => (w, obj, Some ("patch status " ++ object_key obj ++ ": " ++ err)%string)
  end.

Definition due_by_status (status : ClusterScanStatus) (interval now : Z) : Z :=
  let due := match ct_NextScanTime status, ct_LastScanTime status with
             | Some next, _ => next
             | None, Some last => last + interval
             | None, None => now
             end in
  match ct_LastScanTime status with
  | Some last => if (ct_ConsecutiveFailures status =? 0) && (last + interval <? due) then last + interval else due
  | None => due
  end.

Definition dueTime (w : World) (key : string) (gen : Z) (status : ClusterScanStatus) (interval now : Z) : Z * bool :=
  let due := due_by_status status interval now in
  match wo_next w !! key with
  | Some mem => if (sc_generation mem =? gen) && (due <? sc_at mem) then (sc_at mem, true) else (due, false)
  | None => (due, false)
  end.

Definition markInvalid (m : Meets) (obj : ClusterScan) (status : ClusterScanStatus) (gen : Z) (err : string) (w : World) : World * (Z * option string) :=
  let w := recordReconcileFail w in
  let msg := ("invalid spec: " ++ err)%string in
  if String.eqb (ct_Phase status) PhaseFailed && String.eqb (ct_Message status) msg then (w, (0, None))
  else
    let status := setConditions gen ConditionFalse ConditionTrue ReasonInvalidSpec msg (st_marked PhaseFailed msg status) in
    let w := record_event obj true ReasonInvalidSpec msg w in
    let '(w, _, err) := patchStatus m 0 obj status w in (w, (0, err)).

Definition markPaused (m : Meets) (obj : ClusterScan) (status : ClusterScanStatus) (gen : Z) (w : World) : World * (Z * option string) :=
  let w := recordReconcileOK (recordPaused w) in
  if String.eqb (ct_Phase status) PhasePaused then (w, (0, None))
  else
    let message := "paused by spec.paused"%string in
    let status := setConditions gen ConditionFalse ConditionFalse ReasonPaused message (st_marked PhasePaused message status) in
    let '(w, _, err) := patchStatus m 0 obj status w in (w, (0, err)).

Inductive scanRun := Completed (summary : ScanSummary) | ScanFailed (err : string) | Aborted (err : option string).

Definition scan_options (key : string) (spec : ClusterScanSpec) : ScanOptions := {|
  so_Contexts := cp_Contexts spec; so_Group := cp_Group spec; so_Scanners := cp_Scanners spec; so_Emit := cp_Emit spec; so_ResourceName := key |}.

(** The key is in flight while the scan runs, so a deletion seen then cancels it. *)
Definition runScan (m : Meets) (key : string) (spec : ClusterScanSpec) (w : World) : World * scanRun :=
  let w := recordScanTriggered (set_inflight (fun s => {[key]} ∪ s) w) in
  let w := add_scan (scan_options key spec) w in
  let '(w, canceled) := if me_deleted m then forget key w else (w, false) in
  let '(w, r) :=
    if canceled then (recordScanResult false w, Aborted None)
    else match me_ctx m with
         | Some err => (recordScanResult false w, Aborted (Some err))
         | None => (w, match me_scan m with inl sum => Completed sum | inr err => ScanFailed err end)
         end in
  (set_inflight (fun s => s ∖ {[key]}) w, r).

Definition recordFailure (m : Meets) (n : nat) (obj : ClusterScan) (status : ClusterScanStatus) (gen interval completedAt : Z) (scanErr : string)
  (w : World) : World * (Z * option string) :=
  let w := recordReconcileFail (recordScanResult false w) in
  let status := st_failures (ct_ConsecutiveFailures status + 1) status in
  let next := completedAt + retryDelay (ct_ConsecutiveFailures status) interval in
  let w := remember (object_key obj) gen next w in
  let message := ("scan failed: " ++ scanErr)%string in
  let status := setConditions gen ConditionFalse ConditionTrue ReasonScanFailed message (st_next (Some next) (st_marked PhaseFailed message status)) in
  let w := record_event obj true ReasonScanFailed message w in
  let '(w, _, err) := patchStatus m n obj status w in
  let scan_text := ("scan: " ++ scanErr)%string in
  (w, (0, Some match err with Some err => (scan_text ++ String "010" err)%string | None => scan_text end)).

Definition success_message (sum : ScanSummary) : string :=
  ("scan " ++ ss_ScanID sum ++ " completed: score " ++ itoa (ss_Score sum) ++ " (" ++ ss_Grade sum ++ "), " ++ itoa (ss_Critical sum) ++
   " critical, " ++ itoa (ss_Warning sum) ++ " warning across " ++ itoa (ss_Clusters sum) ++ " clusters")%string.

Definition recordSuccess (m : Meets) (n : nat) (obj : ClusterScan) (status : ClusterScanStatus) (gen interval completedAt : Z) (sum : ScanSummary)
  (w : World) : World * (Z * option string) :=
  let w := recordReconcileOK (recordScanResult true w) in
  let next := completedAt + interval in
  let w := remember (object_key obj) gen next w in
  let message := success_message sum in
  let status := st_failures 0 (st_observed sum completedAt (st_next (Some next) (st_marked PhaseSucceeded message status))) in
  let status := setConditions gen ConditionTrue ConditionFalse ReasonScanSucceeded message status in
  let w := record_event obj false ReasonScanSucceeded message w in
  let '(w, _, err) := patchStatus m n obj status w in
  match err with Some err => (w, (0, Some err)) | None => (w, (interval, None)) end.

(** Not due: the schedule is written when the cached status does not have it. *)
Definition await (m : Meets) (obj : ClusterScan) (status : ClusterScanStatus) (due : Z) (cacheBehind : bool) (w : World) : World * (Z * option string) :=
  let w := recordReconcileOK w in
  if negb cacheBehind && negb (bool_decide (ct_NextScanTime status = Some due)) then
    let status := st_next (Some due) status in
    let status := if String.eqb (ct_Phase status) "" then st_marked PhasePending (ct_Message status) status else status in
    let '(w, _, err) := patchStatus m 0 obj status w in
    match err with Some err => (w, (0, Some err)) | None => (w, (Sub due (me_now m), None)) end
  else (w, (Sub due (me_now m), None)).

(** The scan and the record of its outcome. *)
Definition finish_scan (m : Meets) (obj : ClusterScan) (spec : ClusterScanSpec) (status : ClusterScanStatus) (gen interval : Z) (w : World) :
  World * (Z * option string) :=
  match runScan m (object_key obj) spec w with
  | (w, Aborted err) => (w, (0, err))
  | (w, ScanFailed err) => recordFailure m 1 obj status gen interval (me_completed m) err w
  | (w, Completed sum) => recordSuccess m 1 obj status gen interval (me_completed m) sum w
  end.

(** Due: the status says so before the scan runs, and not without. *)
Definition scan_now (m : Meets) (obj : ClusterScan) (spec : ClusterScanSpec) (status : ClusterScanStatus) (gen interval : Z) (w : World) :
  World * (Z * option string) :=
  let message := "scan triggered by controller"%string in
  let status := st_conditions (set_condition gen ReasonScanStarted message ConditionScanning ConditionTrue) (st_marked PhaseRunning message status) in
  match patchStatus m 0 obj status w with
  | (w, _, Some err) => (w, (0, Some err))
  | (w, obj, None) => finish_scan m obj spec status gen interval (record_event obj false ReasonScanStarted "Scan started" w)
  end.

Definition reconcile (m : Meets) (obj : ClusterScan) (w : World) : World * (Z * option string) :=
  let w := recordReconcile w in
  let gen := ob_Generation obj in
  let status := st_generation gen (readStatus obj) in
  match specInterval obj with
  | inr err => markInvalid m obj status gen err w
  | inl (spec, interval) =>
      if cp_Paused spec then markPaused m obj status gen w
      else
        let '(due, cacheBehind) := dueTime w (object_key obj) gen status interval (me_now m) in
        if me_now m <? due then await m obj status due cacheBehind w
        else scan_now m obj spec status gen interval w
  end.

(** What the queue is told of the key after a pass. *)
Inductive QueueOp := Forget | AddRateLimited | AddAfter (wait : Z).

(** [cached] is what the cache holds under the key, [shutting] whether the context has ended. *)
Definition processNext (shutting : bool) (m : Meets) (cached : option ClusterScan) (w : World) : World * list QueueOp :=
  match cached with
  | None => (w, [Forget])
  | Some obj =>
      match reconcile m obj w with
      | (w, (_, Some _)) => (w, if shutting then [] else [AddRateLimited])
      | (w, (wait, None)) => (w, Forget :: (if 0 <? wait then [AddAfter wait] else []))
      end
  end.

(** ** Runs *)

Inductive Happening := Deleted (key : string) | Pass (m : Meets) (obj : ClusterScan).

Definition happen (w : World) (h : Happening) : World :=
  match h with
  | Deleted key => fst (forget key w)
  | Pass m obj => fst (reconcile m obj w)
  end.

Definition run (hs : list Happening) (w : World) : World := fold_left happen hs w.

End Reconcile.

Definition new_world : World := {|
  wo_next := ∅; wo_inflight := ∅; wo_counts := no_counts; wo_patches := []; wo_events := []; wo_scans := [] |}.

(** ** What a pass leaves alone *)

Definition scans_of (key : string) (w : World) : list ScanOptions := List.filter (fun s => String.eqb (so_ResourceName s) key) (wo_scans w).

Section Facts.

Context (NestedMap : json -> string -> option json + string) (decode_spec : json -> ClusterScanSpec + string)
  (decode_status : json -> ClusterScanStatus + string) (SetStatusCondition : Condition -> list Condition -> list Condition).

Notation readSpec := (readSpec NestedMap decode_spec).
Notation readStatus := (readStatus NestedMap decode_status).
Notation specInterval := (specInterval NestedMap decode_spec).
Notation reconcile := (reconcile NestedMap decode_spec decode_status SetStatusCondition).
Notation happen := (happen NestedMap decode_spec decode_status SetStatusCondition).
Notation run := (run NestedMap decode_spec decode_status SetStatusCondition).
Notation scan_now := (scan_now SetStatusCondition).

(** The memory, the scans in flight and the scans made are those of before. *)
Record same_scans (w w' : World) : Prop := {
  sa_next : wo_next w' = wo_next w; sa_inflight : wo_inflight w' = wo_inflight w; sa_scans : wo_scans w' = wo_scans w;
  sa_counts : (ku_scansTriggered (wo_counts w'), ku_scansSucceeded (wo_counts w'), ku_scansFailed (wo_counts w')) =
    (ku_scansTriggered (wo_counts w), ku_scansSucceeded (wo_counts w), ku_scansFailed (wo_counts w)) }.

#[local] Ltac same := split; cbn; repeat f_equal; lia.

Lemma same_scans_refl w : same_scans w w.
Proof. by split. Qed.

Lemma same_scans_trans w1 w2 w3 : same_scans w1 w2 -> same_scans w2 w3 -> same_scans w1 w3.
Proof. intros [? ? ? ?] [? ? ? ?]. split; congruence. Qed.

Lemma patch_same m n obj s w : same_scans w (fst (fst (patchStatus m n obj s w))).
Proof. unfold patchStatus. destruct (me_patch m n); same. Qed.

Lemma patch_key m n obj s w : object_key (snd (fst (patchStatus m n obj s w))) = object_key obj.
Proof. unfold patchStatus. by destruct (me_patch m n). Qed.

Lemma markInvalid_same m obj s gen err w : same_scans w (fst (markInvalid SetStatusCondition m obj s gen err w)).
Proof.
  unfold markInvalid. destruct (_ && _); [same|].
  match goal with |- context [patchStatus m 0 obj ?s ?w'] => pose proof (patch_same m 0 obj s w') as H; destruct (patchStatus m 0 obj s w') as [[? ?] ?] end.
  cbn [fst] in *. eapply same_scans_trans; [|exact H]. same.
Qed.

Lemma markPaused_same m obj s gen w : same_scans w (fst (markPaused SetStatusCondition m obj s gen w)).
Proof.
  unfold markPaused. destruct (String.eqb _ _); [same|].
  match goal with |- context [patchStatus m 0 obj ?s ?w'] => pose proof (patch_same m 0 obj s w') as H; destruct (patchStatus m 0 obj s w') as [[? ?] ?] end.
  cbn [fst] in *. eapply same_scans_trans; [|exact H]. same.
Qed.

Lemma await_same m obj s due b w : same_scans w (fst (await m obj s due b w)).
Proof.
  unfold await. destruct (_ && _); [|same].
  match goal with |- context [patchStatus m 0 obj ?s ?w'] => pose proof (patch_same m 0 obj s w') as H; destruct (patchStatus m 0 obj s w') as [[? ?] [?|]] end;
    cbn [fst] in *; (eapply same_scans_trans; [|exact H]); same.
Qed.

(** ** When a pass scans *)

Definition patch_fails (a : PatchAnswer) : bool := match a with PatchError _ => true | _ => false end.

(** The spec and interval of a resource whose scan is due now and whose status could be written. *)
Definition scan_due (m : Meets) (obj : ClusterScan) (w : World) : option (ClusterScanSpec * Z) :=
  match specInterval obj with
  | inl (spec, interval) =>
      let due := fst (dueTime w (object_key obj) (ob_Generation obj) (readStatus obj) interval (me_now m)) in
      if negb (cp_Paused spec) && (due <=? me_now m) && negb (patch_fails (me_patch m 0)) then Some (spec, interval) else None
  | inr _ => None
  end.

Definition pause (m : Meets) (obj : ClusterScan) (interval : Z) : Z :=
  match me_scan m with inl _ => interval | inr _ => retryDelay (ct_ConsecutiveFailures (readStatus obj) + 1) interval end.

(** The scan is run once; its result is remembered unless it was canceled. *)
Definition after_scan (m : Meets) (obj : ClusterScan) (spec : ClusterScanSpec) (interval : Z) (w w' : World) : Prop :=
  let key := object_key obj in
  wo_scans w' = wo_scans w ++ [scan_options key spec] /\
  wo_inflight w' = ({[key]} ∪ wo_inflight w) ∖ {[key]} /\
  wo_next w' = (if me_deleted m then delete key (wo_next w)
    else match me_ctx m with
         | Some _ => wo_next w
         | None => <[key := {| sc_generation := ob_Generation obj; sc_at := me_completed m + pause m obj interval |}]> (wo_next w)
         end) /\
  ku_scansTriggered (wo_counts w') = ku_scansTriggered (wo_counts w) + 1 /\
  ku_scansSucceeded (wo_counts w') + ku_scansFailed (wo_counts w') = ku_scansSucceeded (wo_counts w) + ku_scansFailed (wo_counts w) + 1.

Lemma recordFailure_effect m n obj s gen interval t err w : let w' := fst (recordFailure SetStatusCondition m n obj s gen interval t err w) in
  wo_scans w' = wo_scans w /\ wo_inflight w' = wo_inflight w /\
  wo_next w' = <[object_key obj := {| sc_generation := gen; sc_at := t + retryDelay (ct_ConsecutiveFailures s + 1) interval |}]> (wo_next w) /\
  ku_scansTriggered (wo_counts w') = ku_scansTriggered (wo_counts w) /\
  ku_scansSucceeded (wo_counts w') = ku_scansSucceeded (wo_counts w) /\ ku_scansFailed (wo_counts w') = ku_scansFailed (wo_counts w) + 1.
Proof.
  unfold recordFailure.
  match goal with |- context [patchStatus m n obj ?s ?w'] => pose proof (patch_same m n obj s w') as [H1 H2 H3 H4]; destruct (patchStatus m n obj s w') as [[? ?] ?] end.
  cbn in *. rewrite H1, H2, H3. injection H4 as H5 H6 H7. rewrite H5, H6, H7. split_and!; (done || lia).
Qed.

Lemma recordSuccess_effect m n obj s gen interval t sum w : let w' := fst (recordSuccess SetStatusCondition m n obj s gen interval t sum w) in
  wo_scans w' = wo_scans w /\ wo_inflight w' = wo_inflight w /\
  wo_next w' = <[object_key obj := {| sc_generation := gen; sc_at := t + interval |}]> (wo_next w) /\
  ku_scansTriggered (wo_counts w') = ku_scansTriggered (wo_counts w) /\
  ku_scansSucceeded (wo_counts w') = ku_scansSucceeded (wo_counts w) + 1 /\ ku_scansFailed (wo_counts w') = ku_scansFailed (wo_counts w).
Proof.
  unfold recordSuccess.
  match goal with |- context [patchStatus m n obj ?s ?w'] => pose proof (patch_same m n obj s w') as [H1 H2 H3 H4]; destruct (patchStatus m n obj s w') as [[? ?] [?|]] end;
  cbn in *; rewrite H1, H2, H3; injection H4 as H5 H6 H7; rewrite H5, H6, H7; split_and!; (done || lia).
Qed.

Lemma runScan_effect m key spec w : let '(w', r) := runScan m key spec w in
  wo_scans w' = wo_scans w ++ [scan_options key spec] /\ wo_inflight w' = ({[key]} ∪ wo_inflight w) ∖ {[key]} /\
  wo_next w' = (if me_deleted m then delete key (wo_next w) else wo_next w) /\
  ku_scansTriggered (wo_counts w') = ku_scansTriggered (wo_counts w) + 1 /\
  ku_scansSucceeded (wo_counts w') = ku_scansSucceeded (wo_counts w) /\
  match r with
  | Aborted _ => (me_deleted m = true \/ me_ctx m <> None) /\ ku_scansFailed (wo_counts w') = ku_scansFailed (wo_counts w) + 1
  | Completed sum => me_deleted m = false /\ me_ctx m = None /\ me_scan m = inl sum /\ ku_scansFailed (wo_counts w') = ku_scansFailed (wo_counts w)
  | ScanFailed err => me_deleted m = false /\ me_ctx m = None /\ me_scan m = inr err /\ ku_scansFailed (wo_counts w') = ku_scansFailed (wo_counts w)
  end.
Proof.
  unfold runScan, forget. destruct (me_deleted m) eqn:Ed.
  - rewrite bool_decide_eq_true_2 by (cbn; set_solver). cbn. split_and!; (done || lia || by left).
  - destruct (me_ctx m) eqn:Ec; [cbn; split_and!; (done || lia || by right)|].
    destruct (me_scan m) eqn:Es; cbn; split_and!; (done || lia).
Qed.

Lemma finish_scan_effect m obj spec s gen interval w : let w' := fst (finish_scan SetStatusCondition m obj spec s gen interval w) in
  let key := object_key obj in
  wo_scans w' = wo_scans w ++ [scan_options key spec] /\
  wo_inflight w' = ({[key]} ∪ wo_inflight w) ∖ {[key]} /\
  wo_next w' = (if me_deleted m then delete key (wo_next w)
    else match me_ctx m with
         | Some _ => wo_next w
         | None => <[key := {| sc_generation := gen; sc_at := me_completed m +
             match me_scan m with inl _ => interval | inr _ => retryDelay (ct_ConsecutiveFailures s + 1) interval end |}]> (wo_next w)
         end) /\
  ku_scansTriggered (wo_counts w') = ku_scansTriggered (wo_counts w) + 1 /\
  ku_scansSucceeded (wo_counts w') + ku_scansFailed (wo_counts w') = ku_scansSucceeded (wo_counts w) + ku_scansFailed (wo_counts w) + 1.
Proof.
  cbn zeta. unfold finish_scan. pose proof (runScan_effect m (object_key obj) spec w) as He.
  destruct (runScan m (object_key obj) spec w) as [w2 r]. destruct He as (E1 & E2 & E3 & E4 & E5 & E6). destruct r as [sum|err|err].
  - destruct E6 as (Hd & Hc & Hm & E6). rewrite Hd in E3. rewrite Hd, Hc, Hm.
    destruct (recordSuccess_effect m 1 obj s gen interval (me_completed m) sum w2) as (F1 & F2 & F3 & F4 & F5 & F6).
    rewrite F1, F2, F3, F4, F5, F6, E1, E2, E3, E4, E5, E6. split_and!; (done || lia).
  - destruct E6 as (Hd & Hc & Hm & E6). rewrite Hd in E3. rewrite Hd, Hc, Hm.
    destruct (recordFailure_effect m 1 obj s gen interval (me_completed m) err w2) as (F1 & F2 & F3 & F4 & F5 & F6).
    rewrite F1, F2, F3, F4, F5, F6, E1, E2, E3, E4, E5, E6. split_and!; (done || lia).
  - destruct E6 as (E7 & E6). cbn [fst]. rewrite E1, E2, E3, E4, E5, E6. split_and!; try (done || lia).
    destruct (me_deleted m), (me_ctx m); try done. by destruct E7.
Qed.

(** A pass scans exactly when the spec is sound and not paused, the scan is due and the status
    could be written first; otherwise nothing about scans changes. *)
Lemma reconcile_scans m obj w : let w' := fst (reconcile m obj w) in
  match scan_due m obj w with
  | Some (spec, interval) => after_scan m obj spec interval w w'
  | None => same_scans w w'
  end.
Proof.
  cbn zeta. unfold Controller.reconcile, scan_due.
  assert (Hr : same_scans w (recordReconcile w)) by same.
  destruct (specInterval obj) as [[spec interval]|err]; [|eapply same_scans_trans; [exact Hr|apply markInvalid_same]].
  destruct (cp_Paused spec); cbn [negb andb]; [eapply same_scans_trans; [exact Hr|apply markPaused_same]|].
  assert (Hd : dueTime (recordReconcile w) (object_key obj) (ob_Generation obj) (st_generation (ob_Generation obj) (readStatus obj)) interval (me_now m) =
    dueTime w (object_key obj) (ob_Generation obj) (readStatus obj) interval (me_now m)) by reflexivity.
  rewrite Hd. destruct (dueTime w _ _ _ _ _) as [due behind]. cbn [fst].
  destruct (Z.ltb_spec (me_now m) due), (Z.leb_spec due (me_now m)); try lia; cbn [andb];
    [eapply same_scans_trans; [exact Hr|apply await_same]|].
  unfold Controller.scan_now. set (s := st_conditions _ _).
  pose proof (patch_same m 0 obj s (recordReconcile w)) as Hp. pose proof (patch_key m 0 obj s (recordReconcile w)) as Hk.
  unfold patchStatus in *. destruct (me_patch m 0) as [rv| |err]; cbn [patch_fails negb fst snd] in *;
    [| |eapply same_scans_trans; [exact Hr|exact Hp]].
  - destruct (finish_scan_effect m (with_version obj rv) spec s (ob_Generation obj) interval (record_event (with_version obj rv) false ReasonScanStarted
      "Scan started" (add_patch (object_key obj, buildStatusPatch (ob_ResourceVersion obj) s) (recordReconcile w)))) as (E1 & E2 & E3 & E4 & E5).
    unfold after_scan. rewrite E1, E2, E3, E4, E5. cbn. split_and!; (done || lia).
  - destruct (finish_scan_effect m obj spec s (ob_Generation obj) interval (record_event obj false ReasonScanStarted
      "Scan started" (add_patch (object_key obj, buildStatusPatch (ob_ResourceVersion obj) s) (recordReconcile w)))) as (E1 & E2 & E3 & E4 & E5).
    unfold after_scan. rewrite E1, E2, E3, E4, E5. cbn. split_and!; (done || lia).
Qed.

(** ** Scans of one resource are apart *)

Lemma scans_of_app key w w' l : wo_scans w' = wo_scans w ++ l -> scans_of key w' = scans_of key w ++ List.filter (fun s => String.eqb (so_ResourceName s) key) l.
Proof. unfold scans_of. intros ->. by rewrite List.filter_app. Qed.

Lemma same_scans_of key w w' : same_scans w w' -> scans_of key w' = scans_of key w.
Proof. intros [_ _ H _]. unfold scans_of. by rewrite H. Qed.

(** Nothing that would allow another scan of the resource before [t]. *)
Definition quiet (key : string) (gen t : Z) (h : Happening) : Prop :=
  match h with
  | Deleted k => k <> key
  | Pass m obj => object_key obj = key -> ob_Generation obj = gen /\ me_now m < t
  end.

Lemma quiet_step key gen t h w : wo_next w !! key = Some {| sc_generation := gen; sc_at := t |} -> quiet key gen t h ->
  wo_next (happen w h) !! key = Some {| sc_generation := gen; sc_at := t |} /\ scans_of key (happen w h) = scans_of key w.
Proof.
  intros Hn. destruct h as [k|m obj]; cbn [quiet Controller.happen].
  - intros Hk. cbn. by rewrite lookup_delete_ne.
  - intros Hq. pose proof (reconcile_scans m obj w) as Hr. cbn zeta in Hr. destruct (scan_due m obj w) as [[spec interval]|] eqn:Ed.
    + destruct Hr as (E1 & _ & E3 & _ & _). destruct (decide (object_key obj = key)) as [Hk|Hk].
      * exfalso. destruct (Hq Hk) as [Hg Hlt]. unfold scan_due in Ed. destruct (specInterval obj) as [[spec' interval']|]; [|done].
        unfold dueTime in Ed. rewrite Hk, Hn in Ed. cbn [sc_generation sc_at] in Ed. rewrite Hg, Z.eqb_refl in Ed. cbn [andb] in Ed.
        destruct (Z.ltb_spec (due_by_status (readStatus obj) interval' (me_now m)) t); cbn [fst] in Ed.
        -- destruct (Z.leb_spec t (me_now m)); [lia|]. by rewrite andb_false_r in Ed.
        -- destruct (Z.leb_spec (due_by_status (readStatus obj) interval' (me_now m)) (me_now m)); [lia|]. by rewrite andb_false_r in Ed.
      * split.
        -- rewrite E3. destruct (me_deleted m); [by rewrite lookup_delete_ne|]. destruct (me_ctx m); [done|]. by rewrite lookup_insert_ne.
        -- rewrite (scans_of_app _ _ _ _ E1). cbn. destruct (String.eqb_spec (object_key obj) key); [done|]. by rewrite app_nil_r.
    + split; [by rewrite (sa_next _ _ Hr)|by apply same_scans_of].
Qed.

Lemma quiet_run key gen t hs w : wo_next w !! key = Some {| sc_generation := gen; sc_at := t |} -> Forall (quiet key gen t) hs ->
  scans_of key (run hs w) = scans_of key w.
Proof.
  intros Hn Hq. revert w Hn. induction Hq as [|h hs Hh _ IH]; intros w Hn; [done|]. cbn [Controller.run fold_left].
  destruct (quiet_step key gen t h w Hn Hh) as [Hn' <-]. by apply IH.
Qed.

(** C11: a pass scans at most once, and only a resource whose spec is sound and not paused, that
    is due, and whose status could be written first. When the scan is over its outcome is
    remembered, and whatever status later passes read from the cache, the resource is not
    scanned again before the interval, or the retry delay of a failure, has passed. *)
Theorem scans_paced m obj w : let w1 := fst (reconcile m obj w) in
  match scan_due m obj w with
  | None => forall key, scans_of key w1 = scans_of key w
  | Some (spec, interval) =>
      wo_scans w1 = wo_scans w ++ [scan_options (object_key obj) spec] /\
      (me_deleted m = false -> me_ctx m = None -> forall hs,
         Forall (quiet (object_key obj) (ob_Generation obj) (me_completed m + pause m obj interval)) hs ->
         scans_of (object_key obj) (run hs w1) = scans_of (object_key obj) w1)
  end.
Proof.
  cbn zeta. pose proof (reconcile_scans m obj w) as Hr. cbn zeta in Hr. destruct (scan_due m obj w) as [[spec interval]|].
  - destruct Hr as (E1 & _ & E3 & _ & _). split; [done|]. intros Hd Hc hs Hq. rewrite Hd, Hc in E3.
    eapply quiet_run; [|exact Hq]. by rewrite E3, lookup_insert_eq.
  - intros key. by apply same_scans_of.
Qed.

(** ** Counters and scans in flight *)

(** Whatever passes and deletions happen, every scan is counted when it is triggered and
    once more when it is over, no scan stays in flight after its pass, and each counted scan
    was made. *)
Theorem scans_accounted hs : let w := run hs new_world in
  ku_scansTriggered (wo_counts w) = Z.of_nat (length (wo_scans w)) /\
  ku_scansSucceeded (wo_counts w) + ku_scansFailed (wo_counts w) = ku_scansTriggered (wo_counts w) /\ wo_inflight w = ∅.
Proof.
  cbn zeta. induction hs as [|h hs IH] using rev_ind; [done|].
  unfold Controller.run in *. rewrite fold_left_app. cbn [fold_left]. set (w := fold_left _ hs new_world) in *. clearbody w.
  destruct IH as (I1 & I2 & I3). destruct h as [k|m obj]; [done|]. cbn [Controller.happen].
  pose proof (reconcile_scans m obj w) as Hr. cbn zeta in Hr. destruct (scan_due m obj w) as [[spec interval]|].
  - destruct Hr as (E1 & E2 & _ & E4 & E5). rewrite E1, E2, E4, E5, I3, length_app. simpl. split_and!; [lia|lia|set_solver].
  - destruct Hr as [_ H2 H3 H4]. injection H4 as H4 H5 H6. rewrite H2, H3, H4, H5, H6. done.
Qed.

(** ** A resource that is not due is woken when it is *)

(** A later reading of the same resource: its schedule is the one read before, or one the
    controller wrote in between that is no later than [t]. *)
Definition reads_on (obj obj' : ClusterScan) (t : Z) : Prop :=
  object_key obj' = object_key obj /\ ob_Generation obj' = ob_Generation obj /\ specInterval obj' = specInterval obj /\
  ct_LastScanTime (readStatus obj') = ct_LastScanTime (readStatus obj) /\
  ct_ConsecutiveFailures (readStatus obj') = ct_ConsecutiveFailures (readStatus obj) /\
  (ct_NextScanTime (readStatus obj') = ct_NextScanTime (readStatus obj) \/
   exists d, d <= t /\ ct_NextScanTime (readStatus obj') = Some d).

Lemma due_later w w' obj obj' interval now now' :
  let due := fst (dueTime w (object_key obj) (ob_Generation obj) (readStatus obj) interval now) in
  reads_on obj obj' due -> wo_next w' !! object_key obj = wo_next w !! object_key obj -> due <= now' -> now <= now' ->
  fst (dueTime w' (object_key obj') (ob_Generation obj') (readStatus obj') interval now') <= now'.
Proof.
  cbn zeta. intros (Hk & Hg & _ & Hl & Hf & Hn) Hmem Hdue Hnow.
  set (s := readStatus obj) in *. set (s' := readStatus obj') in *. clearbody s s'.
  assert (Hd : due_by_status s interval now <= now' -> due_by_status s' interval now' <= now').
  { clear Hmem. unfold due_by_status. rewrite Hl, Hf. destruct Hn as [-> |(d & Hd & ->)].
    - destruct (ct_NextScanTime s), (ct_LastScanTime s); try destruct (_ && _); lia.
    - intros _. destruct (ct_LastScanTime s) as [last|]; [|lia].
      destruct (ct_ConsecutiveFailures s =? 0); cbn [andb]; [destruct (Z.ltb_spec (last + interval) d)|]; lia. }
  unfold dueTime in *. rewrite Hk, Hg, Hmem. destruct (wo_next w !! object_key obj) as [mem|]; [|by apply Hd].
  destruct (sc_generation mem =? ob_Generation obj); cbn [andb] in *; [|by apply Hd].
  destruct (Z.ltb_spec (due_by_status s interval now) (sc_at mem)); cbn [fst] in *;
    destruct (Z.ltb_spec (due_by_status s' interval now') (sc_at mem)); cbn [fst]; try lia; apply Hd; lia.
Qed.

Lemma await_wait m obj s due b w w' wait : await m obj s due b w = (w', (wait, None)) -> wait = Sub due (me_now m).
Proof. unfold await. destruct (_ && _); [|by intros [= _ <-]]. destruct (patchStatus _ _ _ _ _) as [[? ?] [?|]]; [done|]. by intros [= _ <-]. Qed.

(** C24: a sound resource that is not paused is scanned: a pass that reports no error either has
    scanned it, or asks for the key again after a wait, and the pass at that time or later
    scans it if its status can be written. *)
Theorem woken_when_due m obj w w1 wait spec interval :
  specInterval obj = inl (spec, interval) -> cp_Paused spec = false -> reconcile m obj w = (w1, (wait, None)) -> wait < int64_max ->
  wo_scans w1 = wo_scans w ++ [scan_options (object_key obj) spec] \/
  forall m' obj' w', reads_on obj obj' (me_now m + wait) -> wo_next w' !! object_key obj = wo_next w1 !! object_key obj ->
    me_now m + wait <= me_now m' -> me_now m <= me_now m' -> patch_fails (me_patch m' 0) = false ->
    wo_scans (fst (reconcile m' obj' w')) = wo_scans w' ++ [scan_options (object_key obj) spec].
Proof.
  intros Hs Hp Hrec Hwait. pose proof (reconcile_scans m obj w) as Hr. cbn zeta in Hr. rewrite Hrec in Hr. cbn [fst] in Hr.
  unfold scan_due in Hr. rewrite Hs, Hp in Hr. cbn [negb andb] in Hr.
  set (due := fst (dueTime w (object_key obj) (ob_Generation obj) (readStatus obj) interval (me_now m))) in *.
  destruct (Z.leb_spec due (me_now m)) as [Hle|Hlt]; cbn [andb] in Hr.
  - destruct (patch_fails (me_patch m 0)) eqn:Ef; cbn [negb] in Hr; [|left; by destruct Hr as (E & _)]. exfalso.
    unfold Controller.reconcile in Hrec. rewrite Hs, Hp in Hrec.
    change (dueTime (recordReconcile w) (object_key obj) (ob_Generation obj) (st_generation (ob_Generation obj) (readStatus obj)) interval (me_now m))
      with (dueTime w (object_key obj) (ob_Generation obj) (readStatus obj) interval (me_now m)) in Hrec.
    unfold due in Hle. destruct (dueTime w _ _ _ _ _) as [d b]. cbn [fst] in Hle. destruct (Z.ltb_spec (me_now m) d); [lia|].
    unfold Controller.scan_now, patchStatus in Hrec. destruct (me_patch m 0); done.
  - right. intros m' obj' w' Hon Hmem Hnow Hnow' Hok.
    assert (Hdue : me_now m + wait = due).
    { unfold Controller.reconcile in Hrec. rewrite Hs, Hp in Hrec.
      change (dueTime (recordReconcile w) (object_key obj) (ob_Generation obj) (st_generation (ob_Generation obj) (readStatus obj)) interval (me_now m))
        with (dueTime w (object_key obj) (ob_Generation obj) (readStatus obj) interval (me_now m)) in Hrec.
      unfold due in *. destruct (dueTime w _ _ _ _ _) as [d b]. cbn [fst] in *. destruct (Z.ltb_spec (me_now m) d); [|lia].
      apply await_wait in Hrec. unfold Sub in Hrec. unfold int64_max, int64_min in *. lia. }
    rewrite (sa_next _ _ Hr) in Hmem. rewrite Hdue in Hon, Hnow.
    pose proof (due_later w w' obj obj' interval (me_now m) (me_now m') Hon Hmem Hnow Hnow') as Hd.
    pose proof (reconcile_scans m' obj' w') as Hr'. cbn zeta in Hr'. unfold scan_due in Hr'.
    destruct Hon as (Hk & _ & Hspec & _). rewrite Hspec, Hs, Hp, Hok in Hr'. cbn [negb andb] in Hr'.
    destruct (Z.leb_spec (fst (dueTime w' (object_key obj') (ob_Generation obj') (readStatus obj') interval (me_now m'))) (me_now m')); [|lia].
    cbn [andb] in Hr'. destruct Hr' as (-> & _). by rewrite Hk.
Qed.

End Facts.

(** ** Retry delays *)

Lemma double_delay_exact steps delay interval : 0 < delay -> 0 < interval <= 2 ^ 62 ->
  Z.min (double_delay steps delay interval) interval = Z.min (delay * 2 ^ Z.of_nat steps) interval.
Proof.
  intros Hd Hi. revert delay Hd. induction steps as [|steps IH]; intros delay Hd; cbn [double_delay]; [by rewrite Z.mul_1_r|].
  rewrite Nat2Z.inj_succ, Z.pow_succ_r by lia. pose proof (Z.pow_pos_nonneg 2 (Z.of_nat steps) ltac:(lia) ltac:(lia)).
  destruct (Z.ltb_spec delay interval).
  - assert (wrap64 (delay * 2) = delay * 2) as -> by (unfold wrap64, limit63; rewrite Z.mod_small; lia).
    rewrite IH by lia. f_equal. lia.
  - rewrite !Z.min_r; [done|nia|lia].
Qed.

(** C40: the delay after [n] failures in a row is a minute doubled for each failure after the
    first, never longer than the interval, for intervals up to 146 years. *)
Theorem retry_delay_exact n interval : 1 <= n -> 0 < interval <= 2 ^ 62 ->
  retryDelay n interval = Z.min (Minute * 2 ^ (n - 1)) interval /\ 0 < retryDelay n interval <= interval.
Proof.
  intros Hn Hi. assert (retryDelay n interval = Z.min (Minute * 2 ^ (n - 1)) interval) as E.
  { unfold retryDelay. rewrite double_delay_exact by (done || lia). by rewrite Z2Nat.id by lia. }
  rewrite E. split; [done|]. pose proof (Z.pow_pos_nonneg 2 (n - 1) ltac:(lia) ltac:(lia)). unfold Minute, Second. lia.
Qed.

Lemma retry_delay_exact_witness : retryDelay 3 (15 * Minute) = 4 * Minute.
Proof. apply (retry_delay_exact 3 (15 * Minute)); vm_compute; [discriminate|split; [reflexivity|discriminate]]. Defined.

(** Past that the doubling wraps, and the retry is due in the past. *)
Lemma retry_delay_wraps : retryDelay 29 (limit63 - 1) < 0.
Proof. vm_compute. reflexivity. Qed.

(** ** The status that is written *)

Definition find_condition (type : string) (cs : list Condition) : option Condition := List.find (fun c => String.eqb (cd_Type c) type) cs.
Definition condition_is (type : string) (st : ConditionStatus) (s : ClusterScanStatus) : Prop :=
  cd_Status <$> find_condition type (ct_Conditions s) = Some st.

(** What the status should say of a scan. *)
Definition says (m : Meets) (old : ClusterScanStatus) (interval : Z) (s : ClusterScanStatus) : Prop :=
  condition_is ConditionScanning ConditionFalse s /\
  match me_scan m with
  | inl sum =>
      ct_Phase s = PhaseSucceeded /\ ct_LastScanID s = ss_ScanID sum /\ ct_LastScanTime s = Some (me_completed m) /\
      ct_NextScanTime s = Some (me_completed m + interval) /\ ct_ConsecutiveFailures s = 0 /\ ct_ObservedScore s = ss_Score sum /\
      condition_is ConditionReady ConditionTrue s /\ condition_is ConditionFailed ConditionFalse s
  | inr err =>
      ct_Phase s = PhaseFailed /\ ct_LastScanID s = ct_LastScanID old /\ ct_LastScanTime s = ct_LastScanTime old /\
      ct_NextScanTime s = Some (me_completed m + retryDelay (ct_ConsecutiveFailures old + 1) interval) /\
      ct_ConsecutiveFailures s = ct_ConsecutiveFailures old + 1 /\ ct_ObservedScore s = ct_ObservedScore old /\
      condition_is ConditionReady ConditionFalse s /\ condition_is ConditionFailed ConditionTrue s
  end.

(** The patch of the last call. *)
Definition last_patch (w : World) : option (string * json) := head (rev (wo_patches w)).

Section Written.

Context (NestedMap : json -> string -> option json + string) (decode_spec : json -> ClusterScanSpec + string)
  (decode_status : json -> ClusterScanStatus + string) (SetStatusCondition : Condition -> list Condition -> list Condition).

(** The condition set replaces the one of its type, and no other. *)
Hypothesis SetStatusCondition_spec : forall c cs type,
  find_condition type (SetStatusCondition c cs) = if String.eqb (cd_Type c) type then Some c else find_condition type cs.

Lemma setConditions_are gen ready failed reason message s :
  let s' := setConditions SetStatusCondition gen ready failed reason message s in
  condition_is ConditionScanning ConditionFalse s' /\ condition_is ConditionReady ready s' /\ condition_is ConditionFailed failed s'.
Proof.
  cbn zeta. unfold condition_is, setConditions, st_conditions, set_condition. cbn [ct_Conditions]. rewrite !SetStatusCondition_spec. by split_and!.
Qed.

Lemma patch_written m n obj s w : last_patch (fst (fst (patchStatus m n obj s w))) = Some (object_key obj, buildStatusPatch (ob_ResourceVersion obj) s).
Proof. unfold patchStatus, last_patch. destruct (me_patch m n); cbn; by rewrite rev_app_distr. Qed.

Lemma finish_scan_written m obj spec s gen interval w : me_deleted m = false -> me_ctx m = None ->
  exists s', last_patch (fst (finish_scan SetStatusCondition m obj spec s gen interval w)) =
    Some (object_key obj, buildStatusPatch (ob_ResourceVersion obj) s') /\ says m s interval s'.
Proof.
  intros Hd Hc. unfold finish_scan, runScan. rewrite Hd, Hc. unfold says. destruct (me_scan m) as [sum|err].
  - unfold recordSuccess. match goal with |- context [patchStatus m 1 obj ?s ?w] => set (s' := s); pose proof (patch_written m 1 obj s' w) as H;
      destruct (patchStatus m 1 obj s' w) as [[? ?] [?|]] end; cbn [fst] in *; exists s'; (split; [exact H|]);
      destruct (setConditions_are gen ConditionTrue ConditionFalse ReasonScanSucceeded (success_message sum)
        (st_failures 0 (st_observed sum (me_completed m) (st_next (Some (me_completed m + interval)) (st_marked PhaseSucceeded (success_message sum) s)))))
        as (H1 & H2 & H3); by split_and!.
  - unfold recordFailure. match goal with |- context [patchStatus m 1 obj ?s ?w] => set (s' := s); pose proof (patch_written m 1 obj s' w) as H;
      destruct (patchStatus m 1 obj s' w) as [[? ?] ?] end; cbn [fst] in *. exists s'. split; [exact H|].
    unfold s'. match goal with |- context [setConditions _ gen _ _ _ ?msg ?t] =>
      destruct (setConditions_are gen ConditionFalse ConditionTrue ReasonScanFailed msg t) as (H1 & H2 & H3) end. by split_and!.
Qed.

(** A pass whose scan ends, well or not, writes last a status that says what happened: the
    phase, the times and counts of the scan or its failure, when the next is due, and the three
    conditions, of which Scanning is over and exactly one of Ready and Failed holds. *)
Theorem outcome_written m obj w spec interval :
  scan_due NestedMap decode_spec decode_status m obj w = Some (spec, interval) -> me_deleted m = false -> me_ctx m = None ->
  exists rv s, last_patch (fst (reconcile NestedMap decode_spec decode_status SetStatusCondition m obj w)) =
    Some (object_key obj, buildStatusPatch rv s) /\
    says m (readStatus NestedMap decode_status obj) interval s.
Proof.
  intros Hdue Hd Hc. unfold scan_due in Hdue. unfold reconcile. destruct (specInterval _ _ _) as [[spec' interval']|]; [|done].
  destruct (cp_Paused spec'); [done|]. cbn [negb andb] in Hdue.
  change (dueTime (recordReconcile w) (object_key obj) (ob_Generation obj) (st_generation (ob_Generation obj) (readStatus NestedMap decode_status obj)) interval' (me_now m))
    with (dueTime w (object_key obj) (ob_Generation obj) (readStatus NestedMap decode_status obj) interval' (me_now m)).
  destruct (dueTime w _ _ _ _ _) as [d b]. cbn [fst] in Hdue. destruct (Z.leb_spec d (me_now m)); [|done]. cbn [andb] in Hdue.
  destruct (Z.ltb_spec (me_now m) d); [lia|]. unfold scan_now, patchStatus. destruct (me_patch m 0) as [rv| |err]; cbn [patch_fails negb] in Hdue; [| |done];
    injection Hdue as <- <-.
  - match goal with |- context [finish_scan _ m ?o ?sp ?s ?g ?i ?w] => destruct (finish_scan_written m o sp s g i w Hd Hc) as (s' & H1 & H2) end.
    exists rv, s'. split; [exact H1|exact H2].
  - match goal with |- context [finish_scan _ m ?o ?sp ?s ?g ?i ?w] => destruct (finish_scan_written m o sp s g i w Hd Hc) as (s' & H1 & H2) end.
    exists (ob_ResourceVersion obj), s'. split; [exact H1|exact H2].
Qed.

End Written.

(** ** The theorems at work *)

Definition sample_nested (j : json) (k : string) : option json + string :=
  match j with JObj kv => inl (snd <$> List.find (fun p => String.eqb (fst p) k) kv) | _ => inr "not an object"%string end.

Definition every_15m : ClusterScanSpec := {|
  cp_Contexts := ["prod"]; cp_Group := ""; cp_Interval := "15m"; cp_Scanners := [];
  cp_Emit := {| eo_FleetDriftReport := false; eo_PolicyReport := false; eo_Slack := true |}; cp_Paused := false |}%string.

Definition sample_spec (j : json) : ClusterScanSpec + string := inl every_15m.
Definition next_status (t : Z) (j : json) : ClusterScanStatus + string := inl (st_next (Some t) no_status).

Definition sample_set (c : Condition) (cs : list Condition) : list Condition :=
  c :: List.filter (fun d => negb (String.eqb (cd_Type d) (cd_Type c))) cs.

Lemma sample_set_spec c cs type :
  find_condition type (sample_set c cs) = if String.eqb (cd_Type c) type then Some c else find_condition type cs.
Proof.
  unfold sample_set, find_condition. cbn [List.find]. destruct (String.eqb_spec (cd_Type c) type) as [Hn|Hn]; [done|].
  induction cs as [|d cs IH]; [done|]. cbn [List.filter List.find]. destruct (String.eqb_spec (cd_Type d) (cd_Type c)) as [E|]; cbn [negb].
  - destruct (String.eqb_spec (cd_Type d) type); [congruence|done].
  - cbn [List.find]. by rewrite IH.
Qed.

Definition sample_scan : ClusterScan := {|
  ob_Namespace := "ops"; ob_Name := "nightly"; ob_Generation := 1; ob_ResourceVersion := "7";
  ob_Object := JObj [("spec", JObj []); ("status", JObj [])] |}%string.

Definition meets (now completed : Z) (answer : PatchAnswer) (scan : ScanSummary + string) : Meets := {|
  me_now := now; me_completed := completed; me_patch := fun _ => answer; me_scan := scan; me_deleted := false; me_ctx := None |}.

Definition good_scan : ScanSummary := {| ss_ScanID := "s1"; ss_Score := 90; ss_Grade := "A"; ss_Critical := 0; ss_Warning := 2; ss_Clusters := 1 |}.

Lemma outcome_written_witness : exists rv s,
  last_patch (fst (reconcile sample_nested sample_spec (next_status (5 * Second)) sample_set
    (meets (9 * Second) (12 * Second) (Patched "8") (inl good_scan)) sample_scan new_world)) = Some ("ops/nightly"%string, buildStatusPatch rv s) /\
  says (meets (9 * Second) (12 * Second) (Patched "8") (inl good_scan)) (st_next (Some (5 * Second)) no_status) (15 * Minute) s.
Proof.
  apply (outcome_written sample_nested sample_spec (next_status (5 * Second)) sample_set sample_set_spec
    (meets (9 * Second) (12 * Second) (Patched "8") (inl good_scan)) sample_scan new_world every_15m (15 * Minute)); vm_compute; reflexivity.
Defined.

Lemma woken_when_due_witness :
  wo_scans (fst (reconcile sample_nested sample_spec (next_status (5 * Second)) sample_set
    (meets (5 * Second) (6 * Second) (Patched "9") (inr "no route"%string)) sample_scan new_world)) = [scan_options "ops/nightly" every_15m].
Proof.
  destruct (woken_when_due sample_nested sample_spec (next_status (5 * Second)) sample_set
    (meets (2 * Second) (3 * Second) (Patched "8") (inl good_scan)) sample_scan new_world
    (fst (reconcile sample_nested sample_spec (next_status (5 * Second)) sample_set (meets (2 * Second) (3 * Second) (Patched "8") (inl good_scan)) sample_scan new_world))
    (3 * Second) every_15m (15 * Minute)) as [H|H].
  - vm_compute. reflexivity.
  - reflexivity.
  - vm_compute. reflexivity.
  - vm_compute. reflexivity.
  - vm_compute in H. discriminate H.
  - refine (H (meets (5 * Second) (6 * Second) (Patched "9") (inr "no route"%string)) sample_scan new_world _ _ _ _ _).
    + split_and!; [reflexivity..|]. left. reflexivity.
    + vm_compute. reflexivity.
    + vm_compute. discriminate.
    + vm_compute. discriminate.
    + reflexivity.
Defined.

(** A resource the API server no longer has is scanned all the same. *)
Lemma deleted_still_scanned : wo_scans (fst (reconcile sample_nested sample_spec (next_status (5 * Second)) sample_set
  (meets (9 * Second) (12 * Second) PatchNotFound (inl good_scan)) sample_scan new_world)) = [scan_options "ops/nightly" every_15m].
Proof. vm_compute. reflexivity. Qed.

(** The status carries whole seconds, so a status that is up to date looks behind. *)
Lemma current_cache_looks_behind :
  let m := meets (9 * Second) (12 * Second + 1) (Patched "8") (inl good_scan) in
  let w := fst (reconcile sample_nested sample_spec (next_status (5 * Second)) sample_set m sample_scan new_world) in
  let next := 12 * Second + 15 * Minute in
  RFC3339 (next + 1) = RFC3339 next /\
  dueTime w "ops/nightly" 1 (st_next (Some next) no_status) (15 * Minute) (20 * Second) = (next + 1, true).
Proof. vm_compute. split; reflexivity. Qed.

(** A pass that fails to write its schedule is counted as one that completed. *)
Lemma failed_pass_counted_ok :
  let '(w, (_, err)) := reconcile sample_nested sample_spec (next_status (5 * Second)) sample_set
    (meets (2 * Second) (3 * Second) (PatchError "conflict") (inl good_scan)) sample_scan
    (set_next (fun _ => ∅) new_world) in
  ku_reconcileOK (wo_counts w) = 1 /\ ku_reconcileFail (wo_counts w) = 0.
Proof. vm_compute. split; reflexivity. Qed.
