(* ===== verification/Store.v ===== *)
(** * The store: internal/store

    The tables of one database as maps by primary key, and every statement of sqlstore.go,
    memberships.go, tags.go and audit.go on them. A driver may fail any statement; a
    transaction then leaves the tables as they were. Times are columns of RFC 3339 text in
    UTC, which read back as whole seconds and compare as text (TimeText.v). The JSON columns
    that list names are kept as the lists. Text is ordered bytewise, as SQLite orders it. The
    tables of keys, acknowledgements and alerts are those of Keys.v, Acks.v and Alerts.v. *)

From Stdlib Require Import ZArith Lia String Ascii.
From stdpp Require Import base gmap strings list option sorting.
From S2P Require Import Prelude Maps Float64 Ratio GoTime TimeText Text Data Build Keys.

Local Open Scope Z_scope.

(** ** store.go *)

Record ScanRecord := { sn_ID : string; sn_Timestamp : Z; sn_Clusters : list string; sn_Scanners : list string }.

Record ScanResultRecord := {
  sx_ScanID : string; sx_Cluster : string; sx_Scanner : string; sx_DataJSON : string; sx_State : State; sx_Reason : string }.

Record ClusterRecord := { cl_Name : string; cl_FirstSeen : Z; cl_LastSeen : Z; cl_Groups : list string; cl_Tags : gmap string string }.

Record GroupRecord := { gr_Name : string; gr_Clusters : list string }.

Record LocationRecord := {
  lc_Cluster : string; lc_Lat : float64; lc_Lng : float64; lc_Site : string; lc_Notes : string; lc_UpdatedAt : Z }.

(** audit.go. *)
Record AuditRow := {
  au_ID : string; au_Timestamp : Z; au_ActorID : string; au_ActorName : string; au_ActorRole : string; au_Method : string; au_Path : string;
  au_Status : Z; au_RemoteAddr : string; au_UserAgent : string; au_DurationMS : Z; au_Error : string }.

Record AuditListOptions := { ao_Limit : Z; ao_Since : Z; ao_ActorID : string; ao_MinStatus : Z }.

(** ** The tables *)

Record ScanRow := { sr_Timestamp : Z; sr_Clusters : list string; sr_Scanners : list string }.

Record ResultRow := { rr_DataJSON : string; rr_State : State; rr_Reason : string }.

Record Db := {
  db_scans : gmap string ScanRow;
  db_results : gmap (string * string * string) ResultRow;
  db_clusters : gmap string (Z * Z);
  db_groups : gset string;
  db_members : gset (string * string);
  db_locations : gmap string LocationRecord;
  db_tags : gmap (string * string) string;
  db_audit : gmap string AuditRow }.

Definition empty_db : Db := {|
  db_scans := ∅; db_results := ∅; db_clusters := ∅; db_groups := ∅; db_members := ∅; db_locations := ∅; db_tags := ∅; db_audit := ∅ |}.

Definition set_scans (f : gmap string ScanRow -> gmap string ScanRow) (db : Db) : Db := {|
  db_scans := f (db_scans db); db_results := db_results db; db_clusters := db_clusters db; db_groups := db_groups db;
  db_members := db_members db; db_locations := db_locations db; db_tags := db_tags db; db_audit := db_audit db |}.
Definition set_results (f : gmap (string * string * string) ResultRow -> gmap (string * string * string) ResultRow) (db : Db) : Db := {|
  db_scans := db_scans db; db_results := f (db_results db); db_clusters := db_clusters db; db_groups := db_groups db;
  db_members := db_members db; db_locations := db_locations db; db_tags := db_tags db; db_audit := db_audit db |}.
Definition set_clusters (f : gmap string (Z * Z) -> gmap string (Z * Z)) (db : Db) : Db := {|
  db_scans := db_scans db; db_results := db_results db; db_clusters := f (db_clusters db); db_groups := db_groups db;
  db_members := db_members db; db_locations := db_locations db; db_tags := db_tags db; db_audit := db_audit db |}.
Definition set_groups (f : gset string -> gset string) (db : Db) : Db := {|
  db_scans := db_scans db; db_results := db_results db; db_clusters := db_clusters db; db_groups := f (db_groups db);
  db_members := db_members db; db_locations := db_locations db; db_tags := db_tags db; db_audit := db_audit db |}.
Definition set_membership (f : gset (string * string) -> gset (string * string)) (db : Db) : Db := {|
  db_scans := db_scans db; db_results := db_results db; db_clusters := db_clusters db; db_groups := db_groups db;
  db_members := f (db_members db); db_locations := db_locations db; db_tags := db_tags db; db_audit := db_audit db |}.
Definition set_locations (f : gmap string LocationRecord -> gmap string LocationRecord) (db : Db) : Db := {|
  db_scans := db_scans db; db_results := db_results db; db_clusters := db_clusters db; db_groups := db_groups db;
  db_members := db_members db; db_locations := f (db_locations db); db_tags := db_tags db; db_audit := db_audit db |}.
Definition set_tags (f : gmap (string * string) string -> gmap (string * string) string) (db : Db) : Db := {|
  db_scans := db_scans db; db_results := db_results db; db_clusters := db_clusters db; db_groups := db_groups db;
  db_members := db_members db; db_locations := db_locations db; db_tags := f (db_tags db); db_audit := db_audit db |}.
Definition set_audit (f : gmap string AuditRow -> gmap string AuditRow) (db : Db) : Db := {|
  db_scans := db_scans db; db_results := db_results db; db_clusters := db_clusters db; db_groups := db_groups db;
  db_members := db_members db; db_locations := db_locations db; db_tags := db_tags db; db_audit := f (db_audit db) |}.

(** ** Statements and transactions *)

(** A statement, given the driver's failure if it has one. *)
Abbreviation Stmt := (option string -> Db -> Db + store_error).

Definition sql (what : string) (run : Db -> Db + string) : Stmt := fun fails db =>
  match match fails with Some err => inr err | None => run db end with
  | inl db => inl db
  | inr err => inr (ErrStore (what ++ ": " ++ err)%string)
  end.

(** [fails n] is the failure of the [n]th call of the driver. *)
Fixpoint run_stmts (fails : nat -> option string) (n : nat) (stmts : list Stmt) (db : Db) : Db + store_error :=
  match stmts with
  | [] => inl db
  | s :: stmts => match s (fails n) db with inl db => run_stmts fails (S n) stmts db | inr e => inr e end
  end.

Definition transaction (commit : string) (fails : nat -> option string) (stmts : list Stmt) (db : Db) : Db * option store_error :=
  match fails O with
  | Some err => (db, Some (ErrStore ("begin tx: " ++ err)%string))
  | None =>
      match run_stmts fails 1 stmts db with
      | inr e => (db, Some e)
      | inl db' => match fails (S (length stmts)) with
                   | Some err => (db, Some (ErrStore (commit ++ err)%string))
                   | None => (db', None)
                   end
      end
  end.

Definition single (what : string) (fails : option string) (run : Db -> Db + string) (db : Db) : Db * option store_error :=
  match sql what run fails db with inl db' => (db', None) | inr e => (db, Some e) end.

(** [ORDER BY ... LIMIT n]; a negative limit is none. *)
Definition sql_limit {A} (limit : Z) (l : list A) : list A := if limit <? 0 then l else take (Z.to_nat limit) l.

Definition text_cmp : Z -> Z -> comparison := cmp_on RFC3339 String.compare.

#[export] Instance text_cmp_order : CmpOrder text_cmp.
Proof. unfold text_cmp. exact _. Qed.

(** ** Scans *)

Section Scans.

(** [json.Marshal] and [json.Unmarshal] of a scanner's data. *)
Context (Marshal : json -> string + string) (Unmarshal : string -> json + string).

Definition insert_scan (id : string) (row : ScanRow) : Stmt := sql "insert scan" (fun db =>
  match db_scans db !! id with
  | Some _ => inr "UNIQUE constraint failed: scans.id"%string
  | None => inl (set_scans <[id := row]> db)
  end).

Definition insert_result (id cluster name : string) (r : Result) : Stmt := fun fails db =>
  match Marshal (res_Data r) with
  | inr err => inr (ErrStore ("marshal data: " ++ err)%string)
  | inl text => sql "insert result" (fun db =>
      match db_results db !! (id, cluster, name) with
      | Some _ => inr "UNIQUE constraint failed: scan_results"%string
      | None => inl (set_results <[(id, cluster, name) := {| rr_DataJSON := text; rr_State := res_State r; rr_Reason := res_Reason r |}]> db)
      end) fails db
  end.

Definition upsert_cluster (now : Z) (name : string) : Stmt := sql "upsert cluster" (fun db =>
  inl (set_clusters <[name := (match db_clusters db !! name with Some (first, _) => first | None => now end, now)]> db)).

Abbreviation entry := (string * string * Result)%type.

Definition entries_of (results : Results) : list entry :=
  concat (map (fun e => map (fun kv => (fst e, fst kv, snd kv)) (map_to_list (snd e))) (map_to_list results)).

(** [arrange] is the order in which Go ranges over the results. *)
Definition SaveScanRecord (fails : nat -> option string) (newID : string) (now : Z) (arrange : list entry -> list entry)
  (rec : ScanRecord) (results : Results) (db : Db) : Db * (string + store_error) :=
  let id := if String.eqb (sn_ID rec) "" then newID else sn_ID rec in
  let ts := stored_time (if IsZero (sn_Timestamp rec) then now else sn_Timestamp rec) in
  let stmts :=
    [insert_scan id {| sr_Timestamp := ts; sr_Clusters := sn_Clusters rec; sr_Scanners := Names results |}; sql "prepare" inl] ++
    map (fun e => insert_result id (fst (fst e)) (snd (fst e)) (snd e)) (arrange (entries_of results)) ++
    map (upsert_cluster ts) (sn_Clusters rec) in
  match transaction "commit: " fails stmts db with
  | (db, None) => (db, inl id)
  | (db, Some e) => (db, inr e)
  end.

Definition SaveScan (fails : nat -> option string) (newID : string) (now : Z) (arrange : list entry -> list entry)
  (clusters : list string) (results : Results) (db : Db) : Db * (string + store_error) :=
  SaveScanRecord fails newID now arrange {| sn_ID := ""; sn_Timestamp := 0; sn_Clusters := clusters; sn_Scanners := [] |} results db.

Definition scan_record (id : string) (row : ScanRow) : ScanRecord := {|
  sn_ID := id; sn_Timestamp := sr_Timestamp row; sn_Clusters := sr_Clusters row; sn_Scanners := sr_Scanners row |}.

Definition GetScan (fails : option string) (id : string) (db : Db) : ScanRecord + store_error :=
  match fails with
  | Some err => inr (ErrQuery ("scan row: " ++ err)%string)
  | None => match db_scans db !! id with Some row => inl (scan_record id row) | None => inr (ErrNotFound "scan") end
  end.

Definition all_scans (db : Db) : list ScanRecord := map (fun e => scan_record (fst e) (snd e)) (map_to_list (db_scans db)).

(** ORDER BY timestamp DESC, id DESC. *)
Definition newest_cmp : ScanRecord -> ScanRecord -> comparison :=
  cmp_lex (cmp_rev (cmp_on sn_Timestamp text_cmp)) (cmp_rev (cmp_on sn_ID String.compare)).

#[export] Instance newest_cmp_order : CmpOrder newest_cmp.
Proof. unfold newest_cmp. exact _. Qed.

Definition ListScans (fails : option string) (limit : Z) (db : Db) : list ScanRecord + store_error :=
  match fails with
  | Some err => inr (ErrQuery err)
  | None => inl (sql_limit limit (isort (less_of newest_cmp) (all_scans db)))
  end.

(** The bounds are formatted in the zones their callers hold them in. *)
Definition in_range (zone start zone' end_ : Z) (r : ScanRecord) : bool :=
  negb (str_ltb (RFC3339 (sn_Timestamp r)) (RFC3339_in zone start)) && negb (str_ltb (RFC3339_in zone' end_) (RFC3339 (sn_Timestamp r))).

Definition GetScansByTimeRange (fails : option string) (zone start zone' end_ : Z) (db : Db) : list ScanRecord + store_error :=
  match fails with
  | Some err => inr (ErrQuery err)
  | None => inl (isort (less_of newest_cmp) (List.filter (in_range zone start zone' end_) (all_scans db)))
  end.

Definition result_of_row (name : string) (row : ResultRow) : Result + string :=
  match Unmarshal (rr_DataJSON row) with
  | inl d => inl {| res_Scanner := name; res_State := rr_State row; res_Reason := rr_Reason row; res_Data := d |}
  | inr err => inr err
  end.

(** Rows come in any order; only the error reported can depend on it. *)
Fixpoint read_rows (rows : list (string * string * ResultRow)) : Results + store_error :=
  match rows with
  | [] => inl ∅
  | (cluster, name, row) :: rows =>
      match result_of_row name row with
      | inr err => inr (ErrQuery ("unmarshal: " ++ err)%string)
      | inl r => match read_rows rows with
                 | inr e => inr e
                 | inl results => inl (<[cluster := <[name := r]> (default ∅ (results !! cluster))]> results)
                 end
      end
  end.

Definition rows_of_scan (id : string) (db : Db) : list (string * string * ResultRow) :=
  omap (fun e : string * string * string * ResultRow => let '(i, c, n, row) := e in if String.eqb i id then Some (c, n, row) else None)
    (map_to_list (db_results db)).

Definition GetScanResults (fails : option string) (id : string) (db : Db) : Results + store_error :=
  match fails with Some err => inr (ErrQuery err) | None => read_rows (rows_of_scan id db) end.

(** The rows of one scan come in any order. *)
Definition GetClusterHistory (fails : option string) (arrange : list ScanResultRecord -> list ScanResultRecord) (cluster : string) (limit : Z)
  (db : Db) : list ScanResultRecord + store_error :=
  match fails with
  | Some err => inr (ErrQuery err)
  | None =>
      let rows := omap (fun e : string * string * string * ResultRow => let '(i, c, n, row) := e in
        if String.eqb c cluster && bool_decide (is_Some (db_scans db !! i)) then
          Some {| sx_ScanID := i; sx_Cluster := c; sx_Scanner := n; sx_DataJSON := rr_DataJSON row; sx_State := rr_State row; sx_Reason := rr_Reason row |}
        else None) (map_to_list (db_results db)) in
      let at_ (r : ScanResultRecord) := match db_scans db !! sx_ScanID r with Some row => scan_record (sx_ScanID r) row | None => scan_record "" {| sr_Timestamp := 0; sr_Clusters := []; sr_Scanners := [] |} end in
      inl (sql_limit limit (isort (less_of (cmp_on at_ newest_cmp)) (arrange rows)))
  end.

(** The results of a scan go with it: [ON DELETE CASCADE]. *)
Definition delete_scans (old : string -> ScanRow -> bool) (db : Db) : Db :=
  let kept := filter (fun e => negb (old (fst e) (snd e)) = true) (db_scans db) in
  set_results (fun rs => filter (fun e => fst (fst (fst e)) ∈ dom kept) rs) (set_scans (fun _ => kept) db).

Definition older_than (cutoff : Z) (_ : string) (row : ScanRow) : bool := str_ltb (RFC3339 (sr_Timestamp row)) (RFC3339 cutoff).

Definition Prune (fails : option string) (cutoff : Z) (db : Db) : Db * (nat + store_error) :=
  match fails with
  | Some err => (db, inr (ErrStore ("prune: " ++ err)%string))
  | None => (delete_scans (older_than cutoff) db, inl (size (filter (fun e => older_than cutoff (fst e) (snd e) = true) (db_scans db))))
  end.

End Scans.

(** ** Groups *)

Definition insert_group (name : string) : Stmt := sql "insert group" (fun db => inl (set_groups (fun s => {[name]} ∪ s) db)).

Definition clear_group (name : string) : Stmt := sql "clear group clusters" (fun db =>
  inl (set_membership (filter (fun m => fst m <> name)) db)).

Definition insert_member (group cluster : string) : Stmt := sql "insert group cluster" (fun db =>
  if bool_decide ((group, cluster) ∈ db_members db) then inr "UNIQUE constraint failed: group_clusters"%string
  else if bool_decide (group ∈ db_groups db) then inl (set_membership (fun s => {[(group, cluster)]} ∪ s) db)
  else inr "FOREIGN KEY constraint failed"%string).

(** The error of the commit is returned as it is. *)
Definition SaveGroup (fails : nat -> option string) (name : string) (clusters : list string) : Db -> Db * option store_error :=
  transaction "" fails ([insert_group name; clear_group name] ++ map (insert_member name) clusters).

Definition member_cmp : string * string -> string * string -> comparison := cmp_lex (cmp_on fst String.compare) (cmp_on snd String.compare).

#[export] Instance member_cmp_order : CmpOrder member_cmp.
Proof. unfold member_cmp. exact _. Qed.

Definition groupClusters (fails : option string) (group : string) (db : Db) : list string + store_error :=
  match fails with
  | Some err => inr (ErrQuery err)
  | None => inl (sort_strings (map snd (List.filter (fun m => String.eqb (fst m) group) (elements (db_members db)))))
  end.

Definition GetGroup (fails fails' : option string) (name : string) (db : Db) : GroupRecord + store_error :=
  match fails with
  | Some err => inr (ErrQuery err)
  | None =>
      if bool_decide (name ∈ db_groups db) then
        match groupClusters fails' name db with
        | inl clusters => inl {| gr_Name := name; gr_Clusters := clusters |}
        | inr e => inr e
        end
      else inr (ErrNotFound ("group " ++ name)%string)
  end.

Definition scanMemberships (rows : list (string * string)) : gmap string (list string) * gmap string (list string) :=
  (file_under rows, file_under (map (fun m => (snd m, fst m)) rows)).

Definition memberships (fails : option string) (db : Db) : gmap string (list string) * gmap string (list string) + store_error :=
  match fails with
  | Some err => inr (ErrQuery err)
  | None => inl (scanMemberships (isort (less_of member_cmp) (elements (db_members db))))
  end.

Definition ListGroups (fails fails' : option string) (db : Db) : list GroupRecord + store_error :=
  match fails with
  | Some err => inr (ErrQuery err)
  | None =>
      match memberships fails' db with
      | inr e => inr e
      | inl (byGroup, _) => inl (map (fun g => {| gr_Name := g; gr_Clusters := default [] (byGroup !! g) |}) (sort_strings (elements (db_groups db))))
      end
  end.

Definition ListClusters (fails fails' : option string) (db : Db) : list ClusterRecord + store_error :=
  match fails with
  | Some err => inr (ErrQuery err)
  | None =>
      match memberships fails' db with
      | inr e => inr e
      | inl (_, byCluster) =>
          inl (map (fun e => {| cl_Name := fst e; cl_FirstSeen := fst (snd e); cl_LastSeen := snd (snd e);
                                cl_Groups := default [] (byCluster !! fst e); cl_Tags := ∅ |})
            (isort (less_of (cmp_on fst String.compare)) (map_to_list (db_clusters db))))
      end
  end.

(** The members of a group go with it. *)
Definition DeleteGroup (fails : option string) (name : string) (db : Db) : Db * option store_error :=
  match fails with
  | Some err => (db, Some (ErrStore err))
  | None =>
      if bool_decide (name ∈ db_groups db)
      then (set_membership (filter (fun m => fst m <> name)) (set_groups (fun s => s ∖ {[name]}) db), None)
      else (db, Some (ErrNotFound ("group " ++ name)%string))
  end.

Definition AddClusterToGroup (fails : option string) (group cluster : string) (db : Db) : Db * option store_error :=
  match match fails with
        | Some err => inr err
        | None => if bool_decide ((group, cluster) ∈ db_members db) then inl db
                  else if bool_decide (group ∈ db_groups db) then inl (set_membership (fun s => {[(group, cluster)]} ∪ s) db)
                  else inr "FOREIGN KEY constraint failed"%string
        end with
  | inl db' => (db', None)
  | inr err => (db, Some (ErrStore err))
  end.

Definition RemoveClusterFromGroup (fails : option string) (group cluster : string) (db : Db) : Db * option store_error :=
  match fails with
  | Some err => (db, Some (ErrStore err))
  | None => (set_membership (fun s => s ∖ {[(group, cluster)]}) db, None)
  end.

(** ** Locations *)

Definition at_time (now : Z) (loc : LocationRecord) : LocationRecord := {|
  lc_Cluster := lc_Cluster loc; lc_Lat := lc_Lat loc; lc_Lng := lc_Lng loc; lc_Site := lc_Site loc; lc_Notes := lc_Notes loc;
  lc_UpdatedAt := stored_time now |}.

Definition SetLocation (fails : option string) (now : Z) (loc : LocationRecord) : Db -> Db * option store_error :=
  single "set location" fails (fun db => inl (set_locations <[lc_Cluster loc := at_time now loc]> db)).

Definition GetLocation (fails : option string) (cluster : string) (db : Db) : option LocationRecord + store_error :=
  match fails with Some err => inr (ErrQuery err) | None => inl (db_locations db !! cluster) end.

Definition ListLocations (fails : option string) (db : Db) : list LocationRecord + store_error :=
  match fails with
  | Some err => inr (ErrQuery err)
  | None => inl (map snd (isort (less_of (cmp_on fst String.compare)) (map_to_list (db_locations db))))
  end.

Definition DeleteLocation (fails : option string) (cluster : string) : Db -> Db * option store_error :=
  single "delete location" fails (fun db => inl (set_locations (delete cluster) db)).

(** ** tags.go *)

Definition SetClusterTag (fails : option string) (cluster key value : string) (db : Db) : Db * option store_error :=
  if String.eqb cluster "" || String.eqb key "" then (db, Some (ErrStore "cluster and key required"))
  else single "set cluster tag" fails (fun db => inl (set_tags <[(cluster, key) := value]> db)) db.

Definition DeleteClusterTag (fails : option string) (cluster key : string) : Db -> Db * option store_error :=
  single "delete cluster tag" fails (fun db => inl (set_tags (delete (cluster, key)) db)).

Definition GetClusterTags (fails : option string) (cluster : string) (db : Db) : gmap string string + store_error :=
  match fails with
  | Some err => inr (ErrQuery ("get cluster tags: " ++ err)%string)
  | None => inl (list_to_map (omap (fun e : string * string * string => let '(c, k, v) := e in if String.eqb c cluster then Some (k, v) else None)
      (map_to_list (db_tags db))))
  end.

Definition add_tag (e : string * string * string) (out : gmap string (gmap string string)) : gmap string (gmap string string) :=
  let '(c, k, v) := e in <[c := <[k := v]> (default ∅ (out !! c))]> out.

Definition ListClusterTags (fails : option string) (db : Db) : gmap string (gmap string string) + store_error :=
  match fails with
  | Some err => inr (ErrQuery ("list cluster tags: " ++ err)%string)
  | None => inl (foldr add_tag ∅ (map_to_list (db_tags db)))
  end.

(** ** audit.go *)

Definition audit_defaults (newID : string) (now : Z) (rec : AuditRow) : AuditRow := {|
  au_ID := if String.eqb (au_ID rec) "" then newID else au_ID rec;
  au_Timestamp := if IsZero (au_Timestamp rec) then now else au_Timestamp rec;
  au_ActorID := au_ActorID rec; au_ActorName := au_ActorName rec; au_ActorRole := au_ActorRole rec; au_Method := au_Method rec;
  au_Path := au_Path rec; au_Status := au_Status rec; au_RemoteAddr := au_RemoteAddr rec; au_UserAgent := au_UserAgent rec;
  au_DurationMS := au_DurationMS rec; au_Error := au_Error rec |}.

Definition SaveAuditEntry (fails : option string) (newID : string) (now : Z) (rec : AuditRow) : Db -> Db * option store_error :=
  let rec := audit_defaults newID now rec in
  single "save audit entry" fails (fun db =>
    match db_audit db !! au_ID rec with
    | Some _ => inr "UNIQUE constraint failed: audit_log.id"%string
    | None => inl (set_audit <[au_ID rec := rec]> db)
    end).

Definition PruneAuditEntries (fails : option string) (cutoff : Z) (db : Db) : Db * (nat + store_error) :=
  match fails with
  | Some err => (db, inr (ErrStore ("prune audit: " ++ err)%string))
  | None => (set_audit (filter (fun e => cutoff <= au_Timestamp (snd e))) db,
             inl (size (filter (fun e => au_Timestamp (snd e) < cutoff) (db_audit db))))
  end.

Definition audit_matches (opts : AuditListOptions) (r : AuditRow) : bool :=
  (IsZero (ao_Since opts) || (ao_Since opts <? au_Timestamp r)) &&
  (String.eqb (ao_ActorID opts) "" || String.eqb (au_ActorID r) (ao_ActorID opts)) &&
  ((ao_MinStatus opts <=? 0) || (ao_MinStatus opts <=? au_Status r)).

Definition audit_cmp : AuditRow -> AuditRow -> comparison := cmp_rev (cmp_on au_Timestamp Z.compare).

#[export] Instance audit_cmp_order : CmpOrder audit_cmp.
Proof. unfold audit_cmp. exact _. Qed.

(** Rows of one instant come in any order. *)
Definition ListAuditEntries (fails : option string) (arrange : list AuditRow -> list AuditRow) (opts : AuditListOptions) (db : Db) :
  list AuditRow + store_error :=
  match fails with
  | Some err => inr (ErrQuery ("list audit: " ++ err)%string)
  | None => inl (take (Z.to_nat (if ao_Limit opts <=? 0 then 100 else ao_Limit opts))
      (isort (less_of audit_cmp) (arrange (List.filter (audit_matches opts) (map snd (map_to_list (db_audit db)))))))
  end.

(** ** Transactions *)

Lemma transaction_all_or_none commit fails stmts db : let '(db', e) := transaction commit fails stmts db in
  match e with None => run_stmts fails 1 stmts db = inl db' | Some _ => db' = db end.
Proof.
  unfold transaction. destruct (fails O); [done|]. destruct (run_stmts fails 1 stmts db); [|done]. by destruct (fails _).
Qed.

Lemma run_stmts_app fails n l1 l2 db db' : run_stmts fails n (l1 ++ l2) db = inl db' ->
  exists db1, run_stmts fails n l1 db = inl db1 /\ run_stmts fails (n + length l1) l2 db1 = inl db'.
Proof.
  revert n db. induction l1 as [|s l1 IH]; intros n db H; cbn [app run_stmts length] in *; [exists db; by rewrite Nat.add_0_r|].
  destruct (s (fails n) db) as [db0|]; [|done]. destruct (IH _ _ H) as (db1 & H1 & H2). exists db1. split; [done|].
  by rewrite Nat.add_succ_r.
Qed.

Lemma sql_ok what run fails db db' : sql what run fails db = inl db' -> fails = None /\ run db = inl db'.
Proof. unfold sql. destruct fails; [done|]. destruct (run db); [|done]. by intros [= ->]. Qed.

(** ** Saving a group *)

Lemma members_run fails n name clusters db db' : run_stmts fails n (map (insert_member name) clusters) db = inl db' ->
  db' = set_membership (fun s => list_to_set (map (pair name) clusters) ∪ s) db /\ NoDup clusters /\
  (forall c, c ∈ clusters -> (name, c) ∉ db_members db) /\ (clusters <> [] -> name ∈ db_groups db).
Proof.
  revert n db. induction clusters as [|c l IH]; intros n db H; cbn [map run_stmts] in H.
  - injection H as <-. split; [unfold set_membership; destruct db; cbn; f_equal; set_solver|]. split; [constructor|]. split; [|done].
    intros c Hc. by apply not_elem_of_nil in Hc.
  - destruct (insert_member name c (fails n) db) as [db0|] eqn:E; [|done]. apply sql_ok in E as [_ E].
    case_bool_decide as E1; [done|]. case_bool_decide as E2; [|done]. injection E as <-.
    destruct (IH _ _ H) as (-> & Hnd & Hni & _). cbn [set_membership db_members] in Hni. split_and!.
    + unfold set_membership. destruct db. cbn. f_equal. set_solver.
    + apply NoDup_cons. split; [|done]. intros Hc. specialize (Hni c Hc). set_solver.
    + intros c' [->|Hc']%elem_of_cons; [done|]. specialize (Hni c' Hc'). set_solver.
    + done.
Qed.

Lemma save_group_effect fails name clusters db : match SaveGroup fails name clusters db with
  | (db', Some _) => db' = db
  | (db', None) => NoDup clusters /\
      db' = set_membership (fun s => list_to_set (map (pair name) clusters) ∪ filter (fun m => fst m <> name) s) (set_groups (fun s => {[name]} ∪ s) db)
  end.
Proof.
  unfold SaveGroup. match goal with |- context [transaction ?c fails ?l db] => pose proof (transaction_all_or_none c fails l db) as H; destruct (transaction c fails l db) as [db' [e|]] end; [done|].
  cbn [app run_stmts] in H. destruct (insert_group name (fails 1%nat) db) as [db1|] eqn:E1; [|done]. apply sql_ok in E1 as [_ [= <-]].
  destruct (clear_group name (fails 2%nat) _) as [db2|] eqn:E2; [|done]. apply sql_ok in E2 as [_ [= <-]].
  apply members_run in H as (-> & Hnd & _ & _). split; [done|]. reflexivity.
Qed.

(** ** Saving a scan *)

Section Saved.

Context (Marshal : json -> string + string).

Notation SaveScanRecord := (SaveScanRecord Marshal).
Notation insert_result := (insert_result Marshal).

Definition result_row (r : Result) (text : string) : ResultRow := {| rr_DataJSON := text; rr_State := res_State r; rr_Reason := res_Reason r |}.

Lemma insert_results_run fails n id l db db' :
  run_stmts fails n (map (fun e => insert_result id (fst (fst e)) (snd (fst e)) (snd e)) l) db = inl db' ->
  exists rs, db' = set_results (fun _ => rs) db /\
    forall i c s row, rs !! (i, c, s) = Some row <-> db_results db !! (i, c, s) = Some row \/
      i = id /\ exists r text, (c, s, r) ∈ l /\ Marshal (res_Data r) = inl text /\ row = result_row r text.
Proof.
  revert n db. induction l as [|[[c0 s0] r0] l IH]; intros n db H; cbn [map run_stmts fst snd] in H.
  - injection H as <-. exists (db_results db). split; [by destruct db|]. intros i c s row. split; [by left|].
    intros [|(_ & r & text & Hin & _)]; [done|]. by apply not_elem_of_nil in Hin.
  - destruct (insert_result id c0 s0 r0 (fails n) db) as [db0|] eqn:E; [|done]. unfold Store.insert_result in E.
    destruct (Marshal (res_Data r0)) as [text0|] eqn:Em; [|done]. apply sql_ok in E as [_ E].
    destruct (db_results db !! (id, c0, s0)) eqn:El; [done|]. injection E as <-.
    destruct (IH _ _ H) as (rs & -> & Hrs). exists rs. split; [done|]. intros i c s row. rewrite Hrs. cbn [set_results db_results].
    destruct (decide ((id, c0, s0) = (i, c, s))) as [[= <- <- <-]|Hne].
    + rewrite lookup_insert_eq, El. split.
      * intros [[= <-]|(_ & r & text & Hin & Hm & ->)]; right; (split; [done|]); [exists r0, text0; split; [by left|done]|].
        exists r, text. split; [by right|done].
      * intros [|(_ & r & text & [[= ->]|Hin]%elem_of_cons & Hm & ->)]; [done| |right; split; [done|]; by exists r, text].
        left. f_equal. unfold result_row. congruence.
    + rewrite lookup_insert_ne by done. split; (intros [|(-> & r & text & Hin & Hm & ->)]; [by left|right; split; [done|]; exists r, text; split; [|done]]).
      * by right.
      * apply elem_of_cons in Hin as [[= -> -> ->]|]; done.
Qed.

Lemma upserts_run fails n now l db db' : run_stmts fails n (map (upsert_cluster now) l) db = inl db' ->
  exists cs, db' = set_clusters (fun _ => cs) db /\
    forall name, cs !! name = if bool_decide (name ∈ l) then Some (default now (fst <$> db_clusters db !! name), now) else db_clusters db !! name.
Proof.
  revert n db. induction l as [|c l IH]; intros n db H; cbn [map run_stmts] in H.
  - injection H as <-. exists (db_clusters db). split; [by destruct db|]. done.
  - destruct (upsert_cluster now c (fails n) db) as [db0|] eqn:E; [|done]. apply sql_ok in E as [_ E]. injection E as <-.
    destruct (IH _ _ H) as (cs & -> & Hcs). exists cs. split; [done|]. intros name. rewrite Hcs. cbn [set_clusters db_clusters].
    destruct (decide (name = c)) as [->|Hne].
    + rewrite lookup_insert_eq, (bool_decide_eq_true_2 (c ∈ c :: l)) by by left. cbn. destruct (db_clusters db !! c) as [[? ?]|]; by case_bool_decide.
    + rewrite lookup_insert_ne by done. apply (f_equal (fun b : bool => if b then _ else _)). apply bool_decide_ext. rewrite elem_of_cons. naive_solver.
Qed.

Definition scan_row_of (now : Z) (rec : ScanRecord) (results : Results) : ScanRow := {|
  sr_Timestamp := stored_time (if IsZero (sn_Timestamp rec) then now else sn_Timestamp rec);
  sr_Clusters := sn_Clusters rec; sr_Scanners := Names results |}.

Lemma elem_of_entries results c s r : (c, s, r) ∈ entries_of results <-> exists m, results !! c = Some m /\ m !! s = Some r.
Proof.
  unfold entries_of. rewrite list_elem_of_In, in_concat. split.
  - intros (l & Hl & Hin). apply in_map_iff in Hl as ([c' m] & <- & Hm). apply in_map_iff in Hin as ([s' r'] & [= -> -> ->] & Hr).
    apply list_elem_of_In, elem_of_map_to_list in Hm, Hr. by exists m.
  - intros (m & Hm & Hr). exists (map (fun kv => (c, fst kv, snd kv)) (map_to_list m)). split.
    + apply in_map_iff. exists (c, m). split; [done|]. by apply list_elem_of_In, elem_of_map_to_list.
    + apply in_map_iff. exists (s, r). split; [done|]. by apply list_elem_of_In, elem_of_map_to_list.
Qed.

(** What a saved scan adds, and what a failed one does. *)
Lemma save_scan_effect fails newID now arrange rec results db : (forall l, arrange l ≡ₚ l) ->
  let id := if String.eqb (sn_ID rec) "" then newID else sn_ID rec in
  match SaveScanRecord fails newID now arrange rec results db with
  | (db', inr _) => db' = db
  | (db', inl id') => id' = id /\ db_scans db !! id = None /\
      exists rs cs, db' = set_clusters (fun _ => cs) (set_results (fun _ => rs) (set_scans <[id := scan_row_of now rec results]> db)) /\
        (forall i c s row, rs !! (i, c, s) = Some row <-> db_results db !! (i, c, s) = Some row \/
          i = id /\ exists m r text, results !! c = Some m /\ m !! s = Some r /\ Marshal (res_Data r) = inl text /\ row = result_row r text) /\
        (forall name, cs !! name = if bool_decide (name ∈ sn_Clusters rec)
          then Some (default (sr_Timestamp (scan_row_of now rec results)) (fst <$> db_clusters db !! name), sr_Timestamp (scan_row_of now rec results))
          else db_clusters db !! name)
  end.
Proof.
  intros Harr id. unfold Store.SaveScanRecord. fold id.
  match goal with |- context [transaction ?c fails ?l db] => pose proof (transaction_all_or_none c fails l db) as H; destruct (transaction c fails l db) as [db' [e|]] end;
    [done|]. split; [done|].
  cbn [app run_stmts] in H. destruct (insert_scan _ _ _ _) as [db1|] eqn:E1 in H; [|done]. apply sql_ok in E1 as [_ E1].
  destruct (db_scans db !! id) eqn:El; [done|]. injection E1 as <-. split; [done|].
  destruct (sql "prepare" inl (fails 2%nat) _) as [db2|] eqn:E2 in H; [|done]. apply sql_ok in E2 as [_ E2]. injection E2 as <-.
  apply run_stmts_app in H as (db3 & H3 & H4). apply insert_results_run in H3 as (rs & -> & Hrs). apply upserts_run in H4 as (cs & -> & Hcs).
  exists rs, cs. split; [done|]. split; [|exact Hcs]. intros i c s row. rewrite Hrs. cbn [set_scans db_results].
  split; (intros [|(-> & H)]; [by left|right; split; [done|]]).
  - destruct H as (r & text & Hin & Hm & ->). rewrite Harr in Hin. apply elem_of_entries in Hin as (m & H1 & H2). by exists m, r, text.
  - destruct H as (m & r & text & H1 & H2 & Hm & ->). exists r, text. split; [|done]. rewrite Harr. apply elem_of_entries. by exists m.
Qed.

(** ** Reading a scan back *)

(** The rows of a scan are those of its results. *)
Definition stored_as (id : string) (row : ScanRow) (results : Results) (db : Db) : Prop :=
  db_scans db !! id = Some row /\
  forall c s rr, db_results db !! (id, c, s) = Some rr <->
    exists m r text, results !! c = Some m /\ m !! s = Some r /\ Marshal (res_Data r) = inl text /\ rr = result_row r text.

Section Reading.

Context (Unmarshal : string -> json + string).

Notation GetScanResults := (GetScanResults Unmarshal).
Notation read_rows := (read_rows Unmarshal).
Notation result_of_row := (result_of_row Unmarshal).

(** A result that is filed under its scanner and whose data survive JSON. *)
Definition storable_results (results : Results) : Prop := forall c m s r, results !! c = Some m -> m !! s = Some r ->
  res_Scanner r = s /\ exists text, Marshal (res_Data r) = inl text /\ Unmarshal text = inl (res_Data r).

(** Clusters without any result have no row. *)
Definition with_rows (results : Results) : Results := filter (fun e => snd e <> ∅) results.

Lemma read_rows_spec rows (want : string -> string -> option Result) : NoDup (map fst rows) ->
  (forall c s row, (c, s, row) ∈ rows -> exists r, result_of_row s row = inl r /\ want c s = Some r) ->
  (forall c s r, want c s = Some r -> exists row, (c, s, row) ∈ rows) ->
  exists R, read_rows rows = inl R /\ (forall c s, R !! c ≫= (.!! s) = want c s) /\ (forall c m, R !! c = Some m -> m <> ∅).
Proof.
  revert want. induction rows as [|[[c s] row] rows IH]; intros want Hnd Hrows Hwant.
  - exists ∅. split; [done|]. split; [|by intros c m; rewrite lookup_empty]. intros c s. rewrite lookup_empty. cbn.
    destruct (want c s) eqn:E; [|done]. destruct (Hwant _ _ _ E) as (row & Hin). by apply not_elem_of_nil in Hin.
  - cbn [map fst] in Hnd. apply NoDup_cons in Hnd as [Hni Hnd].
    destruct (Hrows c s row ltac:(by left)) as (r & Hr & Hw).
    destruct (IH (fun c' s' => if bool_decide ((c', s') = (c, s)) then None else want c' s') Hnd) as (R & HR & Hl & Hne).
    { intros c' s' row' Hin. destruct (Hrows c' s' row' ltac:(by right)) as (r' & Hr' & Hw'). exists r'. split; [done|].
      case_bool_decide as E; [|done]. injection E as -> ->. exfalso. apply Hni. apply list_elem_of_In, in_map_iff.
      exists (c, s, row'). split; [done|]. by apply list_elem_of_In. }
    { intros c' s' r'. case_bool_decide as E; [done|]. intros Hw'. destruct (Hwant _ _ _ Hw') as (row' & [[= -> -> ->]|Hin]%elem_of_cons); [done|]. by exists row'. }
    cbn [Store.read_rows]. rewrite Hr, HR. eexists. split; [reflexivity|]. split.
    + intros c' s'. specialize (Hl c' s'). destruct (decide (c' = c)) as [->|Hc].
      * rewrite lookup_insert_eq. cbn. destruct (decide (s' = s)) as [->|Hs].
        -- by rewrite lookup_insert_eq.
        -- rewrite lookup_insert_ne by done. rewrite bool_decide_eq_false_2 in Hl by congruence. rewrite <- Hl.
           destruct (R !! c); cbn; [done|]. by rewrite lookup_empty.
      * rewrite lookup_insert_ne by done. rewrite bool_decide_eq_false_2 in Hl by congruence. done.
    + intros c' m. destruct (decide (c' = c)) as [->|Hc].
      * rewrite lookup_insert_eq. intros [= <-]. apply insert_non_empty.
      * rewrite lookup_insert_ne by done. apply Hne.
Qed.

Lemma results_eq (R R' : Results) : (forall c s, R !! c ≫= (.!! s) = R' !! c ≫= (.!! s)) ->
  (forall c m, R !! c = Some m -> m <> ∅) -> (forall c m, R' !! c = Some m -> m <> ∅) -> R = R'.
Proof.
  intros H H1 H2. apply map_eq. intros c. destruct (R !! c) as [m|] eqn:E, (R' !! c) as [m'|] eqn:E'; try done.
  - f_equal. apply map_eq. intros s. specialize (H c s). by rewrite E, E' in H.
  - exfalso. apply (H1 c m E). apply map_empty. intros s. specialize (H c s). by rewrite E, E' in H.
  - exfalso. apply (H2 c m' E'). apply map_empty. intros s. specialize (H c s). by rewrite E, E' in H.
Qed.

Lemma elem_of_scan_rows id db c s row : (c, s, row) ∈ rows_of_scan id db <-> db_results db !! (id, c, s) = Some row.
Proof.
  unfold rows_of_scan. rewrite list_elem_of_omap. split.
  - intros ([[[i c'] s'] row'] & Hin & He). apply elem_of_map_to_list in Hin. destruct (String.eqb_spec i id) as [->|]; [|done]. by injection He as -> -> ->.
  - intros H. exists (id, c, s, row). split; [by apply elem_of_map_to_list|]. by rewrite String.eqb_refl.
Qed.

Lemma scan_rows_NoDup id db : NoDup (map fst (rows_of_scan id db)).
Proof.
  unfold rows_of_scan. pose proof (NoDup_fst_map_to_list (db_results db)) as H. revert H.
  induction (map_to_list (db_results db)) as [|[[[i c] s] row] l IH]; intros H; [constructor|]. cbn [fmap list_fmap fst] in H.
  apply NoDup_cons in H as [Hni H]. specialize (IH H). cbn [omap list_omap]. destruct (String.eqb_spec i id) as [->|]; [|done].
  cbn [map fst]. apply NoDup_cons. split; [|done]. intros Hin. apply Hni. apply list_elem_of_In, in_map_iff in Hin as ([[c' s'] row'] & [= -> ->] & Hin).
  apply list_elem_of_In, list_elem_of_omap in Hin as ([[[i' c''] s''] row''] & Hin & He). destruct (String.eqb_spec i' id) as [->|]; [|done].
  injection He as -> -> ->. apply list_elem_of_fmap. by exists (id, c, s, row').
Qed.

Lemma stored_reads_back id row results db : storable_results results -> stored_as id row results db ->
  GetScan None id db = inl (scan_record id row) /\ GetScanResults None id db = inl (with_rows results).
Proof.
  intros Hst [Hs Hr]. split; [unfold GetScan; by rewrite Hs|]. unfold Store.GetScanResults.
  destruct (read_rows_spec (rows_of_scan id db) (fun c s => results !! c ≫= (.!! s)) (scan_rows_NoDup id db)) as (R & -> & HR & Hne).
  - intros c s rr Hin. apply elem_of_scan_rows, Hr in Hin as (m & r & text & H1 & H2 & Hm & ->). exists r.
    destruct (Hst c m s r H1 H2) as (Hn & text' & Hm' & Hu). assert (text' = text) as -> by congruence.
    unfold Store.result_of_row. cbn [result_row rr_DataJSON rr_State rr_Reason]. rewrite Hu. rewrite H1. cbn. split; [|done]. f_equal. destruct r. cbn in *. by subst.
  - intros c s r Hw. destruct (results !! c) as [m|] eqn:E; [|done]. cbn in Hw. destruct (Hst c m s r E Hw) as (_ & text & Hm & _).
    exists (result_row r text). apply elem_of_scan_rows, Hr. by exists m, r, text.
  - f_equal. apply results_eq; [|done|].
    + intros c s. rewrite HR. unfold with_rows. destruct (results !! c) as [m|] eqn:E.
      * destruct (decide (m = ∅)) as [->|Hm].
        -- rewrite map_lookup_filter_None_2; [cbn; by rewrite lookup_empty|]. right. intros m' E'. rewrite E in E'. injection E' as <-. cbn. by intros H.
        -- erewrite map_lookup_filter_Some_2; [done|exact E|done].
      * rewrite map_lookup_filter_None_2; [done|by left].
    + intros c m [_ Hm]%map_lookup_filter_Some. done.
Qed.

End Reading.

(** ** Runs of the store *)

(** One change of the tables; [may_prune] is what cutoffs scans are pruned at. *)
Inductive store_step (may_prune : Z -> Prop) (db : Db) : Db -> Prop :=
| step_save_scan fails newID now arrange rec results : (forall l, arrange l ≡ₚ l) ->
    store_step may_prune db (fst (SaveScanRecord fails newID now arrange rec results db))
| step_prune fails cutoff : may_prune cutoff -> store_step may_prune db (fst (Prune fails cutoff db))
| step_save_group fails name clusters : store_step may_prune db (fst (SaveGroup fails name clusters db))
| step_delete_group fails name : store_step may_prune db (fst (DeleteGroup fails name db))
| step_add fails group cluster : store_step may_prune db (fst (AddClusterToGroup fails group cluster db))
| step_remove fails group cluster : store_step may_prune db (fst (RemoveClusterFromGroup fails group cluster db))
| step_set_location fails now loc : store_step may_prune db (fst (SetLocation fails now loc db))
| step_delete_location fails cluster : store_step may_prune db (fst (DeleteLocation fails cluster db))
| step_set_tag fails cluster key value : store_step may_prune db (fst (SetClusterTag fails cluster key value db))
| step_delete_tag fails cluster key : store_step may_prune db (fst (DeleteClusterTag fails cluster key db))
| step_audit fails newID now rec : store_step may_prune db (fst (SaveAuditEntry fails newID now rec db))
| step_prune_audit fails cutoff : store_step may_prune db (fst (PruneAuditEntries fails cutoff db)).

(** The scans and their results are those of before. *)
Definition scans_kept (db db' : Db) : Prop := db_scans db' = db_scans db /\ db_results db' = db_results db.

Lemma single_kept what fails run db : (forall db', run db = inl db' -> scans_kept db db') -> scans_kept db (fst (single what fails run db)).
Proof.
  intros H. unfold single. destruct (sql what run fails db) as [db'|] eqn:E; [|done]. apply sql_ok in E as [_ E]. by apply H.
Qed.


(** ** The invariant of the tables *)

(** Every reference resolves: results to their scan, members to their group, and the
    clusters of a scan to the clusters known. *)
Record consistent (db : Db) : Prop := {
  cn_results : forall i c s row, db_results db !! (i, c, s) = Some row -> is_Some (db_scans db !! i);
  cn_members : forall g c, (g, c) ∈ db_members db -> g ∈ db_groups db;
  cn_clusters : forall i row c, db_scans db !! i = Some row -> c ∈ sr_Clusters row -> is_Some (db_clusters db !! c) }.

Lemma consistent_empty : consistent empty_db.
Proof. split; set_solver. Qed.

(** The tables a step leaves alone do not matter. *)
Lemma consistent_ext db db' : db_scans db' = db_scans db -> db_results db' = db_results db -> db_clusters db' = db_clusters db ->
  db_groups db' = db_groups db -> db_members db' = db_members db -> consistent db -> consistent db'.
Proof. intros E1 E2 E3 E4 E5 [H1 H2 H3]. split; rewrite ?E1, ?E2, ?E3, ?E4, ?E5; done. Qed.

Lemma consistent_members f db : (forall g c, (g, c) ∈ f (db_members db) -> g ∈ db_groups db) -> consistent db -> consistent (set_membership f db).
Proof. intros H [H1 H2 H3]. by split. Qed.

Lemma single_consistent what fails run db : (forall db', run db = inl db' -> consistent db') -> consistent db -> consistent (fst (single what fails run db)).
Proof. intros H Hc. unfold single. destruct (sql what run fails db) as [db'|] eqn:E; [|done]. apply sql_ok in E as [_ E]. by apply H. Qed.

Lemma delete_scans_lookup old db i row : db_scans (delete_scans old db) !! i = Some row <-> db_scans db !! i = Some row /\ old i row = false.
Proof. cbn. rewrite map_lookup_filter_Some. cbn. by rewrite negb_true_iff. Qed.

Lemma delete_scans_results old db i c s rr : db_results (delete_scans old db) !! (i, c, s) = Some rr <->
  db_results db !! (i, c, s) = Some rr /\ exists row, db_scans db !! i = Some row /\ old i row = false.
Proof.
  cbn. rewrite map_lookup_filter_Some. cbn. rewrite elem_of_dom. split; (intros [H1 [row H2]]; split; [done|exists row]).
  - apply map_lookup_filter_Some in H2 as [H2 H3]. cbn in H3. by rewrite negb_true_iff in H3.
  - destruct H2 as [H2 H3]. apply map_lookup_filter_Some. cbn. by rewrite H3.
Qed.

Lemma step_consistent may_prune db db' : store_step may_prune db db' -> consistent db -> consistent db'.
Proof.
  intros Hstep Hc. pose proof Hc as [H1 H2 H3]. destruct Hstep.
  - pose proof (save_scan_effect fails newID now arrange rec results db H) as He. cbn zeta in He.
    destruct (SaveScanRecord _ _ _ _ _ _ _) as [db' [id'|]]; cbn [fst]; [|by subst]. destruct He as (_ & Hf & rs & cs & -> & Hrs & Hcs).
    split; cbn.
    + intros i c s row Hi. apply Hrs in Hi as [Hi|[-> _]]; [|rewrite lookup_insert_eq; eauto].
      apply lookup_insert_is_Some'. right. by eapply H1.
    + done.
    + intros i row c Hi Hin. rewrite Hcs. case_bool_decide; [eauto|]. apply lookup_insert_Some in Hi as [[<- <-]|[_ Hi]]; [done|by eapply H3].
  - destruct fails; [done|]. split; cbn [fst].
    + intros i c s rr (_ & row & Hs)%delete_scans_results. exists row. by apply delete_scans_lookup.
    + exact H2.
    + intros i row c [Hi _]%delete_scans_lookup Hin. by eapply H3.
  - pose proof (save_group_effect fails name clusters db) as He. destruct (SaveGroup fails name clusters db) as [db' [e|]]; cbn [fst]; [by subst|].
    destruct He as (_ & ->). split; cbn; [done| |done]. intros g c Hin. apply elem_of_union in Hin as [Hin|Hin].
    + apply elem_of_list_to_set, list_elem_of_In, in_map_iff in Hin as (c' & [= <- <-] & _). set_solver.
    + apply elem_of_filter in Hin as [_ Hin]. apply elem_of_union_r. by eapply H2.
  - destruct fails; [done|]. unfold DeleteGroup. case_bool_decide; [|done]. split; cbn; [done| |done]. intros g c Hin.
    apply elem_of_filter in Hin as [Hn Hin]. cbn in Hn. pose proof (H2 g c Hin). set_solver.
  - destruct fails; [done|]. unfold AddClusterToGroup. case_bool_decide; [done|]. case_bool_decide; [|done]. apply consistent_members; [|done].
    intros g c Hin. cbn in Hin. apply elem_of_union in Hin as [Hin|Hin]; [|by eapply H2]. apply elem_of_singleton in Hin. congruence.
  - destruct fails; [done|]. apply consistent_members; [|done]. intros g c Hin. apply (H2 g c). set_solver.
  - apply single_consistent; [|done]. by intros db' [= <-].
  - apply single_consistent; [|done]. by intros db' [= <-].
  - unfold SetClusterTag. destruct (_ || _); [done|]. apply single_consistent; [|done]. by intros db' [= <-].
  - apply single_consistent; [|done]. by intros db' [= <-].
  - apply single_consistent; [|done]. intros db'. destruct (db_audit db !! _); [done|]. by intros [= <-].
  - destruct fails; [done|]. by split.
Qed.

(** C6: whatever is done to a new database, and whichever statements fail, every result belongs to
    a scan that is stored, every member to a group that exists, and every cluster of a stored
    scan is known. *)
Theorem store_consistent db : rtc (store_step (fun _ => True)) empty_db db -> consistent db.
Proof. apply rtc_ind_r; [apply consistent_empty|]. intros db1 db2 _ Hs Hc. by eapply step_consistent. Qed.

(** ** Scans stay as they were saved *)

(** Cutoffs no later than the scan. *)
Definition spares (ts cutoff : Z) : Prop := 0 <= cutoff < last_instant /\ cutoff / Second <= ts / Second.

Lemma older_than_compare cutoff id row : 0 <= sr_Timestamp row < last_instant -> 0 <= cutoff < last_instant ->
  older_than cutoff id row = (sr_Timestamp row / Second <? cutoff / Second).
Proof.
  intros H1 H2. unfold older_than, str_ltb. rewrite rfc3339_compare by done. unfold Z.ltb. by destruct (_ ?= _).
Qed.

Lemma step_keeps_scan may_prune db db' id row results : (forall c, may_prune c -> spares (sr_Timestamp row) c) ->
  0 <= sr_Timestamp row < last_instant -> store_step may_prune db db' ->
  stored_as id row results db -> stored_as id row results db'.
Proof.
  intros Hp Hts Hstep [Hs Hr].
  assert (Hkept : forall db', scans_kept db db' -> stored_as id row results db') by (intros db1 [E1 E2]; split; [by rewrite E1|intros; by rewrite E2]).
  destruct Hstep.
  - pose proof (save_scan_effect fails newID now arrange rec results0 db H) as He. cbn zeta in He.
    destruct (SaveScanRecord _ _ _ _ _ _ _) as [db' [id'|]]; cbn [fst]; [|by subst]. destruct He as (_ & Hf & rs & cs & -> & Hrs & _).
    set (id0 := if String.eqb _ _ then _ else _) in *. assert (id <> id0) by (intros ->; congruence). split; cbn.
    + by rewrite lookup_insert_ne by done.
    + intros c s rr. rewrite Hrs, <- Hr. naive_solver.
  - destruct fails; [done|]. cbn [fst Prune]. specialize (Hp _ H) as [Hc Hle]. split.
    + apply delete_scans_lookup. split; [done|]. rewrite older_than_compare by done. by apply Z.ltb_ge.
    + intros c s rr. rewrite delete_scans_results, Hr. split; [by intros [? _]|]. intros Hx. split; [done|]. exists row. split; [done|].
      rewrite older_than_compare by done. by apply Z.ltb_ge.
  - apply Hkept. pose proof (save_group_effect fails name clusters db) as He. destruct (SaveGroup fails name clusters db) as [db' [e|]]; cbn [fst]; [by subst|].
    by destruct He as (_ & ->).
  - apply Hkept. unfold DeleteGroup. destruct fails; [done|]. by case_bool_decide.
  - apply Hkept. unfold AddClusterToGroup. destruct fails; [done|]. case_bool_decide; [done|]. by case_bool_decide.
  - apply Hkept. by destruct fails.
  - apply Hkept, single_kept. by intros db' [= <-].
  - apply Hkept, single_kept. by intros db' [= <-].
  - apply Hkept. unfold SetClusterTag. destruct (_ || _); [done|]. apply single_kept. by intros db' [= <-].
  - apply Hkept, single_kept. by intros db' [= <-].
  - apply Hkept, single_kept. intros db'. destruct (db_audit db !! _); [done|]. by intros [= <-].
  - apply Hkept. by destruct fails.
Qed.

Lemma fresh_scan_stored fails newID now arrange rec results db db' id : (forall l, arrange l ≡ₚ l) -> consistent db ->
  SaveScanRecord fails newID now arrange rec results db = (db', inl id) -> stored_as id (scan_row_of now rec results) results db'.
Proof.
  intros Harr Hc Hsave. pose proof (save_scan_effect fails newID now arrange rec results db Harr) as He. cbn zeta in He. rewrite Hsave in He.
  destruct He as (-> & Hf & rs & cs & -> & Hrs & _). set (id0 := if String.eqb _ _ then _ else _) in *. split; cbn; [by rewrite lookup_insert_eq|].
  intros c s rr. rewrite Hrs. split; [intros [Hin|[_ H]]; [|done]|by right].
  apply (cn_results db Hc) in Hin. rewrite Hf in Hin. by destruct Hin.
Qed.

(** C14: a scan that was saved reads back as it was saved, its time in whole seconds, until scans of
    its time are pruned: whatever else is saved, changed, deleted or fails meanwhile. *)
Theorem saved_scan_reads_back (Unmarshal : string -> json + string) fails newID now arrange rec results db db1 db2 id :
  (forall l, arrange l ≡ₚ l) -> consistent db -> storable_results Unmarshal results ->
  0 <= sr_Timestamp (scan_row_of now rec results) < last_instant ->
  SaveScanRecord fails newID now arrange rec results db = (db1, inl id) ->
  rtc (store_step (spares (sr_Timestamp (scan_row_of now rec results)))) db1 db2 ->
  GetScan None id db2 = inl (scan_record id (scan_row_of now rec results)) /\
  GetScanResults Unmarshal None id db2 = inl (with_rows results).
Proof.
  intros Harr Hc Hst Hts Hsave Hrun. apply (stored_reads_back Unmarshal); [done|].
  pose proof (fresh_scan_stored _ _ _ _ _ _ _ _ _ Harr Hc Hsave) as H. clear Hsave. revert H.
  induction Hrun as [|x y z Hs _ IH]; [done|]. intros H. apply IH. eapply step_keeps_scan; [|done|exact Hs|exact H]. done.
Qed.

(** C22: a scan is saved whole or not at all: when it cannot be saved, for any statement that fails
    and any datum that does not marshal, the tables are as before; when it is, the id is new, the
    scan has its row, a row of results for each result and no other, and its clusters are known,
    seen for the first time no later than before. *)
Theorem scan_saved_whole fails newID now arrange rec results db : (forall l, arrange l ≡ₚ l) -> consistent db ->
  match SaveScanRecord fails newID now arrange rec results db with
  | (db', inr _) => db' = db
  | (db', inl id) =>
      db_scans db !! id = None /\ stored_as id (scan_row_of now rec results) results db' /\
      (forall i, i <> id -> db_scans db' !! i = db_scans db !! i /\ forall c s, db_results db' !! (i, c, s) = db_results db !! (i, c, s)) /\
      (forall c, c ∈ sn_Clusters rec -> exists first, db_clusters db' !! c = Some (first, sr_Timestamp (scan_row_of now rec results)) /\
         forall seen, db_clusters db !! c = Some seen -> first = fst seen) /\
      db_members db' = db_members db /\ db_groups db' = db_groups db /\ db_tags db' = db_tags db /\ db_locations db' = db_locations db /\
      db_audit db' = db_audit db
  end.
Proof.
  intros Harr Hc. destruct (SaveScanRecord fails newID now arrange rec results db) as [db' [id|e]] eqn:Hsave;
    pose proof (save_scan_effect fails newID now arrange rec results db Harr) as He; cbn zeta in He; rewrite Hsave in He; [|done].
  pose proof (fresh_scan_stored _ _ _ _ _ _ _ _ _ Harr Hc Hsave) as Hst.
  destruct He as (-> & Hf & rs & cs & -> & Hrs & Hcs). set (id0 := if String.eqb _ _ then _ else _) in *.
  split; [done|]. split; [done|]. split; [|split; [|done]].
  - intros i Hi. cbn. split; [by rewrite lookup_insert_ne|]. intros c s. apply option_eq. intros row. rewrite Hrs. naive_solver.
  - intros c Hin. cbn [set_clusters db_clusters]. rewrite Hcs, bool_decide_eq_true_2 by done. eexists. split; [reflexivity|]. by intros seen ->.
Qed.

End Saved.

(** ** Pruning and listing *)

(** The times stored are whole seconds of the years 1 to 9999. *)
Definition dated (db : Db) : Prop := forall i row, db_scans db !! i = Some row ->
  0 <= sr_Timestamp row < last_instant /\ sr_Timestamp row mod Second = 0.

Lemma seconds_le a b : a mod Second = 0 -> b / Second <= a / Second <-> stored_time b <= a.
Proof. intros Ha. unfold stored_time, Second in *. Z.to_euclidean_division_equations. lia. Qed.

Lemma size_split {K A} `{Countable K} (p : K * A -> bool) (m : gmap K A) :
  size m = (size (filter (fun e => negb (p e) = true) m) + size (filter (fun e => p e = true) m))%nat.
Proof.
  assert (filter (fun e => negb (p e) = true) m ##ₘ filter (fun e => p e = true) m) as Hd.
  { apply map_disjoint_spec. intros k x y [Hx H1]%map_lookup_filter_Some [Hy H2]%map_lookup_filter_Some.
    rewrite Hx in Hy. injection Hy as ->. by rewrite H2 in H1. }
  rewrite <- map_size_disj_union by exact Hd. f_equal. apply map_eq. intros k. destruct (m !! k) as [x|] eqn:E.
  - symmetry. apply lookup_union_Some; [done|]. rewrite !map_lookup_filter_Some, E. destruct (p (k, x)) eqn:Ep; [right|left]; rewrite ?Ep; done.
  - symmetry. apply lookup_union_None. rewrite !map_lookup_filter_None. split; by left.
Qed.

(** C23: pruning deletes exactly the scans stored before the cutoff, with their results, and counts
    them; nothing else changes. *)
Theorem pruned_exactly db cutoff db' n : dated db -> 0 <= cutoff < last_instant -> Prune None cutoff db = (db', inl n) ->
  (forall i row, db_scans db' !! i = Some row <-> db_scans db !! i = Some row /\ stored_time cutoff <= sr_Timestamp row) /\
  (forall i c s rr, db_results db' !! (i, c, s) = Some rr <-> db_results db !! (i, c, s) = Some rr /\ is_Some (db_scans db' !! i)) /\
  size (db_scans db) = (size (db_scans db') + n)%nat /\
  db_clusters db' = db_clusters db /\ db_groups db' = db_groups db /\ db_members db' = db_members db.
Proof.
  intros Hd Hc [= <- <-].
  assert (Hold : forall i row, db_scans db !! i = Some row -> older_than cutoff i row = false <-> stored_time cutoff <= sr_Timestamp row).
  { intros i row Hi. destruct (Hd i row Hi) as [H1 H2]. rewrite older_than_compare, Z.ltb_ge by done. by apply seconds_le. }
  assert (Hs : forall i row, db_scans (delete_scans (older_than cutoff) db) !! i = Some row <-> db_scans db !! i = Some row /\ stored_time cutoff <= sr_Timestamp row).
  { intros i row. rewrite delete_scans_lookup. split; (intros [H1 H2]; split; [done|]); by eapply Hold. }
  split; [exact Hs|]. split; [|split; [apply (size_split (fun e => older_than cutoff (fst e) (snd e)))|done]].
  intros i c s rr. rewrite delete_scans_results. split; (intros [H1 [row H2]]; split; [done|exists row]).
  - apply delete_scans_lookup. done.
  - by apply delete_scans_lookup in H2.
Qed.

(** The newer of two scans, by time and then by id. *)
Definition newer (a b : ScanRecord) : Prop :=
  sn_Timestamp b < sn_Timestamp a \/ sn_Timestamp a = sn_Timestamp b /\ str_ltb (sn_ID b) (sn_ID a) = true.

Lemma elem_of_all_scans db r : r ∈ all_scans db <-> exists row, db_scans db !! sn_ID r = Some row /\ r = scan_record (sn_ID r) row.
Proof.
  unfold all_scans. rewrite list_elem_of_In, in_map_iff. split.
  - intros ([i row] & <- & Hin). apply list_elem_of_In, elem_of_map_to_list in Hin. by exists row.
  - intros (row & Hs & ->). exists (sn_ID r, row). split; [done|]. by apply list_elem_of_In, elem_of_map_to_list.
Qed.

Lemma all_scans_NoDup db : NoDup (map sn_ID (all_scans db)).
Proof. unfold all_scans. rewrite map_map. apply NoDup_fst_map_to_list. Qed.

Lemma newest_newer db a b : dated db -> a ∈ all_scans db -> b ∈ all_scans db -> sn_ID a <> sn_ID b -> cmp_le newest_cmp a b -> newer a b.
Proof.
  intros Hd Ha Hb Hne Hle. apply elem_of_all_scans in Ha as (ra & Ha & Ea), Hb as (rb & Hb & Eb).
  destruct (Hd _ _ Ha) as [Ta Ma], (Hd _ _ Hb) as [Tb Mb]. assert (sn_Timestamp a = sr_Timestamp ra) as Ea' by by rewrite Ea.
  assert (sn_Timestamp b = sr_Timestamp rb) as Eb' by by rewrite Eb.
  unfold cmp_le, newest_cmp, cmp_lex, cmp_rev, cmp_on, text_cmp, cmp_on, cmp_then in Hle. rewrite Ea', Eb' in Hle.
  rewrite rfc3339_compare in Hle by done. unfold newer. rewrite Ea', Eb'.
  destruct (Z.compare_spec (sr_Timestamp rb / Second) (sr_Timestamp ra / Second)) as [E|Hlt|Hgt]; [right|left|done].
  - split; [unfold Second in *; Z.to_euclidean_division_equations; lia|]. unfold str_ltb.
    destruct (String.compare (sn_ID b) (sn_ID a)) eqn:Ec; [|done|done]. apply string_compare_antisym in Ec. congruence.
  - unfold Second in *; Z.to_euclidean_division_equations; lia.
Qed.

Lemma sorted_newer db l : dated db -> (forall r, r ∈ l -> r ∈ all_scans db) -> NoDup (map sn_ID l) ->
  StronglySorted (cmp_le newest_cmp) l -> StronglySorted newer l.
Proof.
  intros Hd Hin Hnd Hs. induction Hs as [|x l Hs IH Hx]; constructor.
  - cbn [map] in Hnd. apply NoDup_cons in Hnd as [_ Hnd]. apply IH; [set_solver|done].
  - cbn [map] in Hnd. apply NoDup_cons in Hnd as [Hni _]. rewrite Forall_forall in Hx |- *. intros y Hy.
    apply (newest_newer db); [done|apply Hin; by left|apply Hin; by right| |by apply Hx]. intros E. apply Hni. rewrite E.
    apply list_elem_of_In, in_map_iff. exists y. split; [done|]. by apply list_elem_of_In.
Qed.

Lemma sorted_app_before {A} (R : A -> A -> Prop) l1 l2 x y : StronglySorted R (l1 ++ l2) -> x ∈ l1 -> y ∈ l2 -> R x y.
Proof.
  intros Hs Hx Hy. induction l1 as [|z l1 IH]; [by apply not_elem_of_nil in Hx|]. inversion Hs as [|? ? Hs' Hz]; subst.
  apply elem_of_cons in Hx as [->|Hx]; [|by apply IH]. rewrite Forall_forall in Hz. apply Hz, elem_of_app. by right.
Qed.

(** The scans are listed newest first, by time and then by id, as many as asked for: each
    listed is stored, and each stored scan left out is older than every one listed, which are then
    as many as the limit. *)
Theorem scans_listed db limit l : dated db -> 0 <= limit -> ListScans None limit db = inl l ->
  StronglySorted newer l /\ (forall r, r ∈ l -> GetScan None (sn_ID r) db = inl r) /\
  (forall id r, GetScan None id db = inl r -> r ∉ l -> Z.of_nat (length l) = limit /\ forall x, x ∈ l -> newer x r).
Proof.
  intros Hd Hlim [= <-]. unfold sql_limit. destruct (Z.ltb_spec limit 0); [lia|].
  set (all := isort (less_of newest_cmp) (all_scans db)). assert (Hp : all ≡ₚ all_scans db) by apply isort_perm.
  assert (Hs : StronglySorted newer all).
  { apply (sorted_newer db); [done|intros r; by rewrite Hp|rewrite Hp; apply all_scans_NoDup|apply isort_sorted; exact _]. }
  rewrite <- (take_drop (Z.to_nat limit) all) in Hs at 1. split; [|split].
  - clear -Hs. revert Hs. generalize (drop (Z.to_nat limit) all). intros l2. induction (take (Z.to_nat limit) all) as [|x l IH]; intros Hs; [constructor|].
    inversion Hs as [|? ? Hs' Hx]; subst. constructor; [by apply IH|]. apply Forall_app in Hx. by destruct Hx.
  - intros r Hr. apply elem_of_take in Hr as (k & Hr & _). apply list_elem_of_lookup_2 in Hr. rewrite Hp in Hr.
    apply elem_of_all_scans in Hr as (row & Hrow & E). unfold GetScan. rewrite Hrow. by rewrite <- E.
  - intros id r Hget Hni. unfold GetScan in Hget. destruct (db_scans db !! id) as [row|] eqn:Er; [|done]. injection Hget as <-.
    assert (scan_record id row ∈ all) as Hin by (rewrite Hp; apply elem_of_all_scans; by exists row).
    rewrite <- (take_drop (Z.to_nat limit) all) in Hin. apply elem_of_app in Hin as [|Hin]; [done|]. split.
    + rewrite length_take. assert (0 < length (drop (Z.to_nat limit) all))%nat by (destruct (drop _ _); [by apply not_elem_of_nil in Hin|cbn; lia]).
      rewrite length_drop in *. lia.
    + intros x Hx. by eapply sorted_app_before.
Qed.

(** A range given in UTC lists exactly the scans of its seconds, newest first. *)
Theorem range_exact db start end_ l : dated db -> 0 <= start < last_instant -> 0 <= end_ < last_instant ->
  GetScansByTimeRange None 0 start 0 end_ db = inl l ->
  StronglySorted newer l /\
  forall r, r ∈ l <-> GetScan None (sn_ID r) db = inl r /\ stored_time start <= sn_Timestamp r <= stored_time end_.
Proof.
  intros Hd Hs He Hl. set (l0 := List.filter (in_range 0 start 0 end_) (all_scans db)).
  assert (l = isort (less_of newest_cmp) l0) as -> by (unfold GetScansByTimeRange in Hl; fold l0 in Hl; congruence). clear Hl. rename l0 into l. assert (Hin : forall r, r ∈ l -> r ∈ all_scans db).
  { intros r. unfold l. rewrite !list_elem_of_In, filter_In. tauto. }
  split.
  - apply (sorted_newer db); [done|intros r; rewrite isort_perm; apply Hin| |apply isort_sorted; exact _]. rewrite isort_perm.
    pose proof (all_scans_NoDup db) as Hnd. unfold l. revert Hnd. clear.
    generalize (in_range 0 start 0 end_). intros p. induction (all_scans db) as [|r l IH]; intros Hnd; [constructor|]. cbn [map] in Hnd. apply NoDup_cons in Hnd as [Hni Hnd].
    cbn [List.filter]. destruct (p r); [|by apply IH]. cbn [map]. apply NoDup_cons. split; [|by apply IH]. intros Hr. apply Hni.
    apply list_elem_of_In, in_map_iff in Hr as (r' & E & Hr'). apply filter_In in Hr' as [Hr' _]. apply list_elem_of_In, in_map_iff. by exists r'.
  - intros r. rewrite isort_perm. unfold l. rewrite list_elem_of_In, filter_In, <- list_elem_of_In, elem_of_all_scans.
    unfold in_range. rewrite !rfc3339_in_utc. unfold GetScan. split.
    + intros [(row & Hrow & E) Hw]. rewrite Hrow, <- E. split; [done|]. destruct (Hd _ _ Hrow) as [Ht Hm].
      assert (sn_Timestamp r = sr_Timestamp row) as Et by by rewrite E. rewrite Et in *. unfold str_ltb in Hw. rewrite !rfc3339_compare in Hw by done.
      unfold stored_time, Second in *.
      destruct (Z.compare_spec (sr_Timestamp row / 1000000000) (start / 1000000000)), (Z.compare_spec (end_ / 1000000000) (sr_Timestamp row / 1000000000));
        try done; Z.to_euclidean_division_equations; lia.
    + intros [Hget Hr]. destruct (db_scans db !! sn_ID r) as [row|] eqn:Hrow; [|done]. injection Hget as E. split; [by exists row|].
      destruct (Hd _ _ Hrow) as [Ht Hm]. assert (sn_Timestamp r = sr_Timestamp row) as Et by by rewrite <- E. rewrite Et in *.
      unfold str_ltb. rewrite !rfc3339_compare by done. unfold stored_time, Second in *.
      destruct (Z.compare_spec (sr_Timestamp row / 1000000000) (start / 1000000000)), (Z.compare_spec (end_ / 1000000000) (sr_Timestamp row / 1000000000));
        try done; exfalso; Z.to_euclidean_division_equations; lia.
Qed.

(** ** Groups are sets of clusters *)

(** What the two tables say: the clusters of a group, if it exists. *)
Definition group_members (db : Db) (g : string) : gset string := set_map snd (filter (fun m => fst m = g) (db_members db)).
Definition group_view (db : Db) (g : string) : option (gset string) := if decide (g ∈ db_groups db) then Some (group_members db g) else None.

Definition names_of (s : gset string) : list string := sort_strings (elements s).

Lemma elem_of_members db g c : c ∈ group_members db g <-> (g, c) ∈ db_members db.
Proof.
  unfold group_members. rewrite elem_of_map. split.
  - intros ([g' c'] & -> & [Hg Hm]%elem_of_filter). cbn in Hg. by subst.
  - intros Hm. exists (g, c). split; [done|]. by apply elem_of_filter.
Qed.

Lemma sorted_set_unique (l : list string) (s : gset string) : NoDup l -> StronglySorted (cmp_le String.compare) l ->
  (forall c, c ∈ l <-> c ∈ s) -> l = names_of s.
Proof.
  intros Hnd Hs Hin. apply (sorted_unique String.compare); [|done|apply isort_sorted; exact _|].
  - intros x y _ _. apply string_compare_antisym.
  - unfold names_of. rewrite sort_strings_perm. apply NoDup_Permutation; [done|apply NoDup_elements|]. intros c. by rewrite elem_of_elements.
Qed.

Lemma StronglySorted_omap {A B} (R : A -> A -> Prop) (S : B -> B -> Prop) (f : A -> option B) l : StronglySorted R l ->
  (forall x y a b, R x y -> f x = Some a -> f y = Some b -> S a b) -> StronglySorted S (omap f l).
Proof.
  intros Hs Hf. induction Hs as [|x l _ IH Hx]; cbn [omap list_omap]; [constructor|]. destruct (f x) as [a|] eqn:E; [|done].
  constructor; [done|]. apply Forall_forall. intros b (y & Hy & Eb)%list_elem_of_omap.
  eapply Hf; [exact (proj1 (Forall_forall _ _) Hx y Hy)|done|done].
Qed.

Lemma omap_NoDup {A B} (f : A -> option B) l : NoDup l -> (forall x y b, f x = Some b -> f y = Some b -> x = y) -> NoDup (omap f l).
Proof.
  intros Hnd Hf. induction Hnd as [|x l Hni _ IH]; cbn [omap list_omap]; [constructor|]. destruct (f x) as [b|] eqn:E; [|done].
  apply NoDup_cons. split; [|done]. intros (y & Hy & Ey)%list_elem_of_omap. by rewrite (Hf _ _ _ E Ey) in Hni.
Qed.

Definition sorted_members (db : Db) : list (string * string) := isort (less_of member_cmp) (elements (db_members db)).

Lemma sorted_members_spec db : NoDup (sorted_members db) /\ StronglySorted (cmp_le member_cmp) (sorted_members db) /\
  forall m, m ∈ sorted_members db <-> m ∈ db_members db.
Proof.
  unfold sorted_members. split; [rewrite isort_perm; apply NoDup_elements|]. split; [apply isort_sorted; exact _|].
  intros m. rewrite isort_perm. apply elem_of_elements.
Qed.

Lemma by_group_names db g : default [] (fst (scanMemberships (sorted_members db)) !! g) = names_of (group_members db g).
Proof.
  destruct (sorted_members_spec db) as (Hnd & Hs & Hin). cbn [scanMemberships fst]. rewrite file_under_lookup.
  set (l := omap _ _). assert (l = names_of (group_members db g)) as <-; [|by destruct l]. apply sorted_set_unique.
  - apply omap_NoDup; [done|]. intros [a b] [a' b'] c. cbn. destruct (decide (a = g)), (decide (a' = g)); naive_solver.
  - eapply StronglySorted_omap; [exact Hs|]. intros [a b] [a' b'] c c' Hle. cbn. destruct (decide (a = g)) as [->|]; [|done].
    destruct (decide (a' = g)) as [->|]; [|done]. intros [= ->] [= ->]. unfold cmp_le, member_cmp, cmp_lex, cmp_on, cmp_then in *. cbn in Hle.
    by rewrite (cmp_refl (c := String.compare)) in Hle.
  - intros c. unfold l. rewrite list_elem_of_omap, elem_of_members. split.
    + intros ([a b] & Hm & He). cbn in He. destruct (decide (a = g)) as [->|]; [|done]. injection He as ->. by apply Hin.
    + intros Hm. exists (g, c). split; [by apply Hin|]. cbn. by rewrite decide_True.
Qed.

Lemma map_StronglySorted {A B} (f : A -> B) (S : B -> B -> Prop) l : StronglySorted (fun x y => S (f x) (f y)) l -> StronglySorted S (map f l).
Proof. intros H. eapply StronglySorted_map; [|exact H]. done. Qed.

Lemma by_cluster_names db c : default [] (snd (scanMemberships (sorted_members db)) !! c) = names_of (set_map fst (filter (fun m => snd m = c) (db_members db))).
Proof.
  destruct (sorted_members_spec db) as (Hnd & Hs & Hin). cbn [scanMemberships snd]. rewrite file_under_lookup, omap_map. cbn.
  set (l := omap _ _). assert (l = names_of (set_map fst (filter (fun m => snd m = c) (db_members db)))) as <-; [|by destruct l]. apply sorted_set_unique.
  - apply omap_NoDup; [done|]. intros [a b] [a' b'] g. cbn. destruct (decide (b = c)), (decide (b' = c)); naive_solver.
  - eapply StronglySorted_omap; [exact Hs|]. intros [a b] [a' b'] g g' Hle. cbn. destruct (decide (b = c)) as [->|]; [|done].
    destruct (decide (b' = c)) as [->|]; [|done]. intros [= ->] [= ->]. unfold cmp_le, member_cmp, cmp_lex, cmp_on, cmp_then in *. cbn in Hle.
    by destruct (String.compare g g').
  - intros g. unfold l. rewrite list_elem_of_omap, elem_of_map. split.
    + intros ([a b] & Hm & He). cbn in He. destruct (decide (b = c)) as [->|]; [|done]. injection He as ->. exists (g, c). split; [done|].
      apply elem_of_filter. split; [done|]. by apply Hin.
    + intros ([g' c'] & -> & [Hc Hm]%elem_of_filter). cbn in Hc. subst c'. exists (g', c). split; [by apply Hin|]. cbn. by rewrite decide_True.
Qed.

Lemma groups_listed db : exists l, ListGroups None None db = inl l /\ map gr_Name l = names_of (db_groups db) /\
  forall r, r ∈ l -> group_view db (gr_Name r) = Some (group_members db (gr_Name r)) /\ gr_Clusters r = names_of (group_members db (gr_Name r)).
Proof.
  eexists. split; [reflexivity|]. split; [by rewrite map_map, map_id|]. intros r (g & -> & Hg)%list_elem_of_fmap. cbn.
  unfold names_of in Hg. rewrite sort_strings_perm, elem_of_elements in Hg. unfold group_view. rewrite decide_True by done. split; [done|].
  apply (by_group_names db).
Qed.

Lemma saved_group_view db g clusters g' :
  group_view (set_membership (fun s => list_to_set (map (pair g) clusters) ∪ filter (fun m => fst m <> g) s) (set_groups (fun s => {[g]} ∪ s) db)) g' =
  if decide (g' = g) then Some (list_to_set clusters) else group_view db g'.
Proof.
  unfold group_view. cbn [set_membership set_groups db_groups]. destruct (decide (g' = g)) as [->|Hne].
  - rewrite decide_True by set_solver. f_equal. apply set_eq. intros c. rewrite elem_of_members. cbn.
    rewrite elem_of_union, elem_of_filter, !elem_of_list_to_set, list_elem_of_In, in_map_iff, list_elem_of_In. cbn. naive_solver.
  - assert (g' ∈ {[g]} ∪ db_groups db <-> g' ∈ db_groups db) as Hg by set_solver.
    destruct (decide (g' ∈ db_groups db)); [rewrite decide_True by by apply Hg|by rewrite decide_False by by rewrite Hg]. f_equal. apply set_eq.
    intros c. rewrite !elem_of_members. cbn. rewrite elem_of_union, elem_of_filter, elem_of_list_to_set, list_elem_of_In, in_map_iff. cbn. naive_solver.
Qed.

(** To a reader the groups are a map from names to sets of clusters: one group reads as its
    members in order, or is not found, the list has every group once by name, and each cluster
    carries the groups that hold it. *)
Theorem groups_read_as_sets db : consistent db ->
  (forall g, GetGroup None None g db = match group_view db g with
     | Some s => inl {| gr_Name := g; gr_Clusters := names_of s |}
     | None => inr (ErrNotFound ("group " ++ g)%string)
     end) /\
  (exists l, ListGroups None None db = inl l /\ map gr_Name l = names_of (db_groups db) /\
     forall r, r ∈ l -> group_view db (gr_Name r) = Some (group_members db (gr_Name r)) /\ gr_Clusters r = names_of (group_members db (gr_Name r))) /\
  (exists l, ListClusters None None db = inl l /\ (forall name, name ∈ map cl_Name l <-> is_Some (db_clusters db !! name)) /\
     forall r, r ∈ l -> NoDup (cl_Groups r) /\ StronglySorted (cmp_le String.compare) (cl_Groups r) /\
       forall g, g ∈ cl_Groups r <-> exists s, group_view db g = Some s /\ cl_Name r ∈ s).
Proof.
  intros Hc. split; [|split].
  - intros g. unfold GetGroup, group_view. case_bool_decide as E; [rewrite decide_True by done|by rewrite decide_False]. cbn.
    do 2 f_equal. unfold names_of. apply sort_strings_perm_eq. apply NoDup_Permutation; [|apply NoDup_elements|].
    + pose proof (NoDup_elements (db_members db)) as Hnd. induction Hnd as [|[a b] l Hni _ IH]; cbn; [constructor|].
      destruct (String.eqb_spec a g) as [->|]; [|done]. cbn. apply NoDup_cons. split; [|done]. intros Hin. apply Hni.
      apply list_elem_of_In, in_map_iff in Hin as ([a' b'] & Eb & Hin). cbn in Eb. subst b'. apply filter_In in Hin as [Hin Ea]. cbn in Ea.
      apply String.eqb_eq in Ea as ->. by apply list_elem_of_In.
    + intros c. rewrite elem_of_elements, elem_of_members, list_elem_of_In, in_map_iff. split.
      * intros ([a b] & Eb & Hin). cbn in Eb. subst b. apply filter_In in Hin as [Hin Ea]. cbn in Ea. apply String.eqb_eq in Ea as ->.
        apply list_elem_of_In in Hin. by apply elem_of_elements in Hin.
      * intros Hm. exists (g, c). split; [done|]. apply filter_In. split; [apply list_elem_of_In; by apply elem_of_elements|]. cbn. apply String.eqb_refl.
  - apply groups_listed.
  - eexists. split; [reflexivity|]. split.
    + intros name. rewrite map_map. cbn. rewrite list_elem_of_In, in_map_iff. split.
      * intros ([n x] & <- & Hin). apply list_elem_of_In in Hin. rewrite isort_perm in Hin. apply elem_of_map_to_list in Hin. by exists x.
      * intros [x Hx]. exists (name, x). split; [done|]. apply list_elem_of_In. rewrite isort_perm. by apply elem_of_map_to_list.
    + intros r ([name [f l]] & -> & Hin)%list_elem_of_fmap. cbn [cl_Groups cl_Name fst snd].
      pose proof (by_cluster_names db name) as Hn. cbn [scanMemberships snd] in Hn. fold (sorted_members db). rewrite Hn. unfold names_of.
      split; [apply sort_strings_NoDup, NoDup_elements|]. split; [apply isort_sorted; exact _|].
      intros g. rewrite sort_strings_perm, elem_of_elements, elem_of_map. unfold group_view. split.
      * intros ([g' c'] & -> & [Ec Hm]%elem_of_filter). cbn in Ec. subst c'. cbn. exists (group_members db g'). rewrite decide_True by by eapply cn_members.
        split; [done|]. by apply elem_of_members.
      * intros (s & Hs & Hm). destruct (decide (g ∈ db_groups db)); [|done]. injection Hs as <-. apply elem_of_members in Hm. exists (g, name).
        split; [done|]. by apply elem_of_filter.
Qed.

(** C21: the operations on groups are those on a map of sets: saving a group replaces its set, and is
    refused with nothing changed when a cluster is listed twice; deleting removes it, or is not
    found; adding and removing a cluster change one set, and adding to a group that does not
    exist is refused. *)
Theorem groups_refine_sets db g : consistent db ->
  (forall clusters,
     match SaveGroup (fun _ => None) g clusters db with
     | (db', None) => NoDup clusters /\ (forall g', group_view db' g' = if decide (g' = g) then Some (list_to_set clusters) else group_view db g')
     | (db', Some _) => ~ NoDup clusters /\ db' = db
     end) /\
  (match DeleteGroup None g db with
   | (db', None) => is_Some (group_view db g) /\ (forall g', group_view db' g' = if decide (g' = g) then None else group_view db g')
   | (db', Some e) => group_view db g = None /\ e = ErrNotFound ("group " ++ g)%string /\ db' = db
   end) /\
  (forall c,
     match AddClusterToGroup None g c db with
     | (db', None) => exists s, group_view db g = Some s /\ (forall g', group_view db' g' = if decide (g' = g) then Some ({[c]} ∪ s) else group_view db g')
     | (db', Some _) => group_view db g = None /\ db' = db
     end) /\
  (forall c, exists db', RemoveClusterFromGroup None g c db = (db', None) /\
     forall g', group_view db' g' = if decide (g' = g) then (fun s => s ∖ {[c]}) <$> group_view db g else group_view db g').
Proof.
  intros Hc. pose proof (cn_members db Hc) as Hm. split; [|split; [|split]].
  - intros clusters. pose proof (save_group_effect (fun _ => None) g clusters db) as He.
    destruct (SaveGroup (fun _ => None) g clusters db) as [db' [e|]] eqn:E.
    + split; [|done]. intros Hnd. unfold SaveGroup, transaction in E. cbn [app run_stmts] in E.
      cbn [insert_group sql clear_group] in E.
      assert (forall l n db0, NoDup l -> g ∈ db_groups db0 -> (forall c, c ∈ l -> (g, c) ∉ db_members db0) ->
        exists db1, run_stmts (fun _ => None) n (map (insert_member g) l) db0 = inl db1) as Hok.
      { intros l. induction l as [|c l IH]; intros n db0 Hl Hg Hni; [by eexists|]. apply NoDup_cons in Hl as [Hcl Hl]. cbn [map run_stmts].
        unfold insert_member at 1, sql. rewrite bool_decide_eq_false_2 by (apply Hni; by left). rewrite bool_decide_eq_true_2 by done.
        apply IH; [done|done|]. intros c' Hc'. cbn. assert (c' <> c) by (intros ->; done). specialize (Hni c' ltac:(by right)). set_solver. }
      destruct (Hok clusters 3%nat (set_membership (filter (fun m => fst m <> g)) (set_groups (fun s => {[g]} ∪ s) db)) Hnd) as [db1 Hdb1];
        [cbn; set_solver|cbn; intros c _; rewrite elem_of_filter; cbn; tauto|]. by rewrite Hdb1 in E.
    + destruct He as [Hnd ->]. split; [done|]. intros g'. apply saved_group_view.
  - unfold DeleteGroup. case_bool_decide as E; [|by unfold group_view; rewrite decide_False].
    split; [unfold group_view; rewrite decide_True by done; eauto|]. intros g'. unfold group_view. cbn [set_membership set_groups db_groups].
    destruct (decide (g' = g)) as [->|Hne]; [by rewrite decide_False by set_solver|].
    assert (g' ∈ db_groups db ∖ {[g]} <-> g' ∈ db_groups db) as Hg by set_solver.
    destruct (decide (g' ∈ db_groups db)); [rewrite decide_True by by apply Hg|by rewrite decide_False by by rewrite Hg]. f_equal. apply set_eq.
    intros c. rewrite !elem_of_members. cbn. rewrite elem_of_filter. cbn. tauto.
  - intros c. unfold AddClusterToGroup. case_bool_decide as E; [|case_bool_decide as E'].
    + assert (group_view db g = Some (group_members db g)) as Hv by (unfold group_view; by rewrite decide_True by by eapply Hm).
      exists (group_members db g). split; [done|]. intros g'. destruct (decide (g' = g)) as [->|]; [|done]. rewrite Hv. f_equal.
      apply elem_of_members in E. set_solver.
    + exists (group_members db g). split; [unfold group_view; by rewrite decide_True|]. intros g'. unfold group_view. cbn [set_membership db_groups].
      destruct (decide (g' = g)) as [->|Hne]; [rewrite decide_True by done|]; [|destruct (decide (g' ∈ db_groups db)); [|done]]; f_equal; apply set_eq;
        intros x; rewrite ?elem_of_union, !elem_of_members; cbn; set_solver.
    + unfold group_view. by rewrite decide_False.
  - intros c. eexists. split; [reflexivity|]. intros g'. unfold group_view. cbn [set_membership db_groups].
    destruct (decide (g' = g)) as [->|Hne]; (destruct (decide (_ ∈ db_groups db)); [|done]); cbn; f_equal; apply set_eq;
      intros x; rewrite ?elem_of_difference, !elem_of_members; cbn; set_solver.
Qed.

(** ** The theorems at work *)

Definition sample_marshal (j : json) : string + string := match j with JNull => inl "null" | _ => inr "unsupported value" end%string.
Definition sample_unmarshal (s : string) : json + string := if String.eqb s "null" then inl JNull else inr "unexpected end of JSON input"%string.

Definition ran (name : string) : Result := {| res_Scanner := name; res_State := StateOK; res_Reason := ""; res_Data := JNull |}.
Definition sample_results : Results := {["a"%string := {["nodes"%string := ran "nodes"]}; "b"%string := ∅]}.

Definition noon : Z := 739616 * Day + 12 * Hour.

Definition sample_rec : ScanRecord := {| sn_ID := "s1"; sn_Timestamp := noon; sn_Clusters := ["a"; "b"]; sn_Scanners := [] |}%string.

Definition sample_db : Db := fst (SaveScanRecord sample_marshal (fun _ => None) "" noon id sample_rec sample_results empty_db).

Lemma sample_storable : storable_results sample_marshal sample_unmarshal sample_results.
Proof.
  intros c m s r Hc Hs. unfold sample_results in Hc. apply lookup_insert_Some in Hc as [[<- <-]|[_ Hc]].
  - apply lookup_singleton_Some in Hs as [<- <-]. split; [done|]. by exists "null"%string.
  - apply lookup_singleton_Some in Hc as [<- <-]. by rewrite lookup_empty in Hs.
Qed.

Lemma store_consistent_sample : consistent sample_db.
Proof.
  refine (step_consistent sample_marshal (fun _ => True) empty_db sample_db _ consistent_empty).
  apply (step_save_scan sample_marshal (fun _ => True) empty_db (fun _ => None) "" noon id). done.
Qed.

Lemma store_consistent_witness : consistent sample_db.
Proof. apply (store_consistent sample_marshal sample_db). apply rtc_once. apply (step_save_scan sample_marshal). done. Defined.

Lemma saved_scan_reads_back_witness :
  GetScan None "s1" (fst (Prune None noon (fst (SaveGroup (fun _ => None) "eu" ["a"%string] sample_db)))) =
    inl (scan_record "s1" (scan_row_of noon sample_rec sample_results)).
Proof.
  refine (proj1 (saved_scan_reads_back sample_marshal sample_unmarshal (fun _ => None) "" noon id sample_rec sample_results empty_db sample_db _ "s1"
    (fun l => Permutation_refl l) consistent_empty sample_storable _ _ _)).
  - vm_compute. split; [discriminate|reflexivity].
  - vm_compute. reflexivity.
  - eapply rtc_l; [apply (step_save_group sample_marshal _ _ (fun _ => None) "eu" ["a"%string])|]. apply rtc_once. apply (step_prune sample_marshal).
    vm_compute. split; [split; [discriminate|reflexivity]|discriminate].
Defined.

Lemma scan_saved_whole_witness : db_scans empty_db !! "s1"%string = None.
Proof.
  pose proof (scan_saved_whole sample_marshal (fun _ => None) "" noon id sample_rec sample_results empty_db (fun l => Permutation_refl l) consistent_empty) as H.
  assert (snd (SaveScanRecord sample_marshal (fun _ => None) "" noon id sample_rec sample_results empty_db) = inl "s1"%string) as E by (vm_compute; reflexivity).
  destruct (SaveScanRecord _ _ _ _ _ _ _ _) as [db' [i|]]; [|discriminate]. injection E as ->. exact (proj1 H).
Defined.

Lemma sample_dated : dated sample_db.
Proof.
  intros i row H. assert (db_scans sample_db = {["s1"%string := scan_row_of noon sample_rec sample_results]}) as E by (vm_compute; reflexivity).
  rewrite E in H. apply lookup_singleton_Some in H as [<- <-]. vm_compute. split; [split; [discriminate|]|]; reflexivity.
Qed.

Lemma pruned_exactly_witness : size (db_scans sample_db) = 1%nat.
Proof.
  destruct (pruned_exactly sample_db (noon + Minute) (fst (Prune None (noon + Minute) sample_db)) 1 sample_dated) as (_ & _ & H & _);
    [vm_compute; split; [discriminate|reflexivity]|vm_compute; reflexivity|].
  rewrite H. vm_compute. reflexivity.
Defined.

Lemma scans_listed_witness : exists l, ListScans None 1 sample_db = inl l /\ StronglySorted newer l.
Proof. eexists. split; [reflexivity|]. apply (scans_listed sample_db 1 _ sample_dated ltac:(discriminate) eq_refl). Defined.

Lemma range_exact_witness : exists l, GetScansByTimeRange None 0 (noon - Hour) 0 (noon + Hour) sample_db = inl l /\ StronglySorted newer l.
Proof.
  eexists. split; [reflexivity|]. refine (proj1 (range_exact sample_db (noon - Hour) (noon + Hour) _ sample_dated _ _ eq_refl));
    vm_compute; (split; [discriminate|reflexivity]).
Defined.

(** The same hours given in another zone miss the scan. *)
Lemma zone_shifts_range : GetScansByTimeRange None (5 * 3600) (noon - Hour) (5 * 3600) (noon + Hour) sample_db = inl [].
Proof. vm_compute. reflexivity. Qed.

(** What a dry run west of UTC counts is not what pruning at that time deletes. *)
Lemma dry_run_differs :
  GetScansByTimeRange None (-5 * 3600) 0 (-5 * 3600) (noon + Hour) sample_db = inl [] /\ snd (Prune None (noon + Hour) sample_db) = inl 1%nat.
Proof. vm_compute. split; reflexivity. Qed.

Lemma groups_read_as_sets_witness : GetGroup None None "eu" sample_db = inr (ErrNotFound "group eu"%string).
Proof. apply (groups_read_as_sets sample_db). apply store_consistent_sample. Defined.

Lemma groups_refine_sets_witness : exists db', RemoveClusterFromGroup None "eu" "a" sample_db = (db', None).
Proof. destruct (proj2 (proj2 (proj2 (groups_refine_sets sample_db "eu" store_consistent_sample))) "a"%string) as (db' & H & _). by exists db'. Defined.

(** A cluster listed twice refuses the group. *)
Lemma duplicate_member_refused : exists e, SaveGroup (fun _ => None) "eu" ["a"; "a"]%string sample_db = (sample_db, Some e).
Proof. eexists. vm_compute. reflexivity. Qed.
