(* ===== verification/Migrate.v ===== *)
(** * Schema migrations: migrate.go and migrate_pg.go

    The tables of both dialects as data, the statements that build them, and the processes
    that migrate one database together: each step of a process is one transaction, which
    Postgres runs under an advisory lock and SQLite as one of its serialized writers. *)

From Stdlib Require Import ZArith Lia String Ascii.
From stdpp Require Import base gmap strings list option sorting.
From S2P Require Import Prelude.

Local Open Scope Z_scope.

(** ** Tables and statements *)

Inductive col_type := TEXT | REAL | DOUBLE | INTEGER | BIGINT.

Record Column := { cm_Name : string; cm_Type : col_type; cm_NotNull : bool; cm_Unique : bool; cm_Default : option string }.

Definition col (n : string) (t : col_type) : Column := {| cm_Name := n; cm_Type := t; cm_NotNull := false; cm_Unique := false; cm_Default := None |}.
Definition needed (n : string) (t : col_type) : Column := {| cm_Name := n; cm_Type := t; cm_NotNull := true; cm_Unique := false; cm_Default := None |}.
Definition unique_col (n : string) (t : col_type) : Column := {| cm_Name := n; cm_Type := t; cm_NotNull := true; cm_Unique := true; cm_Default := None |}.
Definition default_col (n : string) (t : col_type) (d : string) : Column := {|
  cm_Name := n; cm_Type := t; cm_NotNull := true; cm_Unique := false; cm_Default := Some d |}.

(** The scope of every cluster, as JSON. *)
Definition wildcard_scope : string := ("[" ++ String "034" ("*" ++ String "034" "]"))%string.

(** Foreign keys delete with what they refer to. *)
Record Table := { tb_Columns : list Column; tb_Key : list string; tb_Refs : list (string * (string * string)) }.

Record Schema := { sm_Tables : gmap string Table; sm_Indexes : gmap string (string * list (string * bool)) }.

Definition no_tables : Schema := {| sm_Tables := ∅; sm_Indexes := ∅ |}.

Inductive ddl :=
| CreateTable (name : string) (cols : list Column) (key : list string) (refs : list (string * (string * string)))
| CreateIndex (name table : string) (cols : list (string * bool))
| AddColumn (if_not_exists : bool) (table : string) (c : Column).

Definition has_column (t : Table) (n : string) : bool := existsb (fun c => String.eqb (cm_Name c) n) (tb_Columns t).

(** CREATE is IF NOT EXISTS throughout. *)
Definition run_ddl (d : ddl) (s : Schema) : Schema + string :=
  match d with
  | CreateTable name cols key refs =>
      match sm_Tables s !! name with
      | Some _ => inl s
      | None =>
          if forallb (fun r => match sm_Tables s !! fst (snd r) with Some t => has_column t (snd (snd r)) | None => false end) refs
          then inl {| sm_Tables := <[name := {| tb_Columns := cols; tb_Key := key; tb_Refs := refs |}]> (sm_Tables s); sm_Indexes := sm_Indexes s |}
          else inr "no such table"%string
      end
  | CreateIndex name table cols =>
      match sm_Indexes s !! name, sm_Tables s !! table with
      | Some _, _ => inl s
      | None, Some t => if forallb (fun c => has_column t (fst c)) cols
                        then inl {| sm_Tables := sm_Tables s; sm_Indexes := <[name := (table, cols)]> (sm_Indexes s) |}
                        else inr "no such column"%string
      | None, None => inr "no such table"%string
      end
  | AddColumn if_not_exists table c =>
      match sm_Tables s !! table with
      | None => inr "no such table"%string
      | Some t =>
          if has_column t (cm_Name c) then if if_not_exists then inl s else inr ("duplicate column name: " ++ cm_Name c)%string
          else inl {| sm_Tables := <[table := {| tb_Columns := tb_Columns t ++ [c]; tb_Key := tb_Key t; tb_Refs := tb_Refs t |}]> (sm_Tables s);
                      sm_Indexes := sm_Indexes s |}
      end
  end.

Fixpoint run_sql (ds : list ddl) (s : Schema) : Schema + string :=
  match ds with
  | [] => inl s
  | d :: ds => match run_ddl d s with inl s => run_sql ds s | inr err => inr err end
  end.

Record migration := { mg_Version : Z; mg_SQL : list ddl }.

(** The migrations in order, each once. *)
Fixpoint run_all (ms : list migration) (s : Schema) : Schema + string :=
  match ms with
  | [] => inl s
  | m :: ms => match run_sql (mg_SQL m) s with inl s => run_all ms s | inr err => inr err end
  end.

(** ** The migrations *)

Definition migrations : list migration := [
  {| mg_Version := 1; mg_SQL := [
    CreateTable "scans" [
      col "id" TEXT; needed "timestamp" TEXT; needed "clusters" TEXT; needed "scanners" TEXT] ["id"] [];
    CreateTable "scan_results" [
      needed "scan_id" TEXT; needed "cluster" TEXT; needed "scanner" TEXT; needed "data_json" TEXT] ["scan_id"; "cluster"; "scanner"] [("scan_id", ("scans", "id"))];
    CreateTable "clusters" [
      col "name" TEXT; needed "first_seen" TEXT; needed "last_seen" TEXT] ["name"] [];
    CreateTable "groups" [
      col "name" TEXT] ["name"] [];
    CreateTable "group_clusters" [
      needed "group_name" TEXT; needed "cluster_name" TEXT] ["group_name"; "cluster_name"] [("group_name", ("groups", "name"))];
    CreateIndex "idx_scan_results_cluster" "scan_results" [("cluster", false)];
    CreateIndex "idx_scans_timestamp" "scans" [("timestamp", false)]] |};
  {| mg_Version := 2; mg_SQL := [
    CreateIndex "idx_scan_results_cluster_scan" "scan_results" [("cluster", false); ("scan_id", false)];
    CreateIndex "idx_scans_timestamp_desc" "scans" [("timestamp", true)]] |};
  {| mg_Version := 3; mg_SQL := [
    CreateTable "cluster_locations" [
      col "cluster" TEXT; needed "lat" REAL; needed "lng" REAL; col "site" TEXT; col "notes" TEXT; needed "updated_at" TEXT] ["cluster"] []] |};
  {| mg_Version := 4; mg_SQL := [
    CreateTable "finding_acks" [
      col "fingerprint" TEXT; col "cluster" TEXT; col "scanner" TEXT; col "title" TEXT; col "ack_by" TEXT; col "reason" TEXT;
      col "snooze_until" TEXT; needed "created_at" TEXT] ["fingerprint"] [];
    CreateIndex "idx_finding_acks_snooze" "finding_acks" [("snooze_until", false)]] |};
  {| mg_Version := 5; mg_SQL := [
    CreateTable "api_keys" [
      col "id" TEXT; unique_col "token_hash" TEXT; needed "name" TEXT; needed "role" TEXT;
      default_col "cluster_scope" TEXT wildcard_scope; needed "created_at" TEXT; col "expires_at" TEXT; col "last_used_at" TEXT;
      col "revoked_at" TEXT; col "created_by" TEXT] ["id"] [];
    CreateIndex "idx_api_keys_token_hash" "api_keys" [("token_hash", false)];
    CreateIndex "idx_api_keys_revoked" "api_keys" [("revoked_at", false)];
    CreateTable "audit_log" [
      col "id" TEXT; needed "timestamp" TEXT; col "actor_id" TEXT; col "actor_name" TEXT; col "actor_role" TEXT;
      needed "method" TEXT; needed "path" TEXT; needed "status" INTEGER; col "remote_addr" TEXT; col "user_agent" TEXT;
      col "duration_ms" INTEGER; col "error" TEXT] ["id"] [];
    CreateIndex "idx_audit_log_timestamp" "audit_log" [("timestamp", true)];
    CreateIndex "idx_audit_log_actor" "audit_log" [("actor_id", false)]] |};
  {| mg_Version := 6; mg_SQL := [
    CreateTable "alerts" [
      col "fingerprint" TEXT; needed "cluster" TEXT; needed "status" TEXT; needed "alertname" TEXT; col "severity" TEXT;
      col "summary" TEXT; col "starts_at" TEXT; col "ends_at" TEXT; needed "received_at" TEXT; needed "labels_json" TEXT;
      needed "annotations_json" TEXT; col "generator_url" TEXT] ["fingerprint"] [];
    CreateIndex "idx_alerts_cluster" "alerts" [("cluster", false)];
    CreateIndex "idx_alerts_status" "alerts" [("status", false)];
    CreateIndex "idx_alerts_received_at" "alerts" [("received_at", true)]] |};
  {| mg_Version := 7; mg_SQL := [
    CreateTable "cluster_tags" [
      needed "cluster" TEXT; needed "key" TEXT; needed "value" TEXT; needed "updated_at" TEXT] ["cluster"; "key"] [];
    CreateIndex "idx_cluster_tags_key_value" "cluster_tags" [("key", false); ("value", false)]] |};
  {| mg_Version := 8; mg_SQL := [
    AddColumn false "scan_results" (default_col "state" TEXT "");
    AddColumn false "scan_results" (default_col "reason" TEXT "")] |}]%string%Z.

Definition pgMigrations : list migration := [
  {| mg_Version := 1; mg_SQL := [
    CreateTable "scans" [
      col "id" TEXT; needed "timestamp" TEXT; needed "clusters" TEXT; needed "scanners" TEXT] ["id"] [];
    CreateTable "scan_results" [
      needed "scan_id" TEXT; needed "cluster" TEXT; needed "scanner" TEXT; needed "data_json" TEXT] ["scan_id"; "cluster"; "scanner"] [("scan_id", ("scans", "id"))];
    CreateTable "clusters" [
      col "name" TEXT; needed "first_seen" TEXT; needed "last_seen" TEXT] ["name"] [];
    CreateTable "groups" [
      col "name" TEXT] ["name"] [];
    CreateTable "group_clusters" [
      needed "group_name" TEXT; needed "cluster_name" TEXT] ["group_name"; "cluster_name"] [("group_name", ("groups", "name"))];
    CreateIndex "idx_scan_results_cluster" "scan_results" [("cluster", false)];
    CreateIndex "idx_scans_timestamp" "scans" [("timestamp", false)]] |};
  {| mg_Version := 2; mg_SQL := [
    CreateIndex "idx_scan_results_cluster_scan" "scan_results" [("cluster", false); ("scan_id", false)];
    CreateIndex "idx_scans_timestamp_desc" "scans" [("timestamp", true)]] |};
  {| mg_Version := 3; mg_SQL := [
    CreateTable "cluster_locations" [
      col "cluster" TEXT; needed "lat" DOUBLE; needed "lng" DOUBLE; col "site" TEXT; col "notes" TEXT; needed "updated_at" TEXT] ["cluster"] []] |};
  {| mg_Version := 4; mg_SQL := [
    CreateTable "finding_acks" [
      col "fingerprint" TEXT; col "cluster" TEXT; col "scanner" TEXT; col "title" TEXT; col "ack_by" TEXT; col "reason" TEXT;
      col "snooze_until" TEXT; needed "created_at" TEXT] ["fingerprint"] [];
    CreateIndex "idx_finding_acks_snooze" "finding_acks" [("snooze_until", false)]] |};
  {| mg_Version := 5; mg_SQL := [
    CreateTable "api_keys" [
      col "id" TEXT; unique_col "token_hash" TEXT; needed "name" TEXT; needed "role" TEXT;
      default_col "cluster_scope" TEXT wildcard_scope; needed "created_at" TEXT; col "expires_at" TEXT; col "last_used_at" TEXT;
      col "revoked_at" TEXT; col "created_by" TEXT] ["id"] [];
    CreateIndex "idx_api_keys_token_hash" "api_keys" [("token_hash", false)];
    CreateIndex "idx_api_keys_revoked" "api_keys" [("revoked_at", false)];
    CreateTable "audit_log" [
      col "id" TEXT; needed "timestamp" TEXT; col "actor_id" TEXT; col "actor_name" TEXT; col "actor_role" TEXT;
      needed "method" TEXT; needed "path" TEXT; needed "status" INTEGER; col "remote_addr" TEXT; col "user_agent" TEXT;
      col "duration_ms" BIGINT; col "error" TEXT] ["id"] [];
    CreateIndex "idx_audit_log_timestamp" "audit_log" [("timestamp", true)];
    CreateIndex "idx_audit_log_actor" "audit_log" [("actor_id", false)]] |};
  {| mg_Version := 6; mg_SQL := [
    CreateTable "alerts" [
      col "fingerprint" TEXT; needed "cluster" TEXT; needed "status" TEXT; needed "alertname" TEXT; col "severity" TEXT;
      col "summary" TEXT; col "starts_at" TEXT; col "ends_at" TEXT; needed "received_at" TEXT; needed "labels_json" TEXT;
      needed "annotations_json" TEXT; col "generator_url" TEXT] ["fingerprint"] [];
    CreateIndex "idx_alerts_cluster" "alerts" [("cluster", false)];
    CreateIndex "idx_alerts_status" "alerts" [("status", false)];
    CreateIndex "idx_alerts_received_at" "alerts" [("received_at", true)]] |};
  {| mg_Version := 7; mg_SQL := [
    CreateTable "cluster_tags" [
      needed "cluster" TEXT; needed "key" TEXT; needed "value" TEXT; needed "updated_at" TEXT] ["cluster"; "key"] [];
    CreateIndex "idx_cluster_tags_key_value" "cluster_tags" [("key", false); ("value", false)]] |};
  {| mg_Version := 8; mg_SQL := [
    AddColumn true "scan_results" (default_col "state" TEXT "");
    AddColumn true "scan_results" (default_col "reason" TEXT "")] |}]%string%Z.

(** ** Applying them *)

(** The schema, and the rows of schema_migrations when that table exists. *)
Record MigDb := { sd_schema : Schema; sd_applied : option (list Z) }.

Definition fresh_db : MigDb := {| sd_schema := no_tables; sd_applied := None |}.

(** A transaction: [fails] is the failure of one of its calls, which rolls it back. *)
Definition inMigrationTx (fails : option string) (fn : MigDb -> MigDb + string) (db : MigDb) : MigDb + string :=
  match fails with Some err => inr err | None => fn db end.

Definition bootstrap (db : MigDb) : MigDb + string := inl {| sd_schema := sd_schema db; sd_applied := Some (default [] (sd_applied db)) |}.

Definition applyMigration (m : migration) (db : MigDb) : MigDb + string :=
  match sd_applied db with
  | None => inr "check applied: no such table: schema_migrations"%string
  | Some vs =>
      if bool_decide (mg_Version m ∈ vs) then inl db
      else match run_sql (mg_SQL m) (sd_schema db) with
           | inr err => inr ("run: " ++ err)%string
           | inl s => inl {| sd_schema := s; sd_applied := Some (vs ++ [mg_Version m]) |}
           end
  end.

Definition appliedVersions (fails : option string) (db : MigDb) : gset Z + string :=
  match fails, sd_applied db with
  | Some err, _ => inr ("list migrations: " ++ err)%string
  | None, None => inr "list migrations: no such table: schema_migrations"%string
  | None, Some vs => inl (list_to_set vs)
  end.

(** Where a process that runs [runMigrations] is. *)
Inductive Phase := Bootstrapping | Reading | Applying (applied : gset Z) (rest : list migration) | Ended (err : option string).

(** One step of a process with the migrations [ms]. *)
Definition migrate_step (name : string) (ms : list migration) (fails : option string) (db : MigDb) (p : Phase) : MigDb * Phase :=
  match p with
  | Bootstrapping =>
      match inMigrationTx fails bootstrap db with
      | inl db => (db, Reading)
      | inr err => (db, Ended (Some (name ++ ": bootstrap migrations table: " ++ err)%string))
      end
  | Reading =>
      match appliedVersions fails db with
      | inl applied => (db, Applying applied ms)
      | inr err => (db, Ended (Some err))
      end
  | Applying _ [] => (db, Ended None)
  | Applying applied (m :: rest) =>
      if bool_decide (mg_Version m ∈ applied) then (db, Applying applied rest)
      else match inMigrationTx fails (applyMigration m) db with
           | inl db => (db, Applying applied rest)
           | inr err => (db, Ended (Some (name ++ ": migration: " ++ err)%string))
           end
  | Ended _ => (db, p)
  end.

(** One process alone. *)
Fixpoint runMigrations (fuel : nat) (name : string) (ms : list migration) (fails : nat -> option string) (db : MigDb) (p : Phase) : MigDb * Phase :=
  match fuel with
  | O => (db, p)
  | S fuel => let '(db, p) := migrate_step name ms (fails fuel) db p in runMigrations fuel name ms fails db p
  end.

(** Processes of one dialect, each with the migrations its release knows. *)
Record Proc := { pr_Migrations : list migration; pr_Phase : Phase }.

Definition start (ms : list migration) : Proc := {| pr_Migrations := ms; pr_Phase := Bootstrapping |}.

Abbreviation Fleet := (MigDb * list Proc)%type.

Definition step_proc (name : string) (w : Fleet) (e : nat * option string) : Fleet :=
  match snd w !! fst e with
  | None => w
  | Some p =>
      let '(db, ph) := migrate_step name (pr_Migrations p) (snd e) (fst w) (pr_Phase p) in
      (db, <[fst e := {| pr_Migrations := pr_Migrations p; pr_Phase := ph |}]> (snd w))
  end.

Definition run_procs (name : string) (schedule : list (nat * option string)) (w : Fleet) : Fleet := fold_left (step_proc name) schedule w.

(** ** Each migration once, in order *)

Lemma run_all_app l1 l2 s : run_all (l1 ++ l2) s = match run_all l1 s with inl s' => run_all l2 s' | inr err => inr err end.
Proof. revert s. induction l1 as [|m l1 IH]; intros s; [done|]. cbn [app run_all]. destruct (run_sql (mg_SQL m) s); [apply IH|done]. Qed.

Section Processes.

(** What the newest release applies; the bodies succeed one after the other on a fresh database. *)
Context (name : string) (all : list migration) (final : Schema).
Hypothesis versions_distinct : NoDup (map mg_Version all).
Hypothesis bodies_run : run_all all no_tables = inl final.

Lemma run_take k : exists s, run_all (take k all) no_tables = inl s.
Proof.
  pose proof bodies_run as H. rewrite <- (take_drop k all), run_all_app in H.
  destruct (run_all (take k all) no_tables) as [s|]; [by exists s|done].
Qed.

Lemma version_applied j k m : all !! j = Some m -> mg_Version m ∈ map mg_Version (take k all) -> (j < k)%nat.
Proof.
  intros Hj Hin. apply list_elem_of_In, in_map_iff in Hin as (m' & Ev & Hin).
  apply list_elem_of_In, elem_of_take in Hin as (j' & Hj' & Hlt). assert (j = j') as ->; [|done].
  eapply (NoDup_lookup (map mg_Version all)); [done| |].
  - change (mg_Version <$> all) with (map mg_Version all). by rewrite list_lookup_fmap, Hj.
  - change (mg_Version <$> all) with (map mg_Version all). rewrite list_lookup_fmap, Hj'. cbn. by rewrite Ev.
Qed.

(** The first [k] migrations are applied, and no other. *)
Record applied_to (k : nat) (db : MigDb) : Prop := {
  ap_bound : (k <= length all)%nat;
  ap_rows : default [] (sd_applied db) = map mg_Version (take k all);
  ap_schema : run_all (take k all) no_tables = inl (sd_schema db) }.

Definition phase_ok (k : nat) (db : MigDb) (ms : list migration) (p : Phase) : Prop :=
  match p with
  | Bootstrapping => True
  | Reading => is_Some (sd_applied db)
  | Applying applied rest => is_Some (sd_applied db) /\ (exists j, rest = drop j ms /\ (j <= k)%nat /\ (j <= length ms)%nat) /\
      forall v, v ∈ applied -> v ∈ map mg_Version (take k all)
  | Ended None => (length ms <= k)%nat
  | Ended (Some _) => True
  end.

Definition steps_left (ms : list migration) (p : Phase) : nat :=
  match p with Bootstrapping => 3 + length ms | Reading => 2 + length ms | Applying _ rest => 1 + length rest | Ended _ => 0 end.

Definition failed (p : Phase) : bool := match p with Ended (Some _) => true | _ => false end.

Lemma phase_ok_mono k k' db db' ms p : (k <= k')%nat -> (is_Some (sd_applied db) -> is_Some (sd_applied db')) ->
  phase_ok k db ms p -> phase_ok k' db' ms p.
Proof.
  intros Hk Hs. destruct p as [| |applied rest|[?|]]; cbn; [done|done| |done|lia]. intros (H1 & (j & H2 & H3 & H4) & H5).
  split; [by apply Hs|]. split; [exists j; split_and!; [done|lia|done]|]. intros v Hv. specialize (H5 v Hv).
  apply list_elem_of_In, in_map_iff in H5 as (m & <- & Hm). apply list_elem_of_In, in_map_iff. exists m. split; [done|].
  apply list_elem_of_In. apply list_elem_of_In in Hm. apply elem_of_take in Hm as (i & Hi & Hlt). apply elem_of_take. exists i. split; [done|lia].
Qed.

Lemma step_ok k db ms p fails : ms `prefix_of` all -> applied_to k db -> phase_ok k db ms p ->
  let '(db', p') := migrate_step name ms fails db p in
  exists k', (k <= k')%nat /\ (is_Some (sd_applied db) -> is_Some (sd_applied db')) /\ applied_to k' db' /\ phase_ok k' db' ms p' /\
    (failed p' = true -> failed p = true \/ is_Some fails) /\ (fails = None -> (steps_left ms p' <= steps_left ms p - 1)%nat).
Proof.
  intros [tl Hpre] Hdb Hp. pose proof Hdb as [Hb Hr Hsch]. destruct p as [| |applied rest|err]; cbn [migrate_step].
  - unfold inMigrationTx. destruct fails as [err|]; [exists k; split_and!; [lia|done|done|done|by right; eexists|done]|]. cbn [bootstrap].
    exists k. split_and!; [lia|by eexists|by split|by eexists|done|cbn; lia].
  - cbn in Hp. destruct Hp as [vs Hvs]. unfold appliedVersions. rewrite Hvs in *. destruct fails as [err|];
      [exists k; split_and!; [lia|done|done|done|by right; eexists|done]|].
    exists k. split_and!; [lia|done|done| |done|cbn; lia]. cbn. split; [by eexists|]. split; [exists 0%nat; split_and!; [done|lia|lia]|].
    intros v Hv. apply elem_of_list_to_set in Hv. by rewrite <- Hr.
  - destruct Hp as (His & (j & -> & Hjk & Hjl) & Happ). destruct (drop j ms) as [|m rest] eqn:Ed.
    + exists k. split_and!; [lia|done|done| |done|cbn; lia]. cbn. apply (f_equal length) in Ed. rewrite length_drop in Ed. cbn in Ed. lia.
    + assert (Hms : ms !! j = Some m) by (rewrite <- (Nat.add_0_r j), <- lookup_drop, Ed; done).
      assert (Hall : all !! j = Some m) by (rewrite Hpre; by apply lookup_app_l_Some).
      assert (Hrest : rest = drop (S j) ms).
      { rewrite <- Nat.add_1_r, <- drop_drop, Ed. by rewrite drop_0 || done. }
      assert (Hlt : (S j <= length ms)%nat) by (apply lookup_lt_Some in Hms; lia).
      assert (Hnext : forall k' db', (S j <= k')%nat -> is_Some (sd_applied db') ->
        (forall v, v ∈ applied -> v ∈ map mg_Version (take k' all)) -> phase_ok k' db' ms (Applying applied rest)).
      { intros k' db' H1 H2 H3. cbn. split; [done|]. split; [exists (S j); done|done]. }
      case_bool_decide as Ea.
      * exists k. split_and!; [lia|done|done| |done|cbn; lia]. apply Hnext; [|done|done]. by apply (version_applied j k m), Happ.
      * unfold inMigrationTx. destruct fails as [err|]; [exists k; split_and!; [lia|done|done|done|by right; eexists|done]|].
        unfold applyMigration. destruct (sd_applied db) as [vs|] eqn:Es; [|by destruct His]. cbn in Hr. subst vs.
        case_bool_decide as Ev.
        -- exists k. split_and!; [lia|done|done| |done|cbn; lia]. apply Hnext; [by eapply version_applied|by rewrite Es|done].
        -- assert (j = k) as ->.
           { destruct (decide (j < k)%nat) as [Hc|]; [|lia]. exfalso. apply Ev. apply list_elem_of_In, in_map_iff. exists m. split; [done|].
             apply list_elem_of_In, elem_of_take. by exists j. }
           destruct (run_take (S k)) as [s Hs]. rewrite (take_S_r _ _ m) in Hs by done. rewrite run_all_app, Hsch in Hs. cbn [run_all] in Hs.
           destruct (run_sql (mg_SQL m) (sd_schema db)) as [s'|] eqn:Er; [|done]. injection Hs as <-.
           exists (S k). split_and!; [lia|done| | |done|cbn; lia].
           ++ split; cbn.
              ** apply lookup_lt_Some in Hall. lia.
              ** rewrite (take_S_r _ _ m) by done. by rewrite map_app.
              ** rewrite (take_S_r _ _ m) by done. rewrite run_all_app, Hsch. cbn. by rewrite Er.
           ++ apply Hnext; [lia|by eexists|]. intros v Hv. rewrite (take_S_r _ _ m) by done. rewrite map_app. apply elem_of_app. left. by apply Happ.
  - exists k. split_and!; [lia|done|done|done| |cbn; lia]. by left.
Qed.

Definition fleet_ok (mss : list (list migration)) (w : Fleet) : Prop :=
  map pr_Migrations (snd w) = mss /\ exists k, applied_to k (fst w) /\
    forall i p, snd w !! i = Some p -> phase_ok k (fst w) (pr_Migrations p) (pr_Phase p).

Lemma fleet_step mss w e : Forall (fun ms => ms `prefix_of` all) mss -> fleet_ok mss w -> fleet_ok mss (step_proc name w e) /\
  forall i p', snd (step_proc name w e) !! i = Some p' -> exists p, snd w !! i = Some p /\ pr_Migrations p' = pr_Migrations p /\
    (i <> fst e -> p' = p) /\
    (i = fst e -> (failed (pr_Phase p') = true -> failed (pr_Phase p) = true \/ is_Some (snd e)) /\
       (snd e = None -> (steps_left (pr_Migrations p) (pr_Phase p') <= steps_left (pr_Migrations p) (pr_Phase p) - 1)%nat)).
Proof.
  intros Hpre (Hmap & k & Hdb & Hps). destruct w as [db ps]. cbn [fst snd] in *. unfold step_proc. cbn [fst snd].
  destruct (ps !! fst e) as [p|] eqn:Ep.
  2: { split; [by split; [|exists k]|]. intros i p' Hi. exists p'. split_and!; [done|done|done|]. intros ->. cbn in Hi. congruence. }
  assert (Hms : pr_Migrations p `prefix_of` all).
  { rewrite Forall_forall in Hpre. apply Hpre. rewrite <- Hmap. apply list_elem_of_In, in_map_iff. exists p. split; [done|]. apply list_elem_of_In. by eapply list_elem_of_lookup_2. }
  pose proof (step_ok k db (pr_Migrations p) (pr_Phase p) (snd e) Hms Hdb (Hps _ _ Ep)) as H.
  destruct (migrate_step name (pr_Migrations p) (snd e) db (pr_Phase p)) as [db' ph]. destruct H as (k' & Hk & Hs & Hdb' & Hph & Hf & Hl). cbn [fst snd].
  split.
  - split.
    + rewrite <- Hmap. apply list_eq. intros i. rewrite !list_lookup_fmap. cbn. destruct (decide (i = fst e)) as [->|Hne].
      * rewrite list_lookup_insert_eq by by eapply lookup_lt_Some. by rewrite Ep.
      * by rewrite list_lookup_insert_ne.
    + exists k'. split; [done|]. intros i p' Hi. destruct (decide (i = fst e)) as [->|Hne].
      * cbn [snd] in Hi. rewrite list_lookup_insert_eq in Hi by by eapply lookup_lt_Some. injection Hi as <-. exact Hph.
      * cbn [snd] in Hi. rewrite list_lookup_insert_ne in Hi by done. eapply phase_ok_mono; [exact Hk|exact Hs|]. by apply Hps with i.
  - intros i p' Hi. destruct (decide (i = fst e)) as [->|Hne].
    + rewrite list_lookup_insert_eq in Hi by by eapply lookup_lt_Some. injection Hi as <-. exists p. cbn. by split_and!.
    + rewrite list_lookup_insert_ne in Hi by done. exists p'. by split_and!.
Qed.

Lemma fleet_start mss : fleet_ok mss (fresh_db, map start mss).
Proof.
  split; cbn.
  - rewrite map_map. by rewrite map_id.
  - exists 0%nat. split; [split; [lia|by rewrite take_0|by rewrite take_0]|]. intros i p Hi. rewrite list_lookup_fmap in Hi.
    destruct (mss !! i); [|done]. by injection Hi as <-.
Qed.

Lemma fleet_run mss schedule w : Forall (fun ms => ms `prefix_of` all) mss -> fleet_ok mss w -> fleet_ok mss (run_procs name schedule w).
Proof. intros Hpre. unfold run_procs. revert w. induction schedule as [|e l IH]; intros w Hw; [done|]. cbn [fold_left]. apply IH. by apply fleet_step. Qed.

(** C12: however many processes migrate one database together, of whichever releases, interleaved in
    any way and failing anywhere, the migrations applied are at every moment a first part of the
    list, in order and each once; a process that ends without an error leaves all of its
    migrations applied, and one that ends with an error was failed by its driver. *)
Theorem migrations_apply_once mss schedule db ps : Forall (fun ms => ms `prefix_of` all) mss ->
  run_procs name schedule (fresh_db, map start mss) = (db, ps) ->
  exists k, default [] (sd_applied db) = map mg_Version (take k all) /\ run_all (take k all) no_tables = inl (sd_schema db) /\
    forall i p, ps !! i = Some p -> mss !! i = Some (pr_Migrations p) /\
      (pr_Phase p = Ended None -> (length (pr_Migrations p) <= k)%nat) /\
      (forall err, pr_Phase p = Ended (Some err) -> exists e, (i, Some e) ∈ schedule).
Proof.
  intros Hpre Hrun. pose proof (fleet_run mss schedule _ Hpre (fleet_start mss)) as H. rewrite Hrun in H. destruct H as (Hmap & k & [Hb Hr Hs] & Hps).
  exists k. split; [done|]. split; [done|]. intros i p Hi. split; [|split].
  - rewrite <- Hmap. cbn. by rewrite list_lookup_fmap, Hi.
  - intros Hend. specialize (Hps i p Hi). by rewrite Hend in Hps.
  - intros err Hend. assert (Hfail : failed (pr_Phase p) = true) by by rewrite Hend. clear Hmap Hb Hr Hs Hps Hend err.
    assert (forall sched w, fleet_ok mss w -> forall p, snd (run_procs name sched w) !! i = Some p -> failed (pr_Phase p) = true ->
      (exists q, snd w !! i = Some q /\ failed (pr_Phase q) = true) \/ exists e, (i, Some e) ∈ sched) as Hgen.
    { intros sched. induction sched as [|e l IH]; intros w Hw q Hq Hf; [left; by exists q|]. destruct (fleet_step mss w e Hpre Hw) as [Hw' Hstep].
      destruct (IH _ Hw' q Hq Hf) as [(q1 & H1 & H2)|(err & Hin)]; [|right; exists err; by right].
      destruct (Hstep i q1 H1) as (q0 & H3 & _ & Hne & Heq). destruct (decide (i = fst e)) as [->|Hd].
      - destruct (proj1 (Heq eq_refl) H2) as [H4|[err Herr]]; [left; by exists q0|]. right. exists err. destruct e as [n o]. cbn in *. rewrite Herr. by left.
      - rewrite (Hne Hd) in H2. left. by exists q0. }
    destruct (Hgen schedule _ (fleet_start mss) p) as [(q & Hq & Hf)|H]; [by rewrite Hrun|done| |done].
    cbn in Hq. rewrite list_lookup_fmap in Hq. destruct (mss !! i); [|done]. by injection Hq as <-.
Qed.

Definition turns (i : nat) (schedule : list (nat * option string)) : nat := length (List.filter (fun e => (fst e =? i)%nat) schedule).

(** C25: a process that its driver does not fail ends without an error once it has had three turns
    more than it has migrations, whatever the others do. *)
Theorem migrations_finish mss schedule i ms p : Forall (fun ms => ms `prefix_of` all) mss -> mss !! i = Some ms ->
  (forall e, (i, Some e) ∉ schedule) -> (3 + length ms <= turns i schedule)%nat ->
  snd (run_procs name schedule (fresh_db, map start mss)) !! i = Some p -> pr_Phase p = Ended None.
Proof.
  intros Hpre Hi Hok Hturns Hp.
  assert (forall sched w, (forall e, (i, Some e) ∉ sched) -> fleet_ok mss w -> forall q p, snd w !! i = Some q ->
    snd (run_procs name sched w) !! i = Some p -> failed (pr_Phase q) = false ->
    failed (pr_Phase p) = false /\ (steps_left (pr_Migrations q) (pr_Phase p) <= steps_left (pr_Migrations q) (pr_Phase q) - turns i sched)%nat) as Hgen.
  { intros sched. induction sched as [|e l IH]; intros w Hno Hw q p' Hq Hp' Hf; [cbn in Hp'; assert (p' = q) as -> by congruence; split; [done|unfold turns; cbn; lia]|].
    destruct (fleet_step mss w e Hpre Hw) as [Hw' Hstep]. cbn [run_procs fold_left] in Hp'.
    destruct (snd (step_proc name w e) !! i) as [q1|] eqn:E1.
    2: { exfalso. destruct Hw' as [Hm _], Hw as [Hm0 _]. apply (f_equal (.!! i)) in Hm, Hm0. rewrite list_lookup_fmap in Hm, Hm0. rewrite E1 in Hm. rewrite Hq in Hm0. rewrite <- Hm0 in Hm. done. }
    destruct (Hstep i q1 E1) as (q0 & H3 & Hmig & Hne & Heq). assert (q0 = q) as -> by congruence.
    destruct (IH _ ltac:(set_solver) Hw' q1 p' E1 Hp') as [Hf' Hl'].
    - destruct (decide (i = fst e)) as [->|Hd]; [|by rewrite (Hne Hd)]. destruct (failed (pr_Phase q1)) eqn:Ef; [|done].
      destruct (proj1 (Heq eq_refl) eq_refl) as [H4|[err Herr]]; [congruence|]. exfalso. apply (Hno err). destruct e as [n o]. cbn in *. rewrite Herr. by left.
    - split; [done|]. rewrite Hmig in Hl'. unfold turns. cbn [List.filter]. destruct (Nat.eqb_spec (fst e) i) as [<-|Hd].
      + cbn [length]. assert (snd e = None) as Hnone.
        { destruct e as [n [err|]]; [|done]. exfalso. apply (Hno err). by left. }
        pose proof (proj2 (Heq eq_refl) Hnone). unfold turns in Hl'. lia.
      + rewrite (Hne ltac:(done)) in *. unfold turns in Hl'. lia. }
  destruct (Hgen schedule _ Hok (fleet_start mss) (start ms) p) as [Hf Hl]; [cbn; by rewrite list_lookup_fmap, Hi|done|done|].
  cbn in Hl. destruct (pr_Phase p) as [| | |[?|]]; cbn in *; (lia || done).
Qed.

End Processes.

(** ** The two dialects *)

(** A column but for its type, which the dialects name differently. *)
Definition untyped (c : Column) : Column := {|
  cm_Name := cm_Name c; cm_Type := TEXT; cm_NotNull := cm_NotNull c; cm_Unique := cm_Unique c; cm_Default := cm_Default c |}.
Definition untyped_table (t : Table) : Table := {| tb_Columns := map untyped (tb_Columns t); tb_Key := tb_Key t; tb_Refs := tb_Refs t |}.
Definition untyped_schema (s : Schema) : Schema := {| sm_Tables := untyped_table <$> sm_Tables s; sm_Indexes := sm_Indexes s |}.

Definition built (ms : list migration) : Schema := match run_all ms no_tables with inl s => s | inr _ => no_tables end.

(** The migrations of both dialects run on a fresh database, with the versions one to eight, and
    build the same tables, columns, keys, references and indexes but for the names of the
    number types. *)
Theorem dialects_agree : run_all migrations no_tables = inl (built migrations) /\ run_all pgMigrations no_tables = inl (built pgMigrations) /\
  map mg_Version migrations = map mg_Version pgMigrations /\ NoDup (map mg_Version migrations) /\
  untyped_schema (built migrations) = untyped_schema (built pgMigrations).
Proof.
  split; [vm_compute; reflexivity|]. split; [vm_compute; reflexivity|]. split; [reflexivity|]. split; [|vm_compute; reflexivity].
  apply (bool_decide_unpack _). vm_compute. exact I.
Qed.

(** Eleven steps migrate a fresh database. *)
Example migrate_alone : snd (runMigrations 11 "sqlite" migrations (fun _ => None) fresh_db Bootstrapping) = Ended None.
Proof. vm_compute. reflexivity. Qed.

(** The last SQLite migration does not run twice, so applying each once matters. *)
Lemma rerun_fails : run_all (drop 7 migrations) (built migrations) = inr "duplicate column name: state"%string.
Proof. vm_compute. reflexivity. Qed.

Definition two_releases : list (list migration) := [migrations; take 6 migrations].

Definition interleaved : list (nat * option string) :=
  [(0, None); (1, None); (0, None); (1, None)]%nat ++ flat_map (fun _ => [(1, None); (0, None)]%nat) (seq 0 9).

Lemma releases_prefix : Forall (fun ms => ms `prefix_of` migrations) two_releases.
Proof. repeat constructor; [done|]. exists (drop 6 migrations). by rewrite take_drop. Qed.

Lemma versions_nodup : NoDup (map mg_Version migrations).
Proof. apply (bool_decide_unpack _). vm_compute. exact I. Qed.

Lemma bodies_succeed : run_all migrations no_tables = inl (built migrations).
Proof. vm_compute. reflexivity. Qed.

Lemma migrations_apply_once_witness : exists k, default [] (sd_applied (fst (run_procs "sqlite" interleaved (fresh_db, map start two_releases)))) =
  map mg_Version (take k migrations).
Proof.
  destruct (migrations_apply_once "sqlite" migrations (built migrations) versions_nodup bodies_succeed two_releases interleaved
    _ _ releases_prefix (surjective_pairing _)) as (k & H & _). exists k. exact H.
Defined.

Lemma migrations_finish_witness : pr_Phase {| pr_Migrations := migrations; pr_Phase := Ended None |} = Ended None.
Proof.
  apply (migrations_finish "sqlite" migrations (built migrations) versions_nodup bodies_succeed two_releases interleaved 0 migrations); [apply releases_prefix|reflexivity| | |].
  - intros e. unfold interleaved. rewrite elem_of_app. intros [H|H]; repeat (apply elem_of_cons in H as [H|H]; [discriminate|]); by apply not_elem_of_nil in H.
  - vm_compute. repeat constructor.
  - vm_compute. reflexivity.
Defined.
