(* ===== verification/Copy.v ===== *)
(** * Copying a database: cmd/cmd_migrate.go

    The copy of one store into another, table by table, in a small state monad: a state with
    both stores, the count of the store calls made so far, which decides what each of them
    runs into, and errors that end the copy. Progress lines are left out. *)

From Stdlib Require Import ZArith Lia String Ascii.
From stdpp Require Import base gmap strings list option sorting.
From S2P Require Import Prelude Maps Float64 Ratio GoTime TimeText Text Data Build Keys Alerts Acks Store.

Local Open Scope Z_scope.

(** ** Both stores *)

Record Stores := { st_db : Db; st_keys : KeyTable; st_acks : AckTable; st_alerts : AlertTable }.

Definition fresh_stores : Stores := {| st_db := empty_db; st_keys := []; st_acks := ∅; st_alerts := ∅ |}.

Definition with_db (db : Db) (s : Stores) : Stores := {| st_db := db; st_keys := st_keys s; st_acks := st_acks s; st_alerts := st_alerts s |}.
Definition with_keys (k : KeyTable) (s : Stores) : Stores := {| st_db := st_db s; st_keys := k; st_acks := st_acks s; st_alerts := st_alerts s |}.
Definition with_acks (a : AckTable) (s : Stores) : Stores := {| st_db := st_db s; st_keys := st_keys s; st_acks := a; st_alerts := st_alerts s |}.
Definition with_alerts (a : AlertTable) (s : Stores) : Stores := {| st_db := st_db s; st_keys := st_keys s; st_acks := st_acks s; st_alerts := a |}.

Record migrationCounts := {
  mc_Scans : nat; mc_Groups : nat; mc_Locations : nat; mc_Acks : nat; mc_APIKeys : nat; mc_APIKeysSkipped : nat; mc_Audit : nat; mc_Tags : nat;
  mc_Alerts : nat }.

Record Copying := { cy_src : Stores; cy_dst : Stores; cy_calls : nat }.

Definition set_dst (d : Stores) (c : Copying) : Copying := {| cy_src := cy_src c; cy_dst := d; cy_calls := cy_calls c |}.
Definition set_src (s : Stores) (c : Copying) : Copying := {| cy_src := s; cy_dst := cy_dst c; cy_calls := cy_calls c |}.
Definition tick_call (c : Copying) : Copying := {| cy_src := cy_src c; cy_dst := cy_dst c; cy_calls := S (cy_calls c) |}.

Inductive copy_error := StoreFailed (what : string) (e : store_error) | Refused (what : string).

Definition M (A : Type) : Type := Copying -> Copying * (A + copy_error).

Definition ret {A} (a : A) : M A := fun c => (c, inl a).
Definition stop {A} (e : copy_error) : M A := fun c => (c, inr e).
Definition bind {A B} (m : M A) (f : A -> M B) : M B := fun c => match m c with (c, inl a) => f a c | (c, inr e) => (c, inr e) end.

Declare Scope copy_scope.
Delimit Scope copy_scope with copy.
Notation "'let*' x ':=' m 'in' k" := (bind m (fun x => k)) (at level 200, x pattern, m at level 100, k at level 200) : copy_scope.
Local Open Scope copy_scope.

(** Runs [f] on the items in turn and counts them. *)
Fixpoint for_each {A} (f : A -> M bool) (l : list A) (n : nat) : M nat :=
  match l with [] => ret n | a :: l => let* counted := f a in for_each f l (if counted then S n else n) end.

Section Copy.

(** [fails n k]: what the [k]th statement of the [n]th store call runs into. *)
Context (Marshal : json -> string + string) (Unmarshal : string -> json + string) (fails : nat -> nat -> option string) (now : Z).

(** The order in which Go ranges over a map, and the database returns rows of one instant. *)
Context (arrange_entries : list (string * string * Result) -> list (string * string * Result))
  (arrange_acks : list AckRecord -> list AckRecord) (arrange_keys : KeyTable -> KeyTable) (arrange_audit : list AuditRow -> list AuditRow)
  (arrange_alerts : list AlertRecord -> list AlertRecord) (arrange_tags : list (string * string * string) -> list (string * string * string)).

Definition read_from {A} (what : string) (f : (nat -> option string) -> Stores -> A + store_error) (from : Copying -> Stores) : M A := fun c =>
  match f (fails (cy_calls c)) (from c) with
  | inl a => (tick_call c, inl a)
  | inr e => (tick_call c, inr (StoreFailed what e))
  end.

Definition write (what : string) (f : (nat -> option string) -> Stores -> Stores * option store_error) : M bool := fun c =>
  match f (fails (cy_calls c)) (cy_dst c) with
  | (d, None) => (tick_call (set_dst d c), inl true)
  | (d, Some e) => (tick_call (set_dst d c), inr (StoreFailed what e))
  end.

(** A write of one table of the destination. *)
Definition on_db {A} (f : Db -> Db * A) (s : Stores) : Stores * A := let '(db, e) := f (st_db s) in (with_db db s, e).

Definition migrateRowCap : Z := 1000000.

Definition checkRowCap (table : string) (n : nat) : M unit :=
  if migrateRowCap <=? Z.of_nat n then stop (Refused (table ++ " has too many rows")%string) else ret tt.

Definition refuseIfDestinationNotEmpty : M unit :=
  let* scans := read_from "inspect destination" (fun fs s => ListScans (fs 0%nat) 1 (st_db s)) cy_dst in
  match scans with
  | _ :: _ => stop (Refused "destination already has data; pass --force to allow overwrite (data is merged, not replaced)")
  | [] =>
      let* keys := read_from "inspect destination api keys" (fun fs s => ListAPIKeys (fs 0%nat) arrange_keys (st_keys s)) cy_dst in
      match keys with
      | _ :: _ => stop (Refused "destination already has api keys; pass --force to allow overwrite")
      | [] => ret tt
      end
  end.

Definition copy_scan (s : ScanRecord) : M bool :=
  let* results := read_from ("read scan " ++ sn_ID s)%string (fun fs st => GetScanResults Unmarshal (fs 0%nat) (sn_ID s) (st_db st)) cy_src in
  write ("write scan " ++ sn_ID s)%string (fun fs => on_db (fun db =>
    match SaveScanRecord Marshal fs "" now arrange_entries
      {| sn_ID := sn_ID s; sn_Timestamp := sn_Timestamp s; sn_Clusters := sn_Clusters s; sn_Scanners := [] |} results db with
    | (db, inl _) => (db, None)
    | (db, inr e) => (db, Some e)
    end)).

(** Oldest first. *)
Definition copyScans : M nat :=
  let* scans := read_from "" (fun fs s => ListScans (fs 0%nat) migrateRowCap (st_db s)) cy_src in
  let* _ := checkRowCap "scans" (length scans) in
  for_each copy_scan (rev scans) 0.

Definition copyGroups : M nat :=
  let* groups := read_from "" (fun fs s => ListGroups (fs 0%nat) (fs 1%nat) (st_db s)) cy_src in
  for_each (fun g => write ("write group " ++ gr_Name g)%string (fun fs => on_db (SaveGroup fs (gr_Name g) (gr_Clusters g)))) groups 0.

Definition copyLocations : M nat :=
  let* locs := read_from "" (fun fs s => ListLocations (fs 0%nat) (st_db s)) cy_src in
  for_each (fun l => write ("write location " ++ lc_Cluster l)%string (fun fs => on_db (SetLocation (fs 0%nat) now l))) locs 0.

(** Listing prunes the source's expired rows. *)
Definition list_acks : M (list AckRecord) := fun c =>
  match ListAcks (fails (cy_calls c) 0%nat) (fails (cy_calls c) 1%nat) arrange_acks now (st_acks (cy_src c)) with
  | (rows, inl l) => (tick_call (set_src (with_acks rows (cy_src c)) c), inl l)
  | (rows, inr e) => (tick_call (set_src (with_acks rows (cy_src c)) c), inr (StoreFailed "" e))
  end.

Definition copyAcks : M nat :=
  let* acks := list_acks in
  for_each (fun a => write ("write ack " ++ ar_Fingerprint a)%string
    (fun fs s => let '(rows, e) := SaveAck (fs 0%nat) now a (st_acks s) in (with_acks rows s, e))) acks 0.

(** A key the destination already holds is not an error. *)
Definition copy_key (k : APIKeyRecord) : M bool := fun c =>
  match SaveAPIKey (fails (cy_calls c) 0%nat) now k (st_keys (cy_dst c)) with
  | (rows, None) => (tick_call (set_dst (with_keys rows (cy_dst c)) c), inl true)
  | (rows, Some (ErrDuplicate _)) => (tick_call (set_dst (with_keys rows (cy_dst c)) c), inl false)
  | (rows, Some e) => (tick_call (set_dst (with_keys rows (cy_dst c)) c), inr (StoreFailed ("write api key " ++ ak_ID k)%string e))
  end.

Definition copyAPIKeys : M (nat * nat) :=
  let* keys := read_from "" (fun fs s => ListAPIKeys (fs 0%nat) arrange_keys (st_keys s)) cy_src in
  let* n := for_each copy_key keys 0 in
  ret (n, length keys - n)%nat.

Definition copyAuditLog : M nat :=
  let* entries := read_from "" (fun fs s => ListAuditEntries (fs 0%nat) arrange_audit
    {| ao_Limit := migrateRowCap; ao_Since := 0; ao_ActorID := ""; ao_MinStatus := 0 |} (st_db s)) cy_src in
  let* _ := checkRowCap "audit log" (length entries) in
  for_each (fun e => write ("write audit " ++ au_ID e)%string (fun fs => on_db (SaveAuditEntry (fs 0%nat) "" now e))) entries 0.

Definition tag_pairs (tags : gmap string (gmap string string)) : list (string * string * string) :=
  concat (map (fun e => map (fun kv => (fst e, fst kv, snd kv)) (map_to_list (snd e))) (map_to_list tags)).

Definition copyTags : M nat :=
  let* tags := read_from "" (fun fs s => ListClusterTags (fs 0%nat) (st_db s)) cy_src in
  for_each (fun e : string * string * string => let '(c, k, v) := e in
    write ("write tag " ++ c ++ "/" ++ k)%string (fun fs => on_db (SetClusterTag (fs 0%nat) c k v))) (arrange_tags (tag_pairs tags)) 0.

Definition every_alert : AlertListOptions := {| lo_Limit := migrateRowCap; lo_Cluster := ""; lo_Status := ""; lo_Severity := ""; lo_Since := 0 |}.

Definition copyAlerts : M nat :=
  let* alerts := read_from "" (fun fs s => Alerts.ListAlerts (fs 0%nat) arrange_alerts every_alert (st_alerts s)) cy_src in
  let* _ := checkRowCap "alerts" (length alerts) in
  for_each (fun a => write ("write alert " ++ al_Fingerprint a)%string
    (fun fs s => let '(rows, e) := UpsertAlert (fs 0%nat) now a (st_alerts s) in (with_alerts rows s, e))) alerts 0.

(** ** The whole copy *)

Definition at_least (table : string) (want got : nat) : M unit :=
  if (got <? want)%nat then stop (Refused (table ++ " verify")%string) else ret tt.

Definition verifyCounts (want : migrationCounts) : M unit :=
  let* scans := read_from "" (fun fs s => ListScans (fs 0%nat) migrateRowCap (st_db s)) cy_dst in
  let* _ := at_least "scans" (mc_Scans want) (length scans) in
  let* groups := read_from "" (fun fs s => ListGroups (fs 0%nat) (fs 1%nat) (st_db s)) cy_dst in
  let* _ := at_least "groups" (mc_Groups want) (length groups) in
  let* alerts := read_from "" (fun fs s => Alerts.ListAlerts (fs 0%nat) arrange_alerts every_alert (st_alerts s)) cy_dst in
  let* _ := at_least "alerts" (mc_Alerts want) (length alerts) in
  let* tags := read_from "" (fun fs s => ListClusterTags (fs 0%nat) (st_db s)) cy_dst in
  at_least "tags" (mc_Tags want) (length (tag_pairs tags)).

Definition copy_all : M migrationCounts :=
  let* scans := copyScans in
  let* groups := copyGroups in
  let* locations := copyLocations in
  let* acks := copyAcks in
  let* keys := copyAPIKeys in
  let* audit := copyAuditLog in
  let* tags := copyTags in
  let* alerts := copyAlerts in
  ret {| mc_Scans := scans; mc_Groups := groups; mc_Locations := locations; mc_Acks := acks; mc_APIKeys := fst keys;
         mc_APIKeysSkipped := snd keys; mc_Audit := audit; mc_Tags := tags; mc_Alerts := alerts |}.

Definition runMigrate (force verify : bool) : M migrationCounts :=
  let* _ := (if force then ret tt else refuseIfDestinationNotEmpty) in
  let* counts := copy_all in
  let* _ := (if verify then verifyCounts counts else ret tt) in
  ret counts.

End Copy.

(** ** What a copy touches *)

Inductive part := PScans | PGroups | PLocations | PAcks | PKeys | PAudit | PTags | PAlerts.

Definition same_part (p : part) (s s' : Stores) : Prop :=
  match p with
  | PScans => db_scans (st_db s') = db_scans (st_db s) /\ db_results (st_db s') = db_results (st_db s) /\ db_clusters (st_db s') = db_clusters (st_db s)
  | PGroups => db_groups (st_db s') = db_groups (st_db s) /\ db_members (st_db s') = db_members (st_db s)
  | PLocations => db_locations (st_db s') = db_locations (st_db s)
  | PAcks => st_acks s' = st_acks s
  | PKeys => st_keys s' = st_keys s
  | PAudit => db_audit (st_db s') = db_audit (st_db s)
  | PTags => db_tags (st_db s') = db_tags (st_db s)
  | PAlerts => st_alerts s' = st_alerts s
  end.

Definition touches (p : part) (s s' : Stores) : Prop := forall q, q <> p -> same_part q s s'.

Lemma same_part_refl p s : same_part p s s.
Proof. by destruct p. Qed.

Lemma same_part_trans p s1 s2 s3 : same_part p s1 s2 -> same_part p s2 s3 -> same_part p s1 s3.
Proof. destruct p; cbn; naive_solver congruence. Qed.

Lemma touches_refl p s : touches p s s.
Proof. intros q _. apply same_part_refl. Qed.

Lemma touches_trans p s1 s2 s3 : touches p s1 s2 -> touches p s2 s3 -> touches p s1 s3.
Proof. intros H1 H2 q Hq. eapply same_part_trans; [by apply H1|by apply H2]. Qed.

(** ** Runs of the monad *)

Lemma bind_ok {A B} (m : M A) (f : A -> M B) c c' b : bind m f c = (c', inl b) -> exists a c1, m c = (c1, inl a) /\ f a c1 = (c', inl b).
Proof. unfold bind. destruct (m c) as [c1 [a|e]]; [|done]. intros H. by exists a, c1. Qed.

Section Loops.

Context {A : Type} (f : A -> M bool) (p : part) (src : Stores) (good : A -> Prop) (holds : A -> Stores -> Prop) (inv : Stores -> Prop).

(** A write of one part that makes its item hold and keeps what holds of the others. *)
Definition writes_item (a : A) : Prop := forall c c' b, cy_src c = src -> inv (cy_dst c) -> good a -> f a c = (c', inl b) ->
  cy_src c' = src /\ inv (cy_dst c') /\ touches p (cy_dst c) (cy_dst c') /\ holds a (cy_dst c') /\
  forall a', a' <> a -> good a' -> holds a' (cy_dst c) -> holds a' (cy_dst c').

Lemma for_each_ok l n c c' m : (forall a, a ∈ l -> writes_item a) -> (forall a, a ∈ l -> good a) -> cy_src c = src -> inv (cy_dst c) -> NoDup l ->
  for_each f l n c = (c', inl m) ->
  cy_src c' = src /\ inv (cy_dst c') /\ touches p (cy_dst c) (cy_dst c') /\ (forall a, a ∈ l -> holds a (cy_dst c')) /\
  forall a', a' ∉ l -> good a' -> holds a' (cy_dst c) -> holds a' (cy_dst c').
Proof.
  intros Hw Hg Hs Hi Hnd. revert n c Hs Hi. induction Hnd as [|a l Hni Hnd IH]; intros n c Hs Hi Hrun.
  - injection Hrun as <- _. split_and!; [done|done|apply touches_refl| |done]. intros a Ha. by apply not_elem_of_nil in Ha.
  - cbn [for_each] in Hrun. apply bind_ok in Hrun as (b & c1 & Ha & Hrun).
    destruct (Hw a ltac:(by left) c c1 b Hs Hi (Hg a ltac:(by left)) Ha) as (Hs1 & Hi1 & Ht1 & Hh & Hkeep).
    destruct (IH ltac:(set_solver) ltac:(set_solver) _ c1 Hs1 Hi1 Hrun) as (Hs2 & Hi2 & Ht2 & Hh2 & Hkeep2). split_and!; [done|done| | |].
    + by eapply touches_trans.
    + intros a' [->|Ha']%elem_of_cons; [|by apply Hh2]. apply Hkeep2; [done|apply Hg; by left|done].
    + intros a' [Hne Hni']%not_elem_of_cons Hg' Hh'. apply Hkeep2; [done|done|]. by apply Hkeep.
Qed.

End Loops.

Lemma write_ok fails what f c c' b : write fails what f c = (c', inl b) ->
  exists d, f (fails (cy_calls c)) (cy_dst c) = (d, None) /\ cy_src c' = cy_src c /\ cy_dst c' = d.
Proof. unfold write. destruct (f _ _) as [d [e|]]; [done|]. intros [= <- _]. by exists d. Qed.

Lemma read_from_ok {A} fails what (f : (nat -> option string) -> Stores -> A + store_error) from c c' a : read_from fails what f from c = (c', inl a) ->
  f (fails (cy_calls c)) (from c) = inl a /\ cy_src c' = cy_src c /\ cy_dst c' = cy_dst c.
Proof. unfold read_from. destruct (f _ _) as [x|e]; [|done]. by intros [= <- ->]. Qed.

Lemma checkRowCap_ok table n c c' u : checkRowCap table n c = (c', inl u) -> c' = c /\ Z.of_nat n < migrateRowCap.
Proof. unfold checkRowCap. destruct (Z.leb_spec migrateRowCap (Z.of_nat n)); [done|]. by intros [= <- _]. Qed.

Lemma on_db_ok (f : Db -> Db * option store_error) s d : on_db f s = (d, None) -> exists db, f (st_db s) = (db, None) /\ d = with_db db s.
Proof. unfold on_db. destruct (f (st_db s)) as [db e]. intros [= <- ->]. by exists db. Qed.

Lemma take_all {A} (n : nat) (l : list A) : (length (take n l) < n)%nat -> take n l = l.
Proof. rewrite length_take. intros H. apply take_ge. lia. Qed.

(** A list that came back under the cap is whole. *)
Lemma under_cap {A} (l : list A) : Z.of_nat (length (take (Z.to_nat migrateRowCap) l)) < migrateRowCap -> take (Z.to_nat migrateRowCap) l = l.
Proof. intros H. apply take_all. revert H. generalize (length (take (Z.to_nat migrateRowCap) l)). unfold migrateRowCap. lia. Qed.

Section Complete.

Context (Marshal : json -> string + string) (Unmarshal : string -> json + string) (fails : nat -> nat -> option string) (now : Z).
Context (arrange_entries : list (string * string * Result) -> list (string * string * Result))
  (arrange_acks : list AckRecord -> list AckRecord) (arrange_keys : KeyTable -> KeyTable) (arrange_audit : list AuditRow -> list AuditRow)
  (arrange_alerts : list AlertRecord -> list AlertRecord) (arrange_tags : list (string * string * string) -> list (string * string * string)).

(** Map iteration and ties only reorder. *)
Hypothesis entries_perm : forall l, arrange_entries l ≡ₚ l.
Hypothesis acks_perm : forall l, arrange_acks l ≡ₚ l.
Hypothesis keys_perm : forall l, arrange_keys l ≡ₚ l.
Hypothesis audit_perm : forall l, arrange_audit l ≡ₚ l.
Hypothesis alerts_perm : forall l, arrange_alerts l ≡ₚ l.
Hypothesis tags_perm : forall l, arrange_tags l ≡ₚ l.

(** A decoded value encodes, and decodes to itself. *)
Hypothesis json_stable : forall text d, Unmarshal text = inl d -> exists text', Marshal d = inl text' /\ Unmarshal text' = inl d.

(** ** Scans *)

Lemma read_rows_storable rows R : read_rows Unmarshal rows = inl R -> storable_results Marshal Unmarshal R /\ with_rows R = R.
Proof.
  revert R. induction rows as [|[[c s] row] rows IH]; intros R H.
  - injection H as <-. split; [intros ? ? ? ? H; by rewrite lookup_empty in H|done].
  - cbn [read_rows] in H. destruct (result_of_row Unmarshal s row) as [r|] eqn:Er; [|done].
    destruct (read_rows Unmarshal rows) as [R'|] eqn:E; [|done]. injection H as <-. destruct (IH R' eq_refl) as [Hst Hne]. split.
    + intros c' m s' r' Hc Hs. apply lookup_insert_Some in Hc as [[<- <-]|[_ Hc]]; [|by eapply Hst].
      apply lookup_insert_Some in Hs as [[<- <-]|[_ Hs]].
      * unfold result_of_row in Er. destruct (Unmarshal (rr_DataJSON row)) as [d|] eqn:Eu; [|done]. injection Er as <-. cbn. split; [done|]. by eapply json_stable.
      * destruct (R' !! c) as [m'|] eqn:Em; [by eapply Hst|]. cbn in Hs. by rewrite lookup_empty in Hs.
    + apply map_filter_id. intros c' m Hc. apply lookup_insert_Some in Hc as [[<- <-]|[_ Hc]]; [apply insert_non_empty|].
      assert (with_rows R' !! c' = Some m) as Hf by by rewrite Hne. by apply map_lookup_filter_Some in Hf as [_ Hf].
Qed.

Definition scan_copied (src : Stores) (s : ScanRecord) (d : Stores) : Prop := exists results,
  GetScanResults Unmarshal None (sn_ID s) (st_db src) = inl results /\
  stored_as Marshal (sn_ID s) (scan_row_of now s results) results (st_db d).

Definition good_scan (src : Stores) (s : ScanRecord) : Prop := s ∈ all_scans (st_db src) /\ sn_ID s <> ""%string.

Lemma all_scans_id db a b : a ∈ all_scans db -> b ∈ all_scans db -> sn_ID a = sn_ID b -> a = b.
Proof. rewrite !elem_of_all_scans. intros (ra & Ha & Ea) (rb & Hb & Eb) E. rewrite Ea, Eb, E in *. congruence. Qed.

Lemma copy_scan_writes src a : writes_item (copy_scan Marshal Unmarshal fails now arrange_entries) PScans src (good_scan src) (scan_copied src)
  (fun d => consistent (st_db d)) a.
Proof.
  intros c c' b Hsrc Hcon [Hin Hid] Hrun. unfold copy_scan in Hrun. apply bind_ok in Hrun as (results & c1 & Hread & Hwrite).
  apply read_from_ok in Hread as (Hres & Hs1 & Hd1). rewrite Hsrc in Hres. apply write_ok in Hwrite as (d & Hw & Hs' & Hd').
  apply on_db_ok in Hw as (db & Hsave & ->). rewrite Hd1 in Hsave, Hd'.
  set (rec := {| sn_ID := sn_ID a; sn_Timestamp := sn_Timestamp a; sn_Clusters := sn_Clusters a; sn_Scanners := [] |}) in *.
  assert (Hres' : GetScanResults Unmarshal None (sn_ID a) (st_db src) = inl results).
  { unfold GetScanResults in *. by destruct (fails (cy_calls c) 0%nat). }
  pose proof (save_scan_effect Marshal (fails (cy_calls c1)) "" now arrange_entries rec results (st_db (cy_dst c)) entries_perm) as He. cbn zeta in He.
  assert (Hidr : (if String.eqb (sn_ID rec) "" then "" else sn_ID rec)%string = sn_ID a) by (cbn; by destruct (String.eqb_spec (sn_ID a) "")).
  rewrite Hidr in He. destruct (SaveScanRecord _ _ _ _ _ _ _ (st_db (cy_dst c))) as [db' [id|e]] eqn:E in Hsave; [|done]. injection Hsave as <-.
  pose proof (fresh_scan_stored Marshal _ _ _ _ _ _ _ _ _ entries_perm Hcon E) as Hst.
  assert (Hcon' : consistent db').
  { pose proof (step_consistent Marshal (fun _ => True) (st_db (cy_dst c)) _ (step_save_scan Marshal _ _ (fails (cy_calls c1)) "" now arrange_entries rec results entries_perm) Hcon) as H. by rewrite E in H. }
  rewrite E in He. destruct He as (-> & Hfresh & rs & cs & Hdb & Hrs & _). rewrite Hs', Hs1, Hd'. cbn [with_db st_db].
  split_and!; [done|done| | |].
  - intros q Hq. subst db'. destruct q; done.
  - exists results. split; [done|]. exact Hst.
  - intros a' Hne [Hin' Hid'] (results' & Hr' & Hs1' & Hrows'). exists results'. split; [done|]. assert (sn_ID a' <> sn_ID a) as Hn by (intros Ee; apply Hne; by eapply all_scans_id).
    subst db'. split; cbn; [by rewrite lookup_insert_ne|]. intros cl s rr. rewrite Hrs, <- Hrows'. naive_solver.
Qed.

Lemma copyScans_ok src c c' n : cy_src c = src -> consistent (st_db (cy_dst c)) -> (forall s, s ∈ all_scans (st_db src) -> sn_ID s <> ""%string) ->
  copyScans Marshal Unmarshal fails now arrange_entries c = (c', inl n) ->
  cy_src c' = src /\ touches PScans (cy_dst c) (cy_dst c') /\ forall s, s ∈ all_scans (st_db src) -> scan_copied src s (cy_dst c').
Proof.
  intros Hsrc Hcon Hids Hrun. unfold copyScans in Hrun. apply bind_ok in Hrun as (scans & c1 & Hread & Hrun).
  apply read_from_ok in Hread as (Hl & Hs1 & Hd1). apply bind_ok in Hrun as (u & c2 & Hcap & Hrun). apply checkRowCap_ok in Hcap as [-> Hcap].
  rewrite Hsrc in Hl. unfold ListScans in Hl. destruct (fails (cy_calls c) 0%nat); [done|]. injection Hl as <-.
  change (sql_limit migrateRowCap) with (@take ScanRecord (Z.to_nat migrateRowCap)) in Hcap, Hrun. rewrite (under_cap _ Hcap) in Hrun.
  set (l := isort (less_of newest_cmp) (all_scans (st_db src))) in *. assert (Hp : rev l ≡ₚ all_scans (st_db src)) by (rewrite <- Permutation_rev; apply isort_perm).
  assert (Hg : forall a, a ∈ rev l -> good_scan src a) by (intros a Ha; rewrite Hp in Ha; split; [done|by apply Hids]).
  destruct (for_each_ok (copy_scan Marshal Unmarshal fails now arrange_entries) PScans src (good_scan src) (scan_copied src) (fun d => consistent (st_db d)) (rev l) 0 c1 c' n) as (H1 & _ & H2 & H3 & _).
  - intros a _. apply copy_scan_writes.
  - exact Hg.
  - congruence.
  - by rewrite Hd1.
  - rewrite Hp. eapply NoDup_fmap_1. apply all_scans_NoDup.
  - exact Hrun.
  - split_and!; [done|by rewrite <- Hd1|]. intros s Hs. apply H3. by rewrite Hp.
Qed.

(** ** Tables filed by one key *)

Section Upserts.

Context {A K : Type} (f : A -> M bool) (p : part) (src : Stores) (key : A -> K) (get : Stores -> K -> option A) (put : A -> A).

(** Each write sets the row of its item. *)
Hypothesis f_writes : forall a c c' b, cy_src c = src -> f a c = (c', inl b) ->
  cy_src c' = src /\ touches p (cy_dst c) (cy_dst c') /\ get (cy_dst c') (key a) = Some (put a) /\
  forall k, k <> key a -> get (cy_dst c') k = get (cy_dst c) k.

Lemma upserts_ok l n c c' m : cy_src c = src -> NoDup (map key l) -> for_each f l n c = (c', inl m) ->
  cy_src c' = src /\ touches p (cy_dst c) (cy_dst c') /\ forall a, a ∈ l -> get (cy_dst c') (key a) = Some (put a).
Proof.
  intros Hsrc Hnd Hrun.
  destruct (for_each_ok f p src (fun a => a ∈ l) (fun a d => get d (key a) = Some (put a)) (fun _ => True) l n c c' m) as (H1 & _ & H2 & H3 & _).
  - intros a Ha c0 c1 b Hs _ _ Hf. destruct (f_writes a c0 c1 b Hs Hf) as (E1 & E2 & E3 & E4). split_and!; [done|done|done|done|].
    intros a' Hne Ha' Hh. rewrite E4; [done|]. intros Ek. apply Hne. clear -Hnd Ha Ha' Ek.
    induction l as [|x l' IH]; [by apply not_elem_of_nil in Ha|]. cbn [map] in Hnd. apply NoDup_cons in Hnd as [Hni Hnd].
    assert (forall y, y ∈ l' -> key y <> key x) as Hx.
    { intros y Hy E. apply Hni. rewrite <- E. apply list_elem_of_In, in_map_iff. exists y. split; [done|]. by apply list_elem_of_In. }
    apply elem_of_cons in Ha as [->|Ha], Ha' as [->|Ha']; [done|by apply Hx in Ek|symmetry in Ek; by apply Hx in Ek|by apply IH].
  - done.
  - done.
  - done.
  - by eapply NoDup_fmap_1.
  - exact Hrun.
  - done.
Qed.

End Upserts.

Lemma map_values_keys {A} (key : A -> string) (m : gmap string A) l : (forall k a, m !! k = Some a -> key a = k) -> l ≡ₚ map snd (map_to_list m) ->
  NoDup (map key l) /\ forall k a, m !! k = Some a -> a ∈ l.
Proof.
  intros Hk Hp. split.
  - rewrite Hp, map_map. pose proof (NoDup_fst_map_to_list m) as Hnd. replace (map (fun x => key (snd x)) (map_to_list m)) with (map_to_list m).*1; [done|].
    apply map_ext_in. intros [k a] Hin%list_elem_of_In%elem_of_map_to_list. cbn. symmetry. by apply Hk.
  - intros k a Ha. rewrite Hp. apply list_elem_of_fmap. exists (k, a). split; [done|]. by apply elem_of_map_to_list.
Qed.

Lemma single_ok what fs run db db' : single what fs run db = (db', None) -> fs = None /\ run db = inl db'.
Proof. unfold single. destruct (sql what run fs db) as [x|] eqn:E; [|done]. intros [= <-]. by apply sql_ok in E. Qed.

(** A write of one table that sets one row. *)
Lemma write_row {A K} what (f : A -> (nat -> option string) -> Stores -> Stores * option store_error) p (key : A -> K) (get : Stores -> K -> option A) put src :
  (forall a fs s d, f a fs s = (d, None) -> touches p s d /\ get d (key a) = Some (put a) /\ forall k, k <> key a -> get d k = get s k) ->
  forall a c c' b, cy_src c = src -> write fails (what a) (f a) c = (c', inl b) ->
  cy_src c' = src /\ touches p (cy_dst c) (cy_dst c') /\ get (cy_dst c') (key a) = Some (put a) /\
  forall k, k <> key a -> get (cy_dst c') k = get (cy_dst c) k.
Proof.
  intros Hf a c c' b Hs Hrun. apply write_ok in Hrun as (d & Hw & Hs' & ->). destruct (Hf _ _ _ _ Hw) as (H1 & H2 & H3). split; [congruence|done].
Qed.

Lemma rows_ok {A K} what (f : A -> (nat -> option string) -> Stores -> Stores * option store_error) p (key : A -> K) (get : Stores -> K -> option A) put src l n c c' m :
  (forall a fs s d, f a fs s = (d, None) -> touches p s d /\ get d (key a) = Some (put a) /\ forall k, k <> key a -> get d k = get s k) ->
  cy_src c = src -> NoDup (map key l) -> for_each (fun a => write fails (what a) (f a)) l n c = (c', inl m) ->
  cy_src c' = src /\ touches p (cy_dst c) (cy_dst c') /\ forall a, a ∈ l -> get (cy_dst c') (key a) = Some (put a).
Proof. intros Hf Hs Hnd Hrun. eapply upserts_ok; [|exact Hs|exact Hnd|exact Hrun]. by apply write_row. Qed.

(** ** Locations *)

Definition keyed_locations (s : Stores) : Prop := forall k l, db_locations (st_db s) !! k = Some l -> lc_Cluster l = k.

Lemma copyLocations_ok src c c' n : cy_src c = src -> keyed_locations src -> copyLocations fails now c = (c', inl n) ->
  cy_src c' = src /\ touches PLocations (cy_dst c) (cy_dst c') /\
  forall k l, db_locations (st_db src) !! k = Some l -> db_locations (st_db (cy_dst c')) !! k = Some (at_time now l).
Proof.
  intros Hsrc Hkey Hrun. apply bind_ok in Hrun as (locs & c1 & Hread & Hrun). apply read_from_ok in Hread as (Hl & Hs1 & Hd1).
  rewrite Hsrc in Hl. unfold ListLocations in Hl. destruct (fails (cy_calls c) 0%nat); [done|]. injection Hl as <-.
  set (l := map snd _) in Hrun. assert (Hp : l ≡ₚ map snd (map_to_list (db_locations (st_db src)))) by (unfold l; by rewrite isort_perm).
  destruct (map_values_keys lc_Cluster (db_locations (st_db src)) l Hkey Hp) as [Hnd Hin].
  destruct (rows_ok (fun l => "write location " ++ lc_Cluster l)%string (fun l fs => on_db (SetLocation (fs 0%nat) now l)) PLocations lc_Cluster
    (fun s k => db_locations (st_db s) !! k) (at_time now) src l 0 c1 c' n) as (H1 & H2 & H3); [|by rewrite Hs1|done|done|].
  - intros a fs s d Hw. apply on_db_ok in Hw as (db & Hw & ->). apply single_ok in Hw as [_ [= <-]]. cbn. split; [|split].
    + intros q Hq. by destruct q.
    + apply lookup_insert_eq.
    + intros k Hk. by apply lookup_insert_ne.
  - split_and!; [done|by rewrite <- Hd1|]. intros k a Ha. rewrite <- (Hkey k a Ha). apply H3. by eapply Hin.
Qed.

(** ** Acknowledgements *)

Definition keyed_acks (rows : AckTable) : Prop := forall k a, rows !! k = Some a -> ar_Fingerprint a = k.

Lemma copyAcks_ok src c c' n : cy_src c = src -> keyed_acks (st_acks src) -> copyAcks fails now arrange_acks c = (c', inl n) ->
  cy_src c' = with_acks (pruned now (st_acks src)) src /\ touches PAcks (cy_dst c) (cy_dst c') /\
  forall k a, st_acks src !! k = Some a -> snooze_over now a = false -> st_acks (cy_dst c') !! k = Some (ack_row now a).
Proof.
  intros Hsrc Hkey Hrun. apply bind_ok in Hrun as (acks & c1 & Hread & Hrun). unfold list_acks, ListAcks, pruneExpiredAcks in Hread. rewrite Hsrc in Hread.
  destruct (fails (cy_calls c) 0%nat); [done|]. destruct (fails (cy_calls c) 1%nat); [done|]. injection Hread as <- <-.
  set (l := isort _ _) in Hrun. assert (Hp : l ≡ₚ map snd (map_to_list (pruned now (st_acks src)))) by (unfold l; by rewrite isort_perm, acks_perm).
  assert (Hkey' : keyed_acks (pruned now (st_acks src))) by (intros k a [Ha _]%map_lookup_filter_Some; by apply Hkey).
  destruct (map_values_keys ar_Fingerprint (pruned now (st_acks src)) l Hkey' Hp) as [Hnd Hin].
  match type of Hrun with for_each _ _ _ ?c2 = _ => destruct (rows_ok (fun a => "write ack " ++ ar_Fingerprint a)%string (fun a fs s => let '(rows, e) := SaveAck (fs 0%nat) now a (st_acks s) in (with_acks rows s, e))
    PAcks ar_Fingerprint (fun s k => st_acks s !! k) (ack_row now) (with_acks (pruned now (st_acks src)) src) l 0 c2 c' n) as (H1 & H2 & H3) end; [|done|done|exact Hrun|].
  - intros a fs s d. unfold SaveAck. destruct (String.eqb _ _); [done|]. destruct (fs 0%nat); [done|]. intros [= <-]. cbn. split; [|split].
    + intros q Hq. by destruct q.
    + apply lookup_insert_eq.
    + intros k Hk. by apply lookup_insert_ne.
  - split_and!; [done|done|]. intros k a Ha Hs. rewrite <- (Hkey k a Ha). apply H3. eapply Hin. apply map_lookup_filter_Some. split; [exact Ha|].
    cbn. by rewrite Hs.
Qed.

(** ** Alerts *)

Definition keyed_alerts (rows : AlertTable) : Prop := forall k a, rows !! k = Some a -> al_Fingerprint a = k.

Lemma every_alert_matches a : alert_matches every_alert a = true.
Proof. by destruct a. Qed.

Lemma filter_true {A} (f : A -> bool) l : (forall a, f a = true) -> List.filter f l = l.
Proof. intros Hf. induction l as [|a l IH]; [done|]. cbn. by rewrite Hf, IH. Qed.

Lemma copyAlerts_ok src c c' n : cy_src c = src -> keyed_alerts (st_alerts src) -> copyAlerts fails now arrange_alerts c = (c', inl n) ->
  cy_src c' = src /\ touches PAlerts (cy_dst c) (cy_dst c') /\
  forall k a, st_alerts src !! k = Some a -> st_alerts (cy_dst c') !! k = Some (received now a).
Proof.
  intros Hsrc Hkey Hrun. apply bind_ok in Hrun as (alerts & c1 & Hread & Hrun). apply read_from_ok in Hread as (Hl & Hs1 & Hd1).
  apply bind_ok in Hrun as (u & c2 & Hcap & Hrun). apply checkRowCap_ok in Hcap as [-> Hcap]. rewrite Hsrc in Hl. unfold Alerts.ListAlerts in Hl.
  destruct (fails (cy_calls c) 0%nat); [done|]. injection Hl as Hl.
  assert (alerts = take (Z.to_nat migrateRowCap) (isort (less_of received_cmp) (arrange_alerts (map snd (map_to_list (st_alerts src)))))) as ->
    by (rewrite <- Hl, (filter_true _ _ every_alert_matches); done). rewrite (under_cap _ Hcap) in Hrun.
  set (l := isort _ _) in Hrun. assert (Hp : l ≡ₚ map snd (map_to_list (st_alerts src))) by (unfold l; by rewrite isort_perm, alerts_perm).
  destruct (map_values_keys al_Fingerprint (st_alerts src) l Hkey Hp) as [Hnd Hin].
  destruct (rows_ok (fun a => "write alert " ++ al_Fingerprint a)%string (fun a fs s => let '(rows, e) := UpsertAlert (fs 0%nat) now a (st_alerts s) in (with_alerts rows s, e))
    PAlerts al_Fingerprint (fun s k => st_alerts s !! k) (received now) src l 0 c1 c' n) as (H1 & H2 & H3); [|by rewrite Hs1|done|done|].
  - intros a fs s d. unfold UpsertAlert. destruct (String.eqb _ _); [done|]. destruct (fs 0%nat); [done|]. intros [= <-]. cbn. split; [|split].
    + intros q Hq. by destruct q.
    + apply lookup_insert_eq.
    + intros k Hk. by apply lookup_insert_ne.
  - split_and!; [done|by rewrite <- Hd1|]. intros k a Ha. rewrite <- (Hkey k a Ha). apply H3. by eapply Hin.
Qed.

(** ** The audit trail *)

Definition keyed_audit (s : Stores) : Prop := forall k r, db_audit (st_db s) !! k = Some r -> au_ID r = k /\ k <> ""%string.

Lemma copyAuditLog_ok src c c' n : cy_src c = src -> keyed_audit src -> copyAuditLog fails now arrange_audit c = (c', inl n) ->
  cy_src c' = src /\ touches PAudit (cy_dst c) (cy_dst c') /\
  forall k r, db_audit (st_db src) !! k = Some r -> db_audit (st_db (cy_dst c')) !! k = Some (audit_defaults "" now r).
Proof.
  intros Hsrc Hkey Hrun. apply bind_ok in Hrun as (entries & c1 & Hread & Hrun). apply read_from_ok in Hread as (Hl & Hs1 & Hd1).
  apply bind_ok in Hrun as (u & c2 & Hcap & Hrun). apply checkRowCap_ok in Hcap as [-> Hcap]. rewrite Hsrc in Hl. unfold ListAuditEntries in Hl.
  destruct (fails (cy_calls c) 0%nat); [done|]. injection Hl as Hl.
  assert (entries = take (Z.to_nat migrateRowCap) (isort (less_of audit_cmp) (arrange_audit (map snd (map_to_list (db_audit (st_db src))))))) as ->
    by (rewrite <- Hl, filter_true by (by intros []); done). rewrite (under_cap _ Hcap) in Hrun.
  set (l := isort _ _) in Hrun. assert (Hp : l ≡ₚ map snd (map_to_list (db_audit (st_db src)))) by (unfold l; by rewrite isort_perm, audit_perm).
  destruct (map_values_keys au_ID (db_audit (st_db src)) l (fun k r H => proj1 (Hkey k r H)) Hp) as [Hnd Hin].
  assert (Hid : forall r, au_ID (audit_defaults "" now r) = au_ID r) by (intros r; cbn; by destruct (String.eqb_spec (au_ID r) "") as [->|]).
  destruct (rows_ok (fun e => "write audit " ++ au_ID e)%string (fun e fs => on_db (SaveAuditEntry (fs 0%nat) "" now e))
    PAudit au_ID (fun s k => db_audit (st_db s) !! k) (audit_defaults "" now) src l 0 c1 c' n) as (H1 & H2 & H3); [|by rewrite Hs1|done|done|].
  - intros a fs s d Hw. apply on_db_ok in Hw as (db & Hw & ->). apply single_ok in Hw as [_ Hw]. rewrite Hid in Hw.
    destruct (db_audit (st_db s) !! au_ID a); [done|]. injection Hw as <-. cbn. split; [|split].
    + intros q Hq. by destruct q.
    + apply lookup_insert_eq.
    + intros k Hk. by apply lookup_insert_ne.
  - split_and!; [done|by rewrite <- Hd1|]. intros k a Ha. rewrite <- (proj1 (Hkey k a Ha)). apply H3. by eapply Hin.
Qed.

(** ** Tags *)

Lemma elem_of_tag_pairs tags c k v : (c, k, v) ∈ tag_pairs tags <-> exists m, tags !! c = Some m /\ m !! k = Some v.
Proof.
  unfold tag_pairs. rewrite list_elem_of_In, in_concat. split.
  - intros (l & Hl & Hin). apply in_map_iff in Hl as ([c' m] & <- & Hm). apply in_map_iff in Hin as ([s' r'] & [= -> -> ->] & Hr).
    apply list_elem_of_In, elem_of_map_to_list in Hm, Hr. by exists m.
  - intros (m & Hm & Hr). exists (map (fun kv => (c, fst kv, snd kv)) (map_to_list m)). split.
    + apply in_map_iff. exists (c, m). split; [done|]. by apply list_elem_of_In, elem_of_map_to_list.
    + apply in_map_iff. exists (k, v). split; [done|]. by apply list_elem_of_In, elem_of_map_to_list.
Qed.

Lemma tag_pairs_keys tags : NoDup (map fst (tag_pairs tags)).
Proof.
  unfold tag_pairs. pose proof (NoDup_fst_map_to_list tags) as Hnd. induction (map_to_list tags) as [|[c m] l IH]; [constructor|].
  cbn [fmap list_fmap fst] in Hnd. apply NoDup_cons in Hnd as [Hni Hnd]. cbn [map concat]. rewrite map_app. apply NoDup_app. split_and!.
  - rewrite map_map. cbn. pose proof (NoDup_fst_map_to_list m) as Hm. revert Hm. clear. cbn [fst snd].
    induction (map_to_list m) as [|[k v] l IH]; intros Hm; [constructor|]. cbn [fmap list_fmap fst] in Hm. apply NoDup_cons in Hm as [H1 H2].
    cbn [map fst]. apply NoDup_cons. split; [|by apply IH]. intros Hin. apply H1. apply list_elem_of_In, in_map_iff in Hin as ([k' v'] & [= ->] & Hin).
    apply list_elem_of_fmap. exists (k, v'). split; [done|]. by apply list_elem_of_In.
  - intros [c' k'] Hin Hin'. apply Hni. rewrite map_map in Hin. apply list_elem_of_In, in_map_iff in Hin as ([k v] & [= <- <-] & _).
    apply list_elem_of_In, in_map_iff in Hin' as ([[c'' k''] v''] & [= -> ->] & Hin').
    apply in_concat in Hin' as (l' & Hl' & Hin'). apply in_map_iff in Hl' as ([c3 m3] & <- & Hm3). apply in_map_iff in Hin' as ([? ?] & [= <- _ _] & _).
    apply list_elem_of_fmap. exists (c3, m3). split; [done|]. by apply list_elem_of_In.
  - by apply IH.
Qed.

Lemma listed_tags db tags : ListClusterTags None db = inl tags -> forall c k, (tags !! c ≫= (.!! k)) = db_tags db !! (c, k).
Proof.
  intros [= <-] c k. rewrite <- (list_to_map_to_list (db_tags db)) at 2. induction (map_to_list (db_tags db)) as [|[[c' k'] v] l IH]; [cbn; by rewrite !lookup_empty|].
  cbn [foldr add_tag list_to_map fst snd]. destruct (decide (c' = c)) as [->|Hc].
  - rewrite lookup_insert_eq. cbn. destruct (decide (k' = k)) as [->|Hk]; [by rewrite !lookup_insert_eq|].
    rewrite !lookup_insert_ne by congruence. rewrite <- IH. destruct (foldr add_tag ∅ l !! c) as [m|]; cbn; [done|apply lookup_empty].
  - rewrite !lookup_insert_ne by congruence. exact IH.
Qed.

Lemma copyTags_ok src c c' n : cy_src c = src -> copyTags fails arrange_tags c = (c', inl n) ->
  cy_src c' = src /\ touches PTags (cy_dst c) (cy_dst c') /\
  forall k v, db_tags (st_db src) !! k = Some v -> db_tags (st_db (cy_dst c')) !! k = Some v.
Proof.
  intros Hsrc Hrun. apply bind_ok in Hrun as (tags & c1 & Hread & Hrun). apply read_from_ok in Hread as (Hl & Hs1 & Hd1).
  rewrite Hsrc in Hl. assert (Hl' : ListClusterTags None (st_db src) = inl tags) by (unfold ListClusterTags in Hl; destruct (fails (cy_calls c) 0%nat); [discriminate Hl|exact Hl]).
  pose proof (listed_tags _ _ Hl') as Htags.
  set (l := arrange_tags _) in Hrun. assert (Hp : l ≡ₚ tag_pairs tags) by apply tags_perm.
  destruct (upserts_ok (fun e : string * string * string => let '(c, k, v) := e in
      write fails ("write tag " ++ c ++ "/" ++ k)%string (fun fs => on_db (SetClusterTag (fs 0%nat) c k v))) PTags src fst
    (fun s k => (fun v => (fst k, snd k, v)) <$> db_tags (st_db s) !! k) id) with (l := l) (n := 0%nat) (c := c1) (c' := c') (m := n) as (H1 & H2 & H3).
  - intros [[c0 k0] v0] c2 c3 b Hs Hw. apply write_ok in Hw as (d & Hw & Hs' & ->). apply on_db_ok in Hw as (db & Hw & ->).
    unfold SetClusterTag in Hw. destruct (_ || _); [done|]. apply single_ok in Hw as [_ [= <-]]. split; [congruence|]. cbn. split; [|split].
    + intros q Hq. by destruct q.
    + by rewrite lookup_insert_eq.
    + intros k Hk. by rewrite lookup_insert_ne.
  - by rewrite Hs1.
  - rewrite Hp. apply tag_pairs_keys.
  - exact Hrun.
  - split_and!; [done|by rewrite <- Hd1|]. intros [c0 k0] v Hv. specialize (H3 (c0, k0, v)). cbn in H3.
    assert ((c0, k0, v) ∈ l) as Hin.
    { rewrite Hp. apply elem_of_tag_pairs. rewrite <- Htags in Hv. destruct (tags !! c0) as [m|]; [|done]. by exists m. }
    specialize (H3 Hin). destruct (db_tags _ !! _) as [v'|]; [|done]. cbn in H3. congruence.
Qed.

(** ** Groups *)

Lemma group_list_spec db l : consistent db -> ListGroups None None db = inl l -> NoDup (map gr_Name l) /\
  forall g s, group_view db g = Some s -> {| gr_Name := g; gr_Clusters := names_of s |} ∈ l.
Proof.
  intros Hc Hl. destruct (groups_listed db) as (l' & Hl' & Hnames & Hin). assert (l' = l) as -> by congruence. split.
  - rewrite Hnames. unfold names_of. apply sort_strings_NoDup, NoDup_elements.
  - intros g s Hg. assert (g ∈ map gr_Name l) as Hgl.
    { rewrite Hnames. unfold names_of. rewrite sort_strings_perm, elem_of_elements. unfold group_view in Hg. by destruct (decide (g ∈ db_groups db)). }
    apply list_elem_of_In, in_map_iff in Hgl as (r & <- & Hr). apply list_elem_of_In in Hr. destruct (Hin r Hr) as [H1 H2]. rewrite H1 in Hg. injection Hg as <-.
    rewrite <- H2. by destruct r.
Qed.

Lemma copyGroups_ok src c c' n : cy_src c = src -> consistent (st_db src) -> copyGroups fails c = (c', inl n) ->
  cy_src c' = src /\ touches PGroups (cy_dst c) (cy_dst c') /\
  forall g s, group_view (st_db src) g = Some s -> group_view (st_db (cy_dst c')) g = Some s.
Proof.
  intros Hsrc Hcon Hrun. apply bind_ok in Hrun as (groups & c1 & Hread & Hrun). apply read_from_ok in Hread as (Hl & Hs1 & Hd1).
  rewrite Hsrc in Hl. unfold ListGroups in Hl. destruct (fails (cy_calls c) 0%nat); [done|]. destruct (fails (cy_calls c) 1%nat) eqn:Ef; [done|].
  assert (Hl' : ListGroups None None (st_db src) = inl groups) by exact Hl. destruct (group_list_spec _ _ Hcon Hl') as [Hnd Hin].
  destruct (for_each_ok (fun g => write fails ("write group " ++ gr_Name g)%string (fun fs => on_db (SaveGroup fs (gr_Name g) (gr_Clusters g)))) PGroups src
    (fun g => g ∈ groups) (fun g d => group_view (st_db d) (gr_Name g) = Some (list_to_set (gr_Clusters g))) (fun _ => True) groups 0 c1 c' n) as (H1 & _ & H2 & H3 & _).
  - intros g Hg c2 c3 b Hs _ _ Hw. apply write_ok in Hw as (d & Hw & Hs' & ->). apply on_db_ok in Hw as (db & Hw & ->).
    pose proof (save_group_effect (fails (cy_calls c2)) (gr_Name g) (gr_Clusters g) (st_db (cy_dst c2))) as He. rewrite Hw in He. destruct He as [_ ->].
    pose proof (saved_group_view (st_db (cy_dst c2)) (gr_Name g) (gr_Clusters g)) as Hv. split_and!; [congruence|done| | |].
    + intros q Hq. by destruct q.
    + cbn. rewrite Hv. by rewrite decide_True.
    + intros g' Hne Hg' Hh. cbn. rewrite Hv, decide_False; [done|]. intros E. apply Hne. clear -Hnd Hg Hg' E.
      induction groups as [|x l IH]; [by apply not_elem_of_nil in Hg|]. cbn [map] in Hnd. apply NoDup_cons in Hnd as [Hni Hnd].
      assert (forall y, y ∈ l -> gr_Name y <> gr_Name x) as Hx.
      { intros y Hy Ey. apply Hni. rewrite <- Ey. apply list_elem_of_In, in_map_iff. exists y. split; [done|]. by apply list_elem_of_In. }
      apply elem_of_cons in Hg as [->|Hg], Hg' as [->|Hg']; [done|by apply Hx in E|symmetry in E; by apply Hx in E|by apply IH].
  - done.
  - by rewrite Hs1.
  - done.
  - by eapply NoDup_fmap_1.
  - exact Hrun.
  - split_and!; [done|by rewrite <- Hd1|]. intros g s Hg. pose proof (H3 _ (Hin g s Hg)) as Hv. cbn [gr_Name gr_Clusters] in Hv. rewrite Hv. f_equal. apply set_eq. intros x.
    unfold names_of. by rewrite elem_of_list_to_set, sort_strings_perm, elem_of_elements.
Qed.

(** ** API keys *)

Definition unique_keys (rows : KeyTable) : Prop := NoDup (map ak_ID rows) /\ NoDup (map ak_TokenHash rows).

Definition copied_key (k : APIKeyRecord) : APIKeyRecord := key_row (with_defaults now k).

Definition held_key (k r : APIKeyRecord) : Prop := ak_ID r = ak_ID k \/ ak_TokenHash r = ak_TokenHash k.

Lemma held_exists k rows : existsb (has_id (ak_ID k)) rows || existsb (has_hash (ak_TokenHash k)) rows = true -> exists r, r ∈ rows /\ held_key k r.
Proof.
  intros [H|H]%orb_true_iff; apply existsb_exists in H as (r & Hr%list_elem_of_In & E%String.eqb_eq); exists r; (split; [done|]); [by left|by right].
Qed.

Lemma NoDup_map_eq {A} (key : A -> string) l a b : NoDup (map key l) -> a ∈ l -> b ∈ l -> key a = key b -> a = b.
Proof.
  intros Hnd Ha Hb E. apply list_elem_of_lookup in Ha as [i Hi], Hb as [j Hj].
  assert (i = j) as ->; [|congruence]. eapply (NoDup_lookup (map key l)); [done| |]; rewrite list_lookup_fmap; [by rewrite Hi|by rewrite Hj, E].
Qed.

Lemma copyAPIKeys_ok src c c' n : cy_src c = src -> unique_keys (st_keys src) -> copyAPIKeys fails now arrange_keys c = (c', inl n) ->
  cy_src c' = src /\ touches PKeys (cy_dst c) (cy_dst c') /\
  forall k, k ∈ st_keys src -> copied_key k ∈ st_keys (cy_dst c') \/ exists r, r ∈ st_keys (cy_dst c) /\ held_key k r.
Proof.
  intros Hsrc [Hids Hhashes] Hrun. apply bind_ok in Hrun as (keys & c1 & Hread & Hrun). apply read_from_ok in Hread as (Hl & Hs1 & Hd1).
  apply bind_ok in Hrun as (m & c2 & Hrun & [= <- _]). rewrite Hsrc in Hl. unfold ListAPIKeys in Hl. destruct (fails (cy_calls c) 0%nat); [done|]. injection Hl as <-.
  set (l := isort _ _) in Hrun. assert (Hp : l ≡ₚ st_keys src) by (unfold l; by rewrite isort_perm, keys_perm).
  destruct (for_each_ok (copy_key fails now) PKeys src (fun k => k ∈ l)
    (fun k d => copied_key k ∈ st_keys d \/ exists r, r ∈ st_keys (cy_dst c) /\ held_key k r)
    (fun d => forall r, r ∈ st_keys d -> r ∈ st_keys (cy_dst c) \/ exists k, k ∈ l /\ r = copied_key k) l 0 c1 c2 m) as (H1 & _ & H2 & H3 & _).
  - intros k _ d0 d1 b Hs Hinv Hk Hrun'. unfold copy_key, SaveAPIKey in Hrun'. destruct (_ || _); [done|]. destruct (negb _); [done|].
    destruct (fails (cy_calls d0) 0%nat); [done|]. destruct (existsb _ _ || existsb _ _) eqn:E; injection Hrun' as <- _; cbn.
    + split_and!; [done|done|by intros []| |done]. apply held_exists in E as (r & Hr & Hh). destruct (Hinv r Hr) as [Hr0|(k' & Hk' & ->)]; [right; by exists r|].
      left. assert (k' = k) as <-; [|done]. rewrite Hp in Hk, Hk'. destruct Hh as [Hh|Hh]; [by apply (NoDup_map_eq ak_ID (st_keys src))|by apply (NoDup_map_eq ak_TokenHash (st_keys src))].
    + split_and!; [done| |by intros []| |].
      * intros r [Hr| ->%list_elem_of_singleton]%elem_of_app; [by apply Hinv|]. right. by exists k.
      * left. apply elem_of_app. right. by apply list_elem_of_singleton.
      * intros k' _ _ [Hk'|Hh]; [|by right]. left. apply elem_of_app. by left.
  - done.
  - congruence.
  - rewrite Hd1. by left.
  - rewrite Hp. by eapply NoDup_fmap_1.
  - exact Hrun.
  - split_and!; [done|by rewrite <- Hd1|]. intros k Hk. apply H3. by rewrite Hp.
Qed.

(** ** Everything *)

(** What the source keeps, as the store writes it. *)
Record kept (src : Stores) : Prop := {
  kept_db : consistent (st_db src);
  kept_scans : forall s, s ∈ all_scans (st_db src) -> sn_ID s <> ""%string;
  kept_locations : forall k l, db_locations (st_db src) !! k = Some l -> lc_Cluster l = k;
  kept_acks : keyed_acks (st_acks src);
  kept_keys : unique_keys (st_keys src);
  kept_audit : keyed_audit src;
  kept_alerts : keyed_alerts (st_alerts src) }.

Definition scans_held (src d : Stores) : Prop := forall s, s ∈ all_scans (st_db src) -> scan_copied src s d.
Definition groups_held (src d : Stores) : Prop := forall g s, group_view (st_db src) g = Some s -> group_view (st_db d) g = Some s.
Definition locations_held (src d : Stores) : Prop := forall k l, db_locations (st_db src) !! k = Some l -> db_locations (st_db d) !! k = Some (at_time now l).
Definition acks_held (src d : Stores) : Prop :=
  forall k a, st_acks src !! k = Some a -> snooze_over now a = false -> st_acks d !! k = Some (ack_row now a).
Definition keys_held (src d0 d : Stores) : Prop :=
  forall k, k ∈ st_keys src -> copied_key k ∈ st_keys d \/ exists r, r ∈ st_keys d0 /\ held_key k r.
Definition audit_held (src d : Stores) : Prop := forall k r, db_audit (st_db src) !! k = Some r -> db_audit (st_db d) !! k = Some (audit_defaults "" now r).
Definition tags_held (src d : Stores) : Prop := forall k v, db_tags (st_db src) !! k = Some v -> db_tags (st_db d) !! k = Some v.
Definition alerts_held (src d : Stores) : Prop := forall k a, st_alerts src !! k = Some a -> st_alerts d !! k = Some (received now a).

(** What the copy of one table brings to the destination, which held [d0] before. *)
Definition held (p : part) (src d0 d : Stores) : Prop :=
  match p with
  | PScans => scans_held src d
  | PGroups => groups_held src d
  | PLocations => locations_held src d
  | PAcks => acks_held src d
  | PKeys => keys_held src d0 d
  | PAudit => audit_held src d
  | PTags => tags_held src d
  | PAlerts => alerts_held src d
  end.

Lemma held_part p src d0 d d' : held p src d0 d -> same_part p d d' -> held p src d0 d'.
Proof.
  destruct p; cbn [held same_part].
  - intros H (E1 & E2 & E3) s Hs. destruct (H s Hs) as (results & Hr & Hst & Hrows). exists results. split; [done|]. split; [by rewrite E1|]. intros. by rewrite E2.
  - intros H (E1 & E2) g s Hg. specialize (H g s Hg). unfold group_view, group_members in *. by rewrite E1, E2.
  - intros H E k l Hl. rewrite E. by apply H.
  - intros H E k a Ha Hs. rewrite E. by apply H.
  - intros H E k Hk. rewrite E. by apply H.
  - intros H E k r Hr. rewrite E. by apply H.
  - intros H E k v Hv. rewrite E. by apply H.
  - intros H E k a Ha. rewrite E. by apply H.
Qed.

(** The tables done so far hold the source's rows; the others are as they were. *)
Definition copied_so_far (ps : list part) (src d0 d : Stores) : Prop := (forall p, p ∈ ps -> held p src d0 d) /\ forall p, p ∉ ps -> same_part p d0 d.

Lemma copied_step ps p src d0 d d' : p ∉ ps -> copied_so_far ps src d0 d -> touches p d d' -> held p src d d' -> copied_so_far (p :: ps) src d0 d'.
Proof.
  intros Hp [Hheld Hsame] Ht Hh. split.
  - intros q [->|Hq]%elem_of_cons.
    + destruct p; try exact Hh. intros k Hk. pose proof (Hsame PKeys Hp) as E. cbn in E. rewrite <- E. by apply Hh.
    + eapply held_part; [by apply Hheld|]. apply Ht. by intros ->.
  - intros q [Hne Hq]%not_elem_of_cons. eapply same_part_trans; [by apply Hsame|]. by apply Ht.
Qed.

(** Reading changes neither store, so the checks before and after the copy leave it as it is. *)
Definition reads_only {A} (m : M A) : Prop := forall c c' r, m c = (c', r) -> cy_src c' = cy_src c /\ cy_dst c' = cy_dst c.

Lemma reads_bind {A B} (m : M A) (f : A -> M B) : reads_only m -> (forall a, reads_only (f a)) -> reads_only (bind m f).
Proof.
  intros Hm Hf c c' r. unfold bind. destruct (m c) as [c1 [a|e]] eqn:E.
  - intros H. destruct (Hm _ _ _ E) as [<- <-]. by eapply Hf.
  - intros [= <- <-]. by eapply Hm.
Qed.

Lemma reads_ret {A} (a : A) : reads_only (ret a).
Proof. by intros c c' r [= <- _]. Qed.

Lemma reads_stop {A} e : reads_only (@stop A e).
Proof. by intros c c' r [= <- _]. Qed.

Lemma reads_read {A} what (f : (nat -> option string) -> Stores -> A + store_error) from : reads_only (read_from fails what f from).
Proof. intros c c' r. unfold read_from. by destruct (f _ _); intros [= <- _]. Qed.

Lemma reads_at_least table want got : reads_only (at_least table want got).
Proof. unfold at_least. destruct (_ <? _)%nat; [apply reads_stop|apply reads_ret]. Qed.

Lemma refuse_reads : reads_only (refuseIfDestinationNotEmpty fails arrange_keys).
Proof.
  apply reads_bind; [apply reads_read|]. intros [|]; [|apply reads_stop]. apply reads_bind; [apply reads_read|]. intros [|]; [apply reads_ret|apply reads_stop].
Qed.

Lemma verify_reads want : reads_only (verifyCounts fails arrange_alerts want).
Proof. unfold verifyCounts. repeat (apply reads_bind; [apply reads_read || apply reads_at_least|intros ?]). apply reads_at_least. Qed.

Lemma copy_all_ok src c c' n : kept src -> consistent (st_db (cy_dst c)) -> cy_src c = src ->
  copy_all Marshal Unmarshal fails now arrange_entries arrange_acks arrange_keys arrange_audit arrange_alerts arrange_tags c = (c', inl n) ->
  forall p, held p src (cy_dst c) (cy_dst c').
Proof.
  intros [K1 K2 K3 K4 K5 K6 K7] Hcon Hsrc Hrun. unfold copy_all in Hrun.
  assert (P0 : copied_so_far [] src (cy_dst c) (cy_dst c)) by (split; [by intros ? ?%not_elem_of_nil|intros p _; apply same_part_refl]).
  apply bind_ok in Hrun as (n1 & c1 & Hm & Hrun). destruct (copyScans_ok src _ _ _ Hsrc Hcon K2 Hm) as (S1 & T1 & H1).
  eapply (copied_step _ PScans) in P0; [|set_solver|exact T1|exact H1]. clear Hm.
  apply bind_ok in Hrun as (n2 & c2 & Hm & Hrun). destruct (copyGroups_ok src _ _ _ S1 K1 Hm) as (S2 & T2 & H2).
  eapply (copied_step _ PGroups) in P0; [|set_solver|exact T2|exact H2]. clear Hm.
  apply bind_ok in Hrun as (n3 & c3 & Hm & Hrun). destruct (copyLocations_ok src _ _ _ S2 K3 Hm) as (S3 & T3 & H3).
  eapply (copied_step _ PLocations) in P0; [|set_solver|exact T3|exact H3]. clear Hm.
  apply bind_ok in Hrun as (n4 & c4 & Hm & Hrun). destruct (copyAcks_ok src _ _ _ S3 K4 Hm) as (S4 & T4 & H4).
  eapply (copied_step _ PAcks) in P0; [|set_solver|exact T4|exact H4]. clear Hm.
  apply bind_ok in Hrun as (n5 & c5 & Hm & Hrun). destruct (copyAPIKeys_ok _ _ _ _ S4 K5 Hm) as (S5 & T5 & H5).
  eapply (copied_step _ PKeys) in P0; [|set_solver|exact T5|exact H5]. clear Hm.
  apply bind_ok in Hrun as (n6 & c6 & Hm & Hrun). destruct (copyAuditLog_ok _ _ _ _ S5 K6 Hm) as (S6 & T6 & H6).
  eapply (copied_step _ PAudit) in P0; [|set_solver|exact T6|exact H6]. clear Hm.
  apply bind_ok in Hrun as (n7 & c7 & Hm & Hrun). destruct (copyTags_ok _ _ _ _ S6 Hm) as (S7 & T7 & H7).
  eapply (copied_step _ PTags) in P0; [|set_solver|exact T7|exact H7]. clear Hm.
  apply bind_ok in Hrun as (n8 & c8 & Hm & Hrun). destruct (copyAlerts_ok _ _ _ _ S7 K7 Hm) as (S8 & T8 & H8).
  eapply (copied_step _ PAlerts) in P0; [|set_solver|exact T8|exact H8].
  injection Hrun as <- _. intros p. apply P0, list_elem_of_In. destruct p; cbn; tauto.
Qed.

Lemma run_copies force verify c c' n :
  runMigrate Marshal Unmarshal fails now arrange_entries arrange_acks arrange_keys arrange_audit arrange_alerts arrange_tags force verify c = (c', inl n) ->
  exists c1 c2 m, cy_src c1 = cy_src c /\ cy_dst c1 = cy_dst c /\ cy_dst c' = cy_dst c2 /\
    copy_all Marshal Unmarshal fails now arrange_entries arrange_acks arrange_keys arrange_audit arrange_alerts arrange_tags c1 = (c2, inl m).
Proof.
  intros Hrun. apply bind_ok in Hrun as (u & c1 & Hpre & Hrun). apply bind_ok in Hrun as (counts & c2 & Hcopy & Hrun).
  apply bind_ok in Hrun as (u' & c3 & Hpost & [= <- _]). exists c1, c2, counts.
  assert (Hpre' : cy_src c1 = cy_src c /\ cy_dst c1 = cy_dst c) by (destruct force; [by apply (reads_ret tt) in Hpre|by apply refuse_reads in Hpre]).
  assert (Hpost' : cy_dst c3 = cy_dst c2) by (destruct verify; [by apply verify_reads in Hpost as [_ ?]|by apply (reads_ret tt) in Hpost as [_ ?]]).
  by destruct Hpre'.
Qed.

End Complete.

(** ** What a run promises *)

Section Runs.

Context (Marshal : json -> string + string) (Unmarshal : string -> json + string) (fails : nat -> nat -> option string) (now : Z).
Context (arrange_entries : list (string * string * Result) -> list (string * string * Result))
  (arrange_acks : list AckRecord -> list AckRecord) (arrange_keys : KeyTable -> KeyTable) (arrange_audit : list AuditRow -> list AuditRow)
  (arrange_alerts : list AlertRecord -> list AlertRecord) (arrange_tags : list (string * string * string) -> list (string * string * string)).

(** C9: a copy that ends without an error, whatever the driver ran into on the way, has brought
    the rows of the eight parts it copies, in every store the product writes ([kept]): each scan
    under its id with all its results, each group with its members, each location, each tag, each
    audit entry and alert, each acknowledgement whose snooze is not over, and each key unless the
    destination held its id or its hash before. Not everything comes along: the table of the
    clusters seen is not copied ([seen_clusters_lost]), acknowledgements whose snooze is over are
    left behind, and times are rewritten on the way: a location has the time of the copy, a
    missing time of a scan, a key, an audit entry, an alert or an acknowledgement becomes the time
    of the copy, scans, keys and acknowledgements keep their times to the second, and a key without
    scopes gets the wildcard. *)
Theorem copy_complete force verify src c c' n :
  (forall l, arrange_entries l ≡ₚ l) -> (forall l, arrange_acks l ≡ₚ l) -> (forall l, arrange_keys l ≡ₚ l) -> (forall l, arrange_audit l ≡ₚ l) ->
  (forall l, arrange_alerts l ≡ₚ l) -> (forall l, arrange_tags l ≡ₚ l) ->
  (forall text d, Unmarshal text = inl d -> exists text', Marshal d = inl text' /\ Unmarshal text' = inl d) ->
  kept src -> consistent (st_db (cy_dst c)) -> cy_src c = src ->
  runMigrate Marshal Unmarshal fails now arrange_entries arrange_acks arrange_keys arrange_audit arrange_alerts arrange_tags force verify c = (c', inl n) ->
  forall p, held Marshal Unmarshal now p src (cy_dst c) (cy_dst c').
Proof.
  intros A1 A2 A3 A4 A5 A6 J Hk Hcon Hs Hrun. apply run_copies in Hrun as (c1 & c2 & m & E1 & E2 & -> & Hcopy). rewrite <- E2.
  eapply copy_all_ok; [done..| |congruence|exact Hcopy]. by rewrite E2.
Qed.

(** Without the flag that allows it, a run writes nothing into a destination that already has scans or keys, and ends in an error. *)
Theorem used_destination_kept verify c : all_scans (st_db (cy_dst c)) <> [] \/ st_keys (cy_dst c) <> [] ->
  (forall l, arrange_keys l ≡ₚ l) ->
  exists c' e, runMigrate Marshal Unmarshal fails now arrange_entries arrange_acks arrange_keys arrange_audit arrange_alerts arrange_tags false verify c =
    (c', inr e) /\ cy_dst c' = cy_dst c /\ cy_src c' = cy_src c.
Proof.
  intros Hused Hperm. unfold runMigrate. destruct (refuseIfDestinationNotEmpty fails arrange_keys c) as [c' [u|e]] eqn:E.
  - exfalso. apply bind_ok in E as (scans & c1 & Hl & E). apply read_from_ok in Hl as (Hl & _ & Hd1). unfold ListScans in Hl.
    destruct (fails (cy_calls c) 0%nat); [done|]. injection Hl as <-.
    destruct (sql_limit 1 (isort (less_of newest_cmp) (all_scans (st_db (cy_dst c))))) as [|s l] eqn:Es; [|done].
    assert (Hnone : all_scans (st_db (cy_dst c)) = []).
    { apply Permutation_nil. rewrite <- (isort_perm (less_of newest_cmp) (all_scans (st_db (cy_dst c)))). revert Es. by destruct (isort (less_of newest_cmp) (all_scans (st_db (cy_dst c)))). }
    destruct Hused as [?|Hkeys]; [done|]. apply bind_ok in E as (keys & c2 & Hk & E). apply read_from_ok in Hk as (Hk & _ & _). unfold ListAPIKeys in Hk.
    destruct (fails (cy_calls c1) 0%nat); [done|]. injection Hk as <-. rewrite Hd1 in E.
    destruct (isort (less_of created_cmp) (arrange_keys (st_keys (cy_dst c)))) eqn:Ek; [|done].
    apply Hkeys. apply Permutation_nil. rewrite <- (Hperm (st_keys (cy_dst c))), <- (isort_perm (less_of created_cmp) (arrange_keys (st_keys (cy_dst c)))). by rewrite Ek.
  - exists c', e. pose proof (refuse_reads fails arrange_keys c c' _ E) as [E1 E2]. split_and!; [|done|done]. unfold bind at 1. by rewrite E.
Qed.

End Runs.

(** ** A copy *)

Definition sample_key : APIKeyRecord := {| ak_ID := "k1"; ak_TokenHash := "h1"; ak_Name := "ci"; ak_Role := "viewer"; ak_ClusterScope := ["*"];
  ak_CreatedAt := noon; ak_ExpiresAt := 0; ak_LastUsedAt := 0; ak_RevokedAt := 0; ak_CreatedBy := "root" |}%string.

Definition sample_source : Stores := {| st_db := sample_db; st_keys := [sample_key]; st_acks := ∅; st_alerts := ∅ |}.

Definition sample_run (force : bool) (src : Stores) : Copying * (migrationCounts + copy_error) :=
  runMigrate sample_marshal sample_unmarshal (fun _ _ => None) noon id id id id id id force true {| cy_src := src; cy_dst := fresh_stores; cy_calls := 0 |}.

Lemma sample_kept : kept sample_source.
Proof.
  constructor; cbn.
  - apply store_consistent_sample.
  - intros s (row & Hrow & ->)%elem_of_all_scans. cbn. assert (db_scans sample_db = {["s1"%string := scan_row_of noon sample_rec sample_results]}) as E by (vm_compute; reflexivity).
    rewrite E in Hrow. by apply lookup_singleton_Some in Hrow as [<- _].
  - intros k l H. vm_compute in H. discriminate.
  - intros k a H. by rewrite lookup_empty in H.
  - split; vm_compute; repeat constructor; set_solver.
  - intros k r H. vm_compute in H. discriminate.
  - intros k a H. by rewrite lookup_empty in H.
Qed.

Lemma sample_stable text d : sample_unmarshal text = inl d -> exists text', sample_marshal d = inl text' /\ sample_unmarshal text' = inl d.
Proof. unfold sample_unmarshal. destruct (String.eqb text "null"); [|done]. intros [= <-]. by exists "null"%string. Qed.

Lemma sample_run_ends : exists n, sample_run false sample_source = (fst (sample_run false sample_source), inl n) /\ mc_APIKeys n = 1%nat.
Proof. eexists. split; [vm_compute; reflexivity|reflexivity]. Qed.

Lemma copy_complete_witness : copied_key noon sample_key ∈ st_keys (cy_dst (fst (sample_run false sample_source))).
Proof.
  destruct sample_run_ends as (n & Hn & _).
  destruct (copy_complete sample_marshal sample_unmarshal (fun _ _ => None) noon id id id id id id false true sample_source
    {| cy_src := sample_source; cy_dst := fresh_stores; cy_calls := 0 |} (fst (sample_run false sample_source)) n
    (fun l => Permutation_refl l) (fun l => Permutation_refl l) (fun l => Permutation_refl l) (fun l => Permutation_refl l) (fun l => Permutation_refl l)
    (fun l => Permutation_refl l) sample_stable sample_kept consistent_empty eq_refl Hn PKeys sample_key ltac:(by left)) as [H|(r & H & _)].
  - exact H.
  - change (r ∈ []) in H. destruct (not_elem_of_nil r H).
Defined.

Lemma used_destination_kept_witness : exists c' e,
  runMigrate sample_marshal sample_unmarshal (fun _ _ => None) noon id id id id id id false true
    {| cy_src := fresh_stores; cy_dst := sample_source; cy_calls := 0 |} = (c', inr e) /\ cy_dst c' = sample_source.
Proof.
  assert (st_keys sample_source <> []) as Hk by discriminate.
  destruct (used_destination_kept sample_marshal sample_unmarshal (fun _ _ => None) noon id id id id id id true
    {| cy_src := fresh_stores; cy_dst := sample_source; cy_calls := 0 |} (or_intror Hk) (fun l => Permutation_refl l))
    as (c' & e & H1 & H2 & _). exists c', e. exact (conj H1 H2).
Defined.

(** The table of the clusters seen is not copied: those whose scans are pruned away are gone from the copy, and the dates of the others start anew. *)
Lemma seen_clusters_lost : exists c n, sample_run false (with_db (fst (Prune None (noon + Minute) sample_db)) sample_source) = (c, inl n) /\
  db_clusters (st_db (cy_src c)) <> ∅ /\ db_clusters (st_db (cy_dst c)) = ∅.
Proof. eexists _, _. split; [vm_compute; reflexivity|]. split; [discriminate|reflexivity]. Qed.
