(* ===== verification/Fanout.v ===== *)
(** * Fanning out: the worker pools of scan_once.go and kube/client.go

    [RunScanners] and [ConnectAll] hand their jobs to goroutines, at most a given number of them
    at once, from a loop that gives up on a job when the context is done. The pool is a state
    and the steps its goroutines take in any order; what a job returns is an input. *)

From Stdlib Require Import ZArith Lia String Ascii.
From stdpp Require Import base gmap strings list option.
From S2P Require Import Prelude GoTime Data Build.

Local Open Scope Z_scope.

(** ** A pool *)

Section Pool.

(** [T] is what the goroutines share, [finish] and [skip] what a job that ran or was given up
    does to it. [first] says whether the loop looks at the context before it waits for a slot. *)
Context {J O T : Type} (finish : J -> O -> T -> T) (skip : J -> string -> T -> T) (first : bool) (size : nat).

Record Pool := { po_jobs : list J; po_checked : bool; po_running : list J; po_shared : T; po_ctx : option string }.

Definition new_pool (jobs : list J) (shared : T) : Pool := {|
  po_jobs := jobs; po_checked := negb first; po_running := []; po_shared := shared; po_ctx := None |}.

Inductive pool_op :=
| OpCancel (err : string)
| OpCheck
| OpAcquire
| OpGiveUp
| OpFinish (i : nat) (o : O).

Definition leave_job (j : J) (err : string) (rest : list J) (p : Pool) : Pool := {|
  po_jobs := rest; po_checked := negb first; po_running := po_running p; po_shared := skip j err (po_shared p); po_ctx := po_ctx p |}.

(** One step, when it can be taken. *)
Definition pool_step (op : pool_op) (p : Pool) : option Pool :=
  match op with
  | OpCancel err =>
      match po_ctx p with
      | Some _ => None
      | None => Some {| po_jobs := po_jobs p; po_checked := po_checked p; po_running := po_running p; po_shared := po_shared p; po_ctx := Some err |}
      end
  | OpCheck =>
      match po_checked p, po_jobs p with
      | false, j :: rest =>
          match po_ctx p with
          | Some err => Some (leave_job j err rest p)
          | None => Some {| po_jobs := po_jobs p; po_checked := true; po_running := po_running p; po_shared := po_shared p; po_ctx := po_ctx p |}
          end
      | _, _ => None
      end
  | OpAcquire =>
      match po_checked p, po_jobs p with
      | true, j :: rest =>
          if (length (po_running p) <? size)%nat
          then Some {| po_jobs := rest; po_checked := negb first; po_running := po_running p ++ [j]; po_shared := po_shared p; po_ctx := po_ctx p |}
          else None
      | _, _ => None
      end
  | OpGiveUp =>
      match po_checked p, po_jobs p, po_ctx p with
      | true, j :: rest, Some err => Some (leave_job j err rest p)
      | _, _, _ => None
      end
  | OpFinish i o =>
      match po_running p !! i with
      | Some j => Some {| po_jobs := po_jobs p; po_checked := po_checked p; po_running := delete i (po_running p);
                          po_shared := finish j o (po_shared p); po_ctx := po_ctx p |}
      | None => None
      end
  end.

(** The loop is over and every goroutine has ended. *)
Definition pool_done (p : Pool) : Prop := po_jobs p = [] /\ po_running p = [].

Context (returns : J -> O -> Prop).

(** A goroutine ends with something its job may return. *)
Definition allowed (op : pool_op) (p : Pool) : Prop :=
  match op with OpFinish i o => exists j, po_running p !! i = Some j /\ returns j o | _ => True end.

Inductive pool_run : Pool -> list pool_op -> Pool -> Prop :=
| run_stop p : pool_run p [] p
| run_step p op p1 ops p2 : allowed op p -> pool_step op p = Some p1 -> pool_run p1 ops p2 -> pool_run p (op :: ops) p2.

(** ** What every run keeps *)

(** How a job ended: with what it returned, or given up with the error of the context. *)
Definition ending : Type := J * (O + string).

Definition apply_ending (t : T) (e : ending) : T := match snd e with inl o => finish (fst e) o t | inr err => skip (fst e) err t end.

Definition ending_ok (ctx : option string) (e : ending) : Prop :=
  match snd e with inl o => returns (fst e) o | inr err => ctx = Some err end.

Record pool_inv (all : list J) (t0 : T) (p : Pool) (log : list ending) : Prop := {
  inv_jobs : map fst log ++ po_running p ++ po_jobs p ≡ₚ all;
  inv_shared : po_shared p = foldl apply_ending t0 log;
  inv_log : forall e, e ∈ log -> ending_ok (po_ctx p) e;
  inv_size : (length (po_running p) <= size)%nat }.

Lemma new_pool_inv jobs t0 : pool_inv jobs t0 (new_pool jobs t0) [].
Proof. constructor; cbn; [done|done|by intros e ?%not_elem_of_nil|lia]. Qed.

Lemma log_grows log t0 e : foldl apply_ending t0 (log ++ [e]) = apply_ending (foldl apply_ending t0 log) e.
Proof. by rewrite foldl_app. Qed.

Lemma ending_ok_weaken ctx err e : ctx = None -> ending_ok ctx e -> ending_ok (Some err) e.
Proof. intros ->. unfold ending_ok. by destruct (snd e). Qed.

Lemma give_up_inv all t0 p log j err rest : po_ctx p = Some err -> po_jobs p = j :: rest -> pool_inv all t0 p log ->
  pool_inv all t0 (leave_job j err rest p) (log ++ [(j, inr err)]).
Proof.
  intros Hc Hj [H1 H2 H3 H4]. constructor; cbn.
  - rewrite map_app, <- H1, Hj. cbn. solve_Permutation.
  - by rewrite log_grows, H2.
  - intros e [He| ->%list_elem_of_singleton]%elem_of_app; [by apply H3|done].
  - done.
Qed.

Lemma pool_step_inv all t0 op p p' log : allowed op p -> pool_step op p = Some p' -> pool_inv all t0 p log -> exists log', pool_inv all t0 p' log'.
Proof.
  intros Ha Hs Hinv. destruct op; cbn [pool_step] in Hs.
  - destruct (po_ctx p) eqn:Ec; [done|]. injection Hs as <-. exists log. destruct Hinv as [H1 H2 H3 H4]. constructor; cbn; [done|done| |done].
    intros e He. eapply ending_ok_weaken; [exact Ec|]. by apply H3.
  - destruct (po_checked p); [done|]. destruct (po_jobs p) as [|j rest] eqn:Ej; [done|]. destruct (po_ctx p) eqn:Ec; injection Hs as <-.
    + eexists. by apply give_up_inv.
    + exists log. destruct Hinv as [H1 H2 H3 H4]. constructor; cbn; [by rewrite <- Ej|done|by rewrite <- Ec|done].
  - destruct (po_checked p); [|done]. destruct (po_jobs p) as [|j rest] eqn:Ej; [done|]. destruct (Nat.ltb_spec (length (po_running p)) size); [|done].
    injection Hs as <-. exists log. destruct Hinv as [H1 H2 H3 H4]. constructor; cbn; [|done|done|].
    + rewrite <- H1, Ej. solve_Permutation.
    + rewrite length_app. cbn. lia.
  - destruct (po_checked p); [|done]. destruct (po_jobs p) as [|j rest] eqn:Ej; [done|]. destruct (po_ctx p) eqn:Ec; [|done]. injection Hs as <-.
    eexists. by apply give_up_inv.
  - destruct Ha as (j & Hj & Hret). rewrite Hj in Hs. injection Hs as <-. exists (log ++ [(j, inl o)]). destruct Hinv as [H1 H2 H3 H4]. constructor; cbn.
    + rewrite map_app, <- H1. cbn. rewrite (delete_Permutation _ _ _ Hj) at 2. solve_Permutation.
    + by rewrite log_grows, H2.
    + intros e [He| ->%list_elem_of_singleton]%elem_of_app; [by apply H3|done].
    + rewrite length_delete by (by rewrite Hj). lia.
Qed.

Lemma pool_run_inv all t0 p ops p' log : pool_run p ops p' -> pool_inv all t0 p log -> exists log', pool_inv all t0 p' log'.
Proof.
  intros Hr. revert log. induction Hr as [|p op p1 ops p2 Ha Hs _ IH]; intros log Hinv; [by exists log|].
  destruct (pool_step_inv _ _ _ _ _ _ Ha Hs Hinv) as (log' & H). by apply (IH log').
Qed.

(** What a pool that is done has done: every job once, in some order. *)
Lemma pool_outcome jobs t0 ops p : pool_run (new_pool jobs t0) ops p -> pool_done p ->
  exists log, map fst log ≡ₚ jobs /\ po_shared p = foldl apply_ending t0 log /\ forall e, e ∈ log -> ending_ok (po_ctx p) e.
Proof.
  intros Hr [Hj Hn]. destruct (pool_run_inv _ _ _ _ _ _ Hr (new_pool_inv jobs t0)) as (log & [H1 H2 H3 _]). exists log.
  split_and!; [|done|done]. by rewrite <- H1, Hj, Hn, !app_nil_r.
Qed.

Lemma pool_bounded jobs t0 ops p : pool_run (new_pool jobs t0) ops p -> (length (po_running p) <= size)%nat.
Proof. intros Hr. destruct (pool_run_inv _ _ _ _ _ _ Hr (new_pool_inv jobs t0)) as (log & [_ _ _ H]). exact H. Qed.

(** ** The end *)

(** Each step brings the end nearer. *)
Definition steps_left (p : Pool) : nat :=
  3 * length (po_jobs p) + length (po_running p) + (if po_checked p then 0 else 1) + (if po_ctx p then 0 else 1).

Lemma pool_step_decreases op p p' : pool_step op p = Some p' -> (steps_left p' < steps_left p)%nat.
Proof.
  unfold steps_left. destruct op; cbn [pool_step].
  - destruct (po_ctx p); [done|]. intros [= <-]. cbn. lia.
  - destruct (po_checked p); [done|]. destruct (po_jobs p) as [|j rest]; [done|]. destruct (po_ctx p) eqn:Ec; intros [= <-]; cbn [leave_job po_jobs po_running po_checked po_ctx length]; rewrite ?Ec; [destruct first; cbn; lia|]. lia.
  - destruct (po_checked p); [|done]. destruct (po_jobs p) as [|j rest]; [done|]. destruct (_ <? _)%nat; [|done]. intros [= <-]. cbn. rewrite length_app. cbn.
    destruct first, (po_ctx p); cbn; lia.
  - destruct (po_checked p); [|done]. destruct (po_jobs p) as [|j rest]; [done|]. destruct (po_ctx p) eqn:Ec; [|done]. intros [= <-]. cbn. rewrite Ec.
    destruct first; cbn; lia.
  - destruct (po_running p !! i) as [j|] eqn:E; [|done]. intros [= <-]. cbn. rewrite length_delete by (by rewrite E).
    apply lookup_lt_Some in E. destruct (po_checked p), (po_ctx p); lia.
Qed.

Lemma pool_run_bounded p ops p' : pool_run p ops p' -> (length ops + steps_left p' <= steps_left p)%nat.
Proof. induction 1 as [|p op p1 ops p2 _ Hs _ IH]; [done|]. apply pool_step_decreases in Hs. cbn [length]. lia. Qed.

Context (size_pos : (0 < size)%nat) (jobs_end : forall j, exists o, returns j o).

(** As long as every job returns, a pool that is not done can go on. *)
Lemma pool_progress p : pool_done p \/ exists op p', allowed op p /\ pool_step op p = Some p'.
Proof.
  destruct (po_running p) as [|j l] eqn:Er.
  - destruct (po_jobs p) as [|j rest] eqn:Ej; [by left|]. right. destruct (po_checked p) eqn:Ec.
    + exists OpAcquire. eexists. split; [done|]. cbn [pool_step]. rewrite Ec, Ej, Er. cbn [length]. destruct size; [lia|reflexivity].
    + exists OpCheck. cbn. rewrite Ec, Ej. destruct (po_ctx p); (eexists; split; [exact I|reflexivity]).
  - right. destruct (jobs_end j) as (o & Ho). exists (OpFinish 0 o). eexists. split; [exists j; by rewrite Er|]. cbn. rewrite Er. reflexivity.
Qed.

Lemma pool_ends p : exists ops p', pool_run p ops p' /\ pool_done p'.
Proof.
  assert (H : forall n p, (steps_left p <= n)%nat -> exists ops p', pool_run p ops p' /\ pool_done p').
  { intros n. induction n as [|n IH]; intros q Hn; (destruct (pool_progress q) as [Hd|(op & q' & Ha & Hs)]; [exists [], q; split; [constructor|done]|]);
      pose proof (pool_step_decreases _ _ _ Hs) as Hlt; [lia|]. destruct (IH q' ltac:(lia)) as (ops & p' & Hr & Hd). exists (op :: ops), p'.
    split; [by eapply run_step|done]. }
  by apply (H (steps_left p)).
Qed.

End Pool.

Arguments Pool : clear implicits.
Arguments pool_op : clear implicits.

(** Neither loop runs without a worker. *)
Definition pool_size (workers fallback : Z) : nat := Z.to_nat (if workers <=? 0 then fallback else workers).

(** ** RunScanners *)

(** A cluster and a scanner. *)
Abbreviation scan_job := (string * string)%type.

Definition record_result (c s : string) (r : Result) (results : Results) : Results := <[c := <[s := r]> (default ∅ (results !! c))]> results.

(** What a scan returned, as a result. *)
Definition scanned (s : string) (o : Result + string) : Result := match o with inl r => r | inr err => ErroredResult s (Some err) end.

Definition keep_scan (j : scan_job) (o : Result + string) : Results -> Results := record_result (fst j) (snd j) (scanned (snd j) o).
Definition skip_scan (j : scan_job) (err : string) : Results -> Results := record_result (fst j) (snd j) (ErroredResult (snd j) (Some err)).

(** The scanners are ranged over anew for each client. *)
Definition scan_jobs (arrange : string -> list string -> list string) (clients scanners : list string) : list scan_job :=
  concat (map (fun c => map (pair c) (arrange c scanners)) clients).

Definition no_results (clients : list string) : Results := foldr (fun c => <[c := ∅]>) ∅ clients.

Abbreviation scan_pool := (Pool scan_job Results).

Definition RunScanners_start (arrange : string -> list string -> list string) (clients scanners : list string) : scan_pool :=
  new_pool true (scan_jobs arrange clients scanners) (no_results clients).

Definition DefaultScanTimeout : Z := 60 * Second.

(** A deadline of zero or less is none. *)
Definition RunWithTimeout {O} (scan : option Z -> O) (timeout : Z) : O := if timeout <=? 0 then scan None else scan (Some timeout).

(** ** ConnectAll *)

Definition add_client {C} (name : string) (o : C + string) (clients : list C) : list C := match o with inl c => clients ++ [c] | inr _ => clients end.
Definition skip_client {C} (name err : string) (clients : list C) : list C := clients.

Definition ConnectAll_start {C} (contexts : list string) : Pool string (list C) := new_pool false contexts [].

(** ** What the results hold *)

Definition result_of_ending (e : ending (J := scan_job) (O := Result + string)) : Result :=
  match snd e with inl o => scanned (snd (fst e)) o | inr err => ErroredResult (snd (fst e)) (Some err) end.

Lemma apply_scan t e : apply_ending keep_scan skip_scan t e = record_result (fst (fst e)) (snd (fst e)) (result_of_ending e) t.
Proof. unfold apply_ending, result_of_ending. by destruct (snd e). Qed.

Definition result_at (results : Results) (c s : string) : option Result := results !! c ≫= (.!! s).

Lemma record_at results c s r c' s' : result_at (record_result c s r results) c' s' = if decide ((c', s') = (c, s)) then Some r else result_at results c' s'.
Proof.
  unfold result_at, record_result. destruct (decide (c' = c)) as [->|Hc].
  - rewrite lookup_insert_eq. cbn. destruct (decide (s' = s)) as [->|Hs].
    + by rewrite lookup_insert_eq, decide_True.
    + rewrite lookup_insert_ne by done. rewrite decide_False by congruence. by destruct (results !! c); cbn; rewrite ?lookup_empty.
  - rewrite lookup_insert_ne by done. by rewrite decide_False by congruence.
Qed.

Lemma record_clients results c s r c' : is_Some (record_result c s r results !! c') <-> c' = c \/ is_Some (results !! c').
Proof. unfold record_result. rewrite lookup_insert_is_Some. destruct (decide (c' = c)); naive_solver. Qed.

Lemma results_of_log t0 log :
  let results := foldl (apply_ending keep_scan skip_scan) t0 log in
  (forall c, is_Some (results !! c) <-> is_Some (t0 !! c) \/ c ∈ map (fun e => fst (fst e)) log) /\
  (forall c s, is_Some (result_at results c s) <-> is_Some (result_at t0 c s) \/ (c, s) ∈ map fst log) /\
  (forall c s r, result_at results c s = Some r -> result_at t0 c s = Some r \/ exists e, e ∈ log /\ fst e = (c, s) /\ r = result_of_ending e).
Proof.
  cbn zeta. induction log as [|e log IH] using rev_ind.
  - cbn. split_and!; intros; rewrite ?elem_of_nil; naive_solver.
  - rewrite foldl_app. cbn [foldl]. rewrite apply_scan. destruct IH as (I1 & I2 & I3). split_and!.
    + intros c. rewrite record_clients, I1, map_app, elem_of_app. cbn [map]. rewrite list_elem_of_singleton. naive_solver.
    + intros c s. rewrite record_at, map_app, elem_of_app. cbn [map]. rewrite list_elem_of_singleton. destruct e as [[c0 s0] o]. cbn [fst snd].
      destruct (decide ((c, s) = (c0, s0))) as [E|E]; [|rewrite I2; naive_solver]. split; [by right; right|by intros _].
    + intros c s r. rewrite record_at. destruct e as [[c0 s0] o]. cbn [fst snd]. destruct (decide ((c, s) = (c0, s0))) as [E|E].
      * intros [= <-]. right. exists (c0, s0, o). rewrite elem_of_app, list_elem_of_singleton. split_and!; [by right|by rewrite E|done].
      * intros Hr. destruct (I3 c s r Hr) as [?|(e & He & ?)]; [by left|]. right. exists e. rewrite elem_of_app. naive_solver.
Qed.

Lemma elem_of_scan_jobs arrange clients scanners c s : (forall c l, arrange c l ≡ₚ l) -> (c, s) ∈ scan_jobs arrange clients scanners <-> c ∈ clients /\ s ∈ scanners.
Proof.
  intros Hp. unfold scan_jobs. rewrite list_elem_of_In, in_concat. split.
  - intros (l & Hl & Hin). apply in_map_iff in Hl as (c' & <- & Hc'). apply in_map_iff in Hin as (s' & [= -> ->] & Hs'). apply list_elem_of_In in Hs', Hc'.
    by rewrite Hp in Hs'.
  - intros [Hc Hs]. exists (map (pair c) (arrange c scanners)). split; [apply in_map_iff; exists c; by rewrite <- list_elem_of_In|].
    apply in_map_iff. exists s. rewrite <- list_elem_of_In, Hp. done.
Qed.

Lemma length_scan_jobs arrange clients scanners : (forall c l, arrange c l ≡ₚ l) -> length (scan_jobs arrange clients scanners) = (length clients * length scanners)%nat.
Proof.
  intros Hp. unfold scan_jobs. induction clients as [|c l IH]; [done|]. cbn [map concat length]. rewrite length_app, length_map, IH, (Permutation_length (Hp c scanners)). lia.
Qed.

Lemma no_results_at clients c s : result_at (no_results clients) c s = None.
Proof.
  unfold result_at. induction clients as [|c' l IH]; cbn [no_results foldr]; [by rewrite lookup_empty|].
  destruct (decide (c = c')) as [->|]; [by rewrite lookup_insert_eq; cbn; rewrite lookup_empty|by rewrite lookup_insert_ne].
Qed.

Lemma no_results_clients clients c : is_Some (no_results clients !! c) <-> c ∈ clients.
Proof.
  induction clients as [|c' l IH]; cbn [no_results foldr]; [rewrite lookup_empty, elem_of_nil; by split; [intros []|]|].
  rewrite lookup_insert_is_Some, elem_of_cons. fold (no_results l). destruct (decide (c = c')); naive_solver.
Qed.

Section Scans.

Context (arrange : string -> list string -> list string) (returns : scan_job -> Result + string -> Prop) (workers : Z) (clients scanners : list string).

Abbreviation scans := (pool_run keep_scan skip_scan true (pool_size workers 1) returns (RunScanners_start arrange clients scanners)).

(** Where a result comes from: the scan of its cluster, or the context that was done before it began. *)
Definition explained (ctx : option string) (c s : string) (r : Result) : Prop :=
  (exists o, returns (c, s) o /\ r = scanned s o) \/ exists err, ctx = Some err /\ r = ErroredResult s (Some err).

(** C20: however the goroutines of a scan interleave and whenever it is canceled, its results hold exactly one entry for every cluster reached and
    every scanner, which is what that scan returned, an errored result with its error, or, once canceled, an errored result that says so. *)
Theorem every_scan_recorded ops p : (forall c l, arrange c l ≡ₚ l) -> scans ops p -> pool_done p ->
  (forall c, is_Some (po_shared p !! c) <-> c ∈ clients) /\
  (forall c s, is_Some (result_at (po_shared p) c s) <-> c ∈ clients /\ s ∈ scanners) /\
  forall c s r, result_at (po_shared p) c s = Some r -> explained (po_ctx p) c s r.
Proof.
  intros Hp Hr Hd. destruct (pool_outcome _ _ _ _ _ _ _ _ _ Hr Hd) as (log & Hlog & Hs & Hok). rewrite Hs.
  destruct (results_of_log (no_results clients) log) as (H1 & H2 & H3). split_and!.
  - intros c. rewrite H1, no_results_clients. split; [|by left]. intros [?|Hin]; [done|]. apply list_elem_of_In, in_map_iff in Hin as ([[c' s'] o] & <- & Hin).
    assert ((c', s') ∈ map fst log) as Hj by (apply list_elem_of_In, in_map_iff; by exists (c', s', o)). rewrite Hlog, elem_of_scan_jobs in Hj by done. cbn. tauto.
  - intros c s. rewrite H2, no_results_at, Hlog, elem_of_scan_jobs by done. split; [by intros [[? [=]]|?]|by right].
  - intros c s r Hres. destruct (H3 c s r Hres) as [Hn|([j o] & He & Hj & ->)]; [by rewrite no_results_at in Hn|]. cbn in Hj. subst j. specialize (Hok _ He).
    unfold explained, ending_ok in *. cbn in Hok |- *. destruct o as [o|err]; [left; by exists o|right; by exists err].
Qed.

(** A scan never runs more scanners at once than it has workers, whatever happens it is over after a bounded number of steps, and if every
    scanner returns, it can always go on to its end. *)
Theorem scans_end ops p : (forall c l, arrange c l ≡ₚ l) -> (forall j, exists o, returns j o) -> scans ops p ->
  (Z.of_nat (length (po_running p)) <= Z.max 1 workers) /\
  (length ops <= 3 * (length clients * length scanners) + 2)%nat /\
  exists ops' p', pool_run keep_scan skip_scan true (pool_size workers 1) returns p ops' p' /\ pool_done p'.
Proof.
  intros Hp Hret Hr. split_and!.
  - pose proof (pool_bounded _ _ _ _ _ _ _ _ _ Hr) as H. unfold pool_size in H. destruct (Z.leb_spec workers 0); lia.
  - pose proof (pool_run_bounded _ _ _ _ _ _ _ _ Hr) as H. unfold steps_left in H at 2. cbn in H. rewrite length_scan_jobs in H by done. lia.
  - apply pool_ends; [|done]. unfold pool_size. destruct (Z.leb_spec workers 0); lia.
Qed.

End Scans.

(** ** The clients of a scan *)

Definition reached {C} (connect : string -> C + string) (name : string) : option C := match connect name with inl c => Some c | inr _ => None end.

Lemma clients_of_log {C} (connect : string -> C + string) log cs :
  (forall e, e ∈ log -> match snd e with inl o => o = connect (fst e) | inr _ => True end) ->
  exists tried, tried ⊆+ map fst log /\ foldl (apply_ending add_client skip_client) cs log = cs ++ omap (reached connect) tried /\
    ((forall e, e ∈ log -> is_Some (match snd e with inl o => Some o | inr _ => None end)) -> tried = map fst log).
Proof.
  revert cs. induction log as [|[n o] log IH]; intros cs Hok; [exists []; cbn; by rewrite app_nil_r|]. cbn [foldl map fst snd].
  destruct (IH (apply_ending add_client skip_client cs (n, o)) ltac:(set_solver)) as (tried & Hsub & E & Hall). destruct o as [o|err].
  - exists (n :: tried). split_and!; [by apply submseteq_skip| |].
    + rewrite E. pose proof (Hok (n, inl o) ltac:(by left)) as Ho. cbn in Ho. subst o. unfold apply_ending, add_client. cbn [fst snd omap list_omap].
      unfold reached at 2. destruct (connect n); [by rewrite <- app_assoc|done].
    + intros H. f_equal. apply Hall. set_solver.
  - exists tried. split_and!; [by apply submseteq_cons|by rewrite E|]. intros H. destruct (H (n, inr err) ltac:(by left)) as [? [=]].
Qed.

(** The clients of a scan are those of contexts that could be reached, each as often as it was named; all of them unless the scan is canceled. *)
Theorem reachable_clients_kept {C} (connect : string -> C + string) workers contexts ops p :
  pool_run add_client skip_client false (pool_size workers 5) (fun n o => o = connect n) (ConnectAll_start contexts) ops p -> pool_done p ->
  (exists tried, tried ⊆+ contexts /\ po_shared p = omap (reached connect) tried) /\
  (po_ctx p = None -> po_shared p ≡ₚ omap (reached connect) contexts).
Proof.
  intros Hr Hd. destruct (pool_outcome _ _ _ _ _ _ _ _ _ Hr Hd) as (log & Hlog & Hs & Hok).
  destruct (clients_of_log connect log []) as (tried & Hsub & E & Hall).
  { intros e He. specialize (Hok e He). unfold ending_ok in Hok. by destruct (snd e). }
  cbn [app] in E. rewrite Hs, E. split.
  - exists tried. by rewrite <- Hlog.
  - intros Hc. rewrite Hall; [by rewrite Hlog|]. intros e He. specialize (Hok e He). unfold ending_ok in Hok. destruct (snd e); [by eexists|congruence].
Qed.

(** ** Runs *)

Fixpoint run_ops {J O T} (finish : J -> O -> T -> T) (skip : J -> string -> T -> T) (first : bool) (size : nat) (ops : list (pool_op O)) (p : Pool J T) :
  option (Pool J T) :=
  match ops with [] => Some p | op :: ops => pool_step finish skip first size op p ≫= run_ops finish skip first size ops end.

Lemma run_ops_run {J O T} (finish : J -> O -> T -> T) skip first size (returns : J -> O -> Prop) ops p p' :
  (forall i o j, OpFinish i o ∈ ops -> returns j o) -> run_ops finish skip first size ops p = Some p' -> pool_run finish skip first size returns p ops p'.
Proof.
  revert p. induction ops as [|op ops IH]; intros p Ho H; [injection H as <-; constructor|]. cbn in H.
  destruct (pool_step finish skip first size op p) as [p1|] eqn:E; [|done]. eapply run_step; [|exact E|apply IH; [set_solver|exact H]].
  destruct op; try exact I. cbn in E |- *. destruct (po_running p !! i) as [j|] eqn:Ej; [|done]. exists j. split; [done|]. eapply Ho. by left.
Qed.

Definition ok_scan : Result + string := inl {| res_Scanner := "nodes"; res_State := ""; res_Reason := ""; res_Data := JNull |}.

(** Two clusters, one worker, and a cancellation between the two scans. *)
Definition sample_pool_ops : list (pool_op (Result + string)) := [OpCheck; OpAcquire; OpCheck; OpCancel "context canceled"; OpFinish 0 ok_scan; OpGiveUp].

Definition sample_pool : scan_pool := {|
  po_jobs := []; po_checked := false; po_running := [];
  po_shared := <["b"%string := {["nodes"%string := ErroredResult "nodes" (Some "context canceled"%string)]}]>
    (<["a"%string := {["nodes"%string := scanned "nodes" ok_scan]}]> (no_results ["a"; "b"]%string));
  po_ctx := Some "context canceled"%string |}.

Lemma sample_pool_run : pool_run keep_scan skip_scan true (pool_size 1 1) (fun _ o => o = ok_scan)
  (RunScanners_start (fun _ l => l) ["a"; "b"]%string ["nodes"%string]) sample_pool_ops sample_pool.
Proof.
  apply run_ops_run; [|vm_compute; reflexivity]. intros i o _ H. unfold sample_pool_ops in H. set_solver.
Qed.

Lemma every_scan_recorded_witness : explained (fun _ o => o = ok_scan) (Some "context canceled"%string) "b" "nodes" (ErroredResult "nodes" (Some "context canceled"%string)).
Proof.
  destruct (every_scan_recorded (fun _ l => l) (fun _ o => o = ok_scan) 1 ["a"; "b"]%string ["nodes"%string] sample_pool_ops sample_pool
    (fun _ _ => Permutation_refl _) sample_pool_run (conj eq_refl eq_refl)) as (_ & _ & H). apply (H "b"%string). vm_compute. reflexivity.
Defined.

Lemma scans_end_witness : (length sample_pool_ops <= 8)%nat.
Proof.
  destruct (scans_end (fun _ l => l) (fun _ o => o = ok_scan) 1 ["a"; "b"]%string ["nodes"%string] sample_pool_ops sample_pool
    (fun _ _ => Permutation_refl _) (fun _ => ex_intro _ ok_scan eq_refl) sample_pool_run) as (_ & H & _). exact H.
Defined.

Definition sample_connect (name : string) : string + string := if String.eqb name "down" then inr "no route to host"%string else inl name.

Lemma sample_connect_run : pool_run add_client skip_client false (pool_size 0 5) (fun n o => o = sample_connect n) (ConnectAll_start ["up"; "down"]%string)
  [OpAcquire; OpAcquire; OpFinish 1 (inr "no route to host"%string); OpFinish 0 (inl "up"%string)]
  {| po_jobs := []; po_checked := true; po_running := []; po_shared := ["up"%string]; po_ctx := None |}.
Proof.
  do 4 (eapply run_step; [first [exact I|eexists; split; reflexivity]|reflexivity|]). constructor.
Qed.

Lemma reachable_clients_kept_witness : ["up"%string] ≡ₚ omap (reached sample_connect) ["up"; "down"]%string.
Proof. exact (proj2 (reachable_clients_kept sample_connect 0 ["up"; "down"]%string _ _ sample_connect_run (conj eq_refl eq_refl)) eq_refl). Defined.
