(* ===== verification/ScanServer.v ===== *)
(** * The scans of a server: scan_once.go, handlers.go, inbound_webhook.go

    Scans of the scheduler, the controller, the trigger endpoint and the inbound webhook run
    side by side: each is a process whose steps come in any order between those of the others
    and of requests that change the store. The mutex, the trigger flag, the slots of the
    notifier and the counters are the shared state. The server is not in demo mode, whose
    fleet is made up. *)

From Stdlib Require Import ZArith Lia String Ascii.
From stdpp Require Import base gmap strings list option.
From S2P Require Import Prelude Float64 GoTime TimeText Text Data Format Build Pipeline Keys Auth Alerts Stream Controller Store Fanout.

Local Open Scope Z_scope.

(** ** scan_once.go *)

Definition scanSourceScheduled : string := "scheduled".
Definition scanSourceTriggered : string := "triggered".
Definition scanSourceInbound : string := "inbound".
Definition scanSourceController : string := "controller".

Definition dispatchWorkers : nat := 4.

Definition errNoClusters : string := "no clusters reachable".

Definition emitAll : EmitOptions := {| eo_FleetDriftReport := true; eo_PolicyReport := true; eo_Slack := true |}.

(** [rq_Scanners] is [None] to run every registered scanner. *)
Record scanRequest := {
  rq_Source : string; rq_ScanID : string; rq_Contexts : list string; rq_Scanners : option (list string); rq_Emit : EmitOptions }.

Definition cohortTagKey : string := "cohort".

Definition projectCohortTags (key : string) (all : gmap string (gmap string string)) : gmap string string :=
  omap (fun kv => match kv !! key with Some v => if String.eqb v "" then None else Some v | None => None end) all.

(** What was loaded, with the errors joined; the fleet threshold is the default. *)
Definition StoreReportOptions (tagFails groupFails groupFails' : option string) (db : Db) : BuildOptions * list store_error :=
  let tags := ListClusterTags tagFails db in
  let groups := ListGroups groupFails groupFails' db in
  ({| bo_OutlierThreshold := f_zero; bo_Groups := match groups with inl l => map (fun g => (gr_Name g, gr_Clusters g)) l | inr _ => [] end;
      bo_ClusterTags := match tags with inl all => projectCohortTags cohortTagKey all | inr _ => ∅ end |},
   match tags with inl _ => [] | inr e => [e] end ++ match groups with inl _ => [] | inr e => [e] end).

(** Scanners asked for that are not registered are left out. *)
Definition selectScanners (registry : list string) (allow : list string) : list string :=
  match allow with [] => registry | _ => List.filter (fun s => existsb (String.eqb s) allow) registry end.

Definition count_findings (rpt : option Report) (sev : string) : nat :=
  match rpt with None => 0 | Some r => length (List.filter (fun f => String.eqb (fi_Severity f) sev) (rp_Findings r)) end.

(** ** Scans as processes *)

(** Where [executeScan] is. [Locked] to [Saved] hold the mutex; from [Delivering] on it has returned. *)
Inductive stage :=
| Starting
| Queued
| Locked
| Connected (names : list string) (results : Results) (now : Z)
| Saved (names : list string) (results : Results)
| Failing (err : string)
| Reporting (rpt : Report)
| Notifying (rpt : Report)
| Delivering (rpt : Report)
| Over (ok : bool).

Record proc := { pr_req : scanRequest; pr_triggered : bool; pr_stage : stage }.

Inductive output := OutFleetDrift | OutPolicy | OutSlack | OutWebhooks.

Record ScanServer := {
  sv_db : Db; sv_lock : option nat; sv_busy : bool; sv_slots : nat; sv_ok : nat; sv_err : nat;
  sv_events : list (string * string); sv_outputs : list (output * string); sv_stopped : bool; sv_procs : list proc }.

Definition set_db (db : Db) (s : ScanServer) : ScanServer := {| sv_db := db; sv_lock := sv_lock s; sv_busy := sv_busy s; sv_slots := sv_slots s;
  sv_ok := sv_ok s; sv_err := sv_err s; sv_events := sv_events s; sv_outputs := sv_outputs s; sv_stopped := sv_stopped s; sv_procs := sv_procs s |}.
Definition set_lock (l : option nat) (s : ScanServer) : ScanServer := {| sv_db := sv_db s; sv_lock := l; sv_busy := sv_busy s; sv_slots := sv_slots s;
  sv_ok := sv_ok s; sv_err := sv_err s; sv_events := sv_events s; sv_outputs := sv_outputs s; sv_stopped := sv_stopped s; sv_procs := sv_procs s |}.
Definition set_busy (b : bool) (s : ScanServer) : ScanServer := {| sv_db := sv_db s; sv_lock := sv_lock s; sv_busy := b; sv_slots := sv_slots s;
  sv_ok := sv_ok s; sv_err := sv_err s; sv_events := sv_events s; sv_outputs := sv_outputs s; sv_stopped := sv_stopped s; sv_procs := sv_procs s |}.
Definition set_slots (n : nat) (s : ScanServer) : ScanServer := {| sv_db := sv_db s; sv_lock := sv_lock s; sv_busy := sv_busy s; sv_slots := n;
  sv_ok := sv_ok s; sv_err := sv_err s; sv_events := sv_events s; sv_outputs := sv_outputs s; sv_stopped := sv_stopped s; sv_procs := sv_procs s |}.
Definition set_stopped (s : ScanServer) : ScanServer := {| sv_db := sv_db s; sv_lock := sv_lock s; sv_busy := sv_busy s; sv_slots := sv_slots s;
  sv_ok := sv_ok s; sv_err := sv_err s; sv_events := sv_events s; sv_outputs := sv_outputs s; sv_stopped := true; sv_procs := sv_procs s |}.
Definition set_procs (l : list proc) (s : ScanServer) : ScanServer := {| sv_db := sv_db s; sv_lock := sv_lock s; sv_busy := sv_busy s; sv_slots := sv_slots s;
  sv_ok := sv_ok s; sv_err := sv_err s; sv_events := sv_events s; sv_outputs := sv_outputs s; sv_stopped := sv_stopped s; sv_procs := l |}.
Definition emit (out : list (output * string)) (s : ScanServer) : ScanServer := {| sv_db := sv_db s; sv_lock := sv_lock s; sv_busy := sv_busy s;
  sv_slots := sv_slots s; sv_ok := sv_ok s; sv_err := sv_err s; sv_events := sv_events s; sv_outputs := sv_outputs s ++ out; sv_stopped := sv_stopped s;
  sv_procs := sv_procs s |}.

(** The outcome is counted and its event published. *)
Definition publish_outcome (ok : bool) (id : string) (s : ScanServer) : ScanServer := {| sv_db := sv_db s; sv_lock := sv_lock s; sv_busy := sv_busy s;
  sv_slots := sv_slots s; sv_ok := (if ok then S (sv_ok s) else sv_ok s); sv_err := (if ok then sv_err s else S (sv_err s));
  sv_events := sv_events s ++ [(if ok then EventScanComplete else EventScanFailed, id)]; sv_outputs := sv_outputs s; sv_stopped := sv_stopped s;
  sv_procs := sv_procs s |}.

Definition new_server (db : Db) : ScanServer := {| sv_db := db; sv_lock := None; sv_busy := false; sv_slots := 0; sv_ok := 0; sv_err := 0; sv_events := [];
  sv_outputs := []; sv_stopped := false; sv_procs := [] |}.

Definition in_stage (p : proc) (st : stage) : proc := {| pr_req := pr_req p; pr_triggered := pr_triggered p; pr_stage := st |}.
Definition move (i : nat) (p : proc) (st : stage) (s : ScanServer) : ScanServer := set_procs (<[i := in_stage p st]> (sv_procs s)) s.
Definition begin (req : scanRequest) (triggered : bool) (s : ScanServer) : ScanServer :=
  set_procs (sv_procs s ++ [{| pr_req := req; pr_triggered := triggered; pr_stage := Starting |}]) s.

(** [executeScan] returns: the deferred reset of a background scan. *)
Definition returned (p : proc) (s : ScanServer) : ScanServer := if pr_triggered p then set_busy false s else s.

(** The claim of the trigger slot. *)
Definition startBackgroundScan (source : string) (contexts : list string) (newID : string) (s : ScanServer) : ScanServer * option string :=
  if sv_busy s then (s, None)
  else (begin {| rq_Source := source; rq_ScanID := newID; rq_Contexts := contexts; rq_Scanners := None; rq_Emit := emitAll |} true (set_busy true s), Some newID).

Record ScanConfig := { cf_registry : list string; cf_slack : bool; cf_webhooks : bool; cf_driftDir : bool; cf_policyDir : bool; cf_workers : Z }.

Inductive server_op :=
| OpBegin (req : scanRequest)
| OpTrigger (source : string) (contexts : list string) (newID : string)
| OpEnter (i : nat)
| OpLock (i : nat) (done : option string)
| OpScan (i : nat) (names : list string) (results : Results) (now : Z)
| OpSave (i : nat) (fails : nat -> option string)
| OpBuild (i : nat) (fails : nat -> option string)
| OpPublish (i : nat)
| OpDispatch (i : nat)
| OpQuit (i : nat)
| OpDeliver (i : nat)
| OpStop
| OpStore (db : Db).

Section Steps.

Context (Marshal : json -> string + string) (arrange : list (string * string * Result) -> list (string * string * Result)).
Context (build : list string -> Results -> BuildOptions -> Report) (cfg : ScanConfig).

Definition scanners_of (req : scanRequest) : list string := default (cf_registry cfg) (rq_Scanners req).

Definition save_scan (fails : nat -> option string) (req : scanRequest) (names : list string) (results : Results) (now : Z) (db : Db) : Db * (string + store_error) :=
  SaveScanRecord Marshal fails "" now arrange {| sn_ID := rq_ScanID req; sn_Timestamp := now; sn_Clusters := names; sn_Scanners := [] |} results db.

(** The local files of a scan. *)
Definition files_of (req : scanRequest) : list (output * string) :=
  (if eo_FleetDriftReport (rq_Emit req) && cf_driftDir cfg then [(OutFleetDrift, rq_ScanID req)] else []) ++
  (if eo_PolicyReport (rq_Emit req) && cf_policyDir cfg then [(OutPolicy, rq_ScanID req)] else []).

Definition wants_slack (req : scanRequest) : bool := eo_Slack (rq_Emit req) && cf_slack cfg.

Definition notifications_of (req : scanRequest) : list (output * string) :=
  (if wants_slack req then [(OutSlack, rq_ScanID req)] else []) ++ (if cf_webhooks cfg then [(OutWebhooks, rq_ScanID req)] else []).

Definition proc_step (op : server_op) (i : nat) (p : proc) (s : ScanServer) : option ScanServer :=
  match op, pr_stage p with
  | OpEnter _, Starting =>
      Some (move i p (match rq_Contexts (pr_req p), scanners_of (pr_req p) with
                      | [], _ => Failing "no contexts to scan" | _, [] => Failing "no scanners selected" | _, _ => Queued end) s)
  | OpLock _ done, Queued =>
      match sv_lock s with
      | Some _ => None
      | None => Some (match done with
                      | Some err => move i p (Failing ("canceled while waiting for the scan lock: " ++ err)%string) s
                      | None => move i p Locked (set_lock (Some i) s) end)
      end
  | OpScan _ names results now, Locked =>
      Some (match names with [] => move i p (Failing errNoClusters) (set_lock None s) | _ => move i p (Connected names results now) s end)
  | OpSave _ fails, Connected names results now =>
      Some (match save_scan fails (pr_req p) names results now (sv_db s) with
            | (db, inl _) => move i p (Saved names results) (set_db db s)
            | (db, inr e) => move i p (Failing "save scan") (set_lock None (set_db db s)) end)
  | OpBuild _ fails, Saved names results =>
      let opts := fst (StoreReportOptions (fails 0%nat) (fails 1%nat) (fails 2%nat) (sv_db s)) in
      Some (move i p (Reporting (build names results opts)) (set_lock None (emit (files_of (pr_req p)) s)))
  | OpPublish _, Failing err => Some (returned p (move i p (Over false) (publish_outcome false (rq_ScanID (pr_req p)) s)))
  | OpPublish _, Reporting rpt =>
      let s := publish_outcome true (rq_ScanID (pr_req p)) s in
      Some (if wants_slack (pr_req p) || cf_webhooks cfg then move i p (Notifying rpt) s else returned p (move i p (Over true) s))
  | OpDispatch _, Notifying rpt =>
      if (sv_slots s <? dispatchWorkers)%nat then Some (returned p (move i p (Delivering rpt) (set_slots (S (sv_slots s)) s))) else None
  | OpQuit _, Notifying rpt => if sv_stopped s then Some (returned p (move i p (Over true) s)) else None
  | OpDeliver _, Delivering rpt => Some (move i p (Over true) (emit (notifications_of (pr_req p)) (set_slots (pred (sv_slots s)) s)))
  | _, _ => None
  end.

Definition server_step (op : server_op) (s : ScanServer) : option ScanServer :=
  match op with
  | OpBegin req => Some (begin req false s)
  | OpTrigger source contexts newID => match startBackgroundScan source contexts newID s with (s', Some _) => Some s' | (_, None) => None end
  | OpStop => Some (set_stopped s)
  | OpStore db => Some (set_db db s)
  | OpEnter i | OpLock i _ | OpScan i _ _ _ | OpSave i _ | OpBuild i _ | OpPublish i | OpDispatch i | OpQuit i | OpDeliver i =>
      p ← sv_procs s !! i; proc_step op i p s
  end.

End Steps.

(** ** Asking for a scan *)

Record triggerScanRequest := { tg_Contexts : list string; tg_Group : string }.

(** Error texts with a path in them are not shown. *)
Definition safeMessage (msg : option string) (fallback : string) : string :=
  match msg with
  | None => fallback
  | Some msg => if existsb (fun c => Ascii.eqb c "/"%char || Ascii.eqb c "\"%char) (to_bytes msg) then fallback else msg
  end.

Inductive resolve_error := NoGroup (msg : string) | NoContexts | Unresolved (msg : string).

(** kube/client.go; [available] is what the kubeconfig lists. *)
Definition contextsOrInCluster (names : list string) (path : string) (inCluster : bool) : list string :=
  match names with [] => if String.eqb path "" && inCluster then ["in-cluster"%string] else [] | _ => names end.

Definition AvailableContexts (kubeconfig : list string + string) (path : string) (inCluster : bool) : list string + string :=
  match kubeconfig with inl names => inl (contextsOrInCluster (sort_strings names) path inCluster) | inr err => inr err end.

Definition ResolveContexts (available : list string + string) (names : list string) : list string + resolve_error :=
  match names, available with
  | _ :: _, _ => inl names
  | [], inl [] => inr NoContexts
  | [], inl all => inl all
  | [], inr err => inr (Unresolved err)
  end.

Section Asking.

(** [group_fails g] is what the two queries for the group [g] run into. *)
Context (group_fails : string -> option string * option string) (available : list string + string).

Definition get_group (name : string) (db : Db) : GroupRecord + store_error := GetGroup (fst (group_fails name)) (snd (group_fails name)) name db.

(** auth.go: a group that cannot be read has no members. *)
Definition groupLookup (db : Db) (name : string) : list string := match get_group name db with inl g => gr_Clusters g | inr _ => [] end.

Definition resolveContexts (req : triggerScanRequest) (db : Db) : list string + resolve_error :=
  if String.eqb (tg_Group req) "" then ResolveContexts available (tg_Contexts req)
  else match get_group (tg_Group req) db with
       | inl g => inl (gr_Clusters g)
       | inr (ErrNotFound what) => inr (NoGroup ("group " ++ quote (tg_Group req) ++ ": not found: " ++ what)%string)
       | inr _ => inr (Unresolved "")
       end.

Definition resolve_refusal {A} (e : resolve_error) : reply A :=
  match e with
  | NoGroup msg => Err 400 (safeMessage (Some msg) "group not found")
  | NoContexts => Err 400 "no contexts in kubeconfig"
  | Unresolved _ => Err 500 "resolve contexts failed"
  end.

(** The reply to a started scan, or to one that found the slot taken. *)
Definition started (r : ScanServer * option string) : ScanServer * reply string :=
  match r with (s, Some id) => (s, Ok 202 id) | (s, None) => (s, Err 429 "scan in progress; retry later") end.

(** [body] is the decoded request, or the answer decoding it gave. *)
Definition handleTriggerScan (ctx : option Actor) (body : triggerScanRequest + (Z * string)) (newID : string) (s : ScanServer) : ScanServer * reply string :=
  match body with
  | inr (status, msg) => (s, Err status msg)
  | inl req =>
      match resolveContexts req (sv_db s) with
      | inr e => (s, resolve_refusal e)
      | inl [] => (s, Err 400 "group has no clusters")
      | inl contexts =>
          match FilterClusters (actorFromContext ctx) (Some (groupLookup (sv_db s))) contexts with
          | [] => (s, Err 403 "no contexts in actor scope")
          | contexts => started (startBackgroundScan scanSourceTriggered contexts newID s)
          end
      end
  end.

Context (Unmarshal : string -> triggerScanRequest + string).

(** [body] is [None] where it is too large or cannot be read. *)
Definition handleWebhookScanTrigger (secret header : string) (body : option string) (newID : string) (s : ScanServer) : ScanServer * reply string :=
  if String.eqb secret "" then (s, Err 404 "inbound webhook disabled")
  else match body with
  | None => (s, Err 400 "body too large or unreadable")
  | Some body =>
      match verifyWebhookSignature secret header body with
      | Some _ => (s, Err 401 "invalid signature")
      | None =>
          match (if String.eqb body "" then inl {| tg_Contexts := []; tg_Group := "" |} else Unmarshal body) with
          | inr _ => (s, Err 400 "invalid JSON body")
          | inl req =>
              match resolveContexts req (sv_db s) with
              | inr e => (s, resolve_refusal e)
              | inl [] => (s, Err 400 "no contexts available")
              | inl contexts => started (startBackgroundScan scanSourceInbound contexts newID s)
              end
          end
      end
  end.

(** [ScanOnce] up to its call of [executeScan], and what it makes of the report. *)
Definition ScanOnce_request (registry : list string) (opts : ScanOptions) (newID : string) (db : Db) : scanRequest + string :=
  match resolveContexts {| tg_Contexts := so_Contexts opts; tg_Group := so_Group opts |} db with
  | inr _ => inr "resolve contexts"%string
  | inl contexts =>
      match selectScanners registry (so_Scanners opts) with
      | [] => inr "scan once: no scanners selected"%string
      | scanners => inl {| rq_Source := scanSourceController; rq_ScanID := newID; rq_Contexts := contexts; rq_Scanners := Some scanners; rq_Emit := so_Emit opts |}
      end
  end.

Definition ScanOnce_summary (id : string) (rpt : Report) : ScanSummary := {|
  ss_ScanID := id; ss_Score := fs_Score (rp_FleetScore rpt); ss_Grade := fs_Grade (rp_FleetScore rpt);
  ss_Critical := Z.of_nat (count_findings (Some rpt) SeverityCritical); ss_Warning := Z.of_nat (count_findings (Some rpt) SeverityWarning);
  ss_Clusters := Z.of_nat (length (rp_Clusters rpt)) |}.

End Asking.

(** ** What the steps keep *)

Definition tally_of (f : proc -> bool) (l : list proc) : nat := length (List.filter f l).

Definition unit_of (b : bool) : nat := if b then 1%nat else 0%nat.

Lemma tallied_app f l l' : tally_of f (l ++ l') = (tally_of f l + tally_of f l')%nat.
Proof. unfold tally_of. by rewrite filter_app, length_app. Qed.

Lemma tallied_insert f l i p q : l !! i = Some p -> (tally_of f (<[i := q]> l) + unit_of (f p) = tally_of f l + unit_of (f q))%nat.
Proof.
  intros Hi. rewrite insert_take_drop by by eapply lookup_lt_Some. rewrite <- (take_drop_middle l i p Hi) at 3. rewrite !tallied_app. unfold tally_of. cbn.
  destruct (f p), (f q); cbn; lia.
Qed.

Lemma tallied_pos f l i p : l !! i = Some p -> f p = true -> (0 < tally_of f l)%nat.
Proof. intros Hi Hf. pose proof (tallied_insert f l i p p Hi) as H. rewrite <- (take_drop_middle l i p Hi), tallied_app. unfold tally_of. cbn. rewrite Hf. cbn. lia. Qed.

Lemma tallied_new f l p : tally_of f (l ++ [p]) = (tally_of f l + unit_of (f p))%nat.
Proof. rewrite tallied_app. f_equal. unfold tally_of. cbn. by destruct (f p). Qed.

(** One at most. *)
Lemma tallied_one f l i j p q : (tally_of f l <= 1)%nat -> l !! i = Some p -> l !! j = Some q -> f p = true -> f q = true -> i = j.
Proof.
  intros H1 Hi Hj Hp Hq. destruct (decide (i = j)) as [|Hne]; [done|]. exfalso.
  set (p' := {| pr_req := pr_req p; pr_triggered := pr_triggered p; pr_stage := pr_stage p |}).
  revert l j Hi Hj H1 Hne. induction i as [|i IH]; intros [|x l] [|j] Hi Hj H1 Hne; try done.
  - injection Hi as ->. cbn in Hj. pose proof (tallied_pos f l j q Hj Hq) as Hpos. unfold tally_of in *. cbn in H1. rewrite Hp in H1. cbn in H1. lia.
  - injection Hj as ->. cbn in Hi. pose proof (tallied_pos f l i p Hi Hp) as Hpos. unfold tally_of in *. cbn in H1. rewrite Hq in H1. cbn in H1. lia.
  - cbn in Hi, Hj. apply (IH l j Hi Hj); [|congruence]. unfold tally_of in *. cbn in H1. destruct (f x); cbn in H1; lia.
Qed.

Definition holds_mutex (p : proc) : bool := match pr_stage p with Locked | Connected _ _ _ | Saved _ _ => true | _ => false end.
Definition holds_trigger (p : proc) : bool := pr_triggered p && match pr_stage p with Delivering _ | Over _ => false | _ => true end.
Definition holds_slot (p : proc) : bool := match pr_stage p with Delivering _ => true | _ => false end.
Definition succeeded (p : proc) : bool := match pr_stage p with Notifying _ | Delivering _ | Over true => true | _ => false end.
Definition failed (p : proc) : bool := match pr_stage p with Over false => true | _ => false end.

(** The shared state says what the processes do. *)
Record accounted (s : ScanServer) : Prop := {
  acc_mutex : tally_of holds_mutex (sv_procs s) = unit_of (bool_decide (is_Some (sv_lock s)));
  acc_owner : forall i p, sv_procs s !! i = Some p -> holds_mutex p = true -> sv_lock s = Some i;
  acc_trigger : tally_of holds_trigger (sv_procs s) = unit_of (sv_busy s);
  acc_slots : tally_of holds_slot (sv_procs s) = sv_slots s;
  acc_bound : (sv_slots s <= dispatchWorkers)%nat;
  acc_ok : tally_of succeeded (sv_procs s) = sv_ok s;
  acc_err : tally_of failed (sv_procs s) = sv_err s }.

Lemma accounted_new db : accounted (new_server db).
Proof. constructor; cbn; try done; try lia. Qed.

(** The step of one process, told by what it does to each part. *)
Lemma accounted_move (s s' : ScanServer) i p q : accounted s -> sv_procs s !! i = Some p -> sv_procs s' = <[i := q]> (sv_procs s) ->
  (unit_of (bool_decide (is_Some (sv_lock s'))) + unit_of (holds_mutex p) = unit_of (bool_decide (is_Some (sv_lock s))) + unit_of (holds_mutex q))%nat ->
  (holds_mutex q = true -> sv_lock s' = Some i) -> (sv_lock s' = sv_lock s \/ holds_mutex p = true \/ sv_lock s = None) ->
  (unit_of (sv_busy s') + unit_of (holds_trigger p) = unit_of (sv_busy s) + unit_of (holds_trigger q))%nat ->
  (sv_slots s' + unit_of (holds_slot p) = sv_slots s + unit_of (holds_slot q))%nat -> (sv_slots s' <= dispatchWorkers)%nat ->
  (sv_ok s' + unit_of (succeeded p) = sv_ok s + unit_of (succeeded q))%nat ->
  (sv_err s' + unit_of (failed p) = sv_err s + unit_of (failed q))%nat -> accounted s'.
Proof.
  intros [A1 A2 A3 A4 A5 A6 A7] Hi Hp H1 H2 H2' H3 H4 H5 H6 H7. constructor; rewrite ?Hp.
  - pose proof (tallied_insert holds_mutex (sv_procs s) i p q Hi). lia.
  - intros j r Hj Hr. apply list_lookup_insert_Some in Hj as [(<- & <- & _)|[Hne Hj]]; [by apply H2|]. pose proof (A2 j r Hj Hr) as Hl.
    destruct H2' as [E|[E|E]]; [congruence| |congruence]. pose proof (A2 i p Hi E). congruence.
  - pose proof (tallied_insert holds_trigger (sv_procs s) i p q Hi). lia.
  - pose proof (tallied_insert holds_slot (sv_procs s) i p q Hi). lia.
  - done.
  - pose proof (tallied_insert succeeded (sv_procs s) i p q Hi). lia.
  - pose proof (tallied_insert failed (sv_procs s) i p q Hi). lia.
Qed.

Section Invariant.

Context (Marshal : json -> string + string) (arrange : list (string * string * Result) -> list (string * string * Result)).
Context (build : list string -> Results -> BuildOptions -> Report) (cfg : ScanConfig).

Abbreviation server_step := (server_step Marshal arrange build cfg).

Lemma begin_accounted req s : accounted s -> accounted (begin req false s).
Proof.
  intros [A1 A2 A3 A4 A5 A6 A7]. constructor; cbn [begin set_procs sv_procs sv_lock sv_busy sv_slots sv_ok sv_err]; rewrite ?tallied_new; cbn; rewrite ?Nat.add_0_r; try done.
  intros i p [Hi|[_ Hi]]%lookup_app_Some Hh; [by eapply A2|]. by destruct (i - length (sv_procs s))%nat; [injection Hi as <-|].
Qed.

Lemma trigger_accounted source contexts id s s' r : accounted s -> startBackgroundScan source contexts id s = (s', Some r) -> accounted s'.
Proof.
  intros [A1 A2 A3 A4 A5 A6 A7]. unfold startBackgroundScan. destruct (sv_busy s) eqn:Eb; [done|]. intros [= <- _].
  constructor; cbn [begin set_busy set_procs sv_procs sv_lock sv_busy sv_slots sv_ok sv_err]; rewrite ?tallied_new; cbn; rewrite ?Nat.add_0_r; try done.
  - intros i p [Hi|[_ Hi]]%lookup_app_Some Hh; [by eapply A2|]. by destruct (i - length (sv_procs s))%nat; [injection Hi as <-|].
  - by rewrite A3.
Qed.

Lemma step_accounted op s s' : accounted s -> server_step op s = Some s' -> accounted s'.
Proof.
  intros Hacc Hs. destruct op; cbn [ScanServer.server_step] in Hs.
  all: try (injection Hs as <-; by apply begin_accounted).
  all: try (destruct (startBackgroundScan _ _ _ _) as [s1 [r|]] eqn:E; [injection Hs as <-; by eapply trigger_accounted|done]).
  all: try (injection Hs as <-; by destruct Hacc).
  all: destruct (sv_procs s !! i) as [[req trig st]|] eqn:Hi; [|done]; cbn in Hs; destruct st; try done; cbn in Hs.
  all: pose proof (acc_owner s Hacc i _ Hi) as Hown; pose proof (acc_bound s Hacc) as Hbound; cbn in Hown; first [specialize (Hown eq_refl)|clear Hown].
  all: pose proof (tallied_pos holds_trigger _ i _ Hi) as Htrig; rewrite (acc_trigger s Hacc) in Htrig; cbn in Htrig.
  all: pose proof (tallied_pos holds_slot _ i _ Hi) as Hslot; rewrite (acc_slots s Hacc) in Hslot; cbn in Hslot.
  all: repeat (case_match; try done); try (injection Hs as <-).
  all: destruct trig; cbn in Htrig; try (specialize (Htrig eq_refl); match type of Htrig with context [sv_busy ?x] => destruct (sv_busy x) eqn:Eb end; [|cbn in Htrig; lia]).
  all: eapply (accounted_move s _ i _ _ Hacc Hi); [reflexivity|..]; cbn; try done; try tauto; try lia.
  all: try (match goal with H : sv_lock ?x = _ |- _ => rewrite H end; reflexivity).
  all: try (rewrite Hown; reflexivity).
  all: try (match goal with H : sv_busy ?x = _ |- _ => rewrite H end; reflexivity).
  all: try (match goal with H : (_ <=? _)%nat = true |- _ => apply Nat.leb_le in H end; unfold dispatchWorkers in *; lia).
Qed.

(** ** What the store holds *)

Context (returns : scan_job -> Result + string -> Prop).

(** The results of a scan come from the pool of [RunScanners]. *)
Definition fanned (req : scanRequest) (names : list string) (results : Results) : Prop :=
  exists order ops p, (forall c l, order c l ≡ₚ l) /\
    pool_run keep_scan skip_scan true (pool_size (cf_workers cfg) 1) returns (RunScanners_start order names (scanners_of cfg req)) ops p /\
    pool_done p /\ po_shared p = results.

Definition possible_now (now : Z) : Prop := 0 <= now < last_instant /\ stored_time now = now /\ IsZero now = false.

(** What the environment of a step may be: other requests change the store, but prune no scan. *)
Definition op_allowed (op : server_op) (s : ScanServer) : Prop :=
  match op with
  | OpBegin req => rq_ScanID req <> ""%string
  | OpTrigger _ _ newID => newID <> ""%string
  | OpScan i names results now => possible_now now /\ forall p, sv_procs s !! i = Some p -> fanned (pr_req p) names results
  | OpStore db => store_step Marshal (fun _ => False) (sv_db s) db
  | _ => True
  end.

Inductive server_run (s0 : ScanServer) : ScanServer -> Prop :=
| srv_start : server_run s0 s0
| srv_step s op s' : server_run s0 s -> op_allowed op s -> server_step op s = Some s' -> server_run s0 s'.

(** The scan of a request is in the store, with everything it found. *)
Definition scan_in_store (req : scanRequest) (db : Db) : Prop := exists now names results,
  possible_now now /\ names <> [] /\ fanned req names results /\
  stored_as Marshal (rq_ScanID req) {| sr_Timestamp := now; sr_Clusters := names; sr_Scanners := Names results |} results db.

Definition is_saved (p : proc) : bool := match pr_stage p with Saved _ _ | Reporting _ | Notifying _ | Delivering _ | Over true => true | _ => false end.

Record recorded (s : ScanServer) : Prop := {
  rec_db : consistent (sv_db s);
  rec_ids : forall i p, sv_procs s !! i = Some p -> rq_ScanID (pr_req p) <> ""%string;
  rec_found : forall i p names results now, sv_procs s !! i = Some p -> pr_stage p = Connected names results now ->
    possible_now now /\ names <> [] /\ fanned (pr_req p) names results;
  rec_saved : forall i p, sv_procs s !! i = Some p -> is_saved p = true -> scan_in_store (pr_req p) (sv_db s);
  rec_events : forall id, (EventScanComplete, id) ∈ sv_events s -> exists i p, sv_procs s !! i = Some p /\ rq_ScanID (pr_req p) = id /\ succeeded p = true }.

Lemma store_keeps_scan req db db' : store_step Marshal (fun _ => False) db db' -> scan_in_store req db -> scan_in_store req db'.
Proof.
  intros Hstep (now & names & results & Hn & Hne & Hf & Hst). exists now, names, results. split_and!; [done|done|done|].
  refine (step_keeps_scan Marshal _ _ _ _ _ _ _ _ Hstep Hst); [done|]. cbn. apply Hn.
Qed.

Lemma recorded_new db : consistent db -> recorded (new_server db).
Proof. intros Hc. constructor; cbn; [done|done|done|done|]. by intros id ?%not_elem_of_nil. Qed.

(** The step of one process that leaves the tables alone or makes a store step. *)
Lemma recorded_move s s' i p q : recorded s -> sv_procs s !! i = Some p -> sv_procs s' = <[i := q]> (sv_procs s) -> pr_req q = pr_req p ->
  (sv_db s' = sv_db s \/ store_step Marshal (fun _ => False) (sv_db s) (sv_db s')) ->
  (forall names results now, pr_stage q = Connected names results now -> possible_now now /\ names <> [] /\ fanned (pr_req p) names results) ->
  (is_saved q = true -> is_saved p = true \/ scan_in_store (pr_req p) (sv_db s')) ->
  (succeeded p = true -> succeeded q = true) ->
  (sv_events s' = sv_events s \/ sv_events s' = sv_events s ++ [(EventScanFailed, rq_ScanID (pr_req p))] \/
   succeeded q = true /\ sv_events s' = sv_events s ++ [(EventScanComplete, rq_ScanID (pr_req p))]) -> recorded s'.
Proof.
  intros [R1 R2 R3 R4 R5] Hi Hp Hreq Hdb Hfound Hsaved Hsucc Hev.
  assert (Hkeep : forall req, scan_in_store req (sv_db s) -> scan_in_store req (sv_db s')) by (intros req; destruct Hdb as [->|Hstep]; [done|by apply store_keeps_scan]).
  assert (Hstay : forall id, (exists j r, sv_procs s !! j = Some r /\ rq_ScanID (pr_req r) = id /\ succeeded r = true) ->
    exists j r, sv_procs s' !! j = Some r /\ rq_ScanID (pr_req r) = id /\ succeeded r = true).
  { intros id (j & r & Hj & Hid & Hr). destruct (decide (i = j)) as [<-|Hne].
    - exists i, q. rewrite Hp, list_lookup_insert_eq by (by eapply lookup_lt_Some). assert (r = p) as -> by congruence. split_and!; [done|congruence|by apply Hsucc].
    - exists j, r. by rewrite Hp, list_lookup_insert_ne. }
  constructor.
  - destruct Hdb as [->|Hstep]; [done|by eapply step_consistent].
  - intros j r Hj. rewrite Hp in Hj. apply list_lookup_insert_Some in Hj as [(<- & <- & _)|[_ Hj]]; [rewrite Hreq; by eapply R2|by eapply R2].
  - intros j r names results now Hj. rewrite Hp in Hj. apply list_lookup_insert_Some in Hj as [(<- & <- & _)|[_ Hj]]; [rewrite Hreq; apply Hfound|by eapply R3].
  - intros j r Hj Hr. rewrite Hp in Hj. apply list_lookup_insert_Some in Hj as [(<- & <- & _)|[_ Hj]]; [|apply Hkeep; by eapply R4].
    rewrite Hreq. destruct (Hsaved Hr) as [Hold|]; [|done]. apply Hkeep. by eapply R4.
  - intros id Hin. destruct Hev as [E|[E|[Hq E]]]; rewrite E in Hin; [by apply Hstay, R5|..]; apply elem_of_app in Hin as [Hin|Hin]; try (by apply Hstay, R5);
      apply list_elem_of_singleton in Hin; [discriminate Hin|]. injection Hin as ->. exists i, q. rewrite Hp, list_lookup_insert_eq by (by eapply lookup_lt_Some).
    split_and!; [done|by rewrite Hreq|done].
Qed.

Context (arrange_perm : forall l, arrange l ≡ₚ l).

Lemma save_scan_step fails req names results now db : store_step Marshal (fun _ => False) db (fst (save_scan Marshal arrange fails req names results now db)).
Proof. apply step_save_scan. exact arrange_perm. Qed.

Lemma save_scan_stores fails req names results now db db' id : consistent db -> rq_ScanID req <> ""%string -> possible_now now ->
  save_scan Marshal arrange fails req names results now db = (db', inl id) ->
  stored_as Marshal (rq_ScanID req) {| sr_Timestamp := now; sr_Clusters := names; sr_Scanners := Names results |} results db'.
Proof.
  intros Hc Hid (_ & Hst & Hz) Hs. pose proof (fresh_scan_stored Marshal _ _ _ _ _ _ _ _ _ arrange_perm Hc Hs) as H.
  pose proof (save_scan_effect Marshal fails "" now arrange {| sn_ID := rq_ScanID req; sn_Timestamp := now; sn_Clusters := names; sn_Scanners := [] |} results db arrange_perm) as He.
  cbn zeta in He. unfold save_scan in Hs. rewrite Hs in He. destruct He as [-> _]. cbn [sn_ID] in H. destruct (String.eqb_spec (rq_ScanID req) ""); [done|].
  unfold scan_row_of in H. cbn [sn_Timestamp sn_Clusters] in H. by rewrite Hz, Hst in H.
Qed.

Lemma begin_recorded req t s : rq_ScanID req <> ""%string -> recorded s -> recorded (begin req t s).
Proof.
  intros Hid [R1 R2 R3 R4 R5].
  assert (Hnew : forall i p, sv_procs (begin req t s) !! i = Some p -> sv_procs s !! i = Some p \/ pr_req p = req /\ pr_stage p = Starting).
  { intros i p Hi. cbn in Hi. apply lookup_app_Some in Hi as [Hi|[_ Hi]]; [by left|]. destruct (i - length (sv_procs s))%nat; [injection Hi as <-; by right|done]. }
  constructor; cbn [begin set_procs sv_db sv_events].
  - done.
  - intros i p [Hi|[-> _]]%Hnew; [by eapply R2|done].
  - intros i p names results now [Hi|[_ E]]%Hnew Hst; [by eapply R3|congruence].
  - intros i p [Hi|[_ E]]%Hnew Hst; [by eapply R4|]. unfold is_saved in Hst. by rewrite E in Hst.
  - intros id Hin. destruct (R5 id Hin) as (i & p & Hi & H). exists i, p. split; [|done]. cbn. by apply lookup_app_l_Some.
Qed.

Lemma step_recorded op s s' : recorded s -> op_allowed op s -> server_step op s = Some s' -> recorded s'.
Proof.
  intros Hrec Hok Hs. destruct op; cbn [ScanServer.server_step] in Hs.
  all: try (injection Hs as <-; by apply begin_recorded).
  - unfold startBackgroundScan in Hs. destruct (sv_busy s); [done|]. injection Hs as <-. by apply begin_recorded; [|destruct Hrec].
  - destruct (sv_procs s !! i) as [[req trig st]|] eqn:Hi; [|done]. destruct st; try done. injection Hs as <-.
    eapply (recorded_move _ _ i _ _ Hrec Hi); [reflexivity|reflexivity|by left| |by cbn; repeat case_match|done|by left].
    cbn. intros names results now. by repeat case_match.
  - destruct (sv_procs s !! i) as [[req trig st]|] eqn:Hi; [|done]. destruct st; try done. cbn in Hs. destruct (sv_lock s); [done|]. injection Hs as <-.
    by destruct done; (eapply (recorded_move _ _ i _ _ Hrec Hi); [reflexivity|reflexivity|by left|..|by left]).
  - destruct (sv_procs s !! i) as [[req trig st]|] eqn:Hi; [|done]. destruct st; try done. cbn in Hs. destruct Hok as [Hnow Hf]. specialize (Hf _ Hi).
    destruct names as [|n names]; injection Hs as <-; (eapply (recorded_move _ _ i _ _ Hrec Hi); [reflexivity|reflexivity|by left|..|by left]); try done.
    cbn. intros names' results' now' [= <- <- <-]. done.
  - destruct (sv_procs s !! i) as [[req trig st]|] eqn:Hi; [|done]. destruct st; try done. cbn in Hs.
    destruct (rec_found s Hrec i _ _ _ _ Hi eq_refl) as (Hnow & Hne & Hf). pose proof (rec_ids s Hrec i _ Hi) as Hid. cbn in Hid, Hf.
    pose proof (save_scan_step fails req names results now (sv_db s)) as Hstep.
    destruct (save_scan Marshal arrange fails req names results now (sv_db s)) as [db' [id|e]] eqn:E; injection Hs as <-; cbn in Hstep.
    + eapply (recorded_move _ _ i _ _ Hrec Hi); [reflexivity|reflexivity|by right|done| |done|by left]. intros _. right. exists now, names, results.
      split_and!; [apply Hnow..|done|done|]. by eapply save_scan_stores; [apply Hrec| | |].
    + eapply (recorded_move _ _ i _ _ Hrec Hi); [reflexivity|reflexivity|by right|done|done|done|by left].
  - destruct (sv_procs s !! i) as [[req trig st]|] eqn:Hi; [|done]. destruct st; try done. injection Hs as <-.
    eapply (recorded_move _ _ i _ _ Hrec Hi); [reflexivity|reflexivity|by left|done|by left|done|by left].
  - destruct (sv_procs s !! i) as [[req trig st]|] eqn:Hi; [|done]. destruct st; try done; cbn in Hs.
    + injection Hs as <-. destruct trig; (eapply (recorded_move _ _ i _ _ Hrec Hi); [reflexivity|reflexivity|by left|done|done|done|by right; left]).
    + destruct (_ || _); injection Hs as <-; unfold returned; cbn; destruct trig;
        (eapply (recorded_move _ _ i _ _ Hrec Hi); [reflexivity|reflexivity|by left|done|by left|done|by right; right]).
  - destruct (sv_procs s !! i) as [[req trig st]|] eqn:Hi; [|done]. destruct st; try done; cbn in Hs. destruct (_ <=? _)%nat; [|done]. injection Hs as <-.
    destruct trig; (eapply (recorded_move _ _ i _ _ Hrec Hi); [reflexivity|reflexivity|by left|done|by left|done|by left]).
  - destruct (sv_procs s !! i) as [[req trig st]|] eqn:Hi; [|done]. destruct st; try done; cbn in Hs. destruct (sv_stopped s); [|done]. injection Hs as <-.
    destruct trig; (eapply (recorded_move _ _ i _ _ Hrec Hi); [reflexivity|reflexivity|by left|done|by left|done|by left]).
  - destruct (sv_procs s !! i) as [[req trig st]|] eqn:Hi; [|done]. destruct st; try done; cbn in Hs. injection Hs as <-.
    eapply (recorded_move _ _ i _ _ Hrec Hi); [reflexivity|reflexivity|by left|done|by left|done|by left].
  - injection Hs as <-. by destruct Hrec.
  - injection Hs as <-. destruct Hrec as [R1 R2 R3 R4 R5]. constructor; cbn; [by eapply step_consistent|done|done| |done].
    intros i p Hi Hsv. eapply store_keeps_scan; [exact Hok|]. by eapply R4.
Qed.

Lemma run_keeps s0 s : accounted s0 -> recorded s0 -> server_run s0 s -> accounted s /\ recorded s.
Proof. intros Ha Hr. induction 1 as [|s op s' _ [IH1 IH2] Hok Hs]; [done|]. split; [by eapply step_accounted|by eapply step_recorded]. Qed.

End Invariant.

(** ** The end of every scan *)

Definition rank (st : stage) : nat :=
  match st with
  | Starting => 8 | Queued => 7 | Locked => 6 | Connected _ _ _ => 5 | Saved _ _ => 4 | Reporting _ => 3 | Notifying _ => 2 | Failing _ | Delivering _ => 1 | Over _ => 0
  end.

Definition work (l : list proc) : nat := sum_list_with (fun p => rank (pr_stage p)) l.

Lemma work_insert l i p q : l !! i = Some p -> (work (<[i := q]> l) + rank (pr_stage p) = work l + rank (pr_stage q))%nat.
Proof.
  intros Hi. rewrite insert_take_drop by by eapply lookup_lt_Some. rewrite <- (take_drop_middle l i p Hi) at 3. unfold work. rewrite !sum_list_with_app. cbn. lia.
Qed.

Definition is_over (p : proc) : bool := match pr_stage p with Over _ => true | _ => false end.

(** The steps a scan takes by itself; the clusters it reaches depend on its contexts. *)
Definition own_op (reach : list string -> list string) (op : server_op) (s : ScanServer) : Prop :=
  match op with
  | OpBegin _ | OpTrigger _ _ _ | OpStop | OpStore _ => False
  | OpScan i names _ _ => forall p, sv_procs s !! i = Some p -> names = reach (rq_Contexts (pr_req p))
  | _ => True
  end.

Section Ends.

Context (Marshal : json -> string + string) (arrange : list (string * string * Result) -> list (string * string * Result)).
Context (build : list string -> Results -> BuildOptions -> Report) (cfg : ScanConfig) (returns : scan_job -> Result + string -> Prop).
Context (reach : list string -> list string).

Abbreviation server_step := (server_step Marshal arrange build cfg).
Abbreviation op_allowed := (op_allowed Marshal cfg returns).

Inductive own_run : ScanServer -> list server_op -> ScanServer -> Prop :=
| own_stop s : own_run s [] s
| own_step s op s1 ops s2 : own_op reach op s -> op_allowed op s -> server_step op s = Some s1 -> own_run s1 ops s2 -> own_run s (op :: ops) s2.

Lemma own_step_work op s s' : own_op reach op s -> server_step op s = Some s' -> (work (sv_procs s') < work (sv_procs s))%nat.
Proof.
  intros Ho Hs. destruct op; cbn [own_op] in Ho; try (destruct Ho; fail); try done; cbn [ScanServer.server_step] in Hs.
  all: destruct (sv_procs s !! i) as [[req trig st]|] eqn:Hi; [|done]; cbn in Hs; destruct st; try done; cbn in Hs.
  all: repeat (case_match; try done); injection Hs as <-; try (destruct trig); cbn; unfold work.
  all: match goal with |- (sum_list_with _ (<[?k := ?q]> _) < _)%nat => pose proof (work_insert (sv_procs s) k _ q Hi) as Hw end; unfold work in Hw; cbn in Hw; lia.
Qed.

Lemma own_run_work s ops s' : own_run s ops s' -> (length ops + work (sv_procs s') <= work (sv_procs s))%nat.
Proof. induction 1 as [|s op s1 ops s2 Ho _ Hs _ IH]; [done|]. pose proof (own_step_work op s s1 Ho Hs). cbn [length]. lia. Qed.

Lemma tallied_exists f l : (0 < tally_of f l)%nat -> exists i p, l !! i = Some p /\ f p = true.
Proof.
  intros H. unfold tally_of in H. destruct (List.filter f l) as [|p ps] eqn:E; [cbn in H; lia|]. assert (In p (List.filter f l)) as Hin by (rewrite E; by left).
  apply filter_In in Hin as [Hin Hp]. apply list_elem_of_In, list_elem_of_lookup in Hin as [i Hi]. by exists i, p.
Qed.

Context (scans_return : forall j, exists o, returns j o) (now : Z) (now_ok : possible_now now).

Lemma fan_out_done req names : exists results, fanned cfg returns req names results.
Proof.
  assert (Hsize : (0 < pool_size (cf_workers cfg) 1)%nat) by (unfold pool_size; destruct (Z.leb_spec (cf_workers cfg) 0); lia).
  destruct (pool_ends keep_scan skip_scan true _ returns Hsize scans_return (RunScanners_start (fun _ l => l) names (scanners_of cfg req))) as (ops & p & Hr & Hd).
  exists (po_shared p), (fun _ l => l), ops, p. done.
Qed.

Lemma step_of i p op s s' : own_op reach op s -> op_allowed op s -> sv_procs s !! i = Some p -> server_step op s = Some s' ->
  exists op s', own_op reach op s /\ op_allowed op s /\ server_step op s = Some s'.
Proof. intros. by exists op, s'. Qed.

Lemma holder_steps i p s : sv_procs s !! i = Some p -> holds_mutex p = true -> exists op s', own_op reach op s /\ op_allowed op s /\ server_step op s = Some s'.
Proof.
  intros Hi Hh. unfold holds_mutex in Hh. destruct p as [req trig st]. destruct st; try done; cbn in Hh.
  - destruct (fan_out_done req (reach (rq_Contexts req))) as (results & Hf). exists (OpScan i (reach (rq_Contexts req)) results now). cbn. rewrite Hi. cbn.
    eexists. split_and!; [intros p [= <-]; done|done|intros p [= <-]; done|reflexivity].
  - exists (OpSave i (fun _ => None)). cbn. rewrite Hi. cbn. eexists. split_and!; reflexivity || exact I.
  - exists (OpBuild i (fun _ => None)). cbn. rewrite Hi. cbn. eexists. split_and!; reflexivity || exact I.
Qed.

Lemma slot_steps i p s : sv_procs s !! i = Some p -> holds_slot p = true -> exists op s', own_op reach op s /\ op_allowed op s /\ server_step op s = Some s'.
Proof.
  intros Hi Hh. destruct p as [req trig st]. destruct st; try done. exists (OpDeliver i). cbn. rewrite Hi. cbn. eexists. split_and!; reflexivity || exact I.
Qed.

Lemma scan_progress s : accounted s -> (forall i p, sv_procs s !! i = Some p -> is_over p = true) \/
  exists op s', own_op reach op s /\ op_allowed op s /\ server_step op s = Some s'.
Proof.
  intros Hacc. destruct (sv_lock s) as [k|] eqn:El.
  { pose proof (acc_mutex s Hacc) as Hm. rewrite El in Hm. destruct (tallied_exists holds_mutex (sv_procs s)) as (i & p & Hi & Hp); [rewrite Hm; cbn; lia|].
    right. by apply (holder_steps i p). }
  destruct (forallb is_over (sv_procs s)) eqn:Eo.
  { left. intros i p Hi. rewrite forallb_forall in Eo. apply Eo. apply list_elem_of_In. by eapply list_elem_of_lookup_2. }
  right. assert (exists i p, sv_procs s !! i = Some p /\ is_over p = false) as (i & p & Hi & Hp).
  { clear -Eo. induction (sv_procs s) as [|x l IH]; [done|]. cbn in Eo. destruct (is_over x) eqn:E; [|by exists 0%nat, x].
    destruct (IH Eo) as (i & p & ? & ?). by exists (S i), p. }
  destruct (holds_mutex p) eqn:Eh; [by apply (holder_steps i p)|]. destruct p as [req trig st]. destruct st; try done.
  - exists (OpEnter i). cbn. rewrite Hi. cbn. eexists. split_and!; reflexivity || exact I.
  - exists (OpLock i None). cbn. rewrite Hi. cbn. rewrite El. eexists. split_and!; reflexivity || exact I.
  - exists (OpPublish i). cbn. rewrite Hi. cbn. eexists. split_and!; reflexivity || exact I.
  - exists (OpPublish i). cbn. rewrite Hi. cbn. destruct (_ || _); eexists; split_and!; reflexivity || exact I.
  - destruct (sv_slots s <? dispatchWorkers)%nat eqn:Es.
    + exists (OpDispatch i). cbn [ScanServer.server_step]. rewrite Hi. cbn [mbind option_bind proc_step pr_stage]. rewrite Es. eexists. split_and!; reflexivity || exact I.
    + apply Nat.ltb_ge in Es. destruct (tallied_exists holds_slot (sv_procs s)) as (j & q & Hj & Hq).
      { rewrite (acc_slots s Hacc). unfold dispatchWorkers in Es. lia. }
      by apply (slot_steps j q).
  - by apply (slot_steps i {| pr_req := req; pr_triggered := trig; pr_stage := Delivering rpt |}).
Qed.

Lemma scans_run_out s : accounted s -> exists ops s', own_run s ops s' /\ forall i p, sv_procs s' !! i = Some p -> is_over p = true.
Proof.
  assert (H : forall n s, (work (sv_procs s) <= n)%nat -> accounted s -> exists ops s', own_run s ops s' /\ forall i p, sv_procs s' !! i = Some p -> is_over p = true).
  { intros n. induction n as [|n IH]; intros s0 Hn Hacc; (destruct (scan_progress s0 Hacc) as [Hd|(op & s1 & Ho & Ha & Hs)]; [exists [], s0; split; [constructor|done]|]);
      pose proof (own_step_work _ _ _ Ho Hs) as Hlt; [lia|].
    destruct (IH s1 ltac:(lia)) as (ops & s' & Hr & Hd); [by eapply step_accounted|]. exists (op :: ops), s'. split; [by eapply own_step|done]. }
  by apply (H (work (sv_procs s))).
Qed.

End Ends.

(** ** What the scans of a server promise *)

Section Promises.

Context (Marshal : json -> string + string) (arrange : list (string * string * Result) -> list (string * string * Result)).
Context (build : list string -> Results -> BuildOptions -> Report) (cfg : ScanConfig) (returns : scan_job -> Result + string -> Prop).

Abbreviation run_from db := (server_run Marshal arrange build cfg returns (new_server db)).

(** C7: however scans, triggers and other requests interleave, one scan at most is past the mutex, one triggered scan at most has not returned, which
    is when a further trigger is turned away, no more notifications are under way than there are slots, and the counters are the scans that ended well
    and those that failed. *)
Theorem scans_exclusive db s source contexts newID : (forall l, arrange l ≡ₚ l) -> consistent db -> run_from db s ->
  (forall i j p q, sv_procs s !! i = Some p -> sv_procs s !! j = Some q -> holds_mutex p = true -> holds_mutex q = true -> i = j) /\
  (forall i j p q, sv_procs s !! i = Some p -> sv_procs s !! j = Some q -> holds_trigger p = true -> holds_trigger q = true -> i = j) /\
  (snd (startBackgroundScan source contexts newID s) = None <-> exists i p, sv_procs s !! i = Some p /\ holds_trigger p = true) /\
  (tally_of holds_slot (sv_procs s) <= dispatchWorkers)%nat /\ sv_ok s = tally_of succeeded (sv_procs s) /\ sv_err s = tally_of failed (sv_procs s).
Proof.
  intros Hp Hc Hr. destruct (run_keeps _ _ _ _ _ Hp _ _ (accounted_new db) (recorded_new _ _ _ _ Hc) Hr) as [[A1 A2 A3 A4 A5 A6 A7] _]. split_and!.
  - intros i j p q Hi Hj Hp' Hq. pose proof (A2 i p Hi Hp'). pose proof (A2 j q Hj Hq). congruence.
  - intros i j p q Hi Hj. apply tallied_one with (f := holds_trigger) (l := sv_procs s); [|done|done]. rewrite A3. destruct (sv_busy s); cbn; lia.
  - unfold startBackgroundScan. split.
    + destruct (sv_busy s) eqn:E; [|done]. intros _. apply tallied_exists. rewrite A3. cbn. lia.
    + intros (i & p & Hi & Hp'). pose proof (tallied_pos holds_trigger _ i p Hi Hp') as H. rewrite A3 in H. by destruct (sv_busy s); [|cbn in H; lia].
  - by rewrite A4.
  - done.
  - done.
Qed.

(** C26: a scan whose completion was announced is in the store and stays there while no scan is pruned: under the id its caller was given, with the
    clusters it reached, and with the results its scanners' pool left. *)
Theorem completed_scan_kept db s id : (forall l, arrange l ≡ₚ l) -> consistent db -> run_from db s -> (EventScanComplete, id) ∈ sv_events s ->
  exists i p, sv_procs s !! i = Some p /\ rq_ScanID (pr_req p) = id /\ scan_in_store Marshal cfg returns (pr_req p) (sv_db s) /\
    exists rec, GetScan None id (sv_db s) = inl rec /\ sn_Clusters rec <> [].
Proof.
  intros Hp Hc Hr Hin. destruct (run_keeps _ _ _ _ _ Hp _ _ (accounted_new db) (recorded_new _ _ _ _ Hc) Hr) as [_ [_ _ _ R4 R5]].
  destruct (R5 id Hin) as (i & p & Hi & Hid & Hs). exists i, p. assert (Hsaved : is_saved p = true) by (unfold succeeded, is_saved in *; by destruct (pr_stage p)).
  pose proof (R4 i p Hi Hsaved) as Hst. split_and!; [done|done|done|]. destruct Hst as (now & names & results & _ & Hne & _ & Hrow & _). rewrite Hid in Hrow.
  unfold GetScan. rewrite Hrow. eexists. split; [reflexivity|]. done.
Qed.

(** C15: scans never deadlock: from every state a server can reach, the scans in flight can all run to their end by steps of their own, whatever
    clusters they reach and as long as scanners return, and any such run is bounded by the steps they have left. *)
Theorem scans_finish reach db s now : (forall l, arrange l ≡ₚ l) -> consistent db -> run_from db s -> (forall j, exists o, returns j o) -> possible_now now ->
  (exists ops s', own_run Marshal arrange build cfg returns reach s ops s' /\ forall i p, sv_procs s' !! i = Some p -> is_over p = true) /\
  forall ops s', own_run Marshal arrange build cfg returns reach s ops s' -> (length ops <= 8 * length (sv_procs s))%nat.
Proof.
  intros Hp Hc Hr Hret Hnow. destruct (run_keeps _ _ _ _ _ Hp _ _ (accounted_new db) (recorded_new _ _ _ _ Hc) Hr) as [Hacc _]. split.
  - by eapply scans_run_out.
  - intros ops s' Hrun. apply own_run_work in Hrun. assert (work (sv_procs s) <= 8 * length (sv_procs s))%nat; [|lia].
    unfold work. clear. induction (sv_procs s) as [|p l IH]; cbn [sum_list_with length]; [lia|]. assert (rank (pr_stage p) <= 8)%nat by (destruct (pr_stage p); cbn; lia). lia.
Qed.

End Promises.

(** ** Who may start a scan *)

Section Starting.

Context (group_fails : string -> option string * option string) (available : list string + string).

Lemma started_background source contexts newID s s' r : started (startBackgroundScan source contexts newID s) = (s', r) ->
  s' = s \/ sv_busy s = false /\ r = Ok 202 newID /\ sv_procs s' = sv_procs s ++
    [{| pr_req := {| rq_Source := source; rq_ScanID := newID; rq_Contexts := contexts; rq_Scanners := None; rq_Emit := emitAll |}; pr_triggered := true; pr_stage := Starting |}].
Proof. unfold startBackgroundScan. destruct (sv_busy s); intros [= <- <-]; [by left|by right]. Qed.

Lemma filtered_allowed a lookup clusters c : c ∈ FilterClusters a lookup clusters -> c ∈ clusters /\ AllowsCluster a lookup c = true.
Proof.
  unfold FilterClusters, AllowsCluster. destruct (HasWildcardScope a) eqn:E; [done|]. intros [H1 H2]%list_elem_of_In%filter_In.
  split; [by apply list_elem_of_In|exact H2].
Qed.

(** A triggered scan covers only clusters its caller may act on, among those the request names, and the inbound webhook starts one only for a
    body signed with the secret; each starts at most one scan, and only when no triggered scan is under way. *)
Theorem triggers_authorized Unmarshal ctx body secret header text newID s :
  (forall s' r, handleTriggerScan group_fails available ctx body newID s = (s', r) -> s' = s \/ exists req p,
     body = inl req /\ sv_busy s = false /\ r = Ok 202 newID /\ sv_procs s' = sv_procs s ++ [p] /\ rq_Contexts (pr_req p) <> [] /\
     forall c, c ∈ rq_Contexts (pr_req p) -> AllowsCluster (actorFromContext ctx) (Some (groupLookup group_fails (sv_db s))) c = true /\
       exists all, resolveContexts group_fails available req (sv_db s) = inl all /\ c ∈ all) /\
  (forall s' r, handleWebhookScanTrigger group_fails available Unmarshal secret header text newID s = (s', r) -> s' = s \/ exists b p,
     text = Some b /\ secret <> ""%string /\ verifyWebhookSignature secret header b = None /\ sv_busy s = false /\ r = Ok 202 newID /\
     sv_procs s' = sv_procs s ++ [p] /\ rq_Contexts (pr_req p) <> []).
Proof.
  split; intros s' r.
  - unfold handleTriggerScan. destruct body as [req|[status msg]]; [|intros [= <- _]; by left].
    destruct (resolveContexts _ _ _ _) as [[|c0 all]|e] eqn:Er; [intros [= <- _]; by left| |intros [= <- _]; by left].
    destruct (FilterClusters _ _ (c0 :: all)) as [|c1 l] eqn:Ef; [intros [= <- _]; by left|]. intros [->|(Hb & -> & Hp)]%started_background; [by left|]. right.
    exists req. eexists. split_and!; [done|done|done|exact Hp|done|]. cbn. intros c Hc. rewrite <- Ef in Hc. apply filtered_allowed in Hc as [Hin Ha].
    split; [done|]. by exists (c0 :: all).
  - unfold handleWebhookScanTrigger. destruct (String.eqb_spec secret ""); [intros [= <- _]; by left|]. destruct text as [b|]; [|intros [= <- _]; by left].
    destruct (verifyWebhookSignature secret header b) eqn:Ev; [intros [= <- _]; by left|]. destruct (if String.eqb b "" then _ else _) as [req|err]; [|intros [= <- _]; by left].
    destruct (resolveContexts _ _ _ _) as [[|c0 all]|e]; [intros [= <- _]; by left| |intros [= <- _]; by left].
    intros [->|(Hb & -> & Hp)]%started_background; [by left|]. right. exists b. eexists. split_and!; [done|done|done|done|done|exact Hp|done].
Qed.

End Starting.

(** ** A server at work *)

Definition sample_cfg : ScanConfig := {| cf_registry := ["nodes"%string]; cf_slack := true; cf_webhooks := false; cf_driftDir := false; cf_policyDir := false; cf_workers := 1 |}.

Definition idle_server : ScanServer := new_server empty_db.

(** One scanned cluster. *)
Definition one_result : Results := <["a"%string := {["nodes"%string := scanned "nodes" ok_scan]}]> ∅.

Definition sample_build (clusters : list string) (results : Results) (opts : BuildOptions) : Report := report_zero.

(** A triggered scan that has saved its results and waits for its notification to be sent. *)
Definition sample_ops : list server_op := [
  OpTrigger scanSourceTriggered ["a"%string] "s1"; OpEnter 0; OpLock 0 None; OpScan 0 ["a"%string] one_result noon; OpSave 0 (fun _ => None); OpBuild 0 (fun _ => None);
  OpPublish 0; OpDispatch 0].

Fixpoint run_server (ops : list server_op) (s : ScanServer) : option ScanServer :=
  match ops with [] => Some s | op :: ops => server_step sample_marshal id sample_build sample_cfg op s ≫= run_server ops end.

Definition sample_server : ScanServer := default idle_server (run_server sample_ops idle_server).

Abbreviation sample_run := (server_run sample_marshal id sample_build sample_cfg (fun _ o => o = ok_scan) idle_server).

Definition sample_scan : proc := {|
  pr_req := {| rq_Source := scanSourceTriggered; rq_ScanID := "s1"; rq_Contexts := ["a"%string]; rq_Scanners := None; rq_Emit := emitAll |};
  pr_triggered := true; pr_stage := Locked |}.

Lemma sample_fanned : fanned sample_cfg (fun _ o => o = ok_scan) (pr_req sample_scan) ["a"%string] one_result.
Proof.
  exists (fun _ l => l), [OpCheck; OpAcquire; OpFinish 0 ok_scan]. eexists. split_and!; [done| | |].
  - apply run_ops_run; [|vm_compute; reflexivity]. intros i o _ H. set_solver.
  - split; reflexivity.
  - vm_compute. reflexivity.
Qed.

Lemma sample_now : possible_now noon.
Proof. vm_compute. split; [split; [discriminate|reflexivity]|split; reflexivity]. Qed.

Lemma run_server_run ops s s' : sample_run s ->
  (forall op s0, op ∈ ops -> op_allowed sample_marshal sample_cfg (fun _ o => o = ok_scan) op s0) -> run_server ops s = Some s' -> sample_run s'.
Proof.
  revert s. induction ops as [|op ops IH]; intros s Hr Ho H; [by injection H as <-|]. cbn in H.
  destruct (server_step sample_marshal id sample_build sample_cfg op s) as [s1|] eqn:E; [|done]. apply (IH s1); [|set_solver|exact H].
  eapply srv_step; [exact Hr|apply Ho; by left|exact E].
Qed.

Lemma sample_reached : sample_run sample_server.
Proof.
  set (to_lock := default idle_server (run_server (take 3 sample_ops) idle_server)).
  assert (Hlock : sample_run to_lock).
  { apply (run_server_run (take 3 sample_ops) idle_server); [constructor| |vm_compute; reflexivity].
    intros op s0 Hin. cbn in Hin. apply elem_of_cons in Hin as [->|Hin]; [done|]. apply elem_of_cons in Hin as [->|Hin]; [done|].
    by apply list_elem_of_singleton in Hin as ->. }
  set (to_scan := default idle_server (run_server (take 4 sample_ops) idle_server)).
  assert (Hscan : sample_run to_scan).
  { eapply (srv_step _ _ _ _ _ _ to_lock (OpScan 0 ["a"%string] one_result noon)); [exact Hlock| |vm_compute; reflexivity]. split; [apply sample_now|]. intros p Hp.
    assert (sv_procs to_lock !! 0%nat = Some sample_scan) as E by (vm_compute; reflexivity).
    assert (p = sample_scan) as -> by congruence. apply sample_fanned. }
  apply (run_server_run (drop 4 sample_ops) to_scan); [exact Hscan| |vm_compute; reflexivity].
  intros op s0 Hin. cbn in Hin. repeat (apply elem_of_cons in Hin as [->|Hin]; [exact I|]). by apply not_elem_of_nil in Hin.
Qed.

(** While its notification is sent, a next scan may be triggered. *)
Lemma scans_exclusive_witness : sv_ok sample_server = 1%nat /\ sv_busy sample_server = false.
Proof.
  destruct (scans_exclusive sample_marshal id sample_build sample_cfg (fun _ o => o = ok_scan) empty_db sample_server "" [] ""
    (fun l => Permutation_refl l) consistent_empty sample_reached) as (_ & _ & _ & _ & H & _). split; [rewrite H|]; vm_compute; reflexivity.
Defined.

Lemma completed_scan_kept_witness : exists rec, GetScan None "s1" (sv_db sample_server) = inl rec /\ sn_Clusters rec <> [].
Proof.
  assert ((EventScanComplete, "s1"%string) ∈ sv_events sample_server) as Hin by (vm_compute; left).
  destruct (completed_scan_kept sample_marshal id sample_build sample_cfg (fun _ o => o = ok_scan) empty_db sample_server "s1"
    (fun l => Permutation_refl l) consistent_empty sample_reached Hin) as (_ & _ & _ & _ & _ & H). exact H.
Defined.

Lemma scans_finish_witness : exists ops s', own_run sample_marshal id sample_build sample_cfg (fun _ o => o = ok_scan) id sample_server ops s' /\
  forall i p, sv_procs s' !! i = Some p -> is_over p = true.
Proof.
  exact (proj1 (scans_finish sample_marshal id sample_build sample_cfg (fun _ o => o = ok_scan) id empty_db sample_server noon
    (fun l => Permutation_refl l) consistent_empty sample_reached (fun _ => ex_intro _ ok_scan eq_refl) sample_now)).
Defined.
