(* ===== verification/Handlers.v ===== *)
(** * Handlers of the store's tables: handlers.go, tags_handler.go, geo_handlers.go

    What the endpoints of scans, clusters, groups, tags and locations answer and write. A
    handler is a function of the tables, the actor of the request and its parameters; decoding
    a body is its caller's, so a body is the decoded request or the answer decoding it gave. *)

From Stdlib Require Import ZArith Lia String Ascii.
From stdpp Require Import base gmap strings list option.
From S2P Require Import Prelude Maps Float64 GoTime TimeText Text Data Build Pipeline Trend Keys Auth Alerts Acks Store ScanServer.

Local Open Scope Z_scope.

(** ** Query parameters *)

Definition maxScanWindow : Z := 100.

Definition digit_of (c : ascii) : option Z := let n := Z.of_nat (nat_of_ascii c) - 48 in if (0 <=? n) && (n <? 10) then Some n else None.

Fixpoint digits_value (l : bytes) (acc : Z) : option Z :=
  match l with [] => Some acc | c :: l => match digit_of c with Some d => digits_value l (10 * acc + d) | None => None end end.

(** [strconv.Atoi]: a sign, decimal digits, a value of 64 bits. *)
Definition Atoi (s : string) : option Z :=
  let l := to_bytes s in
  let '(neg, l) := match l with c :: l' => if Ascii.eqb c "-"%char then (true, l') else if Ascii.eqb c "+"%char then (false, l') else (false, l) | [] => (false, []) end in
  match l with
  | [] => None
  | _ => match digits_value l 0 with
         | Some v => let v := if neg : bool then - v else v in if (- 2 ^ 63 <=? v) && (v <? 2 ^ 63) then Some v else None
         | None => None
         end
  end.

Definition queryLimit (value : string) (def ceiling : Z) : Z :=
  match Atoi value with Some n => if n <=? 0 then def else Z.min n ceiling | None => def end.

Definition defaultOutlierThreshold : float64 := f_const 35 10.

(** [ParseFloat] is the library's; a threshold is a positive number. *)
Definition queryThreshold (ParseFloat : string -> option float64) (v : string) : float64 + string :=
  if String.eqb v "" then inl defaultOutlierThreshold
  else match ParseFloat v with
       | Some f => if f_ltb f_zero f && negb (f_is_inf f) then inl f else inr "threshold must be a positive number"%string
       | None => inr "threshold must be a positive number"%string
       end.

(** ** Scans *)

(** The scan a read reports on: the one named, else the newest, if there is one. *)
Definition latestScan (fails : option string) (scan op : string) (db : Db) : option ScanRecord + reply unit :=
  if String.eqb scan "" then
    match ListScans fails 1 db with
    | inr e => inr (store_refusal e op "no scans available")
    | inl [] => inl None
    | inl (s :: _) => inl (Some s)
    end
  else match GetScan fails scan db with inr e => inr (store_refusal e op "scan not found") | inl rec => inl (Some rec) end.

Definition handleListScans (fails : option string) (limit : string) (db : Db) : reply (list ScanRecord) :=
  match ListScans fails (queryLimit limit 50 maxScanWindow) db with inl scans => Ok 200 scans | inr _ => Err 500 "list scans failed" end.

Definition handleGetScan (fails : option string) (id : string) (db : Db) : reply ScanRecord :=
  match GetScan fails id db with inl scan => Ok 200 scan | inr e => store_refusal e "get scan" "scan not found" end.

(** The findings a tag filter leaves: those of no one cluster stay. *)
Definition tagged_findings (allows : string -> bool) : list Finding -> list Finding :=
  List.filter (fun f => String.eqb (fi_Cluster f) "" || String.eqb (fi_Cluster f) "fleet" || allows (fi_Cluster f)).

(** [raw] are the [tag] parameters, [tags] what reading the tags gives, [acked] what is acknowledged. *)
Definition handleGetScanReport (Unmarshal : string -> json + string) (build : list string -> Results -> BuildOptions -> Report) (opts : BuildOptions)
  (fails fails' : option string) (raw : list string) (tags : option (gmap string (gmap string string))) (acked : gset string) (id : string) (db : Db) :
  reply Report :=
  match GetScan fails id db with
  | inr e => store_refusal e "get scan" "scan not found"
  | inl scan =>
      match GetScanResults Unmarshal fails' id db with
      | inr _ => Err 500 "get scan results failed"
      | inl results =>
          let rpt := build (sn_Clusters scan) results opts in
          match raw with
          | [] => Ok 200 (with_findings rpt (markAcked acked (rp_Findings rpt)))
          | _ => match parseTagFilter raw tags with
                 | None => Err 500 "load tag filter failed"
                 | Some allows => Ok 200 (with_findings rpt (markAcked acked (tagged_findings allows (rp_Findings rpt))))
                 end
          end
      end
  end.

(** ** Clusters and contexts *)

Definition handleListClusters (fails fails' fails'' : option string) (db : Db) : reply (list ClusterRecord) :=
  match ListClusters fails fails' db with
  | inr _ => Err 500 "list clusters failed"
  | inl clusters =>
      match ListClusterTags fails'' db with
      | inr e => store_refusal e "list cluster tags" "cluster tags not found"
      | inl tags => Ok 200 (map (fun c => {| cl_Name := cl_Name c; cl_FirstSeen := cl_FirstSeen c; cl_LastSeen := cl_LastSeen c; cl_Groups := cl_Groups c;
                                        cl_Tags := default (cl_Tags c) (tags !! cl_Name c) |}) clusters)
      end
  end.

(** Outside the demo. *)
Definition handleListContexts (available : list string + string) (fails fails' : option string) (db : Db) : reply (list (string * bool)) :=
  match available with
  | inr _ => Ok 200 []
  | inl contexts =>
      match ListClusters fails fails' db with
      | inr e => store_refusal e "list contexts: list clusters" "clusters not found"
      | inl known => Ok 200 (map (fun c => (c, existsb (fun k => String.eqb (cl_Name k) c) known)) contexts)
      end
  end.

(** ** Writes *)

Definition saved {A} (r : Db * option store_error) (op : string) (ok : reply A) : Db * reply A :=
  match r with (db, None) => (db, ok) | (db, Some _) => (db, Err 500 (op ++ " failed")%string) end.

Section Writes.

Context (ctx : option Actor) (lookup : Db -> string -> list string).

Record createGroupRequest := { cg_Name : string; cg_Clusters : list string }.

Definition handleCreateGroup (fails : nat -> option string) (body : createGroupRequest + (Z * string)) (db : Db) : Db * reply string :=
  if negb (CanManageGroups (actorFromContext ctx)) then (db, Err 403 "admin role required")
  else match body with
  | inr (status, msg) => (db, Err status msg)
  | inl req =>
      if String.eqb (cg_Name req) "" then (db, Err 400 "name is required")
      else saved (SaveGroup fails (cg_Name req) (cg_Clusters req) db) "save group" (Ok 201 (cg_Name req))
  end.

Definition handleDeleteGroup (fails : option string) (name : string) (db : Db) : Db * reply unit :=
  if negb (CanManageGroups (actorFromContext ctx)) then (db, Err 403 "admin role required")
  else match DeleteGroup fails name db with
  | (db, None) => (db, Ok 204 tt)
  | (db, Some e) => (db, store_refusal e "delete group" "group not found")
  end.

(** A request no authentication ran for is let through. *)
Definition tag_allowed (cluster : string) (db : Db) : bool := match ctx with Some a => AllowsCluster a (Some (lookup db)) cluster | None => true end.

Definition handleSetClusterTag (fails : option string) (cluster key : string) (body : string + (Z * string)) (db : Db) : Db * reply (string * string) :=
  if String.eqb cluster "" || String.eqb key "" then (db, Err 400 "cluster and key required")
  else if negb (tag_allowed cluster db) then (db, Err 403 "cluster outside actor scope")
  else match body with
  | inr (status, msg) => (db, Err status msg)
  | inl value => saved (SetClusterTag fails cluster key value db) "set tag" (Ok 200 (key, value))
  end.

Definition handleDeleteClusterTag (fails : option string) (cluster key : string) (db : Db) : Db * reply unit :=
  if String.eqb cluster "" || String.eqb key "" then (db, Err 400 "cluster and key required")
  else if negb (tag_allowed cluster db) then (db, Err 403 "cluster outside actor scope")
  else saved (DeleteClusterTag fails cluster key db) "delete tag" (Ok 204 tt).

Definition handleListClusterTags (fails : option string) (cluster : string) (db : Db) : reply (gmap string string) :=
  if String.eqb cluster "" then Err 400 "cluster required"
  else if negb (tag_allowed cluster db) then Err 403 "cluster outside actor scope"
  else match GetClusterTags fails cluster db with inl tags => Ok 200 tags | inr _ => Err 500 "get tags failed" end.

Definition handleListAllTags (fails : option string) (db : Db) : reply (gmap string (gmap string string)) :=
  match ListClusterTags fails db with
  | inr _ => Err 500 "list tags failed"
  | inl tags => Ok 200 (filter (fun e => tag_allowed (fst e) db = true) tags)
  end.

Record setLocationRequest := { sl_Lat : float64; sl_Lng : float64; sl_Site : string; sl_Notes : string }.

Definition handleSetLocation (fails : option string) (now : Z) (cluster : string) (body : setLocationRequest + (Z * string)) (db : Db) : Db * reply string :=
  if String.eqb cluster "" then (db, Err 400 "cluster required")
  else if negb (AllowsCluster (actorFromContext ctx) (Some (lookup db)) cluster) then (db, Err 403 "cluster not in actor scope")
  else match body with
  | inr (status, msg) => (db, Err status msg)
  | inl req =>
      if f_ltb (sl_Lat req) (f_of_Z (-90)) || f_ltb (f_of_Z 90) (sl_Lat req) then (db, Err 400 "lat must be between -90 and 90")
      else if f_ltb (sl_Lng req) (f_of_Z (-180)) || f_ltb (f_of_Z 180) (sl_Lng req) then (db, Err 400 "lng must be between -180 and 180")
      else saved (SetLocation fails now {| lc_Cluster := cluster; lc_Lat := sl_Lat req; lc_Lng := sl_Lng req; lc_Site := sl_Site req; lc_Notes := sl_Notes req;
                                          lc_UpdatedAt := 0 |} db) "set location" (Ok 200 cluster)
  end.

Definition handleDeleteLocation (fails : option string) (cluster : string) (db : Db) : Db * reply unit :=
  if negb (AllowsCluster (actorFromContext ctx) (Some (lookup db)) cluster) then (db, Err 403 "cluster not in actor scope")
  else saved (DeleteLocation fails cluster db) "delete location" (Ok 204 tt).

End Writes.

(** ** The globe *)

Record geoPoint := {
  gp_Cluster : string; gp_Status : string; gp_Provider : string; gp_Region : string; gp_City : string; gp_Site : string; gp_Lat : float64; gp_Lng : float64;
  gp_Source : string; gp_CriticalFindings : nat; gp_WarningFindings : nat; gp_DeviationMass : float64; gp_OutlierFields : nat }.

Record autoGeo := { ag_Provider : string; ag_Region : string; ag_City : string; ag_Site : string; ag_Source : string; ag_Lat : float64; ag_Lng : float64 }.

Definition geo_text (m : gmap string json) (k : string) : string := match m !! k with Some (JStr s) => s | _ => "" end.
Definition geo_number (m : gmap string json) (k : string) : float64 := match m !! k with Some (JNum f) => f | _ => f_zero end.

Definition extractAutoGeo (results : Results) (cluster : string) : option autoGeo :=
  scanners ← results !! cluster;
  result ← scanners !! "geo"%string;
  m ← fst (FieldMaps {["geo"%string := result]}) !! "geo"%string;
  match m !! "has_location"%string with
  | Some (JBool true) => Some {| ag_Provider := geo_text m "provider"; ag_Region := geo_text m "region"; ag_City := geo_text m "city";
      ag_Site := geo_text m "site"; ag_Source := if String.eqb (geo_text m "source") "" then "auto" else geo_text m "source";
      ag_Lat := geo_number m "lat"; ag_Lng := geo_number m "lng" |}
  | _ => None
  end.

(** The distinct fields that flag each cluster, fleet flags a cohort explains left out. *)
Definition flags_raised (r : Report) : list OutlierResult :=
  List.filter (fun o => String.eqb (or_ExplainedBy o) "") (rp_Outliers r) ++ concat (map cs_Outliers (rp_Cohorts r)).

Definition outlierFieldCounts (r : Report) (cluster : string) : nat :=
  size (list_to_set (map (fun o => (or_Scanner o ++ "/" ++ or_Field o)%string) (List.filter (fun o => String.eqb (or_Cluster o) cluster) (flags_raised r))) : gset string).

Definition shown_status (h : option ClusterHealth) : string :=
  match h with Some h => if String.eqb (ch_Status h) "" then "healthy" else ch_Status h | None => "healthy" end.

Definition health_count (sev : string) (h : option ClusterHealth) : nat := match h with Some h => default 0%nat (ch_FindingCounts h !! sev) | None => 0%nat end.

(** The last row of a cluster is the one the map keeps. *)
Definition shown_health (r : Report) (cluster : string) : option ClusterHealth := List.find (fun h => String.eqb (ch_Name h) cluster) (rev (rp_ClusterHealths r)).

Definition place_cluster (manual : list LocationRecord) (results : Results) (rpt : Report) (cluster : string) : geoPoint + string :=
  let h := shown_health rpt cluster in
  let point p := inl {| gp_Cluster := cluster; gp_Status := shown_status h; gp_Provider := ag_Provider p; gp_Region := ag_Region p; gp_City := ag_City p;
    gp_Site := ag_Site p; gp_Lat := ag_Lat p; gp_Lng := ag_Lng p; gp_Source := ag_Source p; gp_CriticalFindings := health_count SeverityCritical h;
    gp_WarningFindings := health_count SeverityWarning h; gp_DeviationMass := default f_zero (rp_DeviationMass rpt !! cluster);
    gp_OutlierFields := outlierFieldCounts rpt cluster |} in
  match List.find (fun l => String.eqb (lc_Cluster l) cluster) (rev manual) with
  | Some m => point {| ag_Provider := ""; ag_Region := ""; ag_City := lc_Site m; ag_Site := lc_Site m; ag_Source := "manual"; ag_Lat := lc_Lat m; ag_Lng := lc_Lng m |}
  | None => match extractAutoGeo results cluster with Some auto => point auto | None => inr cluster end
  end.

(** The points and the clusters without a place; [sort] is the library's, which may leave points of one cluster in any order. *)
Definition geo_answer (arrange : list geoPoint -> list geoPoint) (manual : list LocationRecord) (results : Results) (rpt : Report) (clusters : list string) :
  list geoPoint * list string :=
  let placed := map (place_cluster manual results rpt) clusters in
  (isort (less_of (cmp_on gp_Cluster String.compare)) (arrange (omap (fun p => match p with inl g => Some g | inr _ => None end) placed)),
   sort_strings (omap (fun p => match p with inl _ => None | inr c => Some c end) placed)).

Definition handleGetGeo (Unmarshal : string -> json + string) (build : list string -> Results -> BuildOptions -> Report) (opts : BuildOptions)
  (arrange : list geoPoint -> list geoPoint) (fails : nat -> option string) (scan : string) (db : Db) : reply (string * (list geoPoint * list string)) :=
  match latestScan (fails 0%nat) scan "geo: list scans" db with
  | inr (Err status msg) => Err status msg
  | inr (Ok status _) => Err status ""
  | inl None => Err 404 "no scans available"
  | inl (Some latest) =>
      match GetScanResults Unmarshal (fails 1%nat) (sn_ID latest) db with
      | inr _ => Err 500 "get scan results failed"
      | inl results =>
          match ListLocations (fails 2%nat) db with
          | inr e => store_refusal e "geo: list locations" "locations not found"
          | inl manual => Ok 200 (sn_ID latest, geo_answer arrange manual results (build (sn_Clusters latest) results opts) (sn_Clusters latest))
          end
      end
  end.

(** ** What the writes need *)

Lemma saved_effect {A} (r : Db * option store_error) op (ok : reply A) db db' rep : (forall e, snd r = Some e -> fst r = db) -> saved r op ok = (db', rep) ->
  db' = db \/ snd r = None /\ db' = fst r /\ rep = ok.
Proof. unfold saved. destruct r as [d [e|]]; cbn; intros H [= <- <-]; [left; by eapply H|by right]. Qed.

Lemma single_refused what fails run db e : snd (single what fails run db) = Some e -> fst (single what fails run db) = db.
Proof. unfold single. by destruct (sql _ _ _ _). Qed.

Lemma save_group_refused fails name clusters db e : snd (SaveGroup fails name clusters db) = Some e -> fst (SaveGroup fails name clusters db) = db.
Proof. pose proof (save_group_effect fails name clusters db) as H. by destruct (SaveGroup _ _ _ _) as [d [e'|]]; cbn in *. Qed.

Lemma set_tag_refused fails cluster key value db e : snd (SetClusterTag fails cluster key value db) = Some e -> fst (SetClusterTag fails cluster key value db) = db.
Proof. unfold SetClusterTag. destruct (_ || _); [done|]. apply single_refused. Qed.

Lemma delete_group_refused fails name db e : snd (DeleteGroup fails name db) = Some e -> fst (DeleteGroup fails name db) = db.
Proof. unfold DeleteGroup. destruct fails; [done|]. by case_bool_decide. Qed.

(** C28: a request changes the groups only for an admin, and the tags and the location of a cluster only for an actor whose scope holds it; what it changes
    is what the store's operation changes, answered with success, and a request that is refused or fails leaves every table as it was. *)
Theorem writes_in_scope ctx lookup fails fails' now cluster key gbody tbody lbody name db :
  (forall db' r, handleCreateGroup ctx fails gbody db = (db', r) -> db' = db \/ exists req, gbody = inl req /\ CanManageGroups (actorFromContext ctx) = true /\
     cg_Name req <> ""%string /\ SaveGroup fails (cg_Name req) (cg_Clusters req) db = (db', None) /\ r = Ok 201 (cg_Name req)) /\
  (forall db' r, handleDeleteGroup ctx fails' name db = (db', r) -> db' = db \/
     CanManageGroups (actorFromContext ctx) = true /\ DeleteGroup fails' name db = (db', None) /\ r = Ok 204 tt) /\
  (forall db' r, handleSetClusterTag ctx lookup fails' cluster key tbody db = (db', r) -> db' = db \/ exists value, tbody = inl value /\
     tag_allowed ctx lookup cluster db = true /\ SetClusterTag fails' cluster key value db = (db', None) /\ r = Ok 200 (key, value)) /\
  (forall db' r, handleDeleteClusterTag ctx lookup fails' cluster key db = (db', r) -> db' = db \/
     tag_allowed ctx lookup cluster db = true /\ DeleteClusterTag fails' cluster key db = (db', None) /\ r = Ok 204 tt) /\
  (forall db' r, handleSetLocation ctx lookup fails' now cluster lbody db = (db', r) -> db' = db \/ exists loc,
     AllowsCluster (actorFromContext ctx) (Some (lookup db)) cluster = true /\ lc_Cluster loc = cluster /\
     f_ltb (lc_Lat loc) (f_of_Z (-90)) = false /\ f_ltb (f_of_Z 90) (lc_Lat loc) = false /\
     f_ltb (lc_Lng loc) (f_of_Z (-180)) = false /\ f_ltb (f_of_Z 180) (lc_Lng loc) = false /\
     SetLocation fails' now loc db = (db', None) /\ r = Ok 200 cluster) /\
  (forall db' r, handleDeleteLocation ctx lookup fails' cluster db = (db', r) -> db' = db \/
     AllowsCluster (actorFromContext ctx) (Some (lookup db)) cluster = true /\ DeleteLocation fails' cluster db = (db', None) /\ r = Ok 204 tt).
Proof.
  assert (Hpair : forall (r : Db * option store_error) db', snd r = None -> db' = fst r -> r = (db', None)) by (by intros [d o] db'; cbn; intros -> ->).
  split_and!; intros db' r.
  - unfold handleCreateGroup. destruct (CanManageGroups _); [|intros [= <- _]; by left]. cbn. destruct gbody as [req|[st msg]]; [|intros [= <- _]; by left].
    destruct (String.eqb_spec (cg_Name req) ""); [intros [= <- _]; by left|]. intros [->|(H1 & H2 & ->)]%(saved_effect _ _ _ db); [by left|right|apply save_group_refused].
    exists req. split_and!; by try apply Hpair.
  - unfold handleDeleteGroup. destruct (CanManageGroups _); [|intros [= <- _]; by left]. cbn. pose proof (delete_group_refused fails' name db) as Hd.
    destruct (DeleteGroup fails' name db) as [d [e|]]; intros [= <- <-]; [left; by eapply Hd|by right].
  - unfold handleSetClusterTag. destruct (_ || _); [intros [= <- _]; by left|]. destruct (tag_allowed _ _ _ _); [|intros [= <- _]; by left]. cbn.
    destruct tbody as [v|[st msg]]; [|intros [= <- _]; by left]. intros [->|(H1 & H2 & ->)]%(saved_effect _ _ _ db); [by left|right|apply set_tag_refused].
    exists v. split_and!; by try apply Hpair.
  - unfold handleDeleteClusterTag. destruct (_ || _); [intros [= <- _]; by left|]. destruct (tag_allowed _ _ _ _); [|intros [= <- _]; by left]. cbn.
    intros [->|(H1 & H2 & ->)]%(saved_effect _ _ _ db); [by left|right; split_and!; by try apply Hpair|apply single_refused].
  - unfold handleSetLocation. destruct (String.eqb cluster ""); [intros [= <- _]; by left|]. destruct (AllowsCluster _ _ _); [|intros [= <- _]; by left]. cbn [negb].
    destruct lbody as [req|[st msg]]; [|intros [= <- _]; by left]. destruct (f_ltb (sl_Lat req) _ || _) eqn:E1; [intros [= <- _]; by left|].
    destruct (f_ltb (sl_Lng req) _ || _) eqn:E2; [intros [= <- _]; by left|]. apply orb_false_iff in E1 as [], E2 as [].
    intros [->|(H3 & H4 & ->)]%(saved_effect _ _ _ db); [by left|right|apply single_refused]. eexists. split_and!; [done|..]; [| | | | |by apply Hpair|done]; done.
  - unfold handleDeleteLocation. destruct (AllowsCluster _ _ _); [|intros [= <- _]; by left]. cbn.
    intros [->|(H1 & H2 & ->)]%(saved_effect _ _ _ db); [by left|right; split_and!; by try apply Hpair|apply single_refused].
Qed.

(** ** Reads *)

(** A window is never empty and never wider than allowed. *)
Lemma query_limit_bounds value def ceiling : 1 <= def <= ceiling -> 1 <= queryLimit value def ceiling <= ceiling.
Proof. intros H. unfold queryLimit. destruct (Atoi value) as [n|]; [|done]. destruct (Z.leb_spec n 0); lia. Qed.

Lemma place_cluster_name manual results rpt c : match place_cluster manual results rpt c with inl g => gp_Cluster g = c | inr c' => c' = c end.
Proof. unfold place_cluster. destruct (List.find _ _); [done|]. by destruct (extractAutoGeo results c). Qed.

Lemma answer_parts (f : string -> geoPoint + string) clusters : (forall c, match f c with inl g => gp_Cluster g = c | inr c' => c' = c end) ->
  map gp_Cluster (omap (fun p => match p with inl g => Some g | inr _ => None end) (map f clusters)) ++
  omap (fun p => match p with inl _ => None | inr c => Some c end) (map f clusters) ≡ₚ clusters.
Proof.
  intros Hf. induction clusters as [|c l IH]; [done|]. cbn. pose proof (Hf c) as Hc. destruct (f c) as [g|c']; cbn; rewrite <- ?Hc; [by rewrite IH|].
  rewrite <- Permutation_middle. by rewrite IH.
Qed.

(** The globe shows every cluster of the scan exactly once, as a point or among those without a place; a place the operator gave comes before the
    one the scanner found, and the points are in the order of their clusters. *)
Theorem globe_complete arrange manual results rpt clusters points unlocated : (forall l, arrange l ≡ₚ l) ->
  geo_answer arrange manual results rpt clusters = (points, unlocated) ->
  map gp_Cluster points ++ unlocated ≡ₚ clusters /\
  (forall g, g ∈ points -> match List.find (fun l => String.eqb (lc_Cluster l) (gp_Cluster g)) (rev manual) with
     | Some m => gp_Source g = "manual"%string /\ gp_Lat g = lc_Lat m /\ gp_Lng g = lc_Lng m
     | None => exists auto, extractAutoGeo results (gp_Cluster g) = Some auto /\ gp_Source g = ag_Source auto /\ gp_Lat g = ag_Lat auto /\ gp_Lng g = ag_Lng auto end) /\
  (forall c, c ∈ unlocated -> (forall m, m ∈ manual -> lc_Cluster m <> c) /\ extractAutoGeo results c = None).
Proof.
  intros Harr [= <- <-]. split_and!.
  - rewrite sort_strings_perm. etransitivity; [|apply (answer_parts (place_cluster manual results rpt)); intros c; apply place_cluster_name].
    apply Permutation_app_tail. by rewrite isort_perm, Harr.
  - intros g Hg. rewrite isort_perm, Harr in Hg. apply list_elem_of_omap in Hg as (p & Hp & Eg). destruct p as [g'|]; [|done]. injection Eg as ->.
    apply list_elem_of_In, in_map_iff in Hp as (c & Hc & _). pose proof (place_cluster_name manual results rpt c) as Hn. rewrite Hc in Hn. rewrite Hn.
    unfold place_cluster in Hc. destruct (List.find _ (rev manual)) as [m|]; [by injection Hc as <-|]. destruct (extractAutoGeo results c) as [auto|]; [|done].
    injection Hc as <-. by exists auto.
  - intros c Hc. rewrite sort_strings_perm in Hc. apply list_elem_of_omap in Hc as (p & Hp & Ec). destruct p as [|c']; [done|]. injection Ec as ->.
    apply list_elem_of_In, in_map_iff in Hp as (c' & Hc & _). unfold place_cluster in Hc. destruct (List.find _ (rev manual)) as [m|] eqn:Ef; [done|].
    destruct (extractAutoGeo results c') eqn:Ea; [done|]. injection Hc as ->. split; [|done]. intros m Hm E.
    assert (In m (rev manual)) as Hin by (apply in_rev; rewrite rev_involutive; by apply list_elem_of_In).
    pose proof (find_none _ _ Ef m Hin) as H. cbn in H. by rewrite E, String.eqb_refl in H.
Qed.

Lemma globe_complete_witness : map gp_Cluster (fst (geo_answer id [] ∅ report_zero ["b"; "a"]%string)) ++ snd (geo_answer id [] ∅ report_zero ["b"; "a"]%string)
  ≡ₚ ["b"; "a"]%string.
Proof.
  refine (proj1 (globe_complete id [] ∅ report_zero ["b"; "a"]%string _ _ (fun l => Permutation_refl l) _)). reflexivity.
Defined.
