(* ===== verification/Routes.v ===== *)
(** * Routes: server.go and the client package

    The table of endpoints with the two muxes that serve_request it, and the requests the Go client
    makes. What they use of the standard library is written out: the escaping of paths and
    queries (net/url), and the matching of patterns (net/http). A handler is named. *)

From Stdlib Require Import ZArith Lia String Ascii Floats.SpecFloat.
From stdpp Require Import base gmap strings list option.
From S2P Require Import Prelude Maps Float64 GoTime Text Format Strs.

Local Open Scope string_scope.

(** ** Escaping *)

Definition byte_class (l : string) (c : ascii) : bool := existsb (Ascii.eqb c) (to_bytes l).

Definition unreserved (c : ascii) : bool := is_alnum c || byte_in 65 90 c || byte_class "-_.~" c.

(** The bytes each kind of text keeps as they are. *)
Definition segment_byte (c : ascii) : bool := unreserved c || byte_class "$&+:=@" c.
Definition path_byte (c : ascii) : bool := segment_byte c || byte_class ",/;" c.
Definition query_byte (c : ascii) : bool := unreserved c.

Definition upper_hex (n : nat) : ascii := ascii_of_nat (if (n <? 10)%nat then 48 + n else 55 + n).
Definition pct (c : ascii) : string := let n := nat_of_ascii c in String "%" (String (upper_hex (n / 16)) (String (upper_hex (n mod 16)) "")).

Definition unhex (c : ascii) : option nat :=
  let n := nat_of_ascii c in
  if byte_in 48 57 c then Some (n - 48)%nat else if byte_in 97 102 c then Some (n - 87)%nat else if byte_in 65 70 c then Some (n - 55)%nat else None.

Fixpoint escape (keep : ascii -> bool) (s : string) : string :=
  match s with "" => "" | String c s => (if keep c then String c "" else pct c) ++ escape keep s end.

(** [+] is a blank in a query only. *)
Fixpoint unescape (plus : bool) (s : string) : option string :=
  match s with
  | "" => Some ""
  | String c s' =>
      if Ascii.eqb c "%" then
        match s' with
        | String a (String b rest) =>
            match unhex a, unhex b, unescape plus rest with
            | Some x, Some y, Some t => Some (String (ascii_of_nat (16 * x + y)) t)
            | _, _, _ => None
            end
        | _ => None
        end
      else match unescape plus s' with Some t => Some (String (if plus && Ascii.eqb c "+" then " "%char else c) t) | None => None end
  end.

Definition PathEscape : string -> string := escape segment_byte.

(** A blank becomes [+]. *)
Fixpoint QueryEscape (s : string) : string :=
  match s with "" => "" | String c s => (if Ascii.eqb c " " then "+" else if query_byte c then String c "" else pct c) ++ QueryEscape s end.

(** ** URLs *)

Record URL := { ur_Path : string; ur_RawPath : string }.

Definition setPath (p : string) : option URL :=
  match unescape false p with
  | Some path => Some {| ur_Path := path; ur_RawPath := if String.eqb p (escape path_byte path) then "" else p |}
  | None => None
  end.

Definition validEncoded (s : string) : bool := forallb (fun c => path_byte c || byte_class "!'()*[]%" c) (to_bytes s).

Definition option_is (o : option string) (s : string) : bool := match o with Some t => String.eqb t s | None => false end.

Definition EscapedPath (u : URL) : string :=
  if negb (String.eqb (ur_RawPath u) "") && validEncoded (ur_RawPath u) && option_is (unescape false (ur_RawPath u)) (ur_Path u) then ur_RawPath u
  else if String.eqb (ur_Path u) "*" then "*" else escape path_byte (ur_Path u).

Definition StripPrefix (prefix : string) (u : URL) : option URL :=
  let p := TrimPrefix (ur_Path u) prefix in let rp := TrimPrefix (ur_RawPath u) prefix in
  if (String.length p <? String.length (ur_Path u))%nat && (String.eqb (ur_RawPath u) "" || (String.length rp <? String.length (ur_RawPath u))%nat)
  then Some {| ur_Path := p; ur_RawPath := rp |} else None.

(** ** Query strings *)

(** [Values.Encode], for one value a key: in the order of the keys. *)
Definition Encode (v : gmap string string) : string :=
  join "&" (map (fun k => QueryEscape k ++ "=" ++ QueryEscape (default "" (v !! k))) (sort_strings (elements (dom v)))).

Fixpoint split_at (d : ascii) (s : string) : list string :=
  match s with
  | "" => [""]
  | String c s' => if Ascii.eqb c d then "" :: split_at d s' else match split_at d s' with seg :: rest => String c seg :: rest | [] => [String c ""] end
  end.

(** What is before the first [d] and what follows it. *)
Fixpoint cut_at (d : ascii) (s : string) : string * string :=
  match s with "" => ("", "") | String c s' => if Ascii.eqb c d then ("", s') else let '(a, b) := cut_at d s' in (String c a, b) end.

(** The first value of each key; a part that cannot be read is skipped. *)
Definition add_param (part : string) (m : gmap string string) : gmap string string :=
  if String.eqb part "" || byte_class part ";" then m
  else let '(k, v) := cut_at "=" part in
       match unescape true k, unescape true v with Some k, Some v => <[k := v]> m | _, _ => m end.

Definition ParseQuery (s : string) : gmap string string := foldr add_param ∅ (split_at "&" s).

(** ** Patterns *)

Inductive segment := Lit (s : string) | Wild | Tail.

Record Route := { rt_Method : string; rt_Path : string; rt_Handler : string }.

Definition route (m p h : string) : Route := {| rt_Method := m; rt_Path := p; rt_Handler := h |}.

Definition pattern_segment (s : string) : segment := match s with "" => Tail | String c _ => if Ascii.eqb c "{" then Wild else Lit s end.

(** The segments of a pattern, which begins with a slash. *)
Definition pattern_of (r : Route) : list segment := match split_at "/" (rt_Path r) with _ :: segs => map pattern_segment segs | [] => [] end.

(** The routes of one method, with what is left of their patterns. *)
Abbreviation node := (list (list segment * string)).

Definition of_method (m : string) (routes : list Route) : node :=
  map (fun r => (pattern_of r, rt_Handler r)) (List.filter (fun r => String.eqb (rt_Method r) m) routes).

Definition child (seg : string) (n : node) : node :=
  omap (fun e : list segment * string => match fst e with Lit s :: rest => if String.eqb s seg then Some (rest, snd e) else None | _ => None end) n.
Definition wild_child (n : node) : node := omap (fun e : list segment * string => match fst e with Wild :: rest => Some (rest, snd e) | _ => None end) n.
Definition leaf (n : node) : option string := head (omap (fun e : list segment * string => match fst e with [] => Some (snd e) | _ => None end) n).
Definition tail_leaf (n : node) : option string := head (omap (fun e : list segment * string => match fst e with [Tail] => Some (snd e) | _ => None end) n).

(** A match: the handler, the values of the wildcards, and whether a trailing slash took the rest. *)
Record Match := { mt_Handler : string; mt_Args : list string; mt_Tail : option nat }.

(** Literal segments before wildcards, wildcards before a trailing slash; a path that ends in a slash has the last segment ["/"]. *)
Fixpoint match_path (n : node) (segs args : list string) (depth : nat) : option Match :=
  match segs with
  | [] => match leaf n with Some h => Some {| mt_Handler := h; mt_Args := args; mt_Tail := None |} | None => None end
  | seg :: rest =>
      match match n with [] => None | _ => match_path (child seg n) rest args (S depth) end with
      | Some m => Some m
      | None =>
          match match n with [] => None | _ => if String.eqb seg "/" then None else match_path (wild_child n) rest (args ++ [seg]) (S depth) end with
          | Some m => Some m
          | None => match tail_leaf n with Some h => Some {| mt_Handler := h; mt_Args := args; mt_Tail := Some (S depth) |} | None => None end
          end
      end
  end.

Definition match_method (routes : list Route) (method : string) (segs : list string) : option Match :=
  match match_path (of_method method routes) segs [] 0 with
  | Some m => Some m
  | None =>
      match (if String.eqb method "HEAD" then match_path (of_method "GET" routes) segs [] 0 else None) with
      | Some m => Some m
      | None => match_path (of_method "" routes) segs [] 0
      end
  end.

(** ** The mux *)

(** [path.Clean] of a rooted path, segment by segment. *)
Definition clean_step (stack : list string) (seg : string) : list string :=
  if String.eqb seg "" || String.eqb seg "." then stack else if String.eqb seg ".." then tail stack else seg :: stack.

Definition ends_slash (p : string) : bool := match rev (to_bytes p) with c :: _ => Ascii.eqb c "/" | [] => false end.

Definition cleanPath (p : string) : string :=
  let p := match p with "" => "/" | String c _ => if Ascii.eqb c "/" then p else String "/" p end in
  let np := String "/" (join "/" (rev (fold_left clean_step (split_at "/" p) []))) in
  if ends_slash p && negb (String.eqb np "/") then np ++ "/" else np.

(** The segments of a clean path, unescaped where they can be. *)
Definition mux_segments (p : string) : list string :=
  match split_at "/" p with _ :: segs => map (fun s => if String.eqb s "" then "/" else default s (unescape false s)) segs | [] => [] end.

(** Nothing is left for a trailing slash to take. *)
Definition exact (m : option Match) (segs : list string) : bool :=
  match m with
  | None => false
  | Some m => match mt_Tail m with None => true | Some n => option_is (head (rev segs)) "/" && (n =? length segs)%nat end
  end.

Inductive Answer := Served (handler : string) (args : list string) | Redirected (path : string) | MethodNotAllowed | NotFound.

Definition mux_serve (routes : list Route) (method path : string) : Answer :=
  let clean := cleanPath path in
  let segs := mux_segments clean in
  let m := match_method routes method segs in
  if negb (exact m segs) && negb (ends_slash clean) && exact (match_method routes method (segs ++ ["/"])) (segs ++ ["/"]) then Redirected (clean ++ "/")
  else if negb (String.eqb clean path) then Redirected clean
  else match m with
       | Some m => Served (mt_Handler m) (mt_Args m)
       | None => if existsb (fun r => match match_method routes (rt_Method r) segs with Some _ => true | None => false end) routes then MethodNotAllowed else NotFound
       end.

(** ** server.go *)

Definition apiRoutes : list Route := [
  route "GET" "/scans" "handleListScans";
  route "GET" "/scans/{id}" "handleGetScan";
  route "GET" "/scans/{id}/report" "handleGetScanReport";
  route "GET" "/scans/{id}/seal" "handleGetScanSeal";
  route "POST" "/scans" "handleTriggerScan";
  route "GET" "/clusters" "handleListClusters";
  route "GET" "/clusters/{name}/detail" "handleGetClusterDetail";
  route "GET" "/clusters/{name}/timeline" "handleClusterTimeline";
  route "GET" "/clusters/{name}/tags" "handleListClusterTags";
  route "PUT" "/clusters/{name}/tags/{key}" "handleSetClusterTag";
  route "DELETE" "/clusters/{name}/tags/{key}" "handleDeleteClusterTag";
  route "GET" "/tags" "handleListAllTags";
  route "GET" "/groups" "handleListGroups";
  route "POST" "/groups" "handleCreateGroup";
  route "DELETE" "/groups/{name}" "handleDeleteGroup";
  route "GET" "/trends" "handleGetTrends";
  route "GET" "/trends/{cluster}" "handleGetClusterTrends";
  route "GET" "/outliers" "handleGetOutliers";
  route "GET" "/cohorts" "handleGetCohorts";
  route "GET" "/capacity" "handleGetCapacity";
  route "GET" "/forecast/fleet-score" "handleGetFleetScoreForecast";
  route "GET" "/forecast/clusters" "handleGetClusterForecasts";
  route "GET" "/cost" "handleGetCost";
  route "GET" "/integrations" "handleGetIntegrations";
  route "GET" "/acks" "handleListAcks";
  route "GET" "/findings/timeline" "handleFindingsTimeline";
  route "GET" "/findings/persistence" "handleFindingsPersistence";
  route "POST" "/findings/{fingerprint}/ack" "handleCreateAck";
  route "DELETE" "/findings/{fingerprint}/ack" "handleDeleteAck";
  route "POST" "/alerts/{fingerprint}/ack" "handleAckAlert";
  route "POST" "/webhooks/scan-trigger" "handleWebhookScanTrigger";
  route "POST" "/webhooks/alertmanager" "handleAlertManagerWebhook";
  route "POST" "/webhooks/falco" "handleFalcoWebhook";
  route "GET" "/alerts" "handleListAlerts";
  route "GET" "/geo" "handleGetGeo";
  route "GET" "/contexts" "handleListContexts";
  route "GET" "/locations" "handleListLocations";
  route "PUT" "/locations/{cluster}" "handleSetLocation";
  route "DELETE" "/locations/{cluster}" "handleDeleteLocation";
  route "GET" "/admin/keys" "handleAdminListKeys";
  route "POST" "/admin/keys" "handleAdminCreateKey";
  route "DELETE" "/admin/keys/{id}" "handleAdminRevokeKey";
  route "GET" "/admin/audit" "handleAdminListAudit";
  route "GET" "/admin/whoami" "handleAdminWhoami";
  route "GET" "/admin/system" "handleAdminSystem";
  route "GET" "/scanners" "handleListScanners";
  route "GET" "/distributions" "handleGetDistributions";
  route "GET" "/distributions/history" "handleGetDistributionHistory";
  route "GET" "/score/attribution" "handleGetScoreAttribution";
  route "GET" "/drift" "handleGetDrift";
  route "GET" "/cohorts/map" "handleGetCohortMap";
  route "POST" "/whatif" "handleWhatIf";
  route "GET" "/events" "handleEventsStream" ]%string.

Definition rootRoutes : list Route := [
  route "GET" "/healthz" "handleHealthz";
  route "GET" "/readyz" "handleReadyz";
  route "GET" "/openapi.yaml" "handleOpenAPI";
  route "GET" "/oidc/login" "handleOIDCLogin";
  route "GET" "/oidc/callback" "handleOIDCCallback";
  route "GET" "/oidc/logout" "handleOIDCLogout" ]%string.

(** The mux of the server: the API below its prefix, the root routes for any method, the
    redirect of the cinematic view, the vendored script and the static files. *)
Definition routes : list Route :=
  route "" "/api/" "api" :: map (fun r => route "" (rt_Path r) (rt_Handler r)) rootRoutes ++
  [route "" "/cinematic" "cinematic"; route "GET" "/vendor/chart.min.js" "serveChartJS"; route "" "/" "static"].

(** A request is a method and the path of its URL as sent. *)
Definition serve_request (method target : string) : Answer :=
  match setPath target with
  | None => NotFound
  | Some u =>
      match mux_serve routes method (EscapedPath u) with
      | Served h args =>
          if String.eqb h "api" then
            match StripPrefix "/api" u with Some u => mux_serve apiRoutes method (EscapedPath u) | None => NotFound end
          else Served h args
      | answer => answer
      end
  end.

(** ** client/api.go *)

(** [FormatFloat(x, 'f', -1, 64)]: the shortest digits, without an exponent. *)
Definition show_plain (x : float64) : string :=
  match x with
  | S754_zero s => sign_text s "0"
  | S754_finite s m e =>
      let '(v, nd, p) := shortest x m e in
      let digits := itoa v in
      sign_text s (if (p <=? 0)%Z then "0." ++ zeros (Z.to_nat (- p)) ++ digits
                   else if (nd <=? p)%Z then digits ++ zeros (Z.to_nat (p - nd))
                   else String.substring 0 (Z.to_nat p) digits ++ "." ++ String.substring (Z.to_nat p) (Z.to_nat (nd - p)) digits)
  | _ => special_text x
  end.

Definition text_param (k v : string) : gmap string string := if String.eqb v "" then ∅ else {[k := v]}.
Definition positive_param (k : string) (n : Z) : gmap string string := if (0 <? n)%Z then {[k := itoa n]} else ∅.
Definition time_param (k : string) (t : Z) : gmap string string := if IsZero t then ∅ else {[k := RFC3339 t]}.
Definition threshold_param (x : float64) : gmap string string := if f_ltb f_zero x then {["threshold" := show_plain x]} else ∅.

Record AlertQuery := { aq_Cluster : string; aq_Status : string; aq_Severity : string; aq_Since : Z; aq_Limit : Z }.

Definition alert_values (q : AlertQuery) : gmap string string :=
  text_param "cluster" (aq_Cluster q) ∪ text_param "status" (aq_Status q) ∪ text_param "severity" (aq_Severity q) ∪
  time_param "since" (aq_Since q) ∪ positive_param "limit" (aq_Limit q).

Record DistributionQuery := { dq_Scope : string; dq_Scanner : string; dq_Field : string }.
Record DriftQuery := { dr_Scans : Z; dr_Since : Z; dr_Until : Z }.

(** The one read option names a scan. *)
Inductive ReadOption := WithScan (id : string).

Definition readQuery (q : gmap string string) (opts : list ReadOption) : gmap string string :=
  fold_left (fun q o => match o with WithScan id => <["scan" := id]> q end) opts q.

(** The calls of the client. A body is JSON of its own, and no part of a route. *)
Inductive Call :=
| Healthz
| Readyz
| ListScans (limit : Z)
| TriggerScan
| GetScan (id : string)
| GetScanReport (id : string)
| ListClusters
| GetClusterDetail (name : string) (opts : list ReadOption)
| ListGroups
| CreateGroup
| DeleteGroup (name : string)
| Trends (scans : Z)
| ClusterTrends (cluster : string)
| Outliers (threshold : float64) (opts : list ReadOption)
| Capacity (opts : list ReadOption)
| FleetForecast (scans : Z)
| ClustersForecast
| Cost (opts : list ReadOption)
| Integrations
| ListAcks
| AckFinding (fingerprint : string)
| DeleteFindingAck (fingerprint : string)
| ListAlerts (query : AlertQuery)
| AckAlert (fingerprint : string)
| ClusterTimeline (name : string) (limit : Z)
| Geo (opts : list ReadOption)
| ListLocations
| SetLocation (cluster : string)
| DeleteLocation (cluster : string)
| Contexts
| Scanners
| Cohorts (threshold : float64) (opts : list ReadOption)
| Distributions (query : DistributionQuery) (opts : list ReadOption)
| DistributionHistory (scanner field scope : string) (scans : Z)
| ScoreAttribution (opts : list ReadOption)
| Drift (query : DriftQuery)
| CohortMap (opts : list ReadOption)
| WhatIf.

(** A request without its body: the method, the path and the query. Each method of the client
    builds one; [do] sends it. *)
Abbreviation Request := (string * string * gmap string string)%type.

Definition healthz_request : Request := ("GET", "/healthz", ∅).
Definition readyz_request : Request := ("GET", "/readyz", ∅).
Definition listScans_request (limit : Z) : Request := ("GET", "/api/scans", positive_param "limit" limit).
Definition triggerScan_request : Request := ("POST", "/api/scans", ∅).
Definition getScan_request (id : string) : Request := ("GET", "/api/scans/" ++ PathEscape id, ∅).
Definition getScanReport_request (id : string) : Request := ("GET", "/api/scans/" ++ PathEscape id ++ "/report", ∅).
Definition listClusters_request : Request := ("GET", "/api/clusters", ∅).
Definition getClusterDetail_request (name : string) (opts : list ReadOption) : Request := ("GET", "/api/clusters/" ++ PathEscape name ++ "/detail", readQuery ∅ opts).
Definition listGroups_request : Request := ("GET", "/api/groups", ∅).
Definition createGroup_request : Request := ("POST", "/api/groups", ∅).
Definition deleteGroup_request (name : string) : Request := ("DELETE", "/api/groups/" ++ PathEscape name, ∅).
Definition trends_request (scans : Z) : Request := ("GET", "/api/trends", positive_param "scans" scans).
Definition clusterTrends_request (cluster : string) : Request := ("GET", "/api/trends/" ++ PathEscape cluster, ∅).
Definition outliers_request (threshold : float64) (opts : list ReadOption) : Request := ("GET", "/api/outliers", readQuery (threshold_param threshold) opts).
Definition capacity_request (opts : list ReadOption) : Request := ("GET", "/api/capacity", readQuery ∅ opts).
Definition fleetForecast_request (scans : Z) : Request := ("GET", "/api/forecast/fleet-score", positive_param "scans" scans).
Definition clustersForecast_request : Request := ("GET", "/api/forecast/clusters", ∅).
Definition cost_request (opts : list ReadOption) : Request := ("GET", "/api/cost", readQuery ∅ opts).
Definition integrations_request : Request := ("GET", "/api/integrations", ∅).
Definition listAcks_request : Request := ("GET", "/api/acks", ∅).
Definition ackFinding_request (fingerprint : string) : Request := ("POST", "/api/findings/" ++ PathEscape fingerprint ++ "/ack", ∅).
Definition deleteFindingAck_request (fingerprint : string) : Request := ("DELETE", "/api/findings/" ++ PathEscape fingerprint ++ "/ack", ∅).
Definition listAlerts_request (query : AlertQuery) : Request := ("GET", "/api/alerts", alert_values query).
Definition ackAlert_request (fingerprint : string) : Request := ("POST", "/api/alerts/" ++ PathEscape fingerprint ++ "/ack", ∅).
Definition clusterTimeline_request (name : string) (limit : Z) : Request := ("GET", "/api/clusters/" ++ PathEscape name ++ "/timeline", positive_param "limit" limit).
Definition geo_request (opts : list ReadOption) : Request := ("GET", "/api/geo", readQuery ∅ opts).
Definition listLocations_request : Request := ("GET", "/api/locations", ∅).
Definition setLocation_request (cluster : string) : Request := ("PUT", "/api/locations/" ++ PathEscape cluster, ∅).
Definition deleteLocation_request (cluster : string) : Request := ("DELETE", "/api/locations/" ++ PathEscape cluster, ∅).
Definition contexts_request : Request := ("GET", "/api/contexts", ∅).
Definition scanners_request : Request := ("GET", "/api/scanners", ∅).
Definition cohorts_request (threshold : float64) (opts : list ReadOption) : Request := ("GET", "/api/cohorts", readQuery (threshold_param threshold) opts).
Definition distributions_request (query : DistributionQuery) (opts : list ReadOption) : Request := ("GET", "/api/distributions", readQuery (text_param "scope" (dq_Scope query) ∪ text_param "scanner" (dq_Scanner query) ∪ text_param "field" (dq_Field query)) opts).
Definition distributionHistory_request (scanner field scope : string) (scans : Z) : Request := ("GET", "/api/distributions/history", positive_param "scans" scans ∪ text_param "scope" scope ∪ {["scanner" := scanner; "field" := field]}).
Definition scoreAttribution_request (opts : list ReadOption) : Request := ("GET", "/api/score/attribution", readQuery ∅ opts).
Definition drift_request (query : DriftQuery) : Request := ("GET", "/api/drift", positive_param "scans" (dr_Scans query) ∪ time_param "since" (dr_Since query) ∪ time_param "until" (dr_Until query)).
Definition cohortMap_request (opts : list ReadOption) : Request := ("GET", "/api/cohorts/map", readQuery ∅ opts).
Definition whatIf_request : Request := ("POST", "/api/whatif", ∅).

Definition call_request (call : Call) : Request :=
  match call with
  | Healthz => healthz_request
  | Readyz => readyz_request
  | ListScans limit => listScans_request limit
  | TriggerScan => triggerScan_request
  | GetScan id => getScan_request id
  | GetScanReport id => getScanReport_request id
  | ListClusters => listClusters_request
  | GetClusterDetail name opts => getClusterDetail_request name opts
  | ListGroups => listGroups_request
  | CreateGroup => createGroup_request
  | DeleteGroup name => deleteGroup_request name
  | Trends scans => trends_request scans
  | ClusterTrends cluster => clusterTrends_request cluster
  | Outliers threshold opts => outliers_request threshold opts
  | Capacity opts => capacity_request opts
  | FleetForecast scans => fleetForecast_request scans
  | ClustersForecast => clustersForecast_request
  | Cost opts => cost_request opts
  | Integrations => integrations_request
  | ListAcks => listAcks_request
  | AckFinding fingerprint => ackFinding_request fingerprint
  | DeleteFindingAck fingerprint => deleteFindingAck_request fingerprint
  | ListAlerts query => listAlerts_request query
  | AckAlert fingerprint => ackAlert_request fingerprint
  | ClusterTimeline name limit => clusterTimeline_request name limit
  | Geo opts => geo_request opts
  | ListLocations => listLocations_request
  | SetLocation cluster => setLocation_request cluster
  | DeleteLocation cluster => deleteLocation_request cluster
  | Contexts => contexts_request
  | Scanners => scanners_request
  | Cohorts threshold opts => cohorts_request threshold opts
  | Distributions query opts => distributions_request query opts
  | DistributionHistory scanner field scope scans => distributionHistory_request scanner field scope scans
  | ScoreAttribution opts => scoreAttribution_request opts
  | Drift query => drift_request query
  | CohortMap opts => cohortMap_request opts
  | WhatIf => whatIf_request
  end.

(** ** client/client.go *)

(** The server without the slashes at its end. *)
Fixpoint trim_base (s : string) : string :=
  match s with
  | "" => ""
  | String c s => match trim_base s with "" => if Ascii.eqb c "/" then "" else String c "" | rest => String c rest end
  end.

(** The URL that [do] asks for. *)
Definition call_url (base : string) (r : Request) : string :=
  let '(_, path, query) := r in
  trim_base base ++ path ++ (if (0 <? size query)%nat then "?" ++ Encode query else "").

Record APIError := { ae_StatusCode : Z; ae_Code : Z; ae_Message : string }.

Definition APIError_Error (e : APIError) : string :=
  if negb (String.eqb (ae_Message e) "") then "fleetsweeper: http " ++ itoa (ae_StatusCode e) ++ ": " ++ ae_Message e
  else "fleetsweeper: http " ++ itoa (ae_StatusCode e).

(** [envelope] is the decoder of the standard error body: its text and its code. *)
Definition newAPIError (envelope : string -> option (string * Z)) (status : Z) (body : string) : APIError :=
  let body := String.substring 0 (Z.to_nat 1048576) body in
  match envelope body with
  | Some (text, code) =>
      if negb (String.eqb text "") then {| ae_StatusCode := status; ae_Code := code; ae_Message := text |}
      else {| ae_StatusCode := status; ae_Code := 0; ae_Message := TrimSpace body |}
  | None => {| ae_StatusCode := status; ae_Code := 0; ae_Message := TrimSpace body |}
  end.

Definition has_body (call : Call) : bool :=
  match call with TriggerScan | CreateGroup | AckFinding _ | AckAlert _ | SetLocation _ | WhatIf => true | _ => false end.

(** The handler the server has for a call, and what it reads from the path. *)
Definition handler_of (call : Call) : string * list string :=
  match call with
  | Healthz => ("handleHealthz", [])
  | Readyz => ("handleReadyz", [])
  | ListScans _ => ("handleListScans", [])
  | TriggerScan => ("handleTriggerScan", [])
  | GetScan id => ("handleGetScan", [id])
  | GetScanReport id => ("handleGetScanReport", [id])
  | ListClusters => ("handleListClusters", [])
  | GetClusterDetail name _ => ("handleGetClusterDetail", [name])
  | ListGroups => ("handleListGroups", [])
  | CreateGroup => ("handleCreateGroup", [])
  | DeleteGroup name => ("handleDeleteGroup", [name])
  | Trends _ => ("handleGetTrends", [])
  | ClusterTrends cluster => ("handleGetClusterTrends", [cluster])
  | Outliers _ _ => ("handleGetOutliers", [])
  | Capacity _ => ("handleGetCapacity", [])
  | FleetForecast _ => ("handleGetFleetScoreForecast", [])
  | ClustersForecast => ("handleGetClusterForecasts", [])
  | Cost _ => ("handleGetCost", [])
  | Integrations => ("handleGetIntegrations", [])
  | ListAcks => ("handleListAcks", [])
  | AckFinding fingerprint => ("handleCreateAck", [fingerprint])
  | DeleteFindingAck fingerprint => ("handleDeleteAck", [fingerprint])
  | ListAlerts _ => ("handleListAlerts", [])
  | AckAlert fingerprint => ("handleAckAlert", [fingerprint])
  | ClusterTimeline name _ => ("handleClusterTimeline", [name])
  | Geo _ => ("handleGetGeo", [])
  | ListLocations => ("handleListLocations", [])
  | SetLocation cluster => ("handleSetLocation", [cluster])
  | DeleteLocation cluster => ("handleDeleteLocation", [cluster])
  | Contexts => ("handleListContexts", [])
  | Scanners => ("handleListScanners", [])
  | Cohorts _ _ => ("handleGetCohorts", [])
  | Distributions _ _ => ("handleGetDistributions", [])
  | DistributionHistory _ _ _ _ => ("handleGetDistributionHistory", [])
  | ScoreAttribution _ => ("handleGetScoreAttribution", [])
  | Drift _ => ("handleGetDrift", [])
  | CohortMap _ => ("handleGetCohortMap", [])
  | WhatIf => ("handleWhatIf", [])
  end%string.

(** ** Escaped texts *)

(** No byte of the text is [d]. *)
Definition free (d : ascii) (s : string) : bool := forallb (fun c => negb (Ascii.eqb c d)) (to_bytes s).

Lemma str_cons c (a b : string) : String c a ++ b = String c (a ++ b).
Proof. done. Qed.

Lemma str_nil (b : string) : "" ++ b = b.
Proof. done. Qed.

Lemma forallb_str_app f (a b : string) : forallb f (to_bytes (a ++ b)) = forallb f (to_bytes a) && forallb f (to_bytes b).
Proof. by rewrite to_bytes_app, forallb_app. Qed.

Lemma pct_unescape plus c rest : unescape plus (pct c ++ rest) = (String c) <$> unescape plus rest.
Proof.
  assert (H : forall a b, unescape plus (String "%" (String a (String b rest))) =
    match unhex a, unhex b, unescape plus rest with Some x, Some y, Some t => Some (String (ascii_of_nat (16 * x + y)) t) | _, _, _ => None end) by done.
  unfold pct. cbv zeta. rewrite !str_cons, str_nil, H. destruct c as [[] [] [] [] [] [] [] []]; by destruct (unescape plus rest).
Qed.

Lemma unescape_escape keep s : keep "%"%char = false -> unescape false (escape keep s) = Some s.
Proof.
  intros Hk. induction s as [|c s IH]; [done|]. cbn [escape]. destruct (keep c) eqn:E.
  - rewrite str_cons, str_nil. cbn [unescape]. destruct (Ascii.eqb_spec c "%") as [->|]; [congruence|]. by rewrite IH.
  - by rewrite pct_unescape, IH.
Qed.

Lemma unescape_QueryEscape s : unescape true (QueryEscape s) = Some s.
Proof.
  induction s as [|c s IH]; [done|]. cbn [QueryEscape]. destruct (Ascii.eqb_spec c " ") as [->|Hb]; [rewrite str_cons, str_nil; cbn; by rewrite IH|].
  destruct (query_byte c) eqn:E; [|by rewrite pct_unescape, IH]. rewrite str_cons, str_nil. cbn [unescape]. destruct (Ascii.eqb_spec c "%") as [->|]; [done|]. rewrite IH.
  destruct (Ascii.eqb_spec c "+") as [->|]; [done|]. done.
Qed.

(** What holds of the bytes kept, and of the percent sign and the digits, holds of an escaped text. *)
Lemma pct_bytes f c : forallb f (to_bytes "%0123456789ABCDEF") = true -> forallb f (to_bytes (pct c)) = true.
Proof.
  intros H. rewrite forallb_forall in H. assert (Hc : forallb (byte_class "%0123456789ABCDEF") (to_bytes (pct c)) = true).
  { destruct c as [[] [] [] [] [] [] [] []]; vm_compute; reflexivity. }
  rewrite forallb_forall in Hc |- *. intros d Hd. apply H. specialize (Hc d Hd). apply existsb_exists in Hc as (e & He & ->%Ascii.eqb_eq). exact He.
Qed.

Lemma escape_bytes f keep s : forallb f (to_bytes "%0123456789ABCDEF") = true -> (forall c, keep c = true -> f c = true) ->
  forallb f (to_bytes (escape keep s)) = true.
Proof.
  intros Hp Hk. induction s as [|c s IH]; [done|]. cbn [escape]. rewrite forallb_str_app, IH, andb_true_r. destruct (keep c) eqn:E; [|by apply pct_bytes].
  cbn. by rewrite Hk.
Qed.

Lemma query_bytes f s : forallb f (to_bytes "+%0123456789ABCDEF") = true -> (forall c, query_byte c = true -> f c = true) ->
  forallb f (to_bytes (QueryEscape s)) = true.
Proof.
  intros Hp Hk. assert (f "+"%char = true /\ forallb f (to_bytes "%0123456789ABCDEF") = true) as [Hplus Hp'] by (cbn [to_bytes list_ascii_of_string forallb] in Hp |- *; by apply andb_true_iff in Hp).
  induction s as [|c s IH]; [done|]. cbn [QueryEscape]. rewrite forallb_str_app, IH, andb_true_r.
  destruct (Ascii.eqb c " "); [cbn; by rewrite Hplus|]. destruct (query_byte c) eqn:E; [|by apply pct_bytes]. cbn. by rewrite Hk.
Qed.

Lemma unescape_app plus a b x : unescape plus a = Some x -> unescape plus (a ++ b) = (fun t => x ++ t) <$> unescape plus b.
Proof.
  remember (String.length a) as n eqn:En. assert (Hn : (String.length a <= n)%nat) by lia. clear En. revert a x Hn.
  induction n as [|n IH]; intros [|c a] x Hn H; cbn in Hn; try lia.
  1,2: injection H as <-; rewrite str_nil; destruct (unescape plus b) as [t|]; [by cbn; rewrite ?str_nil|done].
  rewrite str_cons. cbn [unescape] in H |- *. destruct (Ascii.eqb c "%").
  - destruct a as [|a1 [|a2 a]]; try done. rewrite !str_cons. destruct (unhex a1); [|done]. destruct (unhex a2); [|done].
    destruct (unescape plus a) as [t|] eqn:E; [|done]. injection H as <-. cbn in Hn. rewrite (IH a t ltac:(lia) E). by destruct (unescape plus b).
  - destruct (unescape plus a) as [t|] eqn:E; [|done]. injection H as <-. rewrite (IH a t ltac:(lia) E). by destruct (unescape plus b).
Qed.

(** ** Splitting *)

Lemma split_at_free d a : free d a = true -> split_at d a = [a].
Proof.
  induction a as [|c a IH]; [done|]. cbn. intros [Hc Ha]%andb_true_iff. destruct (Ascii.eqb c d); [done|]. by rewrite IH.
Qed.

Lemma split_at_app d a b : free d a = true -> split_at d (a ++ String d b) = a :: split_at d b.
Proof.
  induction a as [|c a IH]; [rewrite str_nil; cbn; by rewrite Ascii.eqb_refl|]. rewrite str_cons. cbn. intros [Hc Ha]%andb_true_iff. destruct (Ascii.eqb c d); [done|]. by rewrite IH.
Qed.

Lemma join_two sep (a b : string) l : join sep (a :: b :: l) = a ++ sep ++ join sep (b :: l).
Proof. done. Qed.

Lemma split_join d l : l <> [] -> Forall (fun s => free d s = true) l -> split_at d (join (String d "") l) = l.
Proof.
  induction l as [|a [|b l] IH]; intros Hne Hall; [done|apply Forall_inv in Hall; by apply split_at_free|].
  pose proof (Forall_inv Hall) as Ha. apply Forall_inv_tail in Hall. rewrite join_two, str_cons, str_nil. rewrite split_at_app by done. f_equal. by apply IH.
Qed.

Lemma cut_at_sep d a b : free d a = true -> cut_at d (a ++ String d b) = (a, b).
Proof.
  induction a as [|c a IH]; [rewrite str_nil; cbn; by rewrite Ascii.eqb_refl|]. rewrite str_cons. cbn. intros [Hc Ha]%andb_true_iff. destruct (Ascii.eqb c d); [done|]. by rewrite IH.
Qed.

(** ** Queries *)

Lemma query_free d s : byte_class "+%0123456789ABCDEF" d = false -> query_byte d = false -> free d (QueryEscape s) = true.
Proof.
  intros H Hd. apply (query_bytes (fun c => negb (Ascii.eqb c d))).
  - rewrite forallb_forall. intros c Hc. apply negb_true_iff, Ascii.eqb_neq. intros ->. unfold byte_class in H.
    assert (existsb (Ascii.eqb d) (to_bytes "+%0123456789ABCDEF") = true); [|congruence]. apply existsb_exists. exists d. split; [done|apply Ascii.eqb_refl].
  - intros c Hc. apply negb_true_iff, Ascii.eqb_neq. intros ->. congruence.
Qed.

Lemma add_encoded k x m : add_param (QueryEscape k ++ "=" ++ QueryEscape x) m = <[k := x]> m.
Proof.
  unfold add_param.
  assert (Hf : byte_class (QueryEscape k ++ "=" ++ QueryEscape x) ";" = false).
  { unfold byte_class. apply not_true_iff_false. intros (c & Hc & <-%Ascii.eqb_eq)%existsb_exists.
    assert (free ";" (QueryEscape k ++ "=" ++ QueryEscape x) = true) as Hfree.
    { unfold free. rewrite !forallb_str_app, !andb_true_iff. split_and!; [by apply query_free|done|by apply query_free]. }
    unfold free in Hfree. rewrite forallb_forall in Hfree. by specialize (Hfree _ Hc). }
  rewrite Hf. replace (String.eqb (QueryEscape k ++ "=" ++ QueryEscape x) "") with false by (by destruct (QueryEscape k)). cbn [orb].
  change ("=" ++ QueryEscape x) with (String "=" (QueryEscape x)). rewrite cut_at_sep by (by apply query_free). by rewrite !unescape_QueryEscape.
Qed.

Lemma parse_encode v : ParseQuery (Encode v) = v.
Proof.
  unfold ParseQuery, Encode. set (keys := sort_strings (elements (dom v))).
  assert (Hkeys : forall k, k ∈ keys <-> is_Some (v !! k)) by (intros k; unfold keys; by rewrite sort_strings_perm, elem_of_elements, elem_of_dom).
  set (parts := map _ keys). assert (Hparts : foldr add_param ∅ parts = v).
  { assert (Hfold : forall l m, foldr add_param m (map (fun k => QueryEscape k ++ "=" ++ QueryEscape (default "" (v !! k))) l) = foldr (fun k => <[k := default "" (v !! k)]>) m l).
    { intros l m. induction l as [|k l IH]; [done|]. cbn [map foldr]. by rewrite add_encoded, IH. }
    unfold parts. rewrite Hfold. apply map_eq. intros k.
    assert (H : forall l, foldr (fun k => <[k := default "" (v !! k)]>) (∅ : gmap string string) l !! k = if decide (k ∈ l) then Some (default "" (v !! k)) else None).
    { intros l. induction l as [|k' l IH]; [cbn; by rewrite lookup_empty|]. cbn [foldr]. destruct (decide (k = k')) as [->|Hne].
      - rewrite lookup_insert_eq. by rewrite decide_True by left.
      - rewrite lookup_insert_ne by done. rewrite IH. destruct (decide (k ∈ l)); [by rewrite decide_True by by right|].
        rewrite decide_False; [done|]. by rewrite elem_of_cons; intros [?|?]. }
    rewrite H. destruct (v !! k) as [x|] eqn:E.
    - rewrite decide_True; [done|]. apply Hkeys. by rewrite E.
    - rewrite decide_False; [done|]. rewrite Hkeys, E. by intros []. }
  destruct parts as [|a l] eqn:El; [by rewrite <- Hparts|]. rewrite <- El in *. change "&" with (String "&" ""). rewrite split_join; [done|by rewrite El|].
  apply List.Forall_forall. intros s Hs. unfold parts in Hs. apply in_map_iff in Hs as (k & <- & _). unfold free. rewrite !forallb_str_app, !andb_true_iff.
  split_and!; [by apply query_free|done|by apply query_free].
Qed.

(** ** Paths *)

(** A segment as it is sent, and what it stands for. *)
Record wire (raw dec : string) : Prop := {
  wire_dec : unescape false raw = Some dec;
  wire_bytes : forallb (fun c => segment_byte c || Ascii.eqb c "%") (to_bytes raw) = true;
  wire_name : raw <> "" /\ raw <> "." /\ raw <> "..";
  wire_slash : dec <> "/" }.

Lemma path_escape_wire s : s <> "" -> s <> "." -> s <> ".." -> s <> "/" -> wire (PathEscape s) s.
Proof.
  intros H1 H2 H3 H4. assert (Hd : unescape false (PathEscape s) = Some s) by by apply unescape_escape. split.
  - exact Hd.
  - apply (escape_bytes (fun c => segment_byte c || Ascii.eqb c "%")); [vm_compute; reflexivity|]. intros c Hc. by rewrite Hc.
  - split_and!; intros E; rewrite E in Hd; injection Hd as Hd; congruence.
  - done.
Qed.

Lemma byte_not_slash c : segment_byte c || Ascii.eqb c "%" = true -> negb (Ascii.eqb c "/") = true.
Proof. destruct c as [[] [] [] [] [] [] [] []]; done. Qed.

Lemma byte_valid c : segment_byte c || Ascii.eqb c "%" = true -> path_byte c || byte_class "!'()*[]%" c = true.
Proof. destruct c as [[] [] [] [] [] [] [] []]; done. Qed.

Lemma forallb_weaken (f g : ascii -> bool) l : (forall c, f c = true -> g c = true) -> forallb f l = true -> forallb g l = true.
Proof. intros H. rewrite !forallb_forall. auto. Qed.

Lemma wire_free raw dec : wire raw dec -> free "/" raw = true.
Proof. intros [_ H _ _]. revert H. apply forallb_weaken, byte_not_slash. Qed.

Lemma wires_free raws decs : Forall2 wire raws decs -> Forall (fun s => free "/" s = true) raws.
Proof. induction 1 as [|raw dec raws decs Hw _ IH]; constructor; [by eapply wire_free|done]. Qed.

Lemma unescape_join raws decs : Forall2 wire raws decs -> unescape false (join "/" raws) = Some (join "/" decs).
Proof.
  induction 1 as [|raw dec raws decs Hw Hl IH]; [done|]. destruct Hl as [|raw' dec' raws decs Hw' Hl]; [apply Hw|].
  rewrite !join_two. rewrite (unescape_app _ _ _ _ (wire_dec _ _ Hw)), str_cons, str_nil. cbn [unescape]. cbn [Ascii.eqb]. cbn [andb]. by rewrite IH.
Qed.

Lemma valid_join raws decs : Forall2 wire raws decs -> validEncoded (join "/" raws) = true.
Proof.
  unfold validEncoded. induction 1 as [|raw dec raws decs Hw Hl IH]; [done|].
  assert (Hraw : forallb (fun c => path_byte c || byte_class "!'()*[]%" c) (to_bytes raw) = true) by (eapply forallb_weaken; [exact byte_valid|apply Hw]).
  destruct Hl as [|raw' dec' raws decs Hw' Hl]; [exact Hraw|]. rewrite join_two, !forallb_str_app, Hraw, IH. done.
Qed.

(** The path of the URL as it was sent. *)
Lemma escaped_target p path : unescape false p = Some path -> validEncoded p = true -> path <> "*" -> p <> "" ->
  EscapedPath {| ur_Path := path; ur_RawPath := if String.eqb p (escape path_byte path) then "" else p |} = p.
Proof.
  intros Hu Hv Hs Hp. unfold EscapedPath. cbn [ur_Path ur_RawPath]. destruct (String.eqb_spec p (escape path_byte path)) as [E|E]; cbn [String.eqb negb andb].
  - destruct (String.eqb_spec path "*"); [done|]. by rewrite <- E.
  - destruct (String.eqb_spec p ""); [done|]. rewrite Hv, Hu. cbn. by rewrite String.eqb_refl.
Qed.

(** Both muxes see the path as it was sent, the inner one without the prefix. *)
Lemma api_url rest path : unescape false (String "/" rest) = Some (String "/" path) -> validEncoded (String "/" rest) = true ->
  exists u u', setPath ("/api/" ++ rest) = Some u /\ EscapedPath u = "/api/" ++ rest /\ StripPrefix "/api" u = Some u' /\ EscapedPath u' = String "/" rest.
Proof.
  intros Hu Hv. set (p := "/api" ++ String "/" rest). change ("/api/" ++ rest) with p.
  assert (Hp : unescape false p = Some ("/api" ++ String "/" path)) by (unfold p; rewrite (unescape_app false "/api" _ "/api" eq_refl), Hu; done).
  assert (Hvp : validEncoded p = true) by (unfold p, validEncoded; by rewrite forallb_str_app).
  unfold setPath. rewrite Hp. eexists. enough (exists u', StripPrefix "/api" {| ur_Path := "/api" ++ String "/" path; ur_RawPath := if String.eqb p (escape path_byte ("/api" ++ String "/" path)) then "" else p |} = Some u' /\ EscapedPath u' = String "/" rest) as [u' Hu'].
  { exists u'. split; [reflexivity|]. split; [by apply escaped_target|done]. }
  unfold StripPrefix. cbn [ur_Path ur_RawPath].
  assert (Ht : forall s, TrimPrefix ("/api" ++ s) "/api" = s) by (intros s; unfold TrimPrefix; by rewrite (proj1 (prefix_drop _ _)), (proj2 (prefix_drop _ _))).
  assert (Hlen : forall s, (String.length s <? String.length ("/api" ++ s))%nat = true) by (intros s; apply Nat.ltb_lt; rewrite str_length_app; cbn; lia).
  rewrite Ht, Hlen. destruct (String.eqb_spec p (escape path_byte ("/api" ++ String "/" path))) as [E|E]; cbn [andb orb String.eqb]; eexists.
  - change (TrimPrefix "" "/api") with "". split; [reflexivity|]. unfold EscapedPath. cbn [ur_Path ur_RawPath String.eqb negb andb].
    unfold p in E. change (escape path_byte ("/api" ++ String "/" path)) with ("/api" ++ escape path_byte (String "/" path)) in E. injection E as E. rewrite str_nil in E. rewrite E. reflexivity.
  - unfold p at 1 2 3 4. rewrite Ht, Hlen, orb_true_r. split; [reflexivity|]. unfold EscapedPath. cbn [ur_Path ur_RawPath]. rewrite Hv, Hu. cbn [String.eqb negb andb option_is].
    by rewrite !String.eqb_refl.
Qed.

(** ** Clean paths *)

Lemma ends_slash_app a b : b <> "" -> ends_slash (a ++ b) = ends_slash b.
Proof.
  intros Hb. unfold ends_slash. rewrite to_bytes_app, rev_app_distr. destruct b as [|c b]; [done|]. cbn [to_bytes list_ascii_of_string rev].
  by destruct (rev (list_ascii_of_string b)).
Qed.

Lemma ends_slash_free s : free "/" s = true -> ends_slash s = false.
Proof.
  unfold ends_slash, free. intros H. destruct (rev (to_bytes s)) as [|c l] eqn:E; [done|]. rewrite forallb_forall in H. apply negb_true_iff, H.
  apply in_rev. rewrite E. by left.
Qed.

Lemma join_nonempty raws decs : Forall2 wire raws decs -> raws <> [] -> join "/" raws <> "".
Proof.
  intros H Hne. destruct H as [|raw dec raws decs [_ _ [Hn _] _] Hl]; [done|]. destruct Hl; [done|]. rewrite join_two. by destruct raw.
Qed.

Lemma wires_end raws decs : Forall2 wire raws decs -> raws <> [] -> ends_slash (join "/" raws) = false.
Proof.
  induction 1 as [|raw dec raws decs Hw Hl IH]; [done|]. intros _. destruct Hl as [|raw' dec' raws decs Hw' Hl]; [apply ends_slash_free; by eapply wire_free|].
  rewrite join_two, ends_slash_app by (by rewrite str_cons). rewrite str_cons, str_nil. change (String "/" ?x) with ("/" ++ x).
  rewrite ends_slash_app; [by apply IH|]. by eapply join_nonempty; [constructor|].
Qed.

Lemma clean_segments raws decs stack : Forall2 wire raws decs -> fold_left clean_step raws stack = app (rev raws) stack.
Proof.
  intros H. revert stack. induction H as [|raw dec raws decs [_ _ (H1 & H2 & H3) _] _ IH]; intros stack; [done|]. cbn [fold_left]. unfold clean_step at 2.
  destruct (String.eqb_spec raw ""); [done|]. destruct (String.eqb_spec raw "."); [done|]. destruct (String.eqb_spec raw ".."); [done|]. cbn [orb].
  rewrite IH. cbn [rev]. by rewrite <- app_assoc.
Qed.

Lemma split_slash raws decs : Forall2 wire raws decs -> raws <> [] -> split_at "/" (String "/" (join "/" raws)) = "" :: raws.
Proof.
  intros H Hne. change (split_at "/" (String "/" (join "/" raws))) with ("" :: split_at "/" (join "/" raws)). f_equal.
  apply split_join; [done|]. by eapply wires_free.
Qed.

Lemma clean_path raws decs : Forall2 wire raws decs -> raws <> [] -> cleanPath (String "/" (join "/" raws)) = String "/" (join "/" raws).
Proof.
  intros H Hne. unfold cleanPath. rewrite Ascii.eqb_refl, (split_slash _ _ H Hne). cbn [fold_left]. change (clean_step [] "") with (@nil string).
  rewrite (clean_segments _ _ [] H), app_nil_r, rev_involutive. change (String "/" (join "/" raws)) with ("/" ++ join "/" raws) at 1.
  rewrite ends_slash_app by (by eapply join_nonempty). by rewrite (wires_end _ _ H Hne).
Qed.

Lemma mux_segments_wires raws decs : Forall2 wire raws decs -> raws <> [] -> mux_segments (String "/" (join "/" raws)) = decs.
Proof.
  intros H Hne. unfold mux_segments. rewrite (split_slash _ _ H Hne). clear Hne.
  induction H as [|raw dec raws decs [Hd _ (Hn & _) _] _ IH]; [done|]. cbn [map]. destruct (String.eqb_spec raw ""); [done|]. by rewrite Hd, IH.
Qed.

(** ** Serving *)

(** A pattern without a trailing slash that takes the whole path serves it. *)
Lemma serve_exact table method raws decs h args : Forall2 wire raws decs -> raws <> [] ->
  match_method table method decs = Some {| mt_Handler := h; mt_Args := args; mt_Tail := None |} ->
  mux_serve table method (String "/" (join "/" raws)) = Served h args.
Proof.
  intros H Hne Hm. unfold mux_serve. rewrite (clean_path _ _ H Hne), (mux_segments_wires _ _ H Hne), Hm, String.eqb_refl. done.
Qed.

Lemma match_empty segs args depth : match_path [] segs args depth = None.
Proof. by destruct segs. Qed.

Lemma last_wire raws decs : Forall2 wire raws decs -> option_is (head (rev decs)) "/" = false.
Proof.
  intros H. destruct (head (rev decs)) as [d|] eqn:E; [|done]. assert (In d decs) as Hd by (apply in_rev; destruct (rev decs); [done|injection E as ->; by left]).
  apply String.eqb_neq. clear E. induction H as [|raw dec raws decs [_ _ _ Hs] _ IH]; [done|]. destruct Hd as [->|Hd]; [done|by apply IH].
Qed.

Lemma api_prefix method raws decs : In method ["GET"; "POST"; "PUT"; "DELETE"] -> Forall2 wire raws decs -> raws <> [] ->
  mux_serve routes method (String "/" (join "/" ("api" :: raws))) = Served "api" [].
Proof.
  intros Hm H Hne. assert (Hw : wire "api" "api") by (split; done). assert (Hall : Forall2 wire ("api" :: raws) ("api" :: decs)) by by constructor.
  assert (Hmatch : forall segs, segs <> [] -> match_method routes method ("api" :: segs) = Some {| mt_Handler := "api"; mt_Args := []; mt_Tail := Some 2%nat |}).
  { intros [|d ds] Hd; [done|]. cbn in Hm. unfold match_method.
    destruct Hm as [<-|[<-|[<-|[<-|[]]]]]; cbn; rewrite ?match_empty; by destruct (String.eqb d "/"). }
  assert (Hdecs : decs <> []) by (by destruct H). unfold mux_serve. rewrite (clean_path _ _ Hall), (mux_segments_wires _ _ Hall), Hmatch by done.
  rewrite String.eqb_refl. cbn [negb]. rewrite <- app_comm_cons, Hmatch by (by destruct decs). unfold exact. cbn [mt_Tail].
  replace (option_is (head (rev ("api" :: decs))) "/") with false by (symmetry; by eapply last_wire).
  replace ((2 =? length ("api" :: decs ++ ["/"]))%nat) with false; [by rewrite !andb_false_r|]. symmetry. apply Nat.eqb_neq. cbn. rewrite length_app. cbn.
  destruct decs; [done|]. cbn. lia.
Qed.

Lemma serve_below_api method raws decs h args : In method ["GET"; "POST"; "PUT"; "DELETE"] -> Forall2 wire raws decs -> raws <> [] ->
  match_method apiRoutes method decs = Some {| mt_Handler := h; mt_Args := args; mt_Tail := None |} ->
  serve_request method ("/api/" ++ join "/" raws) = Served h args.
Proof.
  intros Hm H Hne Hmatch.
  assert (Hsl : wire "" "" -> False) by (intros [_ _ [? _] _]; done).
  destruct (api_url (join "/" raws) (join "/" decs)) as (u & u' & Hu & He & Hst & He').
  - cbn [unescape]. change (Ascii.eqb "/" "%") with false. cbv iota. by rewrite (unescape_join _ _ H).
  - unfold validEncoded. cbn [to_bytes list_ascii_of_string forallb]. rewrite andb_true_iff. split; [done|]. exact (valid_join _ _ H).
  - unfold serve_request. rewrite Hu, He. replace ("/api/" ++ join "/" raws) with (String "/" (join "/" ("api" :: raws))).
    + rewrite (api_prefix _ _ _ Hm H Hne). cbn [String.eqb]. rewrite Hst, He'. by apply (serve_exact _ _ _ decs).
    + destruct raws as [|raw raws]; [done|]. by rewrite join_two.
Qed.

(** ** The client reaches the server *)

(** A name that the path of a URL can carry. *)
Definition named (n : string) : bool := forallb (fun s => negb (String.eqb n s)) [""; "."; ".."; "/"].

Lemma named_wire n : named n = true -> wire (PathEscape n) n.
Proof.
  unfold named. cbn [forallb]. rewrite !andb_true_iff, !negb_true_iff, !String.eqb_neq. intros (H1 & H2 & H3 & H4 & _). by apply path_escape_wire.
Qed.

Lemma named_slash n : named n = true -> String.eqb n "/" = false.
Proof. unfold named. cbn [forallb]. rewrite !andb_true_iff, !negb_true_iff. intuition. Qed.

Lemma match_path_cons e n seg rest args depth : match_path (e :: n) (seg :: rest) args depth =
  match match_path (child seg (e :: n)) rest args (S depth) with
  | Some m => Some m
  | None =>
      match (if String.eqb seg "/" then None else match_path (wild_child (e :: n)) rest (app args [seg]) (S depth)) with
      | Some m => Some m
      | None => match tail_leaf (e :: n) with Some h => Some {| mt_Handler := h; mt_Args := args; mt_Tail := Some (S depth) |} | None => None end
      end
  end.
Proof. done. Qed.

(** A path that ends in a name, and one with a word after it. *)
Section reach.
Context (method lit h : string) (e : list segment * string) (N M : node).
Hypothesis (Hm : In method ["GET"; "POST"; "PUT"; "DELETE"]) (Hl : wire lit lit).
Hypothesis (HN : of_method method apiRoutes = e :: N) (HM : child lit (e :: N) = M) (Hnone : forall s, child s M = []).

Lemma match_lit n rest m : named n = true -> match_path (wild_child M) rest [n] 2 = Some m -> match_path (e :: N) (lit :: n :: rest) [] 0 = Some m.
Proof using HM Hnone.
  intros Hn H. rewrite match_path_cons, HM. destruct M as [|e' M']; [by destruct rest|].
  rewrite match_path_cons, Hnone, match_empty, (named_slash n Hn). change (app [] [n]) with [n]. by rewrite H.
Qed.

Lemma reach_name n : named n = true -> leaf (wild_child M) = Some h -> serve_request method ("/api/" ++ lit ++ "/" ++ PathEscape n) = Served h [n].
Proof using Hm Hl HN HM Hnone.
  intros Hn H. apply (serve_below_api method [lit; PathEscape n] [lit; n]); try done.
  - constructor; [done|]. constructor; [by apply named_wire|constructor].
  - unfold match_method. rewrite HN, (match_lit n [] {| mt_Handler := h; mt_Args := [n]; mt_Tail := None |}); [done|done|]. cbn [match_path]. by rewrite H.
Qed.

Lemma reach_word n w : wire w w -> named n = true -> leaf (child w (wild_child M)) = Some h ->
  serve_request method ("/api/" ++ lit ++ "/" ++ PathEscape n ++ "/" ++ w) = Served h [n].
Proof using Hm Hl HN HM Hnone.
  intros Hw Hn H. apply (serve_below_api method [lit; PathEscape n; w] [lit; n; w]); try done.
  - constructor; [done|]. constructor; [by apply named_wire|]. constructor; [done|constructor].
  - unfold match_method. rewrite HN, (match_lit n [w] {| mt_Handler := h; mt_Args := [n]; mt_Tail := None |}); [done|done|].
    destruct (wild_child M) as [|e' W]; [done|]. rewrite match_path_cons. cbn [match_path]. by rewrite H.
Qed.
End reach.

(** What a call says in its path is what the handler reads. *)
Definition paths_carry (call : Call) : bool := forallb named (snd (handler_of call)).

Ltac by_name lit := eapply (reach_name _ lit); [cbn; tauto|by split|lazy; reflexivity|lazy; reflexivity|intros; reflexivity|done|reflexivity].
Ltac by_word lit word := eapply (reach_word _ lit) with (w := word); [cbn; tauto|by split|lazy; reflexivity|lazy; reflexivity|intros; reflexivity|by split|done|reflexivity].

(** C29: every call of the client reaches the handler the server has for it, with the names of
    the call as the values of the path and with the query that was built, for all names but the
    empty one, [.], [..] and [/]. *)
Theorem client_reaches_handler call : paths_carry call = true ->
  let '(method, path, query) := call_request call in
  serve_request method path = Served (fst (handler_of call)) (snd (handler_of call)) /\ ParseQuery (Encode query) = query.
Proof.
  unfold paths_carry. intros H. destruct call; (match goal with |- context [call_request ?c] => let r := eval lazy delta [call_request healthz_request readyz_request listScans_request triggerScan_request getScan_request getScanReport_request listClusters_request getClusterDetail_request listGroups_request createGroup_request deleteGroup_request trends_request clusterTrends_request outliers_request capacity_request fleetForecast_request clustersForecast_request cost_request integrations_request listAcks_request ackFinding_request deleteFindingAck_request listAlerts_request ackAlert_request clusterTimeline_request geo_request listLocations_request setLocation_request deleteLocation_request contexts_request scanners_request cohorts_request distributions_request distributionHistory_request scoreAttribution_request drift_request cohortMap_request whatIf_request] beta iota in (call_request c) in change (call_request c) with r end); cbv beta iota; (split; [|apply parse_encode]); cbn [handler_of fst snd] in H |- *;
    lazymatch goal with |- context [PathEscape _] => idtac | _ => vm_compute; reflexivity end; cbn [forallb] in H; rewrite andb_true_r in H.
  - by_name "scans".
  - by_word "scans" "report".
  - by_word "clusters" "detail".
  - by_name "groups".
  - by_name "trends".
  - by_word "findings" "ack".
  - by_word "findings" "ack".
  - by_word "alerts" "ack".
  - by_word "clusters" "timeline".
  - by_name "locations".
  - by_name "locations".
Qed.

Theorem client_reaches_handler_witness :
  serve_request "GET" "/api/clusters/a%2Fb%20c/detail" = Served "handleGetClusterDetail" ["a/b c"] /\
  ParseQuery (Encode (readQuery ∅ [WithScan "x&y"])) = readQuery ∅ [WithScan "x&y"].
Proof. exact (client_reaches_handler (GetClusterDetail "a/b c" [WithScan "x&y"]) eq_refl). Defined.

(** The client cannot delete a group named [..]: its path is cleaned away. Sent as [%2E%2E] the
    name would arrive. *)
Lemma dot_group_unreachable : call_request (DeleteGroup "..") = ("DELETE", "/api/groups/..", ∅) /\ serve_request "DELETE" "/api/groups/.." = Redirected "/api/" /\
  serve_request "DELETE" "/api/groups/%2E%2E" = Served "handleDeleteGroup" [".."].
Proof. split_and!; vm_compute; reflexivity. Qed.
