(* ===== verification/History.v ===== *)
(** * History: commands and endpoints over stored scans

    cmd_whatchanged.go, cmd_history.go and the scan references of store.go: which scans a
    command compares, what changed between two reports, and the retention of the prune
    command. The commands' flags are arguments; what is printed as JSON is the value.

    distributions_handler.go, timeline_handler.go, forecast_handler.go and the report endpoints
    of handlers.go: which stored scans an endpoint reads, in what order and how many, and the
    part of their reports it shows. The cache of reports is [Cache]'s, and the names are taken
    to be without the separators of its keys, so that its reports are those built afresh. *)

From Stdlib Require Import ZArith Lia String Ascii Sorted.
From S2P Require Import Prelude Maps Float64 GoTime TimeText Text Format Strs Data Rules Build Capacity Brief Pipeline Trend Forecast ScanDiff Drift ClusterScore Duration Keys Auth Alerts Acks Store ScanServer Handlers.
From stdpp Require Import base gmap strings list sets.

Local Open Scope Z_scope.

(** ** Reading stored scans *)

(** The reads of a command, any of which may fail. *)
Inductive read :=
| ListRead (ref : string)
| ScanRead (id : string)
| ResultsRead (id : string)
| TagRead
| GroupRead
| MemberRead
| EndRead (id : string)
| RangeRead
| PruneRead
| VacuumRead.

Inductive cmd_error :=
| ErrNoScans
| ErrTooFewScans (ref : string) (found : nat)
| ErrResolve (ref : string) (e : store_error)
| ErrGetScan (id : string) (e : store_error)
| ErrGetResults (id : string) (e : store_error)
| ErrOptions (errs : list store_error)
| ErrReport (which : string) (e : cmd_error)
| ErrBetween (a b : string) (e : store_error)
| ErrArgs (n : nat)
| ErrFlag (name got : string)
| ErrRun (what : string) (e : store_error)
| ErrRetention (text : string).

Record storedScan := { st_Record : ScanRecord; st_Results : Results; st_Opts : BuildOptions }.

Definition with_err {A E F} (f : E -> F) (x : A + E) : A + F := match x with inl a => inl a | inr e => inr (f e) end.
Definition bind {A B E} (x : A + E) (k : A -> B + E) : B + E := match x with inl a => k a | inr e => inr e end.
Local Notation "'let!' x := c 'in' k" := (bind c (fun x => k)) (at level 200, x pattern, right associativity).

Section Reads.

Context (Unmarshal : string -> json + string) (build : list string -> Results -> BuildOptions -> Report)
  (fails : read -> option string).

Definition resolveScanRef (ref : string) (db : Db) : string + cmd_error :=
  match (if String.eqb ref "latest" then Some 0%nat else if String.eqb ref "previous" || String.eqb ref "second-latest" then Some 1%nat else None) with
  | None => inl ref
  | Some idx =>
      let! scans := with_err (ErrResolve ref) (ListScans (fails (ListRead ref)) (Z.of_nat idx + 1) db) in
      match scans with
      | [] => inr ErrNoScans
      | _ => match scans !! idx with Some s => inl (sn_ID s) | None => inr (ErrTooFewScans ref (length scans)) end
      end
  end.

Definition loadStoredScan (id : string) (db : Db) : storedScan + cmd_error :=
  let! rec := with_err (ErrGetScan id) (GetScan (fails (ScanRead id)) id db) in
  let! results := with_err (ErrGetResults id) (GetScanResults Unmarshal (fails (ResultsRead id)) id db) in
  let '(opts, errs) := StoreReportOptions (fails TagRead) (fails GroupRead) (fails MemberRead) db in
  match errs with
  | [] => inl {| st_Record := rec; st_Results := results; st_Opts := opts |}
  | _ => inr (ErrOptions errs)
  end.

Definition storedScan_Report (s : storedScan) : Report := build (sn_Clusters (st_Record s)) (st_Results s) (st_Opts s).

Definition loadStoredReport (id : string) (db : Db) : Report * ScanRecord + cmd_error :=
  let! sc := loadStoredScan id db in inl (storedScan_Report sc, st_Record sc).

(** ** The scans of a comparison *)

Definition maxDriftScans : nat := 50.

Definition resolveScans (args : list string) (db : Db) : string * string + cmd_error :=
  let! refs := match args with
    | [a; b] => inl (a, b)
    | [a] => inl (a, "latest"%string)
    | [] => inl ("previous"%string, "latest"%string)
    | _ => inr (ErrArgs (length args))
    end in
  let! a := resolveScanRef (fst refs) db in
  let! b := resolveScanRef (snd refs) db in
  inl (a, b).

Definition scan_report (id : string) (r : Report) : ScanReport := {| Drift.sn_ID := id; sn_Report := Some r |}.

(** The reports of several scans, or the first error. *)
Fixpoint load_reports (ids : list string) (db : Db) : list ScanReport + cmd_error :=
  match ids with
  | [] => inl []
  | id :: ids =>
      let! loaded := loadStoredReport id db in
      let! rest := load_reports ids db in
      inl (scan_report id (fst loaded) :: rest)
  end.

(** The newest of the ids, as many as the window has room for. *)
Definition newest_ids (ids : list string) : list string := drop (length ids - (maxDriftScans - 2)) ids.

(** The scans strictly between the ends, oldest first. *)
Definition between_ids (scanA scanB : string) (between : list ScanRecord) : list string :=
  List.filter (fun id => negb (String.eqb id scanA) && negb (String.eqb id scanB)) (map sn_ID (rev between)).

Definition driftWindow (scanA scanB : string) (rptA rptB : Report) (db : Db) : list ScanReport + cmd_error :=
  let! a := with_err (ErrGetScan scanA) (GetScan (fails (EndRead scanA)) scanA db) in
  let! b := with_err (ErrGetScan scanB) (GetScan (fails (EndRead scanB)) scanB db) in
  if negb (sn_Timestamp a <? sn_Timestamp b) then inl [scan_report scanA rptA; scan_report scanB rptB]
  else
    let! between := with_err (ErrBetween scanA scanB) (GetScansByTimeRange (fails RangeRead) 0 (sn_Timestamp a) 0 (sn_Timestamp b) db) in
    let! window := load_reports (newest_ids (between_ids scanA scanB between)) db in
    inl ([scan_report scanA rptA] ++ window ++ [scan_report scanB rptB]).

End Reads.

(** ** What changed *)

Record clusterScoreChange := {
  cc_Cluster : string; cc_ScoreA : Z; cc_ScoreB : Z; cc_Delta : Z; cc_GradeA : string; cc_GradeB : string }.

Record whatChangedDiff := {
  wc_ScanA : string; wc_ScanB : string;
  wc_FleetScoreDelta : Z; wc_GradedA : bool; wc_GradedB : bool; wc_FleetScoreA : Z; wc_FleetScoreB : Z;
  wc_NewFindings : list Finding; wc_ClearedFindings : list Finding;
  wc_ClusterScoreChanges : list clusterScoreChange;
  wc_Drift : Ledger }.

(** The last finding of a fingerprint stays. *)
Definition indexFindings (l : list Finding) (minSeverity : string) : gmap string Finding :=
  last_of (map (fun f => (FindingFingerprint f, f)) (List.filter (fun f => SeverityAtLeast (fi_Severity f) minSeverity) l)).

Definition sort_findings : list Finding -> list Finding := isort (less_of FindingOrder).

Definition indexClusterScores (r : Report) : gmap string ClusterScore :=
  last_of (map (fun cs => (csc_Cluster cs, cs)) (ComputeClusterScores (Some r))).

Definition score_change (scoresB : gmap string ClusterScore) (e : string * ClusterScore) : option clusterScoreChange :=
  let '(cluster, scoreA) := e in
  match scoresB !! cluster with
  | None => None
  | Some scoreB =>
      if csc_Score scoreA =? csc_Score scoreB then None
      else Some {| cc_Cluster := cluster; cc_ScoreA := csc_Score scoreA; cc_ScoreB := csc_Score scoreB;
                   cc_Delta := wrap64 (csc_Score scoreB - csc_Score scoreA); cc_GradeA := csc_Grade scoreA; cc_GradeB := csc_Grade scoreB |}
  end.

Definition delta_cmp : clusterScoreChange -> clusterScoreChange -> comparison := cmp_on cc_Delta Z.compare.

Section Changed.

(** The order a range over a map takes. *)
Context (order : forall A, list A -> list A).

(** The findings of one index whose fingerprint the other lacks. *)
Definition absent_from (x y : gmap string Finding) : list Finding :=
  omap (fun e => match y !! fst e with Some _ => None | None => Some (snd e) end) (order _ (map_to_list x)).

Definition clusterScoreDelta (a b : Report) : list clusterScoreChange :=
  isort (less_of delta_cmp) (omap (score_change (indexClusterScores b)) (order _ (map_to_list (indexClusterScores a)))).

(** The drift ledger is the caller's. *)
Definition computeWhatChanged (a b : Report) (idA idB minSeverity : string) : whatChangedDiff :=
  let aSet := indexFindings (rp_Findings a) minSeverity in
  let bSet := indexFindings (rp_Findings b) minSeverity in
  let sa := rp_FleetScore a in let sb := rp_FleetScore b in
  {| wc_ScanA := idA; wc_ScanB := idB;
     wc_FleetScoreDelta := wrap64 (fs_Score sb - fs_Score sa); wc_GradedA := fs_Graded sa; wc_GradedB := fs_Graded sb;
     wc_FleetScoreA := fs_Score sa; wc_FleetScoreB := fs_Score sb;
     wc_NewFindings := sort_findings (absent_from bSet aSet); wc_ClearedFindings := sort_findings (absent_from aSet bSet);
     wc_ClusterScoreChanges := clusterScoreDelta a b;
     wc_Drift := {| le_Scans := []; le_Clusters := [] |} |}.

Definition with_drift (d : whatChangedDiff) (l : Ledger) : whatChangedDiff := {|
  wc_ScanA := wc_ScanA d; wc_ScanB := wc_ScanB d; wc_FleetScoreDelta := wc_FleetScoreDelta d; wc_GradedA := wc_GradedA d;
  wc_GradedB := wc_GradedB d; wc_FleetScoreA := wc_FleetScoreA d; wc_FleetScoreB := wc_FleetScoreB d;
  wc_NewFindings := wc_NewFindings d; wc_ClearedFindings := wc_ClearedFindings d;
  wc_ClusterScoreChanges := wc_ClusterScoreChanges d; wc_Drift := l |}.

Definition oneOf (name got : string) (allowed : list string) : option cmd_error :=
  if bool_decide (got ∈ allowed) then None else Some (ErrFlag name got).

Definition runWhatChanged (Unmarshal : string -> json + string) (build : list string -> Results -> BuildOptions -> Report)
  (fails : read -> option string) (severity : string) (args : list string) (db : Db) : whatChangedDiff + cmd_error :=
  match oneOf "severity" severity [""; "critical"; "warning"; "info"]%string with
  | Some e => inr e
  | None =>
      let! (scanA, scanB) := resolveScans fails args db in
      let! (rptA, _) := with_err (ErrReport "scan-a") (loadStoredReport Unmarshal build fails scanA db) in
      let! (rptB, _) := with_err (ErrReport "scan-b") (loadStoredReport Unmarshal build fails scanB db) in
      let! window := driftWindow Unmarshal build fails scanA scanB rptA rptB db in
      inl (with_drift (computeWhatChanged rptA rptB scanA scanB severity) (DriftLedger window))
  end.

End Changed.

(** ** Its text *)

Fixpoint pad_with (n : nat) : string := match n with O => "" | S n => String " " (pad_with n) end.
(** [%-*s] and [%*s]: widths count runes. *)
Definition pad_end (n : nat) (s : string) : string := s ++ pad_with (n - length (runes s)).
Definition pad_start (n : nat) (s : string) : string := pad_with (n - length (runes s)) ++ s.
(** [%+d]. *)
Definition signed_int (z : Z) : string := if z <? 0 then itoa z else ("+" ++ itoa z)%string.

Definition finding_line (f : Finding) : string :=
  let title := if String.eqb (fi_Title f) "" then "(untitled)"%string else fi_Title f in
  ("  [" ++ ToUpper (fi_Severity f) ++ "] " ++ fi_Cluster f ++ " -- " ++ title)%string.

Definition renderFindingsBlock (label : string) (findings : list Finding) : list string :=
  [(label ++ " (" ++ itoa (Z.of_nat (length findings)) ++ "):")%string] ++
  match findings with [] => ["  (none)"; ""]%string | _ => map finding_line findings ++ [""%string] end.

Definition change_line (c : clusterScoreChange) : string :=
  ("  " ++ pad_end 30 (cc_Cluster c) ++ "  " ++ pad_start 3 (itoa (cc_ScoreA c)) ++ " (" ++ cc_GradeA c ++ ") -> " ++
   pad_start 3 (itoa (cc_ScoreB c)) ++ " (" ++ cc_GradeB c ++ ")  " ++ signed_int (cc_Delta c))%string.

(** The lines of the text, each ended by a newline. *)
Definition writeWhatChanged (d : whatChangedDiff) : list string :=
  [("Comparing " ++ wc_ScanA d ++ " -> " ++ wc_ScanB d)%string;
   (if wc_GradedA d && wc_GradedB d
    then "Fleet score: " ++ itoa (wc_FleetScoreA d) ++ " -> " ++ itoa (wc_FleetScoreB d) ++ " (" ++ signed_int (wc_FleetScoreDelta d) ++ ")"
    else if negb (wc_GradedA d) && negb (wc_GradedB d) then "Fleet score: not graded in either scan."
    else if negb (wc_GradedA d) then "Fleet score: not graded -> " ++ itoa (wc_FleetScoreB d)
    else "Fleet score: " ++ itoa (wc_FleetScoreA d) ++ " -> not graded")%string;
   ""%string;
   ("Drifted clusters (" ++ itoa (Z.of_nat (length (le_Clusters (wc_Drift d)))) ++ "):")%string] ++
  (match le_Clusters (wc_Drift d) with [] => ["  (none)"%string] | _ => [] end) ++
  map (fun line => ("  " ++ line)%string) (DriftLines (wc_Drift d) maxDriftLines) ++ [""%string] ++
  renderFindingsBlock "New findings" (wc_NewFindings d) ++
  renderFindingsBlock "Cleared findings" (wc_ClearedFindings d) ++
  match wc_ClusterScoreChanges d with
  | [] => ["Cluster scores: no changes."%string]
  | l => "Cluster score changes:"%string :: map change_line l
  end.

(** ** history diff *)

Record scanDiff := {
  hd_ScanA : string; hd_ScanB : string; hd_ClustersAdded : list string; hd_ClustersRemoved : list string;
  hd_SummaryDelta : gmap string Z; hd_FindingsAdded : list Finding; hd_FindingsResolved : list Finding }.

Definition findingSet (l : list Finding) : gmap string Finding := last_of (map (fun f => (FindingFingerprint f, f)) l).
Definition toSet (l : list string) : gset string := list_to_set l.

Definition count_delta (f : Summary -> nat) (a b : Report) : Z := Z.of_nat (f (rp_Summary b)) - Z.of_nat (f (rp_Summary a)).

Definition buildScanDiff (order : forall A, list A -> list A) (idA idB : string) (a b : Report) : scanDiff :=
  let aFindings := findingSet (rp_Findings a) in let bFindings := findingSet (rp_Findings b) in
  {| hd_ScanA := idA; hd_ScanB := idB;
     hd_ClustersAdded := List.filter (fun c => negb (bool_decide (c ∈ toSet (rp_Clusters a)))) (rp_Clusters b);
     hd_ClustersRemoved := List.filter (fun c => negb (bool_decide (c ∈ toSet (rp_Clusters b)))) (rp_Clusters a);
     hd_SummaryDelta := {[ "cluster_count" := count_delta su_ClusterCount a b; "divergent_count" := count_delta su_DivergentCount a b;
       "critical_count" := count_delta su_CriticalCount a b; "warning_count" := count_delta su_WarningCount a b;
       "total_divergences" := count_delta su_TotalDivergences a b ]}%string;
     hd_FindingsAdded := absent_from order bFindings aFindings; hd_FindingsResolved := absent_from order aFindings bFindings |}.

Definition runHistoryDiff (Unmarshal : string -> json + string) (build : list string -> Results -> BuildOptions -> Report)
  (fails : read -> option string) (order : forall A, list A -> list A) (ref1 ref2 : string) (db : Db) : scanDiff + cmd_error :=
  let! id1 := resolveScanRef fails ref1 db in
  let! (rpt1, _) := loadStoredReport Unmarshal build fails id1 db in
  let! id2 := resolveScanRef fails ref2 db in
  let! (rpt2, _) := loadStoredReport Unmarshal build fails id2 db in
  inl (buildScanDiff order id1 id2 rpt1 rpt2).

Definition runHistoryList (fails : read -> option string) (limit : Z) (db : Db) : list ScanRecord + cmd_error :=
  with_err (ErrRun "list scans") (ListScans (fails (ListRead "")) limit db).

Definition runHistoryShow (Unmarshal : string -> json + string) (build : list string -> Results -> BuildOptions -> Report)
  (fails : read -> option string) (ref : string) (db : Db) : Report + cmd_error :=
  let! id := resolveScanRef fails ref db in
  let! (rpt, _) := loadStoredReport Unmarshal build fails id db in
  inl rpt.

(** ** history prune *)

(** The text before the last byte, when that byte is the suffix. *)
Definition before_suffix (suffix : ascii) (s : string) : option string :=
  match rev (to_bytes s) with c :: l => if Ascii.eqb c suffix then Some (of_bytes (rev l)) else None | [] => None end.

Definition atoi_error (s : string) : string :=
  let digits := match to_bytes s with c :: l => if Ascii.eqb c "-" || Ascii.eqb c "+" then l else c :: l | [] => [] end in
  ("strconv.Atoi: parsing " ++ quote s ++ ": " ++
   (if match digits with [] => true | _ => match digits_value digits 0 with None => true | Some _ => false end end then "invalid syntax" else "value out of range"))%string.

(** Days and years are multiplied in 64 bits. *)
Definition parseRetentionDuration (text : string) : Z + string :=
  let s := TrimSpace text in
  if String.eqb s "" then inr "empty duration"%string
  else match before_suffix "d"%char s with
  | Some n => match Atoi n with Some n => inl (wrap64 (n * 24 * Hour)) | None => inr ("invalid days: " ++ atoi_error n)%string end
  | None =>
      match before_suffix "y"%char s with
      | Some n => match Atoi n with Some n => inl (wrap64 (n * 365 * 24 * Hour)) | None => inr ("invalid years: " ++ atoi_error n)%string end
      | None => ParseDuration s
      end
  end.

(** 1970. *)
Definition unix_epoch : Z := 62135596800 * Second.

(** The lines the command prints and the error it ends with. [zone] and [zone'] are the
    offsets of the local zone in 1970 and at the cutoff. *)
Definition runHistoryPrune (fails : read -> option string) (zone zone' now : Z) (olderThan : string) (vacuum dryRun : bool) (db : Db) :
  Db * list string * option cmd_error :=
  match parseRetentionDuration olderThan with
  | inr err => (db, [], Some (ErrRetention ("--older-than: " ++ err)%string))
  | inl dur =>
      let cutoff := now + wrap64 (- dur) in
      if dryRun then
        match GetScansByTimeRange (fails RangeRead) zone unix_epoch zone' cutoff db with
        | inr e => (db, [], Some (ErrRun "count scans" e))
        | inl scans => (db, [("would delete " ++ itoa (Z.of_nat (length scans)) ++ " scans older than " ++ RFC3339 cutoff)%string], None)
        end
      else
        match Prune (fails PruneRead) cutoff db with
        | (db', inr e) => (db', [], Some (ErrRun "prune" e))
        | (db', inl n) =>
            let line := ("deleted " ++ itoa (Z.of_nat n) ++ " scans older than " ++ RFC3339 cutoff)%string in
            if vacuum then match fails VacuumRead with
              | Some err => (db', [line], Some (ErrRun "vacuum" (ErrStore err)))
              | None => (db', [line; "vacuum complete"%string], None)
              end
            else (db', [line], None)
        end
  end.

(** ** Endpoints *)

Definition max_history_scans : Z := 50.

(** The query of a request, and the first value of a key. *)
Abbreviation Query := (gmap string string).
Definition query_get (q : Query) (key : string) : string := default "" (q !! key).

(** The reads of a request, any of which may fail. *)
Inductive view_read := ListView | ScanView | ResultsView (id : string) | RangeView | TagView | GroupView | MemberView | AlertView | AckPrune | AckView.

Record scanInput := { in_ID : string; in_Timestamp : Z; in_Clusters : list string; in_Results : Results; in_Opts : BuildOptions }.

(** A refusal, whatever the answer would have been. *)
Definition refused {A} (r : reply unit) : reply A := match r with Ok s _ => Err s "" | Err s m => Err s m end.
Definition answer {A} (x : reply A + reply unit) : reply A := match x with inl r => r | inr e => refused e end.
Definition or_refuse {A} (op notFound : string) (x : A + store_error) : A + reply unit := with_err (fun e => store_refusal e op notFound) x.

Section Views.

Context (Unmarshal : string -> json + string) (build : list string -> Results -> BuildOptions -> Built) (fails : view_read -> option string).

Definition input_build (i : scanInput) : Built := build (in_Clusters i) (in_Results i) (in_Opts i).
Definition input_report (i : scanInput) : Report := bt_Report (input_build i).

(** What cannot be read is left out of the options. *)
Definition reportOptions (db : Db) : BuildOptions := fst (StoreReportOptions (fails TagView) (fails GroupView) (fails MemberView) db).

Definition scanInputWith (rec : ScanRecord) (opts : BuildOptions) (op : string) (db : Db) : scanInput + reply unit :=
  let! results := or_refuse (op ++ ": get scan results") "scan results not found" (GetScanResults Unmarshal (fails (ResultsView (sn_ID rec))) (sn_ID rec) db) in
  inl {| in_ID := sn_ID rec; in_Timestamp := sn_Timestamp rec; in_Clusters := sn_Clusters rec; in_Results := results; in_Opts := opts |}.

Definition scanInputFor (rec : ScanRecord) (op : string) (db : Db) : scanInput + reply unit := scanInputWith rec (reportOptions db) op db.

Definition view_latest (q : Query) (op : string) (db : Db) : option ScanRecord + reply unit :=
  latestScan (if String.eqb (query_get q "scan") "" then fails ListView else fails ScanView) (query_get q "scan") op db.

Definition loadScanInput (q : Query) (op : string) (db : Db) : scanInput + reply unit :=
  let! latest := view_latest q op db in
  match latest with
  | None => inr (Err 404 "no scans available")
  | Some rec => scanInputFor rec op db
  end.

(** The scans of a list, in its order, or the first refusal. *)
Fixpoint load_inputs (recs : list ScanRecord) (opts : BuildOptions) (op : string) (db : Db) : list scanInput + reply unit :=
  match recs with
  | [] => inl []
  | rec :: recs =>
      let! i := scanInputWith rec opts op db in
      let! rest := load_inputs recs opts op db in
      inl (i :: rest)
  end.

Definition loadScanSeries (n : Z) (op : string) (db : Db) : list scanInput + reply unit :=
  let! scans := or_refuse (op ++ ": list scans") "no scans available" (ListScans (fails ListView) n db) in
  load_inputs (rev scans) (reportOptions db) op db.

(** A time as it is written: the instant and the offset of its zone. *)
Context (ParseRFC3339 : string -> option (Z * Z)).

Definition queryTime (q : Query) (key : string) (def : Z) : Z * Z + reply unit :=
  let v := query_get q key in
  if String.eqb v "" then inl (def, 0)
  else match ParseRFC3339 v with Some t => inl t | None => inr (Err 400 (key ++ " must be RFC 3339")) end.

Definition loadScanRange (q : Query) (now : Z) (db : Db) : list scanInput + reply unit :=
  let! since := queryTime q "since" unix_epoch in
  let! until := queryTime q "until" now in
  let! scans := with_err (fun _ => Err 500 "list scans failed") (GetScansByTimeRange (fails RangeView) (snd since) (fst since) (snd until) (fst until) db) in
  let keep := queryLimit (query_get q "scans") max_history_scans max_history_scans in
  load_inputs (rev (take (Z.to_nat keep) scans)) (reportOptions db) "drift" db.

(** ** distributions_handler.go *)

Definition scope_of (q : Query) : string := if String.eqb (query_get q "scope") "" then NormScopeFleet else query_get q "scope".
Definition matches_param (q : Query) (key got : string) : bool := String.eqb (query_get q key) "" || String.eqb got (query_get q key).

Definition shown_distribution (q : Query) (d : Distribution) : bool :=
  (String.eqb (scope_of q) "*" || String.eqb (di_Scope d) (scope_of q)) &&
  matches_param q "scanner" (di_Scanner d) && matches_param q "field" (di_Field d).

Definition handleGetDistributions (q : Query) (db : Db) : reply (string * list Distribution) := answer (
  let! i := loadScanInput q "distributions" db in
  inl (Ok 200 (in_ID i, List.filter (shown_distribution q) (rp_Distributions (input_report i))))).

Record historyPoint := { hs_ScanID : string; hs_Timestamp : Z; hs_Distribution : option Distribution }.

Definition history_point (scope scanner field : string) (i : scanInput) : historyPoint := {|
  hs_ScanID := in_ID i; hs_Timestamp := in_Timestamp i;
  hs_Distribution := List.find (fun d => String.eqb (di_Scope d) scope && String.eqb (di_Scanner d) scanner && String.eqb (di_Field d) field)
    (rp_Distributions (input_report i)) |}.

Definition handleGetDistributionHistory (q : Query) (db : Db) : reply (list historyPoint) := answer (
  let scanner := query_get q "scanner" in let field := query_get q "field" in
  if String.eqb scanner "" || String.eqb field "" then inr (Err 400 "scanner and field are required")
  else
    let! series := loadScanSeries (queryLimit (query_get q "scans") 24 max_history_scans) "distribution history" db in
    inl (Ok 200 (map (history_point (scope_of q) scanner field) series))).

Definition handleGetScoreAttribution (q : Query) (db : Db) : reply (string * FleetScore * option ScoreAttribution) := answer (
  let! i := loadScanInput q "score attribution" db in
  let r := input_report i in
  inl (Ok 200 (in_ID i, rp_FleetScore r, rp_ScoreAttribution r))).

Definition drift_series (q : Query) (now : Z) (db : Db) : list scanInput + reply unit :=
  if negb (String.eqb (query_get q "since") "") || negb (String.eqb (query_get q "until") "") then loadScanRange q now db
  else loadScanSeries (queryLimit (query_get q "scans") 10 max_history_scans) "drift" db.

Definition handleGetDrift (q : Query) (now : Z) (db : Db) : reply Ledger := answer (
  let! series := drift_series q now db in
  inl (Ok 200 (DriftLedger (map (fun i => scan_report (in_ID i) (input_report i)) series)))).

(** ** The report endpoints of handlers.go *)

Definition with_threshold (t : float64) (i : scanInput) : scanInput := {|
  in_ID := in_ID i; in_Timestamp := in_Timestamp i; in_Clusters := in_Clusters i; in_Results := in_Results i;
  in_Opts := {| bo_OutlierThreshold := t; bo_Groups := bo_Groups (in_Opts i); bo_ClusterTags := bo_ClusterTags (in_Opts i) |} |}.

Context (ParseFloat : string -> option float64) (acked : gset string).

Definition at_threshold {A} (q : Query) (op : string) (show : scanInput -> A) (db : Db) : reply A := answer (
  let! t := with_err (fun err => Err 400 err) (queryThreshold ParseFloat (query_get q "threshold")) in
  let! i := loadScanInput q op db in
  inl (Ok 200 (show (with_threshold t i)))).

Definition has_norm (f : Finding) : bool := match fi_Norm f with Some _ => true | None => false end.

Definition handleGetOutliers (q : Query) : Db -> reply (string * list OutlierResult * list Finding) :=
  at_threshold q "outliers" (fun i => let r := input_report i in (in_ID i, rp_Outliers r, markAcked acked (List.filter has_norm (rp_Findings r)))).

Definition handleGetCohorts (q : Query) : Db -> reply (string * list CohortSummary) :=
  at_threshold q "cohorts" (fun i => (in_ID i, rp_Cohorts (input_report i))).

Definition handleGetCapacity (q : Query) (db : Db) : reply (string * list CapacityAnalysis) := answer (
  let! i := loadScanInput q "capacity" db in inl (Ok 200 (in_ID i, bt_Capacity (input_build i)))).

Record clusterDetail := {
  de_Scan : ScanRecord; de_Health : option ClusterHealth; de_Findings : list Finding; de_Data : gmap string json;
  de_Peers : list (string * float64); de_Distributions : list Distribution }.

(** [peers] is where a cluster sits on the cohort map of a report. *)
Definition clusterPlacement (peers : Report -> string -> list (string * float64)) (r : Report) (cluster : string) :
  list (string * float64) * list Distribution :=
  (peers r cluster, List.filter (fun d => existsb (fun v => String.eqb (cv_Cluster v) cluster && cv_Outlier v) (di_Values d)) (rp_Distributions r)).

Definition concerns_cluster (cluster : string) (f : Finding) : bool := String.eqb (fi_Cluster f) cluster || String.eqb (fi_Cluster f) "fleet".

Definition handleGetClusterDetail (peers : Report -> string -> list (string * float64)) (cluster : string) (q : Query) (db : Db) : reply clusterDetail := answer (
  let! latest := view_latest q "cluster detail: list scans" db in
  match latest with
  | None => inr (Err 404 "no scans available")
  | Some rec =>
      let! i := scanInputFor rec "cluster detail" db in
      match in_Results i !! cluster with
      | None => inr (Err 404 "cluster not found in latest scan")
      | Some data =>
          let r := input_report i in
          let '(peers, dists) := clusterPlacement peers r cluster in
          inl (Ok 200 {| de_Scan := rec; de_Health := List.find (fun h => String.eqb (ch_Name h) cluster) (rp_ClusterHealths r);
            de_Findings := markAcked acked (List.filter (concerns_cluster cluster) (rp_Findings r)); de_Data := res_Data <$> data;
            de_Peers := peers; de_Distributions := dists |})
      end
  end).

Definition meta_of (s : ScanRecord) : ScanMeta := {| sm_ID := sn_ID s; sm_Timestamp := sn_Timestamp s |}.

(** The results of several scans, or the first refusal. *)
Fixpoint load_results (recs : list ScanRecord) (op : string) (db : Db) : list (string * Results) + reply unit :=
  match recs with
  | [] => inl []
  | rec :: recs =>
      let! results := or_refuse op "scan results not found" (GetScanResults Unmarshal (fails (ResultsView (sn_ID rec))) (sn_ID rec) db) in
      let! rest := load_results recs op db in
      inl ((sn_ID rec, results) :: rest)
  end.

(** The tables of every cluster of a scan. The scanners of a cluster are an object. *)
Definition fleet_fields (results : Results) : gmap string (gmap string json) :=
  (fun scanners => (fun m => JObj (map_to_list m)) <$> fst (FieldMaps scanners)) <$> results.

Inductive trends_answer := TooFew | FleetTrends (trends : list FleetTrend) (findings : list Finding).

Definition handleGetTrends (q : Query) (db : Db) : reply trends_answer := answer (
  let! scans := with_err (fun _ => Err 500 "list scans failed") (ListScans (fails ListView) (queryLimit (query_get q "scans") 10 maxScanWindow) db) in
  if (length scans <? 2)%nat then inl (Ok 200 TooFew)
  else
    let! raw := load_results scans "trends: get scan results" db in
    let trends := ComputeFleetTrends (map meta_of scans) (list_to_map (map (fun e => (fst e, fleet_fields (snd e))) raw)) in
    inl (Ok 200 (FleetTrends trends (markAcked acked (GenerateTrendFindings [] trends))))).

Definition cluster_fields (cluster : string) (e : string * Results) : option (string * fieldTable) :=
  match snd e !! cluster with Some scanners => Some (fst e, fst (FieldMaps scanners)) | None => None end.

Definition handleGetClusterTrends (cluster : string) (q : Query) (db : Db) : reply (list ClusterTrend * list SelfDrift * list Finding) := answer (
  let! scans := with_err (fun _ => Err 500 "list scans failed") (ListScans (fails ListView) (queryLimit (query_get q "scans") 10 maxScanWindow) db) in
  let! raw := load_results scans "cluster trends: get scan results" db in
  let results := list_to_map (omap (cluster_fields cluster) raw) in
  let trends := ComputeClusterTrends cluster (map meta_of scans) results in
  let drift := DetectSelfDrift cluster (map meta_of scans) results in
  inl (Ok 200 (trends, drift, markAcked acked (GenerateTrendFindings trends [] ++ SelfDriftFindings drift)))).

(** ** forecast_handler.go *)

Definition forecastDefaultLimit : Z := 10.
Definition forecast_limit (q : Query) : Z := match Atoi (query_get q "scans") with Some n => if 0 <? n then n else forecastDefaultLimit | None => forecastDefaultLimit end.

(** The reports of the scans whose results can be read, newest first. *)
Definition score_reports (limit : Z) (db : Db) : list (ScanRecord * Report) :=
  match ListScans (fails ListView) limit db with
  | inr _ => []
  | inl scans => omap (fun s => match GetScanResults Unmarshal (fails (ResultsView (sn_ID s))) (sn_ID s) db with
                                | inr _ => None
                                | inl results => Some (s, bt_Report (build (sn_Clusters s) results (reportOptions db)))
                                end) scans
  end.

Definition fleetScoreHistory (limit : Z) (db : Db) : list FleetScoreHistoryPoint :=
  omap (fun e : ScanRecord * Report => let s := rp_FleetScore (snd e) in
    if fs_Graded s then Some {| hp_ScanID := sn_ID (fst e); hp_Timestamp := sn_Timestamp (fst e); hp_Score := fs_Score s |} else None) (score_reports limit db).

Definition handleGetFleetScoreForecast (q : Query) (db : Db) : reply (list FleetScoreHistoryPoint * FleetScoreForecast) :=
  let points := fleetScoreHistory (forecast_limit q) db in Ok 200 (points, ForecastFleetScore points 0).

Record clusterForecast := { cfc_Cluster : string; cfc_CurrentScore : Z; cfc_Forecast : FleetScoreForecast }.

(** One point for each score of each report. *)
Definition cluster_points (e : ScanRecord * Report) : list (string * FleetScoreHistoryPoint) :=
  map (fun cs => (csc_Cluster cs, {| hp_ScanID := sn_ID (fst e); hp_Timestamp := sn_Timestamp (fst e); hp_Score := csc_Score cs |}))
    (ComputeClusterScores (Some (snd e))).

Definition clusterScoreHistories (limit : Z) (db : Db) : gmap string (list FleetScoreHistoryPoint) := file_under (flat_map cluster_points (score_reports limit db)).

(** The first point of a cluster is the most recent. *)
Definition cluster_forecast (e : string * list FleetScoreHistoryPoint) : clusterForecast := {|
  cfc_Cluster := fst e; cfc_CurrentScore := match snd e with p :: _ => hp_Score p | [] => 0 end; cfc_Forecast := ForecastFleetScore (snd e) 0 |}.

Definition forecast_delta (f : clusterForecast) : Z := wrap64 (fo_Predicted (cfc_Forecast f) - cfc_CurrentScore f).

Definition forecast_cmp : clusterForecast -> clusterForecast -> comparison :=
  cmp_lex (cmp_on (fun f => if fo_Sufficient (cfc_Forecast f) then 0 else 1) Z.compare)
    (cmp_lex (cmp_on forecast_delta Z.compare) (cmp_on (fun f => fo_Predicted (cfc_Forecast f)) Z.compare)).

Definition handleGetClusterForecasts (order : forall A, list A -> list A) (q : Query) (db : Db) : reply (list clusterForecast) :=
  Ok 200 (isort (less_of forecast_cmp) (map cluster_forecast (order _ (map_to_list (clusterScoreHistories (forecast_limit q) db))))).

(** ** timeline_handler.go *)

Record timelineEntry := { te_Kind : string; te_At : Z; te_Severity : string; te_Title : string; te_Detail : string; te_Ref : string }.

Definition scan_entry (s : ScanRecord) : timelineEntry := {|
  te_Kind := "scan"; te_At := sn_Timestamp s; te_Severity := ""; te_Title := "Scan persisted"; te_Detail := ""; te_Ref := sn_ID s |}.
Definition alert_entry (a : AlertRecord) : timelineEntry := {|
  te_Kind := "alert"; te_At := al_ReceivedAt a; te_Severity := al_Severity a; te_Title := al_AlertName a; te_Detail := al_Summary a;
  te_Ref := al_Fingerprint a |}.
Definition ack_entry (a : AckRecord) : timelineEntry := {|
  te_Kind := "ack"; te_At := ar_CreatedAt a; te_Severity := ""; te_Title := "Finding ack: " ++ ar_Title a; te_Detail := ar_Reason a;
  te_Ref := ar_Fingerprint a |}.

Definition containsString (l : list string) (s : string) : bool := existsb (String.eqb s) l.

Definition latest_entry : timelineEntry -> timelineEntry -> comparison := cmp_rev (cmp_on te_At Z.compare).

Context (arrange : list AlertRecord -> list AlertRecord) (arrange_acks : list AckRecord -> list AckRecord).

(** Listing acks deletes those that are over. *)
Definition buildClusterTimeline (now : Z) (cluster : string) (limit : Z) (db : Db) (alerts : AlertTable) (acks : AckTable) :
  AckTable * (list timelineEntry + store_error) :=
  match ListScans (fails ListView) (limit * 5) db with
  | inr e => (acks, inr e)
  | inl scans =>
      let own := take (Z.to_nat limit) (List.filter (fun s => containsString (sn_Clusters s) cluster) scans) in
      match ListAlerts (fails AlertView) arrange {| lo_Limit := limit; lo_Cluster := cluster; lo_Status := ""; lo_Severity := ""; lo_Since := 0 |} alerts with
      | inr e => (acks, inr e)
      | inl listed =>
          let '(acks, found) := ListAcks (fails AckPrune) (fails AckView) arrange_acks now acks in
          let mine := match found with inl l => List.filter (fun a => String.eqb (ar_Cluster a) cluster) l | inr _ => [] end in
          (acks, inl (take (Z.to_nat limit) (isort (less_of latest_entry) (map scan_entry own ++ map alert_entry listed ++ map ack_entry mine))))
      end
  end.

Definition timeline_limit (q : Query) : Z :=
  if String.eqb (query_get q "limit") "" then 100 else match parsePositiveInt (query_get q "limit") 500 with Some n => n | None => 100 end.

Definition timeline_error (e : store_error) : string :=
  match e with ErrInvalid s | ErrDuplicate s | ErrNotFound s | ErrStore s | ErrQuery s => s end.

Definition handleClusterTimeline (ctx : option Actor) (lookup : string -> list string) (now : Z) (cluster : string) (q : Query)
  (db : Db) (alerts : AlertTable) (acks : AckTable) : AckTable * reply (list timelineEntry) :=
  if String.eqb cluster "" then (acks, Err 400 "cluster name required")
  else if (match ctx with Some a => negb (AllowsCluster a (Some lookup) cluster) | None => false end) then (acks, Err 403 "cluster outside actor scope")
  else match buildClusterTimeline now cluster (timeline_limit q) db alerts acks with
  | (acks, inr e) => (acks, Err 500 ("timeline: " ++ timeline_error e))
  | (acks, inl entries) => (acks, Ok 200 entries)
  end.

End Views.

(** ** Lemmas *)

Lemma bind_inl {A B E} (x : A + E) (k : A -> B + E) b : bind x k = inl b -> exists a, x = inl a /\ k a = inl b.
Proof. destruct x; [eauto|done]. Qed.

Lemma with_err_inl {A E F} (f : E -> F) (x : A + E) a : with_err f x = inl a -> x = inl a.
Proof. by destruct x as [?|?]; [intros [= ->]|]. Qed.

Lemma get_scan_inl fails id db r : GetScan fails id db = inl r -> GetScan None id db = inl r /\ sn_ID r = id.
Proof. destruct fails; [done|]. intros H. split; [done|]. unfold GetScan in H. destruct (db_scans db !! id); [|done]. by injection H as <-. Qed.

Lemma get_scan_dated db id r : dated db -> GetScan None id db = inl r -> 0 <= sn_Timestamp r < last_instant /\ stored_time (sn_Timestamp r) = sn_Timestamp r.
Proof.
  intros Hd H. unfold GetScan in H. destruct (db_scans db !! id) as [row|] eqn:E; [|done]. injection H as <-. destruct (Hd _ _ E) as [H1 H2].
  split; [done|]. cbn [scan_record sn_Timestamp]. unfold stored_time, Second in *. Z.to_euclidean_division_equations. lia.
Qed.

(** *** Indexes *)

Lemma last_of_lookup {K A} `{Countable K} (l : list (K * A)) k : last_of l !! k = option_map snd (head (rev (List.filter (fun e => bool_decide (fst e = k)) l))).
Proof.
  unfold last_of. induction l as [|e l IH] using rev_ind; [done|]. rewrite fold_left_app, List.filter_app. cbn [fold_left List.filter].
  destruct (bool_decide_reflect (fst e = k)) as [<-|Hne].
  - by rewrite lookup_insert_eq, rev_app_distr.
  - by rewrite lookup_insert_ne, app_nil_r.
Qed.

(** A finding of the report at or above the severity, under the fingerprint. *)
Definition reported (r : Report) (sev k : string) : Prop :=
  exists f, f ∈ rp_Findings r /\ SeverityAtLeast (fi_Severity f) sev = true /\ FindingFingerprint f = k.

Lemma index_some r sev k f : indexFindings (rp_Findings r) sev !! k = Some f ->
  f ∈ rp_Findings r /\ SeverityAtLeast (fi_Severity f) sev = true /\ FindingFingerprint f = k.
Proof.
  intros H%last_of_some. apply list_elem_of_fmap in H as (g & [= -> ->] & Hg). apply list_elem_of_In, filter_In in Hg as [Hg Hs].
  split; [by apply list_elem_of_In|done].
Qed.

Lemma index_reported r sev k : is_Some (indexFindings (rp_Findings r) sev !! k) <-> reported r sev k.
Proof.
  split; [intros [f H%index_some]; exists f; done|]. intros (f & Hf & Hs & Hk). unfold indexFindings. rewrite last_of_lookup.
  assert (In (FindingFingerprint f, f) (rev (List.filter (fun e => bool_decide (fst e = k)) (map (fun f => (FindingFingerprint f, f))
    (List.filter (fun f => SeverityAtLeast (fi_Severity f) sev) (rp_Findings r)))))) as Hin; [|destruct (rev _) as [|e ?]; [done|by exists (snd e)]].
  apply in_rev. rewrite rev_involutive. apply filter_In. split; [|cbn [fst]; by apply bool_decide_eq_true].
  apply in_map_iff. exists f. split; [done|]. apply filter_In. split; [by apply list_elem_of_In|done].
Qed.

Section Ordered.

Context (order : forall A, list A -> list A) (Horder : forall A (l : list A), order A l ≡ₚ l).

Lemma absent_elem x y f : f ∈ absent_from order x y <-> exists k, x !! k = Some f /\ y !! k = None.
Proof using Horder.
  unfold absent_from. rewrite list_elem_of_omap. setoid_rewrite (Horder _ _). split.
  - intros ([k g] & Hin%elem_of_map_to_list & H). cbn in *. exists k. destruct (y !! k); [done|]. by injection H as ->.
  - intros (k & Hx & Hy). exists (k, f). split; [by apply elem_of_map_to_list|]. cbn. by rewrite Hy.
Qed.

Lemma absent_keys r r' sev k : k ∈ map FindingFingerprint (absent_from order (indexFindings (rp_Findings r) sev) (indexFindings (rp_Findings r') sev)) <->
  reported r sev k /\ ~ reported r' sev k.
Proof using Horder.
  rewrite list_elem_of_fmap. setoid_rewrite absent_elem. split.
  - intros (f & -> & k' & Hx & Hy). destruct (index_some _ _ _ _ Hx) as (_ & _ & <-). split; [apply index_reported; eauto|].
    rewrite <- index_reported, Hy. by intros [? ?].
  - intros [[f Hx]%index_reported Hn]. destruct (index_some _ _ _ _ Hx) as (_ & _ & Hk). exists f. split; [done|]. exists k. split; [done|].
    destruct (_ !! k) eqn:E in |- *; [|done]. exfalso. apply Hn, index_reported. eauto.
Qed.

Lemma omap_keys_NoDup {A B C} (f : A -> option B) (g : A -> C) (h : B -> C) (l : list A) : (forall a b, a ∈ l -> f a = Some b -> h b = g a) ->
  NoDup (map g l) -> NoDup (map h (omap f l)).
Proof.
  induction l as [|a l IH]; intros Hf Hnd; [constructor|]. cbn [map] in Hnd. apply NoDup_cons in Hnd as [Hni Hnd].
  specialize (IH (fun a' b Ha => Hf a' b (list_elem_of_further _ _ _ Ha)) Hnd). cbn [omap list_omap]. destruct (f a) as [b|] eqn:E; [|done].
  cbn [map]. constructor; [|done]. rewrite (Hf a b (list_elem_of_here _ _) E). intros (b' & E' & (a' & Ha' & Hb')%list_elem_of_omap)%list_elem_of_fmap.
  apply Hni, list_elem_of_fmap. exists a'. split; [|done]. rewrite E'. apply Hf; [by right|done].
Qed.

Lemma absent_NoDup l sev y : NoDup (map FindingFingerprint (absent_from order (indexFindings (rp_Findings l) sev) y)).
Proof using Horder.
  unfold absent_from. apply (omap_keys_NoDup _ fst).
  - intros [k f] b Hin H. rewrite (Horder _ _) in Hin. apply elem_of_map_to_list in Hin. cbn in *. destruct (y !! k); [done|]. injection H as <-.
    by destruct (index_some _ _ _ _ Hin) as (_ & _ & <-).
  - rewrite (Horder _ _). apply NoDup_fst_map_to_list.
Qed.

Lemma score_delta_elem a b c : c ∈ clusterScoreDelta order a b <-> exists sa sb,
  indexClusterScores a !! cc_Cluster c = Some sa /\ indexClusterScores b !! cc_Cluster c = Some sb /\ csc_Score sa <> csc_Score sb /\
  c = {| cc_Cluster := cc_Cluster c; cc_ScoreA := csc_Score sa; cc_ScoreB := csc_Score sb; cc_Delta := wrap64 (csc_Score sb - csc_Score sa);
         cc_GradeA := csc_Grade sa; cc_GradeB := csc_Grade sb |}.
Proof using Horder.
  unfold clusterScoreDelta. rewrite isort_elem_of, list_elem_of_omap. setoid_rewrite (Horder _ _). unfold score_change. split.
  - intros ([k sa] & Hin%elem_of_map_to_list & H). cbn in *. destruct (_ !! k) as [sb|] eqn:E in H; [|done].
    destruct (Z.eqb_spec (csc_Score sa) (csc_Score sb)); [done|]. injection H as <-. exists sa, sb. cbn [cc_Cluster]. done.
  - intros (sa & sb & Ha & Hb & Hne & ->). exists (cc_Cluster c, sa). split; [by apply elem_of_map_to_list|]. cbn [cc_Cluster] in *. rewrite Hb.
    destruct (Z.eqb_spec (csc_Score sa) (csc_Score sb)); done.
Qed.

Lemma score_delta_NoDup a b : NoDup (map cc_Cluster (clusterScoreDelta order a b)).
Proof using Horder.
  unfold clusterScoreDelta. rewrite (isort_perm _ _). apply (omap_keys_NoDup _ fst).
  - intros [k sa] c _ H. cbn in *. destruct (_ !! k) as [sb|]; [|done]. destruct (_ =? _); [done|]. by injection H as <-.
  - rewrite (Horder _ _). apply NoDup_fst_map_to_list.
Qed.

End Ordered.

(** ** What changed *)

(** C39: what changed between two reports, whatever the order maps are read in. The new findings
    are one for each identity that the newer report has at or above the severity and the older
    has not, the cleared ones the other way round, both in the order of findings. The cluster
    changes are exactly one record for each cluster both reports score and score differently,
    with its older and newer score and grade and the newer score less the older as its delta
    (as 64-bit integers; scores are between 0 and 100), the lowest delta, the worst loss, first.
    The fleet's scores and whether they are graded are those of the reports, and its delta is
    the newer less the older. *)
Theorem what_changed_exact (order : forall A, list A -> list A) a b idA idB sev : (forall A (l : list A), order A l ≡ₚ l) ->
  let d := computeWhatChanged order a b idA idB sev in
  let keys := map FindingFingerprint in
  (forall k, k ∈ keys (wc_NewFindings d) <-> reported b sev k /\ ~ reported a sev k) /\
  (forall k, k ∈ keys (wc_ClearedFindings d) <-> reported a sev k /\ ~ reported b sev k) /\
  (forall f, f ∈ wc_NewFindings d -> f ∈ rp_Findings b) /\ (forall f, f ∈ wc_ClearedFindings d -> f ∈ rp_Findings a) /\
  Forall (fun l => NoDup (keys l) /\ StronglySorted (cmp_le FindingOrder) l) [wc_NewFindings d; wc_ClearedFindings d] /\
  NoDup (map cc_Cluster (wc_ClusterScoreChanges d)) /\
  StronglySorted (fun x y => cc_Delta x <= cc_Delta y) (wc_ClusterScoreChanges d) /\
  (forall c cluster, c ∈ wc_ClusterScoreChanges d /\ cc_Cluster c = cluster <-> exists sa sb,
     indexClusterScores a !! cluster = Some sa /\ indexClusterScores b !! cluster = Some sb /\ csc_Score sa <> csc_Score sb /\
     c = {| cc_Cluster := cluster; cc_ScoreA := csc_Score sa; cc_ScoreB := csc_Score sb;
            cc_Delta := wrap64 (csc_Score sb - csc_Score sa); cc_GradeA := csc_Grade sa; cc_GradeB := csc_Grade sb |}) /\
  (wc_FleetScoreA d = fs_Score (rp_FleetScore a) /\ wc_FleetScoreB d = fs_Score (rp_FleetScore b) /\
   wc_GradedA d = fs_Graded (rp_FleetScore a) /\ wc_GradedB d = fs_Graded (rp_FleetScore b) /\
   wc_FleetScoreDelta d = wrap64 (fs_Score (rp_FleetScore b) - fs_Score (rp_FleetScore a))).
Proof.
  intros Ho d keys. unfold d. cbn [wc_NewFindings wc_ClearedFindings wc_ClusterScoreChanges computeWhatChanged].
  assert (Hin : forall f x y, f ∈ sort_findings (absent_from order (indexFindings (rp_Findings x) sev) y) -> f ∈ rp_Findings x).
  { intros f x y Hf. unfold sort_findings in Hf. rewrite isort_elem_of, (absent_elem order Ho) in Hf. destruct Hf as (k & Hk & _). by apply index_some in Hk as [? _]. }
  assert (Hl : forall x y, NoDup (keys (sort_findings (absent_from order (indexFindings (rp_Findings x) sev) y))) /\
    StronglySorted (cmp_le FindingOrder) (sort_findings (absent_from order (indexFindings (rp_Findings x) sev) y))).
  { intros x y. split; [unfold keys, sort_findings; rewrite (isort_perm _ _); by apply absent_NoDup|apply by_order_sorted]. }
  split; [|split; [|split; [|split; [|split; [|split; [|split; [|split]]]]]]].
  - intros k. unfold keys, sort_findings. rewrite (isort_perm _ _). by apply absent_keys.
  - intros k. unfold keys, sort_findings. rewrite (isort_perm _ _). by apply absent_keys.
  - intros f. apply Hin.
  - intros f. apply Hin.
  - repeat constructor; apply Hl.
  - by apply score_delta_NoDup.
  - eapply StronglySorted_mono; [|apply isort_sorted; unfold delta_cmp; exact _]. intros x y.
    unfold cmp_le, delta_cmp, cmp_on. by rewrite Z.compare_le_iff.
  - intros c cluster. rewrite (score_delta_elem order Ho). split.
    + intros [(sa & sb & H1 & H2 & H3 & H4) <-]. exists sa, sb. split_and!; done.
    + intros (sa & sb & H1 & H2 & H3 & ->). split; [|reflexivity]. exists sa, sb. cbn [cc_Cluster]. split_and!; done.
  - split_and!; reflexivity.
Qed.

(** ** The window of the ledger *)

Section Window.

Context (Unmarshal : string -> json + string) (build : list string -> Results -> BuildOptions -> Report) (fails : read -> option string).

(** A scan of the window with the report that was rebuilt for it. *)
Definition rebuilt (db : Db) (s : ScanReport) : Prop :=
  exists r rec, loadStoredReport Unmarshal build fails (Drift.sn_ID s) db = inl (r, rec) /\ s = scan_report (Drift.sn_ID s) r.

Lemma load_reports_inl ids db w : load_reports Unmarshal build fails ids db = inl w -> map Drift.sn_ID w = ids /\ Forall (rebuilt db) w.
Proof.
  revert w. induction ids as [|id ids IH]; intros w H; [injection H as <-; split; [done|constructor]|]. cbn [load_reports] in H.
  apply bind_inl in H as ([r rec] & Hl & H). apply bind_inl in H as (rest & Hr & [= <-]). destruct (IH rest Hr) as [E Hf].
  split; [by cbn; f_equal|]. constructor; [|done]. exists r, rec. done.
Qed.

Lemma sorted_snoc {A} (R : A -> A -> Prop) l x : StronglySorted R l -> Forall (fun y => R y x) l -> StronglySorted R (l ++ [x]).
Proof.
  induction 1 as [|y l Hs IH Hy]; intros Hf; cbn [app]; [repeat constructor|]. inversion Hf as [|? ? Hyx Hl]; subst.
  constructor; [by apply IH|]. apply Forall_app. split; [done|]. by repeat constructor.
Qed.

Lemma sorted_rev {A} (R : A -> A -> Prop) l : StronglySorted R l -> StronglySorted (fun x y => R y x) (rev l).
Proof.
  induction 1 as [|x l Hs IH Hx]; [constructor|]. cbn [rev]. apply sorted_snoc; [done|]. rewrite Forall_forall in Hx |- *.
  intros y Hy. apply Hx. by apply list_elem_of_In, in_rev, list_elem_of_In.
Qed.

Lemma sorted_filter {A} (R : A -> A -> Prop) (p : A -> bool) l : StronglySorted R l -> StronglySorted R (List.filter p l).
Proof.
  induction 1 as [|x l Hs IH Hx]; [constructor|]. cbn [List.filter]. destruct (p x); [|done]. constructor; [done|].
  rewrite Forall_forall in Hx |- *. intros y Hy%list_elem_of_In. apply filter_In in Hy as [Hy _]. by apply Hx, list_elem_of_In.
Qed.

Lemma sorted_drop {A} (R : A -> A -> Prop) n l : StronglySorted R l -> StronglySorted R (drop n l).
Proof. intros H. revert n. induction H as [|x l Hs IH Hx]; intros [|n]; try constructor; try done. apply IH. Qed.

(** A scan between two others: stored in the seconds they span, and neither of them. *)
Definition lies_between (db : Db) (a b r : ScanRecord) : Prop :=
  GetScan None (sn_ID r) db = inl r /\ sn_Timestamp a <= sn_Timestamp r <= sn_Timestamp b /\ sn_ID r <> sn_ID a /\ sn_ID r <> sn_ID b.

Definition older (x y : ScanRecord) : Prop := newer y x.

Lemma filter_ids p l : List.filter p (map sn_ID l) = map sn_ID (List.filter (fun r => p (sn_ID r)) l).
Proof. induction l as [|r l IH]; [done|]. cbn. destruct (p _); cbn; by rewrite IH. Qed.

(** The scans between, oldest first. *)
Lemma between_scans db a b fails' l : dated db -> GetScan None (sn_ID a) db = inl a -> GetScan None (sn_ID b) db = inl b ->
  GetScansByTimeRange fails' 0 (sn_Timestamp a) 0 (sn_Timestamp b) db = inl l ->
  exists recs, between_ids (sn_ID a) (sn_ID b) l = map sn_ID recs /\ StronglySorted older recs /\ forall r, r ∈ recs <-> lies_between db a b r.
Proof.
  intros Hd Ha Hb Hl. destruct fails'; [done|]. destruct (get_scan_dated _ _ _ Hd Ha) as [Ta Sa], (get_scan_dated _ _ _ Hd Hb) as [Tb Sb].
  destruct (range_exact db _ _ l Hd Ta Tb Hl) as [Hs Hin]. rewrite Sa, Sb in Hin.
  exists (List.filter (fun r => negb (String.eqb (sn_ID r) (sn_ID a)) && negb (String.eqb (sn_ID r) (sn_ID b))) (rev l)). split; [|split].
  - unfold between_ids. by rewrite filter_ids.
  - apply sorted_filter, (sorted_rev _ _ Hs).
  - intros r. rewrite list_elem_of_In, filter_In, <- in_rev, <- list_elem_of_In, Hin. unfold lies_between.
    rewrite andb_true_iff, !negb_true_iff, !String.eqb_neq. tauto.
Qed.

(** The window of a drift ledger is, in time, the scan it starts from, the stored scans
    between the two, and the scan it ends with, at most fifty: when there are more, the newest.
    Each is with the report rebuilt from what is stored. A pair in any other order is compared
    alone. *)
Theorem drift_window_exact scanA scanB rptA rptB db w : dated db ->
  driftWindow Unmarshal build fails scanA scanB rptA rptB db = inl w ->
  exists a b recs mid, GetScan None scanA db = inl a /\ GetScan None scanB db = inl b /\
    w = [scan_report scanA rptA] ++ mid ++ [scan_report scanB rptB] /\ (length w <= maxDriftScans)%nat /\
    map Drift.sn_ID mid = map sn_ID recs /\ Forall (rebuilt db) mid /\ StronglySorted older recs /\
    (forall r, r ∈ recs -> sn_Timestamp a < sn_Timestamp b /\ lies_between db a b r) /\
    (sn_Timestamp a < sn_Timestamp b -> forall r, lies_between db a b r -> r ∈ recs \/
       length w = maxDriftScans /\ forall x, x ∈ recs -> newer x r).
Proof.
  intros Hd H. unfold driftWindow in H. apply bind_inl in H as (a & Ha%with_err_inl & H). apply bind_inl in H as (b & Hb%with_err_inl & H).
  apply get_scan_inl in Ha as [Ha <-], Hb as [Hb <-]. destruct (Z.ltb_spec (sn_Timestamp a) (sn_Timestamp b)) as [Hlt|Hge]; cbn [negb] in H.
  - apply bind_inl in H as (l & Hl%with_err_inl & H). apply bind_inl in H as (mid & Hm & [= <-]).
    destruct (between_scans db a b _ l Hd Ha Hb Hl) as (recs & Eb & Hs & Hin). rewrite Eb in Hm.
    unfold newest_ids in Hm. rewrite skipn_map, length_map in Hm. set (n := (length recs - (maxDriftScans - 2))%nat) in *.
    apply load_reports_inl in Hm as [Em Hf]. exists a, b, (drop n recs), mid.
    assert (Hlen : length mid = (length recs - n)%nat) by (rewrite <- (length_map Drift.sn_ID mid), Em, length_map; apply length_drop).
    split_and!; try done.
    + cbn [app length]. rewrite length_app. cbn [length]. unfold maxDriftScans in *. lia.
    + by apply sorted_drop.
    + intros r Hr. split; [done|]. apply Hin. rewrite <- (take_drop n recs). apply elem_of_app. by right.
    + intros _ r Hr%Hin. rewrite <- (take_drop n recs) in Hr. apply elem_of_app in Hr as [Hr|Hr]; [right|by left]. split.
      * assert (0 < n)%nat by (destruct n; [by apply not_elem_of_nil in Hr|lia]). cbn [app length]. rewrite length_app. cbn [length]. unfold maxDriftScans in *. lia.
      * intros x Hx. rewrite <- (take_drop n recs) in Hs. by apply (sorted_app_before _ _ _ _ _ Hs Hr Hx).
  - injection H as <-. exists a, b, [], []. split_and!; try done.
    all: try (cbn; unfold maxDriftScans; lia). all: try (intros r Hr; by apply not_elem_of_nil in Hr). all: constructor.
Qed.

End Window.

(** ** Retention *)

Lemma digits_value_app l1 l2 acc : digits_value (l1 ++ l2) acc = match digits_value l1 acc with Some v => digits_value l2 v | None => None end.
Proof. revert acc. induction l1 as [|c l1 IH]; intros acc; [done|]. cbn. destruct (digit_of c); [apply IH|done]. Qed.

Lemma last_digit_value z : digits_value (to_bytes (last_digit z)) 0 = Some (z mod 10) /\ forallb (byte_in 48 57) (to_bytes (last_digit z)) = true.
Proof.
  unfold last_digit. pose proof (Z.mod_pos_bound z 10 ltac:(lia)) as Hm. remember (z mod 10) as m eqn:E. clear E.
  assert (m = 0 \/ m = 1 \/ m = 2 \/ m = 3 \/ m = 4 \/ m = 5 \/ m = 6 \/ m = 7 \/ m = 8 \/ m = 9) as H by lia. by repeat destruct H as [->|H]; [..|subst m].
Qed.

Lemma digits_value_acc l acc v : digits_value l 0 = Some v -> forall k, length l = k -> digits_value l acc = Some (acc * 10 ^ Z.of_nat k + v).
Proof.
  revert acc v. induction l as [|c l IH] using rev_ind; intros acc v H k <-.
  - injection H as <-. cbn. f_equal. lia.
  - rewrite digits_value_app in *. destruct (digits_value l 0) as [u|] eqn:E; [|done]. rewrite (IH acc u eq_refl _ eq_refl).
    cbn [digits_value] in *. destruct (digit_of c) as [d|]; [|done]. injection H as <-. f_equal. rewrite length_app. cbn [length].
    rewrite Nat2Z.inj_add, Z.pow_add_r by lia. change (10 ^ Z.of_nat 1) with 10. lia.
Qed.

(** Numbers as they are written read back. *)
Lemma itoa_value n : 0 <= n -> digits_value (to_bytes (itoa n)) 0 = Some n /\ forallb (byte_in 48 57) (to_bytes (itoa n)) = true /\ itoa n <> ""%string.
Proof.
  intros Hn. remember (Z.to_nat n) as k eqn:Ek. revert n Hn Ek. induction k as [k IH] using lt_wf_ind. intros n Hn Ek. destruct (Z.lt_ge_cases n 10) as [Hlt|Hge].
  - rewrite itoa_digit by lia. destruct (last_digit_value n) as [H1 H2]. rewrite Z.mod_small in H1 by lia. done.
  - rewrite itoa_snoc by done. destruct (last_digit_value n) as [H1 H2]. assert (0 <= n / 10 < n) as Hd by (split; [apply Z.div_pos|apply Z.div_lt]; lia).
    destruct (IH (Z.to_nat (n / 10)) ltac:(lia) (n / 10) ltac:(lia) eq_refl) as (I1 & I2 & I3). rewrite to_bytes_app, forallb_app, I2, H2, digits_value_app, I1.
    split; [|split; [done|by destruct (itoa (n / 10))]]. rewrite (digits_value_acc _ _ _ H1 1%nat eq_refl). f_equal. change (10 ^ Z.of_nat 1) with 10.
    rewrite (Z.div_mod n 10) at 3 by lia. lia.
Qed.

Lemma digit_byte c : byte_in 48 57 c = true -> solid c = true /\ Ascii.eqb c "-" = false /\ Ascii.eqb c "+" = false.
Proof. destruct c as [[] [] [] [] [] [] [] []]; intros H; try discriminate H; vm_compute; done. Qed.

Lemma Atoi_itoa n : 0 <= n < 2 ^ 63 -> Atoi (itoa n) = Some n.
Proof.
  intros Hn. destruct (itoa_value n) as (Hv & Hd & Hne); [lia|]. unfold Atoi. destruct (to_bytes (itoa n)) as [|c l] eqn:E.
  - destruct (itoa n); [done|done].
  - cbn [forallb] in Hd. apply andb_true_iff in Hd as [Hc _]. destruct (digit_byte c Hc) as (_ & -> & ->). rewrite Hv.
    destruct (Z.leb_spec (- 2 ^ 63) n), (Z.ltb_spec n (2 ^ 63)); try lia. done.
Qed.

(** A number with a suffix is trimmed of nothing and cut before the suffix. *)
Lemma suffixed n c : 0 <= n -> solid c = true -> let s := (itoa n ++ String c "")%string in
  TrimSpace s = s /\ s <> ""%string /\ forall d, before_suffix d s = if Ascii.eqb c d then Some (itoa n) else None.
Proof.
  intros Hn Hc s. destruct (itoa_value n Hn) as (_ & Hd & Hne). assert (Hb : to_bytes s = to_bytes (itoa n) ++ [c]) by (unfold s; by rewrite to_bytes_app).
  destruct (to_bytes (itoa n)) as [|x l] eqn:E; [by destruct (itoa n)|]. cbn [forallb] in Hd. apply andb_true_iff in Hd as [Hx _].
  destruct (digit_byte x Hx) as (Sx & _). assert (Es : s = of_bytes (x :: l ++ [c])) by (rewrite <- (of_to_bytes s), Hb; done). split; [|split].
  - rewrite Es. by apply TrimSpace_solid.
  - rewrite Es. done.
  - intros d. unfold before_suffix. rewrite Hb, rev_app_distr. cbn [rev app]. destruct (Ascii.eqb c d); [|done]. f_equal.
    change (rev l ++ [x]) with (rev (x :: l)). rewrite rev_involutive, <- E. apply of_to_bytes.
Qed.

Lemma wrap64_small z : - 2 ^ 63 <= z < 2 ^ 63 -> wrap64 z = z.
Proof. intros H. unfold wrap64. rewrite Z.mod_small by lia. lia. Qed.

Lemma retention_days n : 0 <= n < 2 ^ 63 -> parseRetentionDuration (itoa n ++ "d") = inl (wrap64 (n * 24 * Hour)).
Proof.
  intros Hn. destruct (suffixed n "d" ltac:(lia) eq_refl) as (Ht & Hne & Hb). unfold parseRetentionDuration. rewrite Ht, Hb, Ascii.eqb_refl, Atoi_itoa by done.
  destruct (String.eqb_spec (itoa n ++ "d") ""); done.
Qed.

Lemma retention_years n : 0 <= n < 2 ^ 63 -> parseRetentionDuration (itoa n ++ "y") = inl (wrap64 (n * 365 * 24 * Hour)).
Proof.
  intros Hn. destruct (suffixed n "y" ltac:(lia) eq_refl) as (Ht & Hne & Hb). unfold parseRetentionDuration. rewrite Ht, !Hb, Ascii.eqb_refl. change (Ascii.eqb "y" "d") with false. cbv iota. rewrite Atoi_itoa by done.
  destruct (String.eqb_spec (itoa n ++ "y") ""); done.
Qed.

(** A retention of so many days or years, up to the 292 years a duration can hold, keeps
    exactly the scans of that time, and says how many it deleted. *)
Theorem retention_exact fails zone zone' now n years db db' out : dated db -> fails PruneRead = None ->
  let days := if years : bool then 365 * n else n in
  let text := (itoa n ++ if years then "y" else "d")%string in
  0 <= n -> days <= 106751 -> 0 <= now - days * Day < last_instant ->
  runHistoryPrune fails zone zone' now text false false db = (db', out, None) ->
  (forall i row, db_scans db' !! i = Some row <-> db_scans db !! i = Some row /\ stored_time (now - days * Day) <= sr_Timestamp row) /\
  out = [("deleted " ++ itoa (Z.of_nat (size (db_scans db) - size (db_scans db'))) ++ " scans older than " ++ RFC3339 (now - days * Day))%string].
Proof.
  intros Hdated Hf days text Hn Hdays Hnow H. assert (Hpos : 0 <= days) by (unfold days; destruct years; lia).
  assert (Hp : parseRetentionDuration text = inl (days * Day)).
  { unfold text, days in *. destruct years; [rewrite retention_years by lia|rewrite retention_days by lia]; f_equal; unfold Day, Hour, Minute, Second in *; rewrite wrap64_small; lia. }
  unfold runHistoryPrune in H. rewrite Hp, Hf in H. rewrite wrap64_small in H by (unfold Day, Hour, Minute, Second; lia).
  replace (now + - (days * Day)) with (now - days * Day) in H by lia. set (cutoff := now - days * Day) in *.
  unfold Prune in H. injection H as <- <-. split.
  - intros i row. rewrite delete_scans_lookup. split; (intros [H1 H2]; split; [done|]); destruct (Hdated i row H1) as [T1 T2].
    + rewrite older_than_compare, Z.ltb_ge in H2 by done. by apply seconds_le.
    + rewrite older_than_compare, Z.ltb_ge by done. by apply seconds_le.
  - do 4 f_equal. change (db_scans (delete_scans (older_than cutoff) db)) with (filter (fun e => negb (older_than cutoff (fst e) (snd e)) = true) (db_scans db)).
    rewrite (size_split (fun e => older_than cutoff (fst e) (snd e)) (db_scans db)). f_equal. lia.
Qed.

(** Beyond what a duration can hold the product wraps to a negative one, the cutoff is in the
    future, and every scan is deleted. *)
Lemma long_retention_deletes_all : exists wrapped, parseRetentionDuration "300y" = inl wrapped /\ wrapped < 0 /\
  db_scans sample_db <> ∅ /\ db_scans (fst (fst (runHistoryPrune (fun _ => None) 0 0 (noon + Hour) "300y" false false sample_db))) = ∅.
Proof. eexists. split; [vm_compute; reflexivity|]. split; [done|]. split; [vm_compute; discriminate|vm_compute; reflexivity]. Qed.

(** ** Endpoints: lemmas *)

(** What the first places of a sorted list hold. *)
Lemma top_above {A} (p : A -> bool) l n : StronglySorted (fun x y => p y = true -> p x = true) l -> (n <= length (List.filter p l))%nat ->
  length (take n l) = n /\ forall x, x ∈ take n l -> p x = true.
Proof.
  intros Hs. revert n. induction Hs as [|x l Hs IH Hx]; intros n Hn; cbn [List.filter] in Hn.
  - cbn in Hn. assert (n = 0)%nat as -> by lia. split; [done|]. intros x Hx. by apply not_elem_of_nil in Hx.
  - destruct n as [|n]; [split; [done|]; intros y Hy; by apply not_elem_of_nil in Hy|]. destruct (p x) eqn:Ep; cbn [length] in Hn.
    + destruct (IH n ltac:(lia)) as [Hl Hf]. cbn [take length]. split; [lia|]. intros y [->|Hy]%elem_of_cons; [done|by apply Hf].
    + exfalso. destruct (List.filter p l) as [|y m] eqn:E; [cbn in Hn; lia|]. assert (In y (List.filter p l)) as [Hy Hpy]%filter_In by (rewrite E; by left).
      rewrite Forall_forall in Hx. assert (false = true) by (apply (Hx y); [by apply list_elem_of_In|done]). done.
Qed.

Lemma top_below {A} (R : A -> A -> Prop) l n x : StronglySorted R l -> x ∈ l -> x ∉ take n l -> length (take n l) = n /\ forall y, y ∈ take n l -> R y x.
Proof.
  intros Hs Hin Hni. rewrite <- (take_drop n l) in Hs, Hin. apply elem_of_app in Hin as [|Hin]; [done|]. split.
  - assert (0 < length (drop n l))%nat by (destruct (drop n l); [by apply not_elem_of_nil in Hin|cbn; lia]). rewrite length_drop in *. rewrite length_take. lia.
  - intros y Hy. by eapply sorted_app_before.
Qed.

Lemma sorted_take {A} (R : A -> A -> Prop) n l : StronglySorted R l -> StronglySorted R (take n l).
Proof.
  intros H. revert n. induction H as [|x l Hs IH Hx]; intros [|n]; try constructor; [apply IH|]. rewrite Forall_forall in Hx |- *.
  intros y Hy. apply Hx. apply elem_of_take in Hy as (i & Hy & _). by eapply list_elem_of_lookup_2.
Qed.

Lemma or_refuse_inl {A} op m (x : A + store_error) a : or_refuse op m x = inl a -> x = inl a.
Proof. apply with_err_inl. Qed.

Lemma answer_ok {A} (x : reply A + reply unit) s a : answer x = Ok s a -> x = inl (Ok s a).
Proof. destruct x as [r|[]]; [by intros [= ->]|done|done]. Qed.

(** ** Series of scans *)

Section Series.

Context (Unmarshal : string -> json + string) (build : list string -> Results -> BuildOptions -> Built) (fails : view_read -> option string)
  (ParseRFC3339 : string -> option (Z * Z)).

(** The input of a scan: what is stored for it, with the options of the server. *)
Definition input_of (db : Db) (rec : ScanRecord) (i : scanInput) : Prop :=
  exists results, GetScanResults Unmarshal None (sn_ID rec) db = inl results /\
    i = {| in_ID := sn_ID rec; in_Timestamp := sn_Timestamp rec; in_Clusters := sn_Clusters rec; in_Results := results; in_Opts := reportOptions fails db |}.

Lemma load_inputs_inl recs op db l : load_inputs Unmarshal fails recs (reportOptions fails db) op db = inl l -> Forall2 (input_of db) recs l.
Proof.
  revert l. induction recs as [|rec recs IH]; intros l H; [injection H as <-; constructor|]. cbn [load_inputs] in H.
  apply bind_inl in H as (i & Hi & H). apply bind_inl in H as (rest & Hr & [= <-]). constructor; [|by apply IH].
  unfold scanInputWith in Hi. apply bind_inl in Hi as (results & Hg%or_refuse_inl & [= <-]). exists results. split; [|done].
  by destruct (fails _).
Qed.

(** The newest scans among some, as many as asked for, the oldest first. *)
Definition newest_of (db : Db) (among : ScanRecord -> Prop) (n : Z) (recs : list ScanRecord) : Prop :=
  StronglySorted older recs /\ Z.of_nat (length recs) <= n /\
  (forall r, r ∈ recs -> GetScan None (sn_ID r) db = inl r /\ among r) /\
  (forall r, GetScan None (sn_ID r) db = inl r -> among r -> r ∉ recs -> Z.of_nat (length recs) = n /\ forall x, x ∈ recs -> newer x r).

Lemma newest_of_rev db among n l : 0 <= n -> StronglySorted newer l -> (forall r, r ∈ l <-> GetScan None (sn_ID r) db = inl r /\ among r) ->
  newest_of db among n (rev (take (Z.to_nat n) l)).
Proof.
  intros Hn Hs Hin. assert (Hr : forall r, r ∈ rev (take (Z.to_nat n) l) <-> r ∈ take (Z.to_nat n) l) by (intros r; by rewrite !list_elem_of_In, <- in_rev).
  split; [apply (sorted_rev newer), sorted_take, Hs|]. split; [rewrite length_rev, length_take; lia|]. split.
  - intros r [i [Hi _]]%Hr%elem_of_take. apply Hin. by eapply list_elem_of_lookup_2.
  - intros r Hg Ha Hni. rewrite Hr in Hni. destruct (top_below newer l (Z.to_nat n) r Hs) as [Hl Hx]; [by apply Hin|done|].
    split; [rewrite length_rev, Hl; lia|]. intros x. rewrite Hr. apply Hx.
Qed.

Lemma all_listed db fails' l : dated db -> ListScans fails' (-1) db = inl l -> StronglySorted newer l /\ forall r, r ∈ l <-> GetScan None (sn_ID r) db = inl r /\ True.
Proof.
  intros Hd Hl. destruct fails'; [done|]. injection Hl as <-. cbn [sql_limit Z.ltb Z.compare]. split.
  - apply (sorted_newer db); [done|intros r; by rewrite isort_perm|rewrite isort_perm; apply all_scans_NoDup|apply isort_sorted; exact _].
  - intros r. rewrite isort_perm, elem_of_all_scans. unfold GetScan. split.
    + intros (row & Hrow & E). rewrite Hrow, <- E. done.
    + intros [H _]. destruct (db_scans db !! sn_ID r) as [row|]; [|done]. injection H as H. by exists row.
Qed.

Lemma series_newest n op db l : dated db -> 0 <= n -> loadScanSeries Unmarshal fails n op db = inl l ->
  exists recs, newest_of db (fun _ => True) n recs /\ Forall2 (input_of db) recs l.
Proof.
  intros Hd Hn H. unfold loadScanSeries in H. apply bind_inl in H as (scans & Hs%or_refuse_inl & H%load_inputs_inl). exists (rev scans). split; [|done].
  destruct (fails ListView); [done|]. destruct (all_listed db None _ Hd eq_refl) as [Hall Hin].
  assert (scans = take (Z.to_nat n) (isort (less_of newest_cmp) (all_scans db))) as ->.
  { unfold ListScans in Hs. injection Hs as <-. unfold sql_limit. destruct (Z.ltb_spec n 0); [lia|done]. }
  by apply newest_of_rev.
Qed.

(** The scans a drift request is about: those between its times, or all. *)
Definition asked_for (q : Query) (now : Z) (r : ScanRecord) : Prop :=
  query_get q "since" = "" /\ query_get q "until" = "" \/ exists since until,
    queryTime ParseRFC3339 q "since" unix_epoch = inl since /\ queryTime ParseRFC3339 q "until" now = inl until /\
    stored_time (fst since) <= sn_Timestamp r <= stored_time (fst until).

Lemma query_time_utc q key def t : (forall v t off, ParseRFC3339 v = Some (t, off) -> off = 0 /\ 0 <= t < last_instant) -> 0 <= def < last_instant ->
  queryTime ParseRFC3339 q key def = inl t -> snd t = 0 /\ 0 <= fst t < last_instant.
Proof.
  intros Hp Hd H. unfold queryTime in H. destruct (String.eqb _ _); [by injection H as <-|]. destruct (ParseRFC3339 _) as [[t' off]|] eqn:E; [|done].
  injection H as <-. destruct (Hp _ _ _ E). done.
Qed.

Lemma scan_count_bounds value def : 1 <= def <= max_history_scans -> 1 <= queryLimit value def max_history_scans <= max_history_scans.
Proof. intros H. by apply query_limit_bounds. Qed.

Lemma range_newest q now db l : dated db -> 0 <= now < last_instant ->
  (forall v t off, ParseRFC3339 v = Some (t, off) -> off = 0 /\ 0 <= t < last_instant) -> ~ (query_get q "since" = "" /\ query_get q "until" = "") ->
  loadScanRange Unmarshal fails ParseRFC3339 q now db = inl l ->
  exists n recs, 1 <= n <= max_history_scans /\ newest_of db (asked_for q now) n recs /\ Forall2 (input_of db) recs l.
Proof.
  intros Hd Hnow Hp Hne H. unfold loadScanRange in H. apply bind_inl in H as ([since off] & Hs & H). apply bind_inl in H as ([until off'] & Hu & H).
  apply bind_inl in H as (scans & Hg%with_err_inl & H%load_inputs_inl). cbn [fst snd] in *.
  assert (He : 0 <= unix_epoch < last_instant) by (vm_compute; split; [discriminate|reflexivity]).
  destruct (query_time_utc _ _ _ _ Hp He Hs) as [E1 T1].
  destruct (query_time_utc _ _ _ _ Hp Hnow Hu) as [E2 T2]. cbn [fst snd] in *. subst off off'.
  destruct (fails RangeView); [done|]. destruct (range_exact db since until scans Hd T1 T2 Hg) as [Hsort Hin].
  pose proof (scan_count_bounds (query_get q "scans") max_history_scans ltac:(unfold max_history_scans; lia)) as Hb.
  eexists _, _. split; [exact Hb|]. split; [|exact H]. apply newest_of_rev; [lia|done|]. intros r. rewrite Hin. apply and_iff_compat_l. unfold asked_for. split.
  - intros Hr. right. eexists (_, _), (_, _). split; [exact Hs|]. split; [exact Hu|]. exact Hr.
  - intros [?|(x & y & Hx & Hy & Hr)]; [done|]. rewrite Hs in Hx. rewrite Hu in Hy. injection Hx as <-. injection Hy as <-. exact Hr.
Qed.

(** A drift answer is the ledger of the newest scans asked for, the oldest first: of all
    scans, or of those stored between the two times given in UTC; never more than fifty, and
    each rebuilt from what is stored of it. *)
Theorem drift_reads_newest q now db ledger : dated db -> 0 <= now < last_instant ->
  (forall v t off, ParseRFC3339 v = Some (t, off) -> off = 0 /\ 0 <= t < last_instant) ->
  handleGetDrift Unmarshal build fails ParseRFC3339 q now db = Ok 200 ledger ->
  exists n recs inputs, 1 <= n <= max_history_scans /\ newest_of db (asked_for q now) n recs /\ Forall2 (input_of db) recs inputs /\
    ledger = DriftLedger (map (fun i => scan_report (in_ID i) (input_report build i)) inputs).
Proof.
  intros Hd Hnow Hp H%answer_ok. apply bind_inl in H as (series & Hs & [= <-]). unfold drift_series in Hs.
  destruct (String.eqb_spec (query_get q "since") "") as [E1|E1]; [destruct (String.eqb_spec (query_get q "until") "") as [E2|E2]|]; cbn [negb orb] in Hs.
  - pose proof (scan_count_bounds (query_get q "scans") 10 ltac:(unfold max_history_scans; lia)) as Hb.
    apply series_newest in Hs as (recs & Hn & Hf); [|done|lia]. exists (queryLimit (query_get q "scans") 10 max_history_scans), recs, series.
    split; [exact Hb|]. split; [|done]. destruct Hn as (H1 & H2 & H3 & H4). split_and!; [done|done| |].
    + intros r Hr%H3. split; [apply Hr|]. left. done.
    + intros r Hr _. by apply H4.
  - destruct (range_newest q now db series) as (n & recs & H1 & H2 & H3); try done; [by intros [_ ?]|]. by exists n, recs, series.
  - destruct (range_newest q now db series) as (n & recs & H1 & H2 & H3); try done; [by intros [? _]|]. by exists n, recs, series.
Qed.

End Series.

(** ** The timeline *)

Section Timeline.

Context (fails : view_read -> option string) (arrange : list AlertRecord -> list AlertRecord) (arrange_acks : list AckRecord -> list AckRecord).

(** An entry that is listed, or came after as many as are shown. *)
Definition listed_or_older (out : list timelineEntry) (limit : Z) (e : timelineEntry) : Prop :=
  e ∈ out \/ Z.of_nat (length out) = limit /\ forall x, x ∈ out -> te_At e <= te_At x.

Lemma latest_entry_le x y : cmp_le latest_entry x y <-> te_At y <= te_At x.
Proof. unfold cmp_le, latest_entry, cmp_rev, cmp_on. apply Z.compare_le_iff. Qed.

#[local] Instance timelineEntry_eq_dec : EqDecision timelineEntry.
Proof. solve_decision. Defined.

#[local] Instance latest_entry_order : CmpOrder latest_entry.
Proof. unfold latest_entry. apply _. Qed.

Lemma sorted_above t l : StronglySorted (cmp_le latest_entry) l -> StronglySorted (fun x y => (t <=? te_At y) = true -> (t <=? te_At x) = true) l.
Proof. apply StronglySorted_mono. intros x y. rewrite latest_entry_le, !Z.leb_le. lia. Qed.

(** The newest of a pool leave out only what is older. *)
Lemma newest_entries pool limit e : 0 <= limit ->
  e ∈ pool \/ (Z.to_nat limit <= length (List.filter (fun x => (te_At e <=? te_At x)%Z) pool))%nat ->
  listed_or_older (take (Z.to_nat limit) (isort (less_of latest_entry) pool)) limit e.
Proof.
  intros Hl He. set (l := isort (less_of latest_entry) pool). assert (Hs : StronglySorted (cmp_le latest_entry) l) by (apply isort_sorted; exact _).
  destruct (decide (e ∈ take (Z.to_nat limit) l)) as [|Hni]; [by left|right]. destruct He as [He|He].
  - destruct (top_below _ l (Z.to_nat limit) e Hs) as [H1 H2]; [by apply isort_elem_of|done|]. split; [lia|]. intros x Hx. by apply latest_entry_le, H2.
  - destruct (top_above (fun x => te_At e <=? te_At x) l (Z.to_nat limit)) as [H1 H2]; [by apply sorted_above| |].
    + unfold l. by rewrite (Permutation_filter _ _ _ (isort_perm _ pool)).
    + split; [lia|]. intros x Hx. by apply Z.leb_le, H2.
Qed.

Lemma filter_length_map {A} (f : A -> timelineEntry) t l n : (n <= length l)%nat -> (forall x, x ∈ l -> t <= te_At (f x)) ->
  (n <= length (List.filter (fun x => (t <=? te_At x)%Z) (map f l)))%nat.
Proof.
  intros Hn Hf. enough (List.filter (fun x => t <=? te_At x) (map f l) = map f l) as -> by (by rewrite length_map).
  clear Hn. induction l as [|x l IH]; [done|]. cbn [map List.filter]. rewrite (proj2 (Z.leb_le _ _) (Hf x ltac:(by left))). f_equal. apply IH. intros y Hy. apply Hf. by right.
Qed.

Lemma filter_app_length {A} (p : A -> bool) l1 l2 n : (n <= length (List.filter p l1) \/ n <= length (List.filter p l2))%nat -> (n <= length (List.filter p (l1 ++ l2)))%nat.
Proof. rewrite List.filter_app, length_app. lia. Qed.

Lemma contains_spec l s : containsString l s = true <-> s ∈ l.
Proof. unfold containsString. rewrite existsb_exists, list_elem_of_In. split; [intros (x & Hx & E%String.eqb_eq); by subst|intros H; exists s; by rewrite String.eqb_refl]. Qed.

(** A sorted source cut at the limit: what is cut off is older than what is kept. *)
Lemma cut_source {A} (f : A -> timelineEntry) (R : A -> A -> Prop) l limit pool x : 0 <= limit -> StronglySorted R l -> x ∈ l ->
  (forall y z, R y z -> te_At (f z) <= te_At (f y)) -> (forall t, (length (List.filter (fun e => (t <=? te_At e)%Z) (map f (take (Z.to_nat limit) l))) <=
    length (List.filter (fun e => (t <=? te_At e)%Z) pool))%nat) -> (forall e, e ∈ map f (take (Z.to_nat limit) l) -> e ∈ pool) ->
  listed_or_older (take (Z.to_nat limit) (isort (less_of latest_entry) pool)) limit (f x).
Proof.
  intros Hl Hs Hx HR Hlen Hsub. apply newest_entries; [done|]. destruct (decide (f x ∈ map f (take (Z.to_nat limit) l))) as [Hin|Hni]; [left; by apply Hsub|right].
  assert (Hni' : x ∉ take (Z.to_nat limit) l) by (intros H; apply Hni, list_elem_of_fmap; by exists x).
  destruct (top_below R l (Z.to_nat limit) x Hs Hx Hni') as [H1 H2]. etransitivity; [|apply Hlen]. apply filter_length_map; [lia|]. intros y Hy. by apply HR, H2.
Qed.

Lemma list_scans_sorted db n l : dated db -> ListScans None n db = inl l ->
  StronglySorted newer l /\ forall s, s ∈ l -> GetScan None (sn_ID s) db = inl s.
Proof.
  intros Hd H. destruct (all_listed db None _ Hd eq_refl) as [Hs Hin]. unfold ListScans in H. injection H as <-. unfold sql_limit.
  change (sql_limit (-1) (isort (less_of newest_cmp) (all_scans db))) with (isort (less_of newest_cmp) (all_scans db)) in Hs, Hin.
  destruct (n <? 0); (split; [try apply sorted_take; exact Hs|]); intros s Hsin; apply Hin; [done|].
  apply elem_of_take in Hsin as (i & Hi & _). by eapply list_elem_of_lookup_2.
Qed.

Lemma newer_entry x y : newer x y -> te_At (scan_entry y) <= te_At (scan_entry x).
Proof. unfold newer. cbn. lia. Qed.

Lemma cluster_alert cluster limit al : cluster <> "" ->
  alert_matches {| lo_Limit := limit; lo_Cluster := cluster; lo_Status := ""; lo_Severity := ""; lo_Since := 0 |} al = true <-> al_Cluster al = cluster.
Proof.
  intros Hc. unfold alert_matches. cbn [lo_Cluster lo_Status lo_Severity lo_Since]. rewrite (proj2 (String.eqb_neq cluster "") Hc), String.eqb_refl.
  cbn [orb]. rewrite !andb_true_r. apply String.eqb_eq.
Qed.

(** The timeline of a cluster lists, newest first and never more than the limit, scans that
    cover the cluster, alerts about it and acks for it, all as they are stored. Of those, the
    scans among the newest five times the limit, every alert and every ack that could be read
    are listed unless as many entries that are no older fill the list. *)
Theorem timeline_exact now cluster limit db alerts acks acks' out : dated db -> (forall l, arrange l ≡ₚ l) -> (forall l, arrange_acks l ≡ₚ l) ->
  cluster <> "" -> 1 <= limit ->
  buildClusterTimeline fails arrange arrange_acks now cluster limit db alerts acks = (acks', inl out) ->
  StronglySorted (fun x y => te_At y <= te_At x) out /\ Z.of_nat (length out) <= limit /\
  (forall e, e ∈ out ->
     (exists s, GetScan None (sn_ID s) db = inl s /\ cluster ∈ sn_Clusters s /\ e = scan_entry s) \/
     (exists k a, alerts !! k = Some a /\ al_Cluster a = cluster /\ e = alert_entry a) \/
     (exists k a, acks' !! k = Some a /\ ar_Cluster a = cluster /\ e = ack_entry a)) /\
  (forall s scans, ListScans None (limit * 5) db = inl scans -> s ∈ scans -> cluster ∈ sn_Clusters s -> listed_or_older out limit (scan_entry s)) /\
  (forall k a, alerts !! k = Some a -> al_Cluster a = cluster -> listed_or_older out limit (alert_entry a)) /\
  (forall k a, fails AckPrune = None -> fails AckView = None -> acks' !! k = Some a -> ar_Cluster a = cluster -> listed_or_older out limit (ack_entry a)).
Proof.
  intros Hd Ha Hk Hc Hlim H. unfold buildClusterTimeline in H.
  destruct (fails ListView); [done|]. destruct (ListScans None (limit * 5) db) as [scans|] eqn:Escans; [|done].
  destruct (list_scans_sorted db _ _ Hd Escans) as [Hsort Hstored].
  destruct (fails AlertView); [done|]. unfold ListAlerts in H. cbn [lo_Limit] in H.
  assert (default_limit limit = limit) as Edl by (unfold default_limit; destruct (Z.leb_spec limit 0); lia). rewrite Edl in H.
  set (cover := List.filter (fun s => containsString (sn_Clusters s) cluster) scans) in *. set (matching := List.filter (alert_matches _) _) in *.
  set (sorted := isort (less_of received_cmp) (arrange matching)) in *.
  destruct (ListAcks (fails AckPrune) (fails AckView) arrange_acks now acks) as [rows found] eqn:Eacks. injection H as <- Hout.
  set (mine := match found with inl l => _ | inr _ => [] end) in *. set (pool := map scan_entry _ ++ _) in *. subst out.
  assert (Hcover : forall s, s ∈ cover <-> s ∈ scans /\ cluster ∈ sn_Clusters s).
  { intros s. unfold cover. by rewrite list_elem_of_In, filter_In, <- list_elem_of_In, contains_spec. }
  assert (Hsorted : forall al, al ∈ sorted <-> exists k, alerts !! k = Some al /\ al_Cluster al = cluster).
  { intros al. unfold sorted, matching. rewrite isort_elem_of, (Ha _), list_elem_of_In, filter_In, <- list_elem_of_In, cluster_alert by done.
    rewrite list_elem_of_fmap. split.
    - intros [([k al'] & -> & Hk'%elem_of_map_to_list) Hcl]. by exists k.
    - intros (k & Hal & Hcl). split; [|done]. exists (k, al). split; [done|]. by apply elem_of_map_to_list. }
  assert (Hmine : forall a, a ∈ mine -> exists k, rows !! k = Some a /\ ar_Cluster a = cluster).
  { intros a. unfold mine. destruct found as [l|]; [|intros H; by apply not_elem_of_nil in H]. intros [Hin%list_elem_of_In Hcl%String.eqb_eq]%list_elem_of_In%filter_In.
    unfold ListAcks in Eacks. destruct (pruneExpiredAcks _ _ _) as [rows' [err|]]; [done|]. injection Eacks as -> Ef. destruct (fails AckView); [done|]. injection Ef as <-.
    rewrite isort_elem_of, (Hk _) in Hin. apply list_elem_of_fmap in Hin as ([k a'] & -> & Hin%elem_of_map_to_list). by exists k. }
  assert (Hpool : forall e, e ∈ pool -> e ∈ map scan_entry cover \/ e ∈ map alert_entry sorted \/ e ∈ map ack_entry mine).
  { intros e. unfold pool. rewrite !elem_of_app, !list_elem_of_fmap. intros [(x & -> & (i & Hx%list_elem_of_lookup_2 & _)%elem_of_take)|[(x & -> & (i & Hx%list_elem_of_lookup_2 & _)%elem_of_take)|?]]; eauto 10. }
  split_and!.
  - eapply StronglySorted_mono; [|apply sorted_take, isort_sorted; exact latest_entry_order]. intros x y. apply latest_entry_le.
  - rewrite length_take. lia.
  - intros e (i & He%list_elem_of_lookup_2 & _)%elem_of_take. rewrite isort_elem_of in He. apply Hpool in He. rewrite !list_elem_of_fmap in He.
    destruct He as [(s & -> & [Hs Hcl]%Hcover)|[(al & -> & (k & Hal & Hcl)%Hsorted)|(a & -> & (k & Hak & Hcl)%Hmine)]]; [left|right; left|right; right]; eauto 10.
  - intros s scans' [= <-] Hs Hcl. apply (cut_source scan_entry newer cover); [lia|by apply sorted_filter|by apply Hcover|apply newer_entry| |].
    + intros t. unfold pool. rewrite List.filter_app, length_app. lia.
    + intros e He. apply elem_of_app. by left.
  - intros k al Hal Hcl. apply (cut_source alert_entry (cmp_le received_cmp) sorted); [lia|apply isort_sorted; exact _|apply Hsorted; by exists k| | |].
    + intros y z. unfold cmp_le, received_cmp, cmp_rev, cmp_on. cbn. rewrite Z.compare_le_iff. done.
    + intros t. unfold pool. rewrite !List.filter_app, !length_app. lia.
    + intros e He. apply elem_of_app. right. apply elem_of_app. by left.
  - intros k a Ep Ev Hak Hcl. apply newest_entries; [lia|]. left. unfold pool. rewrite !elem_of_app. right. right. apply list_elem_of_fmap. exists a. split; [done|].
    unfold mine. unfold ListAcks in Eacks. rewrite Ep, Ev in Eacks. cbn [pruneExpiredAcks] in Eacks. injection Eacks as -> <-.
    apply list_elem_of_In, filter_In. split; [|by apply String.eqb_eq]. apply list_elem_of_In. rewrite isort_elem_of, (Hk _), list_elem_of_fmap.
    exists (k, a). split; [done|]. by apply elem_of_map_to_list.
Qed.

End Timeline.

(** ** The theorems at work *)

Definition found : Finding := {|
  fi_Title := "Node not ready"; fi_Description := ""; fi_Severity := "critical"; fi_Cluster := "a"; fi_Scanner := "nodes";
  fi_Rule := "node_not_ready"; fi_Fingerprint := ""; fi_Acked := false; fi_Affected := []; fi_Remediation := None;
  fi_Norm := None; fi_Marks := [] |}%string.

Lemma what_changed_exact_witness : FindingFingerprint found ∈
  map FindingFingerprint (wc_NewFindings (computeWhatChanged (fun _ l => l) report_zero (with_findings report_zero [found]) "s1" "s2" "warning")).
Proof.
  apply (what_changed_exact (fun _ l => l) report_zero (with_findings report_zero [found]) "s1" "s2" "warning" (fun _ l => Permutation_refl l)).
  split; [exists found; split; [by left|done]|]. intros (f & Hf & _). by apply not_elem_of_nil in Hf.
Defined.

Definition scan_at (t : Z) : ScanRow := {| sr_Timestamp := t; sr_Clusters := ["a"%string]; sr_Scanners := [] |}.
Definition series_db : Db :=
  set_scans (fun _ => {["s1"%string := scan_at noon; "s2"%string := scan_at (noon + Minute); "s3"%string := scan_at (noon + Hour)]}) empty_db.

Lemma series_dated : dated series_db.
Proof.
  intros i row H. unfold series_db in H. cbn [set_scans db_scans] in H.
  repeat (apply lookup_insert_Some in H as [[_ <-]|[_ H]]; [vm_compute; split; [split; [discriminate|reflexivity]|reflexivity]|]).
  apply lookup_singleton_Some in H as [_ <-]. vm_compute. split; [split; [discriminate|reflexivity]|reflexivity].
Qed.

Lemma drift_window_exact_witness : exists w,
  driftWindow sample_unmarshal sample_build (fun _ => None) "s1" "s3" report_zero report_zero series_db = inl w /\
  map Drift.sn_ID w = ["s1"; "s2"; "s3"]%string /\ (length w <= maxDriftScans)%nat.
Proof.
  eexists. split; [vm_compute; reflexivity|]. split; [reflexivity|].
  destruct (drift_window_exact sample_unmarshal sample_build (fun _ => None) "s1" "s3" report_zero report_zero series_db _ series_dated
    ltac:(vm_compute; reflexivity)) as (a & b & recs & mid & _ & _ & _ & H & _).
  exact H.
Defined.

Lemma retention_exact_witness :
  db_scans (fst (fst (runHistoryPrune (fun _ => None) 0 0 (noon + 2 * Day) "1d" false false sample_db))) !! "s1"%string = None.
Proof.
  set (out := runHistoryPrune (fun _ => None) 0 0 (noon + 2 * Day) "1d" false false sample_db).
  assert (E : out = (fst (fst out), snd (fst out), None)) by (vm_compute; reflexivity).
  destruct (retention_exact (fun _ => None) 0 0 (noon + 2 * Day) 1 false sample_db (fst (fst out)) (snd (fst out)) sample_dated eq_refl) as [H _];
    [done|done|vm_compute; split; [discriminate|reflexivity]|exact E|].
  destruct (db_scans (fst (fst out)) !! "s1"%string) as [row|] eqn:Er; [|done]. apply H in Er as [Er Hle]. exfalso.
  assert (Some row = Some (scan_row_of noon sample_rec sample_results)) as [= ->] by (rewrite <- Er; vm_compute; reflexivity).
  apply Hle. vm_compute. reflexivity.
Defined.

(** ** The endpoints at work *)

Definition blank_build (clusters : list string) (results : Results) (opts : BuildOptions) : Built := {|
  bt_Report := report_zero; bt_Capacity := []; bt_Brief := generateBrief report_zero |}.

Lemma drift_reads_newest_witness : exists ledger,
  handleGetDrift sample_unmarshal blank_build (fun _ => None) (fun _ => None) {["scans" := "2"]} (noon + Day) series_db = Ok 200 ledger /\
  le_Scans ledger = ["s2"; "s3"] /\ exists n recs, 1 <= n <= max_history_scans /\ newest_of series_db (asked_for (fun _ => None) {["scans" := "2"]} (noon + Day)) n recs.
Proof.
  eexists. split; [vm_compute; reflexivity|]. split; [reflexivity|].
  edestruct (drift_reads_newest sample_unmarshal blank_build (fun _ => None) (fun _ => None) {["scans" := "2"]} (noon + Day) series_db)
    as (n & recs & inputs & H1 & H2 & _); [exact series_dated|vm_compute; split; [discriminate|reflexivity]|discriminate|vm_compute; reflexivity|].
  exists n, recs. split; [exact H1|exact H2].
Defined.

Lemma timeline_exact_witness : exists out,
  snd (buildClusterTimeline (fun _ => None) id id (noon + Day) "a" 2 series_db ∅ ∅) = inl out /\ map te_Ref out = ["s3"; "s2"] /\ Z.of_nat (length out) <= 2.
Proof.
  destruct (buildClusterTimeline (fun _ => None) id id (noon + Day) "a" 2 series_db ∅ ∅) as [acks' res] eqn:E.
  assert (map te_Ref match res with inl out => out | inr _ => [] end = ["s3"; "s2"]) as Hr.
  { replace res with (snd (buildClusterTimeline (fun _ => None) id id (noon + Day) "a" 2 series_db ∅ ∅)) by (by rewrite E). vm_compute. reflexivity. }
  destruct res as [out|e]; [|discriminate]. exists out. split; [reflexivity|]. split; [exact Hr|].
  apply (timeline_exact (fun _ => None) id id (noon + Day) "a" 2 series_db ∅ ∅ acks' out series_dated (fun l => Permutation_refl l) (fun l => Permutation_refl l));
    [discriminate|discriminate|exact E].
Defined.
